(* ===== verification/_CoqProject ===== *)
-Q . S2P
Prelude.v
Chains.v
Skiplist.v
Kvars.v
Context.v
Mtable.v
Rings.v
Flush.v
Insert.v
MmuIo.v
Hash.v
Emu.v
MmuFb.v
Fault.v
GuestHash.v
Mmu.v
Timer.v
TimerInv.v
Pic.v
Ioports.v
Nvram.v
Adb.v
Actions.v
ActionsInv.v
Cuda.v
CudaInv.v
CudaWire.v
FileIO.v
Qcow.v
QcowInv.v
QcowDisk.v
Memory.v
Dbdma.v
DbdmaInv.v
Pci.v
PciInv.v
Gc.v
PciBridge.v
Oftree.v
OftreeInv.v
OftreePath.v
Promif.v
PromifInv.v
OfText.v
OfTextInv.v
OfTextRound.v
PciInit.v
BlockDev.v
Ablk.v
AblkInv.v
AblkRing.v
AblkThread.v
AblkLink.v
Dmg.v
DmgInv.v
Usb.v
UsbInv.v
UsbBulk.v
CString.v
DiskOpen.v
ResMgr.v
ResMgrExp.v
ResMgrInv.v
ResMgrFile.v
Blkdev.v
BlkdevInv.v
Pseudofs.v
