(* ===== verification/Prelude.v ===== *)
(** * Mac-on-Linux: a verification library

    Mac-on-Linux (MOL) runs a PowerPC Macintosh operating system inside a
    Linux process.  The guest executes natively; a kernel module takes its
    exceptions and owns the page table entries it runs on, and a user process
    emulates the machine around the processor: interrupt controllers, timers,
    buses, disks and the Open Firmware device tree.  This library models the
    C code of both halves as it is written and proves what makes it correct.
    This file is the root: it documents the whole and holds the notations,
    machine integers, tactics and generic lemmas the components share.

    ** The kernel module ([src/kmod])

    The guest's page faults flow through these parts: [page_fault] (fault.c)
    translates the effective address with the guest's segment registers, BATs
    and page table, mphys_to_pte (mmu_io.c) completes the physical half,
    the PTE goes into the hardware hash (hash.c) and is recorded by
    pte_inserted (mtable.c).  When the guest changes its MMU registers
    (emu.c), invalidates an address or writes its page table (ptaccess.c), or
    Linux takes a page away, mtable.c finds and zeroes the PTEs concerned.

    - [Skiplist]: skiplist.c, on a heap of elements and pointers.  The
      refinement to a finite map, iteration in key order, and the memory that
      [skiplist_prealloc] carves up.
    - [Kvars]: the state of the module (kernel_vars.h and what it points to)
      and the state monad of its code; every allocation may fail.
    - [Context]: context.c, the numbering of VSIDs.
    - [Chains], [Mtable], [Rings], [Flush], [Insert]: mtable.c.  [Mtable] is
      the code; [Rings] the view of its pointers as rings and the invariant;
      [Flush] and [Insert] show that each operation removes, zeroes and
      records exactly the PTEs it should and keeps the invariant.
    - [MmuIo]: mmu_io.c, block translations and I/O pages.
    - [Hash], [Emu], [MmuFb], [Fault], [Mmu]: hash.c, emu.c with ptaccess.c,
      mmu_fb.c with mmu_tracker.c, fault.c, mmu.c.  Theorems: the emulated
      hash always lies in RAM, initialisation is all or nothing.
    - [GuestHash]: fault.c against ptaccess.c (a write to a PTE flushes
      exactly the page that the PTE translates) and against the protection
      rule of the architecture.
    - [Actions], [ActionsInv]: actions.c, the patching of the host kernel;
      taking the module out leaves no trace.

    ** The emulator ([src/main], [src/drivers])

    - [Timer], [TimerInv]: timer.c, the sorted list of deadlines.
    - [Pic]: pic.c and osi_pic.c, both instances of the class
      [irq_controller] that their clients (such as [Ablk]) are proved
      against.
    - [Ioports]: ioports.c, the registration and dispatch of I/O ranges.
    - [Nvram], [Adb]: nvram.c, adb.c.
    - [Cuda], [CudaInv], [CudaWire]: via-cuda.c over [Adb] and [Pic]: no
      buffer is overrun and no lock is waited for in vain, whatever the guest
      does; a driver that follows the wire protocol gets its packets
      processed and their replies byte for byte.
    - [Memory], [Dbdma], [DbdmaInv]: the translation of guest physical
      addresses (memory.c) and the descriptor-based DMA (dbdma.c), which
      scatters and gathers the stream of a device.
    - [Pci], [PciInv], [Gc], [PciBridge], [PciInit]: pci.c, gc.c and
      pci-bridges.c over [Ioports], with the addresses the device tree
      assigns.
    - [Oftree], [OftreeInv], [OftreePath], [Promif], [PromifInv], [OfText],
      [OfTextInv], [OfTextRound]: promif.c: the tree of nodes, paths, the
      interrupt lookup, the calls of the guest, and the text form with its
      parser, its printer and their round trip.
    - [FileIO], [Qcow], [QcowInv], [QcowDisk]: the system calls on a file, and
      blk_qcow.c with vec_wrap.c over them.  An image implements a disk of
      sectors; what has been written is found again when the file is opened
      anew.
    - [BlockDev]: bdev_desc_t as a class with the plain files of blk_raw.c
      and the copy-on-write images as instances, and the laws of a device
      that holds bytes, which its clients assume and these discharge.
    - [Ablk], [AblkInv], [AblkRing]: ablk.c and ablk-cd.c over [BlockDev] and
      [Pic], run without interference: a batch of requests has the effect of
      its transfers in order.
    - [AblkThread], [AblkLink]: the engine thread and the calls of the guest
      interleaved, as a step relation; the calls of [Ablk] are runs of it.
      No wake-up is lost, every request is served.
    - [Dmg], [DmgInv]: blk_dmg.c.
    - [Usb], [UsbInv], [UsbBulk]: usb.c over [Memory], [Pic] and a class of
      clients (usb_ops_t).  Ports, devices and the interrupt line agree
      whatever happens; a queue of descriptors transfers the stream of a
      client; the walk along the endpoints.
    - [CString]: C strings in arrays, extralib.c.
    - [DiskOpen]: disk_open.c: the checks before a disk is written to.
    - [ResMgr], [ResMgrExp], [ResMgrInv], [ResMgrFile]: res_manager.c and
      cmdline_opts.h: the configuration language and the command line.  The
      expansion of variables stays in its buffer; parsing ends and only
      appends; what users may set; files mean what their structure says, and
      tables are read back.
    - [Blkdev], [BlkdevInv]: blkdev.c over [DiskOpen], [ResMgr] and a class of
      disk formats: which descriptors stay open (those of the registered
      disks and of the backing files of refused images), writable disks were
      granted.
    - [Pseudofs]: pseudofs.c over [Memory] and [ResMgr].

    ** Conventions

    A definition has the name of the C function, type or constant it
    translates; a loop or a block of a long function that is a definition of
    its own is named after what it does.  Integers are [Z] with the
    wrap-around written out ([u32], [s32] and their 8, 16 and 64-bit
    relatives).  Pointers are addresses, offsets into an area, or keys of a
    finite map; where objects are shared, the store is explicit.  A result of
    type [option] is [None] where C is undefined (an access outside an array,
    a null or dangling pointer); where such a run has to be told apart from a
    loop that does not end, the result has the constructors [Crash] or
    [Stuck] and [Fuel].

    Recursion that C leaves unbounded runs on fuel.  Where a loop ends, the
    theorem says so with a fuel that is enough, computed from the state: the
    number of elements for the lists, rings and tables, the length of the
    text for the parser, the bytes of a transfer for the retry loop of the
    disk engine, the chunks of an image for a binary search.  Where it may
    not end the theorem says that no fuel is enough
    ([PromifInv.irq_lookup_hangs], the second half of
    [DmgInv.search_chunk_correct]).  Constants of the code (16 timers, 16
    levels, 32 vectors, 16 cached tables) are kept.

    Code outside of the repository is a parameter: the answers of the host
    (allocations, system calls, time, the CD drive), decompression, and the
    handlers other drivers register.  Theorems about it state what they rely
    on as hypotheses and have a witness with a concrete instance.

    ** What the theorems found

    Several theorems state what the code does where it does not do what it
    means to: the bound of the NVRAM is off by one
    ([Nvram.nvram_check_off_by_one]), an interrupt lookup never returns
    ([PromifInv.irq_lookup_hangs]), an event of a disk is lost between two
    accesses ([AblkThread.event_lost]), a compressed image is read from the
    wrong sector ([DmgInv.dmg_read_correct]), the conditions of a DMA command
    are misread ([DbdmaInv.conditions_misread]), a link out of RAM sends the USB
    controller into an endless loop ([UsbBulk.ed_list_walk]).

    ** Not modelled

    The assembly of the kernel module (traps.S and its neighbours) and the
    main loop around it would need a semantics of the PowerPC.  Glue to the
    interfaces of the host has no content besides them: the entry points of
    the module, video (X11, VNC), sound (ALSA, OSS, SDL), the network
    interfaces, PCI pass-through, the terminal.  Vendored or generated code
    is left aside: the disassemblers of the debugger, BootX, AES, kconfig,
    the video mode parser.  Not reached: the SCSI emulation, the other old-world
    devices, sessions, the boot loaders.
    Within the modelled components, debugger commands and console messages
    are left out; freeing memory has no counterpart where no later step could
    observe it; and locks are only modelled where the code takes one that it
    may already hold ([Cuda]). *)

From Stdlib Require Export ZArith Lia Sorted.
From stdpp Require Export base list gmap option fin_maps numbers.

#[global] Open Scope Z_scope.

Declare Scope mol_scope.
Delimit Scope mol_scope with mol.

(** C operators on integers. *)
Notation "a .& b" := (Z.land a b) (at level 42, left associativity) : mol_scope.
Notation "a .| b" := (Z.lor a b) (at level 44, left associativity) : mol_scope.
Notation "a .^ b" := (Z.lxor a b) (at level 43, left associativity) : mol_scope.
Notation "a .<< b" := (Z.shiftl a b) (at level 41, left associativity) : mol_scope.
Notation "a .>> b" := (Z.shiftr a b) (at level 41, left associativity) : mol_scope.
#[global] Open Scope mol_scope.

(** ** Machine integers: the low 32 bits of an integer, unsigned and signed. *)
Definition u32 (z : Z) : Z := z mod 2 ^ 32.

Definition s32 (z : Z) : Z :=
  let u := z mod 2 ^ 32 in if u <? 2 ^ 31 then u else u - 2 ^ 32.

(** One's complement inside a 32-bit word. *)
Definition not32 (z : Z) : Z := z .^ 0xffffffff.

(** [MOL_BIT(n)] numbers the bits of a word from the most significant one. *)
Definition MOL_BIT (n : Z) : Z := 1 .<< (31 - n).

(** [if( x & m )] *)
Definition tst (x m : Z) : bool := negb (x .& m =? 0).

Lemma u32_range z : 0 <= u32 z < 2 ^ 32.
Proof. apply Z.mod_pos_bound. lia. Qed.

Lemma u32_small z : 0 <= z < 2 ^ 32 -> u32 z = z.
Proof. intros H. by apply Z.mod_small. Qed.

Lemma u32_idemp z : u32 (u32 z) = u32 z.
Proof. apply u32_small, u32_range. Qed.

Lemma u32_add_l a b : u32 (u32 a + b) = u32 (a + b).
Proof. apply Zplus_mod_idemp_l. Qed.

Lemma u32_add_r a b : u32 (a + u32 b) = u32 (a + b).
Proof. apply Zplus_mod_idemp_r. Qed.

Lemma u32_sub_l a b : u32 (u32 a - b) = u32 (a - b).
Proof. apply Zminus_mod_idemp_l. Qed.

Lemma u32_sub_r a b : u32 (a - u32 b) = u32 (a - b).
Proof. apply Zminus_mod_idemp_r. Qed.

Lemma s32_range z : - 2 ^ 31 <= s32 z < 2 ^ 31.
Proof.
  unfold s32. pose proof (Z.mod_pos_bound z (2 ^ 32) ltac:(lia)).
  destruct (Z.ltb_spec (z mod 2 ^ 32) (2 ^ 31)); lia.
Qed.

Lemma s32_small z : - 2 ^ 31 <= z < 2 ^ 31 -> s32 z = z.
Proof.
  intros H. unfold s32. destruct (Z.ltb_spec (z mod 2 ^ 32) (2 ^ 31)) as [Hl|Hl].
  - destruct (decide (0 <= z)).
    + apply Z.mod_small. lia.
    + rewrite <- (Z_mod_plus_full z 1), Z.mod_small in Hl by lia. lia.
  - destruct (decide (0 <= z)).
    + rewrite Z.mod_small in Hl by lia. lia.
    + rewrite <- (Z_mod_plus_full z 1), Z.mod_small by lia. lia.
Qed.

Lemma s32_add a b : s32 (s32 a + b) = s32 (a + b).
Proof.
  assert (H1 : (s32 a + b) mod 2 ^ 32 = (a + b) mod 2 ^ 32).
  { rewrite <- (Zplus_mod_idemp_l a). unfold s32. destruct (_ <? _); [done|].
    replace (a mod 2 ^ 32 - 2 ^ 32 + b) with (a mod 2 ^ 32 + b + (-1) * 2 ^ 32) by lia. apply Z_mod_plus_full. }
  unfold s32 at 1 3. by rewrite H1.
Qed.

Lemma s32_u32 z : s32 (u32 z) = s32 z.
Proof. unfold s32, u32. by rewrite Z.mod_mod by lia. Qed.

Lemma u32_s32 z : u32 (s32 z) = u32 z.
Proof.
  unfold s32, u32. destruct (Z.ltb_spec (z mod 2 ^ 32) (2 ^ 31)).
  - apply Z.mod_mod. lia.
  - replace (z mod 2 ^ 32 - 2 ^ 32) with (z mod 2 ^ 32 + (-1) * 2 ^ 32) by lia.
    rewrite Z_mod_plus_full. apply Z.mod_mod. lia.
Qed.

(** ** Bit-level reasoning *)

(** Prove an equation of bit expressions position by position. *)
Ltac zbits :=
  apply Z.bits_inj'; intros ? ?;
  repeat (rewrite ?Z.land_spec, ?Z.lor_spec, ?Z.lxor_spec, ?Z.ldiff_spec,
            ?Z.shiftl_spec, ?Z.shiftr_spec, ?Z.lnot_spec, ?Z.bits_0 by lia).

Lemma land_ones_mod x n : 0 <= n -> x .& (2 ^ n - 1) = x mod 2 ^ n.
Proof. intros. rewrite <- Z.land_ones by done. f_equal. rewrite Z.ones_equiv. lia. Qed.

Lemma land_ones_range x n : 0 <= n -> 0 <= x .& (2 ^ n - 1) < 2 ^ n.
Proof. intros. rewrite land_ones_mod by done. apply Z.mod_pos_bound. lia. Qed.

Lemma tst_true x m : tst x m = true <-> x .& m <> 0.
Proof. unfold tst. rewrite negb_true_iff. apply Z.eqb_neq. Qed.

Lemma tst_false x m : tst x m = false <-> x .& m = 0.
Proof. unfold tst. rewrite negb_false_iff. apply Z.eqb_eq. Qed.

Lemma one_bit_spec n k : 0 <= n -> 0 <= k -> Z.testbit (1 .<< n) k = (n =? k).
Proof. intros. rewrite Z.shiftl_1_l. by rewrite Z.pow2_bits_eqb. Qed.

Lemma tst_bit x n : 0 <= n -> tst x (1 .<< n) = Z.testbit x n.
Proof.
  intros Hn. unfold tst. apply eq_true_iff_eq.
  rewrite negb_true_iff, Z.eqb_neq, Z.shiftl_1_l. split.
  - intros H. destruct (Z.testbit x n) eqn:E; [done|]. exfalso. apply H. zbits.
    destruct (decide (n = n0)) as [<-|]; [by rewrite E|].
    by rewrite Z.pow2_bits_false, andb_false_r by done.
  - intros H E. apply (f_equal (fun z => Z.testbit z n)) in E.
    rewrite Z.land_spec, Z.pow2_bits_true, H, Z.bits_0 in E by lia. discriminate E.
Qed.

Lemma not32_spec x n : 0 <= n < 32 -> Z.testbit (not32 x) n = negb (Z.testbit x n).
Proof.
  intros Hn. unfold not32. rewrite Z.lxor_spec.
  replace 0xffffffff with (Z.ones 32) by reflexivity.
  rewrite Z.ones_spec_low by lia. by rewrite xorb_true_r.
Qed.

Lemma testbit_high x k n : 0 <= x < 2 ^ k -> k <= n -> Z.testbit x n = false.
Proof.
  intros Hx Hn. destruct (decide (x = 0)) as [->|]; [apply Z.bits_0|].
  apply Z.bits_above_log2; [lia|]. apply Z.log2_lt_pow2; [lia|].
  apply Z.lt_le_trans with (2 ^ k); [lia|]. apply Z.pow_le_mono_r; lia.
Qed.

(** Masking the low bits away *)
Lemma land_align a k : 0 <= a < 2 ^ 32 -> 0 <= k <= 32 -> a .& not32 (2 ^ k - 1) = a - a mod 2 ^ k.
Proof.
  intros Ha Hk.
  replace (a - a mod 2 ^ k) with ((a .>> k) .<< k).
  2: { rewrite Z.shiftl_mul_pow2, Z.shiftr_div_pow2 by lia.
       pose proof (Z.div_mod a (2 ^ k) ltac:(lia)). lia. }
  replace (2 ^ k - 1) with (Z.ones k) by (rewrite Z.ones_equiv; lia).
  apply Z.bits_inj'. intros n Hn. rewrite Z.land_spec.
  destruct (decide (n < 32)).
  - rewrite not32_spec by lia. destruct (decide (n < k)).
    + rewrite Z.ones_spec_low, Z.shiftl_spec_low by lia. apply andb_false_r.
    + rewrite Z.ones_spec_high, Z.shiftl_spec, Z.shiftr_spec by lia.
      rewrite andb_true_r. f_equal. lia.
  - rewrite (testbit_high a 32), Z.shiftl_spec, Z.shiftr_spec by lia.
    rewrite (testbit_high a 32) by lia. done.
Qed.

Lemma MOL_BIT_shift n : MOL_BIT n = 1 .<< (31 - n).
Proof. done. Qed.

(** ** Big-endian byte sequences *)

Definition be_value (l : list Z) : Z := fold_left (fun v b => v * 256 + b) l 0.
Fixpoint be_bytes (n : nat) (v : Z) : list Z :=
  match n with
  | O => []
  | S n' => be_bytes n' (v .>> 8) ++ [v .& 0xff]
  end.

Lemma be_value_app l b : be_value (l ++ [b]) = be_value l * 256 + b.
Proof. unfold be_value. by rewrite fold_left_app. Qed.

Lemma be_bytes_value n v : 0 <= v < 256 ^ Z.of_nat n -> be_value (be_bytes n v) = v.
Proof.
  revert v. induction n as [|n IH]; intros v Hv.
  - cbn in *. unfold be_value. cbn. lia.
  - cbn [be_bytes]. rewrite be_value_app, IH.
    + rewrite Z.shiftr_div_pow2 by lia. change 0xff with (2 ^ 8 - 1).
      rewrite land_ones_mod by lia. change (2 ^ 8) with 256.
      pose proof (Z.div_mod v 256 ltac:(lia)). lia.
    + rewrite Z.shiftr_div_pow2 by lia. change (2 ^ 8) with 256.
      rewrite Nat2Z.inj_succ, Z.pow_succ_r in Hv by lia.
      split; [apply Z.div_pos; lia|]. apply Z.div_lt_upper_bound; lia.
Qed.

Lemma be_bytes_length n v : length (be_bytes n v) = n.
Proof. revert v. induction n as [|n IH]; intros v; cbn; [done|]. rewrite length_app, IH. cbn. lia. Qed.

(** ** Automation shared by the development *)

Create HintDb mol discriminated.
#[export] Hint Resolve u32_range s32_range : mol.
Create Rewrite HintDb mol_rw.
#[export] Hint Rewrite u32_idemp u32_add_l u32_add_r u32_sub_l u32_sub_r s32_u32 u32_s32
  : mol_rw.

(** Split the conditionals and matches of the goal. *)
Ltac cases := repeat (case_match; simplify_eq/=).

(** Turn boolean comparisons in the context into propositions. *)
Ltac bool_hyps :=
  repeat match goal with
  | H : (_ <? _) = true |- _ => apply Z.ltb_lt in H
  | H : (_ <? _) = false |- _ => apply Z.ltb_ge in H
  | H : (_ <=? _) = true |- _ => apply Z.leb_le in H
  | H : (_ <=? _) = false |- _ => apply Z.leb_gt in H
  | H : (_ =? _) = true |- _ => apply Z.eqb_eq in H
  | H : (_ =? _) = false |- _ => apply Z.eqb_neq in H
  | H : _ && _ = true |- _ => apply andb_true_iff in H as [? ?]
  | H : _ || _ = false |- _ => apply orb_false_iff in H as [? ?]
  | H : negb _ = true |- _ => apply negb_true_iff in H
  | H : negb _ = false |- _ => apply negb_false_iff in H
  end.

(** Invert a successful computation in the option monad. *)
Ltac inv_bind :=
  repeat match goal with
  | H : (_ ≫= _) = Some _ |- _ => apply bind_Some in H; destruct H as (? & ? & H)
  | H : Some _ = Some _ |- _ => injection H as H; subst
  end.

(** Reduce the binds of the option monad without unfolding anything else. *)
Ltac mred := cbn [mbind option_bind fst snd].
