(* ===== verification/Chains.v ===== *)
(** * Linked structures in memory

    A chain is a path of links from one address to another; the rings and
    free lists of [mtable.c] are chains of three different link functions.
    The lemmas say how a path changes when a link is redirected. *)

From S2P Require Import Prelude.

Module Chains.

(** Following [nx] from [p] visits [xs] and then reaches [e]. *)
Fixpoint chain (nx : Z -> option Z) (p : Z) (xs : list Z) (e : Z) : Prop :=
  match xs with
  | [] => nx p = Some e
  | x :: xs' => nx p = Some x /\ chain nx x xs' e
  end.

(** The last address of [p :: xs]. *)
Fixpoint lastd (p : Z) (xs : list Z) : Z :=
  match xs with [] => p | x :: xs' => lastd x xs' end.

Lemma lastd_in xs : forall p, lastd p xs ∈ p :: xs.
Proof. induction xs as [|x xs IH]; intros p; cbn; [left|right; apply IH]. Qed.

Lemma lastd_app A x B : forall p, lastd p (A ++ x :: B) = lastd x B.
Proof. induction A as [|a A IH]; intros p; [done|]. apply IH. Qed.

Lemma lastd_snoc A x p : lastd p (A ++ [x]) = x.
Proof. apply lastd_app. Qed.

Lemma lastd_nin A p x : x ≠ p -> x ∉ A -> lastd p A ≠ x.
Proof. intros H1 H2 <-. pose proof (lastd_in A p) as H. set_solver. Qed.

Lemma lastd_mem A C p : lastd p A ∈ p :: A ++ C.
Proof. rewrite app_comm_cons. apply elem_of_app. left. apply lastd_in. Qed.

Lemma elem_mid (A : list Z) x B : x ∈ A ++ x :: B.
Proof. apply elem_of_app. right. left. Qed.

Lemma chain_app nx A x B e : forall p,
  chain nx p (A ++ x :: B) e <-> chain nx p A x /\ chain nx x B e.
Proof.
  induction A as [|a A IH]; intros p; cbn; [done|]. rewrite IH. tauto.
Qed.

Lemma chain_ext nx nx' xs e : forall p,
  (forall a, a ∈ p :: xs -> nx' a = nx a) -> chain nx p xs e -> chain nx' p xs e.
Proof.
  induction xs as [|x xs IH]; intros p Hx; cbn.
  - by rewrite Hx by left.
  - intros [H1 H2]. split; [by rewrite Hx by left|]. apply IH; [|done].
    intros a Ha. apply Hx. by right.
Qed.

Lemma chain_last nx xs e : forall p, chain nx p xs e -> nx (lastd p xs) = Some e.
Proof. induction xs as [|x xs IH]; intros p; cbn; [done|]. intros [_ H]. by apply IH. Qed.

Lemma chain_some nx xs e : forall p a, chain nx p xs e -> a ∈ p :: xs -> is_Some (nx a).
Proof.
  induction xs as [|x xs IH]; intros p a; cbn.
  - intros H Ha. apply list_elem_of_singleton in Ha as ->. by rewrite H.
  - intros [H1 H2] Ha. apply elem_of_cons in Ha as [->|Ha]; [by rewrite H1|].
    by apply (IH x).
Qed.

(** Redirecting the last link of a chain *)
Lemma chain_relast nx nx' xs e e' : forall p,
  NoDup (p :: xs) -> nx' (lastd p xs) = Some e' ->
  (forall a, a ∈ p :: xs -> a <> lastd p xs -> nx' a = nx a) ->
  chain nx p xs e -> chain nx' p xs e'.
Proof.
  induction xs as [|x xs IH]; intros p Hd He Hx; cbn in *; [done|].
  apply list.NoDup_cons in Hd as [Hp Hd]. intros [H1 H2]. split.
  - rewrite Hx; [done|left|]. intros E. apply Hp. rewrite E. apply lastd_in.
  - apply IH; try done. intros a Ha. apply Hx. by right.
Qed.

(** Taking [x] out of a chain: its predecessor gets its link. *)
Lemma chain_remove nx nx' A x B e p :
  NoDup (p :: A ++ x :: B) -> nx' (lastd p A) = nx x ->
  (forall a, a ∈ p :: A ++ B -> a <> lastd p A -> nx' a = nx a) ->
  chain nx p (A ++ x :: B) e -> chain nx' p (A ++ B) e.
Proof.
  intros Hd Hl Hx [H1 H2]%chain_app.
  rewrite app_comm_cons in Hd. apply list.NoDup_app in Hd as (HdA & HAB & HdB).
  destruct B as [|b B]; cbn in H2.
  - rewrite app_nil_r in *. apply (chain_relast nx _ _ x); [done|congruence| |done].
    intros a Ha. apply Hx. done.
  - destruct H2 as [H2 H3]. apply chain_app. split.
    + apply (chain_relast nx _ _ x); [done|congruence| |done].
      intros a Ha. apply Hx. set_solver.
    + apply (chain_ext nx); [|done]. intros a Ha. apply Hx; [set_solver|].
      intros ->. pose proof (lastd_in A p). apply (HAB (lastd p A)); [done|set_solver].
Qed.

(** Putting [x] into a chain right after its start *)
Lemma chain_insert nx nx' xs e p x :
  nx' p = Some x -> nx' x = nx p -> x ∉ p :: xs -> p ∉ xs ->
  (forall a, a ∈ xs -> nx' a = nx a) ->
  chain nx p xs e -> chain nx' p (x :: xs) e.
Proof.
  intros H1 H2 Hx Hp Hs Hc. cbn. split; [done|]. destruct xs as [|y xs]; cbn in *.
  - congruence.
  - destruct Hc as [Hc1 Hc2]. split; [congruence|]. by apply (chain_ext nx).
Qed.

(** A cycle can be started anywhere. *)
Lemma cycle_rotate nx h A x B :
  chain nx h (A ++ x :: B) h <-> chain nx x (B ++ h :: A) x.
Proof. rewrite !chain_app. tauto. Qed.

(** A chain of distinct keys of a map is not longer than the map. *)
Lemma chain_bound {V} (m : gmap Z V) (xs : list Z) :
  NoDup xs -> (forall x, x ∈ xs -> is_Some (m !! x)) -> (length xs <= size m)%nat.
Proof.
  intros Hd Hx. rewrite <- (size_list_to_set (C := gset Z)) by done. rewrite <- size_dom.
  apply subseteq_size. intros x Hin. apply elem_of_dom, Hx. by apply elem_of_list_to_set in Hin.
Qed.

End Chains.
