(* ===== verification/Skiplist.v ===== *)
(** * Skip lists of the kernel module ([src/kmod/skiplist.c], [src/shared/skiplist.h])

    The heap is modelled by pointers: an element lives at the address of its
    [skiplist_el_t], the data of [datasize] bytes lies just before it.  The
    operations are the C loops, level by level, on that heap; running into a
    null or dangling pointer is [None].  The second half shows that on every
    well-formed skip list the operations implement a finite map from keys to
    data addresses. *)

From S2P Require Import Prelude.

Module Skiplist.

(** ** Data *)

Definition SKIPLIST_MAX_HEIGHT : nat := 16.
Definition SKIPLIST_END : Z := 2 ^ 31 - 1.

(** [skiplist_el_t*]: null, the pseudo element whose [level] array is
    [sl->root], the address of [sl->nil_el], or an element of the heap. *)
Inductive ptr : Set := PNull | PRoot | PNil | PEl (a : Z).

#[export] Instance ptr_eq_dec : EqDecision ptr.
Proof. solve_decision. Defined.

Record skiplist_el := El { key : Z; level : list ptr }.

Record skiplist := Sl {
  nel : Z;
  slevel : Z;
  datasize : Z;
  root : list ptr;
  nil_el : skiplist_el;
  freelist : ptr;
  self : Z;                  (** address of the [skiplist_t] itself *)
  mem : gmap Z skiplist_el   (** the elements, by address *)
}.

(** Sizes of the C types on a 32-bit PowerPC (Linux). *)
Definition sizeof_skiplist_level : Z := 4.
Definition sizeof_skiplist_el : Z := 4 + sizeof_skiplist_level.
Definition sizeof_skiplist : Z :=
  3 * 4 + 16 * sizeof_skiplist_level + sizeof_skiplist_el + sizeof_skiplist_level.
Definition offsetof_nil_el : Z := 3 * 4 + 16 * sizeof_skiplist_level.

Definition set_root r (s : skiplist) : skiplist :=
  Sl (nel s) (slevel s) (datasize s) r (nil_el s) (freelist s) (self s) (mem s).
Definition set_nil_el e (s : skiplist) : skiplist :=
  Sl (nel s) (slevel s) (datasize s) (root s) e (freelist s) (self s) (mem s).
Definition set_freelist f (s : skiplist) : skiplist :=
  Sl (nel s) (slevel s) (datasize s) (root s) (nil_el s) f (self s) (mem s).
Definition set_mem m (s : skiplist) : skiplist :=
  Sl (nel s) (slevel s) (datasize s) (root s) (nil_el s) (freelist s) (self s) m.
Definition set_nel n (s : skiplist) : skiplist :=
  Sl n (slevel s) (datasize s) (root s) (nil_el s) (freelist s) (self s) (mem s).
Definition set_slevel l (s : skiplist) : skiplist :=
  Sl (nel s) l (datasize s) (root s) (nil_el s) (freelist s) (self s) (mem s).

(** ** Field accesses through a pointer *)

(** [p->level[n]] *)
Definition lev (sl : skiplist) (p : ptr) (n : nat) : option ptr :=
  match p with
  | PNull => None
  | PRoot => root sl !! n
  | PNil => level (nil_el sl) !! n
  | PEl a => e ← mem sl !! a; level e !! n
  end.

(** [p->level[n] = q] *)
Definition set_lev (sl : skiplist) (p : ptr) (n : nat) (q : ptr) : option skiplist :=
  match p with
  | PNull => None
  | PRoot => if decide (n < length (root sl))%nat
             then Some (set_root (<[n := q]> (root sl)) sl) else None
  | PNil => let e := nil_el sl in
            if decide (n < length (level e))%nat
            then Some (set_nil_el (El (key e) (<[n := q]> (level e))) sl) else None
  | PEl a => e ← mem sl !! a;
             if decide (n < length (level e))%nat
             then Some (set_mem (<[a := El (key e) (<[n := q]> (level e))]> (mem sl)) sl)
             else None
  end.

(** [p->key] *)
Definition keyof (sl : skiplist) (p : ptr) : option Z :=
  match p with
  | PNull | PRoot => None
  | PNil => Some (key (nil_el sl))
  | PEl a => key <$> mem sl !! a
  end.

(** [p->key = k] *)
Definition set_key (sl : skiplist) (p : ptr) (k : Z) : option skiplist :=
  match p with
  | PNull | PRoot => None
  | PNil => Some (set_nil_el (El k (level (nil_el sl))) sl)
  | PEl a => e ← mem sl !! a; Some (set_mem (<[a := El k (level e)]> (mem sl)) sl)
  end.

(** The data pointer: [p - sl->datasize] in bytes. *)
Definition data_of (sl : skiplist) (p : ptr) : Z :=
  match p with
  | PNull | PRoot => 0
  | PNil => self sl + offsetof_nil_el - datasize sl
  | PEl a => a - datasize sl
  end.

(** ** Random numbers *)

(** [mol_rand_seed], and the number of time base reads ([mftb]) made so far;
    the values the time base returns are the environment's. *)
Record rng := Rng { mol_rand_seed : Z; ntb : nat }.

Definition cntlz (v : Z) : Z := if u32 v =? 0 then 32 else 31 - Z.log2 (u32 v).

Section Random.
Variable mftb : nat -> Z.

Definition mol_random (r : rng) : Z * rng :=
  let t := u32 (mftb (ntb r)) in
  let seed := u32 (mol_rand_seed r * 69069 + 1) in
  (seed .^ t, Rng seed (S (ntb r))).

Definition mol_random_entropy (r : rng) : rng :=
  Rng (mol_rand_seed r .^ u32 (mftb (ntb r))) (S (ntb r)).

(** [for( n=0; n<SKIPLIST_MAX_HEIGHT-1 && (mol_random() & 0x40) ; n++ )];
    [k] is [SKIPLIST_MAX_HEIGHT-1-n]. *)
Fixpoint random_height (k : nat) (r : rng) : nat * rng :=
  match k with
  | O => (O, r)
  | S k' => let '(v, r1) := mol_random r in
            if tst v 0x40 then let '(n, r2) := random_height k' r1 in (S n, r2) else (O, r1)
  end.

(** ** [skiplist_init] *)

(** [memset] and the initial fields; the heap is the environment's. *)
Definition skiplist_init (sl : skiplist) (dsize : Z) (r : rng) : skiplist * rng :=
  (Sl 0 0 dsize (replicate SKIPLIST_MAX_HEIGHT PNil) (El SKIPLIST_END [PNil]) PNull
      (self sl) (mem sl),
   mol_random_entropy r).

(** ** [skiplist_prealloc] *)

(** Carve the buffer into elements, chained through [level[0]].  The levels
    above 0 hold what the buffer held (callers zero it). *)
Fixpoint carve (fuel : nat) (sl : skiplist) (buf size : Z) (head : ptr) (count : nat) (r : rng)
  : option (skiplist * ptr * nat * rng) :=
  match fuel with
  | O => None
  | S f =>
      let '(n, r1) := random_height (SKIPLIST_MAX_HEIGHT - 1) r in
      let s := datasize sl + sizeof_skiplist + Z.of_nat n * sizeof_skiplist_level in
      if size <? s then Some (sl, head, count, r1)
      else
        let p := buf + datasize sl in
        let e := El (Z.of_nat n) (head :: replicate n PNull) in
        carve f (set_mem (<[p := e]> (mem sl)) sl) (buf + s) (size - s) (PEl p) (S count) r1
  end.

Section Prealloc.
Context {U : Type} (callback : option (skiplist -> U -> Z -> Z -> Z -> skiplist * U)).

(** Run the callback on each new element and append the old free list. *)
Fixpoint prealloc_finish (fuel : nat) (sl : skiplist) (u : U) (head p : ptr) (n count : nat)
  : option (skiplist * U) :=
  match fuel with
  | O => None
  | S f =>
      if decide (p = PNull) then Some (sl, u) else
      let '(sl1, u1) :=
        match callback with
        | Some cb => cb sl u (data_of sl p) (Z.of_nat n) (Z.of_nat count)
        | None => (sl, u)
        end in
      next ← lev sl1 p 0;
      if decide (next = PNull) then
        sl2 ← set_lev sl1 p 0 (freelist sl1);
        Some (set_freelist head sl2, u1)
      else prealloc_finish f sl1 u1 head next (S n) count
  end.

Definition skiplist_prealloc (sl : skiplist) (buf size : Z) (u : U) (r : rng)
  : option (Z * skiplist * U * rng) :=
  '(sl1, head, count, r1) ← carve (S (Z.to_nat size)) sl buf size PNull 0 r;
  '(sl2, u1) ← prealloc_finish (S count) sl1 u head head 0 count;
  Some (Z.of_nat count, sl2, u1, r1).
End Prealloc.
End Random.

(** ** Searching, insertion and deletion *)

(** [for( ; p->level[n].next->key < key ; p=p->level[n].next )] *)
Fixpoint walk (fuel : nat) (sl : skiplist) (p : ptr) (n : nat) (k : Z) : option ptr :=
  match fuel with
  | O => None
  | S f =>
      q ← lev sl p n;
      kq ← keyof sl q;
      if kq <? k then walk f sl q n k else Some p
  end.

Definition walk_fuel (sl : skiplist) : nat := S (size (mem sl)).

(** The insertion loop, from level [slev] down to 0; [n] is the height of
    the new element [p]. *)
Fixpoint insert_levels (sl : skiplist) (pleft p : ptr) (n slev : nat) (k : Z)
  : option skiplist :=
  pleft' ← walk (walk_fuel sl) sl pleft slev k;
  sl1 ← (if decide (slev <= n)%nat then
           t ← lev sl pleft' slev;
           sl' ← set_lev sl p slev t;
           set_lev sl' pleft' slev p
         else Some sl);
  match slev with
  | O => Some sl1
  | S slev' => insert_levels sl1 pleft' p n slev' k
  end.

(** The level at which searches start; the 3 is "benchmarked". *)
Definition pick_slevel (n : Z) : Z :=
  let slev := 31 - cntlz n - 3 in
  if Z.of_nat SKIPLIST_MAX_HEIGHT - 1 <? slev then Z.of_nat SKIPLIST_MAX_HEIGHT - 1
  else if slev <? 0 then 0 else slev.

(** Returns the data address, 0 for [NULL]. *)
Definition skiplist_insert (sl : skiplist) (k : Z) : option (skiplist * Z) :=
  let p := freelist sl in
  if decide (p = PNull) then Some (sl, 0) else
  fl ← lev sl p 0;
  n ← keyof sl p;
  sl1 ← set_key (set_freelist fl sl) p k;
  let sl2 := set_nel (s32 (nel sl1 + 1)) sl1 in
  let slev := pick_slevel (nel sl2) in
  let sl3 := set_slevel slev sl2 in
  let start := if slev <? n then n else slev in
  sl4 ← insert_levels sl3 PRoot p (Z.to_nat n) (Z.to_nat start) k;
  Some (sl4, data_of sl4 p).

(** The deletion loop; [found] is [(level, delptr.next)] once set. *)
Fixpoint delete_levels (sl : skiplist) (p : ptr) (found : option (nat * ptr)) (n : nat) (k : Z)
  : option (skiplist * option (nat * ptr)) :=
  p' ← walk (walk_fuel sl) sl p n k;
  next ← lev sl p' n;
  kn ← keyof sl next;
  '(sl1, found1) ←
    (if kn =? k then
       let fd := match found with None => (n, next) | Some f => f end in
       t ← lev sl (fd.2) n;
       sl' ← set_lev sl p' n t;
       Some (sl', Some fd)
     else Some (sl, found));
  match n with
  | O => Some (sl1, found1)
  | S n' => delete_levels sl1 p' found1 n' k
  end.

Definition skiplist_delete (sl : skiplist) (k : Z) : option (skiplist * Z) :=
  '(sl1, found) ← delete_levels sl PRoot None (SKIPLIST_MAX_HEIGHT - 1) k;
  match found with
  | None => Some (sl1, 0)
  | Some (lv, p) =>
      sl2 ← set_key sl1 p (Z.of_nat lv);
      sl3 ← set_lev sl2 p 0 (freelist sl2);
      let sl4 := set_nel (s32 (nel sl3 - 1)) (set_freelist p sl3) in
      Some (sl4, data_of sl4 p)
  end.

Fixpoint lookup_loop (fuel : nat) (sl : skiplist) (p : ptr) (n : nat) (k : Z) : option Z :=
  match fuel with
  | O => None
  | S f =>
      q ← lev sl p n;
      kq ← keyof sl q;
      if kq <? k then lookup_loop f sl q n k
      else if k <? kq then
        match n with O => Some 0 | S n' => lookup_loop f sl p n' k end
      else Some (data_of sl q)
  end.

Definition skiplist_lookup (sl : skiplist) (k : Z) : option Z :=
  lookup_loop (size (mem sl) + SKIPLIST_MAX_HEIGHT + 1) sl PRoot (Z.to_nat (slevel sl)) k.

(** ** Iteration *)

Definition skiplist_iterate (sl : skiplist) : option ptr := root sl !! 0%nat.

(** The result, [data] and the advanced iterator. *)
Definition skiplist_getnext (sl : skiplist) (it : ptr) : option (bool * Z * ptr) :=
  next ← lev sl it 0;
  Some (bool_decide (it <> PNil), data_of sl it, next).

Definition skiplist_iter_getkey (sl : skiplist) (data : Z) : option Z :=
  keyof sl (PEl (data + datasize sl)).

Definition skiplist_needalloc (sl : skiplist) : bool := bool_decide (freelist sl = PNull).

(** The loop of every client, [while( skiplist_getnext(..) )], as the list
    of data pointers it visits. *)
Fixpoint skiplist_elements_from (fuel : nat) (sl : skiplist) (it : ptr) : option (list Z) :=
  match fuel with
  | O => None
  | S f =>
      '(more, data, it') ← skiplist_getnext sl it;
      if (more : bool) then rest ← skiplist_elements_from f sl it'; Some (data :: rest)
      else Some []
  end.

Definition skiplist_elements (sl : skiplist) : option (list Z) :=
  it ← skiplist_iterate sl;
  skiplist_elements_from (S (size (mem sl))) sl it.

(** ** The representation invariant

    [model] maps each key to the address and the height of its element.  A
    position is the root or an element; its [lo] is its key, [None] for the
    root. *)

Abbreviation model := (gmap Z (Z * nat)).

Definition above (lo : option Z) (k : Z) : Prop :=
  match lo with None => True | Some l => l < k end.

Definition at_pos (M : model) (i : nat) (p : ptr) (lo : option Z) : Prop :=
  (p = PRoot /\ lo = None) \/
  (exists k a h, lo = Some k /\ p = PEl a /\ M !! k = Some (a, h) /\ (i <= h)%nat).

(** [q] is the next element of height at least [i] after [lo]. *)
Definition is_succ (M : model) (i : nat) (lo : option Z) (q : ptr) : Prop :=
  (q = PNil /\ forall k a h, M !! k = Some (a, h) -> (i <= h)%nat -> above lo k -> False) \/
  (exists k a h, q = PEl a /\ M !! k = Some (a, h) /\ (i <= h)%nat /\ above lo k /\
    forall k' a' h', M !! k' = Some (a', h') -> (i <= h')%nat -> above lo k' -> k <= k').

Definition level_ok (sl : skiplist) (M : model) (i : nat) : Prop :=
  forall p lo, at_pos M i p lo -> exists q, lev sl p i = Some q /\ is_succ M i lo q.

(** An element of height [h] owns exactly the levels [0..h]. *)
Definition has_height (sl : skiplist) (p : ptr) (h : nat) : Prop :=
  forall m, is_Some (lev sl p m) <-> (m <= h)%nat.

Definition shape (sl : skiplist) (M : model) : Prop :=
  has_height sl PRoot (SKIPLIST_MAX_HEIGHT - 1) /\
  keyof sl PNil = Some SKIPLIST_END /\ lev sl PNil 0 = Some PNil /\
  forall k a h, M !! k = Some (a, h) ->
    k < SKIPLIST_END /\ (h < SKIPLIST_MAX_HEIGHT)%nat /\
    keyof sl (PEl a) = Some k /\ has_height sl (PEl a) h.

(** The free list, linked through [level[0]]; the key of a free element is
    its height. *)
Inductive free_chain (sl : skiplist) : ptr -> list (Z * nat) -> Prop :=
| free_nil : free_chain sl PNull []
| free_cons a h next F :
    keyof sl (PEl a) = Some (Z.of_nat h) -> has_height sl (PEl a) h ->
    (h < SKIPLIST_MAX_HEIGHT)%nat -> lev sl (PEl a) 0 = Some next ->
    free_chain sl next F -> free_chain sl (PEl a) ((a, h) :: F).

Record sl_inv (sl : skiplist) (M : model) (F : list (Z * nat)) : Prop := {
  inv_shape : shape sl M;
  inv_levels : forall i, (i < SKIPLIST_MAX_HEIGHT)%nat -> level_ok sl M i;
  inv_free : free_chain sl (freelist sl) F;
  inv_nodup : NoDup F.*1;
  inv_disj : forall a k h, a ∈ F.*1 -> M !! k = Some (a, h) -> False;
  inv_nel : nel sl = Z.of_nat (size M);
  inv_slevel : 0 <= slevel sl < Z.of_nat SKIPLIST_MAX_HEIGHT
}.

(** ** Field updates *)

(** Everything but keys and level pointers. *)
Definition same_ctl (sl sl' : skiplist) : Prop :=
  nel sl' = nel sl /\ slevel sl' = slevel sl /\ datasize sl' = datasize sl /\
  freelist sl' = freelist sl /\ self sl' = self sl /\ dom (mem sl') = dom (mem sl).

Lemma same_ctl_refl sl : same_ctl sl sl.
Proof. by repeat split. Qed.

Lemma same_ctl_trans a b c : same_ctl a b -> same_ctl b c -> same_ctl a c.
Proof. unfold same_ctl. intuition congruence. Qed.

Lemma set_lev_spec sl p n q :
  is_Some (lev sl p n) ->
  exists sl', set_lev sl p n q = Some sl' /\ same_ctl sl sl' /\
    (forall p' m, lev sl' p' m = if decide (p' = p /\ m = n) then Some q else lev sl p' m) /\
    (forall p', keyof sl' p' = keyof sl p').
Proof.
  intros [r Hr]. destruct p as [| | |a]; simpl in *; [done|..].
  - pose proof (lookup_lt_Some _ _ _ Hr). rewrite decide_True by done.
    eexists; split_and!; [done|done| |done]. intros p' m. case_decide as Hd.
    + destruct Hd as [-> ->]. simpl. by apply list_lookup_insert_eq.
    + destruct p'; simpl; try done. apply list_lookup_insert_ne. naive_solver.
  - pose proof (lookup_lt_Some _ _ _ Hr). rewrite decide_True by done.
    eexists; split_and!; [done|done| |by intros []]. intros p' m. case_decide as Hd.
    + destruct Hd as [-> ->]. simpl. by apply list_lookup_insert_eq.
    + destruct p'; simpl; try done. apply list_lookup_insert_ne. naive_solver.
  - apply bind_Some in Hr as (e & He & Hr). rewrite He. simpl.
    pose proof (lookup_lt_Some _ _ _ Hr). rewrite decide_True by done.
    eexists; split_and!; [done| | |].
    + repeat split; try done. simpl. rewrite dom_insert_lookup_L; [done|by eexists].
    + intros p' m. case_decide as Hd.
      * destruct Hd as [-> ->]. simpl. rewrite lookup_insert_eq. simpl.
        by apply list_lookup_insert_eq.
      * destruct p' as [| | |a']; simpl; try done. destruct (decide (a' = a)) as [->|].
        -- rewrite lookup_insert_eq, He. simpl. apply list_lookup_insert_ne. naive_solver.
        -- by rewrite lookup_insert_ne.
    + intros [| | |a']; simpl; try done. destruct (decide (a' = a)) as [->|].
      * by rewrite lookup_insert_eq, He.
      * by rewrite lookup_insert_ne.
Qed.

Lemma set_key_spec sl a k :
  is_Some (keyof sl (PEl a)) ->
  exists sl', set_key sl (PEl a) k = Some sl' /\ same_ctl sl sl' /\
    (forall p m, lev sl' p m = lev sl p m) /\
    (forall p, keyof sl' p = if decide (p = PEl a) then Some k else keyof sl p).
Proof.
  intros [r Hr]. simpl in *. apply fmap_Some in Hr as (e & He & ->). rewrite He. simpl.
  eexists; split_and!; [done| | |].
  - repeat split; try done. simpl. rewrite dom_insert_lookup_L; [done|by eexists].
  - intros [| | |a'] m; simpl; try done. destruct (decide (a' = a)) as [->|].
    + by rewrite lookup_insert_eq, He.
    + by rewrite lookup_insert_ne.
  - intros [| | |a']; simpl; try done. destruct (decide (a' = a)) as [->|].
    + by rewrite lookup_insert_eq, decide_True.
    + rewrite lookup_insert_ne, decide_False; [done| |done]. naive_solver.
Qed.

(** Updates that keep every level slot defined keep heights. *)
Lemma has_height_upd sl sl' p n q :
  is_Some (lev sl p n) ->
  (forall p' m, lev sl' p' m = if decide (p' = p /\ m = n) then Some q else lev sl p' m) ->
  forall r h, has_height sl' r h <-> has_height sl r h.
Proof.
  intros Hs Hl r h. unfold has_height. apply forall_proper. intros m. rewrite Hl.
  case_decide as Hd; [|done]. destruct Hd as [-> ->].
  split; intros Hi; rewrite <- Hi; by split.
Qed.

(** What changing level pointers preserves. *)
Definition relinked (sl sl' : skiplist) : Prop :=
  same_ctl sl sl' /\ (forall p, keyof sl' p = keyof sl p) /\
  (forall p h, has_height sl' p h <-> has_height sl p h) /\
  (forall m, lev sl' PNil m = lev sl PNil m).

Lemma relinked_refl sl : relinked sl sl.
Proof. split; [apply same_ctl_refl|done]. Qed.

Lemma relinked_trans a b c : relinked a b -> relinked b c -> relinked a c.
Proof.
  intros (H1 & H2 & H3 & H4) (G1 & G2 & G3 & G4). split; [|split; [|split]].
  - by apply same_ctl_trans with b.
  - intros. by rewrite G2.
  - intros. by rewrite G3.
  - intros. by rewrite G4.
Qed.

Lemma set_lev_relinked sl p n q :
  is_Some (lev sl p n) -> p <> PNil ->
  exists sl', set_lev sl p n q = Some sl' /\ relinked sl sl' /\
    (forall p' m, lev sl' p' m = if decide (p' = p /\ m = n) then Some q else lev sl p' m).
Proof.
  intros Hs Hp. destruct (set_lev_spec sl p n q Hs) as (sl' & ? & ? & Hl & ?).
  exists sl'. split; [done|]. split; [|done]. split; [done|]. split; [done|]. split.
  - intros. by apply (has_height_upd _ _ p n q).
  - intros m. rewrite Hl, decide_False; [done|]. naive_solver.
Qed.

Lemma shape_relinked sl sl' M : relinked sl sl' -> shape sl M -> shape sl' M.
Proof.
  intros (_ & Hk & Hh & Hn) (H1 & H2 & H3 & H4). split; [|split; [|split]].
  - by rewrite Hh.
  - by rewrite Hk.
  - by rewrite Hn.
  - intros k a h HM. destruct (H4 _ _ _ HM) as (? & ? & ? & ?). by rewrite Hk, Hh.
Qed.

Lemma level_ok_upd sl sl' M p n q i :
  (forall p' m, lev sl' p' m = if decide (p' = p /\ m = n) then Some q else lev sl p' m) ->
  i <> n -> level_ok sl M i -> level_ok sl' M i.
Proof.
  intros Hl Hi H r lo Hr. destruct (H r lo Hr) as (q' & ? & ?). exists q'.
  rewrite Hl, decide_False; [done|]. naive_solver.
Qed.

Lemma at_pos_le M i j p lo : (i <= j)%nat -> at_pos M j p lo -> at_pos M i p lo.
Proof.
  intros Hij [[-> ->]|(k & a & h & -> & -> & HM & ?)]; [by left|].
  right. exists k, a, h. split_and!; [done..|lia].
Qed.

Lemma at_pos_root M i : at_pos M i PRoot None.
Proof. by left. Qed.

(** A position determines its key. *)
Lemma at_pos_fun sl M i p lo lo' :
  shape sl M -> at_pos M i p lo -> at_pos M i p lo' -> lo = lo'.
Proof.
  intros (_ & _ & _ & HM) [[-> ->]|(k & a & h & -> & -> & H1 & _)]
    [[Hp ->]|(k' & a' & h' & -> & Hp & H2 & _)]; simplify_eq; [done|].
  apply HM in H1 as (_ & _ & H1 & _). apply HM in H2 as (_ & _ & H2 & _). congruence.
Qed.

Lemma at_pos_lev sl M i p lo :
  shape sl M -> (i < SKIPLIST_MAX_HEIGHT)%nat -> at_pos M i p lo -> is_Some (lev sl p i) /\ p <> PNil.
Proof.
  intros (Hr & _ & _ & HM) Hi [[-> ->]|(k & a & h & -> & -> & H1 & Hh)].
  - split; [|done]. apply Hr. unfold SKIPLIST_MAX_HEIGHT in *. lia.
  - apply HM in H1 as (_ & _ & _ & H1). split; [by apply H1|done].
Qed.

Lemma keyof_succ sl M i lo q :
  shape sl M -> is_succ M i lo q ->
  exists kq, keyof sl q = Some kq /\
    ((q = PNil /\ kq = SKIPLIST_END /\
        (forall k a h, M !! k = Some (a, h) -> (i <= h)%nat -> above lo k -> False)) \/
     (exists a h, q = PEl a /\ M !! kq = Some (a, h) /\ (i <= h)%nat /\ above lo kq /\
        kq < SKIPLIST_END /\
        forall k' a' h', M !! k' = Some (a', h') -> (i <= h')%nat -> above lo k' -> kq <= k')).
Proof.
  intros (_ & Hn & _ & HM) [[-> Hno]|(k & a & h & -> & H1 & Hh & Hab & Hmin)].
  - exists SKIPLIST_END. split; [done|]. by left.
  - destruct (HM _ _ _ H1) as (? & _ & Hk & _). exists k. split; [done|]. right.
    exists a, h. done.
Qed.

(** ** Walking along a level *)

#[export] Instance above_dec lo k : Decision (above lo k).
Proof. destruct lo; simpl; apply _. Defined.

(** The number of elements beyond a position: the measure of every walk. *)
Definition count_above (M : model) (lo : option Z) : nat :=
  size (filter (fun kv : Z * (Z * nat) => above lo kv.1) M).

Lemma count_above_lt M lo k ah :
  M !! k = Some ah -> above lo k -> (count_above M (Some k) < count_above M lo)%nat.
Proof.
  intros HM Hab. unfold count_above. apply map_subset_size. split.
  - apply map_filter_subseteq_ext. intros i x _. simpl. destruct lo; simpl in *; [lia|done].
  - intros Hs. rewrite map_filter_subseteq_ext in Hs. specialize (Hs k ah HM Hab).
    simpl in Hs. lia.
Qed.

Lemma count_above_size M lo : (count_above M lo <= size M)%nat.
Proof. apply map_size_filter. Qed.

(** Every key of the model has an address of its own in the heap. *)
Lemma model_size_le sl M : shape sl M -> (size M <= size (mem sl))%nat.
Proof.
  intros (_ & _ & _ & HM).
  rewrite <- (length_map_to_list M), <- (size_dom (mem sl)).
  set (l := (fun kv : Z * (Z * nat) => kv.2.1) <$> map_to_list M).
  assert (Hl : length (map_to_list M) = length l) by (unfold l; by rewrite length_fmap).
  rewrite Hl. rewrite <- (size_list_to_set (C := gset Z)).
  - apply subseteq_size. intros a Ha. apply elem_of_list_to_set, list_elem_of_fmap in Ha.
    destruct Ha as ([k [a' h]] & -> & Ha). apply elem_of_map_to_list, HM in Ha.
    destruct Ha as (_ & _ & Hk & _). simpl in *. apply elem_of_dom.
    destruct (mem sl !! a'); [done|]. discriminate.
  - apply NoDup_fmap_2_strong; [|apply NoDup_map_to_list].
    intros [k [a h]] [k' [a' h']] H1 H2 Heq. simpl in Heq. subst a'.
    apply elem_of_map_to_list in H1, H2.
    assert (k' = k) as ->; [|congruence].
    apply HM in H1 as (_ & _ & H1 & _). apply HM in H2 as (_ & _ & H2 & _). congruence.
Qed.

Definition below (lo : option Z) (k : Z) : Prop :=
  match lo with None => True | Some l => l < k end.

(** Where a walk for [k] along level [i] stops: at the last position before
    [k] whose height is at least [i]. *)
Definition last_before (M : model) (i : nat) (k : Z) (p : ptr) (lo : option Z) : Prop :=
  at_pos M i p lo /\ below lo k /\
  forall k' a h, M !! k' = Some (a, h) -> (i <= h)%nat -> above lo k' -> k <= k'.

Lemma walk_spec sl M i k :
  shape sl M -> level_ok sl M i -> k <= SKIPLIST_END ->
  forall fuel p lo, at_pos M i p lo -> below lo k -> (count_above M lo < fuel)%nat ->
  exists p' lo', walk fuel sl p i k = Some p' /\ last_before M i k p' lo'.
Proof.
  intros Hsh Hok Hk. induction fuel as [|f IH]; intros p lo Hp Hlo Hc; [lia|].
  simpl. destruct (Hok p lo Hp) as (q & -> & Hq). simpl.
  destruct (keyof_succ _ _ _ _ _ Hsh Hq) as (kq & -> & Hcase). simpl.
  destruct (Z.ltb_spec kq k) as [Hlt|Hge].
  - destruct Hcase as [(_ & -> & _)|(a & h & -> & HM & Hh & Hab & _)]; [lia|].
    apply (IH _ (Some kq)).
    + right. exists kq, a, h. done.
    + done.
    + pose proof (count_above_lt _ _ _ _ HM Hab). lia.
  - exists p, lo. split; [done|]. split_and!; [done..|].
    intros k' a h HM Hh Hab. destruct Hcase as [(_ & _ & Hno)|(a' & h' & _ & _ & _ & _ & _ & Hmin)].
    + destruct (Hno _ _ _ HM Hh Hab).
    + specialize (Hmin _ _ _ HM Hh Hab). lia.
Qed.

Lemma walk_spec' sl M i k p lo :
  shape sl M -> level_ok sl M i -> k <= SKIPLIST_END -> at_pos M i p lo -> below lo k ->
  exists p' lo', walk (walk_fuel sl) sl p i k = Some p' /\ last_before M i k p' lo'.
Proof.
  intros Hsh Hok Hk Hp Hlo. apply (walk_spec _ M) with (lo := lo); try done.
  unfold walk_fuel. pose proof (count_above_size M lo). pose proof (model_size_le _ _ Hsh). lia.
Qed.

(** ** Insertion *)

Section Insert.
Variables (M : model) (k a : Z) (n : nat).
Hypothesis Hfresh : M !! k = None.
Let M' : model := <[k := (a, n)]> M.

Lemma last_before_lt i p lo k' a' h' :
  last_before M i k p lo -> M !! k' = Some (a', h') -> (i <= h')%nat -> k' < k ->
  exists l, lo = Some l /\ k' <= l.
Proof.
  intros (_ & _ & Hm) HM Hh Hlt. destruct lo as [l|].
  - exists l. split; [done|]. destruct (decide (l < k')); [|lia].
    specialize (Hm _ _ _ HM Hh). simpl in Hm. lia.
  - specialize (Hm _ _ _ HM Hh I). lia.
Qed.

(** The new element takes over the successor of the element it follows. *)
Lemma is_succ_new i p lo q :
  last_before M i k p lo -> is_succ M i lo q -> is_succ M' i (Some k) q.
Proof.
  intros (_ & Hb & Hm) [[-> Hno]|(k1 & a1 & h1 & -> & H1 & Hh1 & Hab & Hmin)].
  - left. split; [done|]. intros k2 a2 h2 H2 Hh2 Hlt. simpl in Hlt.
    unfold M' in H2. rewrite lookup_insert_ne in H2 by lia.
    apply (Hno _ _ _ H2 Hh2). destruct lo; simpl in *; [lia|done].
  - right. exists k1, a1, h1. split_and!; [done| |done| |].
    + unfold M'. rewrite lookup_insert_ne; [done|]. congruence.
    + simpl. assert (k1 <> k) by congruence. specialize (Hm _ _ _ H1 Hh1 Hab). lia.
    + intros k2 a2 h2 H2 Hh2 Hlt. simpl in Hlt. unfold M' in H2.
      rewrite lookup_insert_ne in H2 by lia. apply (Hmin _ _ _ H2 Hh2).
      destruct lo; simpl in *; [lia|done].
Qed.

Lemma is_succ_pred i p lo : (i <= n)%nat -> last_before M i k p lo -> is_succ M' i lo (PEl a).
Proof.
  intros Hi (_ & Hb & Hm). right. exists k, a, n. unfold M'.
  split_and!; [done|by rewrite lookup_insert_eq|done|by destruct lo|].
  intros k2 a2 h2 H2 Hh2 Hab. destruct (decide (k2 = k)) as [->|]; [lia|].
  rewrite lookup_insert_ne in H2 by done. by apply (Hm _ _ _ H2).
Qed.

Lemma is_succ_other i p lo r lo1 q :
  last_before M i k p lo -> at_pos M i r lo1 -> lo1 <> lo ->
  is_succ M i lo1 q -> is_succ M' i lo1 q.
Proof.
  intros Hlb Hr Hne Hq.
  assert (Hbefore : above lo1 k -> exists l al hl,
            lo = Some l /\ above lo1 l /\ M !! l = Some (al, hl) /\ (i <= hl)%nat /\ l < k).
  { intros Hab. destruct Hr as [[-> ->]|(k1 & a1 & h1 & -> & -> & H1 & Hh1)].
    - destruct Hlb as ([[_ ->]|(l & al & hl & -> & _ & Hl & Hhl)] & Hb & _); [done|].
      by exists l, al, hl.
    - simpl in Hab. destruct (last_before_lt _ _ _ _ _ _ Hlb H1 Hh1 Hab) as (l & -> & Hle).
      destruct Hlb as ([[_ ?]|(l' & al & hl & ? & _ & Hl & Hhl)] & Hb & _); simplify_eq.
      assert (k1 <> l') by congruence. exists l', al, hl. simpl in *. split_and!; [done|lia|done..]. }
  destruct Hq as [[-> Hno]|(k2 & a2 & h2 & -> & H2 & Hh2 & Hab2 & Hmin)].
  - left. split; [done|]. intros k3 a3 h3 H3 Hh3 Hab3. unfold M' in H3.
    destruct (decide (k3 = k)) as [->|].
    + destruct (Hbefore Hab3) as (l & al & hl & _ & Hal & Hl & Hhl & _). eauto.
    + rewrite lookup_insert_ne in H3 by done. eauto.
  - right. exists k2, a2, h2. split_and!; try done.
    { unfold M'. rewrite lookup_insert_ne; [done|congruence]. }
    intros k3 a3 h3 H3 Hh3 Hab3. unfold M' in H3. destruct (decide (k3 = k)) as [->|].
    + destruct (Hbefore Hab3) as (l & al & hl & _ & Hal & Hl & Hhl & Hlt).
      specialize (Hmin _ _ _ Hl Hhl Hal). lia.
    + rewrite lookup_insert_ne in H3 by done. eauto.
Qed.

(** A level above the new element's height is unchanged. *)
Lemma level_ok_high sl i : (n < i)%nat -> level_ok sl M i -> level_ok sl M' i.
Proof.
  intros Hi Hok r lo Hr. destruct (Hok r lo) as (q & Hq & Hs).
  { destruct Hr as [?|(k1 & a1 & h1 & -> & -> & H1 & Hh1)]; [by left|right].
    exists k1, a1, h1. split_and!; try done. unfold M' in H1.
    destruct (decide (k1 = k)) as [->|]; [rewrite lookup_insert_eq in H1; simplify_eq; lia|].
    by rewrite lookup_insert_ne in H1. }
  exists q. split; [done|].
  assert (HM' : forall k3 a3 h3, M' !! k3 = Some (a3, h3) -> (i <= h3)%nat -> M !! k3 = Some (a3, h3)).
  { intros k3 a3 h3 H3 Hh3. unfold M' in H3.
    destruct (decide (k3 = k)) as [->|]; [rewrite lookup_insert_eq in H3; simplify_eq; lia|].
    by rewrite lookup_insert_ne in H3. }
  destruct Hs as [[-> Hno]|(k2 & a2 & h2 & -> & H2 & Hh2 & Hab2 & Hmin)].
  - left. eauto.
  - right. exists k2, a2, h2. split_and!; eauto.
    unfold M'. rewrite lookup_insert_ne; [done|congruence].
Qed.

(** One level of the insertion. *)
Lemma link_spec sl i p lo :
  shape sl M -> level_ok sl M i -> (i <= n)%nat -> (n < SKIPLIST_MAX_HEIGHT)%nat ->
  has_height sl (PEl a) n -> (forall k' h', M !! k' = Some (a, h') -> False) ->
  last_before M i k p lo ->
  exists t sl1 sl2,
    lev sl p i = Some t /\ set_lev sl (PEl a) i t = Some sl1 /\
    set_lev sl1 p i (PEl a) = Some sl2 /\ relinked sl sl2 /\ level_ok sl2 M' i /\
    (forall r m, (r = p /\ m = i) \/ (r = PEl a /\ m = i) \/ lev sl2 r m = lev sl r m).
Proof.
  intros Hsh Hok Hi Hn Hha Ha Hlb. pose proof Hlb as (Hp & Hb & Hm).
  destruct (at_pos_lev _ _ i _ _ Hsh ltac:(lia) Hp) as [_ HpN].
  destruct (Hok _ _ Hp) as (t & Ht & Hsucc).
  assert (HpA : p <> PEl a).
  { destruct Hp as [[-> _]|(k1 & a1 & h1 & _ & -> & H1 & _)]; [done|]. intros [= ->]. eauto. }
  destruct (set_lev_relinked sl (PEl a) i t) as (sl1 & H1 & R1 & L1); [by apply Hha|done|].
  destruct (set_lev_relinked sl1 p i (PEl a)) as (sl2 & H2 & R2 & L2); [|done|].
  { rewrite L1, decide_False by naive_solver. by eexists. }
  exists t, sl1, sl2. do 3 (split; [done|]). split; [|split].
  - by apply relinked_trans with sl1.
  - intros r lo1 Hr. rewrite L2, L1. destruct (decide (r = p)) as [->|Hrp].
    { rewrite decide_True by done. exists (PEl a). split; [done|].
      assert (lo1 = lo) as ->; [|by apply (is_succ_pred i p)].
      destruct Hr as [[-> ->]|(k1 & a1 & h1 & -> & -> & Hk1 & ?)].
      - apply (at_pos_fun _ _ _ _ _ _ Hsh (at_pos_root _ _) Hp).
      - unfold M' in Hk1. destruct (decide (k1 = k)) as [->|];
          [rewrite lookup_insert_eq in Hk1; naive_solver|].
        rewrite lookup_insert_ne in Hk1 by done.
        eapply (at_pos_fun _ M i); [exact Hsh| |exact Hp]. right. naive_solver. }
    rewrite (decide_False (P := r = p /\ i = i)) by naive_solver.
    destruct (decide (r = PEl a)) as [->|Hra].
    { rewrite decide_True by done. exists t. split; [done|].
      destruct Hr as [[? _]|(k1 & a1 & h1 & -> & [= <-] & Hk1 & ?)]; [done|].
      unfold M' in Hk1. destruct (decide (k1 = k)) as [->|]; [by apply (is_succ_new i p lo)|].
      rewrite lookup_insert_ne in Hk1 by done. destruct (Ha _ _ Hk1). }
    rewrite decide_False by naive_solver.
    assert (Hr' : at_pos M i r lo1).
    { destruct Hr as [[-> ->]|(k1 & a1 & h1 & -> & -> & Hk1 & ?)]; [by left|]. right.
      unfold M' in Hk1. destruct (decide (k1 = k)) as [->|];
        [rewrite lookup_insert_eq in Hk1; naive_solver|].
      rewrite lookup_insert_ne in Hk1 by done. naive_solver. }
    destruct (Hok _ _ Hr') as (q & Hq & Hs). exists q. split; [done|].
    apply (is_succ_other i p lo r); try done. intros ->.
    destruct Hr' as [[-> ->]|(k1 & a1 & h1 & -> & -> & Hk1 & ?)];
      destruct Hp as [[-> Hlo]|(k2 & a2 & h2 & Hlo & -> & Hk2 & ?)]; simplify_eq; naive_solver.
  - intros r m. rewrite L2, L1. do 2 (case_decide; [naive_solver|]). naive_solver.
Qed.

(** What one turn of the insertion loop does at level [i]. *)
Lemma insert_step sl i p lo :
  shape sl M -> level_ok sl M i -> (n < SKIPLIST_MAX_HEIGHT)%nat ->
  has_height sl (PEl a) n -> (forall k' h', M !! k' = Some (a, h') -> False) ->
  last_before M i k p lo ->
  exists sl1,
    (if decide (i <= n)%nat then
       t ← lev sl p i; sl' ← set_lev sl (PEl a) i t; set_lev sl' p i (PEl a)
     else Some sl) = Some sl1 /\
    relinked sl sl1 /\ level_ok sl1 M' i /\
    (forall r m, m <> i -> lev sl1 r m = lev sl r m) /\
    (forall b m, b <> a -> (forall k' h', M !! k' = Some (b, h') -> False) ->
       lev sl1 (PEl b) m = lev sl (PEl b) m).
Proof.
  intros Hsh Hok Hn Hha Ha Hlb. case_decide as Hin.
  - destruct (link_spec sl i p lo) as (t & s1 & s2 & -> & H1 & H2 & HR & HM & Hl); try done.
    mred. rewrite H1. mred. rewrite H2. exists s2. do 3 (split; [done|]). split.
    + intros r m Hm. destruct (Hl r m) as [[_ ?]|[[_ ?]|?]]; done.
    + intros b m Hb Hfr. destruct (Hl (PEl b) m) as [[Hbp _]|[[? _]|?]]; [|congruence|done].
      destruct Hlb as ([[-> _]|(k1 & a1 & h1 & _ & -> & Hk1 & _)] & _); [done|].
      injection Hbp as ->. destruct (Hfr _ _ Hk1).
  - exists sl. split; [done|]. split; [apply relinked_refl|].
    split; [apply level_ok_high; [lia|done]|done].
Qed.

Lemma insert_levels_spec slev : forall sl pleft lo,
  (slev < SKIPLIST_MAX_HEIGHT)%nat -> (n < SKIPLIST_MAX_HEIGHT)%nat -> k <= SKIPLIST_END ->
  shape sl M -> has_height sl (PEl a) n -> (forall k' h', M !! k' = Some (a, h') -> False) ->
  (forall i, (i <= slev)%nat -> level_ok sl M i) ->
  (forall i, (slev < i < SKIPLIST_MAX_HEIGHT)%nat -> level_ok sl M' i) ->
  at_pos M slev pleft lo -> below lo k ->
  exists sl', insert_levels sl pleft (PEl a) n slev k = Some sl' /\ relinked sl sl' /\
    (forall i, (i < SKIPLIST_MAX_HEIGHT)%nat -> level_ok sl' M' i) /\
    (forall b m, b <> a -> (forall k' h', M !! k' = Some (b, h') -> False) ->
       lev sl' (PEl b) m = lev sl (PEl b) m).
Proof.
  induction slev as [|slev IH]; intros sl pleft lo Hs Hn Hk Hsh Hha Ha Hlow Hhigh Hp Hb;
    destruct (walk_spec' sl M _ k pleft lo Hsh (Hlow _ (le_n _)) Hk Hp Hb)
      as (p' & lo' & Hw & Hlb);
    destruct (insert_step sl _ p' lo' Hsh (Hlow _ (le_n _)) Hn Hha Ha Hlb)
      as (sl1 & Hif & HR & HM & Hother & Hb1);
    cbn [insert_levels]; rewrite Hw; mred; rewrite Hif; mred.
  - exists sl1. split_and!; [done..| |done]. intros i Hi.
    destruct (decide (i = 0)%nat) as [->|]; [done|].
    intros r lo1 Hr. rewrite Hother by done. apply Hhigh; [lia|done].
  - destruct HR as (HC & HK & HH & HN).
    destruct (IH sl1 p' lo') as (sl' & -> & HR' & HM' & Hb'); try done; try lia.
    + by apply (shape_relinked sl).
    + by apply HH.
    + intros i Hi r lo1 Hr. rewrite Hother by lia. apply Hlow; [lia|done].
    + intros i Hi. destruct (decide (i = S slev)) as [->|]; [done|].
      intros r lo1 Hr. rewrite Hother by done. apply Hhigh; [lia|done].
    + apply (at_pos_le _ _ (S slev)); [lia|apply Hlb].
    + apply Hlb.
    + exists sl'. split; [done|]. split; [by apply relinked_trans with sl1|].
      split; [done|]. intros b m Hb2 Hfr. rewrite Hb', Hb1; done.
Qed.
End Insert.

(** ** The free list *)

Lemma free_chain_frame sl sl' p F :
  free_chain sl p F ->
  (forall a, a ∈ F.*1 -> keyof sl' (PEl a) = keyof sl (PEl a) /\
     (forall h, has_height sl (PEl a) h -> has_height sl' (PEl a) h) /\
     lev sl' (PEl a) 0 = lev sl (PEl a) 0) ->
  free_chain sl' p F.
Proof.
  induction 1 as [|a h next F Hk Hh Hlt Hl Hch IH]; intros Hfr; [constructor|].
  destruct (Hfr a) as (Hk' & Hh' & Hl'); [set_solver|].
  econstructor; [by rewrite Hk'|by apply Hh'|done|by rewrite Hl'|].
  apply IH. intros b Hb. apply Hfr. set_solver.
Qed.

Lemma pick_slevel_range n : 0 <= pick_slevel n < Z.of_nat SKIPLIST_MAX_HEIGHT.
Proof.
  unfold pick_slevel, SKIPLIST_MAX_HEIGHT.
  repeat match goal with |- context [?a <? ?b] => destruct (Z.ltb_spec a b) end; lia.
Qed.

Lemma shape_ctl sl sl' M :
  (forall p m, lev sl' p m = lev sl p m) -> (forall p, keyof sl' p = keyof sl p) ->
  shape sl M -> shape sl' M.
Proof.
  unfold shape, has_height. intros Hl Hk (H1 & H2 & H3 & H4). split_and!.
  - intros m. rewrite Hl. apply H1.
  - by rewrite Hk.
  - by rewrite Hl.
  - intros k a h HM. destruct (H4 _ _ _ HM) as (? & ? & ? & Hh). rewrite Hk. split_and!; try done.
    intros m. rewrite Hl. apply Hh.
Qed.

(** ** Insertion, on the invariant *)

(** Taking the first element of the free list and giving it a key. *)
Lemma pop_free_spec sl M F k a n :
  sl_inv sl M ((a, n) :: F) ->
  exists next s1, freelist sl = PEl a /\ lev sl (PEl a) 0 = Some next /\
    keyof sl (PEl a) = Some (Z.of_nat n) /\
    set_key (set_freelist next sl) (PEl a) k = Some s1 /\
    shape s1 M /\ (forall i, (i < SKIPLIST_MAX_HEIGHT)%nat -> level_ok s1 M i) /\
    free_chain s1 (freelist s1) F /\ has_height s1 (PEl a) n /\ keyof s1 (PEl a) = Some k /\
    nel s1 = nel sl /\ datasize s1 = datasize sl.
Proof.
  intros [Hsh Hlev Hfree Hnd Hdisj Hnel Hsl].
  inversion Hfree as [|a' n' next F' Hka Hha Hn Hl0 Hch Heq]; subst.
  apply list.NoDup_cons in Hnd as [HaF Hnd]. simpl in HaF.
  destruct (set_key_spec (set_freelist next sl) a k) as (s1 & Hs1 & C1 & L1 & K1).
  { simpl in *. by eexists. }
  destruct C1 as (E1 & E2 & E3 & E4 & E5 & E6).
  assert (HH : forall p h, has_height sl p h -> has_height s1 p h).
  { intros p h Hp m. rewrite L1. apply Hp. }
  assert (KK : forall p, p <> PEl a -> keyof s1 p = keyof sl p).
  { intros p Hp. by rewrite K1, decide_False. }
  exists next, s1. split_and!; try done.
  - destruct Hsh as (G1 & G2 & G3 & G4).
    split; [by apply HH|split; [by rewrite KK|split; [by rewrite L1|]]].
    intros k' b h HM. destruct (G4 _ _ _ HM) as (? & ? & ? & Hh).
    split_and!; [done..| |by apply HH]. rewrite KK; [done|]. intros [= ->].
    apply (Hdisj a k' h); [left|done].
  - intros i Hi r lo Hr. destruct (Hlev i Hi r lo Hr) as (q & Hq & Hs). exists q.
    by rewrite L1.
  - rewrite E4. apply (free_chain_frame sl); [done|]. intros b Hb.
    assert (b <> a) by (intros ->; done). rewrite KK by congruence.
    split_and!; [done|by intros; apply HH|apply L1].
  - by apply HH.
  - by rewrite K1, decide_True.
Qed.

Lemma insert_inv sl M F k a n :
  sl_inv sl M ((a, n) :: F) -> M !! k = None -> k < SKIPLIST_END ->
  Z.of_nat (size M) + 1 < 2 ^ 31 ->
  exists sl', skiplist_insert sl k = Some (sl', a - datasize sl) /\
    datasize sl' = datasize sl /\ sl_inv sl' (<[k := (a, n)]> M) F.
Proof.
  intros Hinv Hfresh Hk Hsize. pose proof Hinv as [_ _ Hfree Hnd Hdisj Hnel _].
  assert (Hn : (n < SKIPLIST_MAX_HEIGHT)%nat) by (by inversion Hfree).
  apply list.NoDup_cons in Hnd as [HaF Hnd]. simpl in HaF.
  assert (HaM : forall k' h', M !! k' = Some (a, h') -> False).
  { intros k' h'. apply Hdisj. left. }
  destruct (pop_free_spec sl M F k a n Hinv)
    as (next & s1 & Hfl & Hl0 & Hka & Hs1 & Hsh & Hlev & Hch & Hha & Hk1 & E1 & E3).
  unfold skiplist_insert. rewrite Hfl, decide_False by done. rewrite Hl0. mred.
  rewrite Hka. mred. rewrite Hs1. mred. rewrite Nat2Z.id.
  set (s3 := set_slevel _ _). set (start := if _ <? _ then _ else _).
  assert (Hstart : Z.of_nat n <= start < Z.of_nat SKIPLIST_MAX_HEIGHT).
  { unfold start. pose proof (pick_slevel_range (nel (set_nel (s32 (nel s1 + 1)) s1))).
    destruct (Z.ltb_spec (pick_slevel (nel (set_nel (s32 (nel s1 + 1)) s1))) (Z.of_nat n)); lia. }
  destruct (insert_levels_spec M k a n Hfresh (Z.to_nat start) s3 PRoot None)
    as (s4 & -> & HR & HM' & Hother); try done; try lia.
  { intros i Hi. apply Hlev. lia. }
  { intros i Hi. apply (level_ok_high M k a n Hfresh); [lia|]. apply Hlev. lia. }
  { apply at_pos_root. }
  mred. pose proof (shape_relinked s3 s4 M HR Hsh) as (G1 & G2 & G3 & G4).
  destruct HR as ((N1 & N2 & N3 & N4 & N5 & N6) & HK & HH & HN).
  assert (Hds : datasize s4 = datasize sl) by (rewrite N3; simpl; by rewrite E3).
  exists s4. split; [simpl; by rewrite Hds|]. split; [done|]. split.
  - split_and!; try done. intros k' b h. destruct (decide (k' = k)) as [->|Hne].
    + rewrite lookup_insert_eq. intros [= <- <-]. split_and!; [done|done| |by apply HH].
      by rewrite HK.
    + rewrite lookup_insert_ne by done. apply G4.
  - done.
  - rewrite N4. apply (free_chain_frame s1); [done|].
    intros b Hb. rewrite HK. split_and!; [done|by intros h Hh; apply HH|].
    apply Hother; [intros ->; done|]. intros k' h'. apply Hdisj. by right.
  - done.
  - intros b k' h Hb. destruct (decide (k' = k)) as [->|].
    + rewrite lookup_insert_eq. intros [= <- <-]. done.
    + rewrite lookup_insert_ne by done. apply Hdisj. by right.
  - rewrite N1. simpl. rewrite map_size_insert_None by done. rewrite E1, Hnel, s32_small; lia.
  - rewrite N2. apply pick_slevel_range.
Qed.

(** ** Lookup *)

Lemma lookup_loop_spec sl M k :
  shape sl M -> k < SKIPLIST_END ->
  (forall i, (i < SKIPLIST_MAX_HEIGHT)%nat -> level_ok sl M i) ->
  forall fuel n p lo, (n < SKIPLIST_MAX_HEIGHT)%nat -> at_pos M n p lo -> below lo k ->
  (count_above M lo + n < fuel)%nat ->
  lookup_loop fuel sl p n k =
    Some (match M !! k with Some (a, _) => a - datasize sl | None => 0 end).
Proof.
  intros Hsh Hk Hlev. induction fuel as [|f IH]; intros n p lo Hn Hp Hb Hf; [lia|].
  cbn [lookup_loop]. destruct (Hlev n Hn p lo Hp) as (q & -> & Hq). mred.
  destruct (keyof_succ _ _ _ _ _ Hsh Hq) as (kq & -> & Hcase). mred.
  destruct (Z.ltb_spec kq k) as [Hlt|Hge].
  { destruct Hcase as [(_ & -> & _)|(a & h & -> & HM & Hh & Hab & _)]; [lia|].
    pose proof (count_above_lt _ _ _ _ HM Hab).
    apply (IH n _ (Some kq)); [done| |done|lia]. right. naive_solver. }
  destruct (Z.ltb_spec k kq) as [Hgt|Hle].
  { destruct n as [|n'].
    - destruct (M !! k) as [[a h]|] eqn:HMk; [|done]. exfalso.
      assert (above lo k) by (destruct lo; done).
      destruct Hcase as [(_ & _ & Hno)|(a' & h' & _ & _ & _ & _ & _ & Hmin)].
      + apply (Hno _ _ _ HMk); [lia|done].
      + specialize (Hmin _ _ _ HMk). lia || (specialize (Hmin ltac:(lia) ltac:(done)); lia).
    - apply (IH n' _ lo); [lia| |done|lia]. apply (at_pos_le _ _ (S n')); [lia|done]. }
  assert (kq = k) as -> by lia.
  destruct Hcase as [(_ & -> & _)|(a & h & -> & HM & _)]; [lia|]. by rewrite HM.
Qed.

Lemma lookup_inv sl M F k :
  sl_inv sl M F -> k < SKIPLIST_END ->
  skiplist_lookup sl k =
    Some (match M !! k with Some (a, _) => a - datasize sl | None => 0 end).
Proof.
  intros [Hsh Hlev _ _ _ _ Hsl] Hk. unfold skiplist_lookup.
  apply (lookup_loop_spec sl M k Hsh Hk Hlev _ _ PRoot None).
  - unfold SKIPLIST_MAX_HEIGHT in *. lia.
  - apply at_pos_root.
  - done.
  - pose proof (count_above_size M None). pose proof (model_size_le _ _ Hsh).
    unfold SKIPLIST_MAX_HEIGHT in *. lia.
Qed.

(** ** Deletion *)

(** A search for an absent key leaves everything in place. *)
Lemma delete_levels_absent M k :
  M !! k = None -> k < SKIPLIST_END ->
  forall n sl p lo, (n < SKIPLIST_MAX_HEIGHT)%nat -> shape sl M ->
  (forall i, (i < SKIPLIST_MAX_HEIGHT)%nat -> level_ok sl M i) ->
  at_pos M n p lo -> below lo k -> delete_levels sl p None n k = Some (sl, None).
Proof.
  intros HMk Hk. induction n as [|n IH]; intros sl p lo Hn Hsh Hlev Hp Hb;
    destruct (walk_spec' sl M _ k p lo Hsh (Hlev _ Hn) ltac:(lia) Hp Hb)
      as (p' & lo' & Hw & Hp' & Hb' & Hmax);
    destruct (Hlev _ Hn _ _ Hp') as (q & Hq & Hs);
    destruct (keyof_succ _ _ _ _ _ Hsh Hs) as (kq & Hkq & Hcase);
    cbn [delete_levels]; rewrite Hw; mred; rewrite Hq; mred; rewrite Hkq; mred;
    (destruct (Z.eqb_spec kq k) as [->|];
      [destruct Hcase as [(_ & -> & _)|(a & h & _ & HM & _)]; [lia|congruence]|]); mred.
  - done.
  - apply (IH _ _ lo'); [lia|done..| |done]. apply (at_pos_le _ _ (S n)); [lia|done].
Qed.

Section Delete.
Variables (M : model) (k a : Z) (h : nat).
Hypothesis HMk : M !! k = Some (a, h).
Let M' : model := delete k M.

Lemma delete_lookup k1 a1 h1 : M' !! k1 = Some (a1, h1) -> k1 <> k /\ M !! k1 = Some (a1, h1).
Proof. unfold M'. intros H. by apply lookup_delete_Some in H as [? ?]. Qed.

Lemma delete_lookup_ne k1 : k1 <> k -> M' !! k1 = M !! k1.
Proof. intros. unfold M'. by rewrite lookup_delete_ne. Qed.

(** A level above the deleted element's height is unchanged. *)
Lemma level_ok_delete_high sl i : (h < i)%nat -> level_ok sl M i -> level_ok sl M' i.
Proof.
  intros Hi Hok r lo Hr. destruct (Hok r lo) as (q & Hq & Hs).
  { destruct Hr as [?|(k1 & a1 & h1 & -> & -> & H1 & Hh1)]; [by left|right].
    apply delete_lookup in H1 as [_ H1]. naive_solver. }
  exists q. split; [done|].
  destruct Hs as [[-> Hno]|(k2 & a2 & h2 & -> & H2 & Hh2 & Hab2 & Hmin)].
  - left. split; [done|]. intros k3 a3 h3 [_ H3]%delete_lookup. eauto.
  - right. exists k2, a2, h2. split_and!; try done.
    + rewrite delete_lookup_ne; [done|]. intros ->. simplify_eq. lia.
    + intros k3 a3 h3 [_ H3]%delete_lookup. eauto.
Qed.

(** Removing [k] from the successor relation. *)
Lemma is_succ_skip i p lo t :
  last_before M i k p lo -> is_succ M i (Some k) t -> is_succ M' i lo t.
Proof.
  intros (_ & Hb & Hm) [[-> Hno]|(k2 & a2 & h2 & -> & H2 & Hh2 & Hab2 & Hmin)].
  - left. split; [done|]. intros k3 a3 h3 [Hne H3]%delete_lookup Hh3 Hab3.
    specialize (Hm _ _ _ H3 Hh3 Hab3). apply (Hno _ _ _ H3 Hh3). simpl. lia.
  - right. simpl in Hab2. exists k2, a2, h2. split_and!; try done.
    + rewrite delete_lookup_ne by lia. done.
    + destruct lo; simpl in *; [lia|done].
    + intros k3 a3 h3 [Hne H3]%delete_lookup Hh3 Hab3.
      specialize (Hm _ _ _ H3 Hh3 Hab3). apply (Hmin _ _ _ H3 Hh3). simpl. lia.
Qed.

Lemma is_succ_keep sl i p lo r lo1 q :
  shape sl M -> (i <= h)%nat -> last_before M i k p lo -> at_pos M i r lo1 -> r <> p ->
  r <> PEl a -> is_succ M i lo1 q -> is_succ M' i lo1 q.
Proof.
  intros Hsh Hih Hlb Hr Hrp Hra
    [[-> Hno]|(k2 & a2 & h2 & -> & H2 & Hh2 & Hab2 & Hmin)].
  { left. split; [done|]. intros k3 a3 h3 [_ H3]%delete_lookup. eauto. }
  right. exists k2, a2, h2. split_and!; try done.
  2: { intros k3 a3 h3 [_ H3]%delete_lookup. eauto. }
  rewrite delete_lookup_ne; [done|]. intros ->.
  destruct Hr as [[-> ->]|(k1 & a1 & h1 & -> & -> & Hk1 & Hh1)].
  - destruct Hlb as ([[-> _]|(l & al & hl & -> & _ & Hl & Hhl)] & Hb & _); [done|].
    specialize (Hmin _ _ _ Hl Hhl I). simpl in Hb. lia.
  - simpl in Hab2. destruct (last_before_lt _ _ _ _ _ _ _ _ Hlb Hk1 Hh1 Hab2) as (l & -> & Hle).
    destruct Hlb as ([[_ ?]|(l' & al & hl & ? & -> & Hl & Hhl)] & Hb & _); simplify_eq.
    assert (k1 <> l') by congruence. simpl in Hb.
    specialize (Hmin _ _ _ Hl Hhl). simpl in Hmin. lia.
Qed.

(** One level of the deletion. *)
Lemma unlink_spec sl i p lo :
  shape sl M -> level_ok sl M i -> (i <= h)%nat -> last_before M i k p lo ->
  lev sl p i = Some (PEl a) /\
  exists t sl', lev sl (PEl a) i = Some t /\ set_lev sl p i t = Some sl' /\
    relinked sl sl' /\ level_ok sl' M' i /\
    (forall r m, (r = p /\ m = i) \/ lev sl' r m = lev sl r m).
Proof.
  intros Hsh Hok Hih Hlb. pose proof Hlb as (Hp & Hb & Hm).
  assert (Hab : above lo k) by (by destruct lo).
  destruct (Hok _ _ Hp) as (q & Hq & Hs).
  assert (q = PEl a) as ->.
  { destruct Hs as [[-> Hno]|(k2 & a2 & h2 & -> & H2 & Hh2 & Hab2 & Hmin)].
    - destruct (Hno _ _ _ HMk Hih Hab).
    - specialize (Hmin _ _ _ HMk Hih Hab). specialize (Hm _ _ _ H2 Hh2 Hab2).
      assert (k2 = k) as -> by lia. congruence. }
  split; [done|].
  assert (Ha : at_pos M i (PEl a) (Some k)) by (right; naive_solver).
  destruct (Hok _ _ Ha) as (t & Ht & Hst).
  assert (HpN : p <> PNil) by (destruct Hp as [[-> _]|(? & ? & ? & _ & -> & _)]; done).
  destruct (set_lev_relinked sl p i t) as (sl' & H1 & R1 & L1); [by eexists|done|].
  exists t, sl'. split; [done|]. split; [done|]. split; [done|]. split.
  - intros r lo1 Hr. assert (Hr' : at_pos M i r lo1 /\ r <> PEl a).
    { destruct Hr as [[-> ->]|(k1 & a1 & h1 & -> & -> & Hk1 & ?)]; [by split; [left|]|].
      apply delete_lookup in Hk1 as [Hne Hk1]. split; [right; naive_solver|]. intros [= ->].
      apply Hsh in Hk1 as (_ & _ & Hk1 & _). apply Hsh in HMk as (_ & _ & Hk & _). congruence. }
    destruct Hr' as [Hr' Hra]. rewrite L1. destruct (decide (r = p)) as [->|Hrp].
    + rewrite decide_True by done. exists t. split; [done|].
      rewrite (at_pos_fun _ _ _ _ _ _ Hsh Hr' Hp). by apply (is_succ_skip i p).
    + rewrite decide_False by naive_solver. destruct (Hok _ _ Hr') as (q & Hq' & Hsq).
      exists q. split; [done|]. by apply (is_succ_keep sl i p lo r).
  - intros r m. rewrite L1. case_decide; naive_solver.
Qed.

(** What one turn of the deletion loop does at level [i]. *)
Lemma delete_step sl i p lo :
  shape sl M -> level_ok sl M i -> k < SKIPLIST_END -> last_before M i k p lo ->
  exists next kn sl1,
    lev sl p i = Some next /\ keyof sl next = Some kn /\
    (if kn =? k then
       t ← lev sl (match (if decide (i < h)%nat then Some (h, PEl a) else None) with
                   | None => (i, next) | Some f => f end).2 i;
       sl' ← set_lev sl p i t;
       Some (sl', Some (match (if decide (i < h)%nat then Some (h, PEl a) else None) with
                        | None => (i, next) | Some f => f end))
     else Some (sl, if decide (i < h)%nat then Some (h, PEl a) else None))
    = Some (sl1, if decide (i <= h)%nat then Some (h, PEl a) else None) /\
    relinked sl sl1 /\ level_ok sl1 M' i /\
    (forall r m, m <> i -> lev sl1 r m = lev sl r m) /\
    (forall b m, (forall k' h', M !! k' = Some (b, h') -> False) ->
       lev sl1 (PEl b) m = lev sl (PEl b) m).
Proof.
  intros Hsh Hok Hk Hlb. destruct (decide (i <= h)%nat) as [Hih|Hih].
  - destruct (unlink_spec sl i p lo Hsh Hok Hih Hlb) as (Hn & t & sl1 & Ht & Hset & HR & HM & Hl).
    exists (PEl a), k, sl1. split; [done|]. split; [by apply Hsh in HMk as (_ & _ & ? & _)|].
    rewrite Z.eqb_refl.
    assert (Hfd : match (if decide (i < h)%nat then Some (h, PEl a) else None) with
                  | None => (i, PEl a) | Some f => f end = (h, PEl a)).
    { case_decide; [done|]. f_equal. lia. }
    rewrite Hfd. cbn [snd]. rewrite Ht. mred. rewrite Hset. mred. split; [done|].
    split; [done|]. split; [done|]. split.
    + intros r m Hm. destruct (Hl r m) as [[_ ?]|?]; done.
    + intros b m Hb. destruct (Hl (PEl b) m) as [[Hbp _]|?]; [|done].
      destruct Hlb as ([[-> _]|(k1 & a1 & h1 & _ & -> & Hk1 & _)] & _); [done|].
      injection Hbp as ->. destruct (Hb _ _ Hk1).
  - destruct Hlb as (Hp & Hb & Hm). destruct (Hok _ _ Hp) as (q & Hq & Hs).
    destruct (keyof_succ _ _ _ _ _ Hsh Hs) as (kq & Hkq & Hcase).
    exists q, kq, sl. split; [done|]. split; [done|].
    assert (kq <> k).
    { intros ->. destruct Hcase as [(_ & -> & _)|(a' & h' & _ & HM & ? & _)]; [lia|].
      simplify_eq. lia. }
    destruct (Z.eqb_spec kq k) as [|_]; [done|]. rewrite decide_False by lia. split; [done|].
    split; [apply relinked_refl|]. split; [apply level_ok_delete_high; [lia|done]|done].
Qed.

Lemma delete_levels_spec n : forall sl p lo,
  (n < SKIPLIST_MAX_HEIGHT)%nat -> k < SKIPLIST_END -> shape sl M ->
  (forall i, (i <= n)%nat -> level_ok sl M i) ->
  (forall i, (n < i < SKIPLIST_MAX_HEIGHT)%nat -> level_ok sl M' i) ->
  at_pos M n p lo -> below lo k ->
  exists sl', delete_levels sl p (if decide (n < h)%nat then Some (h, PEl a) else None) n k
      = Some (sl', Some (h, PEl a)) /\ relinked sl sl' /\
    (forall i, (i < SKIPLIST_MAX_HEIGHT)%nat -> level_ok sl' M' i) /\
    (forall b m, (forall k' h', M !! k' = Some (b, h') -> False) ->
       lev sl' (PEl b) m = lev sl (PEl b) m).
Proof.
  induction n as [|n IH]; intros sl p lo Hn Hk Hsh Hlow Hhigh Hp Hb;
    destruct (walk_spec' sl M _ k p lo Hsh (Hlow _ (le_n _)) ltac:(lia) Hp Hb)
      as (p' & lo' & Hw & Hlb);
    destruct (delete_step sl _ p' lo' Hsh (Hlow _ (le_n _)) Hk Hlb)
      as (next & kn & sl1 & Hnx & Hkn & Hif & HR & HM & Hother & Hb1);
    cbn [delete_levels]; rewrite Hw; mred; rewrite Hnx; mred; rewrite Hkn; mred;
    rewrite Hif; mred.
  - exists sl1. rewrite decide_True by lia. split; [done|]. split; [done|]. split; [|done].
    intros i Hi. destruct (decide (i = 0)%nat) as [->|]; [done|].
    intros r lo1 Hr. rewrite Hother by done. apply Hhigh; [lia|done].
  - destruct (IH sl1 p' lo') as (sl' & Hrun & HR' & HM' & Hb'); try done; try lia.
    + by apply (shape_relinked sl).
    + intros i Hi r lo1 Hr. rewrite Hother by lia. apply Hlow; [lia|done].
    + intros i Hi. destruct (decide (i = S n)) as [->|]; [done|].
      intros r lo1 Hr. rewrite Hother by done. apply Hhigh; [lia|done].
    + apply (at_pos_le _ _ (S n)); [lia|apply Hlb].
    + apply Hlb.
    + exists sl'. rewrite (decide_ext (n < h)%nat (S n <= h)%nat) in Hrun by lia.
      split; [done|]. split; [by apply relinked_trans with sl1|].
      split; [done|]. intros b m Hfr. by rewrite Hb', Hb1.
Qed.
End Delete.

(** Putting an element on the free list ("key = level, linked in next[0]"). *)
Lemma push_free_spec s1 M F a h ka :
  shape s1 M -> (forall i, (i < SKIPLIST_MAX_HEIGHT)%nat -> level_ok s1 M i) ->
  free_chain s1 (freelist s1) F -> NoDup (a :: F.*1) ->
  (forall b k h', b ∈ a :: F.*1 -> M !! k = Some (b, h') -> False) ->
  (h < SKIPLIST_MAX_HEIGHT)%nat -> has_height s1 (PEl a) h -> keyof s1 (PEl a) = Some ka ->
  nel s1 = Z.of_nat (size M) + 1 -> nel s1 < 2 ^ 31 ->
  0 <= slevel s1 < Z.of_nat SKIPLIST_MAX_HEIGHT ->
  exists s2 s3, set_key s1 (PEl a) (Z.of_nat h) = Some s2 /\
    set_lev s2 (PEl a) 0 (freelist s2) = Some s3 /\ datasize s3 = datasize s1 /\
    sl_inv (set_nel (s32 (nel s3 - 1)) (set_freelist (PEl a) s3)) M ((a, h) :: F).
Proof.
  intros Hsh Hlev Hfree Hnd Hdisj Hh16 Hha Hka Hnel Hsz Hsl.
  destruct (set_key_spec s1 a (Z.of_nat h)) as (s2 & H2 & C2 & L2 & K2); [by eexists|].
  destruct (set_lev_relinked s2 (PEl a) 0 (freelist s2)) as (s3 & H3 & R3 & L3); [|done|].
  { rewrite L2. apply Hha. lia. }
  exists s2, s3. split; [done|]. split; [done|].
  destruct C2 as (E1 & E2 & E3 & E4 & E5 & E6).
  destruct R3 as ((P1 & P2 & P3 & P4 & P5 & P6) & K3 & HH3 & N8). split; [congruence|].
  set (s4 := set_nel _ _).
  assert (Lfin : forall p m, p <> PEl a -> lev s4 p m = lev s1 p m).
  { intros p m Hp. transitivity (lev s3 p m); [done|]. rewrite L3, decide_False by naive_solver.
    apply L2. }
  assert (Kfin : forall p, p <> PEl a -> keyof s4 p = keyof s1 p).
  { intros p Hp. transitivity (keyof s3 p); [done|]. by rewrite K3, K2, decide_False. }
  assert (Hfin : forall p m, has_height s4 p m <-> has_height s1 p m).
  { intros p m. transitivity (has_height s3 p m); [done|]. rewrite HH3. unfold has_height.
    apply forall_proper. intros j. by rewrite L2. }
  assert (Hne : forall b, b ∈ F.*1 \/ (exists k h', M !! k = Some (b, h')) -> PEl b <> PEl a).
  { intros b Hb [= ->]. apply list.NoDup_cons in Hnd as [? _].
    destruct Hb as [?|(k & h' & Hb)]; [done|]. apply (Hdisj a k h'); [left|done]. }
  split.
  - destruct Hsh as (G1 & G2 & G3 & G4). split_and!;
      [by apply Hfin|by rewrite Kfin|by rewrite Lfin|].
    intros k b h' HM. destruct (G4 _ _ _ HM) as (? & ? & ? & ?).
    rewrite Kfin by eauto 6. split_and!; try done. by apply Hfin.
  - intros i Hi r lo Hr. destruct (Hlev i Hi r lo Hr) as (q & ? & ?). exists q.
    rewrite Lfin; [done|]. destruct Hr as [[-> _]|(k1 & a1 & h1 & _ & -> & Hk1 & _)]; eauto 6.
  - econstructor; [|by apply Hfin|done| |].
    + transitivity (keyof s3 (PEl a)); [done|]. by rewrite K3, K2, decide_True.
    + transitivity (lev s3 (PEl a) 0); [done|]. by rewrite L3, decide_True.
    + rewrite E4. apply (free_chain_frame s1); [done|]. intros b Hb.
      assert (PEl b <> PEl a) by eauto. rewrite Kfin, Lfin by done.
      split_and!; [done| |done]. intros h' ?. by apply Hfin.
  - done.
  - intros b k' h' Hb HM. by apply (Hdisj b k' h').
  - simpl. rewrite P1, E1, Hnel, s32_small; lia.
  - simpl. rewrite P2, E2. done.
Qed.

Lemma delete_inv sl M F k :
  sl_inv sl M F -> k < SKIPLIST_END -> Z.of_nat (size M) < 2 ^ 31 ->
  exists sl', skiplist_delete sl k =
      Some (sl', match M !! k with Some (a, _) => a - datasize sl | None => 0 end) /\
    datasize sl' = datasize sl /\
    sl_inv sl' (delete k M) (match M !! k with Some ah => ah :: F | None => F end).
Proof.
  intros [Hsh Hlev Hfree Hnd Hdisj Hnel Hsl] Hk Hsize. unfold skiplist_delete.
  destruct (M !! k) as [[a h]|] eqn:HMk.
  2: { rewrite (delete_levels_absent M k HMk Hk _ _ _ None); try done.
       - mred. exists sl. by rewrite delete_id.
       - unfold SKIPLIST_MAX_HEIGHT. lia.
       - apply at_pos_root. }
  destruct (delete_levels_spec M k a h HMk (SKIPLIST_MAX_HEIGHT - 1) sl PRoot None)
    as (s1 & Hrun & HR & HM' & Hother); try done.
  { unfold SKIPLIST_MAX_HEIGHT in *. lia. }
  { intros i Hi. apply Hlev. unfold SKIPLIST_MAX_HEIGHT in *. lia. }
  { intros i Hi. unfold SKIPLIST_MAX_HEIGHT in *. lia. }
  { apply at_pos_root. }
  pose proof Hsh as (_ & _ & _ & HMs). destruct (HMs _ _ _ HMk) as (_ & Hh16 & Hka & Hha).
  rewrite decide_False in Hrun by (unfold SKIPLIST_MAX_HEIGHT in *; lia).
  rewrite Hrun. mred.
  pose proof (shape_relinked _ _ _ HR Hsh) as Hsh1.
  destruct HR as ((N1 & N2 & N3 & N4 & N5 & N6) & HK & HH & HN).
  assert (Hsz : size M = S (size (delete k M))).
  { rewrite <- (insert_delete_id M k (a, h) HMk) at 1.
    apply map_size_insert_None, lookup_delete_eq. }
  destruct (push_free_spec s1 (delete k M) F a h k) as (s2 & s3 & H2 & H3 & Hds & Hinv).
  - destruct Hsh1 as (G1 & G2 & G3 & G4). split_and!; try done.
    intros k' b h' [_ HM2]%lookup_delete_Some. by apply G4.
  - done.
  - rewrite N4. apply (free_chain_frame sl); [done|]. intros b Hb. rewrite HK.
    split_and!; [done|intros ? ?; by apply HH|]. apply Hother. intros k' h'. by apply Hdisj.
  - constructor; [|done]. intros Ha. eauto.
  - intros b k' h' Hb [Hne HM2]%lookup_delete_Some.
    apply elem_of_cons in Hb as [->|Hb]; [|eauto].
    apply HMs in HM2 as (_ & _ & ? & _). congruence.
  - done.
  - by apply HH.
  - by rewrite HK.
  - lia.
  - lia.
  - by rewrite N2.
  - rewrite H2. mred. rewrite H3. mred. eexists. split; [|split; [|exact Hinv]].
    + simpl. by rewrite Hds, N3.
    + simpl. congruence.
Qed.

(** ** Iteration visits the elements in key order *)

Lemma elements_from_spec sl M :
  shape sl M -> level_ok sl M 0 ->
  forall fuel lo it, is_succ M 0 lo it -> (count_above M lo < fuel)%nat ->
  exists ks, StronglySorted Z.lt ks /\ (forall k, k ∈ ks <-> above lo k /\ is_Some (M !! k)) /\
    exists ds, skiplist_elements_from fuel sl it = Some ds /\
      Forall2 (fun k d => exists ah, M !! k = Some ah /\ d = ah.1 - datasize sl) ks ds.
Proof.
  intros Hsh Hok. induction fuel as [|f IH]; intros lo it Hs Hf; [lia|].
  cbn [skiplist_elements_from]. unfold skiplist_getnext.
  destruct Hs as [[-> Hno]|(k & a & h & -> & HM & _ & Hab & Hmin)].
  - exists []. pose proof Hsh as (_ & _ & -> & _). mred. rewrite bool_decide_eq_false_2 by naive_solver.
    split; [constructor|]. split; [|by exists []]. intros k. split; [set_solver|].
    intros [Hab [[a h] HM]]. destruct (Hno _ _ _ HM (Nat.le_0_l _) Hab).
  - assert (Hp : at_pos M 0 (PEl a) (Some k)) by (right; exists k, a, h; split_and!; [done..|lia]).
    destruct (Hok _ _ Hp) as (q & -> & Hq). mred. rewrite bool_decide_eq_true_2 by done.
    pose proof (count_above_lt _ _ _ _ HM Hab).
    destruct (IH _ _ Hq ltac:(lia)) as (ks & Hss & Hks & ds & -> & HF). mred.
    exists (k :: ks). split; [|split].
    + constructor; [done|]. apply list.Forall_forall. intros k' Hk'. by apply Hks in Hk' as [? _].
    + intros k'. rewrite elem_of_cons, Hks. simpl. split.
      * intros [->|[Hlt HM']]; [split; [done|by eexists]|]. split; [|done].
        destruct lo; simpl in *; [lia|done].
      * intros [Hab' [[a' h'] HM']]. destruct (decide (k' = k)) as [->|]; [by left|right].
        specialize (Hmin _ _ _ HM' (Nat.le_0_l _) Hab'). split; [lia|by eexists].
    + eexists. split; [done|]. constructor; [|done]. by exists (a, h).
Qed.

(** ** The abstract view: a finite map and a list of spare elements *)

(** [represents sl D spare]: [sl] is well formed, holds the map [D] from
    keys to data addresses, and has [spare] as free list. *)
Definition represents (sl : skiplist) (D : gmap Z Z) (spare : list Z) : Prop :=
  exists (M : model) F, sl_inv sl M F /\
    D = (fun ah => ah.1 - datasize sl) <$> M /\
    spare = (fun ah => ah.1 - datasize sl) <$> F.

(** On a well-formed skip list [skiplist_lookup] returns the data
    address of the key, or 0 ([NULL]) when the key is absent, whatever level
    [sl->slevel] the search starts at. *)
Theorem skiplist_lookup_correct sl D spare k :
  represents sl D spare -> k < SKIPLIST_END ->
  skiplist_lookup sl k = Some (default 0 (D !! k)).
Proof.
  intros (M & F & Hinv & -> & _) Hk. rewrite (lookup_inv sl M F k Hinv Hk).
  rewrite lookup_fmap. by destruct (M !! k) as [[a h]|].
Qed.

(** C8: [skiplist_insert] of a fresh key takes the first spare element,
    returns its data address and extends the map by it; the result is well
    formed at every level. *)
Theorem skiplist_insert_correct sl D d spare k :
  represents sl D (d :: spare) -> D !! k = None -> k < SKIPLIST_END ->
  Z.of_nat (size D) + 1 < 2 ^ 31 ->
  exists sl', skiplist_insert sl k = Some (sl', d) /\ represents sl' (<[k := d]> D) spare.
Proof.
  intros (M & F & Hinv & -> & HF) HD Hk Hsz.
  rewrite lookup_fmap, fmap_None in HD. rewrite map_size_fmap in Hsz.
  destruct F as [|[a n] F]; [done|]. injection HF as -> ->.
  destruct (insert_inv sl M F k a n Hinv HD Hk Hsz) as (sl' & -> & Hds & Hinv').
  exists sl'. split; [done|]. exists (<[k := (a, n)]> M), F. rewrite fmap_insert, Hds. done.
Qed.

(** C9: [skiplist_delete] removes the key from the map, returns the data
    address it had (0 if it had none) and puts the element on the free list;
    the result is well formed at every level. *)
Theorem skiplist_delete_correct sl D spare k :
  represents sl D spare -> k < SKIPLIST_END -> Z.of_nat (size D) < 2 ^ 31 ->
  exists sl', skiplist_delete sl k = Some (sl', default 0 (D !! k)) /\
    represents sl' (delete k D) (option_list (D !! k) ++ spare).
Proof.
  intros (M & F & Hinv & -> & ->) Hk Hsz. rewrite map_size_fmap in Hsz.
  destruct (delete_inv sl M F k Hinv Hk Hsz) as (sl' & -> & Hds & Hinv').
  exists sl'. rewrite lookup_fmap. destruct (M !! k) as [[a h]|] eqn:HM; (split; [done|]).
  - exists (delete k M), ((a, h) :: F). rewrite fmap_delete, Hds. done.
  - exists (delete k M), F. rewrite fmap_delete, Hds. done.
Qed.

(** Iterating with [skiplist_iterate]/[skiplist_getnext] terminates and
    visits every entry of the map exactly once, in increasing key order. *)
Theorem skiplist_elements_sorted sl D spare :
  represents sl D spare ->
  exists ks ds, skiplist_elements sl = Some ds /\ StronglySorted Z.lt ks /\
    (forall k, k ∈ ks <-> is_Some (D !! k)) /\ Forall2 (fun k d => D !! k = Some d) ks ds.
Proof.
  intros (M & F & [Hsh Hlev _ _ _ _ _] & -> & _). unfold skiplist_elements, skiplist_iterate.
  destruct (Hlev 0%nat ltac:(unfold SKIPLIST_MAX_HEIGHT; lia) PRoot None (at_pos_root _ _))
    as (it & Hit & Hs). simpl in Hit. rewrite Hit. mred.
  destruct (elements_from_spec sl M Hsh (Hlev 0%nat ltac:(unfold SKIPLIST_MAX_HEIGHT; lia))
    (S (size (mem sl))) None it Hs) as (ks & Hss & Hks & ds & -> & HF).
  { pose proof (count_above_size M None). pose proof (model_size_le _ _ Hsh). lia. }
  exists ks, ds. split_and!; [done|done| |].
  - intros k. rewrite Hks, lookup_fmap, fmap_is_Some. naive_solver.
  - eapply list.Forall2_impl; [exact HF|]. intros k d (ah & HM & ->). by rewrite lookup_fmap, HM.
Qed.

Lemma skiplist_needalloc_spec sl D spare :
  represents sl D spare -> skiplist_needalloc sl = bool_decide (spare = []).
Proof.
  intros (M & F & [_ _ Hf _ _ _ _] & _ & ->). unfold skiplist_needalloc.
  apply bool_decide_ext. inversion Hf; naive_solver.
Qed.

(** ** Initialisation *)

(** [skiplist_init] leaves the empty map and an empty free list. *)
Theorem skiplist_init_correct mftb sl dsize r :
  represents (skiplist_init mftb sl dsize r).1 ∅ [].
Proof.
  exists ∅, []. split; [|by rewrite fmap_empty]. split.
  - split; [|split; [done|split; [done|intros k a h; by rewrite lookup_empty]]].
    intros m. change (lev _ PRoot m) with (replicate SKIPLIST_MAX_HEIGHT PNil !! m).
    rewrite lookup_lt_is_Some, length_replicate. unfold SKIPLIST_MAX_HEIGHT. lia.
  - intros i Hi p lo [[-> ->]|(k & a & h & _ & _ & H & _)]; [|by rewrite lookup_empty in H].
    exists PNil. split.
    + change (lev _ PRoot i) with (replicate SKIPLIST_MAX_HEIGHT PNil !! i).
      by apply lookup_replicate_2.
    + left. split; [done|]. intros k a h. by rewrite lookup_empty.
  - constructor.
  - constructor.
  - intros a k h. by rewrite lookup_empty.
  - done.
  - unfold SKIPLIST_MAX_HEIGHT. simpl. lia.
Qed.

(** ** Preallocation *)

(** A run of free elements from [p] to [q]. *)
Inductive free_seg (sl : skiplist) (q : ptr) : ptr -> list (Z * nat) -> Prop :=
| seg_nil : free_seg sl q q []
| seg_cons a h next G :
    keyof sl (PEl a) = Some (Z.of_nat h) -> has_height sl (PEl a) h ->
    (h < SKIPLIST_MAX_HEIGHT)%nat -> lev sl (PEl a) 0 = Some next ->
    free_seg sl q next G -> free_seg sl q (PEl a) ((a, h) :: G).

(** Bytes an element of height [h] occupies, data included. *)
Definition el_start (sl : skiplist) (ah : Z * nat) : Z := ah.1 - datasize sl.
Definition el_end (ah : Z * nat) : Z :=
  ah.1 + sizeof_skiplist_el + Z.of_nat ah.2 * sizeof_skiplist_level.

(** The elements lie inside [lo, hi) and do not overlap. *)
Definition laid_out (sl : skiplist) (lo hi : Z) (G : list (Z * nat)) : Prop :=
  Forall (fun ah => lo <= el_start sl ah /\ el_end ah <= hi) G /\
  StronglySorted (fun x y => el_end y <= el_start sl x) G.

Section PreallocProofs.
Variable mftb : nat -> Z.

Lemma random_height_le k r : ((random_height mftb k r).1 <= k)%nat.
Proof.
  revert r. induction k as [|k IH]; intros r; simpl; [lia|].
  case_match; [|simpl; lia].
  specialize (IH (Rng (u32 (mol_rand_seed r * 69069 + 1)) (S (ntb r)))).
  destruct (random_height mftb k _). simpl in *. lia.
Qed.

(** Writing an element outside a run keeps the run. *)
Lemma free_seg_mem sl m q p G :
  free_seg sl q p G -> (forall a, a ∈ G.*1 -> m !! a = mem sl !! a) ->
  free_seg (set_mem m sl) q p G.
Proof.
  induction 1 as [|a h next G Hk Hh Hlt Hl _ IH]; intros Hm; [constructor|].
  assert (Ha : m !! a = mem sl !! a) by (apply Hm; left).
  econstructor; [|intros j| |simpl; rewrite Ha; exact Hl|].
  - simpl. rewrite Ha. exact Hk.
  - rewrite <- (Hh j). simpl. by rewrite Ha.
  - done.
  - apply IH. intros b Hb. apply Hm. by right.
Qed.

Lemma carve_spec fuel : forall sl buf size head G0 r count q,
  0 <= datasize sl -> 0 <= size -> size < Z.of_nat fuel ->
  (forall a, a ∈ G0.*1 -> a < buf) -> free_seg sl q head G0 ->
  exists m head' G r',
    carve mftb fuel sl buf size head count r
      = Some (set_mem m sl, head', (count + length G)%nat, r') /\
    free_seg (set_mem m sl) q head' (G ++ G0) /\
    laid_out sl buf (buf + size) G /\
    (forall a, a ∉ G.*1 -> m !! a = mem sl !! a).
Proof.
  induction fuel as [|f IH]; intros sl buf size head G0 r count q Hd Hs Hf Hlt Hseg; [lia|].
  cbn [carve]. pose proof (random_height_le (SKIPLIST_MAX_HEIGHT - 1) r) as Hn.
  destruct (random_height mftb _ r) as [n r1]. simpl in Hn.
  set (s := datasize sl + sizeof_skiplist + Z.of_nat n * sizeof_skiplist_level).
  assert (Hs1 : datasize sl + sizeof_skiplist_el + Z.of_nat n * sizeof_skiplist_level + 80 = s).
  { unfold s, sizeof_skiplist, sizeof_skiplist_el, sizeof_skiplist_level. lia. }
  assert (Hpos : 88 <= s).
  { unfold s, sizeof_skiplist, sizeof_skiplist_el, sizeof_skiplist_level. lia. }
  destruct (Z.ltb_spec size s) as [Hout|Hin].
  { exists (mem sl), head, [], r1. rewrite Nat.add_0_r. split; [by destruct sl|].
    split; [by destruct sl|]. split; [|done]. split; constructor. }
  set (p := buf + datasize sl). set (e := El (Z.of_nat n) (head :: replicate n PNull)).
  destruct (IH (set_mem (<[p := e]> (mem sl)) sl) (buf + s) (size - s) (PEl p) ((p, n) :: G0)
    r1 (S count) q) as (m & head' & G & r' & Hrun & Hseg' & [HF HS] & Hmem); simpl; try lia.
  { intros a [->|Ha]%elem_of_cons; [unfold p; unfold sizeof_skiplist_el, sizeof_skiplist_level in *; lia|].
    specialize (Hlt a Ha). lia. }
  { econstructor.
    - simpl. by rewrite lookup_insert_eq.
    - intros j. simpl. rewrite lookup_insert_eq. simpl. rewrite lookup_lt_is_Some. simpl.
      rewrite length_replicate. lia.
    - unfold SKIPLIST_MAX_HEIGHT in *. lia.
    - simpl. by rewrite lookup_insert_eq.
    - apply free_seg_mem; [done|]. intros a Ha. specialize (Hlt a Ha).
      rewrite lookup_insert_ne; [done|]. unfold p. lia. }
  exists m, head', (G ++ [(p, n)]), r'. rewrite <- app_assoc. split; [|split; [done|split]].
  - rewrite length_app. simpl. rewrite Hrun. do 3 f_equal. lia.
  - assert (Hp : el_start sl (p, n) = buf /\ el_end (p, n) + 80 = buf + s).
    { unfold el_start, el_end, p. simpl. lia. }
    split.
    + apply Forall_app. split; [|repeat constructor; lia].
      eapply list.Forall_impl; [exact HF|]. unfold el_start. simpl. lia.
    + clear -HS HF Hp. induction HS as [|x G HG IH Hx]; simpl; [repeat constructor|].
      apply list.Forall_cons in HF as [Hx1 HF]. constructor; [by apply IH|].
      apply Forall_app. split; [done|]. repeat constructor.
      unfold el_start in *. simpl in *. lia.
  - intros a Ha. rewrite fmap_app, not_elem_of_app in Ha. destruct Ha as [Ha1 Ha2].
    rewrite Hmem by done. simpl. rewrite lookup_insert_ne; [done|]. set_solver.
Qed.

Context {U : Type} (callback : option (skiplist -> U -> Z -> Z -> Z -> skiplist * U)).

(** A callback that leaves the skip list itself alone. *)
Definition callback_pure : Prop :=
  forall cb sl u d i n, callback = Some cb -> (cb sl u d i n).1 = sl.

(** What the callbacks compute, in the order of the chain. *)
Fixpoint run_callbacks (sl : skiplist) (u : U) (G : list (Z * nat)) (i count : nat) : U :=
  match G with
  | [] => u
  | (a, _) :: G' =>
      run_callbacks sl (match callback with
                        | Some cb => (cb sl u (data_of sl (PEl a)) (Z.of_nat i) (Z.of_nat count)).2
                        | None => u end) G' (S i) count
  end.

Lemma free_seg_nonnull sl p G : free_seg sl PNull p G -> p = PNull <-> G = [].
Proof. by inversion 1. Qed.

(** Appending the old free list to a run. *)
Lemma prealloc_finish_spec : callback_pure ->
  forall G fuel sl u head p i count, G <> [] -> (length G < fuel)%nat -> NoDup G.*1 ->
  free_seg sl PNull p G ->
  exists G1 a h sl2, G = G1 ++ [(a, h)] /\
    set_lev sl (PEl a) 0 (freelist sl) = Some sl2 /\
    prealloc_finish callback fuel sl u head p i count
      = Some (set_freelist head sl2, run_callbacks sl u G i count).
Proof.
  intros Hcb. induction G as [|[a h] G IH]; intros fuel sl u head p i count HG Hf Hnd Hseg;
    [done|].
  destruct fuel as [|f]; [simpl in Hf; lia|]. inversion Hseg as [|? ? next ? Hk Hh Hlt Hl Hrest]; subst.
  cbn [prealloc_finish]. rewrite decide_False by done.
  assert (Hst : match callback with
    | Some cb => cb sl u (data_of sl (PEl a)) (Z.of_nat i) (Z.of_nat count)
    | None => (sl, u) end = (sl, match callback with
                        | Some cb => (cb sl u (data_of sl (PEl a)) (Z.of_nat i) (Z.of_nat count)).2
                        | None => u end)).
  { destruct callback as [cb|] eqn:Hc; [|done].
    pose proof (Hcb cb sl u (data_of sl (PEl a)) (Z.of_nat i) (Z.of_nat count) Hc) as H1.
    destruct (cb _ _ _ _ _). simpl in *. by subst. }
  rewrite Hst, Hl. mred. destruct (decide (next = PNull)) as [->|Hne].
  - apply free_seg_nonnull in Hrest as [HG0 _]. rewrite HG0 by done.
    destruct (set_lev_relinked sl (PEl a) 0 (freelist sl)) as (sl2 & H2 & _ & _); [by eexists|done|].
    exists [], a, h, sl2. split; [done|]. rewrite H2. done.
  - assert (G <> []) by (intros ->; by inversion Hrest).
    simpl in Hnd. apply list.NoDup_cons in Hnd as [_ Hnd].
    destruct (IH f sl (match callback with
                        | Some cb => (cb sl u (data_of sl (PEl a)) (Z.of_nat i) (Z.of_nat count)).2
                        | None => u end) head next (S i) count)
      as (G1 & a' & h' & sl2 & HG1 & H2 & ->); try done; [simpl in Hf; lia|].
    exists ((a, h) :: G1), a', h', sl2. by rewrite HG1.
Qed.
End PreallocProofs.

(** Memory outside the skip list does not matter. *)
Lemma sl_inv_frame sl m M F :
  sl_inv sl M F ->
  (forall b, b ∈ F.*1 \/ (exists k h, M !! k = Some (b, h)) -> m !! b = mem sl !! b) ->
  sl_inv (set_mem m sl) M F.
Proof.
  intros [Hsh Hlev Hfree Hnd Hdisj Hnel Hsl] Hm.
  assert (HL : forall b j, b ∈ F.*1 \/ (exists k h, M !! k = Some (b, h)) ->
            lev (set_mem m sl) (PEl b) j = lev sl (PEl b) j).
  { intros b j Hb. simpl. by rewrite Hm. }
  assert (HK : forall b, b ∈ F.*1 \/ (exists k h, M !! k = Some (b, h)) ->
            keyof (set_mem m sl) (PEl b) = keyof sl (PEl b)).
  { intros b Hb. simpl. by rewrite Hm. }
  split; try done.
  - destruct Hsh as (G1 & G2 & G3 & G4). split; [done|split; [done|split; [done|]]].
    intros k b h HM. destruct (G4 _ _ _ HM) as (? & ? & ? & Hh). rewrite HK by eauto.
    split_and!; try done. intros j. rewrite HL by eauto. apply Hh.
  - intros i Hi p lo Hp. destruct (Hlev i Hi p lo Hp) as (q & Hq & Hs). exists q.
    split; [|done]. destruct Hp as [[-> _]|(k1 & a1 & h1 & _ & -> & Hk1 & _)]; [done|].
    rewrite HL by eauto. done.
  - apply (free_chain_frame sl); [done|]. intros b Hb. rewrite HK, HL by eauto.
    split_and!; [done| |done]. intros h Hh j. rewrite HL by eauto. apply Hh.
Qed.

Lemma free_seg_append sl sl' G1 a h G p F :
  free_seg sl PNull p G -> G = G1 ++ [(a, h)] ->
  (forall b, keyof sl' (PEl b) = keyof sl (PEl b)) ->
  (forall p h, has_height sl p h -> has_height sl' p h) ->
  (forall b, b ∈ G1.*1 -> lev sl' (PEl b) 0 = lev sl (PEl b) 0) ->
  lev sl' (PEl a) 0 = Some (freelist sl) -> free_chain sl' (freelist sl) F ->
  free_chain sl' p (G ++ F).
Proof.
  intros Hseg. revert G1. induction Hseg as [|b hb next G Hk Hh Hlt Hl Hrest IH];
    intros G1 HG HK HH HL Ha HF; [by destruct G1|].
  destruct G1 as [|[b' hb'] G1]; injection HG as ? ? HG; subst.
  - econstructor; [by rewrite HK|by apply HH|done|done|done].
  - econstructor; [by rewrite HK|by apply HH|done| |].
    + rewrite HL; [done|left].
    + apply (IH G1); try done. intros c Hc. apply HL. by right.
Qed.

Lemma sl_inv_append sl sl2 M F G G1 a h head :
  sl_inv sl M F -> free_seg sl PNull head G -> G = G1 ++ [(a, h)] ->
  NoDup (G ++ F).*1 ->
  (forall b k h', b ∈ G.*1 -> M !! k = Some (b, h') -> False) ->
  set_lev sl (PEl a) 0 (freelist sl) = Some sl2 ->
  sl_inv (set_freelist head sl2) M (G ++ F).
Proof.
  intros [Hsh Hlev Hfree Hnd Hdisj Hnel Hsl] Hseg HG HndG HdG Hset.
  assert (Ha : is_Some (lev sl (PEl a) 0)).
  { simpl in *. destruct (mem sl !! a) as [e|]; [|done]. simpl in *.
    destruct (level e); [done|by eexists]. }
  destruct (set_lev_relinked sl (PEl a) 0 (freelist sl) Ha ltac:(done)) as (s' & Hs' & HR & HL).
  rewrite Hset in Hs'. injection Hs' as <-.
  pose proof (shape_relinked _ _ _ HR Hsh) as Hsh2.
  destruct HR as ((N1 & N2 & N3 & N4 & N5 & N6) & HK & HH & HN).
  assert (HaG : a ∈ G.*1) by (rewrite HG, fmap_app; set_solver).
  assert (HL' : forall p j, p <> PEl a -> lev sl2 p j = lev sl p j).
  { intros p j Hp. rewrite HL, decide_False by naive_solver. done. }
  rewrite fmap_app in HndG. apply list.NoDup_app in HndG as (HndG & HdF & _).
  split.
  - exact Hsh2.
  - intros i Hi p lo Hp. destruct (Hlev i Hi p lo Hp) as (q & Hq & Hs). exists q.
    split; [|done]. transitivity (lev sl2 p i); [done|]. rewrite HL'; [done|].
    destruct Hp as [[-> _]|(k1 & a1 & h1 & _ & -> & Hk1 & _)]; [done|]. intros [= ->]. eauto.
  - simpl. apply (free_seg_append sl (set_freelist head sl2) G1 a h); try done.
    + intros b. exact (HK (PEl b)).
    + intros p h' Hp. by apply (HH p h').
    + intros b Hb. apply (HL' (PEl b) 0%nat). intros [= ->]. rewrite HG, fmap_app in HndG.
      apply list.NoDup_app in HndG as (_ & Hd & _). by apply (Hd a Hb), list_elem_of_singleton.
    + transitivity (lev sl2 (PEl a) 0); [done|]. by rewrite HL, decide_True.
    + apply (free_chain_frame sl); [done|]. intros b Hb.
      assert (b <> a) by (intros ->; by apply (HdF a)).
      split; [exact (HK (PEl b))|split; [intros h' ?; by apply (HH (PEl b) h')|]].
      apply (HL' (PEl b) 0%nat). congruence.
  - rewrite fmap_app. apply list.NoDup_app. done.
  - intros b k h' Hb HM. rewrite fmap_app in Hb. apply elem_of_app in Hb as [Hb|Hb]; eauto.
  - simpl. by rewrite N1.
  - simpl. by rewrite N2.
Qed.

(** The addresses of non-overlapping elements are distinct. *)
Lemma laid_out_nodup sl lo hi G : 0 <= datasize sl -> laid_out sl lo hi G -> NoDup G.*1.
Proof.
  intros Hd [_ HS]. induction HS as [|[a h] G HG IH HF]; [constructor|].
  simpl. constructor; [|done]. intros Ha. apply list_elem_of_fmap in Ha as ([a' h'] & -> & Ha).
  rewrite list.Forall_forall in HF. specialize (HF _ Ha).
  unfold el_start, el_end, sizeof_skiplist_el, sizeof_skiplist_level in HF. simpl in *. lia.
Qed.

(** [skiplist_prealloc] terminates on every buffer, carves it into
    elements that lie inside the buffer and do not overlap (data included),
    and puts them in front of the free list without touching the map; it
    returns their number. *)
Theorem skiplist_prealloc_correct mftb {U} (callback : option (skiplist -> U -> Z -> Z -> Z -> skiplist * U))
    sl D spare buf size u r :
  represents sl D spare -> callback_pure callback -> 0 <= datasize sl -> 0 <= size ->
  (forall a, a ∈ dom (mem sl) -> ~ (buf <= a < buf + size)) ->
  exists G sl' u' r',
    skiplist_prealloc mftb callback sl buf size u r = Some (Z.of_nat (length G), sl', u', r') /\
    represents sl' D ((el_start sl <$> G) ++ spare) /\ datasize sl' = datasize sl /\
    laid_out sl buf (buf + size) G.
Proof.
  intros (M & F & Hinv & -> & ->) Hcb Hd Hs Hfresh. unfold skiplist_prealloc.
  destruct (carve_spec mftb (S (Z.to_nat size)) sl buf size PNull [] r 0 PNull)
    as (m & head & G & r' & -> & Hseg & Hlay & Hmem); try done; [lia|set_solver|constructor|].
  mred. rewrite app_nil_r in Hseg. rewrite Nat.add_0_l.
  assert (HGdom : forall a, a ∈ G.*1 -> mem sl !! a = None).
  { intros a Ha. apply not_elem_of_dom. intros Hdom. apply (Hfresh a Hdom).
    apply list_elem_of_fmap in Ha as ([a' h] & -> & Ha). destruct Hlay as [HF _].
    rewrite list.Forall_forall in HF. specialize (HF _ Ha).
    unfold el_start, el_end, sizeof_skiplist_el, sizeof_skiplist_level in HF. simpl in *. lia. }
  assert (Hlive : forall b, b ∈ F.*1 \/ (exists k h, M !! k = Some (b, h)) -> b ∉ G.*1).
  { intros b Hb HbG. apply HGdom in HbG. destruct Hb as [Hb|(k & h & HM)].
    - pose proof (inv_free _ _ _ Hinv) as Hf. clear -Hb HbG Hf.
      induction Hf as [|a h next F Hk _ _ _ _ IH]; [set_solver|].
      apply elem_of_cons in Hb as [->|Hb]; [|by apply IH]. simpl in Hk, HbG. by rewrite HbG in Hk.
    - apply (inv_shape _ _ _ Hinv) in HM as (_ & _ & Hk & _). simpl in Hk. by rewrite HbG in Hk. }
  assert (Hinv1 : sl_inv (set_mem m sl) M F).
  { apply sl_inv_frame; [done|]. intros b Hb. apply Hmem. by apply Hlive. }
  destruct (decide (G = [])) as [->|HG].
  { exists [], (set_mem m sl), u, r'. inversion Hseg; subst. cbn. split; [done|].
    split; [by exists M, F|]. by split. }
  destruct (prealloc_finish_spec callback Hcb G (S (length G)) (set_mem m sl) u head head 0 (length G))
    as (G1 & a & h & sl2 & HG1 & Hset & ->); try done; [lia|by apply (laid_out_nodup sl buf (buf + size))|].
  mred. exists G, (set_freelist head sl2). do 2 eexists. split; [done|].
  assert (Hinv2 : sl_inv (set_freelist head sl2) M (G ++ F)).
  { apply (sl_inv_append (set_mem m sl) sl2 M F G G1 a h); try done.
    - rewrite fmap_app. apply list.NoDup_app. split_and!.
      + by apply (laid_out_nodup sl buf (buf + size)).
      + intros b Hb1 Hb2. apply (Hlive b); auto.
      + apply (inv_nodup _ _ _ Hinv).
    - intros b k h' Hb HM. apply (Hlive b); eauto. }
  assert (Hds : datasize sl2 = datasize sl).
  { simpl in Hset. destruct (m !! a); [|done]. simpl in Hset. case_decide; [|done].
    by injection Hset as <-. }
  split; [|by split]. exists M, (G ++ F). split; [done|]. cbn [datasize set_freelist].
  rewrite Hds, fmap_app. done.
Qed.

(** ** Concrete skip lists *)

(** Two spare elements, of heights 1 and 0, and no entry. *)
Definition ex_spare : skiplist :=
  Sl 0 0 268 (replicate SKIPLIST_MAX_HEIGHT PNil) (El SKIPLIST_END [PNil]) (PEl 1268) 0x500
     {[ 1268 := El 1 [PEl 2268; PNull]; 2268 := El 0 [PNull] ]}.

(** The same with one entry, key 5. *)
Definition ex_one : skiplist :=
  match skiplist_insert ex_spare 5 with Some (sl, _) => sl | None => ex_spare end.

Lemma lookup_height {A} (ls : list A) h m : length ls = S h -> is_Some (ls !! m) <-> (m <= h)%nat.
Proof. intros Hl. rewrite lookup_lt_is_Some. lia. Qed.

Lemma ex_spare_inv : sl_inv ex_spare ∅ [(1268, 1%nat); (2268, 0%nat)].
Proof.
  split.
  - split; [|split; [done|split; [done|intros k a h; by rewrite lookup_empty]]].
    intros m. apply lookup_height. reflexivity.
  - intros i Hi p lo [[-> ->]|(k & a & h & _ & _ & H & _)]; [|by rewrite lookup_empty in H].
    exists PNil. split; [by apply (lookup_replicate_2 SKIPLIST_MAX_HEIGHT PNil)|].
    left. split; [done|]. intros k a h. by rewrite lookup_empty.
  - apply free_cons with (next := PEl 2268); [done| |unfold SKIPLIST_MAX_HEIGHT; lia|done|].
    { intros m. by apply (lookup_height [PEl 2268; PNull]). }
    apply free_cons with (next := PNull); [done| |unfold SKIPLIST_MAX_HEIGHT; lia|done|constructor].
    intros m. by apply (lookup_height [PNull]).
  - apply (bool_decide_unpack _). reflexivity.
  - intros a k h _. by rewrite lookup_empty.
  - done.
  - unfold SKIPLIST_MAX_HEIGHT. simpl. lia.
Qed.

Lemma ex_spare_represents : represents ex_spare ∅ [1000; 2000].
Proof. exists ∅, [(1268, 1%nat); (2268, 0%nat)]. split; [apply ex_spare_inv|]. done. Qed.

Lemma ex_one_represents : represents ex_one {[5 := 1000]} [2000].
Proof.
  destruct (insert_inv ex_spare ∅ [(2268, 0%nat)] 5 1268 1 ex_spare_inv) as (sl' & Hi & Hd & Hinv);
    [done|unfold SKIPLIST_END; lia|rewrite map_size_empty; lia|].
  assert (ex_one = sl') as -> by (unfold ex_one; by rewrite Hi).
  exists (<[5 := (1268, 1%nat)]> ∅), [(2268, 0%nat)]. split; [done|].
  rewrite fmap_insert, fmap_empty, Hd. done.
Qed.

Lemma skiplist_lookup_correct_witness :
  represents ex_one {[5 := 1000]} [2000] /\ skiplist_lookup ex_one 5 = Some 1000.
Proof.
  split; [apply ex_one_represents|].
  apply (skiplist_lookup_correct ex_one {[5 := 1000]} [2000] 5 ex_one_represents).
  unfold SKIPLIST_END. lia.
Defined.

Lemma skiplist_insert_correct_witness :
  exists sl', skiplist_insert ex_spare 5 = Some (sl', 1000) /\
    represents sl' (<[5 := 1000]> ∅) [2000].
Proof.
  apply (skiplist_insert_correct ex_spare ∅ 1000 [2000] 5 ex_spare_represents); [done| |].
  - unfold SKIPLIST_END. lia.
  - rewrite map_size_empty. lia.
Defined.

Lemma skiplist_delete_correct_witness :
  exists sl', skiplist_delete ex_one 5 = Some (sl', 1000) /\
    represents sl' (delete 5 {[5 := 1000]}) [1000; 2000].
Proof.
  apply (skiplist_delete_correct ex_one {[5 := 1000]} [2000] 5 ex_one_represents).
  - unfold SKIPLIST_END. lia.
  - rewrite map_size_singleton. lia.
Defined.

Lemma skiplist_elements_sorted_witness :
  exists ks ds, skiplist_elements ex_one = Some ds /\ StronglySorted Z.lt ks /\
    (forall k, k ∈ ks <-> is_Some (({[5 := 1000]} : gmap Z Z) !! k)) /\
    Forall2 (fun k d => ({[5 := 1000]} : gmap Z Z) !! k = Some d) ks ds.
Proof. apply (skiplist_elements_sorted ex_one {[5 := 1000]} [2000] ex_one_represents). Defined.

Lemma skiplist_prealloc_correct_witness :
  exists G sl' u' r',
    skiplist_prealloc (fun n => Z.of_nat n * 7919) (U := unit) None ex_spare 0x10000 0xff4 tt
      (Rng 152 0) = Some (Z.of_nat (length G), sl', u', r') /\
    represents sl' ∅ ((el_start ex_spare <$> G) ++ [1000; 2000]) /\
    datasize sl' = 268 /\ laid_out ex_spare 0x10000 (0x10000 + 0xff4) G.
Proof.
  apply (skiplist_prealloc_correct (fun n => Z.of_nat n * 7919) None ex_spare ∅ [1000; 2000]
    0x10000 0xff4 tt (Rng 152 0) ex_spare_represents); [done|simpl; lia|lia|].
  intros a Ha. change (mem ex_spare) with
    ({[ 1268 := El 1 [PEl 2268; PNull]; 2268 := El 0 [PNull] ]} : gmap Z skiplist_el) in Ha.
  rewrite dom_insert_L, dom_singleton_L in Ha. set_unfold. lia.
Defined.

End Skiplist.
