(* ===== verification/Kvars.v ===== *)
(** * Kernel-module state ([src/shared/kernel_vars.h], [src/kmod/include/*.h])

    The record [kvars] is [kernel_vars_t] as far as the MMU code uses it,
    together with what that code reaches through pointers: the PTE records,
    level-2 tables and VSID records of [mtable.c], the hardware PTE hash and
    the TLB invalidations issued so far.  Memory obtained from the kernel
    ([alloc_page_mol], [kmalloc_mol], [vmalloc_mol]) comes from the list
    [oracle]: the next address returned, 0 for a failure. *)

From S2P Require Import Prelude Skiplist.

Module Kvars.

(** ** Constants ([src/shared/processor.h], [src/kmod/include/mmu.h]) *)

Definition PTE0_VSID (s : Z) : Z := (s .>> 7) .& 0xffffff.
Definition PTE0_V : Z := MOL_BIT 0.
Definition PTE0_H : Z := MOL_BIT 25.
Definition PTE0_API : Z := 0x3f.
Definition PTE1_R : Z := MOL_BIT 23.
Definition PTE1_C : Z := MOL_BIT 24.
Definition PTE1_W : Z := MOL_BIT 25.
Definition PTE1_I : Z := MOL_BIT 26.
Definition PTE1_M : Z := MOL_BIT 27.
Definition PTE1_G : Z := MOL_BIT 28.
Definition PTE1_WIMG : Z := PTE1_W .| PTE1_I .| PTE1_M .| PTE1_G.
Definition PTE1_PP : Z := 0x3.
Definition PTE1_RPN : Z := 0xfffff000.
Definition VSID_Ks : Z := MOL_BIT 1.
Definition VSID_Kp : Z := MOL_BIT 2.
Definition VSID_N : Z := MOL_BIT 3.
Definition MSR_PR : Z := 1 .<< 14.
Definition MSR_IR : Z := 1 .<< 5.
Definition MSR_DR : Z := 1 .<< 4.
Definition VSID_MASK : Z := 0xffffff.

Definition MAPPING_RO : Z := 1.
Definition MAPPING_PHYSICAL : Z := 2.
Definition MAPPING_SCRATCH : Z := 4.
Definition MAPPING_FORCE_CACHE : Z := 8.
Definition MAPPING_FB_ACCEL : Z := 16.
Definition MAPPING_FB : Z := 32.
Definition MAPPING_DBAT : Z := 64.
Definition MAPPING_MACOS_CONTROLS_CACHE : Z := 128.
Definition MAPPING_PUT_FIRST : Z := 256.
Definition MAPPING_MREGS : Z := 512.
Definition MAPPING_FORCE_WRITABLE : Z := 4096.
Definition MAPPING_IO : Z := 1024.
Definition MAPPING_VALID : Z := 2048.

(** Return vectors ([src/shared/rvec.h]) *)
Definition RVEC_NOP : Z := 0.
Definition RVEC_ISI_TRAP : Z := 7.
Definition RVEC_DSI_TRAP : Z := 8.
Definition RVEC_IO_READ : Z := 25.
Definition RVEC_IO_WRITE : Z := 26.
Definition RVEC_UNUSUAL_DSISR_BITS : Z := 28.
Definition RVEC_MMU_IO_SEG_ACCESS : Z := 29.
Definition RVEC_BREAK : Z := 32.
Definition RVEC_BAD_NIP : Z := 33.

(** [struct pterec]: one PTE MOL has inserted. *)
Record pterec := Pterec {
  ea_next : Z;
  lv_next : Z;
  pent : Z
}.

Definition set_ea_next (v : Z) (r : pterec) : pterec :=
  Pterec v (lv_next r) (pent r).
Definition set_lv_next (v : Z) (r : pterec) : pterec :=
  Pterec (ea_next r) v (pent r).
Definition set_pent (v : Z) (r : pterec) : pterec :=
  Pterec (ea_next r) (lv_next r) v.
(** [struct vsid_ent]: a VSID of the guest. *)
Record vsid_ent := VsidEnt {
  linux_vsid : Z;
  linux_vsid_sv : Z;
  lev2 : list Z   (** 64 addresses of level-2 tables, 0 if absent *)
}.

Definition set_linux_vsid (v : Z) (r : vsid_ent) : vsid_ent :=
  VsidEnt v (linux_vsid_sv r) (lev2 r).
Definition set_linux_vsid_sv (v : Z) (r : vsid_ent) : vsid_ent :=
  VsidEnt (linux_vsid r) v (lev2 r).
Definition set_lev2 (v : list Z) (r : vsid_ent) : vsid_ent :=
  VsidEnt (linux_vsid r) (linux_vsid_sv r) v.
(** [struct pte_lvrange]: a registered range of user space memory. *)
Record pte_lvrange := Lvrange {
  lr_self : Z;   (** address of the record *)
  lr_pents : Z;   (** address of the array of list heads *)
  lr_base : Z;
  lr_size : Z
}.

Definition set_lr_self (v : Z) (r : pte_lvrange) : pte_lvrange :=
  Lvrange v (lr_pents r) (lr_base r) (lr_size r).
Definition set_lr_pents (v : Z) (r : pte_lvrange) : pte_lvrange :=
  Lvrange (lr_self r) v (lr_base r) (lr_size r).
Definition set_lr_base (v : Z) (r : pte_lvrange) : pte_lvrange :=
  Lvrange (lr_self r) (lr_pents r) v (lr_size r).
Definition set_lr_size (v : Z) (r : pte_lvrange) : pte_lvrange :=
  Lvrange (lr_self r) (lr_pents r) (lr_base r) v.
(** [struct vsid_info] *)
Record vsid_info := VsidInfo {
  vi_self : Z;   (** address of the structure *)
  lvranges : list pte_lvrange;   (** the list [lvrange_head] *)
  free_pents : Z;
  free_pent_tables : Z;
  allocations : list (Z * Z);   (** page, [ALLOC_CONT_XXX] *)
  alloc_size : Z;
  alloc_limit : Z
}.

Definition set_vi_self (v : Z) (r : vsid_info) : vsid_info :=
  VsidInfo v (lvranges r) (free_pents r) (free_pent_tables r) (allocations r) (alloc_size r)
     (alloc_limit r).
Definition set_lvranges (v : list pte_lvrange) (r : vsid_info) : vsid_info :=
  VsidInfo (vi_self r) v (free_pents r) (free_pent_tables r) (allocations r) (alloc_size r)
     (alloc_limit r).
Definition set_free_pents (v : Z) (r : vsid_info) : vsid_info :=
  VsidInfo (vi_self r) (lvranges r) v (free_pent_tables r) (allocations r) (alloc_size r)
     (alloc_limit r).
Definition set_free_pent_tables (v : Z) (r : vsid_info) : vsid_info :=
  VsidInfo (vi_self r) (lvranges r) (free_pents r) v (allocations r) (alloc_size r)
     (alloc_limit r).
Definition set_allocations (v : list (Z * Z)) (r : vsid_info) : vsid_info :=
  VsidInfo (vi_self r) (lvranges r) (free_pents r) (free_pent_tables r) v (alloc_size r)
     (alloc_limit r).
Definition set_alloc_size (v : Z) (r : vsid_info) : vsid_info :=
  VsidInfo (vi_self r) (lvranges r) (free_pents r) (free_pent_tables r) (allocations r) v
     (alloc_limit r).
Definition set_alloc_limit (v : Z) (r : vsid_info) : vsid_info :=
  VsidInfo (vi_self r) (lvranges r) (free_pents r) (free_pent_tables r) (allocations r)
     (alloc_size r) v.
(** [struct mac_bat] *)
Record mac_bat := MacBat {
  bat_valid : bool;
  bat_base : Z;
  bat_mbase : Z;
  bat_size : Z;
  bat_wimg : Z;
  bat_vs : bool;
  bat_vp : bool;
  bat_ks : bool;
  bat_ku : bool;
  bat_pp : Z
}.

Definition set_bat_valid (v : bool) (r : mac_bat) : mac_bat :=
  MacBat v (bat_base r) (bat_mbase r) (bat_size r) (bat_wimg r) (bat_vs r) (bat_vp r)
     (bat_ks r) (bat_ku r) (bat_pp r).
Definition set_bat_base (v : Z) (r : mac_bat) : mac_bat :=
  MacBat (bat_valid r) v (bat_mbase r) (bat_size r) (bat_wimg r) (bat_vs r) (bat_vp r)
     (bat_ks r) (bat_ku r) (bat_pp r).
Definition set_bat_mbase (v : Z) (r : mac_bat) : mac_bat :=
  MacBat (bat_valid r) (bat_base r) v (bat_size r) (bat_wimg r) (bat_vs r) (bat_vp r)
     (bat_ks r) (bat_ku r) (bat_pp r).
Definition set_bat_size (v : Z) (r : mac_bat) : mac_bat :=
  MacBat (bat_valid r) (bat_base r) (bat_mbase r) v (bat_wimg r) (bat_vs r) (bat_vp r)
     (bat_ks r) (bat_ku r) (bat_pp r).
Definition set_bat_wimg (v : Z) (r : mac_bat) : mac_bat :=
  MacBat (bat_valid r) (bat_base r) (bat_mbase r) (bat_size r) v (bat_vs r) (bat_vp r)
     (bat_ks r) (bat_ku r) (bat_pp r).
Definition set_bat_vs (v : bool) (r : mac_bat) : mac_bat :=
  MacBat (bat_valid r) (bat_base r) (bat_mbase r) (bat_size r) (bat_wimg r) v (bat_vp r)
     (bat_ks r) (bat_ku r) (bat_pp r).
Definition set_bat_vp (v : bool) (r : mac_bat) : mac_bat :=
  MacBat (bat_valid r) (bat_base r) (bat_mbase r) (bat_size r) (bat_wimg r) (bat_vs r) v
     (bat_ks r) (bat_ku r) (bat_pp r).
Definition set_bat_ks (v : bool) (r : mac_bat) : mac_bat :=
  MacBat (bat_valid r) (bat_base r) (bat_mbase r) (bat_size r) (bat_wimg r) (bat_vs r)
     (bat_vp r) v (bat_ku r) (bat_pp r).
Definition set_bat_ku (v : bool) (r : mac_bat) : mac_bat :=
  MacBat (bat_valid r) (bat_base r) (bat_mbase r) (bat_size r) (bat_wimg r) (bat_vs r)
     (bat_vp r) (bat_ks r) v (bat_pp r).
Definition set_bat_pp (v : Z) (r : mac_bat) : mac_bat :=
  MacBat (bat_valid r) (bat_base r) (bat_mbase r) (bat_size r) (bat_wimg r) (bat_vs r)
     (bat_vp r) (bat_ks r) (bat_ku r) v.
(** [hash_info_t]: the hardware hash table *)
Record hash_info := HashInfo {
  h_sdr1 : Z;
  pteg_mask : Z;
  pte_mask : Z;
  h_base : Z;
  h_physbase : Z
}.

Definition set_h_sdr1 (v : Z) (r : hash_info) : hash_info :=
  HashInfo v (pteg_mask r) (pte_mask r) (h_base r) (h_physbase r).
Definition set_pteg_mask (v : Z) (r : hash_info) : hash_info :=
  HashInfo (h_sdr1 r) v (pte_mask r) (h_base r) (h_physbase r).
Definition set_pte_mask (v : Z) (r : hash_info) : hash_info :=
  HashInfo (h_sdr1 r) (pteg_mask r) v (h_base r) (h_physbase r).
Definition set_h_base (v : Z) (r : hash_info) : hash_info :=
  HashInfo (h_sdr1 r) (pteg_mask r) (pte_mask r) v (h_physbase r).
Definition set_h_physbase (v : Z) (r : hash_info) : hash_info :=
  HashInfo (h_sdr1 r) (pteg_mask r) (pte_mask r) (h_base r) v.
(** [block_trans_t] *)
Record block_trans := BlockTrans {
  bt_mbase : Z;
  bt_lvbase : Z;
  bt_lvrange : option Z;   (** address of the lvrange *)
  bt_size : Z;
  bt_flags : Z;
  bt_id : Z
}.

Definition set_bt_mbase (v : Z) (r : block_trans) : block_trans :=
  BlockTrans v (bt_lvbase r) (bt_lvrange r) (bt_size r) (bt_flags r) (bt_id r).
Definition set_bt_lvbase (v : Z) (r : block_trans) : block_trans :=
  BlockTrans (bt_mbase r) v (bt_lvrange r) (bt_size r) (bt_flags r) (bt_id r).
Definition set_bt_lvrange (v : option Z) (r : block_trans) : block_trans :=
  BlockTrans (bt_mbase r) (bt_lvbase r) v (bt_size r) (bt_flags r) (bt_id r).
Definition set_bt_size (v : Z) (r : block_trans) : block_trans :=
  BlockTrans (bt_mbase r) (bt_lvbase r) (bt_lvrange r) v (bt_flags r) (bt_id r).
Definition set_bt_flags (v : Z) (r : block_trans) : block_trans :=
  BlockTrans (bt_mbase r) (bt_lvbase r) (bt_lvrange r) (bt_size r) v (bt_id r).
Definition set_bt_id (v : Z) (r : block_trans) : block_trans :=
  BlockTrans (bt_mbase r) (bt_lvbase r) (bt_lvrange r) (bt_size r) (bt_flags r) v.
(** [io_page_t] *)
Record io_page := IoPage {
  io_self : Z;   (** address of the page *)
  io_magic : Z;
  io_magic2 : Z;
  io_me_phys : Z;
  io_mphys : Z;
  io_usr : list Z   (** 512 double words *)
}.

Definition set_io_self (v : Z) (r : io_page) : io_page :=
  IoPage v (io_magic r) (io_magic2 r) (io_me_phys r) (io_mphys r) (io_usr r).
Definition set_io_magic (v : Z) (r : io_page) : io_page :=
  IoPage (io_self r) v (io_magic2 r) (io_me_phys r) (io_mphys r) (io_usr r).
Definition set_io_magic2 (v : Z) (r : io_page) : io_page :=
  IoPage (io_self r) (io_magic r) v (io_me_phys r) (io_mphys r) (io_usr r).
Definition set_io_me_phys (v : Z) (r : io_page) : io_page :=
  IoPage (io_self r) (io_magic r) (io_magic2 r) v (io_mphys r) (io_usr r).
Definition set_io_mphys (v : Z) (r : io_page) : io_page :=
  IoPage (io_self r) (io_magic r) (io_magic2 r) (io_me_phys r) v (io_usr r).
Definition set_io_usr (v : list Z) (r : io_page) : io_page :=
  IoPage (io_self r) (io_magic r) (io_magic2 r) (io_me_phys r) (io_mphys r) v.
(** [struct io_data] *)
Record io_data := IoData {
  iod_self : Z;   (** address of the structure *)
  btable : list block_trans;   (** the first [num_btrans] entries *)
  next_free_id : Z;
  io_pages : list io_page   (** the list [io_page_head] *)
}.

Definition set_iod_self (v : Z) (r : io_data) : io_data :=
  IoData v (btable r) (next_free_id r) (io_pages r).
Definition set_btable (v : list block_trans) (r : io_data) : io_data :=
  IoData (iod_self r) v (next_free_id r) (io_pages r).
Definition set_next_free_id (v : Z) (r : io_data) : io_data :=
  IoData (iod_self r) (btable r) v (io_pages r).
Definition set_io_pages (v : list io_page) (r : io_data) : io_data :=
  IoData (iod_self r) (btable r) (next_free_id r) v.
(** [line_entry_t] *)
Record line_entry := LineEntry {
  le_y1 : Z;
  le_y2 : Z;
  le_dirty : bool;
  le_slot : Z;   (** address of the PTE, 0 if none *)
  le_pte0 : Z;
  le_pte1 : Z;
  le_ea : Z
}.

Definition set_le_y1 (v : Z) (r : line_entry) : line_entry :=
  LineEntry v (le_y2 r) (le_dirty r) (le_slot r) (le_pte0 r) (le_pte1 r) (le_ea r).
Definition set_le_y2 (v : Z) (r : line_entry) : line_entry :=
  LineEntry (le_y1 r) v (le_dirty r) (le_slot r) (le_pte0 r) (le_pte1 r) (le_ea r).
Definition set_le_dirty (v : bool) (r : line_entry) : line_entry :=
  LineEntry (le_y1 r) (le_y2 r) v (le_slot r) (le_pte0 r) (le_pte1 r) (le_ea r).
Definition set_le_slot (v : Z) (r : line_entry) : line_entry :=
  LineEntry (le_y1 r) (le_y2 r) (le_dirty r) v (le_pte0 r) (le_pte1 r) (le_ea r).
Definition set_le_pte0 (v : Z) (r : line_entry) : line_entry :=
  LineEntry (le_y1 r) (le_y2 r) (le_dirty r) (le_slot r) v (le_pte1 r) (le_ea r).
Definition set_le_pte1 (v : Z) (r : line_entry) : line_entry :=
  LineEntry (le_y1 r) (le_y2 r) (le_dirty r) (le_slot r) (le_pte0 r) v (le_ea r).
Definition set_le_ea (v : Z) (r : line_entry) : line_entry :=
  LineEntry (le_y1 r) (le_y2 r) (le_dirty r) (le_slot r) (le_pte0 r) (le_pte1 r) v.
(** [struct fb_data] *)
Record fb_data := FbData {
  fb_self : Z;   (** address of the structure *)
  line_table_ptr : Z;   (** 0 if not allocated *)
  line_table : list line_entry;
  fb_nrec : Z;
  fb_lv_base : Z
}.

Definition set_fb_self (v : Z) (r : fb_data) : fb_data :=
  FbData v (line_table_ptr r) (line_table r) (fb_nrec r) (fb_lv_base r).
Definition set_line_table_ptr (v : Z) (r : fb_data) : fb_data :=
  FbData (fb_self r) v (line_table r) (fb_nrec r) (fb_lv_base r).
Definition set_line_table (v : list line_entry) (r : fb_data) : fb_data :=
  FbData (fb_self r) (line_table_ptr r) v (fb_nrec r) (fb_lv_base r).
Definition set_fb_nrec (v : Z) (r : fb_data) : fb_data :=
  FbData (fb_self r) (line_table_ptr r) (line_table r) v (fb_lv_base r).
Definition set_fb_lv_base (v : Z) (r : fb_data) : fb_data :=
  FbData (fb_self r) (line_table_ptr r) (line_table r) (fb_nrec r) v.
(** [struct tracker_data]; [table_size] is the length of the table *)
Record tracker_data := TrackerData {
  tr_self : Z;   (** address of the structure *)
  tr_table_ptr : Z;   (** 0 if not allocated *)
  tr_table : list Z;   (** bytes *)
  tr_npages : Z;
  tr_lvbase : Z
}.

Definition set_tr_self (v : Z) (r : tracker_data) : tracker_data :=
  TrackerData v (tr_table_ptr r) (tr_table r) (tr_npages r) (tr_lvbase r).
Definition set_tr_table_ptr (v : Z) (r : tracker_data) : tracker_data :=
  TrackerData (tr_self r) v (tr_table r) (tr_npages r) (tr_lvbase r).
Definition set_tr_table (v : list Z) (r : tracker_data) : tracker_data :=
  TrackerData (tr_self r) (tr_table_ptr r) v (tr_npages r) (tr_lvbase r).
Definition set_tr_npages (v : Z) (r : tracker_data) : tracker_data :=
  TrackerData (tr_self r) (tr_table_ptr r) (tr_table r) v (tr_lvbase r).
Definition set_tr_lvbase (v : Z) (r : tracker_data) : tracker_data :=
  TrackerData (tr_self r) (tr_table_ptr r) (tr_table r) (tr_npages r) v.
(** [mac_regs_t], the registers of the guest *)
Record mregs := Mregs {
  msr : Z;
  segr : list Z;
  spr : gmap Z Z;
  rvec_param : list Z;   (** arguments of the last [RVEC_RETURN] *)
  mdbg_ea_break : Z;
  use_bat_hack : bool;
  flag_bits : Z
}.

Definition set_msr (v : Z) (r : mregs) : mregs :=
  Mregs v (segr r) (spr r) (rvec_param r) (mdbg_ea_break r) (use_bat_hack r) (flag_bits r).
Definition set_segr (v : list Z) (r : mregs) : mregs :=
  Mregs (msr r) v (spr r) (rvec_param r) (mdbg_ea_break r) (use_bat_hack r) (flag_bits r).
Definition set_spr (v : gmap Z Z) (r : mregs) : mregs :=
  Mregs (msr r) (segr r) v (rvec_param r) (mdbg_ea_break r) (use_bat_hack r) (flag_bits r).
Definition set_rvec_param (v : list Z) (r : mregs) : mregs :=
  Mregs (msr r) (segr r) (spr r) v (mdbg_ea_break r) (use_bat_hack r) (flag_bits r).
Definition set_mdbg_ea_break (v : Z) (r : mregs) : mregs :=
  Mregs (msr r) (segr r) (spr r) (rvec_param r) v (use_bat_hack r) (flag_bits r).
Definition set_use_bat_hack (v : bool) (r : mregs) : mregs :=
  Mregs (msr r) (segr r) (spr r) (rvec_param r) (mdbg_ea_break r) v (flag_bits r).
Definition set_flag_bits (v : Z) (r : mregs) : mregs :=
  Mregs (msr r) (segr r) (spr r) (rvec_param r) (mdbg_ea_break r) (use_bat_hack r) v.
(** The segment register array a (physical) pointer designates. *)
Inductive srsel : Set := SrUser | SrSv | SrUnmapped | SrSplit.

(** [mmu_vars_t] *)
Record mmu_vars := MmuVars {
  vsid : list Z;   (** 16 VSID records, 0 if none *)
  unmapped_vsid : list Z;
  user_sr : list Z;
  sv_sr : list Z;
  unmapped_sr : list Z;
  split_sr : list Z;
  sr_inst : srsel;   (** which array [sr_inst] points to *)
  sr_data : srsel;
  illegal_sr : Z;
  transl_dbat0 : Z * Z;
  emulator_context : Z;
  userspace_ram_base : Z;
  ram_size : Z;
  bat_hack_count : Z;
  bats : list mac_bat;
  hash_mbase : Z;
  hash_base : option Z;   (** kernel address of the guest hash *)
  hash_mask : Z;
  next_mol_context : Z;
  first_mol_context : Z;
  last_mol_context : Z;
  pthash_sr : Z;
  pthash_ea_base : Z;
  pthash_inuse_bits : option (Z * gset Z);   (** address and the set bits *)
  io : option io_data;
  fb : option fb_data;
  tracker : option tracker_data;
  vsid_sl : Skiplist.skiplist;
  vinfo : option vsid_info;
  lvptr_reservation : Z;
  lvptr_reservation_lost : bool
}.

Definition set_vsid (v : list Z) (r : mmu_vars) : mmu_vars :=
  MmuVars v (unmapped_vsid r) (user_sr r) (sv_sr r) (unmapped_sr r) (split_sr r) (sr_inst r)
     (sr_data r) (illegal_sr r) (transl_dbat0 r) (emulator_context r) (userspace_ram_base r)
     (ram_size r) (bat_hack_count r) (bats r) (hash_mbase r) (hash_base r) (hash_mask r)
     (next_mol_context r) (first_mol_context r) (last_mol_context r) (pthash_sr r)
     (pthash_ea_base r) (pthash_inuse_bits r) (io r) (fb r) (tracker r) (vsid_sl r) (vinfo r)
     (lvptr_reservation r) (lvptr_reservation_lost r).
Definition set_unmapped_vsid (v : list Z) (r : mmu_vars) : mmu_vars :=
  MmuVars (vsid r) v (user_sr r) (sv_sr r) (unmapped_sr r) (split_sr r) (sr_inst r) (sr_data r)
     (illegal_sr r) (transl_dbat0 r) (emulator_context r) (userspace_ram_base r) (ram_size r)
     (bat_hack_count r) (bats r) (hash_mbase r) (hash_base r) (hash_mask r)
     (next_mol_context r) (first_mol_context r) (last_mol_context r) (pthash_sr r)
     (pthash_ea_base r) (pthash_inuse_bits r) (io r) (fb r) (tracker r) (vsid_sl r) (vinfo r)
     (lvptr_reservation r) (lvptr_reservation_lost r).
Definition set_user_sr (v : list Z) (r : mmu_vars) : mmu_vars :=
  MmuVars (vsid r) (unmapped_vsid r) v (sv_sr r) (unmapped_sr r) (split_sr r) (sr_inst r)
     (sr_data r) (illegal_sr r) (transl_dbat0 r) (emulator_context r) (userspace_ram_base r)
     (ram_size r) (bat_hack_count r) (bats r) (hash_mbase r) (hash_base r) (hash_mask r)
     (next_mol_context r) (first_mol_context r) (last_mol_context r) (pthash_sr r)
     (pthash_ea_base r) (pthash_inuse_bits r) (io r) (fb r) (tracker r) (vsid_sl r) (vinfo r)
     (lvptr_reservation r) (lvptr_reservation_lost r).
Definition set_sv_sr (v : list Z) (r : mmu_vars) : mmu_vars :=
  MmuVars (vsid r) (unmapped_vsid r) (user_sr r) v (unmapped_sr r) (split_sr r) (sr_inst r)
     (sr_data r) (illegal_sr r) (transl_dbat0 r) (emulator_context r) (userspace_ram_base r)
     (ram_size r) (bat_hack_count r) (bats r) (hash_mbase r) (hash_base r) (hash_mask r)
     (next_mol_context r) (first_mol_context r) (last_mol_context r) (pthash_sr r)
     (pthash_ea_base r) (pthash_inuse_bits r) (io r) (fb r) (tracker r) (vsid_sl r) (vinfo r)
     (lvptr_reservation r) (lvptr_reservation_lost r).
Definition set_unmapped_sr (v : list Z) (r : mmu_vars) : mmu_vars :=
  MmuVars (vsid r) (unmapped_vsid r) (user_sr r) (sv_sr r) v (split_sr r) (sr_inst r)
     (sr_data r) (illegal_sr r) (transl_dbat0 r) (emulator_context r) (userspace_ram_base r)
     (ram_size r) (bat_hack_count r) (bats r) (hash_mbase r) (hash_base r) (hash_mask r)
     (next_mol_context r) (first_mol_context r) (last_mol_context r) (pthash_sr r)
     (pthash_ea_base r) (pthash_inuse_bits r) (io r) (fb r) (tracker r) (vsid_sl r) (vinfo r)
     (lvptr_reservation r) (lvptr_reservation_lost r).
Definition set_split_sr (v : list Z) (r : mmu_vars) : mmu_vars :=
  MmuVars (vsid r) (unmapped_vsid r) (user_sr r) (sv_sr r) (unmapped_sr r) v (sr_inst r)
     (sr_data r) (illegal_sr r) (transl_dbat0 r) (emulator_context r) (userspace_ram_base r)
     (ram_size r) (bat_hack_count r) (bats r) (hash_mbase r) (hash_base r) (hash_mask r)
     (next_mol_context r) (first_mol_context r) (last_mol_context r) (pthash_sr r)
     (pthash_ea_base r) (pthash_inuse_bits r) (io r) (fb r) (tracker r) (vsid_sl r) (vinfo r)
     (lvptr_reservation r) (lvptr_reservation_lost r).
Definition set_sr_inst (v : srsel) (r : mmu_vars) : mmu_vars :=
  MmuVars (vsid r) (unmapped_vsid r) (user_sr r) (sv_sr r) (unmapped_sr r) (split_sr r) v
     (sr_data r) (illegal_sr r) (transl_dbat0 r) (emulator_context r) (userspace_ram_base r)
     (ram_size r) (bat_hack_count r) (bats r) (hash_mbase r) (hash_base r) (hash_mask r)
     (next_mol_context r) (first_mol_context r) (last_mol_context r) (pthash_sr r)
     (pthash_ea_base r) (pthash_inuse_bits r) (io r) (fb r) (tracker r) (vsid_sl r) (vinfo r)
     (lvptr_reservation r) (lvptr_reservation_lost r).
Definition set_sr_data (v : srsel) (r : mmu_vars) : mmu_vars :=
  MmuVars (vsid r) (unmapped_vsid r) (user_sr r) (sv_sr r) (unmapped_sr r) (split_sr r)
     (sr_inst r) v (illegal_sr r) (transl_dbat0 r) (emulator_context r) (userspace_ram_base r)
     (ram_size r) (bat_hack_count r) (bats r) (hash_mbase r) (hash_base r) (hash_mask r)
     (next_mol_context r) (first_mol_context r) (last_mol_context r) (pthash_sr r)
     (pthash_ea_base r) (pthash_inuse_bits r) (io r) (fb r) (tracker r) (vsid_sl r) (vinfo r)
     (lvptr_reservation r) (lvptr_reservation_lost r).
Definition set_illegal_sr (v : Z) (r : mmu_vars) : mmu_vars :=
  MmuVars (vsid r) (unmapped_vsid r) (user_sr r) (sv_sr r) (unmapped_sr r) (split_sr r)
     (sr_inst r) (sr_data r) v (transl_dbat0 r) (emulator_context r) (userspace_ram_base r)
     (ram_size r) (bat_hack_count r) (bats r) (hash_mbase r) (hash_base r) (hash_mask r)
     (next_mol_context r) (first_mol_context r) (last_mol_context r) (pthash_sr r)
     (pthash_ea_base r) (pthash_inuse_bits r) (io r) (fb r) (tracker r) (vsid_sl r) (vinfo r)
     (lvptr_reservation r) (lvptr_reservation_lost r).
Definition set_transl_dbat0 (v : Z * Z) (r : mmu_vars) : mmu_vars :=
  MmuVars (vsid r) (unmapped_vsid r) (user_sr r) (sv_sr r) (unmapped_sr r) (split_sr r)
     (sr_inst r) (sr_data r) (illegal_sr r) v (emulator_context r) (userspace_ram_base r)
     (ram_size r) (bat_hack_count r) (bats r) (hash_mbase r) (hash_base r) (hash_mask r)
     (next_mol_context r) (first_mol_context r) (last_mol_context r) (pthash_sr r)
     (pthash_ea_base r) (pthash_inuse_bits r) (io r) (fb r) (tracker r) (vsid_sl r) (vinfo r)
     (lvptr_reservation r) (lvptr_reservation_lost r).
Definition set_emulator_context (v : Z) (r : mmu_vars) : mmu_vars :=
  MmuVars (vsid r) (unmapped_vsid r) (user_sr r) (sv_sr r) (unmapped_sr r) (split_sr r)
     (sr_inst r) (sr_data r) (illegal_sr r) (transl_dbat0 r) v (userspace_ram_base r)
     (ram_size r) (bat_hack_count r) (bats r) (hash_mbase r) (hash_base r) (hash_mask r)
     (next_mol_context r) (first_mol_context r) (last_mol_context r) (pthash_sr r)
     (pthash_ea_base r) (pthash_inuse_bits r) (io r) (fb r) (tracker r) (vsid_sl r) (vinfo r)
     (lvptr_reservation r) (lvptr_reservation_lost r).
Definition set_userspace_ram_base (v : Z) (r : mmu_vars) : mmu_vars :=
  MmuVars (vsid r) (unmapped_vsid r) (user_sr r) (sv_sr r) (unmapped_sr r) (split_sr r)
     (sr_inst r) (sr_data r) (illegal_sr r) (transl_dbat0 r) (emulator_context r) v
     (ram_size r) (bat_hack_count r) (bats r) (hash_mbase r) (hash_base r) (hash_mask r)
     (next_mol_context r) (first_mol_context r) (last_mol_context r) (pthash_sr r)
     (pthash_ea_base r) (pthash_inuse_bits r) (io r) (fb r) (tracker r) (vsid_sl r) (vinfo r)
     (lvptr_reservation r) (lvptr_reservation_lost r).
Definition set_ram_size (v : Z) (r : mmu_vars) : mmu_vars :=
  MmuVars (vsid r) (unmapped_vsid r) (user_sr r) (sv_sr r) (unmapped_sr r) (split_sr r)
     (sr_inst r) (sr_data r) (illegal_sr r) (transl_dbat0 r) (emulator_context r)
     (userspace_ram_base r) v (bat_hack_count r) (bats r) (hash_mbase r) (hash_base r)
     (hash_mask r) (next_mol_context r) (first_mol_context r) (last_mol_context r)
     (pthash_sr r) (pthash_ea_base r) (pthash_inuse_bits r) (io r) (fb r) (tracker r)
     (vsid_sl r) (vinfo r) (lvptr_reservation r) (lvptr_reservation_lost r).
Definition set_bat_hack_count (v : Z) (r : mmu_vars) : mmu_vars :=
  MmuVars (vsid r) (unmapped_vsid r) (user_sr r) (sv_sr r) (unmapped_sr r) (split_sr r)
     (sr_inst r) (sr_data r) (illegal_sr r) (transl_dbat0 r) (emulator_context r)
     (userspace_ram_base r) (ram_size r) v (bats r) (hash_mbase r) (hash_base r) (hash_mask r)
     (next_mol_context r) (first_mol_context r) (last_mol_context r) (pthash_sr r)
     (pthash_ea_base r) (pthash_inuse_bits r) (io r) (fb r) (tracker r) (vsid_sl r) (vinfo r)
     (lvptr_reservation r) (lvptr_reservation_lost r).
Definition set_bats (v : list mac_bat) (r : mmu_vars) : mmu_vars :=
  MmuVars (vsid r) (unmapped_vsid r) (user_sr r) (sv_sr r) (unmapped_sr r) (split_sr r)
     (sr_inst r) (sr_data r) (illegal_sr r) (transl_dbat0 r) (emulator_context r)
     (userspace_ram_base r) (ram_size r) (bat_hack_count r) v (hash_mbase r) (hash_base r)
     (hash_mask r) (next_mol_context r) (first_mol_context r) (last_mol_context r)
     (pthash_sr r) (pthash_ea_base r) (pthash_inuse_bits r) (io r) (fb r) (tracker r)
     (vsid_sl r) (vinfo r) (lvptr_reservation r) (lvptr_reservation_lost r).
Definition set_hash_mbase (v : Z) (r : mmu_vars) : mmu_vars :=
  MmuVars (vsid r) (unmapped_vsid r) (user_sr r) (sv_sr r) (unmapped_sr r) (split_sr r)
     (sr_inst r) (sr_data r) (illegal_sr r) (transl_dbat0 r) (emulator_context r)
     (userspace_ram_base r) (ram_size r) (bat_hack_count r) (bats r) v (hash_base r)
     (hash_mask r) (next_mol_context r) (first_mol_context r) (last_mol_context r)
     (pthash_sr r) (pthash_ea_base r) (pthash_inuse_bits r) (io r) (fb r) (tracker r)
     (vsid_sl r) (vinfo r) (lvptr_reservation r) (lvptr_reservation_lost r).
Definition set_hash_base (v : option Z) (r : mmu_vars) : mmu_vars :=
  MmuVars (vsid r) (unmapped_vsid r) (user_sr r) (sv_sr r) (unmapped_sr r) (split_sr r)
     (sr_inst r) (sr_data r) (illegal_sr r) (transl_dbat0 r) (emulator_context r)
     (userspace_ram_base r) (ram_size r) (bat_hack_count r) (bats r) (hash_mbase r) v
     (hash_mask r) (next_mol_context r) (first_mol_context r) (last_mol_context r)
     (pthash_sr r) (pthash_ea_base r) (pthash_inuse_bits r) (io r) (fb r) (tracker r)
     (vsid_sl r) (vinfo r) (lvptr_reservation r) (lvptr_reservation_lost r).
Definition set_hash_mask (v : Z) (r : mmu_vars) : mmu_vars :=
  MmuVars (vsid r) (unmapped_vsid r) (user_sr r) (sv_sr r) (unmapped_sr r) (split_sr r)
     (sr_inst r) (sr_data r) (illegal_sr r) (transl_dbat0 r) (emulator_context r)
     (userspace_ram_base r) (ram_size r) (bat_hack_count r) (bats r) (hash_mbase r)
     (hash_base r) v (next_mol_context r) (first_mol_context r) (last_mol_context r)
     (pthash_sr r) (pthash_ea_base r) (pthash_inuse_bits r) (io r) (fb r) (tracker r)
     (vsid_sl r) (vinfo r) (lvptr_reservation r) (lvptr_reservation_lost r).
Definition set_next_mol_context (v : Z) (r : mmu_vars) : mmu_vars :=
  MmuVars (vsid r) (unmapped_vsid r) (user_sr r) (sv_sr r) (unmapped_sr r) (split_sr r)
     (sr_inst r) (sr_data r) (illegal_sr r) (transl_dbat0 r) (emulator_context r)
     (userspace_ram_base r) (ram_size r) (bat_hack_count r) (bats r) (hash_mbase r)
     (hash_base r) (hash_mask r) v (first_mol_context r) (last_mol_context r) (pthash_sr r)
     (pthash_ea_base r) (pthash_inuse_bits r) (io r) (fb r) (tracker r) (vsid_sl r) (vinfo r)
     (lvptr_reservation r) (lvptr_reservation_lost r).
Definition set_first_mol_context (v : Z) (r : mmu_vars) : mmu_vars :=
  MmuVars (vsid r) (unmapped_vsid r) (user_sr r) (sv_sr r) (unmapped_sr r) (split_sr r)
     (sr_inst r) (sr_data r) (illegal_sr r) (transl_dbat0 r) (emulator_context r)
     (userspace_ram_base r) (ram_size r) (bat_hack_count r) (bats r) (hash_mbase r)
     (hash_base r) (hash_mask r) (next_mol_context r) v (last_mol_context r) (pthash_sr r)
     (pthash_ea_base r) (pthash_inuse_bits r) (io r) (fb r) (tracker r) (vsid_sl r) (vinfo r)
     (lvptr_reservation r) (lvptr_reservation_lost r).
Definition set_last_mol_context (v : Z) (r : mmu_vars) : mmu_vars :=
  MmuVars (vsid r) (unmapped_vsid r) (user_sr r) (sv_sr r) (unmapped_sr r) (split_sr r)
     (sr_inst r) (sr_data r) (illegal_sr r) (transl_dbat0 r) (emulator_context r)
     (userspace_ram_base r) (ram_size r) (bat_hack_count r) (bats r) (hash_mbase r)
     (hash_base r) (hash_mask r) (next_mol_context r) (first_mol_context r) v (pthash_sr r)
     (pthash_ea_base r) (pthash_inuse_bits r) (io r) (fb r) (tracker r) (vsid_sl r) (vinfo r)
     (lvptr_reservation r) (lvptr_reservation_lost r).
Definition set_pthash_sr (v : Z) (r : mmu_vars) : mmu_vars :=
  MmuVars (vsid r) (unmapped_vsid r) (user_sr r) (sv_sr r) (unmapped_sr r) (split_sr r)
     (sr_inst r) (sr_data r) (illegal_sr r) (transl_dbat0 r) (emulator_context r)
     (userspace_ram_base r) (ram_size r) (bat_hack_count r) (bats r) (hash_mbase r)
     (hash_base r) (hash_mask r) (next_mol_context r) (first_mol_context r)
     (last_mol_context r) v (pthash_ea_base r) (pthash_inuse_bits r) (io r) (fb r) (tracker r)
     (vsid_sl r) (vinfo r) (lvptr_reservation r) (lvptr_reservation_lost r).
Definition set_pthash_ea_base (v : Z) (r : mmu_vars) : mmu_vars :=
  MmuVars (vsid r) (unmapped_vsid r) (user_sr r) (sv_sr r) (unmapped_sr r) (split_sr r)
     (sr_inst r) (sr_data r) (illegal_sr r) (transl_dbat0 r) (emulator_context r)
     (userspace_ram_base r) (ram_size r) (bat_hack_count r) (bats r) (hash_mbase r)
     (hash_base r) (hash_mask r) (next_mol_context r) (first_mol_context r)
     (last_mol_context r) (pthash_sr r) v (pthash_inuse_bits r) (io r) (fb r) (tracker r)
     (vsid_sl r) (vinfo r) (lvptr_reservation r) (lvptr_reservation_lost r).
Definition set_pthash_inuse_bits (v : option (Z * gset Z)) (r : mmu_vars) : mmu_vars :=
  MmuVars (vsid r) (unmapped_vsid r) (user_sr r) (sv_sr r) (unmapped_sr r) (split_sr r)
     (sr_inst r) (sr_data r) (illegal_sr r) (transl_dbat0 r) (emulator_context r)
     (userspace_ram_base r) (ram_size r) (bat_hack_count r) (bats r) (hash_mbase r)
     (hash_base r) (hash_mask r) (next_mol_context r) (first_mol_context r)
     (last_mol_context r) (pthash_sr r) (pthash_ea_base r) v (io r) (fb r) (tracker r)
     (vsid_sl r) (vinfo r) (lvptr_reservation r) (lvptr_reservation_lost r).
Definition set_io (v : option io_data) (r : mmu_vars) : mmu_vars :=
  MmuVars (vsid r) (unmapped_vsid r) (user_sr r) (sv_sr r) (unmapped_sr r) (split_sr r)
     (sr_inst r) (sr_data r) (illegal_sr r) (transl_dbat0 r) (emulator_context r)
     (userspace_ram_base r) (ram_size r) (bat_hack_count r) (bats r) (hash_mbase r)
     (hash_base r) (hash_mask r) (next_mol_context r) (first_mol_context r)
     (last_mol_context r) (pthash_sr r) (pthash_ea_base r) (pthash_inuse_bits r) v (fb r)
     (tracker r) (vsid_sl r) (vinfo r) (lvptr_reservation r) (lvptr_reservation_lost r).
Definition set_fb (v : option fb_data) (r : mmu_vars) : mmu_vars :=
  MmuVars (vsid r) (unmapped_vsid r) (user_sr r) (sv_sr r) (unmapped_sr r) (split_sr r)
     (sr_inst r) (sr_data r) (illegal_sr r) (transl_dbat0 r) (emulator_context r)
     (userspace_ram_base r) (ram_size r) (bat_hack_count r) (bats r) (hash_mbase r)
     (hash_base r) (hash_mask r) (next_mol_context r) (first_mol_context r)
     (last_mol_context r) (pthash_sr r) (pthash_ea_base r) (pthash_inuse_bits r) (io r) v
     (tracker r) (vsid_sl r) (vinfo r) (lvptr_reservation r) (lvptr_reservation_lost r).
Definition set_tracker (v : option tracker_data) (r : mmu_vars) : mmu_vars :=
  MmuVars (vsid r) (unmapped_vsid r) (user_sr r) (sv_sr r) (unmapped_sr r) (split_sr r)
     (sr_inst r) (sr_data r) (illegal_sr r) (transl_dbat0 r) (emulator_context r)
     (userspace_ram_base r) (ram_size r) (bat_hack_count r) (bats r) (hash_mbase r)
     (hash_base r) (hash_mask r) (next_mol_context r) (first_mol_context r)
     (last_mol_context r) (pthash_sr r) (pthash_ea_base r) (pthash_inuse_bits r) (io r) (fb r)
     v (vsid_sl r) (vinfo r) (lvptr_reservation r) (lvptr_reservation_lost r).
Definition set_vsid_sl (v : Skiplist.skiplist) (r : mmu_vars) : mmu_vars :=
  MmuVars (vsid r) (unmapped_vsid r) (user_sr r) (sv_sr r) (unmapped_sr r) (split_sr r)
     (sr_inst r) (sr_data r) (illegal_sr r) (transl_dbat0 r) (emulator_context r)
     (userspace_ram_base r) (ram_size r) (bat_hack_count r) (bats r) (hash_mbase r)
     (hash_base r) (hash_mask r) (next_mol_context r) (first_mol_context r)
     (last_mol_context r) (pthash_sr r) (pthash_ea_base r) (pthash_inuse_bits r) (io r) (fb r)
     (tracker r) v (vinfo r) (lvptr_reservation r) (lvptr_reservation_lost r).
Definition set_vinfo (v : option vsid_info) (r : mmu_vars) : mmu_vars :=
  MmuVars (vsid r) (unmapped_vsid r) (user_sr r) (sv_sr r) (unmapped_sr r) (split_sr r)
     (sr_inst r) (sr_data r) (illegal_sr r) (transl_dbat0 r) (emulator_context r)
     (userspace_ram_base r) (ram_size r) (bat_hack_count r) (bats r) (hash_mbase r)
     (hash_base r) (hash_mask r) (next_mol_context r) (first_mol_context r)
     (last_mol_context r) (pthash_sr r) (pthash_ea_base r) (pthash_inuse_bits r) (io r) (fb r)
     (tracker r) (vsid_sl r) v (lvptr_reservation r) (lvptr_reservation_lost r).
Definition set_lvptr_reservation (v : Z) (r : mmu_vars) : mmu_vars :=
  MmuVars (vsid r) (unmapped_vsid r) (user_sr r) (sv_sr r) (unmapped_sr r) (split_sr r)
     (sr_inst r) (sr_data r) (illegal_sr r) (transl_dbat0 r) (emulator_context r)
     (userspace_ram_base r) (ram_size r) (bat_hack_count r) (bats r) (hash_mbase r)
     (hash_base r) (hash_mask r) (next_mol_context r) (first_mol_context r)
     (last_mol_context r) (pthash_sr r) (pthash_ea_base r) (pthash_inuse_bits r) (io r) (fb r)
     (tracker r) (vsid_sl r) (vinfo r) v (lvptr_reservation_lost r).
Definition set_lvptr_reservation_lost (v : bool) (r : mmu_vars) : mmu_vars :=
  MmuVars (vsid r) (unmapped_vsid r) (user_sr r) (sv_sr r) (unmapped_sr r) (split_sr r)
     (sr_inst r) (sr_data r) (illegal_sr r) (transl_dbat0 r) (emulator_context r)
     (userspace_ram_base r) (ram_size r) (bat_hack_count r) (bats r) (hash_mbase r)
     (hash_base r) (hash_mask r) (next_mol_context r) (first_mol_context r)
     (last_mol_context r) (pthash_sr r) (pthash_ea_base r) (pthash_inuse_bits r) (io r) (fb r)
     (tracker r) (vsid_sl r) (vinfo r) (lvptr_reservation r) v.
(** [kernel_vars_t] and the memory the MMU code owns. *)
Record kvars := Kv {
  mr : mregs;
  mmu : mmu_vars;
  emuaccel_mphys : Z;
  emuaccel_size : Z;
  emuaccel_page_phys : Z;
  emuaccel_page : Z;
  break_flags : Z;
  session_index : Z;
  recs : gmap Z pterec;   (** PTE records, by address *)
  tabs : gmap Z (list Z);   (** level-2 tables ([pent_table_t]), by address *)
  vents : gmap Z vsid_ent;   (** VSID records, by address *)
  rng : Skiplist.rng;
  ptehash : hash_info;
  words : gmap Z Z;   (** 32-bit words of kernel memory: hash tables, emuaccel page *)
  tlbies : list Z;   (** TLB invalidations issued, last first *)
  oracle : list Z;   (** results of the kernel allocator *)
  freed : list Z;   (** pages and blocks given back *)
  scratch_page : Z;
  grab_add : Z;   (** the static of [find_pte_slot] *)
  tb : nat -> Z   (** values of the time base *)
}.

Definition set_mr (v : mregs) (r : kvars) : kvars :=
  Kv v (mmu r) (emuaccel_mphys r) (emuaccel_size r) (emuaccel_page_phys r) (emuaccel_page r)
     (break_flags r) (session_index r) (recs r) (tabs r) (vents r) (rng r) (ptehash r)
     (words r) (tlbies r) (oracle r) (freed r) (scratch_page r) (grab_add r) (tb r).
Definition set_mmu (v : mmu_vars) (r : kvars) : kvars :=
  Kv (mr r) v (emuaccel_mphys r) (emuaccel_size r) (emuaccel_page_phys r) (emuaccel_page r)
     (break_flags r) (session_index r) (recs r) (tabs r) (vents r) (rng r) (ptehash r)
     (words r) (tlbies r) (oracle r) (freed r) (scratch_page r) (grab_add r) (tb r).
Definition set_emuaccel_mphys (v : Z) (r : kvars) : kvars :=
  Kv (mr r) (mmu r) v (emuaccel_size r) (emuaccel_page_phys r) (emuaccel_page r)
     (break_flags r) (session_index r) (recs r) (tabs r) (vents r) (rng r) (ptehash r)
     (words r) (tlbies r) (oracle r) (freed r) (scratch_page r) (grab_add r) (tb r).
Definition set_emuaccel_size (v : Z) (r : kvars) : kvars :=
  Kv (mr r) (mmu r) (emuaccel_mphys r) v (emuaccel_page_phys r) (emuaccel_page r)
     (break_flags r) (session_index r) (recs r) (tabs r) (vents r) (rng r) (ptehash r)
     (words r) (tlbies r) (oracle r) (freed r) (scratch_page r) (grab_add r) (tb r).
Definition set_emuaccel_page_phys (v : Z) (r : kvars) : kvars :=
  Kv (mr r) (mmu r) (emuaccel_mphys r) (emuaccel_size r) v (emuaccel_page r) (break_flags r)
     (session_index r) (recs r) (tabs r) (vents r) (rng r) (ptehash r) (words r) (tlbies r)
     (oracle r) (freed r) (scratch_page r) (grab_add r) (tb r).
Definition set_emuaccel_page (v : Z) (r : kvars) : kvars :=
  Kv (mr r) (mmu r) (emuaccel_mphys r) (emuaccel_size r) (emuaccel_page_phys r) v
     (break_flags r) (session_index r) (recs r) (tabs r) (vents r) (rng r) (ptehash r)
     (words r) (tlbies r) (oracle r) (freed r) (scratch_page r) (grab_add r) (tb r).
Definition set_break_flags (v : Z) (r : kvars) : kvars :=
  Kv (mr r) (mmu r) (emuaccel_mphys r) (emuaccel_size r) (emuaccel_page_phys r)
     (emuaccel_page r) v (session_index r) (recs r) (tabs r) (vents r) (rng r) (ptehash r)
     (words r) (tlbies r) (oracle r) (freed r) (scratch_page r) (grab_add r) (tb r).
Definition set_session_index (v : Z) (r : kvars) : kvars :=
  Kv (mr r) (mmu r) (emuaccel_mphys r) (emuaccel_size r) (emuaccel_page_phys r)
     (emuaccel_page r) (break_flags r) v (recs r) (tabs r) (vents r) (rng r) (ptehash r)
     (words r) (tlbies r) (oracle r) (freed r) (scratch_page r) (grab_add r) (tb r).
Definition set_recs (v : gmap Z pterec) (r : kvars) : kvars :=
  Kv (mr r) (mmu r) (emuaccel_mphys r) (emuaccel_size r) (emuaccel_page_phys r)
     (emuaccel_page r) (break_flags r) (session_index r) v (tabs r) (vents r) (rng r)
     (ptehash r) (words r) (tlbies r) (oracle r) (freed r) (scratch_page r) (grab_add r) (tb r).
Definition set_tabs (v : gmap Z (list Z)) (r : kvars) : kvars :=
  Kv (mr r) (mmu r) (emuaccel_mphys r) (emuaccel_size r) (emuaccel_page_phys r)
     (emuaccel_page r) (break_flags r) (session_index r) (recs r) v (vents r) (rng r)
     (ptehash r) (words r) (tlbies r) (oracle r) (freed r) (scratch_page r) (grab_add r) (tb r).
Definition set_vents (v : gmap Z vsid_ent) (r : kvars) : kvars :=
  Kv (mr r) (mmu r) (emuaccel_mphys r) (emuaccel_size r) (emuaccel_page_phys r)
     (emuaccel_page r) (break_flags r) (session_index r) (recs r) (tabs r) v (rng r)
     (ptehash r) (words r) (tlbies r) (oracle r) (freed r) (scratch_page r) (grab_add r) (tb r).
Definition set_rng (v : Skiplist.rng) (r : kvars) : kvars :=
  Kv (mr r) (mmu r) (emuaccel_mphys r) (emuaccel_size r) (emuaccel_page_phys r)
     (emuaccel_page r) (break_flags r) (session_index r) (recs r) (tabs r) (vents r) v
     (ptehash r) (words r) (tlbies r) (oracle r) (freed r) (scratch_page r) (grab_add r) (tb r).
Definition set_ptehash (v : hash_info) (r : kvars) : kvars :=
  Kv (mr r) (mmu r) (emuaccel_mphys r) (emuaccel_size r) (emuaccel_page_phys r)
     (emuaccel_page r) (break_flags r) (session_index r) (recs r) (tabs r) (vents r) (rng r) v
     (words r) (tlbies r) (oracle r) (freed r) (scratch_page r) (grab_add r) (tb r).
Definition set_words (v : gmap Z Z) (r : kvars) : kvars :=
  Kv (mr r) (mmu r) (emuaccel_mphys r) (emuaccel_size r) (emuaccel_page_phys r)
     (emuaccel_page r) (break_flags r) (session_index r) (recs r) (tabs r) (vents r) (rng r)
     (ptehash r) v (tlbies r) (oracle r) (freed r) (scratch_page r) (grab_add r) (tb r).
Definition set_tlbies (v : list Z) (r : kvars) : kvars :=
  Kv (mr r) (mmu r) (emuaccel_mphys r) (emuaccel_size r) (emuaccel_page_phys r)
     (emuaccel_page r) (break_flags r) (session_index r) (recs r) (tabs r) (vents r) (rng r)
     (ptehash r) (words r) v (oracle r) (freed r) (scratch_page r) (grab_add r) (tb r).
Definition set_oracle (v : list Z) (r : kvars) : kvars :=
  Kv (mr r) (mmu r) (emuaccel_mphys r) (emuaccel_size r) (emuaccel_page_phys r)
     (emuaccel_page r) (break_flags r) (session_index r) (recs r) (tabs r) (vents r) (rng r)
     (ptehash r) (words r) (tlbies r) v (freed r) (scratch_page r) (grab_add r) (tb r).
Definition set_freed (v : list Z) (r : kvars) : kvars :=
  Kv (mr r) (mmu r) (emuaccel_mphys r) (emuaccel_size r) (emuaccel_page_phys r)
     (emuaccel_page r) (break_flags r) (session_index r) (recs r) (tabs r) (vents r) (rng r)
     (ptehash r) (words r) (tlbies r) (oracle r) v (scratch_page r) (grab_add r) (tb r).
Definition set_scratch_page (v : Z) (r : kvars) : kvars :=
  Kv (mr r) (mmu r) (emuaccel_mphys r) (emuaccel_size r) (emuaccel_page_phys r)
     (emuaccel_page r) (break_flags r) (session_index r) (recs r) (tabs r) (vents r) (rng r)
     (ptehash r) (words r) (tlbies r) (oracle r) (freed r) v (grab_add r) (tb r).
Definition set_grab_add (v : Z) (r : kvars) : kvars :=
  Kv (mr r) (mmu r) (emuaccel_mphys r) (emuaccel_size r) (emuaccel_page_phys r)
     (emuaccel_page r) (break_flags r) (session_index r) (recs r) (tabs r) (vents r) (rng r)
     (ptehash r) (words r) (tlbies r) (oracle r) (freed r) (scratch_page r) v (tb r).
Definition set_tb (v : nat -> Z) (r : kvars) : kvars :=
  Kv (mr r) (mmu r) (emuaccel_mphys r) (emuaccel_size r) (emuaccel_page_phys r)
     (emuaccel_page r) (break_flags r) (session_index r) (recs r) (tabs r) (vents r) (rng r)
     (ptehash r) (words r) (tlbies r) (oracle r) (freed r) (scratch_page r) (grab_add r) v.
(** ** The kernel monad

    Operations are state transformers that may fail: [None] is an access
    through a null or dangling pointer, or a loop that runs out of fuel. *)
Definition K (A : Type) : Type := kvars -> option (A * kvars).

#[export] Instance K_ret : MRet K := fun A a s => Some (a, s).
#[export] Instance K_bind : MBind K := fun A B f m s =>
  match m s with Some (a, s') => f a s' | None => None end.

Definition kget {A} (f : kvars -> A) : K A := fun s => Some (f s, s).
Definition kmod (f : kvars -> kvars) : K unit := fun s => Some (tt, f s).
Definition kfail {A} : K A := fun _ => None.
Definition kopt {A} (o : option A) : K A := fun s => match o with Some a => Some (a, s) | None => None end.
Definition kwhen (b : bool) (m : K unit) : K unit := if b then m else mret tt.

Definition upd_mmu (f : mmu_vars -> mmu_vars) (s : kvars) : kvars := set_mmu (f (mmu s)) s.
Definition upd_mr (f : mregs -> mregs) (s : kvars) : kvars := set_mr (f (mr s)) s.

(** [MMU.vsid_info->x], a fault when [vsid_info] is null. *)
Definition vi_get {A} (f : vsid_info -> A) : K A := fun s =>
  match vinfo (mmu s) with Some v => Some (f v, s) | None => None end.
Definition vi_mod (f : vsid_info -> vsid_info) : K unit := fun s =>
  match vinfo (mmu s) with
  | Some v => Some (tt, upd_mmu (set_vinfo (Some (f v))) s)
  | None => None
  end.

(** Words of kernel memory; unwritten memory reads as 0. *)
Definition ldw (a : Z) : K Z := kget (fun s => default 0 (words s !! a)).
Definition stw (a v : Z) : K unit := kmod (fun s => set_words (<[a := u32 v]> (words s)) s).

(** [__tlbie( ea )] *)
Definition tlbie (ea : Z) : K unit := kmod (fun s => set_tlbies (ea :: tlbies s) s).

(** [__store_PTE( ea, slot, pte0, pte1 )] *)
Definition store_PTE (ea slot pte0 pte1 : Z) : K unit :=
  stw (slot + 4) pte1;; stw slot pte0;; tlbie ea.

(** [alloc_page_mol], [kmalloc_mol], [vmalloc_mol], [kmalloc_cont_mol] *)
Definition kalloc : K Z := fun s =>
  match oracle s with
  | [] => Some (0, s)
  | a :: l => Some (a, set_oracle l s)
  end.
Definition kfree (a : Z) : K unit := kmod (fun s => set_freed (a :: freed s) s).

(** [sr_base[i]] *)
Definition sr_array (m : mmu_vars) (w : srsel) : list Z :=
  match w with
  | SrUser => user_sr m | SrSv => sv_sr m | SrUnmapped => unmapped_sr m | SrSplit => split_sr m
  end.

Definition fb_LoadSegreg : Z := MOL_BIT 29.
Definition fb_PrepareSplitmode : Z := MOL_BIT 30.

(** [r__invalidate_splitmode_sr] of [splitmode.S] *)
Definition invalidate_splitmode_sr : K unit :=
  kmod (upd_mr (fun m => set_flag_bits (flag_bits m .| fb_PrepareSplitmode .| fb_LoadSegreg) m)).

(** [RVEC_RETURN_n( mregs, rvec, args )] *)
Definition rvec_return (rvec : Z) (args : list Z) : K Z :=
  kmod (upd_mr (set_rvec_param args));; mret rvec.

(** [for( i=0; i<n; i++ ) f(i)] *)
Fixpoint kfor (i : nat) (n : nat) (f : nat -> K unit) : K unit :=
  match n with
  | O => mret tt
  | S n' => f i;; kfor (S i) n' f
  end.

(** Run a list of operations in order. *)
Fixpoint kforeach {A} (l : list A) (f : A -> K unit) : K unit :=
  match l with
  | [] => mret tt
  | x :: l' => f x;; kforeach l' f
  end.

(** ** A zeroed session, the start of the concrete runs *)
Definition sl0 : Skiplist.skiplist :=
  Skiplist.Sl 0 0 268 (replicate 16 Skiplist.PNil) (Skiplist.El Skiplist.SKIPLIST_END [Skiplist.PNil])
    Skiplist.PNull 0x500 ∅.

Definition bat0 : mac_bat := MacBat false 0 0 0 0 false false false false 0.
Definition zeros16 : list Z := replicate 16 0.

Definition mmu0 : mmu_vars :=
  MmuVars zeros16 zeros16 zeros16 zeros16 zeros16 zeros16 SrSv SrSv 0 (0, 0) 0 0 0 0
    (replicate 8 bat0) 0 None 0 0 0 0 0 0 None None None None sl0 None 0 false.

Definition kv0 : kvars :=
  Kv (Mregs 0 zeros16 ∅ [] 0 false 0) mmu0 0 0 0 0 0 0 ∅ ∅ ∅ (Skiplist.Rng 152 0)
    (HashInfo 0 0xffc0 0xfff8 0x80000 0x80000) ∅ [] [] [] 0 0 (fun n => Z.of_nat n * 7919).

(** ** Equations of the monad *)

Section Equations.
Context {A B : Type}.
Lemma kbind (m : K A) (f : A -> K B) s :
  (m ≫= f) s = match m s with Some (a, s') => f a s' | None => None end.
Proof. done. Qed.
Lemma kret (a : A) s : (mret a : K A) s = Some (a, s).
Proof. done. Qed.
Lemma kget_eq (f : kvars -> A) s : kget f s = Some (f s, s).
Proof. done. Qed.
Lemma kopt_Some (a : A) s : kopt (Some a) s = Some (a, s).
Proof. done. Qed.
End Equations.

Lemma kmod_eq f s : kmod f s = Some (tt, f s).
Proof. done. Qed.
Lemma ldw_eq a s : ldw a s = Some (default 0 (words s !! a), s).
Proof. done. Qed.
Lemma stw_eq a v s : stw a v s = Some (tt, set_words (<[a := u32 v]> (words s)) s).
Proof. done. Qed.
Lemma tlbie_eq ea s : tlbie ea s = Some (tt, set_tlbies (ea :: tlbies s) s).
Proof. done. Qed.
Lemma kfree_eq a s : kfree a s = Some (tt, set_freed (a :: freed s) s).
Proof. done. Qed.
Lemma kwhen_true m s : kwhen true m s = m s.
Proof. done. Qed.
Lemma kwhen_false m s : kwhen false m s = Some (tt, s).
Proof. done. Qed.
Lemma rvec_return_eq rvec args s :
  rvec_return rvec args s = Some (rvec, upd_mr (set_rvec_param args) s).
Proof. done. Qed.

Create Rewrite HintDb kv.
#[export] Hint Rewrite @kbind @kret @kget_eq @kopt_Some kmod_eq ldw_eq stw_eq tlbie_eq kfree_eq
  kwhen_true kwhen_false rvec_return_eq : kv.

(** Unfold the steps of a monadic computation applied to a state. *)
Ltac kred := repeat (progress (autorewrite with kv; cbv beta iota)).

End Kvars.
