(* ===== verification/Context.v ===== *)
(** * Allocation of VSIDs ([src/kmod/context.c], [src/kmod/Linux/context.h])

    MOL numbers its contexts (mol_context = 16 * kernel context + segment)
    and maps each number to the 24-bit VSID the Linux kernel would use for
    it.  The theorems show that the mapping is injective, that the inverse
    used by [flush_all_PTEs] is right, and what the flush does. *)

From S2P Require Import Prelude Skiplist Kvars.

Module Context.
Import Kvars.

Definition CTX_MASK : Z := 0xfffff.
Definition MUNGE_ADD_NEXT : Z := 897.
Definition MUNGE_MUL_INVERSE : Z := 2899073.
Definition MUNGE_ESID_ADD : Z := 0x111.
Definition MUNGE_CONTEXT (c : Z) : Z := (c * (MUNGE_ADD_NEXT * 16)) .& (CTX_MASK .<< 4).
Definition PER_SESSION_CONTEXTS : Z := 0x10000.
Definition FIRST_MOL_CONTEXT (sess : Z) : Z := (CTX_MASK - PER_SESSION_CONTEXTS * (sess + 1)) .<< 4.
Definition LAST_MOL_CONTEXT (sess : Z) : Z :=
  ((CTX_MASK - PER_SESSION_CONTEXTS * sess) .<< 4) .| 0xf.
Definition MAX_NUM_SESSIONS : Z := 8.

(** The VSID of a mol context. *)
Definition context_vsid (mol_context : Z) : Z :=
  (MUNGE_CONTEXT (mol_context .>> 4) + MUNGE_ESID_ADD * (mol_context .& 0xf)) .& VSID_MASK.

Definition alloc_context (s : kvars) : Z * kvars :=
  let mol_context := next_mol_context (mmu s) in
  (context_vsid mol_context, upd_mmu (set_next_mol_context (s32 (mol_context + 1))) s).

(** The context number [flush_all_PTEs] computes from the first word of a PTE. *)
Definition pte_context (v : Z) : Z :=
  let v := (v .& not32 (MOL_BIT 0)) .>> 7 in
  let v := u32 ((v - (v .& 0xf) * MUNGE_ESID_ADD) * MUNGE_MUL_INVERSE) in
  (v .>> 4) .& CTX_MASK.

(** One turn of the loop over the hardware hash. *)
Definition flush_one_PTE (pte : Z) (count : Z) : K Z :=
  v ← ldw pte;
  if negb (tst v (MOL_BIT 0)) then mret count else
  m ← kget mmu;
  if (first_mol_context m <=? pte_context v) && (pte_context v <=? last_mol_context m)
  then stw pte 0;; mret (count + 1)
  else mret count.

Fixpoint flush_PTEs_from (pte : Z) (n : nat) (count : Z) : K Z :=
  match n with
  | O => mret count
  | S n' => count' ← flush_one_PTE pte count; flush_PTEs_from (pte + 8) n' count'
  end.

Definition flush_all_PTEs : K Z :=
  h ← kget ptehash;
  count ← flush_PTEs_from (h_base h) (Z.to_nat ((pte_mask h + 8) / 8)) 0;
  kfor 0 64 (fun i => tlbie (Z.of_nat i .<< 12));;
  mret count.

Definition init_contexts : K Z :=
  kmod (fun s => upd_mmu (fun m =>
    set_next_mol_context (FIRST_MOL_CONTEXT (session_index s))
      (set_last_mol_context (LAST_MOL_CONTEXT (session_index s))
        (set_first_mol_context (FIRST_MOL_CONTEXT (session_index s)) m))) s);;
  sr ← (fun s => Some (alloc_context s));
  kmod (upd_mmu (set_illegal_sr (sr .| VSID_Kp .| VSID_N)));;
  _ ← flush_all_PTEs;
  mret 0.

Definition cleanup_contexts : K unit := _ ← flush_all_PTEs; mret tt.

(** ** The VSID mapping *)

Lemma munge_mod c : MUNGE_CONTEXT c = 16 * ((c * 897) mod 2 ^ 20).
Proof.
  unfold MUNGE_CONTEXT, MUNGE_ADD_NEXT, CTX_MASK.
  replace (c * (897 * 16)) with ((c * 897) .<< 4) by (rewrite Z.shiftl_mul_pow2 by lia; lia).
  rewrite <- Z.shiftl_land. replace 0xfffff with (2 ^ 20 - 1) by reflexivity.
  rewrite land_ones_mod, Z.shiftl_mul_pow2 by lia. lia.
Qed.

Lemma context_vsid_mod c :
  context_vsid c = (16 * (c / 16 * 897) + 273 * (c mod 16)) mod 2 ^ 24.
Proof.
  unfold context_vsid, VSID_MASK, MUNGE_ESID_ADD.
  replace 0xffffff with (2 ^ 24 - 1) by reflexivity.
  replace 0xf with (2 ^ 4 - 1) by reflexivity.
  rewrite !land_ones_mod, munge_mod, Z.shiftr_div_pow2 by lia.
  change (2 ^ 4) with 16. change 0x111 with 273.
  rewrite <- Zmult_mod_distr_l. change (16 * 2 ^ 20) with (2 ^ 24).
  apply Zplus_mod_idemp_l.
Qed.

(** [2899073] inverts [897] modulo 2^24. *)
Lemma munge_inverse : (897 * MUNGE_MUL_INVERSE) mod 2 ^ 24 = 1.
Proof. reflexivity. Qed.

(** The low four bits of a VSID are the segment number. *)
Lemma context_vsid_segment c : context_vsid c mod 16 = c mod 16.
Proof.
  rewrite context_vsid_mod. Z.to_euclidean_division_equations. lia.
Qed.

Lemma unmunge c :
  ((context_vsid c - 273 * (context_vsid c mod 16)) * MUNGE_MUL_INVERSE) mod 2 ^ 24
  = (16 * (c / 16)) mod 2 ^ 24.
Proof.
  rewrite context_vsid_segment, context_vsid_mod.
  rewrite <- Zmult_mod_idemp_l, Zminus_mod_idemp_l, Zmult_mod_idemp_l.
  replace ((16 * (c / 16 * 897) + 273 * (c mod 16) - 273 * (c mod 16)) * MUNGE_MUL_INVERSE)
    with ((16 * (c / 16)) * (897 * MUNGE_MUL_INVERSE)) by lia.
  rewrite <- Zmult_mod_idemp_r, munge_inverse. f_equal. lia.
Qed.

Lemma div16_small c : 0 <= c < 2 ^ 24 -> (16 * (c / 16)) mod 2 ^ 24 = 16 * (c / 16).
Proof. intros H. apply Z.mod_small. Z.to_euclidean_division_equations. lia. Qed.

(** Distinct mol contexts below 2^24 get distinct VSIDs: no two address
    spaces of the guest ever share a VSID. *)
Theorem context_vsid_inj c1 c2 :
  0 <= c1 < 2 ^ 24 -> 0 <= c2 < 2 ^ 24 -> context_vsid c1 = context_vsid c2 -> c1 = c2.
Proof.
  intros H1 H2 Heq. pose proof (context_vsid_segment c1) as S1.
  pose proof (context_vsid_segment c2) as S2. pose proof (unmunge c1) as U1.
  pose proof (unmunge c2) as U2. rewrite Heq in S1, U1.
  rewrite div16_small in U1, U2 by done.
  Z.to_euclidean_division_equations. lia.
Qed.

(** The context number [flush_all_PTEs] recovers from a valid PTE is the
    kernel context [mol_context >> 4] its VSID was made from. *)
Theorem pte_context_vsid c api h :
  0 <= c < 2 ^ 24 -> 0 <= api < 64 -> 0 <= h < 2 ->
  pte_context (MOL_BIT 0 .| (context_vsid c .<< 7) .| (h .<< 6) .| api) = c .>> 4.
Proof.
  intros Hc Ha Hh.
  assert (Hv : ((MOL_BIT 0 .| (context_vsid c .<< 7) .| (h .<< 6) .| api)
                 .& not32 (MOL_BIT 0)) .>> 7 = context_vsid c).
  { assert (0 <= context_vsid c < 2 ^ 24) as Hr by (rewrite context_vsid_mod; apply Z.mod_pos_bound; lia).
    rewrite Z.shiftr_land, !Z.shiftr_lor, Z.shiftr_shiftl_l by lia.
    change (7 - 7) with 0. rewrite Z.shiftl_0_r.
    replace (api .>> 7) with 0 by (symmetry; rewrite Z.shiftr_div_pow2 by lia; apply Z.div_small; lia).
    replace ((h .<< 6) .>> 7) with 0.
    2: { symmetry. rewrite Z.shiftr_div_pow2, Z.shiftl_mul_pow2 by lia. apply Z.div_small. lia. }
    rewrite !Z.lor_0_r, Z.land_lor_distr_l.
    change (not32 (MOL_BIT 0) .>> 7) with (2 ^ 24 - 1). change (MOL_BIT 0 .>> 7) with (2 ^ 24).
    rewrite !land_ones_mod by lia. rewrite Z.mod_same, Z.lor_0_l by lia. by apply Z.mod_small. }
  unfold pte_context. rewrite Hv. unfold MUNGE_ESID_ADD, CTX_MASK.
  replace 0xfffff with (2 ^ 20 - 1) by reflexivity. replace 0xf with (2 ^ 4 - 1) by reflexivity.
  rewrite !land_ones_mod, !Z.shiftr_div_pow2 by lia. change (2 ^ 4) with 16.
  pose proof (unmunge c) as U. rewrite div16_small in U by done.
  replace (context_vsid c - context_vsid c mod 16 * 0x111)
    with (context_vsid c - 273 * (context_vsid c mod 16)) by lia.
  set (x := (context_vsid c - 273 * (context_vsid c mod 16)) * MUNGE_MUL_INVERSE) in *.
  unfold u32. change (2 ^ 32) with (2 ^ 24 * 2 ^ 8). rewrite Z.rem_mul_r by lia. rewrite U.
  replace (16 * (c / 16) + 2 ^ 24 * ((x / 2 ^ 24) mod 2 ^ 8))
    with ((c / 16 + 2 ^ 20 * ((x / 2 ^ 24) mod 2 ^ 8)) * 16) by lia.
  rewrite Z.div_mul by lia. rewrite (Z.mul_comm (2 ^ 20)), Z_mod_plus_full.
  apply Z.mod_small. split; [apply Z.div_pos; lia|apply Z.div_lt_upper_bound; lia].
Qed.

(** ** What the flush does *)

Lemma pte_context_range v : 0 <= pte_context v <= CTX_MASK.
Proof.
  unfold pte_context, CTX_MASK. cbv zeta. replace 0xfffff with (2 ^ 20 - 1) by reflexivity.
  pose proof (land_ones_range (u32 (((v .& not32 (MOL_BIT 0)) .>> 7 - ((v .& not32 (MOL_BIT 0)) .>> 7 .& 0xf)
    * MUNGE_ESID_ADD) * MUNGE_MUL_INVERSE) .>> 4) 20 ltac:(lia)). lia.
Qed.

Lemma first_context_big sess : 0 <= sess < MAX_NUM_SESSIONS -> CTX_MASK < FIRST_MOL_CONTEXT sess.
Proof.
  intros H. unfold FIRST_MOL_CONTEXT, CTX_MASK, PER_SESSION_CONTEXTS, MAX_NUM_SESSIONS in *.
  rewrite Z.shiftl_mul_pow2 by lia. lia.
Qed.

Lemma flush_PTEs_dead n : forall pte count s,
  CTX_MASK < first_mol_context (mmu s) -> flush_PTEs_from pte n count s = Some (count, s).
Proof.
  induction n as [|n IH]; intros pte count s Hf; [done|].
  cbn [flush_PTEs_from]. unfold flush_one_PTE. kred.
  destruct (tst _ _); cbn [negb]; kred; [|by apply IH].
  pose proof (pte_context_range (default 0 (words s !! pte))).
  destruct (Z.leb_spec (first_mol_context (mmu s)) (pte_context (default 0 (words s !! pte)))); [lia|].
  kred. by apply IH.
Qed.

Lemma kfor_tlbie : forall n i (t : kvars), exists l,
  kfor i n (fun i => tlbie (Z.of_nat i .<< 12)) t = Some (tt, set_tlbies l t).
Proof.
  induction n as [|n IH]; intros i t; [exists (tlbies t); by destruct t|]. cbn [kfor]. kred.
  destruct (IH (S i) (set_tlbies ((Z.of_nat i .<< 12) :: tlbies t) t)) as (l & ->). by exists l.
Qed.

(** When the contexts of the session are above the 20-bit numbers recovered
    from PTEs, only the TLB is flushed. *)
Lemma flush_all_PTEs_tlb s :
  CTX_MASK < first_mol_context (mmu s) ->
  exists l, flush_all_PTEs s = Some (0, set_tlbies l s).
Proof.
  intros Hb. unfold flush_all_PTEs. kred. rewrite flush_PTEs_dead by done.
  destruct (kfor_tlbie 64 0 s) as (l & Hl). exists l. kred. by rewrite Hl.
Qed.

(** [flush_all_PTEs] compares the recovered kernel context (20 bits) with
    mol contexts (24 bits, 16 times larger): the comparison never succeeds, so
    after [init_contexts] of any session no stale PTE is ever flushed. *)
Theorem flush_all_PTEs_never_flushes s :
  0 <= session_index s < MAX_NUM_SESSIONS ->
  first_mol_context (mmu s) = FIRST_MOL_CONTEXT (session_index s) ->
  exists s', flush_all_PTEs s = Some (0, s') /\ words s' = words s.
Proof.
  intros Hs Hf. pose proof (first_context_big _ Hs) as Hb. rewrite <- Hf in Hb.
  destruct (flush_all_PTEs_tlb s Hb) as (l & E). by exists (set_tlbies l s).
Qed.

(** The context ranges of neighbouring sessions overlap: the first 16
    contexts of session [n] are the last 16 of session [n+1]. *)
Theorem session_contexts_overlap sess seg :
  0 <= sess -> 0 <= seg < 16 ->
  FIRST_MOL_CONTEXT (sess + 1) <= FIRST_MOL_CONTEXT sess + seg <= LAST_MOL_CONTEXT (sess + 1).
Proof.
  intros Hs Hg. unfold FIRST_MOL_CONTEXT, LAST_MOL_CONTEXT, CTX_MASK, PER_SESSION_CONTEXTS.
  assert (Hl : forall a, (a .<< 4) .| 0xf = 16 * a + 15).
  { intros a. rewrite Z.shiftl_mul_pow2 by lia. change (2 ^ 4) with 16.
    rewrite <- Z.lxor_lor, <- Z.add_nocarry_lxor; [lia| |].
    all: replace 0xf with (2 ^ 4 - 1) by reflexivity; rewrite land_ones_mod by lia;
      change (2 ^ 4) with 16; by rewrite Z.mod_mul. }
  rewrite Hl, !Z.shiftl_mul_pow2 by lia. lia.
Qed.

Lemma context_vsid_inj_witness : context_vsid 0xeffff0 = context_vsid 0xeffff0 /\ 0xeffff0 = 0xeffff0.
Proof. split; [done|]. apply context_vsid_inj; [lia|lia|done]. Defined.

Lemma pte_context_vsid_witness :
  pte_context (MOL_BIT 0 .| (context_vsid 0xeffff3 .<< 7) .| (1 .<< 6) .| 5) = 0xeffff3 .>> 4.
Proof. apply pte_context_vsid; lia. Defined.

Lemma flush_all_PTEs_never_flushes_witness :
  exists s', flush_all_PTEs (upd_mmu (set_first_mol_context (FIRST_MOL_CONTEXT 0)) kv0) = Some (0, s')
    /\ words s' = ∅.
Proof. apply flush_all_PTEs_never_flushes; [unfold MAX_NUM_SESSIONS; simpl; lia|done]. Defined.

Lemma session_contexts_overlap_witness :
  FIRST_MOL_CONTEXT (0 + 1) <= FIRST_MOL_CONTEXT 0 + 3 <= LAST_MOL_CONTEXT (0 + 1).
Proof. apply session_contexts_overlap; lia. Defined.

End Context.
