(* ===== verification/Mtable.v ===== *)
(** * Tracking of inserted PTEs ([src/kmod/mtable.c])

    Every PTE MOL puts into the hardware hash is recorded in a [pterec],
    linked into two rings: the "ea ring" of its VSID and page index (used
    when the guest invalidates an address) and the "lv ring" of the user
    space page it maps (used when Linux takes a page away).  Pointers are
    32-bit addresses; a pointer to the first field of a [pterec] and a
    pointer to a slot of a [pent_table_t] are both pointers to a "cell", as
    in the C code, which casts one to the other. *)

From S2P Require Import Prelude Skiplist Kvars Context.

Module Mtable.
Import Kvars.

(** ** Constants and layout *)

Definition PENT_LV_HEAD : Z := MOL_BIT 0.
Definition PENT_UNUSED : Z := MOL_BIT 1.
Definition PENT_EA_BIT14 : Z := MOL_BIT 2.
Definition PENT_EA_LAST : Z := MOL_BIT 3.
Definition PENT_TOPEA_MASK : Z := 0x0f800000.
Definition PENT_SV_BIT : Z := 0x00400000.
Definition PENT_INDEX_MASK : Z := 0x003fffff.
Definition PENT_CMP_MASK : Z := PENT_TOPEA_MASK .| PENT_SV_BIT.

Definition LEV2_MASK : Z := 0x0001ffff.
Definition LEV2_IND (ea : Z) : Z := (ea .>> 17) .& 0x3f.
Definition PELIST_IND (ea : Z) : Z := (ea .>> 12) .& 0x1f.

Definition sizeof_pterec : Z := 12.
Definition sizeof_pent_table : Z := 128.
Definition sizeof_vsid_ent : Z := 64 * 4 + 12.
Definition sizeof_alloc_ent : Z := 12.
Definition CHUNK_SIZE : Z := 0x1000 - sizeof_alloc_ent.

Definition ALLOC_CONT_ANY : Z := 0.
Definition ALLOC_CONT_VSID : Z := 1.
Definition ALLOC_CONT_PENT : Z := 2.
Definition ALLOC_CONT_LEV2 : Z := 3.

Definition PTE_TO_IND (h : hash_info) (pte : Z) : Z := (u32 (pte - h_base h) .& pte_mask h) .>> 3.

(** ** Memory accesses *)

(** [pr->...] *)
Definition rec_get (a : Z) : K pterec := fun s =>
  match recs s !! a with Some r => Some (r, s) | None => None end.
Definition rec_mod (a : Z) (f : pterec -> pterec) : K unit := fun s =>
  match recs s !! a with
  | Some r => Some (tt, set_recs (<[a := f r]> (recs s)) s)
  | None => None
  end.

(** The table and the index of [&t->pelist[i]]. *)
Definition slot_table (a : Z) : Z := a .& not32 0x7f.
Definition slot_index (a : Z) : nat := Z.to_nat ((a .& 0x7f) .>> 2).
Definition slot_addr (t i : Z) : Z := t + 4 * i.

Definition tab_get (t : Z) (i : nat) : K Z := fun s =>
  match tabs s !! t with
  | Some l => match l !! i with Some v => Some (v, s) | None => None end
  | None => None
  end.
Definition tab_set (t : Z) (i : nat) (v : Z) : K unit := fun s =>
  match tabs s !! t with
  | Some l => if decide (i < length l)%nat
              then Some (tt, set_tabs (<[t := <[i := v]> l]> (tabs s)) s) else None
  | None => None
  end.

(** A [pterec_t**] or the [ea_next] field of a [pterec_t*]. *)
Definition ld_cell (a : Z) : K Z := fun s =>
  match recs s !! a with
  | Some r => Some (ea_next r, s)
  | None => tab_get (slot_table a) (slot_index a) s
  end.
Definition st_cell (a v : Z) : K unit := fun s =>
  match recs s !! a with
  | Some r => Some (tt, set_recs (<[a := set_ea_next v r]> (recs s)) s)
  | None => tab_set (slot_table a) (slot_index a) v s
  end.

(** [r->...] for a VSID record *)
Definition vent_get (a : Z) : K vsid_ent := fun s =>
  match vents s !! a with Some r => Some (r, s) | None => None end.
Definition vent_mod (a : Z) (f : vsid_ent -> vsid_ent) : K unit := fun s =>
  match vents s !! a with
  | Some r => Some (tt, set_vents (<[a := f r]> (vents s)) s)
  | None => None
  end.
Definition lev2_get (r : Z) (i : Z) : K Z := v ← vent_get r; kopt (lev2 v !! Z.to_nat i).
Definition lev2_set (r : Z) (i : Z) (t : Z) : K unit :=
  vent_mod r (fun v => set_lev2 (<[Z.to_nat i := t]> (lev2 v)) v).

(** The record a [pte_lvrange_t*] points to. *)
Definition lvrange_get (a : Z) : K pte_lvrange :=
  l ← vi_get lvranges; kopt (list_find (fun r => lr_self r = a) l ≫= fun p => Some p.2).

Definition ZERO_PTE (pe : Z) : K unit :=
  h ← kget ptehash; stw (h_base h + 8 * (pe .& PENT_INDEX_MASK)) 0.

(** Enough fuel for any walk along a ring of records. *)
Definition ring_fuel (s : kvars) : nat := S (S (size (recs s))).

(** [for( lvp=x ; lvp->lv_next != pr ; lvp=lvp->lv_next )] *)
Fixpoint find_lv_prev (fuel : nat) (x pr : Z) : K Z :=
  match fuel with
  | O => kfail
  | S f => r ← rec_get x; if lv_next r =? pr then mret x else find_lv_prev f (lv_next r) pr
  end.

(** [for( ; p->ea_next != pr ; p=p->ea_next )] *)
Fixpoint find_ea_prev (fuel : nat) (p pr : Z) : K Z :=
  match fuel with
  | O => kfail
  | S f => n ← ld_cell p; if n =? pr then mret p else find_ea_prev f n pr
  end.

(** ** Table flushing *)

Definition vsid_ent_lookup (mvsid : Z) : K Z :=
  sl ← kget (fun s => vsid_sl (mmu s)); kopt (Skiplist.skiplist_lookup sl mvsid).

(** "unlink it from lv ring ... and put it on the free list" *)
Definition release_pent (pr : Z) : K unit :=
  r ← rec_get pr;
  kwhen (negb (lv_next r =? 0))
    (fuel ← kget ring_fuel;
     lvp ← find_lv_prev fuel (lv_next r) pr;
     rec_mod lvp (set_lv_next (lv_next r)));;
  fp ← vi_get free_pents;
  rec_mod pr (set_lv_next fp);;
  vi_mod (set_free_pents pr).

(** The body of the do-while loop for the entry [pr] with [*pp == pr]:
    returns the new [pp] and whether the entry matched. *)
Definition flush_entry (headp topea : Z) (pp pr : Z) : K (Z * bool) :=
  r ← rec_get pr;
  let pe := pent r in
  if (pe .& PENT_TOPEA_MASK) =? topea then
    st_cell pp (ea_next r);;
    (if tst pe PENT_LV_HEAD then rec_mod pr (set_pent (PENT_UNUSED .| PENT_LV_HEAD))
     else release_pent pr);;
    ZERO_PTE pe;;
    (if tst pe PENT_EA_LAST then
       if pp =? headp then st_cell headp 0
       else rec_mod pp (fun q => set_pent (pent q .| PENT_EA_LAST) q)
     else mret tt);;
    mret (pp, true)
  else mret (pr, false).

Fixpoint flush_ring (fuel : nat) (headp topea : Z) (pp pr : Z) (worked : bool) : K bool :=
  match fuel with
  | O => kfail
  | S f =>
      r ← rec_get pr;
      '(pp', w) ← flush_entry headp topea pp pr;
      if tst (pent r) PENT_EA_LAST then mret (worked || w)
      else flush_ring f headp topea pp' (ea_next r) (worked || w)
  end.

Definition flush_vsid_ea_ (r ea : Z) : K unit :=
  t ← lev2_get r (LEV2_IND ea);
  if t =? 0 then mret tt else
  let headp := slot_addr t (PELIST_IND ea) in
  pr ← ld_cell headp;
  if pr =? 0 then mret tt else
  fuel ← kget ring_fuel;
  worked ← flush_ring fuel headp (ea .& PENT_TOPEA_MASK) headp pr false;
  kwhen worked (tlbie ea).

Definition flush_vsid_ea (mac_vsid ea : Z) : K unit :=
  r ← vsid_ent_lookup mac_vsid;
  kwhen (negb (r =? 0)) (flush_vsid_ea_ r ea).

(** [for( prev=pr; !(prev->pent & PENT_EA_LAST); prev=prev->ea_next )] *)
Fixpoint find_ea_last (fuel : nat) (p : Z) : K Z :=
  match fuel with
  | O => kfail
  | S f => r ← rec_get p; if tst (pent r) PENT_EA_LAST then mret p else find_ea_last f (ea_next r)
  end.

Definition pent_flush_unlink_ea (pr : Z) : K unit :=
  fuel ← kget ring_fuel;
  last ← find_ea_last fuel pr;
  rl ← rec_get last;
  let head := ea_next rl in
  prev ← find_ea_prev fuel last pr;
  r ← rec_get pr;
  (if tst (pent r) PENT_EA_LAST then
     if prev =? head then rec_mod pr (set_ea_next 0)
     else rec_mod prev (fun q => set_pent (pent q .| PENT_EA_LAST) q)
   else mret tt);;
  r' ← rec_get pr;
  st_cell prev (ea_next r');;
  ZERO_PTE (pent r');;
  let ea := (head .>> 2) .& 0x1f in
  let ea := if tst (pent r') PENT_EA_BIT14 then ea .| 0x20 else ea in
  tlbie (ea .<< 12).

(** [do { last = last->lv_next; .. } while( last->lv_next != head )] *)
Fixpoint flush_lv_ring (fuel : nat) (head last : Z) : K Z :=
  match fuel with
  | O => kfail
  | S f =>
      r ← rec_get last;
      let last' := lv_next r in
      pent_flush_unlink_ea last';;
      r' ← rec_get last';
      if lv_next r' =? head then mret last' else flush_lv_ring f head last'
  end.

(** [for( lvr=vi->lvrange_head; lvr && lvptr - lvr->base >= lvr->size ; ..)] *)
Definition find_lvrange (l : list pte_lvrange) (lvptr : Z) : option pte_lvrange :=
  list_find (fun lvr => u32 (lvptr - lr_base lvr) < lr_size lvr) l ≫= fun p => Some p.2.

Definition lv_head (lvr : pte_lvrange) (lvptr : Z) : Z :=
  lr_pents lvr + sizeof_pterec * (u32 (lvptr - lr_base lvr) .>> 12).

(** "not just a single entry?": all the records of the ring but its head *)
Definition flush_tails (head : Z) : K unit :=
  rh ← rec_get head;
  let first := lv_next rh in
  if first =? head then mret tt else
    fuel ← kget ring_fuel;
    last ← flush_lv_ring fuel head head;
    fp ← vi_get free_pents;
    rec_mod last (set_lv_next fp);;
    vi_mod (set_free_pents first).

Definition flush_lvptr_ (lvptr : Z) : K unit :=
  l ← vi_get lvranges;
  match find_lvrange l lvptr with
  | None => mret tt
  | Some lvr =>
      let head := lv_head lvr lvptr in
      flush_tails head;;
      rh' ← rec_get head;
      kwhen (negb (tst (pent rh') PENT_UNUSED)) (pent_flush_unlink_ea head);;
      rec_mod head (set_lv_next head);;
      rec_mod head (set_pent (PENT_UNUSED .| PENT_LV_HEAD))
  end.

Definition flush_lvptr (lvptr : Z) : K unit :=
  kmod (fun s => if lvptr =? lvptr_reservation (mmu s)
                 then upd_mmu (set_lvptr_reservation_lost true) s else s);;
  flush_lvptr_ lvptr.

Fixpoint flush_lv_pages (n : nat) (lvbase : Z) : K unit :=
  match n with
  | O => mret tt
  | S n' => flush_lvptr_ lvbase;; flush_lv_pages n' (u32 (lvbase + 0x1000))
  end.

Definition flush_lv_range (lvbase size : Z) : K unit :=
  flush_lv_pages (Z.to_nat ((size + 0xfff) / 0x1000)) lvbase.

(** [for( i=PELIST_IND(ea); i<32 && guard(ea); i++, ea += 0x1000 )]; [n] is
    the number of slots left. *)
Fixpoint flush_slots (guard : Z -> bool) (n : nat) (r t i ea : Z) : K Z :=
  match n with
  | O => mret ea
  | S n' =>
      if guard ea then
        p ← ld_cell (slot_addr t i);
        kwhen (negb (p =? 0)) (flush_vsid_ea_ r ea);;
        flush_slots guard n' r t (i + 1) (u32 (ea + 0x1000))
      else mret ea
  end.

(** [while( ea < end )], the loop of [flush_ea_range] and [flush_vsid]; only
    the former has a guard on its inner loop. *)
Fixpoint flush_vsid_range (guard : Z -> bool) (fuel : nat) (r ea end_ : Z) : K unit :=
  match fuel with
  | O => kfail
  | S f =>
      if ea <? end_ then
        t ← lev2_get r (LEV2_IND ea);
        if t =? 0 then flush_vsid_range guard f r (u32 ((ea .& not32 LEV2_MASK) + LEV2_MASK + 1)) end_
        else
          ea' ← flush_slots guard (Z.to_nat (32 - PELIST_IND ea)) r t (PELIST_IND ea) ea;
          flush_vsid_range guard f r ea' end_
      else mret tt
  end.

(** The VSID records in iteration order. *)
Definition all_vsids : K (list Z) :=
  sl ← kget (fun s => vsid_sl (mmu s)); kopt (Skiplist.skiplist_elements sl).

Definition range_fuel (ea end_ : Z) : nat := S (Z.to_nat ((end_ - ea + 0xfff) / 0x1000)).

Definition flush_ea_range (org_ea size : Z) : K unit :=
  let end_ := u32 (org_ea + size) in
  l ← all_vsids;
  kforeach l (fun r => flush_vsid_range (fun ea => ea <? end_) (range_fuel org_ea end_) r org_ea end_).

(** Free the level-2 table of index [i]. *)
Definition free_lev2 (r : Z) (i : nat) : K unit :=
  t ← lev2_get r (Z.of_nat i);
  lev2_set r (Z.of_nat i) 0;;
  kwhen (negb (t =? 0))
    (ft ← vi_get free_pent_tables; tab_set t 0 ft;; vi_mod (set_free_pent_tables t)).

Definition flush_vsid (r : Z) : K unit :=
  flush_vsid_range (fun _ => true) (range_fuel 0 0x10000000) r 0 0x10000000;;
  kfor 0 64 (free_lev2 r).

(** ** Allocations *)

Definition do_chunk_kmalloc (what : Z) : K Z :=
  size ← vi_get alloc_size; limit ← vi_get alloc_limit;
  if limit <? size then mret 0 else
  ptr ← kalloc;
  if ptr =? 0 then mret 0 else
  vi_mod (fun v => set_allocations ((ptr, what) :: allocations v) v);;
  vi_mod (fun v => set_alloc_size (s32 (alloc_size v + 0x1000)) v);;
  mret ptr.

Definition in_page (p a : Z) : Prop := p <= a < p + 0x1000.
#[export] Instance in_page_dec p a : Decision (in_page p a).
Proof. unfold in_page. apply _. Defined.

(** Whatever lived in a page is gone when the page is freed. *)
Definition drop_page (p : Z) (s : kvars) : kvars :=
  set_recs (filter (fun kv => ~ in_page p kv.1) (recs s))
    (set_tabs (filter (fun kv => ~ in_page p kv.1) (tabs s))
      (set_vents (filter (fun kv => ~ in_page p kv.1) (vents s))
        (upd_mmu (fun m => set_vsid_sl (Skiplist.set_mem
            (filter (fun kv => ~ in_page p kv.1) (Skiplist.mem (vsid_sl m))) (vsid_sl m)) m) s))).

Definition free_page_mol (p : Z) : K unit := kmod (drop_page p);; kfree p.

Definition kfree_matches (what : Z) (p : Z * Z) : Prop := p.2 = what \/ what = ALLOC_CONT_ANY.
#[export] Instance kfree_matches_dec what p : Decision (kfree_matches what p).
Proof. unfold kfree_matches. apply _. Defined.

Definition do_kfree (what : Z) : K unit :=
  l ← vi_get allocations;
  kforeach (filter (kfree_matches what) l) (fun p =>
    free_page_mol p.1;;
    vi_mod (fun v => set_alloc_size (s32 (alloc_size v - 0x1000)) v));;
  vi_mod (set_allocations (filter (fun p => ~ kfree_matches what p) l)).

Definition get_free_lev2 : K Z :=
  t ← vi_get free_pent_tables;
  n ← tab_get t 0;
  vi_mod (set_free_pent_tables n);;
  tab_set t 0 0;;
  mret t.

(** Pop the free list of records. *)
Definition pop_pent : K Z :=
  pr ← vi_get free_pents;
  r ← rec_get pr;
  vi_mod (set_free_pents (lv_next r));;
  mret pr.

(** "responsible for setting PENT_LV_HEAD and lv_next" *)
Definition get_free_pent (lvrange : option pte_lvrange) (lvptr : Z) : K Z :=
  match lvrange with
  | Some lvr =>
      let pr2 := lv_head lvr lvptr in
      r2 ← rec_get pr2;
      if tst (pent r2) PENT_UNUSED then
        rec_mod pr2 (set_pent PENT_LV_HEAD);; mret pr2
      else
        pr ← pop_pent;
        r2' ← rec_get pr2;
        rec_mod pr (set_lv_next (lv_next r2'));;
        rec_mod pr2 (set_lv_next pr);;
        rec_mod pr (set_pent 0);; mret pr
  | None =>
      pr ← pop_pent;
      rec_mod pr (set_lv_next 0);;
      rec_mod pr (set_pent 0);; mret pr
  end.

(** [t[i].pelist[0] = &t[i+1]], the last one pointing to [tail]. *)
Fixpoint chain_tables (n : nat) (t tail : Z) (m : gmap Z (list Z)) : gmap Z (list Z) :=
  match n with
  | O => m
  | S n' =>
      <[t := (if decide (n' = 0)%nat then tail else t + sizeof_pent_table) :: replicate 31 0]>
        (chain_tables n' (t + sizeof_pent_table) tail m)
  end.

Definition lev2_alloc : K Z :=
  t ← do_chunk_kmalloc ALLOC_CONT_LEV2;
  if t =? 0 then mret 1 else
  let m := sizeof_pent_table - 1 in
  let n := CHUNK_SIZE / sizeof_pent_table in
  let '(t, n) := if tst t m then (t + m + 1 - (t .& m), n - 1) else (t, n) in
  ft ← vi_get free_pent_tables;
  kmod (fun s => set_tabs (chain_tables (Z.to_nat n) t ft (tabs s)) s);;
  vi_mod (set_free_pent_tables t);;
  mret 0.

Fixpoint chain_pents (n : nat) (pr tail : Z) (m : gmap Z pterec) : gmap Z pterec :=
  match n with
  | O => m
  | S n' =>
      <[pr := Pterec 0 (if decide (n' = 0)%nat then tail else pr + sizeof_pterec) 0]>
        (chain_pents n' (pr + sizeof_pterec) tail m)
  end.

Definition pent_alloc : K Z :=
  let n := CHUNK_SIZE / sizeof_pterec in
  pr ← do_chunk_kmalloc ALLOC_CONT_PENT;
  if pr =? 0 then mret 1 else
  fp ← vi_get free_pents;
  kmod (fun s => set_recs (chain_pents (Z.to_nat n) pr fp (recs s)) s);;
  vi_mod (set_free_pents pr);;
  mret 0.

(** ** Clearing everything *)

(** [clear_vsid_refs] of [mmu.c] *)
Definition clear_vsid_refs : K unit :=
  kmod (upd_mmu (fun m =>
    let ill := replicate 16 (illegal_sr m) in
    set_vsid zeros16 (set_unmapped_vsid zeros16
      (set_user_sr ill (set_sv_sr ill (set_unmapped_sr ill (set_split_sr ill m)))))));;
  invalidate_splitmode_sr.

Definition sl_init : K unit := kmod (fun s =>
  let '(sl, r) := Skiplist.skiplist_init (tb s) (vsid_sl (mmu s)) sizeof_vsid_ent (rng s) in
  set_rng r (upd_mmu (set_vsid_sl sl) s)).

Definition clear_all_vsids : K unit :=
  l ← all_vsids;
  kforeach l flush_vsid;;
  sl_init;;
  clear_vsid_refs;;
  vi_mod (set_free_pents 0);;
  vi_mod (set_free_pent_tables 0);;
  do_kfree ALLOC_CONT_ANY.

Definition clear_pte_hash_table : K unit := clear_all_vsids.

(** [handle_context_wrap] of [context.c] *)
Definition handle_context_wrap (n : Z) : K unit :=
  m ← kget mmu;
  kwhen (last_mol_context m <? s32 (next_mol_context m + n))
    (clear_all_vsids;; _ ← Context.init_contexts; mret tt).

Definition mtable_memory_check : K Z :=
  fp ← vi_get free_pents; ft ← vi_get free_pent_tables;
  if negb (fp =? 0) && negb (ft =? 0) then mret 0 else
  kwhen (ft =? 0) (_ ← lev2_alloc; mret tt);;
  kwhen (fp =? 0) (_ ← pent_alloc; mret tt);;
  fp' ← vi_get free_pents; ft' ← vi_get free_pent_tables;
  if (fp' =? 0) || (ft' =? 0) then clear_all_vsids;; mret 1
  else mret 0.

(** ** [pte_inserted] *)

Definition relink_lv (pr : Z) (lvr : pte_lvrange) (lvptr : Z) : K unit :=
  let head := lv_head lvr lvptr in
  r ← rec_get pr;
  if lv_next r =? 0 then
    h ← rec_get head;
    rec_mod pr (set_lv_next (lv_next h));;
    rec_mod head (set_lv_next pr)
  else if tst (pent r) PENT_LV_HEAD then
    if pr =? head then mret tt else
    fuel ← kget ring_fuel;
    p ← find_ea_prev fuel (ea_next r) pr;
    pnew ← get_free_pent (Some lvr) lvptr;
    r' ← rec_get pr;
    rec_mod pnew (set_ea_next (ea_next r'));;
    st_cell p pnew;;
    rec_mod pnew (fun q => set_pent (pent q .| (pent r' .& not32 (PENT_UNUSED .| PENT_LV_HEAD))) q);;
    rec_mod pr (set_pent (PENT_LV_HEAD .| PENT_UNUSED))
  else
    fuel ← kget ring_fuel;
    p ← (fix find_head f x : K Z :=
           match f with
           | O => kfail
           | S f' => q ← rec_get x; if tst (pent q) PENT_LV_HEAD then mret x
                     else find_head f' (lv_next q)
           end) fuel (lv_next r);
    if p =? head then mret tt else
    lvp ← find_lv_prev fuel p pr;
    rec_mod lvp (set_lv_next (lv_next r));;
    h ← rec_get head;
    rec_mod pr (set_lv_next (lv_next h));;
    rec_mod head (set_lv_next pr).

(** The record of the ring that matches [cmp], if any. *)
Fixpoint ring_find (fuel : nat) (pr cmp : Z) : K (option Z) :=
  match fuel with
  | O => kfail
  | S f =>
      r ← rec_get pr;
      if (pent r .& PENT_CMP_MASK) =? cmp then mret (Some pr)
      else if tst (pent r) PENT_EA_LAST then mret None
      else ring_find f (ea_next r) cmp
  end.

Definition pent_cmp_of (v : vsid_ent) (ea segreg : Z) : Z :=
  (ea .& PENT_TOPEA_MASK) .|
  (if (linux_vsid_sv v .& VSID_MASK) =? (segreg .& VSID_MASK) then PENT_SV_BIT else 0).

Definition ea_bit14 (ea : Z) : Z := if tst ea (MOL_BIT 14) then PENT_EA_BIT14 else 0.

(** [lvrange = None] stands for a null pointer. *)
Definition pte_inserted (ea lvptr : Z) (lvrange : option pte_lvrange) (pte r segreg : Z) : K unit :=
  lost ← kget (fun s => lvptr_reservation_lost (mmu s));
  if bool_decide (is_Some lvrange) && lost then stw pte 0;; tlbie ea
  else
  h ← kget ptehash;
  v ← vent_get r;
  let cmp := pent_cmp_of v ea segreg in
  t0 ← lev2_get r (LEV2_IND ea);
  t ← (if t0 =? 0 then t ← get_free_lev2; lev2_set r (LEV2_IND ea) t;; mret t else mret t0);
  let pp := slot_addr t (PELIST_IND ea) in
  pr ← ld_cell pp;
  if negb (pr =? 0) then
    fuel ← kget ring_fuel;
    found ← ring_find fuel pr cmp;
    match found with
    | Some pr =>
        rec_mod pr (fun q => set_pent ((pent q .& not32 PENT_INDEX_MASK) .| PTE_TO_IND h pte) q);;
        match lvrange with Some lvr => relink_lv pr lvr lvptr | None => mret tt end
    | None =>
        pr ← get_free_pent lvrange lvptr;
        rec_mod pr (fun q => set_pent (pent q .| PTE_TO_IND h pte .| cmp .| ea_bit14 ea) q);;
        first ← ld_cell pp;
        rec_mod pr (set_ea_next first);;
        st_cell pp pr
    end
  else
    pr ← get_free_pent lvrange lvptr;
    st_cell pp pr;;
    rec_mod pr (fun q =>
      set_pent (pent q .| PENT_EA_LAST .| PTE_TO_IND h pte .| cmp .| ea_bit14 ea) q);;
    rec_mod pr (set_ea_next pp).

(** ** VSID allocation *)

Definition vsid_el_callback (s : kvars) (data : Z) : kvars :=
  let '(c1, s1) := Context.alloc_context s in
  let '(c2, s2) := Context.alloc_context s1 in
  set_vents (<[data := VsidEnt (c1 .| VSID_Kp) (c2 .| VSID_Kp) (replicate 64 0)]> (vents s2)) s2.

Definition vsid_prealloc (buf : Z) : K unit := fun s =>
  match Skiplist.skiplist_prealloc (tb s)
          (Some (fun sl u data _ _ => (sl, vsid_el_callback u data)))
          (vsid_sl (mmu s)) buf CHUNK_SIZE s (rng s) with
  | Some (_, sl, s1, r) => Some (tt, set_rng r (upd_mmu (set_vsid_sl sl) s1))
  | None => None
  end.

Definition alloc_vsid_ent (mac_vsid : Z) : K Z :=
  sl ← kget (fun s => vsid_sl (mmu s));
  ok ← (if Skiplist.skiplist_needalloc sl then
          handle_context_wrap (CHUNK_SIZE / sizeof_vsid_ent * 2);;
          buf ← do_chunk_kmalloc ALLOC_CONT_VSID;
          if buf =? 0 then mret false else vsid_prealloc buf;; mret true
        else mret true);
  if negb ok then mret 0 else
  sl' ← kget (fun s => vsid_sl (mmu s));
  '(sl'', d) ← kopt (Skiplist.skiplist_insert sl' mac_vsid);
  kmod (upd_mmu (set_vsid_sl sl''));;
  mret d.

(** [(r, *user_ret, *sv_ret)], [None] for a null result *)
Definition vsid_get_user_sv (mac_vsid : Z) : K (option (Z * Z * Z)) :=
  r0 ← vsid_ent_lookup mac_vsid;
  r1 ← (if r0 =? 0 then alloc_vsid_ent mac_vsid else mret r0);
  r2 ← (if r1 =? 0 then clear_all_vsids;; alloc_vsid_ent mac_vsid else mret r1);
  if r2 =? 0 then mret None else
  v ← vent_get r2;
  mret (Some (r2, linux_vsid v, linux_vsid_sv v)).

(** ** Reclaiming *)

(** The inner loops over the level-2 tables: returns whether [i == n1], that
    is whether no non-empty table was found. *)
Fixpoint reclaim_lev2 (n : nat) (i : nat) (r : Z) : K bool :=
  match n with
  | O => mret true
  | S n' =>
      t ← lev2_get r (Z.of_nat i);
      if t =? 0 then reclaim_lev2 n' (S i) r else
      l ← kget (fun s => tabs s !! t);
      l ← kopt l;
      if bool_decide (Forall (fun p => p = 0) l) then
        ft ← vi_get free_pent_tables;
        tab_set t 0 ft;;
        vi_mod (set_free_pent_tables t);;
        lev2_set r (Z.of_nat i) 0;;
        reclaim_lev2 n' (S i) r
      else mret false
  end.

Definition reclaim_vsid (r : Z) : K unit :=
  empty ← reclaim_lev2 64 0 r;
  if (empty : bool) then
    sl ← kget (fun s => vsid_sl (mmu s));
    k ← kopt (Skiplist.skiplist_iter_getkey sl r);
    used ← kget (fun s => bool_decide (r ∈ vsid (mmu s)));
    if used || (VSID_MASK <? u32 k) then mret tt
    else
      '(sl', _) ← kopt (Skiplist.skiplist_delete sl k);
      kmod (upd_mmu (set_vsid_sl sl'))
  else mret tt.

(** [while( skiplist_getnext(..) )] with the iterator advanced before the body *)
Fixpoint reclaim_from (fuel : nat) (it : Skiplist.ptr) : K unit :=
  match fuel with
  | O => kfail
  | S f =>
      sl ← kget (fun s => vsid_sl (mmu s));
      '(more, data, it') ← kopt (Skiplist.skiplist_getnext sl it);
      if (more : bool) then reclaim_vsid data;; reclaim_from f it' else mret tt
  end.

Definition mtable_reclaim : K unit :=
  sl ← kget (fun s => vsid_sl (mmu s));
  it ← kopt (Skiplist.skiplist_iterate sl);
  reclaim_from (S (size (Skiplist.mem sl))) it.

(** ** Ranges of user space memory *)

(** [lvr->pents[i]], all heads of empty lv rings *)
Fixpoint init_heads (n : nat) (a : Z) (m : gmap Z pterec) : gmap Z pterec :=
  match n with
  | O => m
  | S n' => <[a := Pterec 0 a (PENT_LV_HEAD .| PENT_UNUSED)]> (init_heads n' (a + sizeof_pterec) m)
  end.

Definition register_lvrange (lvbase size : Z) : K (option pte_lvrange) :=
  lvr ← kalloc;
  if lvr =? 0 then mret None else
  pents ← kalloc;
  if pents =? 0 then kfree lvr;; mret None else
  kmod (fun s => set_recs (init_heads (Z.to_nat (size .>> 12)) pents (recs s)) s);;
  let r := Lvrange lvr pents (u32 lvbase) (u32 size) in
  vi_mod (fun v => set_lvranges (r :: lvranges v) v);;
  mret (Some r).

(** [vfree_mol( lvrange->pents )]: the heads are gone *)
Fixpoint drop_heads (n : nat) (a : Z) (m : gmap Z pterec) : gmap Z pterec :=
  match n with
  | O => m
  | S n' => delete a (drop_heads n' (a + sizeof_pterec) m)
  end.

Definition free_lvrange (lvrange : Z) : K unit :=
  l ← vi_get lvranges;
  match list_find (fun r => lr_self r = lvrange) l with
  | None => mret tt
  | Some (i, r) =>
      flush_lv_range (lr_base r) (lr_size r);;
      vi_mod (set_lvranges (delete i l));;
      kmod (fun s => set_recs (drop_heads (Z.to_nat (lr_size r .>> 12)) (lr_pents r) (recs s)) s);;
      kfree (lr_pents r);;
      kfree (lr_self r)
  end.

(** ** Init and cleanup *)

Definition mtable_tune_alloc_limit (ramsize_mb : Z) : K unit :=
  vi_mod (set_alloc_limit (s32 ((ramsize_mb + 160) * 4096))).

(** [VSID_OFFSETS_OK]: the C condition is a disjunction *)
Definition VSID_OFFSETS_OK (offs_user offs_sv size : Z) : bool :=
  (offs_user =? 4) || (offs_sv =? 8) || (size =? 64 * 4 + 12).

Definition init_mtable : K Z :=
  vi ← kalloc;
  if vi =? 0 then kmod (upd_mmu (set_vinfo None));; mret 1 else
  kmod (upd_mmu (set_vinfo (Some (VsidInfo vi [] 0 0 [] 0 (2 * 1024 * 1024)))));;
  sl_init;;
  mret (if VSID_OFFSETS_OK 4 8 sizeof_vsid_ent then 0 else 1).

Fixpoint free_all_lvranges (n : nat) : K unit :=
  match n with
  | O => mret tt
  | S n' =>
      l ← vi_get lvranges;
      match l with
      | [] => mret tt
      | r :: _ => free_lvrange (lr_self r);; free_all_lvranges n'
      end
  end.

Definition cleanup_mtable : K unit :=
  vi ← kget (fun s => vinfo (mmu s));
  match vi with
  | None => mret tt
  | Some v => free_all_lvranges (length (lvranges v));; do_kfree ALLOC_CONT_ANY;; kfree (vi_self v)
  end;;
  kmod (upd_mmu (fun m =>
    set_vinfo None (set_vsid_sl (Skiplist.Sl 0 0 0 (replicate 16 Skiplist.PNull)
      (Skiplist.El 0 [Skiplist.PNull]) Skiplist.PNull (Skiplist.self (vsid_sl m)) ∅) m))).

End Mtable.
