(* ===== verification/Rings.v ===== *)
(** * The rings of PTE records: views and invariant

    The state of [mtable.c] is seen through three functions of an address:
    [cell] (the [ea_next] field of a record or a slot of a level-2 table),
    [lvn] (the [lv_next] field) and [pe] (the [pent] field).  The invariant
    [mt] says which ea rings, lv rings and free records there are. *)

From S2P Require Import Prelude Chains Skiplist Kvars Context Mtable.

Module Rings.
Import Kvars Mtable Chains.

(** ** Views *)

Definition cell (s : kvars) (a : Z) : option Z :=
  match recs s !! a with
  | Some r => Some (ea_next r)
  | None => tabs s !! slot_table a ≫= fun l => l !! slot_index a
  end.
Definition lvn (s : kvars) (a : Z) : option Z := lv_next <$> recs s !! a.
Definition pe (s : kvars) (a : Z) : option Z := pent <$> recs s !! a.
Definition flag (s : kvars) (a m : Z) : bool := from_option (fun p => tst p m) false (pe s a).
Definition fpents (s : kvars) : option Z := free_pents <$> vinfo (mmu s).

(** ** Pure updates *)

Definition wrec (a : Z) (f : pterec -> pterec) (s : kvars) : kvars :=
  set_recs (alter f a (recs s)) s.
Definition wlv (a v : Z) : kvars -> kvars := wrec a (set_lv_next v).
Definition wpe (a : Z) (f : Z -> Z) : kvars -> kvars := wrec a (fun r => set_pent (f (pent r)) r).
Definition wcell (a v : Z) (s : kvars) : kvars :=
  match recs s !! a with
  | Some _ => wrec a (set_ea_next v) s
  | None => set_tabs (alter (alter (fun _ => v) (slot_index a)) (slot_table a) (tabs s)) s
  end.
Definition wfp (v : Z) (s : kvars) : kvars :=
  upd_mmu (fun m => set_vinfo (set_free_pents v <$> vinfo m) m) s.
Definition wword (a v : Z) (s : kvars) : kvars := set_words (<[a := u32 v]> (words s)) s.
Definition wtlb (ea : Z) (s : kvars) : kvars := set_tlbies (ea :: tlbies s) s.

(** Everything but the rings, the free list, the words and the TLB *)
Definition core (s : kvars) : kvars :=
  wfp 0 (set_recs ∅ (set_tabs ∅ (set_words ∅ (set_tlbies [] s)))).

(** ** The monadic operations in terms of the updates *)

Lemma insert_alter {V} (m : gmap Z V) a f v : m !! a = Some v -> <[a := f v]> m = alter f a m.
Proof.
  intros H. apply map_eq. intros b. destruct (decide (a = b)) as [<-|Hn].
  - by rewrite lookup_insert_eq, lookup_alter_eq, H.
  - by rewrite lookup_insert_ne, lookup_alter_ne.
Qed.

Lemma rec_get_eq a r s : recs s !! a = Some r -> rec_get a s = Some (r, s).
Proof. intros H. unfold rec_get. by rewrite H. Qed.

Lemma rec_mod_eq a f s : is_Some (recs s !! a) -> rec_mod a f s = Some (tt, wrec a f s).
Proof.
  intros [r H]. unfold rec_mod, wrec. rewrite H. by rewrite (insert_alter _ _ f r).
Qed.

Lemma ld_cell_eq a v s : cell s a = Some v -> ld_cell a s = Some (v, s).
Proof.
  unfold cell, ld_cell, tab_get. destruct (recs s !! a); [by intros [= ->]|].
  destruct (tabs s !! slot_table a) as [l|]; [|done]. cbn. by intros ->.
Qed.

Lemma st_cell_eq a v s : is_Some (cell s a) -> st_cell a v s = Some (tt, wcell a v s).
Proof.
  unfold cell, st_cell, tab_set, wcell. destruct (recs s !! a) as [r|] eqn:E.
  - intros _. unfold wrec. by rewrite (insert_alter _ _ (set_ea_next v) r).
  - destruct (tabs s !! slot_table a) as [l|] eqn:El; cbn; [|by intros [? [=]]].
    intros [x Hx]. pose proof (lookup_lt_Some _ _ _ Hx).
    rewrite decide_True by done. do 3 f_equal.
    rewrite <- (insert_alter _ _ (alter (fun _ => v) (slot_index a)) l) by done. f_equal.
    apply list_eq. intros i. destruct (decide (i = slot_index a)) as [->|Hn].
    + by rewrite list_lookup_alter_eq, list_lookup_insert_eq, Hx.
    + by rewrite list_lookup_alter_ne, list_lookup_insert_ne by done.
Qed.

Lemma vi_mod_fp v s : is_Some (vinfo (mmu s)) -> vi_mod (set_free_pents v) s = Some (tt, wfp v s).
Proof. intros [i H]. unfold vi_mod, wfp, upd_mmu. by rewrite H. Qed.

Lemma vi_get_fp v s : fpents s = Some v -> vi_get free_pents s = Some (v, s).
Proof. unfold fpents, vi_get. destruct (vinfo (mmu s)); cbn; [by intros [= ->]|done]. Qed.

(** ** How updates change the views *)

(** A slot address is that of one slot of one table. *)
Definition slot_ok (a : Z) : Prop := 0 <= a < 2 ^ 32 /\ a mod 4 = 0.

Lemma slot_table_mod a : 0 <= a < 2 ^ 32 -> slot_table a = a - a mod 128.
Proof. intros H. apply (land_align a 7); lia. Qed.
Lemma slot_index_mod a : slot_index a = Z.to_nat (a mod 128 / 4).
Proof.
  unfold slot_index. change 0x7f with (2 ^ 7 - 1). by rewrite land_ones_mod, Z.shiftr_div_pow2.
Qed.

Lemma slot_inj a b :
  slot_ok a -> slot_ok b -> slot_table a = slot_table b -> slot_index a = slot_index b -> a = b.
Proof.
  intros [Ha Ha'] [Hb Hb']. rewrite !slot_table_mod, !slot_index_mod by done.
  intros H1 H2. apply Z2Nat.inj in H2; [|Z.to_euclidean_division_equations; lia..].
  Z.to_euclidean_division_equations. lia.
Qed.

(** The addresses of the records *)
Definition rdom (s : kvars) : gset Z := dom (recs s).
Definition okcell (s : kvars) (a : Z) : Prop := a ∈ rdom s \/ slot_ok a.

Lemma rdom_lookup s a : a ∈ rdom s <-> exists r, recs s !! a = Some r.
Proof. apply elem_of_dom. Qed.

Lemma ring_fuel_size s : ring_fuel s = S (S (size (rdom s))).
Proof. unfold ring_fuel, rdom. by rewrite size_dom. Qed.

Section Views.
Context (s : kvars) (a : Z).

Lemma recs_wrec f b :
  recs (wrec a f s) !! b = if decide (b = a) then f <$> recs s !! b else recs s !! b.
Proof.
  unfold wrec, set_recs. cbn [recs]. case_decide as E.
  - subst. apply lookup_alter_eq.
  - apply lookup_alter_ne. congruence.
Qed.

Lemma rdom_wrec f : rdom (wrec a f s) = rdom s.
Proof. unfold rdom, wrec, set_recs. cbn [recs]. apply dom_alter_L. Qed.
Lemma rdom_wcell v : rdom (wcell a v s) = rdom s.
Proof. unfold wcell. destruct (recs s !! a); [apply rdom_wrec|done]. Qed.

Lemma cell_wrec f b : (forall r, ea_next (f r) = ea_next r) -> cell (wrec a f s) b = cell s b.
Proof.
  intros Hf. unfold cell. rewrite recs_wrec. case_decide; [|by destruct (recs s !! b)].
  destruct (recs s !! b); cbn; [by rewrite Hf|done].
Qed.
Lemma lvn_wrec f b : (forall r, lv_next (f r) = lv_next r) -> lvn (wrec a f s) b = lvn s b.
Proof.
  intros Hf. unfold lvn. rewrite recs_wrec. case_decide; [|done].
  destruct (recs s !! b); cbn; [by rewrite Hf|done].
Qed.
Lemma pe_wrec f b : (forall r, pent (f r) = pent r) -> pe (wrec a f s) b = pe s b.
Proof.
  intros Hf. unfold pe. rewrite recs_wrec. case_decide; [|done].
  destruct (recs s !! b); cbn; [by rewrite Hf|done].
Qed.

Lemma cell_wlv v b : cell (wlv a v s) b = cell s b.
Proof. by apply cell_wrec. Qed.
Lemma cell_wpe f b : cell (wpe a f s) b = cell s b.
Proof. by apply cell_wrec. Qed.
Lemma pe_wlv v b : pe (wlv a v s) b = pe s b.
Proof. by apply pe_wrec. Qed.
Lemma lvn_wpe f b : lvn (wpe a f s) b = lvn s b.
Proof. by apply lvn_wrec. Qed.
Lemma lvn_wlv v b : a ∈ rdom s -> lvn (wlv a v s) b = if decide (b = a) then Some v else lvn s b.
Proof.
  intros [r H]%rdom_lookup. unfold lvn, wlv. rewrite recs_wrec. case_decide; [|done].
  subst. by rewrite H.
Qed.
Lemma pe_wpe f b : pe (wpe a f s) b = if decide (b = a) then f <$> pe s b else pe s b.
Proof.
  unfold pe, wpe. rewrite recs_wrec. case_decide; [|done]. subst. by destruct (recs s !! a).
Qed.
Lemma lvn_wcell v b : lvn (wcell a v s) b = lvn s b.
Proof. unfold wcell. destruct (recs s !! a); [by apply lvn_wrec|done]. Qed.
Lemma pe_wcell v b : pe (wcell a v s) b = pe s b.
Proof. unfold wcell. destruct (recs s !! a); [by apply pe_wrec|done]. Qed.

Lemma cell_wcell v b :
  okcell s a -> okcell s b -> is_Some (cell s a) ->
  cell (wcell a v s) b = if decide (b = a) then Some v else cell s b.
Proof.
  intros Ha Hb Hc. unfold wcell, cell in *. destruct (recs s !! a) as [r|] eqn:Er.
  - rewrite recs_wrec. case_decide as E; [subst; by rewrite Er|done].
  - cbn [recs set_recs tabs set_tabs]. case_decide as E.
    + subst. rewrite Er, lookup_alter_eq. destruct (tabs s !! slot_table a) as [l|]; [|by destruct Hc].
      cbn in *. rewrite list_lookup_alter_eq. destruct Hc as [x ->]. done.
    + destruct (recs s !! b) as [r|] eqn:Eb; [done|].
      assert (Hsa : slot_ok a).
      { destruct Ha as [[? Ha]%rdom_lookup|Ha]; [congruence|done]. }
      assert (Hsb : slot_ok b).
      { destruct Hb as [[? Hb]%rdom_lookup|Hb]; [congruence|done]. }
      destruct (decide (slot_table b = slot_table a)) as [Et|Et].
      * rewrite Et, lookup_alter_eq. destruct (tabs s !! slot_table a) as [l|]; [|done].
        cbn. rewrite list_lookup_alter_ne; [done|]. intros Ei. by apply E, slot_inj.
      * by rewrite lookup_alter_ne.
Qed.
End Views.

(** The components no update but one touches *)
Lemma wcell_rest s a v :
  fpents (wcell a v s) = fpents s /\ words (wcell a v s) = words s /\
  tlbies (wcell a v s) = tlbies s /\ core (wcell a v s) = core s /\ ptehash (wcell a v s) = ptehash s.
Proof. unfold wcell. by destruct (recs s !! a). Qed.
Lemma core_wfp v s : core (wfp v s) = core s.
Proof.
  destruct s as [? m]. unfold core, wfp, upd_mmu. cbn [mmu set_mmu set_recs set_tabs set_words set_tlbies].
  destruct m as [? ? ? ? ? ? ? ? ? ? ? ? ? ? ? ? ? ? ? ? ? ? ? ? ? ? ? ? [vi|] ? ?]; reflexivity.
Qed.
Lemma fpents_wfp v s : is_Some (fpents s) -> fpents (wfp v s) = Some v.
Proof.
  unfold fpents, wfp, upd_mmu. cbn [mmu set_mmu].
  destruct (mmu s) as [? ? ? ? ? ? ? ? ? ? ? ? ? ? ? ? ? ? ? ? ? ? ? ? ? ? ? ? [vi|] ? ?];
    cbn; [done|by intros [? [=]]].
Qed.
Lemma core_ptehash s s' : core s' = core s -> ptehash s' = ptehash s.
Proof. intros H. change (ptehash (core s') = ptehash (core s)). by rewrite H. Qed.

(** ** The ea rings *)

(** Exactly the last record of a ring carries [PENT_EA_LAST]. *)
Fixpoint lasts (s : kvars) (xs : list Z) : Prop :=
  match xs with
  | [] => True
  | x :: xs' => flag s x PENT_EA_LAST = bool_decide (xs' = []) /\ lasts s xs'
  end.

(** The ring starting at the slot [hp] ("always NULL if ring is empty") *)
Definition ring (s : kvars) (hp : Z) (xs : list Z) : Prop :=
  match xs with
  | [] => cell s hp = Some 0
  | _ => chain (cell s) hp xs hp /\ lasts s xs
  end.

(** [E] maps the slots in use to the records of their rings. *)
Record EA (s : kvars) (E : gmap Z (list Z)) : Prop := {
  ea_null : 0 ∉ rdom s;
  ea_slot hp xs : E !! hp = Some xs -> slot_ok hp /\ hp ∉ rdom s;
  ea_ring hp xs : E !! hp = Some xs -> ring s hp xs;
  ea_nodup hp xs : E !! hp = Some xs -> NoDup xs;
  ea_dom hp xs x : E !! hp = Some xs -> x ∈ xs -> x ∈ rdom s;
  ea_disj hp1 hp2 xs1 xs2 x :
    E !! hp1 = Some xs1 -> E !! hp2 = Some xs2 -> x ∈ xs1 -> x ∈ xs2 -> hp1 = hp2
}.

Definition inE (E : gmap Z (list Z)) (x : Z) : Prop := exists hp xs, E !! hp = Some xs /\ x ∈ xs.

Lemma lasts_app s A x B :
  lasts s (A ++ x :: B) <-> (forall y, y ∈ A -> flag s y PENT_EA_LAST = false) /\ lasts s (x :: B).
Proof.
  induction A as [|a A IH]; cbn [app lasts]; [set_solver|].
  rewrite IH, bool_decide_eq_false_2 by (by destruct A). cbn [lasts].
  split; [intros (? & ? & ?); split; [|done]; intros y Hy; apply elem_of_cons in Hy as [->|Hy]; auto|].
  intros [H1 H2]. split; [apply H1; left|]. split; [|done]. intros y Hy. apply H1. by right.
Qed.

Lemma lasts_ext s s' xs :
  (forall x, x ∈ xs -> flag s' x PENT_EA_LAST = flag s x PENT_EA_LAST) -> lasts s xs -> lasts s' xs.
Proof.
  induction xs as [|x xs IH]; cbn; [done|]. intros Hx [H1 H2].
  split; [by rewrite Hx by left|]. apply IH; [|done]. intros y Hy. apply Hx. by right.
Qed.

Lemma ring_ext s s' hp xs :
  (forall a, a ∈ hp :: xs -> cell s' a = cell s a) ->
  (forall x, x ∈ xs -> flag s' x PENT_EA_LAST = flag s x PENT_EA_LAST) ->
  ring s hp xs -> ring s' hp xs.
Proof.
  intros Hc Hf. destruct xs as [|x xs]; cbn [ring].
  - by rewrite Hc by left.
  - intros [H1 H2]. split; [by apply (chain_ext (cell s))|by apply (lasts_ext s)].
Qed.

Lemma ring_first s hp xs : ring s hp xs -> cell s hp = Some (default 0 (head xs)).
Proof. destruct xs; [done|]. intros [[H _] _]. done. Qed.

Section EaLemmas.
Context {s : kvars} {E : gmap Z (list Z)} (HE : EA s E).

Lemma ea_okcell hp xs a : E !! hp = Some xs -> a ∈ hp :: xs -> okcell s a.
Proof.
  intros Hhp Ha. apply elem_of_cons in Ha as [->|Ha].
  - right. apply (ea_slot _ _ HE _ _ Hhp).
  - left. by apply (ea_dom _ _ HE hp xs).
Qed.

Lemma ea_nodup_hp hp xs : E !! hp = Some xs -> NoDup (hp :: xs).
Proof.
  intros H. apply list.NoDup_cons. split; [|by apply (ea_nodup _ _ HE hp)].
  intros Hin. apply (ea_slot _ _ HE _ _ H). by apply (ea_dom _ _ HE hp xs).
Qed.

Lemma ea_cell_some hp xs a : E !! hp = Some xs -> a ∈ hp :: xs -> is_Some (cell s a).
Proof.
  intros H Ha. pose proof (ea_ring _ _ HE _ _ H) as Hr. destruct xs as [|x xs].
  - apply list_elem_of_singleton in Ha as ->. by rewrite Hr.
  - apply (chain_some _ _ _ _ _ (proj1 Hr)). done.
Qed.

(** The cells of two rings are distinct. *)
Lemma ea_cells_disj hp1 xs1 hp2 xs2 a :
  E !! hp1 = Some xs1 -> E !! hp2 = Some xs2 -> a ∈ hp1 :: xs1 -> a ∈ hp2 :: xs2 -> hp1 = hp2.
Proof.
  intros H1 H2 Ha1 Ha2. apply elem_of_cons in Ha1 as [->|Ha1]; apply elem_of_cons in Ha2 as [->|Ha2].
  - done.
  - exfalso. apply (ea_slot _ _ HE _ _ H1). by apply (ea_dom _ _ HE hp2 xs2).
  - exfalso. apply (ea_slot _ _ HE _ _ H2). by apply (ea_dom _ _ HE hp1 xs1).
  - by apply (ea_disj _ _ HE hp1 hp2 xs1 xs2 a).
Qed.

(** Only the cells and the [PENT_EA_LAST] flags matter. *)
Lemma EA_frame s' :
  rdom s' = rdom s ->
  (forall a, okcell s a -> is_Some (cell s a) -> cell s' a = cell s a) ->
  (forall x, inE E x -> flag s' x PENT_EA_LAST = flag s x PENT_EA_LAST) ->
  EA s' E.
Proof.
  intros Hd Hc Hf. split; try rewrite Hd; try apply HE.
  - intros hp xs H. apply (ring_ext s); [| |by apply (ea_ring _ _ HE)].
    + intros a Ha. apply Hc; [by apply (ea_okcell hp xs)|by apply (ea_cell_some hp xs)].
    + intros x Hx. apply Hf. by exists hp, xs.
Qed.

(** Changing one ring *)
Lemma EA_set s' hp xs xs' :
  E !! hp = Some xs -> rdom s' = rdom s -> ring s' hp xs' -> NoDup xs' ->
  (forall x, x ∈ xs' -> x ∈ rdom s /\ (x ∈ xs \/ ~ inE E x)) ->
  (forall hp2 xs2, E !! hp2 = Some xs2 -> hp2 <> hp ->
     (forall a, a ∈ hp2 :: xs2 -> cell s' a = cell s a) /\
     (forall x, x ∈ xs2 -> flag s' x PENT_EA_LAST = flag s x PENT_EA_LAST)) ->
  EA s' (<[hp := xs']> E).
Proof.
  intros Hhp Hd Hr Hnd Hx Hother.
  assert (Hcl : forall x h2 l2, x ∈ xs' -> E !! h2 = Some l2 -> x ∈ l2 -> h2 = hp).
  { intros x h2 l2 H1 H2 H3. destruct (Hx _ H1) as [_ [H4|H4]].
    - by apply (ea_disj _ _ HE h2 hp l2 xs x).
    - destruct H4. by exists h2, l2. }
  split; try rewrite Hd; [apply HE|..].
  - intros h l [[<- <-]|[Hn H]]%lookup_insert_Some; [by apply (ea_slot _ _ HE _ xs)|by apply (ea_slot _ _ HE _ l)].
  - intros h l [[<- <-]|[Hn H]]%lookup_insert_Some; [done|].
    destruct (Hother h l H ltac:(congruence)) as [H1 H2].
    apply (ring_ext s); [done|done|by apply (ea_ring _ _ HE)].
  - intros h l [[<- <-]|[Hn H]]%lookup_insert_Some; [done|by apply (ea_nodup _ _ HE h)].
  - intros h l x [[<- <-]|[Hn H]]%lookup_insert_Some Hin; [by apply Hx|by apply (ea_dom _ _ HE h l)].
  - intros h1 h2 l1 l2 x [[<- <-]|[Hn1 H1]]%lookup_insert_Some [[<- <-]|[Hn2 H2]]%lookup_insert_Some
      Hi1 Hi2; [done| | |by apply (ea_disj _ _ HE h1 h2 l1 l2 x)].
    + symmetry. by apply (Hcl x h2 l2).
    + by apply (Hcl x h1 l1).
Qed.

(** Unlinking [x]: its predecessor takes its link (or the slot is cleared)
    and, if it was the last one, its mark. *)
Lemma EA_unlink s' hp A x B :
  E !! hp = Some (A ++ x :: B) -> rdom s' = rdom s ->
  cell s' (lastd hp A) = (if decide (A = [] /\ B = []) then Some 0 else cell s x) ->
  (forall a, okcell s a -> is_Some (cell s a) -> a <> lastd hp A -> a <> x -> cell s' a = cell s a) ->
  (forall y, inE E y -> y <> x -> flag s' y PENT_EA_LAST =
     (if decide (B = [] /\ A <> [] /\ y = lastd hp A) then true else flag s y PENT_EA_LAST)) ->
  EA s' (<[hp := A ++ B]> E).
Proof.
  intros Hhp Hd Hl Hc Hf.
  pose proof (ea_nodup_hp hp _ Hhp) as Hnd. pose proof (ea_ring _ _ HE _ _ Hhp) as Hr.
  assert (Hlast : lastd hp A ∈ hp :: A ++ x :: B) by (pose proof (lastd_in A hp); set_solver).
  assert (HxA : (x ∉ hp :: A) /\ (x ∉ B)).
  { rewrite app_comm_cons in Hnd. apply list.NoDup_app in Hnd as (_ & H1 & H2).
    apply list.NoDup_cons in H2 as [H2 _]. split; [|done]. intros H. apply (H1 x H). left. }
  assert (Hcell : forall a, a ∈ hp :: A ++ B -> a <> lastd hp A -> cell s' a = cell s a).
  { intros a Ha Hn. assert (Ha' : a ∈ hp :: A ++ x :: B) by set_solver. apply Hc; [| |done|set_solver].
    - by apply (ea_okcell hp _ _ Hhp).
    - by apply (ea_cell_some hp _ _ Hhp). }
  assert (Hring : chain (cell s) hp (A ++ x :: B) hp /\ lasts s (A ++ x :: B)).
  { destruct (A ++ x :: B) eqn:El; [by destruct A|done]. }
  destruct Hring as [Hch Hls].
  assert (HinE : forall y, y ∈ A ++ B -> inE E y) by (intros y Hy; exists hp, (A ++ x :: B); set_solver).
  apply (EA_set s' hp (A ++ x :: B)); [done|done| | | |].
  - destruct (decide (A = [] /\ B = [])) as [[-> ->]|Hne]; [done|].
    assert (Hgo : chain (cell s') hp (A ++ B) hp /\ lasts s' (A ++ B)).
    { split; [by apply (chain_remove (cell s) _ A x B)|].
      apply lasts_app in Hls as [HA HB]. destruct B as [|b B].
      - rewrite app_nil_r in *. destruct (exists_last (l := A)) as (A' & p & ->); [naive_solver|].
        rewrite lastd_snoc in *. apply lasts_app. cbn [lasts].
        assert (Hp : forall y, y ∈ A' -> y <> p).
        { intros y Hy ->. apply list.NoDup_cons in Hnd as [_ Hnd]. rewrite <- app_assoc in Hnd.
          apply list.NoDup_app in Hnd as (_ & Hnd & _). apply (Hnd p Hy). left. }
        split; [|split; [|done]].
        + intros y Hy. rewrite Hf by (try apply HinE; set_solver).
          rewrite decide_False by naive_solver. apply HA. set_solver.
        + rewrite Hf by (try apply HinE; set_solver). rewrite decide_True; [done|].
          split; [done|]. split; [by destruct A'|done].
      - apply lasts_app. split.
        + intros y Hy. rewrite Hf by (try apply HinE; set_solver).
          rewrite decide_False by naive_solver. by apply HA.
        + apply (lasts_ext s); [|apply HB].
          intros y Hy. rewrite Hf by (try apply HinE; set_solver). by rewrite decide_False by naive_solver. }
    unfold ring. destruct (A ++ B) eqn:El; [|done].
    exfalso. apply Hne. by apply app_eq_nil in El.
  - apply list.NoDup_cons in Hnd as [_ Hnd]. apply list.NoDup_app in Hnd as (H1 & H2 & H3).
    apply list.NoDup_cons in H3 as [_ H3]. apply list.NoDup_app. split; [done|]. split; [|done].
    intros y Hy Hy'. apply (H2 y Hy). by right.
  - intros y Hy. split; [|left; set_solver]. apply (ea_dom _ _ HE hp _ _ Hhp). set_solver.
  - intros h2 l2 H2 Hn. split.
    + intros a Ha. apply Hc; [by apply (ea_okcell h2 l2)|by apply (ea_cell_some h2 l2)| |];
        intros ->; apply Hn; symmetry.
      * by apply (ea_cells_disj hp _ h2 l2 (lastd hp A) Hhp).
      * apply (ea_cells_disj hp _ h2 l2 x Hhp); [done|set_solver|done].
    + intros y Hy. rewrite Hf; [|by exists h2, l2|].
      * rewrite decide_False; [done|]. intros (_ & _ & ->). apply Hn. symmetry.
        apply (ea_cells_disj hp _ h2 l2 (lastd hp A) Hhp); [done|done|by right].
      * intros ->. apply Hn. symmetry.
        apply (ea_disj _ _ HE hp h2 _ _ x Hhp H2); [set_solver|done].
Qed.
End EaLemmas.

(** ** The lv rings *)

(** [L] maps the head of each user space page to the other records mapping
    that page. *)
Record LV (s : kvars) (L : gmap Z (list Z)) : Prop := {
  lv_chain h ys : L !! h = Some ys -> chain (lvn s) h ys h;
  lv_nodup h ys : L !! h = Some ys -> NoDup (h :: ys);
  lv_head h ys : L !! h = Some ys -> flag s h PENT_LV_HEAD = true;
  lv_tail h ys y : L !! h = Some ys -> y ∈ ys -> flag s y PENT_LV_HEAD = false;
  lv_disj h1 h2 ys1 ys2 x :
    L !! h1 = Some ys1 -> L !! h2 = Some ys2 -> x ∈ h1 :: ys1 -> x ∈ h2 :: ys2 -> h1 = h2
}.

Definition inL (L : gmap Z (list Z)) (x : Z) : Prop := exists h ys, L !! h = Some ys /\ x ∈ h :: ys.

Lemma lvn_rdom s a v : lvn s a = Some v -> a ∈ rdom s.
Proof. unfold lvn. intros H. apply rdom_lookup. destruct (recs s !! a); [by eexists|done]. Qed.

Section LvLemmas.
Context {s : kvars} {L : gmap Z (list Z)} (HL : LV s L).

Lemma lv_rdom h ys x : L !! h = Some ys -> x ∈ h :: ys -> x ∈ rdom s.
Proof.
  intros H Hx. destruct (chain_some _ _ _ _ _ (lv_chain _ _ HL _ _ H) Hx) as [v Hv].
  by apply lvn_rdom in Hv.
Qed.

Lemma LV_frame s' :
  (forall x, inL L x -> lvn s' x = lvn s x) ->
  (forall x, inL L x -> flag s' x PENT_LV_HEAD = flag s x PENT_LV_HEAD) ->
  LV s' L.
Proof.
  intros Hn Hf. split; try apply HL.
  - intros h ys H. apply (chain_ext (lvn s)); [|by apply (lv_chain _ _ HL)].
    intros a Ha. apply Hn. by exists h, ys.
  - intros h ys H. rewrite Hf; [by apply (lv_head _ _ HL _ ys)|]. exists h, ys. split; [done|left].
  - intros h ys y H Hy. rewrite Hf; [by apply (lv_tail _ _ HL h ys)|]. exists h, ys. split; [done|by right].
Qed.

(** Changing one ring *)
Lemma LV_set s' h ys ys' :
  L !! h = Some ys -> chain (lvn s') h ys' h -> NoDup (h :: ys') ->
  flag s' h PENT_LV_HEAD = true -> (forall y, y ∈ ys' -> flag s' y PENT_LV_HEAD = false) ->
  (forall y, y ∈ ys' -> y ∈ ys \/ ~ inL L y) ->
  (forall h2 l2, L !! h2 = Some l2 -> h2 <> h -> forall a, a ∈ h2 :: l2 ->
     lvn s' a = lvn s a /\ flag s' a PENT_LV_HEAD = flag s a PENT_LV_HEAD) ->
  LV s' (<[h := ys']> L).
Proof.
  intros Hh Hc Hnd Hhd Htl Hx Hother.
  assert (Hcl : forall x h2 l2, x ∈ h :: ys' -> L !! h2 = Some l2 -> x ∈ h2 :: l2 -> h2 = h).
  { intros x h2 l2 H1 H2 H3. apply elem_of_cons in H1 as [->|H1].
    - apply (lv_disj _ _ HL h2 h l2 ys h); [done|done|done|left].
    - destruct (Hx _ H1) as [H4|H4].
      + apply (lv_disj _ _ HL h2 h l2 ys x); [done|done|done|by right].
      + destruct H4. by exists h2, l2. }
  split.
  - intros h2 l [[<- <-]|[Hn H]]%lookup_insert_Some; [done|].
    apply (chain_ext (lvn s)); [|by apply (lv_chain _ _ HL)].
    intros a Ha. by apply (Hother h2 l H).
  - intros h2 l [[<- <-]|[Hn H]]%lookup_insert_Some; [done|by apply (lv_nodup _ _ HL)].
  - intros h2 l [[<- <-]|[Hn H]]%lookup_insert_Some; [done|].
    rewrite (proj2 (Hother h2 l H ltac:(congruence) h2 ltac:(left))). by apply (lv_head _ _ HL _ l).
  - intros h2 l y [[<- <-]|[Hn H]]%lookup_insert_Some Hy; [by apply Htl|].
    rewrite (proj2 (Hother h2 l H ltac:(congruence) y ltac:(by right))). by apply (lv_tail _ _ HL h2 l).
  - intros h1 h2 l1 l2 x [[<- <-]|[Hn1 H1]]%lookup_insert_Some [[<- <-]|[Hn2 H2]]%lookup_insert_Some
      Hi1 Hi2; [done| | |by apply (lv_disj _ _ HL h1 h2 l1 l2 x)].
    + symmetry. by apply (Hcl x h2 l2).
    + by apply (Hcl x h1 l1).
Qed.

(** Taking [x] out of its ring: its predecessor gets its link. *)
Lemma LV_remove s' h A x B :
  L !! h = Some (A ++ x :: B) -> lvn s' (lastd h A) = lvn s x ->
  (forall a, inL L a -> a <> lastd h A -> a <> x -> lvn s' a = lvn s a) ->
  (forall a, inL L a -> a <> x -> flag s' a PENT_LV_HEAD = flag s a PENT_LV_HEAD) ->
  LV s' (<[h := A ++ B]> L).
Proof.
  intros Hh Hl Hn Hf. pose proof (lv_nodup _ _ HL _ _ Hh) as Hnd.
  assert (Hxn : (x ∉ h :: A) /\ (x ∉ B)).
  { rewrite app_comm_cons in Hnd. apply list.NoDup_app in Hnd as (_ & H1 & H2).
    apply list.NoDup_cons in H2 as [H2 _]. split; [|done]. intros H. apply (H1 x H). left. }
  assert (Hin : forall a, a ∈ h :: A ++ B -> inL L a /\ a <> x).
  { intros a Ha. split; [|set_solver]. exists h, (A ++ x :: B). set_solver. }
  apply (LV_set s' h (A ++ x :: B)); [done| | | | | |].
  - apply (chain_remove (lvn s) _ A x B); [done|done| |by apply (lv_chain _ _ HL)].
    intros a Ha Hne. destruct (Hin a Ha). by apply Hn.
  - rewrite app_comm_cons in Hnd |- *. apply list.NoDup_app in Hnd as (H1 & H2 & H3).
    apply list.NoDup_cons in H3 as [_ H3]. apply list.NoDup_app. split; [done|]. split; [|done].
    intros y Hy Hy'. apply (H2 y Hy). by right.
  - destruct (Hin h ltac:(left)) as [H1 H2]. rewrite Hf by done. by apply (lv_head _ _ HL _ _ Hh).
  - intros y Hy. destruct (Hin y ltac:(by right)) as [H1 H2]. rewrite Hf by done.
    apply (lv_tail _ _ HL _ _ y Hh). set_solver.
  - intros y Hy. left. set_solver.
  - intros h2 l2 H2 Hne a Ha. assert (a <> x).
    { intros ->. apply Hne. apply (lv_disj _ _ HL h2 h l2 _ x H2 Hh); [done|set_solver]. }
    split; [|apply Hf; [by exists h2, l2|done]]. apply Hn; [by exists h2, l2| |done].
    intros ->. apply Hne. apply (lv_disj _ _ HL h2 h l2 _ _ H2 Hh Ha).
    pose proof (lastd_in A h). set_solver.
Qed.

(** Inserting [x] after the head *)
Lemma LV_insert s' h ys x :
  L !! h = Some ys -> ~ inL L x -> lvn s' h = Some x -> lvn s' x = lvn s h ->
  (forall a, inL L a -> a <> h -> lvn s' a = lvn s a) ->
  flag s' x PENT_LV_HEAD = false ->
  (forall a, inL L a -> flag s' a PENT_LV_HEAD = flag s a PENT_LV_HEAD) ->
  LV s' (<[h := x :: ys]> L).
Proof.
  intros Hh Hx H1 H2 Hn Hfx Hf. pose proof (lv_nodup _ _ HL _ _ Hh) as Hnd.
  assert (Hxh : x ∉ h :: ys) by (intros H; apply Hx; by exists h, ys).
  assert (Hhy : h ∉ ys) by (by apply list.NoDup_cons in Hnd as [? _]).
  assert (Hin : forall a, a ∈ h :: ys -> inL L a) by (intros a Ha; by exists h, ys).
  apply (LV_set s' h ys); [done| | | | | |].
  - apply (chain_insert (lvn s)); [done|done|done|done| |by apply (lv_chain _ _ HL)].
    intros a Ha. apply Hn; [apply Hin; by right|]. by intros ->.
  - apply list.NoDup_cons in Hnd as [_ Hnd]. apply list.NoDup_cons. split; [set_solver|].
    apply list.NoDup_cons. split; [set_solver|done].
  - rewrite Hf by (apply Hin; left). by apply (lv_head _ _ HL _ ys).
  - intros y Hy. apply elem_of_cons in Hy as [->|Hy]; [done|].
    rewrite Hf by (apply Hin; by right). by apply (lv_tail _ _ HL h ys).
  - intros y Hy. apply elem_of_cons in Hy as [->|Hy]; [by right|by left].
  - intros h2 l2 H3 Hne a Ha. split; [|apply Hf; by exists h2, l2].
    apply Hn; [by exists h2, l2|]. intros ->. apply Hne.
    apply (lv_disj _ _ HL h2 h l2 ys h); [done|done|done|left].
Qed.
End LvLemmas.

(** ** The free list *)

Fixpoint flist (s : kvars) (p : Z) (F : list Z) : Prop :=
  match F with
  | [] => p = 0
  | x :: F' => p = x /\ x ∈ rdom s /\ exists n, lvn s x = Some n /\ flist s n F'
  end.
Definition FREE (s : kvars) (F : list Z) : Prop :=
  NoDup F /\ exists p, fpents s = Some p /\ flist s p F.

Lemma flist_ext s s' F : forall p,
  rdom s' = rdom s -> (forall x, x ∈ F -> lvn s' x = lvn s x) -> flist s p F -> flist s' p F.
Proof.
  induction F as [|x F IH]; intros p Hd Hn; cbn; [done|].
  intros (-> & H1 & n & H2 & H3). rewrite Hd, Hn by left. split; [done|]. split; [done|].
  exists n. split; [done|]. apply IH; [done| |done]. intros y Hy. apply Hn. by right.
Qed.

Lemma FREE_frame s s' F :
  rdom s' = rdom s -> fpents s' = fpents s -> (forall x, x ∈ F -> lvn s' x = lvn s x) ->
  FREE s F -> FREE s' F.
Proof.
  intros Hd Hp Hn [Hnd (p & H1 & H2)]. split; [done|]. exists p. split; [congruence|].
  by apply (flist_ext s).
Qed.

Lemma FREE_push s s' F x :
  rdom s' = rdom s -> x ∈ rdom s -> x ∉ F -> fpents s' = Some x -> lvn s' x = fpents s ->
  (forall y, y ∈ F -> lvn s' y = lvn s y) -> FREE s F -> FREE s' (x :: F).
Proof.
  intros Hd Hx Hnin Hp Hl Hn [Hnd (p & H1 & H2)]. split; [by apply list.NoDup_cons|].
  exists x. split; [done|]. cbn. split; [done|]. split; [by rewrite Hd|].
  exists p. split; [congruence|]. by apply (flist_ext s).
Qed.

(** ** The whole table *)

Record mt (s : kvars) (E L : gmap Z (list Z)) (F : list Z) : Prop := {
  mt_ea : EA s E;
  mt_lv : LV s L;
  mt_free : FREE s F;
  mt_unlinked x : inE E x -> ~ inL L x -> lvn s x = Some 0 /\ flag s x PENT_LV_HEAD = false;
  mt_head h ys : L !! h = Some ys -> (flag s h PENT_UNUSED = false <-> inE E h);
  mt_tail h ys y : L !! h = Some ys -> y ∈ ys -> inE E y;
  mt_fresh x : x ∈ F -> ~ inE E x /\ ~ inL L x
}.

End Rings.
