(* ===== verification/Flush.v ===== *)
(** * Flushing the PTE tables ([src/kmod/mtable.c])

    [flush_vsid_ea_] removes the records of an effective address and
    [flush_lvptr_] those of a user space page; both zero exactly the PTEs of
    the records they remove and keep the rings well formed. *)

From S2P Require Import Prelude Chains Skiplist Kvars Context Mtable Rings.

Module Flush.
Import Kvars Mtable Chains Rings.

(** ** Removing records from a map of rings *)

Definition minus (M : list Z) (E : gmap Z (list Z)) : gmap Z (list Z) :=
  (fun xs => filter (fun x => x ∉ M) xs) <$> E.

Lemma minus_lookup M E hp : minus M E !! hp = filter (fun x => x ∉ M) <$> E !! hp.
Proof. apply lookup_fmap. Qed.

Lemma minus_some M E hp xs' :
  minus M E !! hp = Some xs' <-> exists xs, E !! hp = Some xs /\ xs' = filter (fun x => x ∉ M) xs.
Proof. rewrite minus_lookup. destruct (E !! hp); cbn; naive_solver. Qed.

Lemma inE_minus M E x : inE (minus M E) x <-> inE E x /\ x ∉ M.
Proof.
  unfold inE. split.
  - intros (hp & xs & (l & H & ->)%minus_some & [Hn Hin]%list_elem_of_filter). eauto.
  - intros [(hp & xs & H & Hin) Hn]. exists hp, (filter (fun x => x ∉ M) xs).
    rewrite minus_lookup, H. split; [done|]. by apply list_elem_of_filter.
Qed.

Lemma filter_all {A} (P : A -> Prop) `{forall x, Decision (P x)} (l : list A) :
  (forall x, x ∈ l -> P x) -> filter P l = l.
Proof.
  induction l as [|a l IH]; intros Hl; [done|].
  rewrite filter_cons_True by (apply Hl; left). f_equal. apply IH. intros x Hx. apply Hl. by right.
Qed.

Lemma filter_none {A} (P : A -> Prop) `{forall x, Decision (P x)} (l : list A) :
  (forall x, x ∈ l -> ~ P x) -> filter P l = [].
Proof.
  induction l as [|a l IH]; intros Hl; [done|].
  rewrite filter_cons_False by (apply Hl; left). apply IH. intros x Hx. apply Hl. by right.
Qed.

Lemma filter_ext_in {A} (P Q : A -> Prop) `{forall x, Decision (P x), forall x, Decision (Q x)}
    (l : list A) :
  (forall x, x ∈ l -> P x <-> Q x) -> filter P l = filter Q l.
Proof.
  induction l as [|a l IH]; intros Hl; [done|].
  assert (IHl : filter P l = filter Q l) by (apply IH; intros x Hx; apply Hl; by right).
  destruct (decide (P a)) as [Hp|Hp].
  - rewrite !filter_cons_True, IHl; [done| |done]. apply Hl; [left|done].
  - rewrite !filter_cons_False, IHl; [done| |done]. intros Hq. apply Hp, Hl; [left|done].
Qed.

Lemma filter_one (A : list Z) x B :
  NoDup (A ++ x :: B) -> filter (fun y => y ∉ [x]) (A ++ x :: B) = A ++ B.
Proof.
  intros (_ & H1 & [H2 _]%list.NoDup_cons)%list.NoDup_app.
  rewrite list.filter_app, filter_cons_False by set_solver.
  rewrite !filter_all; [done| |].
  - intros y Hy ->%list_elem_of_singleton. done.
  - intros y Hy ->%list_elem_of_singleton. apply (H1 x Hy). left.
Qed.

Lemma minus_notin M E : (forall x, x ∈ M -> ~ inE E x) -> minus M E = E.
Proof.
  intros H. apply map_eq. intros hp. rewrite minus_lookup. destruct (E !! hp) as [xs|] eqn:Ex; [|done].
  cbn. f_equal. apply filter_all. intros x Hx HM. apply (H x HM). by exists hp, xs.
Qed.

Lemma minus_one (E : gmap Z (list Z)) hp A x B :
  E !! hp = Some (A ++ x :: B) -> NoDup (A ++ x :: B) ->
  (forall h xs, E !! h = Some xs -> x ∈ xs -> h = hp) ->
  minus [x] E = <[hp := A ++ B]> E.
Proof.
  intros H Hnd Hu. apply map_eq. intros h. rewrite minus_lookup.
  destruct (decide (h = hp)) as [->|Hn].
  - rewrite H, lookup_insert_eq. cbn. by rewrite filter_one.
  - rewrite lookup_insert_ne by done. destruct (E !! h) as [xs|] eqn:Ex; [|done]. cbn. f_equal.
    apply filter_all. intros y Hy ->%list_elem_of_singleton. apply Hn. by apply (Hu h xs).
Qed.

Lemma minus_minus M1 M2 E : minus M2 (minus M1 E) = minus (M1 ++ M2) E.
Proof.
  apply map_eq. intros h. rewrite !minus_lookup. destruct (E !! h); [|done]. cbn. f_equal.
  rewrite list_filter_filter. apply list_filter_iff. intros x. set_solver.
Qed.

Lemma minus_nil E : minus [] E = E.
Proof. apply minus_notin. intros x Hx. by apply not_elem_of_nil in Hx. Qed.

Lemma minus_ea s E hp A x B :
  EA s E -> E !! hp = Some (A ++ x :: B) -> minus [x] E = <[hp := A ++ B]> E.
Proof.
  intros HE H. apply minus_one; [done|by apply (ea_nodup _ _ HE hp)|].
  intros h xs H1 H2. apply (ea_disj _ _ HE h hp xs _ x H1 H H2). set_solver.
Qed.

Lemma minus_lv s L h A x B :
  LV s L -> L !! h = Some (A ++ x :: B) -> minus [x] L = <[h := A ++ B]> L.
Proof.
  intros HL H. apply minus_one; [done| |].
  - pose proof (lv_nodup _ _ HL _ _ H) as Hnd. by apply list.NoDup_cons in Hnd as [_ ?].
  - intros h2 xs H1 H2. apply (lv_disj _ _ HL h2 h xs _ x H1 H); [by right|set_solver].
Qed.

(** ** The walks along a ring *)

Lemma recs_lvn s x v : lvn s x = Some v -> exists r, recs s !! x = Some r /\ lv_next r = v.
Proof. unfold lvn. destruct (recs s !! x) as [r|]; [|done]. intros [= <-]. by exists r. Qed.
Lemma recs_cell s x v :
  x ∈ rdom s -> cell s x = Some v -> exists r, recs s !! x = Some r /\ ea_next r = v.
Proof. intros [r H]%rdom_lookup. unfold cell. rewrite H. intros [= <-]. by exists r. Qed.
Lemma recs_flag s x r m : recs s !! x = Some r -> flag s x m = tst (pent r) m.
Proof. intros H. unfold flag, pe. by rewrite H. Qed.

Lemma find_lv_prev_ok s pr xs : forall fuel x,
  chain (lvn s) x xs pr -> pr ∉ xs -> (length xs < fuel)%nat ->
  find_lv_prev fuel x pr s = Some (lastd x xs, s).
Proof.
  induction xs as [|y xs IH]; intros [|fuel] x Hc Hn Hf; cbn in Hf; try lia; cbn in Hc;
    cbn [find_lv_prev]; kred.
  - apply recs_lvn in Hc as (r & Hr & Hv). rewrite (rec_get_eq _ _ _ Hr). rewrite Hv, Z.eqb_refl. done.
  - destruct Hc as [H1 H2]. apply recs_lvn in H1 as (r & Hr & Hv). rewrite (rec_get_eq _ _ _ Hr), Hv.
    rewrite (proj2 (Z.eqb_neq y pr)) by set_solver. apply IH; [done|set_solver|lia].
Qed.

Lemma find_ea_prev_ok s pr xs : forall fuel x,
  chain (cell s) x xs pr -> pr ∉ xs -> (length xs < fuel)%nat ->
  find_ea_prev fuel x pr s = Some (lastd x xs, s).
Proof.
  induction xs as [|y xs IH]; intros [|fuel] x Hc Hn Hf; cbn in Hf; try lia; cbn in Hc;
    cbn [find_ea_prev]; kred.
  - rewrite (ld_cell_eq _ _ _ Hc), Z.eqb_refl. done.
  - destruct Hc as [H1 H2]. rewrite (ld_cell_eq _ _ _ H1).
    rewrite (proj2 (Z.eqb_neq y pr)) by set_solver. apply IH; [done|set_solver|lia].
Qed.

Lemma find_ea_last_ok s e xs : forall fuel x,
  chain (cell s) x xs e -> lasts s (x :: xs) -> (forall y, y ∈ x :: xs -> y ∈ rdom s) ->
  (length xs < fuel)%nat -> find_ea_last fuel x s = Some (lastd x xs, s).
Proof.
  induction xs as [|y xs IH]; intros [|fuel] x Hc [Hl Hls] Hd Hf; cbn in Hf; try lia; cbn in Hc;
    cbn [find_ea_last]; kred.
  - apply recs_cell in Hc as (r & Hr & Hv); [|apply Hd; left].
    rewrite (rec_get_eq _ _ _ Hr), <- (recs_flag _ _ _ _ Hr), Hl. done.
  - destruct Hc as [H1 H2]. apply recs_cell in H1 as (r & Hr & Hv); [|apply Hd; left].
    rewrite (rec_get_eq _ _ _ Hr), <- (recs_flag _ _ _ _ Hr), Hl, Hv.
    apply IH; [done|done| |lia]. intros z Hz. apply Hd. by right.
Qed.

(** Fuel for a walk over records *)
Lemma ring_fuel_ok s xs :
  NoDup xs -> (forall x, x ∈ xs -> x ∈ rdom s) -> (S (length xs) < ring_fuel s)%nat.
Proof.
  intros Hd Hx. pose proof (chain_bound (recs s) xs Hd) as H. unfold ring_fuel.
  assert (length xs <= size (recs s))%nat; [|lia]. apply H. intros x Hin.
  by apply elem_of_dom, Hx.
Qed.

(** ** What a flush leaves unchanged *)

(** The record's word without the position mark *)
Definition pcore (s : kvars) (x : Z) : option Z := (fun p => p .& not32 PENT_EA_LAST) <$> pe s x.
Definition pbits (s : kvars) (x m : Z) : Z := from_option (fun p => p .& m) 0 (pe s x).
(** The address of the PTE of a record *)
Definition pte_addr (s : kvars) (x : Z) : Z :=
  h_base (ptehash s) + 8 * pbits s x PENT_INDEX_MASK.

(** From [s] to [s'] the PTEs of the records [M] were zeroed. *)
Record flushed (s s' : kvars) (M : list Z) : Prop := {
  fl_rdom : rdom s' = rdom s;
  fl_core : core s' = core s;
  fl_words a : words s' !! a = if decide (a ∈ map (pte_addr s) M) then Some 0 else words s !! a;
  fl_pcore y : y ∉ M -> pcore s' y = pcore s y
}.

Lemma pcore_bits s s' x m :
  m .& not32 PENT_EA_LAST = m -> pcore s' x = pcore s x -> pbits s' x m = pbits s x m.
Proof.
  intros Hm. unfold pcore, pbits. destruct (pe s' x) as [p'|], (pe s x) as [p|]; cbn; try done.
  intros [= H]. rewrite <- Hm, (Z.land_comm m), !Z.land_assoc. by rewrite H.
Qed.

Lemma flag_bits s x m : flag s x m = negb (pbits s x m =? 0).
Proof. unfold flag, pbits. by destruct (pe s x). Qed.

Lemma pcore_flag s s' x m :
  m .& not32 PENT_EA_LAST = m -> pcore s' x = pcore s x -> flag s' x m = flag s x m.
Proof. intros H1 H2. rewrite !flag_bits. by rewrite (pcore_bits s s' x m). Qed.

Lemma pcore_pe s s' x : pe s' x = pe s x -> pcore s' x = pcore s x.
Proof. unfold pcore. by intros ->. Qed.

Lemma pcore_set_last s a x : pcore (wpe a (fun p => p .| PENT_EA_LAST) s) x = pcore s x.
Proof.
  unfold pcore. rewrite pe_wpe. case_decide; [|done]. destruct (pe s x) as [p|]; [|done]. cbn. f_equal.
  rewrite Z.land_lor_distr_l. replace (PENT_EA_LAST .& not32 PENT_EA_LAST) with 0 by reflexivity.
  apply Z.lor_0_r.
Qed.

Lemma flushed_pte s s' M x : flushed s s' M -> x ∉ M -> pte_addr s' x = pte_addr s x.
Proof.
  intros [H1 H2 H3 H4] Hx. unfold pte_addr. rewrite (core_ptehash _ _ H2).
  by rewrite (pcore_bits s s') by (try apply H4; done).
Qed.

Lemma flushed_flag s s' M x m :
  flushed s s' M -> x ∉ M -> m .& not32 PENT_EA_LAST = m -> flag s' x m = flag s x m.
Proof. intros [H1 H2 H3 H4] Hx Hm. apply pcore_flag; auto. Qed.

Lemma flushed_refl s : flushed s s [].
Proof. split; done. Qed.

Lemma flushed_trans s s1 s2 M1 M2 :
  flushed s s1 M1 -> flushed s1 s2 M2 -> (forall x, x ∈ M2 -> x ∉ M1) -> flushed s s2 (M1 ++ M2).
Proof.
  intros H1 H2 Hd.
  destruct H1 as [A1 A2 A3 A4], H2 as [B1 B2 B3 B4]. split; [congruence|congruence| |].
  - intros a. rewrite B3, A3, map_app.
    assert (Hm : map (pte_addr s1) M2 = map (pte_addr s) M2).
    { apply map_ext_in. intros x Hx. apply flushed_pte with M1; [by split|].
      apply Hd. by apply list_elem_of_In. }
    rewrite Hm. repeat case_decide; rewrite elem_of_app in *; try done; tauto.
  - intros y Hy. rewrite elem_of_app in Hy. rewrite B4, A4 by tauto. done.
Qed.

(** ** Releasing a record *)

(** From [s] to [s'] only lv links, and only those of the records [X], and
    the free list changed. *)
Record relinked (s s' : kvars) (X : Z -> Prop) : Prop := {
  rl_rdom : rdom s' = rdom s;
  rl_core : core s' = core s;
  rl_words : words s' = words s;
  rl_tlbies : tlbies s' = tlbies s;
  rl_cell a : cell s' a = cell s a;
  rl_pe a : pe s' a = pe s a;
  rl_lvn a : ~ X a -> lvn s' a = lvn s a
}.

Lemma lv_relinked_trans s s1 s2 X : relinked s s1 X -> relinked s1 s2 X -> relinked s s2 X.
Proof.
  intros H1 H2. split; [by rewrite (rl_rdom _ _ _ H2), (rl_rdom _ _ _ H1)
    |by rewrite (rl_core _ _ _ H2), (rl_core _ _ _ H1)
    |by rewrite (rl_words _ _ _ H2), (rl_words _ _ _ H1)
    |by rewrite (rl_tlbies _ _ _ H2), (rl_tlbies _ _ _ H1)|..]; intros a.
  - by rewrite (rl_cell _ _ _ H2), (rl_cell _ _ _ H1).
  - by rewrite (rl_pe _ _ _ H2), (rl_pe _ _ _ H1).
  - intros Ha. by rewrite (rl_lvn _ _ _ H2), (rl_lvn _ _ _ H1).
Qed.

Lemma lv_relinked_wlv s x v (X : Z -> Prop) : x ∈ rdom s -> X x -> relinked s (wlv x v s) X.
Proof.
  intros Hx HX. split; try done; [apply rdom_wrec|apply cell_wlv|apply pe_wlv|].
  intros a Ha. rewrite lvn_wlv, decide_False; [done|by intros ->|done].
Qed.

Lemma lv_relinked_wfp s v X : relinked s (wfp v s) X.
Proof. split; try done. apply core_wfp. Qed.

Lemma lv_relinked_flag s s' X a m : relinked s s' X -> flag s' a m = flag s a m.
Proof. intros H. unfold flag. by rewrite (rl_pe _ _ _ H). Qed.

Lemma fpents_vinfo s v : fpents s = Some v -> is_Some (vinfo (mmu s)).
Proof. unfold fpents. destruct (vinfo (mmu s)); [by eexists|done]. Qed.

(** "...and put it on the free list" *)
Lemma push_free_ok s L F x :
  LV s L -> ~ inL L x -> FREE s F -> x ∈ rdom s -> x ∉ F ->
  exists s', (fp ← vi_get free_pents; rec_mod x (set_lv_next fp);; vi_mod (set_free_pents x)) s
      = Some (tt, s') /\ LV s' L /\ FREE s' (x :: F) /\ relinked s s' (fun a => a = x).
Proof.
  intros HL Hnin HF Hx HxF. pose proof HF as [_ (p & Hp & _)].
  rewrite kbind, (vi_get_fp _ _ Hp), kbind, rec_mod_eq by (by apply elem_of_dom).
  rewrite vi_mod_fp by (by apply (fpents_vinfo _ p)). eexists. split; [done|].
  assert (Hr : relinked s (wfp x (wlv x p s)) (fun a => a = x)).
  { eapply lv_relinked_trans; [by apply lv_relinked_wlv|apply lv_relinked_wfp]. }
  split; [|split; [|done]].
  - apply (LV_frame HL).
    + intros a Ha. apply (rl_lvn _ _ _ Hr). by intros ->.
    + intros a _. apply (lv_relinked_flag _ _ _ _ _ Hr).
  - apply (FREE_push s); [apply Hr|done|done| | | |done].
    + apply fpents_wfp. change (fpents (wrec x (set_lv_next p) s)) with (fpents s). by rewrite Hp.
    + rewrite Hp. etrans; [by apply lvn_wlv|]. by rewrite decide_True.
    + intros y Hy. apply (rl_lvn _ _ _ Hr). by intros ->.
Qed.

(** "unlink it from lv ring" *)
Lemma unlink_lv_ok s L h A x B :
  LV s L -> L !! h = Some (A ++ x :: B) -> 0 ∉ rdom s ->
  exists r s', recs s !! x = Some r /\ lv_next r <> 0 /\
    (fuel ← kget ring_fuel; lvp ← find_lv_prev fuel (lv_next r) x;
     rec_mod lvp (set_lv_next (lv_next r))) s = Some (tt, s') /\
    LV s' (minus [x] L) /\ relinked s s' (fun a => a = lastd h A) /\ fpents s' = fpents s.
Proof.
  intros HL Hh Hnull. pose proof (lv_chain _ _ HL _ _ Hh) as Hc. pose proof (lv_nodup _ _ HL _ _ Hh) as Hnd.
  assert (Hin : forall a, a ∈ h :: A ++ x :: B -> a ∈ rdom s) by (intros a; by apply (lv_rdom HL)).
  assert (Hperm : h :: A ++ x :: B ≡ₚ x :: (B ++ h :: A)) by solve_Permutation.
  assert (Hx : x ∈ rdom s) by (apply Hin; set_solver).
  apply cycle_rotate in Hc. pose proof Hx as [r Hr]%rdom_lookup.
  rewrite Hperm in Hnd. apply list.NoDup_cons in Hnd as [HxC HndC].
  assert (HinC : forall a, a ∈ B ++ h :: A -> a ∈ rdom s) by (intros a Ha; apply Hin; rewrite Hperm; by right).
  assert (Hlst : lastd h A = lastd x (B ++ h :: A)) by (by rewrite lastd_app).
  destruct (B ++ h :: A) as [|y C] eqn:El; [by destruct B|]. cbn [chain lastd] in *.
  destruct Hc as [Hxy Hyc].
  assert (Hy : lv_next r = y) by (unfold lvn in Hxy; rewrite Hr in Hxy; by injection Hxy).
  exists r. assert (Hl : lastd h A ∈ rdom s) by (rewrite Hlst; apply HinC, lastd_in).
  rewrite kbind, kget_eq, kbind, Hy, (find_lv_prev_ok _ _ C), rec_mod_eq.
  - eexists. split; [done|]. split; [intros ->; apply Hnull, HinC; left|]. split; [done|].
    rewrite <- Hlst. assert (Hrl : relinked s (wlv (lastd h A) y s) (fun a => a = lastd h A)).
    { by apply lv_relinked_wlv. }
    split; [|by split]. rewrite (minus_lv s L h A x B) by done.
    apply (LV_remove HL _ h A x B Hh).
    + etrans; [by apply lvn_wlv|]. by rewrite decide_True, Hxy.
    + intros a _ Hn _. by apply (rl_lvn _ _ _ Hrl).
    + intros a _ _. apply (lv_relinked_flag _ _ _ _ _ Hrl).
  - rewrite <- Hlst. by apply elem_of_dom.
  - done.
  - set_solver.
  - apply list.NoDup_cons in HndC as [_ HndC]. apply Nat.lt_succ_l, ring_fuel_ok; [done|].
    intros a Ha. apply HinC. by right.
Qed.

Lemma lv_relinked_weaken s s' (X Y : Z -> Prop) :
  relinked s s' X -> (forall a, X a -> Y a) -> relinked s s' Y.
Proof. intros H Hs. split; try apply H. intros a Ha. apply (rl_lvn _ _ _ H). auto. Qed.

Lemma release_pent_ok s L F x :
  LV s L -> FREE s F -> 0 ∉ rdom s -> x ∈ rdom s -> x ∉ F -> (forall y, y ∈ F -> ~ inL L y) ->
  (~ inL L x /\ lvn s x = Some 0) \/ (exists h A B, L !! h = Some (A ++ x :: B)) ->
  exists s', release_pent x s = Some (tt, s') /\ LV s' (minus [x] L) /\ FREE s' (x :: F) /\
    relinked s s' (fun a => a = x \/ inL L a).
Proof.
  intros HL HF Hnull Hx HxF HFL Hin. unfold release_pent.
  assert (Hgo : forall s1, LV s1 (minus [x] L) -> ~ inL (minus [x] L) x ->
    relinked s s1 (fun a => a = x \/ inL L a) -> (forall a, a ∈ F -> lvn s1 a = lvn s a) ->
    fpents s1 = fpents s -> exists s',
      (fp ← vi_get free_pents; rec_mod x (set_lv_next fp);; vi_mod (set_free_pents x)) s1
        = Some (tt, s') /\ LV s' (minus [x] L) /\ FREE s' (x :: F) /\
      relinked s s' (fun a => a = x \/ inL L a)).
  { intros s1 H1 H2 H3 H4 H5. pose proof (rl_rdom _ _ _ H3) as H6.
    destruct (push_free_ok s1 (minus [x] L) F x) as (s' & E1 & E2 & E3 & E4); try done.
    - by apply (FREE_frame s).
    - by rewrite H6.
    - exists s'. split; [done|]. split; [done|]. split; [done|].
      eapply lv_relinked_trans; [done|]. eapply lv_relinked_weaken; [done|]. intros a ->. by left. }
  destruct Hin as [[Hnin H0]|(h & A & B & Hh)].
  - apply recs_lvn in H0 as (r & Hr & Hr0). rewrite kbind, (rec_get_eq _ _ _ Hr), Hr0, kbind, kwhen_false.
    apply Hgo; try done.
    + rewrite minus_notin; [done|]. intros y Hyx%list_elem_of_singleton (h & ys & Hh & Hy). subst y.
      apply Hnin. exists h, ys. split; [done|by right].
    + intros (h & ys & (l & Hh & ->)%minus_some & Hy). apply Hnin. exists h, l. split; [done|].
      apply elem_of_cons in Hy as [->|[_ Hy]%list_elem_of_filter]; [left|by right].
  - pose proof (unlink_lv_ok s L h A x B HL Hh Hnull) as (r & s1 & Hr & Hr0 & E1 & E2 & E3 & E4).
    rewrite kbind, (rec_get_eq _ _ _ Hr), kbind, (proj2 (Z.eqb_neq _ _)) by done.
    rewrite kwhen_true. rewrite E1. pose proof (lv_nodup _ _ HL _ _ Hh) as Hnd.
    assert (HinA : forall a, a = lastd h A -> inL L a).
    { intros a ->. exists h, (A ++ x :: B). split; [done|]. pose proof (lastd_in A h). set_solver. }
    apply Hgo; [done| | | |].
    + intros (h2 & ys & (l & Hh2 & ->)%minus_some & Hy).
      apply elem_of_cons in Hy as [Hy|[Hy _]%list_elem_of_filter]; [|set_solver].
      assert (h2 = h) as ->.
      { apply (lv_disj _ _ HL h2 h l (A ++ x :: B) h2 Hh2 Hh); [left|set_solver]. }
      apply list.NoDup_cons in Hnd as [Hnd _]. set_solver.
    + eapply lv_relinked_weaken; [done|]. intros a Ha. right. by apply HinA.
    + intros a Ha. apply (rl_lvn _ _ _ E3). intros ->. apply (HFL _ Ha). by apply HinA.
    + done.
Qed.

(** ** Flushing one record of an ea ring *)

Lemma inL_minus M L y : inL (minus M L) y -> inL L y.
Proof.
  intros (h & ys & (l & Hh & ->)%minus_some & Hy). exists h, l. split; [done|].
  apply elem_of_cons in Hy as [->|[_ Hy]%list_elem_of_filter]; [left|by right].
Qed.

Lemma inL_minus_other M L y : inL L y -> y ∉ M -> inL (minus M L) y.
Proof.
  intros (h & ys & Hh & Hy) Hn. exists h, (filter (fun x => x ∉ M) ys).
  rewrite minus_lookup, Hh. split; [done|].
  apply elem_of_cons in Hy as [->|Hy]; [left|right]. by apply list_elem_of_filter.
Qed.

Lemma mt_pent_addr s E L F x : mt s E L F -> x ∈ rdom s -> x <> 0.
Proof. intros H Hx ->. by apply (ea_null _ _ (mt_ea _ _ _ _ H)). Qed.

(** The parts of [mt] after [x] was taken out *)
Lemma mt_flush1 s s' E L F F' x :
  mt s E L F -> inE E x -> EA s' (minus [x] E) -> LV s' (minus [x] L) -> FREE s' F' ->
  (forall y m, y <> x -> m = PENT_LV_HEAD \/ m = PENT_UNUSED -> flag s' y m = flag s y m) ->
  (forall y, ~ inL L y -> y <> x -> lvn s' y = lvn s y) ->
  (F' = F /\ flag s' x PENT_UNUSED = true /\ is_Some (L !! x)) \/
  (F' = x :: F /\ flag s x PENT_LV_HEAD = false) ->
  mt s' (minus [x] E) (minus [x] L) F'.
Proof.
  intros [HE HL HF Hu Hh Ht Hfr] Hx HE' HL' HF' Hfl Hn Hcase.
  assert (Hne : forall h ys, L !! h = Some ys -> flag s x PENT_LV_HEAD = false -> h <> x).
  { intros h ys H H0 ->. rewrite (lv_head _ _ HL _ _ H) in H0. discriminate H0. }
  split; [done|done|done|..].
  - intros y [Hy Hyx]%inE_minus Hnin. assert (y <> x) by set_solver.
    assert (Hnin' : ~ inL L y) by (intros H'; apply Hnin; by apply inL_minus_other).
    rewrite Hn, Hfl by auto. by apply Hu.
  - intros h ys' (ys & Hhy & ->)%minus_some. rewrite inE_minus.
    destruct (decide (h = x)) as [->|Hne'].
    + destruct Hcase as [(-> & -> & _)|[_ H0]]; [|by destruct (Hne x ys)].
      split; [done|]. intros [_ H]. destruct H. left.
    + rewrite Hfl by auto. rewrite (Hh _ _ Hhy). set_solver.
  - intros h ys' y (ys & Hhy & ->)%minus_some [Hy1 Hy2]%list_elem_of_filter.
    apply inE_minus. split; [|done]. by apply (Ht h ys).
  - intros y Hy. destruct Hcase as [(-> & _ & Hx')|[-> H0]].
    + destruct (Hfr y Hy) as [H1 H2]. split; [|by intros ?%inL_minus].
      intros [? _]%inE_minus. done.
    + apply elem_of_cons in Hy as [->|Hy].
      * split; [intros [_ H]%inE_minus; set_solver|].
        intros (h & ys & (l & Hl & ->)%minus_some & Hy). apply elem_of_cons in Hy as [Hy|Hy].
        -- by destruct (Hne h l Hl H0).
        -- apply list_elem_of_filter in Hy as [Hy _]. set_solver.
      * destruct (Hfr y Hy) as [H1 H2]. split; [|by intros ?%inL_minus].
        intros [? _]%inE_minus. done.
Qed.

(** Where a record of an ea ring is linked, by its head mark *)
Lemma mt_member s E L F x :
  mt s E L F -> inE E x ->
  if flag s x PENT_LV_HEAD then is_Some (L !! x) /\ minus [x] L = L
  else (~ inL L x /\ lvn s x = Some 0) \/ (exists h A B, L !! h = Some (A ++ x :: B)).
Proof.
  intros [HE HL HF Hu Hh Ht Hfr] Hx. destruct (flag s x PENT_LV_HEAD) eqn:Ef.
  - split.
    + destruct (L !! x) eqn:El; [by eexists|]. exfalso.
      assert (~ inL L x) as Hn; [|destruct (Hu x Hx Hn); congruence].
      intros (h & ys & Hl & Hy). apply elem_of_cons in Hy as [->|Hy]; [congruence|].
      rewrite (lv_tail _ _ HL h ys x Hl Hy) in Ef. discriminate Ef.
    + apply map_eq. intros h. rewrite minus_lookup. destruct (L !! h) as [ys|] eqn:El; [|done].
      cbn. f_equal. apply filter_all. intros y Hy ->%list_elem_of_singleton.
      rewrite (lv_tail _ _ HL h ys x El Hy) in Ef. discriminate Ef.
  - destruct (decide (map_Exists (fun h ys => x ∈ h :: ys) L)) as [(h & ys & Hl & Hy)|Hn].
    + right. apply elem_of_cons in Hy as [->|Hy].
      * rewrite (lv_head _ _ HL h ys Hl) in Ef. discriminate Ef.
      * apply list_elem_of_split in Hy as (A & B & ->). by exists h, A, B.
    + left. assert (~ inL L x) as Hn'; [|by destruct (Hu x Hx Hn')].
      intros (h & ys & Hl & Hy). apply Hn. by exists h, ys.
Qed.

(** The record's end of ring mark and its place *)
Lemma ea_last_flag s E hp D x R :
  EA s E -> E !! hp = Some (D ++ x :: R) -> flag s x PENT_EA_LAST = bool_decide (R = []).
Proof.
  intros HE H. pose proof (ea_ring _ _ HE _ _ H) as Hr.
  destruct (D ++ x :: R) eqn:El; [by destruct D|].
  assert (lasts s (D ++ x :: R)) as Hl by (rewrite El; by destruct Hr).
  apply lasts_app in Hl as [_ Hl]. by destruct Hl.
Qed.

Lemma ea_next_cell s E hp D x R :
  EA s E -> E !! hp = Some (D ++ x :: R) -> cell s x = Some (default hp (head R)).
Proof.
  intros HE H. pose proof (ea_ring _ _ HE _ _ H) as Hr.
  assert (chain (cell s) hp (D ++ x :: R) hp) as [_ Hc]%chain_app.
  { destruct (D ++ x :: R) eqn:El; [by destruct D|]. by destruct Hr. }
  destruct R; [done|]. by destruct Hc.
Qed.

Lemma ea_pp_head s E hp D x R :
  EA s E -> E !! hp = Some (D ++ x :: R) -> (lastd hp D =? hp) = bool_decide (D = []).
Proof.
  intros HE H. destruct D as [|d D]; [apply Z.eqb_refl|]. apply Z.eqb_neq. cbn. intros Heq.
  apply (ea_slot _ _ HE _ _ H). apply (ea_dom _ _ HE hp _ _ H). rewrite <- Heq.
  pose proof (lastd_in D d). set_solver.
Qed.

(** Clearing the word of a PTE *)
Lemma ZERO_PTE_eq p s :
  ZERO_PTE p s = Some (tt, wword (h_base (ptehash s) + 8 * (p .& PENT_INDEX_MASK)) 0 s).
Proof. done. Qed.

(** "set pelist pointer to NULL" or "put marker on previous entry" *)
Definition close_ring (headp pp p : Z) (s : kvars) : kvars :=
  if tst p PENT_EA_LAST then
    if pp =? headp then wcell headp 0 s else wpe pp (fun q => q .| PENT_EA_LAST) s
  else s.

Lemma close_ring_eq headp pp p s :
  is_Some (cell s headp) -> pp = headp \/ pp ∈ rdom s ->
  (if tst p PENT_EA_LAST then
     if pp =? headp then st_cell headp 0
     else rec_mod pp (fun q => set_pent (pent q .| PENT_EA_LAST) q)
   else mret tt) s = Some (tt, close_ring headp pp p s).
Proof.
  intros Hc Hp. unfold close_ring. destruct (tst p PENT_EA_LAST); [|done].
  destruct (Z.eqb_spec pp headp) as [->|Hn]; [by apply st_cell_eq|].
  destruct Hp as [->|Hp]; [done|]. apply rec_mod_eq. by apply elem_of_dom.
Qed.

Lemma close_ring_views headp pp p s :
  rdom (close_ring headp pp p s) = rdom s /\ core (close_ring headp pp p s) = core s /\
  words (close_ring headp pp p s) = words s /\ tlbies (close_ring headp pp p s) = tlbies s /\
  fpents (close_ring headp pp p s) = fpents s /\
  (forall a, lvn (close_ring headp pp p s) a = lvn s a) /\
  (forall a, pcore (close_ring headp pp p s) a = pcore s a).
Proof.
  unfold close_ring. destruct (tst p PENT_EA_LAST); [|done]. destruct (pp =? headp).
  - pose proof (wcell_rest s headp 0) as (-> & -> & -> & -> & _). rewrite rdom_wcell.
    do 5 (split; [done|]). split; intros a; [apply lvn_wcell|]. apply pcore_pe, pe_wcell.
  - do 5 (split; [try done; apply rdom_wrec|]). split; intros a; [apply lvn_wpe|apply pcore_set_last].
Qed.

Lemma flag_wpe_last s pp y :
  y ∈ rdom s -> flag (wpe pp (fun q => q .| PENT_EA_LAST) s) y PENT_EA_LAST =
  if decide (y = pp) then true else flag s y PENT_EA_LAST.
Proof.
  intros [r Hr]%rdom_lookup. unfold flag. rewrite pe_wpe. case_decide; [|done].
  unfold pe. rewrite Hr. cbn. apply tst_true. rewrite Z.land_lor_distr_l, Z.land_diag.
  rewrite Z.lor_eq_0_iff. intros [_ H1]. discriminate H1.
Qed.

Lemma EA_close s s3 E hp D x R p :
  EA s E -> E !! hp = Some (D ++ x :: R) -> tst p PENT_EA_LAST = bool_decide (R = []) ->
  rdom s3 = rdom s ->
  (forall a, okcell s a -> is_Some (cell s a) ->
     cell s3 a = if decide (a = lastd hp D) then cell s x else cell s a) ->
  (forall y, inE E y -> y <> x -> pe s3 y = pe s y) ->
  EA (close_ring hp (lastd hp D) p s3) (minus [x] E).
Proof.
  intros HE Hhp Hp Hd Hc Hpe. set (pp := lastd hp D) in *.
  assert (Hpp : pp ∈ hp :: D ++ x :: R) by (pose proof (lastd_in D hp); set_solver).
  assert (Hok : forall a, a ∈ hp :: D ++ x :: R -> okcell s a /\ is_Some (cell s a)).
  { intros a Ha. split; [by apply (ea_okcell HE hp _ _ Hhp)|by apply (ea_cell_some HE hp _ _ Hhp)]. }
  assert (Hhpc : okcell s3 hp /\ is_Some (cell s3 hp)).
  { destruct (Hok hp ltac:(left)) as [H1 H2]. unfold okcell. rewrite Hd. split; [done|].
    rewrite Hc by done. case_decide; [|done]. apply Hok. set_solver. }
  pose proof (ea_pp_head s E hp D x R HE Hhp) as Hph. fold pp in Hph.
  pose proof (close_ring_views hp pp p s3) as (V1 & _ & _ & _ & _ & _ & V7).
  rewrite (minus_ea s E hp D x R) by done. apply (EA_unlink HE _ hp D x R Hhp).
  - by rewrite V1.
  - unfold close_ring. rewrite Hp, Hph. destruct (Hok pp Hpp) as [Hk1 Hk2].
    destruct (decide (R = [])) as [->|HR]; [|rewrite bool_decide_eq_false_2 by done].
    + rewrite bool_decide_eq_true_2 by done. destruct (decide (D = [])) as [->|HD].
      * rewrite bool_decide_eq_true_2, decide_True by done. change pp with hp.
        rewrite cell_wcell by (try apply Hhpc; done). by rewrite decide_True.
      * rewrite bool_decide_eq_false_2, decide_False, cell_wpe, Hc by (try done; naive_solver).
        by rewrite decide_True.
    + rewrite decide_False, Hc by (try done; naive_solver). by rewrite decide_True.
  - intros a Ha1 Ha2 Hn _. unfold close_ring. rewrite Hp, Hph.
    assert (Hca : cell s3 a = cell s a) by (rewrite Hc by done; by rewrite decide_False).
    destruct (bool_decide (R = [])); [|done]. destruct (bool_decide (D = [])) eqn:ED.
    + apply bool_decide_eq_true in ED as ->.
      rewrite cell_wcell; [|apply Hhpc|unfold okcell; by rewrite Hd|apply Hhpc].
      by rewrite decide_False.
    + by rewrite cell_wpe.
  - intros y Hy Hn. assert (Hyd : y ∈ rdom s3).
    { destruct Hy as (h & l & H1 & H2). rewrite Hd. by apply (ea_dom _ _ HE h l). }
    assert (Hpy : flag s3 y PENT_EA_LAST = flag s y PENT_EA_LAST) by (unfold flag; by rewrite Hpe).
    unfold close_ring. rewrite Hp, Hph. destruct (decide (R = [])) as [->|HR].
    2: { rewrite bool_decide_eq_false_2, decide_False by naive_solver. done. }
    rewrite bool_decide_eq_true_2 by done. destruct (decide (D = [])) as [->|HD].
    + rewrite bool_decide_eq_true_2, decide_False by naive_solver.
      unfold flag. rewrite pe_wcell. done.
    + rewrite bool_decide_eq_false_2, flag_wpe_last by done.
      destruct (decide (y = pp)) as [->|Hyp]; [by rewrite decide_True|].
      by rewrite decide_False by (by intros (_ & _ & ?)).
Qed.

(** Does the record belong to the given address (bits 4-8)? *)
Definition matches (s : kvars) (topea x : Z) : Prop := pbits s x PENT_TOPEA_MASK = topea.
#[global] Instance matches_dec s topea x : Decision (matches s topea x).
Proof. unfold matches. apply _. Defined.

(** From [s] to [s1] only cells, words and TLB entries changed. *)
Record same_lv (s s1 : kvars) : Prop := {
  sl_rdom : rdom s1 = rdom s;
  sl_core : core s1 = core s;
  sl_fpents : fpents s1 = fpents s;
  sl_lvn a : lvn s1 a = lvn s a;
  sl_pe a : pe s1 a = pe s a
}.

Lemma same_lv_wcell s a v : same_lv s (wcell a v s).
Proof.
  pose proof (wcell_rest s a v) as (W1 & W2 & W3 & W4 & _).
  split; [apply rdom_wcell|done|done|apply lvn_wcell|apply pe_wcell].
Qed.

(** "unlink it from lv ring (unless it is the lv-head)" *)
Lemma drop_lv_ok s s1 E L F x :
  mt s E L F -> inE E x -> same_lv s s1 ->
  exists s2,
    (if flag s x PENT_LV_HEAD then rec_mod x (set_pent (PENT_UNUSED .| PENT_LV_HEAD))
     else release_pent x) s1 = Some (tt, s2) /\
    LV s2 (minus [x] L) /\ FREE s2 (if flag s x PENT_LV_HEAD then F else x :: F) /\
    rdom s2 = rdom s /\ core s2 = core s /\ words s2 = words s1 /\ tlbies s2 = tlbies s1 /\
    (forall a, cell s2 a = cell s1 a) /\ (forall a, a <> x -> pe s2 a = pe s a) /\
    (forall a, ~ inL L a -> a <> x -> lvn s2 a = lvn s a) /\
    (flag s x PENT_LV_HEAD = true -> flag s2 x PENT_UNUSED = true).
Proof.
  intros Hmt HxE [V1 V2 V5 V6 V7]. pose proof Hmt as [HE HL HF Hu Hh Ht Hfr].
  pose proof (mt_member s E L F x Hmt HxE) as Hmem.
  assert (Hx : x ∈ rdom s) by (destruct HxE as (h & l & H1 & H2); by apply (ea_dom _ _ HE h l)).
  pose proof Hx as [r Hr]%rdom_lookup.
  assert (HL1 : LV s1 L).
  { apply (LV_frame HL); intros a _; [apply V6|unfold flag; by rewrite V7]. }
  assert (HF1 : FREE s1 F) by (apply (FREE_frame s); [done|done|by intros ? _|done]).
  destruct (flag s x PENT_LV_HEAD) eqn:Ef.
  - rewrite rec_mod_eq by (apply elem_of_dom; fold (rdom s1); by rewrite V1).
    exists (wpe x (fun _ => PENT_UNUSED .| PENT_LV_HEAD) s1). destruct Hmem as [_ ->].
    assert (Hfl : forall m, flag (wpe x (fun _ => PENT_UNUSED .| PENT_LV_HEAD) s1) x m
                  = tst (PENT_UNUSED .| PENT_LV_HEAD) m).
    { intros m. unfold flag. rewrite pe_wpe, decide_True, V7 by done. unfold pe. by rewrite Hr. }
    split; [done|]. split; [|split; [|split; [|split; [done|split; [done|split; [done|]]]]]].
    + apply (LV_frame HL1); intros a _; [apply lvn_wpe|].
      destruct (decide (a = x)) as [->|Hne].
      * rewrite Hfl. unfold flag in Ef |- *. rewrite V7. by rewrite Ef.
      * unfold flag. by rewrite pe_wpe, decide_False.
    + apply (FREE_frame s1); [apply rdom_wrec|done|intros a _; apply lvn_wpe|done].
    + etrans; [apply rdom_wrec|done].
    + split; [intros a; apply cell_wpe|]. split; [intros a Ha; by rewrite pe_wpe, decide_False, V7|].
      split; [intros a _ _; by rewrite lvn_wpe|]. intros _. by rewrite Hfl.
  - destruct (release_pent_ok s1 L F x) as (s2 & E1 & E2 & E3 & E4); try done.
    + rewrite V1. apply HE.
    + by rewrite V1.
    + intros HxF. by destruct (Hfr x HxF).
    + intros y Hy. by apply Hfr.
    + by rewrite V6.
    + exists s2. split; [done|]. split; [done|]. split; [done|]. destruct E4 as [B1 B2 B3 B4 B5 B6 B7].
      split; [congruence|]. split; [congruence|]. split; [congruence|]. split; [congruence|].
      split; [done|]. split; [intros a _; by rewrite B6|]. split; [|done].
      intros a Ha1 Ha2. rewrite B7; [done|]. tauto.
Qed.

Lemma flush_entry_match s E L F hp D x R topea r :
  mt s E L F -> E !! hp = Some (D ++ x :: R) -> recs s !! x = Some r -> matches s topea x ->
  exists s', flush_entry hp topea (lastd hp D) x s = Some ((lastd hp D, true), s') /\
    mt s' (minus [x] E) (minus [x] L) (if flag s x PENT_LV_HEAD then F else x :: F) /\
    flushed s s' [x] /\ tlbies s' = tlbies s.
Proof.
  intros Hmt Hhp Hr Hm. pose proof Hmt as [HE HL HF Hu Hh Ht Hfr].
  assert (HxE : inE E x) by (exists hp, (D ++ x :: R); set_solver).
  assert (Hx : x ∈ rdom s) by (apply rdom_lookup; by exists r).
  pose proof (ea_next_cell s E hp D x R HE Hhp) as Hn.
  pose proof (recs_cell s x _ Hx Hn) as (r' & Hr' & Hrn). assert (r' = r) as -> by congruence. clear Hr'.
  set (pp := lastd hp D). assert (Hpp : pp ∈ hp :: D ++ x :: R) by (pose proof (lastd_in D hp); set_solver).
  assert (Hok : forall a, a ∈ hp :: D ++ x :: R -> okcell s a /\ is_Some (cell s a)).
  { intros a Ha. split; [by apply (ea_okcell HE hp _ _ Hhp)|by apply (ea_cell_some HE hp _ _ Hhp)]. }
  destruct (Hok pp Hpp) as [Hpo Hps].
  pose proof (ea_last_flag s E hp D x R HE Hhp) as Hlast. rewrite (recs_flag _ _ _ _ Hr) in Hlast.
  assert (Hc1 : forall a, okcell s a -> is_Some (cell s a) ->
    cell (wcell pp (ea_next r) s) a = if decide (a = pp) then cell s x else cell s a).
  { intros a Ha _. rewrite cell_wcell, Hn, Hrn by done. done. }
  destruct (drop_lv_ok s (wcell pp (ea_next r) s) E L F x Hmt HxE (same_lv_wcell _ _ _))
    as (s2 & E2 & A1 & A2 & A3 & A4 & A5 & A6 & A7 & A8 & A9 & A10).
  rewrite (recs_flag _ _ _ _ Hr) in E2.
  pose proof (wcell_rest s pp (ea_next r)) as (_ & W2 & W3 & _ & _).
  set (s3 := wword (h_base (ptehash s2) + 8 * (pent r .& PENT_INDEX_MASK)) 0 s2).
  pose proof (close_ring_views hp pp (pent r) s3) as (C1 & C2 & C3 & C4 & C5 & C6 & C7).
  assert (Hpc : forall y, y <> x -> pcore (close_ring hp pp (pent r) s3) y = pcore s y).
  { intros y Hy. rewrite C7. by apply pcore_pe, A8. }
  exists (close_ring hp pp (pent r) s3). split; [|split; [|split]].
  - unfold flush_entry. rewrite kbind, (rec_get_eq _ _ _ Hr).
    assert (Hm' : (pent r .& PENT_TOPEA_MASK) = topea).
    { unfold matches, pbits, pe in Hm. rewrite Hr in Hm. done. }
    rewrite Hm', Z.eqb_refl, kbind, st_cell_eq, kbind, E2, kbind, ZERO_PTE_eq, kbind by done.
    rewrite close_ring_eq; [done| |].
    + change (is_Some (cell s2 hp)). rewrite A7, Hc1 by (apply Hok; left).
      case_decide; apply Hok; [right; apply elem_mid|left].
    + change (pp = hp \/ pp ∈ rdom s2). rewrite A3. apply elem_of_cons in Hpp as [->|Hpp]; [by left|right].
      by apply (ea_dom _ _ HE hp _ _ Hhp).
  - apply (mt_flush1 s _ E L F); [done|done| | | | | |].
    + apply (EA_close s _ E hp D x R); [done|done|done|done| |].
      * intros a Ha1 Ha2. change (cell s3 a) with (cell s2 a). rewrite A7. by apply Hc1.
      * intros y _ Hy. by apply A8.
    + apply (LV_frame A1); intros a _; [apply C6|]. apply pcore_flag; [done|apply C7].
    + apply (FREE_frame s2); [done|done|by intros ? _|done].
    + intros y m Hy [-> | ->]; (apply pcore_flag; [done|by apply Hpc]).
    + intros y Hy1 Hy2. rewrite C6. by apply A9.
    + pose proof (mt_member s E L F x Hmt HxE) as Hmem. destruct (flag s x PENT_LV_HEAD) eqn:Ef.
      * left. split; [done|]. split; [|apply Hmem]. rewrite <- A10 by done. apply pcore_flag; [done|apply C7].
      * right. done.
  - split; [etrans; [apply C1|apply A3]|etrans; [apply C2|apply A4]| |].
    + intros a. rewrite C3. unfold s3, wword. cbn [words set_words]. rewrite A5, W2. cbn [map].
      assert (Hpa : h_base (ptehash s2) + 8 * (pent r .& PENT_INDEX_MASK) = pte_addr s x).
      { unfold pte_addr, pbits, pe. rewrite Hr. cbn. by rewrite (core_ptehash s s2) by done. }
      rewrite Hpa. case_decide as Hd.
      * apply list_elem_of_singleton in Hd as ->. by rewrite lookup_insert_eq.
      * rewrite lookup_insert_ne; [done|]. intros <-. apply Hd. left.
    + intros y Hy. apply Hpc. intros ->. apply Hy. left.
  - rewrite C4. etrans; [apply A6|done].
Qed.

Lemma flush_entry_other s hp x topea pp r :
  recs s !! x = Some r -> ~ matches s topea x -> flush_entry hp topea pp x s = Some ((x, false), s).
Proof.
  intros Hr Hm. unfold flush_entry. rewrite kbind, (rec_get_eq _ _ _ Hr).
  rewrite (proj2 (Z.eqb_neq _ _)); [done|]. unfold matches, pbits, pe in Hm. by rewrite Hr in Hm.
Qed.

Lemma flushed_matches s s' M topea y :
  flushed s s' M -> y ∉ M -> matches s' topea y <-> matches s topea y.
Proof. intros H Hy. unfold matches. by rewrite (pcore_bits s s') by (try apply H; done). Qed.

Definition nonhead (s : kvars) (x : Z) : Prop := flag s x PENT_LV_HEAD = false.
#[global] Instance nonhead_dec s x : Decision (nonhead s x).
Proof. unfold nonhead. apply _. Defined.

(** The do-while loop of [flush_vsid_ea_] *)
Lemma flush_ring_ok topea hp : forall R x D s E L F fuel worked,
  mt s E L F -> E !! hp = Some (D ++ x :: R) -> (length R < fuel)%nat ->
  let M := filter (matches s topea) (x :: R) in
  exists s' F', flush_ring fuel hp topea (lastd hp D) x worked s
      = Some (worked || bool_decide (M <> []), s') /\
    mt s' (minus M E) (minus M L) F' /\ F' ≡ₚ filter (nonhead s) M ++ F /\
    flushed s s' M /\ tlbies s' = tlbies s.
Proof.
  induction R as [|y R IH]; intros x D s E L F [|fuel] worked Hmt Hhp Hf M; cbn in Hf; try lia.
  all: pose proof Hmt as [HE _ _ _ _ _ _].
  all: assert (Hx : x ∈ rdom s) by (apply (ea_dom _ _ HE hp _ _ Hhp); set_solver).
  all: pose proof (ea_next_cell s E hp D x _ HE Hhp) as Hn.
  all: pose proof (recs_cell s x _ Hx Hn) as (r & Hr & Hrn).
  all: pose proof (ea_last_flag s E hp D x _ HE Hhp) as Hlast; rewrite (recs_flag _ _ _ _ Hr) in Hlast.
  all: pose proof (ea_nodup _ _ HE hp _ Hhp) as Hnd.
  all: cbn [flush_ring]; rewrite kbind, (rec_get_eq _ _ _ Hr), kbind, Hlast.
  all: assert (HF : forall b : bool, (if b then F else x :: F) ≡ₚ (if b then [] else [x]) ++ F)
    by (by intros []).
  - rewrite bool_decide_eq_true_2 by done. subst M. destruct (decide (matches s topea x)) as [Hm|Hm].
    + destruct (flush_entry_match s E L F hp D x [] topea r Hmt Hhp Hr Hm) as (s' & E1 & E2 & E3 & E4).
      rewrite E1, filter_cons_True by done. change (filter (matches s topea) []) with (@nil Z).
      exists s', (if flag s x PENT_LV_HEAD then F else x :: F). split; [by rewrite bool_decide_eq_true_2|].
      split; [done|]. split; [|done]. rewrite HF. apply reflexive_eq. f_equal.
      destruct (flag s x PENT_LV_HEAD) eqn:Ef.
      * by rewrite filter_cons_False by (unfold nonhead; congruence).
      * by rewrite filter_cons_True.
    + rewrite (flush_entry_other _ _ _ _ _ r) by done. rewrite filter_cons_False by done.
      change (filter (matches s topea) []) with (@nil Z). exists s, F. rewrite !minus_nil.
      split; [by rewrite bool_decide_eq_false_2 by naive_solver|]. split; [done|]. split; [done|].
      split; [apply flushed_refl|done].
  - rewrite bool_decide_eq_false_2 by done. rewrite Hrn. cbn [default head].
    subst M. destruct (decide (matches s topea x)) as [Hm|Hm].
    + destruct (flush_entry_match s E L F hp D x (y :: R) topea r Hmt Hhp Hr Hm) as (s1 & E1 & E2 & E3 & E4).
      assert (Hxy : forall z, z ∈ y :: R -> z ∉ [x]).
      { intros z Hz ->%list_elem_of_singleton. apply list.NoDup_app in Hnd as (_ & _ & Hnd).
        apply list.NoDup_cons in Hnd as [Hnd _]. done. }
      assert (Hhp1 : minus [x] E !! hp = Some (D ++ y :: R)).
      { rewrite (minus_ea s E hp D x (y :: R)) by done. by rewrite lookup_insert_eq. }
      destruct (IH y D s1 _ _ _ fuel (worked || true) E2 Hhp1 ltac:(lia)) as (s' & F' & I1 & I2 & I3 & I4 & I5).
      assert (HM : filter (matches s1 topea) (y :: R) = filter (matches s topea) (y :: R)).
      { apply filter_ext_in. intros z Hz.
        by apply (flushed_matches _ _ [x]); [|apply Hxy]. }
      rewrite HM in *. rewrite E1, filter_cons_True by done. exists s', F'.
      set (M := filter (matches s topea) (y :: R)) in *.
      assert (HMx : forall z, z ∈ M -> z ∉ [x]).
      { intros z [_ Hz]%list_elem_of_filter. by apply Hxy. }
      split; [|split; [|split; [|split]]].
      * change (id y) with y. rewrite I1. rewrite (bool_decide_eq_true_2 (x :: M <> [])) by done. by rewrite orb_true_r.
      * by rewrite !minus_minus in I2.
      * rewrite I3, HF. assert (Hnh : filter (nonhead s1) M = filter (nonhead s) M).
        { apply filter_ext_in. intros z Hz. unfold nonhead.
          by rewrite (flushed_flag s s1 [x]) by (try apply HMx; done). }
        rewrite Hnh. unfold nonhead at 2. destruct (flag s x PENT_LV_HEAD) eqn:Ef.
        -- rewrite filter_cons_False by (unfold nonhead; by rewrite Ef). done.
        -- rewrite filter_cons_True by done. solve_Permutation.
      * by apply (flushed_trans s s1 s' [x] M).
      * congruence.
    + rewrite (flush_entry_other _ _ _ _ _ r) by done. rewrite filter_cons_False by done.
      rewrite orb_false_r. assert (Hhp' : E !! hp = Some ((D ++ [x]) ++ y :: R)) by (by rewrite <- app_assoc).
      pose proof (IH y (D ++ [x]) s E L F fuel worked Hmt Hhp' ltac:(lia)) as H.
      rewrite lastd_snoc in H. exact H.
Qed.

(** ** Flushing one record of an lv ring *)

(** The address [pent_flush_unlink_ea] reconstructs for [tlbie] *)
Definition tlb_ea (s : kvars) (hp x : Z) : Z :=
  let ea := (hp .>> 2) .& 0x1f in
  (if flag s x PENT_EA_BIT14 then ea .| 0x20 else ea) .<< 12.

(** "is this just a single entry in the ea ring?" *)
Definition move_mark (x p prev head : Z) (s : kvars) : kvars :=
  if tst p PENT_EA_LAST then
    if prev =? head then wrec x (set_ea_next 0) s
    else wpe prev (fun q => q .| PENT_EA_LAST) s
  else s.

Lemma move_mark_eq x p prev head s :
  x ∈ rdom s -> prev = head \/ prev ∈ rdom s ->
  (if tst p PENT_EA_LAST then
     if prev =? head then rec_mod x (set_ea_next 0)
     else rec_mod prev (fun q => set_pent (pent q .| PENT_EA_LAST) q)
   else mret tt) s = Some (tt, move_mark x p prev head s).
Proof.
  intros Hx Hp. unfold move_mark. destruct (tst p PENT_EA_LAST); [|done].
  destruct (Z.eqb_spec prev head) as [->|Hn]; [apply rec_mod_eq; by apply elem_of_dom|].
  destruct Hp as [->|Hp]; [done|]. apply rec_mod_eq. by apply elem_of_dom.
Qed.

Lemma move_mark_views x p prev head s :
  x <> prev -> x ∈ rdom s ->
  let s1 := move_mark x p prev head s in
  rdom s1 = rdom s /\ core s1 = core s /\ words s1 = words s /\ tlbies s1 = tlbies s /\
  fpents s1 = fpents s /\ (forall a, lvn s1 a = lvn s a) /\
  (forall a, pcore s1 a = pcore s a) /\
  (forall a, a ∈ rdom s -> flag s1 a PENT_EA_LAST =
     if decide (tst p PENT_EA_LAST = true /\ prev <> head /\ a = prev) then true
     else flag s a PENT_EA_LAST) /\
  (forall a, cell s1 a = if decide (tst p PENT_EA_LAST = true /\ prev = head /\ a = x) then Some 0
     else cell s a) /\
  pe s1 x = pe s x.
Proof.
  intros Hxp [r Hr]%rdom_lookup. unfold move_mark. destruct (tst p PENT_EA_LAST).
  2: { cbv zeta. split_and!; try done; intros a; rewrite decide_False by naive_solver; done. }
  destruct (Z.eqb_spec prev head) as [Hph|Hph]; cbv zeta.
  - split_and!; try done; [apply rdom_wrec|intros a..|by apply pe_wrec].
    + by apply lvn_wrec.
    + by apply pcore_pe, pe_wrec.
    + intros _. rewrite decide_False by naive_solver. unfold flag. by rewrite pe_wrec.
    + unfold cell. rewrite recs_wrec.
      destruct (decide (a = x)) as [->|Hn]; [|by rewrite decide_False by naive_solver].
      by rewrite Hr, decide_True.
  - split_and!; try done; [apply rdom_wrec|intros a..|by rewrite pe_wpe, decide_False].
    + apply lvn_wpe.
    + apply pcore_set_last.
    + intros Ha. rewrite flag_wpe_last by done. repeat case_decide; naive_solver.
    + rewrite decide_False by naive_solver. apply cell_wpe.
Qed.

Lemma pent_flush_unlink_ea_ok s E hp A x B :
  EA s E -> E !! hp = Some (A ++ x :: B) ->
  exists s', pent_flush_unlink_ea x s = Some (tt, s') /\ EA s' (minus [x] E) /\
    flushed s s' [x] /\ tlbies s' = tlb_ea s hp x :: tlbies s /\ fpents s' = fpents s /\
    (forall a, lvn s' a = lvn s a) /\ (forall a, pcore s' a = pcore s a).
Proof.
  intros HE Hhp. pose proof (ea_ring _ _ HE _ _ Hhp) as Hr. pose proof (ea_nodup_hp HE hp _ Hhp) as Hnd.
  assert (Hdom : forall a, a ∈ A ++ x :: B -> a ∈ rdom s) by (intros a; by apply (ea_dom _ _ HE hp)).
  assert (Hok : forall a, a ∈ hp :: A ++ x :: B -> okcell s a /\ is_Some (cell s a)).
  { intros a Ha. split; [by apply (ea_okcell HE hp _ _ Hhp)|by apply (ea_cell_some HE hp _ _ Hhp)]. }
  assert (Hring : chain (cell s) hp (A ++ x :: B) hp /\ lasts s (A ++ x :: B))
    by (destruct (A ++ x :: B) eqn:El; [by destruct A|done]).
  destruct Hring as [[HcA HcB]%chain_app Hls]. apply lasts_app in Hls as [_ Hls].
  assert (Hx : x ∈ rdom s) by (apply Hdom; set_solver).
  pose proof (ea_next_cell s E hp A x B HE Hhp) as Hn.
  pose proof (recs_cell s x _ Hx Hn) as (r & Hr0 & Hrn).
  pose proof (ea_last_flag s E hp A x B HE Hhp) as Hlast. rewrite (recs_flag _ _ _ _ Hr0) in Hlast.
  assert (HlB : lastd x B ∈ rdom s) by (pose proof (lastd_in B x); apply Hdom; set_solver).
  pose proof (chain_last _ _ _ _ HcB) as Hcl. pose proof (recs_cell s _ _ HlB Hcl) as (rl & Hrl & Hrln).
  set (prev := lastd hp A). assert (Hpin : prev ∈ hp :: A) by apply lastd_in.
  assert (HxA : (x ∉ hp :: A) /\ (x ∉ B)).
  { rewrite app_comm_cons in Hnd. apply list.NoDup_app in Hnd as (_ & H1 & H2).
    apply list.NoDup_cons in H2 as [H2 _]. split; [|done]. intros H. apply (H1 x H). left. }
  assert (Hxp : x <> prev) by (intros ->; by destruct HxA).
  assert (Hppr : prev = hp \/ prev ∈ rdom s).
  { apply elem_of_cons in Hpin as [->|Hp]; [by left|right; apply Hdom; set_solver]. }
  pose proof (move_mark_views x (pent r) prev hp s Hxp Hx) as (V1 & V2 & V3 & V4 & V5 & V6 & V7 & V8 & V9 & V10).
  set (s1 := move_mark x (pent r) prev hp s) in *.
  pose proof (ea_pp_head s E hp A x B HE Hhp) as Hph. fold prev in Hph.
  assert (Hph' : prev = hp <-> A = []) by (rewrite <- Z.eqb_eq, Hph; apply bool_decide_eq_true).
  assert (HBl : tst (pent r) PENT_EA_LAST = true <-> B = []) by (rewrite Hlast; apply bool_decide_eq_true).
  assert (Hrec1 : exists r1, recs s1 !! x = Some r1 /\ pent r1 = pent r /\ cell s1 x = Some (ea_next r1)).
  { assert (Hx1 : x ∈ rdom s1) by (by rewrite V1). apply rdom_lookup in Hx1 as [r1 Hr1].
    exists r1. split; [done|]. unfold pe in V10. rewrite Hr1, Hr0 in V10. split; [by injection V10|].
    unfold cell. by rewrite Hr1. }
  destruct Hrec1 as (r1 & Hr1 & Hp1 & Hc1).
  assert (Hok1 : okcell s1 prev /\ is_Some (cell s1 prev)).
  { destruct (Hok prev (lastd_mem A (x :: B) hp)) as [H1 H2]. unfold okcell. rewrite V1. split; [done|].
    rewrite V9, decide_False by naive_solver. done. }
  pose proof (wcell_rest s1 prev (ea_next r1)) as (W1 & W2 & W3 & W4 & _).
  set (s2 := wcell prev (ea_next r1) s1) in *.
  assert (Hpa : h_base (ptehash s2) + 8 * (pent r .& PENT_INDEX_MASK) = pte_addr s x).
  { unfold pte_addr, pbits, pe. rewrite Hr0. cbn. by rewrite (core_ptehash s s2) by congruence. }
  assert (Hcell2 : forall a, okcell s a -> cell s2 a = if decide (a = prev) then Some (ea_next r1) else cell s1 a).
  { intros a Ha. apply cell_wcell; [apply Hok1|unfold okcell; by rewrite V1|apply Hok1]. }
  assert (Hpc : forall a, pcore s2 a = pcore s a).
  { intros a. rewrite <- V7. apply pcore_pe, pe_wcell. }
  exists (wtlb (tlb_ea s hp x) (wword (pte_addr s x) 0 s2)). split; [|split_and!].
  - unfold pent_flush_unlink_ea. rewrite kbind, kget_eq, kbind, (find_ea_last_ok s hp B); try done.
    2: { intros y Hy. apply Hdom, elem_of_app. by right. }
    2: { assert (S (length (A ++ x :: B)) < ring_fuel s)%nat as Hf.
         { apply ring_fuel_ok; [by apply list.NoDup_cons in Hnd as [_ ?]|done]. }
         rewrite length_app in Hf. cbn in Hf. lia. }
    rewrite kbind, (rec_get_eq _ _ _ Hrl), Hrln, kbind, (find_ea_prev_ok s x (hp :: A)); try done.
    2: { by destruct HxA. }
    2: { assert (S (length (A ++ x :: B)) < ring_fuel s)%nat as Hf.
         { apply ring_fuel_ok; [by apply list.NoDup_cons in Hnd as [_ ?]|done]. }
         rewrite length_app in Hf. cbn in Hf |- *. lia. }
    cbn [lastd]. fold prev. rewrite kbind, (rec_get_eq _ _ _ Hr0), kbind, move_mark_eq by done. fold s1.
    rewrite kbind, (rec_get_eq _ _ _ Hr1), kbind, st_cell_eq by apply Hok1. fold s2.
    rewrite kbind, Hp1, ZERO_PTE_eq, Hpa, tlbie_eq. unfold tlb_ea.
    rewrite (recs_flag _ _ _ _ Hr0). done.
  - rewrite (minus_ea s E hp A x B) by done. apply (EA_unlink HE _ hp A x B Hhp).
    + etrans; [apply rdom_wcell|done].
    + change (cell s2 prev = if decide (A = [] /\ B = []) then Some 0 else cell s x).
      rewrite Hcell2, decide_True, <- Hc1, V9 by (done || apply Hok, lastd_mem).
      destruct (decide (A = [] /\ B = [])) as [[HA HB]|Hne].
      * by rewrite decide_True by (split_and!; [apply HBl|apply Hph'|]; done).
      * rewrite decide_False; [done|]. intros (H1 & H2 & _). apply Hne. by rewrite <- HBl, <- Hph'.
    + intros a Ha1 Ha2 Hn1 Hn2. change (cell s2 a = cell s a).
      rewrite Hcell2, decide_False, V9, decide_False by naive_solver. done.
    + intros y (h & l & Hy1 & Hy2) Hyx. assert (Hyd : y ∈ rdom s) by (by apply (ea_dom _ _ HE h l)).
      change (flag s2 y PENT_EA_LAST = if decide (B = [] /\ A <> [] /\ y = prev) then true
        else flag s y PENT_EA_LAST).
      assert (Hf : flag s2 y PENT_EA_LAST = flag s1 y PENT_EA_LAST).
      { unfold flag. unfold s2. by rewrite pe_wcell. }
      rewrite Hf, V8 by done. destruct (decide (B = [] /\ A <> [] /\ y = prev)) as [(HB & HA & ->)|Hne].
      * by rewrite decide_True by (split_and!; [apply HBl|rewrite Hph'|]; done).
      * rewrite decide_False; [done|]. intros (H1 & H2 & H3). apply Hne. by rewrite <- HBl, <- Hph'.
  - split.
    + etrans; [apply rdom_wcell|done].
    + etrans; [apply W4|done].
    + intros a. cbn [words wtlb wword set_words set_tlbies]. rewrite W2, V3. cbn [map].
      destruct (decide (a ∈ [pte_addr s x])) as [Hd|Hd].
      * apply list_elem_of_singleton in Hd as ->. by rewrite lookup_insert_eq.
      * rewrite lookup_insert_ne; [done|]. intros <-. apply Hd. left.
    + intros y _. apply Hpc.
  - cbn [tlbies wtlb wword set_words set_tlbies]. congruence.
  - change (fpents s2 = fpents s). congruence.
  - intros a. change (lvn s2 a = lvn s a). unfold s2. by rewrite lvn_wcell.
  - apply Hpc.
Qed.

(** Every record of [M] had its translation invalidated. *)
Definition tlb_flushed (s s' : kvars) (E : gmap Z (list Z)) (M : list Z) : Prop :=
  exists tl, tlbies s' = tl ++ tlbies s /\
    forall x hp xs, x ∈ M -> E !! hp = Some xs -> x ∈ xs -> tlb_ea s hp x ∈ tl.

Lemma inE_split E x : inE E x -> exists hp A B, E !! hp = Some (A ++ x :: B).
Proof. intros (hp & xs & H & (A & B & ->)%list_elem_of_split). by exists hp, A, B. Qed.

(** The do-while loop of [flush_lvptr_] *)
Lemma flush_lv_ring_ok h : forall ys y p s E fuel,
  EA s E -> chain (lvn s) p (y :: ys) h -> NoDup (y :: ys) -> h ∉ y :: ys ->
  (forall x, x ∈ y :: ys -> inE E x) -> (length ys < fuel)%nat -> lvn s p <> None ->
  exists s', flush_lv_ring fuel h p s = Some (lastd y ys, s') /\ EA s' (minus (y :: ys) E) /\
    flushed s s' (y :: ys) /\ tlb_flushed s s' E (y :: ys) /\ fpents s' = fpents s /\
    (forall a, lvn s' a = lvn s a) /\ (forall a, pcore s' a = pcore s a).
Proof.
  induction ys as [|z ys IH]; intros y p s E [|fuel] HE Hc Hnd Hh Hin Hf Hp; cbn in Hf; try lia.
  all: destruct (inE_split E y) as (hp & A & B & Hhp); [apply Hin; left|].
  all: destruct (pent_flush_unlink_ea_ok s E hp A y B HE Hhp) as (s1 & E1 & E2 & E3 & E4 & E5 & E6 & E7).
  all: cbn [chain] in Hc; destruct Hc as [Hpy Hc].
  all: apply recs_lvn in Hpy as (rp & Hrp & Hrpn).
  all: cbn [flush_lv_ring]; rewrite kbind, (rec_get_eq _ _ _ Hrp), Hrpn; cbv zeta; rewrite kbind, E1, kbind.
  all: assert (Hone : forall x hp2 xs, x ∈ [y] -> E !! hp2 = Some xs -> x ∈ xs -> tlb_ea s hp2 x ∈ [tlb_ea s hp y]).
  1, 3: intros x hp2 xs ->%list_elem_of_singleton H1 H2;
        rewrite (ea_disj _ _ HE hp2 hp xs (A ++ y :: B) y H1 Hhp H2) by set_solver; left.
  - rewrite <- E6 in Hc. apply recs_lvn in Hc as (r & Hr & Hrn).
    rewrite (rec_get_eq _ _ _ Hr), Hrn, Z.eqb_refl. exists s1. split_and!; try done.
    exists [tlb_ea s hp y]. by rewrite E4.
  - destruct Hc as [Hyz Hc]. assert (Hyz1 : lvn s1 y = Some z) by (by rewrite E6).
    pose proof Hyz1 as (r & Hr & Hrn)%recs_lvn. rewrite (rec_get_eq _ _ _ Hr), Hrn.
    rewrite (proj2 (Z.eqb_neq z h)) by set_solver.
    apply list.NoDup_cons in Hnd as [Hy Hnd].
    destruct (IH z y s1 (minus [y] E) fuel) as (s2 & I1 & I2 & I3 & I4 & I5 & I6 & I7); try done.
    + split; [done|]. by apply (chain_ext (lvn s)).
    + set_solver.
    + intros x Hx. apply inE_minus. split; [apply Hin; by right|]. set_solver.
    + lia.
    + by rewrite Hyz1.
    + exists s2. split; [done|]. split; [by rewrite minus_minus in I2|].
      split; [by apply (flushed_trans s s1 s2 [y] (z :: ys)); [..|set_solver]|].
      split; [|split_and!; [congruence|intros a; by rewrite I6|intros a; by rewrite I7]].
      destruct I4 as (tl & Htl & Hmem). exists (tl ++ [tlb_ea s hp y]).
      split; [by rewrite Htl, E4, <- app_assoc|]. intros x hp2 xs Hx H1 H2.
      rewrite elem_of_app. apply elem_of_cons in Hx as [->|Hx]; [right|left].
      * apply (Hone y hp2 xs); [left|done|done].
      * assert (Hm : minus [y] E !! hp2 = Some (filter (fun v => v ∉ [y]) xs)) by (by rewrite minus_lookup, H1).
        pose proof (Hmem x hp2 _ Hx Hm) as Ht. unfold tlb_ea in Ht |- *.
        rewrite (pcore_flag s s1 x PENT_EA_BIT14) in Ht by done. apply Ht.
        apply list_elem_of_filter. split; [set_solver|done].
Qed.

Lemma flist_chain s p F : forall ys y,
  chain (lvn s) y ys p -> (forall x, x ∈ y :: ys -> x ∈ rdom s) -> flist s p F ->
  flist s y (y :: ys ++ F).
Proof.
  induction ys as [|z ys IH]; intros y Hc Hd Hf; cbn [chain] in Hc; cbn [flist app].
  - split; [done|]. split; [apply Hd; left|]. by exists p.
  - destruct Hc as [H1 H2]. split; [done|]. split; [apply Hd; left|]. exists z. split; [done|].
    apply IH; [done| |done]. intros x Hx. apply Hd. by right.
Qed.

(** Moving the records of an lv ring, all but the head, to the free list *)
Definition free_ring (h : Z) (ys : list Z) (p : Z) (s : kvars) : kvars :=
  match ys with [] => s | y :: _ => wfp y (wlv (lastd h ys) p s) end.

Lemma free_ring_ok s L F h ys p :
  LV s L -> FREE s F -> L !! h = Some ys -> (forall x, x ∈ F -> ~ inL L x) -> fpents s = Some p ->
  FREE (free_ring h ys p s) (ys ++ F) /\ relinked s (free_ring h ys p s) (fun a => a ∈ ys).
Proof.
  intros HL HF Hh HFL Hp. destruct ys as [|y ys]; [by split|]. cbn [free_ring].
  pose proof (lv_nodup _ _ HL _ _ Hh) as [Hhy Hnd]%list.NoDup_cons.
  pose proof (lv_chain _ _ HL _ _ Hh) as [_ Hc].
  assert (Hdom : forall x, x ∈ y :: ys -> x ∈ rdom s).
  { intros x Hx. apply (lv_rdom HL h _ x Hh). by right. }
  cbn [lastd]. assert (Hlst : lastd y ys ∈ y :: ys) by apply lastd_in.
  assert (Hrl : relinked s (wlv (lastd y ys) p s) (fun a => a ∈ y :: ys)).
  { apply lv_relinked_wlv; [by apply Hdom|done]. }
  split; [|eapply lv_relinked_trans; [done|apply lv_relinked_wfp]].
  destruct HF as [HFd (q & Hq & Hfl)]. assert (q = p) as -> by congruence. clear Hq.
  assert (HdF : forall x, x ∈ y :: ys -> x ∉ F).
  { intros x Hx HxF. apply (HFL x HxF). exists h, (y :: ys). split; [done|by right]. }
  split.
  - apply list.NoDup_app. done.
  - exists y. split; [apply fpents_wfp; change (is_Some (fpents s)); by rewrite Hp|].
    apply (flist_ext (wlv (lastd y ys) p s) _ (y :: ys ++ F)); [done|done|]. apply (flist_chain _ p).
    + apply (chain_relast (lvn s) _ _ h); [done| | |done].
      * rewrite lvn_wlv by (by apply Hdom). by rewrite decide_True.
      * intros a Ha Hn. rewrite lvn_wlv by (by apply Hdom). by rewrite decide_False.
    + intros x Hx. unfold wlv. rewrite rdom_wrec. by apply Hdom.
    + apply (flist_ext s); [apply rdom_wrec| |done]. intros x Hx.
      rewrite lvn_wlv, decide_False; [done| |by apply Hdom]. intros ->. by apply (HdF (lastd y ys)).
Qed.

Lemma EA_relinked s s' E X : EA s E -> relinked s s' X -> EA s' E.
Proof.
  intros HE H. apply (EA_frame HE); [apply H|intros a _ _; apply (rl_cell _ _ _ H)|].
  intros x _. apply (lv_relinked_flag _ _ _ _ _ H).
Qed.

Lemma flushed_relinked s s1 s2 M X : flushed s s1 M -> relinked s1 s2 X -> flushed s s2 M.
Proof.
  intros [A1 A2 A3 A4] [B1 B2 B3 B4 B5 B6 B7]. split; [congruence|congruence| |].
  - intros a. by rewrite B3.
  - intros y Hy. rewrite <- A4 by done. by apply pcore_pe.
Qed.

Lemma flush_tails_ok s E L F h ys :
  mt s E L F -> L !! h = Some ys ->
  exists s', flush_tails h s = Some (tt, s') /\ EA s' (minus ys E) /\ FREE s' (ys ++ F) /\
    flushed s s' ys /\ tlb_flushed s s' E ys /\ (forall a, a ∉ ys -> lvn s' a = lvn s a) /\
    (forall a, pcore s' a = pcore s a).
Proof.
  intros [HE HL HF Hu Hh Ht Hfr] Hhy.
  pose proof (lv_chain _ _ HL _ _ Hhy) as Hc. pose proof (lv_nodup _ _ HL _ _ Hhy) as Hnd.
  unfold flush_tails. destruct ys as [|y ys].
  - apply recs_lvn in Hc as (r & Hr & Hrn). rewrite kbind, (rec_get_eq _ _ _ Hr). cbv zeta.
    rewrite Hrn, Z.eqb_refl. exists s. rewrite minus_nil. split_and!; try done.
    exists []. split; [done|]. intros x hp xs Hx. by apply not_elem_of_nil in Hx.
  - pose proof Hc as [Hy Hyc]. pose proof Hy as (r & Hr & Hrn)%recs_lvn.
    rewrite kbind, (rec_get_eq _ _ _ Hr). cbv zeta.
    apply list.NoDup_cons in Hnd as [Hhn Hnd].
    rewrite Hrn, (proj2 (Z.eqb_neq y h)) by set_solver.
    destruct (flush_lv_ring_ok h ys y h s E (ring_fuel s)) as (s1 & I1 & I2 & I3 & I4 & I5 & I6 & I7);
      try done.
    + intros x Hx. by apply (Ht h (y :: ys)).
    + apply Nat.lt_succ_l, ring_fuel_ok; [by apply list.NoDup_cons in Hnd as [_ ?]|].
      intros x Hx. apply (lv_rdom HL h _ x Hhy). set_solver.
    + by rewrite Hy.
    + rewrite kbind, kget_eq, kbind, I1. pose proof HF as [_ (p & Hp & _)].
      assert (Hl : lastd y ys ∈ rdom s1).
      { rewrite (fl_rdom _ _ _ I3). pose proof (lastd_in ys y). apply (lv_rdom HL h _ _ Hhy). set_solver. }
      rewrite kbind, (vi_get_fp p) by congruence.
      rewrite kbind, rec_mod_eq by (by apply elem_of_dom).
      rewrite vi_mod_fp by (apply (fpents_vinfo _ p); change (fpents s1 = Some p); congruence).
      assert (HL1 : LV s1 L).
      { apply (LV_frame HL); intros a _; [apply I6|by apply pcore_flag]. }
      assert (HF1 : FREE s1 F) by (apply (FREE_frame s); [apply I3|done|by intros ? _|done]).
      destruct (free_ring_ok s1 L F h (y :: ys) p HL1 HF1 Hhy) as [J1 J2]; [by apply Hfr|congruence|].
      exists (free_ring h (y :: ys) p s1). split; [done|]. split_and!.
      * by apply (EA_relinked s1 _ _ (fun a => a ∈ y :: ys)).
      * done.
      * by apply (flushed_relinked s s1 _ _ (fun a => a ∈ y :: ys)).
      * destruct I4 as (tl & T1 & T2). exists tl. split; [|done]. by rewrite (rl_tlbies _ _ _ J2).
      * intros a Ha. rewrite (rl_lvn _ _ _ J2) by done. apply I6.
      * intros a. rewrite <- I7. apply pcore_pe, J2.
Qed.

Lemma flush_head_ok s E h :
  EA s E -> (flag s h PENT_UNUSED = false -> inE E h) ->
  let H := if flag s h PENT_UNUSED then [] else [h] in
  exists s', kwhen (negb (flag s h PENT_UNUSED)) (pent_flush_unlink_ea h) s = Some (tt, s') /\
    EA s' (minus H E) /\ flushed s s' H /\ tlb_flushed s s' E H /\ fpents s' = fpents s /\
    (forall a, lvn s' a = lvn s a) /\ (forall a, pcore s' a = pcore s a).
Proof.
  intros HE Hin. destruct (flag s h PENT_UNUSED); cbv zeta.
  - exists s. rewrite minus_nil. split_and!; try done. exists []. split; [done|].
    intros x hp xs Hx. by apply not_elem_of_nil in Hx.
  - destruct (inE_split E h (Hin eq_refl)) as (hp & A & B & Hhp).
    destruct (pent_flush_unlink_ea_ok s E hp A h B HE Hhp) as (s' & E1 & E2 & E3 & E4 & E5 & E6 & E7).
    exists s'. split_and!; try done. exists [tlb_ea s hp h]. split; [by rewrite E4|].
    intros x hp2 xs ->%list_elem_of_singleton H1 H2.
    rewrite (ea_disj _ _ HE hp2 hp xs (A ++ h :: B) h H1 Hhp H2) by apply elem_mid. left.
Qed.

(** The invariant after a whole lv ring was flushed *)
Lemma mt_flush_ring s s' E L F h ys :
  mt s E L F -> L !! h = Some ys ->
  let M := ys ++ (if flag s h PENT_UNUSED then [] else [h]) in
  EA s' (minus M E) -> FREE s' (ys ++ F) -> rdom s' = rdom s ->
  lvn s' h = Some h -> (forall a, a ∉ h :: ys -> lvn s' a = lvn s a) ->
  flag s' h PENT_LV_HEAD = true -> flag s' h PENT_UNUSED = true ->
  (forall a, a <> h -> pcore s' a = pcore s a) ->
  mt s' (minus M E) (<[h := []]> L) (ys ++ F).
Proof.
  intros [HE HL HF Hu Hh Ht Hfr] Hhy M HE' HF' Hd Hlh Hln Hf1 Hf2 Hpc.
  pose proof (lv_nodup _ _ HL _ _ Hhy) as Hnd.
  assert (Hfl : forall a m, a <> h -> m .& not32 PENT_EA_LAST = m -> flag s' a m = flag s a m).
  { intros a m Ha Hm. apply pcore_flag; auto. }
  assert (Hother : forall h2 l2, L !! h2 = Some l2 -> h2 <> h -> forall a, a ∈ h2 :: l2 -> a ∉ h :: ys).
  { intros h2 l2 H2 Hn a Ha Ha'. apply Hn. by apply (lv_disj _ _ HL h2 h l2 ys a). }
  assert (HhM : ~ inE (minus M E) h).
  { intros [H1 H2]%inE_minus. apply H2. subst M. apply (Hh h ys) in H1 as H3; [|done]. rewrite H3.
    apply elem_of_app. right. left. }
  assert (HinL : forall x, inL (<[h := []]> L) x -> inL L x).
  { intros x (h2 & l2 & [[<- <-]|[Hn H]]%lookup_insert_Some & Hx).
    - exists h, ys. split; [done|]. apply list_elem_of_singleton in Hx as ->. left.
    - by exists h2, l2. }
  assert (HysM : forall y, y ∈ ys -> ~ inL (<[h := []]> L) y /\ ~ inE (minus M E) y).
  { intros y Hy. split.
    - intros (h2 & l2 & [[<- <-]|[Hn H]]%lookup_insert_Some & Hx).
      + apply list_elem_of_singleton in Hx as ->. by apply list.NoDup_cons in Hnd as [? _].
      + apply (Hother h2 l2 H ltac:(congruence) y Hx). by right.
    - intros [_ H]%inE_minus. apply H. apply elem_of_app. by left. }
  assert (HxE : forall x, inE (minus M E) x -> inE E x /\ x ∉ h :: ys).
  { intros x Hx. pose proof Hx as [H1 H2]%inE_minus. split; [done|].
    intros [->|H3]%elem_of_cons; [by apply HhM|]. by apply (HysM x H3). }
  split; [done| |done|..].
  - apply (LV_set HL s' h ys []); [done|done|apply NoDup_singleton|done| | |].
    + intros y Hy. by apply not_elem_of_nil in Hy.
    + intros y Hy. by apply not_elem_of_nil in Hy.
    + intros h2 l2 H2 Hn a Ha. pose proof (Hother h2 l2 H2 Hn a Ha) as Hah. split; [by apply Hln|].
      apply Hfl; [|done]. intros ->. apply Hah. left.
  - intros x Hx Hn. apply HxE in Hx as [Hx Hxh].
    assert (Hxn : x <> h) by (intros ->; apply Hxh; left).
    rewrite Hln, Hfl by done. apply Hu; [done|]. intros (h2 & l2 & H2 & Hx2). apply Hn.
    destruct (decide (h2 = h)) as [->|Hn2]; [exfalso; congruence|].
    exists h2, l2. by rewrite lookup_insert_ne.
  - intros h2 l2 [[<- <-]|[Hn H2]]%lookup_insert_Some.
    + rewrite Hf2. by split.
    + rewrite Hfl, (Hh h2 l2 H2), inE_minus by done. split; [|tauto]. intros H3. split; [done|].
      pose proof (Hother h2 l2 H2 ltac:(congruence) h2 ltac:(left)) as H4. subst M.
      rewrite elem_of_app. intros [H5|H5]; apply H4; [by right|].
      destruct (flag s h PENT_UNUSED); [by apply not_elem_of_nil in H5|].
      apply list_elem_of_singleton in H5 as ->. left.
  - intros h2 l2 y [[<- <-]|[Hn H2]]%lookup_insert_Some Hy; [by apply not_elem_of_nil in Hy|].
    apply inE_minus. split; [by apply (Ht h2 l2)|].
    pose proof (Hother h2 l2 H2 ltac:(congruence) y ltac:(by right)) as H4. subst M.
    rewrite elem_of_app. intros [H5|H5]; apply H4; [by right|].
    destruct (flag s h PENT_UNUSED); [by apply not_elem_of_nil in H5|].
    apply list_elem_of_singleton in H5 as ->. left.
  - intros x [Hx|Hx]%elem_of_app; [by destruct (HysM x Hx)|]. destruct (Hfr x Hx) as [H1 H2].
    split; [by intros [? _]%inE_minus|auto].
Qed.

(** The head is reset: alone in its ring and unused. *)
Definition reset_head (h : Z) (s : kvars) : kvars := wpe h (fun _ => PENT_UNUSED .| PENT_LV_HEAD) (wlv h h s).

Lemma reset_head_eq h s : h ∈ rdom s ->
  (rec_mod h (set_lv_next h);; rec_mod h (set_pent (PENT_UNUSED .| PENT_LV_HEAD))) s = Some (tt, reset_head h s).
Proof.
  intros H. rewrite kbind, rec_mod_eq by (by apply elem_of_dom).
  rewrite rec_mod_eq by (apply elem_of_dom; change (h ∈ rdom (wlv h h s)); unfold wlv; by rewrite rdom_wrec). done.
Qed.

Lemma rdom_reset h s : rdom (reset_head h s) = rdom s.
Proof. unfold reset_head, wpe, wlv. by rewrite !rdom_wrec. Qed.

Lemma lvn_reset h s a : h ∈ rdom s -> lvn (reset_head h s) a = if decide (a = h) then Some h else lvn s a.
Proof. intros H. unfold reset_head. by rewrite lvn_wpe, lvn_wlv. Qed.

Lemma pe_reset h s a : a <> h -> pe (reset_head h s) a = pe s a.
Proof. intros Ha. unfold reset_head. by rewrite pe_wpe, decide_False, pe_wlv. Qed.

Lemma flag_reset h s m : h ∈ rdom s -> flag (reset_head h s) h m = tst (PENT_UNUSED .| PENT_LV_HEAD) m.
Proof.
  intros [r Hr]%rdom_lookup. unfold flag, reset_head. rewrite pe_wpe, decide_True, pe_wlv by done. unfold pe. by rewrite Hr.
Qed.

Lemma EA_reset h s E : EA s E -> ~ inE E h -> EA (reset_head h s) E.
Proof.
  intros HE Hh. apply (EA_frame HE); [apply rdom_reset|..].
  - intros a _ _. unfold reset_head. by rewrite cell_wpe, cell_wlv.
  - intros x Hx. unfold flag. rewrite pe_reset; [done|]. by intros ->.
Qed.

(** Two flushes in a row *)
Lemma tlb_flushed_app s s1 s2 E ys H :
  tlb_flushed s s1 E ys -> tlb_flushed s1 s2 (minus ys E) H -> (forall x, x ∈ H -> x ∉ ys) ->
  (forall a, pcore s1 a = pcore s a) -> tlb_flushed s s2 E (ys ++ H).
Proof.
  intros (t1 & T1 & T2) (t2 & T3 & T4) Hd Hpc. exists (t2 ++ t1).
  split; [by rewrite T3, T1, app_assoc|].
  intros x hp xs Hx H1 H2. rewrite elem_of_app. apply elem_of_app in Hx as [Hx|Hx].
  - right. by apply (T2 x hp xs).
  - left. assert (Hm : minus ys E !! hp = Some (filter (fun v => v ∉ ys) xs)) by (by rewrite minus_lookup, H1).
    pose proof (T4 x hp _ Hx Hm) as Ht4. unfold tlb_ea in Ht4 |- *.
    rewrite (pcore_flag s s1 x PENT_EA_BIT14) in Ht4 by done. apply Ht4.
    apply list_elem_of_filter. split; [by apply Hd|done].
Qed.

(** C7: [flush_lvptr_], the flush of a user space page: every record of the
    lv ring of the page is taken off its ea ring, its PTE is zeroed and its
    translation invalidated; no other PTE is touched.  The ring is left with
    its unused head only, the other records are on the free list, and all the
    rings stay well formed. *)
Theorem flush_lvptr_correct s E L F vi lvr lvptr ys :
  mt s E L F -> vinfo (mmu s) = Some vi -> find_lvrange (lvranges vi) lvptr = Some lvr ->
  L !! Mtable.lv_head lvr lvptr = Some ys ->
  let head := Mtable.lv_head lvr lvptr in
  let M := ys ++ (if flag s head PENT_UNUSED then [] else [head]) in
  exists s', flush_lvptr_ lvptr s = Some (tt, s') /\
    mt s' (minus M E) (<[head := []]> L) (ys ++ F) /\ rdom s' = rdom s /\ core s' = core s /\
    (forall a, words s' !! a = if decide (a ∈ map (pte_addr s) M) then Some 0 else words s !! a) /\
    tlb_flushed s s' E M.
Proof.
  intros Hmt Hvi Hlvr Hhy h M. fold h in Hhy. pose proof Hmt as [HE HL HF Hu Hh Ht Hfr].
  unfold flush_lvptr_, vi_get. rewrite kbind, Hvi, Hlvr. fold h.
  destruct (flush_tails_ok s E L F h ys Hmt Hhy) as (s1 & E1 & A1 & A2 & A3 & A4 & A5 & A6).
  rewrite kbind, E1, kbind.
  assert (Hhd : h ∈ rdom s1).
  { rewrite (fl_rdom _ _ _ A3). apply (lv_rdom HL h _ h Hhy). left. }
  pose proof Hhd as [r Hr]%rdom_lookup. rewrite (rec_get_eq _ _ _ Hr), kbind.
  assert (Hfl : tst (pent r) PENT_UNUSED = flag s h PENT_UNUSED).
  { rewrite <- (recs_flag _ _ _ _ Hr). by apply pcore_flag. }
  rewrite Hfl.
  assert (Hfl1 : flag s1 h PENT_UNUSED = flag s h PENT_UNUSED) by (by apply pcore_flag).
  destruct (flush_head_ok s1 (minus ys E) h A1) as (s2 & E2 & B1 & B2 & B3 & B4 & B5 & B6).
  { rewrite Hfl1. intros Hun. apply inE_minus. split; [by apply (Hh h ys)|].
    pose proof (lv_nodup _ _ HL _ _ Hhy) as Hnd. by apply list.NoDup_cons in Hnd as [? _]. }
  rewrite Hfl1 in *. rewrite E2.
  assert (Hhd2 : h ∈ rdom s2) by (by rewrite (fl_rdom _ _ _ B2)).
  rewrite reset_head_eq by done. set (H := if flag s h PENT_UNUSED then [] else [h]) in *.
  rewrite minus_minus in B1. fold M in B1.
  assert (Hrd : rdom (reset_head h s2) = rdom s) by (by rewrite rdom_reset, (fl_rdom _ _ _ B2), (fl_rdom _ _ _ A3)).
  assert (Hyn : h ∉ ys) by (pose proof (lv_nodup _ _ HL _ _ Hhy) as Hnd; by apply list.NoDup_cons in Hnd as [? _]).
  assert (HyH : forall x, x ∈ H -> x ∉ ys).
  { intros x Hx. unfold H in Hx. destruct (flag s h PENT_UNUSED); [by apply not_elem_of_nil in Hx|].
    by apply list_elem_of_singleton in Hx as ->. }
  assert (HhM : ~ inE (minus M E) h).
  { intros [Hx1 Hx2]%inE_minus. apply Hx2, elem_of_app. right. apply (Hh h ys) in Hx1; [|done]. unfold H. rewrite Hx1. left. }
  pose proof (flushed_trans s s1 s2 ys H A3 B2 HyH) as Hfld.
  exists (reset_head h s2). split; [done|]. split; [|split; [done|split; [etrans; [|apply Hfld]; done|split]]].
  - apply (mt_flush_ring s _ E L F h ys); try done.
    + by apply EA_reset.
    + apply (FREE_frame s1); [by rewrite rdom_reset, (fl_rdom _ _ _ B2)|by rewrite <- B4| |done].
      intros x Hx. rewrite lvn_reset, decide_False; [apply B5| |done]. intros ->.
      apply elem_of_app in Hx as [Hx|Hx]; [done|]. apply (Hfr h Hx). exists h, ys. split; [done|left].
    + by rewrite lvn_reset, decide_True.
    + intros a Ha. apply not_elem_of_cons in Ha as [Ha1 Ha2]. rewrite lvn_reset, decide_False, B5 by done. by apply A5.
    + by rewrite flag_reset.
    + by rewrite flag_reset.
    + intros a Ha. rewrite <- A6, <- B6. by apply pcore_pe, pe_reset.
  - intros a. apply Hfld.
  - by apply (tlb_flushed_app s s1 s2).
Qed.

(** [flush_vsid_ea_], the invalidation of an effective address by the
    guest: exactly the records of the ring of that page index whose address
    bits match are unlinked from their rings, their PTEs zeroed, and the
    translation invalidated once if there was any; records that are not lv
    heads go to the free list, and all the rings stay well formed. *)
Theorem flush_vsid_ea_correct s E L F r v t xs ea :
  mt s E L F -> vents s !! r = Some v -> lev2 v !! Z.to_nat (LEV2_IND ea) = Some t -> t <> 0 ->
  E !! slot_addr t (PELIST_IND ea) = Some xs ->
  let M := filter (matches s (ea .& PENT_TOPEA_MASK)) xs in
  exists s' F', flush_vsid_ea_ r ea s = Some (tt, s') /\
    mt s' (minus M E) (minus M L) F' /\ F' ≡ₚ filter (nonhead s) M ++ F /\
    flushed s s' M /\ tlbies s' = (if bool_decide (M <> []) then [ea] else []) ++ tlbies s.
Proof.
  intros Hmt Hv Ht Ht0 Hhp M. pose proof Hmt as [HE _ _ _ _ _ _].
  unfold flush_vsid_ea_, lev2_get. rewrite kbind.
  assert (Hl : (v ← vent_get r; kopt (lev2 v !! Z.to_nat (LEV2_IND ea))) s = Some (t, s)).
  { rewrite kbind. unfold vent_get. by rewrite Hv, Ht. }
  rewrite Hl, (proj2 (Z.eqb_neq t 0)) by done. cbv zeta.
  rewrite kbind, (ld_cell_eq _ _ _ (ring_first s _ _ (ea_ring _ _ HE _ _ Hhp))).
  destruct xs as [|x R]; cbn [head default].
  - rewrite Z.eqb_refl. exists s, F. subst M. change (filter (matches s (ea .& PENT_TOPEA_MASK)) []) with (@nil Z).
    rewrite !minus_nil. split_and!; try done.
  - assert (Hdom : forall y, y ∈ x :: R -> y ∈ rdom s) by (intros y; by apply (ea_dom _ _ HE _ _ y Hhp)).
    rewrite (proj2 (Z.eqb_neq _ 0)) by (apply (mt_pent_addr _ _ _ _ _ Hmt), Hdom; left).
    destruct (flush_ring_ok (ea .& PENT_TOPEA_MASK) _ R x [] s E L F (ring_fuel s) false Hmt Hhp)
      as (s' & F' & I1 & I2 & I3 & I4 & I5).
    + assert (S (length (x :: R)) < ring_fuel s)%nat as Hf; [|cbn in Hf; lia].
      apply ring_fuel_ok; [by apply (ea_nodup _ _ HE _ _ Hhp)|done].
    + fold M in I1, I2, I3, I4. cbn [lastd orb] in I1. rewrite kbind, kget_eq, kbind.
      change (id x) with x. rewrite I1. destruct (bool_decide (M <> [])).
      * rewrite kwhen_true, tlbie_eq. exists (wtlb ea s'), F'. split; [by unfold wtlb|].
        split; [|split; [done|split; [|cbn; by rewrite I5]]].
        -- destruct I2 as [X1 X2 X3 X4 X5 X6 X7]. split; try done.
           ++ by apply (EA_frame X1).
           ++ by apply (LV_frame X2).
           ++ by apply (FREE_frame s').
        -- destruct I4 as [Y1 Y2 Y3 Y4]. split; done.
      * rewrite kwhen_false. by exists s', F'.
Qed.

(** ** A concrete table

    The page at [0x3000] of user space is mapped twice, by the head record
    [0x4000] and by [0x4100], both in the ea ring of the slot [0x1000]. *)

Definition demo : kvars :=
  set_words {[0x80008 := 5; 0x80010 := 6]}
  (set_vents {[0x5000 := VsidEnt 0 0 (0x1000 :: replicate 63 0)]}
  (set_tabs {[0x1000 := 0x4000 :: replicate 31 0]}
  (set_recs {[0x4000 := Pterec 0x4100 0x4100 (PENT_LV_HEAD .| 1);
              0x4100 := Pterec 0x1000 0x4000 (PENT_EA_LAST .| 0x00800000 .| 2);
              0x4200 := Pterec 0 0 0]}
  (upd_mmu (set_vinfo (Some (VsidInfo 0x6000 [Lvrange 0x7000 0x4000 0x3000 0x1000] 0x4200 0 [] 0 0))) kv0)))).
Definition demo_E : gmap Z (list Z) := {[0x1000 := [0x4000; 0x4100]]}.
Definition demo_L : gmap Z (list Z) := {[0x4000 := [0x4100]]}.

(** Case analysis on the members of a concrete list *)
Ltac in_list H :=
  repeat (apply elem_of_cons in H; destruct H as [H|H]); [subst..|by apply not_elem_of_nil in H].

Lemma demo_E_some hp xs : demo_E !! hp = Some xs <-> 0x1000 = hp /\ [0x4000; 0x4100] = xs.
Proof. apply lookup_singleton_Some. Qed.
Lemma demo_L_some h ys : demo_L !! h = Some ys <-> 0x4000 = h /\ [0x4100] = ys.
Proof. apply lookup_singleton_Some. Qed.

Lemma demo_mt : mt demo demo_E demo_L [0x4200].
Proof.
  split.
  - split.
    + apply not_elem_of_dom. reflexivity.
    + intros hp xs [<- <-]%demo_E_some. split; [by split|]. apply not_elem_of_dom. reflexivity.
    + intros hp xs [<- <-]%demo_E_some. repeat split.
    + intros hp xs [<- <-]%demo_E_some. by apply (bool_decide_unpack _).
    + intros hp xs x [<- <-]%demo_E_some Hx.
      in_list Hx; apply rdom_lookup; eexists; reflexivity.
    + by intros h1 h2 l1 l2 x [<- <-]%demo_E_some [<- <-]%demo_E_some.
  - split.
    + intros h ys [<- <-]%demo_L_some. repeat split.
    + intros h ys [<- <-]%demo_L_some. by apply (bool_decide_unpack _).
    + intros h ys [<- <-]%demo_L_some. reflexivity.
    + intros h ys y [<- <-]%demo_L_some Hy. in_list Hy. reflexivity.
    + by intros h1 h2 l1 l2 x [<- <-]%demo_L_some [<- <-]%demo_L_some.
  - split; [apply NoDup_singleton|]. exists 0x4200. split; [reflexivity|].
    split; [done|]. split; [apply rdom_lookup; eexists; reflexivity|]. exists 0. by split.
  - intros x (hp & xs & [<- <-]%demo_E_some & Hx) Hn. destruct Hn.
    exists 0x4000, [0x4100]. split; [reflexivity|]. done.
  - intros h ys [<- <-]%demo_L_some. split; [|done]. intros _.
    exists 0x1000, [0x4000; 0x4100]. split; [reflexivity|left].
  - intros h ys y [<- <-]%demo_L_some Hy. exists 0x1000, [0x4000; 0x4100].
    split; [reflexivity|by right].
  - intros x Hx. in_list Hx. split.
    + intros (hp & xs & [<- <-]%demo_E_some & Hx). in_list Hx; done.
    + intros (hp & xs & [<- <-]%demo_L_some & Hx). in_list Hx; done.
Qed.

Lemma flush_vsid_ea_correct_witness :
  exists s' F', flush_vsid_ea_ 0x5000 0x00800000 demo = Some (tt, s') /\
    mt s' (minus [0x4100] demo_E) (minus [0x4100] demo_L) F' /\ F' ≡ₚ [0x4100; 0x4200] /\
    words s' !! 0x80010 = Some 0 /\ words s' !! 0x80008 = Some 5.
Proof.
  destruct (flush_vsid_ea_correct demo demo_E demo_L [0x4200] 0x5000
    (VsidEnt 0 0 (0x1000 :: replicate 63 0)) 0x1000 [0x4000; 0x4100] 0x00800000 demo_mt
    eq_refl eq_refl ltac:(discriminate) eq_refl) as (s' & F' & H1 & H2 & H3 & H4 & _).
  exists s', F'. split; [exact H1|]. split; [exact H2|]. split; [exact H3|].
  split; rewrite (fl_words _ _ _ H4); reflexivity.
Defined.

Lemma flush_lvptr_correct_witness :
  exists s', flush_lvptr_ 0x3004 demo = Some (tt, s') /\
    mt s' (minus [0x4100; 0x4000] demo_E) (<[0x4000 := []]> demo_L) [0x4100; 0x4200] /\
    words s' !! 0x80010 = Some 0 /\ words s' !! 0x80008 = Some 0.
Proof.
  destruct (flush_lvptr_correct demo demo_E demo_L [0x4200]
    (VsidInfo 0x6000 [Lvrange 0x7000 0x4000 0x3000 0x1000] 0x4200 0 [] 0 0)
    (Lvrange 0x7000 0x4000 0x3000 0x1000) 0x3004 [0x4100] demo_mt eq_refl eq_refl eq_refl)
    as (s' & H1 & H2 & _ & _ & H3 & _).
  exists s'. split; [exact H1|]. split; [exact H2|]. split; rewrite H3; reflexivity.
Defined.

End Flush.
