(* ===== verification/Insert.v ===== *)
(** * Insertion of PTE records ([pte_inserted] of [src/kmod/mtable.c])

    A PTE put into the hardware hash is recorded in the ea ring of its slot
    and, when it maps user space memory, in the lv ring of its page.  A record
    of the same address is reused; when the page it maps has changed it is
    moved to the ring of the new page. *)

From S2P Require Import Prelude Chains Skiplist Kvars Context Mtable Rings Flush.

Module Insert.
Import Kvars Mtable Chains Rings Flush.

(** ** The invariant without the ea rings *)

Record links (s : kvars) (E L : gmap Z (list Z)) (F : list Z) : Prop := {
  lk_lv : LV s L;
  lk_free : FREE s F;
  lk_unlinked x : inE E x -> ~ inL L x -> lvn s x = Some 0 /\ flag s x PENT_LV_HEAD = false;
  lk_head h ys : L !! h = Some ys -> (flag s h PENT_UNUSED = false <-> inE E h);
  lk_tail h ys y : L !! h = Some ys -> y ∈ ys -> inE E y;
  lk_fresh x : x ∈ F -> ~ inE E x /\ ~ inL L x
}.

Lemma mt_links s E L F : mt s E L F <-> EA s E /\ links s E L F.
Proof. split; [intros []; by split|intros [? []]; by split]. Qed.

(** Only the members of the ea rings matter. *)
Lemma links_members s E E' L F : (forall x, inE E' x <-> inE E x) -> links s E L F -> links s E' L F.
Proof.
  intros HE [H1 H2 H3 H4 H5 H6]. split; [done|done|..].
  - intros x Hx. by apply H3, HE.
  - intros h ys Hh. rewrite HE. by apply (H4 h ys).
  - intros h ys y Hh Hy. apply HE. by apply (H5 h ys).
  - intros x Hx. rewrite HE. by apply H6.
Qed.

Lemma links_frame s s' E L F :
  rdom s' = rdom s -> fpents s' = fpents s -> (forall a, lvn s' a = lvn s a) ->
  (forall a, flag s' a PENT_LV_HEAD = flag s a PENT_LV_HEAD) ->
  (forall a, flag s' a PENT_UNUSED = flag s a PENT_UNUSED) ->
  links s E L F -> links s' E L F.
Proof.
  intros Hd Hp Hl Hf Hu [H1 H2 H3 H4 H5 H6]. split; [|by apply (FREE_frame s)|..]; try done.
  - by apply (LV_frame H1).
  - intros x. rewrite Hl, Hf. apply H3.
  - intros h ys. rewrite Hu. apply H4.
Qed.

(** Adding [x] to the ring of [hp] *)
Lemma inE_cons E hp xs x y :
  E !! hp = Some xs -> inE (<[hp := x :: xs]> E) y <-> y = x \/ inE E y.
Proof.
  intros Hh. split.
  - intros (h2 & l & [[<- <-]|[Hn H]]%lookup_insert_Some & Hin); [|right; by exists h2, l].
    apply elem_of_cons in Hin as [->|Hin]; [by left|right; by exists hp, xs].
  - intros [->|(h2 & l & H & Hin)].
    + exists hp, (x :: xs). rewrite lookup_insert_eq. split; [done|left].
    + destruct (decide (h2 = hp)) as [->|Hn].
      * exists hp, (x :: xs). rewrite lookup_insert_eq. split; [done|right]. congruence.
      * exists h2, l. by rewrite lookup_insert_ne.
Qed.

(** ** The ea rings *)

(** Replacing [x] by [n] in a chain *)
Lemma chain_replace nx nx' A x n B e p :
  NoDup (p :: A ++ x :: B) -> n ∉ p :: A ++ B -> nx' (lastd p A) = Some n -> nx' n = nx x ->
  (forall a, a ∈ p :: A ++ B -> a <> lastd p A -> nx' a = nx a) ->
  chain nx p (A ++ x :: B) e -> chain nx' p (A ++ n :: B) e.
Proof.
  intros Hd Hn Hl Hnx Ho [H1 H2]%chain_app.
  rewrite app_comm_cons in Hd. apply list.NoDup_app in Hd as (HdA & HAB & HdB).
  assert (HB : forall a, a ∈ B -> nx' a = nx a).
  { intros a Ha. apply Ho; [rewrite app_comm_cons; apply elem_of_app; by right|]. intros ->.
    apply (HAB (lastd p A)); [apply lastd_in|by right]. }
  apply chain_app. split.
  - apply (chain_relast nx _ _ x); [done|done| |done]. intros a Ha. apply Ho.
    rewrite app_comm_cons. apply elem_of_app. by left.
  - destruct B as [|b B]; cbn in *; [congruence|]. destruct H2 as [H2 H3]. split; [congruence|].
    by apply (chain_ext nx).
Qed.

Section EaInsert.
Context {s : kvars} {E : gmap Z (list Z)} (HE : EA s E).

(** Pushing [x] at the start of a ring *)
Lemma EA_insert s' hp xs x :
  E !! hp = Some xs -> x ∈ rdom s -> ~ inE E x -> rdom s' = rdom s ->
  cell s' hp = Some x -> cell s' x = Some (default hp (head xs)) ->
  (forall a, okcell s a -> is_Some (cell s a) -> a <> hp -> a <> x -> cell s' a = cell s a) ->
  flag s' x PENT_EA_LAST = bool_decide (xs = []) ->
  (forall y, inE E y -> flag s' y PENT_EA_LAST = flag s y PENT_EA_LAST) ->
  EA s' (<[hp := x :: xs]> E).
Proof.
  intros Hhp Hx HxE Hd H1 H2 Ho Hfx Hf.
  pose proof (ea_nodup_hp HE hp _ Hhp) as Hnd. pose proof (ea_ring _ _ HE _ _ Hhp) as Hr.
  pose proof (proj2 (ea_slot _ _ HE _ _ Hhp)) as Hslot.
  assert (HinE : forall y, y ∈ xs -> inE E y) by (intros y Hy; by exists hp, xs).
  assert (Hxx : x ∉ xs) by (intros H; by apply HxE, HinE).
  assert (Hcell : forall h2 l2 a, E !! h2 = Some l2 -> a ∈ h2 :: l2 -> a <> hp -> cell s' a = cell s a).
  { intros h2 l2 a H3 Ha Hn. apply Ho; [by apply (ea_okcell HE h2 l2)|by apply (ea_cell_some HE h2 l2)|done|].
    intros ->. apply elem_of_cons in Ha as [->|Ha]; [by apply (ea_slot _ _ HE _ _ H3)|].
    apply HxE. by exists h2, l2. }
  apply (EA_set HE s' hp xs); [done|done| | | |].
  - split.
    + apply list.NoDup_cons in Hnd as [Hnd _]. destruct xs as [|y xs]; [by split|].
      cbn. split; [done|]. split; [done|]. destruct Hr as [[_ Hr] _].
      apply (chain_ext (cell s)); [|done]. intros a Ha. apply (Hcell hp (y :: xs)); [done|by right|].
      by intros ->.
    + split; [done|]. destruct xs as [|y xs]; [done|]. apply (lasts_ext s); [|apply Hr].
      intros z Hz. by apply Hf, HinE.
  - apply list.NoDup_cons. split; [done|]. by apply (ea_nodup _ _ HE hp).
  - intros y [->|Hy]%elem_of_cons; [split; [done|by right]|].
    split; [by apply (ea_dom _ _ HE hp xs)|by left].
  - intros h2 l2 H3 Hn. split.
    + intros a Ha. apply (Hcell h2 l2); [done|done|]. intros ->. apply Hn.
      apply (ea_cells_disj HE h2 l2 hp xs hp); [done|done|done|left].
    + intros y Hy. apply Hf. by exists h2, l2.
Qed.

(** Putting [n] in the place of [x] *)
Lemma EA_replace s' hp A x B n :
  E !! hp = Some (A ++ x :: B) -> n ∈ rdom s -> ~ inE E n -> rdom s' = rdom s ->
  cell s' (lastd hp A) = Some n -> cell s' n = cell s x ->
  (forall a, okcell s a -> is_Some (cell s a) -> a <> lastd hp A -> a <> n -> cell s' a = cell s a) ->
  flag s' n PENT_EA_LAST = flag s x PENT_EA_LAST ->
  (forall y, inE E y -> y <> x -> flag s' y PENT_EA_LAST = flag s y PENT_EA_LAST) ->
  EA s' (<[hp := A ++ n :: B]> E).
Proof.
  intros Hhp Hn HnE Hd H1 H2 Ho Hfn Hf.
  pose proof (ea_nodup_hp HE hp _ Hhp) as Hnd. pose proof (ea_ring _ _ HE _ _ Hhp) as Hr.
  assert (HinE : forall y, y ∈ A ++ x :: B -> inE E y) by (intros y Hy; by exists hp, (A ++ x :: B)).
  assert (Hnx : n ∉ hp :: A ++ x :: B).
  { intros [->|H]%elem_of_cons; [by apply (ea_slot _ _ HE _ _ Hhp)|by apply HnE, HinE]. }
  assert (Hsub : forall a, a ∈ hp :: A ++ B -> a ∈ hp :: A ++ x :: B) by set_solver.
  assert (Hcell : forall h2 l2 a, E !! h2 = Some l2 -> a ∈ h2 :: l2 -> a <> lastd hp A -> cell s' a = cell s a).
  { intros h2 l2 a H3 Ha Hna. apply Ho; [by apply (ea_okcell HE h2 l2)|by apply (ea_cell_some HE h2 l2)|done|].
    intros ->. apply elem_of_cons in Ha as [->|Ha]; [by apply (ea_slot _ _ HE _ _ H3)|].
    apply HnE. by exists h2, l2. }
  assert (Hring : chain (cell s) hp (A ++ x :: B) hp /\ lasts s (A ++ x :: B)).
  { destruct (A ++ x :: B) eqn:El; [by destruct A|done]. }
  assert (Hx : (x ∉ A) /\ (x ∉ B)).
  { apply list.NoDup_cons in Hnd as [_ Hnd]. apply list.NoDup_app in Hnd as (_ & N1 & N2).
    apply list.NoDup_cons in N2 as [N2 _]. split; [intros H; apply (N1 x H); left|done]. }
  apply (EA_set HE s' hp (A ++ x :: B)); [done|done| | | |].
  - assert (Hgo : chain (cell s') hp (A ++ n :: B) hp /\ lasts s' (A ++ n :: B)).
    { split.
      - apply (chain_replace (cell s) _ A x n B); [done| |done|done| |apply Hring].
        + intros H. by apply Hnx, Hsub.
        + intros a Ha. apply (Hcell hp (A ++ x :: B)); [done|by apply Hsub].
      - destruct Hring as [_ [HA HB]%lasts_app]. apply lasts_app. split.
        + intros y Hy. rewrite Hf; [by apply HA|apply HinE, elem_of_app; by left|].
          intros ->. exact (proj1 Hx Hy).
        + destruct HB as [HB1 HB2]. split; [by rewrite Hfn|]. apply (lasts_ext s); [|done].
          intros y Hy. apply Hf; [apply HinE, elem_of_app; right; by right|].
          intros ->. exact (proj2 Hx Hy). }
    unfold ring. destruct (A ++ n :: B) eqn:El; [by destruct A|done].
  - apply list.NoDup_cons in Hnd as [_ Hnd]. apply list.NoDup_app in Hnd as (N1 & N2 & N3).
    apply list.NoDup_cons in N3 as [_ N3]. apply list.NoDup_app. split; [done|].
    assert (HnAB : n ∉ A ++ B) by (intros H; apply Hnx, Hsub; by right).
    rewrite elem_of_app in HnAB. split.
    + intros y Hy [->|Hy']%elem_of_cons; [tauto|]. apply (N2 y Hy). by right.
    + apply list.NoDup_cons. split; [tauto|done].
  - intros y Hy. apply elem_of_app in Hy. rewrite elem_of_cons in Hy.
    destruct (decide (y = n)) as [->|Hyn]; [split; [done|by right]|].
    assert (y ∈ A ++ x :: B) as Hy2 by (apply elem_of_app; rewrite elem_of_cons; tauto).
    split; [by apply (ea_dom _ _ HE hp _ _ Hhp)|by left].
  - intros h2 l2 H3 Hne. split.
    + intros a Ha. apply (Hcell h2 l2); [done|done|]. intros ->. apply Hne.
      apply (ea_cells_disj HE h2 l2 hp (A ++ x :: B) (lastd hp A)); [done|done|done|apply lastd_mem].
    + intros y Hy. apply Hf; [by exists h2, l2|]. intros ->. apply Hne.
      apply (ea_disj _ _ HE h2 hp l2 (A ++ x :: B) x); [done|done|done|apply elem_mid].
Qed.

Lemma inE_replace hp A x B n y :
  E !! hp = Some (A ++ x :: B) -> inE (<[hp := A ++ n :: B]> E) y <-> y = n \/ (inE E y /\ y <> x).
Proof.
  intros Hhp. pose proof (ea_nodup _ _ HE _ _ Hhp) as Hnd.
  apply list.NoDup_app in Hnd as (_ & N1 & N2). apply list.NoDup_cons in N2 as [N2 _]. split.
  - intros (h2 & l & [[<- <-]|[Hn H]]%lookup_insert_Some & Hin).
    + rewrite elem_of_app, elem_of_cons in Hin. destruct Hin as [Hin|[->|Hin]]; [right|by left|right];
        (split; [exists hp, (A ++ x :: B); split; [done|]; apply elem_of_app; rewrite elem_of_cons; tauto|]).
      * intros ->. apply (N1 x Hin). left.
      * by intros ->.
    + right. split; [by exists h2, l|]. intros ->. apply Hn.
      apply (ea_disj _ _ HE hp h2 (A ++ x :: B) l x); [done|done|apply elem_mid|done].
  - intros [->|[(h2 & l & H & Hin) Hn]].
    + exists hp, (A ++ n :: B). rewrite lookup_insert_eq. split; [done|apply elem_mid].
    + destruct (decide (h2 = hp)) as [->|Hne].
      * exists hp, (A ++ n :: B). rewrite lookup_insert_eq. split; [done|].
        assert (l = A ++ x :: B) as -> by congruence.
        rewrite elem_of_app, elem_of_cons in *. naive_solver.
      * exists h2, l. by rewrite lookup_insert_ne.
Qed.

End EaInsert.

(** ** Taking a record *)

(** From [s] to [s'] the record [x] was taken: its word is reset, and only lv
    links and the free list changed otherwise. *)
Record taken (s s' : kvars) (x : Z) : Prop := {
  tk_rdom : rdom s' = rdom s;
  tk_core : core s' = core s;
  tk_words : words s' = words s;
  tk_tlbies : tlbies s' = tlbies s;
  tk_cell a : cell s' a = cell s a;
  tk_pe a : a <> x -> pe s' a = pe s a;
  tk_new : pe s' x = Some 0 \/ pe s' x = Some PENT_LV_HEAD
}.

Lemma taken_flag s s' x a m : taken s s' x -> a <> x -> flag s' a m = flag s a m.
Proof. intros H Ha. unfold flag. by rewrite (tk_pe _ _ _ H). Qed.

Lemma FREE_pop s s' x F :
  rdom s' = rdom s -> fpents s' = lvn s x -> (forall y, y ∈ F -> lvn s' y = lvn s y) ->
  FREE s (x :: F) -> FREE s' F.
Proof.
  intros Hd Hp Hl [Hnd (p & H1 & -> & H2 & n & H3 & H4)].
  apply list.NoDup_cons in Hnd as [_ Hnd]. split; [done|]. exists n. split; [congruence|].
  by apply (flist_ext s).
Qed.

Lemma pop_pent_ok s x F :
  FREE s (x :: F) -> exists n, lvn s x = Some n /\ pop_pent s = Some (x, wfp n s).
Proof.
  intros [_ (p & Hp & -> & _ & n & Hn & _)]. exists n. split; [done|].
  unfold pop_pent. rewrite kbind, (vi_get_fp _ _ Hp), kbind.
  apply recs_lvn in Hn as (r & Hr & Hv). rewrite (rec_get_eq _ _ _ Hr), kbind, Hv.
  rewrite vi_mod_fp; [done|]. by apply (fpents_vinfo _ _ Hp).
Qed.

(** The invariant after a record was taken, for the ea rings [E2] it is about
    to enter *)
Lemma links_taken s s' E E2 L L' F F' x :
  mt s E L F -> taken s s' x -> ~ inE E x -> (forall y, inE E2 y <-> y = x \/ inE E y) ->
  LV s' L' -> FREE s' F' ->
  (forall h ys, L' !! h = Some ys -> exists ys0, L !! h = Some ys0 /\
     forall y, y ∈ ys <-> y ∈ ys0 \/ (y = x /\ x ∈ ys)) ->
  (forall h, is_Some (L !! h) -> is_Some (L' !! h)) ->
  (forall a, ~ inL L' a -> a <> x -> lvn s' a = lvn s a) ->
  (~ inL L' x -> lvn s' x = Some 0 /\ flag s' x PENT_LV_HEAD = false) ->
  (forall y, y ∈ F' -> y ∈ F /\ y <> x) ->
  links s' E2 L' F'.
Proof.
  intros [HE HL HF Hu Hh Ht Hfr] Htk HxE HE2 HL' HF' HL1 HL2 Hln Hx HFx.
  assert (HinL : forall y, y <> x -> inL L' y <-> inL L y).
  { intros y Hy. split.
    - intros (h & ys & Hhy & Hin). destruct (HL1 h ys Hhy) as (ys0 & H0 & Heq).
      exists h, ys0. split; [done|]. apply elem_of_cons in Hin. rewrite Heq in Hin. apply elem_of_cons. tauto.
    - intros (h & ys & Hhy & Hin). destruct (HL2 h) as [ys1 H1]; [by eexists|].
      destruct (HL1 h ys1 H1) as (ys0 & H0 & Heq). assert (ys0 = ys) by congruence. subst ys0.
      exists h, ys1. split; [done|]. apply elem_of_cons in Hin. apply elem_of_cons. rewrite Heq. tauto. }
  assert (Hx0 : forall m, m = PENT_UNUSED -> flag s' x m = false).
  { intros m ->. unfold flag. by destruct (tk_new _ _ _ Htk) as [-> | ->]. }
  split; [done|done|..].
  - intros y Hy Hn. apply HE2 in Hy. destruct (decide (y = x)) as [->|Hyx]; [by apply Hx|].
    rewrite Hln, (taken_flag s s' x y PENT_LV_HEAD Htk) by done. apply Hu; [tauto|]. by rewrite <- HinL.
  - intros h ys Hhy. destruct (HL1 h ys Hhy) as (ys0 & H0 & _). rewrite HE2.
    destruct (decide (h = x)) as [->|Hhx]; [rewrite Hx0 by done; tauto|].
    rewrite (taken_flag s s' x h PENT_UNUSED Htk) by done. rewrite (Hh h ys0 H0). tauto.
  - intros h ys y Hhy Hy. destruct (HL1 h ys Hhy) as (ys0 & H0 & Heq). apply HE2.
    destruct (proj1 (Heq y) Hy) as [Hy'|[-> _]]; [|by left]. right. by apply (Ht h ys0).
  - intros y Hy. destruct (HFx y Hy) as [H1 H2]. destruct (Hfr y H1) as [H3 H4].
    rewrite HE2, HinL by done. tauto.
Qed.

(** The record [x] is in the lv ring of the page of [lvptr]. *)
Definition lv_member (L : gmap Z (list Z)) (lvrange : option pte_lvrange) (lvptr x : Z) : Prop :=
  match lvrange with
  | Some lvr => exists ys, L !! Mtable.lv_head lvr lvptr = Some ys /\ x ∈ Mtable.lv_head lvr lvptr :: ys
  | None => True
  end.

Lemma lv_relinked_refl s X : relinked s s X.
Proof. by split. Qed.

Lemma relinked_wlv s s1 x v X : relinked s s1 X -> x ∈ rdom s -> X x -> relinked s (wlv x v s1) X.
Proof.
  intros H Hx HX. apply (lv_relinked_trans _ s1); [done|].
  apply lv_relinked_wlv; [by rewrite (rl_rdom _ _ _ H)|done].
Qed.

Lemma rdom_wlv x v s : rdom (wlv x v s) = rdom s.
Proof. apply rdom_wrec. Qed.

Lemma pe_set s x b a : x ∈ rdom s -> pe (wpe x (fun _ => b) s) a = if decide (a = x) then Some b else pe s a.
Proof.
  intros Hx. rewrite pe_wpe. case_decide; [subst|done].
  apply rdom_lookup in Hx as [r Hr]. unfold pe. by rewrite Hr.
Qed.

(** Resetting the word of [x] after changes of lv links *)
Lemma taken_relinked s s1 x X b :
  relinked s s1 X -> x ∈ rdom s -> b = 0 \/ b = PENT_LV_HEAD -> taken s (wpe x (fun _ => b) s1) x.
Proof.
  intros [R1 R2 R3 R4 R5 R6 R7] Hx Hb.
  assert (Hpe : forall a, pe (wpe x (fun _ => b) s1) a = if decide (a = x) then Some b else pe s a).
  { intros a. rewrite pe_set by (by rewrite R1). by rewrite R6. }
  split; [|done|done|done|..].
  - unfold wpe. by rewrite rdom_wrec.
  - intros a. by rewrite cell_wpe, R5.
  - intros a Ha. by rewrite Hpe, decide_False.
  - rewrite Hpe, decide_True by done. destruct Hb as [-> | ->]; [by left|by right].
Qed.

(** What [get_free_pent] promises to its callers *)
Definition got (s s' : kvars) (E L : gmap Z (list Z)) (lvrange : option pte_lvrange) (lvptr x : Z) : Prop :=
  taken s s' x /\ x ∈ rdom s /\ ~ inE E x /\
  exists L' F', lv_member L' lvrange lvptr x /\ (forall h, is_Some (L' !! h) <-> is_Some (L !! h)) /\
    forall E2, (forall y, inE E2 y <-> y = x \/ inE E y) -> links s' E2 L' F'.

Lemma got_none s E L x F lvptr :
  mt s E L (x :: F) ->
  exists s', get_free_pent None lvptr s = Some (x, s') /\ got s s' E L None lvptr x.
Proof.
  intros Hmt. pose proof Hmt as [HE HL HF Hu Hh Ht Hfr].
  destruct (pop_pent_ok s x F HF) as (n & Hn & Hpop). pose proof (lvn_rdom _ _ _ Hn) as Hx.
  destruct (Hfr x ltac:(left)) as [HxE HxL].
  unfold get_free_pent. rewrite kbind, Hpop, kbind, rec_mod_eq by (by apply elem_of_dom).
  rewrite kbind, rec_mod_eq, kret by (apply elem_of_dom; change (x ∈ rdom (wlv x 0 (wfp n s))); unfold wlv; by rewrite rdom_wrec).
  set (s' := wpe x (fun _ => 0) (wlv x 0 (wfp n s))). exists s'. split; [done|].
  assert (Hl : forall a, lvn s' a = if decide (a = x) then Some 0 else lvn s a).
  { intros a. unfold s'. by rewrite lvn_wpe, lvn_wlv. }
  assert (Htk : taken s s' x).
  { apply (taken_relinked s _ x (fun _ => True)); [|done|by left].
    apply (lv_relinked_trans _ (wfp n s)); [apply lv_relinked_wfp|by apply lv_relinked_wlv]. }
  split; [done|]. split; [done|]. split; [done|]. exists L, F. split; [done|]. split; [done|].
  intros E2 HE2. apply (links_taken s s' E E2 L L (x :: F) F x); try done.
  - apply (LV_frame HL).
    + intros a Ha. rewrite Hl, decide_False; [done|]. by intros ->.
    + intros a Ha. apply (taken_flag _ _ _ _ _ Htk). by intros ->.
  - apply (FREE_pop s s' x); [apply Htk| | |done].
    + change (fpents (wfp n s) = lvn s x). rewrite fpents_wfp, Hn; [done|].
      destruct HF as [_ (p & Hp & _)]. by eexists.
    + intros y Hy. rewrite Hl, decide_False; [done|]. intros ->.
      destruct HF as [Hnd _]. by apply list.NoDup_cons in Hnd as [? _].
  - intros h ys Hhy. exists ys. split; [done|]. intros y. split; [by left|]. intros [?|[-> ?]]; done.
  - intros a _ Ha. by rewrite Hl, decide_False.
  - intros _. rewrite Hl, decide_True by done. split; [done|].
    unfold flag, s'. rewrite pe_set, decide_True by (done || by rewrite rdom_wlv). done.
  - intros y Hy. split; [by right|]. intros ->.
    destruct HF as [Hnd _]. by apply list.NoDup_cons in Hnd as [? _].
Qed.

(** The unused head of the page is taken. *)
Lemma got_head s E L F lvr lvptr :
  let h := Mtable.lv_head lvr lvptr in
  mt s E L F -> is_Some (L !! h) -> flag s h PENT_UNUSED = true ->
  exists s', get_free_pent (Some lvr) lvptr s = Some (h, s') /\ got s s' E L (Some lvr) lvptr h.
Proof.
  intros h Hmt [ys Hy] Hun. pose proof Hmt as [HE HL HF Hu Hh Ht Hfr].
  pose proof (lv_rdom HL h ys h Hy ltac:(left)) as Hhd.
  assert (HhE : ~ inE E h) by (intros H; apply (Hh h ys Hy) in H; congruence).
  unfold get_free_pent. fold h. rewrite kbind. pose proof Hhd as [r Hr]%rdom_lookup.
  rewrite (rec_get_eq _ _ _ Hr), <- (recs_flag _ _ _ _ Hr), Hun.
  rewrite kbind, rec_mod_eq, kret by (by apply elem_of_dom).
  set (s' := wpe h (fun _ => PENT_LV_HEAD) s). exists s'. split; [done|].
  assert (Htk : taken s s' h).
  { apply (taken_relinked s s h (fun _ => True)); [apply lv_relinked_refl|done|by right]. }
  assert (Hl : forall a, lvn s' a = lvn s a) by (intros a; by apply lvn_wpe).
  assert (Hhf : flag s' h PENT_LV_HEAD = true).
  { unfold flag, s'. by rewrite pe_set, decide_True. }
  split; [done|]. split; [done|]. split; [done|]. exists L, F.
  split; [exists ys; split; [done|left]|]. split; [done|].
  intros E2 HE2. apply (links_taken s s' E E2 L L F F h); try done.
  - apply (LV_frame HL); [done|]. intros a Ha. destruct (decide (a = h)) as [->|Hn].
    + rewrite Hhf. symmetry. by apply (Rings.lv_head _ _ HL h ys).
    + by apply (taken_flag _ _ _ _ _ Htk).
  - by apply (FREE_frame s); [apply Htk| | |].
  - intros h2 l2 Hh2. exists l2. split; [done|]. intros y. split; [by left|]. by intros [?|[-> ?]].
  - intros Hn. destruct Hn. exists h, ys. split; [done|left].
  - intros y Hyf. split; [done|]. intros ->. apply (Hfr h Hyf). exists h, ys. split; [done|left].
Qed.

(** A record of the free list is linked after the head of the page. *)
Lemma got_tail s E L x F lvr lvptr :
  let h := Mtable.lv_head lvr lvptr in
  mt s E L (x :: F) -> is_Some (L !! h) -> flag s h PENT_UNUSED = false ->
  exists s', get_free_pent (Some lvr) lvptr s = Some (x, s') /\ got s s' E L (Some lvr) lvptr x.
Proof.
  intros h Hmt [ys Hy] Hun. pose proof Hmt as [HE HL HF Hu Hh Ht Hfr].
  destruct (pop_pent_ok s x F HF) as (n & Hn & Hpop). pose proof (lvn_rdom _ _ _ Hn) as Hx.
  destruct (Hfr x ltac:(left)) as [HxE HxL].
  pose proof (lv_rdom HL h ys h Hy ltac:(left)) as Hhd.
  assert (Hxh : x <> h) by (intros ->; apply HxL; exists h, ys; split; [done|left]).
  assert (HxF : x ∉ F) by (destruct HF as [Hnd _]; by apply list.NoDup_cons in Hnd as [? _]).
  unfold get_free_pent. fold h. rewrite kbind. pose proof Hhd as [r Hr]%rdom_lookup.
  rewrite (rec_get_eq _ _ _ Hr), <- (recs_flag _ _ _ _ Hr), Hun.
  rewrite kbind, Hpop, kbind, (rec_get_eq h r (wfp n s)) by done.
  rewrite kbind, rec_mod_eq by (by apply elem_of_dom).
  rewrite kbind, rec_mod_eq by (apply elem_of_dom; change (h ∈ rdom (wlv x (lv_next r) (wfp n s))); by rewrite rdom_wlv).
  rewrite kbind, rec_mod_eq, kret by (apply elem_of_dom;
    change (x ∈ rdom (wlv h x (wlv x (lv_next r) (wfp n s)))); by rewrite !rdom_wlv).
  set (s' := wpe x (fun _ => 0) (wlv h x (wlv x (lv_next r) (wfp n s)))). exists s'. split; [done|].
  assert (Htk : taken s s' x).
  { apply (taken_relinked s _ x (fun _ => True)); [|done|by left].
    repeat apply relinked_wlv; try done. apply lv_relinked_wfp. }
  assert (Hl : forall a, lvn s' a = if decide (a = h) then Some x else
      if decide (a = x) then lvn s h else lvn s a).
  { intros a. unfold s'. rewrite lvn_wpe, lvn_wlv by (by rewrite rdom_wlv).
    case_decide; [done|]. rewrite lvn_wlv by done. case_decide; [|done].
    unfold lvn at 1. by rewrite Hr. }
  assert (Hfx : flag s' x PENT_LV_HEAD = false).
  { unfold flag, s'. rewrite pe_set, decide_True by (done || by rewrite !rdom_wlv). done. }
  split; [done|]. split; [done|]. split; [done|]. exists (<[h := x :: ys]> L), F.
  split; [exists (x :: ys); rewrite lookup_insert_eq; split; [done|right; left]|].
  split; [intros h2; destruct (decide (h2 = h)) as [->|Hne];
    [rewrite lookup_insert_eq, Hy; split; intros _; by eexists|by rewrite lookup_insert_ne]|].
  intros E2 HE2. apply (links_taken s s' E E2 L _ (x :: F) F x); try done.
  - apply (LV_insert HL s' h ys x); try done.
    + by rewrite Hl, decide_True.
    + by rewrite Hl, decide_False, decide_True.
    + intros a Ha Hah. rewrite Hl, decide_False, decide_False; [done| |done]. by intros ->.
    + intros a Ha. apply (taken_flag _ _ _ _ _ Htk). by intros ->.
  - apply (FREE_pop s s' x); [apply Htk| | |done].
    + change (fpents (wfp n s) = lvn s x). rewrite fpents_wfp, Hn; [done|].
      destruct HF as [_ (p & Hp & _)]. by eexists.
    + intros y Hyf. rewrite Hl, decide_False, decide_False; [done|by intros ->|].
      intros ->. apply (Hfr h); [by right|]. exists h, ys. split; [done|left].
  - intros h2 l2 [[<- <-]|[Hne H2]]%lookup_insert_Some.
    + exists ys. split; [done|]. intros y. rewrite !elem_of_cons. naive_solver.
    + exists l2. split; [done|]. intros y. split; [by left|]. by intros [?|[-> ?]].
  - intros h2 H2. destruct (decide (h2 = h)) as [->|Hne]; [by rewrite lookup_insert_eq|].
    by rewrite lookup_insert_ne.
  - intros a Ha Hax. rewrite Hl, decide_False, decide_False; [done|done|]. intros ->. apply Ha.
    exists h, (x :: ys). rewrite lookup_insert_eq. split; [done|left].
  - intros Hn2. destruct Hn2. exists h, (x :: ys). rewrite lookup_insert_eq. split; [done|right; left].
  - intros y Hyf. split; [by right|]. by intros ->.
Qed.

(** [get_free_pent] of a page in use, with a free record at hand *)
Lemma get_free_pent_ok s E L F lvrange lvptr :
  mt s E L F -> F <> [] ->
  match lvrange with Some lvr => is_Some (L !! Mtable.lv_head lvr lvptr) | None => True end ->
  exists x s', get_free_pent lvrange lvptr s = Some (x, s') /\ got s s' E L lvrange lvptr x.
Proof.
  intros Hmt HF Hlv. destruct F as [|x F]; [done|]. destruct lvrange as [lvr|].
  - destruct (flag s (Mtable.lv_head lvr lvptr) PENT_UNUSED) eqn:Hun.
    + eexists. by apply (got_head s E L (x :: F)).
    + exists x. by apply (got_tail s E L x F).
  - exists x. by apply (got_none s E L x F).
Qed.

(** ** The word of a new record *)

Lemma land_sub i m n : i .& m = i -> i .& n = i .& (m .& n).
Proof. intros H. by rewrite Z.land_assoc, H. Qed.

Section Word.
Context (q l i c e : Z).
Context (Hq : q = 0 \/ q = PENT_LV_HEAD) (Hl : l = 0 \/ l = PENT_EA_LAST).
Context (Hi : i .& PENT_INDEX_MASK = i) (Hc : c .& PENT_CMP_MASK = c).
Context (He : e = 0 \/ e = PENT_EA_BIT14).

Definition pent_word : Z := q .| l .| i .| c .| e.

Lemma pent_word_land m :
  pent_word .& m = (q .& m) .| (l .& m) .| (i .& (PENT_INDEX_MASK .& m)) .| (c .& (PENT_CMP_MASK .& m)) .| (e .& m).
Proof. unfold pent_word. rewrite !Z.land_lor_distr_l. by rewrite (land_sub i _ m Hi), (land_sub c _ m Hc). Qed.

Lemma word_index : pent_word .& PENT_INDEX_MASK = i.
Proof.
  rewrite pent_word_land, Z.land_diag, Hi. replace (PENT_CMP_MASK .& PENT_INDEX_MASK) with 0 by reflexivity.
  rewrite Z.land_0_r, Z.lor_0_r.
  destruct Hq as [-> | ->], Hl as [-> | ->], He as [-> | ->]; apply Z.lor_0_r.
Qed.

Lemma word_cmp : pent_word .& PENT_CMP_MASK = c.
Proof.
  rewrite pent_word_land, Z.land_diag, Hc. replace (PENT_INDEX_MASK .& PENT_CMP_MASK) with 0 by reflexivity.
  rewrite Z.land_0_r, Z.lor_0_r.
  destruct Hq as [-> | ->], Hl as [-> | ->], He as [-> | ->]; apply Z.lor_0_r.
Qed.

Lemma word_ea14 : pent_word .& PENT_EA_BIT14 = e.
Proof.
  rewrite pent_word_land. replace (PENT_INDEX_MASK .& PENT_EA_BIT14) with 0 by reflexivity.
  replace (PENT_CMP_MASK .& PENT_EA_BIT14) with 0 by reflexivity. rewrite !Z.land_0_r, !Z.lor_0_r.
  by destruct Hq as [-> | ->], Hl as [-> | ->], He as [-> | ->].
Qed.

(** The flags are those of [q] and [l]. *)
Lemma word_flag m :
  PENT_INDEX_MASK .& m = 0 -> PENT_CMP_MASK .& m = 0 -> PENT_EA_BIT14 .& m = 0 ->
  tst pent_word m = tst (q .| l) m.
Proof.
  intros H1 H2 H3. unfold tst. rewrite pent_word_land, H1, H2, !Z.land_0_r, !Z.lor_0_r.
  assert (e .& m = 0) as -> by (destruct He as [-> | ->]; [apply Z.land_0_l|done]).
  by rewrite Z.lor_0_r, Z.land_lor_distr_l.
Qed.

End Word.

(** ** Linking a new record *)

(** From [s] to [s'] the record [x] was linked in the cell [p], with the link
    [v] and the word [w]. *)
Record placed (s s' : kvars) (p x v w : Z) : Prop := {
  pl_rdom : rdom s' = rdom s;
  pl_core : core s' = core s;
  pl_words : words s' = words s;
  pl_tlbies : tlbies s' = tlbies s;
  pl_fpents : fpents s' = fpents s;
  pl_lvn a : lvn s' a = lvn s a;
  pl_cell a : okcell s a -> cell s' a = if decide (a = p) then Some x else if decide (a = x) then Some v else cell s a;
  pl_pe a : pe s' a = if decide (a = x) then Some w else pe s a
}.

Lemma placed_flag s s' p x v w a m : placed s s' p x v w -> a <> x -> flag s' a m = flag s a m.
Proof. intros H Ha. unfold flag. by rewrite (pl_pe _ _ _ _ _ _ H), decide_False. Qed.

Lemma wcell_rec s x v : x ∈ rdom s -> wcell x v s = wrec x (set_ea_next v) s.
Proof. intros [r Hr]%rdom_lookup. unfold wcell. by rewrite Hr. Qed.

(** The three orders in which the code does it *)
Lemma placed_cells s p x v w (f : Z -> Z) :
  x ∈ rdom s -> p <> x -> okcell s p -> is_Some (cell s p) -> f <$> pe s x = Some w ->
  placed s (wcell p x (wcell x v (wpe x f s))) p x v w /\
  placed s (wcell x v (wpe x f (wcell p x s))) p x v w /\
  placed s (wpe x f (wcell p x (wcell x v s))) p x v w.
Proof.
  intros Hx Hpx Hp Hc Hw.
  assert (Hxc : forall s', rdom s' = rdom s -> is_Some (cell s' x)).
  { intros s' Hd. rewrite <- Hd in Hx. apply rdom_lookup in Hx as [r Hr]. unfold cell. rewrite Hr. by eexists. }
  assert (Hok : forall s' a, rdom s' = rdom s -> okcell s a -> okcell s' a).
  { intros s' a Hd. unfold okcell. by rewrite Hd. }
  assert (Hpe : forall a, pe (wpe x f s) a = if decide (a = x) then Some w else pe s a).
  { intros a. rewrite pe_wpe. case_decide; [by subst|done]. }
  assert (D1 : rdom (wpe x f s) = rdom s) by apply rdom_wrec.
  assert (D2 : rdom (wcell x v (wpe x f s)) = rdom s) by (by rewrite rdom_wcell).
  assert (D3 : rdom (wpe x f (wcell p x s)) = rdom s) by (unfold wpe; by rewrite rdom_wrec, rdom_wcell).
  assert (D4 : rdom (wpe x f (wcell p x (wcell x v s))) = rdom s) by (unfold wpe; by rewrite rdom_wrec, !rdom_wcell).
  split; [|split]; (split; [by rewrite ?rdom_wcell, ?D3, ?D4|..]).
  - by rewrite !(proj1 (proj2 (proj2 (proj2 (wcell_rest _ _ _))))).
  - by rewrite !(proj1 (proj2 (wcell_rest _ _ _))).
  - by rewrite !(proj1 (proj2 (proj2 (wcell_rest _ _ _)))).
  - by rewrite !(proj1 (wcell_rest _ _ _)).
  - intros a. by rewrite !lvn_wcell, lvn_wpe.
  - intros a Ha. assert (Hsub : cell (wcell x v (wpe x f s)) a = if decide (a = x) then Some v else cell s a).
    { rewrite cell_wcell, cell_wpe; [done|left; by rewrite D1|by apply Hok|by apply Hxc]. }
    rewrite cell_wcell, Hsub; [done|by apply Hok|by apply Hok|].
    rewrite cell_wcell, cell_wpe, decide_False; [done|done|left; by rewrite D1|by apply Hok|by apply Hxc].
  - intros a. by rewrite !pe_wcell.
  - by rewrite (proj1 (proj2 (proj2 (proj2 (wcell_rest _ _ _))))), <- (proj1 (proj2 (proj2 (proj2 (wcell_rest s p x))))).
  - by rewrite (proj1 (proj2 (wcell_rest _ _ _))), <- (proj1 (proj2 (wcell_rest s p x))).
  - by rewrite (proj1 (proj2 (proj2 (wcell_rest _ _ _)))), <- (proj1 (proj2 (proj2 (wcell_rest s p x)))).
  - by rewrite (proj1 (wcell_rest _ _ _)), <- (proj1 (wcell_rest s p x)).
  - intros a. by rewrite lvn_wcell, lvn_wpe, lvn_wcell.
  - intros a Ha. rewrite cell_wcell, cell_wpe; [|left; by rewrite D3|by apply Hok|by apply Hxc].
    rewrite cell_wcell by done. repeat case_decide; congruence.
  - intros a. rewrite pe_wcell, pe_wpe, !pe_wcell. case_decide; [by subst|done].
  - etrans; [|apply (proj1 (proj2 (proj2 (proj2 (wcell_rest s x v)))))].
    by rewrite <- (proj1 (proj2 (proj2 (proj2 (wcell_rest (wcell x v s) p x))))).
  - etrans; [|apply (proj1 (proj2 (wcell_rest s x v)))]. by rewrite <- (proj1 (proj2 (wcell_rest (wcell x v s) p x))).
  - etrans; [|apply (proj1 (proj2 (proj2 (wcell_rest s x v))))].
    by rewrite <- (proj1 (proj2 (proj2 (wcell_rest (wcell x v s) p x)))).
  - etrans; [|apply (proj1 (wcell_rest s x v))]. by rewrite <- (proj1 (wcell_rest (wcell x v s) p x)).
  - intros a. by rewrite lvn_wpe, !lvn_wcell.
  - intros a Ha. assert (Hsub : forall b, okcell s b -> cell (wcell x v s) b = if decide (b = x) then Some v else cell s b).
    { intros b Hb. apply cell_wcell; [by left|done|by apply Hxc]. }
    rewrite cell_wpe, cell_wcell, Hsub; [done|done|by apply Hok; [apply rdom_wcell|]|by apply Hok; [apply rdom_wcell|]|].
    rewrite Hsub, decide_False by done. done.
  - intros a. rewrite pe_wpe, !pe_wcell. case_decide; [by subst|done].
Qed.

Definition last_mark (xs : list Z) : Z := match xs with [] => PENT_EA_LAST | _ => 0 end.

Lemma last_mark_cases xs : last_mark xs = 0 \/ last_mark xs = PENT_EA_LAST.
Proof. destruct xs; [by right|by left]. Qed.

(** A linked record keeps its lv flags. *)
Lemma placed_links s s' p x v q l i c e E L F :
  placed s s' p x v (pent_word q l i c e) -> pe s x = Some q ->
  q = 0 \/ q = PENT_LV_HEAD -> l = 0 \/ l = PENT_EA_LAST -> e = 0 \/ e = PENT_EA_BIT14 ->
  i .& PENT_INDEX_MASK = i -> c .& PENT_CMP_MASK = c ->
  links s E L F -> links s' E L F.
Proof.
  intros Hp Hpe Hq Hl He Hi Hc. apply links_frame; try apply Hp.
  - intros a. destruct (decide (a = x)) as [->|Hn]; [|by apply (placed_flag _ _ _ _ _ _ _ _ Hp)].
    unfold flag. rewrite (pl_pe _ _ _ _ _ _ Hp), decide_True, Hpe by done. cbn [from_option].
    rewrite word_flag by done. by destruct Hq as [-> | ->], Hl as [-> | ->].
  - intros a. destruct (decide (a = x)) as [->|Hn]; [|by apply (placed_flag _ _ _ _ _ _ _ _ Hp)].
    unfold flag. rewrite (pl_pe _ _ _ _ _ _ Hp), decide_True, Hpe by done. cbn [from_option].
    rewrite word_flag by done. by destruct Hq as [-> | ->], Hl as [-> | ->].
Qed.

Lemma insert_mt s s1 s2 E L F lvrange lvptr hp xs x q i c e :
  mt s E L F -> got s s1 E L lvrange lvptr x -> E !! hp = Some xs -> pe s1 x = Some q ->
  i .& PENT_INDEX_MASK = i -> c .& PENT_CMP_MASK = c -> e = 0 \/ e = PENT_EA_BIT14 ->
  placed s1 s2 hp x (default hp (head xs)) (pent_word q (last_mark xs) i c e) ->
  exists L' F', mt s2 (<[hp := x :: xs]> E) L' F' /\ lv_member L' lvrange lvptr x /\
    (forall h, is_Some (L' !! h) <-> is_Some (L !! h)).
Proof.
  intros Hmt (Htk & Hx & HxE & L' & F' & Hmem & Hdom & Hlk) Hhp Hq Hi Hc He Hpl.
  pose proof Hmt as [HE _ _ _ _ _ _].
  pose proof (pl_cell _ _ _ _ _ _ Hpl) as Hpc. pose proof (pl_pe _ _ _ _ _ _ Hpl) as Hpp.
  exists L', F'. split; [|done]. apply mt_links.
  assert (Hqc : q = 0 \/ q = PENT_LV_HEAD).
  { destruct (tk_new _ _ _ Htk) as [H|H]; rewrite H in Hq; injection Hq as <-; auto. }
  assert (Hxhp : x <> hp) by (intros ->; by apply (ea_slot _ _ HE _ _ Hhp)).
  assert (Hok : forall a, okcell s a -> okcell s1 a).
  { intros a. unfold okcell. by rewrite (tk_rdom _ _ _ Htk). }
  assert (Hcell : forall a, okcell s a -> a <> hp -> a <> x -> cell s2 a = cell s a).
  { intros a Ha H1 H2. rewrite Hpc, !decide_False by auto. apply (tk_cell _ _ _ Htk). }
  split.
  - apply (EA_insert HE); try done.
    + etrans; [by apply Hpl|apply Htk].
    + rewrite Hpc, decide_True; [done|done|].
      apply Hok, (ea_okcell HE hp xs); [done|left].
    + rewrite Hpc, decide_False, decide_True; [done|done|done|]. apply Hok. by left.
    + intros a Ha _. by apply Hcell.
    + unfold flag. rewrite Hpp, decide_True by done. cbn [from_option].
      rewrite word_flag by (done || apply last_mark_cases). by destruct Hqc as [-> | ->], xs.
    + intros y Hy. assert (y <> x) by (by intros ->).
      rewrite (placed_flag s1 s2 hp x _ _ y _ Hpl) by done. by apply (taken_flag _ _ _ _ _ Htk).
  - apply (placed_links s1 s2 hp x (default hp (head xs)) q (last_mark xs) i c e); try done; [apply last_mark_cases|].
    apply Hlk. intros y. by apply inE_cons.
Qed.

(** ** Moving a record to the ring of another page *)

(** The invariant while the lv link of [x] is in the air *)
Record mt_but (x : Z) (s : kvars) (E L : gmap Z (list Z)) (F : list Z) : Prop := {
  mb_ea : EA s E;
  mb_lv : LV s L;
  mb_free : FREE s F;
  mb_unlinked y : inE E y -> ~ inL L y -> y <> x -> lvn s y = Some 0 /\ flag s y PENT_LV_HEAD = false;
  mb_head h ys : L !! h = Some ys -> (flag s h PENT_UNUSED = false <-> inE E h);
  mb_tail h ys y : L !! h = Some ys -> y ∈ ys -> inE E y;
  mb_fresh y : y ∈ F -> ~ inE E y /\ ~ inL L y;
  mb_in : inE E x /\ ~ inL L x /\ flag s x PENT_LV_HEAD = false
}.

(** "lv_next of pr is that of the head; lv_next of the head is pr" *)
Lemma link_after_head s E L F x h :
  mt_but x s E L F -> is_Some (L !! h) -> x ∈ rdom s ->
  exists L' s', (r ← rec_get h; rec_mod x (set_lv_next (lv_next r));; rec_mod h (set_lv_next x)) s = Some (tt, s') /\
    mt s' E L' F /\ (exists ys, L' !! h = Some ys /\ x ∈ h :: ys) /\
    (forall h2, is_Some (L' !! h2) <-> is_Some (L !! h2)) /\ relinked s s' (fun _ => True).
Proof.
  intros [HE HL HF Hu Hh Ht Hfr (HxE & HxL & Hxf)] [ys Hy] Hx.
  pose proof (lv_rdom HL h ys h Hy ltac:(left)) as Hhd. pose proof Hhd as [r Hr]%rdom_lookup.
  assert (Hxh : x <> h) by (intros ->; apply HxL; exists h, ys; split; [done|left]).
  set (s' := wlv h x (wlv x (lv_next r) s)). exists (<[h := x :: ys]> L), s'.
  assert (Hrl : relinked s s' (fun _ => True)) by (repeat apply relinked_wlv; try done; apply lv_relinked_refl).
  assert (Hl : forall a, lvn s' a = if decide (a = h) then Some x else
      if decide (a = x) then lvn s h else lvn s a).
  { intros a. unfold s'. rewrite lvn_wlv by (by rewrite rdom_wlv).
    case_decide; [done|]. rewrite lvn_wlv by done. case_decide; [|done].
    unfold lvn at 1. by rewrite Hr. }
  assert (Hfl : forall a m, flag s' a m = flag s a m) by (intros a m; apply (lv_relinked_flag _ _ _ _ _ Hrl)).
  split; [|split; [|split; [|split; [|done]]]].
  - rewrite kbind, (rec_get_eq _ _ _ Hr), kbind, rec_mod_eq by (by apply elem_of_dom).
    rewrite rec_mod_eq; [done|]. apply elem_of_dom. change (h ∈ rdom (wlv x (lv_next r) s)). by rewrite rdom_wlv.
  - split.
    + by apply (EA_relinked _ _ _ _ HE Hrl).
    + apply (LV_insert HL s' h ys x); try done.
      * by rewrite Hl, decide_True.
      * by rewrite Hl, decide_False, decide_True.
      * intros a Ha Hah. rewrite Hl, decide_False, decide_False; [done| |done]. by intros ->.
      * by rewrite Hfl.
    + apply (FREE_frame s); [apply Hrl|done| |done]. intros y Hyf. destruct (Hfr y Hyf) as [H1 H2].
      rewrite Hl, decide_False, decide_False; [done|by intros ->|].
      intros ->. apply H2. exists h, ys. split; [done|left].
    + intros y Hyy Hn. assert (~ inL L y /\ y <> x /\ y <> h) as [N1 [N2 N3]].
      { split_and!.
        - intros (h2 & l & H2 & H3). apply Hn. destruct (decide (h2 = h)) as [->|Hne].
          + exists h, (x :: ys). rewrite lookup_insert_eq. split; [done|].
            assert (l = ys) as -> by congruence. rewrite !elem_of_cons in *. tauto.
          + exists h2, l. by rewrite lookup_insert_ne.
        - intros ->. apply Hn. exists h, (x :: ys). rewrite lookup_insert_eq. split; [done|right; left].
        - intros ->. apply Hn. exists h, (x :: ys). rewrite lookup_insert_eq. split; [done|left]. }
      rewrite Hl, !decide_False, Hfl by done. by apply Hu.
    + intros h2 l [[<- <-]|[Hne H2]]%lookup_insert_Some; rewrite Hfl; [by apply (Hh h ys)|by apply (Hh h2 l)].
    + intros h2 l y [[<- <-]|[Hne H2]]%lookup_insert_Some H3; [|by apply (Ht h2 l)].
      apply elem_of_cons in H3 as [->|H3]; [done|by apply (Ht h ys)].
    + intros y Hyf. destruct (Hfr y Hyf) as [H1 H2]. split; [done|].
      intros (h2 & l & [[<- <-]|[Hne H3]]%lookup_insert_Some & H4).
      * apply elem_of_cons in H4 as [->|H4]; [apply H2; exists h, ys; split; [done|left]|].
        apply elem_of_cons in H4 as [->|H4]; [done|]. apply H2. exists h, ys. split; [done|by right].
      * apply H2. by exists h2, l.
  - exists (x :: ys). rewrite lookup_insert_eq. split; [done|right; left].
  - intros h2. destruct (decide (h2 = h)) as [->|Hne]; [|by rewrite lookup_insert_ne].
    rewrite lookup_insert_eq, Hy. split; intros _; by eexists.
Qed.

(** [for( p=pr->lv_next; !(p->pent & PENT_LV_HEAD); p=p->lv_next )] *)
Lemma find_head_ok s h : forall B x fuel,
  chain (lvn s) x B h -> flag s h PENT_LV_HEAD = true ->
  (forall y, y ∈ B -> flag s y PENT_LV_HEAD = false) -> h ∈ rdom s -> (S (length B) < fuel)%nat ->
  exists v, lvn s x = Some v /\
  (fix find_head f x : K Z :=
     match f with
     | O => kfail
     | S f' => q ← rec_get x; if tst (pent q) PENT_LV_HEAD then mret x
               else find_head f' (lv_next q)
     end) fuel v s = Some (h, s).
Proof.
  induction B as [|y B IH]; intros x fuel Hc Hh HB Hd Hf; destruct fuel as [|fuel]; cbn in Hf; try lia; cbn in Hc.
  - exists h. split; [done|]. pose proof Hd as [r Hr]%rdom_lookup.
    rewrite kbind, (rec_get_eq _ _ _ Hr), <- (recs_flag _ _ _ _ Hr), Hh. done.
  - destruct Hc as [Hxy Hc]. exists y. split; [done|].
    destruct (IH y fuel) as (v & Hv & E); [done|done| |done|lia|].
    { intros z Hz. apply HB. by right. }
    pose proof (recs_lvn _ _ _ Hv) as (r & Hr & Hrv).
    rewrite kbind, (rec_get_eq _ _ _ Hr), <- (recs_flag _ _ _ _ Hr), HB by left. by rewrite Hrv.
Qed.

(** From [s] to [s'] the record [x] of slot [hp], now [x'], was moved to the
    lv ring of the page of [lvptr]. *)
Definition moved (s s' : kvars) (E L : gmap Z (list Z)) (hp x x' : Z)
    (lvr : pte_lvrange) (lvptr : Z) : Prop :=
  exists E' L' F', mt s' E' L' F' /\ lv_member L' (Some lvr) lvptr x' /\
    (forall h, is_Some (L' !! h) <-> is_Some (L !! h)) /\
    rdom s' = rdom s /\ core s' = core s /\ words s' = words s /\ tlbies s' = tlbies s /\
    (exists xs, E' !! hp = Some xs /\ x' ∈ xs) /\
    (forall y, inE E' y <-> y = x' \/ (inE E y /\ y <> x)) /\
    (forall m, m .& not32 (PENT_UNUSED .| PENT_LV_HEAD) = m -> pbits s' x' m = pbits s x m) /\
    (forall y, inE E y -> y <> x -> pe s' y = pe s y).

Lemma moved_relinked s s' E L L' F hp x xs lvr lvptr :
  mt s' E L' F -> lv_member L' (Some lvr) lvptr x -> (forall h, is_Some (L' !! h) <-> is_Some (L !! h)) ->
  relinked s s' (fun _ => True) -> E !! hp = Some xs -> x ∈ xs -> moved s s' E L hp x x lvr lvptr.
Proof.
  intros H1 H2 H3 [R1 R2 R3 R4 R5 R6 R7] Hhp Hx. exists E, L', F.
  split_and!; try done; [by exists xs| |intros m _; unfold pbits; by rewrite R6].
  intros y. destruct (decide (y = x)) as [->|Hn]; [|tauto]. split; [by left|]. intros _. by exists hp, xs.
Qed.

(** Taking a record out of its lv ring *)
Lemma mt_but_unlink s E L F x h A B v :
  mt s E L F -> inE E x -> flag s x PENT_LV_HEAD = false -> L !! h = Some (A ++ x :: B) -> lvn s x = Some v ->
  let s' := wlv (lastd h A) v s in
  mt_but x s' E (<[h := A ++ B]> L) F /\ relinked s s' (fun _ => True).
Proof.
  intros [HE HL HF Hu Hh Ht Hfr] HxE Hxf Hhy Hv s'.
  pose proof (lv_nodup _ _ HL _ _ Hhy) as Hnd.
  assert (Hl : lastd h A ∈ rdom s) by (apply (lv_rdom HL h _ _ Hhy), lastd_mem).
  assert (HlL : inL L (lastd h A)) by (exists h, (A ++ x :: B); split; [done|apply lastd_mem]).
  assert (Hrl : relinked s s' (fun _ => True)) by (apply relinked_wlv; [apply lv_relinked_refl|done|done]).
  assert (Hln : forall a, a <> lastd h A -> lvn s' a = lvn s a).
  { intros a Ha. unfold s'. by rewrite lvn_wlv, decide_False. }
  assert (Hfl : forall a m, flag s' a m = flag s a m) by (intros a m; apply (lv_relinked_flag _ _ _ _ _ Hrl)).
  assert (HinL : forall y, y <> x -> inL (<[h := A ++ B]> L) y <-> inL L y).
  { intros y Hy. split.
    - intros (h2 & l & [[<- <-]|[Hn H]]%lookup_insert_Some & Hin); [|by exists h2, l].
      exists h, (A ++ x :: B). split; [done|]. rewrite elem_of_cons, elem_of_app in *.
      rewrite elem_of_cons. tauto.
    - intros (h2 & l & H & Hin). destruct (decide (h2 = h)) as [->|Hn].
      + exists h, (A ++ B). rewrite lookup_insert_eq. split; [done|].
        assert (l = A ++ x :: B) as -> by congruence. rewrite elem_of_cons, elem_of_app in *.
        rewrite elem_of_cons in Hin. tauto.
      + exists h2, l. by rewrite lookup_insert_ne. }
  split; [|done]. split.
  - by apply (EA_relinked _ _ _ _ HE Hrl).
  - apply (LV_remove HL s' h A x B Hhy).
    + unfold s'. by rewrite lvn_wlv, decide_True.
    + intros a _ Hn _. by apply Hln.
    + intros a _ _. by apply Hfl.
  - apply (FREE_frame s); [apply Hrl|done| |done]. intros y Hy. apply Hln. intros ->. by apply (Hfr _ Hy).
  - intros y Hy Hn Hyx. rewrite HinL in Hn by done. rewrite Hln, Hfl; [by apply Hu|by intros ->].
  - intros h2 l [[<- <-]|[Hn H]]%lookup_insert_Some; rewrite Hfl; [by apply (Hh h _ Hhy)|by apply (Hh h2 l)].
  - intros h2 l y [[<- <-]|[Hn H]]%lookup_insert_Some Hy; [|by apply (Ht h2 l)].
    apply (Ht h _ y Hhy). rewrite elem_of_app, elem_of_cons in *. tauto.
  - intros y Hy. destruct (Hfr y Hy) as [H1 H2]. split; [done|]. rewrite HinL; [done|]. by intros ->.
  - split_and!; [done| |by rewrite Hfl].
    intros (h2 & l & [[<- <-]|[Hn H]]%lookup_insert_Some & Hin).
    + rewrite app_comm_cons in Hin, Hnd. apply list.NoDup_app in Hnd as (_ & N1 & N2).
      apply list.NoDup_cons in N2 as [N2 _].
      apply elem_of_app in Hin as [Hin|Hin]; [apply (N1 x Hin); left|done].
    + apply Hn. apply (lv_disj _ _ HL h h2 _ l x Hhy H); [right; apply elem_mid|done].
Qed.

(** Records that are no heads, and the head of the page itself *)
Lemma relink_lv_tail s E L F hp xs x lvr lvptr :
  mt s E L F -> E !! hp = Some xs -> x ∈ xs -> is_Some (L !! Mtable.lv_head lvr lvptr) ->
  flag s x PENT_LV_HEAD = false ->
  exists s', relink_lv x lvr lvptr s = Some (tt, s') /\ moved s s' E L hp x x lvr lvptr.
Proof.
  intros Hmt Hhp Hxs HL0 Hf. set (h := Mtable.lv_head lvr lvptr) in *.
  pose proof Hmt as [HE HL HF Hu Hh Ht Hfr].
  assert (HxE : inE E x) by (by exists hp, xs).
  assert (Hx : x ∈ rdom s) by (by apply (ea_dom _ _ HE hp xs)). pose proof Hx as [r Hr]%rdom_lookup.
  unfold relink_lv. fold h. rewrite kbind, (rec_get_eq _ _ _ Hr), <- (recs_flag _ _ _ _ Hr), Hf.
  pose proof (mt_member s E L F x Hmt HxE) as Hm. rewrite Hf in Hm.
  assert (Hrv : lvn s x = Some (lv_next r)) by (unfold lvn; by rewrite Hr).
  destruct Hm as [[HxL Hl0]|(h' & A & B & Hh')].
  - assert (lv_next r = 0) as -> by congruence. change (0 =? 0) with true. cbv iota.
    destruct (link_after_head s E L F x h) as (L' & s' & E1 & M1 & M2 & M3 & M4); [|done|done|].
    { split; try done. intros y Hy Hn _. by apply Hu. }
    exists s'. split; [done|]. by apply (moved_relinked s s' E L L' F hp x xs).
  - pose proof (lv_chain _ _ HL _ _ Hh') as Hc. pose proof (lv_nodup _ _ HL _ _ Hh') as Hnd.
    apply chain_app in Hc as [HcA HcB].
    assert (Hin : forall a, a ∈ h' :: A ++ x :: B -> a ∈ rdom s) by (intros a; by apply (lv_rdom HL)).
    assert (Hfuel : (S (length (A ++ x :: B)) < ring_fuel s)%nat).
    { apply ring_fuel_ok; [by apply list.NoDup_cons in Hnd as [_ ?]|]. intros a Ha. apply Hin. by right. }
    rewrite length_app in Hfuel. cbn in Hfuel.
    destruct (find_head_ok s h' B x (ring_fuel s)) as (v & Hv & Hfind); [done| | |apply Hin; left|lia|].
    { by apply (Rings.lv_head _ _ HL h' (A ++ x :: B)). }
    { intros y Hy. apply (lv_tail _ _ HL h' _ y Hh'). apply elem_of_app. right. by right. }
    assert (v = lv_next r) as -> by congruence.
    rewrite (proj2 (Z.eqb_neq (lv_next r) 0)).
    2: { intros H0. apply (ea_null _ _ HE). rewrite H0 in Hv. destruct B as [|b B]; cbn in HcB.
         - rewrite Hv in HcB. injection HcB as <-. apply Hin. left.
         - destruct HcB as [HcB _]. rewrite Hv in HcB. injection HcB as <-. apply Hin. right.
           apply elem_of_app. right. right. left. }
    rewrite kbind, kget_eq, kbind, Hfind. destruct (Z.eqb_spec h' h) as [->|Hne].
    { exists s. split; [done|]. apply (moved_relinked s s E L L F hp x xs); try done.
      exists (A ++ x :: B). split; [done|]. right. apply elem_mid. }
    assert (HxA : x ∉ A).
    { apply list.NoDup_cons in Hnd as [_ Hnd]. apply list.NoDup_app in Hnd as (_ & Hnd & _).
      intros H. apply (Hnd x H). left. }
    rewrite kbind, (find_lv_prev_ok s x A) by (done || lia).
    assert (Hl : lastd h' A ∈ rdom s) by (apply Hin, lastd_mem).
    rewrite kbind, rec_mod_eq by (by apply elem_of_dom). fold (wlv (lastd h' A) (lv_next r) s).
    destruct (mt_but_unlink s E L F x h' A B (lv_next r) Hmt HxE Hf Hh' Hrv) as [Hmb Hrl].
    set (s1 := wlv (lastd h' A) (lv_next r) s) in *.
    destruct (link_after_head s1 E (<[h' := A ++ B]> L) F x h) as (L' & s' & E1 & M1 & M2 & M3 & M4); [done| | |].
    + by rewrite lookup_insert_ne.
    + by rewrite (rl_rdom _ _ _ Hrl).
    + exists s'. split; [done|]. apply (moved_relinked s s' E L L' F hp x xs); try done.
      * intros h2. rewrite M3. destruct (decide (h2 = h')) as [->|Hn2]; [|by rewrite lookup_insert_ne].
        rewrite lookup_insert_eq, Hh'. split; intros _; by eexists.
      * by apply (lv_relinked_trans _ s1).
Qed.

(** A head in use becomes an unused head. *)
Lemma links_drop_head s s' E E' L F x :
  links s E L F -> is_Some (L !! x) -> rdom s' = rdom s -> fpents s' = fpents s ->
  (forall a, lvn s' a = lvn s a) -> (forall a, flag s' a PENT_LV_HEAD = flag s a PENT_LV_HEAD) ->
  (forall a, flag s' a PENT_UNUSED = if decide (a = x) then true else flag s a PENT_UNUSED) ->
  (forall y, inE E' y <-> inE E y /\ y <> x) -> links s' E' L F.
Proof.
  intros [H1 H2 H3 H4 H5 H6] [ys Hys] Hd Hp Hl Hf Hu HE. split; [by apply (LV_frame H1)|by apply (FREE_frame s)|..].
  - intros y Hy. rewrite Hl, Hf. apply H3. by apply HE.
  - intros h l Hh. rewrite Hu, HE. case_decide as Hx; [split; [done|tauto]|].
    rewrite (H4 h l Hh). tauto.
  - intros h l y Hh Hy. apply HE. split; [by apply (H5 h l)|]. intros ->.
    assert (x = h) as <- by (apply (lv_disj _ _ H1 x h ys l x); [done|done|left|by right]).
    assert (l = ys) as -> by congruence.
    pose proof (lv_nodup _ _ H1 _ _ Hh) as Hnd. by apply list.NoDup_cons in Hnd as [? _].
  - intros y Hy. destruct (H6 y Hy). rewrite HE. tauto.
Qed.

(** The first record of the walk from [x] round its ring, and the last one
    before [x] *)
Lemma ring_walk s E hp A x B :
  EA s E -> E !! hp = Some (A ++ x :: B) ->
  exists v, cell s x = Some v /\ find_ea_prev (ring_fuel s) v x s = Some (lastd hp A, s).
Proof.
  intros HE Hhp. pose proof (ea_ring _ _ HE _ _ Hhp) as Hr. pose proof (ea_nodup_hp HE hp _ Hhp) as Hnd.
  assert (Hc : chain (cell s) hp (A ++ x :: B) hp) by (destruct (A ++ x :: B) eqn:El; [by destruct A|apply Hr]).
  apply cycle_rotate in Hc.
  assert (Hfuel : (S (length (A ++ x :: B)) < ring_fuel s)%nat).
  { apply ring_fuel_ok; [by apply (ea_nodup _ _ HE hp)|]. intros a. by apply (ea_dom _ _ HE hp). }
  rewrite length_app in Hfuel. cbn in Hfuel.
  assert (HxC : x ∉ B ++ hp :: A).
  { rewrite app_comm_cons in Hnd. apply list.NoDup_app in Hnd as (_ & N1 & N2).
    apply list.NoDup_cons in N2 as [N2 _]. rewrite elem_of_app. intros [H|H]; [done|]. apply (N1 x H). left. }
  assert (Hlst : lastd hp A = lastd x (B ++ hp :: A)) by (by rewrite lastd_app).
  assert (Hlen : length (B ++ hp :: A) = S (length A + length B)%nat) by (rewrite length_app; cbn; lia).
  destruct (B ++ hp :: A) as [|y C]; [done|]. cbn in Hc, Hlst, Hlen. destruct Hc as [Hxy Hc].
  exists y. split; [done|]. rewrite Hlst. apply find_ea_prev_ok; [done| |lia].
  intros H. apply HxC. by right.
Qed.

(** The word a record gives to the one that replaces it *)
Lemma heir_word q p m :
  q = 0 \/ q = PENT_LV_HEAD -> m .& not32 (PENT_UNUSED .| PENT_LV_HEAD) = m ->
  (q .| (p .& not32 (PENT_UNUSED .| PENT_LV_HEAD))) .& m = p .& m.
Proof.
  intros Hq Hm. rewrite Z.land_lor_distr_l, <- Z.land_assoc, (Z.land_comm (not32 _) m), Hm.
  assert (q .& m = 0) as ->; [|apply Z.lor_0_l]. destruct Hq as [-> | ->]; [done|].
  rewrite <- Hm, (Z.land_comm m), Z.land_assoc.
  replace (PENT_LV_HEAD .& not32 (PENT_UNUSED .| PENT_LV_HEAD)) with 0 by reflexivity. done.
Qed.

Lemma heir_flag q p m :
  q = 0 \/ q = PENT_LV_HEAD -> m = PENT_LV_HEAD \/ m = PENT_UNUSED ->
  tst (q .| (p .& not32 (PENT_UNUSED .| PENT_LV_HEAD))) m = tst q m.
Proof.
  intros Hq Hm. unfold tst. rewrite Z.land_lor_distr_l, <- Z.land_assoc.
  replace (not32 (PENT_UNUSED .| PENT_LV_HEAD) .& m) with 0 by (by destruct Hm as [-> | ->]).
  by rewrite Z.land_0_r, Z.lor_0_r.
Qed.

Section ReplaceHead.
Context {s s2 s5 : kvars} {E L : gmap Z (list Z)} {F : list Z} {lvr : pte_lvrange} {lvptr : Z}.
Context {hp x n v q pw : Z} {A B : list Z}.
Context (Hmt : mt s E L F) (Hgot : got s s2 E L (Some lvr) lvptr n).
Context (Hhp : E !! hp = Some (A ++ x :: B)) (Hxf : flag s x PENT_LV_HEAD = true).
Context (Hpx : pe s x = Some pw) (Hq : pe s2 n = Some q) (Hv : cell s x = Some v).
Context (Hpl : placed s2 s5 (lastd hp A) n v (q .| (pw .& not32 (PENT_UNUSED .| PENT_LV_HEAD)))).

Let s6 : kvars := wpe x (fun _ => PENT_LV_HEAD .| PENT_UNUSED) s5.

Lemma rh_q : q = 0 \/ q = PENT_LV_HEAD.
Proof. destruct Hgot as [Htk _], (tk_new _ _ _ Htk) as [H|H]; rewrite H in Hq; injection Hq as <-; auto. Qed.

Lemma rh_in : inE E x /\ x ∈ rdom s /\ x <> n.
Proof.
  pose proof Hmt as [HE _ _ _ _ _ _]. destruct Hgot as (_ & _ & HnE & _).
  assert (inE E x) by (exists hp, (A ++ x :: B); split; [done|apply elem_mid]).
  split; [done|]. split; [|by intros ->]. apply (ea_dom _ _ HE hp _ x Hhp), elem_mid.
Qed.

Lemma rh_pe a : pe s6 a = if decide (a = x) then Some (PENT_LV_HEAD .| PENT_UNUSED) else
  if decide (a = n) then Some (q .| (pw .& not32 (PENT_UNUSED .| PENT_LV_HEAD))) else pe s a.
Proof.
  destruct Hgot as (Htk & _). destruct rh_in as (_ & Hx & _).
  unfold s6. rewrite pe_set by (by rewrite (pl_rdom _ _ _ _ _ _ Hpl), (tk_rdom _ _ _ Htk)).
  case_decide; [done|]. rewrite (pl_pe _ _ _ _ _ _ Hpl). case_decide; [done|]. by apply (tk_pe _ _ _ Htk).
Qed.

Lemma rh_flag a m : a <> x -> a <> n -> flag s6 a m = flag s a m.
Proof. intros H1 H2. unfold flag. by rewrite rh_pe, !decide_False. Qed.

Lemma rh_rdom : rdom s6 = rdom s.
Proof.
  destruct Hgot as (Htk & _). unfold s6, wpe. rewrite rdom_wrec. etrans; [by apply Hpl|apply Htk].
Qed.

Lemma rh_cell a : okcell s a ->
  cell s6 a = if decide (a = lastd hp A) then Some n else if decide (a = n) then Some v else cell s a.
Proof.
  intros Ha. destruct Hgot as (Htk & _). unfold s6. rewrite cell_wpe, (pl_cell _ _ _ _ _ _ Hpl).
  - by rewrite (tk_cell _ _ _ Htk).
  - unfold okcell. by rewrite (tk_rdom _ _ _ Htk).
Qed.

Lemma rh_ea : EA s6 (<[hp := A ++ n :: B]> E).
Proof.
  pose proof Hmt as [HE _ _ _ _ _ _]. destruct Hgot as (Htk & Hn & HnE & _), rh_in as (HxE & Hx & Hxn).
  assert (Hok : okcell s (lastd hp A)) by (apply (ea_okcell HE hp _ _ Hhp), lastd_mem).
  assert (Hnl : n <> lastd hp A).
  { intros ->. pose proof (lastd_in A hp) as H. apply elem_of_cons in H as [H|H].
    - rewrite H in Hn. by apply (ea_slot _ _ HE _ _ Hhp).
    - apply HnE. exists hp, (A ++ x :: B). split; [done|]. apply elem_of_app. by left. }
  apply (EA_replace HE s6 hp A x B n); try done.
  - apply rh_rdom.
  - by rewrite rh_cell, decide_True.
  - rewrite rh_cell, decide_False, decide_True by (done || by left). done.
  - intros a Ha _ H1 H2. by rewrite rh_cell, !decide_False.
  - unfold flag. rewrite rh_pe, decide_False, decide_True, Hpx by congruence. cbn [from_option].
    unfold tst. by rewrite (heir_word q pw PENT_EA_LAST rh_q).
  - intros y Hy Hyx. apply rh_flag; [done|]. by intros ->.
Qed.

Lemma rh_moved : moved s s6 E L hp x n lvr lvptr.
Proof.
  pose proof Hmt as [HE HL _ _ _ _ _]. pose proof rh_in as (HxE & Hx & Hxn).
  pose proof Hgot as (Htk & Hn & HnE & L' & F' & Hmem & Hdom & Hlk).
  assert (HLx : is_Some (L !! x)).
  { pose proof (mt_member s E L F x Hmt HxE) as Hm. rewrite Hxf in Hm. apply Hm. }
  exists (<[hp := A ++ n :: B]> E), L', F'. split.
  - apply mt_links. split; [apply rh_ea|].
    apply (links_drop_head s2 s6 (<[hp := n :: A ++ x :: B]> E) _ L' F' x).
    + apply Hlk. intros y. by apply inE_cons.
    + by apply Hdom.
    + rewrite rh_rdom. symmetry. apply Htk.
    + change (fpents s5 = fpents s2). apply Hpl.
    + intros a. unfold s6. rewrite lvn_wpe. apply Hpl.
    + intros a. unfold flag. rewrite rh_pe. case_decide as H1; [subst a|case_decide as H2; [subst a|]].
      * rewrite (tk_pe _ _ _ Htk) by done. unfold flag in Hxf. by rewrite Hxf.
      * rewrite Hq. cbn [from_option]. apply heir_flag; [apply rh_q|by left].
      * by rewrite (tk_pe _ _ _ Htk).
    + intros a. unfold flag. rewrite rh_pe. case_decide as H1; [done|case_decide as H2; [subst a|]].
      * rewrite Hq. cbn [from_option]. apply heir_flag; [apply rh_q|by right].
      * by rewrite (tk_pe _ _ _ Htk).
    + intros y. rewrite (inE_replace HE hp A x B n y Hhp), (inE_cons E hp _ n y Hhp).
      destruct (decide (y = n)) as [->|]; naive_solver.
  - split; [done|]. split; [done|]. split; [apply rh_rdom|]. split; [|split; [|split; [|split; [|split; [|split]]]]].
    + change (core s5 = core s). etrans; [by apply Hpl|apply Htk].
    + change (words s5 = words s). etrans; [by apply Hpl|apply Htk].
    + change (tlbies s5 = tlbies s). etrans; [by apply Hpl|apply Htk].
    + exists (A ++ n :: B). rewrite lookup_insert_eq. split; [done|apply elem_mid].
    + intros y. by apply (inE_replace HE).
    + intros m Hm. unfold pbits. rewrite rh_pe, decide_False, decide_True, Hpx by congruence. cbn [from_option].
      apply heir_word; [apply rh_q|done].
    + intros y Hy Hyx. rewrite rh_pe, !decide_False; [done| |done]. by intros ->.
Qed.

End ReplaceHead.

Lemma pe_some s x : x ∈ rdom s -> exists r, recs s !! x = Some r /\ pe s x = Some (pent r).
Proof. intros [r Hr]%rdom_lookup. exists r. unfold pe. by rewrite Hr. Qed.

(** A record that heads the ring of another page *)
Lemma relink_lv_head s E L F hp A x B lvr lvptr :
  mt s E L F -> F <> [] -> E !! hp = Some (A ++ x :: B) -> is_Some (L !! Mtable.lv_head lvr lvptr) ->
  flag s x PENT_LV_HEAD = true ->
  exists x' s', relink_lv x lvr lvptr s = Some (tt, s') /\ moved s s' E L hp x x' lvr lvptr.
Proof.
  intros Hmt HF Hhp HL0 Hf. pose proof Hmt as [HE HL _ Hu Hh Ht Hfr].
  assert (HxE : inE E x) by (exists hp, (A ++ x :: B); split; [done|apply elem_mid]).
  assert (Hx : x ∈ rdom s) by (apply (ea_dom _ _ HE hp _ x Hhp), elem_mid).
  destruct (pe_some s x Hx) as (r & Hr & Hpx).
  assert (HLx : is_Some (L !! x)).
  { pose proof (mt_member s E L F x Hmt HxE) as Hm. rewrite Hf in Hm. apply Hm. }
  unfold relink_lv. rewrite kbind, (rec_get_eq _ _ _ Hr), <- (recs_flag _ _ _ _ Hr), Hf.
  rewrite (proj2 (Z.eqb_neq (lv_next r) 0)).
  2: { intros H0. destruct HLx as [ys Hys]. pose proof (lv_chain _ _ HL _ _ Hys) as Hc.
       assert (Hl : lvn s x = Some 0) by (unfold lvn; by rewrite Hr, <- H0).
       apply (ea_null _ _ HE). destruct ys as [|y ys]; cbn in Hc.
       - assert (x = 0) as <- by congruence. done.
       - destruct Hc as [Hc _]. assert (y = 0) as -> by congruence.
         apply (lv_rdom HL x _ 0 Hys). right. left. }
  destruct (Z.eqb_spec x (Mtable.lv_head lvr lvptr)) as [->|Hne].
  { exists (Mtable.lv_head lvr lvptr), s. split; [done|].
    apply (moved_relinked s s E L L F hp _ (A ++ Mtable.lv_head lvr lvptr :: B)); try done;
      [|apply elem_mid]. destruct HL0 as [ys Hys]. exists ys. split; [done|left]. }
  destruct (ring_walk s E hp A x B HE Hhp) as (v & Hv & Hwalk).
  assert (Hrv : ea_next r = v) by (unfold cell in Hv; rewrite Hr in Hv; congruence).
  destruct (get_free_pent_ok s E L F (Some lvr) lvptr Hmt HF HL0) as (n & s2 & Eg & Hgot).
  pose proof Hgot as (Htk & Hn & HnE & _). pose proof (tk_rdom _ _ _ Htk) as Hd2.
  assert (Hxn : x <> n) by (by intros ->).
  destruct (pe_some s2 n ltac:(by rewrite Hd2)) as (rn & Hrn & Hqn).
  destruct (pe_some s2 x ltac:(by rewrite Hd2)) as (r2 & Hr2 & Hpx2).
  rewrite (tk_pe _ _ _ Htk), Hpx in Hpx2 by done. injection Hpx2 as Hpr.
  assert (Hv2 : ea_next r2 = v).
  { pose proof (tk_cell _ _ _ Htk x) as Hc. rewrite Hv in Hc. unfold cell in Hc. rewrite Hr2 in Hc. congruence. }
  set (p := lastd hp A) in *.
  assert (Hpo : okcell s2 p /\ is_Some (cell s2 p) /\ p <> n).
  { split_and!.
    - unfold okcell. rewrite Hd2. apply (ea_okcell HE hp _ _ Hhp), lastd_mem.
    - rewrite (tk_cell _ _ _ Htk). apply (ea_cell_some HE hp _ _ Hhp), lastd_mem.
    - intros Hp. pose proof (lastd_in A hp) as H. fold p in H. rewrite Hp in H.
      apply elem_of_cons in H as [->|H]; [by apply (ea_slot _ _ HE _ _ Hhp)|].
      apply HnE. exists hp, (A ++ x :: B). split; [done|]. apply elem_of_app. by left. }
  destruct Hpo as (Hp1 & Hp2 & Hp3).
  rewrite kbind, kget_eq, kbind, Hrv, Hwalk, kbind, Eg, kbind, (rec_get_eq _ _ _ Hr2), Hv2, <- Hpr.
  set (f := fun w => w .| (pent r .& not32 (PENT_UNUSED .| PENT_LV_HEAD))).
  assert (Hd2n : n ∈ rdom s2) by (by rewrite Hd2).
  destruct (placed_cells s2 p n v (f (pent rn)) f) as (_ & _ & Hpl); try done; [by rewrite Hqn|].
  rewrite kbind, rec_mod_eq, <- (wcell_rec s2 n v Hd2n) by (by apply elem_of_dom).
  rewrite kbind, st_cell_eq.
  2: { rewrite cell_wcell; [by rewrite decide_False|by left|done|]. destruct (cell s2 n) eqn:En; [done|]. unfold cell in En. by rewrite Hrn in En. }
  rewrite kbind, rec_mod_eq.
  2: { apply elem_of_dom. change (n ∈ rdom (wcell p n (wcell n v s2))). by rewrite !rdom_wcell. }
  fold (wpe n f (wcell p n (wcell n v s2))). rewrite rec_mod_eq.
  2: { apply elem_of_dom. change (x ∈ rdom (wpe n f (wcell p n (wcell n v s2)))).
       unfold wpe. rewrite rdom_wrec, !rdom_wcell. by rewrite Hd2. }
  exists n. eexists. split; [reflexivity|].
  apply (rh_moved (q := pent rn) (v := v) (pw := pent r) Hmt Hgot Hhp Hf Hpx Hqn Hv Hpl).
Qed.

(** [relink_lv], whatever page the record maps so far *)
Lemma relink_lv_ok s E L F hp xs x lvr lvptr :
  mt s E L F -> F <> [] -> E !! hp = Some xs -> x ∈ xs -> is_Some (L !! Mtable.lv_head lvr lvptr) ->
  exists x' s', relink_lv x lvr lvptr s = Some (tt, s') /\ moved s s' E L hp x x' lvr lvptr.
Proof.
  intros Hmt HF Hhp Hx HL0. destruct (flag s x PENT_LV_HEAD) eqn:Hf.
  - apply list_elem_of_split in Hx as (A & B & ->). by apply (relink_lv_head s E L F hp A x B).
  - exists x. by apply (relink_lv_tail s E L F hp xs x).
Qed.

(** ** [pte_inserted] *)

Definition ring_match (s : kvars) (cmp y : Z) : bool := pbits s y PENT_CMP_MASK =? cmp.

Lemma ring_find_ok s cmp e : forall R x fuel,
  chain (cell s) x R e -> lasts s (x :: R) -> (forall y, y ∈ x :: R -> y ∈ rdom s) ->
  (length R < fuel)%nat ->
  ring_find fuel x cmp s = Some (List.find (ring_match s cmp) (x :: R), s).
Proof.
  induction R as [|y R IH]; intros x [|fuel] Hc [Hl Hls] Hd Hf; cbn in Hf; try lia; cbn in Hc;
    (destruct (pe_some s x) as (r & Hr & Hp); [apply Hd; left|]);
    cbn [ring_find]; rewrite kbind, (rec_get_eq _ _ _ Hr);
    assert (Hm : ring_match s cmp x = ((pent r .& PENT_CMP_MASK) =? cmp))
      by (unfold ring_match, pbits; by rewrite Hp);
    cbn [List.find]; rewrite Hm; (destruct (_ =? cmp); [done|]); rewrite <- (recs_flag _ _ _ _ Hr), Hl.
  - done.
  - destruct Hc as [H1 H2].
    assert (ea_next r = y) as -> by (unfold cell in H1; rewrite Hr in H1; congruence).
    cbn [bool_decide]. rewrite bool_decide_eq_false_2 by done.
    apply (IH y fuel); [done|done| |lia]. intros z Hz. apply Hd. by right.
Qed.

(** The word with a new index *)
Definition reindex (i p : Z) : Z := (p .& not32 PENT_INDEX_MASK) .| i.

Lemma reindex_index i p : i .& PENT_INDEX_MASK = i -> reindex i p .& PENT_INDEX_MASK = i.
Proof.
  intros Hi. unfold reindex. rewrite Z.land_lor_distr_l, Hi, <- Z.land_assoc.
  replace (not32 PENT_INDEX_MASK .& PENT_INDEX_MASK) with 0 by reflexivity.
  by rewrite Z.land_0_r, Z.lor_0_l.
Qed.

Lemma reindex_other i p m :
  i .& PENT_INDEX_MASK = i -> PENT_INDEX_MASK .& m = 0 -> not32 PENT_INDEX_MASK .& m = m ->
  reindex i p .& m = p .& m.
Proof.
  intros Hi H1 H2. unfold reindex. rewrite Z.land_lor_distr_l, <- Z.land_assoc, H2.
  by rewrite (land_sub i _ m Hi), H1, Z.land_0_r, Z.lor_0_r.
Qed.

Lemma reindex_mt s E L F x i :
  mt s E L F -> x ∈ rdom s -> i .& PENT_INDEX_MASK = i ->
  let s' := wpe x (reindex i) s in
  mt s' E L F /\ pbits s' x PENT_INDEX_MASK = i /\
  (forall m, PENT_INDEX_MASK .& m = 0 -> not32 PENT_INDEX_MASK .& m = m ->
     forall a, pbits s' a m = pbits s a m).
Proof.
  intros Hmt Hx Hi s'. destruct (pe_some s x Hx) as (r & Hr & Hp).
  assert (Hpe : forall a, pe s' a = if decide (a = x) then Some (reindex i (pent r)) else pe s a).
  { intros a. unfold s'. rewrite pe_wpe. case_decide; [|done]. subst. by rewrite Hp. }
  assert (Hb : forall m, PENT_INDEX_MASK .& m = 0 -> not32 PENT_INDEX_MASK .& m = m ->
     forall a, pbits s' a m = pbits s a m).
  { intros m H1 H2 a. unfold pbits. rewrite Hpe. case_decide; [|done]. subst. rewrite Hp. cbn.
    by apply reindex_other. }
  assert (Hf : forall m, PENT_INDEX_MASK .& m = 0 -> not32 PENT_INDEX_MASK .& m = m ->
     forall a, flag s' a m = flag s a m) by (intros m H1 H2 a; rewrite !flag_bits; by rewrite Hb).
  split; [|split; [|done]].
  - apply mt_links in Hmt as [HE Hlk]. apply mt_links. split.
    + apply (EA_frame HE); [apply rdom_wrec|intros a _ _; apply cell_wpe|]. intros y _. by apply Hf.
    + apply (links_frame s); try done; [apply rdom_wrec| |by apply Hf|by apply Hf].
      intros a. apply lvn_wpe.
  - unfold pbits. rewrite Hpe, decide_True by done. by apply reindex_index.
Qed.

Lemma pent_cmp_land v ea segreg : pent_cmp_of v ea segreg .& PENT_CMP_MASK = pent_cmp_of v ea segreg.
Proof.
  unfold pent_cmp_of. rewrite Z.land_lor_distr_l, <- Z.land_assoc.
  replace (PENT_TOPEA_MASK .& PENT_CMP_MASK) with PENT_TOPEA_MASK by reflexivity. by case_match.
Qed.

Lemma ea_bit14_cases ea : ea_bit14 ea = 0 \/ ea_bit14 ea = PENT_EA_BIT14.
Proof. unfold ea_bit14. case_match; [by right|by left]. Qed.

(** A PTE of the hardware hash, whose number fits the index of a record *)
Definition in_hash (h : hash_info) (pte : Z) : Prop :=
  h_base h + 8 * PTE_TO_IND h pte = pte /\ PTE_TO_IND h pte .& PENT_INDEX_MASK = PTE_TO_IND h pte.

(** What [pte_inserted] achieves: the record [x], in the ea ring of [hp] and
    in the lv ring of the page, has the index [i], the address bits [cmp] and
    the address bit 14 [e]; it takes the place of the record [old] of the same
    address, and all others keep their PTEs and addresses. *)
Record recorded (s s' : kvars) (E E' L L' : gmap Z (list Z)) (lvrange : option pte_lvrange)
    (lvptr hp x i cmp e : Z) (old : option Z) : Prop := {
  rd_rdom : rdom s' = rdom s;
  rd_core : core s' = core s;
  rd_words : words s' = words s;
  rd_tlbies : tlbies s' = tlbies s;
  rd_ring : exists xs', E' !! hp = Some xs' /\ x ∈ xs';
  rd_lv : lv_member L' lvrange lvptr x;
  rd_pages h : is_Some (L' !! h) <-> is_Some (L !! h);
  rd_index : pbits s' x PENT_INDEX_MASK = i;
  rd_cmp : pbits s' x PENT_CMP_MASK = cmp;
  rd_ea14 : pbits s' x PENT_EA_BIT14 = e;
  rd_members y : inE E' y <-> y = x \/ (inE E y /\ old <> Some y);
  rd_others y : inE E y -> old <> Some y -> y <> x ->
    pbits s' y PENT_INDEX_MASK = pbits s y PENT_INDEX_MASK /\
    pbits s' y PENT_CMP_MASK = pbits s y PENT_CMP_MASK /\
    pbits s' y PENT_EA_BIT14 = pbits s y PENT_EA_BIT14
}.

Lemma placed_recorded s s1 s2 E L F lvrange lvptr hp xs x q i c e :
  mt s E L F -> got s s1 E L lvrange lvptr x -> E !! hp = Some xs -> pe s1 x = Some q ->
  i .& PENT_INDEX_MASK = i -> c .& PENT_CMP_MASK = c -> e = 0 \/ e = PENT_EA_BIT14 ->
  placed s1 s2 hp x (default hp (head xs)) (pent_word q (last_mark xs) i c e) ->
  exists E' L' F', mt s2 E' L' F' /\ recorded s s2 E E' L L' lvrange lvptr hp x i c e None.
Proof.
  intros Hmt Hgot Hhp Hq Hi Hc He Hpl. pose proof Hmt as [HE _ _ _ _ _ _].
  destruct (insert_mt s s1 s2 E L F lvrange lvptr hp xs x q i c e) as (L' & F' & M1 & M2 & M3); try done.
  destruct Hgot as (Htk & Hx & HxE & _).
  assert (Hqc : q = 0 \/ q = PENT_LV_HEAD).
  { destruct (tk_new _ _ _ Htk) as [H|H]; rewrite H in Hq; injection Hq as <-; auto. }
  exists (<[hp := x :: xs]> E), L', F'. split; [done|]. split; try done.
  - etrans; [by apply Hpl|apply Htk].
  - etrans; [by apply Hpl|apply Htk].
  - etrans; [by apply Hpl|apply Htk].
  - etrans; [by apply Hpl|apply Htk].
  - exists (x :: xs). rewrite lookup_insert_eq. split; [done|left].
  - unfold pbits. rewrite (pl_pe _ _ _ _ _ _ Hpl), decide_True by done.
    apply word_index; (done || apply last_mark_cases).
  - unfold pbits. rewrite (pl_pe _ _ _ _ _ _ Hpl), decide_True by done.
    apply word_cmp; (done || apply last_mark_cases).
  - unfold pbits. rewrite (pl_pe _ _ _ _ _ _ Hpl), decide_True by done.
    apply word_ea14; (done || apply last_mark_cases).
  - intros y. rewrite (inE_cons E hp xs x y Hhp). naive_solver.
  - intros y _ _ Hyx. unfold pbits. by rewrite (pl_pe _ _ _ _ _ _ Hpl), decide_False, (tk_pe _ _ _ Htk).
Qed.

Lemma moved_recorded s s1 s' E L F lvr lvptr hp x x' i c e :
  mt s1 E L F -> rdom s1 = rdom s -> core s1 = core s -> words s1 = words s -> tlbies s1 = tlbies s ->
  (forall y, y <> x -> pe s1 y = pe s y) -> pbits s1 x PENT_INDEX_MASK = i -> pbits s1 x PENT_CMP_MASK = c ->
  pbits s1 x PENT_EA_BIT14 = e -> moved s1 s' E L hp x x' lvr lvptr ->
  exists E' L' F', mt s' E' L' F' /\ recorded s s' E E' L L' (Some lvr) lvptr hp x' i c e (Some x).
Proof.
  intros Hmt R1 R2 R3 R4 Hpe Hi Hc He (E' & L' & F' & M1 & M2 & M3 & M4 & M5 & M6 & M7 & M8 & M9 & M10 & M11).
  exists E', L', F'. split; [done|]. split; try done; try congruence.
  - by rewrite M10.
  - by rewrite M10.
  - by rewrite M10.
  - intros y. rewrite M9. naive_solver.
  - intros y Hy Hn Hyx. assert (y <> x) by congruence. unfold pbits. by rewrite M11, Hpe.
Qed.

(** The code that links a new record, in an empty ring or not *)
Lemma link_new s hp x xs i c e E :
  EA s E -> E !! hp = Some xs -> x ∈ rdom s -> ~ inE E x ->
  exists q s', pe s x = Some q /\ placed s s' hp x (default hp (head xs)) (pent_word q (last_mark xs) i c e) /\
  match xs with
  | [] => (st_cell hp x;;
      rec_mod x (fun q => set_pent (pent q .| PENT_EA_LAST .| i .| c .| e) q);;
      rec_mod x (set_ea_next hp)) s = Some (tt, s')
  | _ => (rec_mod x (fun q => set_pent (pent q .| i .| c .| e) q);;
      first ← ld_cell hp; rec_mod x (set_ea_next first);; st_cell hp x) s = Some (tt, s')
  end.
Proof.
  intros HE Hhp Hx HxE. destruct (pe_some s x Hx) as (r & Hr & Hp). exists (pent r).
  assert (Hn : hp <> x) by (intros <-; by apply (ea_slot _ _ HE _ _ Hhp)).
  assert (Hok : okcell s hp) by (apply (ea_okcell HE hp xs); [done|left]).
  assert (Hc : is_Some (cell s hp)) by (apply (ea_cell_some HE hp xs); [done|left]).
  pose proof (ring_first s _ _ (ea_ring _ _ HE _ _ Hhp)) as Hfirst.
  destruct xs as [|y xs].
  - destruct (placed_cells s hp x hp (pent_word (pent r) PENT_EA_LAST i c e)
      (fun q => q .| PENT_EA_LAST .| i .| c .| e)) as (_ & Hpl & _); try done; [by rewrite Hp|].
    eexists. split; [done|]. split; [exact Hpl|].
    rewrite kbind, st_cell_eq by done.
    rewrite kbind, rec_mod_eq by (apply elem_of_dom; change (x ∈ rdom (wcell hp x s)); by rewrite rdom_wcell).
    fold (wpe x (fun q => q .| PENT_EA_LAST .| i .| c .| e) (wcell hp x s)).
    assert (Hd : x ∈ rdom (wpe x (fun q => q .| PENT_EA_LAST .| i .| c .| e) (wcell hp x s))).
    { unfold wpe. by rewrite rdom_wrec, rdom_wcell. }
    rewrite rec_mod_eq by (by apply elem_of_dom). by rewrite <- wcell_rec.
  - destruct (placed_cells s hp x y (pent_word (pent r) 0 i c e)
      (fun q => q .| i .| c .| e)) as (Hpl & _ & _); try done.
    { rewrite Hp. cbn. unfold pent_word. by rewrite Z.lor_0_r. }
    eexists. split; [done|]. split; [exact Hpl|].
    rewrite kbind, rec_mod_eq by (by apply elem_of_dom).
    fold (wpe x (fun q => q .| i .| c .| e) s).
    assert (Hd : x ∈ rdom (wpe x (fun q => q .| i .| c .| e) s)) by (unfold wpe; by rewrite rdom_wrec).
    rewrite kbind, (ld_cell_eq hp y) by (by rewrite cell_wpe).
    rewrite kbind, rec_mod_eq by (by apply elem_of_dom). rewrite <- wcell_rec by done.
    rewrite st_cell_eq; [done|].
    rewrite cell_wcell; [|by left|right; by apply (ea_slot _ _ HE _ _ Hhp)|].
    2: { destruct (pe_some _ _ Hd) as (r' & Hr' & _). unfold cell. rewrite Hr'. by eexists. }
    rewrite decide_False by done.
    by rewrite cell_wpe.
Qed.

Lemma EA_taken s s1 E x : EA s E -> taken s s1 x -> ~ inE E x -> EA s1 E.
Proof.
  intros HE Htk Hx. apply (EA_frame HE); [apply Htk|intros a _ _; apply Htk|].
  intros y Hy. apply (taken_flag _ _ _ _ _ Htk). by intros ->.
Qed.

(** The branches of [pte_inserted] that record a new address *)
Lemma insert_new s E L F lvrange lvptr hp xs i c e :
  mt s E L F -> F <> [] -> E !! hp = Some xs ->
  match lvrange with Some lvr => is_Some (L !! Mtable.lv_head lvr lvptr) | None => True end ->
  i .& PENT_INDEX_MASK = i -> c .& PENT_CMP_MASK = c -> e = 0 \/ e = PENT_EA_BIT14 ->
  exists x s' E' L' F', mt s' E' L' F' /\ recorded s s' E E' L L' lvrange lvptr hp x i c e None /\
  match xs with
  | [] => (pr ← get_free_pent lvrange lvptr; st_cell hp pr;;
      rec_mod pr (fun q => set_pent (pent q .| PENT_EA_LAST .| i .| c .| e) q);;
      rec_mod pr (set_ea_next hp)) s = Some (tt, s')
  | _ => (pr ← get_free_pent lvrange lvptr; rec_mod pr (fun q => set_pent (pent q .| i .| c .| e) q);;
      first ← ld_cell hp; rec_mod pr (set_ea_next first);; st_cell hp pr) s = Some (tt, s')
  end.
Proof.
  intros Hmt HF Hhp Hlv Hi Hc He. pose proof Hmt as [HE _ _ _ _ _ _].
  destruct (get_free_pent_ok s E L F lvrange lvptr Hmt HF Hlv) as (x & s1 & Eg & Hgot).
  pose proof Hgot as (Htk & Hx & HxE & _).
  destruct (link_new s1 hp x xs i c e E) as (q & s2 & Hq & Hpl & Erun); [by apply (EA_taken s s1 E x)|done| |done|].
  { by rewrite (tk_rdom _ _ _ Htk). }
  destruct (placed_recorded s s1 s2 E L F lvrange lvptr hp xs x q i c e) as (E' & L' & F' & M1 & M2); try done.
  exists x, s2, E', L', F'. split; [done|]. split; [done|].
  destruct xs; by rewrite kbind, Eg.
Qed.

(** The branch of [pte_inserted] that reuses the record [y] *)
Lemma update_old s E L F lvrange lvptr hp xs y i c :
  mt s E L F -> F <> [] -> E !! hp = Some xs -> y ∈ xs ->
  match lvrange with Some lvr => is_Some (L !! Mtable.lv_head lvr lvptr) | None => True end ->
  i .& PENT_INDEX_MASK = i -> pbits s y PENT_CMP_MASK = c ->
  exists x s' E' L' F', mt s' E' L' F' /\ recorded s s' E E' L L' lvrange lvptr hp x i c (pbits s y PENT_EA_BIT14) (Some y) /\
    (rec_mod y (fun q => set_pent ((pent q .& not32 PENT_INDEX_MASK) .| i) q);;
     match lvrange with Some lvr => relink_lv y lvr lvptr | None => mret tt end) s = Some (tt, s').
Proof.
  intros Hmt HF Hhp Hy Hlv Hi Hc. pose proof Hmt as [HE _ _ _ _ _ _].
  assert (Hd : y ∈ rdom s) by (by apply (ea_dom _ _ HE hp xs)).
  destruct (reindex_mt s E L F y i Hmt Hd Hi) as (M1 & M2 & M3).
  rewrite kbind, rec_mod_eq by (by apply elem_of_dom).
  set (s1 := wpe y (reindex i) s) in *.
  change (wrec y (fun q => set_pent ((pent q .& not32 PENT_INDEX_MASK) .| i) q) s) with s1.
  assert (Hpe1 : forall z, z <> y -> pe s1 z = pe s z).
  { intros z Hz. unfold s1. by rewrite pe_wpe, decide_False. }
  assert (Hc1 : pbits s1 y PENT_CMP_MASK = c) by (by rewrite M3).
  assert (He1 : pbits s1 y PENT_EA_BIT14 = pbits s y PENT_EA_BIT14) by (by rewrite M3).
  assert (Hd1 : rdom s1 = rdom s) by apply rdom_wrec.
  destruct lvrange as [lvr|].
  - destruct (relink_lv_ok s1 E L F hp xs y lvr lvptr) as (x' & s' & Er & Hmv); try done.
    destruct (moved_recorded s s1 s' E L F lvr lvptr hp y x' i c (pbits s y PENT_EA_BIT14)) as (E' & L' & F' & G1 & G2); try done.
    by exists x', s', E', L', F'.
  - exists y, s1, E, L, F. split; [done|]. split; [|done]. split; try done.
    + by exists xs.
    + intros z. assert (inE E y) by (by exists hp, xs).
      destruct (decide (z = y)) as [->|]; [|naive_solver]. split; [by left|done].
    + intros z _ _ Hz. unfold pbits. by rewrite Hpe1.
Qed.

(** The address bit 14 of the record of [ea]: a record that is reused keeps
    its own, a new one takes it from [ea], whose bit 14 counted from the most
    significant bit is [Z.testbit ea 17]. *)
Definition rec_ea14 (s : kvars) (ea : Z) (old : option Z) : Z :=
  match old with
  | Some y => pbits s y PENT_EA_BIT14
  | None => if Z.testbit ea 17 then 2 ^ 29 else 0
  end.

Lemma ea_bit14_rec s ea : 0 <= ea -> ea_bit14 ea = rec_ea14 s ea None.
Proof.
  intros Hea. unfold ea_bit14, rec_ea14. change (MOL_BIT 14) with (1 .<< 17).
  by rewrite tst_bit by lia.
Qed.

(** The records of one ring share the bit, which is the low bit of
    [LEV2_IND]. *)
Lemma rec_ea14_flag s s' x ea cmp xs :
  (forall y, y ∈ xs -> flag s y PENT_EA_BIT14 = Z.testbit ea 17) ->
  pbits s' x PENT_EA_BIT14 = rec_ea14 s ea (List.find (ring_match s cmp) xs) ->
  flag s' x PENT_EA_BIT14 = Z.testbit ea 17.
Proof.
  intros Hxs Hx. rewrite flag_bits, Hx. destruct (List.find _ xs) as [y|] eqn:Ef; cbn [rec_ea14].
  - rewrite <- flag_bits. apply Hxs, list_elem_of_In. by apply find_some in Ef as [Hy _].
  - by destruct (Z.testbit ea 17).
Qed.

(** The address for [tlbie] is made of the number of the slot in its table
    and the address bit of the record. *)
Lemma tlb_ea_page s t x ea :
  0 <= ea -> t mod 128 = 0 -> flag s x PENT_EA_BIT14 = Z.testbit ea 17 ->
  tlb_ea s (slot_addr t (PELIST_IND ea)) x = ea .& 0x3f000.
Proof.
  intros Hea Ht Hf. unfold tlb_ea. rewrite Hf. clear Hf.
  assert (Hi : (slot_addr t (PELIST_IND ea) .>> 2) .& 0x1f = PELIST_IND ea).
  { pose proof (land_ones_range (ea .>> 12) 5 ltac:(lia)) as Hr. change (2 ^ 5 - 1) with 0x1f in Hr.
    fold (PELIST_IND ea) in Hr. unfold slot_addr. revert Hr. generalize (PELIST_IND ea). intros i Hr.
    change 0x1f with (Z.ones 5). rewrite Z.land_ones, Z.shiftr_div_pow2 by lia.
    Z.to_euclidean_division_equations. lia. }
  rewrite Hi. unfold PELIST_IND. apply Z.bits_inj'. intros n Hn.
  change 0x3f000 with (Z.ones 6 .<< 12). change 0x1f with (Z.ones 5). change 0x20 with (1 .<< 5).
  rewrite Z.land_spec, !Z.shiftl_spec by done. destruct (Z.ltb_spec n 12) as [H12|H12].
  { rewrite !(Z.testbit_neg_r _ (n - 12)) by lia. by rewrite andb_false_r. }
  assert (Hx : Z.testbit ((ea .>> 12) .& Z.ones 5) (n - 12) = Z.testbit ea n && (n - 12 <? 5)).
  { rewrite Z.land_spec, Z.shiftr_spec, Z.testbit_ones_nonneg by lia. f_equal. f_equal. lia. }
  rewrite Z.testbit_ones_nonneg by lia. destruct (decide (n = 17)) as [->|Hne].
  - change (17 - 12) with 5 in *. rewrite andb_true_r in *. cbn [Z.ltb Z.compare Pos.compare] in Hx.
    destruct (Z.testbit ea 17) eqn:E17; rewrite ?Z.lor_spec, Hx; done.
  - transitivity (Z.testbit ((ea .>> 12) .& Z.ones 5) (n - 12)).
    { destruct (Z.testbit ea 17); [|done]. rewrite Z.lor_spec, one_bit_spec by lia.
      rewrite (proj2 (Z.eqb_neq _ _)) by lia. apply orb_false_r. }
    rewrite Hx. f_equal. apply eq_true_iff_eq. rewrite !Z.ltb_lt. lia.
Qed.


(** Changing the bits of a record that link nothing *)
Lemma wpe_mt s E L F x f :
  mt s E L F -> x ∈ rdom s ->
  (forall p, tst (f p) PENT_EA_LAST = tst p PENT_EA_LAST /\ tst (f p) PENT_LV_HEAD = tst p PENT_LV_HEAD /\
             tst (f p) PENT_UNUSED = tst p PENT_UNUSED) ->
  mt (wpe x f s) E L F.
Proof.
  intros Hmt Hx Hf. destruct (pe_some s x Hx) as (r & Hr & Hp).
  assert (Hfl : forall m, (forall p, tst (f p) m = tst p m) -> forall a, flag (wpe x f s) a m = flag s a m).
  { intros m Hm a. unfold flag. rewrite pe_wpe. case_decide; [|done]. subst. rewrite Hp. apply Hm. }
  apply mt_links in Hmt as [HE Hlk]. apply mt_links. split.
  - apply (EA_frame HE); [apply rdom_wrec|intros a _ _; apply cell_wpe|]. intros y _.
    apply Hfl. intros p. apply Hf.
  - apply (links_frame s); try done; [apply rdom_wrec| | |].
    + intros a. apply lvn_wpe.
    + apply Hfl. intros p. apply Hf.
    + apply Hfl. intros p. apply Hf.
Qed.

(** The table [demo] for pages with the address bit 14 set: the second page
    table of the segment, all records with the bit *)
Definition with_ea14 (p : Z) : Z := p .| PENT_EA_BIT14.
Definition demo_ea14 : kvars :=
  wpe 0x4000 with_ea14 (wpe 0x4100 with_ea14
    (set_vents {[0x5000 := VsidEnt 0 0 (0 :: 0x1000 :: replicate 62 0)]} demo)).

Lemma demo_ea14_mt : mt demo_ea14 demo_E demo_L [0x4200].
Proof.
  assert (Hf : forall p m, PENT_EA_BIT14 .& m = 0 -> tst (with_ea14 p) m = tst p m).
  { intros p m Hm. unfold tst, with_ea14. by rewrite Z.land_lor_distr_l, Hm, Z.lor_0_r. }
  do 2 (apply wpe_mt; [|apply rdom_lookup; eexists; vm_compute; reflexivity|
    intros p; split_and!; by apply Hf]).
  pose proof demo_mt as [HE Hlk]%mt_links. apply mt_links. split.
  - by apply (EA_frame HE).
  - by apply (links_frame demo).
Qed.


End Insert.
