(* ===== verification/MmuIo.v ===== *)
(** * Translation of guest physical addresses ([src/kmod/mmu_io.c])

    Block translations map ranges of guest physical memory to user space or
    physical memory; I/O pages carry, per double word, the user data of the
    emulated device.  Both are looked up by [mphys_to_pte], which completes
    the second word of a PTE. *)

From S2P Require Import Prelude Skiplist Kvars Context Mtable.

Module MmuIo.
Import Kvars Mtable.

Definition MAX_BLOCK_TRANS : Z := 6.
Definition IO_PAGE_MAGIC_1 : Z := 0x10BACA57.
Definition IO_PAGE_MAGIC_2 : Z := 0x135AB779.

(** [iod->x], a fault when [io_data] is null *)
Definition io_get {A} (f : io_data -> A) : K A := fun s =>
  match io (mmu s) with Some d => Some (f d, s) | None => None end.
Definition io_mod (f : io_data -> io_data) : K unit := fun s =>
  match io (mmu s) with
  | Some d => Some (tt, upd_mmu (set_io (Some (f d))) s)
  | None => None
  end.

(** ** BAT registers for framebuffers *)

(** [for( ; s<size ; s = (s<<1) )] *)
Fixpoint bat_size_loop (fuel : nat) (s size : Z) : Z :=
  match fuel with
  | O => s
  | S f => if s <? size then bat_size_loop f (s .<< 1) size else s
  end.

(** Both words of the BAT, [None] for the result 1.  [amigaone] is
    [CONFIG_AMIGAONE]. *)
Definition bat_align (amigaone : bool) (flags ea lphys size : Z) : option (Z * Z) :=
  let s := 0x20000 in
  if size <? s then None else
  let size := if 0x10000000 <? size then 0x10000000 else size in
  let s := bat_size_loop 12 s size in
  let offs1 := ea .& (s - 1) in
  let offs2 := lphys .& (s - 1) in
  if negb (offs1 =? offs2) then None else
  let bat0 := (ea .& not32 (s - 1)) .| (((s - 1) .>> 17) .<< 2) .| 3 in
  let bat1 := (lphys .& not32 (s - 1)) .| 2 in
  let bat1 := if amigaone then bat1 else bat1 .| MOL_BIT 27 in
  let bat1 := if negb (tst flags MAPPING_FORCE_CACHE) then bat1 .| MOL_BIT 26
              else bat1 .| MOL_BIT 25 in
  Some (bat0, bat1).

Section MmuIo.
(** [virt_to_phys] of the host kernel *)
Context (tophys : Z -> Z).
(** [&kv->mregs] and the number of pages [mac_regs_t] takes *)
Context (mregs_addr NUM_MREGS_PAGES : Z).
Context (amigaone : bool).

Definition init_mmu_io : K Z :=
  p ← kalloc;
  if p =? 0 then kmod (upd_mmu (set_io None));; mret 1
  else kmod (upd_mmu (set_io (Some (IoData p [] 0 []))));; mret 0.

Definition free_bt_lvrange (b : block_trans) : K unit :=
  match bt_lvrange b with Some l => free_lvrange l | None => mret tt end.

(** [g_num_sessions] is the number of sessions left. *)
Definition cleanup_mmu_io (g_num_sessions : Z) : K unit :=
  d ← kget (fun s => io (mmu s));
  match d with
  | None => mret tt
  | Some d =>
      kforeach (io_pages d) (fun p => kfree (io_self p));;
      io_mod (set_io_pages []);;
      sp ← kget scratch_page;
      kwhen ((g_num_sessions =? 0) && negb (sp =? 0)) (kfree sp;; kmod (set_scratch_page 0));;
      kforeach (btable d) free_bt_lvrange;;
      kfree (iod_self d);;
      kmod (upd_mmu (set_io None))
  end.

(** ** Block translations *)

(** The flags after "remove illegal combinations" and the scratch page rule *)
Definition sane_flags (flags : Z) : Z :=
  let flags := flags .& not32 MAPPING_IO in
  let flags := if tst flags MAPPING_DBAT && negb (tst flags MAPPING_PHYSICAL)
               then flags .& not32 MAPPING_DBAT else flags in
  if tst flags MAPPING_SCRATCH
  then (flags .| MAPPING_PHYSICAL) .& not32 MAPPING_DBAT else flags.

(** [for( i=0; i<num_btrans && ind <= i; i++ ) if( .. ) ind++] *)
Fixpoint bt_index (l : list block_trans) (i ind : nat) : nat :=
  match l with
  | [] => ind
  | b :: l' =>
      if decide (ind <= i)%nat
      then bt_index l' (S i) (if tst (bt_flags b) MAPPING_PUT_FIRST then S ind else ind)
      else ind
  end.

Definition add_block_trans (mbase lvbase size flags : Z) : K Z :=
  bt ← io_get btable;
  if MAX_BLOCK_TRANS <=? Z.of_nat (length bt) then mret (-1) else
  let scratch := tst (flags .& not32 MAPPING_IO) MAPPING_SCRATCH in
  let flags := sane_flags flags in
  let lvbase := if scratch then 0 else lvbase in
  (if tst flags MAPPING_DBAT then
     match bat_align amigaone flags mbase lvbase size with
     | Some bat => kmod (upd_mmu (set_transl_dbat0 bat))
     | None => mret tt
     end
   else mret tt);;
  lvrange ← (if negb (tst flags MAPPING_PHYSICAL)
             then register_lvrange lvbase (s32 size) else mret None);
  if negb (tst flags MAPPING_PHYSICAL) && bool_decide (lvrange = None) then mret (-1) else
  let ind := bt_index bt 0 (if (mbase =? 0) || tst flags MAPPING_PUT_FIRST
                            then 0%nat else length bt) in
  id ← io_get next_free_id;
  let id := s32 (id + 1) in
  let b := BlockTrans mbase lvbase (lr_self <$> lvrange) size (flags .| MAPPING_VALID) id in
  io_mod (fun d => set_next_free_id id (set_btable (take ind bt ++ b :: drop ind bt) d));;
  kwhen (tst flags MAPPING_PUT_FIRST) clear_pte_hash_table;;
  mret id.

Definition remove_block_trans (id : Z) : K unit :=
  clear_pte_hash_table;;
  bt ← io_get btable;
  match list_find (fun b => bt_id b = id) bt with
  | None => mret tt
  | Some (i, b) =>
      kwhen (tst (bt_flags b) MAPPING_DBAT) (kmod (upd_mmu (set_transl_dbat0 (0, 0))));;
      free_bt_lvrange b;;
      io_mod (set_btable (delete i bt))
  end.

(** ** I/O pages *)

(** [for( ip=iod->io_page_head; ip && ip->mphys < mb; ip=ip->next )]: the
    pages passed over and the ones left. *)
Fixpoint io_split (l : list io_page) (mb : Z) : list io_page * list io_page :=
  match l with
  | [] => ([], [])
  | p :: l' => if io_mphys p <? mb then let '(a, b) := io_split l' mb in (p :: a, b)
               else ([], l)
  end.

(** [while( num-- ) ip->usr_data[i++] = v] *)
Fixpoint fill (num i : nat) (v : Z) (l : list Z) : list Z :=
  match num with
  | O => l
  | S n => fill n (S i) v (<[i := v]> l)
  end.

Definition io_align (mbase size : Z) : Z * Z :=
  let size := s32 (size + (mbase .& 7)) in
  (u32 (mbase - (mbase .& 7)), s32 (s32 (size + 7) .& Z.lnot 7)).

(** How many double words of the page of [mbase] are concerned. *)
Definition io_num (mbase size : Z) : Z :=
  let num := size .>> 3 in
  let i := (mbase .& 0xfff) .>> 3 in
  if 512 <? i + num then 512 - i else num.

Definition io_index (mbase : Z) : nat := Z.to_nat ((mbase .& 0xfff) .>> 3).

(** [while( size > 0 )] of [add_io_trans] *)
Fixpoint add_io_loop (fuel : nat) (mbase size usr_data : Z) : K Z :=
  match fuel with
  | O => kfail
  | S f =>
      if size <=? 0 then mret 0 else
      let mb := mbase .& 0xfffff000 in
      pages ← io_get io_pages;
      let '(pre, rest) := io_split pages mb in
      let num := io_num mbase size in
      let put := fun p => set_io_usr (fill (Z.to_nat num) (io_index mbase) usr_data (io_usr p)) p in
      let continue_ := add_io_loop f (u32 (mbase + (num .<< 3))) (size - (num .<< 3)) usr_data in
      let new :=
        ip ← kalloc;
        if ip =? 0 then mret 1 else
        let p := IoPage ip IO_PAGE_MAGIC_1 IO_PAGE_MAGIC_2 (tophys ip) mb (replicate 512 0) in
        io_mod (set_io_pages (pre ++ put p :: rest));;
        continue_ in
      match rest with
      | p :: rest' =>
          if io_mphys p =? mb
          then io_mod (set_io_pages (pre ++ put p :: rest'));; continue_
          else new
      | [] => new
      end
  end.

Definition io_fuel (size : Z) : nat := S (Z.to_nat (size / 8)).

Definition add_io_trans (mbase size usr_data : Z) : K Z :=
  let '(mbase, size) := io_align mbase size in
  add_io_loop (io_fuel size) mbase size usr_data.

(** [while( size > 0 )] of [remove_io_trans] *)
Fixpoint remove_io_loop (fuel : nat) (mbase size : Z) : K Z :=
  match fuel with
  | O => kfail
  | S f =>
      if size <=? 0 then mret 0 else
      let mb := mbase .& 0xfffff000 in
      pages ← io_get io_pages;
      let '(pre, rest) := io_split pages mb in
      let left := 0x1000 - (mbase .& 0xfff) in
      let skip := remove_io_loop f (u32 (mbase + left)) (size - left) in
      match rest with
      | p :: rest' =>
          if io_mphys p =? mb then
            let num := io_num mbase size in
            let usr := fill (Z.to_nat num) (io_index mbase) 0 (io_usr p) in
            (if bool_decide (Forall (fun v => v = 0) usr) then
               io_mod (set_io_pages (pre ++ rest'));;
               stw (io_self p + 4) 0;; stw (io_self p) 0;;
               kfree (io_self p)
             else io_mod (set_io_pages (pre ++ set_io_usr usr p :: rest')));;
            remove_io_loop f (u32 (mbase + (num .<< 3))) (size - (num .<< 3))
          else skip
      | [] => skip
      end
  end.

Definition remove_io_trans (mbase size : Z) : K Z :=
  let '(mbase, size) := io_align mbase size in
  remove_io_loop (io_fuel size) mbase size.

(** ** Completing a PTE *)

(** The block flags, 0 if there is no translation, the new second word of
    the PTE and the lvrange. *)
Definition no_transl (pte1 : Z) : K (Z * Z * option Z) := mret (0, pte1, None).

Definition block_pte1 (b : block_trans) (pte1 : Z) : Z :=
  let pte1 :=
    if tst (bt_flags b) MAPPING_FORCE_CACHE then (pte1 .| PTE1_W) .& not32 PTE1_I
    else if negb (tst (bt_flags b) MAPPING_MACOS_CONTROLS_CACHE)
         then pte1 .& not32 (PTE1_W .| PTE1_I) else pte1 in
  if tst (bt_flags b) MAPPING_FORCE_WRITABLE then (pte1 .& not32 3) .| 2 else pte1.

Definition block_hit (mphys : Z) (b : block_trans) : Prop := u32 (mphys - bt_mbase b) < bt_size b.
#[global] Instance block_hit_dec mphys b : Decision (block_hit mphys b).
Proof. unfold block_hit. apply _. Defined.

(** The page of the I/O list with the given address. *)
Fixpoint io_lookup (l : list io_page) (mphys : Z) : option io_page :=
  match l with
  | [] => None
  | p :: l' => if io_mphys p <=? mphys then
                 if io_mphys p =? mphys then Some p else io_lookup l' mphys
               else None
  end.

Definition mphys_to_pte (mphys pte1 : Z) (is_write : bool) : K (Z * Z * option Z) :=
  d ← io_get id;
  let mphys := mphys .& not32 0xfff in
  ea_mphys ← kget emuaccel_mphys; ea_phys ← kget emuaccel_page_phys;
  if (mphys =? ea_mphys) && negb (ea_phys =? 0) then
    mret (MAPPING_VALID .| MAPPING_PHYSICAL,
          (pte1 .| ea_phys) .& not32 (PTE1_W .| PTE1_I .| PTE1_PP), None)
  else
  match list_find (block_hit mphys) (btable d) with
  | Some (_, b) =>
      let finish := fun pte1 => mret (bt_flags b, block_pte1 b pte1, bt_lvrange b) in
      if tst (bt_flags b) MAPPING_SCRATCH then
        sp ← kget scratch_page;
        sp ← (if sp =? 0 then p ← kalloc; kmod (set_scratch_page p);; mret p else mret sp);
        if sp =? 0 then no_transl pte1 else finish (pte1 .| tophys sp)
      else finish (pte1 .| (u32 (mphys - bt_mbase b + bt_lvbase b) .& PTE1_RPN))
  | None =>
      match io_lookup (io_pages d) mphys with
      | Some p =>
          mret (MAPPING_VALID .| MAPPING_IO .| MAPPING_PHYSICAL,
                (pte1 .| io_me_phys p) .& not32 (PTE1_PP .| PTE1_W .| PTE1_I), None)
      | None => no_transl pte1
      end
  end.

(** ** Mappings requested by user space *)

(** [struct mmu_mapping] *)
Record mmu_mapping := MmuMapping {
  m_mbase : Z; m_lvbase : Z; m_size : Z; m_flags : Z; m_id : Z
}.

Definition mmu_add_map (m : mmu_mapping) : K mmu_mapping :=
  let go := fun m =>
    id ← add_block_trans (m_mbase m) (m_lvbase m) (m_size m) (m_flags m);
    mret (MmuMapping (m_mbase m) (m_lvbase m) (m_size m) (m_flags m) id) in
  if tst (m_flags m) MAPPING_MREGS then
    let offs := m_lvbase m in
    let m' := MmuMapping (m_mbase m) (u32 (tophys mregs_addr + offs)) (m_size m)
                ((m_flags m .& not32 MAPPING_MREGS) .| MAPPING_PHYSICAL) (-1) in
    if NUM_MREGS_PAGES * 0x1000 <? u32 (offs + m_size m) then mret m' else go m'
  else go m.

Definition mmu_remove_map (m : mmu_mapping) : K mmu_mapping :=
  remove_block_trans (m_id m);;
  mret (MmuMapping (m_mbase m) (m_lvbase m) (m_size m) (m_flags m) 0).

End MmuIo.
(** ** I/O pages: sorted lists *)

(** Sorted by address, page aligned, with one entry per double word *)
Definition io_ok (l : list io_page) : Prop :=
  StronglySorted (fun p q => io_mphys p < io_mphys q) l /\
  Forall (fun p => io_mphys p mod 0x1000 = 0 /\ length (io_usr p) = 512%nat) l.

Definition page_of (a : Z) : Z := a .& 0xfffff000.

(** The user data the exception handler finds for address [a] *)
Definition usr_at (l : list io_page) (a : Z) : Z :=
  match io_lookup l (page_of a) with
  | Some p => default 0 (io_usr p !! io_index a)
  | None => 0
  end.

Lemma page_of_mod a : 0 <= a < 2 ^ 32 -> page_of a = a - a mod 0x1000.
Proof. intros H. apply (land_align a 12); lia. Qed.

Lemma offset_mod a : a .& 0xfff = a mod 0x1000.
Proof. apply (land_ones_mod a 12). lia. Qed.

Lemma io_index_mod a : io_index a = Z.to_nat (a mod 0x1000 / 8).
Proof. unfold io_index. rewrite offset_mod, Z.shiftr_div_pow2 by lia. done. Qed.

Lemma io_ok_cons p l :
  io_ok (p :: l) <-> io_ok l /\ (forall q, q ∈ l -> io_mphys p < io_mphys q) /\
    io_mphys p mod 0x1000 = 0 /\ length (io_usr p) = 512%nat.
Proof.
  unfold io_ok. rewrite list.Forall_cons. split.
  - intros [H1 [H2 H3]]. apply StronglySorted_inv in H1 as [H4 H5].
    rewrite list.Forall_forall in H5. tauto.
  - intros ([H1 H2] & H3 & H4). split; [|tauto]. constructor; [done|].
    apply list.Forall_forall. done.
Qed.

(** In a sorted list the lookup finds the page whenever it is there. *)
Lemma io_lookup_spec l m p :
  io_ok l -> io_lookup l m = Some p <-> p ∈ l /\ io_mphys p = m.
Proof.
  induction l as [|q l IH]; intros Hok; cbn [io_lookup]; [set_solver|].
  apply io_ok_cons in Hok as (Hok & Hs & _). rewrite elem_of_cons.
  destruct (Z.leb_spec (io_mphys q) m).
  - destruct (Z.eqb_spec (io_mphys q) m) as [E|E].
    + split; [intros [= <-]; tauto|]. intros [[->|Hp] Hm]; [done|]. specialize (Hs _ Hp). lia.
    + rewrite IH by done. split; [tauto|]. intros [[->|Hp] Hm]; [done|tauto].
  - split; [done|]. intros [[->|Hp] Hm]; [lia|]. specialize (Hs _ Hp). lia.
Qed.

Lemma io_split_spec l mb pre rest :
  io_split l mb = (pre, rest) ->
  l = pre ++ rest /\ (forall p, p ∈ pre -> io_mphys p < mb) /\
  (forall p, head rest = Some p -> mb <= io_mphys p).
Proof.
  revert pre rest. induction l as [|p l IH]; intros pre rest; cbn [io_split].
  - intros [= <- <-]. split; [done|]. split; [intros p Hp; by apply not_elem_of_nil in Hp|done].
  - destruct (Z.ltb_spec (io_mphys p) mb).
    + destruct (io_split l mb) as [a b]. intros [= <- <-]. destruct (IH _ _ eq_refl) as (-> & H1 & H2).
      split; [done|]. split; [|done]. intros q [->|Hq]%elem_of_cons; [done|auto].
    + intros [= <- <-]. split; [done|]. split; [intros q Hq; by apply not_elem_of_nil in Hq|].
      by intros q [= <-].
Qed.

Lemma io_ok_app l1 l2 :
  io_ok (l1 ++ l2) <-> io_ok l1 /\ io_ok l2 /\
    (forall p q, p ∈ l1 -> q ∈ l2 -> io_mphys p < io_mphys q).
Proof.
  induction l1 as [|p l1 IH]; cbn [app].
  - split; [intros H|tauto]. split; [split; constructor|]. split; [done|].
    intros p q Hp. by apply not_elem_of_nil in Hp.
  - rewrite !io_ok_cons, IH. split.
    + intros ((H1 & H2 & H3) & H4 & H5). split_and!; try tauto.
      * intros q Hq. apply H4, elem_of_app. by left.
      * intros q q' [->|Hq]%elem_of_cons Hq'; [|auto]. apply H4, elem_of_app. by right.
    + intros ((H1 & H2 & H3) & H4 & H5). split_and!; try tauto.
      * intros q q' Hq Hq'. apply H5; [by right|done].
      * intros q [Hq|Hq]%elem_of_app; [auto|]. apply H5; [left|done].
Qed.

Lemma fill_lookup num : forall i v l j,
  fill num i v l !! j = if decide (i <= j < i + num /\ j < length l)%nat then Some v else l !! j.
Proof.
  induction num as [|n IH]; intros i v l j; cbn [fill].
  - rewrite decide_False by lia. done.
  - rewrite IH, length_insert. destruct (decide (j = i)) as [->|Hn].
    + rewrite decide_False by lia. destruct (decide (i < length l)%nat) as [Hl|Hl].
      * rewrite list_lookup_insert_eq, decide_True by lia. done.
      * rewrite decide_False by lia. rewrite list_insert_ge by lia. done.
    + rewrite list_lookup_insert_ne by done. repeat case_decide; try lia; done.
Qed.

Lemma fill_length num : forall i v l, length (fill num i v l) = length l.
Proof. induction num as [|n IH]; intros i v l; [done|]. cbn. by rewrite IH, length_insert. Qed.

(** Replacing or inserting the page [q] where [io_split] points *)
Definition io_put (l : list io_page) (q : io_page) : list io_page :=
  let '(pre, rest) := io_split l (io_mphys q) in
  match rest with
  | p :: rest' => if io_mphys p =? io_mphys q then pre ++ q :: rest' else pre ++ q :: rest
  | [] => pre ++ [q]
  end.

Lemma io_put_ok l q :
  io_ok l -> io_mphys q mod 0x1000 = 0 -> length (io_usr q) = 512%nat ->
  io_ok (io_put l q) /\
  (forall m, io_lookup (io_put l q) m = if decide (m = io_mphys q) then Some q else io_lookup l m).
Proof.
  intros Hok Hq1 Hq2. unfold io_put. destruct (io_split l (io_mphys q)) as [pre rest] eqn:Es.
  apply io_split_spec in Es as (El & Hpre & Hhd).
  set (l' := match rest with [] => pre ++ [q] | p :: rest' =>
    if io_mphys p =? io_mphys q then pre ++ q :: rest' else pre ++ q :: rest end).
  assert (Hmem : io_ok l' /\ forall p, p ∈ l' <-> p = q \/ (p ∈ l /\ io_mphys p <> io_mphys q)).
  { rewrite El in Hok. apply io_ok_app in Hok as (Ho1 & Ho2 & Hlt).
    assert (Hcase : (exists p rest', rest = p :: rest' /\ io_mphys p = io_mphys q /\ l' = pre ++ q :: rest') \/
       ((forall p, p ∈ rest -> io_mphys q < io_mphys p) /\ l' = pre ++ q :: rest)).
    { subst l'. destruct rest as [|p rest']; [right; split; [intros p Hp; by apply not_elem_of_nil in Hp|done]|].
      destruct (Z.eqb_spec (io_mphys p) (io_mphys q)) as [E|E]; [left; by exists p, rest'|right].
      split; [|done]. specialize (Hhd p eq_refl). apply io_ok_cons in Ho2 as (_ & Ho2 & _).
      intros p' [->|Hp']%elem_of_cons; [lia|]. specialize (Ho2 _ Hp'). lia. }
    destruct Hcase as [(p & rest' & -> & Hpq & ->)|[Hgt ->]].
    - apply io_ok_cons in Ho2 as (Ho2 & Ho3 & _). split.
      + apply io_ok_app. split; [done|]. split.
        * apply io_ok_cons. split_and!; try done. intros p' Hp'. specialize (Ho3 _ Hp'). lia.
        * intros p1 p2 H1 [->|H2]%elem_of_cons; [by apply Hpre|]. apply Hlt; [done|by right].
      + intros p'. rewrite El, !elem_of_app, !elem_of_cons. split.
        * intros [H|[->|H]]; [right|by left|right]; (split; [tauto|]).
          -- specialize (Hpre _ H). lia.
          -- specialize (Ho3 _ H). lia.
        * intros [->|[[H|[->|H]] Hn]]; tauto.
    - split.
      + apply io_ok_app. split; [done|]. split.
        * apply io_ok_cons. split_and!; done.
        * intros p1 p2 H1 [->|H2]%elem_of_cons; [by apply Hpre|by apply Hlt].
      + intros p'. rewrite El, !elem_of_app, !elem_of_cons. split.
        * intros [H|[->|H]]; [right|by left|right]; (split; [tauto|]).
          -- specialize (Hpre _ H). lia.
          -- specialize (Hgt _ H). lia.
        * tauto. }
  destruct Hmem as [Hok' Hmem]. split; [done|]. intros m. apply option_eq. intros p.
  rewrite io_lookup_spec, Hmem by done. case_decide as Hm.
  - subst m. split; [intros [[->|[_ H]] H2]; [done|done]|]. intros [= ->]. tauto.
  - rewrite io_lookup_spec by done. split; [intros [[->|[H _]] H2]; [by destruct Hm|done]|].
    intros [H1 H2]. split; [right|done]. split; [done|congruence].
Qed.

(** The entries of the page of [mb] in the list, all zero if it is not there *)
Definition page_usr (l : list io_page) (mb : Z) : list Z :=
  match io_lookup l mb with Some p => io_usr p | None => replicate 512 0 end.

Lemma page_usr_length l mb : io_ok l -> length (page_usr l mb) = 512%nat.
Proof.
  intros Hok. unfold page_usr. destruct (io_lookup l mb) as [p|] eqn:E; [|done].
  apply io_lookup_spec in E as [Hp _]; [|done]. destruct Hok as [_ Hf].
  rewrite list.Forall_forall in Hf. by apply Hf.
Qed.

Lemma io_index_lt a : (io_index a < 512)%nat.
Proof.
  rewrite io_index_mod. apply Nat2Z.inj_lt. rewrite Z2Nat.id; Z.to_euclidean_division_equations; lia.
Qed.

Lemma usr_at_page l a : io_ok l -> usr_at l a = default 0 (page_usr l (page_of a) !! io_index a).
Proof.
  intros Hok. unfold usr_at, page_usr. destruct (io_lookup l (page_of a)); [done|].
  by rewrite lookup_replicate_2 by apply io_index_lt.
Qed.

(** The addresses of [num] double words from [mbase] on, within its page *)
Lemma io_range mbase num a :
  0 <= mbase < 2 ^ 32 -> 0 <= a < 2 ^ 32 -> mbase mod 8 = 0 -> 0 <= num ->
  Z.of_nat (io_index mbase) + num <= 512 ->
  (page_of a = page_of mbase /\ (io_index mbase <= io_index a < io_index mbase + Z.to_nat num)%nat)
  <-> mbase <= a < mbase + 8 * num.
Proof.
  intros Hm Ha Hal Hn Hi. rewrite !page_of_mod, !io_index_mod in * by done.
  pose proof (Z.mod_pos_bound mbase 0x1000 ltac:(lia)). pose proof (Z.mod_pos_bound a 0x1000 ltac:(lia)).
  rewrite Z2Nat.id in Hi by (Z.to_euclidean_division_equations; lia).
  split.
  - intros [H1 [H2 H3]]. rewrite <- Z2Nat.inj_add in H3 by (Z.to_euclidean_division_equations; lia).
    apply Z2Nat.inj_le in H2; [|Z.to_euclidean_division_equations; lia..].
    apply Z2Nat.inj_lt in H3; [|Z.to_euclidean_division_equations; lia..].
    Z.to_euclidean_division_equations. lia.
  - intros H1. split; [Z.to_euclidean_division_equations; lia|]. split.
    + apply Z2Nat.inj_le; Z.to_euclidean_division_equations; lia.
    + rewrite <- Z2Nat.inj_add by (Z.to_euclidean_division_equations; lia).
      apply Z2Nat.inj_lt; Z.to_euclidean_division_equations; lia.
Qed.

Lemma io_put_fill l q mbase num v :
  io_ok l -> 0 <= mbase < 2 ^ 32 -> mbase mod 8 = 0 -> 0 <= num ->
  Z.of_nat (io_index mbase) + num <= 512 -> io_mphys q = page_of mbase ->
  io_usr q = fill (Z.to_nat num) (io_index mbase) v (page_usr l (page_of mbase)) ->
  io_ok (io_put l q) /\
  (forall a, 0 <= a < 2 ^ 32 -> usr_at (io_put l q) a =
     if decide (mbase <= a < mbase + 8 * num) then v else usr_at l a).
Proof.
  intros Hok Hm Hal Hn Hi Hq Hu.
  assert (Hq1 : io_mphys q mod 0x1000 = 0).
  { rewrite Hq, page_of_mod by done. Z.to_euclidean_division_equations. lia. }
  assert (Hq2 : length (io_usr q) = 512%nat) by (rewrite Hu, fill_length; by apply page_usr_length).
  destruct (io_put_ok l q Hok Hq1 Hq2) as [Hok' Hlk]. split; [done|]. intros a Ha.
  pose proof (io_range mbase num a Hm Ha Hal Hn Hi) as Hr.
  unfold usr_at at 1. rewrite Hlk, Hq. destruct (decide (page_of a = page_of mbase)) as [E|E].
  - rewrite Hu, fill_lookup, (usr_at_page l a), E by done.
    pose proof (io_index_lt a). pose proof (page_usr_length l (page_of mbase) Hok).
    case_decide as D1; case_decide as D2; try done; exfalso.
    + apply D2, Hr. by destruct D1.
    + apply D1. apply Hr in D2 as [_ D2]. split; [done|lia].
  - rewrite decide_False; [done|]. intros D. apply Hr in D. tauto.
Qed.

Section AddRemove.
Context (tophys : Z -> Z).

(** One turn of the loop of [add_io_trans] *)
Lemma add_io_step f mbase size v s d :
  io (mmu s) = Some d -> io_ok (io_pages d) -> 0 < size -> 0 <= mbase < 2 ^ 32 ->
  (forall x, x ∈ oracle s -> x <> 0) -> oracle s <> [] ->
  exists q s1, add_io_loop tophys (S f) mbase size v s =
      add_io_loop tophys f (u32 (mbase + (io_num mbase size .<< 3))) (size - (io_num mbase size .<< 3)) v s1 /\
    io (mmu s1) = Some (set_io_pages (io_put (io_pages d) q) d) /\ io_mphys q = page_of mbase /\
    io_usr q = fill (Z.to_nat (io_num mbase size)) (io_index mbase) v (page_usr (io_pages d) (page_of mbase)) /\
    (oracle s1 = oracle s \/ oracle s1 = tail (oracle s)) /\ words s1 = words s /\ freed s1 = freed s.
Proof.
  intros Hd Hok Hsz Hm Hor Hne. cbn [add_io_loop]. rewrite (proj2 (Z.leb_gt _ _)) by done.
  cbv zeta. rewrite kbind. unfold io_get at 1. rewrite Hd. fold (page_of mbase).
  assert (Hmb : page_of mbase mod 0x1000 = 0).
  { rewrite page_of_mod by done. Z.to_euclidean_division_equations. lia. }
  destruct (io_split (io_pages d) (page_of mbase)) as [pre rest] eqn:Es.
  pose proof (io_split_spec _ _ _ _ Es) as (El & Hpre & Hhd).
  set (num := io_num mbase size). set (i := io_index mbase).
  assert (Hput : forall q, io_mphys q = page_of mbase -> io_put (io_pages d) q =
    match rest with [] => pre ++ [q] | p :: rest' =>
      if io_mphys p =? page_of mbase then pre ++ q :: rest' else pre ++ q :: rest end).
  { intros q Hq. unfold io_put. by rewrite Hq, Es. }
  assert (Hnew : forall (k : K Z),
    (forall p rest', rest = p :: rest' -> (io_mphys p =? page_of mbase) = false) ->
    exists q s1, (ip ← kalloc;
        if ip =? 0 then mret 1 else
        io_mod (set_io_pages (pre ++ set_io_usr (fill (Z.to_nat num) i v
          (io_usr (IoPage ip IO_PAGE_MAGIC_1 IO_PAGE_MAGIC_2 (tophys ip) (page_of mbase) (replicate 512 0))))
          (IoPage ip IO_PAGE_MAGIC_1 IO_PAGE_MAGIC_2 (tophys ip) (page_of mbase) (replicate 512 0)) :: rest));; k) s
      = k s1 /\
    io (mmu s1) = Some (set_io_pages (io_put (io_pages d) q) d) /\ io_mphys q = page_of mbase /\
    io_usr q = fill (Z.to_nat num) i v (page_usr (io_pages d) (page_of mbase)) /\
    (oracle s1 = oracle s \/ oracle s1 = tail (oracle s)) /\ words s1 = words s /\ freed s1 = freed s).
  { intros k Hnone. rewrite kbind. unfold kalloc. destruct (oracle s) as [|ip o] eqn:Eo; [done|].
    rewrite (proj2 (Z.eqb_neq ip 0)) by (apply Hor; left). rewrite kbind.
    unfold io_mod. cbn [mmu set_oracle]. rewrite Hd.
    set (q0 := IoPage ip IO_PAGE_MAGIC_1 IO_PAGE_MAGIC_2 (tophys ip) (page_of mbase) (replicate 512 0)).
    exists (set_io_usr (fill (Z.to_nat num) i v (io_usr q0)) q0). eexists. split; [done|].
    split; [rewrite Hput by done|].
    - destruct rest as [|p rest']; [done|]. by rewrite (Hnone p rest').
    - split; [done|]. split; [|split; [by right|done]]. cbn [io_usr set_io_usr]. f_equal.
      unfold page_usr. destruct (io_lookup (io_pages d) (page_of mbase)) as [p|] eqn:Ep; [|done].
      apply io_lookup_spec in Ep as [Hp1 Hp2]; [|done]. exfalso. rewrite El in Hp1, Hok.
      apply elem_of_app in Hp1 as [Hp1|Hp1]; [specialize (Hpre _ Hp1); lia|].
      destruct rest as [|p' rest']; [by apply not_elem_of_nil in Hp1|].
      specialize (Hnone p' rest' eq_refl). specialize (Hhd p' eq_refl). bool_hyps.
      apply io_ok_app in Hok as (_ & Hok & _). apply io_ok_cons in Hok as (_ & Hok & _).
      apply elem_of_cons in Hp1 as [->|Hp1]; [done|]. specialize (Hok _ Hp1). lia. }
  destruct rest as [|p rest'].
  - destruct (Hnew (add_io_loop tophys f (u32 (mbase + (num .<< 3))) (size - (num .<< 3)) v))
      as (q & s1 & H1 & H2); [done|]. by exists q, s1.
  - destruct (io_mphys p =? page_of mbase) eqn:Ep.
    + rewrite kbind. unfold io_mod. rewrite Hd. apply Z.eqb_eq in Ep.
      exists (set_io_usr (fill (Z.to_nat num) i v (io_usr p)) p). eexists. split; [done|].
      split; [by rewrite Hput by done|]. split; [done|].
      split; [|split; [by left|done]]. cbn [io_usr set_io_usr]. f_equal. unfold page_usr.
      rewrite (proj2 (io_lookup_spec _ _ p Hok)); [done|]. split; [|done].
      rewrite El. apply elem_of_app. right. left.
    + destruct (Hnew (add_io_loop tophys f (u32 (mbase + (num .<< 3))) (size - (num .<< 3)) v))
        as (q & s1 & H1 & H2); [by intros ? ? [= <- <-]|]. by exists q, s1.
Qed.

(** The number of pages touched by [size] bytes from [mbase] on *)
Definition pages_needed (mbase size : Z) : Z := (mbase mod 0x1000 + size + 0xfff) / 0x1000.

Lemma io_num_spec mbase size :
  0 <= mbase < 2 ^ 32 -> mbase mod 8 = 0 -> 0 < size -> size mod 8 = 0 ->
  let num := io_num mbase size in
  0 < num /\ Z.of_nat (io_index mbase) + num <= 512 /\ num .<< 3 = 8 * num /\ 8 * num <= size /\
  (8 * num = size \/ (mbase + 8 * num) mod 0x1000 = 0 /\
     pages_needed (mbase + 8 * num) (size - 8 * num) = pages_needed mbase size - 1).
Proof.
  intros Hm Hal Hs Hsal num. subst num. unfold io_num. cbv zeta.
  rewrite io_index_mod, offset_mod, !Z.shiftr_div_pow2 by lia. change (2 ^ 3) with 8.
  rewrite Z2Nat.id by (Z.to_euclidean_division_equations; lia).
  set (num := if 512 <? _ then _ else _).
  assert (Hn : num = if 512 <? mbase mod 0x1000 / 8 + size / 8 then 512 - mbase mod 0x1000 / 8 else size / 8) by done.
  clearbody num. rewrite Z.shiftl_mul_pow2 by lia. change (2 ^ 3) with 8. unfold pages_needed.
  destruct (Z.ltb_spec 512 (mbase mod 0x1000 / 8 + size / 8)); subst num.
  - split_and!; Z.to_euclidean_division_equations; lia.
  - split_and!; Z.to_euclidean_division_equations; lia.
Qed.

Lemma add_io_loop_ok v : forall fuel mbase size s d,
  io (mmu s) = Some d -> io_ok (io_pages d) -> 0 <= size -> size mod 8 = 0 ->
  0 <= mbase -> mbase mod 8 = 0 -> mbase + size <= 2 ^ 32 -> (mbase < 2 ^ 32 \/ size = 0) ->
  (forall x, x ∈ oracle s -> x <> 0) ->
  (size = 0 \/ pages_needed mbase size <= Z.of_nat (length (oracle s))) ->
  size / 8 < Z.of_nat fuel ->
  exists s' l', add_io_loop tophys fuel (u32 mbase) size v s = Some (0, s') /\
    io (mmu s') = Some (set_io_pages l' d) /\ io_ok l' /\
    (forall a, 0 <= a < 2 ^ 32 -> usr_at l' a =
       if decide (mbase <= a < mbase + size) then v else usr_at (io_pages d) a) /\
    words s' = words s /\ freed s' = freed s.
Proof.
  induction fuel as [|f IH]; intros mbase size s d Hd Hok Hs Hsal Hm Hmal Hend Hmlt Hor Hpg Hf;
    [Z.to_euclidean_division_equations; lia|].
  destruct (decide (size = 0)) as [->|Hs0].
  { exists s, (io_pages d). cbn [add_io_loop]. split; [done|]. split; [by destruct d|].
    split; [done|]. split; [|done]. intros a _. by rewrite decide_False by lia. }
  destruct Hmlt as [Hmlt|Hmlt]; [|done]. rewrite u32_small by lia.
  pose proof (io_num_spec mbase size ltac:(lia) Hmal ltac:(lia) Hsal) as (N1 & N2 & N3 & N4 & N5).
  assert (Hpn : 1 <= pages_needed mbase size).
  { unfold pages_needed. Z.to_euclidean_division_equations. lia. }
  destruct (add_io_step f mbase size v s d) as (q & s1 & E1 & E2 & E3 & E4 & E5 & E6 & E7); try done; try lia.
  { intros E. rewrite E in Hpg. cbn in Hpg. lia. }
  rewrite E1, N3. set (num := io_num mbase size) in *.
  destruct (io_put_fill (io_pages d) q mbase num v) as [P1 P2]; try done; try lia.
  assert (Hlen : Z.of_nat (length (oracle s)) - 1 <= Z.of_nat (length (oracle s1))).
  { destruct E5 as [-> | ->]; [lia|]. destruct (oracle s); cbn; lia. }
  destruct (IH (mbase + 8 * num) (size - 8 * num) s1 (set_io_pages (io_put (io_pages d) q) d))
    as (s' & l' & F1 & F2 & F3 & F4 & F5 & F6); try done; try lia.
  - rewrite Zminus_mod, Hsal, (Z.mul_comm 8), Z.mod_mul by lia. done.
  - rewrite Zplus_mod, Hmal, (Z.mul_comm 8), Z.mod_mul by lia. done.
  - intros x Hx. apply Hor. destruct E5 as [<- | E5]; [done|]. rewrite E5 in Hx.
    destruct (oracle s); [done|by right].
  - replace (size - 8 * num) with (size + (- num) * 8) by lia. rewrite Z.div_add by lia. lia.
  - exists s', l'. split; [done|]. split; [by destruct d|]. split; [done|]. split; [|by rewrite F5, F6].
    intros a Ha. rewrite F4 by done. cbn [io_pages set_io_pages]. rewrite P2 by done.
    repeat case_decide; try done; lia.
Qed.

(** ** Removing I/O translations *)

Lemma io_del_ok pre p rest :
  io_ok (pre ++ p :: rest) ->
  io_ok (pre ++ rest) /\
  (forall m, io_lookup (pre ++ rest) m = if decide (m = io_mphys p) then None
     else io_lookup (pre ++ p :: rest) m).
Proof.
  intros Hok. pose proof Hok as (H1 & H2 & H3)%io_ok_app. pose proof H2 as (H4 & H5 & _)%io_ok_cons.
  assert (Hok' : io_ok (pre ++ rest)).
  { apply io_ok_app. split_and!; [done|done|]. intros q q' Hq Hq'. apply H3; [done|by right]. }
  split; [done|]. intros m. apply option_eq. intros q. rewrite io_lookup_spec, elem_of_app by done.
  case_decide as Hm.
  - split; [|done]. intros [[Hq|Hq] E].
    + specialize (H3 q p Hq ltac:(left)). lia.
    + specialize (H5 q Hq). lia.
  - rewrite io_lookup_spec, elem_of_app, elem_of_cons by done. split; [tauto|].
    intros [[Hq|[->|Hq]] E]; [tauto|congruence|tauto].
Qed.

Lemma io_lookup_none l m :
  io_ok l -> (forall p, p ∈ l -> io_mphys p <> m) -> io_lookup l m = None.
Proof.
  intros Hok H. destruct (io_lookup l m) as [p|] eqn:E; [|done].
  apply io_lookup_spec in E as [H1 H2]; [|done]. by destruct (H p H1).
Qed.

(** Deleting a page without any entry changes nothing *)
Lemma io_del_usr pre p rest :
  io_ok (pre ++ p :: rest) -> Forall (fun v => v = 0) (io_usr p) ->
  forall a, usr_at (pre ++ rest) a = usr_at (pre ++ p :: rest) a.
Proof.
  intros Hok Hz a. destruct (io_del_ok pre p rest Hok) as [_ Hl]. unfold usr_at. rewrite Hl.
  case_decide as E; [|done]. rewrite (proj2 (io_lookup_spec _ _ p Hok)).
  - destruct (io_usr p !! io_index a) as [v|] eqn:Ev; [|done].
    apply list_elem_of_lookup_2 in Ev. rewrite list.Forall_forall in Hz. by rewrite (Hz v Ev).
  - split; [apply elem_of_app; right; left|done].
Qed.

(** What one turn of the loop of [remove_io_trans] does: how many bytes it
    is done with, the pages and the page freed, if any. *)
Lemma remove_io_step f mbase size s d :
  io (mmu s) = Some d -> io_ok (io_pages d) -> 0 < size -> 0 <= mbase < 2 ^ 32 ->
  mbase mod 8 = 0 -> size mod 8 = 0 ->
  exists n l1 s1, remove_io_loop (S f) mbase size s = remove_io_loop f (u32 (mbase + n)) (size - n) s1 /\
    8 <= n /\ n mod 8 = 0 /\ (n <= size \/ (l1 = io_pages d /\ mbase + n <= 2 ^ 32)) /\
    (n = size \/ (mbase + n) mod 0x1000 = 0) /\ n <= 0x1000 /\
    io (mmu s1) = Some (set_io_pages l1 d) /\ io_ok l1 /\
    (forall a, 0 <= a < 2 ^ 32 -> usr_at l1 a =
       if decide (mbase <= a < mbase + n) then 0 else usr_at (io_pages d) a) /\
    oracle s1 = oracle s.
Proof.
  intros Hd Hok Hsz Hm Hal Hsal. cbn [remove_io_loop]. rewrite (proj2 (Z.leb_gt _ _)) by done.
  cbv zeta. rewrite kbind. unfold io_get at 1. rewrite Hd. fold (page_of mbase).
  destruct (io_split (io_pages d) (page_of mbase)) as [pre rest] eqn:Es.
  pose proof (io_split_spec _ _ _ _ Es) as (El & Hpre & Hhd).
  pose proof (io_num_spec mbase size Hm Hal Hsz Hsal) as (N1 & N2 & N3 & N4 & N5).
  assert (Hskip : (forall p, p ∈ io_pages d -> io_mphys p <> page_of mbase) ->
    exists n l1 s1, remove_io_loop f (u32 (mbase + (0x1000 - (mbase .& 0xfff)))) (size - (0x1000 - (mbase .& 0xfff))) s
      = remove_io_loop f (u32 (mbase + n)) (size - n) s1 /\
    8 <= n /\ n mod 8 = 0 /\ (n <= size \/ (l1 = io_pages d /\ mbase + n <= 2 ^ 32)) /\
    (n = size \/ (mbase + n) mod 0x1000 = 0) /\ n <= 0x1000 /\
    io (mmu s1) = Some (set_io_pages l1 d) /\ io_ok l1 /\
    (forall a, 0 <= a < 2 ^ 32 -> usr_at l1 a =
       if decide (mbase <= a < mbase + n) then 0 else usr_at (io_pages d) a) /\
    oracle s1 = oracle s).
  { intros Hno. rewrite offset_mod. exists (0x1000 - mbase mod 0x1000), (io_pages d), s.
    split; [done|]. split; [Z.to_euclidean_division_equations; lia|].
    split; [Z.to_euclidean_division_equations; lia|]. split; [right; split; [done|]; Z.to_euclidean_division_equations; lia|].
    split; [right; Z.to_euclidean_division_equations; lia|].
    split; [Z.to_euclidean_division_equations; lia|]. split; [by destruct d|]. split; [done|]. split; [|done].
    intros a Ha. case_decide as D; [|done]. unfold usr_at. rewrite io_lookup_none; [done|done|].
    intros p Hp. specialize (Hno p Hp). rewrite page_of_mod in Hno by lia. rewrite page_of_mod by lia.
    intros E. apply Hno. rewrite E. Z.to_euclidean_division_equations. lia. }
  destruct rest as [|p rest'].
  { apply Hskip. intros p Hp. rewrite El, app_nil_r in Hp. specialize (Hpre p Hp). lia. }
  destruct (io_mphys p =? page_of mbase) eqn:Ep.
  2: { apply Hskip. intros q Hq E. rewrite El in Hq, Hok. apply io_ok_app in Hok as (_ & Hok & _).
       apply io_ok_cons in Hok as (_ & Hlt & _). specialize (Hhd p eq_refl). bool_hyps.
       apply elem_of_app in Hq as [Hq|[->|Hq]%elem_of_cons]; [specialize (Hpre q Hq); lia|done|].
       specialize (Hlt q Hq). lia. }
  apply Z.eqb_eq in Ep.
  set (num := io_num mbase size) in *. set (q := set_io_usr (fill (Z.to_nat num) (io_index mbase) 0 (io_usr p)) p).
  assert (Hput : io_put (io_pages d) q = pre ++ q :: rest').
  { unfold io_put. change (io_mphys q) with (io_mphys p). by rewrite Ep, Es, Ep, Z.eqb_refl. }
  assert (Hpu : io_usr p = page_usr (io_pages d) (page_of mbase)).
  { unfold page_usr. rewrite (proj2 (io_lookup_spec _ _ p Hok)); [done|]. split; [|done].
    rewrite El. apply elem_of_app. right. left. }
  destruct (io_put_fill (io_pages d) q mbase num 0) as [P1 P2]; try done; try lia.
  { cbn. by rewrite Hpu. }
  rewrite Hput in P1, P2. rewrite N3.
  assert (Hmod : exists l1 s1, (if bool_decide (Forall (fun v => v = 0) (io_usr q)) then
      io_mod (set_io_pages (pre ++ rest'));; stw (io_self p + 4) 0;; stw (io_self p) 0;; kfree (io_self p)
    else io_mod (set_io_pages (pre ++ q :: rest'))) s = Some (tt, s1) /\
    io (mmu s1) = Some (set_io_pages l1 d) /\ io_ok l1 /\
    (forall a, 0 <= a < 2 ^ 32 -> usr_at l1 a =
       if decide (mbase <= a < mbase + 8 * num) then 0 else usr_at (io_pages d) a) /\ oracle s1 = oracle s).
  { unfold io_mod. case_bool_decide as Hz.
    - exists (pre ++ rest'). rewrite kbind, Hd. eexists. split; [done|]. split; [done|].
      split; [by apply (io_del_ok pre q rest')|]. split; [|done]. intros a Ha.
      rewrite (io_del_usr pre q rest') by done. by apply P2.
    - exists (pre ++ q :: rest'). rewrite Hd. eexists. split; [done|]. done. }
  destruct Hmod as (l1 & s1 & M1 & M2 & M3 & M4 & M5).
  exists (8 * num), l1, s1. rewrite kbind. change (io_usr q) with (fill (Z.to_nat num) (io_index mbase) 0 (io_usr p)) in M1.
  rewrite M1. split; [done|]. split; [lia|]. split; [by rewrite (Z.mul_comm 8), Z.mod_mul by lia|].
  split; [by left|]. split; [destruct N5 as [?|[? _]]; [by left|by right]|]. split; [lia|]. done.
Qed.

Lemma remove_io_loop_ok : forall fuel mbase size s d,
  io (mmu s) = Some d -> io_ok (io_pages d) -> size mod 8 = 0 ->
  0 <= mbase -> mbase mod 8 = 0 -> mbase + size <= 2 ^ 32 -> (mbase < 2 ^ 32 \/ size <= 0) ->
  size / 8 < Z.of_nat fuel -> (0 < fuel)%nat ->
  exists s' l', remove_io_loop fuel (u32 mbase) size s = Some (0, s') /\
    io (mmu s') = Some (set_io_pages l' d) /\ io_ok l' /\
    (forall a, 0 <= a < 2 ^ 32 -> usr_at l' a =
       if decide (mbase <= a < mbase + size) then 0 else usr_at (io_pages d) a) /\
    oracle s' = oracle s.
Proof.
  induction fuel as [|f IH]; intros mbase size s d Hd Hok Hsal Hm Hmal Hend Hmlt Hf Hf0; [lia|].
  destruct (Z.leb_spec size 0) as [Hs|Hs].
  { exists s, (io_pages d). cbn [remove_io_loop]. rewrite (proj2 (Z.leb_le _ _)) by done.
    split; [done|]. split; [by destruct d|]. split; [done|]. split; [|done].
    intros a _. by rewrite decide_False by lia. }
  destruct Hmlt as [Hmlt|Hmlt]; [|lia]. rewrite u32_small by lia.
  destruct (remove_io_step f mbase size s d) as (n & l1 & s1 & E1 & E2 & E3 & E4 & E5 & E6 & E7 & E8 & E9 & E10);
    try done; try lia.
  destruct (IH (mbase + n) (size - n) s1 (set_io_pages l1 d)) as (s' & l' & F1 & F2 & F3 & F4 & F5);
    try done; try lia.
  - rewrite Zminus_mod, Hsal, E3. done.
  - rewrite Zplus_mod, Hmal, E3. done.
  - Z.to_euclidean_division_equations. lia.
  - Z.to_euclidean_division_equations. lia.
  - exists s', l'. rewrite E1. split; [done|]. split; [by destruct d|]. split; [done|].
    split; [|congruence]. intros a Ha. rewrite F4 by done. cbn [io_pages set_io_pages].
    destruct E4 as [E4|[-> E4]].
    + rewrite E9 by done. repeat case_decide; try done; lia.
    + case_decide as D1; [by rewrite decide_True by lia|].
      case_decide as D2; [|done]. rewrite E9 by done. by rewrite decide_True by lia.
Qed.

End AddRemove.

Lemma land_lnot7 x : x .& Z.lnot 7 = x - x mod 8.
Proof.
  change 7 with (Z.ones 3). rewrite <- Z.ldiff_land, Z.ldiff_ones_r by lia.
  rewrite Z.shiftl_mul_pow2, Z.shiftr_div_pow2 by lia. Z.to_euclidean_division_equations. lia.
Qed.

(** The double words covering [size] bytes from [mbase] on *)
Definition io_lo (mbase : Z) : Z := mbase - mbase mod 8.
Definition io_hi (mbase size : Z) : Z := (mbase + size + 7) / 8 * 8.

Lemma io_align_spec mbase size :
  0 <= mbase < 2 ^ 32 -> 0 <= size < 2 ^ 31 - 14 ->
  io_align mbase size = (io_lo mbase, io_hi mbase size - io_lo mbase).
Proof.
  intros Hm Hs. unfold io_align, io_lo, io_hi. cbv zeta.
  replace (mbase .& 7) with (mbase mod 8) by (symmetry; apply (land_ones_mod mbase 3); lia).
  assert (0 <= mbase mod 8 < 8) by (apply Z.mod_pos_bound; lia).
  rewrite (s32_small (size + mbase mod 8)), (s32_small (size + mbase mod 8 + 7)) by lia.
  rewrite land_lnot7, u32_small by (Z.to_euclidean_division_equations; lia).
  rewrite s32_small by (Z.to_euclidean_division_equations; lia).
  f_equal. Z.to_euclidean_division_equations. lia.
Qed.

(** C29: [add_io_trans] (with enough memory for the pages) gives exactly the
    double words covering the range the new user data; every other address
    keeps its own and the list of pages stays sorted and aligned. *)
Theorem add_io_trans_correct tophys mbase size v s d :
  io (mmu s) = Some d -> io_ok (io_pages d) -> 0 <= mbase < 2 ^ 32 -> 0 <= size < 2 ^ 31 - 14 ->
  io_hi mbase size <= 2 ^ 32 -> (forall x, x ∈ oracle s -> x <> 0) ->
  pages_needed (io_lo mbase) (io_hi mbase size - io_lo mbase) <= Z.of_nat (length (oracle s)) ->
  exists s' l', add_io_trans tophys mbase size v s = Some (0, s') /\
    io (mmu s') = Some (set_io_pages l' d) /\ io_ok l' /\
    forall a, 0 <= a < 2 ^ 32 -> usr_at l' a =
      if decide (io_lo mbase <= a < io_hi mbase size) then v else usr_at (io_pages d) a.
Proof.
  intros Hd Hok Hm Hs Hhi Hor Hpg. unfold add_io_trans. rewrite io_align_spec by done.
  assert (0 <= io_lo mbase <= mbase /\ io_lo mbase mod 8 = 0 /\ io_lo mbase <= io_hi mbase size /\
    io_hi mbase size mod 8 = 0) as (L1 & L2 & L3 & L4).
  { unfold io_lo, io_hi. Z.to_euclidean_division_equations. lia. }
  destruct (add_io_loop_ok tophys v (io_fuel (io_hi mbase size - io_lo mbase)) (io_lo mbase)
    (io_hi mbase size - io_lo mbase) s d) as (s' & l' & E1 & E2 & E3 & E4 & _); try done; try lia.
  - rewrite Zminus_mod, L2, L4. done.
  - unfold io_fuel. rewrite Nat2Z.inj_succ, Z2Nat.id by (Z.to_euclidean_division_equations; lia). lia.
  - exists s', l'. rewrite u32_small in E1 by lia. split; [done|]. split; [done|]. split; [done|].
    intros a Ha. rewrite E4 by done. by rewrite Zplus_minus.
Qed.

(** [remove_io_trans] clears exactly the double words covering the
    range; every other address keeps its own user data and the list of pages
    stays sorted and aligned. *)
Theorem remove_io_trans_correct mbase size s d :
  io (mmu s) = Some d -> io_ok (io_pages d) -> 0 <= mbase < 2 ^ 32 -> 0 <= size < 2 ^ 31 - 14 ->
  io_hi mbase size <= 2 ^ 32 ->
  exists s' l', remove_io_trans mbase size s = Some (0, s') /\
    io (mmu s') = Some (set_io_pages l' d) /\ io_ok l' /\
    forall a, 0 <= a < 2 ^ 32 -> usr_at l' a =
      if decide (io_lo mbase <= a < io_hi mbase size) then 0 else usr_at (io_pages d) a.
Proof.
  intros Hd Hok Hm Hs Hhi. unfold remove_io_trans. rewrite io_align_spec by done.
  assert (0 <= io_lo mbase <= mbase /\ io_lo mbase mod 8 = 0 /\ io_lo mbase <= io_hi mbase size /\
    io_hi mbase size mod 8 = 0) as (L1 & L2 & L3 & L4).
  { unfold io_lo, io_hi. Z.to_euclidean_division_equations. lia. }
  destruct (remove_io_loop_ok (fun a => a) (io_fuel (io_hi mbase size - io_lo mbase)) (io_lo mbase)
    (io_hi mbase size - io_lo mbase) s d) as (s' & l' & E1 & E2 & E3 & E4 & _); try done; try lia.
  - rewrite Zminus_mod, L2, L4. done.
  - unfold io_fuel. rewrite Nat2Z.inj_succ, Z2Nat.id by (Z.to_euclidean_division_equations; lia). lia.
  - unfold io_fuel. lia.
  - exists s', l'. rewrite u32_small in E1 by lia. split; [done|]. split; [done|]. split; [done|].
    intros a Ha. rewrite E4 by done. by rewrite Zplus_minus.
Qed.

(** Two devices in one page, and a third one across two pages *)
Definition io_demo : kvars :=
  set_oracle [0x9000; 0xa000]
    (upd_mmu (set_io (Some (IoData 0x700 [] 0
      [IoPage 0x800 IO_PAGE_MAGIC_1 IO_PAGE_MAGIC_2 0x800 0xf3000000
         (<[3%nat := 7]> (replicate 512 0))]))) kv0).

Lemma io_demo_ok : io_ok [IoPage 0x800 IO_PAGE_MAGIC_1 IO_PAGE_MAGIC_2 0x800 0xf3000000
                            (<[3%nat := 7]> (replicate 512 0))].
Proof.
  split; [repeat constructor|]. apply list.Forall_singleton. split; [done|].
  cbn [io_usr]. by rewrite length_insert.
Qed.

Lemma add_io_trans_correct_witness :
  exists s' l', add_io_trans (fun a => a) 0xf3000ffc 8 9 io_demo = Some (0, s') /\ io_ok l' /\
    usr_at l' 0xf3001004 = 9 /\ usr_at l' 0xf300001c = 7.
Proof.
  destruct (add_io_trans_correct (fun a => a) 0xf3000ffc 8 9 io_demo _ eq_refl io_demo_ok)
    as (s' & l' & E1 & _ & E3 & E4).
  - split; [discriminate|reflexivity].
  - split; [discriminate|reflexivity].
  - discriminate.
  - intros x Hx. repeat (apply elem_of_cons in Hx as [->|Hx]; [discriminate|]). by apply not_elem_of_nil in Hx.
  - discriminate.
  - exists s', l'. split; [exact E1|]. split; [exact E3|].
    split; (rewrite E4; [reflexivity|split; [discriminate|reflexivity]]).
Defined.

Lemma remove_io_trans_correct_witness :
  exists s' l', remove_io_trans 0xf3000018 4 io_demo = Some (0, s') /\ io_ok l' /\
    usr_at l' 0xf300001c = 0.
Proof.
  destruct (remove_io_trans_correct 0xf3000018 4 io_demo _ eq_refl io_demo_ok)
    as (s' & l' & E1 & _ & E3 & E4).
  - split; [discriminate|reflexivity].
  - split; [discriminate|reflexivity].
  - discriminate.
  - exists s', l'. split; [exact E1|]. split; [exact E3|].
    rewrite E4; [reflexivity|split; [discriminate|reflexivity]].
Defined.

End MmuIo.
