(* ===== verification/Hash.v ===== *)
(** * The hardware PTE hash ([src/kmod/hash.c])

    MOL shares the hash table of the Linux kernel, or creates one of its own
    on processors (the 603) where Linux does not use one. *)

From S2P Require Import Prelude Skiplist Kvars.

Module Hash.
Import Kvars.

(** The static [hs], the global [ptehash], the SDR1 register of the host and
    the memory given back. *)
Record hash_state := HashState {
  pteh : hash_info;
  hash_mapped : bool;
  sdr1_loaded : bool;
  allocation : Z;
  host_sdr1 : Z;
  released : list Z
}.

Definition hash_info0 : hash_info := HashInfo 0 0 0 0 0.

Section Hash.
(** [virt_to_phys] and [phys_to_virt] of the host kernel *)
Context (tophys tovirt : Z -> Z).
(** [IS_LINUX] *)
Context (IS_LINUX : bool).

(** [p] is the result of [kmalloc_cont_mol]; the result is 1 if it is null. *)
Definition create_pte_hash (p : Z) (h : hash_state) : Z * hash_state :=
  if p =? 0 then (1, h) else
  let size := 1024 * 128 in
  let base := p in
  let physbase := tophys base in
  let '(size, physbase, base) :=
    if tst physbase (size - 1) then
      let size := size / 2 in
      let offs := (u32 (physbase + size) .& not32 (size - 1)) - physbase in
      (size, u32 (physbase + offs), u32 (base + offs))
    else (size, physbase, base) in
  let mask := (size - 1) .>> 6 in
  let sdr1 := (mask .>> 10) .| physbase in
  (0, HashState (set_h_base base (set_h_sdr1 sdr1 (pteh h))) (hash_mapped h) (sdr1_loaded h) p
        (host_sdr1 h) (released h)).

Definition init_hash (p : Z) (h : hash_state) : Z * hash_state :=
  let h := HashState hash_info0 (hash_mapped h) (sdr1_loaded h) (allocation h) (host_sdr1 h)
             (released h) in
  let '(sdr1, h) :=
    if IS_LINUX then
      let sdr1 := host_sdr1 h in
      if sdr1 =? 0 then
        let h := (create_pte_hash p h).2 in
        let sdr1 := h_sdr1 (pteh h) in
        (sdr1, HashState (pteh h) (hash_mapped h) true (allocation h) sdr1 (released h))
      else (sdr1, h)
    else
      let h := (create_pte_hash p h).2 in (h_sdr1 (pteh h), h) in
  if sdr1 =? 0 then (1, h) else
  let pteg := (((sdr1 .& 0x1ff) .<< 10) .| 0x3ff) .<< 6 in
  let physbase := sdr1 .& not32 0xffff in
  let mapped := h_base (pteh h) =? 0 in
  let base := if mapped then (if IS_LINUX then tovirt physbase else 0) else h_base (pteh h) in
  (if base =? 0 then 1 else 0,
   HashState (HashInfo sdr1 pteg (pteg .| 0x38) base physbase) (hash_mapped h || mapped)
     (sdr1_loaded h) (allocation h) (host_sdr1 h) (released h)).

Definition cleanup_hash (h : hash_state) : hash_state :=
  HashState hash_info0 false false 0 (if sdr1_loaded h then 0 else host_sdr1 h)
    (if allocation h =? 0 then released h else allocation h :: released h).

End Hash.
End Hash.
