(* ===== verification/Emu.v ===== *)
(** * Emulation of MMU registers ([src/kmod/emu.c], [src/kmod/ptaccess.c])

    Writes of the guest to SDR1 and the BAT registers, the interception of
    its page table updates, and the page of emulation accelerators. *)

From S2P Require Import Prelude Skiplist Kvars Context Mtable.

Module Emu.
Import Kvars Mtable.

Definition S_SDR1 : Z := 25.
Definition S_IBAT0U : Z := 528.
Definition spr_get (m : mregs) (n : Z) : Z := default 0 (spr m !! n).
Definition spr_set (n v : Z) (m : mregs) : mregs := set_spr (<[n := v]> (spr m)) m.

(** [map_emulated_hash] of [Linux/misc.c] *)
Definition map_emulated_hash (m : mmu_vars) (mbase : Z) : option Z :=
  let a := u32 (userspace_ram_base m + mbase) in if a =? 0 then None else Some a.

(** [for( mask=MOL_BIT(23); mask && !(mask & value) ; mask=mask>>1 )] *)
Fixpoint sdr1_mask_loop (fuel : nat) (mask value : Z) : Z :=
  match fuel with
  | O => mask
  | S f => if negb (mask =? 0) && negb (tst mask value)
           then sdr1_mask_loop f (mask .>> 1) value else mask
  end.

(** Base and mask of the guest hash. *)
Definition sdr1_range (value ram_size : Z) : Z * Z :=
  let mask := sdr1_mask_loop 9 (MOL_BIT 23) value in
  let mask := if negb (mask =? 0) then ((mask .| (mask - 1)) .<< 16) .| 0xffff else 0xffff in
  let mbase := value .& not32 mask in
  if ram_size <=? u32 (mbase + mask) then (0, 0xffff) else (mbase, mask).

Definition do_mtsdr1 (value : Z) : K Z :=
  kmod (upd_mr (spr_set S_SDR1 value));;
  m ← kget mmu;
  let '(mbase, mask) := sdr1_range value (ram_size m) in
  kmod (upd_mmu (fun m =>
    set_hash_base (map_emulated_hash m mbase)
      (set_pthash_sr 0xffffffff (set_hash_mask mask (set_hash_mbase mbase m)))));;
  match pthash_inuse_bits m with Some (a, _) => kfree a | None => mret tt end;;
  bits ← kalloc;
  kmod (upd_mmu (set_pthash_inuse_bits (if bits =? 0 then None else Some (bits, ∅))));;
  flush_lv_range (u32 (userspace_ram_base m + mbase)) (s32 (mask + 1));;
  clear_pte_hash_table;;
  mret RVEC_NOP.

(** [BAT_HACK(kv)] *)
Definition BAT_HACK : K bool :=
  use ← kget (fun s => use_bat_hack (mr s));
  if negb use then mret true else
  c ← kget (fun s => bat_hack_count (mmu s));
  kmod (upd_mmu (set_bat_hack_count (u32 (c + 1))));;
  mret (c <? 0x100).

(** The [mac_bat_t] decoded from the two words of a BAT. *)
Definition decode_bat (u l : Z) : mac_bat :=
  let bepi := u .>> 17 in
  let bl := (u .>> 2) .& 0x7ff in
  let brpn := l .>> 17 in
  let vs := tst u 2 in
  let vp := tst u 1 in
  MacBat (vs || vp) ((bepi .& not32 bl) .<< 17) ((brpn .& not32 bl) .<< 17) ((bl + 1) .<< 17)
    ((l .>> 3) .& 0xf) vs vp true true (l .& 3).

Definition flush_bat (d : mac_bat) : K unit :=
  hack ← BAT_HACK;
  kwhen (hack && bat_valid d) (flush_ea_range (bat_base d .& 0x0fffffff) (bat_size d)).

Definition do_mtbat (sprnum value : Z) (force : bool) : K Z :=
  m ← kget mr;
  if negb force && (spr_get m sprnum =? value) then mret RVEC_NOP else
  kmod (upd_mr (spr_set sprnum value));;
  let batnum := Z.to_nat ((sprnum - S_IBAT0U) .>> 1) in
  l ← kget (fun s => bats (mmu s));
  old ← kopt (l !! batnum);
  flush_bat old;;
  m' ← kget mr;
  let base := sprnum - sprnum mod 2 in
  let d := decode_bat (spr_get m' base) (spr_get m' (base + 1)) in
  kmod (upd_mmu (fun v => set_bats (<[batnum := d]> (bats v)) v));;
  flush_bat d;;
  mret RVEC_NOP.

(** ** Emulation accelerators *)

Definition EMUACCEL_HAS_PARAM : Z := 1 .<< 10.
Definition EMUACCEL_INST_MASK : Z := 0xffe0.
Definition EMUACCEL_NOP : Z := 11 .<< 5.

Section Emuaccel.
(** [emuaccel_table] of the assembly code, as a list of (instruction, offset
    of the handler, offset mask); its address; [reloc_ptr] and
    [virt_to_phys]. *)
Context (emuaccel_table : list (Z * Z * Z)) (table_addr : Z) (reloc_ptr tophys : Z -> Z).

Fixpoint lookup_emuaccel_from (l : list (Z * Z * Z)) (emuaccel : Z) : Z :=
  match l with
  | [] => 0
  | (p0, p1, p2) :: l' =>
      if p0 =? 0 then 0
      else if negb ((emuaccel .& EMUACCEL_INST_MASK) =? p0) then lookup_emuaccel_from l' emuaccel
      else tophys (reloc_ptr (u32 (p1 + table_addr + (emuaccel .& p2) * 8)))
  end.
Definition lookup_emuaccel_handler (emuaccel : Z) : Z :=
  lookup_emuaccel_from emuaccel_table emuaccel.

Definition alloc_emuaccel_slot (emuaccel param inst_addr : Z) : K Z :=
  page ← kget emuaccel_page; used ← kget emuaccel_size; mphys ← kget emuaccel_mphys;
  let p := page + used in
  let handler := lookup_emuaccel_handler emuaccel in
  let size := if tst emuaccel EMUACCEL_HAS_PARAM then 16 else 8 in
  if (handler =? 0) || (p =? 0) || (0x1000 <? used + size) then mret 0 else
  stw p handler;;
  stw (p + 4) (inst_addr + 4);;
  kwhen (tst emuaccel EMUACCEL_HAS_PARAM) (stw (p + 12) param);;
  kmod (set_emuaccel_size (used + size));;
  mret (s32 (mphys + used)).

Definition mapin_emuaccel_page (mphys : Z) : K Z :=
  page ← kget emuaccel_page;
  if negb (page =? 0) || tst mphys 0xfff then mret 0 else
  p ← kalloc;
  kmod (set_emuaccel_page p);;
  if p =? 0 then mret 0 else
  kmod (set_emuaccel_page_phys (tophys p));;
  kmod (set_emuaccel_mphys mphys);;
  kfor 0 512 (fun i =>
    stw (p + 8 * Z.of_nat i) (lookup_emuaccel_handler EMUACCEL_NOP);;
    stw (p + 8 * Z.of_nat i + 4) 0);;
  clear_pte_hash_table;;
  mret mphys.
End Emuaccel.

(** ** Updates of the guest page table ([ptaccess.c]) *)

(** The effective address (without segment) of the page a PTE at offset
    [pteoffs] of the guest hash translates. *)
Definition pte_ea (pte0 pteoffs : Z) : Z :=
  let v := pteoffs .>> 6 in
  let v := if tst pte0 (MOL_BIT 25) then not32 v else v in
  let v := v .^ (pte0 .>> 7) in
  let v := (u32 (pte0 .<< 10) .& 0xfc00) .| (v .& 0x3ff) in
  v .<< 12.

Definition clear_inuse_bit (n : Z) : K unit :=
  kmod (upd_mmu (fun m => match pthash_inuse_bits m with
    | Some (a, b) => set_pthash_inuse_bits (Some (a, b ∖ {[n]})) m
    | None => m
    end)).

Definition do_intercept_tlbie (pte0 pte1 pteoffs : Z) : K Z :=
  let vsid := (pte0 .>> 7) .& VSID_MASK in
  clear_inuse_bit (pteoffs .>> 3);;
  flush_vsid_ea vsid (pte_ea pte0 pteoffs);;
  mret RVEC_NOP.

(** [while( pteoffs < finish )].  [hash_base] is an [ulong*], so the address
    [MMU.hash_base + pteoffs] is scaled by the size of a word. *)
Fixpoint tlbie_block_loop (fuel : nat) (base pteoffs finish : Z) : K unit :=
  match fuel with
  | O => kfail
  | S f =>
      if finish <=? pteoffs then mret tt else
      bits ← kget (fun s => pthash_inuse_bits (mmu s));
      match bits with
      | Some (_, b) =>
          kwhen (bool_decide (pteoffs .>> 3 ∈ b))
            (pte0 ← ldw (base + 4 * pteoffs);
             pte1 ← ldw (base + 4 * (pteoffs + 4));
             _ ← do_intercept_tlbie pte0 pte1 pteoffs;
             mret tt)
      | None => kfail
      end;;
      tlbie_block_loop f base (u32 (pteoffs + 8)) finish
  end.

Definition do_intercept_tlbie_block (pteoffs length : Z) : K Z :=
  m ← kget mmu;
  let finish := if hash_mask m <? u32 (pteoffs + length) then u32 (hash_mask m + 1)
                else u32 (pteoffs + length) in
  match pthash_inuse_bits m with
  | None => mret RVEC_NOP
  | Some _ =>
      tlbie_block_loop (S (Z.to_nat ((finish - pteoffs + 7) / 8))) (default 0 (hash_base m))
        pteoffs finish;;
      mret RVEC_NOP
  end.

(** ** The guest hash set up by SDR1 *)

Lemma sdr1_mask_loop_spec value : forall n,
  let r := sdr1_mask_loop n (if decide (n = O) then 0 else 2 ^ (Z.of_nat n - 1)) value in
  r = 0 \/ exists j, 0 <= j < Z.of_nat n /\ r = 2 ^ j.
Proof.
  induction n as [|n IH]; cbv zeta in *; [by left|]. cbn [sdr1_mask_loop].
  rewrite decide_False by done. replace (Z.of_nat (S n) - 1) with (Z.of_nat n) by lia.
  destruct (negb (2 ^ Z.of_nat n =? 0) && negb (tst (2 ^ Z.of_nat n) value)).
  - replace (2 ^ Z.of_nat n .>> 1) with (if decide (n = O) then 0 else 2 ^ (Z.of_nat n - 1)).
    { destruct IH as [IH|(j & Hj & IH)]; [by left|right]. exists j. split; [lia|done]. }
    destruct n as [|n]; [done|]. rewrite decide_False, Z.shiftr_div_pow2 by (done || lia).
    replace (2 ^ Z.of_nat (S n)) with (2 ^ (Z.of_nat (S n) - 1) * 2 ^ 1)
      by (rewrite <- Z.pow_add_r by lia; f_equal; lia).
    by rewrite Z.div_mul by lia.
  - right. exists (Z.of_nat n). split; [lia|done].
Qed.

Lemma pow2_ones j : 0 <= j -> 2 ^ j .| (2 ^ j - 1) = 2 ^ (j + 1) - 1.
Proof.
  intros Hj. rewrite <- Z.lxor_lor, <- Z.add_nocarry_lxor.
  - rewrite Z.pow_add_r by lia. lia.
  - rewrite land_ones_mod by done. apply Z.mod_same. lia.
  - rewrite land_ones_mod by done. apply Z.mod_same. lia.
Qed.

(** The mask of the hash for a value of SDR1 *)
Definition sdr1_mask (value : Z) : Z :=
  let mask := sdr1_mask_loop 9 (MOL_BIT 23) value in
  if negb (mask =? 0) then ((mask .| (mask - 1)) .<< 16) .| 0xffff else 0xffff.

Lemma sdr1_mask_ones value : exists k, 16 <= k <= 25 /\ sdr1_mask value = 2 ^ k - 1.
Proof.
  unfold sdr1_mask. pose proof (sdr1_mask_loop_spec value 9) as H. cbv zeta in *.
  change (if decide (9%nat = O) then 0 else 2 ^ (Z.of_nat 9 - 1)) with (MOL_BIT 23) in H.
  destruct H as [->|(j & Hj & ->)]; [by exists 16|].
  rewrite (proj2 (Z.eqb_neq (2 ^ j) 0)) by lia. cbn [negb]. exists (j + 17). split; [lia|].
  rewrite pow2_ones, Z.shiftl_mul_pow2 by lia.
  rewrite <- Z.lxor_lor, <- Z.add_nocarry_lxor.
  - replace (j + 17) with (j + 1 + 16) by lia. rewrite (Z.pow_add_r 2 (j + 1) 16) by lia. lia.
  - change 0xffff with (2 ^ 16 - 1). rewrite land_ones_mod by lia. by apply Z.mod_mul.
  - change 0xffff with (2 ^ 16 - 1). rewrite land_ones_mod by lia. by apply Z.mod_mul.
Qed.

(** C23: Whatever the guest writes to SDR1, the emulated hash is a well formed
    PowerPC page table inside the RAM of the guest: its mask is [2^k - 1] for
    a size between 64 KB and 32 MB, its base is aligned to its size, and its
    last byte is RAM. *)
Theorem sdr1_range_wf value ram_size :
  0 <= value < 2 ^ 32 -> 0x10000 <= ram_size ->
  let '(mbase, mask) := sdr1_range value ram_size in
  exists k, 16 <= k <= 25 /\ mask = 2 ^ k - 1 /\ mbase mod 2 ^ k = 0 /\
    0 <= mbase /\ mbase + mask < ram_size.
Proof.
  intros Hv Hr. unfold sdr1_range. cbv zeta. fold (sdr1_mask value).
  destruct (sdr1_mask_ones value) as (k & Hk & ->). rewrite land_align by lia.
  assert (2 ^ k <= 2 ^ 25) by (apply Z.pow_le_mono_r; lia).
  assert (0 < 2 ^ k) by (apply Z.pow_pos_nonneg; lia).
  pose proof (Z.mod_pos_bound value (2 ^ k) ltac:(lia)) as Hm.
  assert (Hal : (value - value mod 2 ^ k) mod 2 ^ k = 0).
  { rewrite Zminus_mod_idemp_r, Z.sub_diag. done. }
  assert (He : value - value mod 2 ^ k + 2 ^ k <= 2 ^ 32).
  { replace (2 ^ 32) with (2 ^ (32 - k) * 2 ^ k) by (rewrite <- Z.pow_add_r by lia; f_equal; lia).
    rewrite Zmod_eq_full by lia. assert (value / 2 ^ k < 2 ^ (32 - k)); [|nia].
    apply Z.div_lt_upper_bound; [lia|]. rewrite <- Z.pow_add_r by lia.
    replace (k + (32 - k)) with 32 by lia. lia. }
  assert (0 <= value - value mod 2 ^ k) by (pose proof (Z.mod_le value (2 ^ k)); lia).
  rewrite u32_small by lia. destruct (Z.leb_spec ram_size (value - value mod 2 ^ k + (2 ^ k - 1))).
  - exists 16. split_and!; (done || lia).
  - exists k. split_and!; (done || lia).
Qed.

Lemma sdr1_range_wf_witness : (* 512 KB at 96 MB of 128 MB; beyond the RAM of 64 MB *)
  (exists k, 0x7ffff = 2 ^ k - 1 /\ 0x6000000 + 0x7ffff < 0x8000000) /\
  sdr1_range 0x06000007 0x8000000 = (0x6000000, 0x7ffff) /\
  (exists k, 0xffff = 2 ^ k - 1 /\ 0 + 0xffff < 0x4000000).
Proof.
  split_and!; [|reflexivity|].
  - destruct (sdr1_range_wf 0x06000007 0x8000000) as (k & _ & E & _ & _ & H);
      [split; [discriminate|reflexivity]|discriminate|]. by exists k.
  - destruct (sdr1_range_wf 0x06000007 0x4000000) as (k & _ & E & _ & _ & H);
      [split; [discriminate|reflexivity]|discriminate|]. by exists k.
Defined.

End Emu.
