(* ===== verification/MmuFb.v ===== *)
(** * Dirty-line and dirty-page tracking ([src/kmod/mmu_fb.c], [src/kmod/mmu_tracker.c])

    [mmu_fb.c] finds the framebuffer lines the guest has changed from the
    C bits of the PTEs mapping them; [mmu_tracker.c] keeps a bitmap of the
    RAM pages that were written. *)

From S2P Require Import Prelude Skiplist Kvars.

Module MmuFb.
Import Kvars.

Definition s16 (z : Z) : Z := let u := z mod 2 ^ 16 in if u <? 2 ^ 15 then u else u - 2 ^ 16.

Definition init_mmu_fb : K Z := mret 0.

Definition cleanup_mmu_fb : K unit :=
  d ← kget (fun s => fb (mmu s));
  match d with
  | None => mret tt
  | Some d =>
      kwhen (negb (line_table_ptr d =? 0)) (kfree (line_table_ptr d));;
      kfree (fb_self d);;
      kmod (upd_mmu (set_fb None))
  end.

Definition set_line (i : nat) (p : line_entry) : K unit :=
  kmod (upd_mmu (fun m => match fb m with
    | Some d => set_fb (Some (set_line_table (<[i := p]> (line_table d)) d)) m
    | None => m
    end)).

Definition video_pte_inserted (lvptr slot pte0 pte1 ea : Z) : K unit :=
  d ← kget (fun s => fb (mmu s));
  match d with
  | None => mret tt
  | Some d =>
      let i := u32 (lvptr - fb_lv_base d) .>> 12 in
      if i <? fb_nrec d then
        p ← kopt (line_table d !! Z.to_nat i);
        let busy := negb (le_slot p =? 0) && (negb (le_slot p =? slot) || negb (le_pte0 p =? pte0)) in
        kwhen busy
          (kwhen (negb (le_slot p =? slot)) (stw (le_slot p) 0);; tlbie (le_ea p));;
        set_line (Z.to_nat i)
          (LineEntry (le_y1 p) (le_y2 p) (le_dirty p || busy) slot pte0 (pte1 .& not32 PTE1_C) ea)
      else mret tt
  end.

(** Entry [i] of the table of a framebuffer. *)
Definition fb_line (offs bytes_per_row height : Z) (i : nat) : line_entry :=
  let y1 := s16 (Z.quot (0x1000 * Z.of_nat i - offs) bytes_per_row) in
  let y2 := s16 (Z.quot (0x1000 * (Z.of_nat i + 1) - 1 - offs) bytes_per_row) in
  LineEntry (if y1 <? 0 then 0 else y1) (if height <=? y2 then s16 (height - 1) else y2)
    false 0 0 0 0.

Definition setup_fb_acceleration (lvbase bytes_per_row height : Z) : K unit :=
  let offs := lvbase .& 0xfff in
  d ← kget (fun s => fb (mmu s));
  kwhen (bool_decide (is_Some d)) cleanup_mmu_fb;;
  if lvbase =? 0 then mret tt else
  f ← kalloc;
  if f =? 0 then mret tt else
  let nrec := s32 (bytes_per_row * height + offs + 0xfff) .>> 12 in
  kmod (upd_mmu (set_fb (Some (FbData f 0 [] nrec 0))));;
  p ← kalloc;
  if p =? 0 then cleanup_mmu_fb else
  if (bytes_per_row =? 0) && (0 <? nrec) then kfail (* division by zero *) else
  kmod (upd_mmu (set_fb (Some (FbData f p
    (map (fb_line offs bytes_per_row height) (seq 0 (Z.to_nat nrec)))
    nrec (lvbase .& not32 0xfff))))).

(** The test of the PTE of one page: the entry after it. *)
Definition scan_pte (p : line_entry) : K line_entry :=
  if le_slot p =? 0 then mret p else
  w0 ← ldw (le_slot p);
  if negb (w0 =? le_pte0 p) then
    tlbie (le_ea p);; mret (set_le_slot 0 (set_le_dirty true p))
  else
    w1 ← ldw (le_slot p + 4);
    if tst w1 (MOL_BIT 24) then
      store_PTE (le_ea p) (le_slot p) (le_pte0 p) (le_pte1 p);;
      mret (set_le_dirty true p)
    else mret p.

(** The loop over the lines: the entries after it, [start], [n] and the
    numbers written to [userbuf]. *)
Fixpoint scan_lines (s : Z) (l : list line_entry) (start n : Z) :
    K (list line_entry * Z * Z * list Z) :=
  match l with
  | [] => mret ([], start, n, [])
  | p :: l' =>
      p' ← scan_pte p;
      let clean := set_le_dirty false p' in
      if le_dirty p' && (start <? 0) then
        res ← scan_lines s l' (le_y1 p') n;
        let '(l1, st, n1, out) := res in mret (clean :: l1, st, n1, out)
      else if negb (le_dirty p') && (0 <=? start) then
        if s <=? n + 1 then mret (p' :: l', -1, n + 1, [s16 start; le_y2 p'])
        else
          res ← scan_lines s l' (-1) (n + 1);
          let '(l1, st, n1, out) := res in mret (clean :: l1, st, n1, s16 start :: le_y2 p' :: out)
      else
        res ← scan_lines s l' start n;
        let '(l1, st, n1, out) := res in mret (clean :: l1, st, n1, out)
  end.

(** The result and what was written to [userbuf]; [num_bytes] is not negative. *)
Definition get_dirty_fb_lines (num_bytes : Z) : K (Z * list Z) :=
  let s := num_bytes / 4 - 1 in
  d ← kget (fun s => fb (mmu s));
  match d with
  | None => mret (-1, [])
  | Some d =>
      if u32 s <=? 0 then mret (-1, []) else
      res ← scan_lines s (take (Z.to_nat (fb_nrec d)) (line_table d)) (-1) 0;
      let '(l, start, n, out) := res in
      kmod (upd_mmu (set_fb (Some (set_line_table l d))));;
      if 0 <=? start then
        last ← kopt (l !! Z.to_nat (fb_nrec d - 1));
        mret (n + 1, out ++ [s16 start; le_y2 last])
      else mret (n, out)
  end.

(** ** The page tracker *)

Definition init_mmu_tracker : K Z := mret 0.

Definition cleanup_mmu_tracker : K unit :=
  d ← kget (fun s => tracker (mmu s));
  match d with
  | None => mret tt
  | Some d =>
      kwhen (negb (tr_table_ptr d =? 0)) (kfree (tr_table_ptr d));;
      kfree (tr_self d);;
      kmod (upd_mmu (set_tracker None))
  end.

Definition track_lvrange : K Z :=
  lvbase ← kget (fun s => userspace_ram_base (mmu s));
  size ← kget (fun s => ram_size (mmu s));
  d ← kget (fun s => tracker (mmu s));
  kwhen (bool_decide (is_Some d)) cleanup_mmu_tracker;;
  if size =? 0 then mret 0 else
  ts ← kalloc;
  if ts =? 0 then mret 1 else
  let npages := s32 size .>> 12 in
  let table_size := (npages + 7) / 8 in
  kmod (upd_mmu (set_tracker (Some (TrackerData ts 0 [] npages lvbase))));;
  t ← kalloc;
  if t =? 0 then cleanup_mmu_tracker;; mret 1 else
  kmod (upd_mmu (set_tracker (Some
    (TrackerData ts t (replicate (Z.to_nat table_size) 0) npages lvbase))));;
  mret 0.

Definition lvpage_dirty (lvbase : Z) : K unit :=
  d ← kget (fun s => tracker (mmu s));
  match d with
  | None => mret tt
  | Some d =>
      let pgindex := u32 (lvbase - tr_lvbase d) .>> 12 in
      if (0 <=? pgindex) && (pgindex <? tr_npages d) then
        b ← kopt (tr_table d !! Z.to_nat (pgindex .>> 3));
        kmod (upd_mmu (set_tracker (Some (set_tr_table
          (<[Z.to_nat (pgindex .>> 3) := b .| (1 .<< (pgindex .& 7))]> (tr_table d)) d))))
      else mret tt
  end.

(** [retbuf = false] is a null buffer; [fault] tells whether the copy to
    user space faults.  The size returned and the bytes copied. *)
Definition get_track_buffer (retbuf fault : bool) : K (Z * list Z) :=
  d ← kget (fun s => tracker (mmu s));
  match d with
  | None => mret (0, [])
  | Some d =>
      let size := Z.of_nat (length (tr_table d)) in
      if negb retbuf then mret (size, [])
      else if fault then mret (0, []) else mret (size, tr_table d)
  end.

(** [buf] is what user space holds at the buffer: [None] for a null pointer;
    a copy that faults part way leaves what it copied. *)
Definition set_track_buffer (buf : option (list Z)) : K unit :=
  d ← kget (fun s => tracker (mmu s));
  match d, buf with
  | Some d, Some b =>
      let n := length (tr_table d) in
      kmod (upd_mmu (set_tracker (Some
        (set_tr_table (take n b ++ drop (length (take n b)) (tr_table d)) d))))
  | _, _ => mret tt
  end.

End MmuFb.
