(* ===== verification/Fault.v ===== *)
(** * Page faults of the guest ([src/kmod/fault.c])

    A DSI or ISI taken while the guest runs is resolved by translating the
    effective address with the guest's own segment registers, BATs and page
    table, checking the guest's access rights, and inserting a PTE into the
    hardware hash; anything the guest has to see itself is returned as an
    RVEC. *)

From S2P Require Import Prelude Skiplist Kvars Context Mtable MmuIo MmuFb.

Module Fault.
Import Kvars Mtable MmuIo MmuFb.

Definition EBIT_PAGE_FAULT : Z := MOL_BIT 1.
Definition EBIT_NO_EXEC : Z := MOL_BIT 3.
Definition EBIT_PROT_VIOL : Z := MOL_BIT 4.
Definition EBIT_IS_WRITE : Z := MOL_BIT 6.
Definition EBIT_IS_DSI : Z := 1.
Definition EBIT_USE_MMU : Z := 2.
Definition BREAK_EA_PAGE : Z := 4.

Definition use_mmu (ebits : Z) : bool := tst ebits EBIT_USE_MMU.
Definition is_write (ebits : Z) : bool := tst ebits EBIT_IS_WRITE.
Definition is_dsi (ebits : Z) : bool := tst ebits EBIT_IS_DSI.
Definition is_page_fault (ebits : Z) : bool := tst ebits EBIT_PAGE_FAULT.

Definition priv_viol_table : list bool :=
  [false; false; false; false; true; false; false; false;
   false; false; false; true;  true; true;  false; true].

Definition NO_MMU_PTE1 : Z := PTE1_R .| PTE1_C .| 0x2.

(** What [lookup_mphys] fills in of [fault_param_t]. *)
Record mphys_result := MphysResult {
  f_mpte : Z;        (** address of the guest PTE, 0 if none *)
  mphys_page : Z;
  f_pte1 : Z;
  f_key : bool
}.

(** ** The guest page table *)

(** [for( i=0; i<8; i++, p+=2 ) if( cmp == *p ) return p] *)
Fixpoint pteg_find (n : nat) (p : Z) (test : Z -> bool) : K (option Z) :=
  match n with
  | O => mret None
  | S n' => w ← ldw p; if test w then mret (Some p) else pteg_find n' (p + 8) test
  end.

Definition lookup_mac_pte (vsid ea : Z) : K (option Z) :=
  m ← kget mmu;
  match hash_base m with
  | None => mret None
  | Some hb =>
      let ea := ea .& 0x0ffff000 in
      let mask := hash_mask m .>> 6 in
      let phash := (ea .>> 12) .^ (vsid .& 0x7ffff) in
      let pteg := (phash .& mask) .<< 6 in
      let cmp := MOL_BIT 0 .| (vsid .<< 7) .| ((ea .& 0x0fffffff) .>> 22) in
      r ← pteg_find 8 (hb + pteg) (Z.eqb cmp);
      match r with
      | Some p => mret (Some p)
      | None => pteg_find 8 (hb + (pteg .^ (mask .<< 6))) (Z.eqb (cmp .| MOL_BIT 25))
      end
  end.

(** The BAT that translates [ea] for data or instruction accesses. *)
Definition bat_hit (sv_mode : bool) (ea : Z) (b : mac_bat) : bool :=
  bat_valid b && negb ((sv_mode && negb (bat_vs b)) || (negb sv_mode && negb (bat_vp b)))
  && negb ((ea <? bat_base b) || (u32 (bat_base b + bat_size b - 1) <? ea)).

Definition find_bat (bats : list mac_bat) (dsi sv_mode : bool) (ea : Z) : option mac_bat :=
  List.find (bat_hit sv_mode ea) (take 4 (drop (if dsi then 4 else 0) bats)).

(** A result, or the RVEC to return. *)
Definition lookup_mphys (fea ebits : Z) : K (mphys_result + Z) :=
  let ea := fea .& not32 0xfff in
  if negb (use_mmu ebits) then mret (inl (MphysResult 0 ea NO_MMU_PTE1 false)) else
  regs ← kget mr;
  m ← kget mmu;
  sr ← kopt (segr regs !! Z.to_nat (ea .>> 28));
  let sv_mode := negb (tst (msr regs) MSR_PR) in
  if tst sr (MOL_BIT 0) then
    if negb (((sr .>> 20) .& 0x1ff) =? 0x7f) then mret (inr RVEC_MMU_IO_SEG_ACCESS)
    else mret (inl (MphysResult 0 ((ea .& 0x0ffff000) .| ((sr .& 0xf) .<< 28)) NO_MMU_PTE1 false))
  else
  match find_bat (bats m) (is_dsi ebits) sv_mode ea with
  | Some b =>
      mret (inl (MphysResult 0 (u32 (ea - bat_base b + bat_mbase b))
        (bat_pp b .| (bat_wimg b .<< 3) .| PTE1_R .| PTE1_C)
        (if sv_mode then bat_ks b else bat_ku b)))
  | None =>
      r ← lookup_mac_pte (sr .& 0xffffff) ea;
      match r with
      | Some p =>
          w1 ← ldw (p + 4);
          mret (inl (MphysResult p (w1 .& 0xfffff000)
            (w1 .& (PTE1_PP .| PTE1_WIMG .| PTE1_R .| PTE1_C))
            (tst sr (if sv_mode then VSID_Ks else VSID_Kp))))
      | None =>
          let sbits := EBIT_PAGE_FAULT .| (ebits .& EBIT_IS_WRITE) in
          v ← rvec_return (if is_dsi ebits then RVEC_DSI_TRAP else RVEC_ISI_TRAP) [fea; sbits];
          mret (inr v)
      end
  end.

(** ** The hardware hash *)

Definition free_slot (w : Z) : bool := negb (tst w (MOL_BIT 0)).

(** The slot, the final first word of the PTE and [pte_replaced]. *)
Definition find_pte_slot (ea pte0 : Z) (pte_present : bool) : K (Z * Z * bool) :=
  h ← kget ptehash;
  let ea := ea .& 0x0ffff000 in
  let phash := (ea .>> 12) .^ (PTE0_VSID pte0 .& 0x7ffff) in
  let pteg := u32 (phash .<< 6) .& pteg_mask h in
  let primary := h_base h + pteg in
  let secondary := h_base h + (pteg .^ pteg_mask h) in
  r1 ← (if pte_present then pteg_find 8 primary (Z.eqb pte0) else mret None);
  match r1 with
  | Some p => mret (p, pte0, true)
  | None =>
  r2 ← (if pte_present then pteg_find 8 secondary (Z.eqb (pte0 .| MOL_BIT 25)) else mret None);
  match r2 with
  | Some p => mret (p, pte0 .| PTE0_H, true)
  | None =>
  r3 ← pteg_find 8 primary free_slot;
  match r3 with
  | Some p => mret (p, pte0, false)
  | None =>
  r4 ← pteg_find 8 secondary free_slot;
  match r4 with
  | Some p => mret (p, pte0 .| PTE0_H, false)
  | None =>
      g ← kget grab_add;
      let g := (g + 1) .& 0x7 in
      kmod (set_grab_add g);;
      mret (primary + g * 8, pte0, false)
  end end end end.

Section Fault.
(** [virt_to_phys]; [CONFIG_AMIGAONE] and [CONFIG_SMP] *)
Context (tophys : Z -> Z) (amigaone smp : bool).
(** The page tables of the host process: the physical page of a user space
    page, faulted in if necessary. *)
Context (host_page : Z -> bool -> Z).

Definition SMP_PTE1_M : Z := if smp then PTE1_M else 0.

(** [make_lvptr_reservation] of [mtable.h] *)
Definition make_lvptr_reservation (lvptr : Z) : K unit :=
  kmod (upd_mmu (fun m => set_lvptr_reservation_lost false (set_lvptr_reservation lvptr m))).

(** [get_phys_page] of [Linux/fault.c], the access to the host page tables
    being [host_page] *)
Definition get_phys_page (lvptr : Z) (request_rw : bool) : K Z :=
  make_lvptr_reservation lvptr;;
  mret (host_page lvptr request_rw .& not32 0xfff).

(** The second word of the PTE before translation. *)
Definition initial_pte1 (pte1 : Z) (w : bool) : Z :=
  (if amigaone then PTE1_R else PTE1_M .| PTE1_R)
  .| (pte1 .& (PTE1_R .| PTE1_C .| PTE1_WIMG)) .| (if w then 2 else 3).

(** [vsid_eptr[i]] *)
Definition vsid_of (m : mmu_vars) (mapped : bool) (i : Z) : option Z :=
  (if mapped then vsid m else unmapped_vsid m) !! Z.to_nat i.

Definition insert_pte (ea : Z) (sel : srsel) (mapped : bool) (pb : mphys_result) (ebits : Z) : K Z :=
  let w := is_write ebits in
  let mphys := mphys_page pb in
  m ← kget mmu;
  sr ← kopt (sr_array m sel !! Z.to_nat (ea .>> 28));
  tr ← mphys_to_pte tophys mphys (initial_pte1 (f_pte1 pb) w) w;
  let '(status, pte1, lvrange) := tr in
  if (status =? 0) || (w && tst status MAPPING_RO) then
    let addr := mphys .| (ea .& 0xfff) in
    if is_dsi ebits then rvec_return (if w then RVEC_IO_WRITE else RVEC_IO_READ) [addr; 0]
    else rvec_return RVEC_BAD_NIP [addr]
  else
  m ← kget mmu;
  let hash_hit := u32 (mphys - hash_mbase m) <? hash_mask m in
  kwhen hash_hit (kmod (upd_mmu (fun m =>
    set_pthash_ea_base (ea .& not32 (hash_mask m)) (set_pthash_sr sr m))));;
  let pte1 := if hash_hit then (pte1 .& not32 PTE1_PP) .| (if w then 1 else 3) else pte1 in
  let pte0 := PTE0_V .| u32 (sr .<< 7) .| ((ea .>> 22) .& PTE0_API) in
  sl ← find_pte_slot ea pte0 (negb (is_page_fault ebits));
  let '(slot, pte0, _) := sl in
  let physical := tst status MAPPING_PHYSICAL in
  let lvptr := if physical then 0 else pte1 .& PTE1_RPN in
  let pte1 := if w then pte1 .| PTE1_C else pte1 in
  let pte1 := pte1 .| SMP_PTE1_M in
  pte1 ← (if physical then mret pte1
          else pg ← get_phys_page lvptr w; mret ((pte1 .& not32 PTE1_RPN) .| pg));
  kwhen (tst status MAPPING_FB_ACCEL) (video_pte_inserted lvptr slot pte0 pte1 ea);;
  store_PTE ea slot pte0 pte1;;
  lvr ← match lvrange with
        | Some a => r ← lvrange_get a; mret (Some r)
        | None => mret None
        end;
  m' ← kget mmu;
  r ← kopt (vsid_of m' mapped (ea .>> 28));
  pte_inserted ea lvptr lvr slot r sr;;
  bf ← kget break_flags;
  brk ← kget (fun s => mdbg_ea_break (mr s));
  if tst bf BREAK_EA_PAGE && ((ea .& not32 0xfff) =? brk)
  then rvec_return RVEC_BREAK [BREAK_EA_PAGE]
  else mret RVEC_NOP.

(** "stamp R/C bits" and the in-use bit *)
Definition stamp_pte (mpte : Z) (w : bool) : K unit :=
  w1 ← ldw (mpte + 4);
  stw (mpte + 4) (w1 .| PTE1_R .| (if w then PTE1_C else 0));;
  kmod (upd_mmu (fun m =>
    match pthash_inuse_bits m with
    | Some (a, b) =>
        set_pthash_inuse_bits (Some (a, {[ (mpte - default 0 (hash_base m)) .>> 3 ]} ∪ b)) m
    | None => m
    end)).

Definition priv_index (w key : bool) (pte1 : Z) : Z :=
  (if w then 8 else 0) .| (pte1 .& PTE1_PP) .| (if key then 4 else 0).

Definition page_fault (ea : Z) (sel : srsel) (mapped : bool) (ebits : Z) : K Z :=
  r ← lookup_mphys ea ebits;
  match r with
  | inr v => mret v
  | inl pb =>
      let w := is_write ebits in
      viol ← kopt (priv_viol_table !! Z.to_nat (priv_index w (f_key pb) (f_pte1 pb)));
      if (viol : bool) then
        rvec_return (if is_dsi ebits then RVEC_DSI_TRAP else RVEC_ISI_TRAP)
          [ea; EBIT_PROT_VIOL .| (ebits .& EBIT_IS_WRITE)]
      else
      kwhen (negb (f_mpte pb =? 0)) (stamp_pte (f_mpte pb) w);;
      oom ← mtable_memory_check;
      if negb (oom =? 0) then mret RVEC_NOP else
      m ← kget mmu;
      v ← kopt (vsid_of m mapped (ea .>> 28));
      if v =? 0 then mret RVEC_NOP else insert_pte ea sel mapped pb ebits
  end.

(** ** Loading segment registers *)

Definition fix_sr (sr : Z) (mapped : bool) : K unit :=
  regs ← kget mr;
  value ← kopt (segr regs !! Z.to_nat sr);
  let macvsid := if mapped then value .& VSID_MASK else VSID_MASK + 1 + sr in
  res ← vsid_get_user_sv macvsid;
  match res with
  | None => mret tt
  | Some (r, user, sv) =>
      (if mapped then
         let nbit := value .& VSID_N in
         kmod (upd_mmu (fun m =>
           set_sv_sr (<[Z.to_nat sr := (if tst value VSID_Ks then user else sv) .| nbit]> (sv_sr m))
             (set_user_sr (<[Z.to_nat sr := (if tst value VSID_Kp then user else sv) .| nbit]>
                (user_sr m))
               (set_vsid (<[Z.to_nat sr := r]> (vsid m)) m))))
       else
         kmod (upd_mmu (fun m =>
           set_unmapped_sr (<[Z.to_nat sr := user]> (unmapped_sr m))
             (set_unmapped_vsid (<[Z.to_nat sr := r]> (unmapped_vsid m)) m))));;
      invalidate_splitmode_sr
  end.

(** ** Exception entry points *)

Definition dsi_exception (dar dsisr : Z) : K Z :=
  if tst dsisr 0x84500000 then rvec_return RVEC_UNUSUAL_DSISR_BITS [dar; dsisr] else
  regs ← kget mr;
  m ← kget mmu;
  let dr := tst (msr regs) MSR_DR in
  let ebits := EBIT_IS_DSI .| (dsisr .& (EBIT_PAGE_FAULT .| EBIT_PROT_VIOL .| EBIT_IS_WRITE))
               .| (if dr then EBIT_USE_MMU else 0) in
  v ← kopt (vsid_of m dr (dar .>> 28));
  if v =? 0 then fix_sr (dar .>> 28) (use_mmu ebits);; mret RVEC_NOP
  else page_fault dar (sr_data m) dr ebits.

Definition isi_exception (nip srr1 : Z) : K Z :=
  regs ← kget mr;
  m ← kget mmu;
  let ir := tst (msr regs) MSR_IR in
  if tst srr1 EBIT_PAGE_FAULT then
    page_fault nip (sr_inst m) ir (EBIT_PAGE_FAULT .| (if ir then EBIT_USE_MMU else 0))
  else if tst srr1 EBIT_NO_EXEC then
    v ← kopt (vsid_of m ir (nip .>> 28));
    if v =? 0 then fix_sr (nip .>> 28) ir;; mret RVEC_NOP
    else rvec_return RVEC_ISI_TRAP [nip; EBIT_NO_EXEC]
  else rvec_return RVEC_ISI_TRAP [nip; EBIT_PROT_VIOL].

(** The guest physical address, [None] for the result 1. *)
Definition dbg_translate_ea (context va : Z) (data_access : bool) : K (option Z) :=
  let d := if data_access then EBIT_IS_DSI else 0 in
  let go := fun ebits =>
    r ← lookup_mphys va ebits;
    match r with
    | inl pb => mret (Some (mphys_page pb .| (va .& 0xfff)))
    | inr _ => mret None
    end in
  if context =? 1 then go d
  else if (context =? 2) || (context =? 3) then go (d .| EBIT_USE_MMU)
  else mret None.

End Fault.
End Fault.
