(* ===== verification/GuestHash.v ===== *)
(** * The guest page table: lookup, write interception, protection

    Theorems that tie [lookup_mac_pte] of [src/kmod/fault.c] to the
    interception of page table writes in [src/kmod/ptaccess.c]
    and the access check of [page_fault] to the PowerPC protection rule. *)

From S2P Require Import Prelude Skiplist Kvars Context Mtable MmuIo MmuFb Emu Fault.

Module GuestHash.
Import Kvars Mtable Emu Fault.

(** ** Searching a PTEG *)

Definition word (s : kvars) (a : Z) : Z := default 0 (words s !! a).

Lemma pteg_find_spec s test : forall n p,
  exists r, pteg_find n p test s = Some (r, s) /\
  match r with
  | Some q => exists i, 0 <= i < Z.of_nat n /\ q = p + 8 * i /\ test (word s q) = true /\
      forall j, 0 <= j < i -> test (word s (p + 8 * j)) = false
  | None => forall i, 0 <= i < Z.of_nat n -> test (word s (p + 8 * i)) = false
  end.
Proof.
  induction n as [|n IH]; intros p; cbn [pteg_find].
  { exists None. split; [done|]. lia. }
  kred. fold (word s p). destruct (test (word s p)) eqn:Et.
  { exists (Some p). split; [done|]. exists 0. split_and!; [lia|lia|lia|done|lia]. }
  destruct (IH (p + 8)) as (r & E & Hr). exists r. split; [done|]. destruct r as [q|].
  - destruct Hr as (i & Hi & -> & Ht & Hmin). exists (i + 1).
    split_and!; [lia|lia|lia|done|]. intros j Hj.
    destruct (decide (j = 0)) as [->|]; [by rewrite Z.add_0_r|].
    replace (p + 8 * j) with (p + 8 + 8 * (j - 1)) by lia. apply Hmin. lia.
  - intros i Hi. destruct (decide (i = 0)) as [->|]; [by rewrite Z.add_0_r|].
    replace (p + 8 * i) with (p + 8 + 8 * (i - 1)) by lia. apply Hr. lia.
Qed.

(** The first word of a valid PTE for [ea] in segment [vsid], in the primary
    ([h = false]) or the secondary PTEG. *)
Definition pte_tag (vsid ea : Z) (h : bool) : Z :=
  MOL_BIT 0 .| (vsid .<< 7) .| ((ea .& 0x0ffff000) .>> 22) .| (if h then MOL_BIT 25 else 0).

(** The offset of the PTEG in a hash of mask [m]. *)
Definition pteg_offs (m vsid ea : Z) (h : bool) : Z :=
  let v := ((ea .& 0x0ffff000) .>> 12) .^ (vsid .& 0x7ffff) in
  ((if h then not32 v else v) .& (m .>> 6)) .<< 6.

(** ** The bits of tags and masks *)

Lemma testbit_ones_shift a b n :
  0 <= a -> 0 <= b -> 0 <= n -> Z.testbit (Z.ones a .<< b) n = (b <=? n) && (n <? a + b).
Proof.
  intros Ha Hb Hn. rewrite Z.shiftl_spec by done. destruct (Z.leb_spec b n).
  - destruct (Z.ltb_spec n (a + b)); [rewrite Z.ones_spec_low|rewrite Z.ones_spec_high]; (done || lia).
  - apply Z.testbit_neg_r. lia.
Qed.

Lemma page_mask_bits n : 0 <= n -> Z.testbit 0x0ffff000 n = (12 <=? n) && (n <? 28).
Proof. intros. change 0x0ffff000 with (Z.ones 16 .<< 12). by apply testbit_ones_shift. Qed.

Lemma low_mask_bits k n : 0 <= k -> 0 <= n -> Z.testbit (Z.ones k) n = (n <? k).
Proof.
  intros Hk Hn. destruct (Z.ltb_spec n k); [apply Z.ones_spec_low|apply Z.ones_spec_high]; lia.
Qed.

Lemma MOL_BIT_spec i n : 0 <= i <= 31 -> 0 <= n -> Z.testbit (MOL_BIT i) n = (n =? 31 - i).
Proof. intros. rewrite MOL_BIT_shift, one_bit_spec by lia. apply Z.eqb_sym. Qed.

Lemma u32_spec x n : 0 <= n -> Z.testbit (u32 x) n = (n <? 32) && Z.testbit x n.
Proof.
  intros Hn. unfold u32. destruct (Z.ltb_spec n 32).
  - by rewrite Z.mod_pow2_bits_low.
  - by rewrite Z.mod_pow2_bits_high.
Qed.

Lemma pte_tag_bits vsid ea h n :
  0 <= vsid < 2 ^ 24 -> 0 <= n ->
  Z.testbit (pte_tag vsid ea h) n =
    (if n <? 6 then Z.testbit ea (n + 22) else if n <? 7 then h
     else if n <? 31 then Z.testbit vsid (n - 7) else n <? 32).
Proof.
  intros Hv Hn. unfold pte_tag.
  rewrite !Z.lor_spec, Z.shiftl_spec, Z.shiftr_spec, Z.land_spec, page_mask_bits, MOL_BIT_spec by lia.
  assert (Hh : Z.testbit (if h then MOL_BIT 25 else 0) n = (n =? 6) && h).
  { destruct h; [rewrite MOL_BIT_spec by lia; by rewrite andb_true_r|by rewrite Z.bits_0, andb_false_r]. }
  rewrite Hh. destruct (Z.ltb_spec n 7) as [H7|H7].
  - rewrite (Z.testbit_neg_r vsid) by lia. rewrite (proj2 (Z.eqb_neq n (31 - 0))) by lia.
    rewrite (proj2 (Z.leb_le 12 (n + 22))) by lia. destruct (Z.ltb_spec n 6).
    + rewrite (proj2 (Z.ltb_lt (n + 22) 28)), (proj2 (Z.eqb_neq n 6)) by lia.
      by rewrite andb_true_r, orb_false_r.
    + rewrite (proj2 (Z.ltb_ge (n + 22) 28)), (proj2 (Z.eqb_eq n 6)) by lia. by rewrite andb_false_r.
  - rewrite (proj2 (Z.ltb_ge n 6)), (proj2 (Z.eqb_neq n 6)), (proj2 (Z.ltb_ge (n + 22) 28)) by lia.
    rewrite !andb_false_r, !orb_false_r. destruct (Z.ltb_spec n 31).
    + by rewrite (proj2 (Z.eqb_neq n (31 - 0))) by lia.
    + rewrite (testbit_high vsid 24), orb_false_r by lia.
      destruct (Z.eqb_spec n (31 - 0)), (Z.ltb_spec n 32); (done || lia).
Qed.

(** Recovering the VSID of a tag *)
Lemma pte_tag_vsid vsid ea h :
  0 <= vsid < 2 ^ 24 -> (pte_tag vsid ea h .>> 7) .& VSID_MASK = vsid.
Proof.
  intros Hv. apply Z.bits_inj'. intros n Hn. change VSID_MASK with (Z.ones 24).
  rewrite Z.land_spec, low_mask_bits, Z.shiftr_spec, pte_tag_bits by lia.
  rewrite (proj2 (Z.ltb_ge (n + 7) 6)), (proj2 (Z.ltb_ge (n + 7) 7)) by lia.
  destruct (Z.ltb_spec n 24).
  - rewrite (proj2 (Z.ltb_lt (n + 7) 31)), andb_true_r by lia. f_equal. lia.
  - by rewrite andb_false_r, (testbit_high vsid 24) by lia.
Qed.

Section Mask.
Context (m k : Z) (Hk : 16 <= k <= 25) (Hm : m = 2 ^ k - 1).

Lemma mask_bits n : 0 <= n -> Z.testbit (m .>> 6) n = (n <? k - 6).
Proof.
  intros Hn. rewrite Z.shiftr_spec, Hm by done.
  replace (2 ^ k - 1) with (Z.ones k) by (rewrite Z.ones_equiv; lia).
  destruct (Z.ltb_spec n (k - 6)); [apply Z.ones_spec_low|apply Z.ones_spec_high]; lia.
Qed.

Lemma secondary_offs v : 0 <= v ->
  (((v .& (m .>> 6)) .<< 6) .^ ((m .>> 6) .<< 6)) = ((not32 v .& (m .>> 6)) .<< 6).
Proof.
  intros Hv. rewrite <- Z.shiftl_lxor. f_equal. apply Z.bits_inj'. intros n Hn.
  rewrite Z.lxor_spec, !Z.land_spec, !mask_bits by done.
  destruct (Z.ltb_spec n (k - 6)); [rewrite not32_spec by lia; by destruct (Z.testbit v n)|].
  by rewrite !andb_false_r.
Qed.

Lemma tag_cmp vsid ea (h : bool) :
  (MOL_BIT 0 .| (vsid .<< 7) .| (((ea .& 0x0ffff000) .& 0x0fffffff) .>> 22) .|
    (if h then MOL_BIT 25 else 0)) = pte_tag vsid ea h.
Proof. unfold pte_tag. by rewrite <- (Z.land_assoc ea). Qed.

(** The slots searched before slot [i] of the PTEG [h] do not hold the tag:
    the slots below it in the same PTEG, and all of the primary PTEG when the
    slot is in the secondary one. *)
Definition first_match (vsid ea hb : Z) (h : bool) (i : Z) (s : kvars) : Prop :=
  (forall j, 0 <= j < i -> word s (hb + (pteg_offs m vsid ea h + 8 * j)) <> pte_tag vsid ea h) /\
  (h = true -> forall j, 0 <= j < 8 ->
     word s (hb + (pteg_offs m vsid ea false + 8 * j)) <> pte_tag vsid ea false).

(** [lookup_mac_pte] searches the eight slots of the primary PTEG for the
    primary tag, then those of the secondary PTEG for the secondary tag, and
    finds the first PTE exactly when there is one. *)
Lemma lookup_mac_pte_search vsid ea hb s :
  hash_base (mmu s) = Some hb -> hash_mask (mmu s) = m -> 0 <= ea -> 0 <= vsid ->
  exists r, lookup_mac_pte vsid ea s = Some (r, s) /\
  match r with
  | Some p => exists h i, 0 <= i < 8 /\ p = hb + (pteg_offs m vsid ea h + 8 * i) /\
      word s p = pte_tag vsid ea h /\ first_match vsid ea hb h i s
  | None => forall h i, 0 <= i < 8 ->
      word s (hb + (pteg_offs m vsid ea h + 8 * i)) <> pte_tag vsid ea h
  end.
Proof.
  intros Hb Hmk Hea Hv. unfold lookup_mac_pte. rewrite kbind, kget_eq, Hb. cbv zeta. rewrite Hmk.
  set (v := ((ea .& 0x0ffff000) .>> 12) .^ (vsid .& 0x7ffff)).
  assert (0 <= v).
  { apply Z.lxor_nonneg. split; intros _; [apply Z.land_nonneg; by left|].
    apply Z.shiftr_nonneg, Z.land_nonneg. by left. }
  pose proof (tag_cmp vsid ea false) as T0. pose proof (tag_cmp vsid ea true) as T1.
  rewrite Z.lor_0_r in T0. rewrite T0 in *. rewrite T1, secondary_offs by done.
  destruct (pteg_find_spec s (Z.eqb (pte_tag vsid ea false)) 8 (hb + ((v .& (m .>> 6)) .<< 6)))
    as (r1 & E1 & H1). rewrite kbind, E1. destruct r1 as [p|].
  { exists (Some p). split; [done|]. destruct H1 as (i & Hi & -> & Ht & Hmin). exists false, i.
    split; [lia|]. split; [unfold pteg_offs; fold v; lia|].
    split; [symmetry; by apply Z.eqb_eq|]. split; [|done]. intros j Hj E.
    unfold pteg_offs in E. fold v in E. rewrite Z.add_assoc in E.
    specialize (Hmin j ltac:(lia)). by rewrite E, Z.eqb_refl in Hmin. }
  destruct (pteg_find_spec s (Z.eqb (pte_tag vsid ea true)) 8 (hb + ((not32 v .& (m .>> 6)) .<< 6)))
    as (r2 & E2 & H2). rewrite E2. exists r2. split; [done|]. destruct r2 as [p|].
  - destruct H2 as (i & Hi & -> & Ht & Hmin). exists true, i.
    split; [lia|]. split; [unfold pteg_offs; fold v; lia|].
    split; [symmetry; by apply Z.eqb_eq|].
    split; [|intros _]; intros j Hj E; unfold pteg_offs in E; fold v in E; rewrite Z.add_assoc in E.
    + specialize (Hmin j ltac:(lia)). by rewrite E, Z.eqb_refl in Hmin.
    + specialize (H1 j ltac:(lia)). by rewrite E, Z.eqb_refl in H1.
  - intros h i Hi E. unfold pteg_offs in E. fold v in E. rewrite Z.add_assoc in E. destruct h.
    + specialize (H2 i ltac:(lia)). rewrite E, Z.eqb_refl in H2. done.
    + specialize (H1 i ltac:(lia)). rewrite E, Z.eqb_refl in H1. done.
Qed.

Lemma pteg_offs_shift vsid ea h i :
  0 <= i < 8 ->
  (pteg_offs m vsid ea h + 8 * i) .>> 6 = pteg_offs m vsid ea h .>> 6 /\
  (pteg_offs m vsid ea h + 8 * i) .>> 3 = (pteg_offs m vsid ea h .>> 3) + i.
Proof.
  intros Hi. unfold pteg_offs. rewrite !Z.shiftr_div_pow2, !Z.shiftl_mul_pow2 by lia.
  change (2 ^ 6) with 64. change (2 ^ 3) with 8. split; Z.to_euclidean_division_equations; lia.
Qed.

(** The effective address computed for an intercepted write of a PTE of the
    guest hash is the page the PTE was found for. *)
Lemma pte_ea_tag vsid ea h i :
  0 <= vsid < 2 ^ 24 -> 0 <= ea -> 0 <= i < 8 ->
  pte_ea (pte_tag vsid ea h) (pteg_offs m vsid ea h + 8 * i) = ea .& 0x0ffff000.
Proof.
  intros Hv Hea Hi. unfold pte_ea. cbv zeta. rewrite (proj1 (pteg_offs_shift _ _ _ _ Hi)).
  assert (Ht : tst (pte_tag vsid ea h) (MOL_BIT 25) = h).
  { rewrite MOL_BIT_shift, tst_bit, pte_tag_bits by lia. done. }
  rewrite Ht. apply Z.bits_inj'. intros n Hn.
  rewrite Z.land_spec, page_mask_bits, Z.shiftl_spec by done.
  destruct (Z.leb_spec 12 n) as [H12|H12]; [|by rewrite Z.testbit_neg_r, andb_false_r by lia].
  change 0xfc00 with (Z.ones 6 .<< 10). change 0x3ff with (Z.ones 10).
  rewrite Z.lor_spec, !Z.land_spec, testbit_ones_shift, low_mask_bits, u32_spec by lia.
  rewrite Z.lxor_spec, Z.shiftr_spec, pte_tag_bits by lia. cbn [andb].
  destruct (Z.ltb_spec (n - 12) 10) as [Hlo|Hhi].
  - rewrite (proj2 (Z.leb_gt 10 (n - 12))) by lia. rewrite andb_false_r, andb_true_r. cbn [orb].
    rewrite (proj2 (Z.ltb_lt n 28)), andb_true_r by lia.
    rewrite (proj2 (Z.ltb_ge (n - 12 + 7) 6)), (proj2 (Z.ltb_ge (n - 12 + 7) 7)),
      (proj2 (Z.ltb_lt (n - 12 + 7) 31)) by lia.
    assert (Hb : Z.testbit (if h then not32 (pteg_offs m vsid ea h .>> 6) else pteg_offs m vsid ea h .>> 6)
        (n - 12) = xorb (Z.testbit ea n) (Z.testbit vsid (n - 12))).
    { transitivity (xorb h (Z.testbit (pteg_offs m vsid ea h .>> 6) (n - 12))).
      { destruct h; [rewrite not32_spec by lia; by destruct (Z.testbit _ _)|by rewrite xorb_false_l]. }
      unfold pteg_offs. rewrite Z.shiftr_shiftl_l, Z.sub_diag, Z.shiftl_0_r by lia.
      rewrite Z.land_spec, mask_bits, (proj2 (Z.ltb_lt (n - 12) (k - 6))), andb_true_r by lia.
      transitivity (Z.testbit (((ea .& 0x0ffff000) .>> 12) .^ (vsid .& 0x7ffff)) (n - 12)).
      { destruct h; [rewrite not32_spec by lia; by destruct (Z.testbit _ _)|by rewrite xorb_false_l]. }
      change 0x7ffff with (Z.ones 19).
      rewrite Z.lxor_spec, Z.shiftr_spec, !Z.land_spec, page_mask_bits, low_mask_bits by lia.
      rewrite (proj2 (Z.leb_le 12 (n - 12 + 12))), (proj2 (Z.ltb_lt (n - 12 + 12) 28)),
        (proj2 (Z.ltb_lt (n - 12) 19)) by lia. rewrite !andb_true_r. do 2 f_equal. lia. }
    rewrite Hb. replace (n - 12 + 7 - 7) with (n - 12) by lia. by destruct (Z.testbit ea n), (Z.testbit vsid (n - 12)).
  - rewrite andb_false_r, orb_false_r. rewrite (proj2 (Z.leb_le 10 (n - 12))) by lia. cbn [andb].
    replace (n - 12 <? 6 + 10) with (n <? 28) by (apply eq_true_iff_eq; rewrite !Z.ltb_lt; lia).
    destruct (Z.ltb_spec n 28); [|by rewrite !andb_false_r].
    rewrite (proj2 (Z.ltb_lt (n - 12) 32)), Z.shiftl_spec, pte_tag_bits by lia.
    rewrite (proj2 (Z.ltb_lt (n - 12 - 10) 6)) by lia. cbn [andb]. do 2 f_equal. lia.
Qed.

(** The PTEs of the guest hash lie inside it. *)
Lemma pteg_offs_range vsid ea h i :
  0 <= i < 8 ->
  0 <= pteg_offs m vsid ea h + 8 * i /\ pteg_offs m vsid ea h + 8 * i + 7 <= m /\
  (pteg_offs m vsid ea h + 8 * i) mod 8 = 0.
Proof.
  intros Hi. assert (Hm6 : (m .>> 6) = 2 ^ (k - 6) - 1).
  { apply Z.bits_inj'. intros n Hn. rewrite mask_bits by done.
    replace (2 ^ (k - 6) - 1) with (Z.ones (k - 6)) by (rewrite Z.ones_equiv; lia).
    by rewrite low_mask_bits by lia. }
  unfold pteg_offs. cbv zeta. rewrite Hm6.
  set (v := if h then _ else _). pose proof (land_ones_range v (k - 6) ltac:(lia)) as Hr.
  rewrite Z.shiftl_mul_pow2 by lia. change (2 ^ 6) with 64.
  assert (2 ^ k = 64 * 2 ^ (k - 6)).
  { change 64 with (2 ^ 6). rewrite <- Z.pow_add_r by lia. f_equal. lia. }
  split; [lia|]. split; [lia|]. Z.to_euclidean_division_equations. lia.
Qed.

End Mask.

(** ** Protection *)

(** The PowerPC rule for pages: the key of the segment (or BAT), the PP bits
    of the PTE and the kind of access. *)
Definition ppc_denied (w key : bool) (pp : Z) : bool :=
  if key then (if pp =? 0 then true else if pp =? 2 then false else w) else (pp =? 3) && w.

Lemma priv_table_rule w key pte1 :
  priv_viol_table !! Z.to_nat (priv_index w key pte1) = Some (ppc_denied w key (pte1 .& PTE1_PP)).
Proof.
  unfold priv_index. change PTE1_PP with (2 ^ 2 - 1).
  pose proof (land_ones_range pte1 2 ltac:(lia)) as Hr. revert Hr.
  generalize (pte1 .& (2 ^ 2 - 1)). intros pp Hpp.
  assert (pp = 0 \/ pp = 1 \/ pp = 2 \/ pp = 3) as [-> | [-> | [-> | ->]]] by lia;
    destruct w, key; reflexivity.
Qed.

(** The results of the kernel functions that never return a trap *)
Definition no_trap {A} (f : A -> Prop) (m : K A) : Prop := forall s v s', m s = Some (v, s') -> f v.

Section NoTrap.
Context {A B : Type}.

Lemma no_trap_bind (f : B -> Prop) (m : K A) (g : A -> K B) :
  (forall a, no_trap f (g a)) -> no_trap f (m ≫= g).
Proof.
  intros Hg s v s' E. rewrite kbind in E. destruct (m s) as [[a s1]|]; [|discriminate E].
  by apply (Hg a s1 v s').
Qed.

Lemma no_trap_ret (f : A -> Prop) (a : A) : f a -> no_trap f (mret a).
Proof. intros Ha s v s' E. rewrite kret in E. by injection E as <- <-. Qed.

End NoTrap.

Lemma no_trap_rvec f rvec args : f rvec -> no_trap f (rvec_return rvec args).
Proof. intros H. apply no_trap_bind. intros _. by apply no_trap_ret. Qed.

Definition not_trap (v : Z) : Prop := v <> RVEC_DSI_TRAP /\ v <> RVEC_ISI_TRAP.

Section PageFault.
Context (tophys : Z -> Z) (amigaone smp : bool) (host_page : Z -> bool -> Z).

Lemma insert_pte_no_trap ea sel mapped pb ebits :
  no_trap not_trap (insert_pte tophys amigaone smp host_page ea sel mapped pb ebits).
Proof.
  unfold insert_pte. cbv zeta.
  repeat first
    [ apply no_trap_bind; intros
    | apply no_trap_rvec; repeat case_match; split; discriminate
    | apply no_trap_ret; split; discriminate
    | case_match ].
Qed.

End PageFault.

(** The trap of the access *)
Definition access_trap (ebits : Z) : Z := if is_dsi ebits then RVEC_DSI_TRAP else RVEC_ISI_TRAP.

(** ** Theorems *)

(** C22: A guest PTE is found exactly when one of the sixteen slots of its two
    PTEGs holds the valid tag of the segment and page.  The one found is the
    first such slot, the primary PTEG searched before the secondary one: its
    first word has the valid bit, the VSID, the hash function bit of its PTEG
    and the abbreviated page index.  It lies inside the guest hash, and when
    the guest overwrites it the interception clears its in-use bit and
    flushes precisely the page and segment it was found for.  (A mapped hash
    of [2^k] bytes, [16 <= k <= 25], as [sdr1_range] makes it.) *)
Theorem guest_pte_lookup_tlbie vsid ea hb k s :
  hash_base (mmu s) = Some hb -> hash_mask (mmu s) = 2 ^ k - 1 -> 16 <= k <= 25 ->
  0 <= vsid < 2 ^ 24 -> 0 <= ea ->
  exists r, lookup_mac_pte vsid ea s = Some (r, s) /\
  match r with
  | Some p =>
      (exists h i, 0 <= i < 8 /\ p = hb + (pteg_offs (2 ^ k - 1) vsid ea h + 8 * i) /\
         word s p = pte_tag vsid ea h /\ first_match (2 ^ k - 1) vsid ea hb h i s /\
         Z.testbit (word s p) 31 = true /\ Z.testbit (word s p) 6 = h /\
         (word s p .>> 7) .& 0xffffff = vsid) /\
      0 <= p - hb /\ p - hb + 7 <= hash_mask (mmu s) /\ (p - hb) mod 8 = 0 /\
      forall w1, do_intercept_tlbie (word s p) w1 (p - hb) s =
        (clear_inuse_bit ((p - hb) .>> 3);; flush_vsid_ea vsid (ea .& 0x0ffff000);; mret RVEC_NOP) s
  | None => forall h i, 0 <= i < 8 ->
      word s (hb + (pteg_offs (2 ^ k - 1) vsid ea h + 8 * i)) <> pte_tag vsid ea h
  end.
Proof.
  intros Hb Hm Hk Hv Hea.
  destruct (lookup_mac_pte_search _ k Hk eq_refl vsid ea hb s Hb Hm Hea ltac:(lia)) as (r & E & Hr).
  exists r. split; [done|]. destruct r as [p|]; [|done].
  destruct Hr as (h & i & Hi & -> & Hw & Hfm). split.
  { exists h, i. rewrite Hw. do 4 (split; [done|]). rewrite !pte_tag_bits by lia.
    split; [done|]. split; [done|]. by apply pte_tag_vsid. }
  rewrite Hw.
  destruct (pteg_offs_range _ k Hk eq_refl vsid ea h i Hi) as (R1 & R2 & R3).
  rewrite (Z.add_comm hb), Z.add_simpl_r, Hm. split_and!; [done|done|done|]. intros w1.
  unfold do_intercept_tlbie. rewrite pte_tag_vsid by done.
  by rewrite (pte_ea_tag _ k Hk eq_refl) by done.
Qed.

(** [do_intercept_tlbie_block] adds the byte offset to a word pointer:
    for one PTE in use it intercepts a write of the words at four times the
    offset of the PTE instead of the PTE itself. *)
Theorem tlbie_block_wrong_pte hb k o s a b v s' :
  hash_base (mmu s) = Some hb -> hash_mask (mmu s) = 2 ^ k - 1 -> 16 <= k <= 25 ->
  0 <= o -> o + 8 <= 2 ^ k - 1 ->
  pthash_inuse_bits (mmu s) = Some (a, b) -> o .>> 3 ∈ b ->
  do_intercept_tlbie (word s (hb + 4 * o)) (word s (hb + 4 * o + 16)) o s = Some (v, s') ->
  do_intercept_tlbie_block o 8 s = Some (RVEC_NOP, s').
Proof.
  intros Hb Hm Hk Ho Hlt Hbits Hin E.
  assert (H25 : 2 ^ k <= 2 ^ 25) by (apply Z.pow_le_mono_r; lia).
  unfold do_intercept_tlbie_block. rewrite kbind, kget_eq, Hbits, Hm, Hb. cbv zeta.
  rewrite u32_small, (proj2 (Z.ltb_ge (2 ^ k - 1) (o + 8))) by lia. rewrite kbind.
  replace ((o + 8 - o + 7) / 8) with 1 by (replace (o + 8 - o + 7) with 15 by lia; done).
  change (S (Z.to_nat 1)) with 2%nat. cbn [tlbie_block_loop default].
  rewrite (proj2 (Z.leb_gt (o + 8) o)) by lia. rewrite !kbind, kget_eq, Hbits.
  rewrite bool_decide_eq_true_2 by done. cbn [kwhen]. rewrite !kbind, !ldw_eq. cbv beta iota.
  rewrite kbind, ldw_eq. change (id hb) with hb. fold (word s (hb + 4 * o)) (word s (hb + 4 * (o + 4))).
  replace (hb + 4 * (o + 4)) with (hb + 4 * o + 16) by lia.
  rewrite kbind, E, kret. rewrite u32_small, Z.leb_refl by lia. done.
Qed.

(** C21: The table [priv_viol_table] is the PowerPC protection rule: when the
    translation of a faulting access is [pb], the access gets the protection
    trap, with the faulting address and the status bits as parameters and no
    other effect, exactly when the rule denies it; an access the rule allows
    never ends in a trap. *)
Theorem page_fault_protection tophys amigaone smp host_page ea sel mapped ebits pb s s1 :
  lookup_mphys ea ebits s = Some (inl pb, s1) ->
  if ppc_denied (is_write ebits) (f_key pb) (f_pte1 pb .& PTE1_PP)
  then page_fault tophys amigaone smp host_page ea sel mapped ebits s =
    Some (access_trap ebits,
          upd_mr (set_rvec_param [ea; EBIT_PROT_VIOL .| (ebits .& EBIT_IS_WRITE)]) s1)
  else forall v s', page_fault tophys amigaone smp host_page ea sel mapped ebits s = Some (v, s') ->
    not_trap v.
Proof.
  intros E. unfold page_fault. rewrite kbind, E. cbv zeta. rewrite priv_table_rule, kbind, kopt_Some.
  destruct (ppc_denied _ _ _); [by rewrite rvec_return_eq|].
  match goal with |- forall v s', ?m s1 = _ -> _ =>
    enough (no_trap not_trap m) by (intros v s'; by apply H) end.
  repeat first
    [ apply insert_pte_no_trap | apply no_trap_bind; intros
    | apply no_trap_ret; split; discriminate | case_match ].
Qed.

(** A hash of 64 KB at 0x100000 with one PTE, of segment 0x123456 and page
    0x04bcd000, in the secondary PTEG *)
Definition demo_offs : Z := pteg_offs 0xffff 0x123456 0x04bcd000 true + 24.
Definition hash_demo : kvars :=
  set_words {[ 0x100000 + demo_offs := pte_tag 0x123456 0x04bcd000 true ]}
    (upd_mmu (fun m => set_pthash_inuse_bits (Some (0x900, {[ demo_offs .>> 3 ]}))
       (set_hash_base (Some 0x100000) (set_hash_mask 0xffff m))) kv0).

Lemma guest_pte_lookup_tlbie_witness :
  lookup_mac_pte 0x123456 0x04bcd000 hash_demo = Some (Some (0x100000 + demo_offs), hash_demo) /\
  (demo_offs + 7 <= 0xffff) /\
  snd <$> do_intercept_tlbie (word hash_demo (0x100000 + demo_offs)) 0 demo_offs hash_demo =
    snd <$> (clear_inuse_bit (demo_offs .>> 3);; flush_vsid_ea 0x123456 0x04bcd000;; mret RVEC_NOP) hash_demo.
Proof.
  destruct (guest_pte_lookup_tlbie 0x123456 0x04bcd000 0x100000 16 hash_demo) as (r & E & Hr);
    [reflexivity|reflexivity|split; discriminate|split; [discriminate|reflexivity]|discriminate|].
  assert (E' : r = Some (0x100000 + demo_offs)).
  { assert (fst <$> lookup_mac_pte 0x123456 0x04bcd000 hash_demo = Some (Some (0x100000 + demo_offs)))
      as H by (vm_compute; reflexivity).
    rewrite E in H. by injection H. }
  subst r. split; [exact E|]. destruct Hr as (_ & _ & H1 & _ & H2). split; [exact H1|].
  exact (f_equal (fmap snd) (H2 0)).
Defined.

Lemma tlbie_block_wrong_pte_witness :
  do_intercept_tlbie_block demo_offs 8 hash_demo =
    do_intercept_tlbie 0 0 demo_offs hash_demo /\
  pte_ea (word hash_demo (0x100000 + demo_offs)) demo_offs = 0x04bcd000 /\
  pte_ea (word hash_demo (0x100000 + 4 * demo_offs)) demo_offs <> 0x04bcd000.
Proof.
  assert (exists s', do_intercept_tlbie 0 0 demo_offs hash_demo = Some (RVEC_NOP, s')) as [s' E]
    by (eexists; vm_compute; reflexivity).
  split; [|split; [vm_compute; reflexivity|vm_compute; discriminate]].
  rewrite E. apply (tlbie_block_wrong_pte 0x100000 16 demo_offs hash_demo 0x900 {[ demo_offs .>> 3 ]} RVEC_NOP);
    [reflexivity|reflexivity|split; discriminate|discriminate|discriminate|reflexivity| |exact E].
  apply elem_of_singleton. reflexivity.
Defined.

(** A write of the supervisor to the page of [hash_demo], whose segment has
    the key [Ks] and whose PTE has the PP bits 00 *)
Definition prot_demo : kvars :=
  upd_mr (set_segr (<[0%nat := 0x123456 .| VSID_Ks]> zeros16)) hash_demo.
Definition prot_ebits : Z := EBIT_IS_DSI .| EBIT_USE_MMU .| EBIT_IS_WRITE.

Lemma page_fault_protection_witness :
  page_fault (fun a => a) false false (fun a _ => a) 0x04bcd123 SrSv true prot_ebits prot_demo =
    Some (RVEC_DSI_TRAP,
          upd_mr (set_rvec_param [0x04bcd123; EBIT_PROT_VIOL .| EBIT_IS_WRITE]) prot_demo).
Proof.
  exact (page_fault_protection (fun a => a) false false (fun a _ => a) 0x04bcd123 SrSv true prot_ebits
    (MphysResult (0x100000 + demo_offs) 0 0 true) prot_demo prot_demo
    ltac:(vm_compute; reflexivity)).
Defined.

End GuestHash.
