(* ===== verification/Mmu.v ===== *)
(** * The MMU as a whole ([src/kmod/mmu.c]) *)

From S2P Require Import Prelude Skiplist Kvars Context Mtable MmuIo MmuFb Hash Emu Fault.

Module Mmu.
Import Kvars Mtable MmuIo MmuFb Emu.

(** [memset( &MMU, 0, sizeof(mmu_vars_t) )] *)
Definition zero_sl (self : Z) : Skiplist.skiplist :=
  Skiplist.Sl 0 0 0 (replicate 16 Skiplist.PNull) (Skiplist.El 0 [Skiplist.PNull])
    Skiplist.PNull self ∅.
Definition zero_mmu (self : Z) : mmu_vars :=
  MmuVars zeros16 zeros16 zeros16 zeros16 zeros16 zeros16 SrUser SrUser 0 (0, 0) 0 0 0 0
    (replicate 8 bat0) 0 None 0 0 0 0 0 0 None None None None (zero_sl self) None 0 false.

(** [g_num_sessions] counts the sessions left.  [unmap_emulated_hash], called
    when the hash is mapped, does nothing on Linux ([Linux/misc.c]). *)
Definition cleanup_mmu (g_num_sessions : Z) : K unit :=
  cleanup_mmu_tracker;;
  cleanup_mmu_fb;;
  cleanup_mmu_io g_num_sessions;;
  cleanup_mtable;;
  Context.cleanup_contexts;;
  bits ← kget (fun s => pthash_inuse_bits (mmu s));
  match bits with Some (a, _) => kfree a | None => mret tt end;;
  kmod (upd_mmu (fun m => zero_mmu (Skiplist.self (vsid_sl m)))).

(** [!f( kv ) && ..] *)
Definition and_then (f : K Z) (rest : K bool) : K bool :=
  r ← f; if r =? 0 then rest else mret false.

(** [arch_mmu_init] of [Linux/mmu.c]; [context] is the context of the
    process. *)
Definition arch_mmu_init (context : Z) : K Z :=
  kmod (upd_mmu (set_emulator_context context));; mret 0.

Definition init_mmu (context g_num_sessions : Z) : K Z :=
  success ← and_then (arch_mmu_init context)
    (and_then Context.init_contexts
      (and_then init_mtable
        (and_then init_mmu_io
          (and_then init_mmu_fb
            (and_then init_mmu_tracker (mret true))))));
  if negb success then cleanup_mmu g_num_sessions;; mret 1 else
  clear_vsid_refs;;
  mret 0.

Definition mmu_altered : K unit :=
  kmod (upd_mmu (fun m =>
    let ill := replicate 16 (illegal_sr m) in
    set_vsid zeros16 (set_user_sr ill (set_sv_sr ill m))));;
  invalidate_splitmode_sr;;
  sdr1 ← kget (fun s => spr_get (mr s) S_SDR1);
  _ ← do_mtsdr1 sdr1;
  kfor 0 16 (fun i =>
    v ← kget (fun s => spr_get (mr s) (S_IBAT0U + Z.of_nat i));
    _ ← do_mtbat (S_IBAT0U + Z.of_nat i) v true;
    mret tt).

(** [for( ; n-- ; va += 0x1000 ) flush_lvptr( kv, va )] *)
Fixpoint flush_lvptrs (n : nat) (va : Z) : K unit :=
  match n with
  | O => mret tt
  | S n' => flush_lvptr va;; flush_lvptrs n' (u32 (va + 0x1000))
  end.

(** The hook called when Linux destroys a page: the sessions ([None] for a
    free slot of the table) after it. *)
Fixpoint do_flush (sessions : list (option kvars)) (context va : Z) (n : nat) :
    option (list (option kvars)) :=
  match sessions with
  | [] => Some []
  | None :: l => l' ← do_flush l context va n; Some (None :: l')
  | Some kv :: l =>
      if context =? emulator_context (mmu kv) then
        r ← flush_lvptrs n va kv; Some (Some r.2 :: l)
      else l' ← do_flush l context va n; Some (Some kv :: l')
  end.

(** ** Debugger *)

(** The matching entries of a PTEG: their number and the first of them. *)
Fixpoint pteg_matches (n : nat) (p cmp : Z) (acc : Z * option (Z * Z)) : K (Z * option (Z * Z)) :=
  match n with
  | O => mret acc
  | S n' =>
      w0 ← ldw p;
      if cmp =? w0 then
        w1 ← ldw (p + 4);
        pteg_matches n' (p + 8) cmp
          (acc.1 + 1, match acc.2 with Some r => Some r | None => Some (w0, w1) end)
      else pteg_matches n' (p + 8) cmp acc
  end.

Definition dbg_vsid (m : mmu_vars) (context va : Z) : option Z :=
  let i := Z.to_nat (va .>> 28) in
  if context =? 1 then unmapped_sr m !! i
  else if context =? 2 then sv_sr m !! i
  else if context =? 3 then user_sr m !! i
  else if context =? 20 then
    Some ((Context.MUNGE_CONTEXT (emulator_context m) + (va .>> 28) * Context.MUNGE_ESID_ADD)
          .& 0xffffff)
  else if context =? 21 then Some 0
  else None.

(** The number of matches and the first of them, for a non-null [retptr]. *)
Definition dbg_get_PTE (context va : Z) : K (Z * option (Z * Z)) :=
  m ← kget mmu;
  h ← kget ptehash;
  match dbg_vsid m context va with
  | None => mret (0, None)
  | Some vsid =>
      let vsid := vsid .& 0xffffff in
      let va := va .& 0x0ffff000 in
      let mask := pteg_mask h .>> 6 in
      let ptmp := (vsid .^ (va .>> 12)) .& mask in
      let stmp := mask .& not32 ptmp in
      let cmp := 0x80000000 .| (vsid .<< 7) .| (va .>> 22) in
      r ← pteg_matches 8 ((ptmp .<< 6) + h_base h) cmp (0, None);
      pteg_matches 8 ((stmp .<< 6) + h_base h) (cmp .| 0x40) r
  end.

(** ** Initialisation is all or nothing *)

(** The parts of a session the tables of the MMU hang off, and the
    allocator *)
Definition mmu_parts (s : kvars) :=
  (io (mmu s), fb (mmu s), tracker (mmu s), vinfo (mmu s), pthash_inuse_bits (mmu s),
   Skiplist.self (vsid_sl (mmu s)), first_mol_context (mmu s), oracle s, freed s).

Definition fresh_session (s : kvars) : Prop :=
  mmu s = zero_mmu (Skiplist.self (vsid_sl (mmu s))) /\ 0 <= session_index s < Context.MAX_NUM_SESSIONS.

Lemma init_contexts_parts s :
  0 <= session_index s < Context.MAX_NUM_SESSIONS ->
  exists s', Context.init_contexts s = Some (0, s') /\
    mmu_parts s' = mmu_parts (upd_mmu (set_first_mol_context (Context.FIRST_MOL_CONTEXT (session_index s))) s).
Proof.
  intros Hs. unfold Context.init_contexts. rewrite kbind, kmod_eq. cbv beta iota zeta.
  set (s1 := upd_mmu _ s). rewrite kbind. destruct (Context.alloc_context s1) as [sr s2] eqn:E.
  assert (mmu_parts s2 = mmu_parts s1) as E2.
  { unfold Context.alloc_context in E. by injection E as _ <-. }
  rewrite kbind, kmod_eq, kbind. set (s3 := upd_mmu _ s2).
  assert (mmu_parts s3 = mmu_parts s1) as E3 by (rewrite <- E2; done).
  destruct (Context.flush_all_PTEs_tlb s3) as (l & ->).
  { replace (first_mol_context (mmu s3)) with (first_mol_context (mmu s1)).
    - by apply Context.first_context_big.
    - unfold mmu_parts in E3. congruence. }
  rewrite kret. eexists. split; [done|]. change (mmu_parts (set_tlbies l s3)) with (mmu_parts s3).
  by rewrite E3.
Qed.

Lemma vi_get_eq {A} (f : vsid_info -> A) s v : vinfo (mmu s) = Some v -> vi_get f s = Some (f v, s).
Proof. intros H. unfold vi_get. by rewrite H. Qed.

Lemma vi_mod_eq f s v :
  vinfo (mmu s) = Some v -> vi_mod f s = Some (tt, upd_mmu (set_vinfo (Some (f v))) s).
Proof. intros H. unfold vi_mod. by rewrite H. Qed.

(** What a failed initialisation leaves to [cleanup_mmu] *)
Definition failed_init (s : kvars) (vi : option Z) : Prop :=
  io (mmu s) = None /\ fb (mmu s) = None /\ tracker (mmu s) = None /\
  pthash_inuse_bits (mmu s) = None /\ Context.CTX_MASK < first_mol_context (mmu s) /\
  vinfo (mmu s) = (fun a => VsidInfo a [] 0 0 [] 0 (2 * 1024 * 1024)) <$> vi.

Lemma cleanup_failed_init n s vi :
  failed_init s vi ->
  exists s', cleanup_mmu n s = Some (tt, s') /\ mmu s' = zero_mmu (Skiplist.self (vsid_sl (mmu s))) /\
    freed s' = option_list vi ++ freed s /\ oracle s' = oracle s.
Proof.
  intros (Hio & Hfb & Htr & Hb & Hc & Hvi). unfold cleanup_mmu, cleanup_mmu_tracker, cleanup_mmu_fb, cleanup_mmu_io.
  rewrite !kbind, kget_eq, Htr. rewrite kret, kbind. rewrite kbind, kget_eq, Hfb, kret.
  rewrite kbind, kbind, kget_eq, Hio, kret, kbind.
  assert (exists s1, cleanup_mtable s = Some (tt, s1) /\ freed s1 = option_list vi ++ freed s /\
    oracle s1 = oracle s /\ Skiplist.self (vsid_sl (mmu s1)) = Skiplist.self (vsid_sl (mmu s)) /\
    pthash_inuse_bits (mmu s1) = None /\ first_mol_context (mmu s1) = first_mol_context (mmu s)) as
    (s1 & E1 & F1 & F2 & F3 & F4 & F5).
  { unfold cleanup_mtable. rewrite kbind, kget_eq, Hvi.
    destruct vi as [a|]; cbn [fmap option_fmap option_map]; rewrite kbind.
    - cbn [lvranges length free_all_lvranges]. rewrite kbind, kret, kbind.
      unfold do_kfree. rewrite kbind, (vi_get_eq _ _ _ Hvi). cbn [allocations filter list_filter kforeach].
      rewrite kbind, kret, (vi_mod_eq _ _ _ Hvi), kfree_eq.
      eexists. split; [done|]. repeat split. exact Hb.
    - rewrite kret. eexists. split; [done|]. repeat split. exact Hb. }
  rewrite E1, kbind. unfold Context.cleanup_contexts. rewrite kbind.
  destruct (Context.flush_all_PTEs_tlb s1) as (l & ->); [by rewrite F5|].
  rewrite kret, kbind, kget_eq. cbn [mmu set_tlbies]. rewrite F4, kbind, kret, kmod_eq. eexists.
  split; [done|]. cbn. rewrite F3. by split_and!.
Qed.

(** The allocations of [init_mmu] that succeeded when it cannot go on *)
Definition init_partial (l : list Z) : option (option Z) :=
  match l with
  | [] => Some None
  | a :: l' => if a =? 0 then Some None
               else if default 0 (head l') =? 0 then Some (Some a) else None
  end.

Lemma and_then_eq f rest s r s' :
  f s = Some (r, s') -> and_then f rest s = if r =? 0 then rest s' else Some (false, s').
Proof. intros E. unfold and_then. rewrite kbind, E. by destruct (r =? 0). Qed.

Lemma init_mtable_eq s :
  exists s', init_mtable s = Some (if default 0 (head (oracle s)) =? 0 then 1 else 0, s') /\
    mmu_parts s' = mmu_parts
      (set_oracle (tail (oracle s))
        (upd_mmu (set_vinfo (if default 0 (head (oracle s)) =? 0 then None
           else Some (VsidInfo (default 0 (head (oracle s))) [] 0 0 [] 0 (2 * 1024 * 1024)))) s)).
Proof.
  unfold init_mtable. rewrite kbind. unfold kalloc. destruct (oracle s) as [|a l] eqn:Eo; cbn [head tail default].
  - cbn [Z.eqb]. eexists. split; [done|]. unfold mmu_parts. cbn. by rewrite Eo.
  - cbn [from_option]. change (id a) with a.
    destruct (a =? 0); [eexists; split; [done|done]|]. eexists. unfold sl_init, Skiplist.skiplist_init.
    rewrite kbind, kmod_eq, kbind, kmod_eq, kret. by split.
Qed.

Definition init_vinfo (a : Z) : vsid_info := VsidInfo a [] 0 0 [] 0 (2 * 1024 * 1024).

Lemma fail_of_parts n s vi self i o fr :
  mmu_parts s = (None, None, None, init_vinfo <$> vi, None, self, Context.FIRST_MOL_CONTEXT i, o, fr) ->
  0 <= i < Context.MAX_NUM_SESSIONS ->
  exists s', (cleanup_mmu n;; mret 1) s = Some (1, s') /\ mmu s' = zero_mmu self /\
    freed s' = option_list vi ++ fr.
Proof.
  intros Hp Hi. unfold mmu_parts in Hp.
  injection Hp as P1 P2 P3 P4 P5 P6 P7 P8 P9.
  destruct (cleanup_failed_init n s vi) as (s' & E & F1 & F2 & F3).
  { split_and!; try done. rewrite P7. by apply Context.first_context_big. }
  exists s'. rewrite kbind, E, kret. split; [done|]. by rewrite F1, F2, P6, P9.
Qed.

Lemma init_mmu_io_eq s :
  exists s', init_mmu_io s = Some (if default 0 (head (oracle s)) =? 0 then 1 else 0, s') /\
    mmu_parts s' = mmu_parts
      (set_oracle (tail (oracle s))
        (upd_mmu (set_io (if default 0 (head (oracle s)) =? 0 then None
           else Some (IoData (default 0 (head (oracle s))) [] 0 []))) s)).
Proof.
  unfold init_mmu_io. rewrite kbind. unfold kalloc.
  destruct (oracle s) as [|a l] eqn:Eo; cbn [head tail default from_option].
  - cbn [Z.eqb]. eexists. split; [done|]. unfold mmu_parts. cbn. by rewrite Eo.
  - change (id a) with a. by destruct (a =? 0); eexists.
Qed.

Lemma init_partial_eq l :
  init_partial l = if default 0 (head l) =? 0 then Some None
                   else if default 0 (head (tail l)) =? 0 then Some (Some (default 0 (head l))) else None.
Proof. by destruct l. Qed.

(** C10: Initialising the MMU of a fresh session is all or nothing.  When the
    two tables can be allocated it succeeds and keeps both; when either
    allocation fails it reports the failure with the session as it was before
    and gives back exactly what had been allocated. *)
Theorem init_mmu_all_or_nothing context n s :
  fresh_session s ->
  match init_partial (oracle s) with
  | Some got => exists s', init_mmu context n s = Some (1, s') /\ mmu s' = mmu s /\
      freed s' = option_list got ++ freed s
  | None => exists s', init_mmu context n s = Some (0, s') /\ freed s' = freed s /\
      vi_self <$> vinfo (mmu s') = head (oracle s) /\
      iod_self <$> io (mmu s') = head (tail (oracle s)) /\
      user_sr (mmu s') = replicate 16 (illegal_sr (mmu s'))
  end.
Proof.
  intros [Hz Hs]. unfold init_mmu. rewrite kbind.
  rewrite (and_then_eq _ _ s 0 (upd_mmu (set_emulator_context context) s)) by done. cbn [Z.eqb].
  set (s0 := upd_mmu _ s).
  destruct (init_contexts_parts s0) as (s1 & E1 & P1); [done|].
  rewrite (and_then_eq _ _ _ _ _ E1). cbn [Z.eqb].
  destruct (init_mtable_eq s1) as (s2 & E2 & P2). rewrite (and_then_eq _ _ _ _ _ E2).
  assert (Ho : oracle s1 = oracle s) by (unfold mmu_parts in P1; cbn in P1; congruence).
  assert (Hparts : mmu_parts s1 = (None, None, None, None, None, Skiplist.self (vsid_sl (mmu s)),
    Context.FIRST_MOL_CONTEXT (session_index s), oracle s, freed s)).
  { rewrite P1. unfold mmu_parts, s0. cbn. rewrite Hz. done. }
  rewrite Ho in *.
  assert (Hp2 : mmu_parts s2 = (None, None, None,
    if default 0 (head (oracle s)) =? 0 then None else Some (init_vinfo (default 0 (head (oracle s)))),
    None, Skiplist.self (vsid_sl (mmu s)), Context.FIRST_MOL_CONTEXT (session_index s),
    tail (oracle s), freed s)).
  { rewrite P2. clear - Hparts. unfold mmu_parts in *.
    injection Hparts as Q1 Q2 Q3 Q4 Q5 Q6 Q7 Q8 Q9. cbn. rewrite Q1, Q2, Q3, Q5, Q6, Q7, Q9. by case_match. }
  clear E1 E2 P1 P2 Hparts. rewrite init_partial_eq. set (a := default 0 (head (oracle s))) in *.
  destruct (Z.eqb_spec a 0) as [Ha|Ha].
  { change (1 =? 0) with false. cbv iota.
    destruct (fail_of_parts n s2 None _ _ _ _ Hp2 Hs) as (s' & E & F1 & F2). exists s'. by rewrite F1, <- Hz. }
  change (0 =? 0) with true. cbv iota.
  destruct (init_mmu_io_eq s2) as (s3 & E3 & P3). rewrite (and_then_eq _ _ _ _ _ E3).
  assert (Ho2 : oracle s2 = tail (oracle s)) by (unfold mmu_parts in Hp2; congruence). rewrite Ho2 in *.
  set (b := default 0 (head (tail (oracle s)))) in *.
  assert (Hp3 : mmu_parts s3 = (if b =? 0 then None else Some (IoData b [] 0 []), None, None,
    Some (init_vinfo a), None, Skiplist.self (vsid_sl (mmu s)), Context.FIRST_MOL_CONTEXT (session_index s),
    tail (tail (oracle s)), freed s)).
  { rewrite P3. clear - Hp2. unfold mmu_parts in *.
    injection Hp2 as Q1 Q2 Q3 Q4 Q5 Q6 Q7 Q8 Q9. cbn. rewrite Q2, Q3, Q4, Q5, Q6, Q7, Q9. by case_match. }
  clear E3 P3 Hp2. destruct (Z.eqb_spec b 0) as [Hb|Hb].
  { change (1 =? 0) with false. cbv iota.
    destruct (fail_of_parts n s3 (Some a) _ _ _ _ Hp3 Hs) as (s' & E & F1 & F2). exists s'. by rewrite F1, <- Hz. }
  change (0 =? 0) with true. cbv iota. unfold mmu_parts in Hp3. injection Hp3 as Q1 _ _ Q4 _ _ _ _ Q9.
  eexists. split; [reflexivity|]. cbn. rewrite Q1, Q4, Q9. subst a b.
  destruct (oracle s) as [|x [|y l]]; [done..|]. by split_and!.
Qed.

(** The second allocation fails: the first is given back. *)
Lemma init_mmu_all_or_nothing_witness :
  let s := set_oracle [0x10000; 0] (upd_mmu (fun m => zero_mmu (Skiplist.self (vsid_sl m))) kv0) in
  fresh_session s /\
  exists s', init_mmu 1 1 s = Some (1, s') /\ mmu s' = mmu s /\ freed s' = [0x10000] ++ freed s.
Proof.
  set (s := set_oracle _ _).
  assert (H : fresh_session s) by (split; [reflexivity | by vm_compute]).
  split; [exact H|]. exact (init_mmu_all_or_nothing 1 1 s H).
Defined.

End Mmu.
