(* ===== verification/Timer.v ===== *)
(** * Timers ([src/main/timer.c])

    Sixteen timer slots are linked into three lists: [head] (running, sorted
    by deadline), [inactive] (paused periodic timers) and [free].  A deadline
    is a 64-bit time base value but the sorted list compares its low words
    only, so deadlines beyond the one of the [overflow] timer, which fires
    every 2^31 - 1 ticks, are queued behind it with [TF_OVERFLOW] set until
    it fires.  The links are modelled as the code has them, one [next] field
    per slot, because [timer_init] leaves the overflow timer linked into two
    lists at once. *)

From S2P Require Import Prelude.

Module Timer.

Definition TF_PERIODIC : Z := 1.
Definition TF_OVERFLOW : Z := 2.
Definition TF_AUTORESUME : Z := 4.
Definition MAX_NUM_TIMERS : nat := 16.
Definition TIMER_MAX : Z := 0x7fffffff.

Definition u64 (z : Z) : Z := z mod 2 ^ 64.
Definition s64 (z : Z) : Z := let u := z mod 2 ^ 64 in if u <? 2 ^ 63 then u else u - 2 ^ 64.

(** [mtimer_t]; a pointer to a timer is the index of its slot, a handler a
    number, 0 being [overflow_handler]. *)
Record mtimer := MTimer {
  tbu : Z; tbl : Z; flags : Z; period : Z; id : Z;
  next : option nat; usr : Z; handler : Z
}.

Definition set_mark (m : Z) (t : mtimer) : mtimer :=
  MTimer (u32 (m .>> 32)) (u32 m) (flags t) (period t) (id t) (next t) (usr t) (handler t).
Definition set_flags (f : Z) (t : mtimer) : mtimer :=
  MTimer (tbu t) (tbl t) f (period t) (id t) (next t) (usr t) (handler t).
Definition set_period (p : Z) (t : mtimer) : mtimer :=
  MTimer (tbu t) (tbl t) (flags t) p (id t) (next t) (usr t) (handler t).
Definition set_next (n : option nat) (t : mtimer) : mtimer :=
  MTimer (tbu t) (tbl t) (flags t) (period t) (id t) n (usr t) (handler t).

(** [((ullong)t->tbu << 32) | t->tbl] *)
Definition mark (t : mtimer) : Z := tbu t * 2 ^ 32 + tbl t.

(** The static [ts], the registers and globals the timers use, and the
    successive values of the time base. *)
Record tstate := TS {
  slots : list mtimer;
  head : option nat;
  inactive : option nat;
  free : option nat;
  overflow : option nat;
  tb_freq : Z;
  ticks_per_usec_num : Z;
  ticks_per_usec_den : Z;
  timer_stamp : Z;         (** [mregs->timer_stamp] *)
  dec_stamp : Z;           (** [mregs->dec_stamp] *)
  recalc_dec_int : bool;   (** [mregs->flag_bits & fb_RecalcDecInt] *)
  recalc_timer : bool;     (** [__recalc_timer] *)
  clock : nat -> Z;        (** the time base at each reading *)
  reading : nat
}.

Definition set_slots (v : list mtimer) (s : tstate) : tstate :=
  TS v (head s) (inactive s) (free s) (overflow s) (tb_freq s) (ticks_per_usec_num s)
    (ticks_per_usec_den s) (timer_stamp s) (dec_stamp s) (recalc_dec_int s) (recalc_timer s)
    (clock s) (reading s).
Definition set_head (v : option nat) (s : tstate) : tstate :=
  TS (slots s) v (inactive s) (free s) (overflow s) (tb_freq s) (ticks_per_usec_num s)
    (ticks_per_usec_den s) (timer_stamp s) (dec_stamp s) (recalc_dec_int s) (recalc_timer s)
    (clock s) (reading s).
Definition set_inactive (v : option nat) (s : tstate) : tstate :=
  TS (slots s) (head s) v (free s) (overflow s) (tb_freq s) (ticks_per_usec_num s)
    (ticks_per_usec_den s) (timer_stamp s) (dec_stamp s) (recalc_dec_int s) (recalc_timer s)
    (clock s) (reading s).
Definition set_free (v : option nat) (s : tstate) : tstate :=
  TS (slots s) (head s) (inactive s) v (overflow s) (tb_freq s) (ticks_per_usec_num s)
    (ticks_per_usec_den s) (timer_stamp s) (dec_stamp s) (recalc_dec_int s) (recalc_timer s)
    (clock s) (reading s).
Definition set_overflow (v : option nat) (s : tstate) : tstate :=
  TS (slots s) (head s) (inactive s) (free s) v (tb_freq s) (ticks_per_usec_num s)
    (ticks_per_usec_den s) (timer_stamp s) (dec_stamp s) (recalc_dec_int s) (recalc_timer s)
    (clock s) (reading s).
(** [mregs->timer_stamp], [mregs->dec_stamp], [fb_RecalcDecInt], [__recalc_timer] *)
Definition set_regs (stamp dec : Z) (dec_int recalc : bool) (s : tstate) : tstate :=
  TS (slots s) (head s) (inactive s) (free s) (overflow s) (tb_freq s) (ticks_per_usec_num s)
    (ticks_per_usec_den s) stamp dec dec_int recalc (clock s) (reading s).
Definition tick (s : tstate) : tstate :=
  TS (slots s) (head s) (inactive s) (free s) (overflow s) (tb_freq s) (ticks_per_usec_num s)
    (ticks_per_usec_den s) (timer_stamp s) (dec_stamp s) (recalc_dec_int s) (recalc_timer s)
    (clock s) (S (reading s)).

(** [get_mticks_()] is [now s], followed by [tick]; [get_tbl()] its low word *)
Definition now (s : tstate) : Z := u64 (clock s (reading s)).

Definition get_slot (s : tstate) (i : nat) : option mtimer := slots s !! i.
Definition mod_slot (i : nat) (f : mtimer -> mtimer) (s : tstate) : tstate :=
  set_slots (alter f i (slots s)) s.

(** A [mtimer_t**]: a list head or the [next] field of a slot. *)
Inductive loc : Set := LHead | LInactive | LFree | LNext (i : nat).
Definition get_loc (s : tstate) (l : loc) : option nat :=
  match l with
  | LHead => head s | LInactive => inactive s | LFree => free s
  | LNext i => get_slot s i ≫= next
  end.
Definition set_loc (l : loc) (v : option nat) (s : tstate) : tstate :=
  match l with
  | LHead => set_head v s | LInactive => set_inactive v s | LFree => set_free v s
  | LNext i => mod_slot i (set_next v) s
  end.

Definition walk_fuel : nat := S MAX_NUM_TIMERS.

(** ** Conversions *)

Definition usecs_to_mticks_ (s : tstate) (usecs : Z) : Z :=
  ticks_per_usec_num s * usecs / ticks_per_usec_den s.
Definition mticks_to_usecs_ (s : tstate) (mt : Z) : Z :=
  u32 (u64 (mt * ticks_per_usec_den s) / ticks_per_usec_num s).
Definition mticks_to_usecs := mticks_to_usecs_.
Definition get_timebase_frequency (s : tstate) : Z := tb_freq s.

(** ** Internal functions *)

(** The timer found, if any ([None]: no such timer), and the state. *)
Fixpoint dequeue_timer_from (fuel : nat) (l : loc) (tid : Z) (s : tstate) :
    option (option nat * tstate) :=
  match fuel with
  | O => None
  | S f =>
      match get_loc s l with
      | None => Some (None, s)
      | Some i =>
          t ← get_slot s i;
          if id t =? tid then Some (Some i, set_loc l (next t) s)
          else dequeue_timer_from f (LNext i) tid s
      end
  end.
Definition dequeue_timer := dequeue_timer_from walk_fuel.

(** The loop of [insert_timer]: skip the timers whose [tbl] is before [m],
    as a signed difference. *)
Fixpoint find_place (fuel : nat) (l : loc) (m : Z) (s : tstate) : option loc :=
  match fuel with
  | O => None
  | S f =>
      match get_loc s l with
      | None => Some l
      | Some i =>
          t ← get_slot s i;
          if s32 (tbl t - m) <? 0 then find_place f (LNext i) m s else Some l
      end
  end.

Definition insert_timer (main_thread : bool) (i : nat) (s : tstate) : option tstate :=
  t ← get_slot s i;
  o ← overflow s;
  ot ← get_slot s o;
  if 0 <? s64 (mark t - mark ot) then
    Some (mod_slot i (fun t => set_flags (flags t .| TF_OVERFLOW) t)
           (mod_slot o (set_next (Some i)) (mod_slot i (set_next (next ot)) s)))
  else
    tc ← find_place walk_fuel LHead (tbl t) s;
    let s := set_loc tc (Some i) (mod_slot i (set_next (get_loc s tc)) s) in
    if decide (head s = Some i) then
      Some (if main_thread then set_regs (tbl t) (dec_stamp s) true (recalc_timer s) s
            else set_regs (tbl t) (dec_stamp s) (recalc_dec_int s) true s)
    else Some s.

Definition new_timer (hnd u fl : Z) (s : tstate) : option (option nat * tstate) :=
  match free s with
  | None => Some (None, s)
  | Some i =>
      t ← get_slot s i;
      Some (Some i, mod_slot i
        (fun t => MTimer (tbu t) (tbl t) fl 0 (s32 (id t + 0x100)) None u hnd)
        (set_free (next t) s))
  end.

Section Timer.
(** [is_main_thread()] *)
Context (main_thread : bool).

(** ** One-shot timers *)

Definition abs_timer (u l : Z) (hnd user : Z) (s : tstate) : option (Z * tstate) :=
  r ← new_timer hnd user 0 s;
  match r with
  | (None, s) => Some (0, s)
  | (Some i, s) =>
      t ← get_slot s i;
      s ← insert_timer main_thread i (mod_slot i (set_mark (u * 2 ^ 32 + l)) s);
      Some (id t, s)
  end.

Definition tick_timer (ticks hnd user : Z) (s : tstate) : option (Z * tstate) :=
  let m := u64 (ticks + now s) in
  abs_timer (u32 (m .>> 32)) (u32 m) hnd user (tick s).

Definition usec_timer (usecs hnd user : Z) (s : tstate) : option (Z * tstate) :=
  let m := u64 (usecs_to_mticks_ s usecs + now s) in
  abs_timer (u32 (m .>> 32)) (u32 m) hnd user (tick s).

(** Put a timer at the front of a list. *)
Definition push (l : loc) (i : nat) (s : tstate) : tstate :=
  set_loc l (Some i) (mod_slot i (set_next (get_loc s l)) s).

Definition cancel_timer (tid : Z) (s : tstate) : option tstate :=
  r ← dequeue_timer LHead tid s;
  match r with
  | (None, s) => Some s
  | (Some i, s) => Some (push LFree i s)
  end.

(** ** Periodic timers *)

Definition new_ptimer (hnd user : Z) (auto_resume : bool) (s : tstate) : option (Z * tstate) :=
  r ← new_timer hnd user (TF_PERIODIC .| (if auto_resume then TF_AUTORESUME else 0)) s;
  match r with
  | (None, s) => Some (0, s)
  | (Some i, s) => t ← get_slot s i; Some (id t, push LInactive i s)
  end.

Definition set_ptimer_ticks (i : nat) (ticks : Z) (s : tstate) : option tstate :=
  let m := u64 (now s + ticks) in
  insert_timer main_thread i
    (mod_slot i (fun t => set_period (u32 ticks) (set_mark m t)) (tick s)).

(** [dequeue_timer(&l1, id)) || dequeue_timer(&l2, id)] *)
Definition dequeue_either (l1 l2 : loc) (tid : Z) (s : tstate) : option (option nat * tstate) :=
  r ← dequeue_timer l1 tid s;
  match r with
  | (None, s) => dequeue_timer l2 tid s
  | r => Some r
  end.

Definition set_ptimer (tid uperiod : Z) (s : tstate) : option tstate :=
  let uperiod := if uperiod <=? 10 then 2000 else uperiod in
  r ← dequeue_either LInactive LHead tid s;
  match r with
  | (None, s) => Some s
  | (Some i, s) =>
      let m := usecs_to_mticks_ s uperiod in
      insert_timer main_thread i
        (mod_slot i (fun t => set_period (u32 m) (set_mark (u64 (m + now s)) t)) (tick s))
  end.

(** [while( now - mark >= 0 )]: [lost] and [mark] at the end.  [lost] is an
    [int], so [lost++] is taken at 32 bits, as a two's complement machine
    counts. *)
Fixpoint recalc_loop (fuel : nat) (nw m per lost : Z) : option (Z * Z) :=
  match fuel with
  | O => None
  | S f => if 0 <=? nw - m then recalc_loop f nw (m + per) per (s32 (lost + 1)) else Some (lost, m)
  end.

Definition recalc_fuel (nw m per : Z) : nat := S (S (Z.to_nat ((nw - m) / per))).

Definition recalc_ptimer (i : nat) (s : tstate) : option (Z * tstate) :=
  t ← get_slot s i;
  let nw := s64 (now s) in
  let m := s64 (mark t) in
  r ← recalc_loop (recalc_fuel nw m (period t)) nw m (period t) (-1);
  let '(lost, m') := r in
  Some (if lost <? 0 then 0 else lost, mod_slot i (set_mark m') (tick s)).

Definition resume_ptimer (tid : Z) (s : tstate) : option (Z * tstate) :=
  r ← dequeue_timer LInactive tid s;
  match r with
  | (None, s) => Some (0, s)
  | (Some i, s) =>
      q ← recalc_ptimer i s;
      let '(lost, s) := q in
      s ← insert_timer main_thread i s;
      Some (lost, s)
  end.

Definition pause_ptimer (tid : Z) (s : tstate) : option tstate :=
  r ← dequeue_timer LHead tid s;
  match r with
  | (None, s) => Some s
  | (Some i, s) => Some (push LInactive i s)
  end.

Definition free_ptimer (tid : Z) (s : tstate) : option tstate :=
  r ← dequeue_either LHead LInactive tid s;
  match r with
  | (None, s) => Some s
  | (Some i, s) => Some (push LFree i s)
  end.

(** ** Debugger support *)

(** [for( t=ts.head; t; t=t->next )] *)
Fixpoint retune_from (fuel : nat) (l : loc) (add : Z) (s : tstate) : option tstate :=
  match fuel with
  | O => None
  | S f =>
      match get_loc s l with
      | None => Some s
      | Some i => t ← get_slot s i;
                  retune_from f (LNext i) add (mod_slot i (set_mark (u64 (mark t + add))) s)
      end
  end.

Definition retune_timers (freeze_mticks : Z) (s : tstate) : option tstate :=
  let add := u64 (now s - freeze_mticks) in
  s ← retune_from walk_fuel LHead add (tick s);
  Some (set_regs (timer_stamp s) (u32 (dec_stamp s + add)) (recalc_dec_int s) (recalc_timer s) s).

(** ** Running the timers *)

(** Unlink the timers marked [TF_OVERFLOW]: the chain built of them, last
    first, in slots. *)
Fixpoint unlink_overflow (fuel : nat) (l : loc) (chain : option nat) (s : tstate) :
    option (option nat * tstate) :=
  match fuel with
  | O => None
  | S f =>
      match get_loc s l with
      | None => Some (chain, s)
      | Some i =>
          t ← get_slot s i;
          if negb (tst (flags t) TF_OVERFLOW) then unlink_overflow f (LNext i) chain s
          else unlink_overflow f l (Some i) (mod_slot i (set_next chain) (set_loc l (next t) s))
      end
  end.

(** [while( (t=chain) )] *)
Fixpoint reinsert (fuel : nat) (chain : option nat) (s : tstate) : option tstate :=
  match fuel with
  | O => None
  | S f =>
      match chain with
      | None => Some s
      | Some i =>
          t ← get_slot s i;
          s ← insert_timer main_thread i
                (mod_slot i (fun t => set_flags (flags t .& not32 TF_OVERFLOW) t) s);
          reinsert f (next t) s
      end
  end.

Definition overflow_handler (s : tstate) : option tstate :=
  r ← unlink_overflow walk_fuel LHead None s;
  reinsert walk_fuel r.1 r.2.

(** The other handlers: a function of the handler, the id, the user data and
    the latency or the number of ticks lost. *)
Context (user_handler : Z -> Z -> Z -> Z -> tstate -> option tstate).

Definition call_handler (hnd tid user info : Z) (s : tstate) : option tstate :=
  if hnd =? 0 then overflow_handler s else user_handler hnd tid user info s.

(** One turn of the loop of [rvec_timer]; [false] when it is left. *)
Definition rvec_step (s : tstate) : option (bool * tstate) :=
  match head s with
  | None => Some (false, s)
  | Some i =>
      t ← get_slot s i;
      let info := s32 (u32 (now s) - tbl t) in
      let s := tick s in
      if (info <? 0) || tst (flags t) TF_OVERFLOW then Some (false, s)
      else
        let s := set_head (next t) s in
        r ← (if tst (flags t) TF_PERIODIC then
               if tst (flags t) TF_AUTORESUME then
                 q ← recalc_ptimer i s;
                 s ← insert_timer main_thread i q.2;
                 Some (q.1, s)
               else Some (info, push LInactive i s)
             else Some (info, push LFree i s));
        s ← call_handler (handler t) (id t) (usr t) r.1 r.2;
        Some (true, s)
  end.

Fixpoint rvec_loop (fuel : nat) (s : tstate) : option tstate :=
  match fuel with
  | O => None
  | S f =>
      r ← rvec_step s;
      let '(more, s) := r in
      if (more : bool) then rvec_loop f s else Some s
  end.

(** [fuel] bounds the number of handlers called. *)
Definition rvec_timer (fuel : nat) (s : tstate) : option tstate :=
  s ← rvec_loop fuel s;
  i ← head s;
  t ← get_slot s i;
  Some (set_regs (tbl t) (dec_stamp s) true false s).

(** The number of ticks [doze] may sleep. *)
Definition doze_ticks (s : tstate) : option Z :=
  let tb := u32 (now s) in
  i ← head s;
  t ← get_slot s i;
  let ticks := s32 (dec_stamp s - tb) in
  let d := s32 (tbl t - tb) in
  Some (if d <? ticks then d else ticks).

(** ** Initialisation *)

Definition init_slots : list mtimer :=
  map (fun i => MTimer 0 0 0 0 (Z.of_nat i + 1)
                  (if decide (S i < MAX_NUM_TIMERS)%nat then Some (S i) else None) 0 0)
      (seq 0 MAX_NUM_TIMERS).

(** [freq] is the time base frequency found. *)
Definition timer_init (freq : Z) (clk : nat -> Z) : option tstate :=
  let s := TS init_slots None None (Some 0%nat) None freq freq 1000000 0 0 false false clk 0 in
  let s := set_regs (u32 (u32 (now s) + TIMER_MAX)) 0 false false (tick s) in
  r ← new_ptimer 0 0 true s;
  let s := set_overflow (inactive r.2) r.2 in
  o ← overflow s;
  set_ptimer_ticks o TIMER_MAX s.

Definition timer_cleanup (s : tstate) : tstate := set_head None s.

End Timer.

(** ** Linked lists

    [seg s l xs v]: following the links from location [l] visits the slots
    [xs] and then reads [v]. *)
Fixpoint seg (s : tstate) (l : loc) (xs : list nat) (v : option nat) : Prop :=
  match xs with
  | [] => get_loc s l = v
  | i :: xs' => get_loc s l = Some i /\ seg s (LNext i) xs' v
  end.

(** The location read after [xs], and what is found there before [v]. *)
Fixpoint lastloc (l : loc) (xs : list nat) : loc :=
  match xs with [] => l | x :: xs' => lastloc (LNext x) xs' end.
Definition first (xs : list nat) (v : option nat) : option nat :=
  match xs with [] => v | x :: _ => Some x end.

#[export] Instance loc_eq_dec : EqDecision loc.
Proof. solve_decision. Defined.

Lemma get_slot_mod s i j f :
  get_slot (mod_slot i f s) j = if decide (i = j) then f <$> get_slot s j else get_slot s j.
Proof.
  unfold get_slot, mod_slot, set_slots. cbn [slots]. case_decide as E.
  - subst. apply list_lookup_alter_eq.
  - by apply list_lookup_alter_ne.
Qed.

Lemma get_loc_mod s l i f :
  (forall t, next (f t) = next t) -> get_loc (mod_slot i f s) l = get_loc s l.
Proof.
  intros Hf. destruct l; try done. cbn [get_loc]. rewrite get_slot_mod.
  case_decide; [|done]. destruct (get_slot s i0); cbn; [by rewrite Hf|done].
Qed.

Lemma get_loc_set_ne s l l' v : l <> l' -> get_loc (set_loc l' v s) l = get_loc s l.
Proof.
  intros Hne. destruct l, l'; try done. cbn [get_loc set_loc]. rewrite get_slot_mod.
  rewrite decide_False by congruence. done.
Qed.

Definition valid_loc (s : tstate) (l : loc) : Prop :=
  match l with LNext i => is_Some (get_slot s i) | _ => True end.

Lemma get_loc_set_eq s l v : valid_loc s l -> get_loc (set_loc l v s) l = v.
Proof.
  destruct l; try done. cbn. intros [t Ht]. rewrite get_slot_mod, decide_True, Ht by done. done.
Qed.

Lemma seg_reroot s s' l l' xs v :
  seg s l xs v -> get_loc s' l' = get_loc s l ->
  (forall x, x ∈ xs -> get_loc s' (LNext x) = get_loc s (LNext x)) -> seg s' l' xs v.
Proof.
  revert l l'. induction xs as [|x xs IH]; intros l l'; cbn; [congruence|].
  intros [H1 H2] Hl Hx. split; [congruence|]. apply (IH (LNext x)); [done|..].
  - apply Hx. set_solver.
  - intros y Hy. apply Hx. set_solver.
Qed.

Lemma seg_frame s s' l xs v :
  (forall l0, l0 = l \/ (exists x, x ∈ xs /\ l0 = LNext x) -> get_loc s' l0 = get_loc s l0) ->
  seg s l xs v -> seg s' l xs v.
Proof. intros Hl Hs. apply (seg_reroot s s' l l); [done|auto|]. intros x Hx. eauto. Qed.

Lemma seg_get s l xs v : seg s l xs v -> get_loc s (lastloc l xs) = v.
Proof. revert l. induction xs as [|x xs IH]; intros l; cbn; [done|]. intros [_ H]. by apply IH. Qed.

Lemma seg_first s l xs v : seg s l xs v -> get_loc s l = first xs v.
Proof. destruct xs; cbn; [done|]. by intros [? _]. Qed.

Lemma seg_app s l xs1 xs2 v :
  seg s l (xs1 ++ xs2) v <-> seg s l xs1 (first xs2 v) /\ seg s (lastloc l xs1) xs2 v.
Proof.
  revert l. induction xs1 as [|x xs1 IH]; intros l; cbn.
  - split; [|tauto]. intros H. split; [by apply (seg_first _ _ xs2)|done].
  - rewrite IH. tauto.
Qed.

Lemma lastloc_cases l xs : lastloc l xs = l \/ exists x, x ∈ xs /\ lastloc l xs = LNext x.
Proof.
  revert l. induction xs as [|x xs IH]; intros l; cbn; [by left|]. right.
  destruct (IH (LNext x)) as [->|(y & Hy & ->)]; [exists x|exists y]; set_solver.
Qed.

Lemma lastloc_ne l xs x : NoDup (x :: xs) -> l <> LNext x -> (forall y, y ∈ xs -> l <> LNext y) ->
  lastloc (LNext x) xs <> l.
Proof.
  intros Hn Hl Hy. destruct (lastloc_cases (LNext x) xs) as [->|(y & Hi & ->)]; [done|].
  specialize (Hy y Hi). congruence.
Qed.

(** Redirect the end of a segment. *)
Lemma seg_set_last s l xs w w' :
  NoDup xs -> (forall x, x ∈ xs -> l <> LNext x) -> valid_loc s (lastloc l xs) ->
  seg s l xs w -> seg (set_loc (lastloc l xs) w' s) l xs w'.
Proof.
  revert l. induction xs as [|x xs IH]; intros l Hn Hl Hv; cbn [seg lastloc].
  - intros _. by apply get_loc_set_eq.
  - intros [H1 H2]. split.
    + rewrite get_loc_set_ne; [done|]. intros E. symmetry in E. revert E.
      apply lastloc_ne; [done|apply Hl; set_solver|]. intros y Hy. apply Hl. set_solver.
    + apply list.NoDup_cons in Hn as [Hx Hn]. apply IH; [done| |done|done].
      intros y Hy E. injection E as <-. done.
Qed.

(** ** The loops over the lists *)

Lemma dequeue_hit fuel s l xs1 x xs2 v tid t :
  seg s l (xs1 ++ x :: xs2) v -> (length xs1 < fuel)%nat ->
  (forall y, y ∈ xs1 -> exists ty, get_slot s y = Some ty /\ id ty <> tid) ->
  get_slot s x = Some t -> id t = tid ->
  dequeue_timer_from fuel l tid s = Some (Some x, set_loc (lastloc l xs1) (next t) s).
Proof.
  revert l fuel. induction xs1 as [|y xs1 IH]; intros l fuel Hs Hf Hy Hx Hid;
    (destruct fuel as [|fuel]; [cbn in Hf; lia|]); cbn [app seg] in Hs; destruct Hs as [Hl Hs];
    cbn [dequeue_timer_from lastloc]; rewrite Hl.
  - rewrite Hx. mred. by rewrite Hid, Z.eqb_refl.
  - destruct (Hy y ltac:(set_solver)) as (ty & Ety & Hne). rewrite Ety. mred.
    rewrite (proj2 (Z.eqb_neq _ _) Hne). apply IH; [done|cbn in Hf; lia| |done|done].
    intros z Hz. apply Hy. set_solver.
Qed.

Lemma dequeue_miss fuel s l xs tid :
  seg s l xs None -> (length xs < fuel)%nat ->
  (forall y, y ∈ xs -> exists ty, get_slot s y = Some ty /\ id ty <> tid) ->
  dequeue_timer_from fuel l tid s = Some (None, s).
Proof.
  revert l fuel. induction xs as [|y xs IH]; intros l fuel Hs Hf Hy;
    (destruct fuel as [|fuel]; [cbn in Hf; lia|]); cbn [seg] in Hs;
    cbn [dequeue_timer_from].
  - by rewrite Hs.
  - destruct Hs as [Hl Hs]. rewrite Hl.
    destruct (Hy y ltac:(set_solver)) as (ty & Ety & Hne). rewrite Ety. mred.
    rewrite (proj2 (Z.eqb_neq _ _) Hne). apply IH; [done|cbn in Hf; lia|].
    intros z Hz. apply Hy. set_solver.
Qed.

Lemma find_place_spec fuel s l xs o to m :
  seg s l xs (Some o) -> (length xs < fuel)%nat ->
  (forall y, y ∈ xs -> is_Some (get_slot s y)) ->
  get_slot s o = Some to -> 0 <= s32 (tbl to - m) ->
  exists xs1 xs2, xs = xs1 ++ xs2 /\ find_place fuel l m s = Some (lastloc l xs1) /\
    (forall y ty, y ∈ xs1 -> get_slot s y = Some ty -> s32 (tbl ty - m) < 0) /\
    (forall ty, first xs2 None ≫= get_slot s = Some ty -> 0 <= s32 (tbl ty - m)).
Proof.
  revert l fuel. induction xs as [|y xs IH]; intros l fuel Hs Hf Hy Ho Hm;
    (destruct fuel as [|fuel]; [cbn in Hf; lia|]); cbn [seg] in Hs.
  - exists [], []. cbn [find_place lastloc]. rewrite Hs, Ho. mred.
    rewrite (proj2 (Z.ltb_ge _ _)) by lia. split; [done|]. split; [done|]. split; [set_solver|done].
  - destruct Hs as [Hl Hs]. destruct (Hy y ltac:(set_solver)) as [ty Ety].
    cbn [find_place]. rewrite Hl, Ety. mred. destruct (Z.ltb_spec (s32 (tbl ty - m)) 0) as [Hlt|Hge].
    + destruct (IH (LNext y) fuel Hs ltac:(cbn in Hf; lia) ltac:(set_solver) Ho Hm)
        as (xs1 & xs2 & -> & E & H1 & H2).
      exists (y :: xs1), xs2. split; [done|]. split; [done|]. split; [|done].
      intros z tz Hz Ez. apply elem_of_cons in Hz as [->|Hz]; [congruence|]. by apply (H1 z).
    + exists [], (y :: xs). split; [done|]. split; [done|]. split; [set_solver|].
      cbn. intros ty' E. congruence.
Qed.

(** ** Changing a list *)

Lemma seg_frame_set s l xs v p w :
  seg s l xs v -> p <> l -> (forall x, x ∈ xs -> p <> LNext x) -> seg (set_loc p w s) l xs v.
Proof.
  intros Hs Hl Hx. apply (seg_frame s); [|done].
  intros l0 [->|(x & Hin & ->)]; apply get_loc_set_ne; apply not_eq_sym; auto.
Qed.

Lemma valid_loc_set s p w l : valid_loc (set_loc p w s) l <-> valid_loc s l.
Proof.
  destruct l; try done. cbn. destruct p; try done. cbn. rewrite get_slot_mod.
  case_decide; [|done]. by rewrite fmap_is_Some.
Qed.

(** The locations of a list are valid and distinct from its start. *)
Definition list_ok (s : tstate) (l : loc) (xs : list nat) : Prop :=
  NoDup xs /\ valid_loc s l /\ forall x, x ∈ xs -> l <> LNext x /\ is_Some (get_slot s x).

Lemma list_ok_last s l xs : list_ok s l xs -> valid_loc s (lastloc l xs).
Proof.
  intros (_ & Hl & Hx). destruct (lastloc_cases l xs) as [->|(x & Hin & ->)]; [done|].
  cbn. by apply Hx.
Qed.

Lemma list_ok_app s l xs1 xs2 : list_ok s l (xs1 ++ xs2) -> list_ok s l xs1.
Proof.
  intros (Hn & Hl & Hx). apply list.NoDup_app in Hn as (Hn & _ & _).
  split; [done|]. split; [done|]. intros x Hin. apply Hx. set_solver.
Qed.

Lemma seg_remove s l xs1 x xs2 v :
  seg s l (xs1 ++ x :: xs2) v -> list_ok s l (xs1 ++ x :: xs2) ->
  seg (set_loc (lastloc l xs1) (get_loc s (LNext x)) s) l (xs1 ++ xs2) v.
Proof.
  intros Hs Hok. pose proof (list_ok_app _ _ _ _ Hok) as Hok1. pose proof Hok as (Hn & Hl & Hx).
  apply seg_app in Hs as [H1 [H2 H3]]. pose proof (seg_first _ _ _ _ H3) as Hf.
  apply seg_app. split.
  - rewrite Hf. eapply seg_set_last; [apply Hok1|..|exact H1].
    + intros y Hy. by apply Hok1.
    + by apply list_ok_last.
  - apply (seg_reroot s _ (LNext x)); [done|apply get_loc_set_eq; by apply list_ok_last|].
    intros y Hy. apply get_loc_set_ne. apply not_eq_sym.
    destruct (lastloc_cases l xs1) as [->|(z & Hz & ->)]; [apply Hx; set_solver|].
    intros E. injection E as ->. apply list.NoDup_app in Hn as (_ & Hd & _).
    apply (Hd y Hz). set_solver.
Qed.

(** Link [x] in after [xs1]. *)
Definition link (p : loc) (x : nat) (s : tstate) : tstate :=
  set_loc p (Some x) (set_loc (LNext x) (get_loc s p) s).

Lemma seg_insert s l xs1 x xs2 v :
  seg s l (xs1 ++ xs2) v -> list_ok s l (xs1 ++ xs2) ->
  x ∉ xs1 ++ xs2 -> l <> LNext x -> is_Some (get_slot s x) ->
  seg (link (lastloc l xs1) x s) l (xs1 ++ x :: xs2) v.
Proof.
  intros Hs Hok Hni Hlx Hx. pose proof (list_ok_app _ _ _ _ Hok) as Hok1.
  pose proof Hok as (Hn & Hl & Hxs). apply seg_app in Hs as [H1 H2].
  assert (Hpx : lastloc l xs1 <> LNext x).
  { destruct (lastloc_cases l xs1) as [->|(z & Hz & ->)]; [done|]. intros E.
    injection E as ->. set_solver. }
  unfold link. set (s1 := set_loc (LNext x) _ s).
  assert (H1' : seg s1 l xs1 (first xs2 v))
    by (apply seg_frame_set; [done|by apply not_eq_sym|]; intros y Hy E; injection E as ->; set_solver).
  apply seg_app. split.
  - eapply seg_set_last; [apply Hok1|..|exact H1'].
    + intros y Hy. by apply Hok1.
    + apply valid_loc_set. by apply list_ok_last.
  - split.
    + apply get_loc_set_eq, valid_loc_set. by apply list_ok_last.
    + apply (seg_reroot s _ (lastloc l xs1)); [done|..].
      * rewrite get_loc_set_ne by (by apply not_eq_sym). apply get_loc_set_eq. done.
      * intros y Hy. rewrite get_loc_set_ne; [unfold s1; rewrite get_loc_set_ne; [done|]|].
        -- intros E. injection E as ->. set_solver.
        -- destruct (lastloc_cases l xs1) as [->|(z & Hz & ->)];
             [apply not_eq_sym, (Hxs y); set_solver|].
           intros E. injection E as ->. apply list.NoDup_app in Hn as (_ & Hd & _).
           by apply (Hd z Hz).
Qed.

Lemma lastloc_app l xs ys : lastloc l (xs ++ ys) = lastloc (lastloc l xs) ys.
Proof. revert l. induction xs as [|x xs IH]; intros l; cbn; [done|]. apply IH. Qed.

Lemma push_link l x s : push l x s = link l x s.
Proof. done. Qed.

(** ** The shape of the state

    The running timers are [A], the overflow timer [o] and the timers [B]
    behind it; the paused ones are [I]; [F] are the free slots and [X] the
    slots being worked on.  The inactive list ends in [o] and [B] as well. *)
Record tshape (s : tstate) (A : list nat) (o : nat) (B I F X : list nat) : Prop := TShape {
  sh_len : length (slots s) = MAX_NUM_TIMERS;
  sh_perm : Permutation (A ++ o :: B ++ I ++ F ++ X) (seq 0 MAX_NUM_TIMERS);
  sh_ov : overflow s = Some o;
  sh_head : seg s LHead A (Some o);
  sh_tail : seg s (LNext o) B None;
  sh_inact : seg s LInactive I (Some o);
  sh_free : seg s LFree F None
}.

Lemma tshape_nodup s A o B I F X : tshape s A o B I F X -> NoDup (A ++ o :: B ++ I ++ F ++ X).
Proof. intros H. rewrite (sh_perm _ _ _ _ _ _ _ H). apply NoDup_seq. Qed.

Lemma tshape_slot s A o B I F X x :
  tshape s A o B I F X -> x ∈ A ++ o :: B ++ I ++ F ++ X -> is_Some (get_slot s x).
Proof.
  intros H Hx. apply lookup_lt_is_Some_2. rewrite (sh_len _ _ _ _ _ _ _ H).
  rewrite (sh_perm _ _ _ _ _ _ _ H) in Hx. apply elem_of_seq in Hx. lia.
Qed.

(** The lists are disjoint. *)
Definition separate (A : list nat) (o : nat) (B I F X : list nat) : Prop :=
  (NoDup A /\ NoDup B /\ NoDup I /\ NoDup F /\ NoDup X) /\
  ((o ∉ A) /\ (o ∉ B) /\ (o ∉ I) /\ (o ∉ F) /\ (o ∉ X)) /\
  (A ## B /\ A ## I /\ A ## F /\ A ## X /\ B ## I /\ B ## F /\ B ## X /\ I ## F /\ I ## X /\ F ## X).

Lemma tshape_separate s A o B I F X : tshape s A o B I F X -> separate A o B I F X.
Proof.
  intros H%tshape_nodup. rewrite !list.NoDup_app, list.NoDup_cons, !list.NoDup_app in H.
  destruct H as (HA & HAx & Ho & HB & HBx & HI & HIx & HF & HFx & HX).
  unfold separate. repeat split; try done; set_solver.
Qed.

(** Discharge the side conditions on locations. *)
Ltac locs :=
  intros;
  repeat match goal with
  | |- context [lastloc ?l ?xs] =>
      let y := fresh "y" in
      destruct (lastloc_cases l xs) as [-> | (y & ? & ->)]
  end;
  first [congruence
        | let E := fresh in intros E; first [discriminate E | injection E as ->]; set_solver
        | set_solver].

Lemma shape_list_ok s A o B I F X l xs :
  tshape s A o B I F X -> NoDup xs ->
  (forall x, x ∈ xs -> x ∈ A ++ o :: B ++ I ++ F ++ X /\ l <> LNext x) ->
  valid_loc s l -> list_ok s l xs.
Proof.
  intros H Hn Hx Hl. split; [done|]. split; [done|]. intros x Hin.
  destruct (Hx x Hin) as [Hin' Hne]. split; [done|]. by eapply tshape_slot.
Qed.

Lemma shape_len s p w : length (slots (set_loc p w s)) = length (slots s).
Proof. destruct p; try done. cbn. apply length_alter. Qed.
Lemma shape_ov s p w : overflow (set_loc p w s) = overflow s.
Proof. by destruct p. Qed.

Ltac frame_seg :=
  match goal with
  | H : seg _ ?l ?xs ?v |- seg _ ?l ?xs ?v =>
      unfold link; repeat (apply seg_frame_set; [|locs..]); exact H
  end.

(** Rebuild the shape after an update: all but the list that changes. *)
Ltac reshape Hs :=
  destruct Hs as [Hl Hp Hov Hh Ht Hi Hf]; split;
  [ unfold link; rewrite ?shape_len; done
  | rewrite <- Hp; solve_Permutation
  | unfold link; rewrite ?shape_ov; done
  | try frame_seg ..].

Lemma head_ok s A o B I F X : tshape s A o B I F X -> list_ok s LHead A.
Proof.
  intros Hs. pose proof (tshape_separate _ _ _ _ _ _ _ Hs) as ((? & _) & _).
  eapply shape_list_ok; [exact Hs|done| |done]. set_solver.
Qed.
Lemma tail_ok s A o B I F X : tshape s A o B I F X -> list_ok s (LNext o) B.
Proof.
  intros Hs. pose proof (tshape_separate _ _ _ _ _ _ _ Hs) as ((_ & ? & _) & (_ & Ho & _) & _).
  eapply shape_list_ok; [exact Hs|done| |].
  - intros x Hx. split; [set_solver|]. intros E. injection E as ->. done.
  - eapply tshape_slot; [exact Hs|]. set_solver.
Qed.
Lemma inact_ok s A o B I F X : tshape s A o B I F X -> list_ok s LInactive I.
Proof.
  intros Hs. pose proof (tshape_separate _ _ _ _ _ _ _ Hs) as ((_ & _ & ? & _) & _).
  eapply shape_list_ok; [exact Hs|done| |done]. set_solver.
Qed.
Lemma free_ok s A o B I F X : tshape s A o B I F X -> list_ok s LFree F.
Proof.
  intros Hs. pose proof (tshape_separate _ _ _ _ _ _ _ Hs) as ((_ & _ & _ & ? & _) & _).
  eapply shape_list_ok; [exact Hs|done| |done]. set_solver.
Qed.

Lemma shape_remove_A s A o B I F X A1 x A2 :
  tshape s A o B I F X -> A = A1 ++ x :: A2 ->
  tshape (set_loc (lastloc LHead A1) (get_loc s (LNext x)) s) (A1 ++ A2) o B I F (x :: X).
Proof.
  intros Hs ->. pose proof (tshape_separate _ _ _ _ _ _ _ Hs) as (_ & Ho & Hd).
  pose proof (head_ok _ _ _ _ _ _ _ Hs) as Hok. reshape Hs.
  by apply seg_remove.
Qed.

Lemma shape_remove_B s A o B I F X B1 x B2 :
  tshape s A o B I F X -> B = B1 ++ x :: B2 ->
  tshape (set_loc (lastloc (LNext o) B1) (get_loc s (LNext x)) s) A o (B1 ++ B2) I F (x :: X).
Proof.
  intros Hs ->. pose proof (tshape_separate _ _ _ _ _ _ _ Hs) as (_ & Ho & Hd).
  pose proof (tail_ok _ _ _ _ _ _ _ Hs) as Hok. reshape Hs.
  by apply seg_remove.
Qed.

Lemma shape_remove_I s A o B I F X I1 x I2 :
  tshape s A o B I F X -> I = I1 ++ x :: I2 ->
  tshape (set_loc (lastloc LInactive I1) (get_loc s (LNext x)) s) A o B (I1 ++ I2) F (x :: X).
Proof.
  intros Hs ->. pose proof (tshape_separate _ _ _ _ _ _ _ Hs) as (_ & Ho & Hd).
  pose proof (inact_ok _ _ _ _ _ _ _ Hs) as Hok. reshape Hs.
  by apply seg_remove.
Qed.

Lemma shape_pop_F s A o B I F X x F' :
  tshape s A o B I F X -> F = x :: F' ->
  tshape (set_loc LFree (get_loc s (LNext x)) s) A o B I F' (x :: X).
Proof.
  intros Hs ->. pose proof (tshape_separate _ _ _ _ _ _ _ Hs) as (_ & Ho & Hd).
  pose proof (free_ok _ _ _ _ _ _ _ Hs) as Hok. reshape Hs.
  by apply (seg_remove s LFree [] x F').
Qed.

Lemma shape_insert_A s A o B I F X A1 A2 x :
  tshape s A o B I F (x :: X) -> A = A1 ++ A2 ->
  tshape (link (lastloc LHead A1) x s) (A1 ++ x :: A2) o B I F X.
Proof.
  intros Hs ->. pose proof (tshape_separate _ _ _ _ _ _ _ Hs) as (Hnd & Ho & Hd).
  pose proof (head_ok _ _ _ _ _ _ _ Hs) as Hok.
  pose proof (tshape_slot _ _ _ _ _ _ _ x Hs ltac:(set_solver)) as Hx. reshape Hs.
  apply seg_insert; [done|done|set_solver|done|done].
Qed.

Lemma shape_insert_B s A o B I F X x :
  tshape s A o B I F (x :: X) -> tshape (link (LNext o) x s) A o (x :: B) I F X.
Proof.
  intros Hs. pose proof (tshape_separate _ _ _ _ _ _ _ Hs) as (Hnd & Ho & Hd).
  pose proof (tail_ok _ _ _ _ _ _ _ Hs) as Hok.
  pose proof (tshape_slot _ _ _ _ _ _ _ x Hs ltac:(set_solver)) as Hx. reshape Hs.
  apply (seg_insert s (LNext o) [] x B); [done|done|set_solver| |done]. intros E.
  injection E as ->. set_solver.
Qed.

Lemma shape_push_I s A o B I F X x :
  tshape s A o B I F (x :: X) -> tshape (push LInactive x s) A o B (x :: I) F X.
Proof.
  intros Hs. rewrite push_link.
  pose proof (tshape_separate _ _ _ _ _ _ _ Hs) as (Hnd & Ho & Hd).
  pose proof (inact_ok _ _ _ _ _ _ _ Hs) as Hok.
  pose proof (tshape_slot _ _ _ _ _ _ _ x Hs ltac:(set_solver)) as Hx. reshape Hs.
  apply (seg_insert s LInactive [] x I); [done|done|set_solver|done|done].
Qed.

Lemma shape_push_F s A o B I F X x :
  tshape s A o B I F (x :: X) -> tshape (push LFree x s) A o B I (x :: F) X.
Proof.
  intros Hs. rewrite push_link.
  pose proof (tshape_separate _ _ _ _ _ _ _ Hs) as (Hnd & Ho & Hd).
  pose proof (free_ok _ _ _ _ _ _ _ Hs) as Hok.
  pose proof (tshape_slot _ _ _ _ _ _ _ x Hs ltac:(set_solver)) as Hx. reshape Hs.
  apply (seg_insert s LFree [] x F); [done|done|set_solver|done|done].
Qed.

(** Changes that leave the links alone keep the shape. *)
Lemma shape_same s s' A o B I F X :
  length (slots s') = length (slots s) -> overflow s' = overflow s ->
  (forall l, get_loc s' l = get_loc s l) ->
  tshape s A o B I F X -> tshape s' A o B I F X.
Proof.
  intros El Eo Hg [Hl Hp Hov Hh Ht Hi Hf].
  split; [congruence|done|congruence|..]; (eapply seg_frame; [|eassumption]); auto.
Qed.

Lemma shape_mod s A o B I F X i f :
  (forall t, next (f t) = next t) -> tshape s A o B I F X -> tshape (mod_slot i f s) A o B I F X.
Proof.
  intros Hf. apply shape_same; [apply length_alter|done|]. intros l. by apply get_loc_mod.
Qed.

(** Slots that move between detached positions. *)
Lemma shape_perm_X s A o B I F X X' :
  Permutation X X' -> tshape s A o B I F X -> tshape s A o B I F X'.
Proof. intros HX [Hl Hp Hov Hh Ht Hi Hf]. split; [done| |done..]. by rewrite <- HX. Qed.

End Timer.
