(* ===== verification/TimerInv.v ===== *)
(** * Correctness of the timers ([src/main/timer.c])

    The invariant of the timer lists and what each operation does to them,
    built on the shape lemmas of [Timer.v]. *)

From S2P Require Import Prelude Timer.

Module TimerInv.
Import Timer.

(** ** Deadlines *)

(** The data of a slot, without its link. *)
Definition core (t : mtimer) : mtimer := set_next None t.
Definition same_data (s s' : tstate) : Prop :=
  forall i, core <$> get_slot s' i = core <$> get_slot s i.

Lemma same_data_set s p w : same_data s (set_loc p w s).
Proof.
  intros i. destruct p; try done. cbn [set_loc]. rewrite get_slot_mod. case_decide; [|done].
  by destruct (get_slot s i).
Qed.
Lemma same_data_trans s1 s2 s3 : same_data s1 s2 -> same_data s2 s3 -> same_data s1 s3.
Proof. intros H1 H2 i. by rewrite H2. Qed.
Lemma same_data_link s p x : same_data s (link p x s).
Proof. eapply same_data_trans; apply same_data_set. Qed.

(** The deadline of a slot. *)
Definition mk (s : tstate) (i : nat) : Z := from_option mark 0 (get_slot s i).

Lemma same_data_mk s s' i : same_data s s' -> mk s' i = mk s i.
Proof.
  intros H. specialize (H i). unfold mk.
  destruct (get_slot s' i), (get_slot s i); try done. cbn in *. injection H as H1 H2 _ _ _ _ _.
  unfold mark. by rewrite H1, H2.
Qed.

Definition slot_ok (i : nat) (t : mtimer) : Prop :=
  id t mod 256 = Z.of_nat i + 1 /\ 0 <= tbu t < 2 ^ 31 /\ 0 <= tbl t < 2 ^ 32.

Definition slots_ok (s : tstate) : Prop := forall i t, get_slot s i = Some t -> slot_ok i t.

Lemma same_data_slots_ok s s' : same_data s s' -> slots_ok s -> slots_ok s'.
Proof.
  intros H Hok i t Ht. specialize (H i). rewrite Ht in H. cbn in H.
  destruct (get_slot s i) as [t0|] eqn:E; [|done]. injection H as H1 H2 _ _ H3 _ _.
  destruct (Hok i t0 E) as (? & ? & ?). unfold slot_ok. by rewrite H1, H2, H3.
Qed.

(** The running timers are sorted by deadline, within 2^31 ticks of the
    deadline of the overflow timer. *)
Record tinv (s : tstate) (A : list nat) (o : nat) (B I F X : list nat) : Prop := TInv {
  iv_shape : tshape s A o B I F X;
  iv_slots : slots_ok s;
  iv_sorted : StronglySorted (fun i j => mk s i <= mk s j) A;
  iv_window : Forall (fun i => mk s o - 2 ^ 31 < mk s i <= mk s o) A
}.

Lemma s32_diff a b : - 2 ^ 31 <= a - b < 2 ^ 31 -> s32 (a mod 2 ^ 32 - b mod 2 ^ 32) = a - b.
Proof.
  intros H. rewrite <- (s32_small (a - b)) by lia. unfold s32.
  by rewrite <- Zminus_mod.
Qed.

Lemma s64_small z : - 2 ^ 63 <= z < 2 ^ 63 -> s64 z = z.
Proof.
  intros H. unfold s64. destruct (Z.ltb_spec (z mod 2 ^ 64) (2 ^ 63));
    Z.to_euclidean_division_equations; lia.
Qed.

Lemma mark_tbl t : 0 <= tbl t < 2 ^ 32 -> mark t mod 2 ^ 32 = tbl t.
Proof. intros H. unfold mark. rewrite Z.add_comm, Z_mod_plus_full. by apply Z.mod_small. Qed.

Lemma sorted_insert (R : nat -> nat -> Prop) `{!Transitive R} xs1 i xs2 :
  StronglySorted R (xs1 ++ xs2) -> (forall y, y ∈ xs1 -> R y i) ->
  (forall z, first xs2 None = Some z -> R i z) -> StronglySorted R (xs1 ++ i :: xs2).
Proof.
  induction xs1 as [|x xs1 IH]; cbn; intros Hs H1 H2.
  - constructor; [done|]. destruct xs2 as [|z xs2]; [constructor|].
    assert (Hz : R i z) by (by apply H2). inversion Hs as [|? ? _ Hf]; subst.
    constructor; [done|]. eapply list.Forall_impl; [exact Hf|]. intros w Hw. by etrans.
  - inversion Hs as [|? ? Hs' Hf]; subst. constructor; [apply IH; set_solver|].
    rewrite Forall_app in Hf |- *. destruct Hf. split; [done|]. constructor; [|done].
    apply H1. set_solver.
Qed.

(** Both the data and the rest of the state that inserting a timer keeps. *)
Definition keeps_clock (s s' : tstate) : Prop := clock s' = clock s /\ reading s' = reading s.

Lemma keeps_clock_link s p x : keeps_clock s (link p x s).
Proof. by destruct p. Qed.

Lemma sorted_mk s s' A :
  same_data s s' -> StronglySorted (fun i j => mk s i <= mk s j) A ->
  StronglySorted (fun i j => mk s' i <= mk s' j) A.
Proof.
  intros Hd. induction 1 as [|x A Hs IH Hf]; constructor; [done|].
  eapply list.Forall_impl; [exact Hf|]. intros y. cbn. by rewrite !(same_data_mk s s').
Qed.

Lemma window_mk s s' o A :
  same_data s s' -> Forall (fun i => mk s o - 2 ^ 31 < mk s i <= mk s o) A ->
  Forall (fun i => mk s' o - 2 ^ 31 < mk s' i <= mk s' o) A.
Proof.
  intros Hd Hf. eapply list.Forall_impl; [exact Hf|]. intros y. cbn.
  by rewrite !(same_data_mk s s').
Qed.

(** An update of the links keeps the invariant if it keeps the shape. *)
Lemma tinv_links s s' A A' o B B' I I' F F' X X' :
  same_data s s' -> tinv s A o B I F X -> tshape s' A' o B' I' F' X' -> A' `sublist_of` A ->
  tinv s' A' o B' I' F' X'.
Proof.
  intros Hd [Hsh Hsl Hso Hw] Hsh' Hsub. split; [done|by apply (same_data_slots_ok s)|..].
  - apply (sorted_mk s); [done|]. clear -Hso Hsub. induction Hsub as [|x l1 l2 Hsub IH|x l1 l2 Hsub IH].
    + done.
    + inversion Hso as [|? ? Hs Hf]; subst. constructor; [by apply IH|].
      apply list.Forall_forall. intros y Hy. rewrite list.Forall_forall in Hf. apply Hf.
      by eapply elem_of_sublist.
    + inversion Hso; subst. by apply IH.
  - apply (window_mk s); [done|]. apply list.Forall_forall. intros y Hy.
    rewrite list.Forall_forall in Hw. apply Hw. by eapply elem_of_sublist.
Qed.

Lemma tinv_slot s A o B I F X x :
  tinv s A o B I F X -> x ∈ A ++ o :: B ++ I ++ F ++ X ->
  exists t, get_slot s x = Some t /\ slot_ok x t.
Proof.
  intros H Hx. destruct (tshape_slot _ _ _ _ _ _ _ x (iv_shape _ _ _ _ _ _ _ H) Hx) as [t Ht].
  exists t. split; [done|]. by apply (iv_slots _ _ _ _ _ _ _ H).
Qed.

Lemma shape_len_A s A o B I F X : tshape s A o B I F X -> (length A < walk_fuel)%nat.
Proof.
  intros H. pose proof (Permutation_length (sh_perm _ _ _ _ _ _ _ H)) as E.
  rewrite length_seq, length_app in E. unfold walk_fuel. cbn in E. lia.
Qed.

(** Comparing the low words of two deadlines close to each other *)
Lemma tbl_diff s i j ti tj :
  slots_ok s -> get_slot s i = Some ti -> get_slot s j = Some tj ->
  - 2 ^ 31 <= mk s i - mk s j < 2 ^ 31 -> s32 (tbl ti - tbl tj) = mk s i - mk s j.
Proof.
  intros Hok Hi Hj H. destruct (Hok i ti Hi) as (_ & _ & H1). destruct (Hok j tj Hj) as (_ & _ & H2).
  rewrite <- (mark_tbl ti H1), <- (mark_tbl tj H2). unfold mk in *. rewrite Hi, Hj in *.
  by apply s32_diff.
Qed.

Lemma mk_range s i t : slots_ok s -> get_slot s i = Some t -> 0 <= mk s i < 2 ^ 63.
Proof.
  intros Hok Ht. destruct (Hok i t Ht) as (_ & H1 & H2). unfold mk. rewrite Ht. cbn.
  unfold mark. lia.
Qed.

(** A timer due before the overflow timer is inserted in deadline order. *)
Lemma insert_near mt s A o B I F X i t :
  tinv s A o B I F (i :: X) -> get_slot s i = Some t ->
  mk s o - 2 ^ 31 < mk s i <= mk s o ->
  exists A1 A2 s', A = A1 ++ A2 /\ insert_timer mt i s = Some s' /\
    tinv s' (A1 ++ i :: A2) o B I F X /\ same_data s s' /\ keeps_clock s s' /\
    (A1 = [] -> timer_stamp s' = tbl t /\ (if mt then recalc_dec_int s' else recalc_timer s') = true).
Proof.
  intros Hinv Hi Hw. pose proof Hinv as [Hsh Hsl Hso Hwin].
  destruct (tinv_slot _ _ _ _ _ _ _ o Hinv ltac:(set_solver)) as (ot & Ho & Hook).
  pose proof (mk_range s i t Hsl Hi) as Hri. pose proof (mk_range s o ot Hsl Ho) as Hro.
  unfold insert_timer. rewrite Hi, (sh_ov _ _ _ _ _ _ _ Hsh). mred. rewrite Ho. mred.
  assert (Ei : mark t = mk s i) by (unfold mk; by rewrite Hi).
  assert (Eo : mark ot = mk s o) by (unfold mk; by rewrite Ho).
  rewrite Ei, Eo, s64_small by lia. rewrite (proj2 (Z.ltb_ge _ _)) by lia.
  destruct (find_place_spec walk_fuel s LHead A o ot (tbl t)) as (A1 & A2 & -> & Ef & H1 & H2).
  { apply Hsh. } { by eapply shape_len_A. }
  { intros y Hy. eapply tshape_slot; [exact Hsh|]. set_solver. } { done. }
  { rewrite (tbl_diff s o i ot t) by (done || lia). lia. }
  rewrite Ef. mred.
  change (set_loc (lastloc LHead A1) (Some i)
    (mod_slot i (set_next (get_loc s (lastloc LHead A1))) s)) with (link (lastloc LHead A1) i s).
  pose proof (shape_insert_A _ _ _ _ _ _ _ A1 A2 i Hsh eq_refl) as Hsh'.
  set (s1 := link (lastloc LHead A1) i s) in *.
  assert (Hd : same_data s s1) by apply same_data_link.
  assert (Hinv' : tinv s1 (A1 ++ i :: A2) o B I F X).
  { split; [done|by apply (same_data_slots_ok s)|..].
    - apply (sorted_mk s); [done|]. apply sorted_insert; [intros ? ? ? ? ?; lia|done|..].
      + intros y Hy. destruct (tinv_slot _ _ _ _ _ _ _ y Hinv ltac:(set_solver)) as (ty & Ey & _).
        specialize (H1 y ty Hy Ey). rewrite list.Forall_forall in Hwin.
        specialize (Hwin y ltac:(set_solver)). rewrite (tbl_diff s y i ty t) in H1 by (done || lia). lia.
      + intros z Hz. destruct A2 as [|z' A2]; [done|]. cbn in Hz. injection Hz as ->.
        destruct (tinv_slot _ _ _ _ _ _ _ z Hinv ltac:(set_solver)) as (tz & Ez & _).
        specialize (H2 tz). cbn in H2. specialize (H2 Ez). rewrite list.Forall_forall in Hwin.
        specialize (Hwin z ltac:(set_solver)). rewrite (tbl_diff s z i tz t) in H2 by (done || lia). lia.
    - apply (window_mk s); [done|]. rewrite Forall_app in Hwin |- *. destruct Hwin.
      split; [done|]. by constructor. }
  pose proof (sh_head _ _ _ _ _ _ _ Hsh') as Hhead.
  exists A1, A2.
  destruct (decide (head s1 = Some i)) as [Eh|Eh].
  - destruct A1 as [|a A1].
    2: { exfalso. destruct Hhead as [Hh _]. cbn [get_loc] in Hh. rewrite Eh in Hh.
         injection Hh as ->. pose proof (tshape_nodup _ _ _ _ _ _ _ Hsh') as Hn.
         apply list.NoDup_app in Hn as (Hn & _). cbn in Hn. apply list.NoDup_cons in Hn as [Hn _].
         set_solver. }
    eexists. split; [done|]. split; [done|].
    split; [|split; [|split]].
    + destruct mt; apply (tinv_links s1 _ (i :: A2) (i :: A2) o B B I I F F X X); try done;
        by apply (shape_same s1).
    + destruct mt; exact Hd.
    + destruct mt; done.
    + destruct mt; done.
  - exists s1. split; [done|]. split; [done|]. split; [done|]. split; [done|].
    split; [apply keeps_clock_link|].
    intros ->. exfalso. apply Eh. by destruct Hhead as [Hh _].
Qed.

(** Changing the data of a detached slot *)
Lemma mk_mod_ne s i f j : i <> j -> mk (mod_slot i f s) j = mk s j.
Proof. intros H. unfold mk. by rewrite get_slot_mod, decide_False. Qed.

Lemma tinv_mod_X s A o B I F X i f :
  (forall t, next (f t) = next t) -> (forall t, slot_ok i t -> slot_ok i (f t)) ->
  tinv s A o B I F (i :: X) -> tinv (mod_slot i f s) A o B I F (i :: X).
Proof.
  intros Hn Hf [Hsh Hsl Hso Hw].
  pose proof (tshape_separate _ _ _ _ _ _ _ Hsh) as (_ & Ho & Hd).
  assert (Hmk : forall j, j ∈ o :: A -> mk (mod_slot i f s) j = mk s j)
    by (intros j Hj; apply mk_mod_ne; set_solver).
  split; [by apply shape_mod|..].
  - intros j t. rewrite get_slot_mod. case_decide as E; [subst j|apply Hsl].
    destruct (get_slot s i) as [t0|] eqn:E0; [|done]. cbn. intros [= <-]. by apply Hf, Hsl.
  - clear -Hso Hmk. induction Hso as [|x A Hs IH Hf]; constructor; [apply IH; set_solver|].
    apply list.Forall_forall. intros y Hy. rewrite list.Forall_forall in Hf. specialize (Hf y Hy).
    rewrite !Hmk by set_solver. done.
  - apply list.Forall_forall. intros y Hy. rewrite list.Forall_forall in Hw. specialize (Hw y Hy).
    rewrite !Hmk by set_solver. done.
Qed.

(** A timer due after the overflow timer is put behind it and marked. *)
Lemma insert_far mt s A o B I F X i t :
  tinv s A o B I F (i :: X) -> get_slot s i = Some t -> mk s o < mk s i ->
  exists s', insert_timer mt i s = Some s' /\ tinv s' A o (i :: B) I F X /\
    keeps_clock s s' /\ (forall j, mk s' j = mk s j) /\
    core <$> get_slot s' i = Some (core (set_flags (flags t .| TF_OVERFLOW) t)) /\
    (forall j, j <> i -> core <$> get_slot s' j = core <$> get_slot s j).
Proof.
  intros Hinv Hi Hfar. pose proof Hinv as [Hsh Hsl Hso Hwin].
  destruct (tinv_slot _ _ _ _ _ _ _ o Hinv ltac:(set_solver)) as (ot & Ho & Hook).
  pose proof (mk_range s i t Hsl Hi) as Hri. pose proof (mk_range s o ot Hsl Ho) as Hro.
  unfold insert_timer. rewrite Hi, (sh_ov _ _ _ _ _ _ _ Hsh). mred. rewrite Ho. mred.
  assert (Ei : mark t = mk s i) by (unfold mk; by rewrite Hi).
  assert (Eo : mark ot = mk s o) by (unfold mk; by rewrite Ho).
  rewrite Ei, Eo, s64_small by lia. rewrite (proj2 (Z.ltb_lt _ _)) by lia.
  set (f := fun t => set_flags (flags t .| TF_OVERFLOW) t).
  assert (El : mod_slot o (set_next (Some i)) (mod_slot i (set_next (next ot)) s)
               = link (LNext o) i s).
  { unfold link. cbn [set_loc get_loc]. by rewrite Ho. }
  rewrite El. eexists. split; [done|].
  assert (Hd : same_data s (link (LNext o) i s)) by apply same_data_link.
  assert (Hf : tinv (mod_slot i f s) A o B I F (i :: X)) by (apply tinv_mod_X; done).
  assert (Hmk : forall j, mk (mod_slot i f (link (LNext o) i s)) j = mk s j).
  { intros j. rewrite <- (same_data_mk s _ j Hd). unfold mk. rewrite get_slot_mod.
    case_decide; [|done]. by destruct (get_slot _ j). }
  split; [|split; [done|split; [done|split]]].
  - split.
    + apply shape_mod; [done|]. by apply shape_insert_B.
    + intros j tj. rewrite get_slot_mod.
      pose proof (same_data_slots_ok _ _ Hd Hsl) as Hsl'. case_decide; [|apply Hsl'].
      destruct (get_slot (link (LNext o) i s) j) eqn:E; [|done]. cbn. intros [= <-].
      apply (Hsl' j _ E).
    + clear -Hso Hmk. induction Hso as [|x A Hs IH Hf]; constructor; [done|].
      eapply list.Forall_impl; [exact Hf|]. intros y. cbn. by rewrite !Hmk.
    + eapply list.Forall_impl; [exact Hwin|]. intros y. cbn. by rewrite !Hmk.
  - pose proof (Hd i) as Hdi. rewrite Hi in Hdi. rewrite get_slot_mod, decide_True by done.
    destruct (get_slot (link (LNext o) i s) i) as [t1|] eqn:E1; [|done]. injection Hdi as E2 E3 E4 E5 E6 E7 E8.
    cbn [fmap option_fmap option_map]. unfold core, f, set_next, set_flags.
    cbn [tbu tbl flags period id next usr handler]. by rewrite E2, E3, E4, E5, E6, E7, E8.
  - intros j Hj. rewrite get_slot_mod, decide_False by done. apply Hd.
Qed.

(** ** Removing a timer by its id *)

Lemma id_slot s x y tx ty :
  slots_ok s -> get_slot s x = Some tx -> get_slot s y = Some ty -> id tx = id ty -> x = y.
Proof.
  intros Hok Hx Hy E. destruct (Hok x tx Hx) as (H1 & _). destruct (Hok y ty Hy) as (H2 & _).
  rewrite E in H1. lia.
Qed.

Lemma get_loc_next s x t : get_slot s x = Some t -> get_loc s (LNext x) = next t.
Proof. intros H. cbn. by rewrite H. Qed.

Lemma seg_whole s A o B I F X :
  tshape s A o B I F X -> seg s LHead (A ++ o :: B) None /\ seg s LInactive (I ++ o :: B) None.
Proof.
  intros [_ _ _ Hh Ht Hi _]. rewrite !seg_app. cbn [first seg].
  pose proof (seg_get _ _ _ _ Hh). pose proof (seg_get _ _ _ _ Hi). tauto.
Qed.

Lemma not_id s A o B I F X x tx (xs : list nat) :
  tinv s A o B I F X -> get_slot s x = Some tx -> x ∉ xs ->
  (forall y, y ∈ xs -> y ∈ A ++ o :: B ++ I ++ F ++ X) ->
  forall y, y ∈ xs -> exists ty, get_slot s y = Some ty /\ id ty <> id tx.
Proof.
  intros Hinv Hx Hni Hall y Hy. destruct (tinv_slot _ _ _ _ _ _ _ y Hinv (Hall y Hy)) as (ty & Ey & _).
  exists ty. split; [done|]. intros E.
  pose proof (id_slot s y x ty tx (iv_slots _ _ _ _ _ _ _ Hinv) Ey Hx E). subst. done.
Qed.

Lemma walk_len s A o B I F X xs :
  tshape s A o B I F X -> xs `sublist_of` (A ++ o :: B ++ I ++ F ++ X) -> (length xs < walk_fuel)%nat.
Proof.
  intros H Hs. pose proof (Permutation_length (sh_perm _ _ _ _ _ _ _ H)) as E.
  apply sublist_length in Hs. rewrite length_seq in E. unfold walk_fuel. lia.
Qed.

(** A list of slots without one of them. *)
Definition without (x : nat) (l : list nat) : list nat := filter (fun y : nat => y <> x) l.

Lemma without_notin x l : x ∉ l -> without x l = l.
Proof.
  unfold without. induction l as [|y l IH]; intros Hx; [done|].
  rewrite filter_cons, decide_True by set_solver. f_equal. apply IH. set_solver.
Qed.

Lemma without_split x l1 l2 : NoDup (l1 ++ x :: l2) -> without x (l1 ++ x :: l2) = l1 ++ l2.
Proof.
  intros Hn. apply list.NoDup_app in Hn as (_ & H1 & H2). apply list.NoDup_cons in H2 as [H2 _].
  unfold without. rewrite list.filter_app, filter_cons, decide_False by tauto.
  fold (without x l1) (without x l2). rewrite !without_notin; set_solver.
Qed.

(** Dequeueing a running timer from [head], before or behind the overflow
    timer. *)
Lemma dequeue_running s A o B I F X x t :
  tinv s A o B I F X -> x ∈ A ++ B -> get_slot s x = Some t ->
  exists s', dequeue_timer LHead (id t) s = Some (Some x, s') /\
    tinv s' (without x A) o (without x B) I F (x :: X) /\ same_data s s' /\ keeps_clock s s'.
Proof.
  intros Hinv Hx Ht. pose proof (iv_shape _ _ _ _ _ _ _ Hinv) as Hsh.
  pose proof (tshape_separate _ _ _ _ _ _ _ Hsh) as ((HA & HB & _) & Ho & Hdj).
  destruct (seg_whole _ _ _ _ _ _ _ Hsh) as [Hw _].
  apply elem_of_app in Hx as [Hx|Hx]; pose proof Hx as (l1 & l2 & E)%list_elem_of_split.
  - subst A. exists (set_loc (lastloc LHead l1) (next t) s). split; [|split; [|split]].
    + apply (dequeue_hit _ _ _ l1 x (l2 ++ o :: B) None _ t).
      * by rewrite <- app_assoc in Hw.
      * pose proof (shape_len_A _ _ _ _ _ _ _ Hsh) as Hl. rewrite length_app in Hl. lia.
      * apply list.NoDup_app in HA as (_ & HA & _).
        eapply not_id; [exact Hinv|done|set_solver|set_solver].
      * done.
      * done.
    + rewrite <- (get_loc_next s x t Ht), (without_notin x B), without_split by (done || set_solver).
      eapply tinv_links; [apply same_data_set|exact Hinv|by eapply shape_remove_A|].
      apply sublist_app; [done|]. by apply sublist_cons.
    + apply same_data_set.
    + by destruct (lastloc LHead l1).
  - subst B. exists (set_loc (lastloc (LNext o) l1) (next t) s). split; [|split; [|split]].
    + replace (lastloc (LNext o) l1) with (lastloc LHead (A ++ o :: l1))
        by (rewrite lastloc_app; done).
      apply (dequeue_hit _ _ _ (A ++ o :: l1) x l2 None _ t).
      * by rewrite <- app_assoc.
      * eapply walk_len; [exact Hsh|]. apply sublist_app; [done|]. apply sublist_skip.
        rewrite <- app_assoc. by apply sublist_inserts_r.
      * apply list.NoDup_app in HB as (_ & HB & _).
        eapply not_id; [exact Hinv|done|set_solver|set_solver].
      * done.
      * done.
    + rewrite <- (get_loc_next s x t Ht), (without_notin x A), without_split by (done || set_solver).
      eapply tinv_links; [apply same_data_set|exact Hinv|by eapply shape_remove_B|done].
    + apply same_data_set.
    + by destruct (lastloc (LNext o) l1).
Qed.

(** ** Starting a one-shot timer *)

Lemma new_timer_inv s A o B I F' i hnd user fl :
  tinv s A o B I (i :: F') [] ->
  exists t s', get_slot s i = Some t /\ new_timer hnd user fl s = Some (Some i, s') /\
    tinv s' A o B I F' [i] /\ keeps_clock s s' /\ (forall j, mk s' j = mk s j) /\
    get_slot s' i = Some (MTimer (tbu t) (tbl t) fl 0 (s32 (id t + 0x100)) None user hnd) /\
    (forall j, j <> i -> get_slot s' j = get_slot s j).
Proof.
  intros Hinv. pose proof (iv_shape _ _ _ _ _ _ _ Hinv) as Hsh.
  destruct (tinv_slot _ _ _ _ _ _ _ i Hinv ltac:(set_solver)) as (t & Ht & Hok).
  exists t. unfold new_timer. pose proof (sh_free _ _ _ _ _ _ _ Hsh) as [Hf _]. cbn [get_loc] in Hf.
  rewrite Hf, Ht. mred. eexists. split; [done|]. split; [done|].
  set (f := fun t0 : mtimer => MTimer (tbu t0) (tbl t0) fl 0 (s32 (id t0 + 0x100)) None user hnd).
  set (s1 := set_loc LFree (get_loc s (LNext i)) s).
  assert (Es1 : set_free (next t) s = s1) by (unfold s1; cbn; by rewrite Ht).
  rewrite Es1.
  assert (H1 : tinv s1 A o B I F' [i]).
  { eapply tinv_links; [apply same_data_set|exact Hinv|by eapply shape_pop_F|done]. }
  assert (Hmk : forall j, mk (mod_slot i f s1) j = mk s j).
  { intros j. unfold mk. rewrite get_slot_mod.
    replace (get_slot s1 j) with (get_slot s j) by done.
    case_decide; [|done]. by destruct (get_slot s j). }
  assert (Hsep := tshape_separate _ _ _ _ _ _ _ (iv_shape _ _ _ _ _ _ _ H1)).
  destruct Hsep as (_ & Ho & Hd).
  split; [|split; [done|split; [exact Hmk|split]]].
  - destruct H1 as [Hsh1 Hsl1 Hso1 Hw1]. split.
    + destruct Hsh1 as [Hl Hp Hov Hh Htl Hi2 Hfr].
      split; [by rewrite <- Hl; apply length_alter|done|done|..];
        (eapply seg_frame; [|eassumption]);
        (intros l0 Hl0; destruct l0 as [| | |j]; try done; cbn [get_loc];
         rewrite get_slot_mod, decide_False; [done|];
         destruct Hl0 as [E|(x & Hx & E)]; [discriminate E || injection E as ->|injection E as ->];
         set_solver).
    + intros j tj. rewrite get_slot_mod. case_decide as E; [subst j|apply Hsl1].
      destruct (get_slot s1 i) as [t1|] eqn:E1; [|done]. cbn. intros [= <-].
      destruct (Hsl1 i t1 E1) as (Hid & Hr). split; [|done]. cbn [id f].
      rewrite <- Hid. unfold s32. case_match; Z.to_euclidean_division_equations; lia.
    + clear -Hso1 Hmk. induction Hso1 as [|x A Hs IH Hf]; constructor; [done|].
      eapply list.Forall_impl; [exact Hf|]. intros y. cbn. rewrite !Hmk. done.
    + eapply list.Forall_impl; [exact Hw1|]. intros y. cbn. rewrite !Hmk. done.
  - rewrite get_slot_mod, decide_True by done. change (get_slot s1 i) with (get_slot s i).
    by rewrite Ht.
  - intros j Hj. by rewrite get_slot_mod, decide_False.
Qed.

(** An id is never 0, names its slot in its low byte, and changes each time
    the slot is used. *)
Lemma next_id i t : (i < 16)%nat -> slot_ok i t ->
  let rid := s32 (id t + 0x100) in
  rid mod 256 = Z.of_nat i + 1 /\ rid <> 0 /\ rid <> id t.
Proof.
  intros Hi (Hid & _). cbn zeta. unfold s32.
  destruct (Z.ltb_spec ((id t + 0x100) mod 2 ^ 32) (2 ^ 31));
    Z.to_euclidean_division_equations; lia.
Qed.

Lemma set_mark_fields m t : 0 <= m < 2 ^ 63 ->
  mark (set_mark m t) = m /\ 0 <= tbu (set_mark m t) < 2 ^ 31 /\ 0 <= tbl (set_mark m t) < 2 ^ 32.
Proof.
  intros Hm. unfold mark. cbn [set_mark tbu tbl]. rewrite Z.shiftr_div_pow2 by lia.
  rewrite (u32_small (m / 2 ^ 32)) by (Z.to_euclidean_division_equations; lia).
  unfold u32. pose proof (Z.div_mod m (2 ^ 32) ltac:(lia)).
  Z.to_euclidean_division_equations. lia.
Qed.

(** Setting the deadline of a detached slot *)
Lemma set_mark_inv s A o B I F X i t m :
  tinv s A o B I F (i :: X) -> get_slot s i = Some t -> 0 <= m < 2 ^ 63 ->
  tinv (mod_slot i (set_mark m) s) A o B I F (i :: X) /\
  mk (mod_slot i (set_mark m) s) i = m /\ mk (mod_slot i (set_mark m) s) o = mk s o.
Proof.
  intros Hinv Ht Hm.
  assert (Hne : i <> o).
  { pose proof (tshape_separate _ _ _ _ _ _ _ (iv_shape _ _ _ _ _ _ _ Hinv)) as (_ & Ho & _).
    set_solver. }
  split; [|split].
  - apply tinv_mod_X; [done| |done]. intros t0 (H1 & _). split; [done|].
    by apply set_mark_fields.
  - unfold mk. rewrite get_slot_mod, decide_True, Ht by done. by apply set_mark_fields.
  - by apply mk_mod_ne.
Qed.

Lemma timer_fresh s A o B I F X i t :
  tinv s A o B I F X -> i ∈ A ++ o :: B ++ I ++ F ++ X -> get_slot s i = Some t ->
  s32 (id t + 0x100) <> 0 /\ s32 (id t + 0x100) <> id t /\
  forall j tj, j <> i -> get_slot s j = Some tj -> id tj <> s32 (id t + 0x100).
Proof.
  intros Hinv Hi Ht. pose proof (iv_slots _ _ _ _ _ _ _ Hinv) as Hok.
  assert (Hlt : (i < 16)%nat).
  { pose proof (sh_perm _ _ _ _ _ _ _ (iv_shape _ _ _ _ _ _ _ Hinv)) as Hp.
    rewrite Hp in Hi. apply elem_of_seq in Hi. unfold MAX_NUM_TIMERS in Hi. lia. }
  destruct (next_id i t Hlt (Hok i t Ht)) as (E & H0 & H1). split; [done|]. split; [done|].
  intros j tj Hj Htj Ej. destruct (Hok j tj Htj) as (Ej' & _). rewrite Ej in Ej'. lia.
Qed.

(** The fields of a timer whose data were just set *)
Lemma core_timer s i fl m tu tl n user hnd :
  core <$> get_slot s i = Some (core (set_flags fl (set_mark m (MTimer tu tl 0 0 n None user hnd)))) ->
  0 <= m < 2 ^ 63 ->
  exists t, get_slot s i = Some t /\ id t = n /\ mark t = m /\ handler t = hnd /\
    usr t = user /\ period t = 0 /\ flags t = fl.
Proof.
  intros E Hm. destruct (get_slot s i) as [t|]; [|done]. exists t. cbn in E.
  injection E as E1 E2 E3 E4 E5 E6 E7. split; [done|]. split; [done|]. split; [|done].
  unfold mark. rewrite E1, E2.
  exact (proj1 (set_mark_fields m (MTimer 0 0 0 0 0 None 0 0) Hm)).
Qed.

(** C38: [abs_timer] takes a free slot (0 is returned and nothing changes if
    there is none) and returns a fresh id: 0x100 more, as an [int], than the
    last id of the slot, not 0, and the id of no other slot.  The timer has
    that id, the deadline, handler and user data given and no period; all
    other slots keep their data.  A timer due no later than the overflow timer
    has no flags and is linked before it at its place in deadline order; if it
    is the first of all, the time stamp of the decrementer becomes its low
    word and a recalculation is requested.  A timer due later is linked
    directly behind the overflow timer and has [TF_OVERFLOW].  The list
    invariant is kept: all slots stay on exactly one of the lists, the
    running timers stay sorted by their 64-bit deadlines although only low
    words are compared.  The deadline must lie less than [2^31] ticks before
    that of the overflow timer. *)
Theorem abs_timer_correct mt u l hnd user s A o B I F :
  tinv s A o B I F [] -> 0 <= u < 2 ^ 31 -> 0 <= l < 2 ^ 32 ->
  mk s o - 2 ^ 31 < u * 2 ^ 32 + l ->
  match F with
  | [] => abs_timer mt u l hnd user s = Some (0, s)
  | i :: F' =>
      exists t0 s' t, get_slot s i = Some t0 /\ let rid := s32 (id t0 + 0x100) in
        abs_timer mt u l hnd user s = Some (rid, s') /\ keeps_clock s s' /\
        rid <> 0 /\ rid <> id t0 /\
        (forall j tj, j <> i -> get_slot s j = Some tj -> id tj <> rid) /\
        (forall j, j <> i -> core <$> get_slot s' j = core <$> get_slot s j) /\
        get_slot s' i = Some t /\ id t = rid /\ mark t = u * 2 ^ 32 + l /\
        handler t = hnd /\ usr t = user /\ period t = 0 /\
        if decide (u * 2 ^ 32 + l <= mk s o)
        then flags t = 0 /\ exists A1 A2, A = A1 ++ A2 /\ tinv s' (A1 ++ i :: A2) o B I F' [] /\
          (A1 = [] -> timer_stamp s' = l /\
                      (if mt then recalc_dec_int s' else recalc_timer s') = true)
        else flags t = TF_OVERFLOW /\ tinv s' A o (i :: B) I F' []
  end.
Proof.
  intros Hinv Hu Hl Hnear. destruct F as [|i F'].
  { unfold abs_timer, new_timer. pose proof (sh_free _ _ _ _ _ _ _ (iv_shape _ _ _ _ _ _ _ Hinv)) as Hf.
    cbn [seg get_loc] in Hf. by rewrite Hf. }
  destruct (new_timer_inv s A o B I F' i hnd user 0 Hinv)
    as (t & s1 & Ht & En & H1 & Hc & Hmk & Hs1 & Ho1).
  set (m := u * 2 ^ 32 + l) in *.
  destruct (set_mark_inv s1 A o B I F' [] i _ m H1 Hs1 ltac:(unfold m; lia)) as (H2 & Em & Eo).
  set (s2 := mod_slot i (set_mark m) s1) in *.
  set (t2 := set_mark m (MTimer (tbu t) (tbl t) 0 0 (s32 (id t + 0x100)) None user hnd)).
  assert (Hs2 : get_slot s2 i = Some t2) by (unfold s2; by rewrite get_slot_mod, decide_True, Hs1).
  assert (Ho2 : forall j, j <> i -> get_slot s2 j = get_slot s j).
  { intros j Hj. unfold s2. rewrite get_slot_mod, decide_False by done. by apply Ho1. }
  destruct (timer_fresh s A o B I (i :: F') [] i t Hinv ltac:(set_solver) Ht) as (Hn0 & Hn1 & Hn2).
  unfold abs_timer. rewrite En. mred. rewrite Hs1. mred. fold m. fold s2. rewrite Hmk in Eo.
  case_decide as Hd.
  - destruct (insert_near mt s2 A o B I F' [] i _ H2 Hs2 ltac:(lia))
      as (A1 & A2 & s3 & EA & E3 & H3 & Hd3 & Hc3 & Hr3).
    destruct (core_timer s3 i 0 m (tbu t) (tbl t) (s32 (id t + 0x100)) user hnd)
      as (t3 & ? & ? & ? & ? & ? & ? & ?); [by rewrite (Hd3 i), Hs2|unfold m; lia|].
    exists t, s3, t3. rewrite E3. mred. split; [done|]. split; [done|].
    split; [destruct Hc, Hc3; split; etrans; eassumption|]. do 3 (split; [done|]).
    split; [intros j Hj; by rewrite (Hd3 j), Ho2|]. do 7 (split; [done|]).
    exists A1, A2. split; [done|]. split; [done|]. intros E. destruct (Hr3 E) as [-> ?].
    split; [|done]. cbn. unfold m, u32. rewrite Z.add_comm, Z_mod_plus_full. by apply Z.mod_small.
  - destruct (insert_far mt s2 A o B I F' [] i _ H2 Hs2 ltac:(lia))
      as (s3 & E3 & H3 & Hc3 & Hmk3 & Ht3 & Ho3).
    destruct (core_timer s3 i TF_OVERFLOW m (tbu t) (tbl t) (s32 (id t + 0x100)) user hnd)
      as (t3 & ? & ? & ? & ? & ? & ? & ?); [by rewrite Ht3|unfold m; lia|].
    exists t, s3, t3. rewrite E3. mred. split; [done|]. split; [done|].
    split; [destruct Hc, Hc3; split; etrans; eassumption|]. do 3 (split; [done|]).
    split; [intros j Hj; by rewrite (Ho3 j Hj), Ho2|]. by do 7 (split; [done|]).
Qed.

(** ** Stopping a timer *)

Lemma push_same_data l x s : same_data s (push l x s).
Proof. rewrite push_link. apply same_data_link. Qed.

(** stopping a running timer, before or behind the overflow timer,
    unlinks exactly that timer: [cancel_timer] and [free_ptimer] put its slot
    on the free list, [pause_ptimer] on the inactive list; the other timers
    keep their deadlines, order and lists. *)
Theorem stop_timer_correct s A o B I F x t :
  tinv s A o B I F [] -> x ∈ A ++ B -> get_slot s x = Some t ->
  (exists s', cancel_timer (id t) s = Some s' /\ free_ptimer (id t) s = Some s' /\
     tinv s' (without x A) o (without x B) I (x :: F) [] /\ same_data s s') /\
  (exists s', pause_ptimer (id t) s = Some s' /\
     tinv s' (without x A) o (without x B) (x :: I) F [] /\ same_data s s').
Proof.
  intros Hinv Hx Ht.
  destruct (dequeue_running s A o B I F [] x t Hinv Hx Ht) as (s1 & E & H1 & Hd & _).
  unfold cancel_timer, free_ptimer, dequeue_either, pause_ptimer. rewrite E. mred.
  split; eexists.
  - split; [done|]. split; [done|]. split; [|eapply same_data_trans; [done|apply push_same_data]].
    eapply tinv_links; [apply push_same_data|exact H1| |done].
    apply shape_push_F, (iv_shape _ _ _ _ _ _ _ H1).
  - split; [done|]. split; [|eapply same_data_trans; [done|apply push_same_data]].
    eapply tinv_links; [apply push_same_data|exact H1| |done].
    apply shape_push_I, (iv_shape _ _ _ _ _ _ _ H1).
Qed.

(** ** Periodic timers *)

Lemma recalc_loop_spec fuel nw m per lost :
  0 < per -> (Z.to_nat ((nw - m) / per) + 1 < fuel)%nat ->
  recalc_loop fuel nw m per lost =
    if nw <? m then Some (lost, m)
    else Some (s32 (lost + (nw - m) / per + 1), m + per * ((nw - m) / per + 1)).
Proof.
  intros Hp. revert m lost. induction fuel as [|f IH]; intros m lost Hf; [lia|].
  cbn [recalc_loop]. destruct (Z.leb_spec 0 (nw - m)) as [Hge|Hlt].
  - rewrite (proj2 (Z.ltb_ge nw m)) by lia.
    assert (E : (nw - (m + per)) / per = (nw - m) / per - 1).
    { replace (nw - (m + per)) with (nw - m + (-1) * per) by lia.
      rewrite Z.div_add by lia. lia. }
    assert (Hq : 0 <= (nw - m) / per) by (apply Z.div_pos; lia).
    destruct (Z.ltb_spec nw (m + per)) as [Hl|Hl].
    + assert (E0 : (nw - m) / per = 0) by (apply Z.div_small; lia).
      destruct f as [|f]; [lia|]. cbn [recalc_loop].
      rewrite (proj2 (Z.leb_gt 0 (nw - (m + per)))) by lia. rewrite E0.
      do 2 f_equal; [f_equal|]; lia.
    + rewrite IH; [|rewrite E].
      * rewrite (proj2 (Z.ltb_ge nw (m + per))), E by lia.
        rewrite <- Z.add_assoc, s32_add. do 2 f_equal; [f_equal|]; lia.
      * assert (1 <= (nw - m) / per); [|lia].
        apply Z.div_le_lower_bound; lia.
  - by rewrite (proj2 (Z.ltb_lt nw m)) by lia.
Qed.

(** C39: [recalc_ptimer] on a timer with a non-zero period terminates and
    moves its deadline to the first multiple of the period after the present
    time: the new deadline is later than now by at most one period.  A
    deadline still ahead is left as it is and 0 is returned.  Otherwise, with
    [q] the number of whole periods between the deadline and the present
    time, the deadline moves [q + 1] periods and the value returned is the
    [int] the counter [lost] holds after [q] of them: [q] itself as long as
    [q] is below [2^31], and past that only the 32-bit rest of [q], or 0 where
    that rest is negative (the overflow of [lost] taken as wrap-around). *)
Theorem recalc_ptimer_next s i t :
  slots_ok s -> get_slot s i = Some t -> 0 < period t < 2 ^ 32 -> now s < 2 ^ 62 ->
  exists s' lost, recalc_ptimer i s = Some (lost, s') /\ reading s' = S (reading s) /\
    (forall j, j <> i -> get_slot s' j = get_slot s j) /\
    if now s <? mk s i then lost = 0 /\ mk s' i = mk s i
    else exists q, q = (now s - mk s i) / period t /\
         mk s' i = mk s i + period t * (q + 1) /\ now s < mk s' i <= now s + period t /\
         (q < 2 ^ 31 -> lost = q) /\ lost = Z.max 0 (s32 q).
Proof.
  intros Hok Ht Hp Hn.
  assert (Hnow : 0 <= now s) by (apply Z.mod_pos_bound; lia).
  pose proof (mk_range s i t Hok Ht) as Hr.
  assert (Em : mark t = mk s i) by (unfold mk; by rewrite Ht).
  unfold recalc_ptimer. rewrite Ht. mred. rewrite Em, !s64_small by lia.
  rewrite recalc_loop_spec by (unfold recalc_fuel; lia).
  destruct (Z.ltb_spec (now s) (mk s i)) as [Hlt|Hge]; mred; eexists _, _;
    (split; [done|]); (split; [done|]); (split; [intros j Hj; by rewrite get_slot_mod, decide_False|]).
  - split; [done|]. unfold mk at 1. rewrite get_slot_mod, decide_True by done.
    change (get_slot (tick s) i) with (get_slot s i). rewrite Ht. cbn [fmap option_fmap option_map from_option].
    by apply set_mark_fields.
  - set (q := (now s - mk s i) / period t).
    assert (Hq : 0 <= q) by (apply Z.div_pos; lia).
    pose proof (Z.div_mod (now s - mk s i) (period t) ltac:(lia)) as Hdm. fold q in Hdm.
    pose proof (Z.mod_pos_bound (now s - mk s i) (period t) ltac:(lia)) as Hmb.
    replace (-1 + q + 1) with q by lia. exists q.
    assert (E : mk (mod_slot i (set_mark (mk s i + period t * (q + 1))) (tick s)) i
                = mk s i + period t * (q + 1)).
    { unfold mk at 1. rewrite get_slot_mod, decide_True by done.
      change (get_slot (tick s) i) with (get_slot s i). rewrite Ht.
      cbn [fmap option_fmap option_map from_option]. apply set_mark_fields. lia. }
    rewrite E. split; [done|]. split; [done|]. split; [lia|].
    split; [intros Hq31; rewrite s32_small by lia; by rewrite (proj2 (Z.ltb_ge q 0)) by lia|].
    destruct (Z.ltb_spec (s32 q) 0); lia.
Qed.

(** ** Running the timers *)

(** [rvec_timer] runs timers in deadline order and never early.  With
    [h] the first running timer: if its deadline is ahead, nothing is run;
    if it is due and a one-shot timer, it is taken off the list, its slot
    freed and its handler called with its id, its user data and the latency
    [now - deadline], and no running timer has an earlier deadline. *)
Theorem rvec_step_oneshot mt uh s h A o B I F t :
  tinv s (h :: A) o B I F [] -> get_slot s h = Some t ->
  flags t = 0 -> handler t <> 0 -> - 2 ^ 31 <= now s - mk s h < 2 ^ 31 ->
  if now s <? mk s h then rvec_step mt uh s = Some (false, tick s)
  else exists s1,
    rvec_step mt uh s =
      (s2 ← uh (handler t) (id t) (usr t) (now s - mk s h) s1; Some (true, s2)) /\
    tinv s1 A o B I (h :: F) [] /\ (forall j, mk s1 j = mk s j) /\
    Forall (fun j => mk s h <= mk s j) (o :: A).
Proof.
  intros Hinv Ht Hfl Hh Hn. pose proof Hinv as [Hsh Hsl Hso Hw].
  pose proof (sh_head _ _ _ _ _ _ _ Hsh) as [Hhd _]. cbn [get_loc] in Hhd.
  unfold rvec_step. rewrite Hhd, Ht. mred.
  destruct (Hsl h t Ht) as (_ & Hb1 & Hb2).
  assert (Em : mk s h = mark t) by (unfold mk; by rewrite Ht).
  assert (Ei : s32 (u32 (now s) - tbl t) = now s - mk s h).
  { rewrite <- (mark_tbl t Hb2), <- Em. unfold u32. by apply s32_diff. }
  rewrite Ei, Hfl. change (tst 0 TF_OVERFLOW) with false. rewrite orb_false_r.
  destruct (Z.ltb_spec (now s) (mk s h)) as [Hlt|Hge].
  - by rewrite (proj2 (Z.ltb_lt _ _)) by lia.
  - rewrite (proj2 (Z.ltb_ge _ _)) by lia.
    change (tst 0 TF_PERIODIC) with false. mred. unfold call_handler.
    rewrite (proj2 (Z.eqb_neq _ _) Hh). eexists. split; [done|].
    set (s1 := set_loc (lastloc LHead []) (get_loc s (LNext h)) s).
    assert (H1 : tinv s1 A o B I F [h]).
    { eapply tinv_links; [apply same_data_set|exact Hinv|by apply (shape_remove_A _ _ _ _ _ _ _ [] h A Hsh)|].
      by apply sublist_cons. }
    assert (E1 : set_head (next t) (tick s) = tick s1).
    { unfold s1. cbn. by rewrite Ht. }
    rewrite E1. split; [|split].
    + eapply (tinv_links s1); [|exact H1| |done].
      * eapply (same_data_trans _ (tick s1)); [done|]. apply push_same_data.
      * apply shape_push_F. apply (shape_same s1); [done..|]. apply (iv_shape _ _ _ _ _ _ _ H1).
    + intros j. rewrite (same_data_mk (tick s1)) by apply push_same_data.
      change (mk (tick s1) j) with (mk s1 j). apply same_data_mk, same_data_set.
    + inversion Hso as [|? ? _ Hf]; subst. constructor; [|done].
      rewrite list.Forall_cons in Hw. lia.
Qed.

(** a timer marked [TF_OVERFLOW] at the head of the list stops the
    machinery: [rvec_timer] runs nothing, however overdue the timers are and
    however often it is called, so neither the timers queued behind it nor
    the overflow timer, which would clear the mark, run again. *)
Theorem flagged_head_blocks mt uh fuel s h t :
  head s = Some h -> get_slot s h = Some t -> tst (flags t) TF_OVERFLOW = true ->
  exists s', rvec_timer mt uh (S fuel) s = Some s' /\
    slots s' = slots s /\ head s' = Some h /\ inactive s' = inactive s /\ free s' = free s.
Proof.
  intros Hh Ht Hf. unfold rvec_timer. cbn [rvec_loop]. unfold rvec_step. rewrite Hh, Ht. mred.
  rewrite Hf, orb_true_r. mred. change (head (tick s)) with (head s). rewrite Hh. mred.
  change (get_slot (tick s) h) with (get_slot s h). rewrite Ht. mred. eexists. split; [done|].
  by repeat split.
Qed.

(** ** Initialisation *)

(** The overflow timer inserted into the empty list *)
Lemma insert_overflow mt s i t :
  get_slot s i = Some t -> overflow s = Some i -> head s = None ->
  insert_timer mt i s =
    let s := set_head (Some i) (mod_slot i (set_next None) s) in
    Some (if mt then set_regs (tbl t) (dec_stamp s) true (recalc_timer s) s
          else set_regs (tbl t) (dec_stamp s) (recalc_dec_int s) true s).
Proof.
  intros Ht Ho Hh. unfold insert_timer. rewrite Ht, Ho. mred. rewrite Ht. mred.
  rewrite Z.sub_diag. change (0 <? s64 0) with false. cbn iota.
  unfold walk_fuel. cbn [find_place get_loc]. rewrite Hh. mred. cbn [set_loc get_loc].
  rewrite Hh. by rewrite decide_True.
Qed.

Definition init_state (freq : Z) (clk : nat -> Z) : tstate :=
  TS (MTimer 0 0 5 0 257 None 0 0 :: drop 1 init_slots) None (Some 0%nat) (Some 1%nat)
    (Some 0%nat) freq freq 1000000 (u32 (u32 (u64 (clk 0%nat)) + TIMER_MAX)) 0 false false clk 1.

Lemma timer_init_eq mt freq clk :
  timer_init mt freq clk = set_ptimer_ticks mt 0 TIMER_MAX (init_state freq clk).
Proof. reflexivity. Qed.

Lemma init_slots_ok i t : (MTimer 0 0 5 0 257 None 0 0 :: drop 1 init_slots) !! i = Some t -> slot_ok i t.
Proof.
  do 16 (destruct i as [|i]; [cbn; intros [= <-]; vm_compute; repeat split; congruence|]).
  cbn. done.
Qed.

(** [timer_init] sets up the lists with the overflow timer as the only
    running one, due [TIMER_MAX] ticks from now, and fifteen free slots.  The
    overflow timer is linked into the inactive list as well (it is never
    dequeued from it), so that everything queued behind it is reachable from
    both lists. *)
Theorem timer_init_ok mt freq clk :
  0 <= clk 1%nat < 2 ^ 62 ->
  exists s, timer_init mt freq clk = Some s /\
    tinv s [] 0 [] [] (seq 1 15) [] /\ mk s 0 = clk 1%nat + TIMER_MAX /\
    head s = Some 0%nat /\ inactive s = Some 0%nat.
Proof.
  intros Hc. set (m := clk 1%nat + TIMER_MAX).
  assert (Hm : 0 <= m < 2 ^ 63) by (unfold m, TIMER_MAX; lia).
  rewrite timer_init_eq. unfold set_ptimer_ticks.
  change (now (init_state freq clk)) with (u64 (clk 1%nat)).
  assert (E64 : u64 (u64 (clk 1%nat) + TIMER_MAX) = m).
  { unfold u64, m, TIMER_MAX in *. rewrite !Z.mod_small; rewrite ?Z.mod_small; lia. }
  rewrite E64. set (f := fun t => set_period (u32 TIMER_MAX) (set_mark m t)).
  rewrite (insert_overflow mt _ 0 (f (MTimer 0 0 5 0 257 None 0 0))); [|reflexivity..].
  eexists. split; [reflexivity|].
  set (s1 := set_head _ _).
  assert (Hs1 : forall s2, slots s2 = slots s1 -> overflow s2 = overflow s1 ->
    (forall l, get_loc s2 l = get_loc s1 l) -> tinv s2 [] 0 [] [] (seq 1 15) [] /\ mk s2 0 = m /\
    head s2 = Some 0%nat /\ inactive s2 = Some 0%nat).
  { intros s2 Es Eo El. split; [|split].
    - split.
      + apply (shape_same s1); [by rewrite Es|done|done|]. split; try reflexivity.
        vm_compute. repeat split.
      + intros i t. unfold get_slot. rewrite Es. destruct i as [|i].
        * cbn. intros [= <-]. split; [reflexivity|]. apply set_mark_fields; done.
        * intros Hi. apply init_slots_ok. exact Hi.
      + constructor.
      + constructor.
    - unfold mk, get_slot. rewrite Es. cbn. by apply set_mark_fields.
    - split; [exact (El LHead)|exact (El LInactive)]. }
  destruct mt; apply Hs1; done.
Qed.

Lemma timer_init_ok_witness :
  exists s, timer_init true 25000000 (fun n => 1000 * Z.of_nat n) = Some s /\
    tinv s [] 0 [] [] (seq 1 15) [] /\ mk s 0 = 1000 + TIMER_MAX /\
    head s = Some 0%nat /\ inactive s = Some 0%nat.
Proof. apply (timer_init_ok true 25000000 (fun n => 1000 * Z.of_nat n)). lia. Defined.

(** ** Concrete runs *)

(** Prove the invariant of a concrete state by evaluation. *)
Ltac tinv_eval :=
  split;
  [ split; [vm_compute; reflexivity | cbn; solve_Permutation | vm_compute; reflexivity
           | vm_compute; repeat split ..]
  | let i := fresh "i" in let t := fresh "t" in
    let H := fresh "H" in
    intros i t H; do 16 (destruct i as [|i];
      [vm_compute in H; injection H as <-; vm_compute; repeat split; congruence|]);
    vm_compute in H; discriminate H
  | repeat constructor; vm_compute; congruence
  | repeat constructor; vm_compute; congruence ].

Definition start : tstate :=
  Eval vm_compute in default (init_state 0 (fun _ => 0)) (timer_init true 25000000 (fun _ => 1000)).

(** One timer running, one behind the overflow timer *)
Definition run1 : tstate :=
  Eval vm_compute in
  default start (r ← abs_timer true 0 500000 7 9 start;
                 r' ← abs_timer true 1 0 8 9 r.2; Some r'.2).

Lemma start_inv : tinv start [] 0 [] [] (seq 1 15) [].
Proof. tinv_eval. Qed.
Lemma run1_inv : tinv run1 [1%nat] 0 [2%nat] [] (seq 3 13) [].
Proof. tinv_eval. Qed.

(** The first timer is due before the overflow timer, a second one behind it *)
Lemma abs_timer_correct_witness :
  (exists s' t, abs_timer true 0 500000 7 9 start = Some (258, s') /\ keeps_clock start s' /\
    get_slot s' 1 = Some t /\ mark t = 500000 /\ id t = 258 /\ handler t = 7 /\ usr t = 9 /\
    flags t = 0 /\ exists A1 A2, [] = A1 ++ A2 /\ tinv s' (A1 ++ 1%nat :: A2) 0 [] [] (seq 2 14) [] /\
      (A1 = [] -> timer_stamp s' = 500000 /\ recalc_dec_int s' = true)) /\
  (exists s' t, abs_timer false 1 0 8 9 start = Some (258, s') /\
    get_slot s' 1 = Some t /\ id t = 258 /\ flags t = TF_OVERFLOW /\
    tinv s' [] 0 [1%nat] [] (seq 2 14) []).
Proof.
  split.
  - destruct (abs_timer_correct true 0 500000 7 9 start [] 0 [] [] (seq 1 15) start_inv
      ltac:(lia) ltac:(lia) ltac:(vm_compute; reflexivity))
      as (t0 & s' & t & H0 & H1 & H2 & _ & _ & _ & _ & H7 & H8 & H9 & H10 & H11 & _ & H).
    vm_compute in H0. injection H0 as <-. cbn zeta in H1, H8.
    rewrite decide_True in H by (vm_compute; congruence). exists s', t.
    split; [exact H1|]. do 6 (split; [assumption|]). exact H.
  - destruct (abs_timer_correct false 1 0 8 9 start [] 0 [] [] (seq 1 15) start_inv
      ltac:(lia) ltac:(lia) ltac:(vm_compute; reflexivity))
      as (t0 & s' & t & H0 & H1 & _ & _ & _ & _ & _ & H7 & H8 & _ & _ & _ & _ & H).
    vm_compute in H0. injection H0 as <-. cbn zeta in H1, H8.
    rewrite decide_False in H by (vm_compute; congruence). exists s', t.
    split; [exact H1|]. do 2 (split; [assumption|]). exact H.
Defined.

(** The slot of the timer running in [run1] *)
Definition run1_slot : mtimer := MTimer 0 500000 0 0 258 (Some 0%nat) 9 7.

Lemma stop_timer_correct_witness :
  (exists s', cancel_timer (id run1_slot) run1 = Some s' /\ free_ptimer (id run1_slot) run1 = Some s' /\
     tinv s' (without 1%nat [1%nat]) 0 (without 1%nat [2%nat]) [] (1%nat :: seq 3 13) [] /\ same_data run1 s') /\
  (exists s', pause_ptimer (id run1_slot) run1 = Some s' /\
     tinv s' (without 1%nat [1%nat]) 0 (without 1%nat [2%nat]) (1%nat :: []) (seq 3 13) [] /\ same_data run1 s').
Proof.
  refine (stop_timer_correct run1 [1%nat] 0 [2%nat] [] (seq 3 13) 1 run1_slot run1_inv _ _).
  - left.
  - reflexivity.
Defined.

(** A timer with a period of 100 ticks whose deadline, 1000, was missed *)
Definition late : tstate :=
  TS [MTimer 0 1000 TF_PERIODIC 100 1 None 0 0] None None None None 0 0 1 0 0 false false
    (fun _ => 1234) 0.

Lemma recalc_ptimer_next_witness :
  exists s' lost, recalc_ptimer 0 late = Some (lost, s') /\ lost = 2 /\ mk s' 0 = 1300.
Proof.
  destruct (recalc_ptimer_next late 0 (MTimer 0 1000 TF_PERIODIC 100 1 None 0 0))
    as (s' & lost & E & _ & _ & q & Eq & H2 & _ & H1 & _).
  - intros [|i] t Ht; [|discriminate Ht]. injection Ht as <-. repeat split; vm_compute; congruence.
  - reflexivity.
  - split; reflexivity.
  - reflexivity.
  - change (q = 2) in Eq. specialize (H1 ltac:(rewrite Eq; reflexivity)). rewrite Eq in H1, H2.
    exists s', lost. split; [exact E|]. split; [exact H1|exact H2].
Defined.

(** [run1] at a later time *)
Definition run1_late : tstate :=
  TS (slots run1) (head run1) (inactive run1) (free run1) (overflow run1) 0 0 1 0 0 false false
    (fun _ => 600000) 0.

Lemma run1_late_inv : tinv run1_late [1%nat] 0 [2%nat] [] (seq 3 13) [].
Proof. tinv_eval. Qed.

Lemma rvec_step_oneshot_witness :
  exists s1, rvec_step true (fun _ _ _ _ s => Some s) run1_late = Some (true, s1) /\
    tinv s1 [] 0 [2%nat] [] (1%nat :: seq 3 13) [].
Proof.
  destruct (rvec_step_oneshot true (fun _ _ _ _ s => Some s) run1_late 1 [] 0 [2%nat] [] (seq 3 13)
    run1_slot run1_late_inv
    ltac:(reflexivity) ltac:(reflexivity) ltac:(discriminate)
    ltac:(split; [discriminate|reflexivity])) as (s1 & E & H & _).
  exists s1. split; [exact E|exact H].
Defined.

(** A periodic timer is first given a period beyond the overflow timer, then
    a short one: it reaches the head of the list with [TF_OVERFLOW] set. *)
Definition stalled : tstate :=
  Eval vm_compute in
  default start (r ← new_ptimer 7 0 true start;
                 s ← set_ptimer true r.1 100000000 r.2;
                 set_ptimer true r.1 1000 s).
Definition stalled_late : tstate :=
  TS (slots stalled) (head stalled) (inactive stalled) (free stalled) (overflow stalled)
    0 0 1 0 0 false false (fun _ => 2000000000) 0.

Lemma flagged_head_blocks_witness :
  exists s', rvec_timer true (fun _ _ _ _ s => Some s) 10 stalled_late = Some s' /\
    slots s' = slots stalled_late /\ head s' = Some 1%nat /\
    inactive s' = inactive stalled_late /\ free s' = free stalled_late.
Proof.
  refine (flagged_head_blocks true _ 9 stalled_late 1
    (MTimer 0 26000 (TF_PERIODIC .| TF_AUTORESUME .| TF_OVERFLOW) 25000 258 (Some 0%nat) 0 7) _ _ _);
  reflexivity.
Defined.

End TimerInv.
