(* ===== verification/Pic.v ===== *)
(** * Interrupt controllers ([src/drivers/pic.c], [src/drivers/osi_pic.c])

    Both controllers latch the lines of the devices and drive the interrupt
    pin of the emulated processor; devices reach them through the interface
    [irq_controller_t] ([src/drivers/include/pic.h]). *)

From S2P Require Import Prelude.

Module Pic.

(** [pic_regs_t] *)
Record pic_regs := PicRegs {
  event : Z; enable : Z; ack : Z; level : Z;
  src : Z * Z; in_use : Z * Z
}.

(** The static [pic]: [R1] handles the interrupts 0-31, [R2] 32-63. *)
Record pic_state := PicState { R1 : pic_regs; R2 : pic_regs; cpu_irq : bool }.

Definition upd_event (v : Z) (r : pic_regs) : pic_regs :=
  PicRegs v (enable r) (ack r) (level r) (src r) (in_use r).
Definition upd_enable (v : Z) (r : pic_regs) : pic_regs :=
  PicRegs (event r) v (ack r) (level r) (src r) (in_use r).
Definition upd_level (v : Z) (r : pic_regs) : pic_regs :=
  PicRegs (event r) (enable r) (ack r) v (src r) (in_use r).
Definition upd_src (v : Z * Z) (r : pic_regs) : pic_regs :=
  PicRegs (event r) (enable r) (ack r) (level r) v (in_use r).
Definition upd_in_use (v : Z * Z) (r : pic_regs) : pic_regs :=
  PicRegs (event r) (enable r) (ack r) (level r) (src r) v.

(** Select and update one of the two cells. *)
Definition cell (first : bool) (s : pic_state) : pic_regs := if first then R1 s else R2 s.
Definition upd_cell (first : bool) (f : pic_regs -> pic_regs) (s : pic_state) : pic_state :=
  if first then PicState (f (R1 s)) (R2 s) (cpu_irq s) else PicState (R1 s) (f (R2 s)) (cpu_irq s).

(** The two sources of an interrupt. *)
Definition sel {A} (ind : bool) (p : A * A) : A := if ind then p.2 else p.1.
Definition upd_sel {A} (ind : bool) (v : A) (p : A * A) : A * A := if ind then (p.1, v) else (v, p.2).

Definition raised (s : pic_state) : bool :=
  tst (event (R1 s)) (enable (R1 s)) || tst (event (R2 s)) (enable (R2 s)).

Definition intline_upd (s : pic_state) : pic_state := PicState (R1 s) (R2 s) (raised s).

(** [ld_le32] *)
Definition swap32 (x : Z) : Z :=
  ((x .& 0xff) .<< 24) .| (((x .>> 8) .& 0xff) .<< 16) .| (((x .>> 16) .& 0xff) .<< 8)
  .| ((x .>> 24) .& 0xff).

(** [offs] is the offset of the address from the base of the range. *)
Definition pic_io_write (offs data_le : Z) (s : pic_state) : pic_state :=
  let data := swap32 data_le in
  let reg := offs .>> 2 in
  let first := 3 <? reg in
  let r := reg .& 3 in
  if r =? 1 then intline_upd (upd_cell first (upd_enable data) s)
  else if r =? 2 then
    intline_upd (if tst data (MOL_BIT 0)
                 then PicState (upd_event 0 (R1 s)) (upd_event 0 (R2 s)) (cpu_irq s)
                 else upd_cell first (fun c => upd_event (event c .& not32 data) c) s)
  else s.

Definition pic_io_read (offs : Z) (s : pic_state) : Z :=
  let reg := offs .>> 2 in
  let c := cell (3 <? reg) s in
  let r := reg .& 3 in
  swap32 (if r =? 1 then enable c else if r =? 0 then event c else if r =? 3 then level c else 0).

Definition irq_bit (irq : Z) : Z := 1 .<< (irq .& 31).
Definition irq_first (irq : Z) : bool := negb (tst irq 32).
Definition irq_ind (irq : Z) : bool := tst irq 64.

(** The result, the interrupt number to use and the state. *)
Definition source_register (irq : Z) (s : pic_state) : Z * Z * pic_state :=
  let first := irq_first irq in
  let r := cell first s in
  let b := irq_bit irq in
  let ind := tst (in_use r).1 b in
  if tst (sel ind (in_use r)) b then (1, irq, s)
  else (0, if ind then irq + 64 else irq,
        upd_cell first (upd_in_use (upd_sel ind (sel ind (in_use r) .| b) (in_use r))) s).

Definition source_hi (irq : Z) (s : pic_state) : pic_state :=
  if irq <? 0 then s else
  let first := irq_first irq in
  let b := irq_bit irq in
  let ind := irq_ind irq in
  let s := upd_cell first (fun r => upd_src (upd_sel ind (sel ind (src r) .| b) (src r)) r) s in
  let r := cell first s in
  if negb (tst (level r) b)
  then intline_upd (upd_cell first (fun r => upd_event (event r .| b) (upd_level (level r .| b) r)) s)
  else s.

Section Low.
(** [oldworld_hack] *)
Context (oldworld_hack : bool).

Definition source_low (irq : Z) (s : pic_state) : Z * pic_state :=
  if irq <? 0 then (0, s) else
  let first := irq_first irq in
  let b := irq_bit irq in
  let ind := irq_ind irq in
  let s := if oldworld_hack && tst b (level (cell first s))
           then intline_upd (upd_cell first (fun r => upd_event (event r .| (b .& enable r)) r) s)
           else s in
  let old := sel ind (src (cell first s)) .& b in
  let s := upd_cell first (fun r => upd_src (upd_sel ind (sel ind (src r) .& not32 b) (src r)) r) s in
  (old, upd_cell first (fun r => upd_level (level r .& (not32 b .| sel (negb ind) (src r))) r) s).
End Low.

(** Registers restored from a saved session. *)
Definition pic_restore (r1 r2 : pic_regs) (s : pic_state) : pic_state :=
  intline_upd (PicState r1 r2 (cpu_irq s)).

(** ** The OSI controller *)

Module Osi.
(** The static [ps] *)
Record osi_state := OsiState { o_level : Z; o_mask : Z; o_irq : bool }.

Definition osi_source_hi (irq : Z) (s : osi_state) : osi_state :=
  let l := o_level s .| (1 .<< irq) in
  OsiState l (o_mask s) (if tst l (o_mask s) then true else o_irq s).

Definition osi_source_low (irq : Z) (s : osi_state) : Z * osi_state :=
  let b := 1 .<< irq in
  let l := o_level s .& not32 b in
  (o_level s .& b, OsiState l (o_mask s) (if negb (tst l (o_mask s)) then false else o_irq s)).

Definition osip_pic_unmask_irq (irq : Z) (s : osi_state) : osi_state :=
  let m := o_mask s .| (1 .<< irq) in
  OsiState (o_level s) m (if tst (o_level s) m then true else o_irq s).

Definition osip_pic_mask_irq (irq : Z) (s : osi_state) : osi_state :=
  let m := o_mask s .& not32 (1 .<< irq) in
  OsiState (o_level s) m (if negb (tst (o_level s) m) then false else o_irq s).

Definition osip_pic_get_active_irq (s : osi_state) : Z := o_level s .& o_mask s.
End Osi.

(** ** The interface of the devices

    What a device may rely on, whichever controller is in use: raising and
    lowering its own line does exactly that and does not touch the others,
    and the state invariant of the controller is kept. *)
Class IrqController (S : Type) := {
  irq_hi : Z -> S -> S;
  irq_low : Z -> S -> Z * S;
  valid_irq : Z -> Prop;
  line : S -> Z -> bool;
  irq_wf : S -> Prop
}.

Class IrqLaws (S : Type) `{IrqController S} := {
  hi_line : forall i j s, valid_irq i -> valid_irq j ->
    line (irq_hi i s) j = (i =? j) || line s j;
  low_line : forall i j s, valid_irq i -> valid_irq j ->
    line (irq_low i s).2 j = negb (i =? j) && line s j;
  low_old : forall i s, valid_irq i -> negb ((irq_low i s).1 =? 0) = line s i;
  hi_wf : forall i s, valid_irq i -> irq_wf s -> irq_wf (irq_hi i s);
  low_wf : forall i s, valid_irq i -> irq_wf s -> irq_wf (irq_low i s).2
}.

(** ** Bits *)

Lemma irq_decompose irq : 0 <= irq < 128 ->
  irq = (irq .& 31) + 32 * Z.b2z (negb (irq_first irq)) + 64 * Z.b2z (irq_ind irq).
Proof.
  intros H.
  assert (Hall : forallb (fun n => let irq := Z.of_nat n in
    irq =? (irq .& 31) + 32 * Z.b2z (negb (irq_first irq)) + 64 * Z.b2z (irq_ind irq))
    (seq 0 128) = true) by (vm_compute; reflexivity).
  rewrite forallb_forall in Hall. specialize (Hall (Z.to_nat irq)).
  rewrite Z2Nat.id in Hall by lia. apply Z.eqb_eq, Hall, in_seq. lia.
Qed.

Lemma irq_low_range irq : 0 <= irq .& 31 < 32.
Proof. change 31 with (2 ^ 5 - 1). apply land_ones_range. lia. Qed.

Lemma irq_bit_spec irq k : 0 <= k -> Z.testbit (irq_bit irq) k = ((irq .& 31) =? k).
Proof. intros. unfold irq_bit. apply one_bit_spec; [apply irq_low_range|done]. Qed.

Lemma irq_eqb i j : 0 <= i < 128 -> 0 <= j < 128 ->
  (i =? j) = eqb (irq_first i) (irq_first j) && eqb (irq_ind i) (irq_ind j)
             && ((i .& 31) =? (j .& 31)).
Proof.
  intros Hi Hj. pose proof (irq_decompose i Hi) as Ei. pose proof (irq_decompose j Hj) as Ej.
  destruct (Z.eqb_spec i j) as [->|Hne]; [by rewrite !eqb_reflx, Z.eqb_refl|].
  destruct (irq_first i), (irq_first j), (irq_ind i), (irq_ind j); try reflexivity;
    cbn [eqb andb negb Z.b2z] in *; symmetry; apply Z.eqb_neq; lia.
Qed.

(** The bit of [irq] in a register. *)
Definition reg_bit (irq : Z) (x : Z) : bool := Z.testbit x (irq .& 31).

Lemma tst_irq_bit x irq : tst x (irq_bit irq) = reg_bit irq x.
Proof. apply tst_bit, irq_low_range. Qed.

Lemma reg_bit_set i j x : reg_bit j (x .| irq_bit i) = reg_bit j x || ((i .& 31) =? (j .& 31)).
Proof.
  unfold reg_bit. pose proof (irq_low_range j).
  rewrite Z.lor_spec, irq_bit_spec by lia. done.
Qed.

Lemma reg_bit_clear i j x :
  reg_bit j (x .& not32 (irq_bit i)) = reg_bit j x && negb ((i .& 31) =? (j .& 31)).
Proof.
  unfold reg_bit. pose proof (irq_low_range j).
  rewrite Z.land_spec, not32_spec, irq_bit_spec by lia. done.
Qed.

(** ** The invariant of [pic.c]

    The level register shows the lines of both sources of every interrupt,
    and the pin of the processor follows the enabled events. *)
Definition cell_ok (r : pic_regs) : Prop := level r = (src r).1 .| (src r).2.
Definition pic_ok (s : pic_state) : Prop :=
  cell_ok (R1 s) /\ cell_ok (R2 s) /\ cpu_irq s = raised s.

#[global] Instance pic_controller (hack : bool) : IrqController pic_state := {
  irq_hi := source_hi;
  irq_low := source_low hack;
  valid_irq := fun i => 0 <= i < 128;
  line := fun s i => reg_bit i (sel (irq_ind i) (src (cell (irq_first i) s)));
  irq_wf := pic_ok
}.

Lemma intline_upd_cell b s : cell b (intline_upd s) = cell b s.
Proof. by destruct b. Qed.
Lemma cell_upd_cell b c f s : cell c (upd_cell b f s) = (if eqb b c then f (cell c s) else cell c s).
Proof. by destruct b, c. Qed.

Lemma source_hi_src i b s : 0 <= i ->
  src (cell b (source_hi i s)) =
    (if eqb (irq_first i) b
     then upd_sel (irq_ind i) (sel (irq_ind i) (src (cell b s)) .| irq_bit i) (src (cell b s))
     else src (cell b s)).
Proof.
  intros Hi. unfold source_hi. rewrite (proj2 (Z.ltb_ge i 0)) by lia.
  cbv zeta. case_match; rewrite ?intline_upd_cell, ?cell_upd_cell;
    destruct (eqb (irq_first i) b); done.
Qed.

Lemma source_low_src hack i b s : 0 <= i ->
  src (cell b (source_low hack i s).2) =
    (if eqb (irq_first i) b
     then upd_sel (irq_ind i) (sel (irq_ind i) (src (cell b s)) .& not32 (irq_bit i)) (src (cell b s))
     else src (cell b s)).
Proof.
  intros Hi. unfold source_low. rewrite (proj2 (Z.ltb_ge i 0)) by lia. cbv zeta. cbn [snd].
  case_match; rewrite ?intline_upd_cell, ?cell_upd_cell, ?intline_upd_cell, ?cell_upd_cell;
    destruct (eqb (irq_first i) b); done.
Qed.

Lemma sel_upd_sel {A} a b (v : A) p : sel b (upd_sel a v p) = if eqb a b then v else sel b p.
Proof. by destruct a, b. Qed.

Lemma lor_irq_bit x i : reg_bit i x = true -> x .| irq_bit i = x.
Proof.
  intros H. zbits. rewrite irq_bit_spec by done.
  destruct (Z.eqb_spec (i .& 31) n) as [<-|]; [|apply orb_false_r].
  unfold reg_bit in H. by rewrite H.
Qed.

(** Only [raised] matters for the pin. *)
Lemma intline_upd_ok s : cell_ok (R1 s) -> cell_ok (R2 s) -> pic_ok (intline_upd s).
Proof. by repeat split. Qed.

Lemma upd_cell_ok b f s :
  (forall c, cell_ok c -> cell_ok (f c)) ->
  cell_ok (R1 s) -> cell_ok (R2 s) ->
  cell_ok (R1 (upd_cell b f s)) /\ cell_ok (R2 (upd_cell b f s)).
Proof. intros Hf H1 H2. destruct b; cbn; auto. Qed.

Lemma cell_ok_hi ind b r : cell_ok r ->
  cell_ok (upd_level (level r .| b) (upd_src (upd_sel ind (sel ind (src r) .| b) (src r)) r)).
Proof.
  unfold cell_ok. intros E. destruct ind; cbn; rewrite E.
  - by rewrite Z.lor_assoc.
  - rewrite <- Z.lor_assoc, (Z.lor_comm _ b). by rewrite Z.lor_assoc.
Qed.

Lemma cell_ok_low ind b r : cell_ok r ->
  cell_ok (upd_level (level r .& (not32 b .| sel (negb ind)
                        (upd_sel ind (sel ind (src r) .& not32 b) (src r))))
             (upd_src (upd_sel ind (sel ind (src r) .& not32 b) (src r)) r)).
Proof.
  unfold cell_ok. intros E. destruct ind; cbn; rewrite E; zbits;
    destruct (Z.testbit (src r).1 n), (Z.testbit (src r).2 n), (Z.testbit (not32 b) n); done.
Qed.

Lemma pic_cell_ok b s : pic_ok s -> cell_ok (cell b s).
Proof. intros (H1 & H2 & _). by destruct b. Qed.

Lemma source_hi_ok i s : pic_ok s -> pic_ok (source_hi i s).
Proof.
  intros Hok. unfold source_hi. case_match; [done|]. cbv zeta.
  rewrite tst_irq_bit, cell_upd_cell, eqb_reflx. cbn [level upd_src].
  destruct (reg_bit i (level (cell (irq_first i) s))) eqn:E; cbn [negb].
  - pose proof (pic_cell_ok (irq_first i) s Hok) as Hc.
    pose proof (cell_ok_hi (irq_ind i) (irq_bit i) _ Hc) as Hc'.
    rewrite (lor_irq_bit _ _ E) in Hc'. destruct Hok as (H1 & H2 & Hp).
    destruct (irq_first i); repeat split; cbn in *; auto.
  - destruct Hok as (H1 & H2 & Hp).
    apply intline_upd_ok; destruct (irq_first i); cbn; auto;
      apply cell_ok_hi; auto.
Qed.

Lemma source_low_ok hack i s : pic_ok s -> pic_ok (source_low hack i s).2.
Proof.
  intros Hok. unfold source_low. case_match; [done|]. cbv zeta. cbn [snd].
  set (s1 := if _ && _ then _ else _).
  assert (H1 : pic_ok s1).
  { unfold s1. case_match; [|done]. destruct Hok as (H1 & H2 & _).
    apply intline_upd_ok; destruct (irq_first i); cbn; auto. }
  destruct H1 as (Ha & Hb & Hp). clearbody s1.
  destruct (irq_first i); repeat split; cbn; auto; apply cell_ok_low; auto.
Qed.

#[global] Instance pic_laws (hack : bool) : @IrqLaws pic_state (pic_controller hack).
Proof.
  split; cbn [irq_hi irq_low valid_irq line irq_wf pic_controller].
  - intros i j s Hi Hj. rewrite source_hi_src, irq_eqb by lia.
    destruct (eqb (irq_first i) (irq_first j)); cbn [andb orb]; [|done].
    rewrite sel_upd_sel.
    destruct (eqb (irq_ind i) (irq_ind j)) eqn:E; cbn [andb orb]; [|done].
    apply eqb_prop in E as ->. by rewrite reg_bit_set, orb_comm.
  - intros i j s Hi Hj. rewrite source_low_src, irq_eqb by lia.
    destruct (eqb (irq_first i) (irq_first j)); cbn [andb orb negb]; [|done].
    rewrite sel_upd_sel.
    destruct (eqb (irq_ind i) (irq_ind j)) eqn:E; cbn [andb orb negb]; [|done].
    apply eqb_prop in E as ->. by rewrite reg_bit_clear, andb_comm.
  - intros i s Hi. unfold source_low. rewrite (proj2 (Z.ltb_ge i 0)) by lia. cbv zeta. cbn [fst].
    case_match; rewrite ?intline_upd_cell, ?cell_upd_cell, ?eqb_reflx;
      cbn [src upd_event]; apply tst_irq_bit.
  - intros i s _. apply source_hi_ok.
  - intros i s _. apply source_low_ok.
Qed.

(** ** The OSI controller *)

#[global] Instance osi_controller : IrqController Osi.osi_state := {
  irq_hi := Osi.osi_source_hi;
  irq_low := Osi.osi_source_low;
  valid_irq := fun i => 0 <= i < 32;
  line := fun s i => Z.testbit (Osi.o_level s) i;
  irq_wf := fun s => Osi.o_irq s = tst (Osi.o_level s) (Osi.o_mask s)
}.

Lemma tst_and_lor x y m : tst x m = true -> tst (x .| y) m = true.
Proof.
  rewrite !tst_true. intros H E. apply H. rewrite Z.land_lor_distr_l in E.
  by apply Z.lor_eq_0_iff in E as [? _].
Qed.

Lemma tst_land_false x y m : tst x m = false -> tst (x .& y) m = false.
Proof.
  rewrite !tst_false. intros H. rewrite <- Z.land_assoc, (Z.land_comm y), Z.land_assoc, H.
  apply Z.land_0_l.
Qed.

#[global] Instance osi_laws : @IrqLaws Osi.osi_state osi_controller.
Proof.
  split; cbn [irq_hi irq_low valid_irq line irq_wf osi_controller Osi.osi_source_hi Osi.osi_source_low
              Osi.o_level Osi.o_mask Osi.o_irq snd fst].
  - intros i j s Hi Hj. rewrite Z.lor_spec, one_bit_spec by lia. apply orb_comm.
  - intros i j s Hi Hj. rewrite Z.land_spec, not32_spec, one_bit_spec by lia. apply andb_comm.
  - intros i s Hi. apply tst_bit. lia.
  - intros i s Hi E. rewrite E. destruct (tst (Osi.o_level s) (Osi.o_mask s)) eqn:E1.
    + rewrite (tst_and_lor _ _ _ E1). done.
    + by destruct (tst (_ .| _) _).
  - intros i s Hi E. rewrite E. destruct (tst (Osi.o_level s) (Osi.o_mask s)) eqn:E1.
    + by destruct (tst (_ .& _) _).
    + by rewrite (tst_land_false _ _ _ E1).
Qed.

(** ** Runs of the controllers *)

Inductive pic_op : Set :=
| OpHi (irq : Z) | OpLow (irq : Z) | OpRegister (irq : Z) | OpWrite (offs data : Z).

Definition pic_do (hack : bool) (o : pic_op) (s : pic_state) : pic_state :=
  match o with
  | OpHi irq => source_hi irq s
  | OpLow irq => (source_low hack irq s).2
  | OpRegister irq => (source_register irq s).2
  | OpWrite offs data => pic_io_write offs data s
  end.

Inductive pic_reach (hack : bool) (s0 : pic_state) : pic_state -> Prop :=
| reach_refl : pic_reach hack s0 s0
| reach_step o s : pic_reach hack s0 s -> pic_reach hack s0 (pic_do hack o s).

Definition pic_reset : pic_state :=
  let r := PicRegs 0 0 0 0 (0, 0) (0, 0) in PicState r r false.

Lemma pic_write_ok offs data s : pic_ok s -> pic_ok (pic_io_write offs data s).
Proof.
  intros Hok. pose proof Hok as (H1 & H2 & Hp). unfold pic_io_write.
  repeat case_match; try done; apply intline_upd_ok; try destruct (3 <? _); cbn; auto.
Qed.

Lemma pic_register_ok irq s : pic_ok s -> pic_ok (source_register irq s).2.
Proof.
  intros (H1 & H2 & Hp). unfold source_register. case_match; [done|].
  destruct (irq_first irq); repeat split; cbn; auto.
Qed.

(** C40: in every state the PIC reaches from reset, by device activity, guest
    accesses and registrations in any order, the LEVEL registers are the
    union of the lines of the two sources of each interrupt, and the
    interrupt pin of the processor is raised exactly when an enabled event
    is pending. *)
Theorem pic_reachable_ok hack s : pic_reach hack pic_reset s -> pic_ok s.
Proof.
  induction 1 as [|o s _ IH]; [by repeat split|].
  destruct o; cbn [pic_do].
  - by apply source_hi_ok.
  - by apply source_low_ok.
  - by apply pic_register_ok.
  - by apply pic_write_ok.
Qed.

Lemma pic_reachable_ok_witness :
  pic_ok (pic_do false (OpLow 18) (pic_do false (OpHi 18) (pic_do false (OpWrite 20 0x400) pic_reset)))
  /\ cpu_irq (pic_do false (OpLow 18) (pic_do false (OpHi 18)
        (pic_do false (OpWrite 20 0x400) pic_reset))) = true.
Proof.
  split; [|vm_compute; reflexivity].
  apply (pic_reachable_ok false). repeat constructor.
Defined.

(** a device that pulses its line on any controller meeting the
    interface (raises it while it is low, then lowers it) is told that the
    line was high, and leaves every line, its own and those of the other
    devices, as it was. *)
Theorem line_pulse_restores {S} `{IrqLaws S} i j (s : S) :
  valid_irq i -> valid_irq j -> line s i = false ->
  (irq_low i (irq_hi i s)).1 <> 0 /\ line (irq_low i (irq_hi i s)).2 j = line s j.
Proof.
  intros Hi Hj Hl. split.
  - pose proof (low_old i (irq_hi i s) Hi) as E. rewrite hi_line, Z.eqb_refl in E by done.
    apply negb_true_iff, Z.eqb_neq in E. done.
  - rewrite low_line, hi_line by done. destruct (Z.eqb_spec i j) as [->|]; [by rewrite Hl|done].
Qed.

Lemma line_pulse_restores_witness :
  let s := source_hi 3 pic_reset in
  ((irq_low (IrqController := pic_controller false) 67 (source_hi 67 s)).1 <> 0
   /\ line (IrqController := pic_controller false) (source_low false 67 (source_hi 67 s)).2 3 = true)
  /\ line (Osi.osi_source_low 5 (Osi.osi_source_hi 5 (Osi.OsiState 0 0xff false))).2 7 = false.
Proof.
  split.
  - exact (line_pulse_restores (H := pic_controller false) 67 3 (source_hi 3 pic_reset)
             ltac:(vm_compute; split; congruence) ltac:(vm_compute; split; congruence)
             ltac:(vm_compute; reflexivity)).
  - exact (proj2 (line_pulse_restores (H := osi_controller) 5 7 (Osi.OsiState 0 0xff false)
             ltac:(vm_compute; split; congruence) ltac:(vm_compute; split; congruence)
             ltac:(vm_compute; reflexivity))).
Defined.

Lemma source_hi_event i s : 0 <= i ->
  reg_bit i (level (cell (irq_first i) s)) = false ->
  cell (irq_first i) (source_hi i s) =
    upd_event (event (cell (irq_first i) s) .| irq_bit i)
      (upd_level (level (cell (irq_first i) s) .| irq_bit i)
        (upd_src (upd_sel (irq_ind i) (sel (irq_ind i) (src (cell (irq_first i) s)) .| irq_bit i)
                   (src (cell (irq_first i) s))) (cell (irq_first i) s)))
  /\ cpu_irq (source_hi i s) = raised (source_hi i s).
Proof.
  intros Hi Hl. unfold source_hi. rewrite (proj2 (Z.ltb_ge i 0)) by lia. cbv zeta.
  rewrite tst_irq_bit, cell_upd_cell, eqb_reflx. cbn [level upd_src]. rewrite Hl. cbn [negb].
  split; [|done]. by rewrite intline_upd_cell, !cell_upd_cell, !eqb_reflx.
Qed.

Lemma raised_bit i s :
  reg_bit i (event (cell (irq_first i) s)) = true ->
  reg_bit i (enable (cell (irq_first i) s)) = true -> raised s = true.
Proof.
  intros He Hn. unfold raised. apply orb_true_iff.
  assert (Ht : tst (event (cell (irq_first i) s)) (enable (cell (irq_first i) s)) = true).
  { apply tst_true. intros E. apply (f_equal (fun z => Z.testbit z (i .& 31))) in E.
    rewrite Z.land_spec, Z.bits_0 in E. unfold reg_bit in *. by rewrite He, Hn in E. }
  destruct (irq_first i); auto.
Qed.

(** a rising edge is latched: when the line of an enabled interrupt goes
    high (its LEVEL bit was clear), its event bit is set and the processor
    sees the interrupt, and both stay so when the device lowers the line
    again before the guest acknowledges it. *)
Theorem pic_edge_latched i s :
  0 <= i < 128 -> pic_ok s ->
  reg_bit i (level (cell (irq_first i) s)) = false ->
  reg_bit i (enable (cell (irq_first i) s)) = true ->
  let s1 := source_hi i s in
  let s2 := (source_low false i s1).2 in
  cpu_irq s1 = true /\ reg_bit i (event (cell (irq_first i) s1)) = true /\
  cpu_irq s2 = true /\ reg_bit i (event (cell (irq_first i) s2)) = true.
Proof.
  intros Hi Hok Hl Hn s1 s2. destruct (source_hi_event i s ltac:(lia) Hl) as [E Hp].
  fold s1 in E, Hp.
  assert (He : reg_bit i (event (cell (irq_first i) s1)) = true)
    by (rewrite E; cbn; by rewrite reg_bit_set, Z.eqb_refl, orb_true_r).
  assert (Hn1 : reg_bit i (enable (cell (irq_first i) s1)) = true) by (by rewrite E).
  assert (Hc : event (cell (irq_first i) s2) = event (cell (irq_first i) s1)
               /\ cpu_irq s2 = cpu_irq s1).
  { unfold s2, source_low. rewrite (proj2 (Z.ltb_ge i 0)) by lia. cbn.
    rewrite !cell_upd_cell, eqb_reflx. by destruct (irq_first i). }
  destruct Hc as [-> ->]. rewrite Hp, (raised_bit i s1 He Hn1). done.
Qed.

Lemma pic_edge_latched_witness :
  cpu_irq (source_low false 35 (source_hi 35 (pic_io_write 4 0x08000000 pic_reset))).2 = true.
Proof.
  apply (pic_edge_latched 35 (pic_io_write 4 0x08000000 pic_reset)); vm_compute; [split|..];
    try split; try split; try reflexivity; congruence.
Defined.

Lemma source_register_eq irq s :
  let b := irq_first irq in
  let u := in_use (cell b s) in
  source_register irq s =
    if reg_bit irq u.1 then
      if reg_bit irq u.2 then (1, irq, s)
      else (0, irq + 64, upd_cell b (upd_in_use (u.1, u.2 .| irq_bit irq)) s)
    else (0, irq, upd_cell b (upd_in_use (u.1 .| irq_bit irq, u.2)) s).
Proof.
  cbv zeta. unfold source_register. rewrite !tst_irq_bit.
  destruct (reg_bit irq (in_use _).1) eqn:E; cbn [sel upd_sel]; [done|]. by rewrite E.
Qed.

(** An interrupt can be shared by two devices and not by a third: two
    registrations of an unused interrupt succeed and hand out different
    numbers, [irq] and [irq + 64], for the same line of the controller, and
    a third one fails without changing anything. *)
Theorem source_register_two irq s :
  0 <= irq < 64 ->
  reg_bit irq (in_use (cell (irq_first irq) s)).1 = false ->
  reg_bit irq (in_use (cell (irq_first irq) s)).2 = false ->
  exists s1 s2,
    source_register irq s = (0, irq, s1) /\
    source_register irq s1 = (0, irq + 64, s2) /\
    source_register irq s2 = (1, irq, s2).
Proof.
  intros Hirq H1 H2.
  pose proof (source_register_eq irq s) as E1. cbv zeta in E1. rewrite H1 in E1.
  set (s1 := upd_cell _ _ s) in E1.
  pose proof (source_register_eq irq s1) as E2. cbv zeta in E2. unfold s1 at 2 3 in E2.
  rewrite cell_upd_cell, eqb_reflx in E2. cbn [in_use upd_in_use fst snd] in E2.
  rewrite reg_bit_set, Z.eqb_refl, orb_true_r, H2 in E2.
  set (s2 := upd_cell _ _ s1) in E2.
  pose proof (source_register_eq irq s2) as E3. cbv zeta in E3. unfold s2 at 2 3 in E3.
  rewrite cell_upd_cell, eqb_reflx in E3. cbn [in_use upd_in_use fst snd] in E3.
  rewrite reg_bit_set, Z.eqb_refl, orb_true_r in E3. unfold s1 at 1 in E3.
  rewrite cell_upd_cell, eqb_reflx in E3. cbn [in_use upd_in_use fst snd] in E3.
  rewrite reg_bit_set, Z.eqb_refl, orb_true_r in E3. eauto.
Qed.

Lemma source_register_two_witness :
  exists s1 s2, source_register 40 pic_reset = (0, 40, s1) /\
    source_register 40 s1 = (0, 104, s2) /\ source_register 40 s2 = (1, 40, s2).
Proof.
  apply (source_register_two 40 pic_reset); vm_compute; [split|..]; try reflexivity; congruence.
Defined.

End Pic.
