(* ===== verification/Ioports.v ===== *)
(** * Emulated I/O ranges ([src/drivers/ioports.c])

    A device registers a range of guest physical addresses with its access
    functions; the kernel module is told about small ranges so that it can
    deliver accesses directly, and the others are found by address. *)

From S2P Require Import Prelude.

Module Ioports.

Definition IO_STOP : Z := 1.
Definition IO_VERBOSE : Z := 4.

(** What the module asks of the kernel and the outside world. *)
Inductive io_event : Set :=
| KAdd (mbase size rid : Z)      (** [_add_io_range] *)
| KRemove (mbase size : Z)       (** [_remove_io_range] *)
| StopEmulation
| PrintAccess (isread : bool) (addr data len rid : Z).

(** [io_range_t]; the access functions are numbers, [None] being the
    defaults [unmapped_read], [unmapped_write] and [print_io_access]. *)
Record io_range := IoRange {
  r_id : Z; r_mphys : Z; r_size : Z; r_flags : Z;
  r_read : option Z; r_write : option Z; r_usr : Z; r_name : list Z
}.
Definition set_r_flags (f : Z) (r : io_range) : io_range :=
  IoRange (r_id r) (r_mphys r) (r_size r) f (r_read r) (r_write r) (r_usr r) (r_name r).

(** The statics; [sroot] lists the same ranges in address order. *)
Record io_state (D : Type) := IoState {
  root : list io_range;
  sroot : list io_range;
  next_id : Z;
  events : list io_event;   (** last first *)
  devices : D               (** the state of the devices *)
}.
Arguments IoState {D}. Arguments root {D}. Arguments sroot {D}.
Arguments next_id {D}. Arguments events {D}. Arguments devices {D}.

Section Ioports.
Context {D : Type}.
(** The access functions of the devices: function, address, data, length,
    user data. *)
Context (dev_read : Z -> Z -> Z -> Z -> D -> Z * D).
Context (dev_write : Z -> Z -> Z -> Z -> Z -> D -> D).
(** [mregs->msr & MSR_DR], [is_oldworld_boot()] and [hack_starmax] *)
Context (msr_dr oldworld starmax : bool).

Definition range_hit (addr : Z) (r : io_range) : Prop :=
  r_mphys r <= addr <= u32 (r_mphys r + r_size r - 1).
#[global] Instance range_hit_dec addr r : Decision (range_hit addr r).
Proof. unfold range_hit. apply _. Defined.

Definition get_range (addr : Z) (s : io_state D) : option io_range :=
  list_find (range_hit addr) (root s) ≫= fun p => Some p.2.

Definition log (e : io_event) (s : io_state D) : io_state D :=
  IoState (root s) (sroot s) (next_id s) (e :: events s) (devices s).
Definition set_devices (d : D) (s : io_state D) : io_state D :=
  IoState (root s) (sroot s) (next_id s) (events s) d.

Definition unmapped_read (mphys : Z) (s : io_state D) : Z * io_state D :=
  if starmax && (mphys =? 0xf8000000) then (0x10020000, s)
  else if starmax && (mphys =? 0xf301a000) then (0xff77, s)
  else if mphys <? 0x80000000 then (0, if msr_dr || negb oldworld then log StopEmulation s else s)
  else (0, s).

(** Writes to unmapped addresses are ignored. *)
Definition unmapped_write (mphys data : Z) (s : io_state D) : io_state D := s.

(** Insertion into the sorted list. *)
Fixpoint sinsert (r : io_range) (l : list io_range) : list io_range :=
  match l with
  | [] => [r]
  | q :: l' => if r_mphys r <=? r_mphys q then r :: l else q :: sinsert r l'
  end.

Definition add_io_range (mbase size : Z) (name : list Z) (flags : Z)
    (ops : option (option Z * option Z)) (usr : Z) (s : io_state D) : Z * io_state D :=
  if tst mbase 0x7 || tst size 0x7 then (0, s) else
  let id := next_id s in
  let r := IoRange id mbase size flags (ops ≫= fst) (ops ≫= snd) usr name in
  let s := IoState (r :: root s) (sinsert r (sroot s)) (s32 (id + 1)) (events s) (devices s) in
  (id, if size <=? 0x2000 then log (KAdd mbase size id) s else s).

(** Remove the range that is the same object (its id identifies it). *)
Fixpoint remove_first (rid : Z) (l : list io_range) : list io_range :=
  match l with
  | [] => []
  | q :: l' => if r_id q =? rid then l' else q :: remove_first rid l'
  end.

Definition remove_io_range (rid : Z) (s : io_state D) : Z * io_state D :=
  match list_find (fun r => r_id r = rid) (root s) with
  | None => (1, s)
  | Some (_, r) =>
      let s := log (KRemove (r_mphys r) (r_size r)) s in
      (0, IoState (remove_first rid (root s)) (remove_first rid (sroot s)) (next_id s)
            (events s) (devices s))
  end.

(** ** Accesses *)

Definition do_io_read_at (r : io_range) (ptr len : Z) (s : io_state D) : Z * io_state D :=
  let s := if tst (r_flags r) IO_STOP then log StopEmulation s else s in
  let '(ret, s) := match r_read r with
                   | Some f => let '(v, d) := dev_read f ptr len (r_usr r) (devices s) in
                               (v, set_devices d s)
                   | None => unmapped_read ptr s
                   end in
  (ret, if tst (r_flags r) IO_VERBOSE then log (PrintAccess true ptr ret len (r_id r)) s else s).

Definition mem_io_read (mphys len : Z) (s : io_state D) : Z * io_state D :=
  match get_range mphys s with
  | None => unmapped_read mphys s
  | Some r => do_io_read_at r mphys len s
  end.

(** [ior = None] is a null pointer. *)
Definition do_io_read (ior : option io_range) (ptr len : Z) (s : io_state D) : Z * io_state D :=
  match ior with
  | None => mem_io_read ptr len s
  | Some r => do_io_read_at r ptr len s
  end.

Definition do_io_write_at (r : io_range) (mphys data len : Z) (s : io_state D) : io_state D :=
  let s := if tst (r_flags r) IO_STOP then log StopEmulation s else s in
  let s := if tst (r_flags r) IO_VERBOSE then log (PrintAccess false mphys data len (r_id r)) s
           else s in
  match r_write r with
  | Some f => set_devices (dev_write f mphys data len (r_usr r) (devices s)) s
  | None => unmapped_write mphys data s
  end.

Definition mem_io_write (mphys data len : Z) (s : io_state D) : io_state D :=
  match get_range mphys s with
  | None => unmapped_write mphys data s
  | Some r => do_io_write_at r mphys data len s
  end.

Definition do_io_write (ior : option io_range) (mphys data len : Z) (s : io_state D) : io_state D :=
  match ior with
  | None => mem_io_write mphys data len s
  | Some r => do_io_write_at r mphys data len s
  end.

(** ** Memory helpers: big-endian bytes, [None] when the access leaves [mem] *)

Definition valid_len (len : Z) : bool := (len =? 1) || (len =? 2) || (len =? 4).

Definition read_mem (mem : list Z) (ptr : nat) (len : Z) : option Z :=
  if valid_len len then
    let l := take (Z.to_nat len) (drop ptr mem) in
    if decide (length l = Z.to_nat len) then Some (be_value l) else None
  else Some 0.

Definition write_mem (mem : list Z) (ptr : nat) (data len : Z) : option (list Z) :=
  if valid_len len then
    let n := Z.to_nat len in
    if decide (ptr + n <= length mem)%nat
    then Some (take ptr mem ++ be_bytes n data ++ drop (ptr + n) mem) else None
  else Some mem.

(** ** Debugger commands on the flags *)

(** [cmd_iob], [cmd_iov]: toggle a flag of the range at an address *)
Definition toggle_flag (flag addr : Z) (s : io_state D) : io_state D :=
  match get_range addr s with
  | None => s
  | Some r =>
      let f := if tst (r_flags r) flag then r_flags r .& not32 flag else r_flags r .| flag in
      let upd := fun q => if r_id q =? r_id r then set_r_flags f q else q in
      IoState (map upd (root s)) (map upd (sroot s)) (next_id s) (events s) (devices s)
  end.
Definition cmd_iob := toggle_flag IO_STOP.
Definition cmd_iov := toggle_flag IO_VERBOSE.

(** [cmd_iocv], [cmd_iocb], [cmd_iosv], [cmd_iosb] *)
Definition all_flags (f : Z -> Z) (s : io_state D) : io_state D :=
  let upd := fun q => set_r_flags (f (r_flags q)) q in
  IoState (map upd (root s)) (map upd (sroot s)) (next_id s) (events s) (devices s).
Definition cmd_iocv := all_flags (fun f => f .& not32 IO_VERBOSE).
Definition cmd_iocb := all_flags (fun f => f .& not32 IO_STOP).
Definition cmd_iosv := all_flags (fun f => f .| IO_VERBOSE).
Definition cmd_iosb := all_flags (fun f => f .| IO_STOP).

(** ** Init and cleanup *)

(** "IO_unmapped" *)
Definition IO_unmapped : list Z := [73; 79; 95; 117; 110; 109; 97; 112; 112; 101; 100].

Definition ioports_init (s : io_state D) : io_state D :=
  let s := IoState [] (sroot s) 0 (events s) (devices s) in
  (add_io_range 0x80000000 0x80000000 IO_unmapped 0 None 0 s).2.

(** ** Properties *)

(** Ids are unique and both lists hold the same ranges, [sroot] by address. *)
Definition by_addr (a b : io_range) : Prop := r_mphys a <= r_mphys b.

Definition io_ok (s : io_state D) : Prop :=
  NoDup (map r_id (root s)) /\
  Forall (fun r => 0 <= r_id r < next_id s) (root s) /\
  0 <= next_id s < 2 ^ 31 /\
  Permutation (root s) (sroot s) /\ Sorted by_addr (sroot s).

Lemma sinsert_perm r l : Permutation (r :: l) (sinsert r l).
Proof.
  induction l as [|q l IH]; cbn; [done|]. case_match; [done|].
  rewrite Permutation_swap. by apply perm_skip.
Qed.

Lemma sinsert_sorted r l : Sorted by_addr l -> Sorted by_addr (sinsert r l).
Proof.
  induction 1 as [|q l Hs IH Hr]; cbn; [by repeat constructor|].
  case_match eqn:E; bool_hyps.
  - constructor; [by constructor|]. constructor. done.
  - constructor; [done|]. destruct l as [|q' l]; cbn; [constructor; unfold by_addr; lia|].
    case_match; constructor; unfold by_addr in *; [lia|]. by inversion Hr.
Qed.

Lemma remove_first_sublist rid l : remove_first rid l `sublist_of` l.
Proof.
  induction l as [|q l IH]; cbn; [done|]. case_match; [by apply sublist_cons|].
  by apply sublist_skip.
Qed.

Lemma remove_first_filter rid l :
  NoDup (map r_id l) -> remove_first rid l = filter (fun r => r_id r <> rid) l.
Proof.
  induction l as [|q l IH]; intros Hn; [done|]. cbn in Hn. apply list.NoDup_cons in Hn as [Hq Hn].
  cbn [remove_first]. rewrite filter_cons. destruct (Z.eqb_spec (r_id q) rid) as [<-|Hne].
  - rewrite decide_False by tauto. rewrite <- IH by done. clear IH.
    symmetry. induction l as [|q' l IH]; cbn; [done|]. cbn in Hn, Hq.
    apply list.NoDup_cons in Hn as [_ Hn]. apply not_elem_of_cons in Hq as [Hq1 Hq].
    rewrite (proj2 (Z.eqb_neq (r_id q') (r_id q))) by congruence. f_equal. by apply IH.
  - rewrite decide_True by done. f_equal. by apply IH.
Qed.

Lemma sorted_filter (P : io_range -> Prop) `{forall r, Decision (P r)} l :
  Sorted by_addr l -> Sorted by_addr (filter P l).
Proof.
  intros Hs. apply StronglySorted_Sorted. apply Sorted_StronglySorted in Hs;
    [|intros a b c; unfold by_addr; lia].
  induction Hs as [|q l Hs IH Hf]; cbn; [constructor|]. case_decide; [|done].
  constructor; [done|]. apply list.Forall_forall. intros x Hx.
  rewrite list.Forall_forall in Hf. apply Hf. by apply list_elem_of_filter in Hx as [_ ?].
Qed.

Lemma io_ok_log e s : io_ok s -> io_ok (log e s).
Proof. done. Qed.

Lemma add_io_range_ok mbase size name flags ops usr s :
  io_ok s -> next_id s + 1 < 2 ^ 31 -> io_ok (add_io_range mbase size name flags ops usr s).2.
Proof.
  intros Hok Hn. pose proof Hok as (Hnd & Hid & Hr & Hp & Hs).
  unfold add_io_range. case_match; [done|]. cbn [snd].
  match goal with |- io_ok (if _ then log _ ?t else _) => assert (Ht : io_ok t) end;
    [|by case_match].
  repeat split; cbn [root sroot next_id].
  - cbn [map r_id]. apply list.NoDup_cons. split; [|done]. intros Hin.
    apply list_elem_of_fmap in Hin as (r & Er & Hin).
    rewrite list.Forall_forall in Hid. specialize (Hid r Hin). lia.
  - apply list.Forall_cons. cbn [r_id]. rewrite s32_small by lia. split; [lia|].
    eapply list.Forall_impl; [exact Hid|]. intros r. cbn. lia.
  - rewrite s32_small; lia.
  - rewrite s32_small; lia.
  - by rewrite <- sinsert_perm, <- Hp.
  - by apply sinsert_sorted.
Qed.

Lemma remove_io_range_ok rid s : io_ok s -> io_ok (remove_io_range rid s).2.
Proof.
  intros Hok. pose proof Hok as (Hnd & Hid & Hr & Hp & Hs). unfold remove_io_range.
  destruct (list_find _ _) as [[n r]|]; [|done]. cbn [snd].
  assert (Hnd' : NoDup (map r_id (sroot s))) by (by rewrite <- Hp).
  repeat split; cbn [root sroot next_id log]; rewrite ?remove_first_filter by done.
  - eapply sublist_NoDup; [exact Hnd|]. apply fmap_sublist, sublist_filter.
  - apply list.Forall_forall. intros q Hq. apply list_elem_of_filter in Hq as [_ Hq].
    rewrite list.Forall_forall in Hid. by apply Hid.
  - lia.
  - lia.
  - by rewrite Hp.
  - by apply sorted_filter.
Qed.

(** Operations of the drivers. *)
Inductive io_op : Set :=
| OpAdd (mbase size : Z) (name : list Z) (flags : Z) (ops : option (option Z * option Z)) (usr : Z)
| OpRemove (rid : Z).

Definition io_do (s : io_state D) (o : io_op) : io_state D :=
  match o with
  | OpAdd mbase size name flags ops usr => (add_io_range mbase size name flags ops usr s).2
  | OpRemove rid => (remove_io_range rid s).2
  end.

Lemma io_do_next_id s o : next_id s <= next_id (io_do s o) <= next_id s + 1 \/
  next_id s + 1 = 2 ^ 31 \/ ~ (0 <= next_id s < 2 ^ 31).
Proof.
  destruct (decide (0 <= next_id s < 2 ^ 31)); [|tauto].
  destruct (decide (next_id s + 1 = 2 ^ 31)); [tauto|]. left.
  destruct o; cbn [io_do]; unfold add_io_range, remove_io_range.
  - case_match; [cbn; lia|]. cbn [snd]. case_match; cbn [next_id log]; rewrite s32_small; lia.
  - destruct (list_find _ _) as [[? ?]|]; cbn; lia.
Qed.

(** from [ioports_init] on, whatever ranges the drivers add and remove,
    the ids of the registered ranges are distinct, and the list sorted for
    output holds exactly the registered ranges in address order (as long as
    fewer than 2^31 - 1 ranges were added, so that [next_id] does not wrap). *)
Theorem io_run_ok ops d :
  Z.of_nat (length ops) < 2 ^ 31 - 2 ->
  let s0 := ioports_init (IoState [] [] 0 [] d) in
  io_ok (foldl io_do s0 ops).
Proof.
  intros Hlen s0.
  assert (H0 : io_ok s0 /\ next_id s0 + Z.of_nat (length ops) + 1 < 2 ^ 31).
  { change (next_id s0) with 1. split; [|lia]. split; [apply NoDup_singleton|].
    split; [apply list.Forall_singleton; change (next_id s0) with 1; cbn; lia|].
    split; [change (next_id s0) with 1; lia|]. split; [done|]. by repeat constructor. }
  clearbody s0. clear Hlen. destruct H0 as [H0 Hn]. revert s0 H0 Hn.
  induction ops as [|o ops IH]; intros s0 H0 Hn; [done|]. cbn [foldl length] in *.
  pose proof (io_do_next_id s0 o) as Hi. pose proof H0 as (_ & _ & Hr & _).
  apply IH; [|lia]. destruct o; cbn [io_do].
  - apply add_io_range_ok; [done|lia].
  - by apply remove_io_range_ok.
Qed.

Lemma get_range_add mbase size name flags ops usr s addr :
  tst mbase 7 || tst size 7 = false ->
  let r := IoRange (next_id s) mbase size flags (ops ≫= fst) (ops ≫= snd) usr name in
  get_range addr (add_io_range mbase size name flags ops usr s).2
  = if decide (range_hit addr r) then Some r else get_range addr s.
Proof.
  intros Ha r. unfold add_io_range. rewrite Ha. cbv zeta. cbn [snd]. fold r.
  assert (E : root (if size <=? 0x2000 then log (KAdd mbase size (next_id s))
      (IoState (r :: root s) (sinsert r (sroot s)) (s32 (next_id s + 1)) (events s) (devices s))
      else IoState (r :: root s) (sinsert r (sroot s)) (s32 (next_id s + 1)) (events s) (devices s))
    = r :: root s) by (by case_match).
  unfold get_range. rewrite E. cbn [list_find]. case_decide; [done|].
  destruct (list_find _ (root s)) as [[j q]|]; done.
Qed.

(** the range added last wins: after a successful [add_io_range], an
    access inside the new range is dispatched to its functions and every
    other access as before, and removing the range again restores the
    dispatch of all addresses. *)
Theorem add_remove_dispatch mbase size name flags ops usr s addr :
  io_ok s -> next_id s + 1 < 2 ^ 31 ->
  tst mbase 7 || tst size 7 = false ->
  let '(rid, s1) := add_io_range mbase size name flags ops usr s in
  let r := IoRange rid mbase size flags (ops ≫= fst) (ops ≫= snd) usr name in
  get_range addr s1 = (if decide (range_hit addr r) then Some r else get_range addr s) /\
  (remove_io_range rid s1).1 = 0 /\
  get_range addr (remove_io_range rid s1).2 = get_range addr s.
Proof.
  intros Hok Hn Ha. pose proof (get_range_add mbase size name flags ops usr s addr Ha) as Hg.
  destruct (add_io_range mbase size name flags ops usr s) as [rid s1] eqn:E.
  unfold add_io_range in E. rewrite Ha in E. injection E as <- Es. cbn [snd] in Hg.
  split; [exact Hg|].
  assert (Hroot : root s1 = IoRange (next_id s) mbase size flags (ops ≫= fst) (ops ≫= snd) usr name
                              :: root s) by (rewrite <- Es; by destruct (size <=? 0x2000)).
  unfold remove_io_range. rewrite Hroot. cbn [list_find]. rewrite decide_True by done.
  split; [done|]. unfold get_range. cbn [snd root log]. rewrite Hroot. cbn [remove_first r_id].
  by rewrite Z.eqb_refl.
Qed.

(** ** Memory access *)

(** [write_mem] followed by [read_mem] of the same width (1, 2 or 4
    bytes) returns the value, stores it most significant byte first and
    changes no other byte; an invalid width changes nothing and reads 0. *)
Theorem mem_roundtrip mem ptr v len :
  if valid_len len then
    0 <= v < 256 ^ len -> (ptr + Z.to_nat len <= length mem)%nat ->
    exists mem', write_mem mem ptr v len = Some mem' /\ read_mem mem' ptr len = Some v /\
      length mem' = length mem /\
      forall i, (i < ptr \/ ptr + Z.to_nat len <= i)%nat -> mem' !! i = mem !! i
  else write_mem mem ptr v len = Some mem /\ read_mem mem ptr len = Some 0.
Proof.
  unfold write_mem, read_mem. destruct (valid_len len) eqn:Hl; [|done]. intros Hv Hlen.
  assert (Hpos : 0 <= len)
    by (unfold valid_len in Hl; apply orb_prop in Hl as [Hl|Hl]; [apply orb_prop in Hl as [Hl|Hl]|];
        bool_hyps; lia).
  set (n := Z.to_nat len) in *. rewrite decide_True by lia. eexists. split; [done|].
  assert (Hp : length (take ptr mem) = ptr) by (rewrite length_take; lia).
  rewrite drop_app_length', take_app_length' by (by rewrite ?be_bytes_length).
  rewrite be_bytes_length, decide_True, be_bytes_value by (done || (unfold n; rewrite Z2Nat.id; done)).
  split; [done|]. split.
  - rewrite !length_app, be_bytes_length, Hp, length_drop. lia.
  - intros i [Hi|Hi].
    + rewrite lookup_app_l by lia. by apply lookup_take_lt.
    + rewrite lookup_app_r, lookup_app_r by (rewrite ?be_bytes_length, ?Hp; lia).
      rewrite be_bytes_length, Hp, lookup_drop. f_equal. lia.
Qed.

End Ioports.

(** A device with one register, for the concrete runs. *)
Definition reg_read (f addr len usr : Z) (d : Z) : Z * Z := (d, d).

Lemma io_run_ok_witness :
  @io_ok Z (foldl io_do (ioports_init (IoState [] [] 0 [] 0))
    [OpAdd 0xf3000000 0x40 [] 0 None 7; OpAdd 0xf2000000 0x20 [] 0 None 8; OpRemove 1]).
Proof.
  refine (io_run_ok [OpAdd 0xf3000000 0x40 [] 0 None 7; OpAdd 0xf2000000 0x20 [] 0 None 8;
                      OpRemove 1] 0 _).
  vm_compute. reflexivity.
Defined.

Lemma add_remove_dispatch_witness :
  let s := ioports_init (IoState [] [] 0 [] 0) in
  let s1 := (add_io_range 0xf3000000 0x40 [] 0 (Some (Some 1, None)) 7 s).2 in
  get_range 0xf3000008 s1 = Some (IoRange 1 0xf3000000 0x40 0 (Some 1) None 7 []) /\
  (mem_io_read reg_read true false false 0xf3000008 4 (set_devices 0x1234 s1)).1 = 0x1234 /\
  get_range 0xf3000008 (remove_io_range 1 s1).2 = get_range 0xf3000008 s.
Proof.
  pose (s := ioports_init (IoState (D := Z) [] [] 0 [] 0)).
  assert (Hok : io_ok s).
  { split; [apply NoDup_singleton|]. split; [apply list.Forall_singleton; vm_compute; split; congruence|].
    split; [vm_compute; split; congruence|]. split; [done|]. by repeat constructor. }
  pose proof (add_remove_dispatch 0xf3000000 0x40 [] 0 (Some (Some 1, None)) 7 s 0xf3000008
                Hok ltac:(vm_compute; reflexivity) ltac:(vm_compute; reflexivity))
    as (H1 & _ & H2).
  split; [exact H1|]. split; [vm_compute; reflexivity|exact H2].
Defined.

Lemma mem_roundtrip_witness :
  exists mem', write_mem [1; 2; 3; 4; 5; 6] 1 0xdeadbeef 4 = Some mem' /\
    read_mem mem' 1 4 = Some 0xdeadbeef /\ length mem' = 6%nat /\
    forall i, (i < 1 \/ 5 <= i)%nat -> mem' !! i = [1; 2; 3; 4; 5; 6] !! i.
Proof. apply (mem_roundtrip [1; 2; 3; 4; 5; 6] 1 0xdeadbeef 4); cbn; lia. Defined.

End Ioports.
