(* ===== verification/Nvram.v ===== *)
(** * NVRAM ([src/drivers/nvram.c])

    8K of bytes reached through one I/O range, or through a data port and an
    address port selecting a block of 32 bytes, by OSI calls and by the
    drivers, and kept in an image file.  [None] is an access outside of the
    array. *)

From S2P Require Import Prelude.

Module Nvram.

Definition NVRAM_SIZE : Z := 0x2000.
Definition PRAM_SIZE : Z := 0x100.
Definition PRAM_OFFS : Z := 0x1300.
Definition ADDR_PORT_SIZE : Z := 0x10.
Definition DATA_PORT_SIZE : Z := 0x200.

(** [struct nvram_state]; [two_ranges] tells whether [addr_range] is set. *)
Record nvram_state := NvramState {
  two_ranges : bool;
  addr_reg : Z;
  data : list Z
}.
Definition set_data (d : list Z) (s : nvram_state) : nvram_state :=
  NvramState (two_ranges s) (addr_reg s) d.

Definition addr_io_write (dat len : Z) (s : nvram_state) : nvram_state :=
  NvramState (two_ranges s) ((dat .>> ((len - 1) * 8)) .& 0xff) (data s).

Definition addr_io_read (len : Z) (s : nvram_state) : Z := addr_reg s .<< ((len - 1) * 8).

(** [ptr] relative to the base of the data range *)
Definition data_offs (ptr : Z) (s : nvram_state) : Z :=
  if two_ranges s then (ptr .>> 4) + (addr_reg s .<< 5) else ptr .>> 4.

Definition data_io_read (ptr len : Z) (s : nvram_state) : option Z :=
  let offs := data_offs ptr s in
  if NVRAM_SIZE <? offs then Some 0
  else b ← data s !! Z.to_nat offs; Some (b .<< ((len - 1) * 8)).

Definition data_io_write (ptr dat len : Z) (s : nvram_state) : option nvram_state :=
  let offs := data_offs ptr s in
  if NVRAM_SIZE <? offs then Some s
  else if decide (Z.to_nat offs < length (data s))%nat
  then Some (set_data (<[Z.to_nat offs := (dat .>> ((len - 1) * 8)) .& 0xff]> (data s)) s)
  else None.

(** ** Access by the drivers *)

(** The number of bytes [nvram_read] and [nvram_write] transfer. *)
Definition nvram_count (offs len : Z) : Z := if 0 <=? offs then Z.min (NVRAM_SIZE - offs) len else 0.

Definition nvram_write (offs : Z) (buf : list Z) (len : Z) (s : nvram_state) : Z * nvram_state :=
  let n := nvram_count offs len in
  (n, if 0 <? n
      then set_data (take (Z.to_nat offs) (data s) ++ take (Z.to_nat n) buf
                     ++ drop (Z.to_nat (offs + n)) (data s)) s
      else s).

Definition nvram_read (offs len : Z) (s : nvram_state) : Z * list Z :=
  let n := nvram_count offs len in
  (n, if 0 <? n then take (Z.to_nat n) (drop (Z.to_nat offs) (data s)) else []).

Definition nvram_size : Z := NVRAM_SIZE.

(** ** OSI calls *)

Definition offs_ok (offs : Z) : bool := (0 <=? offs) && (offs <? NVRAM_SIZE).

Definition osip_read_nvram_byte (offs : Z) (s : nvram_state) : option Z :=
  if offs_ok offs then data s !! Z.to_nat offs else Some 0.

Definition osip_write_nvram_byte (offs b : Z) (s : nvram_state) : nvram_state :=
  if offs_ok offs then set_data (<[Z.to_nat offs := b .& 0xff]> (data s)) s else s.

(** ** The image file: its bytes, [None] if it does not exist *)

(** 0 if the whole image was read. *)
Definition read_image (file : option (list Z)) (s : nvram_state) : Z * nvram_state :=
  match file with
  | None => (1, s)
  | Some f =>
      let got := take (Z.to_nat NVRAM_SIZE) f in
      (if decide (length got = Z.to_nat NVRAM_SIZE) then 0 else 1,
       set_data (got ++ drop (length got) (data s)) s)
  end.

(** [lseek] beyond the end leaves a hole of zeros. *)
Definition write_image (file : option (list Z)) (start len : nat) (s : nvram_state) : list Z :=
  let f := default [] file in
  let f := f ++ replicate (start - length f) 0 in
  take start f ++ take len (drop start (data s)) ++ drop (start + len) f.

(** ** Debugger commands *)

Definition zap (start len : nat) (s : nvram_state) : nvram_state :=
  set_data (take start (data s) ++ replicate len 0 ++ drop (start + len) (data s)) s.
Definition cmd_fix_pram := zap (Z.to_nat 0x1000) (Z.to_nat 0x300).
Definition cmd_nvramzap := zap 0 (Z.to_nat NVRAM_SIZE).

(** ** Init and cleanup *)

(** The state and the image file after [nvram_init]; [bars] is the number of
    ranges of the device node, [image] the image file (outer [None]: no image
    is used), [saved] the saved session. *)
Definition nvram_init (bars : Z) (image : option (option (list Z))) (saved : option (list Z)) :
    option (nvram_state * option (list Z)) :=
  if (bars =? 0) || (bars =? 1) || (bars =? 2) then
    let s := NvramState (bars =? 2) 0 (replicate (Z.to_nat NVRAM_SIZE) 0) in
    let '(s, file) :=
      match image with
      | None => (s, None)
      | Some file =>
          let '(err, s) := read_image file s in
          (s, if err =? 0 then file else Some (write_image file 0 (Z.to_nat NVRAM_SIZE) s))
      end in
    Some (match saved with Some d => set_data d s | None => s end, file)
  else None.

(** The image file after [nvram_cleanup]. *)
Definition nvram_cleanup (oldworld : bool) (file : option (list Z)) (s : nvram_state) : list Z :=
  if oldworld
  then write_image (Some (write_image file (Z.to_nat PRAM_OFFS) (Z.to_nat PRAM_SIZE) s)) (Z.to_nat 0x1400) (Z.to_nat 0xc00) s
  else write_image file 0 (Z.to_nat NVRAM_SIZE) s.

(** ** Properties *)

Definition nvram_ok (s : nvram_state) : Prop :=
  length (data s) = Z.to_nat NVRAM_SIZE /\ 0 <= addr_reg s < 256.

Lemma data_offs_two ptr s :
  nvram_ok s -> two_ranges s = true -> 0 <= ptr < DATA_PORT_SIZE ->
  data_offs ptr s = 32 * addr_reg s + ptr / 16 /\ 0 <= data_offs ptr s < NVRAM_SIZE.
Proof.
  intros [_ Ha] Ht Hp. unfold data_offs, DATA_PORT_SIZE, NVRAM_SIZE in *. rewrite Ht.
  rewrite Z.shiftr_div_pow2, Z.shiftl_mul_pow2 by lia.
  change (2 ^ 4) with 16. change (2 ^ 5) with 32.
  Z.to_euclidean_division_equations. lia.
Qed.

Lemma byte_mask b : 0 <= b < 256 -> b .& 0xff = b.
Proof. intros. change 0xff with (2 ^ 8 - 1). rewrite land_ones_mod by lia. by apply Z.mod_small. Qed.

(** with the address port, every byte of the NVRAM can be reached and
    none outside of it: writing [a / 32] to the address port and a byte to
    offset [16 * (a mod 32)] of the data port stores it at address [a],
    where both the data port and the OSI call read it back; all other bytes
    are unchanged. *)
Theorem nvram_port_roundtrip a b s :
  nvram_ok s -> two_ranges s = true -> 0 <= a < NVRAM_SIZE -> 0 <= b < 256 ->
  exists s', data_io_write (16 * (a mod 32)) b 1 (addr_io_write (a / 32) 1 s) = Some s' /\
    nvram_ok s' /\
    data_io_read (16 * (a mod 32)) 1 s' = Some b /\
    osip_read_nvram_byte a s' = Some b /\
    forall i, i <> Z.to_nat a -> data s' !! i = data s !! i.
Proof.
  intros Hok Ht Ha Hb. unfold NVRAM_SIZE in Ha.
  set (s1 := addr_io_write (a / 32) 1 s).
  assert (Hr : addr_reg s1 = a / 32).
  { cbn. rewrite Z.shiftr_0_r. apply byte_mask. Z.to_euclidean_division_equations. lia. }
  assert (Hok1 : nvram_ok s1).
  { split; [apply Hok|]. rewrite Hr. Z.to_euclidean_division_equations. lia. }
  assert (Hoff : forall s2, addr_reg s2 = a / 32 -> two_ranges s2 = true -> nvram_ok s2 ->
    data_offs (16 * (a mod 32)) s2 = a).
  { intros s2 E2 Ht2 Hok2. destruct (data_offs_two (16 * (a mod 32)) s2 Hok2 Ht2) as [-> _].
    - unfold DATA_PORT_SIZE. Z.to_euclidean_division_equations. lia.
    - rewrite E2. replace (16 * (a mod 32) / 16) with (a mod 32)
        by (rewrite (Z.mul_comm 16 (a mod 32)), Z.div_mul by lia; done).
      symmetry. apply Z.div_mod. lia. }
  pose proof (proj1 Hok1) as Hlen. unfold NVRAM_SIZE in Hlen.
  unfold data_io_write. rewrite Hoff by done. unfold NVRAM_SIZE.
  rewrite (proj2 (Z.ltb_ge _ _)) by lia. rewrite decide_True by lia.
  eexists. split; [done|]. rewrite Z.shiftr_0_r, byte_mask by done.
  set (s2 := set_data _ s1).
  assert (Hok2 : nvram_ok s2)
    by (split; [unfold s2, set_data; cbn [data]; rewrite length_insert; apply Hok1|apply Hok1]).
  assert (Hd : data s2 !! Z.to_nat a = Some b)
    by (unfold s2, set_data; cbn [data]; apply list_lookup_insert_eq; lia).
  split; [done|]. split; [|split].
  - unfold data_io_read. rewrite Hoff by done. unfold NVRAM_SIZE.
    rewrite (proj2 (Z.ltb_ge _ _)) by lia. rewrite Hd. cbn. by rewrite Z.shiftl_0_r.
  - unfold osip_read_nvram_byte, offs_ok, NVRAM_SIZE.
    rewrite (proj2 (Z.leb_le _ _)), (proj2 (Z.ltb_lt _ _)) by lia. done.
  - intros i Hi. unfold s2, set_data. cbn [data]. by rewrite list_lookup_insert_ne.
Qed.

Definition nvram_fresh : nvram_state := NvramState true 0 (replicate (Z.to_nat NVRAM_SIZE) 0).

Lemma nvram_port_roundtrip_witness :
  exists s', data_io_write (16 * (0x1309 mod 32)) 0xab 1 (addr_io_write (0x1309 / 32) 1 nvram_fresh)
             = Some s' /\ nvram_ok s' /\ data_io_read (16 * (0x1309 mod 32)) 1 s' = Some 0xab /\
    osip_read_nvram_byte 0x1309 s' = Some 0xab /\
    forall i, i <> Z.to_nat 0x1309 -> data s' !! i = data nvram_fresh !! i.
Proof.
  apply (nvram_port_roundtrip 0x1309 0xab nvram_fresh).
  - split; [apply length_replicate|]. cbn. lia.
  - reflexivity.
  - unfold NVRAM_SIZE. lia.
  - lia.
Defined.

(** the bounds check of the data port is off by one: in the
    configuration with a single range, the access to offset NVRAM_SIZE
    itself passes the check and goes one byte beyond the array, for reads
    and writes; all smaller offsets are inside. *)
Theorem nvram_check_off_by_one s v :
  nvram_ok s -> two_ranges s = false ->
  data_io_read (NVRAM_SIZE .<< 4) 1 s = None /\ data_io_write (NVRAM_SIZE .<< 4) v 1 s = None /\
  forall ptr, 0 <= ptr < NVRAM_SIZE .<< 4 ->
    is_Some (data_io_read ptr 1 s) /\ is_Some (data_io_write ptr v 1 s).
Proof.
  intros [Hl _] Ht. unfold NVRAM_SIZE in Hl.
  assert (Ho : forall p, data_offs p s = p / 16)
    by (intros p; unfold data_offs; rewrite Ht, Z.shiftr_div_pow2 by lia; done).
  unfold data_io_read, data_io_write. rewrite Ho.
  change (NVRAM_SIZE .<< 4) with 131072. change (131072 / 16) with 8192. unfold NVRAM_SIZE.
  cbn [Z.ltb Z.compare]. rewrite lookup_ge_None_2 by lia. rewrite decide_False by lia.
  split; [done|]. split; [done|]. intros ptr Hp. rewrite Ho.
  assert (0 <= ptr / 16 < 8192) by (Z.to_euclidean_division_equations; lia).
  rewrite (proj2 (Z.ltb_ge _ _)) by lia.
  destruct (lookup_lt_is_Some_2 (data s) (Z.to_nat (ptr / 16)) ltac:(lia)) as [b ->].
  rewrite decide_True by lia. cbn. split; by eexists.
Qed.

Lemma nvram_check_off_by_one_witness :
  data_io_read 0x20000 1 (NvramState false 0 (replicate (Z.to_nat NVRAM_SIZE) 0)) = None.
Proof.
  apply (nvram_check_off_by_one (NvramState false 0 (replicate (Z.to_nat NVRAM_SIZE) 0)) 0); [|reflexivity].
  split; [apply length_replicate|]. cbn. lia.
Defined.

Lemma write_image_full file s :
  nvram_ok s ->
  write_image file 0 (Z.to_nat NVRAM_SIZE) s = data s ++ drop (Z.to_nat NVRAM_SIZE) (default [] file).
Proof.
  intros [Hl _]. unfold write_image.
  rewrite take_0, drop_0, (take_ge (data s)) by lia.
  change (0 - length (default [] file))%nat with 0%nat. by rewrite app_nil_r.
Qed.

(** the NVRAM survives a restart: what [nvram_cleanup] writes to the
    image file, [nvram_init] reads back byte for byte, whatever the file
    held before (also when it did not exist or was longer). *)
Theorem nvram_image_roundtrip bars file s :
  nvram_ok s -> bars = 1 \/ bars = 2 ->
  exists s', nvram_init bars (Some (Some (nvram_cleanup false file s))) None
             = Some (s', Some (nvram_cleanup false file s))
    /\ data s' = data s /\ nvram_ok s'.
Proof.
  intros Hok Hb. pose proof Hok as [Hl _].
  unfold nvram_cleanup. rewrite write_image_full by done. unfold nvram_init.
  assert (Hbars : (bars =? 0) || (bars =? 1) || (bars =? 2) = true)
    by (destruct Hb as [-> | ->]; done).
  rewrite Hbars. unfold read_image.
  assert (Ht : take (Z.to_nat NVRAM_SIZE) (data s ++ drop (Z.to_nat NVRAM_SIZE) (default [] file)) = data s)
    by (rewrite take_app_le, take_ge by lia; done).
  rewrite Ht. rewrite decide_True by done. cbn [Z.eqb].
  eexists. split; [done|]. cbn [data set_data]. rewrite Hl.
  rewrite drop_ge, app_nil_r by (rewrite length_replicate; lia).
  split; [done|]. split; cbn; [done|lia].
Qed.

Lemma nvram_image_roundtrip_witness :
  exists s', nvram_init 1 (Some (Some (nvram_cleanup false None nvram_fresh))) None
             = Some (s', Some (nvram_cleanup false None nvram_fresh))
    /\ data s' = data nvram_fresh /\ nvram_ok s'.
Proof.
  apply (nvram_image_roundtrip 1 None nvram_fresh); [|by left].
  split; [apply length_replicate|]. cbn. lia.
Defined.

End Nvram.
