(* ===== verification/Adb.v ===== *)
(** * Apple Desktop Bus ([src/drivers/adb.c])

    The mouse and the keyboard as ADB devices: events of the host are queued
    in the devices, and the CUDA polls or addresses them. *)

From S2P Require Import Prelude.

Module Adb.

Definition ADB_PACKET : Z := 0.
Definition ADB_KEYBOARD : Z := 2.
Definition ADB_MOUSE : Z := 3.
Definition ADB_READREG (id reg : Z) : Z := 0xc + reg + (id .<< 4).
Definition kButton1 : Z := 1.
Definition kButton2 : Z := 2.
Definition kButtonMask : Z := 7.
Definition KEY_BUF_SIZE : Z := 16.
Definition KEY_BUF_MASK : Z := 15.

(** [struct mouse_status] *)
Record mouse_status := MouseStatus { buttons : Z; ms_dx : Z; ms_dy : Z; dirty : bool }.
(** [struct kbd_status] *)
Record kbd_status := KbdStatus { buf : list Z; buf_bot : Z; buf_top : Z }.

(** [ad->usr] with the functions that go with it *)
Inductive adb_usr : Set := UMouse (ms : mouse_status) | UKbd (ks : kbd_status).

(** [struct adb_device] *)
Record adb_device := AdbDevice {
  id : Z; orig_id : Z; service_req_enable : bool; service_req : bool;
  usr : adb_usr; handler_id : Z
}.
Definition set_id (v : Z) (d : adb_device) : adb_device :=
  AdbDevice v (orig_id d) (service_req_enable d) (service_req d) (usr d) (handler_id d).
Definition set_service_req_enable (v : bool) (d : adb_device) : adb_device :=
  AdbDevice (id d) (orig_id d) v (service_req d) (usr d) (handler_id d).

(** The statics, and what was sent to the CUDA: reply packets and service
    requests. *)
Record adb_state := AdbState {
  root : list adb_device;
  kbd : option nat;       (** index in [root] *)
  mouse : option nat;
  stop_input : bool;
  replies : list (list Z);   (** last first *)
  service_requests : Z
}.
Definition set_root (l : list adb_device) (s : adb_state) : adb_state :=
  AdbState l (kbd s) (mouse s) (stop_input s) (replies s) (service_requests s).
Definition reply (p : list Z) (s : adb_state) : adb_state :=
  AdbState (root s) (kbd s) (mouse s) (stop_input s) (p :: replies s) (service_requests s).
Definition adb_service_request (s : adb_state) : adb_state :=
  AdbState (root s) (kbd s) (mouse s) (stop_input s) (replies s) (service_requests s + 1).

(** ** Mouse *)

Definition clip (d : Z) : Z := if 63 <? d then 63 else if d <? -64 then -64 else d.

(** [mouse_byte_t]: the button is the most significant bit *)
Definition mouse_byte (delta : Z) (button : bool) : Z :=
  (if button then 0x80 else 0) .| (delta mod 128).

Definition header (d : adb_device) (reg : Z) : list Z := [ADB_PACKET; 0x40; ADB_READREG (id d) reg].

(** The device afterwards and the packet, empty for the length 0. *)
Definition mouse_read_reg (ms : mouse_status) (d : adb_device) (reg : Z) : adb_device * list Z :=
  let upd := fun req ms => AdbDevice (id d) (orig_id d) (service_req_enable d) req (UMouse ms)
                             (handler_id d) in
  if reg =? 0 then
    if negb (dirty ms) then (upd false ms, [])
    else
      let dx := clip (ms_dx ms) in
      let dy := clip (ms_dy ms) in
      let pkt := header d reg ++
        [mouse_byte dy (tst (buttons ms) kButton1); mouse_byte dx (tst (buttons ms) kButton2)] in
      let dx' := ms_dx ms - dx in
      let dy' := ms_dy ms - dy in
      if (dx' =? 0) && (dy' =? 0)
      then (upd false (MouseStatus (buttons ms) dx' dy' false), pkt)
      else (upd (service_req d) (MouseStatus (buttons ms) dx' dy' (dirty ms)), pkt)
  else (d, header d reg ++ [0]).

(** ** Keyboard *)

(** One turn of [for(i=3; i<=4; i++ )]: the byte and the queue. *)
Definition kbd_pop (ks : kbd_status) : option (Z * kbd_status) :=
  if negb (buf_bot ks =? buf_top ks) then
    b ← buf ks !! Z.to_nat (buf_bot ks);
    Some (b, KbdStatus (buf ks) ((buf_bot ks + 1) .& KEY_BUF_MASK) (buf_top ks))
  else Some (0xff, ks).

Definition kbd_read_reg (ks : kbd_status) (d : adb_device) (reg : Z) :
    option (adb_device * list Z) :=
  if reg =? 0 then
    r1 ← kbd_pop ks;
    r2 ← kbd_pop r1.2;
    let ks' := r2.2 in
    let req := if buf_bot ks' =? buf_top ks' then false else service_req d in
    Some (AdbDevice (id d) (orig_id d) (service_req_enable d) req (UKbd ks') (handler_id d),
          if negb (r1.1 =? 0xff) then header d reg ++ [r1.1; r2.1] else [])
  else if reg =? 2 then Some (d, header d reg ++ [0xff; 0xff])
  else Some (d, header d reg).

(** [ad->read_reg_fp] *)
Definition read_reg (d : adb_device) (reg : Z) : option (adb_device * list Z) :=
  match usr d with
  | UMouse ms => Some (mouse_read_reg ms d reg)
  | UKbd ks => kbd_read_reg ks d reg
  end.

(** Neither device changes state on a register write. *)
Definition write_reg (d : adb_device) (reg : Z) (dat : list Z) : adb_device := d.

Section Adb.
(** [cuda_autopolls()], [mac_video_initialized()] *)
Context (cuda_autopolls mac_video_initialized : bool).

Definition notify (s : adb_state) : adb_state :=
  if cuda_autopolls && negb (stop_input s) then adb_service_request s else s.

Definition adb_mouse_event (dx dy buts : Z) (s : adb_state) : option adb_state :=
  match mouse s with
  | None => Some s
  | Some i =>
      d ← root s !! i;
      match usr d with
      | UMouse ms =>
          let ms' := MouseStatus (Z.lnot buts .& kButtonMask) (s32 (ms_dx ms + dx))
                       (s32 (ms_dy ms + dy)) true in
          Some (notify (set_root (<[i := AdbDevice (id d) (orig_id d) (service_req_enable d) true
                                           (UMouse ms') (handler_id d)]> (root s)) s))
      | UKbd _ => None
      end
  end.

(** Queue one key: the result and the device. *)
Definition queue_key (key : Z) (ks : kbd_status) (d : adb_device) : Z * adb_device :=
  if ((buf_top ks - buf_bot ks) .& KEY_BUF_MASK) + 1 <? KEY_BUF_SIZE then
    let ks' := KbdStatus (<[Z.to_nat (buf_top ks) := key]> (buf ks)) (buf_bot ks)
                 ((buf_top ks + 1) .& KEY_BUF_MASK) in
    (0, AdbDevice (id d) (orig_id d) (service_req_enable d) true (UKbd ks') (handler_id d))
  else (-1, d).

(** [adb_key( key, 0 )] *)
Definition adb_key0 (key : Z) (s : adb_state) : option (Z * adb_state) :=
  match kbd s with
  | Some i =>
      if negb mac_video_initialized then Some (-1, s) else
      if key =? 0xff then Some (-1, s) else
      d ← root s !! i;
      match usr d with
      | UKbd ks => let '(ret, d') := queue_key key ks d in
                   Some (ret, notify (set_root (<[i := d']> (root s)) s))
      | UMouse _ => None
      end
  | None => Some (-1, s)
  end.

Definition adb_key (key raw : Z) (s : adb_state) : option (Z * adb_state) :=
  match kbd s with
  | Some _ =>
      if negb mac_video_initialized then Some (-1, s) else
      if key =? 0xff then Some (-1, s) else
      s ← (if ((key .& 0x7f) =? 0x7f) && negb (raw =? 0)
           then r ← adb_key0 key s; Some r.2 else Some s);
      adb_key0 key s
  | None => Some (-1, s)
  end.

(** ** Generic ADB implementation *)

Definition register_adb_device (did : Z) (u : adb_usr) (handler : Z) (s : adb_state) : adb_state :=
  AdbState (AdbDevice did did false false u handler :: root s) (S <$> kbd s) (S <$> mouse s)
    (stop_input s) (replies s) (service_requests s).

Definition find_adb_device (did : Z) (l : list adb_device) : option nat :=
  fst <$> list_find (fun d => id d = did) l.

(** The loop over the devices, [i] being the index of the first one of [l]. *)
Fixpoint poll_from (l : list adb_device) (i : nat) (s : adb_state) : option adb_state :=
  match l with
  | [] => Some s
  | d :: l' =>
      if service_req d then
        r ← read_reg d 0;
        let s := set_root (<[i := r.1]> (root s)) s in
        match r.2 with
        | [] => poll_from l' (S i) s
        | p => Some (reply p s)
        end
      else poll_from l' (S i) s
  end.

Definition adb_poll (s : adb_state) : option adb_state := poll_from (root s) 0 s.

Definition adb_mes_avail (s : adb_state) : bool := existsb service_req (root s).

(** [while(p) { p->id = new; p = find_adb_device( old ) }] *)
Fixpoint rename_all (fuel : nat) (i : nat) (old new : Z) (l : list adb_device) :
    option (list adb_device) :=
  match fuel with
  | O => None
  | S f =>
      let l := alter (set_id new) i l in
      match find_adb_device old l with
      | None => Some l
      | Some j => rename_all f j old new l
      end
  end.

(** Register 3 of device [i] (with two bytes of data [b0], [b1]). *)
Definition write_reg3 (i : nat) (did b0 b1 : Z) (l : list adb_device) :
    option (list adb_device) :=
  let new := b0 .& 0xf in
  let l := alter (set_service_req_enable (tst b0 0x20)) i l in
  if (b1 =? 0xff) || (b1 =? 0xfd) then Some l
  else if b1 =? 0xfe then Some (alter (set_id new) i l)
  else if b1 =? 0 then
    d ← l !! i;
    l ← (if negb (id d =? new) then rename_all (S (length l)) i did new l else Some l);
    Some (alter (set_id new) i l)
  else Some l.

(** [rnd] is the value of [random()]. *)
Definition adb_packet (cmd : Z) (dat : list Z) (rnd : Z) (s : adb_state) : option adb_state :=
  let did := (cmd .>> 4) .& 0xf in
  let reg := cmd .& 0x3 in
  let out := fun s => Some (reply [ADB_PACKET; 0x40; cmd] s) in
  if (cmd .& 0xf) =? 0 then out s else
  match find_adb_device did (root s) with
  | None => out s
  | Some i =>
      d ← root s !! i;
      if (cmd .& 0xf) =? 1 then out s
      else if (cmd .& 0xc) =? 0xc then
        match dat with
        | _ :: _ => out s
        | [] =>
            if reg =? 3 then
              let b1 := (if service_req_enable d then 0x60 else 0x40) .| (rnd mod 0xf) in
              Some (reply [ADB_PACKET; if negb (orig_id d =? ADB_KEYBOARD) then 0x40 else 0;
                           cmd; b1; handler_id d] s)
            else
              r ← read_reg d reg;
              Some (reply r.2 (set_root (<[i := r.1]> (root s)) s))
        end
      else if tst cmd 0x8 then
        if reg =? 3 then
          match dat with
          | [b0; b1] =>
              r ← write_reg3 i did b0 b1 (root s);
              out (set_root r s)
          | _ => out s
          end
        else out (set_root (<[i := write_reg d reg dat]> (root s)) s)
      else out s
  end.

(** ** Init and cleanup *)

Definition prepare_save (s : adb_state) : adb_state :=
  AdbState (root s) (kbd s) (mouse s) true (replies s) (service_requests s).

(** [keyboard_id] is the resource of that name, -1 if it is not given. *)
Definition kbd_init (keyboard_id : Z) (s : adb_state) : adb_state :=
  let s := register_adb_device ADB_KEYBOARD (UKbd (KbdStatus (replicate 16 0) 0 0))
             (if keyboard_id =? -1 then 2 else keyboard_id) s in
  AdbState (root s) (Some 0%nat) (mouse s) (stop_input s) (replies s) (service_requests s).

Definition mouse_init (s : adb_state) : adb_state :=
  let s := register_adb_device ADB_MOUSE (UMouse (MouseStatus 0 0 0 false)) 3 s in
  AdbState (root s) (kbd s) (Some 0%nat) (stop_input s) (replies s) (service_requests s).

Definition adb_init (keyboard_id : Z) (s : adb_state) : adb_state :=
  mouse_init (kbd_init keyboard_id s).

End Adb.
(** ** The key queue

    The ring buffer of the keyboard, as the list of the keys waiting. *)
Definition kbd_ok (ks : kbd_status) : Prop :=
  length (buf ks) = 16%nat /\ 0 <= buf_bot ks < 16 /\ 0 <= buf_top ks < 16.

Definition queue_len (ks : kbd_status) : Z := (buf_top ks - buf_bot ks) mod 16.

Definition ring_at (ks : kbd_status) (n : nat) : Z :=
  nth (Z.to_nat ((buf_bot ks + Z.of_nat n) mod 16)) (buf ks) 0.

Definition queue (ks : kbd_status) : list Z := map (ring_at ks) (seq 0 (Z.to_nat (queue_len ks))).

Lemma key_mask z : z .& KEY_BUF_MASK = z mod 16.
Proof. change KEY_BUF_MASK with (2 ^ 4 - 1). rewrite land_ones_mod by lia. done. Qed.

Lemma queue_nil ks : kbd_ok ks -> queue ks = [] <-> buf_bot ks = buf_top ks.
Proof.
  intros (Hl & Hb & Ht). unfold queue, queue_len. split.
  - destruct (Z.to_nat ((buf_top ks - buf_bot ks) mod 16)) eqn:E; [|done]. intros _.
    Z.to_euclidean_division_equations. lia.
  - intros ->. by rewrite Z.sub_diag.
Qed.

Lemma queue_len_queue ks : Z.of_nat (length (queue ks)) = queue_len ks.
Proof.
  unfold queue. rewrite length_map, length_seq.
  pose proof (Z.mod_pos_bound (buf_top ks - buf_bot ks) 16 ltac:(lia)). unfold queue_len. lia.
Qed.

(** Popping takes the oldest key. *)
Lemma kbd_pop_cons ks k q : kbd_ok ks -> queue ks = k :: q ->
  exists ks', kbd_pop ks = Some (k, ks') /\ kbd_ok ks' /\ queue ks' = q.
Proof.
  intros Hok Hq. pose proof Hok as (Hl & Hb & Ht). unfold kbd_pop.
  assert (Hne : buf_bot ks <> buf_top ks) by (rewrite <- queue_nil, Hq by done; done).
  rewrite (proj2 (Z.eqb_neq _ _) Hne). cbn [negb].
  pose proof (queue_len_queue ks) as Hlen. rewrite Hq in Hlen. cbn [length] in Hlen.
  unfold queue in Hq. rewrite <- Hlen, Nat2Z.id in Hq. cbn [seq map] in Hq.
  injection Hq as Hk Hq.
  destruct (lookup_lt_is_Some_2 (buf ks) (Z.to_nat (buf_bot ks)) ltac:(lia)) as [b Eb].
  rewrite Eb. cbn [mbind option_bind].
  exists (KbdStatus (buf ks) ((buf_bot ks + 1) mod 16) (buf_top ks)). rewrite key_mask.
  assert (Hok' : kbd_ok (KbdStatus (buf ks) ((buf_bot ks + 1) mod 16) (buf_top ks))).
  { repeat split; cbn; try lia; apply Z.mod_pos_bound; lia. }
  split; [|split; [done|]].
  - do 3 f_equal. rewrite <- Hk. unfold ring_at. rewrite Z.add_0_r, Z.mod_small by lia.
    symmetry. by apply nth_lookup_Some.
  - rewrite <- Hq. unfold queue, queue_len. cbn [buf_top buf_bot].
    replace (Z.to_nat _) with (length q); [|unfold queue_len in Hlen;
      Z.to_euclidean_division_equations; lia].
    rewrite <- (seq_shift (length q) 0), map_map. apply map_ext. intros n. unfold ring_at.
    cbn [buf_bot buf]. f_equal. f_equal. rewrite Zplus_mod_idemp_l. f_equal. lia.
Qed.

Lemma kbd_pop_nil ks : kbd_ok ks -> queue ks = [] -> kbd_pop ks = Some (0xff, ks).
Proof.
  intros Hok Hq. apply queue_nil in Hq; [|done]. unfold kbd_pop. by rewrite Hq, Z.eqb_refl.
Qed.

(** Queueing appends the key, unless 15 keys are waiting. *)
Lemma queue_key_spec key ks d :
  kbd_ok ks ->
  if decide (queue_len ks < 15) then
    exists ks', queue_key key ks d =
      (0, AdbDevice (id d) (orig_id d) (service_req_enable d) true (UKbd ks') (handler_id d))
    /\ kbd_ok ks' /\ queue ks' = queue ks ++ [key]
  else queue_key key ks d = (-1, d).
Proof.
  intros (Hl & Hb & Ht). unfold queue_key. rewrite key_mask.
  change (((buf_top ks - buf_bot ks) mod 16)) with (queue_len ks).
  destruct (decide (queue_len ks < 15)) as [Hlt|Hge].
  - rewrite (proj2 (Z.ltb_lt _ _)) by (unfold KEY_BUF_SIZE; lia). rewrite key_mask.
    eexists. split; [done|]. split.
    { repeat split; cbn; rewrite ?length_insert; try lia; apply Z.mod_pos_bound; lia. }
    pose proof (Z.mod_pos_bound (buf_top ks - buf_bot ks) 16 ltac:(lia)).
    unfold queue. unfold queue_len at 1. cbn [buf_top buf_bot].
    rewrite Zminus_mod_idemp_l.
    replace (Z.to_nat ((buf_top ks + 1 - buf_bot ks) mod 16)) with (S (Z.to_nat (queue_len ks)));
      [|unfold queue_len in *; Z.to_euclidean_division_equations; lia].
    rewrite seq_S, map_app. cbn [map]. f_equal.
    + apply map_ext_in. intros n Hn%in_seq. unfold ring_at. cbn [buf_bot buf].
      rewrite !nth_lookup. rewrite list_lookup_insert_ne; [done|].
      unfold queue_len in *. Z.to_euclidean_division_equations. lia.
    + f_equal. unfold ring_at. cbn [buf_bot buf]. rewrite nth_lookup.
      replace (Z.to_nat ((buf_bot ks + Z.of_nat (0 + Z.to_nat (queue_len ks))) mod 16))
        with (Z.to_nat (buf_top ks));
        [|unfold queue_len in *; Z.to_euclidean_division_equations; lia].
      rewrite list_lookup_insert_eq by lia. done.
  - rewrite (proj2 (Z.ltb_ge _ _)); [done|]. unfold KEY_BUF_SIZE. lia.
Qed.

Lemma queue_key_take key ks d :
  kbd_ok ks -> usr d = UKbd ks -> (length (queue ks) <= 15)%nat ->
  exists d' ks', queue_key key ks d = (if decide (queue_len ks < 15) then 0 else -1, d')
    /\ usr d' = UKbd ks' /\ kbd_ok ks' /\ queue ks' = take 15 (queue ks ++ [key]).
Proof.
  intros Hok Hu Hlen. pose proof (queue_len_queue ks) as Hq.
  pose proof (queue_key_spec key ks d Hok) as Hs. case_decide as Hd.
  - destruct Hs as (ks' & E & Hok' & Hq'). eexists _, ks'. split; [exact E|].
    split; [done|]. split; [done|]. rewrite take_ge; [done|]. rewrite length_app. cbn. lia.
  - exists d, ks. split; [done|]. split; [done|]. split; [done|].
    rewrite take_app_le, take_ge by lia. done.
Qed.

Lemma queue_short ks : (length (queue ks) <= 15)%nat.
Proof.
  pose proof (queue_len_queue ks). unfold queue_len in *.
  pose proof (Z.mod_pos_bound (buf_top ks - buf_bot ks) 16 ltac:(lia)). lia.
Qed.

(** The keyboard of a state. *)
Definition has_kbd (s : adb_state) (i : nat) (ks : kbd_status) : Prop :=
  kbd s = Some i /\ kbd_ok ks /\ exists d, root s !! i = Some d /\ usr d = UKbd ks.

Lemma notify_root ap s : root (notify ap s) = root s /\ kbd (notify ap s) = kbd s.
Proof. unfold notify. by case_match. Qed.

Lemma adb_key0_queue ap key s i ks :
  has_kbd s i ks -> key <> 0xff ->
  exists s' ks', adb_key0 ap true key s = Some (if decide (queue_len ks < 15) then 0 else -1, s')
    /\ has_kbd s' i ks' /\ queue ks' = take 15 (queue ks ++ [key])
    /\ (forall j, j <> i -> root s' !! j = root s !! j).
Proof.
  intros (Hk & Hok & d & Hd & Hu) Hkey. unfold adb_key0. rewrite Hk. cbn [negb].
  rewrite (proj2 (Z.eqb_neq _ _) Hkey), Hd. cbn [mbind option_bind]. rewrite Hu.
  destruct (queue_key_take key ks d Hok Hu (queue_short ks)) as (d' & ks' & -> & Hu' & Hok' & Hq).
  eexists _, ks'. split; [done|].
  destruct (notify_root ap (set_root (<[i:=d']> (root s)) s)) as [Er Ek].
  split; [|split; [done|]].
  - split; [by rewrite Ek|]. split; [done|]. exists d'. rewrite Er. cbn [root set_root].
    split; [|done]. apply list_lookup_insert_eq. by eapply lookup_lt_Some.
  - intros j Hj. rewrite Er. cbn [root set_root]. by apply list_lookup_insert_ne.
Qed.

(** [adb_key] queues the key at the end of the keyboard queue, twice for
    the start button (0x7f) when [raw] is set, drops what does not fit into
    the 15 places, reports success exactly when everything was queued, and
    touches no other device; 0xff is never queued. *)
Theorem adb_key_queue ap key raw s i ks :
  has_kbd s i ks ->
  let n := if ((key .& 0x7f) =? 0x7f) && negb (raw =? 0) then 2%nat else 1%nat in
  if decide (key = 0xff) then adb_key ap true key raw s = Some (-1, s)
  else exists s' ks',
    adb_key ap true key raw s
      = Some (if decide (length (queue ks) + n <= 15)%nat then 0 else -1, s') /\
    has_kbd s' i ks' /\ queue ks' = take 15 (queue ks ++ replicate n key) /\
    forall j, j <> i -> root s' !! j = root s !! j.
Proof.
  intros Hs n. pose proof Hs as (Hk & Hok & _). unfold adb_key. rewrite Hk. cbn [negb].
  case_decide as Hkey; [by subst key|]. rewrite (proj2 (Z.eqb_neq _ _) Hkey).
  pose proof (queue_len_queue ks) as Hql. unfold n. case_match.
  - destruct (adb_key0_queue ap key s i ks Hs Hkey) as (s1 & ks1 & E1 & Hs1 & Hq1 & Ho1).
    destruct (adb_key0_queue ap key s1 i ks1 Hs1 Hkey) as (s2 & ks2 & E2 & Hs2 & Hq2 & Ho2).
    rewrite E1. cbn [mbind option_bind snd]. rewrite E2.
    pose proof (queue_len_queue ks1) as Hql1. pose proof (queue_short ks).
    rewrite Hq1, length_take, length_app in Hql1. cbn [length] in Hql1.
    exists s2, ks2. split; [|split; [done|split]].
    + do 2 f_equal. apply decide_ext. lia.
    + rewrite Hq2, Hq1. cbn [replicate].
      destruct (decide (length (queue ks) <= 14)%nat).
      * rewrite (take_ge (queue ks ++ [key])) by (rewrite length_app; cbn; lia).
        by rewrite <- app_assoc.
      * rewrite (take_app_le (queue ks) [key]), (take_app_le (queue ks) [key; key]) by lia.
        rewrite (take_ge (queue ks)) by lia. rewrite take_app_le, take_ge by lia. done.
    + intros j Hj. by rewrite Ho2, Ho1.
  - destruct (adb_key0_queue ap key s i ks Hs Hkey) as (s1 & ks1 & E1 & Hs1 & Hq1 & Ho1).
    cbn [mbind option_bind]. exists s1, ks1. split; [|split; [done|split; [exact Hq1|exact Ho1]]].
    rewrite E1. do 2 f_equal. apply decide_ext. lia.
Qed.

(** The state after [adb_init], for the concrete runs. *)
Definition adb_start : adb_state := adb_init (-1) (AdbState [] None None false [] 0).

Lemma adb_key_queue_witness :
  exists s' ks', adb_key true true 0x7f 1 adb_start = Some (0, s') /\
    has_kbd s' 1 ks' /\ queue ks' = [0x7f; 0x7f] /\
    forall j, j <> 1%nat -> root s' !! j = root adb_start !! j.
Proof.
  refine (adb_key_queue true 0x7f 1 adb_start 1 (KbdStatus (replicate 16 0) 0 0) _).
  split; [reflexivity|]. split; [vm_compute; repeat split; congruence|].
  eexists; split; reflexivity.
Defined.

(** reading register 0 of the keyboard delivers the oldest one or two
    keys of the queue, in order, padded with 0xff, removes exactly them, and
    drops the service request when nothing is left; with an empty queue no
    packet is returned. *)
Theorem kbd_read_reg_fifo ks d :
  kbd_ok ks -> Forall (fun k => k <> 0xff) (queue ks) ->
  exists ks',
    kbd_read_reg ks d 0 = Some
      (AdbDevice (id d) (orig_id d) (service_req_enable d)
         (service_req d && bool_decide (queue ks' <> [])) (UKbd ks') (handler_id d),
       match queue ks with
       | [] => []
       | [k] => [ADB_PACKET; 0x40; ADB_READREG (id d) 0; k; 0xff]
       | k1 :: k2 :: _ => [ADB_PACKET; 0x40; ADB_READREG (id d) 0; k1; k2]
       end)
    /\ kbd_ok ks' /\ queue ks' = drop 2 (queue ks).
Proof.
  intros Hok Hk. unfold kbd_read_reg. cbn [Z.eqb].
  assert (Hreq : forall ks', kbd_ok ks' ->
    (if buf_bot ks' =? buf_top ks' then false else service_req d)
    = service_req d && bool_decide (queue ks' <> [])).
  { intros ks' Hok'. pose proof (queue_nil ks' Hok') as Hn.
    destruct (Z.eqb_spec (buf_bot ks') (buf_top ks')) as [E|E].
    - rewrite bool_decide_eq_false_2 by tauto. by rewrite andb_false_r.
    - rewrite bool_decide_eq_true_2 by tauto. by rewrite andb_true_r. }
  destruct (queue ks) as [|k1 q] eqn:Hq.
  - rewrite (kbd_pop_nil ks Hok Hq). mred. rewrite (kbd_pop_nil ks Hok Hq). mred.
    exists ks. rewrite Hreq by done. done.
  - destruct (kbd_pop_cons ks k1 q Hok Hq) as (ks1 & -> & Hok1 & Hq1). mred.
    apply list.Forall_cons in Hk as [Hk1 Hk]. rewrite (proj2 (Z.eqb_neq _ _) Hk1). cbn [negb].
    destruct q as [|k2 q].
    + rewrite (kbd_pop_nil ks1 Hok1 Hq1). mred. exists ks1. by rewrite Hreq.
    + destruct (kbd_pop_cons ks1 k2 q Hok1 Hq1) as (ks2 & -> & Hok2 & Hq2). mred.
      exists ks2. by rewrite Hreq by done.
Qed.

Lemma kbd_read_reg_fifo_witness :
  exists ks', kbd_read_reg (KbdStatus (<[0%nat := 5]> (<[15%nat := 7]> (<[14%nat := 9]> (replicate 16 0)))) 14 1)
      (AdbDevice 2 2 false true (UKbd (KbdStatus [] 0 0)) 2) 0
    = Some (AdbDevice 2 2 false true (UKbd ks') 2, [0; 0x40; 0x2c; 9; 7])
    /\ queue ks' = [5].
Proof.
  pose (ks := KbdStatus (<[0%nat := 5]> (<[15%nat := 7]> (<[14%nat := 9]> (replicate 16 0)))) 14 1).
  destruct (kbd_read_reg_fifo ks (AdbDevice 2 2 false true (UKbd (KbdStatus [] 0 0)) 2))
    as (ks' & E & _ & Hq).
  - vm_compute. repeat split; congruence.
  - vm_compute. repeat constructor; congruence.
  - exists ks'. rewrite Hq in E. split; [exact E|exact Hq].
Defined.

(** ** The mouse *)

(** What the guest reads from a byte of a mouse packet. *)
Definition byte_delta (b : Z) : Z := let v := b mod 128 in if v <? 64 then v else v - 128.
Definition byte_button (b : Z) : bool := tst b 0x80.

(** The guest reads register 0 until no packet is returned: the packets and
    the device. *)
Fixpoint mouse_drain (fuel : nat) (d : adb_device) : option (list (list Z) * adb_device) :=
  match fuel with
  | O => None
  | S f =>
      match usr d with
      | UMouse ms =>
          match mouse_read_reg ms d 0 with
          | (d', []) => Some ([], d')
          | (d', p) => r ← mouse_drain f d'; Some (p :: r.1, r.2)
          end
      | UKbd _ => None
      end
  end.

(** The motion in a packet: y in the fourth byte, x in the fifth. *)
Definition packet_dy (p : list Z) : Z := byte_delta (nth 3 p 0).
Definition packet_dx (p : list Z) : Z := byte_delta (nth 4 p 0).
Definition total (f : list Z -> Z) (l : list (list Z)) : Z := fold_right (fun p t => f p + t) 0 l.

Lemma mouse_byte_sum delta b : mouse_byte delta b = (if b then 128 else 0) + delta mod 128.
Proof.
  unfold mouse_byte. pose proof (Z.mod_pos_bound delta 128 ltac:(lia)) as H.
  assert (Hall : forallb (fun n => ((0x80 .| Z.of_nat n) =? 128 + Z.of_nat n))
    (seq 0 128) = true) by (vm_compute; reflexivity).
  rewrite forallb_forall in Hall. specialize (Hall (Z.to_nat (delta mod 128))).
  rewrite Z2Nat.id in Hall by lia. destruct b; [|done].
  apply Z.eqb_eq, Hall, in_seq. lia.
Qed.

Lemma byte_delta_mouse_byte delta b : -64 <= delta <= 63 -> byte_delta (mouse_byte delta b) = delta.
Proof.
  intros H. rewrite mouse_byte_sum. unfold byte_delta.
  replace (((if b then 128 else 0) + delta mod 128) mod 128) with (delta mod 128)
    by (destruct b; Z.to_euclidean_division_equations; lia).
  destruct (Z.ltb_spec (delta mod 128) 64); Z.to_euclidean_division_equations; lia.
Qed.

Lemma clip_spec d : -64 <= clip d <= 63 /\ (d = clip d \/ Z.abs (d - clip d) < Z.abs d)
  /\ Z.abs (d - clip d) <= Z.abs d.
Proof.
  unfold clip. destruct (Z.ltb_spec 63 d); [lia|]. destruct (Z.ltb_spec d (-64)); lia.
Qed.

Lemma mouse_drain_clean d ms f :
  usr d = UMouse ms -> dirty ms = false ->
  mouse_drain (S f) d = Some ([], AdbDevice (id d) (orig_id d) (service_req_enable d) false
                                    (UMouse ms) (handler_id d)).
Proof. intros Hu Hd. cbn. rewrite Hu. unfold mouse_read_reg. by rewrite Hd. Qed.

(** no mouse motion is lost or invented: however far the mouse was moved
    since the last poll, reading register 0 until no packet comes back
    terminates, the deltas the guest decodes add up to exactly the motion
    that was queued, and the mouse ends up clean and without a service
    request. *)
Theorem mouse_drain_total fuel d ms :
  usr d = UMouse ms -> dirty ms = true ->
  (Z.to_nat (Z.abs (ms_dx ms) + Z.abs (ms_dy ms)) + 1 < fuel)%nat ->
  exists pkts d', mouse_drain fuel d = Some (pkts, d') /\
    total packet_dx pkts = ms_dx ms /\ total packet_dy pkts = ms_dy ms /\
    service_req d' = false /\ usr d' = UMouse (MouseStatus (buttons ms) 0 0 false).
Proof.
  revert d ms. induction fuel as [|f IH]; intros d ms Hu Hd Hf; [lia|].
  cbn [mouse_drain]. rewrite Hu. unfold mouse_read_reg. cbn [Z.eqb]. rewrite Hd. cbn [negb].
  destruct (clip_spec (ms_dx ms)) as (Hx & Hx1 & Hx2).
  destruct (clip_spec (ms_dy ms)) as (Hy & Hy1 & Hy2). cbn [header app].
  destruct (_ && _) eqn:Hz; bool_hyps.
  - destruct f as [|f]; [lia|]. erewrite mouse_drain_clean; [|reflexivity|done]. mred.
    eexists _, _. split; [done|]. cbn [total fold_right fst snd].
    unfold packet_dx, packet_dy. cbn [nth]. rewrite !byte_delta_mouse_byte by done.
    split; [lia|]. split; [lia|]. split; [done|]. cbn. do 2 f_equal; lia.
  - assert (Hne : ms_dx ms - clip (ms_dx ms) <> 0 \/ ms_dy ms - clip (ms_dy ms) <> 0)
      by (apply andb_false_iff in Hz as [Hz|Hz]; bool_hyps; lia).
    edestruct (IH (AdbDevice (id d) (orig_id d) (service_req_enable d) (service_req d)
      (UMouse (MouseStatus (buttons ms) (ms_dx ms - clip (ms_dx ms)) (ms_dy ms - clip (ms_dy ms)) true))
      (handler_id d))) as (pkts & d' & E & Ex & Ey & Hr & Hu'); [reflexivity|done|cbn; lia|].
    rewrite E. mred. eexists _, d'. split; [done|]. cbn [total fold_right fst snd].
    unfold packet_dx at 1, packet_dy at 1. cbn [nth]. rewrite !byte_delta_mouse_byte by done.
    cbn in Ex, Ey. unfold total in Ex, Ey. rewrite Ex, Ey. split; [lia|]. split; [lia|]. done.
Qed.

Lemma mouse_drain_total_witness :
  exists pkts d', mouse_drain 400 (AdbDevice 3 3 false true (UMouse (MouseStatus 6 200 (-150) true)) 3)
      = Some (pkts, d')
    /\ total packet_dx pkts = 200 /\ total packet_dy pkts = -150
    /\ service_req d' = false /\ usr d' = UMouse (MouseStatus 6 0 0 false).
Proof.
  apply (mouse_drain_total 400 _ (MouseStatus 6 200 (-150) true)); [reflexivity..|].
  cbn [ms_dx ms_dy]. lia.
Defined.

(** ** Changing the addresses of the devices *)

Definition rename (old new : Z) (d : adb_device) : adb_device :=
  if id d =? old then set_id new d else d.

Lemma map_rename_alter old new i l d :
  old <> new -> l !! i = Some d -> id d = old ->
  map (rename old new) (alter (set_id new) i l) = map (rename old new) l.
Proof.
  intros Hne Hi Hd. apply list_eq. intros j. rewrite !list_lookup_fmap.
  destruct (decide (i = j)) as [<-|].
  - rewrite list_lookup_alter_eq, Hi. cbn. unfold rename at 1 2. cbn [id set_id].
    rewrite Hd, Z.eqb_refl. by rewrite (proj2 (Z.eqb_neq new old)) by congruence.
  - by rewrite list_lookup_alter_ne.
Qed.

Lemma map_rename_none old new l :
  find_adb_device old l = None -> map (rename old new) l = l.
Proof.
  unfold find_adb_device. intros H. apply fmap_None, list_find_None in H.
  rewrite <- (map_id l) at 2. apply map_ext_in. intros d Hd%list_elem_of_In. unfold rename.
  rewrite list.Forall_forall in H. specialize (H d Hd).
  by rewrite (proj2 (Z.eqb_neq _ _) H).
Qed.

(** The devices that still have the old address. *)
Definition olds (old : Z) (l : list adb_device) : nat := length (filter (fun d => id d = old) l).

Lemma olds_alter old new i l d :
  old <> new -> l !! i = Some d -> id d = old -> olds old l = S (olds old (alter (set_id new) i l)).
Proof.
  intros Hne. unfold olds. revert i. induction l as [|e l IH]; intros i Hi Hd; [done|].
  destruct i as [|i]; cbn in Hi.
  - injection Hi as ->. change (alter (set_id new) 0%nat (d :: l)) with (set_id new d :: l).
    rewrite !filter_cons, decide_True by done.
    rewrite decide_False by (cbn; congruence). done.
  - specialize (IH i Hi Hd).
    change (alter (set_id new) (S i) (e :: l)) with (e :: alter (set_id new) i l).
    rewrite !filter_cons. case_decide; cbn [length]; lia.
Qed.

Lemma rename_all_spec fuel i old new l d :
  old <> new -> l !! i = Some d -> id d = old -> (olds old l <= fuel)%nat ->
  rename_all fuel i old new l = Some (map (rename old new) l).
Proof.
  intros Hne. revert i l d. induction fuel as [|f IH]; intros i l d Hi Hd Hf.
  - pose proof (olds_alter old new i l d Hne Hi Hd). lia.
  - cbn [rename_all]. pose proof (olds_alter old new i l d Hne Hi Hd) as Ho.
    rewrite <- (map_rename_alter old new i l d Hne Hi Hd).
    destruct (find_adb_device old (alter (set_id new) i l)) as [j|] eqn:Ej.
    + unfold find_adb_device in Ej. apply fmap_Some in Ej as ([j' e] & Ej & ->).
      apply list_find_Some in Ej as (Hj & He & _). apply (IH j' _ e); [done|done|lia].
    + by rewrite (map_rename_none old new _ Ej).
Qed.

(** the ADB command that moves the devices of one address to another
    (Listen, register 3, second byte 0) terminates and gives exactly the
    devices that had the old address the new one, whatever their number;
    nothing but addresses and the enable bit of the device changes. *)
Theorem write_reg3_moves_all did b0 i d l :
  l !! i = Some d -> id d = did -> (b0 .& 0xf) <> did ->
  write_reg3 i did b0 0 l
  = Some (map (rename did (b0 .& 0xf)) (alter (set_service_req_enable (tst b0 0x20)) i l)).
Proof.
  intros Hi Hd Hne. unfold write_reg3. cbn [Z.eqb orb].
  set (l1 := alter (set_service_req_enable _) i l).
  assert (H1 : l1 !! i = Some (set_service_req_enable (tst b0 0x20) d))
    by (unfold l1; rewrite list_lookup_alter_eq, Hi; done).
  rewrite H1. cbn [mbind option_bind id set_service_req_enable].
  rewrite (proj2 (Z.eqb_neq (id d) (b0 .& 0xf))) by congruence. cbn [negb].
  rewrite (rename_all_spec _ i did (b0 .& 0xf) l1 _ ltac:(congruence) H1 Hd)
    by (unfold olds; etrans; [apply length_filter|lia]).
  cbn [mbind option_bind]. f_equal. apply list_eq. intros j.
  destruct (decide (i = j)) as [<-|].
  - rewrite list_lookup_alter_eq, list_lookup_fmap, H1. cbn. unfold rename. cbn [id].
    cbn [set_service_req_enable id]. by rewrite Hd, Z.eqb_refl.
  - by rewrite list_lookup_alter_ne.
Qed.

Lemma write_reg3_moves_all_witness :
  option_map (map id) (write_reg3 0 3 0x25 0
    [AdbDevice 3 3 false false (UMouse (MouseStatus 0 0 0 false)) 3;
     AdbDevice 2 2 false false (UKbd (KbdStatus [] 0 0)) 2;
     AdbDevice 3 3 false false (UMouse (MouseStatus 0 0 0 false)) 3]) = Some [5; 2; 5].
Proof.
  rewrite (write_reg3_moves_all 3 0x25 0 (AdbDevice 3 3 false false (UMouse (MouseStatus 0 0 0 false)) 3));
    [reflexivity|reflexivity|reflexivity|vm_compute; congruence].
Defined.

End Adb.
