(* ===== verification/Actions.v ===== *)
(** * Assembly actions ([src/kmod/actions.c])

    When the kernel module is loaded, its low level assembly code is copied to
    contiguous memory and patched: addresses and special variables are filled
    into instructions, glue code is placed in free memory below 0x3000, and
    exception vectors and a kernel function are overwritten with branches to
    it.  The instructions overwritten are kept in a table, from which
    [cleanup_actions] restores them. *)

From S2P Require Import Prelude.

Module Actions.

(** ** State *)

Definition ACTION_LIS_SPECVAR_H : Z := 1.
Definition ACTION_ORI_SPECVAR_L : Z := 2.
Definition ACTION_LI_PHYS : Z := 3.
Definition ACTION_LWZ_PHYSADDR_R : Z := 4.
Definition ACTION_TOPHYS : Z := 5.
Definition ACTION_TOVIRT : Z := 6.
Definition ACTION_RELOCATE_LOW : Z := 7.
Definition ACTION_VRET : Z := 8.
Definition ACTION_FIX_SPRG2 : Z := 9.
Definition FLUSH_CACHE_ACTION : Z := 9.
Definition ACTION_HOOK_FUNCTION : Z := 10.
Definition ACTION_RELOC_HOOK : Z := 11.
Definition MAX_NUM_ACTIONS : nat := 12.
Definition SPECVAR_SESSION_TABLE : Z := 1.
Definition FHOOK_FLUSH_HASH_PAGE : Z := 1.

Record action_pb := ActionPb { pb_action : Z; pb_offs : Z; pb_params : list Z }.

Definition MAX_NUM_CLEANUP_HANDLERS : nat := 32.

Record cleanup_entry := CleanupEntry {
  lowmem_addr : Z; alloc_size : Z; alloc_method : Z;
  inst_addr : Z;           (** 0 for null *)
  ce_opcode : Z
}.

(** Kernel memory by words (unwritten memory reads as 0), the static
    variables, the memory given back and the ranges flushed from the
    instruction cache, latest first *)
Record astate := AState {
  amem : gmap Z Z;
  cleanup_table : list cleanup_entry;
  lowmem_phys_cursor : Z;
  lowmem_phys_base : Z;
  lowmem_virt_base : Z;
  lowmem_mapping : bool;
  code_base : Z;
  code_size : Z;
  reloc_virt_offs : Z;
  afreed : list Z;
  icache_flushed : list (Z * Z)
}.

Definition set_amem v s := AState v (cleanup_table s) (lowmem_phys_cursor s) (lowmem_phys_base s)
  (lowmem_virt_base s) (lowmem_mapping s) (code_base s) (code_size s) (reloc_virt_offs s) (afreed s) (icache_flushed s).
Definition set_table v s := AState (amem s) v (lowmem_phys_cursor s) (lowmem_phys_base s)
  (lowmem_virt_base s) (lowmem_mapping s) (code_base s) (code_size s) (reloc_virt_offs s) (afreed s) (icache_flushed s).
Definition set_cursor v s := AState (amem s) (cleanup_table s) v (lowmem_phys_base s)
  (lowmem_virt_base s) (lowmem_mapping s) (code_base s) (code_size s) (reloc_virt_offs s) (afreed s) (icache_flushed s).
Definition set_lowmem pb vb m s := AState (amem s) (cleanup_table s) (lowmem_phys_cursor s) pb
  vb m (code_base s) (code_size s) (reloc_virt_offs s) (afreed s) (icache_flushed s).
Definition set_code b n o s := AState (amem s) (cleanup_table s) (lowmem_phys_cursor s) (lowmem_phys_base s)
  (lowmem_virt_base s) (lowmem_mapping s) b n o (afreed s) (icache_flushed s).
Definition add_freed a s := AState (amem s) (cleanup_table s) (lowmem_phys_cursor s) (lowmem_phys_base s)
  (lowmem_virt_base s) (lowmem_mapping s) (code_base s) (code_size s) (reloc_virt_offs s) (a :: afreed s) (icache_flushed s).
Definition add_flush r s := AState (amem s) (cleanup_table s) (lowmem_phys_cursor s) (lowmem_phys_base s)
  (lowmem_virt_base s) (lowmem_mapping s) (code_base s) (code_size s) (reloc_virt_offs s) (afreed s) (r :: icache_flushed s).

Definition mword (s : astate) (a : Z) : Z := default 0 (amem s !! a).
Definition put_word (a v : Z) (s : astate) : astate := set_amem (<[a := u32 v]> (amem s)) s.
Definition flush_icache_mol (a b : Z) (s : astate) : astate := add_flush (a, b) s.

(** [memcpy] of instructions *)
Fixpoint copy_words (dst : Z) (l : list Z) (s : astate) : astate :=
  match l with
  | [] => s
  | w :: l' => copy_words (dst + 4) l' (put_word dst w s)
  end.
(** [memset( addr, 0, 4*n )] *)
Fixpoint zero_words (n : nat) (dst : Z) (s : astate) : astate :=
  match n with
  | O => s
  | S n' => zero_words n' (dst + 4) (put_word dst 0 s)
  end.

(** ** Opcodes *)

Definition OPCODE_ADDIS (dreg sreg hi_val : Z) : Z := (15 .<< 26) .| (dreg .<< 21) .| (sreg .<< 16) .| hi_val.
Definition OPCODE_LIS (dreg hi_val : Z) : Z := OPCODE_ADDIS dreg 0 hi_val.
Definition OPCODE_ORI (dreg sreg val : Z) : Z := (24 .<< 26) .| (dreg .<< 16) .| (sreg .<< 21) .| val.

(** The new opcode, [None] when the branch cannot be relocated *)
Definition relocate_inst (opcode from : Z) : option Z :=
  let offs := -1 in
  let offs := if (opcode .& 0xfc000003) =? (18 .<< 26)
              then (let o := opcode .& 0x03fffffc in
                    if tst o 0x03000000 then s32 (o .| not32 0x03ffffff) else o)
              else offs in
  let offs := if (opcode .& 0xfe800003) =? 0x42800000
              then (let o := opcode .& 0xfffc in
                    if tst o 0x8000 then s32 (o .| not32 0xffff) else o)
              else offs in
  if negb (offs =? -1) then
    let dest := s32 (from + offs) in
    if (dest <? 0) || (33554431 <? dest) then None
    else Some (((18 .<< 26) + 2) .| dest)
  else Some opcode.

(** ** Low memory *)

Definition lowmem_phys_to_virt (s : astate) (paddr : Z) : Z :=
  u32 (lowmem_virt_base s + (paddr - lowmem_phys_base s)).
Definition lowmem_tophys (s : astate) (vaddr : Z) : Z :=
  u32 (lowmem_phys_base s + (vaddr - lowmem_virt_base s)).

Definition align16 (a : Z) : Z := u32 (a + 0xf) .& not32 0xf.

(** The search for [size] bytes of zeroed words: the start found and the
    cursor *)
Fixpoint lowmem_search (fuel : nat) (s : astate) (size cursor pstart : Z) : option Z * Z :=
  match fuel with
  | O => (None, cursor)
  | S f =>
      if 0x3000 <=? cursor then (None, cursor) else
      let p := lowmem_phys_to_virt s cursor in
      if size <=? s32 (p - pstart) then (Some pstart, cursor) else
      lowmem_search f s size (cursor + 4)
        (if negb (mword s p =? 0) then align16 (p + 4) else pstart)
  end.

(** The address and the number of the cleanup entry, [None] for failure *)
Definition lowmem_alloc (size : Z) (s : astate) : option (Z * nat) * astate :=
  if decide (MAX_NUM_CLEANUP_HANDLERS <= length (cleanup_table s))%nat then (None, s) else
  let size := if size <? 0x10 then 0x10 else size in
  let pstart := align16 (lowmem_phys_to_virt s (lowmem_phys_cursor s)) in
  let '(r, cursor) := lowmem_search (S (Z.to_nat ((0x3003 - lowmem_phys_cursor s) / 4))) s size
                        (lowmem_phys_cursor s) pstart in
  let s := set_cursor cursor s in
  match r with
  | None => (None, s)
  | Some a =>
      (Some (a, length (cleanup_table s)),
       set_table (cleanup_table s ++ [CleanupEntry a size 0 0 0]) s)
  end.

Definition lowmem_free_all (s : astate) : astate :=
  let s := foldl (fun s ce => zero_words (Z.to_nat (alloc_size ce / 4)) (lowmem_addr ce) s)
                 s (cleanup_table s) in
  let s := set_table [] s in
  if lowmem_mapping s then set_lowmem (lowmem_phys_base s) (lowmem_virt_base s) false s else s.

(** Updating the entry [clean] points to *)
Definition upd_clean (n : nat) (f : cleanup_entry -> cleanup_entry) (s : astate) : astate :=
  set_table (alter f n (cleanup_table s)) s.
Definition set_ce_opcode v c := CleanupEntry (lowmem_addr c) (alloc_size c) (alloc_method c) (inst_addr c) v.
Definition set_inst_addr v c := CleanupEntry (lowmem_addr c) (alloc_size c) (alloc_method c) v (ce_opcode c).

(** ** The actions *)

Section Actions.
(** [tophys_mol] and [phys_to_virt] of the host; the entries of the actions
    section of the assembly code in the order of the offset table; the code
    itself, its address and its words; the addresses of [g_sesstab] and
    [compat_flush_hash_pages]; [__linux__] or Darwin, with its [mfspr 274] *)
Context (tophys_mol phys_to_virt : Z -> Z) (actions : list action_pb).
Context (r__reloctable_start : Z) (reloctable : list Z).
Context (g_sesstab compat_flush_hash_pages : Z) (linux : bool) (sprg2 : Z).

(** [if( p->action != action || index-- ) continue;] *)
Fixpoint find_action_from (l : list action_pb) (action : Z) (index : nat) : option action_pb :=
  match l with
  | [] => None
  | p :: l' =>
      if negb (pb_action p =? action) then find_action_from l' action index
      else match index with
           | O => Some p
           | S i => find_action_from l' action i
           end
  end.
Definition find_action (action : Z) (index : nat) : option action_pb := find_action_from actions action index.

(** [pb[i]] *)
Definition pbi (pb : list Z) (i : nat) : Z := default 0 (pb !! i).

Definition action_li_phys (target : Z) (pb : list Z) (s : astate) : Z * astate :=
  let r := pbi pb 0 .& 0x1f in
  let addr := u32 (pbi pb 1 + tophys_mol (code_base s)) in
  (0, put_word (target + 4) ((24 .<< 26) .| (r .<< 21) .| (r .<< 16) .| (addr .& 0xffff))
        (put_word target ((15 .<< 26) .| (r .<< 21) .| (addr .>> 16)) s)).

(** [short low = (addr & 0xffff)] *)
Definition short_low (addr : Z) : Z := let l := addr .& 0xffff in if l <? 0x8000 then l else l - 0x10000.

Definition action_lwz_physaddr_r (target : Z) (pb : list Z) (s : astate) : Z * astate :=
  let addr := u32 (pbi pb 1 + tophys_mol (code_base s)) in
  let dr := (pbi pb 0 .>> 5) .& 0x1f in
  let r := pbi pb 0 .& 0x1f in
  let low := short_low addr in
  (0, put_word (target + 4) ((32 .<< 26) .| (dr .<< 21) .| (dr .<< 16) .| (low .& 0xffff))
        (put_word target ((15 .<< 26) .| (dr .<< 21) .| (r .<< 16) .| (u32 (addr - low) .>> 16)) s)).

Definition action_specvar (action target : Z) (pb : list Z) (s : astate) : Z * astate :=
  let r := pbi pb 0 .& 0x1f in
  if negb (pbi pb 1 =? SPECVAR_SESSION_TABLE) then (1, s) else
  let addr := tophys_mol g_sesstab in
  if action =? ACTION_LIS_SPECVAR_H then
    (0, put_word target (OPCODE_LIS r ((addr .>> 16) .& 0xffff)) s)
  else if action =? ACTION_ORI_SPECVAR_L then
    let rD := (pbi pb 0 .>> 5) .& 0x1f in
    (0, put_word target (OPCODE_ORI rD r (addr .& 0xffff)) s)
  else (1, s).

Definition action_tophysvirt (action target : Z) (pb : list Z) (s : astate) : Z * astate :=
  let addr := tophys_mol 0 in
  let dr := (pbi pb 0 .>> 5) .& 0x1f in
  let sr := pbi pb 0 .& 0x1f in
  let addr := if action =? ACTION_TOVIRT then u32 (- addr) else addr in
  (0, put_word target (OPCODE_ADDIS dr sr ((addr .>> 16) .& 0xffff)) s).

(** The loop over the [ACTION_VRET] entries *)
Fixpoint vret_actions (fuel i : nat) (vector dest : Z) (s : astate) : astate :=
  match fuel with
  | O => s
  | S f =>
      match find_action ACTION_VRET i with
      | None => s
      | Some apb =>
          if negb (u32 (pbi (pb_params apb) 0) =? vector) then vret_actions f (S i) vector dest s else
          let target := code_base s + pb_offs apb in
          let s := put_word target (((18 .<< 26) + 2) .| lowmem_tophys s dest) s in
          vret_actions f (S i) vector dest (flush_icache_mol target (target + 4) s)
      end
  end.

(** [target[i] = (target[i] & ~0xffff) | v] *)
Definition patch_low (a v : Z) (s : astate) : astate :=
  put_word a ((mword s a .& not32 0xffff) .| v) s.

Definition action_reloc_hook (hookcode : Z) (pb : list Z) (s : astate) : Z * astate :=
  let vector := u32 (pbi pb 0) in
  let size := u32 (pbi pb 1) in
  let vret_offs := u32 (pbi pb 2) in
  let vector_virt := lowmem_phys_to_virt s vector in
  let addr := tophys_mol hookcode in
  let '(r, s) := lowmem_alloc (s32 size) s in
  match r with
  | None => (1, s)
  | Some (lowmem, clean) =>
      let s := copy_words lowmem (take (Z.to_nat (size / 4)) (drop 3 pb)) s in
      let s := vret_actions (S (length actions)) 0 vector (lowmem + vret_offs) s in
      let s := patch_low (lowmem + 4) (addr .>> 16) s in
      let s := patch_low (lowmem + 12) (addr .& 0xffff) s in
      let inst := mword s vector_virt in
      let s := upd_clean clean (set_ce_opcode inst) s in
      match relocate_inst inst vector with
      | None => (1, s)
      | Some inst =>
          let s := put_word (lowmem + vret_offs) inst s in
          let s := flush_icache_mol lowmem (lowmem + size) s in
          let s := put_word vector_virt (0x48000002 + lowmem_tophys s lowmem) s in
          let s := flush_icache_mol vector_virt (vector_virt + 4) s in
          (0, upd_clean clean (set_inst_addr vector_virt) s)
      end
  end.

Definition action_reloc_low (pb : list Z) (s : astate) : Z * astate :=
  let size := pbi pb 0 in
  let func_ptr := u32 (pbi pb 1) in
  let '(r, s) := lowmem_alloc size s in
  match r with
  | None => (1, s)
  | Some (lowmem, _) =>
      let s := copy_words lowmem (take (Z.to_nat (size / 4)) (drop 2 pb)) s in
      let s := flush_icache_mol lowmem (lowmem + size) s in
      (0, put_word func_ptr lowmem s)
  end.

Definition action_hook_function (hookcode : Z) (pb : list Z) (s : astate) : Z * astate :=
  let fhook := u32 (pbi pb 0) in
  let size := u32 (pbi pb 1) in
  let fret_offs := u32 (pbi pb 2) in
  if negb (linux && (fhook =? FHOOK_FLUSH_HASH_PAGE)) then (1, s) else
  let func_addr := compat_flush_hash_pages in
  let '(r, s) := lowmem_alloc (s32 size) s in
  match r with
  | None => (1, s)
  | Some (lowmem, clean) =>
      let s := copy_words lowmem (take (Z.to_nat (size / 4)) (drop 3 pb)) s in
      let s := patch_low (lowmem + 4) (hookcode .>> 16) s in
      let s := patch_low (lowmem + 8) (hookcode .& 0xffff) s in
      let inst := mword s func_addr in
      let s := upd_clean clean (set_ce_opcode inst) s in
      match relocate_inst inst func_addr with
      | None => (1, s)
      | Some inst =>
          let target := lowmem + fret_offs in
          let s := put_word target inst s in
          let s := put_word (target + 4)
            ((18 .<< 26) .| (u32 (func_addr - (target + 4) + 4) .& 0x03fffffc)) s in
          let s := flush_icache_mol lowmem (lowmem + size) s in
          let s := put_word func_addr ((18 .<< 26) .| (u32 (lowmem - func_addr) .& 0x03fffffc)) s in
          let s := flush_icache_mol func_addr (func_addr + 4) s in
          (0, upd_clean clean (set_inst_addr func_addr) s)
      end
  end.

(** Only Darwin needs it. *)
Definition action_fix_sprg2 (target : Z) (pb : list Z) (s : astate) : Z * astate :=
  if linux then (0, s) else
  let r := pbi pb 0 .& 0x1f in
  (0, put_word (target + 8) (0x7c1243a6 + (r .<< 21))
        (put_word (target + 4) (OPCODE_ORI r r (sprg2 .& 0xffff))
          (put_word target (OPCODE_LIS r ((sprg2 .>> 16) .& 0xffff)) s))).

(** [actiontable[action]], [None] for a null entry *)
Definition actiontable (action target : Z) (pb : list Z) (s : astate) : option (Z * astate) :=
  if action =? ACTION_LI_PHYS then Some (action_li_phys target pb s)
  else if action =? ACTION_LWZ_PHYSADDR_R then Some (action_lwz_physaddr_r target pb s)
  else if (action =? ACTION_TOPHYS) || (action =? ACTION_TOVIRT) then Some (action_tophysvirt action target pb s)
  else if action =? ACTION_RELOC_HOOK then Some (action_reloc_hook target pb s)
  else if action =? ACTION_RELOCATE_LOW then Some (action_reloc_low pb s)
  else if action =? ACTION_HOOK_FUNCTION then Some (action_hook_function target pb s)
  else if action =? ACTION_VRET then Some (0, s)
  else if action =? ACTION_FIX_SPRG2 then Some (action_fix_sprg2 target pb s)
  else if (action =? ACTION_LIS_SPECVAR_H) || (action =? ACTION_ORI_SPECVAR_L)
       then Some (action_specvar action target pb s)
  else None.

(** ** Writing and removing the hooks *)

(** [p] is the result of [kmalloc_cont_mol]. *)
Definition relocate_code (p : Z) (s : astate) : Z * astate :=
  let n := 4 * Z.of_nat (length reloctable) in
  if p =? 0 then (1, set_code p n (reloc_virt_offs s) s) else
  let s := copy_words p reloctable (set_code p n (reloc_virt_offs s) s) in
  (0, set_code p n (s32 (p - r__reloctable_start)) s).

Definition lowmem_initialize (s : astate) : astate :=
  if decide (cleanup_table s <> []) then s else
  set_lowmem 0x100 (phys_to_virt 0x100) true (set_cursor 0x100 s).

Definition cleanup_one (s : astate) (ce : cleanup_entry) : astate :=
  if inst_addr ce =? 0 then s else
  flush_icache_mol (inst_addr ce) (inst_addr ce + 4) (put_word (inst_addr ce) (ce_opcode ce) s).

Definition cleanup_actions (s : astate) : astate :=
  let s := foldl cleanup_one s (cleanup_table s) in
  let s := lowmem_free_all s in
  add_freed (code_base s) s.

(** [for( i=0; (pb=find_action(action,i)); i++ )]: the state and whether it
    went through without error *)
Fixpoint run_action (fuel i : nat) (action : Z) (s : astate) : bool * astate :=
  match fuel with
  | O => (true, s)
  | S f =>
      match find_action action i with
      | None => (true, s)
      | Some pb =>
          if code_size s <? u32 (pb_offs pb) then (false, s) else
          match actiontable action (code_base s + pb_offs pb) (pb_params pb) s with
          | None => (false, s)
          | Some (r, s) => if negb (r =? 0) then (false, s) else run_action f (S i) action s
          end
      end
  end.

Fixpoint run_actions (n : nat) (action : Z) (s : astate) : bool * astate :=
  match n with
  | O => (true, s)
  | S n' =>
      let '(ok, s) := run_action (S (length actions)) 0 action s in
      if ok then
        let s := if action =? FLUSH_CACHE_ACTION
                 then flush_icache_mol (code_base s) (code_base s + code_size s) s else s in
        run_actions n' (action + 1) s
      else (false, s)
  end.

Definition perform_actions (p : Z) (s : astate) : Z * astate :=
  let '(r, s) := relocate_code p s in
  if negb (r =? 0) then (1, s) else
  let s := lowmem_initialize s in
  let '(ok, s) := run_actions MAX_NUM_ACTIONS 0 s in
  if ok then (0, flush_icache_mol (code_base s) (code_base s + code_size s) s)
  else (1, cleanup_actions s).

End Actions.

End Actions.
