(* ===== verification/ActionsInv.v ===== *)
(** * Hooking the kernel and taking the hooks out again

    What [perform_actions] writes and [cleanup_actions] restores: apart from
    the copied code and the variables that receive the addresses of low
    memory routines, kernel memory is left as it was found. *)

From S2P Require Import Prelude Actions.

Module ActionsInv.
Import Actions.

(** ** Memory *)

Lemma mword_put s a v x : mword (put_word a v s) x = if decide (x = a) then u32 v else mword s x.
Proof.
  unfold mword, put_word. cbn [amem set_amem]. case_decide as E.
  - subst. by rewrite lookup_insert_eq.
  - by rewrite lookup_insert_ne.
Qed.

(** Everything but the memory and the flushed ranges *)
Definition astatic (s : astate) :=
  (cleanup_table s, lowmem_phys_cursor s, lowmem_phys_base s, lowmem_virt_base s, lowmem_mapping s,
   code_base s, code_size s, afreed s).

(** From [s] to [s'] only words satisfying [P] were written. *)
Definition wrote (P : Z -> Prop) (s s' : astate) : Prop :=
  astatic s' = astatic s /\ forall x, ~ P x -> mword s' x = mword s x.

Lemma wrote_refl P s : wrote P s s.
Proof. done. Qed.

Lemma wrote_trans P s1 s2 s3 : wrote P s1 s2 -> wrote P s2 s3 -> wrote P s1 s3.
Proof.
  intros [A1 A2] [B1 B2]. split; [congruence|]. intros x Hx. by rewrite B2, A2.
Qed.

Lemma wrote_weaken (P Q : Z -> Prop) s s' : wrote P s s' -> (forall x, P x -> Q x) -> wrote Q s s'.
Proof. intros [H1 H2] H. split; [done|]. intros x Hx. apply H2. auto. Qed.

Lemma wrote_put (P : Z -> Prop) s s' a v : wrote P s s' -> P a -> wrote P s (put_word a v s').
Proof.
  intros [H1 H2] Ha. split; [done|]. intros x Hx. rewrite mword_put, decide_False; [by apply H2|].
  by intros ->.
Qed.

Lemma wrote_flush P s s' a b : wrote P s s' -> wrote P s (flush_icache_mol a b s').
Proof. intros [H1 H2]. by split. Qed.

Lemma wrote_copy (P : Z -> Prop) s : forall l dst s',
  wrote P s s' -> (forall i, 0 <= i < Z.of_nat (length l) -> P (dst + 4 * i)) ->
  wrote P s (copy_words dst l s').
Proof.
  induction l as [|w l IH]; intros dst s' H HP; cbn [copy_words length] in *; [done|].
  apply IH.
  - apply wrote_put; [done|]. replace dst with (dst + 4 * 0) by lia. apply HP. lia.
  - intros i Hi. replace (dst + 4 + 4 * i) with (dst + 4 * (i + 1)) by lia. apply HP. lia.
Qed.

Lemma mword_zero x : forall n dst s,
  x mod 4 = 0 -> dst mod 4 = 0 ->
  mword (zero_words n dst s) x = if decide (dst <= x < dst + 4 * Z.of_nat n) then 0 else mword s x.
Proof.
  induction n as [|n IH]; intros dst s Hx Hd; cbn [zero_words].
  - by rewrite decide_False by lia.
  - rewrite IH, mword_put by (done || (Z.to_euclidean_division_equations; lia)).
    destruct (decide (x = dst)) as [->|Hn]; [by rewrite decide_False, decide_True by lia|].
    case_decide as H1; [by rewrite decide_True by lia|]. rewrite decide_False; [done|].
    Z.to_euclidean_division_equations. lia.
Qed.

Lemma astatic_zero : forall n dst s, astatic (zero_words n dst s) = astatic s.
Proof. induction n as [|n IH]; intros dst s; cbn [zero_words]; [done|]. by rewrite IH. Qed.

(** ** The search for low memory *)

(** The window of low memory: the virtual address of the physical address
    0x100 *)
Definition window_ok (s : astate) : Prop :=
  lowmem_phys_base s = 0x100 /\ lowmem_virt_base s mod 16 = 0 /\
  0 <= lowmem_virt_base s /\ lowmem_virt_base s + 0x4000 < 2 ^ 32.

Definition virt (s : astate) (c : Z) : Z := lowmem_virt_base s + (c - 0x100).

Lemma phys_to_virt_eq s c : window_ok s -> 0x100 <= c < 0x4000 -> lowmem_phys_to_virt s c = virt s c.
Proof. intros (H1 & H2 & H3 & H4) Hc. unfold lowmem_phys_to_virt, virt. rewrite H1. apply u32_small. lia. Qed.

Lemma align16_spec a : 0 <= a -> a + 0xf < 2 ^ 32 -> a <= align16 a < a + 16 /\ align16 a mod 16 = 0.
Proof.
  intros Ha Hb. unfold align16. rewrite u32_small by lia.
  change (not32 0xf) with (not32 (2 ^ 4 - 1)). rewrite land_align by lia. change (2 ^ 4) with 16.
  Z.to_euclidean_division_equations. lia.
Qed.

(** A block found is a zeroed, aligned range between the cursors. *)
Lemma lowmem_search_spec s size c0 : forall fuel c pstart r c',
  window_ok s -> c0 mod 4 = 0 -> c mod 4 = 0 -> 0x100 <= c0 <= c -> c <= 0x3003 ->
  virt s c0 <= pstart < virt s c + 16 -> pstart mod 16 = 0 -> 16 <= size < 2 ^ 31 ->
  (forall x, x mod 4 = 0 -> pstart <= x < virt s c -> mword s x = 0) ->
  lowmem_search fuel s size c pstart = (r, c') ->
  c <= c' <= 0x3003 /\ c' mod 4 = 0 /\
  match r with
  | Some a => a mod 16 = 0 /\ virt s c0 <= a /\ a + size <= virt s c' /\
      forall x, x mod 4 = 0 -> a <= x < a + size -> mword s x = 0
  | None => True
  end.
Proof.
  induction fuel as [|f IH]; intros c pstart r c' Hw Hc0 Hc Hcc Hcb Hp Hpa Hs Hz E; cbn [lowmem_search] in E.
  { injection E as <- <-. split; [lia|]. by split. }
  pose proof Hw as (W1 & W2 & W3 & W4).
  destruct (Z.leb_spec 0x3000 c) as [H3|H3]; [injection E as <- <-; split; [lia|]; by split|].
  rewrite phys_to_virt_eq in E by (done || lia). unfold virt in *.
  rewrite s32_small in E by lia.
  destruct (Z.leb_spec size (lowmem_virt_base s + (c - 0x100) - pstart)) as [Hf|Hf].
  - injection E as <- <-. split; [lia|]. split; [done|]. split; [done|]. split; [lia|]. split; [lia|].
    intros x Hx1 Hx2. apply Hz; [done|lia].
  - destruct (IH (c + 4) (if negb (mword s (lowmem_virt_base s + (c - 0x100)) =? 0)
      then align16 (lowmem_virt_base s + (c - 0x100) + 4) else pstart) r c') as (I1 & I2 & I3); try done.
    + Z.to_euclidean_division_equations. lia.
    + lia.
    + lia.
    + destruct (align16_spec (lowmem_virt_base s + (c - 0x100) + 4)) as [A1 A2]; [lia|lia|]. case_match; lia.
    + destruct (align16_spec (lowmem_virt_base s + (c - 0x100) + 4)) as [A1 A2]; [lia|lia|]. by case_match.
    + intros x Hx1 Hx2. destruct (align16_spec (lowmem_virt_base s + (c - 0x100) + 4)) as [A1 A2]; [lia|lia|].
      destruct (Z.eqb_spec (mword s (lowmem_virt_base s + (c - 0x100))) 0) as [H0|H0]; cbn [negb] in Hx2; [|lia].
      destruct (decide (x = lowmem_virt_base s + (c - 0x100))) as [->|Hn]; [done|]. apply Hz; [done|].
      Z.to_euclidean_division_equations. lia.
    + split; [lia|]. by split.
Qed.

(** ** The invariant *)

(** The word [x] is in the block of the entry. *)
Definition in_block (ce : cleanup_entry) (x : Z) : Prop :=
  lowmem_addr ce <= x < lowmem_addr ce + alloc_size ce.

#[export] Instance in_block_dec ce x : Decision (in_block ce x).
Proof. unfold in_block. apply _. Defined.

Section Inv.
(** The low memory window, the copied code, the variables that receive
    addresses, and the memory at the start *)
Context (V p n : Z) (funcs : list Z) (m0 : Z -> Z).

(** The words that are not restored *)
Definition lasting (x : Z) : Prop := p <= x < p + n \/ x ∈ funcs.

Context (HV : 0 < V) (HVm : V mod 16 = 0) (HVr : V + 0x4000 < 2 ^ 32).
Context (Hdis : forall x, V <= x < V + 0x3000 -> ~ lasting x).
Context (Hm0 : forall x, 0 <= m0 x < 2 ^ 32).

Record ent_ok (s : astate) (ce : cleanup_entry) : Prop := {
  eo_range : V <= lowmem_addr ce /\ lowmem_addr ce + alloc_size ce <= virt s (lowmem_phys_cursor s);
  eo_align : lowmem_addr ce mod 16 = 0 /\ alloc_size ce mod 4 = 0 /\ 16 <= alloc_size ce;
  eo_free x : x mod 4 = 0 -> in_block ce x -> m0 x = 0
}.

Record hook_ok (done : list Z) (s : astate) (ce : cleanup_entry) : Prop := {
  ho_done : inst_addr ce ∈ done;
  ho_align : inst_addr ce mod 4 = 0;
  ho_opcode : ce_opcode ce = m0 (inst_addr ce);
  ho_m0 : m0 (inst_addr ce) <> 0;
  ho_word : mword s (inst_addr ce) <> 0;
  ho_lasting : ~ lasting (inst_addr ce)
}.

Record inv (done : list Z) (s : astate) : Prop := {
  i_base : lowmem_phys_base s = 0x100 /\ lowmem_virt_base s = V /\ code_base s = p /\ code_size s = n;
  i_cursor : 0x100 <= lowmem_phys_cursor s <= 0x3003 /\ lowmem_phys_cursor s mod 4 = 0;
  i_ent ce : ce ∈ cleanup_table s -> ent_ok s ce;
  i_hook ce : ce ∈ cleanup_table s -> inst_addr ce <> 0 -> hook_ok done s ce;
  i_rest x : x mod 4 = 0 -> x <> 0 -> ~ lasting x ->
    (forall ce, ce ∈ cleanup_table s -> ~ in_block ce x /\ inst_addr ce <> x) -> mword s x = m0 x
}.

Lemma inv_window done s : inv done s -> window_ok s.
Proof. intros [(H1 & H2 & _) _ _ _ _]. unfold window_ok. rewrite H1, H2. repeat split; (done || lia). Qed.

Lemma virt_eq done s c : inv done s -> virt s c = V + (c - 0x100).
Proof. intros [(H1 & H2 & _) _ _ _ _]. unfold virt. by rewrite H2. Qed.

(** A hooked word is in no block. *)
Lemma hook_no_block done s ce ce' :
  inv done s -> ce ∈ cleanup_table s -> inst_addr ce <> 0 -> ce' ∈ cleanup_table s ->
  ~ in_block ce' (inst_addr ce).
Proof.
  intros Hi Hc Hn Hc' Hb. destruct (i_hook _ _ Hi ce Hc Hn) as [_ H2 _ H4 _ _]. apply H4.
  by apply (eo_free _ _ (i_ent _ _ Hi ce' Hc')).
Qed.

(** Writes to blocks and to what is not restored *)
Lemma inv_wrote done s s' P :
  inv done s -> wrote P s s' ->
  (forall x, P x -> lasting x \/ exists ce, ce ∈ cleanup_table s /\ in_block ce x) -> inv done s'.
Proof.
  intros Hi [Hst Hw] HP. unfold astatic in Hst.
  injection Hst as T1 T2 T3 T4 T5 T6 T7 T8.
  split; rewrite ?T1, ?T2, ?T3, ?T4, ?T6, ?T7; try apply Hi.
  - intros ce Hc. destruct (i_ent _ _ Hi ce Hc) as [E1 E2 E3]. split; [|done|done].
    unfold virt in *. by rewrite T2, T4.
  - intros ce Hc Hn. pose proof (i_hook _ _ Hi ce Hc Hn) as Hh. destruct Hh as [H1 H2 H3 H4 H5 H6].
    split; try done. rewrite Hw; [done|]. intros Hp. destruct (HP _ Hp) as [?|(ce' & Hc' & Hb)]; [done|].
    by apply (hook_no_block done s ce ce').
  - intros x Hx Hx0 Hl Hn. try rewrite T1 in Hn. rewrite Hw; [by apply (i_rest _ _ Hi x)|].
    intros Hp. destruct (HP _ Hp) as [?|(ce' & Hc' & Hb)]; [done|]. exact (proj1 (Hn ce' Hc') Hb).
Qed.

(** Allocation *)
Lemma alloc_inv done s size r s' :
  inv done s -> size < 2 ^ 31 -> size mod 4 = 0 -> lowmem_alloc size s = (r, s') ->
  inv done s' /\
  match r with
  | Some (a, k) => k = length (cleanup_table s) /\
      exists ce, ce = CleanupEntry a (if size <? 0x10 then 0x10 else size) 0 0 0 /\
        cleanup_table s' = cleanup_table s ++ [ce] /\ forall x, mword s' x = mword s x
  | None => True
  end.
Proof.
  intros Hi Hs Hsm. unfold lowmem_alloc. case_decide; [intros [= <- <-]; by split|].
  set (sz := if size <? 0x10 then 0x10 else size).
  assert (Hsz : 16 <= sz < 2 ^ 31 /\ sz mod 4 = 0) by (subst sz; destruct (Z.ltb_spec size 0x10); split; (lia || done)).
  destruct (i_cursor _ _ Hi) as [C1 C2]. pose proof (inv_window _ _ Hi) as Hw.
  destruct (i_base _ _ Hi) as (B1 & B2 & B3 & B4).
  rewrite phys_to_virt_eq by (done || lia).
  pose proof (virt_eq _ _ (lowmem_phys_cursor s) Hi) as Hvc.
  destruct (align16_spec (virt s (lowmem_phys_cursor s))) as [A1 A2]; [lia|lia|].
  destruct (lowmem_search _ s sz _ _) as [o c'] eqn:E.
  apply (lowmem_search_spec s sz (lowmem_phys_cursor s)) in E; try done; try lia.
  destruct E as (E1 & E2 & E3).
  assert (Hcur : inv done (set_cursor c' s)).
  { split; [apply Hi|cbn; lia| | |apply (i_rest _ _ Hi)].
    - intros ce Hc. destruct (i_ent _ _ Hi ce Hc) as [F1 F2 F3].
      split; [|done|done]. change (virt (set_cursor c' s) (lowmem_phys_cursor (set_cursor c' s))) with (virt s c').
      rewrite (virt_eq _ _ _ Hi) in *. lia.
    - intros ce Hc Hn. by destruct (i_hook _ _ Hi ce Hc Hn). }
  destruct o as [a|]; intros [= <- <-]; [|by split].
  destruct E3 as (G1 & G2 & G3 & G4). rewrite !(virt_eq _ _ _ Hi) in *.
  assert (Hold : forall ce x, ce ∈ cleanup_table s -> in_block ce x -> a <= x -> False).
  { intros ce x Hc Hb Hx. destruct (i_ent _ _ Hi ce Hc) as [F1 _ _]. rewrite (virt_eq _ _ _ Hi) in F1.
    unfold in_block in Hb. lia. }
  split; [|split; [done|]; by eexists].
  split; [apply Hcur|apply Hcur|..].
  - intros ce [Hc|Hc]%elem_of_app; [by destruct (i_ent _ _ Hcur ce Hc)|].
    apply list_elem_of_singleton in Hc as ->. split; cbn [lowmem_addr alloc_size].
    + change (virt (set_table _ (set_cursor c' s)) _) with (virt s c'). rewrite (virt_eq _ _ _ Hi). lia.
    + split; [done|]. lia.
    + intros x Hx Hb. unfold in_block in Hb. cbn in Hb. rewrite <- (i_rest _ _ Hi x); [by apply G4|done|lia|apply Hdis; lia|].
      intros ce Hc. split; [intros Hb'; apply (Hold ce x Hc Hb'); lia|].
      intros <-. destruct (decide (inst_addr ce = 0)) as [H0|H0]; [lia|].
      apply (ho_word _ _ _ (i_hook _ _ Hi ce Hc H0)). by apply G4.
  - intros ce [Hc|Hc]%elem_of_app Hn; [by destruct (i_hook _ _ Hi ce Hc Hn)|].
    by apply list_elem_of_singleton in Hc as ->.
  - intros x Hx Hx0 Hl Hce. apply (i_rest _ _ Hi); [done|done|done|]. intros ce Hc. apply Hce.
    apply elem_of_app. by left.
Qed.

(** Recording the word of a hook *)
Lemma upd_opcode_inv done s k ce v :
  inv done s -> cleanup_table s !! k = Some ce -> inst_addr ce = 0 ->
  inv done (upd_clean k (set_ce_opcode v) s) /\
  cleanup_table (upd_clean k (set_ce_opcode v) s) !! k = Some (set_ce_opcode v ce).
Proof.
  intros Hi Hk Hn. assert (Hin : ce ∈ cleanup_table s) by (by apply list_elem_of_lookup_2 in Hk).
  split; [|unfold upd_clean; cbn [cleanup_table set_table]; by rewrite list_lookup_alter_eq, Hk].
  assert (Hmem : forall ce', ce' ∈ alter (set_ce_opcode v) k (cleanup_table s) ->
    exists ce0, ce0 ∈ cleanup_table s /\ lowmem_addr ce' = lowmem_addr ce0 /\
      alloc_size ce' = alloc_size ce0 /\ inst_addr ce' = inst_addr ce0 /\ (inst_addr ce' <> 0 -> ce' = ce0)).
  { intros ce' [i Hi']%list_elem_of_lookup_1. destruct (decide (i = k)) as [->|Hne].
    - rewrite list_lookup_alter_eq, Hk in Hi'. injection Hi' as <-. exists ce. cbn. by split_and!.
    - rewrite list_lookup_alter_ne in Hi' by done. exists ce'. split_and!; try done.
      by apply list_elem_of_lookup_2 in Hi'. }
  split; [apply Hi|apply Hi|..]; cbn [cleanup_table upd_clean set_table].
  - intros ce' (ce0 & H0 & H1 & H2 & _)%Hmem. destruct (i_ent _ _ Hi ce0 H0) as [E1 E2 E3].
    split; rewrite ?H1, ?H2; try done. intros x Hx Hb. apply E3; [done|]. unfold in_block in *. by rewrite H1, H2 in Hb.
  - intros ce' (ce0 & H0 & _ & _ & _ & H3)%Hmem Hne. specialize (H3 Hne). subst ce'. by destruct (i_hook _ _ Hi ce0 H0 Hne).
  - intros x Hx Hx0 Hl Hce. apply (i_rest _ _ Hi); [done|done|done|]. intros ce0 [i H0]%list_elem_of_lookup_1.
    destruct (decide (i = k)) as [->|Hne].
    + assert (ce0 = ce) as -> by congruence. split; [|by rewrite Hn].
      refine (proj1 (Hce (set_ce_opcode v ce) _)). apply list_elem_of_lookup_2 with k.
      by rewrite list_lookup_alter_eq, Hk.
    + apply Hce. apply list_elem_of_lookup_2 with i. by rewrite list_lookup_alter_ne.
Qed.

(** The word about to be hooked is still the original one. *)
Lemma unhooked_word done s x :
  inv done s -> x mod 4 = 0 -> x <> 0 -> ~ lasting x -> m0 x <> 0 -> x ∉ done -> mword s x = m0 x.
Proof.
  intros Hi Hx Hx0 Hl Hm Hd. apply (i_rest _ _ Hi); [done|done|done|]. intros ce Hc. split.
  - intros Hb. apply Hm. by apply (eo_free _ _ (i_ent _ _ Hi ce Hc)).
  - intros <-. by apply Hd, (i_hook _ _ Hi ce Hc).
Qed.

(** Writing the branch and noting the hook *)
Lemma hook_inv done s k ce x v :
  inv done s -> cleanup_table s !! k = Some ce -> inst_addr ce = 0 -> ce_opcode ce = m0 x ->
  x mod 4 = 0 -> x <> 0 -> ~ lasting x -> m0 x <> 0 -> u32 v <> 0 ->
  inv (x :: done) (upd_clean k (set_inst_addr x) (flush_icache_mol x (x + 4) (put_word x v s))).
Proof.
  intros Hi Hk Hn Ho Hx Hx0 Hl Hm Hv.
  assert (Hin : ce ∈ cleanup_table s) by (by apply list_elem_of_lookup_2 in Hk).
  set (s' := upd_clean k _ _).
  assert (Hw : forall y, mword s' y = if decide (y = x) then u32 v else mword s y) by (intros y; apply mword_put).
  assert (Hmem : forall ce', ce' ∈ cleanup_table s' -> ce' = set_inst_addr x ce \/ ce' ∈ cleanup_table s).
  { intros ce' [i Hi']%list_elem_of_lookup_1. cbn in Hi'. destruct (decide (i = k)) as [->|Hne].
    - rewrite list_lookup_alter_eq, Hk in Hi'. injection Hi' as <-. by left.
    - rewrite list_lookup_alter_ne in Hi' by done. right. by apply list_elem_of_lookup_2 in Hi'. }
  split; [apply Hi|apply Hi|..].
  - intros ce' [->|Hc]%Hmem; [|by destruct (i_ent _ _ Hi ce' Hc)].
    by destruct (i_ent _ _ Hi ce Hin) as [E1 E2 E3].
  - intros ce' [->|Hc]%Hmem Hne.
    + split; cbn [inst_addr set_inst_addr ce_opcode]; try done; [left|]. by rewrite Hw, decide_True.
    + destruct (i_hook _ _ Hi ce' Hc Hne) as [H1 H2 H3 H4 H5 H6]. split; try done; [by right|].
      rewrite Hw. by case_decide.
  - intros y Hy Hy0 Hyl Hce. rewrite Hw. case_decide as Hyx.
    + exfalso. refine (proj2 (Hce (set_inst_addr x ce) _) _); [|by subst].
      apply list_elem_of_lookup_2 with k. cbn. by rewrite list_lookup_alter_eq, Hk.
    + apply (i_rest _ _ Hi); [done|done|done|]. intros ce0 [i H0]%list_elem_of_lookup_1.
      destruct (decide (i = k)) as [->|Hne].
      * assert (ce0 = ce) as -> by congruence. split; [|rewrite Hn; congruence].
        refine (proj1 (Hce (set_inst_addr x ce) _)). apply list_elem_of_lookup_2 with k. cbn. by rewrite list_lookup_alter_eq, Hk.
      * apply Hce. apply list_elem_of_lookup_2 with i. cbn. by rewrite list_lookup_alter_ne.
Qed.

(** ** Cleaning up *)

Lemma cleanup_one_word s ce x :
  mword (cleanup_one s ce) x = if decide (inst_addr ce <> 0 /\ x = inst_addr ce) then u32 (ce_opcode ce) else mword s x.
Proof.
  unfold cleanup_one. destruct (Z.eqb_spec (inst_addr ce) 0) as [H0|H0].
  - rewrite decide_False; [done|]. by intros [? _].
  - change (mword (put_word (inst_addr ce) (ce_opcode ce) s) x = if decide (inst_addr ce <> 0 /\ x = inst_addr ce)
      then u32 (ce_opcode ce) else mword s x). rewrite mword_put. by repeat case_decide; try tauto.
Qed.

Lemma cleanup_fold_word x v : forall l s,
  (forall ce, ce ∈ l -> inst_addr ce = x -> x <> 0 -> u32 (ce_opcode ce) = v) ->
  mword (foldl cleanup_one s l) x = if decide (x <> 0 /\ Exists (fun ce => inst_addr ce = x) l) then v else mword s x.
Proof.
  induction l as [|ce l IH]; intros s H; cbn [foldl].
  { rewrite decide_False; [done|]. intros [_ He]. by apply List.Exists_nil in He. }
  rewrite IH by (intros c Hc; apply H; by right). rewrite cleanup_one_word.
  destruct (decide (x <> 0 /\ Exists (fun ce => inst_addr ce = x) l)) as [[H1 H2]|Hn].
  - rewrite decide_True; [done|]. split; [done|]. by apply Exists_cons_tl.
  - case_decide as H1.
    + destruct H1 as [H1 ->]. rewrite decide_True; [by apply H; [left| |]|].
      split; [done|]. by apply Exists_cons_hd.
    + rewrite decide_False; [done|]. intros [H2 [H3|H3]%List.Exists_cons]; [apply H1; split; congruence|tauto].
Qed.

Lemma astatic_cleanup_fold : forall l s, astatic (foldl cleanup_one s l) = astatic s.
Proof.
  induction l as [|ce l IH]; intros s; cbn [foldl]; [done|]. rewrite IH. unfold cleanup_one. by case_match.
Qed.

Lemma zero_fold_word x : forall l s,
  x mod 4 = 0 -> (forall ce, ce ∈ l -> lowmem_addr ce mod 16 = 0 /\ alloc_size ce mod 4 = 0 /\ 16 <= alloc_size ce) ->
  mword (foldl (fun s ce => zero_words (Z.to_nat (alloc_size ce / 4)) (lowmem_addr ce) s) s l) x =
    if decide (Exists (fun ce => in_block ce x) l) then 0 else mword s x.
Proof.
  induction l as [|ce l IH]; intros s Hx Hl; cbn [foldl].
  { rewrite decide_False; [done|]. intros He. by apply List.Exists_nil in He. }
  rewrite IH by (try done; intros c Hc; apply Hl; by right).
  destruct (Hl ce ltac:(left)) as (A1 & A2 & A3).
  rewrite mword_zero by (done || (Z.to_euclidean_division_equations; lia)).
  rewrite Z2Nat.id by (Z.to_euclidean_division_equations; lia).
  replace (4 * (alloc_size ce / 4)) with (alloc_size ce) by (Z.to_euclidean_division_equations; lia).
  destruct (decide (Exists (fun ce => in_block ce x) l)) as [H1|Hn].
  - rewrite decide_True; [done|]. by apply Exists_cons_tl.
  - case_decide as H1.
    + rewrite decide_True; [done|]. by apply Exists_cons_hd.
    + rewrite decide_False; [done|]. intros [H2|H2]%List.Exists_cons; [done|tauto].
Qed.

(** [cleanup_actions] restores every word that is not lasting. *)
Lemma cleanup_restores done s x :
  inv done s -> x mod 4 = 0 -> x <> 0 -> ~ lasting x -> mword (cleanup_actions s) x = m0 x.
Proof.
  intros Hi Hx Hx0 Hl. unfold cleanup_actions, lowmem_free_all.
  set (s1 := foldl cleanup_one s (cleanup_table s)).
  assert (Ht : cleanup_table s1 = cleanup_table s).
  { pose proof (astatic_cleanup_fold (cleanup_table s) s) as E. unfold astatic in E. fold s1 in E. congruence. }
  rewrite Ht. set (s2 := foldl _ s1 _).
  assert (Hs2 : mword s2 x = m0 x).
  { unfold s2. rewrite zero_fold_word; [|done|intros ce Hc; apply (eo_align _ _ (i_ent _ _ Hi ce Hc))].
    case_decide as Hb.
    - apply list.Exists_exists in Hb as (ce & Hc & Hb). symmetry. by apply (eo_free _ _ (i_ent _ _ Hi ce Hc)).
    - unfold s1. rewrite (cleanup_fold_word x (m0 x)).
      + case_decide as He; [done|]. apply (i_rest _ _ Hi); [done|done|done|]. intros ce Hc. split.
        * intros Hbl. apply Hb. apply list.Exists_exists. by exists ce.
        * intros Hin. apply He. split; [done|]. apply list.Exists_exists. by exists ce.
      + intros ce Hc Hin _. rewrite (ho_opcode _ _ _ (i_hook _ _ Hi ce Hc ltac:(congruence))), Hin.
        by apply u32_small. }
  cbn zeta. by destruct (lowmem_mapping (set_table [] s2)).
Qed.

(** ** The actions *)

(** Writes to the copied code *)
Lemma code_inv done s s' : inv done s -> wrote (fun x => p <= x < p + n) s s' -> inv done s'.
Proof. intros Hi Hw. apply (inv_wrote done s s' _ Hi Hw). intros x Hx. left. by left. Qed.

(** A block just allocated, and writes to it *)
Definition block_of (s : astate) (k : nat) (a size : Z) : Prop :=
  exists ce, cleanup_table s !! k = Some ce /\ lowmem_addr ce = a /\ size <= alloc_size ce /\
    16 <= alloc_size ce /\ inst_addr ce = 0.

Lemma block_wrote done s s' k a size :
  inv done s -> block_of s k a size ->
  wrote (fun x => lasting x \/ exists ce, cleanup_table s !! k = Some ce /\ in_block ce x) s s' ->
  inv done s' /\ block_of s' k a size.
Proof.
  intros Hi Hb Hw. split.
  - apply (inv_wrote done s s' _ Hi Hw). intros x [Hx|(ce & Hc & Hx)]; [by left|right].
    exists ce. split; [by apply list_elem_of_lookup_2 in Hc|done].
  - destruct Hw as [Hst _]. unfold astatic in Hst. injection Hst as Ht _ _ _ _ _ _ _.
    unfold block_of. by rewrite Ht.
Qed.

Lemma alloc_block done s size a k s' :
  inv done s -> size < 2 ^ 31 -> size mod 4 = 0 -> lowmem_alloc size s = (Some (a, k), s') ->
  inv done s' /\ block_of s' k a size.
Proof.
  intros Hi H1 H2 E. destruct (alloc_inv done s size _ s' Hi H1 H2 E) as (I1 & -> & ce & -> & Ht & _).
  split; [done|]. eexists. rewrite Ht, lookup_app_r, Nat.sub_diag by lia. split; [done|].
  cbn. destruct (Z.ltb_spec size 0x10); split_and!; (done || lia).
Qed.

Section Actions.
Context (tophys_mol phys_to_virt : Z -> Z) (actions : list action_pb).
Context (r__reloctable_start : Z) (reloctable : list Z).
Context (g_sesstab F : Z) (linux : bool) (sprg2 : Z).

(** The words an action hooks *)
Definition hook_addrs (pb : action_pb) : list Z :=
  if pb_action pb =? ACTION_HOOK_FUNCTION then [F]
  else if pb_action pb =? ACTION_RELOC_HOOK then [V + (u32 (pbi (pb_params pb) 0) - 0x100)]
  else [].

Definition size_ok (size : Z) : Prop := 0 <= size < 2 ^ 31 /\ size mod 4 = 0.

(** What the assembler guarantees for an entry, and the vectors and the
    function hooked are kernel code *)
Record pb_ok (pb : action_pb) : Prop := {
  po_offs : 0 <= pb_offs pb /\ pb_offs pb + 12 <= n;
  po_low : pb_action pb = ACTION_RELOCATE_LOW ->
    size_ok (pbi (pb_params pb) 0) /\ u32 (pbi (pb_params pb) 1) ∈ funcs;
  po_func : pb_action pb = ACTION_HOOK_FUNCTION ->
    size_ok (u32 (pbi (pb_params pb) 1)) /\
    u32 (pbi (pb_params pb) 2) + 8 <= u32 (pbi (pb_params pb) 1);
  po_hook : pb_action pb = ACTION_RELOC_HOOK ->
    size_ok (u32 (pbi (pb_params pb) 1)) /\
    u32 (pbi (pb_params pb) 2) + 4 <= u32 (pbi (pb_params pb) 1) /\
    0x100 <= u32 (pbi (pb_params pb) 0) < 0x3000;
  po_code x : x ∈ hook_addrs pb -> x mod 4 = 0 /\ x <> 0 /\ ~ lasting x /\ m0 x <> 0
}.

Context (Hpb : forall pb, pb ∈ actions -> pb_ok pb).

(** What one action does to the invariant *)
Definition act_ok (done : list Z) (pb : action_pb) (s' : astate) : Prop :=
  exists done', inv done' s' /\ forall x, x ∈ done' -> x ∈ done \/ x ∈ hook_addrs pb.

Lemma act_same done pb s' : inv done s' -> act_ok done pb s'.
Proof. intros H. exists done. split; [done|]. by left. Qed.

Lemma find_action_in action : forall l i pb, find_action_from l action i = Some pb ->
  pb ∈ l /\ pb_action pb = action.
Proof.
  induction l as [|q l IH]; intros i pb E; cbn [find_action_from] in E; [done|].
  destruct (Z.eqb_spec (pb_action q) action) as [Ha|Ha]; cbn [negb] in E.
  - destruct i as [|i]; [injection E as <-; split; [left|done]|].
    destruct (IH i pb E). split; [by right|done].
  - destruct (IH i pb E). split; [by right|done].
Qed.

Lemma vret_wrote vector dest : forall fuel i s,
  code_base s = p ->
  wrote (fun x => p <= x < p + n) s (vret_actions actions fuel i vector dest s).
Proof.
  induction fuel as [|f IH]; intros i s Hp; cbn [vret_actions]; [apply wrote_refl|].
  destruct (find_action actions ACTION_VRET i) as [pb|] eqn:E; [|apply wrote_refl].
  apply find_action_in in E as [Hin _]. destruct (Hpb pb Hin) as [[O1 O2] _ _ _ _].
  case_match; [by apply IH|]. set (s1 := flush_icache_mol _ _ _).
  assert (Hw : wrote (fun x => p <= x < p + n) s s1).
  { apply wrote_flush, wrote_put; [apply wrote_refl|]. rewrite Hp. lia. }
  apply (wrote_trans _ _ s1); [done|]. apply IH.
  destruct Hw as [Hst _]. unfold astatic in Hst. congruence.
Qed.

Lemma patch_low_wrote (P : Z -> Prop) s s' a v : wrote P s s' -> P a -> wrote P s (patch_low a v s').
Proof. intros H Ha. unfold patch_low. by apply wrote_put. Qed.

(** The words the actions may write after allocating entry [k] *)
Definition may_write (s : astate) (k : nat) (x : Z) : Prop :=
  lasting x \/ exists ce, cleanup_table s !! k = Some ce /\ in_block ce x.

Lemma may_write_block s k a size x :
  block_of s k a size -> (a <= x < a + size \/ a <= x < a + 16) -> may_write s k x.
Proof.
  intros (ce & Hk & Ha & Hs & H16 & _) Hx. right. exists ce. split; [done|]. unfold in_block. lia.
Qed.

Lemma copy_wrote s s' k a size j l :
  block_of s k a size -> size_ok size -> wrote (may_write s k) s s' ->
  wrote (may_write s k) s (copy_words a (take (Z.to_nat (size / 4)) (drop j l)) s').
Proof.
  intros Hb [Hs Hm] Hw. apply wrote_copy; [done|]. intros i Hi. apply (may_write_block s k a size); [done|].
  rewrite length_take in Hi. left. Z.to_euclidean_division_equations. lia.
Qed.

Lemma act_reloc_low done pb s r s' :
  inv done s -> pb ∈ actions -> pb_action pb = ACTION_RELOCATE_LOW ->
  action_reloc_low (pb_params pb) s = (r, s') -> act_ok done pb s'.
Proof.
  intros Hi Hin Ha. destruct (Hpb pb Hin) as [_ Hlow _ _ _]. destruct (Hlow Ha) as [Hsz Hf].
  unfold action_reloc_low. destruct (lowmem_alloc _ s) as [[[a k]|] s1] eqn:Eal; intros [= <- <-]; apply act_same.
  2: { by apply (alloc_inv done s (pbi (pb_params pb) 0) None s1 Hi); [apply Hsz|apply Hsz|]. }
  destruct (alloc_block done s _ a k s1 Hi (proj2 (proj1 Hsz)) (proj2 Hsz) Eal) as [I1 I2].
  apply (block_wrote done s1 _ k a _ I1 I2).
  apply wrote_put; [|by left; right]. apply wrote_flush. by apply (copy_wrote s1 s1 k a).
Qed.

(** Noting the instruction, and writing the branch over it *)
Lemma hook_note done s k a size v :
  inv done s -> block_of s k a size -> inv done (upd_clean k (set_ce_opcode v) s).
Proof. intros Hi (ce & Hk & _ & _ & _ & Hn). by apply (upd_opcode_inv done s k ce). Qed.

Lemma hook_final done s k a size x v s3 :
  inv done s -> block_of s k a size ->
  x mod 4 = 0 -> x <> 0 -> ~ lasting x -> m0 x <> 0 -> x ∉ done -> u32 v <> 0 ->
  wrote (may_write s k) (upd_clean k (set_ce_opcode (mword s x)) s) s3 ->
  inv (x :: done) (upd_clean k (set_inst_addr x) (flush_icache_mol x (x + 4) (put_word x v s3))).
Proof.
  intros Hi Hb Hx Hx0 Hl Hm Hd Hv Hw. destruct Hb as (ce & Hk & Ha & Hs & H16 & Hn).
  destruct (upd_opcode_inv done s k ce (mword s x) Hi Hk Hn) as [I1 I2].
  set (s2 := upd_clean k _ s) in *.
  assert (I3 : inv done s3).
  { apply (inv_wrote done s2 s3 _ I1 Hw). intros y [Hy|(c & Hc & Hy)]; [by left|right].
    assert (c = ce) as -> by congruence. exists (set_ce_opcode (mword s x) ce).
    split; [by apply list_elem_of_lookup_2 in I2|done]. }
  destruct Hw as [Hst _]. unfold astatic in Hst. injection Hst as Ht _ _ _ _ _ _ _.
  apply (hook_inv done s3 k (set_ce_opcode (mword s x) ce)); try done.
  - by rewrite Ht.
  - cbn. by apply (unhooked_word done).
Qed.

Lemma branch_nonzero v : 0 <= v < 0x100000 -> u32 (0x48000002 + v) <> 0.
Proof. intros H. rewrite u32_small; lia. Qed.

Lemma lor_branch_nonzero w : u32 ((18 .<< 26) .| (w .& 0x03fffffc)) <> 0.
Proof.
  intros E. apply (f_equal (fun z => Z.testbit z 30)) in E. unfold u32 in E.
  rewrite Z.mod_pow2_bits_low, Z.lor_spec, Z.bits_0 in E by lia.
  change (Z.testbit (18 .<< 26) 30) with true in E. discriminate E.
Qed.

(** [action_reloc_hook] *)
Lemma act_reloc_hook done pb s r s' hookcode :
  inv done s -> pb ∈ actions -> pb_action pb = ACTION_RELOC_HOOK ->
  (forall x, x ∈ hook_addrs pb -> x ∉ done) ->
  action_reloc_hook tophys_mol actions hookcode (pb_params pb) s = (r, s') -> act_ok done pb s'.
Proof.
  intros Hi Hin Ha Hpend. destruct (Hpb pb Hin) as [_ _ _ Hhk Hcode]. destruct (Hhk Ha) as (Hsz & Hvo & Hvec).
  set (vector := u32 (pbi (pb_params pb) 0)) in *. set (size := u32 (pbi (pb_params pb) 1)) in *.
  set (offs := u32 (pbi (pb_params pb) 2)) in *.
  assert (Hx : hook_addrs pb = [V + (vector - 0x100)]) by (unfold hook_addrs; by rewrite Ha).
  set (x := V + (vector - 0x100)) in *.
  destruct (Hcode x) as (X1 & X2 & X3 & X4); [rewrite Hx; left|].
  assert (Hxd : x ∉ done) by (apply Hpend; rewrite Hx; left).
  unfold action_reloc_hook. fold vector size offs. cbv zeta.
  rewrite phys_to_virt_eq by (try lia; by apply (inv_window done)).
  rewrite (virt_eq done s vector Hi). fold x. rewrite s32_small by (destruct Hsz; lia).
  destruct (lowmem_alloc size s) as [[[a k]|] s1] eqn:Eal.
  2: { intros [= <- <-]. apply act_same.
       by apply (alloc_inv done s size None s1 Hi); [apply Hsz|apply Hsz|]. }
  destruct (alloc_block done s size a k s1 Hi (proj2 (proj1 Hsz)) (proj2 Hsz) Eal) as [I1 I2].
  set (s2 := copy_words a _ s1).
  assert (W2 : wrote (may_write s1 k) s1 s2) by (by apply (copy_wrote s1 s1 k a)).
  assert (Hp2 : code_base s2 = p).
  { destruct W2 as [Hst _]. unfold astatic in Hst. destruct (i_base _ _ I1) as (_ & _ & Hp & _). congruence. }
  set (s3 := vret_actions actions _ _ _ _ s2).
  assert (W3 : wrote (may_write s1 k) s1 s3).
  { apply (wrote_trans _ _ s2); [done|]. apply (wrote_weaken (fun x => p <= x < p + n)); [by apply vret_wrote|].
    intros y Hy. left. by left. }
  set (s4 := patch_low (a + 12) _ _).
  assert (W4 : wrote (may_write s1 k) s1 s4).
  { apply patch_low_wrote; [apply patch_low_wrote; [done|]|]; apply (may_write_block s1 k a size); (done || lia). }
  destruct (block_wrote done s1 s4 k a size I1 I2 W4) as [I4 B4].
  destruct (relocate_inst _ _) as [inst|]; intros [= <- <-].
  2: { apply act_same. by apply (hook_note done s4 k a size). }
  exists (x :: done). split.
  - apply (hook_final done s4 k a size); try done.
    + apply branch_nonzero. unfold lowmem_tophys.
      set (s5 := flush_icache_mol _ _ _). change (lowmem_phys_base s5) with (lowmem_phys_base s4).
      change (lowmem_virt_base s5) with (lowmem_virt_base s4).
      destruct (i_base _ _ I4) as (-> & -> & _ & _).
      destruct B4 as (ce & Hk & Hca & Hcs & H16 & _).
      destruct (i_ent _ _ I4 ce ltac:(by apply list_elem_of_lookup_2 in Hk)) as [[E1 E2] _ _].
      rewrite (virt_eq done s4 _ I4) in E2. destruct (i_cursor _ _ I4). rewrite u32_small; lia.
    + apply wrote_flush, wrote_put; [apply wrote_refl|].
      pose proof (u32_range (pbi (pb_params pb) 2)) as Hor. fold offs in Hor.
      apply (may_write_block s4 k a size); [done|]. lia.
  - intros y Hy. apply elem_of_cons in Hy as [->|Hy]; [right; rewrite Hx; left|by left].
Qed.

(** [action_hook_function] *)
Lemma act_hook_function done pb s r s' hookcode :
  inv done s -> pb ∈ actions -> pb_action pb = ACTION_HOOK_FUNCTION ->
  (forall x, x ∈ hook_addrs pb -> x ∉ done) ->
  action_hook_function F linux hookcode (pb_params pb) s = (r, s') -> act_ok done pb s'.
Proof.
  intros Hi Hin Ha Hpend. destruct (Hpb pb Hin) as [_ _ Hfn _ Hcode]. destruct (Hfn Ha) as (Hsz & Hvo).
  set (size := u32 (pbi (pb_params pb) 1)) in *. set (offs := u32 (pbi (pb_params pb) 2)) in *.
  assert (Hx : hook_addrs pb = [F]) by (unfold hook_addrs; by rewrite Ha).
  destruct (Hcode F) as (X1 & X2 & X3 & X4); [rewrite Hx; left|].
  assert (Hxd : F ∉ done) by (apply Hpend; rewrite Hx; left).
  unfold action_hook_function. fold size offs. cbv zeta.
  destruct (negb _); [intros [= <- <-]; by apply act_same|]. rewrite s32_small by (destruct Hsz; lia).
  destruct (lowmem_alloc size s) as [[[a k]|] s1] eqn:Eal.
  2: { intros [= <- <-]. apply act_same.
       by apply (alloc_inv done s size None s1 Hi); [apply Hsz|apply Hsz|]. }
  destruct (alloc_block done s size a k s1 Hi (proj2 (proj1 Hsz)) (proj2 Hsz) Eal) as [I1 I2].
  set (s4 := patch_low (a + 8) _ _).
  assert (W4 : wrote (may_write s1 k) s1 s4).
  { apply patch_low_wrote; [apply patch_low_wrote; [by apply (copy_wrote s1 s1 k a)|]|];
      apply (may_write_block s1 k a size); (done || lia). }
  destruct (block_wrote done s1 s4 k a size I1 I2 W4) as [I4 B4].
  destruct (relocate_inst _ _) as [inst|]; intros [= <- <-].
  2: { apply act_same. by apply (hook_note done s4 k a size). }
  pose proof (u32_range (pbi (pb_params pb) 2)) as Hor. fold offs in Hor.
  exists (F :: done). split.
  - apply (hook_final done s4 k a size); try done; [apply lor_branch_nonzero|].
    apply wrote_flush. repeat apply wrote_put; [apply wrote_refl|..];
      apply (may_write_block s4 k a size); (done || lia).
  - intros y Hy. apply elem_of_cons in Hy as [->|Hy]; [right; rewrite Hx; left|by left].
Qed.

(** Any action *)
Lemma action_ok done pb s r s' target :
  inv done s -> pb ∈ actions -> p <= target -> target + 12 <= p + n ->
  (forall x, x ∈ hook_addrs pb -> x ∉ done) ->
  actiontable tophys_mol actions g_sesstab F linux sprg2 (pb_action pb) target (pb_params pb) s = Some (r, s') ->
  act_ok done pb s'.
Proof.
  intros Hi Hin Ht1 Ht2 Hpend. unfold actiontable.
  assert (Hpatch : forall r1 s1, wrote (fun x => p <= x < p + n) s s1 ->
    Some (r1, s1) = Some (r, s') -> act_ok done pb s').
  { intros r1 s1 Hw [= <- <-]. apply act_same. by apply (code_inv done s). }
  repeat match goal with
  | |- (if ?a =? ?b then _ else _) = _ -> _ => destruct (Z.eqb_spec a b)
  | |- (if ?b || _ then _ else _) = _ -> _ => destruct b; cbn [orb]
  end; try (by intros [=]).
  all: try (unfold action_li_phys, action_lwz_physaddr_r, action_tophysvirt, action_fix_sprg2;
    try destruct linux; apply Hpatch; repeat first [apply wrote_refl|apply wrote_put]; lia).
  - destruct (action_reloc_hook tophys_mol actions target (pb_params pb) s) as [r1 s1] eqn:E.
    intros [= <- <-]. by apply (act_reloc_hook done pb s r1 s1 target).
  - destruct (action_reloc_low (pb_params pb) s) as [r1 s1] eqn:E.
    intros [= <- <-]. by apply (act_reloc_low done pb s r1 s1).
  - destruct (action_hook_function F linux target (pb_params pb) s) as [r1 s1] eqn:E.
    intros [= <- <-]. by apply (act_hook_function done pb s r1 s1 target).
  - unfold action_specvar. repeat case_match; apply Hpatch; repeat first [apply wrote_refl|apply wrote_put]; lia.
  - unfold action_specvar. repeat case_match; apply Hpatch; repeat first [apply wrote_refl|apply wrote_put]; lia.
Qed.

(** ** All the actions, in their order *)

Definition entries (action : Z) : list action_pb := filter (fun q => pb_action q = action) actions.

Lemma find_action_filter action : forall l i,
  find_action_from l action i = filter (fun q => pb_action q = action) l !! i.
Proof.
  induction l as [|q l IH]; intros i; [done|].
  cbn [find_action_from]. rewrite filter_cons. destruct (Z.eqb_spec (pb_action q) action) as [Ha|Ha]; cbn [negb].
  - rewrite decide_True by done. destruct i as [|i]; [done|]. apply IH.
  - rewrite decide_False by done. apply IH.
Qed.

Lemma find_action_entries action i : find_action actions action i = entries action !! i.
Proof. apply find_action_filter. Qed.

(** The words still to be hooked *)
Definition pending (done rest : list Z) : Prop := NoDup rest /\ forall x, x ∈ rest -> x ∉ done.

Lemma pending_app done a b : pending done (a ++ b) -> pending done b.
Proof.
  intros [H1 H2]. apply list.NoDup_app in H1 as (_ & _ & H1). split; [done|]. intros x Hx. apply H2.
  apply elem_of_app. by right.
Qed.

Lemma run_action_ok action rest : forall fuel i done s b s',
  inv done s ->
  pending done (concat (map hook_addrs (drop i (entries action))) ++ rest) ->
  run_action tophys_mol actions g_sesstab F linux sprg2 fuel i action s = (b, s') ->
  exists done', inv done' s' /\ (b = true -> pending done' rest).
Proof.
  induction fuel as [|f IH]; intros i done s b s' Hi Hp; cbn [run_action].
  { intros [= <- <-]. exists done. split; [done|]. intros _. by apply pending_app in Hp. }
  rewrite find_action_entries. destruct (entries action !! i) as [pb|] eqn:Epb.
  2: { intros [= <- <-]. exists done. split; [done|]. intros _. by apply pending_app in Hp. }
  case_match; [intros [= <- <-]; by exists done|].
  assert (Hin : pb ∈ actions /\ pb_action pb = action).
  { apply list_elem_of_lookup_2, list_elem_of_filter in Epb. tauto. }
  destruct Hin as [Hin Hact]. destruct (Hpb pb Hin) as [[O1 O2] _ _ _ _].
  destruct (i_base _ _ Hi) as (_ & _ & Hcb & _). rewrite Hcb.
  rewrite (drop_S _ _ _ Epb) in Hp. cbn [map concat] in Hp. rewrite <- app_assoc in Hp.
  destruct (actiontable _ _ _ _ _ _ _ _ _ _) as [[r s1]|] eqn:Ea; [|intros [= <- <-]; by exists done].
  rewrite <- Hact in Ea.
  destruct (action_ok done pb s r s1 (p + pb_offs pb) Hi Hin) as (done1 & I1 & D1); try done; try lia.
  { intros x Hx. apply (proj2 Hp). apply elem_of_app. by left. }
  destruct (negb (r =? 0)); [intros [= <- <-]; by exists done1|].
  intros E. apply (IH (S i) done1 s1 b s'); [done| |done]. pose proof Hp as [Hnd Hdis1]. apply list.NoDup_app in Hnd as (N1 & N2 & N3).
  split; [done|]. intros x Hx [Hd|Hd]%D1.
  - apply (Hdis1 x); [|done]. apply elem_of_app. by right.
  - by apply (N2 x Hd).
Qed.

(** The words hooked by the actions from [action] on *)
Fixpoint hook_list (k : nat) (action : Z) : list Z :=
  match k with
  | O => []
  | S k' => concat (map hook_addrs (entries action)) ++ hook_list k' (action + 1)
  end.

Lemma run_actions_ok : forall k action done s b s',
  inv done s -> pending done (hook_list k action) ->
  run_actions tophys_mol actions g_sesstab F linux sprg2 k action s = (b, s') ->
  exists done', inv done' s'.
Proof.
  induction k as [|k IH]; intros action done s b s' Hi Hp; cbn [run_actions hook_list] in *.
  { intros [= <- <-]. by exists done. }
  destruct (run_action _ _ _ _ _ _ _ _ _ _) as [ok s1] eqn:E.
  destruct (run_action_ok action (hook_list k (action + 1)) _ 0 done s ok s1 Hi Hp E) as (done1 & I1 & P1).
  destruct ok; [|intros [= <- <-]; by exists done1].
  intros E2. refine (IH (action + 1) done1 _ b s' _ (P1 eq_refl) E2). destruct (action =? FLUSH_CACHE_ACTION); [|done].
  by apply (inv_wrote done1 s1 _ (fun _ => False) I1); [apply wrote_flush, wrote_refl|].
Qed.

End Actions.

End Inv.

(** ** Theorem *)

Section Restore.
Context (tophys_mol phys_to_virt : Z -> Z) (actions : list action_pb).
Context (r__reloctable_start : Z) (reloctable : list Z).
Context (g_sesstab F : Z) (linux : bool) (sprg2 : Z) (funcs : list Z).

Definition code_bytes : Z := 4 * Z.of_nat (length reloctable).

(** The host: low memory is mapped, aligned, and apart from the copied code at
    [p] and the address variables [funcs]; memory holds words; the entries are
    those of the assembler; no word is hooked twice; nothing is hooked yet. *)
Record host_ok (p : Z) (s : astate) : Prop := {
  hst_virt : 0 < phys_to_virt 0x100 /\ phys_to_virt 0x100 mod 16 = 0 /\ phys_to_virt 0x100 + 0x4000 < 2 ^ 32;
  hst_low x : phys_to_virt 0x100 <= x < phys_to_virt 0x100 + 0x3000 -> ~ lasting p code_bytes funcs x;
  hst_words x : 0 <= mword s x < 2 ^ 32;
  hst_entries pb : pb ∈ actions -> pb_ok (phys_to_virt 0x100) p code_bytes funcs (mword s) F pb;
  hst_once : NoDup (hook_list (phys_to_virt 0x100) actions F MAX_NUM_ACTIONS 0);
  hst_none : cleanup_table s = []
}.

Lemma restore_start p s s1 :
  host_ok p s -> p <> 0 -> relocate_code r__reloctable_start reloctable p s = (0, s1) ->
  inv (phys_to_virt 0x100) p code_bytes funcs (mword s) [] (lowmem_initialize phys_to_virt s1).
Proof.
  intros [H1 H2 H3 H4 H5 H6] Hp. unfold relocate_code. fold code_bytes.
  rewrite (proj2 (Z.eqb_neq p 0)) by done. intros [= <-].
  set (s0 := copy_words p reloctable _).
  assert (W : wrote (fun x => p <= x < p + code_bytes) (set_code p code_bytes (reloc_virt_offs s) s) s0).
  { apply wrote_copy; [apply wrote_refl|]. intros i Hi. unfold code_bytes. lia. }
  destruct W as [Hst Hw]. unfold astatic in Hst. injection Hst as T1 T2 T3 T4 T5 T6 T7 T8.
  assert (Ht : cleanup_table s0 = []) by (rewrite T1; exact H6).
  unfold lowmem_initialize. cbn [cleanup_table set_code]. rewrite Ht, decide_False by tauto.
  split; cbn [cleanup_table set_code set_cursor set_lowmem lowmem_phys_base lowmem_virt_base code_base code_size
      lowmem_phys_cursor]; rewrite ?Ht.
  - done.
  - split; [lia|done].
  - intros ce Hc. by apply not_elem_of_nil in Hc.
  - intros ce Hc. by apply not_elem_of_nil in Hc.
  - intros x Hx Hx0 Hl _. change (mword s0 x = mword s x). apply Hw. intros Hr. apply Hl. by left.
Qed.

(** C5: Hooking the kernel leaves no traces: when the actions have been
    performed and are cleaned up, or when one of them fails on the way, every
    word of kernel memory, the exception vectors and functions hooked and the
    low memory used for glue code among them, is what it was at the start;
    only the copied code and the variables given the address of a low memory
    routine are not restored. *)
Theorem actions_leave_no_trace p s r s' :
  host_ok p s ->
  perform_actions tophys_mol phys_to_virt actions r__reloctable_start reloctable g_sesstab F linux sprg2 p s = (r, s') ->
  forall x, x mod 4 = 0 -> x <> 0 -> ~ lasting p code_bytes funcs x ->
    mword (if r =? 0 then cleanup_actions s' else s') x = mword s x.
Proof.
  intros Hh. unfold perform_actions. destruct (decide (p = 0)) as [->|Hp]; [by intros [= <- <-]|].
  destruct (relocate_code _ _ p s) as [r1 s1] eqn:E1.
  assert (Hr1 : r1 = 0).
  { unfold relocate_code in E1. rewrite (proj2 (Z.eqb_neq p 0)) in E1 by done. by injection E1. }
  subst r1. change (negb (0 =? 0)) with false. cbv iota.
  pose proof (restore_start p s s1 Hh Hp E1) as Hi. destruct Hh as [(V1 & V2 & V3) H2 H3 H4 H5 _].
  destruct (run_actions _ _ _ _ _ _ _ _ _) as [ok s2] eqn:E2.
  assert (pending [] (hook_list (phys_to_virt 0x100) actions F MAX_NUM_ACTIONS 0)) as Hpend.
  { split; [done|]. intros x _. apply not_elem_of_nil. }
  destruct (run_actions_ok _ p code_bytes funcs (mword s) V1 V2 V3 H2 tophys_mol phys_to_virt actions g_sesstab F linux sprg2
    H4 MAX_NUM_ACTIONS 0 [] _ ok s2 Hi Hpend E2) as (done' & I2).
  intros E x Hx Hx0 Hl. destruct ok; injection E as <- <-.
  - change (0 =? 0) with true. cbv iota.
    apply (cleanup_restores (phys_to_virt 0x100) p code_bytes funcs (mword s) H3 done'); try done.
    by apply (inv_wrote _ _ _ _ _ done' s2 _ (fun _ => False) I2); [apply wrote_flush, wrote_refl|].
  - change (1 =? 0) with false. cbv iota.
    by apply (cleanup_restores (phys_to_virt 0x100) p code_bytes funcs (mword s) H3 done').
Qed.

End Restore.

(** A host whose exception vector 0x300 and flush function are hooked *)
Definition ex_virt (x : Z) : Z := x + 0xc0000000.
Definition ex_actions : list action_pb := [
  ActionPb ACTION_LI_PHYS 0 [3; 0x10];
  ActionPb ACTION_RELOC_HOOK 8 [0x300; 20; 16; 0x7c7043a6; 0x3c600000; 0x7c6803a6; 0x60630000; 0];
  ActionPb ACTION_HOOK_FUNCTION 16 [FHOOK_FLUSH_HASH_PAGE; 24; 16; 0; 0x3c600000; 0x60630000; 0x7c6903a6; 0; 0]
].
Definition ex_code : list Z := repeat 0x60000000 8.
Definition ex_host : astate :=
  AState (<[0xc0000300 := 0x7c5043a6]> (<[0xc0100000 := 0x7c0802a6]> ∅)) [] 0 0 0 false 0 0 0 [] [].

Lemma ex_host_ok : host_ok ex_virt ex_actions ex_code 0xc0100000 [] 0xd0000000 ex_host.
Proof.
  assert (L : forall x, lasting 0xd0000000 (code_bytes ex_code) [] x -> 0xd0000000 <= x < 0xd0000020).
  { intros x [H | H%not_elem_of_nil]; [|done]. exact H. }
  split.
  - by vm_compute.
  - intros x Hx Hl%L. unfold ex_virt in Hx. lia.
  - intros x. unfold mword, ex_host. cbn [amem]. rewrite !lookup_insert, lookup_empty.
    repeat case_decide; cbn; lia.
  - intros pb Hpb. unfold ex_actions in Hpb. repeat (apply elem_of_cons in Hpb as [-> | Hpb]); [..|by apply not_elem_of_nil in Hpb].
    + split; [by vm_compute|discriminate..|]. intros x Hx%not_elem_of_nil. done.
    + split; [by vm_compute|discriminate|discriminate|by vm_compute|].
      intros x ->%list_elem_of_singleton. split; [done|]. split; [done|].
      split; [intros [Hl _]%L; by apply Hl | by vm_compute].
    + split; [by vm_compute|discriminate|by vm_compute|discriminate|].
      intros x ->%list_elem_of_singleton. split; [done|]. split; [done|].
      split; [intros [Hl _]%L; by apply Hl | by vm_compute].
  - apply (bool_decide_unpack _). by vm_compute.
  - done.
Qed.

(** Both hooks are in place, and gone after the clean-up. *)
Lemma actions_leave_no_trace_witness :
  let '(r, s) := perform_actions id ex_virt ex_actions 0xd1000000 ex_code 0 0xc0100000 true 0 0xd0000000 ex_host in
  r = 0 /\ mword s 0xc0000300 = 0x48000122 /\ mword (cleanup_actions s) 0xc0000300 = 0x7c5043a6.
Proof.
  destruct (perform_actions _ _ _ _ _ _ _ _ _ _ ex_host) as [r s] eqn:E.
  pose proof (actions_leave_no_trace id ex_virt ex_actions 0xd1000000 ex_code 0 0xc0100000 true 0 [] 0xd0000000
    ex_host r s ex_host_ok E 0xc0000300) as H.
  assert (Hr : r = 0) by (transitivity (fst (r, s)); [done | rewrite <- E; vm_compute; reflexivity]).
  split; [exact Hr|]. rewrite Hr in H. split.
  - transitivity (mword (snd (r, s)) 0xc0000300); [done | rewrite <- E; vm_compute; reflexivity].
  - apply H; [done | done | intros [Hl | Hl%not_elem_of_nil]; [by apply (proj1 Hl) | done]].
Defined.

End ActionsInv.
