(* ===== verification/Cuda.v ===== *)
(** * The VIA and the CUDA ([src/drivers/via-cuda.c])

    The guest's driver exchanges packets with the CUDA byte by byte through
    the shift register of the VIA, each byte acknowledged by toggling TACK.
    Packets are for the CUDA itself or for the ADB, whose state is part of
    this one.  [char] is unsigned (PowerPC).  A computation can end the
    process ([Exit]) or be [Stuck]: waiting for a lock its own thread holds,
    or reading or writing beyond a buffer. *)

From S2P Require Import Prelude Adb.

Module Cuda.

(** ** Outcomes *)

Inductive outcome (A : Type) := Ret (a : A) | Exit (code : Z) | Stuck.
Arguments Ret {A} a.
Arguments Exit {A} code.
Arguments Stuck {A}.
#[global] Instance outcome_ret : MRet outcome := @Ret.
#[global] Instance outcome_bind : MBind outcome :=
  fun A B f m => match m with Ret a => f a | Exit c => Exit c | Stuck => Stuck end.
Definition of_option {A} (o : option A) : outcome A := match o with Some a => Ret a | None => Stuck end.

(** ** State *)

(** Registers and bits ([src/drivers/include/via_hw.h]) *)
Definition B : nat := 0.
Definition DIRB : nat := 2.
Definition T1CL : nat := 4.
Definition T1CH : nat := 5.
Definition T1LL : nat := 6.
Definition T1LH : nat := 7.
Definition T2CL : nat := 8.
Definition T2CH : nat := 9.
Definition SR : nat := 10.
Definition ACR : nat := 11.
Definition IFR : nat := 13.
Definition IER : nat := 14.
Definition VIA_REG_COUNT : nat := 16.
Definition VIA_REG_LEN : Z := 0x200.
Definition TREQ : Z := 0x08.
Definition TACK : Z := 0x10.
Definition TIP : Z := 0x20.
Definition T1MODE_CONT : Z := 0x40.
Definition IER_SET : Z := 0x80.
Definition SR_INT : Z := 0x04.
Definition T1_INT : Z := 0x40.
Definition T2_INT : Z := 0x20.
Definition SR_DATA_INT : Z := 0x08.
Definition SR_CLOCK_INT : Z := 0x10.
Definition IRQ_LINE : Z := 0x80.

(** Packet types and commands ([src/drivers/include/cuda_hw.h]) *)
Definition CUDA_PACKET : Z := 1.
Definition ERROR_PACKET : Z := 2.
Definition TIMER_PACKET : Z := 3.
Definition CUDA_WARM_START : Z := 0.
Definition CUDA_AUTOPOLL : Z := 1.
Definition CUDA_GET_6805_ADDR : Z := 2.
Definition CUDA_GET_TIME : Z := 3.
Definition CUDA_GET_PRAM : Z := 7.
Definition CUDA_SET_6805_ADDR : Z := 8.
Definition CUDA_SET_TIME : Z := 9.
Definition CUDA_POWERDOWN : Z := 0xa.
Definition CUDA_POWERUP_TIME : Z := 0xb.
Definition CUDA_SET_PRAM : Z := 0xc.
Definition CUDA_MS_RESET : Z := 0xd.
Definition CUDA_SEND_DFAC : Z := 0xe.
Definition CUDA_RESET_SYSTEM : Z := 0x11.
Definition CUDA_SET_IPL_LEVEL : Z := 0x12.
Definition CUDA_SET_AUTO_RATE : Z := 0x14.
Definition CUDA_GET_AUTO_RATE : Z := 0x16.
Definition CUDA_SET_DEVICE_LIST : Z := 0x19.
Definition CUDA_GET_DEVICE_LIST : Z := 0x1a.
Definition CUDA_SET_ONE_SECOND_MODE : Z := 0x1b.
Definition CUDA_CMD_1C : Z := 0x1c.
Definition CUDA_SET_POWER_MESSAGES : Z := 0x21.
Definition CUDA_GET_SET_IIC : Z := 0x22.
Definition CUDA_ENABLE_DISABLE_WAKEUP : Z := 0x23.
Definition CUDA_TIMER_TICKLE : Z := 0x24.
Definition CUDA_COMBINED_FORMAT_IIC : Z := 0x25.
Definition CUDA_CMD_26 : Z := 0x26.

Definition VIA_TICKS_TO_USECS_NUM : Z := 6000.
Definition VIA_TICKS_TO_USECS_DEN : Z := 4700.
Definition VIA_BUFFER_LEN : Z := 16.
Definition CUDA_RTC_OFFSET : Z := 0x7C25BE58.

(** The handlers of the timers started, [usr] included *)
Inductive handler := HExpire | HSrInt (data_flag : bool) | HStartReply | HOneSec | HPowerDown.

Record via_state := Via {
  v_lock : bool; irq_line : bool; reg : list Z; t1_stamp : Z; t2_stamp : Z; t1_id : Z; t2_id : Z;
  sr_active : bool; hack_sr_shift_delay : Z
}.
Record cuda_state := CudaState {
  c_lock : bool; tack : bool; tip : bool; treq : bool;
  out_buffer : list Z; out_count : Z; out_req_count : Z; fill_out_buffer : bool;
  in_buffer : list Z; in_count : Z;
  rtc : Z; rtc_stamp : Z; onesec_enabled : bool; onesec_pending : Z; onesec_last : Z;
  autopoll : bool; hack_treq_delay : Z
}.

(** The statics, the ADB, the timers running (id, delay and handler, latest
    first) with the next id, and [mregs->nip] with the static of the
    calibration hack *)
Record vc := Vc {
  via : via_state; cuda : cuda_state; adb : Adb.adb_state;
  timers : list (Z * (Z * handler)); next_timer : Z; nip : Z; hack_count : Z
}.

Definition upd_via (f : via_state -> via_state) (s : vc) : vc :=
  Vc (f (via s)) (cuda s) (adb s) (timers s) (next_timer s) (nip s) (hack_count s).
Definition upd_cuda (f : cuda_state -> cuda_state) (s : vc) : vc :=
  Vc (via s) (f (cuda s)) (adb s) (timers s) (next_timer s) (nip s) (hack_count s).
Definition set_adb (a : Adb.adb_state) (s : vc) : vc :=
  Vc (via s) (cuda s) a (timers s) (next_timer s) (nip s) (hack_count s).

Definition set_v_lock b v := Via b (irq_line v) (reg v) (t1_stamp v) (t2_stamp v) (t1_id v) (t2_id v) (sr_active v) (hack_sr_shift_delay v).
Definition set_irq b v := Via (v_lock v) b (reg v) (t1_stamp v) (t2_stamp v) (t1_id v) (t2_id v) (sr_active v) (hack_sr_shift_delay v).
Definition set_reg l v := Via (v_lock v) (irq_line v) l (t1_stamp v) (t2_stamp v) (t1_id v) (t2_id v) (sr_active v) (hack_sr_shift_delay v).
Definition set_stamp (is_timer1 : bool) t v := if is_timer1
  then Via (v_lock v) (irq_line v) (reg v) t (t2_stamp v) (t1_id v) (t2_id v) (sr_active v) (hack_sr_shift_delay v)
  else Via (v_lock v) (irq_line v) (reg v) (t1_stamp v) t (t1_id v) (t2_id v) (sr_active v) (hack_sr_shift_delay v).
Definition set_timer_id (is_timer1 : bool) i v := if is_timer1
  then Via (v_lock v) (irq_line v) (reg v) (t1_stamp v) (t2_stamp v) i (t2_id v) (sr_active v) (hack_sr_shift_delay v)
  else Via (v_lock v) (irq_line v) (reg v) (t1_stamp v) (t2_stamp v) (t1_id v) i (sr_active v) (hack_sr_shift_delay v).
Definition set_sr_active b v := Via (v_lock v) (irq_line v) (reg v) (t1_stamp v) (t2_stamp v) (t1_id v) (t2_id v) b (hack_sr_shift_delay v).

Definition set_c_lock b c := CudaState b (tack c) (tip c) (treq c) (out_buffer c) (out_count c) (out_req_count c) (fill_out_buffer c)
  (in_buffer c) (in_count c) (rtc c) (rtc_stamp c) (onesec_enabled c) (onesec_pending c) (onesec_last c) (autopoll c) (hack_treq_delay c).
Definition set_lines ta ti c := CudaState (c_lock c) ta ti (treq c) (out_buffer c) (out_count c) (out_req_count c) (fill_out_buffer c)
  (in_buffer c) (in_count c) (rtc c) (rtc_stamp c) (onesec_enabled c) (onesec_pending c) (onesec_last c) (autopoll c) (hack_treq_delay c).
Definition set_treq b c := CudaState (c_lock c) (tack c) (tip c) b (out_buffer c) (out_count c) (out_req_count c) (fill_out_buffer c)
  (in_buffer c) (in_count c) (rtc c) (rtc_stamp c) (onesec_enabled c) (onesec_pending c) (onesec_last c) (autopoll c) (hack_treq_delay c).
Definition set_out l n c := CudaState (c_lock c) (tack c) (tip c) (treq c) l (out_count c) n (fill_out_buffer c)
  (in_buffer c) (in_count c) (rtc c) (rtc_stamp c) (onesec_enabled c) (onesec_pending c) (onesec_last c) (autopoll c) (hack_treq_delay c).
Definition set_out_count n c := CudaState (c_lock c) (tack c) (tip c) (treq c) (out_buffer c) n (out_req_count c) (fill_out_buffer c)
  (in_buffer c) (in_count c) (rtc c) (rtc_stamp c) (onesec_enabled c) (onesec_pending c) (onesec_last c) (autopoll c) (hack_treq_delay c).
Definition set_fill b c := CudaState (c_lock c) (tack c) (tip c) (treq c) (out_buffer c) (out_count c) (out_req_count c) b
  (in_buffer c) (in_count c) (rtc c) (rtc_stamp c) (onesec_enabled c) (onesec_pending c) (onesec_last c) (autopoll c) (hack_treq_delay c).
Definition set_in l n c := CudaState (c_lock c) (tack c) (tip c) (treq c) (out_buffer c) (out_count c) (out_req_count c) (fill_out_buffer c)
  l n (rtc c) (rtc_stamp c) (onesec_enabled c) (onesec_pending c) (onesec_last c) (autopoll c) (hack_treq_delay c).
Definition set_rtc r st c := CudaState (c_lock c) (tack c) (tip c) (treq c) (out_buffer c) (out_count c) (out_req_count c) (fill_out_buffer c)
  (in_buffer c) (in_count c) r st (onesec_enabled c) (onesec_pending c) (onesec_last c) (autopoll c) (hack_treq_delay c).
Definition set_onesec e p l c := CudaState (c_lock c) (tack c) (tip c) (treq c) (out_buffer c) (out_count c) (out_req_count c) (fill_out_buffer c)
  (in_buffer c) (in_count c) (rtc c) (rtc_stamp c) e p l (autopoll c) (hack_treq_delay c).
Definition set_autopoll b c := CudaState (c_lock c) (tack c) (tip c) (treq c) (out_buffer c) (out_count c) (out_req_count c) (fill_out_buffer c)
  (in_buffer c) (in_count c) (rtc c) (rtc_stamp c) (onesec_enabled c) (onesec_pending c) (onesec_last c) b (hack_treq_delay c).

(** ** Locks, registers, timers *)

Definition V_LOCK (s : vc) : outcome vc := if v_lock (via s) then Stuck else Ret (upd_via (set_v_lock true) s).
Definition V_UNLOCK (s : vc) : vc := upd_via (set_v_lock false) s.
Definition C_LOCK (s : vc) : outcome vc := if c_lock (cuda s) then Stuck else Ret (upd_cuda (set_c_lock true) s).
Definition C_UNLOCK (s : vc) : vc := upd_cuda (set_c_lock false) s.

(** [via.reg[i]]; the I/O range has [VIA_REG_COUNT] registers. *)
Definition rd (i : nat) (s : vc) : Z := default 0 (reg (via s) !! i).
Definition wr (i : nat) (v : Z) (s : vc) : vc := upd_via (fun x => set_reg (<[i := v .& 0xff]> (reg x)) x) s.

Definition UPDATE_IRQ (s : vc) : vc := upd_via (set_irq (negb (rd IFR s .& rd IER s .& 0x7f =? 0))) s.

Definition usec_timer (usecs : Z) (h : handler) (s : vc) : Z * vc :=
  (next_timer s, Vc (via s) (cuda s) (adb s) ((next_timer s, (usecs, h)) :: timers s) (next_timer s + 1) (nip s) (hack_count s)).
Definition start_timer (usecs : Z) (h : handler) (s : vc) : vc := (usec_timer usecs h s).2.
Definition cancel_timer (i : Z) (s : vc) : vc :=
  Vc (via s) (cuda s) (adb s) (filter (fun t => t.1 <> i) (timers s)) (next_timer s) (nip s) (hack_count s).

Section Cuda.
(** [get_mticks_()], [mticks_to_usecs()], [time( NULL )], the seconds and
    microseconds of [gettimeofday], [random()] *)
Context (mticks : Z) (mticks_to_usecs : Z -> Z) (time_now tv_sec tv_usec rnd : Z).

(** ** VIA *)

Definition via_sr_int_post (set_sr_data_flag : bool) (s : vc) : vc :=
  if sr_active (via s) then s else
  start_timer (hack_sr_shift_delay (via s)) (HSrInt set_sr_data_flag) (upd_via (set_sr_active true) s).

Definition via_shift_out (s : vc) : Z * vc := let s := via_sr_int_post false s in (rd SR s, s).
Definition via_shift_in (c : Z) (s : vc) : vc := via_sr_int_post true (wr SR c s).
Definition via_dummy_shift (s : vc) : vc := via_sr_int_post false (wr SR 0 s).

Definition via_sr_int (data_flag : bool) (s : vc) : outcome vc :=
  s ← V_LOCK s;
  let s := if data_flag then wr IFR (rd IFR s .| SR_DATA_INT) s else s in
  let s := upd_via (set_sr_active false) (wr IFR (rd IFR s .| (SR_INT .| SR_CLOCK_INT)) s) in
  Ret (V_UNLOCK (UPDATE_IRQ s)).

Definition timer_regs (is_timer1 : bool) : nat * nat := if is_timer1 then (T1CH, T1CL) else (T2CH, T2CL).

Definition via_timer_update (is_timer1 : bool) (s : vc) : vc :=
  let mdiff := (mticks - (if is_timer1 then t1_stamp (via s) else t2_stamp (via s))) mod 2 ^ 64 in
  let s := upd_via (set_stamp is_timer1 mticks) s in
  let diff := u32 (u32 (mticks_to_usecs mdiff) * VIA_TICKS_TO_USECS_DEN) / VIA_TICKS_TO_USECS_NUM in
  let '(hi, lo) := timer_regs is_timer1 in
  let diff := u32 (((rd hi s .<< 8) .| rd lo s) - diff) in
  wr lo (diff .& 0xff) (wr hi ((diff .>> 8) .& 0xff) s).

Definition via_timer_start (is_timer1 : bool) (s : vc) : vc :=
  let '(hi, lo) := timer_regs is_timer1 in
  let val := (rd hi s .<< 8) .| rd lo s in
  let i := if is_timer1 then t1_id (via s) else t2_id (via s) in
  let s := if negb (i =? 0) then cancel_timer i s else s in
  let usecs := u32 (val * VIA_TICKS_TO_USECS_NUM) / VIA_TICKS_TO_USECS_DEN in
  let '(i, s) := usec_timer usecs HExpire s in
  upd_via (set_timer_id is_timer1 i) s.

Definition via_expire_timer (id : Z) (s : vc) : outcome vc :=
  s ← V_LOCK s;
  if negb (id =? t1_id (via s)) && negb (id =? t2_id (via s)) then Ret s else
  let s :=
    if id =? t1_id (via s) then
      let s := upd_via (set_timer_id true 0) s in
      let s := wr T1CH (rd T1LH s) (wr T1CL (rd T1LL s) s) in
      let s := upd_via (set_stamp true mticks) s in
      let s := if tst (rd ACR s) T1MODE_CONT then via_timer_start true s else s in
      wr IFR (rd IFR s .| T1_INT) s
    else
      let s := upd_via (set_timer_id false 0) s in
      let s := wr T2CL 0xff (wr T2CH 0xff s) in
      let s := upd_via (set_stamp false mticks) s in
      wr IFR (rd IFR s .| T2_INT) s in
  Ret (V_UNLOCK (UPDATE_IRQ s)).

(** ** CUDA *)

Definition cuda_msg_avail (s : vc) : bool := negb (out_req_count (cuda s) =? 0).

(** [via_cuda_reply] and [via_cuda_set_reply_buffer]; a packet that is too
    long, or a reply in the middle of another one, copies sixteen bytes from
    beyond the arguments. *)
Definition set_reply (p : list Z) (s : vc) : outcome vc :=
  let len := Z.of_nat (length p) in
  if (VIA_BUFFER_LEN <? len) || negb (out_count (cuda s) =? 0) then Stuck
  else Ret (upd_cuda (fun c => set_out (p ++ drop (length p) (out_buffer c)) len c) s).

Fixpoint set_replies (l : list (list Z)) (s : vc) : outcome vc :=
  match l with
  | [] => Ret s
  | p :: l' => s ← set_reply p s; set_replies l' s
  end.

(** A call into [adb.c] from the CUDA: the replies it makes *)
Definition adb_call (op : Adb.adb_state -> option Adb.adb_state) (s : vc) : outcome vc :=
  let a := adb s in
  a' ← of_option (op (Adb.AdbState (Adb.root a) (Adb.kbd a) (Adb.mouse a) (Adb.stop_input a) [] (Adb.service_requests a)));
  set_replies (rev (Adb.replies a')) (set_adb a' s).

Definition cuda_poll (s : vc) : outcome vc :=
  if (out_req_count (cuda s) =? 0) && autopoll (cuda s) then adb_call Adb.adb_poll s else Ret s.

(** [data] is what follows the command in the buffer, [len] its length. *)
Definition cuda_packet (cmd : Z) (data : list Z) (len : Z) (s : vc) : outcome vc :=
  let d0 := default 0 (data !! 0%nat) in
  let ok := fun l s => set_reply ([CUDA_PACKET; 0; cmd] ++ l) s in
  let err := fun r s => set_reply [ERROR_PACKET; r; CUDA_PACKET; cmd] s in
  if (cmd =? CUDA_WARM_START) || (cmd =? CUDA_RESET_SYSTEM) || (cmd =? CUDA_MS_RESET) || (cmd =? CUDA_POWERDOWN)
  then ok [] (start_timer 5000 HPowerDown s)
  else if cmd =? CUDA_POWERUP_TIME then ok [] s
  else if cmd =? CUDA_AUTOPOLL then ok [] (upd_cuda (set_autopoll (negb (d0 =? 0))) s)
  else if cmd =? CUDA_GET_TIME then ok (be_bytes 4 (u32 (rtc (cuda s) + time_now))) s
  else if cmd =? CUDA_SET_TIME then ok [] (upd_cuda (set_rtc (be_value (take 4 data)) time_now) s)
  else if (cmd =? CUDA_GET_PRAM) || (cmd =? CUDA_SET_PRAM) || (cmd =? CUDA_GET_6805_ADDR) || (cmd =? CUDA_SET_6805_ADDR)
       || (cmd =? CUDA_SEND_DFAC) || (cmd =? CUDA_SET_IPL_LEVEL) || (cmd =? CUDA_SET_AUTO_RATE) then ok [] s
  else if cmd =? CUDA_GET_AUTO_RATE then ok [0xb] s
  else if cmd =? CUDA_SET_DEVICE_LIST then ok [] s
  else if cmd =? CUDA_GET_DEVICE_LIST then ok [0; 0] s
  else if cmd =? CUDA_GET_SET_IIC then (if negb (len =? 3) then err 2 s else ok [] s)
  else if cmd =? CUDA_CMD_1C then set_reply [2; 2; 1; cmd] s
  else if (cmd =? CUDA_TIMER_TICKLE) || (cmd =? CUDA_SET_POWER_MESSAGES) || (cmd =? CUDA_ENABLE_DISABLE_WAKEUP)
       || (cmd =? CUDA_CMD_26) then ok [] s
  else if cmd =? CUDA_SET_ONE_SECOND_MODE then
    if negb (d0 =? 0) then ok [] (start_timer 1000000 HOneSec (upd_cuda (fun c => set_onesec true (onesec_pending c) 0 c) s))
    else ok [] (upd_cuda (fun c => set_onesec false (onesec_pending c) (onesec_last c) c) s)
  else if cmd =? CUDA_COMBINED_FORMAT_IIC then err 5 s
  else err 2 s.

Definition cuda_incoming (s : vc) : outcome vc :=
  let s := upd_cuda (set_out_count 0) s in
  if in_count (cuda s) <? 2 then Ret s else
  let b := in_buffer (cuda s) in
  let b0 := default 0 (b !! 0%nat) in
  let b1 := default 0 (b !! 1%nat) in
  let len := in_count (cuda s) - 2 in
  s ← set_reply [2; 2; b0] s;
  s ← (if b0 =? Adb.ADB_PACKET then adb_call (Adb.adb_packet b1 (take (Z.to_nat len) (drop 2 b)) rnd) s
       else if b0 =? CUDA_PACKET then cuda_packet b1 (drop 2 b) len s
       else Ret s);
  Ret (upd_cuda (fun c => set_in (in_buffer c) 0 c) s).

(** The message that is announced before it is fetched *)
Definition fill_message (s : vc) : outcome vc :=
  if negb (fill_out_buffer (cuda s)) then Ret s else
  let s := upd_cuda (set_fill false) s in
  s ← (if cuda_msg_avail s then Ret s
       else if onesec_enabled (cuda s) && negb (onesec_pending (cuda s) =? 0) then
         set_reply [TIMER_PACKET] (upd_cuda (fun c => set_onesec true (onesec_pending c - 1) (onesec_last c) c) s)
       else cuda_poll s);
  if cuda_msg_avail s then Ret s else Exit 1.

Definition shift_to_guest (s : vc) : outcome vc :=
  let i := out_count (cuda s) in
  c ← of_option (if i <? 0 then None else out_buffer (cuda s) !! Z.to_nat i);
  let s := via_shift_in c (upd_cuda (set_out_count (i + 1)) s) in
  Ret (if out_req_count (cuda s) <=? out_count (cuda s)
       then upd_cuda (fun c => set_treq true (set_out_count 0 (set_out (out_buffer c) 0 c))) s else s).

Definition shift_from_guest (s : vc) : outcome vc :=
  let '(c, s) := via_shift_out s in
  let n := in_count (cuda s) in
  if n <? VIA_BUFFER_LEN
  then if n <? 0 then Stuck
       else Ret (upd_cuda (fun x => set_in (<[Z.to_nat n := c]> (in_buffer x)) (n + 1) x) s)
  else Ret s.

(** TIP is high: the packet sent, if any, is processed. *)
Definition end_transfer (ta : bool) (s : vc) : outcome vc :=
  let s := upd_cuda (set_fill false) s in
  s ← (if negb (in_count (cuda s) =? 0) then cuda_incoming s else Ret s);
  let s := upd_cuda (fun c => set_out_count 0 (set_in (in_buffer c) 0 c)) s in
  let s := if negb ta then upd_cuda (fun c => set_out (out_buffer c) 0 c) s else s in
  let s := upd_cuda (set_treq ta) s in
  Ret (if ta && cuda_msg_avail s then start_timer (hack_treq_delay (cuda s)) HStartReply s else via_dummy_shift s).

Definition cuda_handshake (ta ti : bool) (s : vc) : outcome vc :=
  s ← C_LOCK s;
  if Bool.eqb ta (tack (cuda s)) && Bool.eqb ti (tip (cuda s)) then Ret (C_UNLOCK s) else
  let s := upd_cuda (set_lines ta ti) s in
  s ← (if ti then end_transfer ta s
       else if treq (cuda s) then shift_from_guest s
       else s ← fill_message s; shift_to_guest s);
  Ret (C_UNLOCK s).

Definition cuda_start_reply (s : vc) : outcome vc :=
  s ← C_LOCK s;
  Ret (C_UNLOCK (if cuda_msg_avail s && treq (cuda s) && tip (cuda s)
                 then via_dummy_shift (upd_cuda (set_treq false) s) else s)).

Definition cuda_sr_idle (s : vc) : outcome vc :=
  s ← C_LOCK s;
  Ret (C_UNLOCK (
    if treq (cuda s) && tip (cuda s) && negb (cuda_msg_avail s) && autopoll (cuda s) && Adb.adb_mes_avail (adb s)
    then via_dummy_shift (upd_cuda (fun c => set_treq false (set_fill true c)) s) else s)).

Definition adb_service_request (s : vc) : outcome vc :=
  s ← C_LOCK s;
  Ret (C_UNLOCK (
    if (autopoll (cuda s) || onesec_enabled (cuda s)) && tip (cuda s) && tack (cuda s) && negb (cuda_msg_avail s)
    then via_dummy_shift (upd_cuda (fun c => set_treq false (set_fill true c)) s) else s)).

Definition cuda_one_sec_timer (s : vc) : outcome vc :=
  s ← C_LOCK s;
  if negb (onesec_enabled (cuda s)) then Ret (C_UNLOCK s) else
  let last := (if onesec_last (cuda s) =? 0 then u32 tv_sec else onesec_last (cuda s)) + 1 in
  let s := upd_cuda (fun c => set_onesec true (onesec_pending c + 1) (u32 last) c) s in
  let count := s32 (u32 (last - tv_sec) * 1000000 - tv_usec) in
  let count := if count <=? 0 then 1 else count in
  adb_service_request (start_timer count HOneSec (C_UNLOCK s)).

(** ** I/O *)

Definition via_reg_of (base addr : Z) : nat := Z.to_nat (u32 (addr - base) / VIA_REG_LEN).

(** The calibration hack on a read of timer 1 *)
Definition g3_hack (s : vc) : vc :=
  if nip s =? 0xfff8407c then
    Vc (via s) (cuda s) (adb s) (timers s) (next_timer s)
      (if hack_count s =? 4 then 0xfff840c8 - 4 else nip s) (hack_count s + 1)
  else s.

Definition clear_ifr (m : Z) (s : vc) : vc := UPDATE_IRQ (wr IFR (Z.land (rd IFR s) (Z.lnot m)) s).
Definition SR_INTS : Z := SR_INT .| SR_DATA_INT .| SR_CLOCK_INT.

Definition via_io_read (base addr : Z) (s : vc) : outcome (Z * vc) :=
  s ← V_LOCK s;
  let r := via_reg_of base addr in
  if decide (VIA_REG_COUNT <= r)%nat then Stuck else
  let ret := rd r s in
  '(ret, s) ← (if decide (r = B) then
                 Ret ((ret .& rd DIRB s) .| (if treq (cuda s) then TREQ else 0), s)
               else if decide (r = T1CL \/ r = T1CH) then
                 let s := if decide (r = T1CL) then clear_ifr T1_INT s else s in
                 let s := via_timer_update true (g3_hack s) in
                 Ret (rd r s, s)
               else if decide (r = T2CL \/ r = T2CH) then
                 let s := if decide (r = T2CL) then clear_ifr T2_INT s else s in
                 let s := via_timer_update false s in
                 Ret (rd r s, s)
               else if decide (r = SR) then
                 s ← cuda_sr_idle (clear_ifr SR_INTS s); Ret (ret, s)
               else if decide (r = IFR) then
                 let ret := ret .& 0x7f in
                 Ret (if tst ret (rd IER s) then ret .| IRQ_LINE else ret, s)
               else if decide (r = IER) then Ret (ret .| 0x80, s)
               else Ret (ret, s));
  Ret (ret, V_UNLOCK s).

Definition via_io_write (base addr data : Z) (s : vc) : outcome vc :=
  s ← V_LOCK s;
  let r := via_reg_of base addr in
  if decide (VIA_REG_COUNT <= r)%nat then Stuck else
  s ← (if decide (r = B) then
         let s := wr B ((data .& rd DIRB s) .| Z.land (rd B s) (Z.lnot (rd DIRB s))) s in
         cuda_handshake (tst (rd B s) TACK) (tst (rd B s) TIP) s
       else if decide (r = T1CL) then Ret (upd_via (set_stamp true mticks) (wr r data s))
       else if decide (r = T1CH) then
         Ret (via_timer_start true (upd_via (set_stamp true mticks) (wr T1CH data (wr T1CL 0xff s))))
       else if decide (r = T2CL) then Ret (upd_via (set_stamp false mticks) (wr r data s))
       else if decide (r = T2CH) then
         Ret (via_timer_start false (upd_via (set_stamp false mticks) (wr T2CH data (wr T2CL 0xff s))))
       else if decide (r = SR) then Ret (clear_ifr SR_INTS (wr SR data s))
       else if decide (r = ACR) then
         let s := wr r data s in
         Ret (if tst data T1MODE_CONT then via_timer_start true (via_timer_update true s) else s)
       else if decide (r = IFR) then Ret (clear_ifr data s)
       else if decide (r = IER) then
         Ret (if tst data IER_SET then wr r (rd IER s .| (data .& 0x7f)) s
              else wr r (Z.land (rd IER s) (Z.lnot data)) s)
       else Ret (wr r data s));
  Ret (V_UNLOCK s).

(** A timer that is due *)
Definition run_handler (id : Z) (h : handler) (s : vc) : outcome vc :=
  match h with
  | HExpire => via_expire_timer id s
  | HSrInt f => via_sr_int f s
  | HStartReply => cuda_start_reply s
  | HOneSec => cuda_one_sec_timer s
  | HPowerDown => Exit 0
  end.

(** An event of the host delivered to the ADB, which may ask for service *)
Definition host_event (op : Adb.adb_state -> option Adb.adb_state) (s : vc) : outcome vc :=
  let n := Adb.service_requests (adb s) in
  a ← of_option (op (adb s));
  (fix requests (k : nat) (s : vc) : outcome vc :=
     match k with O => Ret s | S k' => s ← adb_service_request s; requests k' s end)
    (Z.to_nat (Adb.service_requests a - n)) (set_adb a s).

(** ** Initialisation *)

(** [cuda must be idle] *)
Definition prepare_save (s : vc) : bool :=
  sr_active (via s) || negb (treq (cuda s) && tip (cuda s) && negb (cuda_msg_avail s)).

(** Without a saved session; [old] boot needs the hardware latencies. *)
Definition via_cuda_init (old : bool) (keyboard_id : Z) : vc :=
  Vc (Via false false (replicate VIA_REG_COUNT 0) 0 0 0 0 false (if old then 60 else 0))
     (CudaState false false false false (replicate 16 0) 0 0 false (replicate 16 0) 0
        (u32 (time_now + CUDA_RTC_OFFSET)) time_now false 0 0 false (if old then 10 else 0))
     (Adb.adb_init keyboard_id (Adb.AdbState [] None None false [] 0)) [] 1 0 0.

End Cuda.

End Cuda.
