(* ===== verification/CudaInv.v ===== *)
(** * Safety of the VIA and CUDA

    Whatever the guest does with the registers, whichever timer fires and
    whatever is typed, no buffer is overrun and no lock is waited for in
    vain. *)

From S2P Require Import Prelude Adb Cuda.

Module CudaInv.
Import Cuda.

(** ** The ADB never gets stuck *)

Definition usr_ok (u : Adb.adb_usr) : Prop := match u with Adb.UKbd ks => Adb.kbd_ok ks | Adb.UMouse _ => True end.
Definition same_kind (u v : Adb.adb_usr) : Prop :=
  match u, v with Adb.UKbd _, Adb.UKbd _ => True | Adb.UMouse _, Adb.UMouse _ => True | _, _ => False end.
Definition dev_ok (d : Adb.adb_device) : Prop := usr_ok (Adb.usr d).

(** The devices [l'] are those of [l] in another state. *)
Definition devs_like (l l' : list Adb.adb_device) : Prop := Forall2 (fun d d' => same_kind (Adb.usr d) (Adb.usr d')) l l'.

Record adb_ok (a : Adb.adb_state) : Prop := {
  ad_devs : Forall dev_ok (Adb.root a);
  ad_kbd i : Adb.kbd a = Some i -> exists d ks, Adb.root a !! i = Some d /\ Adb.usr d = Adb.UKbd ks;
  ad_mouse i : Adb.mouse a = Some i -> exists d ms, Adb.root a !! i = Some d /\ Adb.usr d = Adb.UMouse ms
}.

Lemma same_kind_refl u : same_kind u u.
Proof. by destruct u. Qed.

Lemma devs_refl l : devs_like l l.
Proof. apply Forall2_same_length_lookup. split; [done|]. intros i x y -> [= ->]. apply same_kind_refl. Qed.

Lemma devs_insert l i d d' :
  l !! i = Some d -> same_kind (Adb.usr d) (Adb.usr d') -> devs_like l (<[i := d']> l).
Proof.
  intros Hi Hk. apply Forall2_same_length_lookup. split; [by rewrite length_insert|].
  intros j x y Hx Hy. destruct (decide (i = j)) as [<-|Hij].
  - rewrite list_lookup_insert_eq in Hy by (by apply lookup_lt_Some in Hi). congruence.
  - rewrite list_lookup_insert_ne in Hy by done. replace y with x by congruence. apply same_kind_refl.
Qed.

Lemma adb_ok_like a l k m st r q :
  adb_ok a -> Forall dev_ok l -> devs_like (Adb.root a) l -> k = Adb.kbd a -> m = Adb.mouse a ->
  adb_ok (Adb.AdbState l k m st r q).
Proof.
  intros [H1 H2 H3] Hl Hlike -> ->. split; cbn [Adb.root Adb.kbd Adb.mouse]; [done|..].
  - intros i (d & ks & Hd & Hu)%H2. destruct (Forall2_lookup_l _ _ _ _ _ Hlike Hd) as (d' & Hd' & Hk).
    rewrite Hu in Hk. destruct (Adb.usr d') as [|ks'] eqn:E; [done|]. by exists d', ks'.
  - intros i (d & ms & Hd & Hu)%H3. destruct (Forall2_lookup_l _ _ _ _ _ Hlike Hd) as (d' & Hd' & Hk).
    rewrite Hu in Hk. destruct (Adb.usr d') as [ms'|] eqn:E; [|done]. by exists d', ms'.
Qed.

Lemma kbd_pop_ok ks : Adb.kbd_ok ks -> exists k ks', Adb.kbd_pop ks = Some (k, ks') /\ Adb.kbd_ok ks'.
Proof.
  intros Hk. destruct (Adb.queue ks) as [|k q] eqn:E.
  - exists 0xff, ks. split; [by apply Adb.kbd_pop_nil|done].
  - destruct (Adb.kbd_pop_cons ks k q Hk E) as (ks' & H1 & H2 & _). by exists k, ks'.
Qed.

Lemma read_reg_ok d reg : dev_ok d ->
  exists d' p, Adb.read_reg d reg = Some (d', p) /\ dev_ok d' /\ same_kind (Adb.usr d) (Adb.usr d') /\ (length p <= 5)%nat.
Proof.
  unfold dev_ok, Adb.read_reg. destruct (Adb.usr d) as [ms|ks] eqn:E; intros Hd.
  - unfold Adb.mouse_read_reg. repeat case_match; eexists _, _; (split; [reflexivity|]); cbn; rewrite ?E; repeat split; lia.
  - unfold Adb.kbd_read_reg. destruct (reg =? 0).
    + destruct (kbd_pop_ok ks Hd) as (k1 & ks1 & E1 & H1). rewrite E1. cbn [mbind option_bind snd].
      destruct (kbd_pop_ok ks1 H1) as (k2 & ks2 & E2 & H2). rewrite E2. cbn [mbind option_bind fst snd].
      eexists _, _. split; [reflexivity|]. cbn [Adb.usr]. split; [done|]. split; [done|].
      case_match; cbn; lia.
    + destruct (reg =? 2); eexists _, _; (split; [reflexivity|]); rewrite E; (split; [done|split; [done|cbn; lia]]).
Qed.

(** What a call of the CUDA into [adb.c] keeps *)
Record adb_step (a a' : Adb.adb_state) : Prop := {
  as_ok : adb_ok a';
  as_replies : exists l, Adb.replies a' = l ++ Adb.replies a /\ (length l <= 1)%nat /\ Forall (fun p => (length p <= 5)%nat) l
}.

Lemma adb_ok_root a l : adb_ok a -> Forall dev_ok l -> devs_like (Adb.root a) l -> adb_ok (Adb.set_root l a).
Proof. intros Ha Hl Hk. by apply (adb_ok_like a). Qed.

Lemma adb_ok_reply a p : adb_ok a -> adb_ok (Adb.reply p a).
Proof. intros Ha. apply (adb_ok_like a); try done; [apply Ha|apply devs_refl]. Qed.

Lemma step_reply a0 a p : Adb.replies a = Adb.replies a0 -> adb_ok a -> (length p <= 5)%nat -> adb_step a0 (Adb.reply p a).
Proof.
  intros Hr Ha Hp. split; [by apply adb_ok_reply|]. exists [p]. cbn [Adb.replies Adb.reply]. rewrite Hr.
  split; [done|]. split; [cbn; lia|by apply Forall_singleton].
Qed.

Lemma adb_poll_ok a : adb_ok a -> exists a', Adb.adb_poll a = Some a' /\ adb_step a a'.
Proof.
  unfold Adb.adb_poll. intros Ha.
  enough (forall l i a1, drop i (Adb.root a1) = l -> adb_ok a1 -> Adb.replies a1 = Adb.replies a ->
    exists a', Adb.poll_from l i a1 = Some a' /\ adb_step a a') as H by (by apply H).
  induction l as [|d l IH]; intros i a1 Hl Ha1 Hr; cbn [Adb.poll_from].
  - exists a1. split; [done|]. split; [done|]. exists []. by split_and!; [|cbn; lia|apply Forall_nil].
  - assert (Hd : Adb.root a1 !! i = Some d) by (by rewrite <- (Nat.add_0_r i), <- lookup_drop, Hl).
    assert (Hl' : drop (S i) (Adb.root a1) = l).
    { replace (S i) with (i + 1)%nat by lia. by rewrite <- drop_drop, Hl. }
    destruct (Adb.service_req d).
    + pose proof (proj1 (Forall_lookup dev_ok _) (ad_devs _ Ha1) i d Hd) as Hdo.
      destruct (read_reg_ok d 0 Hdo) as (d' & p & E & Hd' & Hk & Hp). rewrite E. cbn [mbind option_bind fst snd].
      assert (Hok : adb_ok (Adb.set_root (<[i:=d']> (Adb.root a1)) a1)).
      { apply adb_ok_root; [done|by apply Forall_insert; [apply Ha1|]|by apply (devs_insert _ i d d')]. }
      destruct p as [|b p]; [|eexists; split; [reflexivity|by apply step_reply]].
      apply IH; [|done|done]. cbn [Adb.root Adb.set_root]. rewrite drop_insert_lt by lia. done.
    + by apply IH.
Qed.

Lemma rename_devs old new fuel : forall i l l',
  Adb.rename_all fuel i old new l = Some l' -> map Adb.usr l' = map Adb.usr l.
Proof.
  assert (A : forall i l, map Adb.usr (alter (Adb.set_id new) i l) = map Adb.usr l).
  { intros i l. apply list_eq. intros j. rewrite !list_lookup_fmap. destruct (decide (i = j)) as [<-|].
    - rewrite list_lookup_alter_eq. by destruct (l !! i).
    - by rewrite list_lookup_alter_ne. }
  induction fuel as [|f IH]; intros i l l'; cbn [Adb.rename_all]; [done|].
  destruct (Adb.find_adb_device _ _) as [j|].
  - intros H%IH. by rewrite H, A.
  - intros [= <-]. apply A.
Qed.

Lemma alter_devs (f : Adb.adb_device -> Adb.adb_device) i l :
  (forall d, Adb.usr (f d) = Adb.usr d) -> map Adb.usr (alter f i l) = map Adb.usr l.
Proof.
  intros H. apply list_eq. intros j. rewrite !list_lookup_fmap. destruct (decide (i = j)) as [<-|].
  - rewrite list_lookup_alter_eq. destruct (l !! i); cbn; [by rewrite H|done].
  - by rewrite list_lookup_alter_ne.
Qed.

Lemma write_reg3_ok i did b0 b1 l d : l !! i = Some d -> Adb.id d = did ->
  exists l', Adb.write_reg3 i did b0 b1 l = Some l' /\ map Adb.usr l' = map Adb.usr l.
Proof.
  intros Hi Hd. unfold Adb.write_reg3. set (l1 := alter _ i l).
  assert (H1 : map Adb.usr l1 = map Adb.usr l) by (by apply alter_devs).
  assert (Hl1 : l1 !! i = Some (Adb.set_service_req_enable (tst b0 0x20) d)) by (unfold l1; by rewrite list_lookup_alter_eq, Hi).
  destruct (_ || _); [by exists l1|]. destruct (b1 =? 0xfe); [eexists; split; [done|]; by rewrite alter_devs|].
  destruct (b1 =? 0); [|by exists l1]. rewrite Hl1. cbn [mbind option_bind].
  change (Adb.id (Adb.set_service_req_enable _ d)) with (Adb.id d).
  destruct (Z.eqb_spec (Adb.id d) (b0 .& 0xf)) as [E|E]; cbn [negb mbind option_bind].
  - eexists. split; [done|]. by rewrite alter_devs.
  - rewrite (Adb.rename_all_spec (S (length l1)) i did (b0 .& 0xf) l1 _ ltac:(congruence) Hl1 Hd)
      by (unfold Adb.olds; etrans; [apply length_filter|lia]).
    cbn [mbind option_bind]. eexists. split; [done|]. rewrite alter_devs by done. rewrite <- H1.
    rewrite map_map. apply map_ext. intros x. unfold Adb.rename. by case_match.
Qed.

Lemma devs_usr l l' : map Adb.usr l' = map Adb.usr l -> Forall dev_ok l -> Forall dev_ok l' /\ devs_like l l'.
Proof.
  intros H Hl. assert (X : forall i d', l' !! i = Some d' -> exists d, l !! i = Some d /\ Adb.usr d = Adb.usr d').
  { intros i d' Hd'. apply (f_equal (lookup i)) in H. rewrite !list_lookup_fmap, Hd' in H.
    destruct (l !! i) as [d|]; [|done]. exists d. split; [done|]. by injection H. }
  split.
  - apply Forall_lookup. intros i d' (d & Hd & Hu)%X. unfold dev_ok. rewrite <- Hu.
    by apply (proj1 (Forall_lookup dev_ok _) Hl i).
  - apply Forall2_same_length_lookup. split; [by rewrite <- (length_map Adb.usr l), <- H, length_map|].
    intros i d d' Hd (d0 & Hd0 & Hu)%X. replace d0 with d in Hu by congruence. rewrite Hu. apply same_kind_refl.
Qed.

Lemma adb_packet_ok cmd dat rnd a : adb_ok a -> exists a', Adb.adb_packet cmd dat rnd a = Some a' /\ adb_step a a'.
Proof.
  intros Ha. unfold Adb.adb_packet.
  assert (Hout : forall a1, Adb.replies a1 = Adb.replies a -> adb_ok a1 ->
    exists a', Some (Adb.reply [Adb.ADB_PACKET; 0x40; cmd] a1) = Some a' /\ adb_step a a').
  { intros a1 Hr H1. eexists. split; [done|]. by apply step_reply; [..|cbn; lia]. }
  destruct (_ =? 0); [by apply Hout|].
  destruct (Adb.find_adb_device _ _) as [i|] eqn:Ef; [|by apply Hout].
  unfold Adb.find_adb_device in Ef. apply fmap_Some in Ef as ([i' d] & Ef & Hi').
  cbn in Hi'. subst i'. apply list_find_Some in Ef as (Hd & Hid & _). rewrite Hd. cbn [mbind option_bind].
  pose proof (proj1 (Forall_lookup dev_ok _) (ad_devs _ Ha) i d Hd) as Hdo.
  destruct (_ =? 1); [by apply Hout|]. destruct (_ =? 0xc).
  - destruct dat as [|b dat]; [|by apply Hout]. destruct (_ =? 3).
    + eexists. split; [done|]. by apply step_reply; [..|cbn; lia].
    + destruct (read_reg_ok d (cmd .& 0x3) Hdo) as (d' & p & E & Hd' & Hk & Hp). rewrite E. cbn [mbind option_bind fst snd].
      eexists. split; [done|]. apply step_reply; [done| |done].
      apply adb_ok_root; [done|by apply Forall_insert; [apply Ha|]|by apply (devs_insert _ i d d')].
  - destruct (tst cmd 0x8); [|by apply Hout]. destruct (_ =? 3).
    + destruct dat as [|b0 [|b1 [|b2 dat]]]; try by apply Hout.
      destruct (write_reg3_ok i ((cmd .>> 4) .& 0xf) b0 b1 (Adb.root a) d Hd Hid) as (l' & E & Hu). rewrite E.
      cbn [mbind option_bind]. destruct (devs_usr _ _ Hu (ad_devs _ Ha)) as [H1 H2].
      apply Hout; [done|]. by apply adb_ok_root.
    + apply Hout; [done|]. unfold Adb.write_reg. rewrite list_insert_id by done.
      apply adb_ok_root; [done|apply Ha|apply devs_refl].
Qed.

(** ** The invariant *)

Record bufs (c : cuda_state) : Prop := {
  bu_out : length (out_buffer c) = 16%nat;
  bu_in : length (in_buffer c) = 16%nat;
  bu_in_count : 0 <= in_count c <= 16;
  bu_req : 0 <= out_req_count c <= 16;
  bu_count : out_count c = 0 \/ 0 < out_count c < out_req_count c
}.

(** The timers have distinct ids, and a timer of the VIA is the current one. *)
Record timers_ok (ts : list (Z * (Z * handler))) (next i1 i2 : Z) : Prop := {
  tm_nodup : NoDup (map fst ts);
  tm_ids t : t ∈ ts -> 0 < t.1 < next;
  tm_next : 0 < next;
  tm_expire i u : (i, (u, HExpire)) ∈ ts -> i = i1 \/ i = i2
}.

Record inv (s : vc) : Prop := {
  in_bufs : bufs (cuda s);
  in_reg : length (reg (via s)) = 16%nat;
  in_timers : timers_ok (timers s) (next_timer s) (t1_id (via s)) (t2_id (via s));
  in_adb : adb_ok (adb s)
}.

Definition locks (s : vc) : bool * bool := (v_lock (via s), c_lock (cuda s)).

(** An outcome that is not [Stuck], and satisfies [Q] *)
Definition holds (Q : vc -> Prop) (o : outcome vc) : Prop :=
  match o with Ret s => Q s | Exit _ => True | Stuck => False end.

(** The invariant with the locks as given, and with no reply on its way *)
Definition st (l : bool * bool) (s : vc) : Prop := inv s /\ locks s = l.
Definition idle (l : bool * bool) (s : vc) : Prop := st l s /\ out_count (cuda s) = 0.

Lemma holds_bind (Q R : vc -> Prop) (o : outcome vc) (f : vc -> outcome vc) :
  holds Q o -> (forall s, Q s -> holds R (f s)) -> holds R (o ≫= f).
Proof. destruct o as [s| |]; cbn; [|done..]. intros H1 Hf. by apply Hf. Qed.

Lemma holds_weaken (Q R : vc -> Prop) o : holds Q o -> (forall s, Q s -> R s) -> holds R o.
Proof. destruct o; cbn; auto. Qed.

(** *** What the small operations keep *)

Lemma inv_wr i v s : inv s -> inv (wr i v s) /\ locks (wr i v s) = locks s.
Proof. intros [H1 H2 H3 H4]. split; [split; try done|done]. cbn. by rewrite length_insert. Qed.

Lemma inv_via f s :
  reg (f (via s)) = reg (via s) -> t1_id (f (via s)) = t1_id (via s) -> t2_id (f (via s)) = t2_id (via s) ->
  inv s -> inv (upd_via f s).
Proof. intros E1 E2 E3 [H1 H2 H3 H4]. split; cbn; rewrite ?E1, ?E2, ?E3; done. Qed.

Lemma inv_irq s : inv s -> inv (UPDATE_IRQ s) /\ locks (UPDATE_IRQ s) = locks s.
Proof. intros H. split; [by apply inv_via|done]. Qed.

Lemma inv_cuda f s : bufs (f (cuda s)) -> inv s -> inv (upd_cuda f s).
Proof. intros Hb [H1 H2 H3 H4]. by split. Qed.

Lemma start_timers ts n i1 i2 u h : timers_ok ts n i1 i2 -> h <> HExpire -> timers_ok ((n, (u, h)) :: ts) (n + 1) i1 i2.
Proof.
  intros [H1 H2 H3 H4] Hh. split; [|..|lia|].
  - cbn. apply list.NoDup_cons. split; [|done]. intros Hin. apply list_elem_of_fmap in Hin as (t & -> & Ht). apply H2 in Ht. lia.
  - intros t [-> | Ht]%elem_of_cons; [cbn; lia|]. apply H2 in Ht. lia.
  - intros i v [[= -> -> <-] | Hi]%elem_of_cons; [done|]. by apply (H4 i v).
Qed.

Lemma inv_start u h s : inv s -> h <> HExpire -> inv (start_timer u h s) /\ locks (start_timer u h s) = locks s.
Proof. intros [H1 H2 H3 H4] Hh. split; [|done]. split; try done. by apply start_timers. Qed.

Lemma inv_post b s : inv s -> inv (via_sr_int_post b s) /\ locks (via_sr_int_post b s) = locks s /\
  cuda (via_sr_int_post b s) = cuda s /\ adb (via_sr_int_post b s) = adb s.
Proof.
  intros H. unfold via_sr_int_post. destruct (sr_active (via s)); [done|].
  destruct (inv_start (hack_sr_shift_delay (via s)) (HSrInt b) (upd_via (set_sr_active true) s)) as [H1 H2];
    [by apply inv_via|done|]. done.
Qed.

Lemma inv_dummy s : inv s -> inv (via_dummy_shift s) /\ locks (via_dummy_shift s) = locks s /\
  cuda (via_dummy_shift s) = cuda s.
Proof.
  intros H. unfold via_dummy_shift. destruct (inv_wr SR 0 s H) as [H1 H2].
  destruct (inv_post false _ H1) as (H3 & H4 & H5 & _). split_and!; [done|congruence|done].
Qed.

Lemma V_LOCK_eq s : v_lock (via s) = false -> V_LOCK s = Ret (upd_via (set_v_lock true) s).
Proof. intros H. unfold V_LOCK. by rewrite H. Qed.

Lemma C_LOCK_eq s : c_lock (cuda s) = false -> C_LOCK s = Ret (upd_cuda (set_c_lock true) s).
Proof. intros H. unfold C_LOCK. by rewrite H. Qed.

Lemma inv_lock_c b s : inv s -> inv (upd_cuda (set_c_lock b) s).
Proof. intros [H1 H2 H3 H4]. split; try done. by destruct H1. Qed.

Lemma inv_lock_v b s : inv s -> inv (upd_via (set_v_lock b) s).
Proof. intros [H1 H2 H3 H4]. by split. Qed.

(** *** Timers of the VIA *)

Lemma drop_timers ts n i1 i2 (P : Z * (Z * handler) -> Prop) `{!forall t, Decision (P t)} :
  timers_ok ts n i1 i2 -> timers_ok (filter P ts) n i1 i2.
Proof.
  intros [H1 H2 H3 H4]. split; [|..|done|].
  - eapply sublist_NoDup; [exact H1|]. apply fmap_sublist, sublist_filter.
  - intros t [_ Ht]%list_elem_of_filter. by apply H2.
  - intros i u [_ Ht]%list_elem_of_filter. by apply (H4 i u).
Qed.

(** The timer [i1] is replaced. *)
Lemma renew_timers ts n i1 i2 u : timers_ok ts n i1 i2 ->
  timers_ok ((n, (u, HExpire)) :: (if negb (i1 =? 0) then filter (fun t => t.1 <> i1) ts else ts)) (n + 1) n i2.
Proof.
  intros H. pose proof H as [H1 H2 H3 H4].
  set (ts' := if negb (i1 =? 0) then _ else _).
  assert (K : timers_ok ts' n i1 i2) by (unfold ts'; destruct (negb _); [by apply drop_timers|done]).
  assert (Hi : forall u, (i1, (u, HExpire)) ∉ ts').
  { intros v Hin. destruct (Z.eqb_spec i1 0) as [->|Hn].
    - apply (tm_ids _ _ _ _ K) in Hin. cbn in Hin. lia.
    - unfold ts' in Hin. cbn [negb] in Hin. apply list_elem_of_filter in Hin as [Hin _]. done. }
  destruct K as [K1 K2 K3 K4]. split; [|..|lia|].
  - cbn. apply list.NoDup_cons. split; [|done]. intros Hin. apply list_elem_of_fmap in Hin as (t & -> & Ht). apply K2 in Ht. lia.
  - intros t [-> | Ht]%elem_of_cons; [cbn; lia|]. apply K2 in Ht. lia.
  - intros i v [[= -> _] | Hin]%elem_of_cons; [by left|]. destruct (K4 i v Hin) as [-> | ->]; [|by right].
    by apply Hi in Hin.
Qed.

Lemma timers_sym ts n i1 i2 : timers_ok ts n i1 i2 -> timers_ok ts n i2 i1.
Proof. intros [H1 H2 H3 H4]. split; try done. intros i u Hi. destruct (H4 i u Hi); [by right|by left]. Qed.

Lemma inv_timer_start b s : inv s -> inv (via_timer_start b s) /\ locks (via_timer_start b s) = locks s /\
  cuda (via_timer_start b s) = cuda s.
Proof.
  intros [H1 H2 H3 H4]. destruct b; unfold via_timer_start; cbn [timer_regs].
  - pose proof (renew_timers _ _ _ _ (u32 (((rd T1CH s .<< 8) .| rd T1CL s) * VIA_TICKS_TO_USECS_NUM) / VIA_TICKS_TO_USECS_DEN) H3) as K.
    destruct (negb (t1_id (via s) =? 0)); (split; [split; [done..|exact K|done]|done]).
  - pose proof (timers_sym _ _ _ _ (renew_timers _ _ _ _ (u32 (((rd T2CH s .<< 8) .| rd T2CL s) * VIA_TICKS_TO_USECS_NUM) / VIA_TICKS_TO_USECS_DEN)
      (timers_sym _ _ _ _ H3))) as K.
    destruct (negb (t2_id (via s) =? 0)); (split; [split; [done..|exact K|done]|done]).
Qed.

Lemma inv_timer_update mt f b s : inv s ->
  inv (via_timer_update mt f b s) /\ locks (via_timer_update mt f b s) = locks s /\ cuda (via_timer_update mt f b s) = cuda s.
Proof.
  intros H. destruct b; unfold via_timer_update; cbn [timer_regs];
    match goal with |- inv (wr ?i ?v (wr ?j ?w ?t)) /\ _ =>
      destruct (inv_wr j w t) as [K1 K2]; [by apply inv_via|]; destruct (inv_wr i v _ K1) as [K3 K4] end; done.
Qed.

(** ** The CUDA *)

Lemma set_reply_idle l p s : idle l s -> (length p <= 16)%nat -> holds (idle l) (set_reply p s).
Proof.
  intros [[Hi Hl] Hc] Hp. unfold set_reply. rewrite Hc. change (negb (0 =? 0)) with false. rewrite orb_false_r.
  change VIA_BUFFER_LEN with 16. destruct (Z.ltb_spec 16 (Z.of_nat (length p))); [lia|].
  split; [|done]. split; [|done]. apply inv_cuda; [|done]. destruct (in_bufs _ Hi) as [H1 H2 H3 H4 H5].
  split; cbn; try done; [|lia|by left]. rewrite length_app, length_drop. lia.
Qed.

Lemma set_replies_idle l ps : forall s, idle l s -> Forall (fun p => (length p <= 5)%nat) ps -> holds (idle l) (set_replies ps s).
Proof.
  induction ps as [|p ps IH]; intros s Hs Hp; cbn [set_replies]; [done|].
  apply list.Forall_cons in Hp as [Hp Hps]. eapply holds_bind; [apply set_reply_idle; [done|lia]|]. intros. by apply IH.
Qed.

(** A call into the ADB that is total *)
Definition total_op (op : Adb.adb_state -> option Adb.adb_state) : Prop :=
  forall a, adb_ok a -> exists a', op a = Some a' /\ adb_step a a'.

Lemma adb_call_idle l op s : total_op op -> idle l s -> holds (idle l) (adb_call op s).
Proof.
  intros Hop [[Hi Hl] Hc]. unfold adb_call.
  set (a := Adb.AdbState _ _ _ _ _ _). assert (Ha : adb_ok a).
  { pose proof (in_adb _ Hi) as Ha. apply (adb_ok_like (adb s)); [done|apply Ha|apply devs_refl|done|done]. }
  destruct (Hop a Ha) as (a' & E & H1 & ps & H2 & H3 & H4). rewrite E. cbn [of_option mbind outcome_bind].
  apply set_replies_idle.
  - split; [|done]. split; [|done]. destruct Hi. by split.
  - rewrite H2. cbn [Adb.replies]. rewrite app_nil_r. by apply Forall_rev.
Qed.

Lemma idle_cuda l f s : bufs (f (cuda s)) -> c_lock (f (cuda s)) = c_lock (cuda s) -> out_count (f (cuda s)) = 0 ->
  idle l s -> idle l (upd_cuda f s).
Proof.
  intros Hb Hl Hc [[H1 H2] H3]. split; [|done]. split; [by apply inv_cuda|]. rewrite <- H2.
  unfold locks. cbn. by rewrite Hl.
Qed.

Lemma idle_start l u h s : h <> HExpire -> idle l s -> idle l (start_timer u h s).
Proof. intros Hh [[H1 H2] H3]. destruct (inv_start u h s H1 Hh). split; [|done]. split; [done|congruence]. Qed.

Lemma idle_bufs l s : idle l s -> bufs (cuda s).
Proof. intros [[H _] _]. apply H. Qed.

Ltac idle_upd := apply idle_cuda; [match goal with H : idle _ _ |- _ => destruct (idle_bufs _ _ H); by split end|done| |done];
  match goal with H : idle _ _ |- _ => by destruct H end.

Lemma cuda_packet_idle now cmd data len l s : idle l s -> holds (idle l) (cuda_packet now cmd data len s).
Proof.
  intros H. unfold cuda_packet. cbv zeta.
  repeat (lazymatch goal with |- holds _ (if ?c then _ else _) => destruct c end; try
    (apply set_reply_idle; [|cbn; rewrite ?be_bytes_length; lia]; first [done | by apply idle_start | idle_upd | idtac]));
  apply idle_start; [done|idle_upd].
Qed.

Lemma st_idle l s : st l s -> idle l (upd_cuda (set_out_count 0) s).
Proof.
  intros [H1 H2]. split; [|done]. split; [|done]. apply inv_cuda; [|done]. destruct (in_bufs _ H1).
  split; cbn; try done. by left.
Qed.

Lemma st_cuda l f s : bufs (f (cuda s)) -> c_lock (f (cuda s)) = c_lock (cuda s) -> st l s -> st l (upd_cuda f s).
Proof. intros Hb Hl [H1 H2]. split; [by apply inv_cuda|]. rewrite <- H2. unfold locks. cbn. by rewrite Hl. Qed.

Lemma st_bufs l s : st l s -> bufs (cuda s).
Proof. intros [H _]. apply H. Qed.

Lemma cuda_incoming_st now rnd l s : st l s -> holds (st l) (cuda_incoming now rnd s).
Proof.
  intros Hs. unfold cuda_incoming. cbv zeta. pose proof (st_idle _ _ Hs) as Hi.
  set (s1 := upd_cuda _ s) in *. destruct (in_count (cuda s1) <? 2); [by apply Hi|].
  eapply holds_bind; [by apply set_reply_idle; [|cbn; lia]|]. intros s2 H2.
  apply (holds_bind (idle l)).
  - destruct (_ =? _); [apply adb_call_idle; [|done]; intros a Ha; by apply adb_packet_ok|].
    destruct (_ =? _); [by apply cuda_packet_idle|done].
  - intros s3 [H3 _]. apply st_cuda; [|done..]. destruct (st_bufs _ _ H3). split; cbn; try done; lia.
Qed.

Lemma st_start l u h s : h <> HExpire -> st l s -> st l (start_timer u h s).
Proof. intros Hh [H1 H2]. destruct (inv_start u h s H1 Hh). split; [done|congruence]. Qed.

Lemma st_dummy l s : st l s -> st l (via_dummy_shift s).
Proof. intros [H1 H2]. destruct (inv_dummy s H1) as (H3 & H4 & _). split; [done|congruence]. Qed.

Lemma end_transfer_st now rnd ta l s : st l s -> holds (st l) (end_transfer now rnd ta s).
Proof.
  intros Hs. unfold end_transfer. cbv zeta.
  assert (H1 : st l (upd_cuda (set_fill false) s)) by (apply st_cuda; [destruct (st_bufs _ _ Hs); by split|done..]).
  apply (holds_bind (st l)).
  - destruct (negb _); [by apply cuda_incoming_st|done].
  - intros s2 H2. destruct (st_bufs _ _ H2) as [K1 K2 K3 K4 K5].
    assert (H3 : st l (upd_cuda (fun c => set_out_count 0 (set_in (in_buffer c) 0 c)) s2)).
    { apply st_cuda; [|done..]. split; cbn; try done; by left. }
    set (s3 := upd_cuda _ s2) in *. set (s4 := if negb ta then _ else _).
    assert (H4 : st l s4).
    { unfold s4. destruct (negb ta); [|done]. apply st_cuda; [|done..]. split; cbn; try done; by left. }
    assert (H5 : st l (upd_cuda (set_treq ta) s4)) by (apply st_cuda; [destruct (st_bufs _ _ H4); by split|done..]).
    destruct (ta && _); [by apply st_start|by apply st_dummy].
Qed.

Lemma fill_message_st l s : st l s -> holds (st l) (fill_message s).
Proof.
  intros Hs. unfold fill_message. destruct (negb _); [done|]. cbv zeta.
  assert (H1 : st l (upd_cuda (set_fill false) s)) by (apply st_cuda; [destruct (st_bufs _ _ Hs); by split|done..]).
  set (s1 := upd_cuda _ s) in *. apply (holds_bind (st l)).
  - destruct (cuda_msg_avail s1) eqn:Em; [done|].
    assert (Hi : idle l s1).
    { split; [done|]. unfold cuda_msg_avail in Em. destruct (Z.eqb_spec (out_req_count (cuda s1)) 0); [|done].
      destruct (st_bufs _ _ H1). lia. }
    apply (holds_weaken (idle l)); [|by intros ? []]. destruct (_ && _).
    + apply set_reply_idle; [|cbn; lia]. idle_upd.
    + unfold cuda_poll. destruct (_ && _); [|done]. apply adb_call_idle; [|done]. intros a Ha. by apply adb_poll_ok.
  - intros s2 H2. by destruct (cuda_msg_avail s2).
Qed.

Lemma st_via l f s : v_lock (f (via s)) = v_lock (via s) ->
  reg (f (via s)) = reg (via s) -> t1_id (f (via s)) = t1_id (via s) -> t2_id (f (via s)) = t2_id (via s) ->
  st l s -> st l (upd_via f s).
Proof. intros E0 E1 E2 E3 [H1 H2]. split; [by apply inv_via|]. rewrite <- H2. unfold locks. cbn. by rewrite E0. Qed.

Lemma st_wr l i v s : st l s -> st l (wr i v s).
Proof. intros [H1 H2]. destruct (inv_wr i v s H1). split; [done|congruence]. Qed.

Lemma st_post l b s : st l s -> st l (via_sr_int_post b s).
Proof. intros [H1 H2]. destruct (inv_post b s H1) as (H3 & H4 & _). split; [done|congruence]. Qed.

Lemma upd_cuda_cuda f g s : upd_cuda f (upd_cuda g s) = upd_cuda (fun c => f (g c)) s.
Proof. done. Qed.

Lemma shift_in_cuda c f s : via_shift_in c (upd_cuda f s) = upd_cuda f (via_shift_in c s).
Proof. unfold via_shift_in, via_sr_int_post. cbn. by destruct (sr_active _). Qed.

Lemma shift_to_guest_st l s : st l s -> holds (st l) (shift_to_guest s).
Proof.
  intros Hs. unfold shift_to_guest. cbv zeta. destruct (st_bufs _ _ Hs) as [K1 K2 K3 K4 K5].
  destruct (Z.ltb_spec (out_count (cuda s)) 0); [lia|].
  destruct (lookup_lt_is_Some_2 (out_buffer (cuda s)) (Z.to_nat (out_count (cuda s))) ltac:(lia)) as [c Ec].
  rewrite Ec. cbn [of_option mbind outcome_bind holds].
  rewrite (shift_in_cuda c). set (t := via_shift_in c s).
  assert (Ht : st l t) by (by apply st_post, st_wr).
  assert (Hw : cuda t = cuda s) by (unfold t, via_shift_in, via_sr_int_post; by destruct (sr_active _)).
  change (out_req_count (cuda (upd_cuda _ t))) with (out_req_count (cuda t)).
  change (out_count (cuda (upd_cuda _ t))) with (out_count (cuda s) + 1). rewrite Hw.
  destruct (Z.leb_spec (out_req_count (cuda s)) (out_count (cuda s) + 1)).
  - rewrite upd_cuda_cuda. apply (st_cuda l); [|done..]. rewrite Hw. split; cbn; try done; by left.
  - apply (st_cuda l); [|done..]. rewrite Hw. split; cbn; try done; lia.
Qed.

Lemma shift_from_guest_st l s : st l s -> holds (st l) (shift_from_guest s).
Proof.
  intros Hs. unfold shift_from_guest, via_shift_out. cbv zeta. set (s1 := via_sr_int_post false s).
  assert (H1 : st l s1) by (by apply st_post). destruct (st_bufs _ _ H1) as [K1 K2 K3 K4 K5].
  change VIA_BUFFER_LEN with 16. destruct (Z.ltb_spec (in_count (cuda s1)) 16); [|done].
  destruct (Z.ltb_spec (in_count (cuda s1)) 0); [lia|]. apply st_cuda; [|done..].
  split; cbn; try done; [by rewrite length_insert|lia].
Qed.

Lemma st_lock v s : st (v, false) s -> C_LOCK s = Ret (upd_cuda (set_c_lock true) s) /\ st (v, true) (upd_cuda (set_c_lock true) s).
Proof.
  intros [H1 H2]. injection H2 as Hv Hc. split; [by apply C_LOCK_eq|]. split; [by apply inv_lock_c|].
  unfold locks. cbn. by rewrite Hv.
Qed.

Lemma st_unlock v b s : st (v, b) s -> st (v, false) (C_UNLOCK s).
Proof. intros [H1 H2]. injection H2 as Hv _. split; [by apply inv_lock_c|]. unfold locks. cbn. by rewrite Hv. Qed.

Lemma st_vlock s : st (false, false) s -> V_LOCK s = Ret (upd_via (set_v_lock true) s) /\ st (true, false) (upd_via (set_v_lock true) s).
Proof.
  intros [H1 H2]. injection H2 as Hv Hc. split; [by apply V_LOCK_eq|]. split; [by apply inv_lock_v|].
  unfold locks. cbn. by rewrite Hc.
Qed.

Lemma st_vunlock v b s : st (v, b) s -> st (false, b) (V_UNLOCK s).
Proof. intros [H1 H2]. injection H2 as _ Hc. split; [by apply inv_lock_v|]. unfold locks. cbn. by rewrite Hc. Qed.

(** A change of the lines alone *)
Lemma st_lines l f s :
  (forall c, bufs c -> bufs (f c)) -> (forall c, c_lock (f c) = c_lock c) -> st l s -> st l (upd_cuda f s).
Proof. intros Hf Hl Hs. apply st_cuda; [apply Hf, (st_bufs _ _ Hs)|apply Hl|done]. Qed.

Lemma cuda_handshake_st now rnd ta ti v s : st (v, false) s -> holds (st (v, false)) (cuda_handshake now rnd ta ti s).
Proof.
  intros Hs. unfold cuda_handshake. destruct (st_lock v s Hs) as [-> H1]. cbn [mbind outcome_bind].
  set (s1 := upd_cuda _ s) in *. destruct (_ && _); [by apply (st_unlock v true)|]. cbv zeta.
  assert (H2 : st (v, true) (upd_cuda (set_lines ta ti) s1)) by (apply st_lines; [by intros ? [] | done | done]).
  set (s2 := upd_cuda _ s1) in *. apply (holds_bind (st (v, true))); [|intros s3 H3; by apply (st_unlock v true)].
  destruct ti; [by apply end_transfer_st|]. destruct (treq _); [by apply shift_from_guest_st|].
  eapply holds_bind; [by apply fill_message_st|]. intros. by apply shift_to_guest_st.
Qed.

Lemma start_reply_st v s : st (v, false) s -> holds (st (v, false)) (cuda_start_reply s).
Proof.
  intros Hs. unfold cuda_start_reply. destruct (st_lock v s Hs) as [-> H1]. cbn [mbind outcome_bind].
  apply (st_unlock v true). destruct (_ && _); [|done]. apply st_dummy, st_lines; [by intros ? [] | done | done].
Qed.

Lemma sr_idle_st v s : st (v, false) s -> holds (st (v, false)) (cuda_sr_idle s).
Proof.
  intros Hs. unfold cuda_sr_idle. destruct (st_lock v s Hs) as [-> H1]. cbn [mbind outcome_bind].
  apply (st_unlock v true). destruct (_ && _); [|done]. apply st_dummy, st_lines; [by intros ? [] | done | done].
Qed.

Lemma service_request_st v s : st (v, false) s -> holds (st (v, false)) (adb_service_request s).
Proof.
  intros Hs. unfold adb_service_request. destruct (st_lock v s Hs) as [-> H1]. cbn [mbind outcome_bind].
  apply (st_unlock v true). destruct (_ && _); [|done]. apply st_dummy, st_lines; [by intros ? [] | done | done].
Qed.

Lemma one_sec_st sec usec v s : st (v, false) s -> holds (st (v, false)) (cuda_one_sec_timer sec usec s).
Proof.
  intros Hs. unfold cuda_one_sec_timer. destruct (st_lock v s Hs) as [-> H1]. cbn [mbind outcome_bind].
  destruct (negb _); [by apply (st_unlock v true)|]. cbv zeta. apply service_request_st, st_start; [done|].
  apply (st_unlock v true), st_lines; [by intros ? [] | done | done].
Qed.

(** ** The VIA *)

Lemma st_irq l s : st l s -> st l (UPDATE_IRQ s).
Proof. intros. by apply st_via. Qed.

Lemma st_ifr l m s : st l s -> st l (clear_ifr m s).
Proof. intros. by apply st_irq, st_wr. Qed.

Lemma st_timer_start l b s : st l s -> st l (via_timer_start b s).
Proof. intros [H1 H2]. destruct (inv_timer_start b s H1) as (H3 & H4 & _). split; [done|congruence]. Qed.

Lemma st_timer_update mt f l b s : st l s -> st l (via_timer_update mt f b s).
Proof. intros [H1 H2]. destruct (inv_timer_update mt f b s H1) as (H3 & H4 & _). split; [done|congruence]. Qed.

Lemma st_stamp l b t s : st l s -> st l (upd_via (set_stamp b t) s).
Proof. intros. apply st_via; by destruct b. Qed.

Lemma st_hack l s : st l s -> st l (g3_hack s).
Proof. intros [H1 H2]. unfold g3_hack. destruct (_ =? _); [|done]. split; [|done]. by destruct H1. Qed.

Create HintDb via.
#[local] Hint Resolve st_wr st_via st_irq st_ifr st_timer_start st_timer_update st_stamp st_hack : via.

Lemma sr_int_st b s : st (false, false) s -> holds (st (false, false)) (via_sr_int b s).
Proof.
  intros Hs. unfold via_sr_int. destruct (st_vlock s Hs) as [-> H1]. cbn [mbind outcome_bind].
  apply (st_vunlock true), st_irq, st_via; [done..|]. destruct b; auto with via.
Qed.

(** The timer that fires has left the list, and it is one of the two. *)
Lemma inv_expired i u s : inv s -> (i, (u, HExpire)) ∈ timers s ->
  (i = t1_id (via s) -> inv (upd_via (set_timer_id true 0) (cancel_timer i s))) /\
  (i = t2_id (via s) -> inv (upd_via (set_timer_id false 0) (cancel_timer i s))).
Proof.
  intros [H1 H2 H3 H4] Hi. pose proof (drop_timers _ _ _ _ (fun t => t.1 <> i) H3) as [K1 K2 K3 K4].
  assert (K : forall j v, (j, (v, HExpire)) ∈ filter (fun t => t.1 <> i) (timers s) -> j <> i).
  { intros j v [Hj _]%list_elem_of_filter. done. }
  split; intros E; (split; [done|done| |done]); (split; [done|done|done|]); intros j v Hj;
    destruct (K4 j v Hj) as [-> | ->]; [by apply K in Hj; rewrite E in Hj|by right|by left|by apply K in Hj; rewrite E in Hj].
Qed.

Lemma expire_st mt i u s : st (false, false) s -> (i, (u, HExpire)) ∈ timers s ->
  holds (st (false, false)) (via_expire_timer mt i (cancel_timer i s)).
Proof.
  intros [Hs Hl] Hi. unfold via_expire_timer. injection Hl as Hv Hc.
  rewrite V_LOCK_eq by done. cbn [mbind outcome_bind]. cbv zeta. set (s1 := upd_via _ (cancel_timer i s)).
  destruct (inv_expired i u s Hs Hi) as [X1 X2]. change (t1_id (via s1)) with (t1_id (via s)).
  change (t2_id (via s1)) with (t2_id (via s)).
  assert (Y : forall b, inv (upd_via (set_timer_id b 0) (cancel_timer i s)) -> st (true, false) (upd_via (set_timer_id b 0) s1)).
  { intros b Hb. replace (upd_via _ s1) with (upd_via (set_v_lock true) (upd_via (set_timer_id b 0) (cancel_timer i s))) by (by destruct b).
    split; [by apply inv_lock_v|]. unfold locks. cbn. by rewrite Hc. }
  destruct (Z.eqb_spec i (t1_id (via s))) as [E|E]; cbn [negb andb].
  - apply (st_vunlock true), st_irq, st_wr. specialize (Y true (X1 E)). destruct (tst _ _); auto with via.
  - assert (E2 : i = t2_id (via s)) by (destruct (tm_expire _ _ _ _ (in_timers _ Hs) i u Hi); [done|done]).
    rewrite (proj2 (Z.eqb_eq _ _) E2). cbn [negb andb]. apply (st_vunlock true), st_irq, st_wr, st_stamp.
    specialize (Y false (X2 E2)). auto with via.
Qed.

Lemma holds_bind2 {A} (l : bool * bool) (R : vc -> Prop) (o : outcome (A * vc)) (f : A * vc -> outcome vc) :
  match o with Ret p => st l p.2 | Exit _ => True | Stuck => False end ->
  (forall p, st l p.2 -> holds R (f p)) -> holds R (o ≫= f).
Proof. destruct o as [p| |]; cbn; [|done..]. intros H1 Hf. by apply Hf. Qed.

Lemma reg_range base addr : base <= addr < base + 0x2000 -> (via_reg_of base addr < 16)%nat.
Proof.
  intros H. unfold via_reg_of. change VIA_REG_LEN with 512. unfold u32. rewrite Z.mod_small by lia.
  assert ((addr - base) / 512 < 16) by (apply Z.div_lt_upper_bound; lia). lia.
Qed.

(** The state after a register read *)
Definition read_state (o : outcome (Z * vc)) : outcome vc := p ← o; Ret p.2.

Lemma io_read_st mt f base addr s : base <= addr < base + 0x2000 ->
  st (false, false) s -> holds (st (false, false)) (read_state (via_io_read mt f base addr s)).
Proof.
  intros Hr%reg_range Hs. unfold read_state, via_io_read. destruct (st_vlock s Hs) as [-> H1]. cbn [mbind outcome_bind].
  cbv zeta. set (s1 := upd_via _ s) in *. set (r := via_reg_of base addr) in *.
  rewrite decide_False by (unfold VIA_REG_COUNT; lia). clearbody s1 r.
  set (o := if decide (r = B) then _ else _).
  assert (Ho : match o with Ret p => st (true, false) p.2 | Exit _ => True | Stuck => False end).
  { unfold o. destruct (decide (r = B)); [done|].
    destruct (decide (r = T1CL \/ r = T1CH)); [cbn [snd]; destruct (decide _); auto with via|].
    destruct (decide (r = T2CL \/ r = T2CH)); [cbn [snd]; destruct (decide _); auto with via|].
    destruct (decide (r = SR)).
    { pose proof (sr_idle_st true _ (st_ifr _ SR_INTS _ H1)) as X. by destruct (cuda_sr_idle _). }
    destruct (decide (r = IFR)); [done|]. by destruct (decide (r = IER)). }
  clearbody o. destruct o as [[x s2]| |]; [by apply (st_vunlock true)|done..].
Qed.

Lemma io_write_st mt f now rnd base addr data s : base <= addr < base + 0x2000 ->
  st (false, false) s -> holds (st (false, false)) (via_io_write mt f now rnd base addr data s).
Proof.
  intros Hr%reg_range Hs. unfold via_io_write. destruct (st_vlock s Hs) as [-> H1]. cbn [mbind outcome_bind].
  cbv zeta. set (s1 := upd_via _ s) in *. set (r := via_reg_of base addr) in *.
  rewrite decide_False by (unfold VIA_REG_COUNT; lia). clearbody s1 r.
  apply (holds_bind (st (true, false))); [|intros s2 H2; by apply (st_vunlock true)].
  destruct (decide (r = B)); [by apply cuda_handshake_st, st_wr|].
  repeat (destruct (decide _); [try destruct (tst _ _); cbn [holds]; auto with via; fail|]).
  cbn [holds]. auto with via.
Qed.

(** ** Events of the host *)

Lemma adb_ok_notify ap a : adb_ok a -> adb_ok (Adb.notify ap a).
Proof. intros Ha. unfold Adb.notify. destruct (_ && _); [|done]. apply (adb_ok_like a); try done; [apply Ha|apply devs_refl]. Qed.

Lemma adb_ok_device a i d d' : adb_ok a -> Adb.root a !! i = Some d -> dev_ok d' -> same_kind (Adb.usr d) (Adb.usr d') ->
  adb_ok (Adb.set_root (<[i:=d']> (Adb.root a)) a).
Proof.
  intros Ha Hi Hd Hk. apply adb_ok_root; [done|apply Forall_insert; [apply Ha|done]|by apply (devs_insert _ i d d')].
Qed.

Lemma adb_key0_ok ap mv key a : adb_ok a -> exists r, Adb.adb_key0 ap mv key a = Some r /\ adb_ok r.2.
Proof.
  intros Ha. unfold Adb.adb_key0. destruct (Adb.kbd a) as [i|] eqn:Ek; [|by eexists].
  destruct (negb mv); [by eexists|]. destruct (key =? 0xff); [by eexists|].
  destruct (ad_kbd _ Ha i Ek) as (d & ks & Hd & Hu). rewrite Hd. cbn [mbind option_bind]. rewrite Hu.
  destruct (Adb.queue_key key ks d) as [ret d'] eqn:Eq. eexists. split; [reflexivity|]. cbn [snd].
  apply adb_ok_notify. pose proof (proj1 (Forall_lookup dev_ok _) (ad_devs _ Ha) i d Hd) as Hdo.
  apply (adb_ok_device a i d d' Ha Hd).
  - unfold dev_ok, usr_ok in Hdo |- *. rewrite Hu in Hdo. destruct Hdo as (H1 & H2 & H3).
    unfold Adb.queue_key in Eq. destruct (_ <? _); injection Eq as _ <-; [cbn [Adb.usr]|by rewrite Hu].
    split; [cbn; by rewrite length_insert|]. split; [done|]. cbn [Adb.buf_top]. rewrite Adb.key_mask. apply Z.mod_pos_bound. lia.
  - unfold Adb.queue_key in Eq. rewrite Hu. destruct (_ <? _); injection Eq as _ <-; [done|by rewrite Hu].
Qed.

Lemma adb_key_ok ap mv key raw a : adb_ok a -> exists a', snd <$> Adb.adb_key ap mv key raw a = Some a' /\ adb_ok a'.
Proof.
  intros Ha. unfold Adb.adb_key. destruct (Adb.kbd a) eqn:Ek; [|by eexists].
  destruct (negb mv) eqn:Em; [by eexists|]. destruct (key =? 0xff); [by eexists|].
  destruct (_ && _).
  - destruct (adb_key0_ok ap mv key a Ha) as (r & Er & Hr). rewrite Er. cbn [mbind option_bind].
    destruct (adb_key0_ok ap mv key _ Hr) as (r' & Er' & Hr'). rewrite Er'. by eexists.
  - destruct (adb_key0_ok ap mv key a Ha) as (r & Er & Hr). cbn [mbind option_bind]. rewrite Er. by eexists.
Qed.

Lemma adb_mouse_ok ap dx dy b a : adb_ok a -> exists a', Adb.adb_mouse_event ap dx dy b a = Some a' /\ adb_ok a'.
Proof.
  intros Ha. unfold Adb.adb_mouse_event. destruct (Adb.mouse a) as [i|] eqn:Ek; [|by eexists].
  destruct (ad_mouse _ Ha i Ek) as (d & ms & Hd & Hu). rewrite Hd. cbn [mbind option_bind]. rewrite Hu.
  eexists. split; [reflexivity|]. apply adb_ok_notify. apply (adb_ok_device a i d _ Ha Hd); [done|]. by rewrite Hu.
Qed.

Lemma host_event_st op s : (forall a, adb_ok a -> exists a', op a = Some a' /\ adb_ok a') ->
  st (false, false) s -> holds (st (false, false)) (host_event op s).
Proof.
  intros Hop Hs. unfold host_event. destruct (Hop (adb s) (in_adb _ (proj1 Hs))) as (a & E & Ha). rewrite E.
  cbn [of_option mbind outcome_bind]. generalize (Z.to_nat (Adb.service_requests a - Adb.service_requests (adb s))) as k.
  assert (H1 : st (false, false) (set_adb a s)) by (destruct Hs as [[] Hl]; by split).
  revert H1. generalize (set_adb a s) as s1. intros s1 H1 k. revert s1 H1. induction k as [|k IH]; intros s1 H1; [done|].
  apply (holds_bind (st (false, false))); [by apply service_request_st|]. intros. by apply IH.
Qed.

(** ** The events, and the states they lead to *)

(** One event with the clocks it sees: the guest reads or writes a register,
    a timer fires, a key is pressed or the mouse moved on the host. *)
Inductive via_event (base : Z) (s : vc) : outcome vc -> Prop :=
| ev_read addr mt f : base <= addr < base + Z.of_nat VIA_REG_COUNT * VIA_REG_LEN ->
    via_event base s (read_state (via_io_read mt f base addr s))
| ev_write addr data mt f now rnd : base <= addr < base + Z.of_nat VIA_REG_COUNT * VIA_REG_LEN ->
    via_event base s (via_io_write mt f now rnd base addr data s)
| ev_timer i u h mt sec usec : (i, (u, h)) ∈ timers s ->
    via_event base s (run_handler mt sec usec i h (cancel_timer i s))
| ev_key mv key raw : via_event base s (host_event (fun a => snd <$> Adb.adb_key (autopoll (cuda s)) mv key raw a) s)
| ev_mouse dx dy b : via_event base s (host_event (Adb.adb_mouse_event (autopoll (cuda s)) dx dy b) s).

Inductive reachable (base : Z) : vc -> Prop :=
| reach_init now old kid : reachable base (via_cuda_init now old kid)
| reach_event s s' : reachable base s -> via_event base s (Ret s') -> reachable base s'.

Lemma init_st now old kid : st (false, false) (via_cuda_init now old kid).
Proof.
  split; [|done]. split; [by split; try done; left|done| |].
  - split; try done; [apply NoDup_nil_2|..]; intros; by apply not_elem_of_nil in H.
  - split; cbn.
    + repeat apply list.Forall_cons_2; [done|split; cbn; lia|apply Forall_nil_2].
    + intros i [= <-]. by eexists _, _.
    + intros i [= <-]. by eexists _, _.
Qed.

Lemma event_holds base s o : st (false, false) s -> via_event base s o -> holds (st (false, false)) o.
Proof.
  intros Hs He. destruct He as [addr mt f Ha|addr data mt f now rnd Ha|i u h mt sec usec Hi|mv key raw|dx dy b].
  - by apply io_read_st.
  - by apply io_write_st.
  - assert (Hc : st (false, false) (cancel_timer i s)).
    { destruct Hs as [[H1 H2 H3 H4] Hl]. split; [|done]. split; try done. by apply drop_timers. }
    destruct h; cbn [run_handler].
    + by apply (expire_st mt i u).
    + by apply sr_int_st.
    + by apply start_reply_st.
    + by apply one_sec_st.
    + done.
  - apply host_event_st; [|done]. intros a Ha. by apply adb_key_ok.
  - apply host_event_st; [|done]. intros a Ha. by apply adb_mouse_ok.
Qed.

Lemma reachable_st base s : reachable base s -> st (false, false) s.
Proof. induction 1 as [|s s' _ IH He]; [apply init_st|]. exact (event_holds _ _ _ IH He). Qed.

(** C32: the VIA and the CUDA never hang and never leave their buffers.  From
    the initial state, whatever registers the guest reads and writes, in
    whatever order the timers fire and whatever is typed, every event comes
    to an end: no lock is waited for by the thread that holds it and no
    buffer is overrun.  Afterwards both locks are free, the counts are within
    the sixteen bytes of the buffers, a reply on its way is incomplete, and
    no two timers share an id. *)
Theorem via_never_stuck base s o : reachable base s -> via_event base s o ->
  o <> Stuck /\ forall s', o = Ret s' ->
    locks s' = (false, false) /\ NoDup (map fst (timers s')) /\
    0 <= in_count (cuda s') <= VIA_BUFFER_LEN /\ 0 <= out_req_count (cuda s') <= VIA_BUFFER_LEN /\
    (out_count (cuda s') = 0 \/ 0 < out_count (cuda s') < out_req_count (cuda s')).
Proof.
  intros Hs%reachable_st He. pose proof (event_holds _ _ _ Hs He) as H. split; [by intros -> |].
  intros s' ->. destruct H as [[[K1 K2 K3 K4 K5] H2 H3 H4] Hl]. change VIA_BUFFER_LEN with 16.
  split_and!; try done; try lia. apply H3.
Qed.


(** The guest programs the direction of port B, then timer 1. *)
Definition write_dirb : outcome vc := via_io_write 0 (fun x => x) 5 0 0x16000 0x16400 0x30 (via_cuda_init 5 false (-1)).
Definition via_dirb : vc := Vc
  (Via false false ([0; 0; 0x30] ++ replicate 13 0) 0 0 0 0 false 0)
  (cuda (via_cuda_init 5 false (-1))) (adb (via_cuda_init 5 false (-1))) [] 1 0 0.

Lemma via_never_stuck_witness :
  let o := via_io_write 7 (fun x => x) 5 0 0x16000 0x16a00 0x10 via_dirb in
  reachable 0x16000 via_dirb /\ via_event 0x16000 via_dirb o /\ o <> Stuck /\ exists s', o = Ret s' /\ locks s' = (false, false).
Proof.
  intros o.
  assert (H1 : reachable 0x16000 via_dirb).
  { apply (reach_event _ (via_cuda_init 5 false (-1))); [apply reach_init|].
    change (Ret via_dirb) with write_dirb. by apply ev_write. }
  assert (H2 : via_event 0x16000 via_dirb o) by (by apply ev_write).
  destruct (via_never_stuck 0x16000 via_dirb o H1 H2) as [H3 H4].
  split; [exact H1|]. split; [exact H2|]. split; [exact H3|]. eexists. split; [reflexivity|]. by apply (H4 _ eq_refl).
Defined.

End CudaInv.
