(* ===== verification/CudaWire.v ===== *)
(** * The byte protocol between the guest and the CUDA

    A driver of the guest as the protocol of the hardware asks for: it sends
    a packet byte by byte, ends the transfer, waits for the announcement of
    the reply and fetches it byte by byte.  The bytes the CUDA works on and
    the bytes the guest gets are those of the packets. *)

From S2P Require Import Prelude Adb Cuda CudaInv.

Module CudaWire.
Import Cuda CudaInv.

Section Wire.
Context (mticks : Z) (mticks_to_usecs : Z -> Z) (time_now tv_sec tv_usec rnd base : Z).

(** ** The driver *)

Definition port (r : nat) : Z := base + Z.of_nat r * VIA_REG_LEN.
Definition out (r : nat) (x : Z) (s : vc) : outcome vc :=
  via_io_write mticks mticks_to_usecs time_now rnd base (port r) x s.
Definition inp (r : nat) (s : vc) : outcome (Z * vc) := via_io_read mticks mticks_to_usecs base (port r) s.

(** Wait for the timer started last, the one of the shift or of the reply *)
Definition wait (s : vc) : outcome vc :=
  match timers s with
  | [] => Stuck
  | (i, (_, h)) :: _ => run_handler mticks tv_sec tv_usec i h (cancel_timer i s)
  end.

Definition lines (ta ti : bool) : Z := (if ta then TACK else 0) .| (if ti then TIP else 0).

(** One byte, [ta] being the level TACK gets *)
Definition send_byte (ta : bool) (b : Z) (s : vc) : outcome vc :=
  s ← out SR b s; s ← out B (lines ta false) s; wait s.
Fixpoint send (ta : bool) (p : list Z) (s : vc) : outcome vc :=
  match p with
  | [] => Ret s
  | b :: p' => s ← send_byte ta b s; send (negb ta) p' s
  end.
Definition finish (s : vc) : outcome vc := s ← out B (lines true true) s; wait s.

Definition recv_byte (ta : bool) (s : vc) : outcome (Z * bool * vc) :=
  s ← out B (lines ta false) s;
  s ← wait s;
  '(b, s) ← inp SR s;
  '(x, s) ← inp B s;
  Ret (b, tst x TREQ, s).
(** Fetch bytes until TREQ is released. *)
Fixpoint recv (fuel : nat) (ta : bool) (s : vc) : outcome (list Z * vc) :=
  match fuel with
  | O => Stuck
  | S f =>
      '(b, last, s) ← recv_byte ta s;
      if last : bool then Ret ([b], s) else '(l, s) ← recv f (negb ta) s; Ret (b :: l, s)
  end.

Definition transact (p : list Z) (s : vc) : outcome (list Z * vc) :=
  s ← send true p s;
  s ← finish s;
  s ← wait s;
  '(l, s) ← recv 16 true s;
  s ← finish s;
  Ret (l, s).

(** ** What the steps do *)

(** The VIA during the exchange: port B drives TACK and TIP. *)
Record vok (lk act : bool) (v : via_state) : Prop := {
  vo_lock : v_lock v = lk; vo_idle : sr_active v = act;
  vo_len : length (reg v) = 16%nat; vo_dirb : reg v !! DIRB = Some 0x30; vo_b : exists b, reg v !! B = Some b /\ 0 <= b < 256
}.

Lemma port_reg r : (r < 16)%nat -> via_reg_of base (port r) = r.
Proof.
  intros H. unfold via_reg_of, port. change VIA_REG_LEN with 512.
  replace (base + Z.of_nat r * 512 - base) with (Z.of_nat r * 512) by lia.
  unfold u32. rewrite Z.mod_small by lia. rewrite Z.div_mul by lia. lia.
Qed.

(** The state with the VIA, the CUDA and the timers given *)
Definition mk (v : via_state) (c : cuda_state) (t : list (Z * (Z * handler))) (n : Z) (s : vc) : vc :=
  Vc v c (adb s) t n (nip s) (hack_count s).

Lemma out_SR b v c t n s : vok false false v -> exists v', vok false false v' /\ reg v' !! SR = Some (b .& 0xff) /\
  out SR b (mk v c t n s) = Ret (mk v' c t n s).
Proof.
  intros [H1 H2 H3 H4 (x & H5 & H6)]. eexists (Via _ _ _ _ _ _ _ _ _). split; [|split]; cycle 2.
  - unfold out, via_io_write, V_LOCK. cbn [via mk]. rewrite H1. cbn [mbind outcome_bind]. cbv zeta.
    rewrite port_reg by (unfold SR; lia). rewrite decide_False by (unfold SR, VIA_REG_COUNT; lia).
    reflexivity.
  - split; cbn; try done; [by rewrite !length_insert|by rewrite !list_lookup_insert_ne by done|].
    exists x. by rewrite !list_lookup_insert_ne by done.
  - cbn. rewrite list_lookup_insert_ne by done. rewrite list_lookup_insert_eq by (rewrite H3; unfold SR; lia). done.
Qed.

Lemma lines_tst ta ti b : 0 <= b < 256 ->
  let x := ((lines ta ti .& 0x30) .| Z.land b (Z.lnot 0x30)) .& 0xff in
  0 <= x < 256 /\ tst x TACK = ta /\ tst x TIP = ti.
Proof.
  intros Hb x. assert (forallb (fun b => forallb (fun ta => forallb (fun ti =>
    let x := ((lines ta ti .& 0x30) .| Z.land b (Z.lnot 0x30)) .& 0xff in
    (0 <=? x) && (x <? 256) && Bool.eqb (tst x TACK) ta && Bool.eqb (tst x TIP) ti) [true; false]) [true; false])
    (map Z.of_nat (seq 0 256)) = true) as H by (vm_compute; reflexivity).
  rewrite forallb_forall in H. specialize (H b ltac:(apply in_map_iff; exists (Z.to_nat b); rewrite in_seq; lia)).
  rewrite forallb_forall in H. specialize (H ta ltac:(destruct ta; cbn; auto)).
  rewrite forallb_forall in H. specialize (H ti ltac:(destruct ti; cbn; auto)). fold x in H.
  rewrite !andb_true_iff, !Bool.eqb_true_iff in H. destruct H as [[[H1%Z.leb_le H2%Z.ltb_lt] H3] H4]. done.
Qed.

Lemma out_B ta ti v c t n s : vok false false v -> exists v', vok true false v' /\ reg v' !! SR = reg v !! SR /\
  out B (lines ta ti) (mk v c t n s) = (s ← cuda_handshake time_now rnd ta ti (mk v' c t n s); Ret (V_UNLOCK s)).
Proof.
  intros [H1 H2 H3 H4 (b & H5 & H6)]. pose proof (lines_tst ta ti b H6) as (K1 & K2 & K3).
  set (x := _ .& 0xff) in *.
  exists (set_reg (<[B := x]> (reg v)) (set_v_lock true v)). split; [|split].
  - split; cbn; try done; [by rewrite length_insert|by rewrite list_lookup_insert_ne by done|].
    exists x. split; [|done]. apply list_lookup_insert_eq. rewrite H3. unfold B. lia.
  - cbn. by rewrite list_lookup_insert_ne by done.
  - unfold out, via_io_write, V_LOCK. cbn [via mk]. rewrite H1. cbn [mbind outcome_bind]. cbv zeta.
    rewrite port_reg by (unfold B; lia). rewrite decide_False by (unfold B, VIA_REG_COUNT; lia).
    rewrite decide_True by done. set (s1 := upd_via _ _). cbv zeta.
    assert (E1 : rd B s1 = b) by (unfold rd; cbn [via s1 upd_via mk reg set_v_lock]; by rewrite H5).
    assert (E2 : rd DIRB s1 = 0x30) by (unfold rd; cbn [via s1 upd_via mk reg set_v_lock]; by rewrite H4).
    rewrite E1, E2. change (wr B _ s1) with (mk (set_reg (<[B := x]> (reg v)) (set_v_lock true v)) c t n s).
    set (s2 := mk _ c t n s). assert (E3 : rd B s2 = x).
    { unfold rd. cbn [via s2 mk reg set_reg]. rewrite list_lookup_insert_eq; [done|]. rewrite H3. unfold B. lia. }
    by rewrite E3, K2, K3.
Qed.

(** Timers started before the one of number [n] *)
Definition older (n : Z) (t : list (Z * (Z * handler))) : Prop := Forall (fun x => x.1 < n) t.

Lemma older_le n m t : n <= m -> older n t -> older m t.
Proof. intros Hnm Ht. unfold older in Ht |- *. rewrite list.Forall_forall in Ht |- *. intros x Hx%Ht. lia. Qed.

Lemma cancel_older v c n x t s : older n t -> cancel_timer n (mk v c ((n, x) :: t) (n + 1) s) = mk v c t (n + 1) s.
Proof.
  intros Ht. unfold cancel_timer, mk. cbn [via cuda adb timers next_timer nip hack_count]. f_equal.
  rewrite filter_cons_False by (cbn; lia). induction Ht as [|y t' Hy _ IH]; [done|].
  rewrite filter_cons_True by (cbn in Hy |- *; lia). by f_equal.
Qed.

(** The shift ends: its timer is the last one started. *)
Lemma wait_sr d v c t n u s : vok false true v -> older n t ->
  exists v', vok false false v' /\ reg v' !! SR = reg v !! SR /\
    wait (mk v c ((n, (u, HSrInt d)) :: t) (n + 1) s) = Ret (mk v' c t (n + 1) s).
Proof.
  intros [H1 H2 H3 H4 (b & H5 & H6)] Ht. unfold wait. cbn [timers mk].
  change (Vc v c (adb s) _ _ _ _) with (mk v c ((n, (u, HSrInt d)) :: t) (n + 1) s).
  rewrite cancel_older by done. cbn [run_handler].
  unfold via_sr_int, V_LOCK. cbn [via mk]. rewrite H1. cbn [mbind outcome_bind]. cbv zeta.
  set (s0 := if d then _ else _).
  assert (K : exists v0, s0 = mk v0 c t (n + 1) s /\ vok true true v0 /\ reg v0 !! SR = reg v !! SR).
  { destruct d; eexists; (split; [reflexivity|]); (split; [split|]); cbn; try done;
      rewrite ?length_insert, ?list_lookup_insert_ne by done; try done; exists b; by rewrite ?list_lookup_insert_ne by done. }
  destruct K as (v0 & -> & [K1 K2 K3 K4 (b' & K5 & K6)] & K7).
  eexists. split; [|split]; [|..|reflexivity].
  - split; cbn; try done; rewrite ?length_insert, ?list_lookup_insert_ne by done; try done. exists b'. by rewrite ?list_lookup_insert_ne by done.
  - cbn. by rewrite list_lookup_insert_ne by done.
Qed.

(** A shift starts. *)
Lemma post_mk d lk v c t n s : vok lk false v -> exists v', vok lk true v' /\ reg v' = reg v /\
  via_sr_int_post d (mk v c t n s) = mk v' c ((n, (hack_sr_shift_delay v, HSrInt d)) :: t) (n + 1) s.
Proof.
  intros [H1 H2 H3 H4 (b & H5 & H6)]. unfold via_sr_int_post. cbn [via mk]. rewrite H2.
  eexists. split; [|split]; [|..|reflexivity]; [|done]. split; try done. by exists b.
Qed.

Lemma wr_SR x lk act v c t n s : vok lk act v -> exists v', vok lk act v' /\ reg v' !! SR = Some (x .& 0xff) /\
  wr SR x (mk v c t n s) = mk v' c t n s.
Proof.
  intros [H1 H2 H3 H4 (b & H5 & H6)]. eexists. split; [|split]; [| |reflexivity].
  - split; cbn; try done; rewrite ?length_insert, ?list_lookup_insert_ne by done; try done.
    exists b. by rewrite ?list_lookup_insert_ne by done.
  - cbn. apply list_lookup_insert_eq. rewrite H3. unfold SR. lia.
Qed.

Lemma shift_mk d x lk v c t n s : vok lk false v -> exists v' u, vok lk true v' /\ reg v' !! SR = Some (x .& 0xff) /\
  via_sr_int_post d (wr SR x (mk v c t n s)) = mk v' c ((n, (u, HSrInt d)) :: t) (n + 1) s.
Proof.
  intros Hv. destruct (wr_SR x lk false v c t n s Hv) as (v1 & Hv1 & Hx & ->).
  destruct (post_mk d lk v1 c t n s Hv1) as (v2 & Hv2 & Hr & ->). exists v2, (hack_sr_shift_delay v1). by rewrite Hr.
Qed.

Lemma set_lock_id (f : cuda_state -> cuda_state) c : c_lock c = false ->
  (forall b, f (set_c_lock b c) = set_c_lock b (f c)) -> c_lock (f c) = false ->
  set_c_lock false (f (set_c_lock true c)) = f c.
Proof. intros _ H1 H2. rewrite H1. destruct (f c). cbn in H2. by subst. Qed.

(** A byte stays as it is. *)
Lemma byte_id b : 0 <= b < 256 -> b .& 0xff = b.
Proof. intros. change 0xff with (2 ^ 8 - 1). rewrite land_ones_mod by lia. by apply Z.mod_small. Qed.

(** *** From the guest to the CUDA *)

Definition taken (ta : bool) (k : nat) (b : Z) (c : cuda_state) : cuda_state :=
  set_in (<[k := b]> (in_buffer c)) (Z.of_nat k + 1) (set_lines ta false c).

Lemma handshake_from_guest ta v c t n s x :
  vok true false v -> reg v !! SR = Some x -> c_lock c = false -> treq c = true ->
  Bool.eqb ta (tack c) && Bool.eqb false (tip c) = false -> 0 <= in_count c < 16 ->
  exists v', vok true true v' /\
    cuda_handshake time_now rnd ta false (mk v c t n s) =
    Ret (mk v' (taken ta (Z.to_nat (in_count c)) x c) ((n, (hack_sr_shift_delay v, HSrInt false)) :: t) (n + 1) s).
Proof.
  intros Hv Hx Hl Ht He Hc. destruct (post_mk false true v (set_lines ta false (set_c_lock true c)) t n s Hv) as (v' & Hv' & Hr & Hp).
  exists v'. split; [done|]. unfold cuda_handshake, C_LOCK. cbn [cuda mk]. rewrite Hl. cbn [mbind outcome_bind].
  cbn [cuda upd_cuda mk tack tip set_c_lock]. rewrite He. cbv zeta. cbn [cuda upd_cuda mk set_c_lock set_lines treq]. rewrite Ht.
  unfold shift_from_guest, via_shift_out. cbv zeta. change (upd_cuda (set_lines ta false) _) with (mk v (set_lines ta false (set_c_lock true c)) t n s).
  rewrite Hp. unfold rd at 1. cbn [via cuda mk in_count set_lines set_c_lock]. rewrite Hr, Hx.
  change VIA_BUFFER_LEN with 16. rewrite (proj2 (Z.ltb_lt _ _)) by lia. rewrite (proj2 (Z.ltb_ge _ _)) by lia.
  cbn [mbind outcome_bind]. f_equal. unfold C_UNLOCK, upd_cuda, mk. cbn [via cuda adb timers next_timer nip hack_count default].
  f_equal. unfold taken. rewrite Z2Nat.id by lia. destruct c. cbn in Hl. by subst.
Qed.

Lemma send_byte_eq ta b v c t n s :
  vok false false v -> older n t -> c_lock c = false -> treq c = true ->
  Bool.eqb ta (tack c) && Bool.eqb false (tip c) = false -> 0 <= in_count c < 16 ->
  exists v', vok false false v' /\
    send_byte ta b (mk v c t n s) = Ret (mk v' (taken ta (Z.to_nat (in_count c)) (b .& 0xff) c) t (n + 1) s).
Proof.
  intros Hv Ho Hl Ht He Hc. unfold send_byte.
  destruct (out_SR b v c t n s Hv) as (v1 & Hv1 & Hx & ->). cbn [mbind outcome_bind].
  destruct (out_B ta false v1 c t n s Hv1) as (v2 & Hv2 & Hx2 & ->).
  destruct (handshake_from_guest ta v2 c t n s (b .& 0xff)) as (v3 & Hv3 & ->); try done; [by rewrite Hx2|].
  cbn [mbind outcome_bind]. 
  destruct (wait_sr false (set_v_lock false v3) (taken ta (Z.to_nat (in_count c)) (b .& 0xff) c) t n (hack_sr_shift_delay v2) s)
    as (v4 & Hv4 & _ & E); [by destruct Hv3|done|]. by exists v4.
Qed.

(** The CUDA has the packet [p], and the lines of the end of it. *)
Definition got (ta : bool) (p : list Z) (c : cuda_state) : cuda_state :=
  set_in (p ++ drop (length p) (in_buffer c)) (Z.of_nat (length p)) (set_lines ta false c).
Definition parity (ta : bool) (n : nat) : bool := if Nat.even n then negb ta else ta.

Lemma send_eq p : forall pre ta v c t n s,
  vok false false v -> older n t -> c_lock c = false -> treq c = true -> length (in_buffer c) = 16%nat ->
  (length pre + length p <= 16)%nat -> Forall (fun b => 0 <= b < 256) p ->
  exists v', vok false false v' /\
    send ta p (mk v (got (negb ta) pre c) t n s) =
    Ret (mk v' (got (parity ta (length p)) (pre ++ p) c) t (n + Z.of_nat (length p)) s).
Proof.
  induction p as [|b p IH]; intros pre ta v c t n s Hv Ho Hl Ht Hi Hlen Hb.
  - exists v. split; [done|]. cbn [send length parity Nat.even]. by rewrite app_nil_r, Z.add_0_r.
  - apply list.Forall_cons in Hb as [Hb0 Hb]. cbn [length] in Hlen. cbn [send].
    destruct (send_byte_eq ta b v (got (negb ta) pre c) t n s) as (v1 & Hv1 & ->); try done.
    { cbn. by destruct ta. }
    { cbn [in_count got set_in]. lia. }
    cbn [mbind outcome_bind].
    assert (E : taken ta (Z.to_nat (in_count (got (negb ta) pre c))) (b .& 0xff) (got (negb ta) pre c) = got ta (pre ++ [b]) c).
    { rewrite byte_id by done. unfold taken, got. cbn [in_count in_buffer set_in]. rewrite Nat2Z.id.
      destruct (lookup_lt_is_Some_2 (in_buffer c) (length pre) ltac:(lia)) as [x Ex].
      rewrite (drop_S _ x _ Ex). rewrite <- (Nat.add_0_r (length pre)) at 1. rewrite insert_app_r. cbn [insert list_insert].
      rewrite length_app, <- app_assoc. cbn [length app]. rewrite Nat.add_1_r.
      replace (Z.of_nat (length pre) + 1) with (Z.of_nat (S (length pre))) by lia. by destruct c. }
    rewrite E.
    destruct (IH (pre ++ [b]) (negb ta) v1 c t (n + 1) s) as (v2 & Hv2 & E2); try done.
    { by apply (older_le n); [lia|]. }
    { rewrite length_app. cbn [length]. lia. }
    rewrite negb_involutive in E2. rewrite E2. exists v2. split; [done|]. rewrite <- app_assoc. cbn [length app].
    replace (n + 1 + Z.of_nat (length p)) with (n + Z.of_nat (S (length p))) by lia.
    replace (parity ta (S (length p))) with (parity (negb ta) (length p)); [done|].
    unfold parity. rewrite Nat.even_succ, <- Nat.negb_even. by destruct (Nat.even _), ta.
Qed.

(** *** The CUDA works on the packet *)

Definition omap {A} (g : A -> A) (o : outcome A) : outcome A :=
  match o with Ret a => Ret (g a) | Exit c => Exit c | Stuck => Stuck end.

(** Lock, TACK, TIP, TREQ and the flag of an announced message *)
Definition set_link (lk ta ti tr fi : bool) (c : cuda_state) : cuda_state :=
  set_fill fi (set_treq tr (set_lines ta ti (set_c_lock lk c))).

(** The same state with another VIA and other lines *)
Definition link (v : via_state) (lk ta ti tr fi : bool) (s : vc) : vc :=
  Vc v (set_link lk ta ti tr fi (cuda s)) (adb s) (timers s) (next_timer s) (nip s) (hack_count s).

Section Link.
Context (v : via_state) (lk ta ti tr fi : bool).
Abbreviation ln := (link v lk ta ti tr fi).

Lemma set_reply_link p s : set_reply p (ln s) = omap ln (set_reply p s).
Proof. unfold set_reply. cbn [cuda link out_count set_link set_fill set_treq set_lines set_c_lock]. by destruct (_ || _). Qed.

Lemma omap_bind {A} (g : A -> A) (o : outcome A) (f f' : A -> outcome A) :
  (forall a, f' (g a) = omap g (f a)) -> (omap g o ≫= f') = omap g (o ≫= f).
Proof. intros H. destruct o; [apply H|done..]. Qed.

Lemma set_replies_link ps : forall s, set_replies ps (ln s) = omap ln (set_replies ps s).
Proof.
  induction ps as [|p ps IH]; intros s; cbn [set_replies]; [done|]. rewrite set_reply_link. by apply omap_bind.
Qed.

Lemma adb_call_link op s : adb_call op (ln s) = omap ln (adb_call op s).
Proof.
  unfold adb_call. cbn [adb link]. destruct (op _) as [a|]; [|done]. cbn [of_option mbind outcome_bind].
  change (set_adb a (ln s)) with (ln (set_adb a s)). apply set_replies_link.
Qed.

Lemma cuda_packet_link cmd data len s : cuda_packet time_now cmd data len (ln s) = omap ln (cuda_packet time_now cmd data len s).
Proof.
  unfold cuda_packet. cbv zeta.
  repeat (lazymatch goal with |- (if ?c then _ else _) = _ => destruct c end);
    lazymatch goal with |- _ = omap _ (set_reply ?p ?t) => exact (set_reply_link p t) end.
Qed.

Lemma cuda_incoming_link s : cuda_incoming time_now rnd (ln s) = omap ln (cuda_incoming time_now rnd s).
Proof.
  unfold cuda_incoming. cbv zeta. change (upd_cuda (set_out_count 0) (ln s)) with (ln (upd_cuda (set_out_count 0) s)).
  set (s1 := upd_cuda _ s). change (in_count (cuda (ln s1))) with (in_count (cuda s1)).
  change (in_buffer (cuda (ln s1))) with (in_buffer (cuda s1)).
  destruct (_ <? 2); [done|]. rewrite set_reply_link. apply omap_bind. intros s2.
  rewrite <- (omap_bind ln _ _ (fun s => Ret (upd_cuda (fun c => set_in (in_buffer c) 0 c) s))) by done. f_equal.
  destruct (_ =? _); [apply adb_call_link|]. destruct (_ =? _); [apply cuda_packet_link|done].
Qed.
End Link.

(** The CUDA once the packet is processed, and as it announces the reply *)
Definition processed (c : cuda_state) : cuda_state :=
  set_link false true true true false (set_out_count 0 (set_in (in_buffer c) 0 c)).
Definition announcing (c : cuda_state) : cuda_state := set_treq false (processed c).

Lemma finish_request ta p v c t n s s1 :
  vok false false v -> c_lock c = false -> treq c = true -> p <> [] ->
  cuda_incoming time_now rnd (mk v (got ta p c) t n s) = Ret s1 -> out_req_count (cuda s1) <> 0 ->
  older (next_timer s1) (timers s1) ->
  exists v', vok false false v' /\
    finish (mk v (got ta p c) t n s) =
    cuda_start_reply (mk v' (processed (cuda s1)) (timers s1) (next_timer s1 + 1) s1).
Proof.
  intros Hv Hl Ht Hp Hin Hreq Ho. unfold finish.
  destruct (out_B true true v (got ta p c) t n s Hv) as (v1 & Hv1 & _ & ->).
  assert (E : cuda_handshake time_now rnd true true (mk v1 (got ta p c) t n s) =
    Ret (mk v1 (processed (cuda s1)) ((next_timer s1, (hack_treq_delay (cuda s1), HStartReply)) :: timers s1) (next_timer s1 + 1) s1)).
  { unfold cuda_handshake, C_LOCK. cbn [cuda mk got set_in set_lines c_lock]. rewrite Hl. cbn [mbind outcome_bind].
    cbn [cuda upd_cuda mk got set_in set_lines set_c_lock tack tip]. rewrite andb_false_r. cbv zeta.
    unfold end_transfer. cbv zeta.
    match goal with |- context [in_count (cuda ?x)] => replace x with (link v1 true true true (treq c) false (mk v (got ta p c) t n s)) by done end.
    change (in_count (cuda (link _ _ _ _ _ _ _))) with (Z.of_nat (length p)).
    rewrite (proj2 (Z.eqb_neq _ _)) by (destruct p; [done|cbn; lia]). cbn [negb].
    rewrite cuda_incoming_link, Hin. cbn [omap mbind outcome_bind negb andb].
    unfold cuda_msg_avail. cbn [cuda upd_cuda link set_link set_fill set_treq set_lines set_c_lock set_in set_out_count out_req_count].
    rewrite (proj2 (Z.eqb_neq _ _) Hreq). cbn [negb]. reflexivity. }
  rewrite E. cbn [mbind outcome_bind]. unfold wait.
  change (timers (V_UNLOCK _)) with ((next_timer s1, (hack_treq_delay (cuda s1), HStartReply)) :: timers s1). cbv iota beta.
  exists (set_v_lock false v1). split; [by destruct Hv1|]. cbn [run_handler].
  change (V_UNLOCK _) with (mk (set_v_lock false v1) (processed (cuda s1))
    ((next_timer s1, (hack_treq_delay (cuda s1), HStartReply)) :: timers s1) (next_timer s1 + 1) s1).
  by rewrite cancel_older.
Qed.

Lemma start_reply_eq v c t n s : vok false false v -> older n t -> out_req_count c <> 0 ->
  exists v', vok false false v' /\
    (s' ← cuda_start_reply (mk v (processed c) t n s); wait s') = Ret (mk v' (announcing c) t (n + 1) s).
Proof.
  intros Hv Ho Hreq. unfold cuda_start_reply, C_LOCK, cuda_msg_avail. cbn [cuda mk processed set_link set_fill set_treq set_lines
    set_c_lock set_out_count set_in c_lock out_req_count tip treq mbind outcome_bind upd_cuda].
  rewrite (proj2 (Z.eqb_neq _ _) Hreq). cbn [negb andb]. unfold via_dummy_shift.
  destruct (shift_mk false 0 false v (set_treq false (set_c_lock true (processed c))) t n s Hv) as (v1 & u & Hv1 & _ & E).
  change (via_sr_int_post false _) with (via_sr_int_post false (wr SR 0 (mk v (set_treq false (set_c_lock true (processed c))) t n s))).
  rewrite E. destruct (wait_sr false v1 (announcing c) t n u s Hv1 Ho) as (v2 & Hv2 & _ & E2).
  exists v2. split; [done|]. rewrite <- E2. reflexivity.
Qed.

(** *** From the CUDA to the guest *)

(** The CUDA after the byte of index [i] was fetched, and after the last one *)
Definition fetched (ta : bool) (i : Z) (c : cuda_state) : cuda_state := set_out_count i (set_lines ta false c).
Definition sent (ta : bool) (c : cuda_state) : cuda_state :=
  set_treq true (set_out_count 0 (set_out (out_buffer c) 0 (set_lines ta false c))).
Definition after_byte (ta : bool) (c : cuda_state) : cuda_state :=
  if out_req_count c <=? out_count c + 1 then sent ta c else fetched ta (out_count c + 1) c.

Lemma handshake_to_guest ta v c t n s b :
  vok true false v -> c_lock c = false -> treq c = false -> fill_out_buffer c = false ->
  Bool.eqb ta (tack c) && Bool.eqb false (tip c) = false -> 0 <= out_count c -> out_buffer c !! Z.to_nat (out_count c) = Some b ->
  exists v' u, vok true true v' /\ reg v' !! SR = Some (b .& 0xff) /\
    cuda_handshake time_now rnd ta false (mk v c t n s) = Ret (mk v' (after_byte ta c) ((n, (u, HSrInt true)) :: t) (n + 1) s).
Proof.
  intros Hv Hl Ht Hf He Hc Hb. unfold cuda_handshake, C_LOCK. cbn [cuda mk]. rewrite Hl. cbn [mbind outcome_bind].
  cbn [cuda upd_cuda mk tack tip set_c_lock]. rewrite He. cbv zeta. cbn [cuda upd_cuda mk set_c_lock set_lines treq]. rewrite Ht.
  unfold fill_message. cbn [cuda upd_cuda mk set_c_lock set_lines fill_out_buffer]. rewrite Hf. cbn [negb mbind outcome_bind].
  unfold shift_to_guest. cbv zeta. cbn [cuda upd_cuda mk set_c_lock set_lines out_count out_buffer out_req_count].
  rewrite (proj2 (Z.ltb_ge _ _)) by lia. rewrite Hb. cbn [of_option mbind outcome_bind].
  set (c1 := set_out_count (out_count c + 1) (set_lines ta false (set_c_lock true c))).
  destruct (shift_mk true b true v c1 t n s Hv) as (v1 & u & Hv1 & Hx & E). exists v1, u. split; [done|]. split; [done|].
  unfold via_shift_in. change (wr SR b _) with (wr SR b (mk v c1 t n s)). rewrite E.
  cbn [cuda mk out_count out_req_count c1 set_out_count set_lines set_c_lock]. unfold after_byte.
  destruct (out_req_count c <=? out_count c + 1); unfold mk, C_UNLOCK, upd_cuda, sent, fetched; cbn; destruct c; cbn in Hl; by subst.
Qed.

(** Reading the shift register and port B during a transfer *)
Lemma inp_SR v c t n s x : vok false false v -> reg v !! SR = Some x -> c_lock c = false -> tip c = false ->
  exists v', vok false false v' /\ inp SR (mk v c t n s) = Ret (x, mk v' c t n s).
Proof.
  intros [H1 H2 H3 H4 (b & H5 & H6)] Hx Hl Ht. unfold inp, via_io_read, V_LOCK. cbn [via mk]. rewrite H1. cbn [mbind outcome_bind]. cbv zeta.
  rewrite port_reg by (unfold SR; lia). rewrite decide_False by (unfold SR, VIA_REG_COUNT; lia).
  do 3 (rewrite decide_False by (unfold SR, B, T1CL, T1CH, T2CL, T2CH; lia)). rewrite decide_True by done.
  unfold cuda_sr_idle, C_LOCK. cbn [cuda clear_ifr UPDATE_IRQ wr upd_via mk]. rewrite Hl. cbn [mbind outcome_bind].
  cbn [cuda upd_cuda clear_ifr UPDATE_IRQ wr upd_via mk set_c_lock tip treq]. rewrite Ht, andb_false_r. cbn [andb mbind outcome_bind].
  unfold rd at 1. cbn [via upd_via mk reg set_v_lock]. rewrite Hx. cbn [default].
  match goal with |- context [V_UNLOCK ?y] => exists (set_v_lock false (via y)) end. split.
  - split; cbn; try done; rewrite ?length_insert, ?list_lookup_insert_ne by done; try done.
    exists b. by rewrite ?list_lookup_insert_ne by done.
  - unfold mk, C_UNLOCK, V_UNLOCK, clear_ifr, UPDATE_IRQ, upd_cuda, wr, upd_via. cbn. destruct c. cbn in Hl. by subst.
Qed.

Lemma treq_bit b (tr : bool) : 0 <= b < 256 -> tst ((b .& 0x30) .| (if tr then TREQ else 0)) TREQ = tr.
Proof.
  intros Hb. assert (forallb (fun b => forallb (fun tr => Bool.eqb (tst ((b .& 0x30) .| (if tr : bool then TREQ else 0)) TREQ) tr) [true; false])
    (map Z.of_nat (seq 0 256)) = true) as H by (vm_compute; reflexivity).
  rewrite forallb_forall in H. specialize (H b ltac:(apply in_map_iff; exists (Z.to_nat b); rewrite in_seq; lia)).
  rewrite forallb_forall in H. specialize (H tr ltac:(destruct tr; cbn; auto)). by apply Bool.eqb_true_iff.
Qed.

Lemma inp_B v c t n s : vok false false v ->
  exists x, inp B (mk v c t n s) = Ret (x, mk v c t n s) /\ tst x TREQ = treq c.
Proof.
  intros [H1 H2 H3 H4 (b & H5 & H6)]. unfold inp, via_io_read, V_LOCK. cbn [via mk]. rewrite H1. cbn [mbind outcome_bind]. cbv zeta.
  rewrite port_reg by (unfold B; lia). rewrite decide_False by (unfold B, VIA_REG_COUNT; lia). rewrite decide_True by done.
  cbn [mbind outcome_bind]. eexists. split.
  - f_equal. f_equal. unfold mk, V_UNLOCK, upd_via. cbn. f_equal. destruct v. cbn in H1. by subst.
  - unfold rd. cbn [via cuda upd_via mk reg set_v_lock]. rewrite H4, H5. cbn [default]. by apply treq_bit.
Qed.

Lemma recv_byte_eq ta v c t n s b :
  vok false false v -> older n t -> c_lock c = false -> treq c = false -> fill_out_buffer c = false ->
  Bool.eqb ta (tack c) && Bool.eqb false (tip c) = false -> 0 <= out_count c -> out_buffer c !! Z.to_nat (out_count c) = Some b ->
  exists v', vok false false v' /\
    recv_byte ta (mk v c t n s) = Ret (b .& 0xff, out_req_count c <=? out_count c + 1, mk v' (after_byte ta c) t (n + 1) s).
Proof.
  intros Hv Ho Hl Ht Hf He Hc Hb. unfold recv_byte.
  destruct (out_B ta false v c t n s Hv) as (v1 & Hv1 & _ & ->).
  destruct (handshake_to_guest ta v1 c t n s b Hv1 Hl Ht Hf He Hc Hb) as (v2 & u & Hv2 & Hx & ->). cbn [mbind outcome_bind].
  destruct (wait_sr true (set_v_lock false v2) (after_byte ta c) t n u s) as (v3 & Hv3 & Hx3 & E); [by destruct Hv2|done|].
  change (V_UNLOCK _) with (mk (set_v_lock false v2) (after_byte ta c) ((n, (u, HSrInt true)) :: t) (n + 1) s).
  rewrite E. cbn [mbind outcome_bind].
  assert (K : c_lock (after_byte ta c) = false /\ tip (after_byte ta c) = false /\ treq (after_byte ta c) = (out_req_count c <=? out_count c + 1)).
  { unfold after_byte. by destruct (_ <=? _). }
  destruct K as (K1 & K2 & K3).
  destruct (inp_SR v3 (after_byte ta c) t (n + 1) s (b .& 0xff) Hv3) as (v4 & Hv4 & ->); [by rewrite Hx3|done..|].
  cbn [mbind outcome_bind]. destruct (inp_B v4 (after_byte ta c) t (n + 1) s Hv4) as (x & -> & Hx4).
  cbn [mbind outcome_bind]. rewrite Hx4, K3. by exists v4.
Qed.

Lemma recv_eq l : forall ta v c t n s fuel,
  vok false false v -> older n t -> c_lock c = false -> treq c = false -> fill_out_buffer c = false ->
  Bool.eqb ta (tack c) && Bool.eqb false (tip c) = false -> 0 <= out_count c ->
  l <> [] -> drop (Z.to_nat (out_count c)) (take (Z.to_nat (out_req_count c)) (out_buffer c)) = l ->
  out_req_count c <= Z.of_nat (length (out_buffer c)) -> (length l <= fuel)%nat ->
  exists v' ta', vok false false v' /\
    recv fuel ta (mk v c t n s) = Ret (map (fun b => b .& 0xff) l, mk v' (sent ta' c) t (n + Z.of_nat (length l)) s).
Proof.
  induction l as [|b l IH]; intros ta v c t n s fuel Hv Ho Hl Ht Hf He Hc Hne Hd Hr Hfuel; [done|].
  destruct fuel as [|f]; [cbn in Hfuel; lia|]. cbn [recv].
  assert (Hlen : length (drop (Z.to_nat (out_count c)) (take (Z.to_nat (out_req_count c)) (out_buffer c))) = S (length l)) by (by rewrite Hd).
  rewrite length_drop, length_take in Hlen.
  assert (Hb : out_buffer c !! Z.to_nat (out_count c) = Some b).
  { rewrite <- (lookup_take_lt (out_buffer c) (Z.to_nat (out_req_count c))) by lia.
    rewrite <- (Nat.add_0_r (Z.to_nat (out_count c))), <- lookup_drop, Hd. done. }
  destruct (recv_byte_eq ta v c t n s b Hv Ho Hl Ht Hf He Hc Hb) as (v1 & Hv1 & ->). cbn [mbind outcome_bind].
  unfold after_byte. destruct (Z.leb_spec (out_req_count c) (out_count c + 1)) as [H|H].
  - destruct l; [|cbn in Hlen; lia]. by exists v1, ta.
  - assert (Hd' : drop (Z.to_nat (out_count c + 1)) (take (Z.to_nat (out_req_count c)) (out_buffer c)) = l).
    { replace (Z.to_nat (out_count c + 1)) with (Z.to_nat (out_count c) + 1)%nat by lia. rewrite <- drop_drop, Hd. done. }
    destruct (IH (negb ta) v1 (fetched ta (out_count c + 1) c) t (n + 1) s f Hv1) as (v2 & ta' & Hv2 & ->); try done.
    + apply (older_le n); [lia|done].
    + cbn. by destruct ta.
    + cbn [out_count fetched set_out_count]. lia.
    + intros ->. cbn in Hlen. lia.
    + cbn in Hfuel. lia.
    + exists v2, ta'. split; [done|]. cbn [mbind outcome_bind map length].
      replace (n + 1 + Z.of_nat (length l)) with (n + Z.of_nat (S (length l))) by lia. done.
Qed.

(** The transfer of the reply ends: nothing more is announced. *)
Lemma finish_reply ta v c t n s : vok false false v -> older n t -> c_lock c = false -> in_count c = 0 ->
  exists v', vok false false v' /\ finish (mk v (sent ta c) t n s) =
    Ret (mk v' (processed (set_out (out_buffer c) 0 c)) t (n + 1) s).
Proof.
  intros Hv Ho Hl Hi. unfold finish. destruct (out_B true true v (sent ta c) t n s Hv) as (v1 & Hv1 & _ & ->).
  destruct (shift_mk false 0 true v1 (set_c_lock true (processed (set_out (out_buffer c) 0 c))) t n s Hv1) as (v2 & u & Hv2 & _ & E).
  assert (X : cuda_handshake time_now rnd true true (mk v1 (sent ta c) t n s) =
    Ret (mk v2 (processed (set_out (out_buffer c) 0 c)) ((n, (u, HSrInt false)) :: t) (n + 1) s)).
  { unfold cuda_handshake, C_LOCK. cbn [cuda mk sent set_treq set_out_count set_out set_lines c_lock]. rewrite Hl. cbn [mbind outcome_bind].
    cbn [cuda upd_cuda mk sent set_treq set_out_count set_out set_lines set_c_lock tack tip]. rewrite andb_false_r. cbv zeta.
    unfold end_transfer. cbv zeta. cbn [cuda upd_cuda mk set_fill sent set_treq set_out_count set_out set_lines set_c_lock in_count].
    rewrite Hi. cbn [Z.eqb negb mbind outcome_bind andb].
    unfold cuda_msg_avail. cbn [cuda upd_cuda mk set_fill sent set_in set_treq set_out_count set_out set_lines set_c_lock out_req_count].
    cbn [Z.eqb negb]. unfold via_dummy_shift.
    change (via_sr_int_post false _) with (via_sr_int_post false (wr SR 0 (mk v1 (set_c_lock true (processed (set_out (out_buffer c) 0 c))) t n s))).
    rewrite E. reflexivity. }
  rewrite X. cbn [mbind outcome_bind].
  destruct (wait_sr false (set_v_lock false v2) (processed (set_out (out_buffer c) 0 c)) t n u s) as (v3 & Hv3 & _ & E3); [by destruct Hv2|done|].
  exists v3. split; [done|]. by rewrite <- E3.
Qed.

(** ** The steps of the driver keep the invariant *)

Abbreviation stay := (st (false, false)).

Lemma port_range r : (r < 16)%nat -> base <= port r < base + 0x2000.
Proof. intros. unfold port. change VIA_REG_LEN with 512. lia. Qed.

Lemma lt_SR : (SR < 16)%nat.
Proof. unfold SR. lia. Qed.

Lemma lt_B : (B < 16)%nat.
Proof. unfold B. lia. Qed.

Lemma out_st r x s s' : (r < 16)%nat -> stay s -> out r x s = Ret s' -> stay s'.
Proof.
  intros Hr Hs E. pose proof (io_write_st mticks mticks_to_usecs time_now rnd base (port r) x s (port_range r Hr) Hs) as H.
  fold (out r x s) in H. by rewrite E in H.
Qed.

Lemma inp_st r x s s' : (r < 16)%nat -> stay s -> inp r s = Ret (x, s') -> stay s'.
Proof.
  intros Hr Hs E. pose proof (io_read_st mticks mticks_to_usecs base (port r) s (port_range r Hr) Hs) as H.
  fold (inp r s) in H. by rewrite E in H.
Qed.

Lemma wait_st s s' : stay s -> wait s = Ret s' -> stay s'.
Proof.
  intros Hs. unfold wait. destruct (timers s) as [|[i [u h]] t] eqn:Et; [done|]. intros E.
  assert (Hi : (i, (u, h)) ∈ timers s) by (rewrite Et; left).
  pose proof (event_holds base s _ Hs (ev_timer base s i u h mticks tv_sec tv_usec Hi)) as H. by rewrite E in H.
Qed.

Lemma bind_ret {A B} (o : outcome A) (f : A -> outcome B) b : (o ≫= f) = Ret b -> exists a, o = Ret a /\ f a = Ret b.
Proof. destruct o as [a| |]; cbn; [|done..]. by exists a. Qed.

Lemma send_st p : forall ta s s', stay s -> send ta p s = Ret s' -> stay s'.
Proof.
  induction p as [|b p IH]; intros ta s s' Hs; cbn [send]; [by intros [= <-]|].
  intros (s3 & (s1 & E1 & (s2 & E2 & E3)%bind_ret)%bind_ret & E)%bind_ret. apply (IH (negb ta) s3 s'); [|done].
  apply (wait_st s2); [|done]. apply (out_st SR b s s1 lt_SR Hs) in E1. by apply (out_st B (lines ta false) s1 s2 lt_B E1) in E2.
Qed.

Lemma finish_st s s' : stay s -> finish s = Ret s' -> stay s'.
Proof. intros Hs (s1 & E1 & E2)%bind_ret. apply (wait_st s1); [|done]. by apply (out_st B (lines true true) s s1 lt_B Hs) in E1. Qed.

Lemma recv_st fuel : forall ta s l s', stay s -> recv fuel ta s = Ret (l, s') -> stay s'.
Proof.
  induction fuel as [|f IH]; intros ta s l s' Hs; cbn [recv]; [done|].
  intros ([[b last] s4] & (s1 & E1 & (s2 & E2 & ([b' s3] & E3 & ([x s5] & E4 & E5)%bind_ret)%bind_ret)%bind_ret)%bind_ret & E)%bind_ret.
  injection E5 as -> _ ->.
  apply (out_st B _ s s1 lt_B Hs) in E1. apply (wait_st s1 s2 E1) in E2.
  apply (inp_st SR _ s2 s3 lt_SR E2) in E3. apply (inp_st B _ s3 _ lt_B E3) in E4.
  destruct last; [by injection E as _ <-|]. apply bind_ret in E as ([l' s6] & E6 & [= _ <-]). by apply (IH _ _ _ _ E4 E6).
Qed.

Lemma transact_st p s l s' : stay s -> transact p s = Ret (l, s') -> stay s'.
Proof.
  intros Hs (s1 & E1 & (s2 & E2 & (s3 & E3 & ([l' s4] & E4 & (s5 & E5 & E6)%bind_ret)%bind_ret)%bind_ret)%bind_ret)%bind_ret.
  injection E6 as _ <-. apply (send_st _ _ _ _ Hs) in E1. apply (finish_st _ _ E1) in E2. apply (wait_st _ _ E2) in E3.
  apply (recv_st _ _ _ _ _ E3) in E4. by apply (finish_st _ _ E4).
Qed.

End Wire.

(** ** A transaction *)

(** The lines are idle, and nothing is on its way. *)
Record ready (s : vc) : Prop := {
  re_st : st (false, false) s; re_via : vok false false (via s);
  re_tack : tack (cuda s) = true; re_tip : tip (cuda s) = true; re_treq : treq (cuda s) = true;
  re_in : in_count (cuda s) = 0; re_out : out_req_count (cuda s) = 0
}.

(** The state with [p] in the buffer of the CUDA; each byte took a timer. *)
Definition received (p : list Z) (s : vc) : vc :=
  mk (via s) (set_in (p ++ drop (length p) (in_buffer (cuda s))) (Z.of_nat (length p)) (cuda s))
    (timers s) (next_timer s + Z.of_nat (length p)) s.

(** What is not part of the exchange *)
Definition core (s : vc) : Adb.adb_state * list (Z * (Z * handler)) * (Z * Z * bool * Z * Z * bool) :=
  let c := cuda s in (adb s, timers s, (rtc c, rtc_stamp c, onesec_enabled c, onesec_pending c, onesec_last c, autopoll c)).

Definition reply_of (s : vc) : list Z := take (Z.to_nat (out_req_count (cuda s))) (out_buffer (cuda s)).

Lemma received_st p s : (length p <= 16)%nat -> st (false, false) s -> st (false, false) (received p s).
Proof.
  intros Hp [[H1 H2 H3 H4] Hl]. split; [|done]. split; try done.
  - destruct H1 as [K1 K2 K3 K4 K5]. split; cbn; try done; [|lia]. rewrite length_app, length_drop. lia.
  - destruct H3 as [K1 K2 K3 K4]. split; try done; cbn; [|lia]. intros t Ht%K2. lia.
Qed.

Lemma st_older l s : st l s -> older (next_timer s) (timers s).
Proof.
  intros [[_ _ H3 _] _]. unfold older. apply list.Forall_forall. intros t Ht%(tm_ids _ _ _ _ H3). lia.
Qed.


Section Transaction.
Context (mticks : Z) (mticks_to_usecs : Z -> Z) (time_now tv_sec tv_usec rnd base : Z).
Abbreviation send' := (send mticks mticks_to_usecs time_now tv_sec tv_usec rnd base).
Abbreviation finish' := (finish mticks mticks_to_usecs time_now tv_sec tv_usec rnd base).
Abbreviation wait' := (wait mticks tv_sec tv_usec).
Abbreviation recv' := (recv mticks mticks_to_usecs time_now tv_sec tv_usec rnd base).
Abbreviation transact' := (transact mticks mticks_to_usecs time_now tv_sec tv_usec rnd base).

Lemma ready_lock s : ready s -> c_lock (cuda s) = false.
Proof. intros [[_ H] _ _ _ _ _]. by injection H. Qed.

Lemma send_packet p s : ready s -> p <> [] -> (length p <= 16)%nat -> Forall (fun b => 0 <= b < 256) p ->
  exists v ta, vok false false v /\
    send' true p s = Ret (mk v (got ta p (cuda s)) (timers s) (next_timer s + Z.of_nat (length p)) s).
Proof.
  intros Hs Hp Hl Hb. destruct p as [|b p]; [done|]. apply list.Forall_cons in Hb as [Hb0 Hb]. cbn [send].
  pose proof (ready_lock s Hs) as Hc. destruct Hs as [Hst Hv H1 H2 H3 H4 H5]. pose proof (st_older _ _ Hst) as Ho.
  destruct (send_byte_eq mticks mticks_to_usecs time_now tv_sec tv_usec rnd base true b (via s) (cuda s) (timers s) (next_timer s) s)
    as (v1 & Hv1 & E); try done; [by rewrite H1, H2|lia|].
  replace (mk (via s) (cuda s) (timers s) (next_timer s) s) with s in E by (by destruct s). rewrite E. cbn [mbind outcome_bind].
  assert (X : taken true (Z.to_nat (in_count (cuda s))) (b .& 0xff) (cuda s) = got (negb false) [b] (cuda s)).
  { rewrite byte_id by done. rewrite H4. unfold taken, got. pose proof (bu_in _ (st_bufs _ _ Hst)) as Hib.
    by destruct (in_buffer (cuda s)). }
  rewrite X. destruct (send_eq mticks mticks_to_usecs time_now tv_sec tv_usec rnd base p [b] false v1 (cuda s) (timers s) (next_timer s + 1) s)
    as (v2 & Hv2 & E2); try done; [by apply (older_le (next_timer s)); [lia|]|apply (st_bufs _ _ Hst)|].
  cbn [negb] in E2 |- *. rewrite E2. exists v2, (parity false (length p)). split; [done|]. cbn [length app].
  by replace (next_timer s + 1 + Z.of_nat (length p)) with (next_timer s + Z.of_nat (S (length p))) by lia.
Qed.

(** The packet is processed, and the reply announced. *)
Lemma finish_packet ta p v s s1 : ready s -> vok false false v -> p <> [] -> (length p <= 16)%nat ->
  cuda_incoming time_now rnd (received p s) = Ret s1 -> out_req_count (cuda s1) <> 0 ->
  exists v', vok false false v' /\
    (s' ← finish' (mk v (got ta p (cuda s)) (timers s) (next_timer s + Z.of_nat (length p)) s); wait' s') =
    Ret (mk v' (announcing (cuda s1)) (timers s1) (next_timer s1 + 1 + 1) s1).
Proof.
  intros Hs Hv Hp Hl Hin Hreq. pose proof (ready_lock s Hs) as Hc. destruct Hs as [Hst _ _ _ H3 _ _].
  pose proof (cuda_incoming_st time_now rnd _ _ (received_st p s Hl Hst)) as Hst1. rewrite Hin in Hst1. cbn [holds] in Hst1.
  pose proof (st_older _ _ Hst1) as Ho.
  set (g := link v false ta false (treq (cuda s)) (fill_out_buffer (cuda s))).
  destruct (finish_request mticks mticks_to_usecs time_now tv_sec tv_usec rnd base ta p v (cuda s) (timers s)
    (next_timer s + Z.of_nat (length p)) s (g s1)) as (v1 & Hv1 & E); try done.
  { replace (mk v (got ta p (cuda s)) _ _ s) with (g (received p s)).
    - unfold g. by rewrite cuda_incoming_link, Hin.
    - unfold g, link, set_link, received, mk, got. cbn. unfold set_lines. cbn. by rewrite Hc. }
  rewrite E. destruct (start_reply_eq mticks tv_sec tv_usec v1 (cuda (g s1)) (timers s1) (next_timer s1 + 1) (g s1))
    as (v2 & Hv2 & E2); [done|by apply (older_le (next_timer s1)); [lia|]|done|].
  exists v2. split; [done|]. exact E2.
Qed.

(** C31: the byte protocol carries packets.  A driver that sends a packet of up
    to sixteen bytes through the shift register, acknowledging each byte on
    TACK, ends the transfer, waits for TREQ and fetches bytes until TREQ is
    released, gets exactly the reply that the CUDA composes for exactly that
    packet; the ADB, the timers, the clock and the settings are as this
    processing left them, and the lines are idle again. *)
Theorem transact_correct p s s1 :
  ready s -> p <> [] -> (length p <= 16)%nat -> Forall (fun b => 0 <= b < 256) p ->
  cuda_incoming time_now rnd (received p s) = Ret s1 -> out_req_count (cuda s1) <> 0 ->
  exists s', transact' p s = Ret (map (fun b => b .& 0xff) (reply_of s1), s') /\ ready s' /\ core s' = core s1.
Proof.
  intros Hs Hp Hl Hb Hin Hreq. pose proof (re_st _ Hs) as Hst.
  destruct (send_packet p s Hs Hp Hl Hb) as (v & ta & Hv & E1).
  destruct (finish_packet ta p v s s1 Hs Hv Hp Hl Hin Hreq) as (v2 & Hv2 & E2).
  pose proof (cuda_incoming_st time_now rnd _ _ (received_st p s Hl Hst)) as Hst1. rewrite Hin in Hst1. cbn [holds] in Hst1.
  pose proof (st_older _ _ Hst1) as Ho. destruct (st_bufs _ _ Hst1) as [K1 K2 K3 K4 K5].
  assert (Hlen : length (reply_of s1) = Z.to_nat (out_req_count (cuda s1))) by (unfold reply_of; rewrite length_take; lia).
  destruct (recv_eq mticks mticks_to_usecs time_now tv_sec tv_usec rnd base (reply_of s1) true v2 (announcing (cuda s1)) (timers s1)
    (next_timer s1 + 1 + 1) s1 16 Hv2) as (v3 & ta3 & Hv3 & E3); try done.
  { by apply (older_le (next_timer s1)); [lia|]. }
  { intros Hn. rewrite Hn in Hlen. cbn in Hlen. lia. }
  { cbn [out_req_count out_buffer announcing processed set_link set_fill set_treq set_lines set_c_lock set_out_count set_in]. lia. }
  { rewrite Hlen. lia. }
  destruct (finish_reply mticks mticks_to_usecs time_now tv_sec tv_usec rnd base ta3 v3 (announcing (cuda s1)) (timers s1)
    (next_timer s1 + 1 + 1 + Z.of_nat (length (reply_of s1))) s1 Hv3) as (v4 & Hv4 & E4); try done.
  { by apply (older_le (next_timer s1)); [lia|]. }
  set (s' := mk v4 _ _ _ s1) in E4. exists s'.
  assert (E : transact' p s = Ret (map (fun b => b .& 0xff) (reply_of s1), s')).
  { unfold transact. rewrite E1. cbn [mbind outcome_bind]. 
    destruct (finish' _) as [s2| |]; cbn [mbind outcome_bind] in E2 |- *; [|done..]. rewrite E2. cbn [mbind outcome_bind].
    rewrite E3. cbn [mbind outcome_bind]. by rewrite E4. }
  split; [done|]. split; [|done]. apply transact_st in E; [|done]. by split.
Qed.
End Transaction.

(** ** Talk to the keyboard

    The driver sets up port B, a key goes down and up on the host, and
    register 0 of the keyboard is read. *)
Definition boot (s : vc) : outcome vc :=
  s ← out 0 id 5 0 0 DIRB 0x30 s;
  s ← out 0 id 5 0 0 B 0x30 s;
  s ← wait 0 5 0 s;
  s ← host_event (fun a => snd <$> Adb.adb_key false true 0x0b 0 a) s;
  host_event (fun a => snd <$> Adb.adb_key false true 0x8b 0 a) s.
Definition booted : vc := Eval vm_compute in let s := via_cuda_init 5 false (-1) in match boot s with Ret s' => s' | _ => s end.
Definition talk_keyboard : list Z := [Adb.ADB_PACKET; 0x2c].

Lemma boot_st s s' : st (false, false) s -> boot s = Ret s' -> st (false, false) s'.
Proof.
  intros Hs (s1 & E1 & (s2 & E2 & (s3 & E3 & (s4 & E4 & E5)%bind_ret)%bind_ret)%bind_ret)%bind_ret.
  apply out_st in E1; [|unfold DIRB; lia|done]. apply out_st in E2; [|exact lt_B|exact E1].
  apply (wait_st 0 5 0 0 s2 s3 E2) in E3.
  pose proof (host_event_st _ s3 (adb_key_ok false true 0x0b 0) E3) as H4. rewrite E4 in H4.
  pose proof (host_event_st _ s4 (adb_key_ok false true 0x8b 0) H4) as H5. by rewrite E5 in H5.
Qed.

Lemma booted_ready : ready booted.
Proof.
  split; [| |done..].
  - apply (boot_st (via_cuda_init 5 false (-1))); [apply init_st|]. vm_compute. reflexivity.
  - split; try done. by eexists.
Qed.

(** After the CUDA worked on the packet *)
Definition talked : vc :=
  Eval vm_compute in match cuda_incoming 5 0 (received talk_keyboard booted) with Ret s => s | _ => booted end.

Lemma transact_correct_witness : exists s1 s',
  cuda_incoming 5 0 (received talk_keyboard booted) = Ret s1 /\ ready booted /\
  transact 0 id 5 5 0 0 0 talk_keyboard booted = Ret ([0; 0x40; 0x2c; 0x0b; 0x8b], s') /\ core s' = core s1.
Proof.
  assert (E : cuda_incoming 5 0 (received talk_keyboard booted) = Ret talked) by (vm_compute; reflexivity).
  destruct (transact_correct 0 id 5 5 0 0 0 talk_keyboard booted talked booted_ready) as (s' & H1 & H2 & H3).
  - done.
  - cbn. lia.
  - repeat apply list.Forall_cons_2; [vm_compute; intuition congruence..|apply Forall_nil_2].
  - exact E.
  - vm_compute. congruence.
  - exists talked, s'. split; [exact E|]. split; [exact booted_ready|]. split; [exact H1|exact H3].
Defined.

(** ** The clock *)

Lemma set_reply_eq p s : (length p <= 16)%nat -> out_count (cuda s) = 0 ->
  set_reply p s = Ret (upd_cuda (fun c => set_out (p ++ drop (length p) (out_buffer c)) (Z.of_nat (length p)) c) s).
Proof.
  intros Hp Hc. unfold set_reply. rewrite Hc. change VIA_BUFFER_LEN with 16. cbv zeta.
  by rewrite (proj2 (Z.ltb_ge _ _)) by lia.
Qed.

(** reading the clock back does not give the time that was set.  The
    clock is set to [t] at the host's time [n0] and read at [n1]: the reply
    carries [t + n1], and not the [t + (n1 - n0)] for which [rtc_stamp] is
    kept, unless the clock of the host was at zero. *)
Theorem get_time_ignores_stamp t n0 n1 s :
  0 <= t < 2 ^ 32 -> out_count (cuda s) = 0 ->
  exists s1 s2, cuda_packet n0 CUDA_SET_TIME (be_bytes 4 t) 4 s = Ret s1 /\
    cuda_packet n1 CUDA_GET_TIME [] 0 s1 = Ret s2 /\
    reply_of s2 = [CUDA_PACKET; 0; CUDA_GET_TIME] ++ be_bytes 4 (u32 (t + n1)) /\
    (u32 (t + n1) = u32 (t + (n1 - n0)) <-> u32 n0 = 0).
Proof.
  intros Ht Hc. set (s1 := upd_cuda (set_rtc t n0) s).
  assert (E1 : cuda_packet n0 CUDA_SET_TIME (be_bytes 4 t) 4 s = set_reply [CUDA_PACKET; 0; CUDA_SET_TIME] s1).
  { unfold s1. rewrite <- (be_bytes_value 4 t) at 2 by lia. rewrite <- (take_ge (be_bytes 4 t) 4) at 2 by (rewrite be_bytes_length; lia). reflexivity. }
  rewrite E1, set_reply_eq by (try done; cbn; lia). eexists _, _. split; [reflexivity|].
  split.
  { change (cuda_packet n1 CUDA_GET_TIME [] 0 ?x) with (set_reply ([CUDA_PACKET; 0; CUDA_GET_TIME] ++ be_bytes 4 (u32 (rtc (cuda x) + n1))) x).
    rewrite set_reply_eq; [reflexivity|rewrite length_app, be_bytes_length; cbn; lia|done]. }
  split.
  - unfold reply_of. cbn [cuda upd_cuda set_out out_req_count out_buffer]. rewrite Nat2Z.id, take_app_length. done.
  - unfold u32. Z.to_euclidean_division_equations. lia.
Qed.

Lemma get_time_ignores_stamp_witness :
  let s := booted in exists s1 s2, cuda_packet 1000 CUDA_SET_TIME (be_bytes 4 5000) 4 s = Ret s1 /\
    cuda_packet 1010 CUDA_GET_TIME [] 0 s1 = Ret s2 /\ reply_of s2 = [1; 0; 3; 0; 0; 0x17; 0x7a] /\ be_value [0; 0; 0x17; 0x7a] = 6010.
Proof.
  intros s. destruct (get_time_ignores_stamp 5000 1000 1010 s) as (s1 & s2 & E1 & E2 & E3 & _); [lia|reflexivity|].
  exists s1, s2. split; [exact E1|]. split; [exact E2|]. split; [exact E3|reflexivity].
Defined.

End CudaWire.
