(* ===== verification/FileIO.v ===== *)
(** * Files

    The system calls the disk images use ([lseek], [read], [write],
    [ftruncate]) on one open file: its bytes (unwritten ones are 0), length
    and position, and the results of the next write operations when they do
    not succeed. *)

From S2P Require Import Prelude.

Module FileIO.

(** [faults]: the results of the next writes (a byte count, negative for an
    error), none left when they succeed *)
Record file := File { fdat : gmap Z Z; flen : Z; fpos : Z; faults : list Z }.

Definition set_fpos (v : Z) (f : file) : file := File (fdat f) (flen f) v (faults f).
Definition fbyte (f : file) (x : Z) : Z := default 0 (fdat f !! x).

(** The [n] bytes from [a] on *)
Definition seg (f : file) (a : Z) (n : nat) : list Z := map (fun i => fbyte f (a + Z.of_nat i)) (seq 0 n).

Fixpoint put_bytes (m : gmap Z Z) (a : Z) (l : list Z) : gmap Z Z :=
  match l with
  | [] => m
  | b :: l' => put_bytes (<[a := b]> m) (a + 1) l'
  end.

Definition lseek_set (off : Z) (f : file) : Z * file := if off <? 0 then (-1, f) else (off, set_fpos off f).
Definition lseek_end (f : file) : Z * file := (flen f, set_fpos (flen f) f).

Definition fread (n : Z) (f : file) : list Z * file :=
  let k := Z.max 0 (Z.min n (flen f - fpos f)) in
  (seg f (fpos f) (Z.to_nat k), set_fpos (fpos f + k) f).

Definition next_fault (n : Z) (f : file) : Z * list Z :=
  match faults f with
  | [] => (n, [])
  | c :: q => (Z.min c n, q)
  end.

Definition fwrite (l : list Z) (f : file) : Z * file :=
  let '(c, q) := next_fault (Z.of_nat (length l)) f in
  if c <=? 0 then (c, File (fdat f) (flen f) (fpos f) q) else
  (c, File (put_bytes (fdat f) (fpos f) (take (Z.to_nat c) l)) (Z.max (flen f) (fpos f + c)) (fpos f + c) q).

Definition ftruncate (n : Z) (f : file) : Z * file :=
  let '(c, q) := next_fault 0 f in
  if (c <? 0) || (n <? 0) then (-1, File (fdat f) (flen f) (fpos f) q)
  else (0, File (filter (fun p => p.1 < n) (fdat f)) n (fpos f) q).

(** Bytes, all of them inside the file *)
Record file_ok (f : file) : Prop := {
  fo_byte x b : fdat f !! x = Some b -> 0 <= x < flen f /\ 0 <= b < 256;
  fo_len : 0 <= flen f;
  fo_faults : faults f = []
}.

Definition bytes_ok (l : list Z) : Prop := Forall (fun b => 0 <= b < 256) l.

(** ** Segments *)

Lemma seg_length f a n : length (seg f a n) = n.
Proof. unfold seg. by rewrite length_map, length_seq. Qed.

Lemma seg_lookup f a n i : (i < n)%nat -> seg f a n !! i = Some (fbyte f (a + Z.of_nat i)).
Proof.
  intros Hi. unfold seg. rewrite list_lookup_fmap, lookup_seq_lt by done. done.
Qed.

Lemma seg_ext f g a b n :
  (forall i, (i < n)%nat -> fbyte f (a + Z.of_nat i) = fbyte g (b + Z.of_nat i)) -> seg f a n = seg g b n.
Proof.
  intros H. apply list_eq. intros i. destruct (decide (i < n)%nat) as [Hi|Hi].
  - rewrite !seg_lookup by done. f_equal. by apply H.
  - rewrite !lookup_ge_None_2 by (rewrite seg_length; lia). done.
Qed.

Lemma seg_eq f a n l :
  length l = n -> (forall i b, l !! i = Some b -> fbyte f (a + Z.of_nat i) = b) -> seg f a n = l.
Proof.
  intros Hl H. apply list_eq. intros i. destruct (decide (i < n)%nat) as [Hi|Hi].
  - rewrite seg_lookup by done. destruct (lookup_lt_is_Some_2 l i) as [b Hb]; [lia|].
    rewrite Hb. f_equal. by apply H.
  - rewrite !lookup_ge_None_2 by (rewrite ?seg_length; lia). done.
Qed.

Lemma seg_split f a n m : seg f a (n + m) = seg f a n ++ seg f (a + Z.of_nat n) m.
Proof.
  apply seg_eq; [by rewrite length_app, !seg_length|]. intros i b Hb.
  destruct (decide (i < n)%nat) as [Hi|Hi].
  - rewrite lookup_app_l, seg_lookup in Hb by (rewrite ?seg_length; lia). by injection Hb.
  - rewrite lookup_app_r in Hb by (rewrite seg_length; lia). rewrite seg_length in Hb.
    destruct (decide (i - n < m)%nat) as [Hm|Hm].
    + rewrite seg_lookup in Hb by done. injection Hb as <-. f_equal. lia.
    + rewrite lookup_ge_None_2 in Hb by (rewrite seg_length; lia). done.
Qed.

Lemma take_seg f a n m : (m <= n)%nat -> take m (seg f a n) = seg f a m.
Proof.
  intros H. replace n with (m + (n - m))%nat by lia.
  rewrite seg_split, take_app_length' by (by rewrite seg_length). done.
Qed.

Lemma drop_seg f a n m : (m <= n)%nat -> drop m (seg f a n) = seg f (a + Z.of_nat m) (n - m).
Proof.
  intros H. replace n with (m + (n - m))%nat at 1 by lia.
  rewrite seg_split, drop_app_length' by (by rewrite seg_length). done.
Qed.

Lemma fbyte_range f x : file_ok f -> 0 <= fbyte f x < 256.
Proof.
  intros H. unfold fbyte. destruct (fdat f !! x) as [b|] eqn:E; cbn; [|lia].
  apply (fo_byte f H x b E).
Qed.

Lemma seg_bytes f a n : file_ok f -> bytes_ok (seg f a n).
Proof.
  intros H. apply Forall_lookup. intros i b Hb.
  destruct (decide (i < n)%nat) as [Hi|Hi].
  - rewrite seg_lookup in Hb by done. injection Hb as <-. by apply fbyte_range.
  - rewrite lookup_ge_None_2 in Hb by (rewrite seg_length; lia). done.
Qed.

Lemma fbyte_beyond f x : file_ok f -> flen f <= x -> fbyte f x = 0.
Proof.
  intros H Hx. unfold fbyte. destruct (fdat f !! x) as [b|] eqn:E; [|done].
  apply (fo_byte f H) in E. lia.
Qed.

(** ** Writing *)

Lemma put_bytes_lookup l : forall m a x,
  put_bytes m a l !! x = if decide (a <= x < a + Z.of_nat (length l)) then l !! Z.to_nat (x - a) else m !! x.
Proof.
  induction l as [|b l IH]; intros m a x; cbn [put_bytes length].
  - rewrite decide_False by (cbn; lia). done.
  - rewrite IH. destruct (decide (x = a)) as [->|Hx].
    + rewrite decide_False, decide_True by lia. rewrite lookup_insert_eq, Z.sub_diag. done.
    + destruct (decide (a + 1 <= x < a + 1 + Z.of_nat (length l))) as [H|H].
      * rewrite decide_True by lia. replace (Z.to_nat (x - a)) with (S (Z.to_nat (x - (a + 1)))) by lia. done.
      * rewrite decide_False by lia. by rewrite lookup_insert_ne by lia.
Qed.

(** [g] is [f] with [l] written at [a]. *)
Record written (a : Z) (l : list Z) (f g : file) : Prop := {
  wr_in i b : l !! i = Some b -> fbyte g (a + Z.of_nat i) = b;
  wr_out x : ~ (a <= x < a + Z.of_nat (length l)) -> fbyte g x = fbyte f x;
  wr_len : flen g = Z.max (flen f) (a + Z.of_nat (length l));
  wr_ok : file_ok g
}.

Lemma fwrite_spec l f :
  file_ok f -> bytes_ok l -> 0 <= fpos f -> l <> [] ->
  exists g, fwrite l f = (Z.of_nat (length l), g) /\ written (fpos f) l f g.
Proof.
  intros Hf Hl Hp Hn. assert (0 < length l)%nat by (destruct l; [done|cbn; lia]).
  unfold fwrite, next_fault. rewrite (fo_faults f Hf).
  rewrite (proj2 (Z.leb_gt _ _)) by lia. rewrite Nat2Z.id, firstn_all. eexists. split; [reflexivity|].
  split; cbn [fdat flen faults].
  - intros i b Hb. apply lookup_lt_Some in Hb as Hi. unfold fbyte. cbn [fdat].
    rewrite put_bytes_lookup, decide_True by lia.
    replace (Z.to_nat (fpos f + Z.of_nat i - fpos f)) with i by lia. by rewrite Hb.
  - intros x Hx. unfold fbyte. cbn [fdat]. by rewrite put_bytes_lookup, decide_False.
  - done.
  - split; cbn [fdat flen faults]; [|destruct Hf; lia|done].
    intros x b Hb. rewrite put_bytes_lookup in Hb.
    destruct (decide (fpos f <= x < fpos f + Z.of_nat (length l))) as [H'|H'].
    + split; [lia|]. by apply (proj1 (Forall_lookup _ _) Hl) in Hb.
    + apply (fo_byte f Hf) in Hb. lia.
Qed.

Lemma written_seg a l f g : written a l f g -> seg g a (length l) = l.
Proof. intros H. apply seg_eq; [done|]. apply (wr_in _ _ _ _ H). Qed.

Lemma written_seg_out a l f g b n :
  written a l f g -> b + Z.of_nat n <= a \/ a + Z.of_nat (length l) <= b -> seg g b n = seg f b n.
Proof. intros H Hd. apply seg_ext. intros i Hi. apply (wr_out _ _ _ _ H). lia. Qed.

Lemma ftruncate_grow n f :
  file_ok f -> flen f <= n ->
  exists g, ftruncate n f = (0, g) /\ file_ok g /\ flen g = n /\ (forall x, fbyte g x = fbyte f x).
Proof.
  intros Hf Hn. unfold ftruncate, next_fault. rewrite (fo_faults f Hf).
  pose proof (fo_len f Hf). change (0 <? 0) with false. rewrite (proj2 (Z.ltb_ge _ _)) by lia.
  cbn [orb]. eexists. split; [reflexivity|].
  assert (Hd : forall x b, filter (fun p => p.1 < n) (fdat f) !! x = Some b <-> fdat f !! x = Some b).
  { intros x b. rewrite map_lookup_filter_Some. cbn. split; [tauto|].
    intros H'. split; [done|]. apply (fo_byte f Hf) in H'. lia. }
  split_and!; [|done|].
  - split; cbn; [|lia|done]. intros x b Hb%Hd. apply (fo_byte f Hf) in Hb. lia.
  - intros x. unfold fbyte. cbn [fdat]. destruct (fdat f !! x) as [b|] eqn:E.
    + by rewrite (proj2 (Hd x b) E).
    + destruct (filter _ (fdat f) !! x) as [b|] eqn:E'; [|done]. apply Hd in E'. congruence.
Qed.

Lemma lseek_set_eq off f : 0 <= off -> lseek_set off f = (off, set_fpos off f).
Proof. intros H. unfold lseek_set. by rewrite (proj2 (Z.ltb_ge _ _)) by lia. Qed.

Lemma fread_eq n f :
  0 <= n -> fpos f + n <= flen f -> fread n f = (seg f (fpos f) (Z.to_nat n), set_fpos (fpos f + n) f).
Proof. intros H1 H2. unfold fread. by rewrite Z.min_l, Z.max_r by lia. Qed.

Lemma set_fpos_ok p f : file_ok f -> file_ok (set_fpos p f).
Proof. by intros [H1 H2 H3]. Qed.

(** Writing at a given position *)
Lemma fwrite_at l f p :
  file_ok f -> bytes_ok l -> 0 <= p -> l <> [] ->
  exists g, fwrite l (set_fpos p f) = (Z.of_nat (length l), g) /\ written p l f g.
Proof.
  intros Hf Hl Hp Hn. destruct (fwrite_spec l (set_fpos p f)) as (g & E & [W1 W2 W3 W4]);
    [by apply set_fpos_ok|done|done|done|].
  exists g. split; [done|]. by split.
Qed.

End FileIO.
