(* ===== verification/Qcow.v ===== *)
(** * Copy-on-write disk images ([src/drivers/disk/blk_qcow.c], [src/drivers/disk/vec_wrap.c])

    A virtual disk of clusters is stored in a file: the level 1 table points
    to level 2 tables, whose entries point to the clusters written so far.
    Sixteen level 2 tables are cached.  Offsets are [u64]; the cached tables
    and the buffers are bytes, as the code has them, and the level 1 table is
    the one converted by [qcow_open].  [None] is an access outside of an
    array. *)

From S2P Require Import Prelude FileIO.

Module Qcow.
Import FileIO.

Definition QCOW_MAGIC : Z := 0x514649fb.
Definition QCOW_VERSION : Z := 1.
Definition QCOW_CRYPT_AES : Z := 1.
Definition QCOW_OFLAG_COMPRESSED : Z := 1 .<< 63.
Definition QCOW_L2_CACHE_SIZE : nat := 16.
Definition BF_ENCRYPTED : Z := 2048.

Definition u64 (z : Z) : Z := z mod 2 ^ 64.
Definition s64 (z : Z) : Z := let u := u64 z in if u <? 2 ^ 63 then u else u - 2 ^ 64.

(** [BDRVQCowState] and the fields of [bdev_desc_t] it uses.  The sizes
    derived from [cluster_bits] and [l2_bits] are functions of them. *)
Record qstate := Qs {
  qfile : file;
  cluster_bits : Z;
  l2_bits : Z;
  l1_table_offset : Z;
  l1_table : list Z;
  l2_cache : list (list Z);          (** the tables as bytes *)
  l2_cache_offsets : list Z;
  l2_cache_counts : list Z;
  cluster_cache : list Z;
  cluster_cache_offset : Z;
  crypt_method : Z;
  crypt_method_header : Z;
  seek_sector : Z;
  backing_hd : Z;
  bdev_size : Z;
  bdev_flags : Z
}.

Definition set_qfile v s := Qs v (cluster_bits s) (l2_bits s) (l1_table_offset s) (l1_table s) (l2_cache s)
  (l2_cache_offsets s) (l2_cache_counts s) (cluster_cache s) (cluster_cache_offset s) (crypt_method s)
  (crypt_method_header s) (seek_sector s) (backing_hd s) (bdev_size s) (bdev_flags s).
Definition set_l1_table v s := Qs (qfile s) (cluster_bits s) (l2_bits s) (l1_table_offset s) v (l2_cache s)
  (l2_cache_offsets s) (l2_cache_counts s) (cluster_cache s) (cluster_cache_offset s) (crypt_method s)
  (crypt_method_header s) (seek_sector s) (backing_hd s) (bdev_size s) (bdev_flags s).
Definition set_l2 c o n s := Qs (qfile s) (cluster_bits s) (l2_bits s) (l1_table_offset s) (l1_table s) c
  o n (cluster_cache s) (cluster_cache_offset s) (crypt_method s)
  (crypt_method_header s) (seek_sector s) (backing_hd s) (bdev_size s) (bdev_flags s).
Definition set_cluster_cache v o s := Qs (qfile s) (cluster_bits s) (l2_bits s) (l1_table_offset s) (l1_table s)
  (l2_cache s) (l2_cache_offsets s) (l2_cache_counts s) v o (crypt_method s)
  (crypt_method_header s) (seek_sector s) (backing_hd s) (bdev_size s) (bdev_flags s).
Definition set_seek_sector v s := Qs (qfile s) (cluster_bits s) (l2_bits s) (l1_table_offset s) (l1_table s)
  (l2_cache s) (l2_cache_offsets s) (l2_cache_counts s) (cluster_cache s) (cluster_cache_offset s) (crypt_method s)
  (crypt_method_header s) v (backing_hd s) (bdev_size s) (bdev_flags s).

Definition cluster_size (s : qstate) : Z := 1 .<< cluster_bits s.
Definition cluster_sectors (s : qstate) : Z := 1 .<< (cluster_bits s - 9).
Definition l2_size (s : qstate) : Z := 1 .<< l2_bits s.
Definition cluster_offset_mask (s : qstate) : Z := (1 .<< (63 - cluster_bits s)) - 1.

(** [memcpy( &l[pos], new, .. )] *)
Definition splice (pos : nat) (new l : list Z) : list Z := take pos l ++ new ++ drop (pos + length new) l.
(** The big-endian [u64] number [i] of a table *)
Definition be64_at (i : nat) (l : list Z) : Z := be_value (take 8 (drop (8 * i) l)).

(** A system call on the file *)
Definition on_file {A} (op : file -> A * file) (s : qstate) : A * qstate :=
  let '(r, f) := op (qfile s) in (r, set_qfile f s).

Section Qcow.
(** zlib: what [inflate] of a raw stream puts into so much space, and
    whether it ends with [Z_STREAM_END] or [Z_BUF_ERROR]; [None] when
    [inflateInit2] fails.  [AES_cbc_encrypt] of one sector, with the key of
    the direction.  The contents of the file behind a descriptor. *)
Context (inflate : list Z -> nat -> option (bool * list Z)).
Context (AES_cbc_encrypt : bool -> list Z -> list Z -> list Z).
Context (fds : Z -> option (list Z)).

(** [s->backing_hd = disk_open( ... )] *)
Context (disk_open : list Z -> Z).

(** ** Encryption and decompression *)

(** [cpu_to_le64] in the low half of the initialisation vector *)
Definition sector_ivec (sector_num : Z) : list Z := rev (be_bytes 8 (u64 sector_num)) ++ replicate 8 0.

Fixpoint encrypt_sectors (nb_sectors : nat) (sector_num : Z) (enc : bool) (in_buf : list Z) : list Z :=
  match nb_sectors with
  | O => []
  | S n => AES_cbc_encrypt enc (sector_ivec sector_num) (take 512 in_buf)
           ++ encrypt_sectors n (u64 (sector_num + 1)) enc (drop 512 in_buf)
  end.

(** The result and the output buffer *)
Definition decompress_buffer (out buf : list Z) : Z * list Z :=
  match inflate buf (length out) with
  | None => (-1, out)
  | Some (ok, o) => (if ok && (length o =? length out)%nat then 0 else -1, splice 0 o out)
  end.

Definition decompress_cluster (cluster_offset : Z) (s : qstate) : Z * qstate :=
  let coffset := cluster_offset .& cluster_offset_mask s in
  if cluster_cache_offset s =? coffset then (0, s) else
  let csize := s32 (cluster_offset .>> (63 - cluster_bits s)) .& (cluster_size s - 1) in
  let '(_, s) := on_file (lseek_set (s64 coffset)) s in
  let '(data, s) := on_file (fread csize) s in
  if negb (Z.of_nat (length data) =? csize) then (-1, s) else
  let '(r, out) := decompress_buffer (cluster_cache s) data in
  if r <? 0 then (-1, set_cluster_cache out (cluster_cache_offset s) s)
  else (0, set_cluster_cache out coffset s).

(** ** Level 2 tables *)

(** [(x + s->cluster_size - 1) & ~(s->cluster_size - 1)] *)
Definition round_up (s : qstate) (x : Z) : Z := u64 (x + cluster_size s - 1) .& Z.lnot (cluster_size s - 1).

Fixpoint index_of (x : Z) (l : list Z) : option nat :=
  match l with
  | [] => None
  | y :: l' => if x =? y then Some O else S <$> index_of x l'
  end.

Definition l2_hit (i : nat) (s : qstate) : qstate :=
  let counts := alter (fun c => u32 (c + 1)) i (l2_cache_counts s) in
  set_l2 (l2_cache s) (l2_cache_offsets s)
    (if default 0 (counts !! i) =? 0xffffffff then map (fun c => c .>> 1) counts else counts) s.

(** [for( i=0; i < QCOW_L2_CACHE_SIZE; i++ ) if( counts[i] < min_count ) ..] *)
Fixpoint least_used (l : list Z) (i min_index : nat) (min_count : Z) : nat :=
  match l with
  | [] => min_index
  | c :: l' => if c <? min_count then least_used l' (S i) i c else least_used l' (S i) min_index min_count
  end.

Definition set_slot (i : nat) (t : list Z) (s : qstate) : qstate :=
  set_l2 (<[i := t]> (l2_cache s)) (l2_cache_offsets s) (l2_cache_counts s) s.
Definition claim_slot (i : nat) (l2_offset : Z) (s : qstate) : qstate :=
  set_l2 (l2_cache s) (<[i := l2_offset]> (l2_cache_offsets s)) (<[i := 1]> (l2_cache_counts s)) s.

(** The cache slot of the table at [l2_offset], [None] for an I/O error *)
Definition load_l2 (new_l2_table : bool) (l2_offset : Z) (s : qstate) : option nat * qstate :=
  match index_of l2_offset (l2_cache_offsets s) with
  | Some i => (Some i, l2_hit i s)
  | None =>
      let i := least_used (l2_cache_counts s) 0 0 0xffffffff in
      let n := l2_size s * 8 in
      let '(_, s) := on_file (lseek_set (s64 l2_offset)) s in
      if new_l2_table then
        let zeros := replicate (Z.to_nat n) 0 in
        let '(c, s) := on_file (fwrite zeros) (set_slot i zeros s) in
        if negb (c =? n) then (None, s) else (Some i, claim_slot i l2_offset s)
      else
        let '(got, s) := on_file (fread n) s in
        let s := set_slot i (splice 0 got (default [] (l2_cache s !! i))) s in
        if negb (Z.of_nat (length got) =? n) then (None, s) else (Some i, claim_slot i l2_offset s)
  end.

(** The offset and the cache slot of the level 2 table; [inl] is an early
    return. *)
Definition find_l2 (l1_index : nat) (allocate : Z) (s : qstate) : option ((Z + Z * nat) * qstate) :=
  let slot := fun '(r, s) l2_offset =>
    (match r with Some i => inr (l2_offset, i) | None => inl 0 end, s) in
  l2_offset ← l1_table s !! l1_index;
  if negb (l2_offset =? 0) then Some (slot (load_l2 false l2_offset s) l2_offset)
  else if allocate =? 0 then Some (inl 0, s)
  else
    let '(end_, s) := on_file lseek_end s in
    let l2_offset := round_up s end_ in
    let s := set_l1_table (<[l1_index := l2_offset]> (l1_table s)) s in
    let '(_, s) := on_file (lseek_set (s64 (l1_table_offset s + Z.of_nat l1_index * 8))) s in
    let '(c, s) := on_file (fwrite (be_bytes 8 l2_offset)) s in
    if negb (c =? 8) then Some (inl 0, s)
    else Some (slot (load_l2 true l2_offset s) l2_offset).

(** ** Clusters *)

(** The sectors of a new encrypted cluster that are not going to be written *)
Fixpoint init_encrypted (n : nat) (i : Z) (cluster_offset start_sect n_start n_end : Z) (s : qstate) : bool * qstate :=
  match n with
  | O => (true, s)
  | S n' =>
      if (i <? n_start) || (n_end <=? i) then
        let data := encrypt_sectors 1 (u64 (start_sect + i)) true (replicate 512 0xaa) in
        let '(_, s) := on_file (lseek_set (s64 (cluster_offset + i * 512))) s in
        let '(c, s) := on_file (fwrite data) s in
        if negb (c =? 512) then (false, s)
        else init_encrypted n' (i + 1) cluster_offset start_sect n_start n_end s
      else init_encrypted n' (i + 1) cluster_offset start_sect n_start n_end s
  end.

Definition compressed (cluster_offset : Z) : bool := tst cluster_offset QCOW_OFLAG_COMPRESSED.

(** A new cluster for an entry; [inl] is an early return. *)
Definition alloc_cluster (offset cluster_offset allocate compressed_size n_start n_end : Z) (s : qstate)
  : (Z + Z) * qstate :=
  if compressed cluster_offset && (n_end - n_start <? cluster_sectors s) then
    let '(r, s) := decompress_cluster cluster_offset s in
    if r <? 0 then (inl 0, s) else
    let '(end_, s) := on_file lseek_end s in
    let cluster_offset := round_up s end_ in
    let '(_, s) := on_file (lseek_set (s64 cluster_offset)) s in
    let '(c, s) := on_file (fwrite (cluster_cache s)) s in
    if negb (c =? cluster_size s) then (inl (u64 (-1)), s) else (inr cluster_offset, s)
  else
    let '(end_, s) := on_file lseek_end s in
    if allocate =? 1 then
      let cluster_offset := round_up s end_ in
      let '(r, s) := on_file (ftruncate (s64 (cluster_offset + cluster_size s))) s in
      if negb (r =? 0) then (inl (u64 (-1)), s) else
      if negb (crypt_method s =? 0) && (n_end - n_start <? cluster_sectors s) then
        let start_sect := (offset .& Z.lnot (cluster_size s - 1)) .>> 9 in
        let '(ok, s) := init_encrypted (Z.to_nat (cluster_sectors s)) 0 cluster_offset start_sect n_start n_end s in
        if (ok : bool) then (inr cluster_offset, s) else (inl (u64 (-1)), s)
      else (inr cluster_offset, s)
    else
      (inr (u64 (end_ .| (QCOW_OFLAG_COMPRESSED .| u64 (compressed_size .<< (63 - cluster_bits s))))), s).

Definition get_cluster_offset (offset allocate compressed_size n_start n_end : Z) (s : qstate) : option (Z * qstate) :=
  let l1_index := s32 (offset .>> (l2_bits s + cluster_bits s)) in
  if l1_index <? 0 then None else
  '(r, s) ← find_l2 (Z.to_nat l1_index) allocate s;
  match r with
  | inl v => Some (v, s)
  | inr (l2_offset, slot) =>
      let l2_index := Z.to_nat (s32 (offset .>> cluster_bits s) .& (l2_size s - 1)) in
      table ← l2_cache s !! slot;
      let cluster_offset := be64_at l2_index table in
      if (cluster_offset =? 0) || (compressed cluster_offset && (allocate =? 1)) then
        if allocate =? 0 then Some (0, s) else
        let '(r, s) := alloc_cluster offset cluster_offset allocate compressed_size n_start n_end s in
        match r with
        | inl v => Some (v, s)
        | inr cluster_offset =>
            let tmp := be_bytes 8 cluster_offset in
            let s := set_slot slot (splice (8 * l2_index) tmp table) s in
            let '(_, s) := on_file (lseek_set (s64 (l2_offset + Z.of_nat l2_index * 8))) s in
            let '(c, s) := on_file (fwrite tmp) s in
            Some (if negb (c =? 8) then 0 else cluster_offset, s)
        end
      else Some (cluster_offset, s)
  end.

(** ** Reading and writing *)

(** [pread] into the buffer at [pos]: a short read leaves the rest. *)
Definition pread (fd : Z) (n off : Z) : option (list Z) :=
  d ← fds fd; Some (take (Z.to_nat n) (drop (Z.to_nat off) d)).

(** The body of the loop of [qcow_read] for [n] sectors of one cluster: the
    bytes stored into the buffer, [None] when it returns -1 *)
Definition read_chunk (sector_num n : Z) (s : qstate) : option (option (list Z) * qstate) :=
  '(cluster_offset, s) ← get_cluster_offset (u64 (sector_num .<< 9)) 0 0 0 0 s;
  let index_in_cluster := sector_num .& (cluster_sectors s - 1) in
  if cluster_offset =? 0 then
    if negb (backing_hd s =? 0) then Some (pread (backing_hd s) (n * 512) (u64 (sector_num * 512)), s)
    else Some (Some (replicate (Z.to_nat (512 * n)) 0), s)
  else if compressed cluster_offset then
    let '(r, s) := decompress_cluster cluster_offset s in
    if r <? 0 then Some (None, s)
    else Some (Some (take (Z.to_nat (512 * n)) (drop (Z.to_nat (index_in_cluster * 512)) (cluster_cache s))), s)
  else
    let '(_, s) := on_file (lseek_set (s64 (cluster_offset + index_in_cluster * 512))) s in
    let '(got, s) := on_file (fread (n * 512)) s in
    if negb (Z.of_nat (length got) =? n * 512) then Some (None, s)
    else Some (Some (if negb (crypt_method s =? 0)
                     then encrypt_sectors (Z.to_nat n) sector_num false got else got), s).

Definition chunk_sectors (s : qstate) (sector_num nb_sectors : Z) : Z :=
  Z.min (cluster_sectors s - (sector_num .& (cluster_sectors s - 1))) nb_sectors.

(** The result (-1 or the number of bytes) and the buffer *)
Fixpoint read_loop (fuel : nat) (nb_sectors sector_num : Z) (pos : nat) (buf : list Z) (s : qstate)
  : option (Z * list Z * qstate) :=
  match fuel with
  | O => None
  | S f =>
      if nb_sectors <=? 0 then Some (Z.of_nat pos, buf, set_seek_sector sector_num s) else
      let n := chunk_sectors s sector_num nb_sectors in
      '(r, s) ← read_chunk sector_num n s;
      match r with
      | None => Some (-1, buf, s)
      | Some data => read_loop f (nb_sectors - n) (u64 (sector_num + n)) (pos + Z.to_nat (n * 512))
                       (splice pos data buf) s
      end
  end.

(** [ceil( nb_bytes / 512 )], an integer division *)
Definition nb_sectors_of (nb_bytes : Z) : Z := nb_bytes / 512.

Definition qcow_read (buf : list Z) (nb_bytes : Z) (s : qstate) : option (Z * list Z * qstate) :=
  let nb_sectors := nb_sectors_of nb_bytes in
  read_loop (S (Z.to_nat nb_sectors)) nb_sectors (seek_sector s) 0 buf s.

(** The body of the loop of [qcow_write]: whether it goes on *)
Definition write_chunk (sector_num n : Z) (data : list Z) (s : qstate) : option (bool * qstate) :=
  let index_in_cluster := sector_num .& (cluster_sectors s - 1) in
  '(cluster_offset, s) ← get_cluster_offset (u64 (sector_num .<< 9)) 1 0 index_in_cluster (index_in_cluster + n) s;
  if cluster_offset =? 0 then Some (false, s) else
  let '(_, s) := on_file (lseek_set (s64 (cluster_offset + index_in_cluster * 512))) s in
  let '(c, s) := on_file (fwrite (if negb (crypt_method s =? 0)
                                  then encrypt_sectors (Z.to_nat n) sector_num true data else data)) s in
  Some (c =? n * 512, s).

Fixpoint write_loop (fuel : nat) (nb_sectors sector_num : Z) (written : Z) (buf : list Z) (s : qstate)
  : option (Z * qstate) :=
  match fuel with
  | O => None
  | S f =>
      if nb_sectors <=? 0
      then Some (written, set_cluster_cache (cluster_cache s) (u64 (-1)) (set_seek_sector sector_num s)) else
      let n := chunk_sectors s sector_num nb_sectors in
      '(ok, s) ← write_chunk sector_num n (take (Z.to_nat (n * 512)) buf) s;
      if negb ok then Some (-1, s) else
      write_loop f (nb_sectors - n) (u64 (sector_num + n)) (written + n * 512)
        (drop (Z.to_nat (n * 512)) buf) s
  end.

Definition qcow_write (buf : list Z) (nb_bytes : Z) (s : qstate) : option (Z * qstate) :=
  let nb_sectors := nb_sectors_of nb_bytes in
  write_loop (S (Z.to_nat nb_sectors)) nb_sectors (seek_sector s) 0 buf s.

Definition qcow_seek (block offset : Z) (s : qstate) : qstate := set_seek_sector (u64 (block + offset)) s.

(** ** Vectored access *)

Definition EINVAL : Z := 22.
Definition SSIZE_MAX : Z := 2 ^ 31 - 1.

(** The sum of the lengths, [None] when it reaches [SSIZE_MAX] *)
Fixpoint total_bytes (lens : list Z) (total : Z) : option Z :=
  match lens with
  | [] => Some total
  | l :: lens' => if total + l <? SSIZE_MAX then total_bytes lens' (total + l) else None
  end.

Fixpoint fill_vec (lens : list Z) (buf : list Z) : list (list Z) :=
  match lens with
  | [] => []
  | l :: lens' => take (Z.to_nat l) buf :: fill_vec lens' (drop (Z.to_nat l) buf)
  end.

(** The result and the contents of the vector; [mem] is the memory [malloc]
    returns. *)
Definition wrap_read (mem : Z -> option (list Z)) (vec : list (list Z)) (s : qstate)
  : option (Z * list (list Z) * qstate) :=
  let lens := map (fun v => Z.of_nat (length v)) vec in
  match total_bytes lens 0 with
  | None => Some (- EINVAL, vec, s)
  | Some total =>
      match mem total with
      | None => Some (- EINVAL, vec, s)
      | Some buf =>
          '(r, buf, s) ← qcow_read buf total s;
          if negb (r =? total) then Some (- EINVAL, vec, s) else Some (total, fill_vec lens buf, s)
      end
  end.

Definition wrap_write (vec : list (list Z)) (s : qstate) : option (Z * qstate) :=
  match total_bytes (map (fun v => Z.of_nat (length v)) vec) 0 with
  | None => Some (- EINVAL, s)
  | Some total =>
      '(r, s) ← qcow_write (concat vec) total s;
      Some (if negb (r =? total) then - EINVAL else total, s)
  end.

(** ** Opening *)

(** The fields of the header in the file, big-endian but for the bytes
    [cluster_bits] and [l2_bits]; the structure is 48 bytes long. *)
Record header := Header {
  h_magic : Z; h_version : Z; h_backing_offset : Z; h_backing_size : Z; h_mtime : Z; h_size : Z;
  h_cluster_bits : Z; h_l2_bits : Z; h_crypt_method : Z; h_l1_offset : Z
}.
Definition be_field (off n : nat) (l : list Z) : Z := be_value (take n (drop off l)).
Definition parse_header (l : list Z) : header :=
  Header (be_field 0 4 l) (be_field 4 4 l) (be_field 8 8 l) (be_field 16 4 l) (be_field 20 4 l) (be_field 24 8 l)
    (be_field 32 1 l) (be_field 33 1 l) (be_field 36 4 l) (be_field 40 8 l).

Definition MAX_BACKING : Z := 1023.
Definition SLASH : Z := 47.

(** The allocations of the tables succeed; the new buffers hold zeros.
    [None] is the failure, -1. *)
Definition qcow_open (flags : Z) (f : file) : option qstate :=
  let '(_, f) := lseek_set 0 f in
  let '(hb, f) := fread 48 f in
  if negb (Z.of_nat (length hb) =? 48) then None else
  let h := parse_header hb in
  if negb (h_magic h =? QCOW_MAGIC) || negb (h_version h =? QCOW_VERSION) then None else
  if (h_size h <=? 1) || (h_cluster_bits h <? 9) then None else
  if QCOW_CRYPT_AES <? h_crypt_method h then None else
  let flags := if negb (h_crypt_method h =? 0) then flags .& BF_ENCRYPTED else flags in
  let shift := h_cluster_bits h + h_l2_bits h in
  let l1_size := s32 (u64 (h_size h + (1 .<< shift) - 1) .>> shift) in
  let '(_, f) := lseek_set (s64 (h_l1_offset h)) f in
  let '(l1, f) := fread (l1_size * 8) f in
  if negb (Z.of_nat (length l1) =? l1_size * 8) then None else
  let s := Qs f (h_cluster_bits h) (h_l2_bits h) (h_l1_offset h)
    (map (fun i => be64_at i l1) (seq 0 (Z.to_nat l1_size)))
    (replicate QCOW_L2_CACHE_SIZE (replicate (Z.to_nat (8 * (1 .<< h_l2_bits h))) 0))
    (replicate QCOW_L2_CACHE_SIZE 0) (replicate QCOW_L2_CACHE_SIZE 0)
    (replicate (Z.to_nat (1 .<< h_cluster_bits h)) 0) 0 0 (h_crypt_method h) 0 (-1) (h_size h) flags in
  if h_backing_offset h =? 0 then Some s else
  let len := s32 (h_backing_size h) in
  if MAX_BACKING <? len then None else
  let '(_, f) := lseek_set (s64 (h_backing_offset h)) f in
  let '(name, f) := fread len f in
  if negb (Z.of_nat (length name) =? len) then None else
  if negb (default 0 (name !! 0%nat) =? SLASH) then None else
  let hd := disk_open name in
  if hd <? 0 then None else
  Some (Qs f (cluster_bits s) (l2_bits s) (l1_table_offset s) (l1_table s) (l2_cache s) (l2_cache_offsets s)
          (l2_cache_counts s) (cluster_cache s) (cluster_cache_offset s) (crypt_method s) (crypt_method_header s)
          (seek_sector s) hd (bdev_size s) flags).

End Qcow.

End Qcow.
