(* ===== verification/QcowInv.v ===== *)
(** * Disk images are disks

    The invariant of an open image: its tables and clusters occupy disjoint
    parts of the file and the cached tables are those of the file.  Against
    it, [qcow_write] and [qcow_read] implement a disk of sectors, and the
    image file alone determines the disk. *)

From S2P Require Import Prelude FileIO Qcow.

Module QcowInv.
Import FileIO Qcow.

(** ** Arithmetic of the tables *)

Lemma land_lnot_align a k : 0 <= k -> a .& Z.lnot (2 ^ k - 1) = a - a mod 2 ^ k.
Proof.
  intros Hk. rewrite <- Z.ldiff_land. replace (2 ^ k - 1) with (Z.ones k) by (rewrite Z.ones_equiv; lia).
  rewrite Z.ldiff_ones_r by done. rewrite Z.shiftl_mul_pow2, Z.shiftr_div_pow2 by done.
  pose proof (Z.div_mod a (2 ^ k) ltac:(lia)). lia.
Qed.

Lemma be_value_bound l : bytes_ok l -> 0 <= be_value l < 256 ^ Z.of_nat (length l).
Proof.
  induction l as [|b l IH] using rev_ind; intros Hl; [cbn; lia|].
  apply Forall_app in Hl as [Hl Hb]. apply List.Forall_inv in Hb. specialize (IH Hl).
  rewrite be_value_app, length_app. cbn [length].
  replace (Z.of_nat (length l + 1)) with (Z.succ (Z.of_nat (length l))) by lia.
  rewrite Z.pow_succ_r by lia. cbv beta in Hb. lia.
Qed.

Lemma be_bytes_ok n : forall v, bytes_ok (be_bytes n v).
Proof.
  induction n as [|n IH]; intros v; cbn [be_bytes]; [by apply Forall_nil|].
  apply Forall_app. split; [apply IH|]. apply Forall_singleton.
  change 0xff with (2 ^ 8 - 1). by apply (land_ones_range v 8).
Qed.

Lemma be_value_zeros n : be_value (replicate n 0) = 0.
Proof.
  induction n as [|n IH]; [done|]. rewrite replicate_S_end, be_value_app, IH. done.
Qed.

(** Entry [i] of the table at [o] *)
Definition table_at (f : file) (o : Z) (i : Z) : Z := be_value (seg f (o + 8 * i) 8).

Lemma table_at_bound f o i : file_ok f -> 0 <= table_at f o i < 2 ^ 64.
Proof.
  intros H. pose proof (be_value_bound _ (seg_bytes f (o + 8 * i) 8 H)) as B.
  rewrite seg_length in B. exact B.
Qed.

Lemma be64_at_seg f o n i :
  0 <= i -> 8 * i + 8 <= Z.of_nat n -> be64_at (Z.to_nat i) (seg f o n) = table_at f o i.
Proof.
  intros Hi Hn. unfold be64_at, table_at. rewrite drop_seg, take_seg by lia. do 3 f_equal. lia.
Qed.

Lemma table_at_written f g o i v :
  0 <= v < 2 ^ 64 -> written (o + 8 * i) (be_bytes 8 v) f g -> table_at g o i = v.
Proof.
  intros Hv H. unfold table_at. pose proof (written_seg _ _ _ _ H) as E. rewrite be_bytes_length in E.
  rewrite E. by apply be_bytes_value.
Qed.

Lemma table_at_same f g o i :
  (forall x, o + 8 * i <= x < o + 8 * i + 8 -> fbyte g x = fbyte f x) -> table_at g o i = table_at f o i.
Proof. intros H. unfold table_at. f_equal. apply seg_ext. intros j Hj. apply H. lia. Qed.

Lemma splice_length pos new l : (pos + length new <= length l)%nat -> length (splice pos new l) = length l.
Proof. intros H. unfold splice. rewrite !length_app, length_take, length_drop. lia. Qed.

Lemma splice_lookup pos new l i :
  (pos + length new <= length l)%nat ->
  splice pos new l !! i = if decide (pos <= i < pos + length new)%nat then new !! (i - pos)%nat else l !! i.
Proof.
  intros H. unfold splice. destruct (decide (i < pos)%nat) as [Hi|Hi].
  - rewrite lookup_app_l, lookup_take_lt by (rewrite ?length_take; lia).
    by rewrite decide_False by lia.
  - rewrite lookup_app_r by (rewrite length_take; lia). rewrite length_take, Nat.min_l by lia.
    destruct (decide (pos <= i < pos + length new)%nat) as [Hj|Hj].
    + by rewrite lookup_app_l by lia.
    + rewrite lookup_app_r by lia. rewrite lookup_drop. f_equal. lia.
Qed.

Lemma seg_written f g a n pos l :
  written (a + Z.of_nat pos) l f g -> (pos + length l <= n)%nat -> seg g a n = splice pos l (seg f a n).
Proof.
  intros H Hn. apply seg_eq; [rewrite splice_length; rewrite seg_length; lia|].
  intros i b Hb. rewrite splice_lookup in Hb by (rewrite seg_length; lia).
  destruct (decide (pos <= i < pos + length l)%nat) as [Hi|Hi].
  - apply (wr_in _ _ _ _ H) in Hb. rewrite <- Hb. f_equal. lia.
  - rewrite (wr_out _ _ _ _ H) by lia.
    destruct (decide (i < n)%nat) as [Hin|Hin].
    + rewrite seg_lookup in Hb by done. by injection Hb.
    + rewrite lookup_ge_None_2 in Hb by (rewrite seg_length; lia). done.
Qed.

Lemma splice_full new l : length new = length l -> splice 0 new l = new.
Proof. intros H. unfold splice. cbn. rewrite drop_ge by lia. apply app_nil_r. Qed.

Lemma index_of_Some x l i : index_of x l = Some i -> l !! i = Some x.
Proof.
  revert i. induction l as [|y l IH]; intros i; cbn; [done|].
  destruct (Z.eqb_spec x y) as [->|]; [by intros [= <-]|].
  destruct (index_of x l) as [j|]; cbn; [|done]. intros [= <-]. by apply IH.
Qed.

Lemma index_of_None x l i : index_of x l = None -> l !! i <> Some x.
Proof.
  revert i. induction l as [|y l IH]; intros i; cbn; [done|].
  destruct (Z.eqb_spec x y) as [->|]; [done|].
  destruct (index_of x l) as [j|] eqn:E; cbn; [done|]. intros _. destruct i as [|i]; cbn; [congruence|by apply IH].
Qed.

Lemma least_used_lt l : forall i m c, (m < i + length l)%nat \/ l <> [] /\ (m <= i)%nat ->
  (least_used l i m c < i + length l)%nat.
Proof.
  induction l as [|x l IH]; intros i m c H; cbn [least_used length] in *; [destruct H; [lia|tauto]|].
  replace (i + S (length l))%nat with (S i + length l)%nat by lia.
  case_match; apply IH; lia.
Qed.

(** ** The disk in an image *)

Section Inv.
Context (inflate : list Z -> nat -> option (bool * list Z)).

Definition clusters (s : qstate) : Z := Z.of_nat (length (l1_table s)) * 2 ^ l2_bits s.

(** The level 2 entry of a cluster, 0 if there is none *)
Definition entry (s : qstate) (c : Z) : Z :=
  match l1_table s !! Z.to_nat (c / 2 ^ l2_bits s) with
  | Some o => if o =? 0 then 0 else table_at (qfile s) o (c mod 2 ^ l2_bits s)
  | None => 0
  end.

Definition coffset (s : qstate) (e : Z) : Z := e .& cluster_offset_mask s.
Definition csize (s : qstate) (e : Z) : Z := s32 (e .>> (63 - cluster_bits s)) .& (cluster_size s - 1).

Inductive region := RHead | RL1 | RL2 (i : nat) | RC (c : Z).

(** Where a part of the image lies: start and length *)
Definition extent (s : qstate) (r : region) : option (Z * Z) :=
  match r with
  | RHead => Some (0, 48)
  | RL1 => Some (l1_table_offset s, 8 * Z.of_nat (length (l1_table s)))
  | RL2 i => o ← l1_table s !! i; if o =? 0 then None else Some (o, 8 * 2 ^ l2_bits s)
  | RC c =>
      if decide (0 <= c < clusters s) then
        let e := entry s c in
        if e =? 0 then None
        else Some (if compressed e then (coffset s e, csize s e) else (e, 2 ^ cluster_bits s))
      else None
  end.

Definition within (s : qstate) (r : region) (x : Z) : Prop :=
  exists a n, extent s r = Some (a, n) /\ a <= x < a + n.

(** The contents of an allocated cluster *)
Definition cluster_bytes (s : qstate) (e : Z) : list Z :=
  if compressed e then
    match inflate (seg (qfile s) (coffset s e) (Z.to_nat (csize s e))) (Z.to_nat (2 ^ cluster_bits s)) with
    | Some (_, d) => d
    | None => []
    end
  else seg (qfile s) e (Z.to_nat (2 ^ cluster_bits s)).

Definition sectors (s : qstate) : Z := clusters s * 2 ^ (cluster_bits s - 9).

(** A cluster and a sector of the virtual disk, [None] if not allocated *)
Definition cluster_data (s : qstate) (c : Z) : option (list Z) :=
  if entry s c =? 0 then None else Some (cluster_bytes s (entry s c)).
Definition sector_data (s : qstate) (n : Z) : option (list Z) :=
  d ← cluster_data s (n / 2 ^ (cluster_bits s - 9));
  Some (take 512 (drop (Z.to_nat (512 * (n mod 2 ^ (cluster_bits s - 9)))) d)).

(** A compressed cluster can be decompressed. *)
Definition inflates (s : qstate) (e : Z) (d : list Z) : Prop :=
  0 < csize s e /\ length d = Z.to_nat (2 ^ cluster_bits s) /\
  inflate (seg (qfile s) (coffset s e) (Z.to_nat (csize s e))) (Z.to_nat (2 ^ cluster_bits s)) = Some (true, d).

(** The cached tables *)
Record cache_ok (s : qstate) : Prop := {
  ca_len : length (l2_cache s) = 16%nat /\ length (l2_cache_offsets s) = 16%nat /\ length (l2_cache_counts s) = 16%nat;
  ca_slot i t : l2_cache s !! i = Some t -> length t = Z.to_nat (8 * 2 ^ l2_bits s);
  ca_table i o : l2_cache_offsets s !! i = Some o -> o <> 0 ->
    (exists j, l1_table s !! j = Some o) /\ l2_cache s !! i = Some (seg (qfile s) o (Z.to_nat (8 * 2 ^ l2_bits s)));
  ca_once i j o : l2_cache_offsets s !! i = Some o -> l2_cache_offsets s !! j = Some o -> o <> 0 -> i = j
}.

Record image_ok (s : qstate) : Prop := {
  im_geo : 9 <= cluster_bits s <= 30 /\ 0 <= l2_bits s <= 27 /\ Z.of_nat (length (l1_table s)) < 2 ^ 31 /\
           Z.of_nat (length (l1_table s)) * 2 ^ (cluster_bits s + l2_bits s) <= 2 ^ 63;
  im_file : file_ok (qfile s);
  im_l1 i o : l1_table s !! i = Some o -> table_at (qfile s) (l1_table_offset s) (Z.of_nat i) = o;
  im_bounds r a n : extent s r = Some (a, n) -> 0 <= a /\ a + n <= flen (qfile s);
  im_disj r r' x : within s r x -> within s r' x -> r = r';
  im_comp c : 0 <= c < clusters s -> compressed (entry s c) = true -> exists d, inflates s (entry s c) d;
  im_cache : cache_ok s;
  im_ccache c : 0 <= c < clusters s -> compressed (entry s c) = true ->
    cluster_cache_offset s = coffset s (entry s c) -> inflates s (entry s c) (cluster_cache s);
  im_clen : length (cluster_cache s) = Z.to_nat (2 ^ cluster_bits s);
  im_crypt : crypt_method s = 0;
  im_size : flen (qfile s) <= 2 ^ 62
}.

(** Equal up to the caches, the file position and the current sector *)
Record same_image (s s' : qstate) : Prop := {
  sm_cb : cluster_bits s' = cluster_bits s;
  sm_lb : l2_bits s' = l2_bits s;
  sm_off : l1_table_offset s' = l1_table_offset s;
  sm_l1 : l1_table s' = l1_table s;
  sm_len : flen (qfile s') = flen (qfile s);
  sm_bytes x : fbyte (qfile s') x = fbyte (qfile s) x;
  sm_file : file_ok (qfile s) -> file_ok (qfile s');
  sm_hd : backing_hd s' = backing_hd s;
  sm_crypt : crypt_method s' = crypt_method s
}.

Lemma same_refl s : same_image s s.
Proof. by split. Qed.

Lemma same_trans s1 s2 s3 : same_image s1 s2 -> same_image s2 s3 -> same_image s1 s3.
Proof.
  intros [A1 A2 A3 A4 A5 A6 A7 A8 A9] [B1 B2 B3 B4 B5 B6 B7 B8 B9].
  split; try congruence. tauto.
Qed.

Lemma same_seg s s' a n : same_image s s' -> seg (qfile s') a n = seg (qfile s) a n.
Proof. intros H. apply seg_ext. intros. apply (sm_bytes _ _ H). Qed.

Lemma same_table s s' o i : same_image s s' -> table_at (qfile s') o i = table_at (qfile s) o i.
Proof. intros H. unfold table_at. by rewrite (same_seg _ _ _ _ H). Qed.

Lemma same_entry s s' c : same_image s s' -> entry s' c = entry s c.
Proof.
  intros H. unfold entry. rewrite (sm_l1 _ _ H), (sm_lb _ _ H).
  destruct (l1_table s !! _); [|done]. by rewrite (same_table _ _ _ _ H).
Qed.

Lemma same_extent s s' r : same_image s s' -> extent s' r = extent s r.
Proof.
  intros H. destruct r as [| |i|c]; cbn.
  - done.
  - by rewrite (sm_off _ _ H), (sm_l1 _ _ H).
  - by rewrite (sm_l1 _ _ H), (sm_lb _ _ H).
  - unfold clusters, coffset, csize, cluster_offset_mask, cluster_size.
    by rewrite (same_entry _ _ _ H), (sm_l1 _ _ H), (sm_lb _ _ H), (sm_cb _ _ H).
Qed.

Lemma same_inflates s s' e d : same_image s s' -> inflates s e d -> inflates s' e d.
Proof.
  intros H. unfold inflates, coffset, csize, cluster_offset_mask, cluster_size.
  by rewrite (sm_cb _ _ H), (same_seg _ _ _ _ H).
Qed.

Lemma same_cluster s s' c : same_image s s' -> cluster_data s' c = cluster_data s c.
Proof.
  intros H. unfold cluster_data, cluster_bytes, coffset, csize, cluster_offset_mask, cluster_size.
  rewrite (sm_cb _ _ H), (same_entry _ _ _ H). by rewrite !(same_seg _ _ _ _ H).
Qed.

Lemma same_clusters s s' : same_image s s' -> clusters s' = clusters s.
Proof. intros H. unfold clusters. by rewrite (sm_l1 _ _ H), (sm_lb _ _ H). Qed.

(** What remains to be shown of the caches when only they change *)
Lemma same_image_ok s s' :
  image_ok s -> same_image s s' -> cache_ok s' ->
  (forall c, 0 <= c < clusters s -> compressed (entry s c) = true ->
     cluster_cache_offset s' = coffset s (entry s c) -> inflates s (entry s c) (cluster_cache s')) ->
  length (cluster_cache s') = Z.to_nat (2 ^ cluster_bits s) ->
  image_ok s'.
Proof.
  intros [I1 I2 I3 I4 I5 I6 I7 I8 I9 I10 I11] H Hca Hcc Hcl.
  assert (Hn : clusters s' = clusters s) by (unfold clusters; by rewrite (sm_l1 _ _ H), (sm_lb _ _ H)).
  assert (Hc : forall e, coffset s' e = coffset s e)
    by (intros e; unfold coffset, cluster_offset_mask; by rewrite (sm_cb _ _ H)).
  assert (Hw : forall r x, within s' r x -> within s r x).
  { intros r x (a & n & E & Hx). exists a, n. by rewrite <- (same_extent _ _ _ H). }
  split.
  - by rewrite (sm_cb _ _ H), (sm_lb _ _ H), (sm_l1 _ _ H).
  - by apply (sm_file _ _ H).
  - rewrite (sm_l1 _ _ H), (sm_off _ _ H). intros i o. rewrite (same_table _ _ _ _ H). apply I3.
  - intros r a n. rewrite (same_extent _ _ _ H), (sm_len _ _ H). apply I4.
  - intros r r' x H1%Hw H2%Hw. by apply (I5 r r' x).
  - rewrite Hn. intros c. rewrite (same_entry _ _ _ H). intros Hr Hco.
    destruct (I6 c Hr Hco) as [d Hd]. exists d. by apply (same_inflates s).
  - done.
  - rewrite Hn. intros c. rewrite (same_entry _ _ _ H), Hc. intros Hr Hco Ho.
    apply (same_inflates s); [done|]. by apply Hcc.
  - by rewrite (sm_cb _ _ H).
  - by rewrite (sm_crypt _ _ H).
  - by rewrite (sm_len _ _ H).
Qed.

(** ** The cache of level 2 tables *)

Lemma on_file_eq {A} (op : file -> A * file) s r f : op (qfile s) = (r, f) -> on_file op s = (r, set_qfile f s).
Proof. intros H. unfold on_file. by rewrite H. Qed.

Lemma s64_id z : 0 <= z < 2 ^ 63 -> s64 z = z.
Proof.
  intros H. unfold s64, u64. rewrite Z.mod_small by lia. by rewrite (proj2 (Z.ltb_lt _ _)) by lia.
Qed.

Lemma table_extent s j o :
  image_ok s -> l1_table s !! j = Some o -> o <> 0 -> 0 <= o /\ o + 8 * 2 ^ l2_bits s <= flen (qfile s).
Proof.
  intros I Hj Ho. apply (im_bounds s I (RL2 j)). cbn. rewrite Hj. cbn. by rewrite (proj2 (Z.eqb_neq _ _)).
Qed.

Lemma l2_size_eq s : image_ok s -> l2_size s * 8 = 8 * 2 ^ l2_bits s /\ 0 < 2 ^ l2_bits s.
Proof.
  intros I. unfold l2_size. rewrite Z.shiftl_1_l. pose proof (im_geo s I).
  split; [lia|]. apply Z.pow_pos_nonneg; lia.
Qed.

Lemma cache_hit s i : cache_ok s -> cache_ok (l2_hit i s).
Proof.
  intros [(L1 & L2 & L3) C2 C3 C4]. split; [|done..].
  split_and!; [done|done|]. unfold l2_hit. cbn [l2_cache_counts set_l2].
  case_match; rewrite ?length_map, length_alter; done.
Qed.

(** A slot filled with the table at [o] *)
Lemma cache_claim s i j o :
  cache_ok s -> (i < 16)%nat -> index_of o (l2_cache_offsets s) = None -> l1_table s !! j = Some o ->
  cache_ok (claim_slot i o (set_slot i (seg (qfile s) o (Z.to_nat (8 * 2 ^ l2_bits s))) s)).
Proof.
  intros [(L1 & L2 & L3) C2 C3 C4] Hi Hn Hj.
  split; cbn [claim_slot set_slot set_l2 l2_cache l2_cache_offsets l2_cache_counts qfile l2_bits l1_table].
  - by rewrite !length_insert.
  - intros k t Hk. destruct (decide (k = i)) as [->|Hki].
    + rewrite list_lookup_insert_eq in Hk by lia. injection Hk as <-. apply seg_length.
    + rewrite list_lookup_insert_ne in Hk by done. by apply (C2 k).
  - intros k o' Hk Ho'. destruct (decide (k = i)) as [->|Hki].
    + rewrite list_lookup_insert_eq in Hk by lia. injection Hk as <-.
      split; [by exists j|]. by rewrite list_lookup_insert_eq by lia.
    + rewrite list_lookup_insert_ne in Hk by done. rewrite list_lookup_insert_ne by done. by apply C3.
  - intros k l o' Hk Hl Ho'. pose proof (index_of_None o _ k Hn). pose proof (index_of_None o _ l Hn).
    destruct (decide (k = i)) as [->|Hki], (decide (l = i)) as [->|Hli]; [done|..].
    + rewrite list_lookup_insert_eq in Hk by lia. rewrite list_lookup_insert_ne in Hl by done. congruence.
    + rewrite list_lookup_insert_ne in Hk by done. rewrite list_lookup_insert_eq in Hl by lia. congruence.
    + rewrite list_lookup_insert_ne in Hk, Hl by done. by apply (C4 k l o').
Qed.

Lemma least_slot s : cache_ok s -> (least_used (l2_cache_counts s) 0 0 0xffffffff < 16)%nat.
Proof.
  intros [(_ & _ & L3) _ _ _]. rewrite <- L3. apply (least_used_lt _ 0). left. rewrite L3. lia.
Qed.

(** The slot returned holds the table of the file. *)
Lemma load_l2_ok s j o :
  image_ok s -> l1_table s !! j = Some o -> o <> 0 ->
  exists i s', load_l2 false o s = (Some i, s') /\ image_ok s' /\ same_image s s' /\
    l2_cache s' !! i = Some (seg (qfile s) o (Z.to_nat (8 * 2 ^ l2_bits s))) /\ l2_cache_offsets s' !! i = Some o.
Proof.
  intros I Hj Ho. pose proof (im_cache s I) as C. destruct (table_extent s j o I Hj Ho) as [B1 B2].
  destruct (l2_size_eq s I) as [Hn Hp]. pose proof (im_size s I).
  assert (K : forall s', same_image s s' -> cache_ok s' -> cluster_cache s' = cluster_cache s ->
    cluster_cache_offset s' = cluster_cache_offset s -> image_ok s').
  { intros s' H1 H2 H3 H4. apply (same_image_ok s); rewrite ?H3, ?H4; try done; apply I. }
  unfold load_l2. destruct (index_of o (l2_cache_offsets s)) as [i|] eqn:E.
  - apply index_of_Some in E. exists i, (l2_hit i s). split; [done|].
    assert (same_image s (l2_hit i s)) as Hs by done.
    split; [by apply K; [done|apply cache_hit|..]|]. split; [done|]. split; [|done]. by apply (ca_table s C).
  - rewrite Hn. set (i := least_used _ _ _ _). pose proof (least_slot s C) as Hi. fold i in Hi.
    erewrite on_file_eq by (rewrite s64_id by lia; by apply lseek_set_eq). cbv iota beta.
    erewrite on_file_eq by (apply fread_eq; cbn; lia). cbv iota beta.
    cbn [qfile set_qfile fpos set_fpos l2_cache].
    change (seg (set_fpos o (qfile s)) o) with (seg (qfile s) o).
    rewrite seg_length, Z2Nat.id, Z.eqb_refl by lia. cbn [negb].
    destruct (lookup_lt_is_Some_2 (l2_cache s) i) as [t Ht]; [destruct (ca_len s C) as (-> & _); done|].
    rewrite Ht. cbn [default from_option id]. rewrite splice_full by (rewrite seg_length, (ca_slot s C i t Ht); done).
    eexists i, _. split; [reflexivity|].
    set (s' := claim_slot _ _ _).
    assert (same_image s s') as Hs by (split; try done; intros Hf; by apply set_fpos_ok, set_fpos_ok).
    split; [|split; [done|]].
    + apply K; [done| |done|done].
      apply (cache_claim (set_qfile (set_fpos (o + 8 * 2 ^ l2_bits s) (set_fpos o (qfile s))) s) i j o);
        [by destruct C|done..].
    + cbn. rewrite !list_lookup_insert_eq; [done|..]; destruct (ca_len s C) as (? & ? & ?); lia.
Qed.

(** ** Changes of the image *)

Record same_geo (s s' : qstate) : Prop := {
  sg_cb : cluster_bits s' = cluster_bits s;
  sg_lb : l2_bits s' = l2_bits s;
  sg_off : l1_table_offset s' = l1_table_offset s;
  sg_len : length (l1_table s') = length (l1_table s);
  sg_hd : backing_hd s' = backing_hd s;
  sg_head : seg (qfile s') 0 48 = seg (qfile s) 0 48
}.

(** The old bytes outside of the region [rw] are kept. *)
Definition keeps (s : qstate) (rw : region) (f' : file) : Prop :=
  forall x, x < flen (qfile s) -> ~ within s rw x -> fbyte f' x = fbyte (qfile s) x.

Lemma keeps_seg s rw f' r a n b m :
  image_ok s -> keeps s rw f' -> extent s r = Some (a, n) -> r <> rw ->
  a <= b -> b + Z.of_nat m <= a + n -> seg f' b m = seg (qfile s) b m.
Proof.
  intros I K E Hr Hb Hm. apply seg_ext. intros i Hi. destruct (im_bounds s I r a n E).
  apply K; [lia|]. intros Hw. apply Hr. apply (im_disj s I r rw (b + Z.of_nat i)); [|done].
  exists a, n. split; [done|lia].
Qed.

Lemma keeps_head s rw f' : image_ok s -> keeps s rw f' -> rw <> RHead -> seg f' 0 48 = seg (qfile s) 0 48.
Proof. intros I K Hr. apply (keeps_seg s rw f' RHead 0 48); (done || lia || congruence). Qed.

Lemma changed_ok s s' rw rn :
  image_ok s -> same_geo s s' -> keeps s rw (qfile s') -> file_ok (qfile s') ->
  flen (qfile s) <= flen (qfile s') <= 2 ^ 62 ->
  (forall i o, l1_table s' !! i = Some o -> table_at (qfile s') (l1_table_offset s) (Z.of_nat i) = o) ->
  (forall r, extent s' r = None \/ extent s' r = extent s r \/
     r = rn /\ exists a n, extent s' r = Some (a, n) /\ flen (qfile s) <= a /\ a + n <= flen (qfile s')) ->
  (forall c, 0 <= c < clusters s -> compressed (entry s' c) = true -> entry s' c = entry s c /\ RC c <> rw) ->
  cache_ok s' -> cluster_cache s' = cluster_cache s -> cluster_cache_offset s' = cluster_cache_offset s ->
  crypt_method s' = crypt_method s ->
  image_ok s'.
Proof.
  intros I [G1 G2 G3 G4 _ _] K Hf Hlen Hl1 Hext Hcomp Hca Hcc Hco Hcr.
  assert (Hn : clusters s' = clusters s) by (unfold clusters; by rewrite G2, G4).
  assert (Hcf : forall e, coffset s' e = coffset s e)
    by (intros e; unfold coffset, cluster_offset_mask; by rewrite G1).
  assert (Hinf : forall c d, 0 <= c < clusters s -> compressed (entry s' c) = true ->
    inflates s (entry s c) d -> inflates s' (entry s' c) d).
  { intros c d Hc Hco' (D1 & D2 & D3). destruct (Hcomp c Hc Hco') as [He Hw]. rewrite He in *.
    assert (Hcs : csize s' (entry s c) = csize s (entry s c)) by (unfold csize, cluster_size; by rewrite G1).
    unfold inflates. rewrite Hcs, Hcf, G1. split; [done|]. split; [done|].
    rewrite (keeps_seg s rw (qfile s') (RC c) (coffset s (entry s c)) (csize s (entry s c))); try done; [|lia].
    cbn. rewrite decide_True by done. rewrite (proj2 (Z.eqb_neq _ _)), Hco'; [done|].
    intros E0. rewrite E0 in Hco'. by vm_compute in Hco'. }
  split.
  - rewrite G1, G2, G4. apply I.
  - done.
  - rewrite G3. apply Hl1.
  - intros r a n E. destruct (Hext r) as [E'|[E'|(-> & a' & n' & E' & H1 & H2)]]; [congruence|..].
    + rewrite E' in E. destruct (im_bounds s I r a n E). lia.
    + rewrite E' in E. injection E as <- <-. pose proof (fo_len _ (im_file s I)). lia.
  - assert (Hcase : forall r x, within s' r x -> within s r x \/ r = rn /\ flen (qfile s) <= x).
    { intros r x (a & n & E & Hx). destruct (Hext r) as [E'|[E'|(-> & a' & n' & E' & H1 & H2)]]; [congruence|..].
      - left. exists a, n. by rewrite <- E'.
      - right. split; [done|]. rewrite E' in E. injection E as <- <-. lia. }
    assert (Hlow : forall r x, within s r x -> x < flen (qfile s)).
    { intros r x (a & n & E & Hx). destruct (im_bounds s I r a n E). lia. }
    intros r r' x H1%Hcase H2%Hcase. destruct H1 as [H1|[-> H1]], H2 as [H2|[-> H2]]; try done.
    + by apply (im_disj s I r r' x).
    + apply Hlow in H1. lia.
    + apply Hlow in H2. lia.
  - rewrite Hn. intros c Hc Hco'. destruct (Hcomp c Hc Hco') as [He Hw].
    destruct (im_comp s I c Hc) as [d Hd]; [congruence|]. exists d. by apply Hinf.
  - done.
  - rewrite Hn. intros c Hc Hco' Ho. destruct (Hcomp c Hc Hco') as [He Hw]. rewrite Hcc. apply Hinf; try done.
    apply (im_ccache s I c Hc); congruence.
  - rewrite Hcc, G1. apply I.
  - rewrite Hcr. apply I.
  - lia.
Qed.

(** The entries of the tables outside of the region written *)
Lemma keeps_table s rw f' i o k :
  image_ok s -> keeps s rw f' -> l1_table s !! i = Some o -> o <> 0 -> RL2 i <> rw ->
  0 <= k < 2 ^ l2_bits s -> table_at f' o k = table_at (qfile s) o k.
Proof.
  intros I K Hi Ho Hw Hk. unfold table_at. f_equal.
  apply (keeps_seg s rw f' (RL2 i) o (8 * 2 ^ l2_bits s)); try done; [|lia..].
  cbn. rewrite Hi. cbn. by rewrite (proj2 (Z.eqb_neq _ _)).
Qed.

Lemma cluster_index s c : image_ok s -> 0 <= c < clusters s ->
  exists o, l1_table s !! Z.to_nat (c / 2 ^ l2_bits s) = Some o /\
    0 <= c mod 2 ^ l2_bits s < 2 ^ l2_bits s /\ 0 <= c / 2 ^ l2_bits s.
Proof.
  intros I Hc. destruct (l2_size_eq s I) as [_ Hp]. unfold clusters in Hc.
  pose proof (Z.mod_pos_bound c (2 ^ l2_bits s) Hp).
  assert (0 <= c / 2 ^ l2_bits s) by (apply Z.div_pos; lia).
  assert (c / 2 ^ l2_bits s < Z.of_nat (length (l1_table s))) by (apply Z.div_lt_upper_bound; lia).
  destruct (lookup_lt_is_Some_2 (l1_table s) (Z.to_nat (c / 2 ^ l2_bits s))) as [o Ho]; [lia|]. by exists o.
Qed.

(** A cluster whose entry is kept and which is not written to *)
Lemma keeps_cluster s s' rw c :
  image_ok s -> same_geo s s' -> keeps s rw (qfile s') -> 0 <= c < clusters s ->
  entry s' c = entry s c -> RC c <> rw -> cluster_data s' c = cluster_data s c.
Proof.
  intros I [G1 G2 G3 G4 _ _] K Hc He Hw. unfold cluster_data. rewrite He.
  destruct (Z.eqb_spec (entry s c) 0) as [E0|E0]; [done|]. f_equal.
  assert (X : extent s (RC c) = Some (if compressed (entry s c) then (coffset s (entry s c), csize s (entry s c))
                                      else (entry s c, 2 ^ cluster_bits s))).
  { cbn. rewrite decide_True by done. by rewrite (proj2 (Z.eqb_neq _ _)). }
  assert (Hcf : coffset s' (entry s c) = coffset s (entry s c)) by (unfold coffset, cluster_offset_mask; by rewrite G1).
  assert (Hcs : csize s' (entry s c) = csize s (entry s c)) by (unfold csize, cluster_size; by rewrite G1).
  unfold cluster_bytes. rewrite Hcf, Hcs, G1. destruct (compressed (entry s c)) eqn:Hco.
  - destruct (im_comp s I c Hc Hco) as (d & D & _).
    by rewrite (keeps_seg s rw (qfile s') (RC c) _ _ _ _ I K X) by (done || lia).
  - pose proof (im_geo s I). assert (0 <= 2 ^ cluster_bits s) by (apply Z.pow_nonneg; lia).
    by rewrite (keeps_seg s rw (qfile s') (RC c) _ _ _ _ I K X) by (done || lia).
Qed.

Lemma round_up_spec s x : 9 <= cluster_bits s <= 30 -> 0 <= x <= 2 ^ 62 ->
  x <= round_up s x < x + 2 ^ cluster_bits s.
Proof.
  intros Hc Hx. unfold round_up, cluster_size, u64. rewrite Z.shiftl_1_l.
  assert (0 < 2 ^ cluster_bits s <= 2 ^ 30).
  { split; [apply Z.pow_pos_nonneg; lia|]. apply Z.pow_le_mono_r; lia. }
  rewrite land_lnot_align by lia. rewrite (Z.mod_small _ (2 ^ 64)) by lia.
  pose proof (Z.mod_pos_bound (x + 2 ^ cluster_bits s - 1) (2 ^ cluster_bits s) ltac:(lia)). lia.
Qed.

(** The state with a new, empty table at [o] for the entry [j] of the level 1
    table: [f2] is the file with both written. *)
Definition with_table (j : nat) (o : Z) (i : nat) (f2 : file) (s : qstate) : qstate :=
  claim_slot i o (set_slot i (replicate (Z.to_nat (8 * 2 ^ l2_bits s)) 0)
    (set_qfile f2 (set_l1_table (<[j := o]> (l1_table s)) s))).

Record table_written (j : nat) (o : Z) (s : qstate) (f2 : file) : Prop := {
  tw_ok : file_ok f2;
  tw_len : flen f2 = o + 8 * 2 ^ l2_bits s;
  tw_keep : keeps s RL1 f2;
  tw_l1 : table_at f2 (l1_table_offset s) (Z.of_nat j) = o;
  tw_l1_ne i : (i < length (l1_table s))%nat -> i <> j ->
    table_at f2 (l1_table_offset s) (Z.of_nat i) = table_at (qfile s) (l1_table_offset s) (Z.of_nat i);
  tw_zero : seg f2 o (Z.to_nat (8 * 2 ^ l2_bits s)) = replicate (Z.to_nat (8 * 2 ^ l2_bits s)) 0
}.

Lemma no_slot s o : image_ok s -> flen (qfile s) <= o -> index_of o (l2_cache_offsets s) = None.
Proof.
  intros I Ho. destruct (index_of o (l2_cache_offsets s)) as [i|] eqn:E; [|done]. exfalso.
  apply index_of_Some in E. destruct (im_bounds s I RHead 0 48 eq_refl) as [_ H48].
  destruct (ca_table s (im_cache s I) i o E) as [[j Hj] _]; [lia|].
  destruct (l2_size_eq s I) as [_ Hp]. destruct (table_extent s j o I Hj); lia.
Qed.

Lemma with_table_entry s j o i f2 c :
  image_ok s -> l1_table s !! j = Some 0 -> table_written j o s f2 -> flen (qfile s) <= o ->
  0 <= c < clusters s -> entry (with_table j o i f2 s) c = entry s c.
Proof.
  intros I Hj T Ho Hc. destruct (cluster_index s c I Hc) as (o' & Hl & Hm & Hd).
  pose proof (im_bounds s I RHead 0 48 eq_refl). destruct T as [T1 T2 T3 T4 T5 T6].
  unfold entry. cbn [with_table claim_slot set_slot set_l2 l1_table l2_bits set_qfile set_l1_table qfile].
  destruct (decide (Z.to_nat (c / 2 ^ l2_bits s) = j)) as [E|E].
  - rewrite E, list_lookup_insert_eq by (by apply lookup_lt_Some in Hj). rewrite Hj. change (0 =? 0) with true.
    rewrite (proj2 (Z.eqb_neq o 0)) by lia. cbv iota.
    rewrite <- (be64_at_seg f2 o (Z.to_nat (8 * 2 ^ l2_bits s))) by lia.
    rewrite T6. unfold be64_at. rewrite drop_replicate, take_replicate. apply be_value_zeros.
  - rewrite list_lookup_insert_ne, Hl by done. destruct (Z.eqb_spec o' 0) as [|Ho']; [done|].
    by apply (keeps_table s RL1 f2 (Z.to_nat (c / 2 ^ l2_bits s))).
Qed.

Lemma with_table_cache s j o i f2 :
  image_ok s -> l1_table s !! j = Some 0 -> table_written j o s f2 -> flen (qfile s) <= o -> (i < 16)%nat ->
  cache_ok (with_table j o i f2 s).
Proof.
  intros I Hj T Ho Hi. destruct T as [T1 T2 T3 T4 T5 T6]. unfold with_table. rewrite <- T6.
  set (s1 := set_qfile f2 (set_l1_table (<[j := o]> (l1_table s)) s)).
  change (seg f2) with (seg (qfile s1)). change (l2_bits s) with (l2_bits s1).
  apply (cache_claim s1 i j o); [|done|by apply (no_slot s)|].
  - destruct (im_cache s I) as [C1 C2 C3 C4]. split; [done..| |done].
    intros k o' Hk Ho'. destruct (C3 k o' Hk Ho') as [[j' Hj'] Ht].
    cbn [s1 set_qfile set_l1_table l1_table qfile l2_bits]. split.
    + exists j'. rewrite list_lookup_insert_ne; [done|]. intros ->. congruence.
    + change (l2_cache s1) with (l2_cache s). rewrite Ht. f_equal. symmetry.
      apply (keeps_seg s RL1 f2 (RL2 j') o' (8 * 2 ^ l2_bits s)); [done|done| |done|lia|].
      * cbn. rewrite Hj'. cbn. by rewrite (proj2 (Z.eqb_neq _ _)).
      * destruct (l2_size_eq s I). lia.
  - cbn [s1 set_qfile set_l1_table l1_table]. apply list_lookup_insert_eq. by apply lookup_lt_Some in Hj.
Qed.

Lemma with_table_ok s j o i f2 :
  image_ok s -> l1_table s !! j = Some 0 -> table_written j o s f2 -> flen (qfile s) <= o -> (i < 16)%nat ->
  o + 8 * 2 ^ l2_bits s <= 2 ^ 62 ->
  image_ok (with_table j o i f2 s).
Proof.
  intros I Hj T Ho Hi Hroom. pose proof (lookup_lt_Some _ _ _ Hj) as Hjl.
  destruct (l2_size_eq s I) as [_ Hp]. pose proof (im_bounds s I RHead 0 48 eq_refl).
  pose proof T as [T1 T2 T3 T4 T5 T6].
  assert (Hce : forall c, 0 <= c < clusters s -> entry (with_table j o i f2 s) c = entry s c)
    by (intros; by apply with_table_entry).
  apply (changed_ok s _ RL1 (RL2 j)); try done.
  - split; try done; [cbn; by rewrite length_insert|by apply (keeps_head s RL1)].
  - cbn. lia.
  - intros k o'. cbn [with_table claim_slot set_slot set_l2 l1_table l2_bits set_qfile set_l1_table qfile].
    destruct (decide (k = j)) as [->|Hk].
    + rewrite list_lookup_insert_eq by done. by intros [= <-].
    + rewrite list_lookup_insert_ne by done. intros Hko. rewrite T5 by (done || by apply lookup_lt_Some in Hko).
      by apply (im_l1 s I).
  - intros r. destruct r as [| |k|c].
    + right; by left.
    + right; left. cbn. by rewrite length_insert.
    + cbn. destruct (decide (k = j)) as [->|Hk].
      * right; right. split; [done|]. rewrite list_lookup_insert_eq by done. cbn.
        rewrite (proj2 (Z.eqb_neq _ _)) by lia. eexists _, _. split; [done|]. rewrite T2. lia.
      * right; left. by rewrite list_lookup_insert_ne.
    + right; left. unfold extent.
      assert (clusters (with_table j o i f2 s) = clusters s) as -> by (unfold clusters; cbn; by rewrite length_insert).
      destruct (decide (0 <= c < clusters s)) as [Hc|Hc]; [|done].
      by rewrite (Hce c Hc).
  - intros c Hc. by rewrite (Hce c Hc).
  - by apply with_table_cache.
Qed.

Lemma zeros_ok n : bytes_ok (replicate n 0).
Proof. apply list.Forall_forall. intros b ->%elem_of_replicate_inv. lia. Qed.

Lemma two_writes s j o f1 f2 :
  image_ok s -> (j < length (l1_table s))%nat -> flen (qfile s) <= o < 2 ^ 64 ->
  written (l1_table_offset s + 8 * Z.of_nat j) (be_bytes 8 o) (qfile s) f1 ->
  written o (replicate (Z.to_nat (8 * 2 ^ l2_bits s)) 0) f1 f2 ->
  table_written j o s f2.
Proof.
  intros I Hj Ho W1 W2. destruct (im_bounds s I RL1 _ _ eq_refl) as [B1 B2].
  destruct (l2_size_eq s I) as [_ Hp].
  assert (L1 : flen f1 = flen (qfile s)) by (rewrite (wr_len _ _ _ _ W1), be_bytes_length; lia).
  assert (K : forall x, x < o -> ~ (l1_table_offset s + 8 * Z.of_nat j <= x < l1_table_offset s + 8 * Z.of_nat j + 8) ->
    fbyte f2 x = fbyte (qfile s) x).
  { intros x Hx Hn. rewrite (wr_out _ _ _ _ W2) by lia. apply (wr_out _ _ _ _ W1).
    rewrite be_bytes_length. lia. }
  split.
  - apply W2.
  - rewrite (wr_len _ _ _ _ W2), length_replicate, L1. lia.
  - intros x Hx Hn. apply K; [lia|]. intros Hj'. apply Hn. eexists _, _. split; [reflexivity|]. lia.
  - rewrite (table_at_same f1); [apply (table_at_written (qfile s)); [lia|done]|].
    intros x Hx. apply (wr_out _ _ _ _ W2). lia.
  - intros i Hi Hij. apply table_at_same. intros x Hx. apply K; lia.
  - pose proof (written_seg _ _ _ _ W2) as E. by rewrite length_replicate in E.
Qed.

Lemma zeros_not_nil n : (0 < n)%nat -> replicate n 0 <> [].
Proof. by destruct n; [lia|]. Qed.

Lemma load_l2_new s j o f1 :
  image_ok s -> (j < length (l1_table s))%nat -> flen (qfile s) <= o -> o + 8 * 2 ^ l2_bits s <= 2 ^ 62 ->
  written (l1_table_offset s + 8 * Z.of_nat j) (be_bytes 8 o) (qfile s) f1 ->
  let i := least_used (l2_cache_counts s) 0 0 0xffffffff in
  exists f2, load_l2 true o (set_qfile f1 (set_l1_table (<[j := o]> (l1_table s)) s)) = (Some i, with_table j o i f2 s) /\
    table_written j o s f2.
Proof.
  intros I Hj Ho Hroom W1 i. destruct (l2_size_eq s I) as [Hn Hp].
  destruct (im_bounds s I RHead 0 48 eq_refl) as [_ H48].
  set (zeros := replicate (Z.to_nat (8 * 2 ^ l2_bits s)) 0).
  destruct (fwrite_at zeros f1 o) as (f2 & E2 & W2); [apply W1|apply zeros_ok|lia|apply zeros_not_nil; lia|].
  exists f2. split; [|apply (two_writes s j o f1); (done || lia)].
  unfold load_l2. cbn [l2_cache_offsets set_qfile set_l1_table].
  rewrite (no_slot s o I) by lia. unfold l2_size. cbn [l2_bits set_qfile set_l1_table]. fold (l2_size s). rewrite Hn.
  rewrite (on_file_eq _ _ _ _ (lseek_set_eq (s64 o) _ ltac:(rewrite s64_id; lia))). cbv iota beta.
  rewrite s64_id by lia. fold zeros.
  erewrite (on_file_eq (fwrite zeros)); [|exact E2]. cbv iota beta.
  assert (Hz : Z.of_nat (length zeros) = 8 * 2 ^ l2_bits s) by (unfold zeros; rewrite length_replicate; lia).
  rewrite Hz, Z.eqb_refl. reflexivity.
Qed.

Lemma find_l2_new s c :
  let j := Z.to_nat (c / 2 ^ l2_bits s) in
  image_ok s -> l1_table s !! j = Some 0 ->
  flen (qfile s) + 2 ^ cluster_bits s + 8 * 2 ^ l2_bits s <= 2 ^ 62 ->
  exists o i f2, find_l2 j 1 s = Some (inr (o, i), with_table j o i f2 s) /\ (i < 16)%nat /\ table_written j o s f2 /\
    flen (qfile s) <= o < flen (qfile s) + 2 ^ cluster_bits s.
Proof.
  intros j I Hl Hroom. pose proof (im_geo s I) as G. destruct (l2_size_eq s I) as [Hn Hp].
  assert (Hcp : 0 < 2 ^ cluster_bits s) by (apply Z.pow_pos_nonneg; lia).
  destruct (im_bounds s I RHead 0 48 eq_refl) as [_ H48]. destruct (im_bounds s I RL1 _ _ eq_refl) as [B1 B2].
  pose proof (lookup_lt_Some _ _ _ Hl) as Hjl.
  unfold find_l2. rewrite Hl. cbn [mbind option_bind]. change (0 =? 0) with true. change (1 =? 0) with false.
  cbn [negb].
  rewrite (on_file_eq _ _ _ _ (eq_refl : lseek_end (qfile s) = _)). cbv iota beta.
  set (s0 := set_qfile _ s). set (o := round_up s0 (flen (qfile s))).
  assert (Ho : flen (qfile s) <= o < flen (qfile s) + 2 ^ cluster_bits s) by (apply (round_up_spec s); lia).
  set (a := l1_table_offset s + Z.of_nat j * 8).
  change (l1_table_offset (set_l1_table _ s0) + Z.of_nat j * 8) with a.
  rewrite (on_file_eq _ _ _ _ (lseek_set_eq (s64 a) _ ltac:(rewrite s64_id; lia))). cbv iota beta.
  rewrite s64_id by lia.
  destruct (fwrite_at (be_bytes 8 o) (qfile s) a) as (f1 & E1 & W1); [apply I|apply be_bytes_ok|lia| |].
  { intros Hb%(f_equal length). by rewrite be_bytes_length in Hb. }
  erewrite (on_file_eq (fwrite (be_bytes 8 o))); [|exact E1]. cbv iota beta.
  rewrite be_bytes_length. change (Z.of_nat 8 =? 8) with true. cbn [negb].
  destruct (load_l2_new s j o f1 I Hjl) as (f2 & E2 & T); [lia..| |].
  { by replace (l1_table_offset s + 8 * Z.of_nat j) with a by lia. }
  exists o, (least_used (l2_cache_counts s) 0 0 0xffffffff), f2.
  split; [|split; [by apply least_slot, I|split; [done|lia]]].
  change (set_qfile f1 _) with (set_qfile f1 (set_l1_table (<[j := o]> (l1_table s)) s)). rewrite E2. done.
Qed.

(** The level 2 table of a cluster, a new one if there was none *)
Lemma find_l2_ok s c :
  image_ok s -> 0 <= c < clusters s ->
  flen (qfile s) + 2 ^ cluster_bits s + 8 * 2 ^ l2_bits s <= 2 ^ 62 ->
  let j := Z.to_nat (c / 2 ^ l2_bits s) in
  exists o i s', find_l2 j 1 s = Some (inr (o, i), s') /\ image_ok s' /\ same_geo s s' /\
    (forall c', 0 <= c' < clusters s -> entry s' c' = entry s c' /\ cluster_data s' c' = cluster_data s c') /\
    l1_table s' !! j = Some o /\ o <> 0 /\
    l2_cache s' !! i = Some (seg (qfile s') o (Z.to_nat (8 * 2 ^ l2_bits s))) /\ l2_cache_offsets s' !! i = Some o /\
    flen (qfile s') <= flen (qfile s) + 2 ^ cluster_bits s + 8 * 2 ^ l2_bits s.
Proof.
  intros I Hc Hroom j. destruct (cluster_index s c I Hc) as (o & Hl & Hm & Hd). fold j in Hl.
  pose proof (im_geo s I) as G. destruct (l2_size_eq s I) as [Hn Hp].
  assert (Hcp : 0 < 2 ^ cluster_bits s) by (apply Z.pow_pos_nonneg; lia).
  destruct (Z.eqb_spec o 0) as [->|Ho].
  - destruct (find_l2_new s c I Hl Hroom) as (o & i & f2 & E & Hi & T & Ho). fold j in E, T. rewrite E.
    destruct (im_bounds s I RHead 0 48 eq_refl) as [_ H48].
    exists o, i, (with_table j o i f2 s). split; [done|].
    assert (I' : image_ok (with_table j o i f2 s)) by (apply with_table_ok; (done || lia)).
    assert (Hg : same_geo s (with_table j o i f2 s)) by (split; try done; [cbn; by rewrite length_insert|apply (keeps_head s RL1); try done; apply T]).
    split; [exact I'|]. split; [exact Hg|]. split.
    { intros c' Hc'. assert (He := with_table_entry s j o i f2 c' I Hl T ltac:(lia) Hc').
      split; [exact He|]. by apply (keeps_cluster s _ RL1 c' I Hg (tw_keep _ _ _ _ T)). }
    split; [cbn; rewrite list_lookup_insert_eq; [done|by apply lookup_lt_Some in Hl]|]. split; [lia|].
    destruct (ca_len s (im_cache s I)) as (C1 & C2 & C3). cbn.
    rewrite !list_lookup_insert_eq by lia. rewrite (tw_zero _ _ _ _ T), (tw_len _ _ _ _ T).
    split; [done|]. split; [done|lia].
  - unfold find_l2. rewrite Hl. cbn [mbind option_bind]. rewrite (proj2 (Z.eqb_neq o 0)) by done. cbn [negb].
    destruct (load_l2_ok s j o I Hl Ho) as (i & s' & E & I' & Hs & Ht & Hof). rewrite E.
    exists o, i, s'. split; [done|]. split; [done|]. split; [split; try apply Hs; [by rewrite (sm_l1 _ _ Hs)|by apply same_seg]|].
    split; [intros c' _; split; [by apply same_entry|by apply same_cluster]|].
    rewrite (sm_l1 _ _ Hs), (sm_len _ _ Hs), (same_seg _ _ _ _ Hs). split_and!; (done || lia).
Qed.

(** ** New clusters *)

Lemma compressed_extent s c : image_ok s -> 0 <= c < clusters s -> compressed (entry s c) = true ->
  extent s (RC c) = Some (coffset s (entry s c), csize s (entry s c)).
Proof.
  intros I Hc Hco. cbn. rewrite decide_True by done. rewrite Hco.
  destruct (Z.eqb_spec (entry s c) 0) as [E|]; [|done]. rewrite E in Hco. by vm_compute in Hco.
Qed.

Lemma inflates_bytes s e d : compressed e = true -> inflates s e d -> cluster_bytes s e = d.
Proof. intros Hco (_ & _ & H). unfold cluster_bytes. by rewrite Hco, H. Qed.

Lemma decompress_ok s c :
  image_ok s -> 0 <= c < clusters s -> compressed (entry s c) = true ->
  exists s', decompress_cluster inflate (entry s c) s = (0, s') /\ image_ok s' /\ same_image s s' /\
    cluster_cache s' = cluster_bytes s (entry s c) /\
    l2_cache s' = l2_cache s /\ l2_cache_offsets s' = l2_cache_offsets s.
Proof.
  intros I Hc Hco. set (e := entry s c) in *. unfold decompress_cluster.
  fold (coffset s e). destruct (Z.eqb_spec (cluster_cache_offset s) (coffset s e)) as [Ho|Ho].
  - exists s. rewrite (inflates_bytes s e (cluster_cache s) Hco) by (by apply (im_ccache s I c)).
    by split_and!.
  - destruct (im_comp s I c Hc Hco) as [d Hd]. pose proof Hd as (D1 & D2 & D3).
    pose proof (compressed_extent s c I Hc Hco) as X. fold e in D1, D2, D3, X.
    destruct (im_bounds s I _ _ _ X) as [B1 B2]. pose proof (im_size s I).
    fold (csize s e).
    rewrite (on_file_eq _ _ _ _ (lseek_set_eq (s64 (coffset s e)) _ ltac:(rewrite s64_id; lia))). cbv iota beta.
    rewrite s64_id by lia. erewrite on_file_eq by (apply fread_eq; cbn; lia). cbv iota beta.
    rewrite seg_length, Z2Nat.id, Z.eqb_refl by lia. cbn [negb].
    unfold decompress_buffer. cbn [cluster_cache set_qfile].
    rewrite (im_clen s I). change (seg _ _) with (seg (qfile s) (coffset s e)). rewrite D3, D2, Nat.eqb_refl.
    cbn [andb]. change (0 <? 0) with false. cbv iota beta.
    rewrite splice_full by (by rewrite D2, (im_clen s I)).
    eexists. split; [reflexivity|].
    assert (Hs : same_image s (set_cluster_cache d (coffset s e) (set_qfile
       (set_fpos (fpos (set_fpos (coffset s e) (qfile s)) + csize s e) (set_fpos (coffset s e) (qfile s)))
       (set_qfile (set_fpos (coffset s e) (qfile s)) s)))).
    { split; try done. intros. by apply set_fpos_ok, set_fpos_ok. }
    split; [|split; [exact Hs|split; [by rewrite (inflates_bytes s e d)|done]]].
    apply (same_image_ok s _ I Hs); [by destruct (im_cache s I)| |done].
    cbn [cluster_cache_offset cluster_cache set_cluster_cache]. intros c' Hc' Hco' Ho'.
    destruct (im_comp s I c' Hc' Hco') as [d' (D1' & _)].
    pose proof (compressed_extent s c' I Hc' Hco') as X'.
    assert (RC c = RC c') as [= <-]; [|done].
    apply (im_disj s I _ _ (coffset s e)); [exists (coffset s e), (csize s e)|eexists _, _]; (split; [done|lia]).
Qed.

Lemma bits_of_small e : 0 <= e < 2 ^ 63 -> compressed e = false.
Proof.
  intros He. unfold compressed, QCOW_OFLAG_COMPRESSED. rewrite tst_bit by lia. by apply (testbit_high e 63).
Qed.

(** What a new cluster holds before it is written to: nothing, or the old
    contents when it was compressed and is not overwritten completely *)
Definition fresh_data (s : qstate) (c n_start n_end : Z) : list Z :=
  if compressed (entry s c) && (n_end - n_start <? 2 ^ (cluster_bits s - 9)) then cluster_bytes s (entry s c)
  else replicate (Z.to_nat (2 ^ cluster_bits s)) 0.

Record grown (s : qstate) (a : Z) (content : list Z) (f' : file) : Prop := {
  gw_ok : file_ok f';
  gw_at : flen (qfile s) <= a < flen (qfile s) + 2 ^ cluster_bits s;
  gw_len : flen f' = a + 2 ^ cluster_bits s;
  gw_old x : x < flen (qfile s) -> fbyte f' x = fbyte (qfile s) x;
  gw_new : seg f' a (Z.to_nat (2 ^ cluster_bits s)) = content
}.

Context (aes : bool -> list Z -> list Z -> list Z).

Hypothesis Hinf : forall l n ok d, inflate l n = Some (ok, d) -> bytes_ok d.

Lemma cluster_bytes_ok s e : image_ok s -> bytes_ok (cluster_bytes s e).
Proof.
  intros I. unfold cluster_bytes. destruct (compressed e); [|by apply seg_bytes, I].
  destruct (inflate _ _) as [[ok d]|] eqn:E; [by apply Hinf in E|by apply Forall_nil].
Qed.

Lemma alloc_cluster_ok s c offset n_start n_end :
  image_ok s -> 0 <= c < clusters s -> flen (qfile s) + 2 * 2 ^ cluster_bits s <= 2 ^ 62 ->
  exists a t f', alloc_cluster inflate aes offset (entry s c) 1 0 n_start n_end s = (inr a, set_qfile f' t) /\
    image_ok t /\ same_image s t /\ l2_cache t = l2_cache s /\ l2_cache_offsets t = l2_cache_offsets s /\
    grown s a (fresh_data s c n_start n_end) f'.
Proof.
  intros I Hc Hroom. pose proof (im_geo s I) as G. destruct (im_bounds s I RHead 0 48 eq_refl) as [_ H48].
  assert (Hcp : 0 < 2 ^ cluster_bits s) by (apply Z.pow_pos_nonneg; lia).
  unfold alloc_cluster, fresh_data, cluster_sectors. rewrite Z.shiftl_1_l.
  destruct (compressed (entry s c) && (n_end - n_start <? 2 ^ (cluster_bits s - 9))) eqn:E.
  - apply andb_true_iff in E as [Hco _].
    destruct (decompress_ok s c I Hc Hco) as (t & E & It & St & Hcc & L1 & L2). rewrite E. change (0 <? 0) with false.
    cbv iota. rewrite (on_file_eq _ _ _ _ (eq_refl : lseek_end (qfile t) = _)). cbv iota beta.
    set (t0 := set_qfile _ t). set (a := round_up t0 (flen (qfile t))).
    assert (Ha : flen (qfile s) <= a < flen (qfile s) + 2 ^ cluster_bits s).
    { rewrite <- (sm_len _ _ St), <- (sm_cb _ _ St).
      apply (round_up_spec t); rewrite ?(sm_cb _ _ St), ?(sm_len _ _ St); lia. }
    rewrite (on_file_eq _ _ _ _ (lseek_set_eq (s64 a) _ ltac:(rewrite s64_id; lia))). cbv iota beta.
    rewrite s64_id by lia.
    assert (Hlc : length (cluster_cache t) = Z.to_nat (2 ^ cluster_bits s))
      by (by rewrite (im_clen t It), (sm_cb _ _ St)).
    destruct (fwrite_at (cluster_cache t) (qfile t) a) as (f' & E' & W);
      [apply It|rewrite Hcc; by apply cluster_bytes_ok|lia| |].
    { intros Hn%(f_equal length). rewrite Hlc in Hn. cbn in Hn. lia. }
    change (cluster_cache (set_qfile _ _)) with (cluster_cache t).
    erewrite (on_file_eq (fwrite (cluster_cache t))); [|exact E']. cbv iota beta.
    rewrite Hlc, Z2Nat.id by lia. unfold cluster_size. rewrite Z.shiftl_1_l.
    change (cluster_bits (set_qfile _ _)) with (cluster_bits t). rewrite (sm_cb _ _ St), Z.eqb_refl. cbn [negb].
    exists a, t, f'. split; [done|]. split_and!; try done. split; try done.
    + apply W.
    + rewrite (wr_len _ _ _ _ W), (sm_len _ _ St), Hlc. lia.
    + intros x Hx. rewrite (wr_out _ _ _ _ W) by lia. apply (sm_bytes _ _ St).
    + pose proof (written_seg _ _ _ _ W) as Hw. by rewrite Hlc, Hcc in Hw.
  - rewrite (on_file_eq _ _ _ _ (eq_refl : lseek_end (qfile s) = _)). cbv iota beta. change (1 =? 1) with true.
    cbv iota. set (s0 := set_qfile _ s). set (a := round_up s0 (flen (qfile s))).
    assert (Ha : flen (qfile s) <= a < flen (qfile s) + 2 ^ cluster_bits s) by (apply (round_up_spec s); lia).
    assert (Hcs : cluster_size s0 = 2 ^ cluster_bits s) by (unfold cluster_size; apply Z.shiftl_1_l).
    rewrite Hcs, s64_id by lia.
    destruct (ftruncate_grow (a + 2 ^ cluster_bits s) (set_fpos (flen (qfile s)) (qfile s)))
      as (f' & E' & F1 & F2 & F3); [apply set_fpos_ok, I|cbn; lia|].
    erewrite (on_file_eq (ftruncate _)); [|exact E']. cbv iota beta. change (0 =? 0) with true. cbn [negb].
    change (crypt_method (set_qfile f' s0)) with (crypt_method s). rewrite (im_crypt s I). change (0 =? 0) with true.
    cbn [negb andb]. exists a, s, f'. split; [done|]. split_and!; try done.
    split; try done.
    apply seg_eq; [apply length_replicate|]. intros i b Hb.
    apply lookup_replicate in Hb as [-> _]. rewrite F3. apply fbyte_beyond; [apply set_fpos_ok, I|cbn; lia].
Qed.

(** The state with the new cluster [a] entered for cluster [c] *)
Definition with_cluster (i : nat) (k a : Z) (f : file) (t : qstate) : qstate :=
  set_qfile f (set_slot i (splice (8 * Z.to_nat k) (be_bytes 8 a) (default [] (l2_cache t !! i))) t).

Section Install.
Context (t : qstate) (c o a : Z) (i : nat) (content : list Z) (f1 f2 : file).
Let j := Z.to_nat (c / 2 ^ l2_bits t).
Let k := c mod 2 ^ l2_bits t.
Context (I : image_ok t) (Hc : 0 <= c < clusters t).
Context (Hj : l1_table t !! j = Some o) (Ho : o <> 0).
Context (Hslot : l2_cache t !! i = Some (seg (qfile t) o (Z.to_nat (8 * 2 ^ l2_bits t)))).
Context (Hoff : l2_cache_offsets t !! i = Some o).
Context (Hg : grown t a content f1) (Hw : written (o + 8 * k) (be_bytes 8 a) f1 f2).
Context (Hroom : flen f1 <= 2 ^ 62).

Lemma inst_bounds : 0 <= k < 2 ^ l2_bits t /\ 0 <= o /\ o + 8 * 2 ^ l2_bits t <= flen (qfile t) /\
  48 <= a /\ 0 < 2 ^ cluster_bits t.
Proof.
  destruct (cluster_index t c I Hc) as (o' & _ & Hm & _). destruct (table_extent t j o I Hj Ho).
  destruct (im_bounds t I RHead 0 48 eq_refl). destruct (gw_at _ _ _ _ Hg). pose proof (im_geo t I).
  split_and!; try apply Hm; lia.
Qed.

Lemma inst_keeps : keeps t (RL2 j) f2.
Proof.
  destruct inst_bounds as (B1 & B2 & B3 & B4 & B5).
  intros x Hx Hn. rewrite (wr_out _ _ _ _ Hw); [by apply (gw_old _ _ _ _ Hg)|].
  rewrite be_bytes_length. intros Hin. apply Hn. exists o, (8 * 2 ^ l2_bits t). cbn. rewrite Hj. cbn.
  rewrite (proj2 (Z.eqb_neq _ _)) by done. split; [done|lia].
Qed.

Lemma inst_geo : same_geo t (with_cluster i k a f2 t).
Proof. split; try done. apply (keeps_head t (RL2 j)); [done|apply inst_keeps|done]. Qed.

Lemma inst_len : flen f2 = flen f1.
Proof.
  destruct inst_bounds as (B1 & B2 & B3 & B4 & B5). destruct Hg as [_ G2 G3 _ _].
  rewrite (wr_len _ _ _ _ Hw), be_bytes_length. lia.
Qed.

Lemma inst_entry c' : 0 <= c' < clusters t ->
  entry (with_cluster i k a f2 t) c' = if decide (c' = c) then a else entry t c'.
Proof.
  intros Hc'. destruct inst_bounds as (B1 & B2 & B3 & B4 & B5). pose proof (im_size t I).
  destruct (cluster_index t c' I Hc') as (o' & Hl & Hm & Hd).
  destruct (cluster_index t c I Hc) as (_ & _ & _ & Hd0).
  unfold entry. cbn [with_cluster set_qfile set_slot set_l2 l1_table l2_bits qfile]. rewrite Hl.
  pose proof (gw_at _ _ _ _ Hg) as Hat. pose proof (im_geo t I). assert (2 ^ cluster_bits t <= 2 ^ 30) by (apply Z.pow_le_mono_r; lia).
  destruct (decide (c' = c)) as [->|Hne].
  - fold j in Hl. rewrite Hj in Hl. injection Hl as <-. rewrite (proj2 (Z.eqb_neq _ _)) by done.
    apply (table_at_written f1); [lia|done].
  - destruct (Z.eqb_spec o' 0) as [|Ho']; [done|].
    destruct (decide (Z.to_nat (c' / 2 ^ l2_bits t) = j)) as [Ej|Ej].
    + rewrite Ej, Hj in Hl. injection Hl as <-.
      assert (Hk : c' mod 2 ^ l2_bits t <> k).
      { intros Hk. apply Hne. destruct (l2_size_eq t I) as [_ Hp].
        rewrite (Z.div_mod c' (2 ^ l2_bits t)), (Z.div_mod c (2 ^ l2_bits t)) by lia.
        unfold k in Hk. rewrite Hk. unfold j in Ej. f_equal. f_equal. lia. }
      apply table_at_same. intros x Hx. rewrite (wr_out _ _ _ _ Hw) by (rewrite be_bytes_length; lia).
      apply (gw_old _ _ _ _ Hg). lia.
    + apply (keeps_table t (RL2 j) f2 (Z.to_nat (c' / 2 ^ l2_bits t))); try done; [apply inst_keeps|congruence].
Qed.

Lemma inst_cache : cache_ok (with_cluster i k a f2 t).
Proof.
  destruct inst_bounds as (B1 & B2 & B3 & B4 & B5).
  destruct (im_cache t I) as [C1 C2 C3 C4]. destruct C1 as (L1 & L2 & L3).
  assert (Hi : (i < 16)%nat) by (apply lookup_lt_Some in Hoff; lia).
  assert (Hsp : splice (8 * Z.to_nat k) (be_bytes 8 a) (seg (qfile t) o (Z.to_nat (8 * 2 ^ l2_bits t)))
    = seg f2 o (Z.to_nat (8 * 2 ^ l2_bits t))).
  { rewrite (seg_written f1 f2 o _ (8 * Z.to_nat k) (be_bytes 8 a)).
    - f_equal. apply seg_ext. intros n Hn. symmetry. apply (gw_old _ _ _ _ Hg). lia.
    - by replace (o + Z.of_nat (8 * Z.to_nat k)) with (o + 8 * k) by lia.
    - rewrite be_bytes_length. lia. }
  unfold with_cluster. rewrite Hslot. cbn [default from_option id]. rewrite Hsp.
  split; cbn [set_qfile set_slot set_l2 l2_cache l2_cache_offsets l2_cache_counts qfile l2_bits l1_table].
  - by rewrite length_insert.
  - intros n u Hn. destruct (decide (n = i)) as [->|Hni].
    + rewrite list_lookup_insert_eq in Hn by lia. injection Hn as <-. apply seg_length.
    + rewrite list_lookup_insert_ne in Hn by done. by apply (C2 n).
  - intros n o' Hn Ho'. destruct (C3 n o' Hn Ho') as [[j' Hj'] Ht]. split; [by exists j'|].
    destruct (decide (n = i)) as [->|Hni].
    + rewrite Hoff in Hn. injection Hn as <-. by rewrite list_lookup_insert_eq by lia.
    + rewrite list_lookup_insert_ne, Ht by done. f_equal. symmetry.
      apply (keeps_seg t (RL2 j) f2 (RL2 j') o' (8 * 2 ^ l2_bits t)); [done|apply inst_keeps| | |lia|lia].
      * cbn. rewrite Hj'. cbn. by rewrite (proj2 (Z.eqb_neq _ _)).
      * intros [= ->]. rewrite Hj in Hj'. injection Hj' as <-. apply Hni. by apply (C4 n i o).
  - done.
Qed.

Lemma inst_ok : image_ok (with_cluster i k a f2 t).
Proof.
  destruct inst_bounds as (B1 & B2 & B3 & B4 & B5). pose proof inst_len as Hl2. destruct Hg as [G1 G2 G3 G4 G5].
  assert (2 ^ cluster_bits t <= 2 ^ 30) by (pose proof (im_geo t I); apply Z.pow_le_mono_r; lia).
  assert (Ha : compressed a = false) by (apply bits_of_small; lia).
  apply (changed_ok t _ (RL2 j) (RC c)); try done.
  - apply inst_geo.
  - apply inst_keeps.
  - apply Hw.
  - cbn. rewrite Hl2. lia.
  - intros n o' Hn. change (qfile (with_cluster i k a f2 t)) with f2.
    change (l1_table (with_cluster i k a f2 t)) with (l1_table t) in Hn.
    rewrite <- (im_l1 t I n o' Hn). destruct (im_bounds t I RL1 _ _ eq_refl) as [R1 R2].
    pose proof (lookup_lt_Some _ _ _ Hn). unfold table_at. f_equal.
    apply (keeps_seg t (RL2 j) f2 RL1 (l1_table_offset t) (8 * Z.of_nat (length (l1_table t))));
      [done|apply inst_keeps|done|done|lia|lia].
  - intros r. destruct r as [| |n|c'].
    1-3: right; by left.
    unfold extent. change (clusters (with_cluster i k a f2 t)) with (clusters t).
    destruct (decide (0 <= c' < clusters t)) as [Hc'|Hc']; [|right; by left].
    rewrite (inst_entry c' Hc'). destruct (decide (c' = c)) as [->|Hne]; [|right; by left].
    rewrite (proj2 (Z.eqb_neq a 0)), Ha by lia. right; right. split; [done|]. eexists _, _. split; [reflexivity|].
    cbn [with_cluster set_qfile set_slot set_l2 qfile cluster_bits]. rewrite Hl2. lia.
  - intros c' Hc'. rewrite (inst_entry c' Hc'). destruct (decide (c' = c)); [congruence|done].
  - apply inst_cache.
Qed.

Lemma inst_data c' : 0 <= c' < clusters t ->
  cluster_data (with_cluster i k a f2 t) c' = if decide (c' = c) then Some content else cluster_data t c'.
Proof.
  intros Hc'. destruct inst_bounds as (B1 & B2 & B3 & B4 & B5). pose proof Hg as [G1 G2 G3 G4 G5].
  pose proof (inst_entry c' Hc') as He. destruct (decide (c' = c)) as [->|Hne].
  - unfold cluster_data. rewrite He, (proj2 (Z.eqb_neq a 0)) by lia. f_equal.
    unfold cluster_bytes. rewrite bits_of_small by (pose proof inst_len; lia).
    cbn [with_cluster set_qfile set_slot set_l2 qfile cluster_bits]. rewrite <- G5.
    apply seg_ext. intros n Hn. apply (wr_out _ _ _ _ Hw). rewrite be_bytes_length. lia.
  - apply (keeps_cluster t _ (RL2 j)); try done; [apply inst_geo|apply inst_keeps].
Qed.

End Install.

(** ** Finding the cluster of a sector *)

Lemma s32_mod z k : 0 <= k <= 32 -> s32 z mod 2 ^ k = z mod 2 ^ k.
Proof.
  intros Hk. assert (E : s32 z = z + 2 ^ 32 * (- (z / 2 ^ 32) + (if z mod 2 ^ 32 <? 2 ^ 31 then 0 else -1))).
  { unfold s32. pose proof (Z.div_mod z (2 ^ 32) ltac:(lia)). case_match; lia. }
  rewrite E. replace (2 ^ 32) with (2 ^ (32 - k) * 2 ^ k) at 1 by (rewrite <- Z.pow_add_r by lia; f_equal; lia).
  set (q := - _ + _). replace (z + 2 ^ (32 - k) * 2 ^ k * q) with (z + (2 ^ (32 - k) * q) * 2 ^ k) by lia.
  apply Z_mod_plus_full.
Qed.

Lemma sector_cluster s n : image_ok s -> 0 <= n < sectors s ->
  let c := n / 2 ^ (cluster_bits s - 9) in
  0 <= c < clusters s /\ 0 <= n * 512 < 2 ^ 63 /\ n * 512 / 2 ^ cluster_bits s = c /\
  n * 512 / 2 ^ (l2_bits s + cluster_bits s) = c / 2 ^ l2_bits s /\ c / 2 ^ l2_bits s < 2 ^ 31.
Proof.
  intros I Hn c. pose proof (im_geo s I) as (G1 & G2 & G3 & G4). unfold sectors in Hn.
  destruct (l2_size_eq s I) as [_ Hp].
  assert (Hs : 0 < 2 ^ (cluster_bits s - 9)) by (apply Z.pow_pos_nonneg; lia).
  assert (Hcb : 2 ^ cluster_bits s = 2 ^ (cluster_bits s - 9) * 512).
  { change 512 with (2 ^ 9). rewrite <- Z.pow_add_r by lia. f_equal. lia. }
  assert (Hc : n * 512 / 2 ^ cluster_bits s = c) by (rewrite Hcb, Z.div_mul_cancel_r by lia; done).
  assert (H0 : 0 <= c) by (apply Z.div_pos; lia).
  assert (H1 : c < clusters s) by (apply Z.div_lt_upper_bound; [lia|rewrite Z.mul_comm; lia]).
  split; [lia|]. split; [|split; [done|]].
  - split; [lia|]. apply Z.lt_le_trans with (clusters s * 2 ^ cluster_bits s); [rewrite Hcb; lia|].
    unfold clusters. rewrite Z.pow_add_r in G4 by lia. lia.
  - rewrite Z.add_comm, Z.pow_add_r, <- Z.div_div, Hc by lia. split; [done|].
    apply Z.div_lt_upper_bound; [lia|]. unfold clusters in H1. nia.
Qed.

(** The two table indices [get_cluster_offset] computes *)
Lemma gco_index s n : image_ok s -> 0 <= n < sectors s ->
  let c := n / 2 ^ (cluster_bits s - 9) in
  let offset := u64 (n .<< 9) in
  s32 (offset .>> (l2_bits s + cluster_bits s)) = c / 2 ^ l2_bits s /\ 0 <= c / 2 ^ l2_bits s /\
  s32 (offset .>> cluster_bits s) .& (l2_size s - 1) = c mod 2 ^ l2_bits s.
Proof.
  intros I Hn c offset. destruct (sector_cluster s n I Hn) as (H1 & H2 & H3 & H4 & H5). fold c in H1, H3, H4, H5.
  pose proof (im_geo s I) as (G1 & G2 & G3 & G4). destruct (l2_size_eq s I) as [_ Hp].
  assert (Ho : offset = n * 512) by (unfold offset, u64; rewrite Z.shiftl_mul_pow2, Z.mod_small by lia; lia).
  rewrite Ho, !Z.shiftr_div_pow2, H3, H4 by lia.
  assert (0 <= c / 2 ^ l2_bits s) by (apply Z.div_pos; lia).
  rewrite s32_small by lia. split; [done|]. split; [done|].
  unfold l2_size. rewrite Z.shiftl_1_l, land_ones_mod by lia. apply s32_mod. lia.
Qed.

(** The contents the cluster of a write has beforehand *)
Definition before (s : qstate) (c n_start n_end : Z) : list Z :=
  if (entry s c =? 0) || compressed (entry s c) then fresh_data s c n_start n_end
  else cluster_bytes s (entry s c).

Definition growth (s : qstate) : Z := 3 * 2 ^ cluster_bits s + 8 * 2 ^ l2_bits s.

Lemma grown_same s t a content f1 : same_image s t -> grown s a content f1 -> grown t a content f1.
Proof.
  intros S [W1 W2 W3 W4 W5]. split; rewrite ?(sm_len _ _ S), ?(sm_cb _ _ S); try done.
  intros x Hx. rewrite W4, (sm_bytes _ _ S) by done. done.
Qed.

(** A new cluster is entered into the tables. *)
Lemma install_ok s c o i offset n_start n_end :
  image_ok s -> 0 <= c < clusters s -> flen (qfile s) + 2 * 2 ^ cluster_bits s <= 2 ^ 62 ->
  l1_table s !! Z.to_nat (c / 2 ^ l2_bits s) = Some o -> o <> 0 ->
  l2_cache s !! i = Some (seg (qfile s) o (Z.to_nat (8 * 2 ^ l2_bits s))) -> l2_cache_offsets s !! i = Some o ->
  exists a s1 s', alloc_cluster inflate aes offset (entry s c) 1 0 n_start n_end s = (inr a, s1) /\
    (let s2 := set_slot i (splice (8 * Z.to_nat (c mod 2 ^ l2_bits s)) (be_bytes 8 a)
                 (seg (qfile s) o (Z.to_nat (8 * 2 ^ l2_bits s)))) s1 in
     let '(_, s2) := on_file (lseek_set (s64 (o + Z.of_nat (Z.to_nat (c mod 2 ^ l2_bits s)) * 8))) s2 in
     on_file (fwrite (be_bytes 8 a)) s2) = (8, s') /\
    image_ok s' /\ same_geo s s' /\ 0 < a < 2 ^ 62 /\ entry s' c = a /\
    flen (qfile s') <= flen (qfile s) + 2 * 2 ^ cluster_bits s /\
    forall c', 0 <= c' < clusters s ->
      cluster_data s' c' = if decide (c' = c) then Some (fresh_data s c n_start n_end) else cluster_data s c'.
Proof.
  intros I Hc Hroom Hj Ho Hslot Hoff.
  destruct (alloc_cluster_ok s c offset n_start n_end I Hc Hroom) as (a & t & f1 & Ea & It & St & L1 & L2 & Hg).
  exists a, (set_qfile f1 t). set (k := c mod 2 ^ l2_bits s).
  assert (Hct : 0 <= c < clusters t) by (by rewrite (same_clusters _ _ St)).
  assert (Hgt := grown_same _ _ _ _ _ St Hg).
  pose proof (gw_at _ _ _ _ Hg) as Hat. pose proof (gw_len _ _ _ _ Hg) as Hlen.
  destruct (table_extent s _ o I Hj Ho) as [B1 B2]. destruct (cluster_index s c I Hc) as (_ & _ & Hk & _). fold k in Hk.
  destruct (im_bounds s I RHead 0 48 eq_refl) as [_ H48].
  destruct (fwrite_at (be_bytes 8 a) f1 (o + 8 * k)) as (f2 & E2 & Hw);
    [apply Hg|apply be_bytes_ok|lia|intros Hb%(f_equal length); by rewrite be_bytes_length in Hb|].
  assert (Hlb := sm_lb _ _ St).
  assert (Hjt : l1_table t !! Z.to_nat (c / 2 ^ l2_bits t) = Some o) by (by rewrite (sm_l1 _ _ St), Hlb).
  assert (Hst : l2_cache t !! i = Some (seg (qfile t) o (Z.to_nat (8 * 2 ^ l2_bits t))))
    by (by rewrite L1, Hlb, (same_seg _ _ _ _ St)).
  assert (Hot : l2_cache_offsets t !! i = Some o) by (by rewrite L2).
  assert (Hwt : written (o + 8 * (c mod 2 ^ l2_bits t)) (be_bytes 8 a) f1 f2) by (by rewrite Hlb).
  assert (Hrt : flen f1 <= 2 ^ 62) by lia.
  exists (with_cluster i (c mod 2 ^ l2_bits t) a f2 t). split; [done|]. split.
  { cbv zeta. replace (o + Z.of_nat (Z.to_nat k) * 8) with (o + 8 * k) by lia.
    rewrite (on_file_eq _ _ _ _ (lseek_set_eq (s64 (o + 8 * k)) _ ltac:(rewrite s64_id; lia))). cbv iota beta.
    rewrite s64_id by lia. erewrite (on_file_eq (fwrite (be_bytes 8 a))); [|exact E2].
    rewrite be_bytes_length. unfold with_cluster. rewrite Hst, Hlb. fold k. cbn [default from_option id].
    by rewrite (same_seg _ _ _ _ St). }
  split; [by apply (inst_ok t c o a i (fresh_data s c n_start n_end) f1 f2)|].
  split.
  { split; try apply St; [by rewrite <- (sm_l1 _ _ St)|]. rewrite <- (same_seg _ _ _ _ St).
    apply (sg_head _ _ (inst_geo t c o a i (fresh_data s c n_start n_end) f1 f2 It Hct Hjt Ho Hgt Hwt)). }
  split; [lia|].
  split; [rewrite (inst_entry t c o a i (fresh_data s c n_start n_end) f1 f2) by done; by rewrite decide_True|].
  split; [pose proof (inst_len t c o a (fresh_data s c n_start n_end) f1 f2 It Hct Hjt Ho Hgt Hwt) as Hl2; cbn; rewrite Hl2; lia|].
  intros c' Hc'. rewrite (inst_data t c o a i (fresh_data s c n_start n_end) f1 f2);
    [|done..|by rewrite (same_clusters _ _ St)].
  case_decide; [done|by apply same_cluster].
Qed.

Lemma same_geo_trans s1 s2 s3 : same_geo s1 s2 -> same_geo s2 s3 -> same_geo s1 s3.
Proof. intros [A1 A2 A3 A4 A5 A6] [B1 B2 B3 B4 B5 B6]. split; congruence. Qed.

Lemma geo_clusters s s' : same_geo s s' -> clusters s' = clusters s.
Proof. intros [A1 A2 A3 A4 A5 _]. unfold clusters. by rewrite A2, A4. Qed.

Lemma table_entry s c o :
  l1_table s !! Z.to_nat (c / 2 ^ l2_bits s) = Some o -> o <> 0 -> image_ok s -> 0 <= c < clusters s ->
  be64_at (Z.to_nat (c mod 2 ^ l2_bits s)) (seg (qfile s) o (Z.to_nat (8 * 2 ^ l2_bits s))) = entry s c.
Proof.
  intros Hj Ho I Hc. destruct (cluster_index s c I Hc) as (_ & _ & Hk & _).
  rewrite be64_at_seg by lia. unfold entry. by rewrite Hj, (proj2 (Z.eqb_neq o 0)).
Qed.

Lemma data_fresh s s' c n_start n_end :
  same_geo s s' -> cluster_data s' c = cluster_data s c -> entry s' c = entry s c ->
  fresh_data s' c n_start n_end = fresh_data s c n_start n_end /\
  (entry s c <> 0 -> cluster_bytes s' (entry s c) = cluster_bytes s (entry s c)).
Proof.
  intros Hg Hd He. unfold cluster_data in Hd. rewrite He in Hd.
  assert (X : entry s c <> 0 -> cluster_bytes s' (entry s c) = cluster_bytes s (entry s c)).
  { intros Hn. rewrite (proj2 (Z.eqb_neq _ _)) in Hd by done. by injection Hd. }
  split; [|done]. unfold fresh_data. rewrite He, (sg_cb _ _ Hg).
  destruct (compressed (entry s c)) eqn:Hco; cbn [andb]; [|done]. destruct (n_end - n_start <? _); [|done].
  apply X. intros E. rewrite E in Hco. by vm_compute in Hco.
Qed.

(** [get_cluster_offset] for a write *)
Lemma gco_write s n n_start n_end :
  image_ok s -> 0 <= n < sectors s -> flen (qfile s) + growth s <= 2 ^ 62 ->
  let c := n / 2 ^ (cluster_bits s - 9) in
  exists a s', get_cluster_offset inflate aes (u64 (n .<< 9)) 1 0 n_start n_end s = Some (a, s') /\
    image_ok s' /\ same_geo s s' /\ 0 < a < 2 ^ 62 /\ entry s' c = a /\
    flen (qfile s') <= flen (qfile s) + growth s /\
    forall c', 0 <= c' < clusters s ->
      cluster_data s' c' = if decide (c' = c) then Some (before s c n_start n_end) else cluster_data s c'.
Proof.
  intros I Hn Hroom c. destruct (sector_cluster s n I Hn) as (Hc & _). fold c in Hc.
  destruct (gco_index s n I Hn) as (X1 & X2 & X3). fold c in X1, X2, X3.
  pose proof (im_geo s I) as G. destruct (l2_size_eq s I) as [_ Hp].
  assert (Hcp : 0 < 2 ^ cluster_bits s) by (apply Z.pow_pos_nonneg; lia). unfold growth in *.
  unfold get_cluster_offset. rewrite X1, (proj2 (Z.ltb_ge _ _)) by lia.
  destruct (find_l2_ok s c I Hc) as (o & i & s1 & E1 & I1 & G1 & D1 & Hj & Ho & Ht & Hof & L1); [lia|].
  rewrite E1. cbn [mbind option_bind]. cbv beta iota zeta.
  rewrite Ht. cbn [mbind option_bind].
  assert (X3' : s32 (u64 (n .<< 9) .>> cluster_bits s1) .& (l2_size s1 - 1) = c mod 2 ^ l2_bits s).
  { unfold l2_size in *. by rewrite (sg_cb _ _ G1), (sg_lb _ _ G1). }
  rewrite X3', <- (sg_lb _ _ G1).
  assert (Hc1 : 0 <= c < clusters s1) by (by rewrite (geo_clusters _ _ G1)).
  destruct (D1 c Hc) as [He Hd]. destruct (data_fresh s s1 c n_start n_end G1 Hd He) as [Hfr Hby].
  rewrite <- (sg_lb _ _ G1) in Hj, Ht.
  rewrite (table_entry s1 c o) by done. change (1 =? 1) with true. rewrite andb_true_r.
  unfold before. rewrite <- He. destruct ((entry s1 c =? 0) || compressed (entry s1 c)) eqn:Ec.
  - change (1 =? 0) with false. cbv iota.
    destruct (install_ok s1 c o i (u64 (n .<< 9)) n_start n_end I1 Hc1) as
      (a & s2 & s3 & Ea & E3 & I3 & G3 & Ha & He3 & L3 & D3); try done; [rewrite (sg_cb _ _ G1); lia|].
    rewrite Ea. cbv iota beta zeta in E3 |- *. revert E3.
    destruct (on_file (lseek_set _) (set_slot _ _ _)) as [r0 s4]. intros E3. rewrite E3. change (8 =? 8) with true. cbn [negb].
    exists a, s3. split; [done|]. split; [done|]. split; [by apply (same_geo_trans _ s1)|]. split; [done|].
    split; [done|]. split; [rewrite (sg_cb _ _ G1) in L3; rewrite ?(sg_lb _ _ G1); lia|].
    intros c' Hc'. rewrite D3 by (by rewrite (geo_clusters _ _ G1)). rewrite Hfr.
    case_decide; [done|]. by apply D1.
  - apply orb_false_iff in Ec as [E0 Ec]. apply Z.eqb_neq in E0.
    exists (entry s1 c), s1. split; [done|]. split; [done|]. split; [done|].
    assert (X : extent s1 (RC c) = Some (entry s1 c, 2 ^ cluster_bits s1)).
    { cbn. rewrite decide_True by done. by rewrite (proj2 (Z.eqb_neq _ _)), Ec. }
    destruct (im_bounds s1 I1 _ _ _ X) as [B1 B2]. rewrite (sg_cb _ _ G1) in B2. pose proof (im_size s1 I1).
    split; [lia|]. split; [done|]. split; [rewrite ?(sg_lb _ _ G1); lia|]. intros c' Hc'.
    case_decide as Hcc; [|by apply D1]. subst c'. rewrite Hd. unfold cluster_data.
    rewrite <- He, (proj2 (Z.eqb_neq _ _)) by done. done.
Qed.

(** [get_cluster_offset] for a read *)
Lemma gco_read s n :
  image_ok s -> 0 <= n < sectors s ->
  let c := n / 2 ^ (cluster_bits s - 9) in
  exists s', get_cluster_offset inflate aes (u64 (n .<< 9)) 0 0 0 0 s = Some (entry s c, s') /\
    image_ok s' /\ same_image s s'.
Proof.
  intros I Hn c. destruct (sector_cluster s n I Hn) as (Hc & _). fold c in Hc.
  destruct (gco_index s n I Hn) as (X1 & X2 & X3). fold c in X1, X2, X3.
  unfold get_cluster_offset. rewrite X1, (proj2 (Z.ltb_ge _ _)) by lia.
  destruct (cluster_index s c I Hc) as (o & Hj & Hk & Hd). unfold find_l2. rewrite Hj. cbn [mbind option_bind].
  destruct (Z.eqb_spec o 0) as [->|Ho]; cbn [negb].
  - change (0 =? 0) with true. cbn [mbind option_bind]. exists s. unfold entry. rewrite Hj. by split.
  - destruct (load_l2_ok s _ o I Hj Ho) as (i & s1 & E1 & I1 & S1 & Ht & Hof). rewrite E1. cbn [mbind option_bind].
    rewrite Ht. cbn [mbind option_bind].
    assert (X3' : s32 (u64 (n .<< 9) .>> cluster_bits s1) .& (l2_size s1 - 1) = c mod 2 ^ l2_bits s).
    { unfold l2_size in *. by rewrite (sm_cb _ _ S1), (sm_lb _ _ S1). }
    rewrite X3', (table_entry s c o) by done. change (0 =? 1) with false. rewrite andb_false_r, orb_false_r.
    change (0 =? 0) with true. cbv iota. exists s1.
    destruct (Z.eqb_spec (entry s c) 0) as [E0|E0]; [by rewrite E0|done].
Qed.

(** ** Writing into a cluster *)

Lemma keeps_entries s c f2 c' :
  image_ok s -> keeps s (RC c) f2 -> 0 <= c' < clusters s -> entry (set_qfile f2 s) c' = entry s c'.
Proof.
  intros I K Hc'. destruct (cluster_index s c' I Hc') as (o & Hj & Hk & _). unfold entry.
  cbn [set_qfile l1_table l2_bits qfile]. rewrite Hj. destruct (Z.eqb_spec o 0) as [|Ho]; [done|].
  by apply (keeps_table s (RC c) f2 (Z.to_nat (c' / 2 ^ l2_bits s))).
Qed.

Lemma data_write_ok s c pos data f2 :
  image_ok s -> 0 <= c < clusters s -> entry s c <> 0 -> compressed (entry s c) = false ->
  (pos + length data <= Z.to_nat (2 ^ cluster_bits s))%nat ->
  written (entry s c + Z.of_nat pos) data (qfile s) f2 ->
  image_ok (set_qfile f2 s) /\ same_geo s (set_qfile f2 s) /\
  forall c', 0 <= c' < clusters s ->
    cluster_data (set_qfile f2 s) c' =
      if decide (c' = c) then Some (splice pos data (cluster_bytes s (entry s c))) else cluster_data s c'.
Proof.
  intros I Hc He Hco Hpos W.
  assert (X : extent s (RC c) = Some (entry s c, 2 ^ cluster_bits s)).
  { cbn. rewrite decide_True by done. by rewrite (proj2 (Z.eqb_neq _ _)), Hco. }
  destruct (im_bounds s I _ _ _ X) as [B1 B2].
  assert (K : keeps s (RC c) f2).
  { intros x Hx Hn. apply (wr_out _ _ _ _ W). intros Hin. apply Hn. eexists _, _. split; [exact X|]. lia. }
  assert (Hents := fun c' => keeps_entries s c f2 c' I K).
  assert (Hlen : flen f2 = flen (qfile s)) by (rewrite (wr_len _ _ _ _ W); lia).
  assert (Hg : same_geo s (set_qfile f2 s)) by (split; try done; by apply (keeps_head s (RC c))).
  split; [|split; [exact Hg|]].
  - apply (changed_ok s _ (RC c) (RC c)); try done.
    + apply W.
    + cbn. rewrite Hlen. pose proof (im_size s I). lia.
    + intros i o Hi. change (qfile (set_qfile f2 s)) with f2. rewrite <- (im_l1 s I i o Hi).
      destruct (im_bounds s I RL1 _ _ eq_refl) as [R1 R2]. pose proof (lookup_lt_Some _ _ _ Hi) as Hil.
      cbn [set_qfile l1_table] in Hil. unfold table_at. f_equal.
      apply (keeps_seg s (RC c) f2 RL1 (l1_table_offset s) (8 * Z.of_nat (length (l1_table s)))); (done || lia).
    + intros r. right; left. destruct r as [| |n|c']; try done. unfold extent.
      change (clusters (set_qfile f2 s)) with (clusters s).
      destruct (decide (0 <= c' < clusters s)) as [Hc'|]; [|done]. by rewrite (Hents c' Hc').
    + intros c' Hc'. rewrite (Hents c' Hc'). split; [done|]. intros [= ->]. congruence.
    + destruct (im_cache s I) as [C1 C2 C3 C4]. split; try done. intros i o Hi Ho.
      destruct (C3 i o Hi Ho) as [[j Hj] Ht]. split; [by exists j|]. cbn [set_qfile l2_cache qfile l2_bits].
      rewrite Ht. f_equal. symmetry. destruct (l2_size_eq s I) as [_ Hp].
      apply (keeps_seg s (RC c) f2 (RL2 j) o (8 * 2 ^ l2_bits s)); try done; [|lia].
      cbn. rewrite Hj. cbn. by rewrite (proj2 (Z.eqb_neq _ _)).
  - intros c' Hc'. destruct (decide (c' = c)) as [->|Hne].
    + unfold cluster_data. rewrite (Hents c Hc), (proj2 (Z.eqb_neq _ _)) by done. f_equal.
      unfold cluster_bytes. rewrite Hco. by apply seg_written.
    + apply (keeps_cluster s _ (RC c)); try done; [by apply Hents|congruence].
Qed.

Lemma cluster_bytes_length s c : image_ok s -> 0 <= c < clusters s -> 
  length (cluster_bytes s (entry s c)) = Z.to_nat (2 ^ cluster_bits s).
Proof.
  intros I Hc. unfold cluster_bytes. destruct (compressed (entry s c)) eqn:Hco; [|apply seg_length].
  destruct (im_comp s I c Hc Hco) as (d & _ & Hl & ->). done.
Qed.

(** One round of the loop of [qcow_write] *)
Lemma write_chunk_ok s n m data :
  image_ok s -> 0 <= n < sectors s -> flen (qfile s) + growth s <= 2 ^ 62 ->
  let sec := 2 ^ (cluster_bits s - 9) in
  let c := n / sec in
  0 < m -> n mod sec + m <= sec -> Z.of_nat (length data) = m * 512 -> bytes_ok data ->
  exists s', write_chunk inflate aes n m data s = Some (true, s') /\ image_ok s' /\ same_geo s s' /\
    flen (qfile s') <= flen (qfile s) + growth s /\
    forall c', 0 <= c' < clusters s ->
      cluster_data s' c' =
        if decide (c' = c)
        then Some (splice (Z.to_nat (512 * (n mod sec))) data (before s c (n mod sec) (n mod sec + m)))
        else cluster_data s c'.
Proof.
  intros I Hn Hroom sec c Hm Hfit Hlen Hb. destruct (sector_cluster s n I Hn) as (Hc & Hn512 & _). fold sec c in Hc.
  pose proof (im_geo s I) as G. assert (Hs : 0 < sec) by (apply Z.pow_pos_nonneg; lia).
  assert (Hcb : 2 ^ cluster_bits s = sec * 512).
  { unfold sec. change 512 with (2 ^ 9). rewrite <- Z.pow_add_r by lia. f_equal. lia. }
  pose proof (Z.mod_pos_bound n sec Hs) as Hidx.
  unfold write_chunk, cluster_sectors. rewrite Z.shiftl_1_l, land_ones_mod by lia. fold sec.
  destruct (gco_write s n (n mod sec) (n mod sec + m) I Hn Hroom) as (a & s1 & E1 & I1 & G1 & Ha & He & L1 & D1).
  fold sec in D1, He. fold c in D1, He. rewrite E1. cbn [mbind option_bind]. rewrite (proj2 (Z.eqb_neq a 0)) by lia.
  assert (Hidx' : 0 <= n mod sec * 512 < 2 ^ 62).
  { assert (sec <= 2 ^ 21) by (apply Z.pow_le_mono_r; lia). lia. }
  rewrite (on_file_eq _ _ _ _ (lseek_set_eq (s64 (a + n mod sec * 512)) _ ltac:(rewrite s64_id; lia))).
  cbv iota beta. rewrite s64_id by lia.
  change (crypt_method (set_qfile _ s1)) with (crypt_method s1). rewrite (im_crypt s1 I1).
  change (0 =? 0) with true. cbn [negb].
  destruct (fwrite_at data (qfile s1) (a + n mod sec * 512)) as (f2 & E2 & W);
    [apply I1|done|lia|intros ->; cbn in Hlen; lia|].
  erewrite (on_file_eq (fwrite data)); [|exact E2]. rewrite Hlen, Z.eqb_refl.
  assert (Hc1 : 0 <= c < clusters s1) by (by rewrite (geo_clusters _ _ G1)).
  destruct (data_write_ok s1 c (Z.to_nat (512 * (n mod sec))) data f2) as (I2 & G2 & D2); try done.
  - rewrite He. lia.
  - rewrite He. apply bits_of_small. lia.
  - rewrite (sg_cb _ _ G1), Hcb. lia.
  - rewrite He. by replace (a + Z.of_nat (Z.to_nat (512 * (n mod sec)))) with (a + n mod sec * 512) by lia.
  - exists (set_qfile f2 s1). split; [done|]. split; [exact I2|].
    split; [by apply (same_geo_trans _ s1)|]. split.
    { change (flen f2 <= flen (qfile s) + growth s). rewrite (wr_len _ _ _ _ W).
      assert (X : extent s1 (RC c) = Some (a, 2 ^ cluster_bits s1)).
      { cbn. rewrite decide_True by done. rewrite He, (proj2 (Z.eqb_neq _ _)), bits_of_small by lia. done. }
      destruct (im_bounds s1 I1 _ _ _ X) as [B1 B2]. rewrite (sg_cb _ _ G1) in B2. lia. }
    intros c' Hc'. rewrite D2 by (by rewrite (geo_clusters _ _ G1)). case_decide as Hcc; [|rewrite D1 by done].
    + specialize (D1 c Hc). rewrite decide_True in D1 by done. unfold cluster_data in D1.
      rewrite He, (proj2 (Z.eqb_neq a 0)) in D1 by lia. injection D1 as D1. by rewrite He, D1.
    + by rewrite decide_False.
Qed.

(** ** The disk of sectors *)

Lemma take_drop_lookup (l : list Z) q i : take 512 (drop q l) !! i = if decide (i < 512)%nat then l !! (q + i)%nat else None.
Proof.
  case_decide; [by rewrite lookup_take_lt, lookup_drop|]. apply lookup_take_ge. lia.
Qed.

Lemma splice_sector_in q p new l :
  (p + length new <= length l)%nat -> (p <= q)%nat -> (q + 512 <= p + length new)%nat ->
  take 512 (drop q (splice p new l)) = take 512 (drop (q - p) new).
Proof.
  intros H1 H2 H3. apply list_eq. intros i. rewrite !take_drop_lookup. case_decide; [|done].
  rewrite splice_lookup, decide_True by lia. f_equal. lia.
Qed.

Lemma splice_sector_out q p new l :
  (p + length new <= length l)%nat -> (q + 512 <= p \/ p + length new <= q)%nat ->
  take 512 (drop q (splice p new l)) = take 512 (drop q l).
Proof.
  intros H1 H2. apply list_eq. intros i. rewrite !take_drop_lookup. case_decide; [|done].
  by rewrite splice_lookup, decide_False by lia.
Qed.

Definition zero_sector : list Z := replicate 512 0.

(** A sector next to those written to its cluster *)
Definition beside (s : qstate) (m : Z) : option (list Z) := Some (default zero_sector (sector_data s m)).

Lemma before_sector s c n_start n_end q :
  image_ok s -> 0 <= c < clusters s -> 0 <= q -> q < n_start \/ n_end <= q ->
  0 <= n_start < n_end -> n_end <= 2 ^ (cluster_bits s - 9) -> q < 2 ^ (cluster_bits s - 9) ->
  take 512 (drop (Z.to_nat (512 * q)) (before s c n_start n_end)) =
    default zero_sector (d ← cluster_data s c; Some (take 512 (drop (Z.to_nat (512 * q)) d))).
Proof.
  intros I Hc Hq Hout Hn Hne Hqs. pose proof (im_geo s I).
  assert (Hcb : 2 ^ cluster_bits s = 2 ^ (cluster_bits s - 9) * 512).
  { change 512 with (2 ^ 9). rewrite <- Z.pow_add_r by lia. f_equal. lia. }
  unfold before, cluster_data, fresh_data. destruct (Z.eqb_spec (entry s c) 0) as [E0|E0]; cbn [orb].
  - rewrite E0. change (compressed 0) with false. cbn [andb]. rewrite Hcb, drop_replicate, take_replicate.
    cbn [mbind option_bind default from_option id]. unfold zero_sector.
    replace (512 `min` _)%nat with 512%nat by lia. done.
  - cbn [mbind option_bind default from_option id]. destruct (compressed (entry s c)); [|done]. cbn [andb].
    rewrite (proj2 (Z.ltb_lt (n_end - n_start) _)) by lia. done.
Qed.

Lemma before_length s c n_start n_end : image_ok s -> 0 <= c < clusters s ->
  length (before s c n_start n_end) = Z.to_nat (2 ^ cluster_bits s).
Proof.
  intros I Hc. unfold before, fresh_data. repeat case_match; rewrite ?length_replicate; (done || by apply cluster_bytes_length).
Qed.

(** One round, by sectors *)
Lemma write_chunk_sectors s n k data :
  image_ok s -> 0 <= n < sectors s -> flen (qfile s) + growth s <= 2 ^ 62 ->
  let sec := 2 ^ (cluster_bits s - 9) in
  0 < k -> n mod sec + k <= sec -> Z.of_nat (length data) = k * 512 -> bytes_ok data ->
  exists s', write_chunk inflate aes n k data s = Some (true, s') /\ image_ok s' /\ same_geo s s' /\
    flen (qfile s') <= flen (qfile s) + growth s /\
    forall m, 0 <= m < sectors s ->
      sector_data s' m =
        if decide (n <= m < n + k) then Some (take 512 (drop (Z.to_nat (512 * (m - n))) data))
        else if decide (m / sec = n / sec) then beside s m else sector_data s m.
Proof.
  intros I Hn Hroom sec Hk Hfit Hlen Hb.
  destruct (write_chunk_ok s n k data I Hn Hroom Hk Hfit Hlen Hb) as (s' & E & I' & G' & L' & D').
  exists s'. split; [done|]. split; [done|]. split; [done|]. split; [done|]. intros m Hm.
  pose proof (im_geo s I) as G. assert (Hs : 0 < sec) by (apply Z.pow_pos_nonneg; lia).
  destruct (sector_cluster s m I Hm) as (Hcm & _). destruct (sector_cluster s n I Hn) as (Hcn & _). fold sec in Hcm, Hcn.
  pose proof (Z.mod_pos_bound n sec Hs). pose proof (Z.mod_pos_bound m sec Hs).
  pose proof (Z.div_mod n sec ltac:(lia)). pose proof (Z.div_mod m sec ltac:(lia)).
  unfold sector_data at 1. rewrite (sg_cb _ _ G'). fold sec. rewrite (D' _ Hcm). fold sec.
  assert (Hcb : 2 ^ cluster_bits s = sec * 512).
  { unfold sec. change 512 with (2 ^ 9). rewrite <- Z.pow_add_r by lia. f_equal. lia. }
  destruct (decide (m / sec = n / sec)) as [Ec|Ec].
  - cbn [mbind option_bind]. rewrite Ec in *.
    pose proof (before_length s (n / sec) (n mod sec) (n mod sec + k) I Hcn) as Hbl.
    case_decide as Hin.
    + f_equal. rewrite splice_sector_in by (rewrite ?Hbl, ?Hcb; lia). f_equal. f_equal. lia.
    + unfold beside. f_equal. rewrite splice_sector_out by (rewrite ?Hbl, ?Hcb; lia).
      rewrite (before_sector s (n / sec)) by (done || lia). unfold sector_data. fold sec. by rewrite Ec.
  - rewrite decide_False; [done|]. intros Hin. apply Ec. apply Z.le_antisymm; [|apply Z.div_le_mono; lia].
    apply Z.lt_succ_r, Z.div_lt_upper_bound; lia.
Qed.

(** The sectors after a write of [k] sectors [data] from [n] on: those
    written, then those of the clusters touched, which exist now *)
Definition touched (s : qstate) (n k m : Z) : Prop :=
  0 < k /\ n / 2 ^ (cluster_bits s - 9) <= m / 2 ^ (cluster_bits s - 9) <= (n + k - 1) / 2 ^ (cluster_bits s - 9).
#[global] Instance touched_dec s n k m : Decision (touched s n k m).
Proof. unfold touched. apply _. Defined.

Definition disk_write (s : qstate) (n k : Z) (data : list Z) (m : Z) : option (list Z) :=
  if decide (n <= m < n + k) then Some (take 512 (drop (Z.to_nat (512 * (m - n))) data))
  else if decide (touched s n k m) then beside s m else sector_data s m.

Lemma geo_sectors s s' : same_geo s s' -> sectors s' = sectors s.
Proof. intros G. unfold sectors. by rewrite (geo_clusters _ _ G), (sg_cb _ _ G). Qed.

Lemma sec_pos s : image_ok s -> 0 < 2 ^ (cluster_bits s - 9).
Proof. intros I. pose proof (im_geo s I). apply Z.pow_pos_nonneg; lia. Qed.

Lemma chunk_spec s n k : image_ok s -> 0 < k ->
  let j := chunk_sectors s n k in
  let sec := 2 ^ (cluster_bits s - 9) in
  0 < j <= k /\ n mod sec + j <= sec /\ (j < k -> (n + j) / sec = n / sec + 1 /\ n + j = sec * (n / sec + 1)).
Proof.
  intros I Hk j sec. pose proof (sec_pos s I) as Hs. fold sec in Hs. pose proof (im_geo s I).
  unfold j, chunk_sectors, cluster_sectors. rewrite Z.shiftl_1_l, land_ones_mod by lia. fold sec.
  pose proof (Z.mod_pos_bound n sec Hs). pose proof (Z.div_mod n sec ltac:(lia)).
  split; [lia|]. split; [lia|]. intros Hj. rewrite Z.min_l by lia.
  replace (n + (sec - n mod sec)) with ((n / sec + 1) * sec) by lia. rewrite Z.div_mul by lia. lia.
Qed.

Lemma touched_rest s s1 n k m : image_ok s -> same_geo s s1 -> 0 <= n -> 0 < k ->
  let j := chunk_sectors s n k in
  let sec := 2 ^ (cluster_bits s - 9) in
  (m / sec = n / sec -> touched s n k m) /\
  (touched s1 (n + j) (k - j) m -> touched s n k m /\ n + j <= m /\ n / sec < m / sec) /\
  (touched s n k m -> m / sec = n / sec \/ touched s1 (n + j) (k - j) m).
Proof.
  intros I G Hn Hk j sec. unfold touched. rewrite (sg_cb _ _ G). fold sec.
  destruct (chunk_spec s n k I Hk) as (J1 & J2 & J3). fold j sec in J1, J2, J3.
  pose proof (sec_pos s I) as Hs. fold sec in Hs. replace (n + j + (k - j) - 1) with (n + k - 1) by lia.
  pose proof (Z.mod_pos_bound n sec Hs). pose proof (Z.div_mod n sec ltac:(lia)).
  pose proof (Z.mod_pos_bound m sec Hs). pose proof (Z.div_mod m sec ltac:(lia)).
  assert (Hlast : n / sec <= (n + k - 1) / sec) by (apply Z.div_le_mono; lia).
  split; [lia|]. split.
  - intros (T1 & T2 & T3). destruct J3 as [J3 J4]; [lia|]. rewrite J3 in T2.
    assert (sec * (n / sec + 1) <= sec * (m / sec)) by (apply Z.mul_le_mono_nonneg_l; lia). lia.
  - intros (_ & T2 & T3). destruct (decide (m / sec = n / sec)) as [|Ec]; [by left|right].
    destruct (decide (j < k)) as [Hj|Hj]; [destruct J3 as [-> _]; lia|].
    assert ((n + k - 1) / sec <= n / sec); [|lia].
    apply Z.lt_succ_r, Z.div_lt_upper_bound; lia.
Qed.

(** Writing the first round and then the rest is writing all of it. *)
Lemma disk_write_step s s1 n j k buf m :
  image_ok s -> same_geo s s1 -> 0 <= n -> 0 < k -> j = chunk_sectors s n k ->
  (forall m, 0 <= m < sectors s -> sector_data s1 m =
    if decide (n <= m < n + j) then Some (take 512 (drop (Z.to_nat (512 * (m - n))) (take (Z.to_nat (j * 512)) buf)))
    else if decide (m / 2 ^ (cluster_bits s - 9) = n / 2 ^ (cluster_bits s - 9)) then beside s m else sector_data s m) ->
  0 <= m < sectors s ->
  disk_write s1 (n + j) (k - j) (drop (Z.to_nat (j * 512)) buf) m = disk_write s n k buf m.
Proof.
  intros I G Hn Hk -> D Hm. set (j := chunk_sectors s n k) in *. specialize (D m Hm). unfold disk_write, beside.
  destruct (chunk_spec s n k I Hk) as (J1 & J2 & J3). fold j in J1, J2, J3. pose proof (sec_pos s I) as Hs.
  pose proof (touched_rest s s1 n k m I G Hn Hk) as T. fold j in T. cbv zeta in T.
  set (sec := 2 ^ (cluster_bits s - 9)) in *. destruct T as (T0 & T1 & T2).
  destruct (decide (n <= m < n + j)) as [Hin|Hin].
  - rewrite (decide_False (P := n + j <= m < n + j + (k - j))) by lia.
    rewrite (decide_True (P := n <= m < n + k)) by lia. rewrite decide_False.
    + rewrite D. f_equal. apply list_eq. intros i. rewrite !take_drop_lookup. case_decide; [|done].
      by rewrite lookup_take_lt by lia.
    + intros Ht. destruct (T1 Ht) as [_ ?]. lia.
  - destruct (decide (n + j <= m < n + j + (k - j))) as [Hin2|Hin2].
    + rewrite decide_True by lia. f_equal. rewrite drop_drop. do 2 f_equal. lia.
    + rewrite (decide_False (P := n <= m < n + k)) by lia. rewrite D.
      destruct (decide (touched s1 (n + j) (k - j) m)) as [Ht|Ht].
      * destruct (T1 Ht) as [T3 T4]. rewrite (decide_True (P := touched s n k m)) by tauto.
        by rewrite decide_False by (intros E; lia).
      * destruct (decide (m / sec = n / sec)) as [Ec|Ec].
        -- by rewrite decide_True by tauto.
        -- rewrite decide_False; [done|]. intros Ht'. destruct (T2 Ht'); tauto.
Qed.

Lemma sectors_bound s : image_ok s -> sectors s * 512 <= 2 ^ 63.
Proof.
  intros I. pose proof (im_geo s I) as (G1 & G2 & G3 & G4). unfold sectors, clusters.
  rewrite Z.add_comm, Z.pow_add_r in G4 by lia.
  assert (Hcb : 2 ^ cluster_bits s = 2 ^ (cluster_bits s - 9) * 512).
  { change 512 with (2 ^ 9). rewrite <- Z.pow_add_r by lia. f_equal. lia. }
  rewrite Hcb in G4. lia.
Qed.

Lemma coffset_bound s e : image_ok s -> 0 <= coffset s e < 2 ^ 63.
Proof.
  intros I. pose proof (im_geo s I). unfold coffset, cluster_offset_mask. rewrite Z.shiftl_1_l.
  pose proof (land_ones_range e (63 - cluster_bits s) ltac:(lia)).
  assert (2 ^ (63 - cluster_bits s) <= 2 ^ 63) by (apply Z.pow_le_mono_r; lia). lia.
Qed.

Lemma write_done s n : image_ok s ->
  let s' := set_cluster_cache (cluster_cache s) (u64 (-1)) (set_seek_sector n s) in
  image_ok s' /\ same_image s s'.
Proof.
  intros I s'. assert (S : same_image s s') by done. split; [|done].
  apply (same_image_ok s s' I S); [by destruct (im_cache s I)| |apply I].
  intros c _ _ Ho. pose proof (coffset_bound s (entry s c) I).
  change (2 ^ 64 - 1 = coffset s (entry s c)) in Ho. lia.
Qed.

Lemma write_loop_ok : forall fuel k n w buf s,
  image_ok s -> 0 <= n -> 0 <= k -> n + k <= sectors s -> (Z.to_nat k < fuel)%nat ->
  flen (qfile s) + k * growth s <= 2 ^ 62 -> Z.of_nat (length buf) = k * 512 -> bytes_ok buf ->
  exists s', write_loop inflate aes fuel k n w buf s = Some (w + k * 512, s') /\ image_ok s' /\ same_geo s s' /\
    seek_sector s' = n + k /\ forall m, 0 <= m < sectors s -> sector_data s' m = disk_write s n k buf m.
Proof.
  induction fuel as [|fuel IH]; intros k n w buf s I Hn Hk Hr Hf Hroom Hlen Hb; [lia|]. cbn [write_loop].
  destruct (Z.leb_spec k 0) as [Hk0|Hk0].
  - assert (k = 0) as -> by lia. destruct (write_done s n I) as [I' S'].
    eexists. split; [rewrite Z.add_0_r; reflexivity|]. split; [exact I'|]. split; [done|]. split; [cbn; lia|].
    intros m Hm. unfold disk_write, touched. rewrite !decide_False by lia.
    unfold sector_data. rewrite (same_cluster _ _ _ S'). done.
  - set (j := chunk_sectors s n k). destruct (chunk_spec s n k I Hk0) as (J1 & J2 & J3). fold j in J1, J2, J3.
    pose proof (sectors_bound s I). assert (Hg : 0 <= growth s).
    { unfold growth. pose proof (l2_size_eq s I) as [_ Hp]. pose proof (Z.pow_nonneg 2 (cluster_bits s)). lia. }
    destruct (write_chunk_sectors s n j (take (Z.to_nat (j * 512)) buf) I) as (s1 & E1 & I1 & G1 & L1 & D1);
      [lia|nia|lia|lia|rewrite length_take; lia|by apply Forall_take|].
    rewrite E1. cbn [mbind option_bind negb]. unfold u64. rewrite Z.mod_small by lia.
    assert (Hgr : growth s1 = growth s) by (unfold growth; by rewrite (sg_cb _ _ G1), (sg_lb _ _ G1)).
    destruct (IH (k - j) (n + j) (w + j * 512) (drop (Z.to_nat (j * 512)) buf) s1) as (s' & E & I' & G' & Hsk & D');
      try done; try lia; [rewrite (geo_sectors _ _ G1); lia|rewrite Hgr; nia|rewrite length_drop; lia|by apply Forall_drop|].
    exists s'. rewrite E. split; [do 2 f_equal; lia|]. split; [done|]. split; [by apply (same_geo_trans _ s1)|].
    split; [lia|]. intros m Hm. rewrite D' by (by rewrite (geo_sectors _ _ G1)).
    by apply (disk_write_step s s1 n j k buf m I G1).
Qed.

(** ** Reading *)

Context (fds : Z -> option (list Z)).

Lemma read_chunk_data s n k d :
  image_ok s -> 0 <= n < sectors s ->
  let sec := 2 ^ (cluster_bits s - 9) in
  0 < k -> n mod sec + k <= sec -> cluster_data s (n / sec) = Some d ->
  exists s', read_chunk inflate aes fds n k s
      = Some (Some (take (Z.to_nat (512 * k)) (drop (Z.to_nat (512 * (n mod sec))) d)), s') /\
    image_ok s' /\ same_image s s'.
Proof.
  intros I Hn sec Hk Hfit Hd. pose proof (im_geo s I) as G. pose proof (sec_pos s I) as Hs. fold sec in Hs.
  destruct (sector_cluster s n I Hn) as (Hc & _). fold sec in Hc. pose proof (Z.mod_pos_bound n sec Hs) as Hidx.
  assert (Hcb : 2 ^ cluster_bits s = sec * 512).
  { unfold sec. change 512 with (2 ^ 9). rewrite <- Z.pow_add_r by lia. f_equal. lia. }
  unfold read_chunk. destruct (gco_read s n I Hn) as (s1 & E1 & I1 & S1). fold sec in E1. rewrite E1.
  cbn [mbind option_bind]. unfold cluster_sectors. rewrite (sm_cb _ _ S1), Z.shiftl_1_l, land_ones_mod by lia. fold sec.
  unfold cluster_data in Hd. destruct (Z.eqb_spec (entry s (n / sec)) 0) as [E0|E0]; [done|]. injection Hd as <-.
  assert (Hc1 : 0 <= n / sec < clusters s1) by (by rewrite (same_clusters _ _ S1)).
  destruct (compressed (entry s (n / sec))) eqn:Hco.
  - pose proof (decompress_ok s1 (n / sec) I1 Hc1) as X. rewrite (same_entry _ _ _ S1) in X.
    destruct (X Hco) as (s2 & E2 & I2 & S2 & Hcc & _). rewrite E2. change (0 <? 0) with false. cbv iota.
    exists s2. split; [|split; [done|by apply (same_trans _ s1)]]. rewrite Hcc. do 3 f_equal.
    pose proof (same_cluster s s1 (n / sec) S1) as Q. unfold cluster_data in Q.
    rewrite (same_entry _ _ _ S1), (proj2 (Z.eqb_neq _ _)) in Q by done. injection Q as ->.
    do 2 f_equal. lia.
  - assert (X : extent s (RC (n / sec)) = Some (entry s (n / sec), 2 ^ cluster_bits s)).
    { cbn. rewrite decide_True by done. by rewrite (proj2 (Z.eqb_neq _ _)), Hco. }
    destruct (im_bounds s I _ _ _ X) as [B1 B2]. pose proof (im_size s I).
    set (a := entry s (n / sec) + n mod sec * 512).
    rewrite (on_file_eq _ _ _ _ (lseek_set_eq (s64 a) _ ltac:(rewrite s64_id; lia))). cbv iota beta.
    rewrite s64_id by lia.
    erewrite on_file_eq by (apply fread_eq; cbn; rewrite ?(sm_len _ _ S1); lia). cbv iota beta.
    rewrite seg_length, Z2Nat.id, Z.eqb_refl by lia. cbn [negb].
    change (crypt_method (set_qfile _ _)) with (crypt_method s1). rewrite (im_crypt s1 I1). change (0 =? 0) with true.
    cbn [negb]. eexists. split; [|split].
    + do 3 f_equal. unfold cluster_bytes. rewrite Hco, drop_seg, take_seg by lia.
      transitivity (seg (qfile s1) a (Z.to_nat (k * 512))); [done|]. rewrite (same_seg _ _ _ _ S1).
      unfold a. f_equal; lia.
    + apply (same_image_ok s1); try apply I1.
      * split; try done. intros Hf. by apply set_fpos_ok, set_fpos_ok.
      * by destruct (im_cache s1 I1).
    + apply (same_trans _ s1); [done|]. split; try done. intros Hf. by apply set_fpos_ok, set_fpos_ok.
Qed.

Lemma read_chunk_none s n k :
  image_ok s -> 0 <= n < sectors s -> cluster_data s (n / 2 ^ (cluster_bits s - 9)) = None ->
  backing_hd s <> 0 -> fds (backing_hd s) = None ->
  exists s', read_chunk inflate aes fds n k s = Some (None, s') /\ image_ok s' /\ same_image s s'.
Proof.
  intros I Hn Hd Hh Hf. unfold read_chunk. destruct (gco_read s n I Hn) as (s1 & E1 & I1 & S1). rewrite E1.
  cbn [mbind option_bind]. unfold cluster_data in Hd.
  destruct (entry s _ =? 0); [|done]. rewrite (sm_hd _ _ S1), (proj2 (Z.eqb_neq _ _)) by done. cbn [negb].
  unfold pread. rewrite Hf. by exists s1.
Qed.

(** The sectors from [n] on that [data] consists of *)
Definition holds (s : qstate) (n k : Z) (data : list Z) : Prop :=
  Z.of_nat (length data) = k * 512 /\
  forall m, n <= m < n + k -> sector_data s m = Some (take 512 (drop (Z.to_nat (512 * (m - n))) data)).

Lemma sector_present s m : sector_data s m <> None ->
  exists d, cluster_data s (m / 2 ^ (cluster_bits s - 9)) = Some d /\
    sector_data s m = Some (take 512 (drop (Z.to_nat (512 * (m mod 2 ^ (cluster_bits s - 9)))) d)).
Proof. unfold sector_data. destruct (cluster_data _ _) as [d|]; [|done]. intros _. by exists d. Qed.

Lemma sector_absent s m : sector_data s m = None -> cluster_data s (m / 2 ^ (cluster_bits s - 9)) = None.
Proof. unfold sector_data. by destruct (cluster_data _ _). Qed.

Lemma same_sector s s' m : same_image s s' -> sector_data s' m = sector_data s m.
Proof. intros S. unfold sector_data. by rewrite (sm_cb _ _ S), (same_cluster _ _ _ S). Qed.

Lemma chunk_cluster s n k m : image_ok s -> 0 <= n -> 0 < k -> n <= m < n + chunk_sectors s n k ->
  let sec := 2 ^ (cluster_bits s - 9) in
  m / sec = n / sec /\ m mod sec = n mod sec + (m - n).
Proof.
  intros I Hn Hk Hm sec. destruct (chunk_spec s n k I Hk) as (J1 & J2 & _). fold sec in J2.
  pose proof (sec_pos s I) as Hs. fold sec in Hs.
  pose proof (Z.mod_pos_bound n sec Hs). pose proof (Z.div_mod n sec ltac:(lia)).
  assert (E : m = sec * (n / sec) + (n mod sec + (m - n))) by lia.
  split; [symmetry; by apply (Z.div_unique m sec (n / sec) (n mod sec + (m - n))); [lia|]|].
  symmetry; by apply (Z.mod_unique m sec (n / sec) (n mod sec + (m - n))); [lia|].
Qed.

(** What is stored from [pos] on when [data] was put there first and the rest
    behind it *)
Lemma read_loop_ok : forall fuel k n pos buf s,
  image_ok s -> 0 <= n -> 0 <= k -> n + k <= sectors s -> (Z.to_nat k < fuel)%nat ->
  Z.of_nat (length buf) = Z.of_nat pos + k * 512 -> backing_hd s <> 0 -> fds (backing_hd s) = None ->
  exists r buf' s', read_loop inflate aes fds fuel k n pos buf s = Some (r, buf', s') /\
    image_ok s' /\ same_image s s' /\ length buf' = length buf /\ take pos buf' = take pos buf /\
    ((forall m, n <= m < n + k -> sector_data s m <> None) ->
       r = Z.of_nat pos + k * 512 /\ seek_sector s' = n + k /\ holds s n k (drop pos buf')) /\
    (~ (forall m, n <= m < n + k -> sector_data s m <> None) -> r = -1).
Proof.
  induction fuel as [|fuel IH]; intros k n pos buf s I Hn Hk Hr Hf Hlen Hh Hfd; [lia|]. cbn [read_loop].
  destruct (Z.leb_spec k 0) as [Hk0|Hk0].
  - exists (Z.of_nat pos), buf, (set_seek_sector n s). split; [done|].
    assert (S : same_image s (set_seek_sector n s)) by done.
    split; [by apply (same_image_ok s _ I S); [destruct (im_cache s I)|apply I|apply I]|].
    split; [done|]. split; [done|]. split; [done|]. split.
    + intros _. split; [lia|]. split; [cbn; lia|]. split; [rewrite length_drop; lia|lia].
    + intros Hx. exfalso. apply Hx. lia.
  - set (j := chunk_sectors s n k). destruct (chunk_spec s n k I Hk0) as (J1 & J2 & _). fold j in J1, J2.
    destruct (cluster_data s (n / 2 ^ (cluster_bits s - 9))) as [d|] eqn:Hd.
    2: { destruct (read_chunk_none s n j I ltac:(lia) Hd Hh Hfd) as (s1 & E1 & I1 & S1). rewrite E1.
         exists (-1), buf, s1. cbn [mbind option_bind]. split; [done|]. split; [done|]. split; [done|].
         split; [done|]. split; [done|]. split; [|done]. intros Hx. exfalso. apply (Hx n); [lia|].
         unfold sector_data. by rewrite Hd. }
    destruct (read_chunk_data s n j d I ltac:(lia) ltac:(lia) J2 Hd) as (s1 & E1 & I1 & S1). rewrite E1.
    cbn [mbind option_bind]. set (data := take _ (drop _ d)).
    pose proof (sec_pos s I) as Hs. set (sec := 2 ^ (cluster_bits s - 9)) in *.
    pose proof (Z.mod_pos_bound n sec Hs) as Hidx.
    destruct (sector_cluster s n I ltac:(lia)) as (Hc & _). fold sec in Hc.
    assert (Hld : length d = Z.to_nat (sec * 512)).
    { unfold cluster_data in Hd. destruct (_ =? 0); [done|]. injection Hd as <-.
      rewrite cluster_bytes_length by done. f_equal. unfold sec. change 512 with (2 ^ 9).
      rewrite <- Z.pow_add_r by (pose proof (im_geo s I); lia). f_equal. lia. }
    assert (Hdl : length data = Z.to_nat (j * 512)) by (unfold data; rewrite length_take, length_drop; lia).
    assert (Hsl : length (splice pos data buf) = length buf) by (apply splice_length; lia).
    pose proof (sectors_bound s I). unfold u64. rewrite Z.mod_small by lia.
    destruct (IH (k - j) (n + j) (pos + Z.to_nat (j * 512))%nat (splice pos data buf) s1) as
      (r & buf' & s' & E & I' & S' & L' & T' & R1 & R2); try done; try lia;
      [unfold sectors; rewrite (same_clusters _ _ S1), (sm_cb _ _ S1); fold (sectors s); lia
      |by rewrite (sm_hd _ _ S1)|by rewrite (sm_hd _ _ S1)|].
    rewrite E. exists r, buf', s'. split; [done|]. split; [done|]. split; [by apply (same_trans _ s1)|].
    split; [lia|].
    assert (Hpre : forall i, (i < pos + Z.to_nat (j * 512))%nat -> buf' !! i = splice pos data buf !! i).
    { intros i Hi. rewrite <- (lookup_take_lt buf' (pos + Z.to_nat (j * 512))), T', lookup_take_lt by done. done. }
    split.
    { apply list_eq. intros i. destruct (decide (i < pos)%nat) as [Hi|Hi].
      - rewrite !lookup_take_lt, Hpre by lia. rewrite splice_lookup, decide_False by lia. done.
      - rewrite !lookup_take_ge by lia. done. }
    split.
    + intros Hx. destruct R1 as (-> & Hsk & Hl & Hh'); [intros m Hm; rewrite (same_sector _ _ _ S1); apply Hx; lia|].
      split; [lia|]. split; [lia|]. split; [rewrite length_drop; lia|]. intros m Hm.
      destruct (decide (m < n + j)) as [Hmj|Hmj].
      * destruct (chunk_cluster s n k m I Hn Hk0) as [C1 C2]; [fold j; lia|]. fold sec in C1, C2.
        unfold sector_data. fold sec. rewrite C1, Hd, C2. cbn [mbind option_bind]. f_equal.
        apply list_eq. intros i. rewrite !take_drop_lookup. case_decide as Hi; [|done].
        rewrite lookup_drop, Hpre, splice_lookup, decide_True by lia.
        unfold data. rewrite lookup_take_lt, lookup_drop by lia. f_equal. lia.
      * specialize (Hh' m ltac:(lia)). rewrite (same_sector _ _ _ S1) in Hh'. rewrite Hh'. f_equal.
        rewrite !drop_drop. do 2 f_equal. lia.
    + intros Hx. apply R2. intros Hy. apply Hx. intros m Hm. destruct (decide (m < n + j)) as [Hmj|Hmj].
      * destruct (chunk_cluster s n k m I Hn Hk0) as [C1 C2]; [fold j; lia|]. fold sec in C1.
        unfold sector_data. fold sec. by rewrite C1, Hd.
      * rewrite <- (same_sector _ _ _ S1). apply Hy. lia.
Qed.

End Inv.

End QcowInv.
