(* ===== verification/QcowDisk.v ===== *)
(** * Disk images: what reading and writing mean

    The theorems about [qcow_write], [qcow_read] and [qcow_open] on an image
    without a backing file. *)

From S2P Require Import Prelude FileIO Qcow QcowInv.

Module QcowDisk.
Import FileIO Qcow QcowInv.

(** ** Opening *)

(** The header in the file describes the image. *)
Record header_ok (s : qstate) : Prop := {
  hd_fields : let h := parse_header (seg (qfile s) 0 48) in
    h_magic h = QCOW_MAGIC /\ h_version h = QCOW_VERSION /\ 1 < h_size h /\ h_crypt_method h <= QCOW_CRYPT_AES /\
    h_backing_offset h = 0 /\
    h_cluster_bits h = cluster_bits s /\ h_l2_bits h = l2_bits s /\ h_l1_offset h = l1_table_offset s;
  hd_l1 : let h := parse_header (seg (qfile s) 0 48) in
    let shift := cluster_bits s + l2_bits s in
    s32 (u64 (h_size h + (1 .<< shift) - 1) .>> shift) = Z.of_nat (length (l1_table s))
}.

Lemma header_geo s s' : header_ok s -> same_geo s s' -> header_ok s'.
Proof.
  intros [H1 H2] [G1 G2 G3 G4 G5 G6]. split; rewrite G6, G1, G2, ?G3, ?G4; done.
Qed.

Section Disk.
Context (inflate : list Z -> nat -> option (bool * list Z)).
Context (aes : bool -> list Z -> list Z -> list Z).
Context (fds : Z -> option (list Z)) (disk_open : list Z -> Z).

(** zlib produces bytes. *)
Hypothesis Hinf : forall l n ok d, inflate l n = Some (ok, d) -> bytes_ok d.

(** What [qcow_open] makes of the file of an image *)
Definition reopened (s : qstate) (f : file) (flags : Z) : qstate :=
  Qs f (cluster_bits s) (l2_bits s) (l1_table_offset s) (l1_table s)
    (replicate QCOW_L2_CACHE_SIZE (replicate (Z.to_nat (8 * (1 .<< l2_bits s))) 0))
    (replicate QCOW_L2_CACHE_SIZE 0) (replicate QCOW_L2_CACHE_SIZE 0)
    (replicate (Z.to_nat (1 .<< cluster_bits s)) 0) 0 0 (h_crypt_method (parse_header (seg (qfile s) 0 48))) 0 (-1)
    (h_size (parse_header (seg (qfile s) 0 48))) flags.

Lemma l1_decode s : image_ok inflate s ->
  map (fun i => be64_at i (seg (qfile s) (l1_table_offset s) (Z.to_nat (Z.of_nat (length (l1_table s)) * 8))))
    (seq 0 (Z.to_nat (Z.of_nat (length (l1_table s))))) = l1_table s.
Proof.
  intros I. rewrite Nat2Z.id. apply list_eq. intros i.
  destruct (decide (i < length (l1_table s))%nat) as [Hi|Hi].
  - destruct (lookup_lt_is_Some_2 (l1_table s) i Hi) as [o Ho]. rewrite Ho, list_lookup_fmap, lookup_seq_lt by done.
    cbn [fmap option_fmap option_map]. f_equal. rewrite <- (im_l1 _ s I i o Ho).
    rewrite <- (Nat2Z.id (0 + i)). apply be64_at_seg; lia.
  - rewrite !lookup_ge_None_2; [done|lia|]. rewrite length_map, length_seq. lia.
Qed.

Lemma reopened_ok s f flags :
  image_ok inflate s -> backing_hd s = -1 -> (forall x, fbyte f x = fbyte (qfile s) x) -> flen f = flen (qfile s) ->
  file_ok f -> image_ok inflate (reopened s f flags) /\ same_image s (reopened s f flags).
Proof.
  intros I Hb Hf Hl Hok.
  assert (S : same_image s (reopened s f flags)) by (split; try done; by rewrite ?(im_crypt _ s I), ?Hb).
  split; [|done]. apply (same_image_ok inflate s _ I S).
  - split; cbn [reopened l2_cache l2_cache_offsets l2_cache_counts l2_bits]; rewrite ?Z.shiftl_1_l.
    + by rewrite !length_replicate.
    + intros i t [-> _]%lookup_replicate. apply length_replicate.
    + by intros i o [-> _]%lookup_replicate.
    + by intros i j o [-> _]%lookup_replicate.
  - intros c Hc Hco Ho. exfalso. cbn in Ho.
    pose proof (compressed_extent inflate s c I Hc Hco) as X. destruct (im_comp _ s I c Hc Hco) as (d & D & _).
    assert (RHead = RC c); [|done]. apply (im_disj _ s I _ _ 0); [exists 0, 48|eexists _, _]; (split; [done|lia]).
  - cbn. by rewrite length_replicate, Z.shiftl_1_l.
Qed.

Lemma open_ok s flags :
  image_ok inflate s -> header_ok s -> backing_hd s = -1 ->
  exists f flags', qcow_open disk_open flags (qfile s) = Some (reopened s f flags') /\
    image_ok inflate (reopened s f flags') /\ same_image s (reopened s f flags').
Proof.
  intros I [H1 H2] Hb. cbv zeta in H1, H2. destruct (im_bounds _ s I RHead 0 48 eq_refl) as [_ H48].
  destruct (im_bounds _ s I RL1 _ _ eq_refl) as [B1 B2]. pose proof (im_size _ s I). pose proof (im_geo _ s I) as G.
  unfold qcow_open. rewrite lseek_set_eq by lia. rewrite fread_eq by (cbn; lia). cbv iota beta.
  change (seg (set_fpos 0 (qfile s)) _ (Z.to_nat 48)) with (seg (qfile s) 0 48).
  rewrite seg_length. change (Z.of_nat 48 =? 48) with true. cbn [negb].
  set (h := parse_header (seg (qfile s) 0 48)) in *. destruct H1 as (M1 & M2 & M3 & M4 & M5 & M6 & M7 & M8).
  rewrite M1, M2, M5, M6, M7, M8, H2, !Z.eqb_refl. cbn [negb orb].
  rewrite (proj2 (Z.leb_gt _ _)), (proj2 (Z.ltb_ge _ 9)), (proj2 (Z.ltb_ge _ _)) by lia. cbn [orb].
  rewrite s64_id by lia. rewrite lseek_set_eq by lia. rewrite fread_eq by (cbn; lia). cbv iota beta.
  rewrite seg_length, Z2Nat.id, Z.eqb_refl by lia. cbn [negb].
  change (map _ _) with (map (fun i => be64_at i (seg (qfile s) (l1_table_offset s)
    (Z.to_nat (Z.of_nat (length (l1_table s)) * 8)))) (seq 0 (Z.to_nat (Z.of_nat (length (l1_table s)))))).
  rewrite (l1_decode s I). eexists _, _. split; [reflexivity|].
  apply reopened_ok; try done. apply set_fpos_ok, set_fpos_ok, set_fpos_ok, set_fpos_ok, I.
Qed.

(** Buffers of [k] equal sectors *)
Lemma same_sectors k (a b : list Z) :
  Z.of_nat (length a) = k * 512 -> Z.of_nat (length b) = k * 512 ->
  (forall j, 0 <= j < k -> take 512 (drop (Z.to_nat (512 * j)) b) = take 512 (drop (Z.to_nat (512 * j)) a)) -> a = b.
Proof.
  intros Ha Hb H. apply list_eq. intros i.
  destruct (decide (i < length a)%nat) as [Hi|Hi]; [|rewrite !lookup_ge_None_2 by lia; done].
  pose proof (Nat.div_mod i 512 ltac:(lia)) as Hdm. pose proof (Nat.mod_upper_bound i 512 ltac:(lia)).
  specialize (H (Z.of_nat (i / 512)) ltac:(lia)). apply (f_equal (lookup (i mod 512)%nat)) in H.
  rewrite !take_drop_lookup, !decide_True in H by done.
  replace (Z.to_nat (512 * Z.of_nat (i / 512)) + i mod 512)%nat with i in H by lia. done.
Qed.

(** ** Theorems *)

Lemma seek_ok s n : image_ok inflate s -> image_ok inflate (qcow_seek n 0 s) /\ same_image s (qcow_seek n 0 s).
Proof.
  intros I. assert (S : same_image s (qcow_seek n 0 s)) by done. split; [|done].
  apply (same_image_ok inflate s _ I S); [by destruct (im_cache _ s I)|apply I|apply I].
Qed.

Lemma seek_sector_eq s n : image_ok inflate s -> 0 <= n <= sectors s -> seek_sector (qcow_seek n 0 s) = n.
Proof.
  intros I Hn. pose proof (sectors_bound inflate s I). cbn. unfold u64. rewrite Z.mod_small; lia.
Qed.

Lemma nb_sectors_mult k : nb_sectors_of (k * 512) = k.
Proof. unfold nb_sectors_of. apply Z.div_mul. lia. Qed.

(** C24: Writing implements a disk of sectors.  On a well formed image with
    room to grow, seeking to sector [n] and writing [k] sectors succeeds and
    keeps the image well formed, and every sector of the virtual disk is then
    the one written, or the old one; sectors not allocated before that share
    a cluster with those written exist now and hold zeros. *)
Theorem qcow_write_correct s n k buf :
  image_ok inflate s -> 0 <= n -> 0 <= k -> n + k <= sectors s ->
  flen (qfile s) + k * growth s <= 2 ^ 62 -> Z.of_nat (length buf) = k * 512 -> bytes_ok buf ->
  exists s', qcow_write inflate aes buf (k * 512) (qcow_seek n 0 s) = Some (k * 512, s') /\
    image_ok inflate s' /\
    forall m, 0 <= m < sectors s -> sector_data inflate s' m = disk_write inflate s n k buf m.
Proof.
  intros I Hn Hk Hr Hroom Hlen Hb. destruct (seek_ok s n I) as [I0 S0].
  unfold qcow_write. rewrite nb_sectors_mult, seek_sector_eq by (done || lia).
  destruct (write_loop_ok inflate aes Hinf (S (Z.to_nat k)) k n 0 buf (qcow_seek n 0 s)) as
    (s' & E & I' & _ & _ & D'); try done; [lia|].
  exists s'. split; [exact E|]. split; [done|]. exact D'.
Qed.

(** C26: Reading [k] sectors from sector [n] of an image without a backing
    file: if all of them are allocated the buffer receives their contents and
    the number of bytes is returned; otherwise the read fails with -1, since
    the test for a backing file takes the descriptor -1 for one.  The disk is
    not changed. *)
Theorem qcow_read_correct s n k buf :
  image_ok inflate s -> 0 <= n -> 0 <= k -> n + k <= sectors s -> Z.of_nat (length buf) = k * 512 ->
  backing_hd s = -1 -> fds (-1) = None ->
  exists r buf' s', qcow_read inflate aes fds buf (k * 512) (qcow_seek n 0 s) = Some (r, buf', s') /\
    image_ok inflate s' /\ (forall m, sector_data inflate s' m = sector_data inflate s m) /\
    ((forall m, n <= m < n + k -> sector_data inflate s m <> None) -> r = k * 512 /\ holds inflate s n k buf') /\
    (~ (forall m, n <= m < n + k -> sector_data inflate s m <> None) -> r = -1).
Proof.
  intros I Hn Hk Hr Hlen Hb Hfd. destruct (seek_ok s n I) as [I0 S0].
  unfold qcow_read. rewrite nb_sectors_mult, seek_sector_eq by (done || lia).
  destruct (read_loop_ok inflate aes fds (S (Z.to_nat k)) k n 0 buf (qcow_seek n 0 s)) as
    (r & buf' & s' & E & I' & S' & _ & _ & R1 & R2); try done;
    [lia|by change (backing_hd s <> 0); rewrite Hb|change (fds (backing_hd s) = None); by rewrite Hb|].
  exists r, buf', s'. split; [exact E|]. split; [done|]. split; [|split; [|exact R2]].
  - intros m. rewrite (same_sector inflate _ _ m S'). by apply same_sector.
  - intros Hx. destruct (R1 Hx) as (-> & _ & Hh). split; [lia|exact Hh].
Qed.

(** C25: What was written is in the file.  After sectors have been written to
    an image without a backing file, opening the file anew succeeds, and
    reading the same sectors of the reopened image returns the data. *)
Theorem qcow_reopen_roundtrip s n k buf flags :
  image_ok inflate s -> header_ok s -> backing_hd s = -1 -> fds (-1) = None ->
  0 <= n -> 0 <= k -> n + k <= sectors s ->
  flen (qfile s) + k * growth s <= 2 ^ 62 -> Z.of_nat (length buf) = k * 512 -> bytes_ok buf ->
  forall mem, length mem = length buf ->
  exists s' s0 s1, qcow_write inflate aes buf (k * 512) (qcow_seek n 0 s) = Some (k * 512, s') /\
    qcow_open disk_open flags (qfile s') = Some s0 /\
    qcow_read inflate aes fds mem (k * 512) (qcow_seek n 0 s0) = Some (k * 512, buf, s1).
Proof.
  intros I Hh Hb Hfd Hn Hk Hr Hroom Hlen Hbuf mem Hmem. destruct (seek_ok s n I) as [I0 S0].
  unfold qcow_write. rewrite nb_sectors_mult, seek_sector_eq by (done || lia).
  destruct (write_loop_ok inflate aes Hinf (S (Z.to_nat k)) k n 0 buf (qcow_seek n 0 s)) as
    (s' & E & I' & G' & _ & D'); try done; [lia|].
  exists s'. assert (G : same_geo s s') by (by destruct G'; split).
  destruct (open_ok s' flags I' (header_geo _ _ Hh G)) as (f & flags' & Eo & Io & So); [by rewrite (sg_hd _ _ G)|].
  exists (reopened s' f flags'). destruct (seek_ok _ n Io) as [I2 S2].
  assert (Hsec : sectors (reopened s' f flags') = sectors s).
  { unfold sectors. rewrite (same_clusters _ _ So), (sm_cb _ _ So). apply (geo_sectors s s' G). }
  unfold qcow_read. rewrite nb_sectors_mult, (seek_sector_eq _ n Io) by lia.
  destruct (read_loop_ok inflate aes fds (S (Z.to_nat k)) k n 0 mem (qcow_seek n 0 (reopened s' f flags'))) as
    (r & buf' & s1 & Er & _ & _ & Lb & _ & R1 & _); try done; try lia;
    [by change (sectors (qcow_seek n 0 (reopened s' f flags'))) with (sectors (reopened s' f flags')); rewrite Hsec|].
  assert (Hd : forall m, n <= m < n + k -> sector_data inflate (qcow_seek n 0 (reopened s' f flags')) m =
    Some (take 512 (drop (Z.to_nat (512 * (m - n))) buf))).
  { intros m Hm. rewrite (same_sector inflate _ _ m S2), (same_sector inflate _ _ m So), D'
      by (change (0 <= m < sectors s); lia).
    unfold disk_write. by rewrite decide_True by lia. }
  destruct R1 as (-> & _ & Hl & Hd'); [intros m Hm; by rewrite Hd|]. cbn [drop] in Hl, Hd'.
  exists s1. split; [exact E|]. split; [exact Eo|]. rewrite Er. do 3 f_equal.
  apply (same_sectors k); [done|lia|]. intros j Hj. specialize (Hd' (n + j) ltac:(lia)).
  rewrite Hd in Hd' by lia. apply (inj Some) in Hd'. replace (n + j - n) with j in Hd' by lia. done.
Qed.

End Disk.

(** ** An empty image of four clusters of two sectors *)

Definition ex_header : list Z :=
  [0x51; 0x46; 0x49; 0xfb; 0; 0; 0; 1] ++ replicate 8 0 ++ replicate 8 0 ++ [0; 0; 0; 0; 0; 0; 16; 0] ++
  [10; 2; 0; 0; 0; 0; 0; 0] ++ [0; 0; 0; 0; 0; 0; 0; 48] ++ replicate 8 0.
Definition ex_image : qstate :=
  Qs (File (put_bytes ∅ 0 ex_header) 56 0 []) 10 2 48 [0] (replicate 16 (replicate 32 0)) (replicate 16 0)
    (replicate 16 0) (replicate 1024 0) 0 0 0 0 (-1) 4096 0.
Definition no_inflate (l : list Z) (n : nat) : option (bool * list Z) := None.
Definition no_aes (e : bool) (iv l : list Z) : list Z := l.
Definition no_files (fd : Z) : option (list Z) := None.

Lemma ex_entry c : entry ex_image c = 0.
Proof. unfold entry. cbn [ex_image l1_table]. by destruct (Z.to_nat _) as [|[|i]]. Qed.

Lemma ex_extent r a n : extent ex_image r = Some (a, n) -> r = RHead /\ a = 0 /\ n = 48 \/ r = RL1 /\ a = 48 /\ n = 8.
Proof.
  destruct r as [| |i|c]; cbn [extent].
  - intros [= <- <-]. by left.
  - intros [= <- <-]. by right.
  - by destruct i as [|[|i]].
  - rewrite ex_entry. by case_decide.
Qed.

Lemma ex_ok : image_ok no_inflate ex_image.
Proof.
  split.
  - by vm_compute.
  - split; [|done|done]. cbn [ex_image qfile fdat flen]. intros x b. rewrite put_bytes_lookup.
    case_decide as Hx; [|by rewrite lookup_empty]. change (Z.of_nat (length ex_header)) with 56 in Hx.
    intros Hb. split; [lia|]. apply (proj1 (Forall_lookup (fun b => 0 <= b < 256) ex_header)) in Hb; [done|].
    apply (bool_decide_unpack _). by vm_compute.
  - intros [|[|i]] o; [intros [= <-]; by vm_compute|done|done].
  - intros r a n [(_ & -> & ->)|(_ & -> & ->)]%ex_extent; cbn; lia.
  - intros r r' x (a & n & E & Hx) (a' & n' & E' & Hx').
    apply ex_extent in E, E'. destruct E as [(-> & -> & ->)|(-> & -> & ->)], E' as [(-> & -> & ->)|(-> & -> & ->)];
      (done || lia).
  - intros c _. by rewrite ex_entry.
  - split; try done.
    + intros i t [-> _]%lookup_replicate. done.
    + by intros i o [-> _]%lookup_replicate.
    + by intros i j o [-> _]%lookup_replicate.
  - intros c _. by rewrite ex_entry.
  - done.
  - done.
  - by vm_compute.
Qed.

Lemma ex_inflate l n ok d : no_inflate l n = Some (ok, d) -> bytes_ok d.
Proof. done. Qed.

Lemma ex_bytes : bytes_ok (replicate 512 7).
Proof. apply (bool_decide_unpack _). by vm_compute. Qed.

(** Sector 2 is written: sector 3, in the same cluster, holds zeros and
    sector 0 is still not allocated. *)
Lemma qcow_write_correct_witness :
  exists s', qcow_write no_inflate no_aes (replicate 512 7) (1 * 512) (qcow_seek 2 0 ex_image) = Some (1 * 512, s') /\
    sector_data no_inflate s' 2 = Some (replicate 512 7) /\ sector_data no_inflate s' 3 = Some zero_sector /\
    sector_data no_inflate s' 0 = None.
Proof.
  destruct (qcow_write_correct no_inflate no_aes ex_inflate ex_image 2 1 (replicate 512 7) ex_ok) as (s' & E & _ & D);
    [lia|lia|by vm_compute|by vm_compute|done|apply ex_bytes|].
  exists s'. split; [exact E|]. rewrite !D by (split; by vm_compute). split_and!; by vm_compute.
Defined.

(** Nothing can be read of an empty image. *)
Lemma qcow_read_correct_witness :
  exists buf s', qcow_read no_inflate no_aes no_files (replicate 512 0) (1 * 512) (qcow_seek 0 0 ex_image)
    = Some (-1, buf, s').
Proof.
  destruct (qcow_read_correct no_inflate no_aes no_files ex_image 0 1 (replicate 512 0) ex_ok) as
    (r & buf & s' & E & _ & _ & _ & R); [lia|lia|by vm_compute|done|done|done|].
  exists buf, s'. rewrite E, R; [done|]. intros H. apply (H 0); [lia|]. by vm_compute.
Defined.

Lemma qcow_reopen_roundtrip_witness :
  exists s' s0 s1, qcow_write no_inflate no_aes (replicate 512 7) (1 * 512) (qcow_seek 2 0 ex_image) = Some (1 * 512, s') /\
    qcow_open (fun _ => -1) 0 (qfile s') = Some s0 /\
    qcow_read no_inflate no_aes no_files (replicate 512 0) (1 * 512) (qcow_seek 2 0 s0)
      = Some (1 * 512, replicate 512 7, s1).
Proof.
  apply (qcow_reopen_roundtrip no_inflate no_aes no_files (fun _ => -1) ex_inflate ex_image 2 1 (replicate 512 7) 0 ex_ok);
    [split; by vm_compute|done|done|lia|lia|by vm_compute|by vm_compute|done|apply ex_bytes|done].
Defined.


End QcowDisk.
