(* ===== verification/Memory.v ===== *)
(** * Guest memory seen by the emulator ([src/main/memory.c])

    RAM and ROM of the guest are mapped into the emulator: a guest physical
    address translates to a pointer into one of the two areas. *)

From S2P Require Import Prelude FileIO.

Module Memory.

(** [struct mmu_mapping]: guest base address, size and contents *)
Record bank := Bank { mbase : Z; size : Z; dat : gmap Z Z }.
Record memory := Mem { ram : bank; rom : bank }.

(** A pointer into the RAM or the ROM, as the offset from [lvbase] *)
Inductive lvptr := LRam (offs : Z) | LRom (offs : Z).
#[global] Instance lvptr_eq_dec : EqDecision lvptr.
Proof. solve_decision. Defined.

(** [transl_mphys_] *)
Definition transl (b : bank) (mphys : Z) : option Z :=
  let offs := u32 (mphys - mbase b) in if offs <? size b then Some offs else None.

(** 0 for RAM, 1 for ROM, negative for neither *)
Definition mphys_to_lvptr (mptr : Z) (m : memory) : Z * option lvptr :=
  match transl (ram m) mptr with
  | Some o => (0, Some (LRam o))
  | None => match transl (rom m) mptr with Some o => (1, Some (LRom o)) | None => (-1, None) end
  end.

Definition transl_mphys (mphys : Z) (m : memory) : option lvptr := LRam <$> transl (ram m) mphys.

Definition transl_ro_mphys (mphys : Z) (m : memory) : option lvptr :=
  match transl (ram m) mphys with
  | Some o => Some (LRam o)
  | None => if negb (size (rom m) =? 0) then LRom <$> transl (rom m) mphys else None
  end.

(** ** Accesses through a pointer, [None] beyond the end of the area *)

Definition cell (b : bank) (o : Z) : Z := default 0 (dat b !! o).
Definition bytes (b : bank) (o : Z) (n : nat) : list Z := map (fun i => cell b (o + Z.of_nat i)) (seq 0 n).

Definition plus (p : lvptr) (n : Z) : lvptr := match p with LRam o => LRam (o + n) | LRom o => LRom (o + n) end.
Definition bank_of (p : lvptr) (m : memory) : bank := match p with LRam _ => ram m | LRom _ => rom m end.
Definition offs_of (p : lvptr) : Z := match p with LRam o | LRom o => o end.
Definition set_bank (p : lvptr) (b : bank) (m : memory) : memory :=
  match p with LRam _ => Mem b (rom m) | LRom _ => Mem (ram m) b end.

Definition inside (p : lvptr) (n : Z) (m : memory) : bool :=
  (0 <=? offs_of p) && (offs_of p + n <=? size (bank_of p m)).

Definition load (p : lvptr) (n : nat) (m : memory) : option (list Z) :=
  if inside p (Z.of_nat n) m then Some (bytes (bank_of p m) (offs_of p) n) else None.

Definition store (p : lvptr) (l : list Z) (m : memory) : option memory :=
  let b := bank_of p m in
  if inside p (Z.of_nat (length l)) m
  then Some (set_bank p (Bank (mbase b) (size b) (FileIO.put_bytes (dat b) (offs_of p) l)) m) else None.

(** Little-endian halfwords and words, [ld_le16] and the like *)
Definition le_value (l : list Z) : Z := be_value (rev l).
Definition le_bytes (n : nat) (v : Z) : list Z := rev (be_bytes n v).

Definition ld_le (n : nat) (p : lvptr) (m : memory) : option Z := le_value <$> load p n m.
Definition st_le (n : nat) (p : lvptr) (v : Z) (m : memory) : option memory := store p (le_bytes n v) m.

(** ** Lemmas *)

Lemma le_value_bytes n v : 0 <= v < 256 ^ Z.of_nat n -> le_value (le_bytes n v) = v.
Proof. intros H. unfold le_value, le_bytes. rewrite rev_involutive. by apply be_bytes_value. Qed.

Lemma le_bytes_length n v : length (le_bytes n v) = n.
Proof. unfold le_bytes. by rewrite length_rev, be_bytes_length. Qed.

Lemma bytes_length b o n : length (bytes b o n) = n.
Proof. unfold bytes. by rewrite length_map, length_seq. Qed.

Lemma bytes_lookup b o n i : (i < n)%nat -> bytes b o n !! i = Some (cell b (o + Z.of_nat i)).
Proof. intros H. unfold bytes. rewrite list_lookup_fmap, lookup_seq_lt by done. done. Qed.

Lemma bytes_app b o n k : bytes b o (n + k) = bytes b o n ++ bytes b (o + Z.of_nat n) k.
Proof.
  unfold bytes. rewrite seq_app, map_app. f_equal. cbn [Nat.add]. rewrite <- (Nat.add_0_r n) at 1.
  rewrite <- (fmap_add_seq n 0 k). rewrite map_map. apply map_ext. intros i. f_equal. lia.
Qed.

Lemma bytes_ext b b' o n :
  (forall x, o <= x < o + Z.of_nat n -> cell b x = cell b' x) -> bytes b o n = bytes b' o n.
Proof. intros H. apply map_ext_in. intros i Hi%in_seq. apply H. lia. Qed.

(** The bytes of the value of bytes *)
Lemma be_bytes_of_value l : FileIO.bytes_ok l -> be_bytes (length l) (be_value l) = l.
Proof.
  induction l as [|b l IH] using rev_ind; intros H; [done|].
  apply Forall_app in H as [Hl Hb]. apply list.Forall_cons in Hb as [Hb _].
  rewrite length_app, Nat.add_1_r. cbn [be_bytes]. rewrite be_value_app. change 0xff with (2 ^ 8 - 1).
  rewrite land_ones_mod, Z.shiftr_div_pow2 by lia. change (2 ^ 8) with 256.
  replace ((be_value l * 256 + b) / 256) with (be_value l) by (rewrite Z.div_add_l, Z.div_small by lia; lia).
  replace ((be_value l * 256 + b) mod 256) with b.
  - by rewrite IH.
  - rewrite Z.add_comm, Z_mod_plus_full, Z.mod_small by lia. done.
Qed.

(** ** Frames *)

(** The same areas, with RAM cells that differ only where [P] holds *)
Record frame (P : Z -> Prop) (m m' : memory) : Prop := {
  fr_base : mbase (ram m') = mbase (ram m); fr_size : size (ram m') = size (ram m); fr_rom : rom m' = rom m;
  fr_cell x : ~ P x -> cell (ram m') x = cell (ram m) x
}.

Lemma frame_refl P m : frame P m m.
Proof. by split. Qed.

Lemma frame_trans P m1 m2 m3 : frame P m1 m2 -> frame P m2 m3 -> frame P m1 m3.
Proof.
  intros [H1 H2 H3 H4] [K1 K2 K3 K4]. split; [congruence..|]. intros x Hx. by rewrite K4, H4.
Qed.

Lemma frame_weaken (P Q : Z -> Prop) m m' : frame P m m' -> (forall x, P x -> Q x) -> frame Q m m'.
Proof. intros [H1 H2 H3 H4] H. split; try done. intros x Hx. apply H4. intros Hp. by apply Hx, H. Qed.

Lemma inside_frame P m m' o n : frame P m m' -> inside (LRam o) n m' = inside (LRam o) n m.
Proof. intros [_ H _ _]. unfold inside. cbn. by rewrite H. Qed.

Lemma bytes_frame P m m' o n : frame P m m' -> (forall x, o <= x < o + Z.of_nat n -> ~ P x) ->
  bytes (ram m') o n = bytes (ram m) o n.
Proof. intros Hf H. apply bytes_ext. intros x Hx. by apply (fr_cell _ _ _ Hf), H. Qed.

Lemma ld_frame P m m' n o : frame P m m' -> (forall x, o <= x < o + Z.of_nat n -> ~ P x) ->
  ld_le n (LRam o) m' = ld_le n (LRam o) m.
Proof.
  intros Hf H. unfold ld_le, load. rewrite (inside_frame P m m' o _ Hf). destruct (inside _ _ _); [|done].
  cbn [bank_of offs_of]. by rewrite (bytes_frame P m m' o n Hf H).
Qed.

Lemma transl_frame P m m' a : frame P m m' -> transl (ram m') a = transl (ram m) a.
Proof. intros [H1 H2 _ _]. unfold transl. by rewrite H1, H2. Qed.

(** What is stored is there, and nothing else has changed. *)
Lemma store_ram o l m : 0 <= o -> o + Z.of_nat (length l) <= size (ram m) ->
  exists m', store (LRam o) l m = Some m' /\ bytes (ram m') o (length l) = l /\
    frame (fun x => o <= x < o + Z.of_nat (length l)) m m'.
Proof.
  intros H1 H2. unfold store, inside. cbn [offs_of bank_of].
  rewrite (proj2 (Z.leb_le _ _) H1), (proj2 (Z.leb_le _ _) H2). cbn [andb]. eexists. split; [reflexivity|].
  assert (Hc : forall x, cell (Bank (mbase (ram m)) (size (ram m)) (FileIO.put_bytes (dat (ram m)) o l)) x =
    default 0 (if decide (o <= x < o + Z.of_nat (length l)) then l !! Z.to_nat (x - o) else dat (ram m) !! x)).
  { intros x. unfold cell. cbn [dat]. by rewrite FileIO.put_bytes_lookup. }
  split.
  - apply list_eq. intros i. destruct (decide (i < length l)%nat) as [Hi|Hi].
    + rewrite bytes_lookup by done. cbn [set_bank ram]. rewrite Hc, decide_True by lia.
      replace (Z.to_nat (o + Z.of_nat i - o)) with i by lia.
      destruct (lookup_lt_is_Some_2 l i Hi) as [b Hb]. by rewrite Hb.
    + rewrite !lookup_ge_None_2; [done|lia|rewrite bytes_length; lia].
  - split; try done. intros x Hx. cbn [set_bank ram]. rewrite Hc, decide_False by done. done.
Qed.

Lemma st_le_ram n o v m : 0 <= o -> o + Z.of_nat n <= size (ram m) ->
  exists m', st_le n (LRam o) v m = Some m' /\ frame (fun x => o <= x < o + Z.of_nat n) m m' /\
    ld_le n (LRam o) m' = Some (le_value (le_bytes n v)).
Proof.
  intros H1 H2. destruct (store_ram o (le_bytes n v) m) as (m' & E & Hb & Hf); [done|by rewrite le_bytes_length|].
  rewrite le_bytes_length in Hf, Hb. exists m'. split; [done|]. split; [done|].
  unfold ld_le, load, inside. cbn [offs_of bank_of]. rewrite (fr_size _ _ _ Hf).
  rewrite (proj2 (Z.leb_le _ _) H1), (proj2 (Z.leb_le _ _) H2). cbn [andb fmap option_fmap option_map]. by rewrite Hb.
Qed.

End Memory.
