(* ===== verification/Dbdma.v ===== *)
(** * Descriptor-based DMA ([src/drivers/dbdma.c])

    A channel runs a program of sixteen-byte descriptors in guest memory: the
    guest controls it through its registers, and a device of the emulator
    fetches the data of OUTPUT commands and delivers that of INPUT commands.
    [None] is an access beyond an area of memory or through a null pointer,
    or a channel program that does not come to rest. *)

From S2P Require Import Prelude Ioports Memory.

Module Dbdma.
Import Memory.

(** ** Constants ([src/drivers/include/dbdma_hw.h]) *)
Definition RUN : Z := 0x8000.
Definition PAUSE : Z := 0x4000.
Definition FLUSH : Z := 0x2000.
Definition WAKE : Z := 0x1000.
Definition DEAD : Z := 0x0800.
Definition ACTIVE : Z := 0x0400.
Definition BT : Z := 0x0100.
Definition OUTPUT_MORE : Z := 0.
Definition OUTPUT_LAST : Z := 0x1000.
Definition INPUT_MORE : Z := 0x2000.
Definition INPUT_LAST : Z := 0x3000.
Definition STORE_WORD : Z := 0x4000.
Definition LOAD_WORD : Z := 0x5000.
Definition DBDMA_NOP : Z := 0x6000.
Definition DBDMA_STOP : Z := 0x7000.
Definition KEY_STREAM3 : Z := 0x300.
Definition KEY_REGS : Z := 0x500.
Definition KEY_SYSTEM : Z := 0x600.
Definition INTR_IFSET : Z := 0x10.
Definition INTR_IFCLR : Z := 0x20.
Definition BR_IFSET : Z := 0x4.
Definition BR_IFCLR : Z := 0x8.
Definition WAIT_IFSET : Z := 1.
Definition WAIT_IFCLR : Z := 2.

Definition NUM_IRQS : nat := 32.
Definition NUM_REGS : nat := 16.
Definition r_control : Z := 0.
Definition r_status : Z := 1.
Definition r_cmdptr : Z := 3.
Definition r_intr_sel : Z := 4.
Definition r_br_sel : Z := 5.
Definition r_wait_sel : Z := 6.
(** [r_cmdptr_hi] and [r_xfer_mode] to [r_br_addr_hi], except [r_res1] *)
Definition unimplemented_regs : list Z := [7; 2; 8; 9; 11; 12].

Definition DMA_READ : Z := 1.
Definition DMA_WRITE : Z := 2.
Definition DMA_RW : Z := 3.
Definition DMA_ERROR : Z := -1.

(** ** State *)

Inductive phase := Idling | Preparing | Starting | Inputing | Outputing | Finishing | Ioaccessing.
#[global] Instance phase_eq_dec : EqDecision phase.
Proof. solve_decision. Defined.

Record io_state := IoState { req_count : Z; res_count : Z; key : Z; is_last : bool; buf : option lvptr }.

(** [struct dbdma_channel]; the registers are the bytes of [reg], which are
    little-endian.  The conditions and the chains of return values that
    [dma_wait] waits with are left out: no element is ever added to them. *)
Record channel := Channel {
  identifier : Z; idle : bool; cmd_phase : phase; status : Z; status_byte : Z; reg : list Z;
  cur_cmd : option lvptr; cur_cmd_in_rom : bool; may_branch : bool; iostate : io_state
}.

(** A channel with the memory, the device behind it and the number of
    interrupts raised *)
Record sys (D : Type) := Sys { ch : channel; mem : memory; dev : D; irqs : Z }.
Arguments Sys {D}. Arguments ch {D}. Arguments mem {D}. Arguments dev {D}. Arguments irqs {D}.

Definition set_identifier v c := Channel v (idle c) (cmd_phase c) (status c) (status_byte c) (reg c) (cur_cmd c) (cur_cmd_in_rom c) (may_branch c) (iostate c).
Definition set_idle v c := Channel (identifier c) v (cmd_phase c) (status c) (status_byte c) (reg c) (cur_cmd c) (cur_cmd_in_rom c) (may_branch c) (iostate c).
Definition set_phase v c := Channel (identifier c) (idle c) v (status c) (status_byte c) (reg c) (cur_cmd c) (cur_cmd_in_rom c) (may_branch c) (iostate c).
Definition set_status v c := Channel (identifier c) (idle c) (cmd_phase c) v (status_byte c) (reg c) (cur_cmd c) (cur_cmd_in_rom c) (may_branch c) (iostate c).
Definition set_status_byte v c := Channel (identifier c) (idle c) (cmd_phase c) (status c) v (reg c) (cur_cmd c) (cur_cmd_in_rom c) (may_branch c) (iostate c).
Definition set_reg v c := Channel (identifier c) (idle c) (cmd_phase c) (status c) (status_byte c) v (cur_cmd c) (cur_cmd_in_rom c) (may_branch c) (iostate c).
Definition set_cur_cmd p r c := Channel (identifier c) (idle c) (cmd_phase c) (status c) (status_byte c) (reg c) p r (may_branch c) (iostate c).
Definition set_may_branch v c := Channel (identifier c) (idle c) (cmd_phase c) (status c) (status_byte c) (reg c) (cur_cmd c) (cur_cmd_in_rom c) v (iostate c).
Definition set_iostate v c := Channel (identifier c) (idle c) (cmd_phase c) (status c) (status_byte c) (reg c) (cur_cmd c) (cur_cmd_in_rom c) (may_branch c) v.

Definition upd {D} (f : channel -> channel) (s : sys D) : sys D := Sys (f (ch s)) (mem s) (dev s) (irqs s).
Definition set_mem {D} (m : memory) (s : sys D) : sys D := Sys (ch s) m (dev s) (irqs s).

Section Dbdma.
Context {D : Type}.
Implicit Types s : sys D.
(** [do_io_read] and [do_io_write], with whatever other threads do to the
    channel meanwhile: its lock is released. *)
Context (do_io_read : Z -> Z -> sys D -> Z * sys D) (do_io_write : Z -> Z -> Z -> sys D -> sys D).
(** [status_bits_func] of the device (mask and data), none for the default *)
Context (status_bits_func : option (Z -> Z -> D -> Z * D)).

(** ** Registers and descriptors *)

Definition reg_bytes (r : Z) (s : sys D) : list Z := take 4 (drop (Z.to_nat (4 * r)) (reg (ch s))).
Definition ld_reg (r : Z) (s : sys D) : Z := le_value (reg_bytes r s).
(** The bytes of register [r] are replaced. *)
Definition put_reg (r : Z) (l : list Z) (c : channel) : channel :=
  set_reg (take (Z.to_nat (4 * r)) (reg c) ++ l ++ drop (Z.to_nat (4 * r + 4)) (reg c)) c.

(** The fields of [struct dbdma_cmd] *)
Definition CMD_SIZE : Z := 16.
Definition o_req_count : Z := 0.
Definition o_command : Z := 2.
Definition o_phy_addr : Z := 4.
Definition o_cmd_dep : Z := 8.
Definition o_res_count : Z := 12.
Definition o_xfer_status : Z := 14.
Definition ld_cmd (n : nat) (field : Z) (s : sys D) : option Z := p ← cur_cmd (ch s); ld_le n (plus p field) (mem s).
Definition st_cmd (n : nat) (field v : Z) (s : sys D) : option (sys D) :=
  p ← cur_cmd (ch s); m ← st_le n (plus p field) v (mem s); Some (set_mem m s).

Definition is_input (cmd : Z) : bool := (cmd =? INPUT_MORE) || (cmd =? INPUT_LAST).
Definition is_output (cmd : Z) : bool := (cmd =? OUTPUT_MORE) || (cmd =? OUTPUT_LAST).

(** ** Misc *)

Definition stamp_status (s : sys D) : option (sys D) :=
  if idle (ch s) || cur_cmd_in_rom (ch s) then Some s else
  cmd ← ld_cmd 2 o_command s;
  let cmd := cmd .& 0xf000 in
  let res := if is_input cmd || is_output cmd then req_count (iostate (ch s)) - res_count (iostate (ch s)) else 0 in
  s ← st_cmd 2 o_xfer_status (status (ch s)) s;
  st_cmd 2 o_res_count res s.

Definition next_identifier (c : channel) : channel := set_identifier (u32 (identifier c + 1)) c.
Definition go_idle (s : sys D) : sys D := upd (fun c => set_idle true (set_phase Idling (next_identifier c))) s.
Definition raise_interrupt (s : sys D) : sys D := Sys (ch s) (mem s) (dev s) (irqs s + 1).

(** A condition of a command: select register, status bits, command word
    and its two bits *)
Definition fires (sel s_status cmd ifset ifclr : Z) : bool :=
  let sel := sel .& 0x0f0f in
  let cond := (s_status .& (sel .>> 16)) =? (s_status .& sel) in
  (cond && (negb (sel =? 0) && tst cmd ifset)) || (negb cond && ((sel =? 0) && tst cmd ifclr)).

Definition conditional_interrupt (s : sys D) : option (sys D) :=
  cmd ← ld_cmd 2 o_command s;
  Some (if fires (ld_reg r_intr_sel s) (status (ch s) .& 0xff) (cmd .& 0xf000) INTR_IFSET INTR_IFCLR
        then raise_interrupt s else s).

Definition clear_bits (m : Z) (c : channel) : channel := set_status (Z.land (status c) (Z.lnot m)) c.
Definition set_bits (m : Z) (c : channel) : channel := set_status (status c .| m) c.

Definition kill_channel (s : sys D) : sys D :=
  raise_interrupt (go_idle (upd (fun c => clear_bits ACTIVE (set_bits DEAD c)) s)).

(** ** Load / store *)

Definition start_access (s : sys D) : sys D := upd (fun c => next_identifier (set_phase Ioaccessing c)) s.
(** The channel was not disturbed while its lock was released. *)
Definition undisturbed (i : Z) (s : sys D) : bool :=
  (i =? identifier (ch s)) && bool_decide (cmd_phase (ch s) = Ioaccessing).

Definition load_word (k mac_phys : Z) (len : nat) (s : sys D) : option (sys D) :=
  if negb (k =? KEY_SYSTEM) then Some (kill_channel s) else
  let s := start_access s in
  let i := identifier (ch s) in
  '(val, s) ← (match (mphys_to_lvptr mac_phys (mem s)).2 with
               | Some src => l ← load src len (mem s); Some (be_value l, s)
               | None => Some (do_io_read mac_phys (Z.of_nat len) s)
               end);
  if negb (undisturbed i s) then Some s else
  p ← cur_cmd (ch s);
  d ← load (plus p o_cmd_dep) 4 (mem s);
  let dep := be_value d in
  let val := if decide (len = 2%nat) then u32 ((val .<< 16) + (dep .& 0xffff))
             else if decide (len = 1%nat) then u32 ((val .<< 24) + (dep .& 0xffffff)) else val in
  m ← store (plus p o_cmd_dep) (be_bytes 4 val) (mem s);
  Some (upd (set_phase Finishing) (set_mem m s)).

Definition store_word (k mac_phys data : Z) (len : nat) (s : sys D) : option (sys D) :=
  let s := if negb (k =? KEY_SYSTEM) then kill_channel s else s in
  let s := start_access s in
  let i := identifier (ch s) in
  s ← (match mphys_to_lvptr mac_phys (mem s) with
       | (_, Some (LRam o)) => m ← store (LRam o) (be_bytes len data) (mem s); Some (set_mem m s)
       | (_, Some (LRom _)) => Some s
       | (_, None) => Some (do_io_write mac_phys data (Z.of_nat len) s)
       end);
  Some (if undisturbed i s then upd (set_phase Finishing) s else s).

(** ** Command processing *)

Definition prepare_cmd (s : sys D) : sys D :=
  let '(r, p) := mphys_to_lvptr (ld_reg r_cmdptr s) (mem s) in
  let s := upd (fun c => set_cur_cmd (match p with Some q => Some q | None => cur_cmd c end) false c) s in
  if r <? 0 then kill_channel s
  else upd (fun c => set_phase Starting (set_cur_cmd (cur_cmd c) (r =? 1) c)) s.

Definition set_buf (b : option lvptr) (c : channel) : channel :=
  let i := iostate c in set_iostate (IoState (req_count i) (res_count i) (key i) (is_last i) b) c.

(** [start_input] ([ph] being [Inputing]) and [start_output] *)
Definition start_io (b : option lvptr) (ph : phase) (k req : Z) (last : bool) (s : sys D) : sys D :=
  if negb (bool_decide (is_Some b)) || (KEY_STREAM3 <? k) then kill_channel (upd (set_buf b) s)
  else upd (fun c => set_phase ph (set_iostate (IoState req 0 k last b) c)) s.
Definition start_input (k mphys req : Z) (last : bool) (s : sys D) : sys D :=
  start_io (transl_mphys mphys (mem s)) Inputing k req last s.
Definition start_output (k mphys req : Z) (last : bool) (s : sys D) : sys D :=
  start_io (transl_ro_mphys mphys (mem s)) Outputing k req last s.

(** The length and the aligned address of a load or store *)
Definition word_access (req addr : Z) : nat * Z :=
  if tst req 0x4 then (4%nat, Z.land addr (Z.lnot 3))
  else if tst req 0x2 then (2%nat, Z.land addr (Z.lnot 1)) else (1%nat, addr).

Definition start_cmd (s : sys D) : option (bool * sys D) :=
  cmd ← ld_cmd 2 o_command s;
  let k := cmd .& 0x700 in
  let cmd := cmd .& 0xf000 in
  let s := upd (fun c => clear_bits WAKE (set_may_branch false c)) s in
  if is_output cmd || is_input cmd then
    let s := upd (set_may_branch true) s in
    req ← ld_cmd 2 o_req_count s;
    addr ← ld_cmd 4 o_phy_addr s;
    Some (true, if k =? 0x400 then kill_channel s
                else if is_input cmd then start_input k addr req (cmd =? INPUT_LAST) s
                else start_output k addr req (cmd =? OUTPUT_LAST) s)
  else if (cmd =? LOAD_WORD) || (cmd =? STORE_WORD) then
    let k := if k <? KEY_REGS then KEY_SYSTEM else k in
    addr ← ld_cmd 4 o_phy_addr s;
    req ← ld_cmd 2 o_req_count s;
    let '(len, addr) := word_access (req .& 0x7) addr in
    if cmd =? LOAD_WORD then s ← load_word k addr len s; Some (true, s)
    else
      p ← cur_cmd (ch s);
      d ← load (plus p o_cmd_dep) 4 (mem s);
      let v := be_value d in
      let v := if decide (len = 2%nat) then v .>> 16 else if decide (len = 1%nat) then v .>> 24 else v in
      s ← store_word k addr v len s; Some (true, s)
  else if cmd =? DBDMA_NOP then Some (true, upd (fun c => set_phase Finishing (set_may_branch true c)) s)
  else if cmd =? DBDMA_STOP then
    Some (false, upd (fun c => set_phase Idling (set_idle true (clear_bits ACTIVE c))) s)
  else Some (false, kill_channel s).

Definition finish_cmd (s : sys D) : option (bool * sys D) :=
  let s_status := status (ch s) .& 0xff in
  cmd ← ld_cmd 2 o_command s;
  if fires (ld_reg r_wait_sel s) s_status cmd WAIT_IFSET WAIT_IFCLR then Some (false, s) else
  let branch := may_branch (ch s) && fires (ld_reg r_br_sel s) s_status cmd BR_IFSET BR_IFCLR in
  let s := if may_branch (ch s) then upd (clear_bits BT) s else s in
  s ← (if branch then
         p ← cur_cmd (ch s);
         d ← load (plus p o_cmd_dep) 4 (mem s);
         Some (upd (fun c => set_bits BT (put_reg r_cmdptr d c)) s)
       else Some (upd (put_reg r_cmdptr (le_bytes 4 (u32 (ld_reg r_cmdptr s + CMD_SIZE)))) s));
  s ← stamp_status s;
  s ← conditional_interrupt s;
  Some (true, upd (set_phase Preparing) s).

(** One turn of [process_cmds]: whether to go on, and the state.  Waiting
    devices are woken up by INPUT and OUTPUT commands, which changes nothing
    here. *)
Definition process_cmd (s : sys D) : option (bool * sys D) :=
  match cmd_phase (ch s) with
  | Idling => Some (false, s)
  | Preparing => Some (true, prepare_cmd s)
  | Starting => start_cmd s
  | Inputing => Some (false, s)
  | Outputing => Some (false, s)
  | Finishing => finish_cmd s
  | Ioaccessing => Some (false, s)
  end.

Fixpoint process_cmds (fuel : nat) (s : sys D) : option (sys D) :=
  if tst (status (ch s)) PAUSE then Some s else
  match fuel with
  | O => None
  | S f => '(run, s) ← process_cmd s; if run : bool then process_cmds f s else Some s
  end.

(** [ch->status] has been updated prior to the entry of this function. *)
Definition control_write (fuel : nat) (mask : Z) (s : sys D) : option (sys D) :=
  s ← (if tst (status (ch s)) FLUSH && negb (idle (ch s)) then
         cmd ← ld_cmd 2 o_command s;
         if is_input (cmd .& 0xf000) then s ← stamp_status s; Some (upd (clear_bits FLUSH) s) else Some s
       else Some s);
  let s := upd (clear_bits FLUSH) s in
  s ← (if tst mask RUN && negb (tst (status (ch s)) RUN) then
         let s := upd (clear_bits DEAD) s in
         if negb (idle (ch s)) then
           s ← stamp_status s;
           s ← conditional_interrupt s;
           Some (go_idle s)
         else Some s
       else Some s);
  let s := if tst (status (ch s)) RUN && idle (ch s) && negb (tst (status (ch s)) DEAD)
           then upd (set_idle false) (prepare_cmd s) else s in
  let s := upd (clear_bits ACTIVE) s in
  if negb (idle (ch s)) && negb (tst (status (ch s)) PAUSE) && negb (tst (status (ch s)) DEAD)
  then process_cmds fuel (upd (set_bits ACTIVE) s) else Some s.

(** ** Register I/O *)

(** [offs] is the offset of the access; the [ulong]s of [reg] end at 68. *)
Definition reg_io_read (offs len : Z) (s : sys D) : option Z :=
  let r := offs .>> 2 in
  if Z.of_nat (NUM_REGS + 1) <=? r then None else
  let ret := if r =? r_control then [0; 0; 0; 0]
             else if r =? r_status then le_bytes 4 (status (ch s))
             else if bool_decide (r ∈ unimplemented_regs) then [0; 0; 0; 0]
             else reg_bytes r s in
  Ioports.read_mem (ret ++ [0; 0; 0; 0]) 0 len.

(** [ch->status_bits_func] *)
Definition status_bits (mask data : Z) (s : sys D) : Z * sys D :=
  match status_bits_func with
  | Some f => let '(v, d) := f mask data (dev s) in (v, Sys (ch s) (mem s) d (irqs s))
  | None => let v := (data .& mask) .| Z.land (status_byte (ch s)) (Z.lnot mask) .& 0xff in
            (v, upd (set_status_byte v) s)
  end.

(** The bits s0-s7 are taken from the device. *)
Definition update_sbits (mask data : Z) (s : sys D) : sys D :=
  let s := upd (clear_bits 0xff) s in
  let '(v, s) := status_bits mask data s in
  upd (set_bits (v .& 0xff)) s.

Definition MASK_INSERT (src mask : Z) (c : channel) : channel :=
  set_status ((src .& mask) .| Z.land (status c) (Z.lnot mask)) c.

Definition reg_io_write (fuel : nat) (offs data len : Z) (s : sys D) : option (sys D) :=
  let r := offs .>> 2 in
  if Z.of_nat (NUM_REGS + 1) <=? r then None else
  let old := be_value (reg_bytes r s) in
  l ← Ioports.write_mem (reg (ch s)) (Z.to_nat offs) data len;
  let s := upd (set_reg l) s in
  if r =? r_control then
    let v := ld_reg r s in
    let mask := v .>> 16 in
    let s := if tst mask 0xff then update_sbits (mask .& 0xff) (v .& 0xff) s else s in
    control_write fuel mask (upd (MASK_INSERT v mask) s)
  else if r =? r_cmdptr then
    Some (if tst (status (ch s)) (RUN .| ACTIVE) then upd (put_reg r (le_bytes 4 old)) s
          else upd (put_reg r (le_bytes 4 (Z.land (ld_reg r s) (Z.lnot 0xf)))) s)
  else Some s.

(** ** Client interface *)

(** [struct dma_read_pb]; [struct dma_write_pb] has no [buf]. *)
Record dma_pb := DmaPb { pb_res_count : Z; pb_req_count : Z; pb_buf : option lvptr; pb_is_last : bool; pb_key : Z; pb_identifier : Z }.

(** [dma_write_req] ([want] being [Inputing]) and [dma_read_req]: no request
    block for the result 1 *)
Definition dma_req (want : phase) (fuel : nat) (s : sys D) : option (option dma_pb * sys D) :=
  if tst (status (ch s)) PAUSE then Some (None, s) else
  s ← (if decide (cmd_phase (ch s) = want) then Some s else process_cmds fuel s);
  if decide (cmd_phase (ch s) = want) then
    let s := upd next_identifier s in
    let i := iostate (ch s) in
    Some (Some (DmaPb (res_count i) (req_count i) (buf i) (is_last i) (key i) (identifier (ch s))), s)
  else Some (None, s).
Definition dma_write_req : nat -> sys D -> option (option dma_pb * sys D) := dma_req Inputing.
Definition dma_read_req : nat -> sys D -> option (option dma_pb * sys D) := dma_req Outputing.

Definition set_res_count (n : Z) (c : channel) : channel :=
  let i := iostate c in set_iostate (IoState (req_count i) n (key i) (is_last i) (buf i)) c.

(** The end of an acknowledgement: the command may be complete. *)
Definition ack_done (fuel : nat) (s : sys D) : option (sys D) :=
  if req_count (iostate (ch s)) <=? res_count (iostate (ch s)) then process_cmds fuel (upd (set_phase Finishing) s) else Some s.

(** [data] are the bytes at [buf], [len] of them to be copied *)
Definition dma_write_ack (fuel : nat) (data : list Z) (len : Z) (pb : dma_pb) (s : sys D) : option (Z * sys D) :=
  if negb (pb_identifier pb =? identifier (ch s)) || negb (bool_decide (cmd_phase (ch s) = Inputing)) then Some (1, s) else
  let i := iostate (ch s) in
  let len := if req_count i <? res_count i + len then req_count i - res_count i else len in
  if (len <? 0) || (Z.of_nat (length data) <? len) then None else
  p ← buf i;
  m ← store (plus p (res_count i)) (take (Z.to_nat len) data) (mem s);
  s ← ack_done fuel (upd (set_res_count (res_count i + len)) (set_mem m s));
  Some (0, s).

Definition dma_read_ack (fuel : nat) (len : Z) (pb : dma_pb) (s : sys D) : option (Z * sys D) :=
  if negb (pb_identifier pb =? identifier (ch s)) || negb (bool_decide (cmd_phase (ch s) = Outputing)) then Some (1, s) else
  let i := iostate (ch s) in
  let res := res_count i + len in
  let res := if req_count i <? res then req_count i else res in
  s ← ack_done fuel (upd (set_res_count res) s);
  Some (0, s).

(** The result when the channel is ready; otherwise the calling thread takes
    an element of a chain that is always empty. *)
Definition dma_wait (flags : Z) (s : sys D) : option Z :=
  let ph := cmd_phase (ch s) in
  let paused := tst (status (ch s)) PAUSE in
  let inp := bool_decide (ph = Inputing) in
  let outp := bool_decide (ph = Outputing) in
  if (flags .& DMA_RW) =? DMA_RW then
    if negb (outp || inp) || paused then None else Some (if outp then DMA_READ else DMA_WRITE)
  else if tst flags DMA_READ then if outp && negb paused then Some DMA_READ else None
  else if tst flags DMA_WRITE then if inp && negb paused then Some DMA_WRITE else None
  else Some DMA_ERROR.

Definition dbdma_sbits_changed (fuel : nat) (s : sys D) : option (sys D) :=
  let old := status (ch s) .& 0xff in
  let s := update_sbits 0 0 s in
  if negb ((status (ch s) .& 0xff) =? old) then process_cmds fuel s else Some s.

End Dbdma.

(** ** Allocation *)

Definition new_channel : channel :=
  Channel 0 true Idling 0 0 (replicate (4 * (NUM_REGS + 1)) 0) None false false (IoState 0 0 0 false None).

(** [ch_table], by interrupt number *)
Definition irq_valid (irq : Z) : bool := (0 <=? irq) && (irq <? Z.of_nat NUM_IRQS).
Definition allocate_dbdma (gc_offs irq : Z) (ch_table : list (option channel)) : list (option channel) :=
  if (0x10000 <? gc_offs) || negb (irq_valid irq) then ch_table else
  match ch_table !! Z.to_nat irq with
  | Some None => <[Z.to_nat irq := Some new_channel]> ch_table
  | _ => ch_table
  end.
Definition release_dbdma (irq : Z) (ch_table : list (option channel)) : list (option channel) :=
  if irq_valid irq then <[Z.to_nat irq := None]> ch_table else ch_table.
Definition dbdma_init : list (option channel) := replicate NUM_IRQS None.

End Dbdma.
