(* ===== verification/DbdmaInv.v ===== *)
(** * Theorems on descriptor-based DMA

    A chain of INPUT commands scatters the stream of the device over the
    buffers, a chain of OUTPUT commands gathers them; and what the conditions
    and the registers really do. *)

From S2P Require Import Prelude FileIO Ioports Memory Dbdma.

Module DbdmaInv.
Import Memory Dbdma.

(** ** Conditions *)

(** What the hardware does: mask in the upper, value in the lower half *)
Definition hw_fires (sel s_status cmd ifset ifclr : Z) : bool :=
  let mask := (sel .>> 16) .& 0xff in
  let cond := (s_status .& mask) =? (sel .& mask) in
  (cond && tst cmd ifset) || (negb cond && tst cmd ifclr).

Lemma fires_eq sel s_status cmd ifset ifclr :
  fires sel s_status cmd ifset ifclr =
  negb (sel .& 0x0f0f =? 0) && (s_status .& (sel .& 0x0f0f) =? 0) && tst cmd ifset.
Proof.
  unfold fires. cbv zeta.
  assert (H : (sel .& 0x0f0f) .>> 16 = 0).
  { rewrite Z.shiftr_land. apply Z.land_0_r. }
  rewrite H, Z.land_0_r. rewrite (Z.eqb_sym 0). destruct (Z.eqb_spec (sel .& 0x0f0f) 0) as [E|E].
  - rewrite E, Z.land_0_r. done.
  - cbn [negb andb]. by destruct (_ =? 0), (tst cmd ifset).
Qed.

(** The interrupt bits are masked away before they are looked at. *)
Lemma no_interrupt {D} (s : sys D) : conditional_interrupt s = (_ ← ld_cmd 2 o_command s; Some s).
Proof.
  unfold conditional_interrupt. destruct (ld_cmd 2 o_command s) as [cmd|]; [|done]. cbn [mbind option_bind]. rewrite fires_eq.
  assert (H : tst (cmd .& 0xf000) INTR_IFSET = false).
  { unfold tst. rewrite <- Z.land_assoc. change (0xf000 .& INTR_IFSET) with 0. by rewrite Z.land_0_r. }
  by rewrite H, andb_false_r.
Qed.

(** the conditions of commands are misread.  The select registers are
    masked with [0x0f0f] before their upper half, the mask, is taken: a
    command waits or branches only for a value with low nibbles that are all
    clear in the status, whatever the mask, and never because a condition
    is false.  With the register at 0 the hardware takes every branch-if-set,
    hence every branch-always, and the code takes none; and no command ever
    raises an interrupt. *)
Theorem conditions_misread {D} (s : sys D) sel s_status cmd ifset ifclr :
  (fires sel s_status cmd ifset ifclr = true <->
     tst cmd ifset = true /\ sel .& 0x0f0f <> 0 /\ s_status .& (sel .& 0x0f0f) = 0) /\
  hw_fires 0 s_status cmd ifset ifclr = tst cmd ifset /\ fires 0 s_status cmd ifset ifclr = false /\
  conditional_interrupt s = (_ ← ld_cmd 2 o_command s; Some s).
Proof.
  split_and!; [|..|apply no_interrupt].
  - rewrite fires_eq, !andb_true_iff, negb_true_iff, Z.eqb_neq, Z.eqb_eq. tauto.
  - unfold hw_fires. change ((0 .>> 16) .& 0xff) with 0. rewrite !Z.land_0_r. cbn. by rewrite orb_false_r.
  - by rewrite fires_eq.
Qed.

(** ** Registers *)

Lemma reg_bytes_put {D} (s : sys D) r l : 0 <= r -> length l = 4%nat -> (Z.to_nat (4 * r) + 4 <= length (reg (ch s)))%nat ->
  reg_bytes r (upd (put_reg r l) s) = l.
Proof.
  intros Hr Hl Hlen. unfold reg_bytes, put_reg. cbn [ch upd reg set_reg].
  rewrite drop_app_ge by (rewrite length_take; lia). rewrite length_take.
  replace (Z.to_nat (4 * r) - _)%nat with 0%nat by lia. rewrite drop_0. by apply take_app_length'.
Qed.

Lemma reg_bytes_length {D} (s : sys D) r : 0 <= r < 17 -> length (reg (ch s)) = 68%nat -> length (reg_bytes r s) = 4%nat.
Proof. intros Hr Hl. unfold reg_bytes. rewrite length_take, length_drop. lia. Qed.

(** a write to the command pointer of a running channel is not without
    effect.  The old value is read as it is and stored through [st_le32]:
    the four bytes of the pointer are reversed. *)
Theorem cmdptr_write_scrambles {D} ior iow sb fuel data (s : sys D) :
  tst (status (ch s)) (RUN .| ACTIVE) = true -> length (reg (ch s)) = 68%nat -> Forall (fun b => 0 <= b < 256) (reg (ch s)) ->
  exists s', reg_io_write ior iow sb fuel (4 * r_cmdptr) data 4 s = Some s' /\
    reg_bytes r_cmdptr s' = rev (reg_bytes r_cmdptr s) /\ status (ch s') = status (ch s) /\ mem s' = mem s.
Proof.
  intros Hrun Hlen Hb. unfold reg_io_write. change ((4 * r_cmdptr) .>> 2) with r_cmdptr.
  change (Z.of_nat (NUM_REGS + 1) <=? r_cmdptr) with false. cbv iota zeta.
  unfold Ioports.write_mem. change (Ioports.valid_len 4) with true. cbv iota. rewrite decide_True by (rewrite Hlen; unfold r_cmdptr; lia).
  cbn [mbind option_bind]. change (r_cmdptr =? r_control) with false. change (r_cmdptr =? r_cmdptr) with true. cbv iota.
  cbn [ch upd set_reg status]. rewrite Hrun. eexists. split; [reflexivity|]. split; [|done].
  rewrite reg_bytes_put.
  - unfold le_bytes. f_equal. rewrite <- (reg_bytes_length s r_cmdptr) by (done || unfold r_cmdptr; lia).
    apply be_bytes_of_value. unfold FileIO.bytes_ok, reg_bytes. by apply Forall_take, Forall_drop.
  - done.
  - apply le_bytes_length.
  - cbn [ch upd reg set_reg]. rewrite !length_app, length_take, length_drop, be_bytes_length, Hlen. unfold r_cmdptr. lia.
Qed.

(** A new channel with the bytes [b0] to [b3] in the command pointer *)
Definition at_cmdptr (b0 b1 b2 b3 : Z) : channel := put_reg r_cmdptr [b0; b1; b2; b3] new_channel.

(** The guest sets and clears RUN (the registers are little-endian). *)
Definition write_control {D} (fuel : nat) (v : Z) (s : sys D) : option (sys D) :=
  reg_io_write (fun _ _ s => (0, s)) (fun _ _ _ s => s) None fuel (4 * r_control) (be_value (le_bytes 4 v)) 4 s.

(** a bad command pointer makes the emulator follow a null pointer.
    When RUN is set while the command pointer is outside RAM and ROM, the
    channel is killed, but then marked as running a program that it does not
    have; clearing RUN stamps the status into the descriptor at the null
    pointer, however the channel was used. *)
Theorem bad_cmdptr_crashes {D} b0 b1 b2 b3 (s : sys D) fuel fuel' :
  ch s = at_cmdptr b0 b1 b2 b3 -> (mphys_to_lvptr (le_value [b0; b1; b2; b3]) (mem s)).2 = None ->
  exists s1, write_control fuel (RUN .<< 16 .| RUN) s = Some s1 /\
    status (ch s1) = RUN .| DEAD /\ idle (ch s1) = false /\ cmd_phase (ch s1) = Idling /\ cur_cmd (ch s1) = None /\
    write_control fuel' (RUN .<< 16) s1 = None.
Proof.
  intros Hc Hm. destruct s as [c m d q]. cbn [ch mem] in Hc, Hm. subst c.
  assert (Hp : mphys_to_lvptr (le_value [b0; b1; b2; b3]) m = (-1, None)).
  { unfold mphys_to_lvptr in Hm |- *. destruct (transl (ram m) _); [done|]. by destruct (transl (rom m) _). }
  set (s := Sys _ m d q). set (c1 := Channel 1 false Idling (RUN .| DEAD) 0
    (be_bytes 4 (be_value (le_bytes 4 (RUN .<< 16 .| RUN))) ++ drop 4 (reg (at_cmdptr b0 b1 b2 b3))) None false false (IoState 0 0 0 false None)).
  exists (Sys c1 m d (q + 1)). split; [|split_and!; try reflexivity].
  set (c2 := Channel 0 true Idling RUN 0 (reg c1) None false false (IoState 0 0 0 false None)).
  assert (E : prepare_cmd (Sys c2 m d q) = kill_channel (Sys c2 m d q)).
  { unfold prepare_cmd. change (ld_reg r_cmdptr (Sys c2 m d q)) with (le_value [b0; b1; b2; b3]). cbn [mem]. rewrite Hp. reflexivity. }
  change (write_control fuel (RUN .<< 16 .| RUN) s) with
    (let t := upd (set_idle false) (prepare_cmd (Sys c2 m d q)) in
     let t := upd (clear_bits ACTIVE) t in
     if negb (idle (ch t)) && negb (tst (status (ch t)) PAUSE) && negb (tst (status (ch t)) DEAD)
     then process_cmds (fun _ _ s => (0, s)) (fun _ _ _ s => s) fuel (upd (set_bits ACTIVE) t) else Some t).
  rewrite E. reflexivity.
Qed.

Lemma bad_cmdptr_crashes_witness :
  let m := Mem (Bank 0 0x4000000 ∅) (Bank 0xffc00000 0x400000 ∅) in
  let s := Sys (at_cmdptr 0 0 0 0x80) m tt 0 in
  (mphys_to_lvptr (le_value [0; 0; 0; 0x80]) m).2 = None /\
  exists s1, write_control 10 (RUN .<< 16 .| RUN) s = Some s1 /\ write_control 10 (RUN .<< 16) s1 = None.
Proof.
  intros m s. assert (H : (mphys_to_lvptr (le_value [0; 0; 0; 0x80]) m).2 = None) by reflexivity.
  split; [exact H|]. destruct (bad_cmdptr_crashes 0 0 0 0x80 s 10 10 eq_refl H) as (s1 & H1 & _ & _ & _ & _ & H2).
  exists s1. split; [exact H1|exact H2].
Defined.


(** ** Programs of transfers

    A buffer: guest address, offset in RAM, length, and whether its command
    is the last of a transfer *)
Record seg := Seg { sg_addr : Z; sg_offs : Z; sg_cnt : Z; sg_last : bool }.

Definition cmd_of (out last : bool) : Z :=
  if out then (if last then OUTPUT_LAST else OUTPUT_MORE) else (if last then INPUT_LAST else INPUT_MORE).

(** A descriptor at the offset [o] of RAM *)
Record desc (out : bool) (m : memory) (o : Z) (g : seg) : Prop := {
  de_cmd : ld_le 2 (LRam (o + o_command)) m = Some (cmd_of out (sg_last g));
  de_req : ld_le 2 (LRam (o + o_req_count)) m = Some (sg_cnt g);
  de_addr : ld_le 4 (LRam (o + o_phy_addr)) m = Some (sg_addr g);
  de_buf : transl (ram m) (sg_addr g) = Some (sg_offs g);
  de_range : 0 <= sg_offs g /\ sg_offs g + sg_cnt g <= size (ram m);
  de_cnt : 0 < sg_cnt g < 0x10000
}.

(** The descriptors of [l] in a row, and a STOP *)
Fixpoint program (out : bool) (m : memory) (o : Z) (l : list seg) : Prop :=
  0 <= o /\ o + 16 <= size (ram m) /\
  match l with
  | [] => ld_le 2 (LRam (o + o_command)) m = Some DBDMA_STOP
  | g :: l' => desc out m o g /\ program out m (o + 16) l'
  end.

Definition prog_end (o : Z) (l : list seg) : Z := o + 16 * (Z.of_nat (length l) + 1).

Lemma desc_frame out (P : Z -> Prop) m m' o g : frame P m m' -> (forall x, o <= x < o + 12 -> ~ P x) ->
  desc out m o g -> desc out m' o g.
Proof.
  intros Hf HP [H1 H2 H3 H4 H5 H6]. split; try done.
  - rewrite (ld_frame P m m' _ _ Hf); [done|]. intros x. unfold o_command. cbn. intros. apply HP. lia.
  - rewrite (ld_frame P m m' _ _ Hf); [done|]. intros x. unfold o_req_count. cbn. intros. apply HP. lia.
  - rewrite (ld_frame P m m' _ _ Hf); [done|]. intros x. unfold o_phy_addr. cbn. intros. apply HP. lia.
  - by rewrite (transl_frame P m m').
  - by rewrite (fr_size _ _ _ Hf).
Qed.

Lemma program_frame out (P : Z -> Prop) m m' l : forall o, frame P m m' -> (forall x, o <= x < prog_end o l -> ~ P x) ->
  program out m o l -> program out m' o l.
Proof.
  induction l as [|g l IH]; intros o Hf HP (H1 & H2 & H3); (split; [done|]); (split; [by rewrite (fr_size _ _ _ Hf)|]);
    unfold prog_end in HP; cbn [length] in HP.
  - rewrite (ld_frame P m m' _ _ Hf); [done|]. intros x. unfold o_command. cbn. intros. apply HP. lia.
  - destruct H3 as [H3 H4]. split.
    + apply (desc_frame _ P m); [done| |done]. intros. apply HP. lia.
    + apply IH; [done| |done]. unfold prog_end. intros. apply HP. lia.
Qed.

(** The channel is at the descriptor [o], whose command word is [w]. *)
Record at_core {D} (w : Z) (o : Z) (s : sys D) : Prop := {
  at_reg : length (reg (ch s)) = 68%nat;
  at_size : 0 <= o /\ o + 16 <= size (ram (mem s)) <= 2 ^ 32;
  at_cmd : cur_cmd (ch s) = Some (LRam o);
  at_rom : cur_cmd_in_rom (ch s) = false;
  at_idle : idle (ch s) = false;
  at_pause : tst (status (ch s)) PAUSE = false;
  at_word : ld_le 2 (LRam (o + o_command)) (mem s) = Some w
}.
Record at_desc {D} (w : Z) (o : Z) (s : sys D) : Prop := {
  at_is : at_core w o s;
  at_ptr : transl (ram (mem s)) (ld_reg r_cmdptr s) = Some o
}.

(** [d] bytes of the buffer of the descriptor are transferred. *)
Record running {D} (out : bool) (o : Z) (g : seg) (d : Z) (s : sys D) : Prop := {
  ru_at : at_desc (cmd_of out (sg_last g)) o s;
  ru_phase : cmd_phase (ch s) = if out then Outputing else Inputing;
  ru_req : req_count (iostate (ch s)) = sg_cnt g;
  ru_res : res_count (iostate (ch s)) = d;
  ru_buf : buf (iostate (ch s)) = Some (LRam (sg_offs g));
  ru_branch : may_branch (ch s) = true
}.

Lemma at_ld {D} w o (s : sys D) : at_core w o s -> ld_cmd 2 o_command s = Some w.
Proof. intros H. unfold ld_cmd. rewrite (at_cmd _ _ _ H). cbn [mbind option_bind plus]. apply H. Qed.

(** The status and the residual count are stamped into the descriptor. *)
Lemma st_cmd_eq {D} w o n f v (s : sys D) : at_core w o s ->
  st_cmd n f v s = (m ← st_le n (LRam (o + f)) v (mem s); Some (set_mem m s)).
Proof. intros H. unfold st_cmd. by rewrite (at_cmd _ _ _ H). Qed.

Lemma stamp_eq {D} w o (s : sys D) : at_core w o s ->
  exists m', stamp_status s = Some (set_mem m' s) /\ frame (fun x => o + 12 <= x < o + 16) (mem s) m' /\
    ld_le 2 (LRam (o + o_res_count)) m' = Some (le_value (le_bytes 2
      (if is_input (w .& 0xf000) || is_output (w .& 0xf000) then req_count (iostate (ch s)) - res_count (iostate (ch s)) else 0))).
Proof.
  intros H. pose proof (at_size _ _ _ H) as Hs. unfold stamp_status. rewrite (at_idle _ _ _ H), (at_rom _ _ _ H). cbn [orb].
  rewrite (at_ld _ _ _ H). cbn [mbind option_bind]. cbv zeta. rewrite (st_cmd_eq w o) by done.
  destruct (st_le_ram 2 (o + o_xfer_status) (status (ch s)) (mem s)) as (m1 & E1 & F1 & _); [unfold o_xfer_status; lia..|].
  rewrite E1. cbn [mbind option_bind]. change (st_cmd 2 o_res_count ?v (set_mem m1 s)) with (p ← cur_cmd (ch s); m ← st_le 2 (plus p o_res_count) v m1; Some (set_mem m s)).
  rewrite (at_cmd _ _ _ H). cbn [mbind option_bind plus].
  set (res := if _ || _ then _ else _).
  destruct (st_le_ram 2 (o + o_res_count) res m1) as (m2 & E2 & F2 & L2); [unfold o_res_count; lia|rewrite (fr_size _ _ _ F1); unfold o_res_count; lia|].
  rewrite E2. cbn [mbind option_bind]. exists m2. split; [done|]. split; [|done].
  apply (frame_trans _ _ m1); eapply frame_weaken; try done; unfold o_xfer_status, o_res_count; cbn; lia.
Qed.

Definition next_ptr {D} (s : sys D) : list Z := le_bytes 4 (u32 (ld_reg r_cmdptr s + CMD_SIZE)).

(** The branch flag is cleared and the command pointer advances. *)
Definition stepped {D} (s : sys D) : sys D :=
  upd (put_reg r_cmdptr (next_ptr s)) (if may_branch (ch s) then upd (clear_bits BT) s else s).

Lemma stepped_core {D} w o (s : sys D) : at_core w o s -> at_core w o (stepped s).
Proof.
  intros [H1 H2 H3 H4 H5 H6 H7]. unfold stepped. split; destruct (may_branch (ch s)); try done.
  - cbn [ch upd put_reg set_reg reg clear_bits set_status]. rewrite !length_app, length_take, length_drop.
    unfold next_ptr. rewrite le_bytes_length, H1. unfold r_cmdptr. lia.
  - cbn [ch upd put_reg set_reg reg]. rewrite !length_app, length_take, length_drop.
    unfold next_ptr. rewrite le_bytes_length, H1. unfold r_cmdptr. lia.
  - cbn [ch upd put_reg set_reg status clear_bits set_status]. unfold tst in H6 |- *. rewrite <- Z.land_assoc. exact H6.
Qed.

Lemma finish_eq {D} w o (s : sys D) : at_core w o s -> w .& 0xf = 0 ->
  exists m', finish_cmd s = Some (true, upd (set_phase Preparing) (set_mem m' (stepped s))) /\
    frame (fun x => o + 12 <= x < o + 16) (mem s) m' /\
    ld_le 2 (LRam (o + o_res_count)) m' = Some (le_value (le_bytes 2
      (if is_input (w .& 0xf000) || is_output (w .& 0xf000) then req_count (iostate (ch s)) - res_count (iostate (ch s)) else 0))).
Proof.
  intros H Hw. unfold finish_cmd. cbv zeta. rewrite (at_ld _ _ _ H). cbn [mbind option_bind].
  assert (Hb : forall b, b .& 0xf = b -> tst w b = false).
  { intros b Hb. unfold tst. rewrite <- Hb, (Z.land_comm b), Z.land_assoc, Hw. by rewrite Z.land_0_l. }
  rewrite !fires_eq, (Hb WAIT_IFSET), (Hb BR_IFSET), !andb_false_r by done. cbn [mbind option_bind].
  match goal with |- context [stamp_status ?x] => replace x with (stepped s) by (unfold stepped, next_ptr; by destruct (may_branch (ch s))) end.
  pose proof (stepped_core w o s H) as H2. destruct (stamp_eq w o (stepped s) H2) as (m' & E & F & L). rewrite E. cbn [mbind option_bind].
  assert (Hm : mem (stepped s) = mem s /\ iostate (ch (stepped s)) = iostate (ch s)) by (unfold stepped; by destruct (may_branch (ch s))).
  destruct Hm as [Hm Hi]. rewrite Hm in F. rewrite Hi in L. exists m'. split; [|done].
  rewrite no_interrupt. replace (ld_cmd 2 o_command (set_mem m' (stepped s))) with (Some w); [done|].
  unfold ld_cmd. cbn [ch set_mem mem]. rewrite (at_cmd _ _ _ H2). cbn [mbind option_bind plus].
  rewrite (ld_frame _ _ _ _ _ F); [symmetry; apply H|]. intros x. unfold o_command. cbn. lia.
Qed.

Lemma next_transl b a o : transl b a = Some o -> 0 <= o + 16 < size b -> size b <= 2 ^ 32 -> transl b (u32 (a + CMD_SIZE)) = Some (o + 16).
Proof.
  unfold transl. cbv zeta. intros H H1 H2. destruct (Z.ltb_spec (u32 (a - mbase b)) (size b)); [|done]. injection H as <-.
  replace (u32 (u32 (a + CMD_SIZE) - mbase b)) with (u32 (a - mbase b) + 16).
  - by rewrite (proj2 (Z.ltb_lt _ _)) by lia.
  - rewrite u32_sub_l. replace (a + CMD_SIZE - mbase b) with ((a - mbase b) + 16) by (unfold CMD_SIZE; lia).
    rewrite <- u32_add_l. symmetry. apply u32_small. lia.
Qed.

Lemma prepare_eq {D} o (s : sys D) : transl (ram (mem s)) (ld_reg r_cmdptr s) = Some o ->
  prepare_cmd s = upd (fun c => set_phase Starting (set_cur_cmd (Some (LRam o)) false c)) s.
Proof. intros H. unfold prepare_cmd, mphys_to_lvptr. rewrite H. reflexivity. Qed.

(** A transfer starts. *)
Lemma start_transfer {D} ior iow out o g (s : sys D) : at_desc (cmd_of out (sg_last g)) o s -> desc out (mem s) o g ->
  exists s', start_cmd ior iow s = Some (true, s') /\ running out o g 0 s' /\ mem s' = mem s /\ dev s' = dev s /\ irqs s' = irqs s.
Proof.
  intros [Hc Hp] [D1 D2 D3 D4 D5 D6]. unfold start_cmd. cbv zeta. rewrite (at_ld _ _ _ Hc). cbn [mbind option_bind].
  assert (Hx : is_output (cmd_of out (sg_last g) .& 0xf000) = out /\ is_input (cmd_of out (sg_last g) .& 0xf000) = negb out) by (by destruct out, (sg_last g)).
  destruct Hx as [-> ->]. replace (out || negb out) with true by (by destruct out). cbv iota.
  assert (L : forall n f, ld_cmd n f (upd (set_may_branch true) (upd (fun c => clear_bits WAKE (set_may_branch false c)) s)) = ld_le n (LRam (o + f)) (mem s)).
  { intros n f. unfold ld_cmd. cbn [ch upd cur_cmd set_may_branch clear_bits set_status mem]. rewrite (at_cmd _ _ _ Hc). done. }
  rewrite !L, D2, D3. cbn [mbind option_bind].
  replace (cmd_of out (sg_last g) .& 0x700 =? 0x400) with false by (by destruct out, (sg_last g)).
  replace (cmd_of out (sg_last g) .& 0x700) with 0 by (by destruct out, (sg_last g)).
  eexists. split; [reflexivity|]. destruct Hc as [C1 C2 C3 C4 C5 C6 C7].
  unfold start_input, start_output, start_io, transl_mphys, transl_ro_mphys. cbn [mem upd]. rewrite D4.
  cbn [fmap option_fmap option_map]. rewrite bool_decide_eq_true_2 by (by eexists).
  assert (C6' : tst (status (clear_bits WAKE (ch s))) PAUSE = false).
  { cbn [status clear_bits set_status]. unfold tst in C6 |- *. rewrite <- Z.land_assoc. exact C6. }
  destruct out; (split; [|done]); by (split; [split; [split|]|..]).
Qed.

(** A STOP ends the program. *)
Lemma start_stop {D} ior iow o (s : sys D) : at_core DBDMA_STOP o s ->
  exists s', start_cmd ior iow s = Some (false, s') /\ cmd_phase (ch s') = Idling /\ idle (ch s') = true /\
    tst (status (ch s')) ACTIVE = false /\ mem s' = mem s /\ dev s' = dev s /\ irqs s' = irqs s /\
    tst (status (ch s')) PAUSE = tst (status (ch s)) PAUSE.
Proof.
  intros Hc. unfold start_cmd. cbv zeta. rewrite (at_ld _ _ _ Hc). cbn [mbind option_bind]. eexists. split; [reflexivity|].
  split_and!; try done; cbn [ch upd status set_phase set_idle clear_bits set_status set_may_branch]; unfold tst.
  - rewrite <- Z.land_assoc. change (Z.lnot ACTIVE .& ACTIVE) with 0. by rewrite Z.land_0_r.
  - rewrite <- !Z.land_assoc. done.
Qed.

Lemma process_cmds_step {D} ior iow fuel (s s' : sys D) : tst (status (ch s)) PAUSE = false ->
  process_cmd ior iow s = Some (true, s') -> process_cmds ior iow (S fuel) s = process_cmds ior iow fuel s'.
Proof. intros H E. cbn [process_cmds]. by rewrite H, E. Qed.

Lemma process_cmds_stop {D} ior iow fuel (s s' : sys D) : tst (status (ch s)) PAUSE = false ->
  process_cmd ior iow s = Some (false, s') -> process_cmds ior iow (S fuel) s = Some s'.
Proof. intros H E. cbn [process_cmds]. by rewrite H, E. Qed.

(** Where the channel stands after the descriptor at [o] *)
Definition at_next {D} (out : bool) (o : Z) (l : list seg) (s : sys D) : Prop :=
  match l with
  | [] => cmd_phase (ch s) = Idling /\ idle (ch s) = true /\ tst (status (ch s)) ACTIVE = false /\ tst (status (ch s)) PAUSE = false
  | g :: _ => running out o g 0 s
  end.

Lemma cmd_of_low out last : cmd_of out last .& 0xf = 0.
Proof. by destruct out, last. Qed.

(** The command at [o] is completed and the next one is started. *)
Lemma prepared {D} out o l (s : sys D) m' : at_core (cmd_of out true) o s \/ at_core (cmd_of out false) o s ->
  transl (ram (mem s)) (ld_reg r_cmdptr s) = Some o ->
  frame (fun x => o + 12 <= x < o + 16) (mem s) m' -> program out (mem s) (o + 16) l ->
  exists w, at_desc w (o + 16) (upd (set_phase Starting) (upd (set_cur_cmd (Some (LRam (o + 16))) false) (upd (set_phase Preparing) (set_mem m' (stepped s))))) /\
    prepare_cmd (upd (set_phase Preparing) (set_mem m' (stepped s))) =
      upd (set_phase Starting) (upd (set_cur_cmd (Some (LRam (o + 16))) false) (upd (set_phase Preparing) (set_mem m' (stepped s)))) /\
    match l with [] => w = DBDMA_STOP | g :: _ => w = cmd_of out (sg_last g) /\ desc out m' (o + 16) g end.
Proof.
  intros Hat Hp Hf Hl.
  assert (Hc : exists w, at_core w o s) by (by destruct Hat; eexists). destruct Hc as [w0 Hc]. clear Hat.
  pose proof (at_size _ _ _ Hc) as Hsz. pose proof (stepped_core _ _ _ Hc) as [S1 S2 S3 S4 S5 S6 S7].
  assert (Hl' : program out m' (o + 16) l) by (apply (program_frame out _ (mem s) m' l _ Hf); [intros x; unfold prog_end; lia|done]).
  assert (Hr : ld_reg r_cmdptr (upd (set_phase Preparing) (set_mem m' (stepped s))) = u32 (ld_reg r_cmdptr s + CMD_SIZE)).
  { change (ld_reg r_cmdptr (upd (set_phase Preparing) (set_mem m' (stepped s)))) with (ld_reg r_cmdptr (stepped s)).
    unfold stepped, ld_reg at 1. rewrite reg_bytes_put.
    - unfold next_ptr. apply le_value_bytes. apply u32_range.
    - done.
    - apply le_bytes_length.
    - destruct (may_branch (ch s)); cbn [ch upd reg clear_bits set_status]; rewrite (at_reg _ _ _ Hc); unfold r_cmdptr; lia. }
  assert (Ht : transl (ram m') (u32 (ld_reg r_cmdptr s + CMD_SIZE)) = Some (o + 16)).
  { rewrite (transl_frame _ _ _ _ Hf). destruct l; destruct Hl as (Hl0 & Hl1 & _); apply next_transl; try done; lia. }
  set (w := match l with [] => DBDMA_STOP | g :: _ => cmd_of out (sg_last g) end). exists w. split; [|split].
  - split; [split; try done|].
    + destruct l; destruct Hl' as (Hl0 & Hl1 & _); (split; [done|]); (split; [done|]); cbn [mem upd set_mem]; rewrite (fr_size _ _ _ Hf); lia.
    + destruct l; destruct Hl' as (_ & _ & Hw); [exact Hw|]. apply Hw.
    + cbn [mem upd set_mem]. exact (eq_trans (f_equal _ Hr) Ht).
  - rewrite (prepare_eq (o + 16)); [done|]. cbn [mem upd set_mem]. by rewrite Hr.
  - destruct l as [|g l]; [done|]. split; [done|]. apply Hl'.
Qed.

Lemma advance {D} ior iow out o last l (s : sys D) fuel :
  at_desc (cmd_of out last) o s -> cmd_phase (ch s) = Finishing -> req_count (iostate (ch s)) = res_count (iostate (ch s)) ->
  program out (mem s) (o + 16) l -> (4 <= fuel)%nat ->
  exists s', process_cmds ior iow fuel s = Some s' /\ frame (fun x => o + 12 <= x < o + 16) (mem s) (mem s') /\
    ld_le 2 (LRam (o + o_res_count)) (mem s') = Some 0 /\ dev s' = dev s /\ irqs s' = irqs s /\ at_next out (o + 16) l s'.
Proof.
  intros [Hc Hp] Hph Hres Hl Hfuel. do 4 (destruct fuel as [|fuel]; [lia|]).
  destruct (finish_eq _ o s Hc (cmd_of_low out last)) as (m' & E & Hf & L).
  rewrite Hres, Z.sub_diag in L.
  assert (L0 : ld_le 2 (LRam (o + o_res_count)) m' = Some 0) by (rewrite L; by destruct (_ || _)). clear L.
  destruct (prepared out o l s m') as (w & Hd & Ep & Hw); [by destruct last; [left|right]|done..|].
  rewrite (process_cmds_step _ _ _ s (upd (set_phase Preparing) (set_mem m' (stepped s)))); [|apply Hc|unfold process_cmd; by rewrite Hph].
  set (s2 := upd (set_phase Preparing) _) in *. set (s3 := upd (set_phase Starting) _) in *.
  pose proof (at_pause _ _ _ (at_is _ _ _ Hd)) as Hpause.
  rewrite (process_cmds_step _ _ _ s2 s3); [|done|unfold process_cmd; change (cmd_phase (ch s2)) with Preparing; by rewrite Ep].
  assert (Hmem : mem s3 = m' /\ dev s3 = dev s /\ irqs s3 = irqs s) by (unfold s3, s2, stepped; by destruct (may_branch (ch s))).
  destruct Hmem as (M1 & M2 & M3).
  destruct l as [|g l].
  - subst w. destruct (start_stop ior iow (o + 16) s3 (at_is _ _ _ Hd)) as (s4 & E4 & P1 & P2 & P3 & P4 & P5 & P6 & P7).
    rewrite (process_cmds_stop _ _ _ s3 s4); [|done|done]. exists s4. rewrite P4, P5, P6, M1. split_and!; try done. cbn [at_next]. split_and!; try done. by rewrite P7.
  - destruct Hw as [-> Hg]. rewrite <- M1 in Hg.
    destruct (start_transfer ior iow out (o + 16) g s3 Hd Hg) as (s4 & E4 & R & P4 & P5 & P6).
    rewrite (process_cmds_step _ _ _ s3 s4); [|done|done].
    rewrite (process_cmds_stop _ _ _ s4 s4); [|apply R|unfold process_cmd; rewrite (ru_phase _ _ _ _ _ R); by destruct out].
    exists s4. rewrite P4, P5, P6, M1. split_and!; done.
Qed.

(** ** The device *)

Lemma running_next {D} out o g d (s : sys D) : running out o g d s -> running out o g d (upd next_identifier s).
Proof. intros [[[H1 H2 H3 H4 H5 H6 H7] H8] R2 R3 R4 R5 R6]. by split; [split; [split|]|..]. Qed.

Definition pb_of {D} (s : sys D) : dma_pb :=
  let i := iostate (ch s) in DmaPb (res_count i) (req_count i) (buf i) (is_last i) (key i) (identifier (ch s)).

Lemma req_eq {D} ior iow fuel out o g d (s : sys D) : running out o g d s ->
  dma_req ior iow (if out then Outputing else Inputing) fuel s = Some (Some (pb_of (upd next_identifier s)), upd next_identifier s).
Proof.
  intros H. unfold dma_req. rewrite (at_pause _ _ _ (at_is _ _ _ (ru_at _ _ _ _ _ H))).
  rewrite !decide_True by apply H. cbn [mbind option_bind]. rewrite decide_True by apply H. done.
Qed.

(** An acknowledgement of [n] bytes that are in memory already *)
Lemma ack_eq {D} ior iow fuel out o g d n l (s : sys D) m' (P : Z -> Prop) :
  running out o g d s -> frame P (mem s) m' -> (forall x, P x -> x < o \/ prog_end o (g :: l) <= x) ->
  desc out (mem s) o g -> program out (mem s) (o + 16) l ->
  0 < n -> d + n <= sg_cnt g -> (4 <= fuel)%nat ->
  exists s', ack_done ior iow fuel (upd (set_res_count (d + n)) (set_mem m' s)) = Some s' /\
    frame (fun x => o + 12 <= x < o + 16) m' (mem s') /\ dev s' = dev s /\ irqs s' = irqs s /\
    program out m' (o + 16) l /\ desc out m' o g /\
    (if d + n <? sg_cnt g then running out o g (d + n) s' /\ mem s' = m'
     else at_next out (o + 16) l s' /\ ld_le 2 (LRam (o + o_res_count)) (mem s') = Some 0).
Proof.
  intros H Hf HP Hd Hl Hn Hle Hfuel. pose proof H as [[[C1 C2 C3 C4 C5 C6 C7] Cp] R2 R3 R4 R5 R6].
  assert (HP' : forall x, o <= x < prog_end o (g :: l) -> ~ P x) by (intros x Hx Hp; apply HP in Hp; lia).
  unfold prog_end in HP'. cbn [length] in HP'.
  assert (Hd' : desc out m' o g) by (apply (desc_frame out P (mem s)); [done| |done]; intros x Hx; apply HP'; lia).
  assert (Hl' : program out m' (o + 16) l) by (apply (program_frame out P (mem s)); [done| |done]; intros x; unfold prog_end; intros Hx; apply HP'; lia).
  set (s1 := upd (set_res_count (d + n)) (set_mem m' s)).
  assert (Hat : at_desc (cmd_of out (sg_last g)) o s1).
  { split; [split; try done|].
    - cbn [mem s1 upd set_mem]. by rewrite (fr_size _ _ _ Hf).
    - cbn [mem s1 upd set_mem]. apply Hd'.
    - cbn [mem s1 upd set_mem]. by rewrite (transl_frame _ _ _ _ Hf). }
  unfold ack_done. change (req_count (iostate (ch s1))) with (req_count (iostate (ch s))). rewrite R3.
  change (res_count (iostate (ch s1))) with (d + n). rewrite Z.leb_antisym. destruct (Z.ltb_spec (d + n) (sg_cnt g)) as [Hlt|Hge]; cbn [negb].
  - exists s1. split_and!; done.
  - assert (Hat2 : at_desc (cmd_of out (sg_last g)) o (upd (set_phase Finishing) s1)) by (destruct Hat as [[]]; by split; [split|]).
    destruct (advance ior iow out o (sg_last g) l (upd (set_phase Finishing) s1) fuel Hat2) as (s' & E & F & L & E1 & E2 & N); try done.
    { cbn. rewrite R3. lia. }
    exists s'. split_and!; done.
Qed.

(** A device that delivers [data], at most [chunk] bytes at a time *)
Fixpoint feed {D} ior iow (fuel steps : nat) (chunk : Z) (data : list Z) (s : sys D) : option (list Z * sys D) :=
  match steps, data with
  | O, _ | _, [] => Some (data, s)
  | S n, _ =>
      '(r, s) ← dma_write_req ior iow fuel s;
      match r with
      | None => Some (data, s)
      | Some pb =>
          let k := Z.min (Z.min chunk (pb_req_count pb - pb_res_count pb)) (Z.of_nat (length data)) in
          '(_, s) ← dma_write_ack ior iow fuel data k pb s;
          feed ior iow fuel n chunk (drop (Z.to_nat k) data) s
      end
  end.

(** A device that takes what there is, at most [chunk] bytes at a time *)
Fixpoint drain {D} ior iow (fuel steps : nat) (chunk : Z) (s : sys D) : option (list Z * sys D) :=
  match steps with
  | O => Some ([], s)
  | S n =>
      '(r, s) ← dma_read_req ior iow fuel s;
      match r with
      | None => Some ([], s)
      | Some pb =>
          let k := Z.min chunk (pb_req_count pb - pb_res_count pb) in
          p ← pb_buf pb;
          l ← load (plus p (pb_res_count pb)) (Z.to_nat k) (mem s);
          '(_, s) ← dma_read_ack ior iow fuel k pb s;
          '(l', s) ← drain ior iow fuel n chunk s;
          Some (l ++ l', s)
      end
  end.

(** The contents of the buffers *)
Definition buffer (m : memory) (g : seg) : list Z := bytes (ram m) (sg_offs g) (Z.to_nat (sg_cnt g)).
Definition gather (m : memory) (l : list seg) : list Z := concat (map (buffer m) l).

Definition in_seg (g : seg) (x : Z) : Prop := sg_offs g <= x < sg_offs g + sg_cnt g.
(** The buffers lie outside the program from [o] on. *)
Definition outside (o : Z) (l : list seg) (e : Z) : Prop := Forall (fun g => sg_offs g + sg_cnt g <= o \/ e <= sg_offs g) l.
(** No two buffers overlap. *)
Fixpoint apart (l : list seg) : Prop :=
  match l with
  | [] => True
  | g :: l' => Forall (fun h => sg_offs g + sg_cnt g <= sg_offs h \/ sg_offs h + sg_cnt h <= sg_offs g) l' /\ apart l'
  end.

Definition total (l : list seg) : Z := fold_right (fun g t => sg_cnt g + t) 0 l.

Lemma gather_frame (P : Z -> Prop) m m' l : frame P m m' -> Forall (fun g => 0 <= sg_cnt g /\ forall x, in_seg g x -> ~ P x) l ->
  gather m' l = gather m l.
Proof.
  intros Hf Hl. unfold gather. f_equal. induction Hl as [|g l [Hc H] _ IH]; [done|]. cbn [map]. f_equal; [|done].
  unfold buffer. apply (bytes_frame P); [done|]. intros x Hx. apply H. unfold in_seg. lia.
Qed.

Lemma outside_mono o o' l e : o <= o' -> outside o l e -> outside o' l e.
Proof.
  intros Ho H. eapply Forall_impl; [|exact H]. intros g Hg. cbn in Hg.
  lia.
Qed.

Lemma program_cnt out m l : forall o, program out m o l -> Forall (fun g => 0 < sg_cnt g /\ 0 <= sg_offs g /\ sg_offs g + sg_cnt g <= size (ram m)) l.
Proof.
  induction l as [|g l IH]; intros o H; [constructor|]. destruct H as (_ & _ & [_ _ _ _ Hr Hc] & H).
  constructor; [lia|by apply (IH (o + 16))].
Qed.

Lemma total_nonneg out m l o : program out m o l -> 0 <= total l.
Proof. intros H%program_cnt. unfold total. induction H as [|g l Hg _ IH]; cbn in *; lia. Qed.

(** The part of a buffer that is still to come *)
Definition rest (m : memory) (g : seg) (d : Z) : list Z := bytes (ram m) (sg_offs g + d) (Z.to_nat (sg_cnt g - d)).

Lemma rest_split m g d k : 0 <= k -> d + k <= sg_cnt g ->
  rest m g d = bytes (ram m) (sg_offs g + d) (Z.to_nat k) ++ rest m g (d + k).
Proof.
  intros H1 H2. unfold rest. replace (Z.to_nat (sg_cnt g - d)) with (Z.to_nat k + Z.to_nat (sg_cnt g - (d + k)))%nat by lia.
  rewrite bytes_app. do 2 f_equal. lia.
Qed.

Lemma idle_req {D} ior iow want fuel (s : sys D) : cmd_phase (ch s) = Idling -> tst (status (ch s)) PAUSE = false ->
  want <> Idling -> (1 <= fuel)%nat -> dma_req ior iow want fuel s = Some (None, s).
Proof.
  intros H1 H2 H3 Hf. destruct fuel; [lia|]. unfold dma_req. rewrite H2, decide_False by congruence. cbn [process_cmds].
  rewrite H2. unfold process_cmd. rewrite H1. cbn [mbind option_bind]. rewrite decide_False by congruence. done.
Qed.

Lemma read_ack_eq {D} ior iow fuel o g d k (s : sys D) : running true o g d s -> d + k <= sg_cnt g ->
  dma_read_ack ior iow fuel k (pb_of s) s = (s' ← ack_done ior iow fuel (upd (set_res_count (d + k)) (set_mem (mem s) s)); Some (0, s')).
Proof.
  intros Hr Hk. unfold dma_read_ack. cbn [pb_of pb_identifier]. rewrite Z.eqb_refl.
  rewrite (ru_phase _ _ _ _ _ Hr), bool_decide_eq_true_2 by done. cbn [negb orb]. cbv zeta.
  rewrite (ru_res _ _ _ _ _ Hr), (ru_req _ _ _ _ _ Hr). rewrite (proj2 (Z.ltb_ge _ _)) by lia. by destruct s.
Qed.

Lemma drain_running {D} ior iow fuel chunk steps : (4 <= fuel)%nat -> 0 < chunk -> forall o g d l (s : sys D),
  running true o g d s -> desc true (mem s) o g -> program true (mem s) (o + 16) l -> 0 <= d < sg_cnt g ->
  outside o (g :: l) (prog_end o (g :: l)) -> sg_cnt g - d + total l < Z.of_nat steps ->
  exists s', drain ior iow fuel steps chunk s = Some (rest (mem s) g d ++ gather (mem s) l, s') /\
    cmd_phase (ch s') = Idling /\ tst (status (ch s')) ACTIVE = false /\
    frame (fun x => o <= x < prog_end o (g :: l)) (mem s) (mem s') /\ dev s' = dev s /\ irqs s' = irqs s.
Proof.
  intros Hfuel Hch. induction steps as [|n IH]; intros o g d l s Hr Hd Hl Hdd Hout Hst.
  { pose proof (total_nonneg _ _ _ _ Hl). lia. }
  cbn [drain]. unfold dma_read_req. rewrite (req_eq ior iow fuel true o g d s Hr). cbn [mbind option_bind].
  pose proof (running_next _ _ _ _ _ Hr) as Hr1. set (s0 := upd next_identifier s) in *.
  change (mem s) with (mem s0) in *. change (dev s) with (dev s0). change (irqs s) with (irqs s0). clearbody s0. clear Hr s.
  change (pb_req_count (pb_of s0)) with (req_count (iostate (ch s0))). change (pb_res_count (pb_of s0)) with (res_count (iostate (ch s0))).
  change (pb_buf (pb_of s0)) with (buf (iostate (ch s0))).
  rewrite (ru_req _ _ _ _ _ Hr1), (ru_res _ _ _ _ _ Hr1), (ru_buf _ _ _ _ _ Hr1). cbn [mbind option_bind plus].
  set (k := Z.min chunk (sg_cnt g - d)). assert (Hk : 0 < k <= sg_cnt g - d) by (unfold k; lia).
  pose proof (de_range _ _ _ _ Hd) as Hrg. unfold load, inside. cbn [offs_of bank_of].
  rewrite (proj2 (Z.leb_le 0 _)), (proj2 (Z.leb_le _ (size (ram (mem s0))))) by lia. cbn [andb mbind option_bind].
  rewrite (read_ack_eq ior iow fuel o g d k s0 Hr1) by lia.
  destruct (ack_eq ior iow fuel true o g d k l s0 (mem s0) (fun _ => False)) as (s1 & E1 & F1 & V1 & Q1 & L1 & D1 & N1);
    [done|apply frame_refl|done|done|done|lia..|done|].
  rewrite E1. cbn [mbind option_bind].
  assert (Hag : gather (mem s1) l = gather (mem s0) l).
  { apply (gather_frame _ _ _ _ F1). apply list.Forall_cons in Hout as [_ Hout]. unfold outside, prog_end in Hout. cbn [length] in Hout.
    rewrite list.Forall_forall in Hout |- *. pose proof (program_cnt _ _ _ _ Hl) as Hc. rewrite list.Forall_forall in Hc.
    intros h Hh. specialize (Hout h Hh). specialize (Hc h Hh). split; [lia|]. unfold in_seg. intros x Hx. lia. }
  rewrite (rest_split (mem s0) g d k) by lia. rewrite <- app_assoc.
  destruct (Z.ltb_spec (d + k) (sg_cnt g)) as [Hlt|Hge].
  - destruct N1 as [N1 M1]. destruct (IH o g (d + k) l s1) as (s2 & E2 & P1 & P2 & P3 & P4 & P5); rewrite ?M1; try done; [lia|lia|].
    rewrite E2. cbn [mbind option_bind]. exists s2. rewrite M1 in *. rewrite P4, P5. split_and!; done.
  - assert (Hz : rest (mem s0) g (d + k) = []) by (unfold rest; by replace (Z.to_nat (sg_cnt g - (d + k))) with 0%nat by lia).
    rewrite Hz. cbn [app]. destruct N1 as [N1 _]. destruct l as [|g' l].
    + destruct N1 as (N2 & N3 & N4 & N5). exists s1.
      assert (E : drain ior iow fuel n chunk s1 = Some ([], s1)).
      { destruct n as [|n]; [done|]. cbn [drain]. unfold dma_read_req. by rewrite idle_req by (done || lia). }
      rewrite E. cbn [mbind option_bind]. split_and!; try done.
      apply (frame_weaken _ _ _ _ F1). unfold prog_end. cbn [length]. lia.
    + cbn [total fold_right] in Hst. fold (total l) in Hst.
      apply list.Forall_cons in Hout as [_ Hout]. pose proof L1 as (Q2 & Q3 & Q4 & Q5).
      assert (Hp1 : program true (mem s1) (o + 16) (g' :: l)).
      { apply (program_frame _ _ _ _ _ _ F1); [intros x; unfold prog_end; lia|done]. }
      destruct (IH (o + 16) g' 0 l s1) as (s2 & E2 & P1 & P2 & P3 & P4 & P5); try done.
      * apply Hp1.
      * apply Hp1.
      * destruct (de_cnt _ _ _ _ Q4). lia.
      * apply (outside_mono o); [lia|]. unfold prog_end in Hout |- *. cbn [length] in Hout |- *.
        by replace (o + 16 + 16 * (Z.of_nat (S (length l)) + 1)) with (o + 16 * (Z.of_nat (S (S (length l))) + 1)) by lia.
      * lia.
      * rewrite E2. cbn [mbind option_bind]. exists s2. rewrite P4, P5. split_and!; try done.
        -- rewrite <- Hag. unfold rest, gather, buffer. cbn [map concat]. by rewrite Z.add_0_r, Z.sub_0_r.
        -- apply (frame_trans _ _ (mem s1)); [apply (frame_weaken _ _ _ _ F1)|apply (frame_weaken _ _ _ _ P3)];
             unfold prog_end; cbn [length]; lia.
Qed.

Lemma write_ack_eq {D} ior iow fuel o g d k data (s : sys D) : running false o g d s -> desc false (mem s) o g ->
  0 <= d -> 0 <= k -> d + k <= sg_cnt g -> k <= Z.of_nat (length data) ->
  exists m', dma_write_ack ior iow fuel data k (pb_of s) s =
      (s' ← ack_done ior iow fuel (upd (set_res_count (d + k)) (set_mem m' s)); Some (0, s')) /\
    bytes (ram m') (sg_offs g + d) (Z.to_nat k) = take (Z.to_nat k) data /\
    frame (fun x => sg_offs g + d <= x < sg_offs g + d + k) (mem s) m'.
Proof.
  intros Hr Hd Hd0 Hk0 Hk Hl. pose proof (de_range _ _ _ _ Hd) as Hrg.
  assert (Hlen : length (take (Z.to_nat k) data) = Z.to_nat k) by (rewrite length_take; lia).
  destruct (store_ram (sg_offs g + d) (take (Z.to_nat k) data) (mem s)) as (m' & E & Hb & Hf); [lia|rewrite Hlen; lia|].
  rewrite Hlen, Z2Nat.id in Hf by done. rewrite Hlen in Hb. exists m'. split; [|done].
  unfold dma_write_ack. cbn [pb_of pb_identifier]. rewrite Z.eqb_refl.
  rewrite (ru_phase _ _ _ _ _ Hr), bool_decide_eq_true_2 by done. cbn [negb orb]. cbv zeta.
  rewrite (ru_res _ _ _ _ _ Hr), (ru_req _ _ _ _ _ Hr), (ru_buf _ _ _ _ _ Hr). rewrite (proj2 (Z.ltb_ge (sg_cnt g) (d + k))) by lia. rewrite (proj2 (Z.ltb_ge k 0)), (proj2 (Z.ltb_ge (Z.of_nat (length data)) k)) by lia.
  cbn [orb mbind option_bind plus]. rewrite E. done.
Qed.

(** What the transfer of the rest of [g] and of [l] may change *)
Definition touched (o : Z) (g : seg) (d : Z) (l : list seg) (x : Z) : Prop :=
  o <= x < prog_end o (g :: l) \/ sg_offs g + d <= x < sg_offs g + sg_cnt g \/ Exists (fun h => in_seg h x) l.

Lemma touched_next o g d g' l x : 0 <= d -> touched (o + 16) g' 0 l x -> touched o g d (g' :: l) x.
Proof.
  unfold touched, prog_end. cbn [length]. intros Hd [H|[H|H]]; [left; lia|right; right..].
  - left. unfold in_seg. lia.
  - by right.
Qed.

Lemma not_touched o g d l x : sg_offs g + sg_cnt g <= o \/ prog_end o (g :: l) <= sg_offs g ->
  Forall (fun h => sg_offs g + sg_cnt g <= sg_offs h \/ sg_offs h + sg_cnt h <= sg_offs g) l ->
  sg_offs g <= x < sg_offs g + d -> d <= sg_cnt g -> ~ touched o g d l x.
Proof.
  intros Ho Ha Hx Hd [H|[H|H]]; [lia|lia|]. apply list.Exists_exists in H as (h & Hh & Hin).
  rewrite list.Forall_forall in Ha. specialize (Ha h Hh). unfold in_seg in Hin. lia.
Qed.

(** The [k] bytes just stored stay as the rest arrives. *)
Lemma feed_glue o g d k l data m m' m2 : sg_offs g + sg_cnt g <= o \/ prog_end o (g :: l) <= sg_offs g ->
  Forall (fun h => sg_offs g + sg_cnt g <= sg_offs h \/ sg_offs h + sg_cnt h <= sg_offs g) l ->
  0 <= d -> 0 <= k -> d + k <= sg_cnt g ->
  bytes (ram m') (sg_offs g + d) (Z.to_nat k) = take (Z.to_nat k) data ->
  frame (fun x => sg_offs g + d <= x < sg_offs g + d + k) m m' -> frame (touched o g (d + k) l) m' m2 ->
  rest m2 g (d + k) ++ gather m2 l = drop (Z.to_nat k) data ->
  rest m2 g d ++ gather m2 l = data /\ frame (touched o g d l) m m2.
Proof.
  intros Ho Ha Hd Hk Hdk Hb Hf Hf2 Hr. split.
  - rewrite (rest_split m2 g d k), <- app_assoc, Hr by done. rewrite (bytes_frame _ _ _ _ _ Hf2), Hb; [apply take_drop|].
    intros x Hx. apply not_touched; [done|done|lia|lia].
  - apply (frame_trans _ _ m').
    + apply (frame_weaken _ _ _ _ Hf). intros x Hx. right. left. lia.
    + apply (frame_weaken _ _ _ _ Hf2). intros x [H|[H|H]]; [by left|right; left; lia|by right; right].
Qed.

Lemma feed_running {D} ior iow fuel chunk steps : (4 <= fuel)%nat -> 0 < chunk -> forall o g d l data (s : sys D),
  running false o g d s -> desc false (mem s) o g -> program false (mem s) (o + 16) l -> 0 <= d < sg_cnt g ->
  outside o (g :: l) (prog_end o (g :: l)) -> apart (g :: l) ->
  Z.of_nat (length data) = sg_cnt g - d + total l -> (length data <= steps)%nat ->
  exists s', feed ior iow fuel steps chunk data s = Some ([], s') /\
    cmd_phase (ch s') = Idling /\ tst (status (ch s')) ACTIVE = false /\
    rest (mem s') g d ++ gather (mem s') l = data /\
    frame (touched o g d l) (mem s) (mem s') /\ dev s' = dev s /\ irqs s' = irqs s.
Proof.
  intros Hfuel Hch. induction steps as [|n IH]; intros o g d l data s Hr Hd Hl Hdd Hout Hap Hlen Hst.
  { pose proof (total_nonneg _ _ _ _ Hl). lia. }
  pose proof (total_nonneg _ _ _ _ Hl) as Htot.
  cbn [feed]. destruct data as [|b0 data0] eqn:Edata; [change (Z.of_nat (length [])) with 0 in Hlen; lia|]. rewrite <- Edata in *. clear b0 data0 Edata.
  unfold dma_write_req. rewrite (req_eq ior iow fuel false o g d s Hr). cbn [mbind option_bind].
  pose proof (running_next _ _ _ _ _ Hr) as Hr1. set (s0 := upd next_identifier s) in *.
  change (mem s) with (mem s0) in *. change (dev s) with (dev s0). change (irqs s) with (irqs s0). clearbody s0. clear Hr s.
  change (pb_req_count (pb_of s0)) with (req_count (iostate (ch s0))). change (pb_res_count (pb_of s0)) with (res_count (iostate (ch s0))).
  rewrite (ru_req _ _ _ _ _ Hr1), (ru_res _ _ _ _ _ Hr1).
  set (k := Z.min _ (Z.of_nat (length data))). assert (Hk : 0 < k <= sg_cnt g - d /\ k <= Z.of_nat (length data)) by (unfold k; lia).
  destruct (write_ack_eq ior iow fuel o g d k data s0 Hr1 Hd) as (m' & E0 & Hb & Hf); [lia..|].
  rewrite E0. apply list.Forall_cons in Hout as [Ho1 Ho2]. destruct Hap as [Hap1 Hap2].
  destruct (ack_eq ior iow fuel false o g d k l s0 m' _ Hr1 Hf) as (s1 & E1 & F1 & V1 & Q1 & L1 & D1 & N1); [lia|done|done|lia..|done|].
  rewrite E1. cbn [mbind option_bind]. destruct Hk as [Hk Hkl].
  assert (Hdrop : Z.of_nat (length (drop (Z.to_nat k) data)) = sg_cnt g - (d + k) + total l) by (rewrite length_drop; lia).
  assert (Hdn : (length (drop (Z.to_nat k) data) <= n)%nat) by (rewrite length_drop; lia).
  enough (exists s', feed ior iow fuel n chunk (drop (Z.to_nat k) data) s1 = Some ([], s') /\
    cmd_phase (ch s') = Idling /\ tst (status (ch s')) ACTIVE = false /\
    rest (mem s') g (d + k) ++ gather (mem s') l = drop (Z.to_nat k) data /\
    frame (touched o g (d + k) l) m' (mem s') /\ dev s' = dev s0 /\ irqs s' = irqs s0) as (s2 & E2 & P1 & P2 & P3 & P4 & P5 & P6).
  { destruct (feed_glue o g d k l data (mem s0) m' (mem s2)) as [G1 G2]; try done; [lia..|]. exists s2. split_and!; done. }
  destruct (Z.ltb_spec (d + k) (sg_cnt g)) as [Hlt|Hge].
  - destruct N1 as [N1 M1]. destruct (IH o g (d + k) l (drop (Z.to_nat k) data) s1) as (s2 & E2 & P1 & P2 & P3 & P4 & P5 & P6);
      rewrite ?M1; try done; [lia|by constructor|]. rewrite M1 in P4. exists s2. rewrite P5, P6. split_and!; done.
  - assert (Hd2 : d + k = sg_cnt g) by lia. rewrite Hd2 in Hdrop |- *. destruct N1 as [N1 _].
    assert (Hz : forall m, rest m g (sg_cnt g) = []) by (intros m; unfold rest; by rewrite Z.sub_diag).
    assert (Hf1 : frame (touched o g (sg_cnt g) l) m' (mem s1)).
    { apply (frame_weaken _ _ _ _ F1). intros x Hx. left. unfold prog_end. cbn [length]. lia. }
    destruct l as [|g' l].
    + destruct N1 as (N2 & N3 & N4 & N5). cbn [total fold_right] in Hdrop.
      assert (Hnil : drop (Z.to_nat k) data = []) by (apply nil_length_inv; lia). rewrite Hnil. exists s1.
      rewrite Hz. split_and!; try done. by destruct n.
    + apply list.Forall_cons in Hap1 as [_ Hap1]. pose proof L1 as (_ & _ & L2 & L3).
      assert (Hp1 : program false (mem s1) (o + 16) (g' :: l)).
      { apply (program_frame _ _ _ _ _ _ F1); [intros x; unfold prog_end; lia|done]. }
      destruct (de_cnt _ _ _ _ L2) as [Hc _].
      destruct (IH (o + 16) g' 0 l (drop (Z.to_nat k) data) s1) as (s2 & E2 & P1 & P2 & P3 & P4 & P5 & P6);
        [done|apply Hp1|apply Hp1|lia| |done| |done|].
      * apply (outside_mono o); [lia|]. unfold outside, prog_end in Ho2 |- *. cbn [length] in Ho2 |- *.
        by replace (o + 16 + 16 * (Z.of_nat (S (length l)) + 1)) with (o + 16 * (Z.of_nat (S (S (length l))) + 1)) by lia.
      * cbn [total fold_right] in Hdrop. fold (total l) in Hdrop. lia.
      * exists s2. rewrite P5, P6. split_and!; try done.
        -- rewrite Hz. cbn [app]. rewrite <- P3. unfold rest, gather, buffer. cbn [map concat]. by rewrite Z.add_0_r, Z.sub_0_r.
        -- apply (frame_trans _ _ (mem s1)); [done|]. apply (frame_weaken _ _ _ _ P4). intros x. apply touched_next. lia.
Qed.

(** ** A program from start to end *)

(** The channel is stopped, and its command pointer is at the program [l] at
    the offset [o] of RAM. *)
Record armed {D} (out : bool) (o : Z) (l : list seg) (s : sys D) : Prop := {
  ar_reg : length (reg (ch s)) = 68%nat;
  ar_idle : idle (ch s) = true;
  ar_status : status (ch s) = 0;
  ar_ptr : transl (ram (mem s)) (ld_reg r_cmdptr s) = Some o;
  ar_prog : program out (mem s) o l;
  ar_size : size (ram (mem s)) <= 2 ^ 32
}.

(** The guest sets RUN. *)
Definition set_run {D} ior iow sb (fuel : nat) (s : sys D) : option (sys D) :=
  reg_io_write ior iow sb fuel (4 * r_control) (be_value (le_bytes 4 (RUN .<< 16 .| RUN))) 4 s.

Definition run_bytes : list Z := be_bytes 4 (be_value (le_bytes 4 (RUN .<< 16 .| RUN))).

Lemma control_run {D} ior iow fuel (s : sys D) o : idle (ch s) = true -> status (ch s) = RUN ->
  transl (ram (mem s)) (ld_reg r_cmdptr s) = Some o ->
  control_write ior iow fuel RUN s = process_cmds ior iow fuel (upd (fun c =>
    Channel (identifier c) false Starting (RUN .| ACTIVE) (status_byte c) (reg c) (Some (LRam o)) false (may_branch c) (iostate c)) s).
Proof.
  intros Hi Hs Hp. destruct s as [[i idl ph st sb rg cc cr mb io] m d q]. cbn [ch idle status] in Hi, Hs. subst idl st.
  set (s0 := Sys (Channel i true ph RUN sb rg cc cr mb io) m d q) in *.
  change (control_write ior iow fuel RUN s0) with
    (let t := upd (clear_bits ACTIVE) (upd (set_idle false) (prepare_cmd s0)) in
     if negb (idle (ch t)) && negb (tst (status (ch t)) PAUSE) && negb (tst (status (ch t)) DEAD)
     then process_cmds ior iow fuel (upd (set_bits ACTIVE) t) else Some t).
  rewrite (prepare_eq o) by done. reflexivity.
Qed.

Lemma set_run_eq {D} ior iow sb fuel (s : sys D) o : length (reg (ch s)) = 68%nat -> idle (ch s) = true -> status (ch s) = 0 ->
  transl (ram (mem s)) (ld_reg r_cmdptr s) = Some o ->
  set_run ior iow sb fuel s = process_cmds ior iow fuel (upd (fun c =>
    Channel (identifier c) false Starting (RUN .| ACTIVE) (status_byte c) (run_bytes ++ drop 4 (reg c)) (Some (LRam o)) false
      (may_branch c) (iostate c)) s).
Proof.
  intros Hl Hi Hs Hp. unfold set_run, reg_io_write. change (4 * r_control .>> 2) with r_control.
  change (Z.of_nat (NUM_REGS + 1) <=? r_control) with false. cbv iota zeta.
  unfold Ioports.write_mem. change (Ioports.valid_len 4) with true. cbv iota. rewrite decide_True by (rewrite Hl; unfold r_control; lia).
  cbn [mbind option_bind]. change (r_control =? r_control) with true. cbv iota.
  change (be_bytes (Z.to_nat 4) _) with run_bytes. change (take (Z.to_nat (4 * r_control)) (reg (ch s))) with (@nil Z).
  change (drop (Z.to_nat (4 * r_control) + Z.to_nat 4) (reg (ch s))) with (drop 4 (reg (ch s))). cbn [app].
  set (s1 := upd (set_reg (run_bytes ++ drop 4 (reg (ch s)))) s).
  change (ld_reg r_control s1) with (RUN .<< 16 .| RUN). change ((RUN .<< 16 .| RUN) .>> 16) with RUN.
  change (tst RUN 0xff) with false. cbv iota. unfold MASK_INSERT.
  change (upd _ s1) with (upd (fun c => set_status (((RUN .<< 16 .| RUN) .& RUN) .| Z.land (status c) (Z.lnot RUN)) (set_reg (run_bytes ++ drop 4 (reg c)) c)) s).
  rewrite (control_run ior iow fuel _ o); [done|done| |].
  - cbn [ch upd status set_status]. by rewrite Hs.
  - rewrite <- Hp. f_equal. unfold ld_reg, reg_bytes. cbn [ch upd reg set_status set_reg]. do 2 f_equal.
    change (Z.to_nat (4 * r_cmdptr)) with (4 + 8)%nat. rewrite <- !drop_drop. f_equal.
Qed.

Lemma start_armed {D} ior iow sb fuel out o g l (s : sys D) : armed out o (g :: l) s -> (2 <= fuel)%nat ->
  exists s1, set_run ior iow sb fuel s = Some s1 /\ running out o g 0 s1 /\ mem s1 = mem s /\ dev s1 = dev s /\ irqs s1 = irqs s.
Proof.
  intros [H1 H2 H3 H4 (P1 & P2 & P3 & P4) H6] Hf. rewrite (set_run_eq ior iow sb fuel s o) by done.
  set (s1 := upd _ s). do 2 (destruct fuel as [|fuel]; [lia|]).
  assert (Hat : at_desc (cmd_of out (sg_last g)) o s1).
  { split; [split; try done|].
    - cbn [ch upd s1 reg]. rewrite length_app, length_drop, H1. done.
    - apply P3.
    - cbn [mem upd s1]. rewrite <- H4. f_equal. unfold ld_reg, reg_bytes. cbn [ch upd s1 reg]. do 2 f_equal.
      change (Z.to_nat (4 * r_cmdptr)) with (4 + 8)%nat. rewrite <- !drop_drop. f_equal. }
  destruct (start_transfer ior iow out o g s1 Hat P3) as (s2 & E2 & R & M & V & Q).
  rewrite (process_cmds_step _ _ _ s1 s2) by done.
  rewrite (process_cmds_stop _ _ _ s2 s2); [|apply R|unfold process_cmd; rewrite (ru_phase _ _ _ _ _ R); by destruct out].
  exists s2. done.
Qed.

(** a chain of OUTPUT commands gathers the buffers.  When the guest starts
    a channel on a program of OUTPUT commands in RAM that ends with STOP, a
    device that keeps fetching what the channel offers, in pieces of any
    size, gets the contents of the buffers one after the other; the channel
    then comes to rest, and RAM has changed inside the program only, where
    the channel stamps its status. *)
Theorem dma_output_gathers {D} ior iow sb fuel steps chunk o g l (s : sys D) :
  armed true o (g :: l) s -> outside o (g :: l) (prog_end o (g :: l)) ->
  (4 <= fuel)%nat -> 0 < chunk -> total (g :: l) < Z.of_nat steps ->
  exists s1 s2, set_run ior iow sb fuel s = Some s1 /\
    drain ior iow fuel steps chunk s1 = Some (gather (mem s) (g :: l), s2) /\
    cmd_phase (ch s2) = Idling /\ tst (status (ch s2)) ACTIVE = false /\
    frame (fun x => o <= x < prog_end o (g :: l)) (mem s) (mem s2) /\ irqs s2 = irqs s.
Proof.
  intros Ha Hout Hf Hch Hst. destruct (start_armed ior iow sb fuel true o g l s Ha) as (s1 & E1 & R & M & V & Q); [lia|].
  pose proof (ar_prog _ _ _ _ Ha) as (_ & _ & Hd & Hl). destruct (de_cnt _ _ _ _ Hd) as [Hc _].
  destruct (drain_running ior iow fuel chunk steps Hf Hch o g 0 l s1 R) as (s2 & E2 & P1 & P2 & P3 & P4 & P5);
    rewrite ?M; try done; [cbn [total fold_right] in Hst; fold (total l) in Hst; lia|].
  exists s1, s2. rewrite E2, P5, Q. rewrite M in P3 |- *. split_and!; try done.
  unfold rest, gather, buffer. cbn [map concat]. by rewrite Z.add_0_r, Z.sub_0_r.
Qed.

(** C33: a chain of INPUT commands scatters the stream.  When the guest starts
    a channel on a program of INPUT commands into disjoint buffers, a device
    that delivers as many bytes as the buffers hold, in pieces of any size,
    gets rid of all of them; the buffers then hold the stream in order, the
    channel has come to rest, and nothing but the buffers and the program has
    changed in RAM. *)
Theorem dma_input_scatters {D} ior iow sb fuel steps chunk o g l data (s : sys D) :
  armed false o (g :: l) s -> outside o (g :: l) (prog_end o (g :: l)) -> apart (g :: l) ->
  (4 <= fuel)%nat -> 0 < chunk -> Z.of_nat (length data) = total (g :: l) -> (length data <= steps)%nat ->
  exists s1 s2, set_run ior iow sb fuel s = Some s1 /\ feed ior iow fuel steps chunk data s1 = Some ([], s2) /\
    gather (mem s2) (g :: l) = data /\ cmd_phase (ch s2) = Idling /\ tst (status (ch s2)) ACTIVE = false /\
    frame (fun x => o <= x < prog_end o (g :: l) \/ Exists (fun h => in_seg h x) (g :: l)) (mem s) (mem s2) /\ irqs s2 = irqs s.
Proof.
  intros Ha Hout Hap Hf Hch Hlen Hst. destruct (start_armed ior iow sb fuel false o g l s Ha) as (s1 & E1 & R & M & V & Q); [lia|].
  pose proof (ar_prog _ _ _ _ Ha) as (_ & _ & Hd & Hl). destruct (de_cnt _ _ _ _ Hd) as [Hc _].
  destruct (feed_running ior iow fuel chunk steps Hf Hch o g 0 l data s1 R) as (s2 & E2 & P1 & P2 & P3 & P4 & P5 & P6);
    rewrite ?M; try done; [cbn [total fold_right] in Hlen; fold (total l) in Hlen; lia|].
  exists s1, s2. rewrite P6, Q. rewrite M in P4. split_and!; try done.
  - rewrite <- P3. unfold rest, gather, buffer. cbn [map concat]. by rewrite Z.add_0_r, Z.sub_0_r.
  - apply (frame_weaken _ _ _ _ P4). intros x [H|[H|H]]; [by left|right; left; unfold in_seg; lia|by right; right].
Qed.

(** ** Examples *)

Definition desc_bytes (out : bool) (g : seg) : list Z :=
  le_bytes 2 (sg_cnt g) ++ le_bytes 2 (cmd_of out (sg_last g)) ++ le_bytes 4 (sg_addr g) ++ replicate 8 0.
Definition stop_bytes : list Z := le_bytes 2 0 ++ le_bytes 2 DBDMA_STOP ++ replicate 12 0.
Definition ex_first : seg := Seg 0x200 0x200 3 false.
Definition ex_second : seg := Seg 0x300 0x300 2 true.

(** 4 KB of RAM with a program at [0x100] and data at [0x200] and [0x300] *)
Definition ex_ram (out : bool) : gmap Z Z := Eval vm_compute in
  FileIO.put_bytes (FileIO.put_bytes (FileIO.put_bytes ∅ 0x200 [1; 2; 3]) 0x300 [4; 5]) 0x100
    (desc_bytes out ex_first ++ desc_bytes out ex_second ++ stop_bytes).
Definition ex_sys (out : bool) : sys unit :=
  Sys (put_reg r_cmdptr (le_bytes 4 0x100) new_channel) (Mem (Bank 0 0x1000 (ex_ram out)) (Bank 0xffc00000 0x400000 ∅)) tt 0.
Definition ex_read (a n : Z) (s : sys unit) : Z * sys unit := (0, s).
Definition ex_write (a v n : Z) (s : sys unit) : sys unit := s.

Lemma ex_armed out : armed out 0x100 [ex_first; ex_second] (ex_sys out).
Proof.
  assert (H : forall g o, transl (ram (mem (ex_sys out))) (sg_addr g) = Some (sg_offs g) ->
    0 <= sg_offs g /\ sg_offs g + sg_cnt g <= 0x1000 -> 0 < sg_cnt g < 0x10000 ->
    ld_le 2 (LRam (o + o_command)) (mem (ex_sys out)) = Some (cmd_of out (sg_last g)) ->
    ld_le 2 (LRam (o + o_req_count)) (mem (ex_sys out)) = Some (sg_cnt g) ->
    ld_le 4 (LRam (o + o_phy_addr)) (mem (ex_sys out)) = Some (sg_addr g) -> desc out (mem (ex_sys out)) o g).
  { intros g o ? ? ? ? ? ?. by split. }
  split; [done..| | |]; [by destruct out| |cbn; lia].
  split; [lia|]. split; [cbn; lia|]. split; [apply H; [done|cbn; lia|cbn; lia|by destruct out..]|].
  split; [lia|]. split; [cbn; lia|]. split; [apply H; [done|cbn; lia|cbn; lia|by destruct out..]|].
  split; [lia|]. split; [cbn; lia|]. by destruct out.
Qed.

Lemma ex_outside : outside 0x100 [ex_first; ex_second] (prog_end 0x100 [ex_first; ex_second]).
Proof. unfold outside, prog_end. repeat apply list.Forall_cons_2; [cbn; lia..|apply Forall_nil_2]. Qed.

Lemma dma_output_gathers_witness : exists s1 s2, set_run ex_read ex_write None 10 (ex_sys true) = Some s1 /\
  drain ex_read ex_write 10 10 2 s1 = Some ([1; 2; 3; 4; 5], s2) /\ cmd_phase (ch s2) = Idling.
Proof.
  destruct (dma_output_gathers ex_read ex_write None 10 10 2 0x100 ex_first [ex_second] (ex_sys true) (ex_armed true) ex_outside)
    as (s1 & s2 & H1 & H2 & H3 & _); [lia|lia|cbn; lia|].
  exists s1, s2. split; [exact H1|]. split; [exact H2|exact H3].
Defined.

Lemma dma_input_scatters_witness : exists s1 s2, set_run ex_read ex_write None 10 (ex_sys false) = Some s1 /\
  feed ex_read ex_write 10 10 2 [9; 8; 7; 6; 5] s1 = Some ([], s2) /\ gather (mem s2) [ex_first; ex_second] = [9; 8; 7; 6; 5].
Proof.
  destruct (dma_input_scatters ex_read ex_write None 10 10 2 0x100 ex_first [ex_second] [9; 8; 7; 6; 5] (ex_sys false) (ex_armed false) ex_outside)
    as (s1 & s2 & H1 & H2 & H3 & _); [|lia|lia|reflexivity|cbn; lia|].
  - split; [|by split]. apply list.Forall_cons_2; [cbn; lia|apply Forall_nil_2].
  - exists s1, s2. split; [exact H1|]. split; [exact H2|exact H3].
Defined.

Lemma cmdptr_write_scrambles_witness :
  let s := upd (set_status (RUN .| ACTIVE)) (ex_sys true) in
  reg_bytes r_cmdptr s = [0; 1; 0; 0] /\
  exists s', reg_io_write ex_read ex_write None 10 (4 * r_cmdptr) 0 4 s = Some s' /\ reg_bytes r_cmdptr s' = [0; 0; 1; 0].
Proof.
  intros s. split; [reflexivity|].
  destruct (cmdptr_write_scrambles ex_read ex_write None 10 0 s) as (s' & H1 & H2 & _); [reflexivity|reflexivity| |].
  - apply Forall_forall. intros b Hb. vm_compute in Hb. repeat (destruct Hb as [<-|Hb]; [lia|]). destruct Hb.
  - exists s'. split; [exact H1|exact H2].
Defined.

End DbdmaInv.
