(* ===== verification/Pci.v ===== *)
(** * PCI configuration space ([src/drivers/pci.c])

    Each emulated PCI device has a header of static data, a command
    register, six base address registers and a ROM register.  Guest writes go
    through byte by byte; afterwards the ranges that the registers describe
    are mapped or unmapped.  The functions that map a base register and the
    configuration hooks belong to other drivers: they are arguments of the
    model and may change the registered I/O ranges and the state [W] of their
    drivers, but they do not call back into this component. *)

From S2P Require Import Prelude Ioports.

Module Pci.
Export Ioports.

Definition PCI_VENDOR_ID : Z := 0x00.
Definition PCI_DEVICE_ID : Z := 0x02.
Definition PCI_COMMAND : Z := 0x04.
Definition PCI_REVISION_ID : Z := 0x08.
Definition PCI_CLASS_PROG : Z := 0x09.
Definition PCI_CLASS_DEVICE : Z := 0x0a.
Definition PCI_CACHE_LINE_SIZE : Z := 0x0c.
Definition PCI_LATENCY_TIMER : Z := 0x0d.
Definition PCI_HEADER_TYPE : Z := 0x0e.
Definition PCI_BASE_ADDRESS_0 : Z := 0x10.
Definition PCI_BASE_ADDRESS_5 : Z := 0x24.
Definition PCI_ROM_ADDRESS : Z := 0x30.
Definition PCI_COMMAND_IO : Z := 1.
Definition PCI_COMMAND_MEMORY : Z := 2.
Definition PCI_BASE_ADDRESS_SPACE_IO : Z := 1.
Definition PCI_BASE_ADDRESS_MEM_MASK : Z := 0xfffffff0.
Definition PCI_BASE_ADDRESS_IO_MASK : Z := 0xfffffffc.
Definition PCI_ROM_ADDRESS_ENABLE : Z := 1.
Definition PCI_ROM_ADDRESS_MASK : Z := 0xfffff800.

(** [basereg_t]; [br_mapped] is the flag [bf_mapped]. *)
Record basereg := BaseReg { br_r : Z; br_old_r : Z; br_mask : Z; br_mapped : bool }.
Definition basereg0 : basereg := BaseReg 0 0 0 false.

(** [struct pci_device].  [config_data] has [PCI_BASE_ADDRESS_0] bytes, [cmd]
    is kept as an unsigned halfword, functions are numbers. *)
Record device := Device {
  addr : Z;
  usr : Z;
  config_data : list Z;
  rombuf : option (list Z);
  rom_map_id : Z;
  rom_fd : option Z;
  rom_size : Z;
  mapped_rombase : Z;
  cmd : Z;
  base : list basereg;
  rombase : basereg;
  map_proc : list (option Z);
  read_config_hook : option Z;
  write_config_hook : option Z
}.

Definition set_usr v d := Device (addr d) v (config_data d) (rombuf d) (rom_map_id d) (rom_fd d)
  (rom_size d) (mapped_rombase d) (cmd d) (base d) (rombase d) (map_proc d) (read_config_hook d) (write_config_hook d).
Definition set_config_data v d := Device (addr d) (usr d) v (rombuf d) (rom_map_id d) (rom_fd d)
  (rom_size d) (mapped_rombase d) (cmd d) (base d) (rombase d) (map_proc d) (read_config_hook d) (write_config_hook d).
Definition set_rom_map buf id b d := Device (addr d) (usr d) (config_data d) buf id (rom_fd d)
  (rom_size d) b (cmd d) (base d) (rombase d) (map_proc d) (read_config_hook d) (write_config_hook d).
Definition set_rom_file fd sz d := Device (addr d) (usr d) (config_data d) (rombuf d) (rom_map_id d) fd
  sz (mapped_rombase d) (cmd d) (base d) (rombase d) (map_proc d) (read_config_hook d) (write_config_hook d).
Definition set_cmd v d := Device (addr d) (usr d) (config_data d) (rombuf d) (rom_map_id d) (rom_fd d)
  (rom_size d) (mapped_rombase d) v (base d) (rombase d) (map_proc d) (read_config_hook d) (write_config_hook d).
Definition set_bars v d := Device (addr d) (usr d) (config_data d) (rombuf d) (rom_map_id d) (rom_fd d)
  (rom_size d) (mapped_rombase d) (cmd d) v (rombase d) (map_proc d) (read_config_hook d) (write_config_hook d).
Definition set_rombase v d := Device (addr d) (usr d) (config_data d) (rombuf d) (rom_map_id d) (rom_fd d)
  (rom_size d) (mapped_rombase d) (cmd d) (base d) v (map_proc d) (read_config_hook d) (write_config_hook d).
Definition set_procs v d := Device (addr d) (usr d) (config_data d) (rombuf d) (rom_map_id d) (rom_fd d)
  (rom_size d) (mapped_rombase d) (cmd d) (base d) (rombase d) v (read_config_hook d) (write_config_hook d).
Definition set_hooks r w d := Device (addr d) (usr d) (config_data d) (rombuf d) (rom_map_id d) (rom_fd d)
  (rom_size d) (mapped_rombase d) (cmd d) (base d) (rombase d) (map_proc d) r w.

Definition bar (d : device) (i : nat) : basereg := default basereg0 (base d !! i).
Definition set_bar (i : nat) (b : basereg) (d : device) : device := set_bars (<[i := b]> (base d)) d.
Definition proc (d : device) (i : nat) : option Z := map_proc d !! i ≫= id.

(** [pci_dev_info_t] *)
Record pci_dev_info := DevInfo {
  i_vendor_id : Z; i_device_id : Z; i_revision : Z; i_class_prog : Z; i_device_class : Z
}.

(** The list of devices ([first_dev]) and the registered I/O ranges.  A
    device is identified by its address, which no two devices share. *)
Record pci (W : Type) := Pci { first_dev : list device; io : io_state W }.
Arguments Pci {W}. Arguments first_dev {W}. Arguments io {W}.

(** [st_le16] into the static data *)
Definition st_le16 (o v : Z) (l : list Z) : list Z :=
  <[Z.to_nat (o + 1) := (v .>> 8) .& 0xff]> (<[Z.to_nat o := v .& 0xff]> l).
Definition st_byte (o v : Z) (l : list Z) : list Z := <[Z.to_nat o := v .& 0xff]> l.
Definition cfg_byte (d : device) (o : Z) : Z := default 0 (config_data d !! Z.to_nat o).

(** [ALIGN_INS_BYTE] and [ALIGN_READ_BYTE] on a 32-bit word *)
Definition align_ins_byte (dest val offs : Z) : Z :=
  (dest .& not32 (0xff .<< ((offs .& 3) * 8))) .| ((val .& 0xff) .<< ((offs .& 3) * 8)).
Definition align_read_byte (v offs : Z) : Z := (v .>> ((offs .& 3) * 8)) .& 0xff.

(** The search for the highest set bit of [make_mask], from bit [n] - 1 on *)
Fixpoint top_bit (n : nat) (size : Z) : Z :=
  match n with
  | O => 0
  | S n' => if tst size (1 .<< Z.of_nat n') then 1 .<< Z.of_nat n' else top_bit n' size
  end.
Definition make_mask (size : Z) : Z :=
  let b := top_bit 32 size in
  let b := if tst size (not32 b) then u32 (b .<< 1) else b in
  not32 (u32 (b - 1)).

Definition find_device (a : Z) (l : list device) : option device :=
  snd <$> list_find (fun d => addr d = a) l.
Definition alter_device (a : Z) (f : device -> device) (l : list device) : list device :=
  map (fun d => if decide (addr d = a) then f d else d) l.

Section Pci.
Context {W : Type}.
(** [dev->map_proc[reg]( reg, addr, add_map, dev->usr )]: the function first *)
Context (map_call : Z -> Z -> Z -> bool -> Z -> io_state W -> io_state W).
(** The configuration hooks: function, user data, offset and the byte, which
    they may replace *)
Context (cfg_hook : Z -> Z -> Z -> Z -> io_state W -> Z * io_state W).
(** The value of an uninitialised byte *)
Context (junk : Z -> Z).
(** [malloc] of a size succeeds; the ROM buffer after reading a file of some
    size; opening a file and finding its size *)
Context (malloc_ok : Z -> bool) (rom_image : Z -> Z -> list Z) (open_file : Z -> option (Z * Z)).

(** ** Devices *)

Definition header0 (info : pci_dev_info) : list Z :=
  st_byte PCI_LATENCY_TIMER 0x20 (st_byte PCI_CACHE_LINE_SIZE 0x08
    (st_byte PCI_REVISION_ID (i_revision info) (st_byte PCI_CLASS_PROG (i_class_prog info)
      (st_le16 PCI_CLASS_DEVICE (i_device_class info) (st_le16 PCI_DEVICE_ID (i_device_id info)
        (st_le16 PCI_VENDOR_ID (i_vendor_id info) (replicate 16 0))))))).

(** Set the multi-function bit of the header type. *)
Definition set_multi (d : device) : device :=
  set_config_data (st_byte PCI_HEADER_TYPE (cfg_byte d PCI_HEADER_TYPE .| 0x80) (config_data d)) d.

Definition new_device (a : Z) (info : pci_dev_info) (u : Z) : device :=
  Device a u (header0 info) None 0 None 0 0 0 (replicate 6 basereg0) basereg0 (replicate 6 None) None None.

Definition add_pci_device (a : Z) (info : pci_dev_info) (u : Z) (s : pci W) : Z * pci W :=
  match find_device a (first_dev s) with
  | Some _ => (-1, s)
  | None =>
      let d := new_device a info u in
      let '(d, devs) :=
        if tst a 7 then
          (d, alter_device (Z.ldiff a 7) set_multi (first_dev s))
        else if existsb (fun i => bool_decide (is_Some (find_device (a + i) (first_dev s)))) [1; 2; 3; 4; 5; 6; 7]
             then (set_multi d, first_dev s) else (d, first_dev s) in
      (0, Pci (d :: devs) (io s))
  end.

Definition set_pci_dev_usr_info (a u : Z) (s : pci W) : pci W :=
  Pci (alter_device a (set_usr u) (first_dev s)) (io s).

Definition set_pci_dev_hooks (a : Z) (r w : option Z) (s : pci W) : pci W :=
  Pci (alter_device a (set_hooks r w) (first_dev s)) (io s).

(** ** The ROM *)

(** The number under which the access functions [rom_ops] are registered *)
Definition ROM_OPS : Z := 0x524f4d.

(** Big-endian read of [len] bytes in the ROM buffer ([read_mem]) *)
Definition rom_read (a len : Z) (d : device) : Z :=
  if (u32 (mapped_rombase d + rom_size d) <? u32 (a + len)) || (a <? mapped_rombase d) then 0
  else match rombuf d with
       | Some l => if bool_decide (len ∈ [1; 2; 4])
                   then be_value (take (Z.to_nat len) (drop (Z.to_nat (a - mapped_rombase d)) l)) else 0
       | None => 0
       end.

Definition map_rom (b : Z) (map : bool) (d : device) (s : io_state W) : device * io_state W :=
  if negb map then
    let s := if rom_map_id d =? 0 then s else snd (remove_io_range (rom_map_id d) s) in
    (set_rom_map None 0 (mapped_rombase d) d, s)
  else match rom_fd d with
       | None => (d, s)
       | Some fd =>
           if negb (malloc_ok (rom_size d)) then (set_rom_map None (rom_map_id d) (mapped_rombase d) d, s) else
           let '(id, s) := add_io_range b (rom_size d) [] 0 (Some (Some ROM_OPS, Some ROM_OPS)) (addr d) s in
           (set_rom_map (Some (rom_image fd (rom_size d))) id b d, s)
       end.

(** ** Base registers *)

(** Whether a register is to be mapped, and where *)
Definition bar_target (c r : Z) : option Z :=
  if tst c PCI_COMMAND_IO && tst r PCI_BASE_ADDRESS_SPACE_IO then Some (r .& PCI_BASE_ADDRESS_IO_MASK)
  else if tst c PCI_COMMAND_MEMORY && negb (tst r PCI_BASE_ADDRESS_SPACE_IO) then
    if 0x100000 <? r then Some (r .& PCI_BASE_ADDRESS_MEM_MASK) else None
  else None.

Definition call_map (d : device) (reg : nat) (a : Z) (add : bool) (s : io_state W) : io_state W :=
  match proc d reg with
  | Some f => map_call f (Z.of_nat reg) a add (usr d) s
  | None => s
  end.

Definition update_base_register (reg : nat) (d : device) (s : io_state W) : device * io_state W :=
  let br := bar d reg in
  match bar_target (cmd d) (br_r br) with
  | None =>
      if br_mapped br
      then (set_bar reg (BaseReg (br_r br) (br_old_r br) (br_mask br) false) d, call_map d reg 0 false s)
      else (d, s)
  | Some a =>
      if br_mapped br && (br_r br =? br_old_r br) then (d, s)
      else (set_bar reg (BaseReg (br_r br) (br_r br) (br_mask br) true) d, call_map d reg a true s)
  end.

Definition set_rom_mapped (b : bool) (d : device) : device :=
  set_rombase (BaseReg (br_r (rombase d)) (br_old_r (rombase d)) (br_mask (rombase d)) b) d.

Definition update_rom (d : device) (s : io_state W) : device * io_state W :=
  let rb := rombase d in
  let map := tst (br_r rb) PCI_ROM_ADDRESS_ENABLE && tst (cmd d) PCI_COMMAND_MEMORY in
  let '(d, s) :=
    if map && br_mapped rb && negb (br_r rb =? br_old_r rb)
    then let '(d, s) := map_rom 0 false d s in (set_rom_mapped false d, s) else (d, s) in
  let '(d, s) :=
    if negb (eqb map (br_mapped (rombase d)))
    then map_rom (br_r rb .& PCI_ROM_ADDRESS_MASK) map d s else (d, s) in
  (set_rom_mapped map d, s).

Definition update_base_registers (d : device) (s : io_state W) : device * io_state W :=
  let '(d, s) := foldl (fun ds i => update_base_register i ds.1 ds.2) (d, s) (seq 0 6) in
  update_rom d s.

(** Put a changed device back. *)
Definition put_device (d : device) (s : pci W) (i : io_state W) : pci W :=
  Pci (alter_device (addr d) (fun _ => d) (first_dev s)) i.

Definition use_pci_rom (a : Z) (filename : option Z) (s : pci W) : Z * pci W :=
  match filename with
  | None => (1, s)
  | Some name =>
      match find_device a (first_dev s) with
      | None => (1, s)
      | Some d =>
          match rom_fd d with
          | Some _ => (1, s)
          | None =>
              match open_file name with
              | None => (1, s)
              | Some (fd, sz) =>
                  let d := set_rom_file (Some fd) (u32 sz) d in
                  let rb := rombase d in
                  let d := set_rombase (BaseReg (br_r rb) (br_old_r rb)
                             (make_mask (u32 sz) .| PCI_ROM_ADDRESS_ENABLE) (br_mapped rb)) d in
                  let '(d, i) := update_base_registers d (io s) in
                  (0, put_device d s i)
              end
          end
      end
  end.

Definition base_value (mask val : Z) : Z :=
  let keep := if tst mask PCI_BASE_ADDRESS_SPACE_IO then PCI_BASE_ADDRESS_IO_MASK
              else PCI_BASE_ADDRESS_MEM_MASK in
  ((val .& mask) .& keep) .| (mask .& not32 keep).

Definition set_base (i : nat) (val : Z) (d : device) : device :=
  let b := bar d i in
  set_bar i (BaseReg (base_value (br_mask b) val) (br_old_r b) (br_mask b) (br_mapped b)) d.

Definition set_pci_base (a : Z) (ind : Z) (bmask : Z) (f : option Z) (s : pci W) : Z * pci W :=
  if (ind <? 0) || (5 <? ind) then (1, s) else
  match find_device a (first_dev s) with
  | None => (1, s)
  | Some d =>
      let i := Z.to_nat ind in
      let b := bar d i in
      let d := set_bar i (BaseReg (br_r b) (br_old_r b) bmask (br_mapped b)) d in
      let d := set_base i 0 d in
      let d := set_procs (<[i := f]> (map_proc d)) d in
      let '(d, io') := update_base_registers d (io s) in
      (0, put_device d s io')
  end.

(** ** Access to the configuration space *)

Definition bar_index (offs : Z) : option nat :=
  let rr := offs .>> 2 in
  if (PCI_BASE_ADDRESS_0 .>> 2 <=? rr) && (rr <=? PCI_BASE_ADDRESS_5 .>> 2)
  then Some (Z.to_nat (rr - (PCI_BASE_ADDRESS_0 .>> 2))) else None.

Definition is_rom_reg (offs : Z) : bool := (offs .>> 2) =? (PCI_ROM_ADDRESS .>> 2).
Definition is_command (offs : Z) : bool := Z.ldiff offs 1 =? PCI_COMMAND.

Definition do_write_config (offs val : Z) (d : device) (s : io_state W) : device * io_state W :=
  let '(val, s) := match write_config_hook d with
                   | Some f => let '(v, s) := cfg_hook f (usr d) offs val s in (v .& 0xff, s)
                   | None => (val, s)
                   end in
  (match bar_index offs with
   | Some ind => set_base ind (align_ins_byte (br_r (bar d ind)) val (offs .& 3)) d
   | None =>
       if is_rom_reg offs then
         let rb := rombase d in
         let old := align_ins_byte (br_r rb) val (offs .& 3) in
         set_rombase (BaseReg ((old .& br_mask rb) .& (PCI_ROM_ADDRESS_MASK .| PCI_ROM_ADDRESS_ENABLE))
                        (br_old_r rb) (br_mask rb) (br_mapped rb)) d
       else if is_command offs then set_cmd (align_ins_byte (cmd d) val (offs .& 1) .& 0xffff) d
       else d
   end, s).

(** The byte starts uninitialised; the static data comes last. *)
Definition do_read_config (offs : Z) (d : device) (s : io_state W) : Z * io_state W :=
  let val := match bar_index offs with
             | Some ind => align_read_byte (br_r (bar d ind)) (offs .& 3)
             | None => if is_rom_reg offs then align_read_byte (br_r (rombase d)) (offs .& 3) else junk offs
             end in
  let val := if is_command offs then align_read_byte (cmd d) (offs .& 1) else val in
  let val := if offs <? PCI_BASE_ADDRESS_0 then cfg_byte d offs else val in
  match read_config_hook d with
  | Some f => let '(v, s) := cfg_hook f (usr d) offs val s in (v .& 0xff, s)
  | None => (val .& 0xff, s)
  end.

(** Write the [n] low bytes of [val], the last offset first. *)
Fixpoint write_bytes (n : nat) (offs val : Z) (d : device) (s : io_state W) : device * io_state W :=
  match n with
  | O => (d, s)
  | S n' => let '(d, s) := do_write_config (offs + Z.of_nat n') (val .& 0xff) d s in
            write_bytes n' offs (val .>> 8) d s
  end.

Definition write_pci_config (a offs val len : Z) (s : pci W) : pci W :=
  match find_device a (first_dev s) with
  | None => s
  | Some d =>
      let '(d, i) := write_bytes (Z.to_nat len) offs val d (io s) in
      let '(d, i) := update_base_registers d i in
      put_device d s i
  end.

Fixpoint read_bytes (l : list Z) (val : Z) (d : device) (s : io_state W) : Z * io_state W :=
  match l with
  | [] => (val, s)
  | o :: l' => let '(b, s) := do_read_config o d s in read_bytes l' (u32 (val .<< 8) .| b) d s
  end.

Definition read_pci_config (a offs len : Z) (s : pci W) : Z * pci W :=
  match find_device a (first_dev s) with
  | None => (0xffffffff, s)
  | Some d =>
      let '(v, i) := read_bytes (map (fun i => offs + Z.of_nat i) (seq 0 (Z.to_nat len))) 0 d (io s) in
      (v, Pci (first_dev s) i)
  end.

Definition pci_cleanup (s : pci W) : pci W :=
  Pci [] (foldl (fun i d => if rom_map_id d =? 0 then i else snd (remove_io_range (rom_map_id d) i))
            (io s) (first_dev s)).

End Pci.
End Pci.
