(* ===== verification/PciInv.v ===== *)
(** * Properties of the PCI configuration space

    What a write to a base address register leaves in it, which ranges the
    drivers see mapped, the sizes of ROM masks, and the command register. *)

From S2P Require Import Prelude Ioports Pci.

Module PciInv.
Export Pci.

(** Exchange the bytes of a word. *)
Definition bswap32 (v : Z) : Z :=
  ((v .& 0xff) .<< 24) .| (((v .>> 8) .& 0xff) .<< 16) .| (((v .>> 16) .& 0xff) .<< 8) .| ((v .>> 24) .& 0xff).

(** ** Bytes of a word *)

Lemma byte_testbit v n : 0 <= n -> Z.testbit (v .& 0xff) n = (n <? 8) && Z.testbit v n.
Proof.
  intros Hn. rewrite Z.land_spec. change 0xff with (Z.ones 8).
  rewrite Z.testbit_ones_nonneg by lia. apply andb_comm.
Qed.

Lemma not32_testbit x n : 0 <= n -> Z.testbit (not32 x) n = xorb (Z.testbit x n) (n <? 32).
Proof. intros. unfold not32. rewrite Z.lxor_spec. change 0xffffffff with (Z.ones 32).
  by rewrite Z.testbit_ones_nonneg by lia. Qed.

Lemma ins_testbit r v k n :
  0 <= k < 4 -> 0 <= n -> (0 <= r < 2 ^ 32 \/ n < 32) ->
  Z.testbit (align_ins_byte r v k) n =
  if (8 * k <=? n) && (n <? 8 * k + 8) then Z.testbit v (n - 8 * k) else Z.testbit r n.
Proof.
  intros Hk Hn Hr. unfold align_ins_byte.
  replace (k .& 3) with k by (change 3 with (2 ^ 2 - 1); rewrite land_ones_mod, Z.mod_small; lia).
  rewrite Z.lor_spec, Z.land_spec, not32_testbit by lia.
  assert (Hff : Z.testbit (0xff .<< (k * 8)) n = (8 * k <=? n) && (n <? 8 * k + 8)).
  { rewrite Z.shiftl_spec by lia. destruct (Z.leb_spec (8 * k) n); cbn [andb].
    - change 0xff with (Z.ones 8). rewrite Z.testbit_ones_nonneg by lia.
      destruct (Z.ltb_spec (n - k * 8) 8), (Z.ltb_spec n (8 * k + 8)); lia.
    - apply Z.testbit_neg_r. lia. }
  rewrite Hff, Z.shiftl_spec by lia.
  destruct (Z.leb_spec (8 * k) n), (Z.ltb_spec n (8 * k + 8)); cbn [andb].
  - rewrite byte_testbit by lia. destruct (Z.ltb_spec (n - k * 8) 8); [|lia].
    destruct (Z.ltb_spec n 32); [|lia]. cbn [xorb]. rewrite andb_false_r. cbn. f_equal. lia.
  - rewrite byte_testbit by lia. destruct (Z.ltb_spec (n - k * 8) 8); [lia|].
    rewrite orb_false_r, xorb_false_l. destruct (Z.ltb_spec n 32); [apply andb_true_r|].
    by rewrite (testbit_high r 32) by lia.
  - rewrite (Z.testbit_neg_r _ (n - k * 8)) by lia.
    rewrite orb_false_r, xorb_false_l. destruct (Z.ltb_spec n 32); [apply andb_true_r|lia].
  - lia.
Qed.

Lemma range_testbit v k : 0 <= v -> 0 <= k -> (forall n, k <= n -> Z.testbit v n = false) -> 0 <= v < 2 ^ k.
Proof.
  intros Hv Hk H. split; [done|]. destruct (decide (v = 0)) as [->|]; [apply Z.pow_pos_nonneg; lia|].
  apply Z.log2_lt_pow2; [lia|]. destruct (decide (Z.log2 v < k)); [done|].
  specialize (H (Z.log2 v) ltac:(lia)). rewrite Z.bit_log2 in H by lia. discriminate H.
Qed.

Lemma ins_range r v k : 0 <= k < 4 -> 0 <= r < 2 ^ 32 -> 0 <= align_ins_byte r v k < 2 ^ 32.
Proof.
  intros Hk Hr. apply range_testbit; [|lia|].
  - unfold align_ins_byte. apply Z.lor_nonneg. split; [apply Z.land_nonneg; left; lia|].
    apply Z.shiftl_nonneg, Z.land_nonneg. right. lia.
  - intros n Hn. rewrite ins_testbit by lia. destruct (Z.ltb_spec n (8 * k + 8)); [lia|].
    rewrite andb_false_r. apply (testbit_high r 32); lia.
Qed.

Lemma read_testbit r k n : 0 <= k < 4 -> 0 <= n -> Z.testbit (align_read_byte r k) n = (n <? 8) && Z.testbit r (n + 8 * k).
Proof.
  intros Hk Hn. unfold align_read_byte.
  replace (k .& 3) with k by (change 3 with (2 ^ 2 - 1); rewrite land_ones_mod, Z.mod_small; lia).
  rewrite byte_testbit, Z.shiftr_spec by lia. do 2 f_equal. lia.
Qed.

Lemma byte_at v j k n : 0 <= j -> 0 <= k -> 0 <= n ->
  Z.testbit (((v .>> j) .& 0xff) .<< k) n = (k <=? n) && (n <? k + 8) && Z.testbit v (n - k + j).
Proof.
  intros Hj Hk Hn. rewrite Z.shiftl_spec by lia. destruct (Z.leb_spec k n); cbn [andb].
  - rewrite byte_testbit, Z.shiftr_spec by lia. destruct (Z.ltb_spec (n - k) 8), (Z.ltb_spec n (k + 8)); done || lia.
  - apply Z.testbit_neg_r. lia.
Qed.

(** Decide the comparisons of the goal. *)
Ltac decide_cmp :=
  repeat match goal with
  | |- context [?a <=? ?b] => destruct (Z.leb_spec a b); try lia
  | |- context [?a <? ?b] => destruct (Z.ltb_spec a b); try lia
  end; cbn [andb orb].

Lemma bswap_testbit v n : 0 <= n ->
  Z.testbit (bswap32 v) n = (n <? 32) && Z.testbit v (24 - 8 * (n / 8) + n mod 8).
Proof.
  intros Hn. unfold bswap32. rewrite !Z.lor_spec.
  rewrite <- (Z.shiftr_0_r v) at 1. rewrite <- (Z.shiftl_0_r ((v .>> 24) .& 0xff)).
  rewrite !byte_at by lia.
  assert (H : n < 8 \/ 8 <= n < 16 \/ 16 <= n < 24 \/ 24 <= n < 32 \/ 32 <= n) by lia.
  destruct H as [H|[H|[H|[H|H]]]]; decide_cmp; rewrite ?orb_false_r; try done;
    f_equal; Z.to_euclidean_division_equations; lia.
Qed.

Lemma bswap_range v : 0 <= bswap32 v < 2 ^ 32.
Proof.
  apply range_testbit; [|lia|].
  - unfold bswap32. rewrite !Z.lor_nonneg, !Z.shiftl_nonneg, !Z.land_nonneg. lia.
  - intros n Hn. rewrite bswap_testbit by lia. by destruct (Z.ltb_spec n 32); [lia|].
Qed.

Lemma bswap_invol v : 0 <= v < 2 ^ 32 -> bswap32 (bswap32 v) = v.
Proof.
  intros Hv. apply Z.bits_inj'. intros n Hn. rewrite bswap_testbit by lia.
  destruct (Z.ltb_spec n 32); cbn [andb].
  - rewrite bswap_testbit by (Z.to_euclidean_division_equations; lia).
    destruct (Z.ltb_spec (24 - 8 * (n / 8) + n mod 8) 32); cbn [andb];
      [f_equal|]; Z.to_euclidean_division_equations; lia.
  - symmetry. apply (testbit_high v 32); lia.
Qed.

(** ** Base registers *)

Definition keep_of (mask : Z) : Z :=
  if tst mask PCI_BASE_ADDRESS_SPACE_IO then PCI_BASE_ADDRESS_IO_MASK else PCI_BASE_ADDRESS_MEM_MASK.

Lemma base_testbit m v n : 0 <= n -> 0 <= m < 2 ^ 32 ->
  Z.testbit (base_value m v) n = Z.testbit m n && (Z.testbit v n || negb (Z.testbit (keep_of m) n)).
Proof.
  intros Hn Hm. unfold base_value. fold (keep_of m).
  rewrite Z.lor_spec, !Z.land_spec, not32_testbit by lia. destruct (Z.ltb_spec n 32).
  - rewrite xorb_true_r. by destruct (Z.testbit m n), (Z.testbit v n), (Z.testbit (keep_of m) n).
  - rewrite (testbit_high m 32) by lia. by rewrite andb_false_r.
Qed.

Lemma base_range m v : 0 <= m < 2 ^ 32 -> 0 <= base_value m v < 2 ^ 32.
Proof.
  intros Hm. apply range_testbit; [|lia|].
  - unfold base_value. apply Z.lor_nonneg. split; apply Z.land_nonneg; [left; apply Z.land_nonneg|]; lia.
  - intros n Hn. rewrite base_testbit, (testbit_high m 32) by lia. done.
Qed.

Lemma base_ins m x b k : 0 <= m < 2 ^ 32 -> 0 <= k < 4 -> 0 <= x < 2 ^ 32 ->
  base_value m (align_ins_byte (base_value m x) b k) = base_value m (align_ins_byte x b k).
Proof.
  intros Hm Hk Hx. pose proof (base_range m x Hm). apply Z.bits_inj'. intros n Hn.
  rewrite !base_testbit, !ins_testbit, base_testbit by lia.
  destruct ((8 * k <=? n) && (n <? 8 * k + 8)); [done|].
  by destruct (Z.testbit m n), (Z.testbit x n), (Z.testbit (keep_of m) n).
Qed.

(** The four bytes of a big-endian write, the last one first *)
Definition ins4 (r v : Z) : Z :=
  align_ins_byte (align_ins_byte (align_ins_byte (align_ins_byte r (v .& 0xff) 3)
    ((v .>> 8) .& 0xff) 2) (((v .>> 8) .>> 8) .& 0xff) 1) ((((v .>> 8) .>> 8) .>> 8) .& 0xff) 0.

Lemma ins4_bswap r v : 0 <= r < 2 ^ 32 -> ins4 r v = bswap32 v.
Proof.
  intros Hr. unfold ins4.
  assert (H3 := ins_range r (v .& 0xff) 3 ltac:(lia) Hr).
  assert (H2 := ins_range _ ((v .>> 8) .& 0xff) 2 ltac:(lia) H3).
  assert (H1 := ins_range _ (((v .>> 8) .>> 8) .& 0xff) 1 ltac:(lia) H2).
  apply Z.bits_inj'. intros n Hn.
  assert (Hc : n < 8 \/ 8 <= n < 16 \/ 16 <= n < 24 \/ 24 <= n < 32 \/ 32 <= n) by lia.
  rewrite bswap_testbit by lia. rewrite (ins_testbit _ _ 0), (ins_testbit _ _ 1), (ins_testbit _ _ 2), (ins_testbit _ _ 3) by lia.
  destruct Hc as [H|[H|[H|[H|H]]]]; decide_cmp.
  5: by apply (testbit_high r 32); lia.
  all: rewrite byte_testbit, ?Z.shiftr_spec by lia; decide_cmp; f_equal; Z.to_euclidean_division_equations; lia.
Qed.

Lemma u32_testbit x n : 0 <= n -> Z.testbit (u32 x) n = (n <? 32) && Z.testbit x n.
Proof.
  intros Hn. unfold u32. destruct (Z.ltb_spec n 32); cbn [andb].
  - by apply Z.mod_pow2_bits_low.
  - apply Z.mod_pow2_bits_high. lia.
Qed.

(** Reading four bytes, the first offset most significant *)
Lemma read_step v b n : 0 <= n ->
  Z.testbit (u32 (v .<< 8) .| b) n = (8 <=? n) && (n <? 32) && Z.testbit v (n - 8) || Z.testbit b n.
Proof.
  intros Hn. rewrite Z.lor_spec, u32_testbit, Z.shiftl_spec by lia. f_equal.
  decide_cmp; rewrite ?andb_true_r; try done. apply Z.testbit_neg_r. lia.
Qed.

Lemma read4_bswap r : 0 <= r < 2 ^ 32 ->
  bswap32 r = (u32 ((u32 ((u32 ((u32 (0 .<< 8) .| align_read_byte r 0) .<< 8) .| align_read_byte r 1) .<< 8)
    .| align_read_byte r 2) .<< 8)) .| align_read_byte r 3.
Proof.
  intros Hr. apply Z.bits_inj'. intros n Hn. rewrite bswap_testbit, read_step by lia.
  assert (H : n < 8 \/ 8 <= n < 16 \/ 16 <= n < 24 \/ 24 <= n < 32 \/ 32 <= n) by lia.
  destruct H as [H|[H|[H|[H|H]]]]; rewrite ?read_step, ?read_testbit, ?Z.testbit_0_l by lia; decide_cmp;
    rewrite ?read_step, ?read_testbit, ?Z.testbit_0_l by lia; decide_cmp;
    rewrite ?read_step, ?read_testbit, ?Z.testbit_0_l by lia; decide_cmp;
    rewrite ?read_step, ?read_testbit, ?Z.testbit_0_l by lia; decide_cmp;
    rewrite ?orb_false_r; try done; f_equal; Z.to_euclidean_division_equations; lia.
Qed.

(** Both bytes of a halfword replaced, the high one first *)
Lemma command_bytes c a b : 0 <= a < 2 ^ 8 -> 0 <= b < 2 ^ 8 ->
  let r := align_ins_byte (align_ins_byte c a 1 .& 0xffff) b 0 .& 0xffff in
  r .& 0xff = b /\ (r .>> 8) .& 0xff = a.
Proof.
  intros Ha Hb r.
  assert (H : forall n, 0 <= n < 16 -> Z.testbit r n = if n <? 8 then Z.testbit b n else Z.testbit a (n - 8)).
  { intros n Hn. unfold r. rewrite Z.land_spec, ins_testbit, Z.land_spec, ins_testbit by lia.
    replace (Z.testbit 0xffff n) with true by (change 0xffff with (Z.ones 16); by rewrite Z.ones_spec_low by lia).
    rewrite !andb_true_r. decide_cmp; f_equal; lia. }
  split; apply Z.bits_inj'; intros n Hn; rewrite byte_testbit, ?Z.shiftr_spec by lia; destruct (Z.ltb_spec n 8); cbn [andb].
  - rewrite H by lia. decide_cmp. done.
  - symmetry. apply (testbit_high b 8); lia.
  - rewrite H by lia. decide_cmp. f_equal. lia.
  - symmetry. apply (testbit_high a 8); lia.
Qed.

(** ** What updating the mappings leaves alone *)

(** Two states of a device that agree on all registers *)
Record same_regs (d d' : device) : Prop := SameRegs {
  sr_addr : addr d' = addr d;
  sr_usr : usr d' = usr d;
  sr_cfg : config_data d' = config_data d;
  sr_cmd : cmd d' = cmd d;
  sr_procs : map_proc d' = map_proc d;
  sr_rhook : read_config_hook d' = read_config_hook d;
  sr_whook : write_config_hook d' = write_config_hook d;
  sr_fd : rom_fd d' = rom_fd d;
  sr_len : length (base d') = length (base d);
  sr_r : forall j, br_r (bar d' j) = br_r (bar d j);
  sr_mask : forall j, br_mask (bar d' j) = br_mask (bar d j);
  sr_rom_r : br_r (rombase d') = br_r (rombase d);
  sr_rom_mask : br_mask (rombase d') = br_mask (rombase d)
}.

#[export] Instance same_regs_refl : Reflexive same_regs.
Proof. intros d. by constructor. Qed.

#[export] Instance same_regs_trans : Transitive same_regs.
Proof. intros d d' d'' [] []. constructor; intros; congruence. Qed.

Lemma bar_set i b d j : (i < length (base d))%nat ->
  bar (set_bar i b d) j = if decide (j = i) then b else bar d j.
Proof.
  intros Hi. unfold bar, set_bar, set_bars. cbn. destruct (decide (j = i)) as [->|].
  - by rewrite list_lookup_insert_eq by done.
  - by rewrite list_lookup_insert_ne by done.
Qed.

Lemma bar_set_out i b d : ¬ (i < length (base d))%nat -> set_bar i b d = d.
Proof. intros Hi. destruct d. unfold set_bar, set_bars. cbn in *. by rewrite list_insert_ge by lia. Qed.

(** A register whose value and mask are kept *)
Lemma same_set_bar i b d : br_r b = br_r (bar d i) -> br_mask b = br_mask (bar d i) ->
  same_regs d (set_bar i b d).
Proof.
  intros Hr Hm. destruct (decide (i < length (base d))%nat) as [Hi|Hi]; [|by rewrite bar_set_out].
  constructor; intros; try done.
  - cbn. apply length_insert.
  - rewrite bar_set by done. by destruct (decide (j = i)) as [->|].
  - rewrite bar_set by done. by destruct (decide (j = i)) as [->|].
Qed.

Lemma same_rom_map b id m d : same_regs d (set_rom_map b id m d).
Proof. by constructor. Qed.

Lemma same_rom_mapped b d : same_regs d (set_rom_mapped b d).
Proof. by constructor. Qed.

Section PciInv.
Context {W : Type}.
Context (map_call : Z -> Z -> Z -> bool -> Z -> io_state W -> io_state W).
Context (cfg_hook : Z -> Z -> Z -> Z -> io_state W -> Z * io_state W).
Context (junk : Z -> Z).
Context (malloc_ok : Z -> bool) (rom_image : Z -> Z -> list Z).

Abbreviation upd_bar := (update_base_register map_call).
Abbreviation upd_rom := (update_rom (W:=W) malloc_ok rom_image).
Abbreviation upd_all := (update_base_registers map_call malloc_ok rom_image).
Abbreviation map_rom := (Pci.map_rom (W:=W) malloc_ok rom_image).
Abbreviation write_bytes := (Pci.write_bytes cfg_hook).
Abbreviation read_bytes := (Pci.read_bytes cfg_hook junk).
Abbreviation write_config := (write_pci_config map_call cfg_hook malloc_ok rom_image).
Abbreviation read_config := (read_pci_config cfg_hook junk).

Lemma same_update_bar i d s : same_regs d (upd_bar i d s).1.
Proof. unfold update_base_register. cases; cbn; try done; by apply same_set_bar. Qed.

Lemma same_map_rom b m d s : same_regs d (map_rom b m d s).1.
Proof. unfold Pci.map_rom. cases; cbn; done || apply same_rom_map. Qed.

Lemma same_update_rom d s : same_regs d (upd_rom d s).1.
Proof.
  unfold update_rom. set (m := tst _ _ && tst _ _).
  match goal with |- context [if ?c then let '(_, _) := ?x in _ else _] => set (cc := c); set (y := x) end.
  pose proof (same_map_rom 0 false d s) as H1.
  assert (Hc : exists d1 s1, (if cc then let '(d2, s2) := y in (set_rom_mapped false d2, s2) else (d, s)) = (d1, s1)
               /\ same_regs d d1).
  { destruct cc; [|by exists d, s]. subst y. destruct (map_rom _ _ _ _) as [d2 s2]. cbn in H1.
    do 2 eexists. split; [done|]. etransitivity; [exact H1|apply same_rom_mapped]. }
  destruct Hc as (d1 & s1 & -> & H2). destruct (negb (eqb m _)).
  - pose proof (same_map_rom (br_r (rombase d) .& PCI_ROM_ADDRESS_MASK) m d1 s1) as H3.
    destruct (map_rom _ _ d1 s1) as [d2 s2]. cbn in *.
    etransitivity; [exact H2|]. etransitivity; [exact H3|apply same_rom_mapped].
  - cbn. etransitivity; [exact H2|apply same_rom_mapped].
Qed.

Lemma same_update_bars l : forall d s,
  same_regs d (foldl (fun ds i => upd_bar i ds.1 ds.2) (d, s) l).1.
Proof.
  induction l as [|i l IH]; intros d s; [done|]. cbn [foldl fst snd].
  pose proof (same_update_bar i d s) as H. destruct (upd_bar i d s) as [d1 s1]. cbn in H.
  etransitivity; [exact H|apply IH].
Qed.

Lemma same_update_all d s : same_regs d (upd_all d s).1.
Proof.
  unfold update_base_registers. pose proof (same_update_bars (seq 0 6) d s) as H.
  destruct (foldl _ _ _) as [d1 s1]. cbn in H. etransitivity; [exact H|apply same_update_rom].
Qed.

(** ** Looking devices up *)

Lemma find_device_addr a l d : find_device a l = Some d -> addr d = a.
Proof.
  unfold find_device. intros H. apply fmap_Some in H as ([i x] & H & ->).
  by apply list_find_Some in H as (_ & H & _).
Qed.

Lemma find_alter a f l : (forall d, addr d = a -> addr (f d) = a) ->
  find_device a (alter_device a f l) = f <$> find_device a l.
Proof.
  intros Hf. induction l as [|d l IH]; [done|]. unfold find_device, alter_device in *. cbn.
  destruct (decide (addr d = a)) as [E|E].
  - by rewrite decide_True by auto.
  - rewrite decide_False by done. destruct (list_find _ (map _ l)) as [[]|], (list_find _ l) as [[]|]; cbn in *; congruence.
Qed.

Lemma find_alter_ne a b f l : a ≠ b -> (forall d, addr d = b -> addr (f d) = b) ->
  find_device a (alter_device b f l) = find_device a l.
Proof.
  intros Hab Hf. induction l as [|d l IH]; [done|]. unfold find_device, alter_device in *. cbn.
  destruct (decide (addr d = b)) as [E|E].
  - rewrite !decide_False by (rewrite ?Hf by done; congruence).
    destruct (list_find _ (map _ l)) as [[]|], (list_find _ l) as [[]|]; cbn in *; congruence.
  - destruct (decide (addr d = a)); [done|].
    destruct (list_find _ (map _ l)) as [[]|], (list_find _ l) as [[]|]; cbn in *; congruence.
Qed.

Lemma find_put d d' s i : find_device (addr d') (first_dev s) = Some d ->
  find_device (addr d') (first_dev (@put_device W d' s i)) = Some d'.
Proof. intros H. unfold put_device. cbn [first_dev]. rewrite find_alter by done. by rewrite H. Qed.

(** ** Writing and reading back a base register *)

Lemma bar_index_at i k : (i < 6)%nat -> (k < 4)%nat ->
  bar_index (PCI_BASE_ADDRESS_0 + 4 * Z.of_nat i + Z.of_nat k) = Some i.
Proof.
  intros Hi Hk. unfold bar_index, PCI_BASE_ADDRESS_0, PCI_BASE_ADDRESS_5. rewrite !Z.shiftr_div_pow2 by lia.
  change (16 / 2 ^ 2) with 4. change (36 / 2 ^ 2) with 9.
  replace ((16 + 4 * Z.of_nat i + Z.of_nat k) / 2 ^ 2) with (4 + Z.of_nat i) by (Z.to_euclidean_division_equations; lia).
  destruct (Z.leb_spec 4 (4 + Z.of_nat i)), (Z.leb_spec (4 + Z.of_nat i) 9); try lia. cbn. f_equal. lia.
Qed.

Lemma bar_offs_low i k : (k < 4)%nat -> (PCI_BASE_ADDRESS_0 + 4 * Z.of_nat i + Z.of_nat k) .& 3 = Z.of_nat k.
Proof.
  intros Hk. change 3 with (2 ^ 2 - 1). rewrite land_ones_mod by lia. unfold PCI_BASE_ADDRESS_0.
  Z.to_euclidean_division_equations. lia.
Qed.

Lemma write_bar_byte i k v d (s : io_state W) : (i < 6)%nat -> (k < 4)%nat -> write_config_hook d = None ->
  do_write_config cfg_hook (PCI_BASE_ADDRESS_0 + 4 * Z.of_nat i + Z.of_nat k) v d s =
  (set_base i (align_ins_byte (br_r (bar d i)) v (Z.of_nat k)) d, s).
Proof.
  intros Hi Hk Hh. unfold do_write_config. rewrite Hh, bar_index_at, bar_offs_low by done. done.
Qed.

Lemma bar_set_base i v d : (i < length (base d))%nat ->
  bar (set_base i v d) i = BaseReg (base_value (br_mask (bar d i)) v) (br_old_r (bar d i)) (br_mask (bar d i)) (br_mapped (bar d i)).
Proof. intros Hi. unfold set_base. rewrite bar_set by done. by rewrite decide_True. Qed.

Lemma set_base_twice i v w d : set_base i v (set_base i w d) = set_base i v d.
Proof.
  destruct (decide (i < length (base d))%nat) as [Hi|Hi].
  - unfold set_base at 1. rewrite bar_set_base by done. cbn. unfold set_base, set_bar, set_bars. cbn.
    by rewrite list_insert_insert_eq.
  - unfold set_base. by rewrite !(bar_set_out i _ d) by done.
Qed.

(** Writing a word to a register: its old value is forgotten. *)
Lemma write_bar_word i v d (s : io_state W) :
  (i < 6)%nat -> length (base d) = 6%nat -> write_config_hook d = None ->
  0 <= br_r (bar d i) < 2 ^ 32 -> 0 <= br_mask (bar d i) < 2 ^ 32 ->
  write_bytes 4 (PCI_BASE_ADDRESS_0 + 4 * Z.of_nat i) v d s = (set_base i (bswap32 v) d, s).
Proof.
  intros Hi Hl Hh Hr Hm. cbn [Pci.write_bytes].
  rewrite !write_bar_byte by (done || lia). cbn [fst snd].
  rewrite !bar_set_base by (cbn; rewrite ?length_insert; lia). cbn [br_r br_mask].
  rewrite !set_base_twice. f_equal. rewrite <- (ins4_bswap (br_r (bar d i)) v Hr). unfold ins4.
  pose proof (ins_range (br_r (bar d i)) (v .& 0xff) 3 ltac:(lia) Hr) as H3.
  pose proof (ins_range _ ((v .>> 8) .& 0xff) 2 ltac:(lia) H3) as H2.
  pose proof (ins_range _ (((v .>> 8) .>> 8) .& 0xff) 1 ltac:(lia) H2) as H1.
  unfold set_base. do 2 f_equal.
  change (Z.of_nat 0) with 0. change (Z.of_nat 1) with 1. change (Z.of_nat 2) with 2. change (Z.of_nat 3) with 3.
  rewrite (base_ins _ _ _ 2 Hm ltac:(lia) H3), (base_ins _ _ _ 1 Hm ltac:(lia) H2).
  apply (base_ins _ _ _ 0 Hm ltac:(lia) H1).
Qed.

Lemma not_command i k : (k < 4)%nat -> is_command (PCI_BASE_ADDRESS_0 + 4 * Z.of_nat i + Z.of_nat k) = false.
Proof.
  intros Hk. unfold is_command. apply Z.eqb_neq. intros H.
  assert (H1 : Z.ldiff (PCI_BASE_ADDRESS_0 + 4 * Z.of_nat i + Z.of_nat k) 1 .>> 1 = 2) by (rewrite H; done).
  rewrite Z.shiftr_ldiff in H1 by lia. change (1 .>> 1) with 0 in H1. rewrite Z.ldiff_0_r in H1.
  rewrite Z.shiftr_div_pow2 in H1 by lia. unfold PCI_BASE_ADDRESS_0 in H1. Z.to_euclidean_division_equations. lia.
Qed.

Lemma read_bar_byte i k d (s : io_state W) : (i < 6)%nat -> (k < 4)%nat -> read_config_hook d = None ->
  do_read_config cfg_hook junk (PCI_BASE_ADDRESS_0 + 4 * Z.of_nat i + Z.of_nat k) d s =
  (align_read_byte (br_r (bar d i)) (Z.of_nat k), s).
Proof.
  intros Hi Hk Hh. unfold do_read_config. rewrite Hh, bar_index_at, bar_offs_low, not_command by done.
  destruct (Z.ltb_spec (PCI_BASE_ADDRESS_0 + 4 * Z.of_nat i + Z.of_nat k) PCI_BASE_ADDRESS_0); [lia|].
  f_equal. unfold align_read_byte. rewrite <- Z.land_assoc. done.
Qed.

Lemma read_bar_word i d (s : io_state W) :
  (i < 6)%nat -> read_config_hook d = None -> 0 <= br_r (bar d i) < 2 ^ 32 ->
  read_bytes (map (fun k => PCI_BASE_ADDRESS_0 + 4 * Z.of_nat i + Z.of_nat k) (seq 0 4)) 0 d s = (bswap32 (br_r (bar d i)), s).
Proof.
  intros Hi Hh Hr. cbn [seq map Pci.read_bytes].
  rewrite !read_bar_byte by (done || lia). f_equal. symmetry. apply (read4_bswap _ Hr).
Qed.

(** The registers of a device are 32-bit words. *)
Definition dev_ok (d : device) : Prop :=
  length (base d) = 6%nat /\ forall j, 0 <= br_r (bar d j) < 2 ^ 32 /\ 0 <= br_mask (bar d j) < 2 ^ 32.

Lemma write_config_eq a offs v len d d1 s (i1 : io_state W) :
  find_device a (first_dev s) = Some d -> write_bytes (Z.to_nat len) offs v d (io s) = (d1, i1) -> addr d1 = a ->
  exists d2 i2, upd_all d1 i1 = (d2, i2) /\ write_config a offs v len s = put_device d2 s i2 /\
    same_regs d1 d2 /\ find_device a (first_dev (write_config a offs v len s)) = Some d2.
Proof.
  intros Hf Hw Ha. unfold write_pci_config. rewrite Hf, Hw.
  pose proof (same_update_all d1 i1) as Hs. destruct (upd_all d1 i1) as [d2 i2]. cbn in Hs.
  exists d2, i2. split_and!; try done. rewrite <- Ha, <- (sr_addr _ _ Hs). apply (find_put d).
  by rewrite (sr_addr _ _ Hs), Ha.
Qed.

(** Base address registers: after a guest has written a word to a
    register of a device without hooks, reading it back gives the written
    value reduced to the decoded bits of the mask and with the fixed flag
    bits of the mask; in particular writing all ones reads back the mask
    (the sizing protocol).  The command register, the other base registers
    and the other devices keep their values, whatever the mapping functions
    do. *)
Theorem bar_write_read a d i v (s : pci W) :
  find_device a (first_dev s) = Some d -> (i < 6)%nat -> dev_ok d ->
  write_config_hook d = None -> read_config_hook d = None -> 0 <= v < 2 ^ 32 ->
  let o := PCI_BASE_ADDRESS_0 + 4 * Z.of_nat i in
  let m := br_mask (bar d i) in
  let s' := write_config a o v 4 s in
  read_config a o 4 s' = (bswap32 (base_value m (bswap32 v)), s') /\
  base_value m (bswap32 0xffffffff) = m /\
  (forall b, b ≠ a -> find_device b (first_dev s') = find_device b (first_dev s)) /\
  (exists d', find_device a (first_dev s') = Some d' /\ cmd d' = cmd d /\
     forall j, j ≠ i -> br_r (bar d' j) = br_r (bar d j)).
Proof.
  intros Hf Hi [Hl Hr] Hw Hh Hv o m s'. pose proof (find_device_addr _ _ _ Hf) as Ha.
  destruct (write_config_eq a o v 4 d (set_base i (bswap32 v) d) s (io s) Hf) as (d2 & i2 & _ & Hs' & Hs & Hf2).
  { apply write_bar_word; try done; apply Hr. }
  { done. }
  fold s' in Hs', Hf2. pose proof (bar_set_base i (bswap32 v) d ltac:(lia)) as Hb.
  split_and!.
  - unfold read_pci_config. rewrite Hf2.
    unfold o. change (Z.to_nat 4) with 4%nat.
    rewrite read_bar_word; [|done|by rewrite (sr_rhook _ _ Hs)|rewrite (sr_r _ _ Hs), Hb; by apply base_range, Hr].
    rewrite (sr_r _ _ Hs), Hb. by rewrite Hs'.
  - apply Z.bits_inj'. intros n Hn. rewrite base_testbit by (done || apply Hr).
    destruct (Z.ltb_spec n 32).
    + change (bswap32 0xffffffff) with (Z.ones 32). rewrite Z.ones_spec_low by lia. apply andb_true_r.
    + by rewrite (testbit_high _ 32) by (done || apply Hr).
  - intros b Hb'. rewrite Hs'. cbn [put_device first_dev]. apply find_alter_ne; [|done].
    rewrite (sr_addr _ _ Hs). change (b <> addr d). congruence.
  - exists d2. split_and!; [done|by rewrite (sr_cmd _ _ Hs)|]. intros j Hj. rewrite (sr_r _ _ Hs).
    unfold set_base. rewrite bar_set by lia. by rewrite decide_False.
Qed.

(** A sequence of guest writes: offset, value, length *)
Definition config_writes (a : Z) (ws : list (Z * Z * Z)) (s : pci W) : pci W :=
  foldl (fun s w => write_config a w.1.1 w.1.2 w.2 s) s ws.

(** ** The command register *)

Lemma write_byte_cfg o v d (s : io_state W) :
  let '(d', _) := do_write_config cfg_hook o v d s in
  config_data d' = config_data d /\ addr d' = addr d /\
  read_config_hook d' = read_config_hook d /\ write_config_hook d' = write_config_hook d.
Proof. unfold do_write_config. cases; done. Qed.

Lemma write_bytes_cfg n o : forall v d s,
  let '(d', _) := write_bytes n o v d s in
  config_data d' = config_data d /\ addr d' = addr d /\
  read_config_hook d' = read_config_hook d /\ write_config_hook d' = write_config_hook d.
Proof.
  induction n as [|n IH]; intros v d s; [done|]. cbn [Pci.write_bytes].
  pose proof (write_byte_cfg (o + Z.of_nat n) (v .& 0xff) d s) as H1.
  destruct (do_write_config _ _ _ _ _) as [d1 s1]. specialize (IH (v .>> 8) d1 s1).
  destruct (write_bytes _ _ _ _ _) as [d2 s2]. destruct H1 as (? & ? & ? & ?), IH as (? & ? & ? & ?).
  split_and!; congruence.
Qed.

(** Writes leave the static data of a device alone. *)
Lemma write_config_cfg a o v len d s : find_device a (first_dev s) = Some d ->
  exists d', find_device a (first_dev (write_config a o v len s)) = Some d' /\ config_data d' = config_data d /\
    read_config_hook d' = read_config_hook d /\ write_config_hook d' = write_config_hook d.
Proof.
  intros Hf. pose proof (write_bytes_cfg (Z.to_nat len) o v d (io s)) as H.
  destruct (write_bytes (Z.to_nat len) o v d (io s)) as [d1 i1] eqn:E. destruct H as (H1 & H2 & H3 & H4).
  pose proof (find_device_addr _ _ _ Hf) as Ha.
  destruct (write_config_eq a o v len d d1 s i1 Hf E ltac:(congruence)) as (d2 & i2 & _ & _ & S & Hf2).
  exists d2. split; [done|]. rewrite (sr_cfg _ _ S), (sr_rhook _ _ S), (sr_whook _ _ S). done.
Qed.

Lemma config_writes_cfg a ws : forall d s, find_device a (first_dev s) = Some d ->
  exists d', find_device a (first_dev (config_writes a ws s)) = Some d' /\ config_data d' = config_data d /\
    read_config_hook d' = read_config_hook d /\ write_config_hook d' = write_config_hook d.
Proof.
  induction ws as [|[[o v] len] ws IH]; intros d s Hf; [by exists d|].
  destruct (write_config_cfg a o v len d s Hf) as (d1 & Hf1 & H1 & H2 & H3).
  destruct (IH d1 _ Hf1) as (d2 & Hf2 & H4 & H5 & H6). exists d2. split_and!; congruence || done.
Qed.

Lemma write_cmd_byte k v d (s : io_state W) : (k < 2)%nat -> write_config_hook d = None ->
  do_write_config cfg_hook (PCI_COMMAND + Z.of_nat k) v d s =
  (set_cmd (align_ins_byte (cmd d) v (Z.of_nat k) .& 0xffff) d, s).
Proof. intros Hk Hw. unfold do_write_config. rewrite Hw. by destruct k as [|[|]]; [| |lia]. Qed.

(** Reading the command register of a device without hooks gives the static
    data, which [add_pci_device] leaves zero there. *)
Lemma read_command a d (s : pci W) : find_device a (first_dev s) = Some d ->
  cfg_byte d PCI_COMMAND = 0 -> cfg_byte d (PCI_COMMAND + 1) = 0 -> read_config_hook d = None ->
  read_config a PCI_COMMAND 2 s = (0, s).
Proof.
  intros Hf H4 H5 Hr. unfold read_pci_config. rewrite Hf. change (Z.to_nat 2) with 2%nat.
  cbn [seq map Pci.read_bytes]. unfold do_read_config. rewrite Hr. cbn [fst snd].
  change (PCI_COMMAND + Z.of_nat 0) with PCI_COMMAND. change (PCI_COMMAND + Z.of_nat 1) with (PCI_COMMAND + 1).
  rewrite H4, H5. by destruct s.
Qed.

(** A write to the command register stores both bytes. *)
Lemma write_command a d v (s : pci W) : find_device a (first_dev s) = Some d -> write_config_hook d = None ->
  exists d', find_device a (first_dev (write_config a PCI_COMMAND v 2 s)) = Some d' /\
    cmd d' .& 0xff = (v .>> 8) .& 0xff /\ (cmd d' .>> 8) .& 0xff = v .& 0xff.
Proof.
  intros Hf Hw. pose proof (find_device_addr _ _ _ Hf) as Ha.
  assert (E : exists d2, write_bytes 2 PCI_COMMAND v d (io s) = (d2, io s) /\ addr d2 = addr d /\
    cmd d2 = align_ins_byte (align_ins_byte (cmd d) (v .& 0xff) 1 .& 0xffff) ((v .>> 8) .& 0xff) 0 .& 0xffff).
  { cbn [Pci.write_bytes]. rewrite !write_cmd_byte by (done || lia). by eexists. }
  destruct E as (d2 & E & A2 & K2).
  destruct (write_config_eq a PCI_COMMAND v 2 d d2 s (io s) Hf E ltac:(congruence)) as (d3 & i3 & _ & _ & S & Hf3).
  exists d3. split; [done|]. rewrite (sr_cmd _ _ S), K2.
  apply command_bytes; change 0xff with (2 ^ 8 - 1); apply land_ones_range; lia.
Qed.

(** ** Which range a driver sees mapped

    The function that maps base register [reg] of a device keeps some window
    of guest addresses: it opens the window where it is told to and closes
    it when told so, in every state [ok] of the driver. *)
Class BarClient (f : Z) (reg : nat) (u : Z) := {
  client_ok : io_state W -> Prop;
  window : io_state W -> option Z;
  map_ok a add s : 0 <= a < 2 ^ 32 -> a mod 16 = 0 -> client_ok s -> client_ok (map_call f (Z.of_nat reg) a add u s);
  map_window a s : 0 <= a < 2 ^ 32 -> a mod 16 = 0 -> client_ok s -> window (map_call f (Z.of_nat reg) a true u s) = Some a;
  unmap_window s : client_ok s -> window (map_call f (Z.of_nat reg) 0 false u s) = None
}.

(** A device whose only client is the function [f] of a memory register
    [reg]: neither a ROM nor hooks *)
Record one_bar (f : Z) (reg : nat) (u : Z) (d : device) : Prop := OneBar {
  ob_len : length (base d) = 6%nat;
  ob_reg : (reg < 6)%nat;
  ob_usr : usr d = u;
  ob_proc : forall j, proc d j = if decide (j = reg) then Some f else None;
  ob_rom : rom_fd d = None /\ rom_map_id d = 0;
  ob_hook : write_config_hook d = None;
  ob_mask : 0 <= br_mask (bar d reg) < 2 ^ 32 /\ tst (br_mask (bar d reg)) PCI_BASE_ADDRESS_SPACE_IO = false
}.

(** What the registers ask for *)
Definition wanted (d : device) (reg : nat) : option Z := bar_target (cmd d) (br_r (bar d reg)).

Section Client.
Context (f : Z) (reg : nat) (u : Z) `{!BarClient f reg u}.

(** The window agrees with the flags of the register; [synced] also with
    what the registers ask for. *)
Record tracks (d : device) (s : io_state W) : Prop := Tracks {
  tr_dev : one_bar f reg u d;
  tr_ok : client_ok s;
  tr_r : tst (br_r (bar d reg)) PCI_BASE_ADDRESS_SPACE_IO = false;
  tr_range : 0 <= br_r (bar d reg) < 2 ^ 32;
  tr_window : window s = if br_mapped (bar d reg)
                         then Some (br_old_r (bar d reg) .& PCI_BASE_ADDRESS_MEM_MASK) else None
}.
Definition synced (d : device) (s : io_state W) : Prop := tracks d s /\ window s = wanted d reg.

Lemma one_bar_same d d' : same_regs d d' -> rom_map_id d' = rom_map_id d -> one_bar f reg u d -> one_bar f reg u d'.
Proof.
  intros S Hid []. destruct S. constructor; intros; unfold proc in *; rewrite ?sr_procs0, ?sr_mask0;
    congruence || done || apply ob_proc0 || (split; destruct ob_rom0; congruence).
Qed.

Lemma bar_target_mem c r : tst r PCI_BASE_ADDRESS_SPACE_IO = false ->
  bar_target c r = if tst c PCI_COMMAND_MEMORY && (0x100000 <? r) then Some (r .& PCI_BASE_ADDRESS_MEM_MASK) else None.
Proof.
  intros H. unfold bar_target. rewrite H, andb_false_r. cbn [negb]. rewrite andb_true_r.
  by destruct (tst c _), (0x100000 <? r).
Qed.

Lemma mem_mask_range r : 0 <= r < 2 ^ 32 -> 0 <= r .& PCI_BASE_ADDRESS_MEM_MASK < 2 ^ 32.
Proof.
  intros Hr. apply range_testbit; [apply Z.land_nonneg; lia|lia|].
  intros n Hn. by rewrite Z.land_spec, (testbit_high r 32) by lia.
Qed.

Lemma mem_mask_aligned r : (r .& PCI_BASE_ADDRESS_MEM_MASK) mod 16 = 0.
Proof.
  change 16 with (2 ^ 4). rewrite <- Z.land_ones by lia. rewrite <- Z.land_assoc.
  change (PCI_BASE_ADDRESS_MEM_MASK .& Z.ones 4) with 0. apply Z.land_0_r.
Qed.

(** Another register of the device has no client. *)
Lemma update_other j d s : j <> reg -> tracks d s ->
  let '(d', s') := upd_bar j d s in
  s' = s /\ tracks d' s /\ bar d' reg = bar d reg /\ cmd d' = cmd d.
Proof.
  intros Hj T. pose proof (tr_dev _ _ T) as O.
  assert (Hc : forall a add, call_map map_call d j a add s = s).
  { intros. unfold call_map. by rewrite (ob_proc _ _ _ _ O), decide_False. }
  assert (Hk : forall b, br_r b = br_r (bar d j) -> br_mask b = br_mask (bar d j) ->
            tracks (set_bar j b d) s /\ bar (set_bar j b d) reg = bar d reg).
  { intros b Hr Hm. assert (Hb : bar (set_bar j b d) reg = bar d reg).
    { unfold bar, set_bar, set_bars. cbn. by rewrite list_lookup_insert_ne. }
    split; [|done]. destruct T. constructor; try (rewrite Hb; done); try done.
    apply (one_bar_same d); [by apply same_set_bar|done|done]. }
  unfold update_base_register. cases; rewrite ?Hc; split_and!; try done; by apply Hk.
Qed.

(** The register with the client: afterwards the window is right. *)
Lemma update_client d s : tracks d s ->
  let '(d', s') := upd_bar reg d s in synced d' s' /\ br_r (bar d' reg) = br_r (bar d reg) /\ cmd d' = cmd d.
Proof.
  intros T. destruct T as [O K R Rr Wn]. pose proof (ob_reg _ _ _ _ O) as Hreg. pose proof (ob_len _ _ _ _ O) as Hlen.
  assert (Hc : forall a add, call_map map_call d reg a add s = map_call f (Z.of_nat reg) a add u s).
  { intros. unfold call_map. by rewrite (ob_proc _ _ _ _ O), decide_True, (ob_usr _ _ _ _ O). }
  assert (Hk : forall b s', br_r b = br_r (bar d reg) -> br_mask b = br_mask (bar d reg) -> client_ok s' ->
      window s' = (if br_mapped b then Some (br_old_r b .& PCI_BASE_ADDRESS_MEM_MASK) else None) ->
      window s' = wanted d reg -> synced (set_bar reg b d) s' /\ br_r (bar (set_bar reg b d) reg) = br_r (bar d reg)).
  { intros b s' Hr Hm Ho Hw Hw'. assert (Hb : bar (set_bar reg b d) reg = b).
    { rewrite bar_set by lia. by rewrite decide_True. }
    split; [|by rewrite Hb]. split; [|unfold wanted; by rewrite Hb, Hr]. constructor; try (rewrite Hb; congruence); try done.
    apply (one_bar_same d); [by apply same_set_bar|done|done]. }
  unfold update_base_register. rewrite !Hc. rewrite bar_target_mem in * by done.
  unfold wanted in Hk. rewrite (bar_target_mem _ _ R) in Hk.
  destruct (tst (cmd d) PCI_COMMAND_MEMORY && (0x100000 <? br_r (bar d reg))) eqn:Et.
  - destruct (br_mapped (bar d reg) && _) eqn:Em.
    + apply andb_true_iff in Em as [Em1 Em2]. apply Z.eqb_eq in Em2.
      split_and!; try done. split; [by constructor|].
      unfold wanted. rewrite (bar_target_mem _ _ R), Et, Wn, Em1. congruence.
    + pose proof (mem_mask_aligned (br_r (bar d reg))) as Ha.
      pose proof (mem_mask_range _ Rr) as Ha'.
      rewrite Hc. apply and_assoc; split; [|done]; apply Hk; cbn; try done; by (apply map_ok || apply map_window).
  - destruct (br_mapped (bar d reg)) eqn:Em.
    + apply and_assoc; split; [|done]; apply Hk; cbn; try done; by (apply map_ok || apply unmap_window).
    + split_and!; try done. split; [by constructor; rewrite ?Em|].
      unfold wanted. by rewrite (bar_target_mem _ _ R), Et, Wn.
Qed.

Lemma update_rom_none d s : rom_fd d = None -> rom_map_id d = 0 ->
  let '(d', s') := upd_rom d s in s' = s /\ same_regs d d' /\ rom_map_id d' = 0 /\ base d' = base d.
Proof.
  intros Hf Hi. pose proof (same_update_rom d s) as S.
  assert (Hm : forall b m d s, rom_fd d = None -> rom_map_id d = 0 -> exists d', map_rom b m d s = (d', s) /\
            rom_fd d' = None /\ rom_map_id d' = 0 /\ base d' = base d).
  { intros b m d0 s0 H1 H2. unfold Pci.map_rom. destruct m; cbn [negb].
    - rewrite H1. by exists d0.
    - rewrite H2. by eexists. }
  unfold update_rom in *. set (m := tst _ _ && tst _ _) in *. destruct (Hm 0 false d s Hf Hi) as (d1 & E1 & F1 & I1 & B1). rewrite E1 in *.
  match goal with |- context [if ?c then (set_rom_mapped false d1, s) else (d, s)] => destruct c end.
  - destruct (Hm (br_r (rombase d) .& PCI_ROM_ADDRESS_MASK) m (set_rom_mapped false d1) s F1 I1) as (d2 & E2 & F2 & I2 & B2). rewrite E2 in *.
    match goal with |- context [if ?c then (d2, s) else _] => destruct c end; cbn in *; split_and!; try done; congruence.
  - destruct (Hm (br_r (rombase d) .& PCI_ROM_ADDRESS_MASK) m d s Hf Hi) as (d2 & E2 & F2 & I2 & B2). rewrite E2 in *.
    match goal with |- context [if ?c then (d2, s) else _] => destruct c end; cbn in *; split_and!; try done; congruence.
Qed.

(** ** Updates and writes keep the window right *)

Lemma wanted_same d d' : cmd d' = cmd d -> br_r (bar d' reg) = br_r (bar d reg) -> wanted d' reg = wanted d reg.
Proof. unfold wanted. by intros -> ->. Qed.

Lemma update_others l : reg ∉ l -> forall d s, tracks d s ->
  let '(d', s') := foldl (fun ds i => upd_bar i ds.1 ds.2) (d, s) l in
  s' = s /\ tracks d' s /\ bar d' reg = bar d reg /\ cmd d' = cmd d.
Proof.
  induction l as [|j l IH]; intros Hl d s T; [done|]. cbn [foldl fst snd].
  apply not_elem_of_cons in Hl as [Hj Hl].
  pose proof (update_other j d s (not_eq_sym Hj) T) as H. destruct (upd_bar j d s) as [d1 s1].
  destruct H as (-> & T1 & B1 & C1). specialize (IH Hl d1 s T1). destruct (foldl _ _ _) as [d2 s2].
  destruct IH as (-> & T2 & B2 & C2). split_and!; congruence || done.
Qed.

Lemma seq_mid n k : (k < n)%nat -> seq 0 n = seq 0 k ++ k :: seq (S k) (n - S k).
Proof. intros H. replace n with (k + S (n - S k))%nat at 1 by lia. by rewrite seq_app. Qed.

Lemma update_all_synced d s : tracks d s -> let '(d', s') := upd_all d s in synced d' s'.
Proof.
  intros T. pose proof (ob_reg _ _ _ _ (tr_dev _ _ T)) as Hreg.
  unfold update_base_registers. rewrite (seq_mid 6 reg Hreg), foldl_app. cbn [foldl].
  pose proof (update_others (seq 0 reg) ltac:(rewrite elem_of_seq; lia) d s T) as H1.
  destruct (foldl _ _ (seq 0 reg)) as [d1 s1]. destruct H1 as (-> & T1 & _). cbn [fst snd].
  pose proof (update_client d1 s T1) as H2. destruct (upd_bar reg d1 s) as [d2 s2].
  destruct H2 as ([T2 W2] & _).
  pose proof (update_others (seq (S reg) (6 - S reg)) ltac:(rewrite elem_of_seq; lia) d2 s2 T2) as H3.
  destruct (foldl _ _ (seq (S reg) _)) as [d3 s3]. destruct H3 as (-> & T3 & B3 & C3).
  destruct (ob_rom _ _ _ _ (tr_dev _ _ T3)) as [Hf Hi].
  pose proof (update_rom_none d3 s2 Hf Hi) as H4. destruct (upd_rom d3 s2) as [d4 s4].
  destruct H4 as (-> & S4 & I4 & B4). assert (Hb : bar d4 reg = bar d3 reg) by (unfold bar; by rewrite B4).
  split.
  - destruct T3. constructor; try (rewrite Hb; done); try done.
    apply (one_bar_same d3); congruence || done.
  - rewrite W2. symmetry. apply wanted_same; [rewrite (sr_cmd _ _ S4)|rewrite Hb, B3]; done.
Qed.

Lemma base_value_bit0 m v : 0 <= m < 2 ^ 32 -> tst m PCI_BASE_ADDRESS_SPACE_IO = false ->
  tst (base_value m v) PCI_BASE_ADDRESS_SPACE_IO = false.
Proof.
  intros Hm. change PCI_BASE_ADDRESS_SPACE_IO with (1 .<< 0). rewrite !tst_bit, base_testbit by lia.
  by intros ->.
Qed.

(** Changing the value of a register to what its mask admits *)
Lemma tracks_set_base j v d s : tracks d s -> tracks (set_base j v d) s.
Proof.
  intros T. pose proof (tr_dev _ _ T) as O. destruct (decide (j < length (base d))%nat) as [Hj|Hj].
  2: { unfold set_base. by rewrite bar_set_out. }
  assert (Hm : forall i, br_mask (bar (set_base j v d) i) = br_mask (bar d i)).
  { intros i. unfold set_base. rewrite bar_set by done. by destruct (decide (i = j)) as [->|]. }
  assert (Hb : bar (set_base j v d) reg = if decide (reg = j)
     then BaseReg (base_value (br_mask (bar d j)) v) (br_old_r (bar d j)) (br_mask (bar d j)) (br_mapped (bar d j))
     else bar d reg) by (unfold set_base; by rewrite bar_set by done).
  destruct T. constructor; try done.
  - destruct O. constructor; try done.
    + cbn. by rewrite length_insert.
    + by rewrite Hm.
  - rewrite Hb. destruct (decide (reg = j)) as [<-|]; [|done]. cbn. by apply base_value_bit0; apply O.
  - rewrite Hb. destruct (decide (reg = j)) as [<-|]; [|done]. cbn. by apply base_range, O.
  - rewrite Hb. by destruct (decide (reg = j)) as [<-|].
Qed.

Lemma tracks_write_byte o v d s : tracks d s ->
  exists d', do_write_config cfg_hook o v d s = (d', s) /\ tracks d' s /\ addr d' = addr d.
Proof.
  intros T. unfold do_write_config. rewrite (ob_hook _ _ _ _ (tr_dev _ _ T)).
  destruct (bar_index o) as [j|].
  { eexists. split_and!; [done|by apply tracks_set_base|done]. }
  destruct (is_rom_reg o); [|destruct (is_command o)]; eexists; split_and!; try done;
    destruct T as [O1 ? ? ? ?]; destruct O1; constructor; try done; by constructor.
Qed.

Lemma tracks_write_bytes n o : forall v d s, tracks d s ->
  exists d', write_bytes n o v d s = (d', s) /\ tracks d' s /\ addr d' = addr d.
Proof.
  induction n as [|n IH]; intros v d s T; [by exists d|]. cbn [Pci.write_bytes].
  destruct (tracks_write_byte (o + Z.of_nat n) (v .& 0xff) d s T) as (d1 & -> & T1 & A1).
  destruct (IH (v .>> 8) d1 s T1) as (d2 & -> & T2 & A2). exists d2. split_and!; congruence || done.
Qed.

Lemma write_config_synced a o v len d s : find_device a (first_dev s) = Some d -> tracks d (io s) ->
  exists d', find_device a (first_dev (write_config a o v len s)) = Some d' /\
    synced d' (io (write_config a o v len s)).
Proof.
  intros Hf T. pose proof (find_device_addr _ _ _ Hf) as Ha.
  destruct (tracks_write_bytes (Z.to_nat len) o v d (io s) T) as (d1 & E1 & T1 & A1).
  destruct (write_config_eq a o v len d d1 s (io s) Hf E1 ltac:(congruence)) as (d2 & i2 & E2 & Hs & _ & Hf2).
  pose proof (update_all_synced d1 (io s) T1) as H. rewrite E2 in H.
  exists d2. split; [done|]. by rewrite Hs.
Qed.

(** C35: Whatever sequence of configuration writes a guest makes - to base
    registers, the command register or elsewhere, of any length and in any
    order - the window that the driver of a memory base register keeps is
    the one the registers ask for: it is open exactly when memory decoding
    is enabled and the register lies above 1 MB, and then at the address in
    the register.  The driver is any that opens and closes its window as it
    is told. *)
Theorem bar_window_tracks a ws : forall d s,
  find_device a (first_dev s) = Some d -> synced d (io s) ->
  exists d', find_device a (first_dev (config_writes a ws s)) = Some d' /\
    synced d' (io (config_writes a ws s)) /\
    window (io (config_writes a ws s)) =
      if tst (cmd d') PCI_COMMAND_MEMORY && (0x100000 <? br_r (bar d' reg))
      then Some (br_r (bar d' reg) .& PCI_BASE_ADDRESS_MEM_MASK) else None.
Proof.
  induction ws as [|[[o v] len] ws IH]; intros d s Hf Hs.
  - exists d. split_and!; [done..|]. destruct Hs as [T E]. unfold config_writes. cbn [foldl].
    rewrite E. unfold wanted. by rewrite bar_target_mem by apply (tr_r _ _ T).
  - destruct (write_config_synced a o v len d s Hf (proj1 Hs)) as (d1 & Hf1 & Hs1).
    destruct (IH d1 _ Hf1 Hs1) as (d2 & H2). by exists d2.
Qed.

End Client.

End PciInv.
End PciInv.
