(* ===== verification/Gc.v ===== *)
(** * The Grand Central / mac-io chip ([src/drivers/gc.c])

    The chip has one base address register; the devices on it register
    ranges at fixed offsets, which follow the register. *)

From S2P Require Import Prelude Ioports Pci PciInv.

Module Gc.
Export PciInv.

Definition REG_COUNT : Z := 4.
Definition REG_OFFSET : Z := 0x30.

(** [gc_range_t] *)
Record gc_range := GcRange {
  g_name : list Z; g_ops : option (option Z * option Z); g_usr : Z;
  g_offs : Z; g_size : Z; g_flags : Z;
  g_range_id : Z; g_is_mapped : bool; g_base : Z
}.
Definition set_mapping id m b r := GcRange (g_name r) (g_ops r) (g_usr r) (g_offs r) (g_size r) (g_flags r) id m b.

(** The statics of the file: [first_range] and [registers]; the latest range
    comes first. *)
Record gc := GC { first_range : list gc_range; registers : list Z }.

Definition add_gc_range (offs size : Z) (name : list Z) (flags : Z) (ops : option (option Z * option Z))
    (u : Z) (s : gc) : gc :=
  GC (GcRange name ops u offs size flags 0 false 0 :: first_range s) (registers s).

(** One round of the loop of [do_map] *)
Definition map_range (base : Z) (add_map : bool) (r : gc_range) (i : io_state gc) : gc_range * io_state gc :=
  let i := if g_is_mapped r then snd (remove_io_range (g_range_id r) i) else i in
  if add_map then
    let b := u32 (g_offs r + base) in
    let '(id, i) := add_io_range b (g_size r) (g_name r) (g_flags r) (g_ops r) (g_usr r) i in
    (set_mapping id true b r, i)
  else (set_mapping (g_range_id r) false (g_base r) r, i).

Fixpoint map_ranges (base : Z) (add_map : bool) (l : list gc_range) (i : io_state gc)
    : list gc_range * io_state gc :=
  match l with
  | [] => ([], i)
  | r :: l' => let '(r, i) := map_range base add_map r i in
               let '(l', i) := map_ranges base add_map l' i in (r :: l', i)
  end.

Definition do_map (regnum base : Z) (add_map : bool) (u : Z) (i : io_state gc) : io_state gc :=
  let '(l, i) := map_ranges base add_map (first_range (devices i)) i in
  set_devices (GC l (registers (devices i))) i.

(** The registers of the chip: big-endian words at [base] *)
Definition reg_bytes (s : gc) : list Z := concat (map (be_bytes 4) (registers s)).
Definition regs_hit (base a : Z) : bool := (base <=? a) && (a <? u32 (base + REG_COUNT * 4)).

Definition reg_io_read (base a len : Z) (s : gc) : Z :=
  if regs_hit base a && bool_decide (len ∈ [1; 2; 4])
  then be_value (take (Z.to_nat len) (drop (Z.to_nat (a - base)) (reg_bytes s))) else 0.

Fixpoint words (n : nat) (l : list Z) : list Z :=
  match n with O => [] | S n' => be_value (take 4 l) :: words n' (drop 4 l) end.

Definition reg_io_write (base a data len : Z) (s : gc) : gc :=
  if regs_hit base a && bool_decide (len ∈ [1; 2; 4]) then
    let o := Z.to_nat (a - base) in
    let l := reg_bytes s in
    let l' := take o l ++ be_bytes (Z.to_nat len) data ++ drop (o + Z.to_nat len) l in
    GC (first_range s) (words 4 l')
  else s.

(** ** The client of the base register *)

(** The map function of the chip under the number [DO_MAP] *)
Definition DO_MAP : Z := 0x6763.
Definition map_call (f reg a : Z) (add : bool) (u : Z) (i : io_state gc) : io_state gc :=
  if f =? DO_MAP then do_map reg a add u i else i.

(** Where the ranges of the chip are *)
Definition gc_window (i : io_state gc) : option Z :=
  r ← head (first_range (devices i)); if g_is_mapped r then Some (u32 (g_base r - g_offs r)) else None.

Lemma map_ranges_first b m r l i :
  exists r' l', (map_ranges b m (r :: l) i).1 = r' :: l' /\ g_is_mapped r' = m /\ g_offs r' = g_offs r /\
    (m = true -> g_base r' = u32 (g_offs r + b)).
Proof.
  cbn [map_ranges]. destruct (map_range b m r i) as [r1 i1] eqn:E. destruct (map_ranges b m l i1) as [l1 i2].
  exists r1, l1. unfold map_range in E. destruct m.
  - destruct (add_io_range _ _ _ _ _ _ _) as [id i3] in E. injection E as <- _. done.
  - injection E as <- _. done.
Qed.

#[export] Instance gc_client reg u : BarClient map_call DO_MAP reg u.
Proof.
  refine {| client_ok i := first_range (devices i) <> []; window := gc_window |}.
  - intros a add s _ _ Hn. unfold map_call. cbn. unfold do_map.
    destruct (first_range (devices s)) as [|r l]; [done|].
    destruct (map_ranges_first a add r l s) as (r' & l' & E & _).
    destruct (map_ranges _ _ _ _) as [l1 i1]. cbn in E |- *. by subst.
  - intros a s Ha _ Hn. unfold map_call. cbn. unfold do_map, gc_window.
    destruct (first_range (devices s)) as [|r l]; [done|].
    destruct (map_ranges_first a true r l s) as (r' & l' & E & Em & Eo & Eb).
    destruct (map_ranges _ _ _ _) as [l1 i1]. cbn in E |- *. subst l1. cbn. rewrite Em, Eo, Eb by done.
    f_equal. rewrite u32_sub_l. replace (g_offs r + a - g_offs r) with a by lia. by apply u32_small.
  - intros s Hn. unfold map_call. cbn. unfold do_map, gc_window.
    destruct (first_range (devices s)) as [|r l]; [done|].
    destruct (map_ranges_first 0 false r l s) as (r' & l' & E & Em & _).
    destruct (map_ranges _ _ _ _) as [l1 i1]. cbn in E |- *. subst l1. cbn. by rewrite Em.
Defined.

(** ** Witnesses on a chip with two ranges *)

Definition no_hook (f u o v : Z) (i : io_state gc) : Z * io_state gc := (v, i).
Definition rom_zeros (fd n : Z) : list Z := replicate (Z.to_nat n) 0.

(** The chip at device 16 of bus 0 as [gc_init] leaves it *)
Definition heathrow : pci_dev_info := DevInfo 0x106b 0x0010 0x02 0x0 0xff00.
Definition chip : gc :=
  add_gc_range REG_OFFSET (REG_COUNT * 4) [] 0 None 0
    (add_gc_range 0x16000 0x2000 [] 0 None 0 (GC [] [0x0000FF00; 0x391070F0; 0x61befffb; 0])).
Definition start : pci gc :=
  snd (set_pci_base map_call (fun _ => true) rom_zeros 0x80 0 0xfff80000 (Some DO_MAP)
    (snd (add_pci_device 0x80 heathrow 0 (Pci [] (IoState [] [] 1 [] chip))))).
Definition start_dev : device := default (new_device 0 heathrow 0) (find_device 0x80 (first_dev start)).

Lemma start_found : find_device 0x80 (first_dev start) = Some start_dev.
Proof. vm_compute. reflexivity. Qed.

Lemma start_one_bar : one_bar DO_MAP 0 0 start_dev.
Proof.
  constructor; try done; try (vm_compute; split; congruence); try (cbn; lia).
  intros j. do 6 (destruct j as [|j]; [done|]). rewrite decide_False by lia.
  unfold proc. by rewrite lookup_ge_None_2 by (vm_compute; lia).
Qed.

Lemma start_synced : synced map_call DO_MAP 0 0 start_dev (io start).
Proof.
  split; [|vm_compute; reflexivity]. constructor; try (vm_compute; reflexivity); [apply start_one_bar|..].
  - vm_compute. discriminate.
  - vm_compute. split; congruence.
Qed.

(** The guest enables memory decoding, moves the chip twice and probes its
    size on the way. *)
Definition moves : list (Z * Z * Z) :=
  [(4, 0x0200, 2); (16, 0x00000080, 4); (16, 0xffffffff, 4); (16, 0x00008080, 4)].

Lemma bar_window_tracks_witness :
  gc_window (io (config_writes map_call no_hook (fun _ => true) rom_zeros 0x80 moves start)) = Some 0x80800000 /\
  exists d', synced map_call DO_MAP 0 0 d' (io (config_writes map_call no_hook (fun _ => true) rom_zeros 0x80 moves start)) /\
    tst (cmd d') PCI_COMMAND_MEMORY = true.
Proof.
  destruct (bar_window_tracks map_call no_hook (fun _ => true) rom_zeros DO_MAP 0%nat 0 0x80 moves start_dev start
              start_found start_synced) as (d' & Hf & Hs & Hw).
  split; [vm_compute; reflexivity|]. exists d'. split; [exact Hs|].
  destruct (tst (cmd d') PCI_COMMAND_MEMORY); [reflexivity|]. cbn [andb] in Hw. exfalso.
  revert Hw. vm_compute. discriminate.
Defined.

Lemma start_ok : dev_ok start_dev.
Proof.
  split; [done|]. intros j. do 6 (destruct j as [|j]; [vm_compute; split; split; congruence|]).
  unfold bar. rewrite lookup_ge_None_2 by (vm_compute; lia). vm_compute. split; split; congruence.
Qed.

(** Probing the size of the chip *)
Lemma bar_write_read_witness :
  let s' := write_pci_config map_call no_hook (fun _ => true) rom_zeros 0x80 16 0xffffffff 4 start in
  read_pci_config no_hook (fun _ => 0) 0x80 16 4 s' = (0x0000f8ff, s').
Proof.
  intros s'.
  destruct (bar_write_read map_call no_hook (fun _ => 0) (fun _ => true) rom_zeros 0x80 start_dev 0%nat 0xffffffff start
    start_found ltac:(lia) start_ok eq_refl eq_refl ltac:(lia)) as [H _].
  exact H.
Defined.

End Gc.
