(* ===== verification/PciBridge.v ===== *)
(** * PCI host bridges ([src/drivers/pci-bridges.c])

    A guest reaches the configuration space through two ports of a bridge:
    it writes an encoded address to one and then reads or writes the data at
    the other.  Bandit, Chaos and Uni-North share one encoding, Grackle has
    its own. *)

From S2P Require Import Prelude Ioports Memory Pci PciInv Gc.

Module PciBridge.
Export PciInv.

Inductive bridge_kind : Set := bandit_bridge | chaos_bridge | grackle_bridge | uninorth_bridge.

(** [struct pci_bridge] *)
Record bridge := Bridge {
  b_phandle : Z; b_mbase : Z; b_domain : Z; b_first_bus : Z; b_last_bus : Z;
  b_addr_mbase : Z; b_data_mbase : Z; b_kind : bridge_kind;
  b_addr : Z   (** the address register, as the guest stored it *)
}.
Definition set_b_addr v b := Bridge (b_phandle b) (b_mbase b) (b_domain b) (b_first_bus b) (b_last_bus b)
  (b_addr_mbase b) (b_data_mbase b) (b_kind b) v.
Definition set_b_domain v b := Bridge (b_phandle b) (b_mbase b) v (b_first_bus b) (b_last_bus b)
  (b_addr_mbase b) (b_data_mbase b) (b_kind b) (b_addr b).

Definition PCIADDR_FROM_BUS_DEVFN (domain bus devfn : Z) : Z :=
  (domain .<< 16) .| (bus .<< 8) .| devfn.

(** The loop over the device select bits: [n] bits from bit [val] on; counts
    the hits and collects the device number. *)
Fixpoint select_bits (n : nat) (val : Z) (w dev_fn hit : Z) : Z * Z :=
  match n with
  | O => (dev_fn, hit)
  | S n' => if tst w (1 .<< val) then select_bits n' (val + 1) w (dev_fn .| (val .<< 3)) (hit + 1)
            else select_bits n' (val + 1) w dev_fn hit
  end.

(** Offset and device; [-1] for no device *)
Definition macrisc_interpret_addr (b : bridge) (pciaddr_le : Z) : Z * Z :=
  let w := bswap32 pciaddr_le in
  let offs := Z.ldiff w 3 .& 0xff in
  let in_range bus := (b_first_bus b <=? bus) && (bus <=? b_last_bus b) in
  if negb (tst w 1) then
    let '(dev_fn, hit) := select_bits 21 11 w ((w .>> 8) .& 7) 0 in
    if negb (hit =? 1) then (offs, -1)
    else if in_range (b_first_bus b) then (offs, PCIADDR_FROM_BUS_DEVFN (b_domain b) (b_first_bus b) dev_fn)
    else (offs, -1)
  else
    let bus := (w .>> 16) .& 0xff in
    if in_range bus then (offs, PCIADDR_FROM_BUS_DEVFN (b_domain b) bus ((w .>> 8) .& 0xff)) else (offs, -1).

Definition grackle_interpret_addr (b : bridge) (pciaddr_le : Z) : Z * Z :=
  let offs := pciaddr_le .>> 24 in
  let dev_fn := (pciaddr_le .>> 16) .& 0xff in
  let bus := (pciaddr_le .>> 8) .& 0xff in
  if (b_first_bus b <=? bus) && (bus <=? b_last_bus b)
  then (offs, PCIADDR_FROM_BUS_DEVFN (b_domain b) bus dev_fn) else (offs, -1).

Definition interpret_addr (b : bridge) : Z -> Z * Z :=
  match b_kind b with
  | grackle_bridge => grackle_interpret_addr b
  | _ => macrisc_interpret_addr b
  end.

(** ** The encodings *)

(** How a guest names a device, with the byte order of its bus: device select
    bits on the first bus, or a bus number *)
Inductive cfg_addr :=
| CFA0 (dev fn : Z)
| CFA1 (bus dev fn : Z).

Definition cfg_valid (b : bridge) (c : cfg_addr) : Prop :=
  match c with
  | CFA0 dev fn => 11 <= dev < 32 /\ 0 <= fn < 8 /\ b_first_bus b <= b_last_bus b
  | CFA1 bus dev fn => 0 <= dev < 32 /\ 0 <= fn < 8 /\ 0 <= bus < 256 /\ b_first_bus b <= bus <= b_last_bus b
  end.

Definition cfg_encode (c : cfg_addr) (offs : Z) : Z :=
  match c with
  | CFA0 dev fn => (1 .<< dev) .| (fn .<< 8) .| (offs .& 0xfc)
  | CFA1 bus dev fn => (bus .<< 16) .| (dev .<< 11) .| (fn .<< 8) .| (offs .& 0xfc) .| 1
  end.

Definition cfg_target (b : bridge) (c : cfg_addr) : Z :=
  match c with
  | CFA0 dev fn => PCIADDR_FROM_BUS_DEVFN (b_domain b) (b_first_bus b) ((dev .<< 3) .| fn)
  | CFA1 bus dev fn => PCIADDR_FROM_BUS_DEVFN (b_domain b) bus ((dev .<< 3) .| fn)
  end.

(** ** Decoding the encodings *)

Lemma tst_select w k : 0 <= k -> tst w (1 .<< k) = Z.testbit w k.
Proof. apply tst_bit. Qed.

Lemma select_bits_one dev w n : forall val f h, 0 <= val ->
  (forall k, val <= k < val + Z.of_nat n -> Z.testbit w k = (k =? dev)) ->
  select_bits n val w f h =
  if (val <=? dev) && (dev <? val + Z.of_nat n) then (f .| (dev .<< 3), h + 1) else (f, h).
Proof.
  induction n as [|n IH]; intros val f h Hv Hw.
  - cbn [select_bits]. decide_cmp; done.
  - cbn [select_bits]. rewrite tst_bit, Hw by lia. rewrite Nat2Z.inj_succ in *.
    rewrite !IH by (lia || (intros; apply Hw; lia)).
    destruct (Z.eqb_spec val dev) as [->|]; decide_cmp; done || lia.
Qed.

Lemma offs_testbit o n : 0 <= n -> Z.testbit (o .& 0xfc) n = (2 <=? n) && (n <? 8) && Z.testbit o n.
Proof.
  intros Hn. change 0xfc with (Z.ones 6 .<< 2). rewrite Z.land_spec, Z.shiftl_spec by lia.
  destruct (Z.leb_spec 2 n); cbn [andb].
  - rewrite Z.testbit_ones_nonneg by lia. rewrite andb_comm. f_equal. decide_cmp; done.
  - rewrite (Z.testbit_neg_r (Z.ones 6)) by lia. apply andb_false_r.
Qed.

Lemma offs_split o : 0 <= o < 256 -> (o .& 0xfc) + (o .& 3) = o.
Proof.
  intros Ho. replace (o .& 0xfc) with ((o .>> 2) .<< 2).
  - change 3 with (2 ^ 2 - 1). rewrite land_ones_mod, Z.shiftl_mul_pow2, Z.shiftr_div_pow2 by lia.
    change (2 ^ 2) with 4. Z.to_euclidean_division_equations. lia.
  - apply Z.bits_inj'. intros n Hn. rewrite offs_testbit, Z.shiftl_spec by lia. decide_cmp;
    first [rewrite Z.shiftr_spec by lia; f_equal; lia | rewrite Z.shiftr_spec by lia; apply (testbit_high o 8); lia
      | by apply Z.testbit_neg_r; lia].
Qed.

Lemma shl_testbit x k n : 0 <= n -> Z.testbit (x .<< k) n = (k <=? n) && Z.testbit x (n - k).
Proof.
  intros Hn. rewrite Z.shiftl_spec by lia. destruct (Z.leb_spec k n); [done|]. apply Z.testbit_neg_r. lia.
Qed.

(** The bits of the two encodings *)
Lemma cfa0_testbit dev fn o n : 11 <= dev < 32 -> 0 <= fn < 8 -> 0 <= n ->
  Z.testbit (cfg_encode (CFA0 dev fn) o) n =
  if n <? 8 then (2 <=? n) && Z.testbit o n else if n <? 11 then Z.testbit fn (n - 8) else n =? dev.
Proof.
  intros Hd Hf Hn. unfold cfg_encode. rewrite !Z.lor_spec, one_bit_spec, shl_testbit, offs_testbit by lia.
  rewrite (Z.eqb_sym n dev). decide_cmp; rewrite ?orb_false_r; try done.
  all: destruct (Z.eqb_spec dev n); try lia; cbn [orb]; try done.
  all: apply (testbit_high fn 3); lia.
Qed.

Lemma cfa1_testbit bus dev fn o n : 0 <= dev < 32 -> 0 <= fn < 8 -> 0 <= bus < 256 -> 0 <= n ->
  Z.testbit (cfg_encode (CFA1 bus dev fn) o) n =
  if n <? 8 then (n =? 0) || (2 <=? n) && Z.testbit o n else if n <? 11 then Z.testbit fn (n - 8)
  else if n <? 16 then Z.testbit dev (n - 11) else Z.testbit bus (n - 16).
Proof.
  intros Hd Hf Hb Hn. unfold cfg_encode. change 1 with (1 .<< 0) at 1.
  rewrite !Z.lor_spec, one_bit_spec, !shl_testbit, offs_testbit by lia. rewrite (Z.eqb_sym 0 n).
  assert (Ef : 11 <= n -> Z.testbit fn (n - 8) = false) by (intros; apply (testbit_high fn 3); lia).
  assert (Ed : 16 <= n -> Z.testbit dev (n - 11) = false) by (intros; apply (testbit_high dev 5); lia).
  destruct (Z.eqb_spec n 0); decide_cmp; rewrite ?Ef, ?Ed by lia; rewrite ?orb_false_r, ?orb_true_r; try done.
Qed.

Lemma cfg_encode_range b c o : cfg_valid b c -> 0 <= o < 256 -> 0 <= cfg_encode c o < 2 ^ 32.
Proof.
  intros Hc Ho. assert (Hn : 0 <= cfg_encode c o).
  { destruct c; cbn in *; rewrite !Z.lor_nonneg, !Z.shiftl_nonneg, Z.land_nonneg; lia. }
  apply range_testbit; [done|lia|]. intros n Hn'. destruct c as [dev fn|bus dev fn]; cbn in Hc.
  - rewrite cfa0_testbit by lia. decide_cmp; lia.
  - rewrite cfa1_testbit by lia. decide_cmp. apply (testbit_high bus 8); lia.
Qed.

Lemma tst_one w : tst w 1 = Z.testbit w 0.
Proof. apply (tst_bit w 0). lia. Qed.

(** The offset field, whatever the other bits *)
Lemma decode_offs w o : 0 <= o < 256 ->
  (forall n, 2 <= n < 8 -> Z.testbit w n = Z.testbit o n) -> Z.ldiff w 3 .& 0xff = o .& 0xfc.
Proof.
  intros Ho Hw. apply Z.bits_inj'. intros n Hn. rewrite byte_testbit, offs_testbit, Z.ldiff_spec by lia.
  change 3 with (Z.ones 2). rewrite Z.testbit_ones_nonneg by lia. decide_cmp; rewrite ?andb_true_r, ?andb_false_r; try done.
  apply Hw. lia.
Qed.

Lemma field_eq w x k m : 0 <= k -> 0 <= m -> 0 <= x < 2 ^ m ->
  (forall n, 0 <= n < m -> Z.testbit w (n + k) = Z.testbit x n) -> (w .>> k) .& (2 ^ m - 1) = x.
Proof.
  intros Hk Hm Hx Hw. apply Z.bits_inj'. intros n Hn.
  replace (2 ^ m - 1) with (Z.ones m) by (rewrite Z.ones_equiv; lia).
  rewrite Z.land_spec, Z.shiftr_spec, Z.testbit_ones_nonneg by lia. destruct (Z.ltb_spec n m).
  - rewrite andb_true_r. apply Hw. lia.
  - rewrite andb_false_r. symmetry. apply (testbit_high x m); lia.
Qed.

Lemma devfn_range dev fn : 0 <= dev < 32 -> 0 <= fn < 8 -> 0 <= (dev .<< 3) .| fn < 2 ^ 8.
Proof.
  intros. apply range_testbit; [rewrite Z.lor_nonneg, Z.shiftl_nonneg; lia|lia|].
  intros n Hn. rewrite Z.lor_spec, shl_testbit by lia. decide_cmp.
  rewrite (testbit_high dev 5), (testbit_high fn 3) by lia. done.
Qed.

(** Decoding inverts encoding. *)
Lemma macrisc_decode b c o : cfg_valid b c -> 0 <= o < 256 ->
  macrisc_interpret_addr b (bswap32 (cfg_encode c o)) = (o .& 0xfc, cfg_target b c).
Proof.
  intros Hc Ho. unfold macrisc_interpret_addr.
  rewrite bswap_invol by by apply (cfg_encode_range b). rewrite tst_one.
  destruct c as [dev fn|bus dev fn]; cbn [cfg_valid] in Hc.
  - rewrite cfa0_testbit by lia. cbn [Z.ltb Z.compare Z.leb andb negb].
    rewrite (decode_offs _ o) by (done || (intros; rewrite cfa0_testbit by lia; by decide_cmp)).
    rewrite (select_bits_one dev).
    2: lia. 2: { intros k Hk. rewrite cfa0_testbit by lia. by decide_cmp. }
    change 7 with (2 ^ 3 - 1). rewrite (field_eq _ fn).
    2-4: lia. 2: { intros n Hn. rewrite cfa0_testbit by lia. decide_cmp. f_equal. lia. }
    decide_cmp. cbn [Z.add Z.eqb negb Pos.eqb]. decide_cmp. by rewrite Z.lor_comm.
  - rewrite cfa1_testbit by lia. cbn [Z.ltb Z.compare Z.eqb orb negb].
    rewrite (decode_offs _ o).
    2: done. 2: { intros. rewrite cfa1_testbit by lia. decide_cmp. destruct (Z.eqb_spec n 0); [lia|done]. }
    change 0xff with (2 ^ 8 - 1). rewrite (field_eq _ bus).
    2-4: lia. 2: { intros n Hn. rewrite cfa1_testbit by lia. decide_cmp. f_equal. lia. }
    rewrite (field_eq _ ((dev .<< 3) .| fn)).
    2-3: lia. 2: apply devfn_range; lia.
    2: { intros n Hn. rewrite cfa1_testbit, Z.lor_spec, shl_testbit by lia.
         decide_cmp; rewrite ?orb_false_r.
         - rewrite (testbit_high fn 3 n), orb_false_r by lia. f_equal. lia.
         - f_equal. lia. }
    decide_cmp. done.
Qed.

Section PciBridge.
Context {W : Type}.
Context (map_call : Z -> Z -> Z -> bool -> Z -> io_state W -> io_state W).
Context (cfg_hook : Z -> Z -> Z -> Z -> io_state W -> Z * io_state W).
Context (junk : Z -> Z).
Context (malloc_ok : Z -> bool) (rom_image : Z -> Z -> list Z).
(** The word behind [buf[0]] on the stack *)
Context (buf1 : Z).

Definition at_addr_port (b : bridge) (a : Z) : bool := Z.ldiff a 3 =? b_addr_mbase b.
Definition at_data_port (b : bridge) (a : Z) : bool := Z.ldiff a 7 =? b_data_mbase b.

(** [read_mem] and [write_mem] in the two words of [buf] *)
Definition buf_read (w o len : Z) : Z :=
  if bool_decide (len ∈ [1; 2; 4])
  then be_value (take (Z.to_nat len) (drop (Z.to_nat o) (be_bytes 4 w ++ be_bytes 4 buf1))) else 0.
Definition buf_write (w o data len : Z) : Z :=
  if bool_decide (len ∈ [1; 2; 4]) then
    let l := be_bytes 4 w ++ be_bytes 4 buf1 in
    let n := (Z.to_nat o + Z.to_nat len)%nat in
    be_value (take 4 (take (Z.to_nat o) l ++ be_bytes (Z.to_nat len) data ++ drop n l))
  else w.

(** The test [addr < 0] is made on the unsigned port address: an invalid
    device is looked up as device [-1]. *)
Definition reg_io_read (a len : Z) (b : bridge) (s : pci W) : Z * pci W :=
  if at_addr_port b a then (buf_read (b_addr b) (a .& 3) len, s)
  else if at_data_port b a then
    let '(offs, pa) := interpret_addr b (b_addr b) in
    read_pci_config cfg_hook junk pa (offs + (a .& 3)) len s
  else (0, s).

Definition reg_io_write (a data len : Z) (b : bridge) (s : pci W) : bridge * pci W :=
  if at_addr_port b a then (set_b_addr (buf_write (b_addr b) (a .& 3) data len) b, s)
  else if at_data_port b a then
    let '(offs, pa) := interpret_addr b (b_addr b) in
    if negb (pa =? -1)
    then (b, write_pci_config map_call cfg_hook malloc_ok rom_image pa (offs + (a .& 3)) data len s)
    else (b, s)
  else (b, s).

(** ** A configuration cycle *)

Lemma buf_write_word w v : 0 <= v < 2 ^ 32 -> buf_write w 0 v 4 = v.
Proof.
  intros Hv. unfold buf_write. rewrite bool_decide_true by (do 2 right; left).
  change (Z.to_nat 0) with 0%nat. change (Z.to_nat 4) with 4%nat.
  rewrite take_0. cbn [app Nat.add]. rewrite take_app_le by (rewrite be_bytes_length; lia).
  rewrite take_ge by (rewrite be_bytes_length; lia). by apply be_bytes_value.
Qed.

Lemma target_nonneg b c : 0 <= b_domain b -> 0 <= b_first_bus b -> cfg_valid b c -> 0 <= cfg_target b c.
Proof.
  intros Hd Hf Hc. destruct c; cbn in *; unfold PCIADDR_FROM_BUS_DEVFN;
    rewrite !Z.lor_nonneg, !Z.shiftl_nonneg; lia.
Qed.

(** C34: A configuration cycle through a Bandit, Chaos or Uni-North bridge:
    after the guest has stored the little-endian encoding of a device and an
    offset in the address port - the device given by one of the select bits
    of the first bus, or by a bus number - an access of any length at the
    matching byte of the data port reads or writes the configuration space
    of that device at that offset, and nothing else has happened before it. *)
Theorem config_cycle b c o a len data (s : pci W) :
  b_kind b <> grackle_bridge -> cfg_valid b c -> 0 <= o < 256 ->
  0 <= b_domain b -> 0 <= b_first_bus b ->
  b_addr_mbase b .& 3 = 0 ->
  at_data_port b a = true -> at_addr_port b a = false -> a .& 3 = o .& 3 ->
  let '(b1, s1) := reg_io_write
                     (b_addr_mbase b) (bswap32 (cfg_encode c o)) 4 b s in
  s1 = s /\
  reg_io_read a len b1 s1 = read_pci_config cfg_hook junk (cfg_target b c) o len s /\
  reg_io_write a data len b1 s1 =
    (b1, write_pci_config map_call cfg_hook malloc_ok rom_image (cfg_target b c) o data len s).
Proof.
  intros Hk Hc Ho Hd Hf Hal Hdp Hap Ha.
  assert (Hp : at_addr_port b (b_addr_mbase b) = true).
  { unfold at_addr_port. apply Z.eqb_eq. rewrite Z.ldiff_land. apply Z.bits_inj'. intros n Hn.
    apply (f_equal (fun z => Z.testbit z n)) in Hal. rewrite Z.land_spec, Z.bits_0 in Hal.
    rewrite Z.land_spec, Z.lnot_spec by lia. by destruct (Z.testbit (b_addr_mbase b) n), (Z.testbit 3 n). }
  unfold reg_io_write at 1. rewrite Hp, Hal, buf_write_word by apply bswap_range.
  set (b1 := set_b_addr _ b). split; [done|].
  assert (Hi : interpret_addr b1 (b_addr b1) = (o .& 0xfc, cfg_target b c)).
  { unfold interpret_addr. change (b_kind b1) with (b_kind b).
    replace (match b_kind b with grackle_bridge => grackle_interpret_addr b1 | _ => macrisc_interpret_addr b1 end)
      with (macrisc_interpret_addr b1) by (by destruct (b_kind b)).
    by apply (macrisc_decode b1 c o). }
  pose proof (target_nonneg b c Hd Hf Hc) as Ht.
  unfold reg_io_read, reg_io_write. change (at_addr_port b1 a) with (at_addr_port b a).
  change (at_data_port b1 a) with (at_data_port b a). rewrite Hap, Hdp, Hi, Ha, offs_split by done.
  destruct (Z.eqb_spec (cfg_target b c) (-1)); [lia|]. done.
Qed.

End PciBridge.

(** The gc chip of [Gc.v] behind a Uni-North bridge: reading its vendor *)
Definition uni_north : bridge := Bridge 1 0xf2000000 0 0 0 0xf2800000 0xf2c00000 uninorth_bridge 0.

Lemma config_cycle_witness :
  let '(b1, s1) := reg_io_write Gc.map_call Gc.no_hook (fun _ => true) Gc.rom_zeros 0
                     0xf2800000 (bswap32 (cfg_encode (CFA0 16 0) 0)) 4 uni_north Gc.start in
  (reg_io_read Gc.no_hook (fun _ => 0) 0 0xf2c00000 2 b1 s1).1 = 0x6b10.
Proof.
  pose proof (config_cycle Gc.map_call Gc.no_hook (fun _ => 0) (fun _ => true) Gc.rom_zeros 0 uni_north (CFA0 16 0) 0
    0xf2c00000 2 0 Gc.start ltac:(discriminate) ltac:(cbn; lia) ltac:(lia) ltac:(cbn; lia) ltac:(cbn; lia)
    eq_refl eq_refl eq_refl eq_refl) as H.
  change (b_addr_mbase uni_north) with 0xf2800000 in H.
  destruct (reg_io_write _ _ _ _ _ _ _ _ _ _) as [b1 s1]. destruct H as (-> & -> & _). vm_compute. reflexivity.
Defined.

End PciBridge.
