(* ===== verification/Oftree.v ===== *)
(** * The Open Firmware device tree ([src/main/promif.c])

    The tree of the emulated machine: nodes in memory linked by parent,
    child and sibling pointers and in one list of all nodes, with their
    properties.  Computations that the C code leaves undefined (a null
    pointer followed, an access outside an array) return [None]. *)

From Stdlib Require Import String Ascii.
From S2P Require Import Prelude Memory.

Module Oftree.

#[global] Close Scope string_scope.
Abbreviation length := Datatypes.length.

(** ** Strings: bytes without the terminating zero *)

Abbreviation bytes := (list Z) (only parsing).
Definition str (s : String.string) : bytes :=
  map (fun c => Z.of_N (Ascii.N_of_ascii c)) (String.list_ascii_of_string s).
Arguments str s%_string.

(** The C string at the start of a block *)
Fixpoint cstr (l : bytes) : bytes :=
  match l with [] => [] | c :: l' => if c =? 0 then [] else c :: cstr l' end.

Definition lower (c : Z) : Z := if (65 <=? c) && (c <=? 90) then c + 32 else c.
(** [!strcasecmp( a, b )] *)
Definition strcaseeq (a b : bytes) : bool := bool_decide (map lower a = map lower b).

(** [strsep] and [strchr]: the part before the first [c], and the rest after
    it if there is one *)
Fixpoint strsep (c : Z) (l : bytes) : bytes * option bytes :=
  match l with
  | [] => ([], None)
  | d :: l' => if d =? c then ([], Some l') else let '(a, r) := strsep c l' in (d :: a, r)
  end.

(** [strrchr]: the parts before and after the last [c] *)
Definition strrchr (c : Z) (l : bytes) : option (bytes * bytes) :=
  match strsep c (rev l) with
  | (_, None) => None
  | (b, Some a) => Some (rev a, rev b)
  end.

Definition isspace (c : Z) : bool := (c =? 32) || (9 <=? c) && (c <=? 13).
Definition hexdigit (c : Z) : option Z :=
  if (48 <=? c) && (c <=? 57) then Some (c - 48)
  else if (97 <=? c) && (c <=? 102) then Some (c - 87)
  else if (65 <=? c) && (c <=? 70) then Some (c - 55) else None.

Fixpoint hex_value (l : bytes) (v : Z) : Z :=
  match l with
  | [] => v
  | c :: l' => match hexdigit c with Some d => hex_value l' (v * 16 + d) | None => v end
  end.
Fixpoint skip_spaces (l : bytes) : bytes :=
  match l with c :: l' => if isspace c then skip_spaces l' else l | [] => [] end.

(** [strtoul( s, NULL, 16 )] on a machine with 32-bit longs *)
Definition strtoul16 (l : bytes) : Z :=
  let l := skip_spaces l in
  let '(neg, l) := match l with
                   | c :: l' => if c =? 45 then (true, l') else if c =? 43 then (false, l') else (false, l)
                   | [] => (false, l)
                   end in
  let l := match l with
           | z :: x :: d :: l' => if (z =? 48) && (lower x =? 120) && bool_decide (is_Some (hexdigit d))
                                  then d :: l' else l
           | _ => l
           end in
  let v := hex_value l 0 in
  if 0xffffffff <? v then 0xffffffff else if neg : bool then u32 (- v) else v.

(** ** Nodes *)

(** [p_property_t]: the value has [length] bytes; a null value is empty. *)
Record property := Prop_ { p_name : bytes; p_value : bytes }.

(** [mol_device_node_t]; node addresses are numbers, [None] is null. *)
Record dnode := Node {
  node : Z;
  properties : list property;
  parent : option Z; child : option Z; sibling : option Z;
  next : option Z; allnext : option Z;
  unit_string : option bytes
}.
Definition set_node v n := Node v (properties n) (parent n) (child n) (sibling n) (next n) (allnext n) (unit_string n).
Definition set_properties v n := Node (node n) v (parent n) (child n) (sibling n) (next n) (allnext n) (unit_string n).
Definition set_parent v n := Node (node n) (properties n) v (child n) (sibling n) (next n) (allnext n) (unit_string n).
Definition set_child v n := Node (node n) (properties n) (parent n) v (sibling n) (next n) (allnext n) (unit_string n).
Definition set_sibling v n := Node (node n) (properties n) (parent n) (child n) v (next n) (allnext n) (unit_string n).
Definition set_next v n := Node (node n) (properties n) (parent n) (child n) (sibling n) v (allnext n) (unit_string n).
Definition set_allnext v n := Node (node n) (properties n) (parent n) (child n) (sibling n) (next n) v (unit_string n).

(** The static [oftree]; [fresh] is the next address the obstack gives. *)
Record oftree := Tree {
  nodes : gmap Z dnode;
  root : option Z;
  all : option Z;
  next_phandle : Z;
  fresh : Z
}.
Definition upd (p : Z) (f : dnode -> dnode) (t : oftree) : oftree :=
  Tree (alter f p (nodes t)) (root t) (all t) (next_phandle t) (fresh t).
Definition set_all v t := Tree (nodes t) (root t) v (next_phandle t) (fresh t).

(** Follow a list of nodes from [p] with at most [n] steps: [None] when a
    link leads nowhere or the list does not end. *)
Fixpoint walk (n : nat) (nx : dnode -> option Z) (p : option Z) (t : oftree) : option (list Z) :=
  match p with
  | None => Some []
  | Some a => match n with
              | O => None
              | S n' => nd ← nodes t !! a; l ← walk n' nx (nx nd) t; Some (a :: l)
              end
  end.
Definition nsize (t : oftree) : nat := size (nodes t).
Definition all_nodes (t : oftree) : option (list Z) := walk (nsize t) allnext (all t) t.
Definition children (p : Z) (t : oftree) : option (list Z) :=
  nd ← nodes t !! p; walk (nsize t) sibling (child nd) t.

(** ** Properties *)

Fixpoint find_prop (name : bytes) (l : list property) : option property :=
  match l with [] => None | pp :: l' => if decide (p_name pp = name) then Some pp else find_prop name l' end.

(** [find_property] with a null node finds nothing. *)
Definition find_property (dn : option Z) (name : bytes) (t : oftree) : option property :=
  a ← dn; nd ← nodes t !! a; find_prop name (properties nd).

(** [prom_get_property]: the value, with its length *)
Definition prom_get_property (dn : option Z) (name : bytes) (t : oftree) : option bytes :=
  p_value <$> find_property dn name t.

Definition node_name (dn : Z) (t : oftree) : bytes :=
  match prom_get_property (Some dn) (str "name") t with
  | None => []
  | Some v => match list.last v with Some 0 => cstr v | _ => [] end
  end.

Definition prom_next_property (dn : Z) (prev : bytes) (t : oftree) : option bytes :=
  let fix go l := match l with
                  | [] => None
                  | pp :: l' => if decide (p_name pp = prev) then p_name <$> head l' else go l'
                  end in
  nd ← nodes t !! dn;
  if bool_decide (prev = []) then p_name <$> head (properties nd) else go (properties nd).

Definition prom_get_int_property (dn : option Z) (name : bytes) (t : oftree) : option Z :=
  v ← prom_get_property dn name t; if (length v =? 4)%nat then Some (s32 (be_value v)) else None.

Fixpoint put_prop (name data : bytes) (l : list property) : list property :=
  match l with
  | [] => []
  | pp :: l' => if decide (p_name pp = name) then Prop_ name data :: l' else pp :: put_prop name data l'
  end.

(** An existing property keeps its place, a new one becomes the first. *)
Definition prom_add_property (dn : Z) (name data : bytes) (t : oftree) : oftree :=
  upd dn (fun nd => set_properties
            (match find_prop name (properties nd) with
             | Some _ => put_prop name data (properties nd)
             | None => Prop_ name data :: properties nd
             end) nd) t.

(** ** Node lookup *)

Definition prom_get_root (t : oftree) : option Z := root t.
Definition prom_get_allnext (t : oftree) : option Z := all t.

(** Link the nodes found through their [next] fields. *)
Fixpoint link_found (l : list Z) (t : oftree) : oftree :=
  match l with [] => t | a :: l' => link_found l' (upd a (set_next (head l')) t) end.
Definition found (l : list Z) (t : oftree) : option Z * oftree := (head l, link_found l t).

Definition prom_find_type (type : bytes) (t : oftree) : option (option Z * oftree) :=
  l ← all_nodes t;
  Some (found (filter (fun a => (match prom_get_property (Some a) (str "device_type") t with
                                 | Some v => (length type + 1 =? length v)%nat && strcaseeq type (cstr v)
                                 | None => false
                                 end) = true) l) t).

Definition prom_find_devices (name : bytes) (t : oftree) : option (option Z * oftree) :=
  l ← all_nodes t; Some (found (filter (fun a => strcaseeq (node_name a t) name = true) l) t).

Definition prom_phandle_to_dn (ph : Z) (t : oftree) : option (option Z) :=
  l ← all_nodes t;
  Some (fst <$> (list_find (fun a => node <$> nodes t !! a = Some ph) l ≫= fun p => Some (p.2, p.1))).

Definition prom_dn_to_phandle (dn : option Z) (t : oftree) : Z :=
  match dn ≫= fun a => nodes t !! a with Some nd => node nd | None => 0 end.

Definition ancestors (n : nat) (dn : option Z) (t : oftree) : option (list Z) := walk n parent dn t.
Definition is_ancestor (a : Z) (dn : option Z) (t : oftree) : option bool :=
  l ← ancestors (nsize t) dn t; Some (bool_decide (a ∈ l)).

(** The child matching [name\@unit]: [None] inside when [strtoul] is given a
    null pointer. *)
Fixpoint match_unit (l : list Z) (name : bytes) (u : option bytes) (t : oftree) : option (option Z) :=
  match l with
  | [] => Some None
  | a :: l' =>
      match nodes t !! a ≫= unit_string with
      | None => match_unit l' name u t
      | Some us =>
          if bool_decide (name <> []) && negb (strcaseeq (node_name a t) name) then match_unit l' name u t
          else if bool_decide (head us = Some 42) then Some (Some a)
          else match u with
               | None => None
               | Some s => if strtoul16 s =? strtoul16 us then Some (Some a) else match_unit l' name u t
               end
      end
  end.

(** One component of a path, below [dn] *)
Definition step_path (comp : bytes) (dn : Z) (t : oftree) : option (option Z) :=
  if bool_decide (comp = []) then Some (Some dn) else
  let s := (strsep 58 comp).1 in
  l ← children dn t;
  match list_find (fun a => strcaseeq (node_name a t) s = true) l with
  | Some (_, a) => Some (Some a)
  | None => let '(name, u) := strsep 64 s in match_unit l name u t
  end.

(** The components, [n] at most; the walk ends at a missing node. *)
Fixpoint find_path (n : nat) (path : bytes) (dn : option Z) (t : oftree) : option (option Z) :=
  match dn with
  | None => Some None
  | Some a =>
      match n with
      | O => None
      | S n' => let '(comp, rest) := strsep 47 path in
                dn' ← step_path comp a t;
                match rest with Some r => find_path n' r dn' t | None => Some dn' end
      end
  end.
Definition prom_find_dev_by_path (path : bytes) (t : oftree) : option (option Z) :=
  find_path (S (length path)) path (root t) t.

Definition prom_get_prop_by_path (path : bytes) (t : oftree) : option (option bytes) :=
  match strrchr 47 path with
  | None => Some None
  | Some (p, name) => dn ← prom_find_dev_by_path p t;
                      Some (match dn with Some a => prom_get_property (Some a) name t | None => None end)
  end.

(** ** Names and creation of nodes *)

(** [strncat0] into a buffer of [len] bytes *)
Definition strncat0 (len : nat) (buf s : bytes) : bytes := take (len - 1) (buf ++ s).

Fixpoint full_name (n : nat) (dn : Z) (buf : bytes) (len : nat) (t : oftree) : option bytes :=
  match n with
  | O => None
  | S n' =>
      nd ← nodes t !! dn;
      buf ← match parent nd with Some p => full_name n' p buf len t | None => Some buf end;
      top ← match parent nd with
            | Some p => pn ← nodes t !! p; Some (bool_decide (parent pn = None))
            | None => Some false
            end;
      let buf := if top : bool then buf else strncat0 len buf (str "/") in
      let buf := if bool_decide (is_Some (parent nd)) then strncat0 len buf (node_name dn t) else buf in
      Some (match unit_string nd with
            | Some u => strncat0 len (strncat0 len buf (str "@")) u
            | None => buf
            end)
  end.
Definition get_full_name (dn : Z) (len : nat) (t : oftree) : option bytes :=
  full_name (nsize t) dn [] len t.

Definition prom_add_node (par : Z) (name0 : bytes) (t : oftree) : option (Z * oftree) :=
  pn ← nodes t !! par;
  let '(name, u) := strsep 64 name0 in
  let dn := fresh t in
  let nd := Node (next_phandle t) [] (Some par) None (child pn) None (allnext pn) u in
  let t := Tree (<[dn := nd]> (nodes t)) (root t) (all t) (next_phandle t + 1) (fresh t + 1) in
  let t := upd par (fun n => set_allnext (Some dn) (set_child (Some dn) n)) t in
  Some (dn, prom_add_property dn (str "name") (name ++ [0]) t).

(** Strip trailing slashes and split at the last slash: the path above and
    the last component. *)
Fixpoint strip_split (n : nat) (path : bytes) : option (bytes * bytes) :=
  match n with
  | O => None
  | S n' => match strrchr 47 path with
            | None => None
            | Some (p, []) => strip_split n' p
            | Some (p, last) => Some (p, last)
            end
  end.

(** The node of a path, created with its missing ancestors; the inner option
    is the null pointer. *)
Fixpoint create_node (n : nat) (path : bytes) (name : option bytes) (t : oftree)
    : option (option Z * oftree) :=
  match n with
  | O => None
  | S n' =>
      par ← prom_find_dev_by_path path t;
      '(par, t) ← match par with
                  | Some p => Some (Some p, t)
                  | None => match strip_split (S (length path)) path with
                            | None => Some (None, t)
                            | Some (p, last) => create_node n' p (Some last) t
                            end
                  end;
      match par with
      | None => Some (None, t)
      | Some p => match name with
                  | None => Some (Some p, t)
                  | Some nm => '(dn, t) ← prom_add_node p nm t; Some (Some dn, t)
                  end
      end
  end.
Definition prom_create_node (path : bytes) (t : oftree) : option (option Z * oftree) :=
  create_node (S (length path)) path None t.

(** Unlink [dn] from a list that starts in a field: the start of the list
    and the nodes, or [None] when the assertion fails. *)
Fixpoint unlink (n : nat) (nx : dnode -> option Z) (set_nx : option Z -> dnode -> dnode)
    (p : option Z) (dn : Z) (t : oftree) : option (option Z * oftree) :=
  match n, p with
  | O, _ | _, None => None
  | S n', Some a =>
      nd ← nodes t !! a;
      if a =? dn then Some (nx nd, t)
      else '(q, t) ← unlink n' nx set_nx (nx nd) dn t;
           Some (Some a, if decide (nx nd = q) then t else upd a (set_nx q) t)
  end.

Fixpoint prom_delete_node (n : nat) (dn : Z) (t : oftree) : option oftree :=
  match n with
  | O => None
  | S n' =>
      nd ← nodes t !! dn;
      par ← parent nd;
      match child nd with
      | Some c => t ← prom_delete_node n' c t; prom_delete_node n' dn t
      | None =>
          pn ← nodes t !! par;
          '(c, t) ← unlink (nsize t) sibling set_sibling (child pn) dn t;
          let t := upd par (set_child c) t in
          '(a, t) ← unlink (nsize t) allnext set_allnext (all t) dn t;
          Some (set_all a t)
      end
  end.

End Oftree.
