(* ===== verification/OftreeInv.v ===== *)
(** * The shape of the device tree

    A tree of node addresses is laid out in memory by the links of the nodes;
    adding and deleting nodes change it as one expects, and keep the list of
    all nodes in step. *)

From S2P Require Import Prelude Oftree.

Module OftreeInv.
Export Oftree.

(** A tree of node addresses *)
#[warnings="-register-all"]
Inductive rose := Rose (p : Z) (ts : list rose).

Definition rroot (t : rose) : Z := match t with Rose p _ => p end.
Definition roots (ts : list rose) : list Z := map rroot ts.
Definition first (ts : list rose) : option Z := head (roots ts).

Fixpoint ptrs (t : rose) : list Z := match t with Rose p ts => p :: flat_map ptrs ts end.
Definition fptrs (ts : list rose) : list Z := flat_map ptrs ts.

Lemma rose_ind' (P : rose -> Prop) :
  (forall p ts, Forall P ts -> P (Rose p ts)) -> forall t, P t.
Proof.
  intros H. fix IH 1. intros [p ts]. apply H. induction ts as [|t ts IHts]; constructor; [apply IH|apply IHts].
Qed.

(** The tree laid out in memory below [par], followed by the sibling [nxt] *)
Fixpoint rep (h : gmap Z dnode) (par : option Z) (t : rose) (nxt : option Z) : Prop :=
  match t with
  | Rose p ts =>
      (exists n, h !! p = Some n /\ parent n = par /\ child n = first ts /\ sibling n = nxt) /\
      (fix kids ts := match ts with
                      | [] => True
                      | t' :: ts' => rep h (Some p) t' (first ts') /\ kids ts'
                      end) ts
  end.
Fixpoint forest (h : gmap Z dnode) (par : option Z) (ts : list rose) : Prop :=
  match ts with
  | [] => True
  | t :: ts' => rep h par t (first ts') /\ forest h par ts'
  end.

Lemma rep_eq h par p ts nxt : rep h par (Rose p ts) nxt <->
  (exists n, h !! p = Some n /\ parent n = par /\ child n = first ts /\ sibling n = nxt) /\ forest h (Some p) ts.
Proof.
  assert (E : forall ts, (fix kids ts := match ts with
                 | [] => True | t' :: ts' => rep h (Some p) t' (first ts') /\ kids ts' end) ts <-> forest h (Some p) ts).
  { induction ts0 as [|t ts0 IH]; [done|]. cbn [forest]. by rewrite <- IH. }
  change (rep h par (Rose p ts) nxt) with
    ((exists n, h !! p = Some n /\ parent n = par /\ child n = first ts /\ sibling n = nxt) /\
     (fix kids ts := match ts with
                 | [] => True | t' :: ts' => rep h (Some p) t' (first ts') /\ kids ts' end) ts).
  by rewrite E.
Qed.

(** Following a link through the nodes [xs] ends with null. *)
Fixpoint links (h : gmap Z dnode) (nx : dnode -> option Z) (p : option Z) (xs : list Z) : Prop :=
  match xs with
  | [] => p = None
  | x :: xs' => p = Some x /\ exists n, h !! x = Some n /\ links h nx (nx n) xs'
  end.

(** A device tree whose memory holds the tree [r] and whose list of all
    nodes is [xs] *)
Record laid_out (t : oftree) (r : rose) (xs : list Z) : Prop := LaidOut {
  lo_root : root t = Some (rroot r);
  lo_rep : rep (nodes t) None r None;
  lo_nodup : NoDup (ptrs r);
  lo_all : links (nodes t) allnext (all t) xs;
  lo_perm : xs ≡ₚ ptrs r;
  lo_fresh : forall p n, nodes t !! p = Some n -> p < fresh t
}.

(** ** Removing a subtree *)

Fixpoint prune (x : Z) (t : rose) : list rose :=
  match t with Rose p ts => if decide (p = x) then [] else [Rose p (flat_map (prune x) ts)] end.
Definition fprune (x : Z) (ts : list rose) : list rose := flat_map (prune x) ts.

(** The subtrees below a node *)
Fixpoint sub (x : Z) (t : rose) : option (list rose) :=
  match t with
  | Rose p ts => if decide (p = x) then Some ts
                 else (fix go ts := match ts with
                                    | [] => None
                                    | t' :: ts' => match sub x t' with Some us => Some us | None => go ts' end
                                    end) ts
  end.
Fixpoint fsub (x : Z) (ts : list rose) : option (list rose) :=
  match ts with
  | [] => None
  | t :: ts' => match sub x t with Some us => Some us | None => fsub x ts' end
  end.

Lemma sub_eq x p ts : sub x (Rose p ts) = if decide (p = x) then Some ts else fsub x ts.
Proof. cbn [sub]. destruct (decide (p = x)); [done|]. induction ts as [|t ts IH]; [done|]. cbn. by rewrite IH. Qed.

Lemma prune_eq x p ts : prune x (Rose p ts) = if decide (p = x) then [] else [Rose p (fprune x ts)].
Proof. done. Qed.
Lemma ptrs_eq p ts : ptrs (Rose p ts) = p :: fptrs ts.
Proof. done. Qed.

Lemma fprune_cons x t ts : fprune x (t :: ts) = prune x t ++ fprune x ts.
Proof. done. Qed.
Lemma fptrs_cons t ts : fptrs (t :: ts) = ptrs t ++ fptrs ts.
Proof. done. Qed.
Lemma fptrs_app ts us : fptrs (ts ++ us) = fptrs ts ++ fptrs us.
Proof. apply flat_map_app. Qed.

Lemma rroot_in t : rroot t ∈ ptrs t.
Proof. destruct t. left. Qed.

(** Pruning an address that does not occur changes nothing. *)
Lemma prune_absent x t : x ∉ ptrs t -> prune x t = [t].
Proof.
  induction t as [p ts IH] using rose_ind'. rewrite ptrs_eq, prune_eq. intros [H1 H2]%not_elem_of_cons.
  rewrite decide_False by congruence. do 2 f_equal.
  induction IH as [|t ts Ht _ IHts]; [done|]. rewrite fptrs_cons, not_elem_of_app in H2.
  rewrite fprune_cons, Ht, IHts by apply H2. done.
Qed.

Lemma fprune_absent x ts : x ∉ fptrs ts -> fprune x ts = ts.
Proof.
  induction ts as [|t ts IH]; [done|]. rewrite fptrs_cons, not_elem_of_app, fprune_cons. intros [H1 H2].
  by rewrite prune_absent, IH.
Qed.

(** The addresses left by pruning are among those before, except the root. *)
Lemma prune_ptrs x t y : y ∈ fptrs (prune x t) -> y ∈ ptrs t /\ y <> x.
Proof.
  induction t as [p ts IH] using rose_ind'. rewrite prune_eq. destruct (decide (p = x)) as [|Hp]; [by intros ?%elem_of_nil|].
  rewrite fptrs_cons, app_nil_r, !ptrs_eq, !elem_of_cons. intros [->|H]; [by auto|].
  cut (y ∈ fptrs ts /\ y <> x); [tauto|]. induction IH as [|t ts Ht _ IHts]; [by apply elem_of_nil in H|].
  rewrite fprune_cons, fptrs_app, elem_of_app in H. rewrite fptrs_cons, elem_of_app.
  destruct H as [H|H]; [apply Ht in H|apply IHts in H]; tauto.
Qed.

Lemma fprune_ptrs x ts y : y ∈ fptrs (fprune x ts) -> y ∈ fptrs ts /\ y <> x.
Proof.
  induction ts as [|t ts IH]; [by intros ?%elem_of_nil|]. rewrite fprune_cons, fptrs_app, fptrs_cons, !elem_of_app.
  intros [H|H]; [apply prune_ptrs in H|apply IH in H]; tauto.
Qed.

Lemma fprune_nodup x ts : NoDup (fptrs ts) -> NoDup (fptrs (fprune x ts)).
Proof.
  assert (Ht : forall t, NoDup (ptrs t) -> NoDup (fptrs (prune x t))).
  { induction t as [p us IH] using rose_ind'. rewrite ptrs_eq, prune_eq. intros [H1 H2]%list.NoDup_cons.
    destruct (decide (p = x)); [constructor|]. rewrite fptrs_cons, app_nil_r, ptrs_eq. apply list.NoDup_cons.
    split; [intros [? _]%fprune_ptrs; done|]. clear H1.
    induction IH as [|t us Ht _ IHus]; [constructor|]. rewrite fptrs_cons in H2. rewrite fprune_cons, fptrs_app.
    apply list.NoDup_app in H2 as (N1 & N2 & N3). apply list.NoDup_app. split_and!; auto.
    intros y [Hy _]%prune_ptrs [Hy' _]%fprune_ptrs. by apply (N2 y). }
  induction ts as [|t ts IH]; [done|]. rewrite fprune_cons, fptrs_app, fptrs_cons.
  intros (N1 & N2 & N3)%list.NoDup_app. apply list.NoDup_app. split_and!; auto.
  intros y [Hy _]%prune_ptrs [Hy' _]%fprune_ptrs. by apply (N2 y).
Qed.

(** ** Subtrees *)

Lemma fsub_app x ts us : fsub x (ts ++ us) = match fsub x ts with Some v => Some v | None => fsub x us end.
Proof. induction ts as [|t ts IH]; [done|]. cbn. rewrite IH. by destruct (sub x t). Qed.

Lemma elem_root p vs us : Rose p vs ∈ us -> p ∈ fptrs us.
Proof. intros H. apply list_elem_of_In, in_flat_map. exists (Rose p vs). split; [by apply list_elem_of_In|by left]. Qed.

Lemma sub_some x t us : sub x t = Some us -> x ∈ ptrs t /\ fptrs us ⊆ ptrs t.
Proof.
  revert us. induction t as [p ts IH] using rose_ind'. intros us. rewrite sub_eq, ptrs_eq.
  destruct (decide (p = x)) as [->|Hp].
  - intros [= ->]. split; [left|]. intros y Hy. by right.
  - intros H. cut (x ∈ fptrs ts /\ fptrs us ⊆ fptrs ts); [intros [H1 H2]; split; [by right|intros y Hy; right; by apply H2]|].
    induction IH as [|t ts Ht _ IHts]; [done|]. cbn in H. rewrite fptrs_cons.
    destruct (sub x t) as [v|] eqn:E.
    + injection H as ->. destruct (Ht us eq_refl) as [H1 H2]. split; [apply elem_of_app; by left|].
      intros y Hy. apply elem_of_app. left. by apply H2.
    + destruct (IHts H) as [H1 H2]. split; [apply elem_of_app; by right|].
      intros y Hy. apply elem_of_app. right. by apply H2.
Qed.

Lemma sub_in x t : x ∈ ptrs t -> exists us, sub x t = Some us.
Proof.
  induction t as [p ts IH] using rose_ind'. rewrite ptrs_eq, sub_eq, elem_of_cons.
  destruct (decide (p = x)) as [|Hp]; [by eauto|]. intros [|H]; [congruence|].
  induction IH as [|t ts Ht _ IHts]; [by apply elem_of_nil in H|]. rewrite fptrs_cons, elem_of_app in H. cbn.
  destruct (sub x t) as [v|] eqn:E; [by eauto|]. destruct H as [H|H]; [|by auto].
  destruct (Ht H) as [v Hv]. congruence.
Qed.

Lemma sub_none x t : x ∉ ptrs t -> sub x t = None.
Proof. destruct (sub x t) as [us|] eqn:E; [|done]. intros H. exfalso. apply H. by destruct (sub_some _ _ _ E). Qed.

Lemma fsub_some x ts us : fsub x ts = Some us -> x ∈ fptrs ts /\ fptrs us ⊆ fptrs ts.
Proof.
  induction ts as [|t ts IH]; [done|]. cbn [fsub]. destruct (sub x t) as [v|] eqn:E; rewrite fptrs_cons.
  - intros [= ->]. apply sub_some in E as [H1 H2]. split; [apply elem_of_app; by left|].
    intros y Hy. apply elem_of_app. left. by apply H2.
  - intros [H1 H2]%IH. split; [apply elem_of_app; by right|]. intros y Hy. apply elem_of_app. right. by apply H2.
Qed.

(** The subtrees of a tree without repetitions are themselves so, and do not
    contain their root. *)
Lemma sub_nodup x t us : NoDup (ptrs t) -> sub x t = Some us -> NoDup (fptrs us) /\ x ∉ fptrs us.
Proof.
  revert us. induction t as [p ts IH] using rose_ind'. intros us. rewrite sub_eq, ptrs_eq.
  intros [H1 H2]%list.NoDup_cons. destruct (decide (p = x)) as [->|Hp]; [by intros [= ->]|]. intros H. clear H1.
  induction IH as [|t ts Ht _ IHts]; [done|]. rewrite fptrs_cons in H2. apply list.NoDup_app in H2 as (N1 & N2 & N3).
  cbn in H. destruct (sub x t) as [v|] eqn:E; [injection H as ->; by apply Ht|by apply IHts].
Qed.

(** The children of a child *)
Lemma sub_child x t us p vs : NoDup (ptrs t) -> sub x t = Some us -> Rose p vs ∈ us -> sub p t = Some vs.
Proof.
  revert us. induction t as [q ts IH] using rose_ind'. intros us. rewrite !sub_eq, ptrs_eq.
  intros [H1 H2]%list.NoDup_cons Hs Hin. 
  assert (Hp : p ∈ fptrs ts).
  { assert (Hpu : p ∈ fptrs us) by by eapply elem_root.
    destruct (decide (q = x)); [by simplify_eq|]. apply fsub_some in Hs as [_ Hs]. by apply Hs. }
  rewrite (decide_False (P:=q = p)) by congruence.
  destruct (decide (q = x)) as [|Hq].
  - injection Hs as ->. clear H1 IH. induction us as [|t us IHu]; [by apply elem_of_nil in Hin|].
    rewrite fptrs_cons in H2, Hp. apply list.NoDup_app in H2 as (N1 & N2 & N3). cbn [fsub].
    apply elem_of_cons in Hin as [<-|Hin]; [by rewrite sub_eq, decide_True|].
    assert (Hpu : p ∈ fptrs us) by by eapply elem_root.
    rewrite (sub_none p t) by (intros ?; by apply (N2 p)). by apply IHu.
  - clear Hp H1. induction IH as [|t ts Ht _ IHts]; [done|]. rewrite fptrs_cons in H2.
    apply list.NoDup_app in H2 as (N1 & N2 & N3). cbn [fsub] in *. destruct (sub x t) as [v|] eqn:E.
    + injection Hs as ->. by rewrite (Ht us N1 eq_refl Hin).
    + assert (Hpu : p ∈ fptrs us) by by eapply elem_root.
      assert (p ∈ fptrs ts) by by apply fsub_some in Hs as [_ Hs]; apply Hs.
      rewrite (sub_none p t) by (intros ?; by apply (N2 p)). by apply IHts.
Qed.

(** Pruning a node [c] strictly below [x] prunes it below [x], and does not
    matter when [x] is pruned next. *)
Lemma sub_prune x c t us : NoDup (ptrs t) -> sub x t = Some us -> c ∈ fptrs us ->
  exists t', prune c t = [t'] /\ rroot t' = rroot t /\ sub x t' = Some (fprune c us) /\ prune x t' = prune x t.
Proof.
  revert us. induction t as [q ts IH] using rose_ind'. intros us. rewrite sub_eq, ptrs_eq, prune_eq.
  intros [H1 H2]%list.NoDup_cons Hs Hc.
  assert (Hcq : q <> c).
  { intros ->. apply H1. destruct (decide (c = x)); [by simplify_eq|]. apply fsub_some in Hs as [_ Hs]. by apply Hs. }
  rewrite decide_False by done. eexists. split; [done|]. split; [done|]. rewrite sub_eq, !prune_eq.
  destruct (decide (q = x)) as [|Hq]; [by simplify_eq|]. clear H1.
  cut (fsub x (fprune c ts) = Some (fprune c us) /\ fprune x (fprune c ts) = fprune x ts).
  { intros [E1 E2]. by rewrite E1, E2. }
  induction IH as [|t ts Ht _ IHts]; [done|]. rewrite fptrs_cons in H2. apply list.NoDup_app in H2 as (N1 & N2 & N3).
  cbn [fsub] in Hs. rewrite !fprune_cons. destruct (sub x t) as [v|] eqn:E.
  - injection Hs as ->. destruct (Ht us N1 eq_refl Hc) as (t' & E1 & E2 & E3 & E4). rewrite E1.
    cbn [app fsub]. rewrite E3, fprune_cons, E4. apply sub_some in E as [Hx Hu].
    by rewrite (fprune_absent c ts) by (apply N2, Hu, Hc).
  - destruct (IHts N3 Hs) as [E1 E2]. apply fsub_some in Hs as [Hx Hu].
    rewrite (prune_absent c t) by (intros ?; by apply (N2 c), Hu).
    cbn [app fsub]. by rewrite E, E1, fprune_cons, E2.
Qed.

Lemma filter_keep {A} (P : A -> Prop) `{!forall x, Decision (P x)} (l : list A) : (forall y, y ∈ l -> P y) -> filter P l = l.
Proof.
  induction l as [|y l IH]; intros Hl; [done|]. rewrite filter_cons_True by (apply Hl; left).
  by rewrite IH by (intros; apply Hl; by right).
Qed.

(** Pruning a leaf removes just its address. *)
Lemma prune_leaf x t : NoDup (ptrs t) -> sub x t = Some [] -> fptrs (prune x t) = filter (.≠ x) (ptrs t).
Proof.
  induction t as [q ts IH] using rose_ind'. rewrite sub_eq, ptrs_eq, prune_eq. intros [H1 H2]%list.NoDup_cons Hs.
  destruct (decide (q = x)) as [->|Hq].
  { injection Hs as ->. rewrite filter_cons_False by auto. done. }
  rewrite fptrs_cons, app_nil_r, ptrs_eq, filter_cons_True by done. f_equal. clear H1.
  induction IH as [|t ts Ht _ IHts]; [done|]. rewrite fptrs_cons in *. apply list.NoDup_app in H2 as (N1 & N2 & N3).
  cbn [fsub] in Hs. rewrite fprune_cons, fptrs_app, list.filter_app. destruct (sub x t) as [v|] eqn:E.
  - injection Hs as ->. rewrite Ht by done. f_equal. apply sub_some in E as [Hx _].
    rewrite fprune_absent by by apply N2. symmetry. apply filter_keep. intros y Hy ->.
    by apply (N2 x).
  - rewrite IHts by done. f_equal. apply fsub_some in Hs as [Hx _].
    assert (Hn : x ∉ ptrs t) by (intros ?; by apply (N2 x)). rewrite prune_absent by done.
    rewrite fptrs_cons, app_nil_r. symmetry. apply filter_keep. by intros y Hy ->.
Qed.

(** What pruning leaves *)
Lemma prune_mem x t us y : NoDup (ptrs t) -> sub x t = Some us ->
  y ∈ fptrs (prune x t) <-> y ∈ ptrs t /\ y <> x /\ y ∉ fptrs us.
Proof.
  induction t as [q ts IH] using rose_ind'. rewrite sub_eq, ptrs_eq, prune_eq. intros [H1 H2]%list.NoDup_cons Hs.
  destruct (decide (q = x)) as [->|Hq].
  { injection Hs as ->. rewrite elem_of_cons. split; [by intros ?%elem_of_nil|tauto]. }
  rewrite fptrs_cons, app_nil_r, ptrs_eq, !elem_of_cons.
  assert (Hqu : q ∉ fptrs us) by (intros Hqu; apply H1; apply fsub_some in Hs as [_ Hs]; by apply Hs).
  cut (y ∈ fptrs (fprune x ts) <-> y ∈ fptrs ts /\ y <> x /\ y ∉ fptrs us).
  { intros ->. split; [intros [->|?]; tauto|tauto]. }
  clear H1 Hqu. induction IH as [|t ts Ht _ IHts]; [done|]. rewrite fptrs_cons in *.
  apply list.NoDup_app in H2 as (N1 & N2 & N3). cbn [fsub] in Hs. rewrite fprune_cons, fptrs_app, !elem_of_app.
  destruct (sub x t) as [v|] eqn:E.
  - injection Hs as ->. rewrite (Ht N1 eq_refl). apply sub_some in E as [Hx Hu]. rewrite fprune_absent by by apply N2.
    split; [|tauto]. intros [?|Hy]; [tauto|]. split; [by right|]. split; [|intros Hy'; by apply (N2 y); [apply Hu|]].
    intros ->. by apply (N2 x).
  - rewrite (IHts N3 Hs). apply fsub_some in Hs as [Hx Hu].
    assert (Hxt : x ∉ ptrs t) by (intros ?; by apply (N2 x)). rewrite prune_absent, fptrs_cons, app_nil_r by done.
    split; [|tauto]. intros [Hy|?]; [|tauto]. split; [by left|]. split; [by intros ->|]. intros Hy'. by apply (N2 y); [|apply Hu].
Qed.

(** ** Facts of the layout *)

Lemma first_cons t ts : first (t :: ts) = Some (rroot t).
Proof. done. Qed.

Lemma rep_root h par t nxt : rep h par t nxt -> exists n, h !! rroot t = Some n /\ parent n = par /\ sibling n = nxt.
Proof. destruct t as [p ts]. rewrite rep_eq. intros [(n & H & Hp & Hc & Hs) _]. by exists n. Qed.

Lemma rep_sub h x t us : forall par nxt, rep h par t nxt -> sub x t = Some us ->
  exists n, h !! x = Some n /\ child n = first us /\ forest h (Some x) us.
Proof.
  revert us. induction t as [q ts IH] using rose_ind'. intros us par nxt. rewrite rep_eq, sub_eq.
  intros [(n & Hn & _ & Hc & _) Hf] Hs. destruct (decide (q = x)) as [->|Hq].
  - injection Hs as ->. by exists n.
  - clear Hc. induction IH as [|t ts Ht _ IHts]; [done|]. cbn [fsub forest] in *. destruct Hf as [Hf1 Hf2].
    destruct (sub x t) as [v|] eqn:E; [injection Hs as ->; by apply (Ht us _ _ Hf1)|by apply IHts].
Qed.

Lemma forest_links h par ts : forest h par ts -> links h sibling (first ts) (roots ts).
Proof.
  induction ts as [|t ts IH]; [done|]. cbn [forest]. intros [Hr Hf]. split; [done|].
  destruct (rep_root _ _ _ _ Hr) as (n & Hn & _ & Hs). exists n. split; [done|]. rewrite Hs. by apply IH.
Qed.

Lemma forest_parent h par ts y : forest h par ts -> y ∈ roots ts -> exists n, h !! y = Some n /\ parent n = par.
Proof.
  induction ts as [|t ts IH]; [by intros _ ?%elem_of_nil|]. cbn [forest]. intros [Hr Hf] [->|H]%elem_of_cons; [|by auto].
  destruct (rep_root _ _ _ _ Hr) as (n & Hn & Hp & _). by exists n.
Qed.

(** Every node but the root is the child of one. *)
Lemma in_child t y : NoDup (ptrs t) -> y ∈ ptrs t -> y = rroot t \/ exists p us, sub p t = Some us /\ y ∈ roots us.
Proof.
  induction t as [q ts IH] using rose_ind'. rewrite ptrs_eq, elem_of_cons. intros [N1 N2]%list.NoDup_cons [->|Hy]; [by left|].
  right. destruct (decide (y ∈ roots ts)) as [Hr|Hr].
  { exists q, ts. by rewrite sub_eq, decide_True. }
  cut (exists p us, fsub p ts = Some us /\ y ∈ roots us).
  { intros (p & us & Hs & Hu). exists p, us. rewrite sub_eq, decide_False; [done|]. intros ->.
    by apply fsub_some in Hs as [Hs _]. }
  clear N1. induction IH as [|t ts Ht _ IHts]; [by apply elem_of_nil in Hy|]. rewrite fptrs_cons in *.
  apply list.NoDup_app in N2 as (N1 & N2 & N3). cbn [roots map] in Hr. apply not_elem_of_cons in Hr as [Hr1 Hr2].
  apply elem_of_app in Hy as [Hy|Hy].
  - destruct (Ht N1 Hy) as [|(p & us & Hs & Hu)]; [done|]. exists p, us. cbn [fsub]. by rewrite Hs.
  - destruct (IHts N3 Hy Hr2) as (p & us & Hs & Hu). exists p, us. cbn [fsub].
    rewrite sub_none; [done|]. intros Hp. by apply fsub_some in Hs as [Hs _]; apply (N2 p).
Qed.

(** ** Unlinking one node *)

(** The link of a node to [x] replaced by [nxx] *)
Definition skip (x : Z) (nxx o : option Z) : option Z := if decide (o = Some x) then nxx else o.

(** In [h'] the nodes [P] other than [x] skip [x]. *)
Definition skips (P : list Z) (x : Z) (nxx : option Z) (h h' : gmap Z dnode) : Prop :=
  forall p n, p ∈ P -> p <> x -> h !! p = Some n ->
    exists n', h' !! p = Some n' /\ parent n' = parent n /\
      child n' = skip x nxx (child n) /\ sibling n' = skip x nxx (sibling n).

(** The layout without [x] *)
Lemma rep_prune h h' x nxx t : forall par nxt,
  skips (ptrs t) x nxx h h' -> (forall n, h !! x = Some n -> sibling n = nxx) ->
  NoDup (ptrs t) -> rroot t <> x -> rep h par t nxt ->
  exists t', prune x t = [t'] /\ rroot t' = rroot t /\ rep h' par t' (skip x nxx nxt).
Proof.
  induction t as [p ts IH] using rose_ind'. intros par nxt Hk Hx. rewrite ptrs_eq, rep_eq. cbn [rroot].
  intros [N1 N2]%list.NoDup_cons Hp [(n & Hn & Hpa & Hc & Hs) Hf].
  rewrite prune_eq, decide_False by done. eexists. split; [done|]. split; [done|]. rewrite rep_eq.
  destruct (Hk p n ltac:(left) Hp Hn) as (n' & Hn' & Hpa' & Hc' & Hs').
  cut (forest h' (Some p) (fprune x ts) /\ first (fprune x ts) = skip x nxx (first ts)).
  { intros [Hf' E]. split; [|done]. exists n'. split_and!; congruence. }
  assert (Hk' : skips (fptrs ts) x nxx h h') by (intros y m Hy; apply Hk; rewrite ptrs_eq; by right).
  clear N1 Hk Hn Hc Hn' Hc'. induction IH as [|t ts Ht _ IHts]; [done|]. rewrite fptrs_cons in *. cbn [forest] in Hf.
  destruct Hf as [Hr Hf]. apply list.NoDup_app in N2 as (N1 & N2 & N3).
  destruct IHts as [If Ie]; [done..| |].
  { intros y m Hy. apply Hk'. apply elem_of_app. by right. }
  rewrite fprune_cons. destruct (decide (rroot t = x)) as [Ex|Ex].
  - destruct t as [q vs]. cbn in Ex. subst q. rewrite prune_eq, decide_True by done. split; [done|].
    rewrite fprune_absent by (apply N2; left). unfold skip. cbn [app]. rewrite first_cons, decide_True by done.
    apply rep_root in Hr as (m & Hm & _ & Hsm). rewrite <- (Hx m Hm). done.
  - destruct (Ht (Some p) (first ts)) as (t' & E1 & E2 & E3); try done.
    { intros y m Hy. apply Hk'. apply elem_of_app. by left. }
    rewrite E1. cbn [app forest]. rewrite Ie. split; [done|]. unfold skip. rewrite !first_cons, E2.
    by rewrite decide_False by congruence.
Qed.

Lemma links_next h nx p xs a n y :
  links h nx p xs -> a ∈ xs -> h !! a = Some n -> nx n = Some y -> y ∈ tail xs.
Proof.
  revert p. induction xs as [|x xs IH]; intros p; [by intros _ ?%elem_of_nil|]. cbn [links tail].
  intros (-> & m & Hm & Hl) Ha Hn Hy. apply elem_of_cons in Ha as [->|Ha].
  - replace m with n in Hl by congruence. rewrite Hy in Hl. destruct xs as [|z xs]; [done|].
    destruct Hl as [[= ->] _]. left.
  - specialize (IH _ Hl Ha Hn Hy). destruct xs; [done|]. by right.
Qed.

Lemma links_ext h h' nx p xs :
  (forall a n, a ∈ xs -> h !! a = Some n -> exists n', h' !! a = Some n' /\ nx n' = nx n) ->
  links h nx p xs -> links h' nx p xs.
Proof.
  revert p. induction xs as [|x xs IH]; intros p Hx; [done|]. cbn. intros (-> & n & Hn & Hl). split; [done|].
  destruct (Hx x n ltac:(left) Hn) as (n' & Hn' & E). exists n'. split; [done|]. rewrite E. apply IH; [|done].
  intros a m Ha. apply Hx. by right.
Qed.

Section Unlink.
Context (nx : dnode -> option Z) (set_nx : option Z -> dnode -> dnode).
Hypothesis nx_set : forall v n, nx (set_nx v n) = v.
Hypothesis set_same : forall n, set_nx (nx n) n = n.

(** The nodes after [x], followed by [nxx], is taken out of the list [xs] *)
Definition unlinked (xs : list Z) (x : Z) (nxx : option Z) (t t' : oftree) : Prop :=
  root t' = root t /\ all t' = all t /\ next_phandle t' = next_phandle t /\ fresh t' = fresh t /\
  forall a, nodes t' !! a = (fun n => if decide (a ∈ xs /\ nx n = Some x) then set_nx nxx n else n) <$> nodes t !! a.

Lemma unlink_links x t : forall xs n p m, links (nodes t) nx p xs -> NoDup xs -> x ∈ xs -> (length xs <= n)%nat ->
  nodes t !! x = Some m ->
  exists t', unlink n nx set_nx p x t = Some (skip x (nx m) p, t') /\ unlinked xs x (nx m) t t' /\
    links (nodes t') nx (skip x (nx m) p) (filter (.≠ x) xs).
Proof.
  induction xs as [|a xs IH]; intros n p m Hl Hd Hx Hn Hm; [by apply elem_of_nil in Hx|].
  destruct n as [|n]; [cbn in Hn; lia|].
  pose proof (links_next _ _ _ _ x m x Hl Hx Hm) as Hself. pose proof (fun b n y => links_next (nodes t) nx p (a :: xs) b n y Hl) as Hnext.
  cbn [links] in Hl. destruct Hl as (-> & nd & Hnd & Hl). apply list.NoDup_cons in Hd as [Ha Hd].
  cbn [unlink]. rewrite Hnd. cbn [mbind option_bind]. destruct (Z.eqb_spec a x) as [->|Hax].
  - replace nd with m in * by congruence. exists t. unfold skip. rewrite decide_True by done. split; [done|].
    rewrite filter_cons_False by auto. rewrite filter_keep by (by intros y Hy ->). split; [|done].
    split_and!; try done. intros b. destruct (nodes t !! b) as [n'|] eqn:Hb; [|done]. cbn.
    rewrite decide_False; [done|]. intros [Hb1 Hb2].
    by apply Ha, (Hnext b n' x).
  - apply elem_of_cons in Hx as [|Hx]; [congruence|].
    destruct (IH n (nx nd) m Hl Hd Hx ltac:(cbn in Hn; lia) Hm) as (t1 & -> & (R & A & N & F & P) & L1).
    cbn [mbind option_bind]. set (q := skip x (nx m) (nx nd)) in *.
    pose (t2 := if decide (nx nd = q) then t1 else upd a (set_nx q) t1). exists t2.
    split; [unfold skip; by rewrite (decide_False (P:=Some a = Some x)) by congruence|].
    assert (P2 : unlinked (a :: xs) x (nx m) t t2).
    { unfold t2. split_and!; try (by destruct (decide _)). intros b.
      destruct (decide (b = a)) as [->|Hb].
      - specialize (P a). rewrite Hnd in P |- *. cbn in P |- *. rewrite decide_False in P by tauto.
        destruct (decide (nx nd = Some x)) as [E|E]; unfold q, skip.
        + rewrite (decide_True (P:=nx nd = Some x)), (decide_True (P:=a ∈ a :: xs /\ _)) by (done || (split; [left|done])).
          destruct (decide (nx nd = nx m)) as [E'|E'].
          * by rewrite <- E', set_same.
          * cbn. by rewrite lookup_alter_eq, P.
        + rewrite (decide_False (P:=nx nd = Some x)), (decide_True (P:=nx nd = nx nd)), decide_False by tauto. done.
      - replace (nodes (if decide (nx nd = q) then t1 else upd a (set_nx q) t1) !! b) with (nodes t1 !! b).
        2: { destruct (decide _); [done|]. cbn. by rewrite lookup_alter_ne by done. }
        rewrite P. destruct (nodes t !! b) as [n'|]; [|done]. cbn. f_equal.
        destruct (decide (b ∈ xs /\ nx n' = Some x)) as [[H1 H2]|H]; symmetry.
        + rewrite decide_True; [done|]. split; [by right|done].
        + rewrite decide_False; [done|]. intros [[|H1]%elem_of_cons H2]; [done|]. tauto. }
    split; [exact P2|]. rewrite filter_cons_True by done. cbn [links].
    split; [unfold skip; by rewrite (decide_False (P:=Some a = Some x)) by congruence|].
    destruct P2 as (_ & _ & _ & _ & P2). pose proof (P2 a) as Pa. rewrite Hnd in Pa. cbn in Pa.
    eexists. split; [exact Pa|].
    replace (nx (if decide (a ∈ a :: xs ∧ nx nd = Some x) then set_nx (nx m) nd else nd)) with q.
    2: { unfold q, skip. destruct (decide (nx nd = Some x)) as [E|E].
         - rewrite (decide_True (P:=a ∈ a :: xs /\ _)) by (split; [left|done]). by rewrite nx_set.
         - by rewrite decide_False by tauto. }
    apply (links_ext (nodes t1)); [|exact L1]. intros b n' Hb Hb'. exists n'. split; [|done].
    rewrite <- Hb'. unfold t2. destruct (decide _); [done|]. cbn. apply lookup_alter_ne.
    intros ->. apply list_elem_of_filter in Hb as [_ Hb]. done.
Qed.
End Unlink.

(** ** Deleting a leaf *)

(** Nodes that agree on the tree links *)
Definition same_links (n n' : dnode) : Prop :=
  parent n' = parent n /\ child n' = child n /\ sibling n' = sibling n.

Lemma rep_ext h h' t : forall par nxt,
  (forall p n, p ∈ ptrs t -> h !! p = Some n -> exists n', h' !! p = Some n' /\ same_links n n') ->
  rep h par t nxt -> rep h' par t nxt.
Proof.
  induction t as [p ts IH] using rose_ind'. intros par nxt Hx. rewrite !rep_eq. intros [(n & Hn & Hp & Hc & Hs) Hf].
  destruct (Hx p n ltac:(left) Hn) as (n' & Hn' & Ep & Ec & Es). split; [exists n'; split_and!; congruence|].
  assert (Hx' : forall q m, q ∈ fptrs ts -> h !! q = Some m -> exists m', h' !! q = Some m' /\ same_links m m').
  { intros q m Hq. apply Hx. rewrite ptrs_eq. by right. }
  clear - IH Hf Hx'. induction IH as [|t ts Ht _ IHts]; [done|]. cbn [forest] in *. destruct Hf as [Hr Hf]. split.
  - apply Ht; [|done]. intros q m Hq. apply Hx'. rewrite fptrs_cons. apply elem_of_app. by left.
  - apply IHts; [done|]. intros q m Hq. apply Hx'. rewrite fptrs_cons. apply elem_of_app. by right.
Qed.

Lemma roots_incl ts : roots ts ⊆ fptrs ts.
Proof.
  induction ts as [|t ts IH]; intros y; [done|]. rewrite fptrs_cons, elem_of_app. cbn [roots map].
  intros [->|H]%elem_of_cons; [left; apply rroot_in|right; by apply IH].
Qed.

Lemma roots_nodup ts : NoDup (fptrs ts) -> NoDup (roots ts).
Proof.
  induction ts as [|t ts IH]; [constructor|]. rewrite fptrs_cons. intros (N1 & N2 & N3)%list.NoDup_app.
  cbn [roots map]. apply list.NoDup_cons. split; [|by apply IH]. intros H%roots_incl. apply (N2 (rroot t)); [apply rroot_in|done].
Qed.

(** The parent link tells the list of siblings. *)
Lemma parent_sub h t y n p : rep h None t None -> NoDup (ptrs t) -> y ∈ ptrs t -> h !! y = Some n ->
  parent n = Some p -> exists us, sub p t = Some us /\ y ∈ roots us.
Proof.
  intros Hr Hd Hy Hn Hp. destruct (in_child t y Hd Hy) as [->|(q & us & Hs & Hu)].
  - destruct (rep_root _ _ _ _ Hr) as (n' & Hn' & Hp' & _). congruence.
  - destruct (rep_sub h q t us _ _ Hr Hs) as (m & Hm & Hc & Hf).
    destruct (forest_parent _ _ _ _ Hf Hu) as (n' & Hn' & Hp'). exists us. split; [|done].
    replace p with q by congruence. done.
Qed.

Lemma child_parent h t y n c : rep h None t None -> NoDup (ptrs t) -> y ∈ ptrs t -> h !! y = Some n ->
  child n = Some c -> exists m, h !! c = Some m /\ parent m = Some y.
Proof.
  intros Hr Hd Hy Hn Hc. destruct (sub_in y t Hy) as [us Hs].
  destruct (rep_sub h y t us _ _ Hr Hs) as (m & Hm & Hc' & Hf).
  destruct us as [|u us]; [cbn in Hc'; congruence|]. rewrite first_cons in Hc'.
  apply (forest_parent h (Some y) (u :: us)); [done|]. replace c with (rroot u) by congruence. left.
Qed.

Lemma sibling_parent h t y n c : rep h None t None -> NoDup (ptrs t) -> y ∈ ptrs t -> h !! y = Some n ->
  sibling n = Some c -> exists p us, sub p t = Some us /\ y ∈ roots us /\ c ∈ roots us.
Proof.
  intros Hr Hd Hy Hn Hs. destruct (in_child t y Hd Hy) as [->|(q & us & Hq & Hu)].
  - destruct (rep_root _ _ _ _ Hr) as (n' & Hn' & _ & Hs'). congruence.
  - destruct (rep_sub h q t us _ _ Hr Hq) as (m & Hm & Hc & Hf). exists q, us. split_and!; [done..|].
    apply forest_links in Hf. pose proof (links_next _ _ _ _ _ _ _ Hf Hu Hn Hs) as H.
    destruct (roots us); [done|]. by right.
Qed.

Lemma nodup_size (h : gmap Z dnode) (l : list Z) :
  NoDup l -> (forall x, x ∈ l -> is_Some (h !! x)) -> (length l <= size h)%nat.
Proof.
  intros Hd Hin. rewrite <- size_dom. rewrite <- (size_list_to_set (C:=gset Z)) by done.
  apply subseteq_size. intros x Hx%elem_of_list_to_set. by apply elem_of_dom, Hin.
Qed.

Lemma rep_some h r x : rep h None r None -> x ∈ ptrs r -> is_Some (h !! x).
Proof.
  intros Hr Hx. destruct (sub_in x r Hx) as [us Hs]. destruct (rep_sub _ _ _ _ _ _ Hr Hs) as (n & Hn & _). by exists n.
Qed.

Lemma set_sibling_same n : set_sibling (sibling n) n = n.
Proof. by destruct n. Qed.
Lemma set_allnext_same n : set_allnext (allnext n) n = n.
Proof. by destruct n. Qed.

(** Taking [dn] out of the list of its parent's children leaves nodes that
    skip it. *)
Lemma unlink_skips t t1 r dn nd par pn us :
  rep (nodes t) None r None -> NoDup (ptrs r) -> nodes t !! dn = Some nd -> nodes t !! par = Some pn ->
  sub par r = Some us -> dn ∈ roots us -> unlinked sibling set_sibling (roots us) dn (sibling nd) t t1 ->
  skips (ptrs r) dn (sibling nd) (nodes t) (nodes (upd par (set_child (skip dn (sibling nd) (child pn))) t1)).
Proof.
  intros Hr Hd Hnd Hpn Hs Hu (_ & _ & _ & _ & P) p n Hp Hpdn Hn.
  assert (Hpar : parent nd = Some par).
  { destruct (rep_sub _ _ _ _ _ _ Hr Hs) as (m & Hm & _ & Hf).
    destruct (forest_parent _ _ _ _ Hf Hu) as (nd' & Hnd' & Hp'). congruence. }
  set (n1 := if decide (p ∈ roots us /\ sibling n = Some dn) then set_sibling (sibling nd) n else n).
  assert (E1 : nodes t1 !! p = Some n1) by (rewrite P, Hn; done).
  assert (Es : sibling n1 = skip dn (sibling nd) (sibling n)).
  { unfold n1, skip. destruct (decide (sibling n = Some dn)) as [E|E]; [|by rewrite decide_False by tauto].
    rewrite decide_True; [done|]. split; [|done].
    destruct (sibling_parent _ _ _ _ _ Hr Hd Hp Hn E) as (q & vs & Hq & H1 & H2).
    destruct (rep_sub _ _ _ _ _ _ Hr Hq) as (m & Hm & _ & Hf).
    destruct (forest_parent _ _ _ _ Hf H2) as (nd' & Hnd' & Hp').
    replace us with vs by congruence. done. }
  assert (En : parent n1 = parent n /\ child n1 = child n) by (unfold n1; by destruct (decide _)).
  destruct (decide (p = par)) as [->|Hpp].
  - exists (set_child (skip dn (sibling nd) (child pn)) n1). cbn. rewrite lookup_alter_eq, E1.
    replace n with pn in * by congruence. split_and!; try done. apply En.
  - exists n1. cbn. rewrite lookup_alter_ne by done. split_and!; try done; [apply En|].
    destruct En as [_ ->]. unfold skip. rewrite decide_False; [done|]. intros E.
    destruct (child_parent _ _ _ _ _ Hr Hd Hp Hn E) as (m & Hm & Hpm). congruence.
Qed.

Lemma delete_leaf t r xs dn n : laid_out t r xs -> sub dn r = Some [] -> dn <> rroot r ->
  exists t' r', prom_delete_node (S n) dn t = Some t' /\ prune dn r = [r'] /\ laid_out t' r' (filter (.≠ dn) xs).
Proof.
  intros [Lr Lrep Ld La Lp Lf] Hs Hroot.
  destruct (sub_some _ _ _ Hs) as [Hin _].
  destruct (rep_sub _ _ _ _ _ _ Lrep Hs) as (nd & Hnd & Hc & _). cbn in Hc.
  destruct (in_child r dn Ld Hin) as [|(par & us & Hpar & Hu)]; [done|].
  destruct (rep_sub _ _ _ _ _ _ Lrep Hpar) as (pn & Hpn & Hpc & Hpf).
  destruct (forest_parent _ _ _ _ Hpf Hu) as (nd' & Hnd' & Hp). replace nd' with nd in * by congruence. clear nd' Hnd'.
  assert (Hdu : NoDup (roots us)) by (apply roots_nodup; by apply (sub_nodup par r us)).
  cbn [prom_delete_node]. rewrite Hnd. cbn [mbind option_bind]. rewrite Hp. cbn [mbind option_bind].
  rewrite Hc, Hpn. cbn [mbind option_bind].
  destruct (unlink_links sibling set_sibling (fun v n => eq_refl) set_sibling_same dn t (roots us) (nsize t) (child pn) nd)
    as (t1 & -> & U1 & _); try done.
  { rewrite Hpc. by apply (forest_links _ (Some par)). }
  { apply nodup_size; [done|]. intros x Hx. destruct (forest_parent _ _ _ _ Hpf Hx) as (m & Hm & _). by exists m. }
  cbn [mbind option_bind]. set (t2 := upd par _ t1).
  pose proof (unlink_skips t t1 r dn nd par pn us Lrep Ld Hnd Hpn Hpar Hu U1) as Hk. fold t2 in Hk.
  assert (Hx : forall x m, nodes t !! x = Some m -> exists m2, nodes t2 !! x = Some m2 /\ allnext m2 = allnext m).
  { intros x m Hm. destruct U1 as (_ & _ & _ & _ & P). specialize (P x). rewrite Hm in P. cbn in P. unfold t2. cbn.
    destruct (decide (x = par)) as [->|]; [rewrite lookup_alter_eq|rewrite lookup_alter_ne by done];
      rewrite P; cbn; eexists; (split; [done|]); by destruct (decide _). }
  destruct (Hx dn nd Hnd) as (nd2 & Hnd2 & Ha2).
  assert (Hsame : root t2 = root t /\ all t2 = all t /\ fresh t2 = fresh t) by (by destruct U1 as (? & ? & ? & ? & _)).
  destruct Hsame as (Er & Ea & Ef).
  assert (Hl2 : links (nodes t2) allnext (all t2) xs).
  { rewrite Ea. apply (links_ext (nodes t)); [|done]. intros a m _. apply Hx. }
  destruct (unlink_links allnext set_allnext (fun v n => eq_refl) set_allnext_same dn t2 xs (nsize t2) (all t2) nd2)
    as (t3 & -> & U2 & L3); try done.
  { by rewrite Lp. }
  { by rewrite Lp. }
  { apply nodup_size; [by rewrite Lp|]. intros x. rewrite Lp. intros Hx'.
    destruct (rep_some _ _ _ Lrep Hx') as [m Hm]. destruct (Hx x m Hm) as (m2 & Hm2 & _). by exists m2. }
  cbn [mbind option_bind]. destruct U2 as (R3 & A3 & N3 & F3 & P3).
  assert (Hk3 : skips (ptrs r) dn (sibling nd) (nodes t) (nodes t3)).
  { intros p n' Hp' Hpd Hn'. destruct (Hk p n' Hp' Hpd Hn') as (n2 & Hn2 & E1 & E2 & E3).
    rewrite P3, Hn2. cbn. eexists. split; [done|]. by destruct (decide _). }
  destruct (rep_prune (nodes t) (nodes t3) dn (sibling nd) r None None Hk3 ltac:(congruence) Ld ltac:(congruence) Lrep)
    as (r' & Er' & Err & Hr').
  assert (Hptrs : ptrs r' = filter (.≠ dn) (ptrs r)).
  { rewrite <- (prune_leaf dn r Ld Hs), Er', fptrs_cons, app_nil_r. done. }
  eexists _, r'. split; [done|]. split; [done|]. constructor; cbn.
  - by rewrite R3, Er, Err.
  - done.
  - rewrite Hptrs. by apply list.NoDup_filter.
  - done.
  - by rewrite Hptrs, Lp.
  - intros p n' Hn'. rewrite F3, Ef. rewrite P3 in Hn'. destruct (nodes t !! p) as [m|] eqn:E; [by apply (Lf p m)|].
    exfalso. apply fmap_Some in Hn' as (m & Hm & _). unfold t2 in Hm. cbn in Hm.
    destruct U1 as (_ & _ & _ & _ & P1). specialize (P1 p). rewrite E in P1.
    destruct (decide (p = par)) as [->|]; [rewrite lookup_alter_eq in Hm|rewrite lookup_alter_ne in Hm by done];
      rewrite P1 in Hm; discriminate Hm.
Qed.

(** ** Deleting a subtree *)

Lemma filter_filter_in (P Q : Z -> Prop) `{!forall x, Decision (P x), !forall x, Decision (Q x)} (l : list Z) :
  (forall x, x ∈ l -> P x -> Q x) -> filter P (filter Q l) = filter P l.
Proof.
  intros HPQ. induction l as [|x l IH]; [done|].
  assert (IH' : filter P (filter Q l) = filter P l) by (apply IH; intros y Hy; apply HPQ; by right).
  rewrite !filter_cons. destruct (decide (Q x)) as [HQ|HQ].
  - rewrite filter_cons. by destruct (decide (P x)); rewrite IH'.
  - rewrite decide_False; [done|]. intros HP. apply HQ, HPQ; [left|done].
Qed.

Lemma filter_iff_in (P Q : Z -> Prop) `{!forall x, Decision (P x), !forall x, Decision (Q x)} (l : list Z) :
  (forall x, x ∈ l -> P x <-> Q x) -> filter P l = filter Q l.
Proof.
  induction l as [|x l IH]; intros HPQ; [done|]. rewrite !filter_cons.
  rewrite IH by (intros; apply HPQ; by right). specialize (HPQ x ltac:(left)).
  destruct (decide (P x)), (decide (Q x)); tauto || done.
Qed.

Lemma delete_sub n : forall t r xs dn us, laid_out t r xs -> sub dn r = Some us -> dn <> rroot r ->
  (length (fptrs us) < n)%nat ->
  exists t' r', prom_delete_node n dn t = Some t' /\ prune dn r = [r'] /\ laid_out t' r' (filter (.∈ ptrs r') xs).
Proof.
  induction n as [|n IH]; intros t r xs dn us L Hs Hroot Hn; [lia|].
  destruct us as [|[c vs] us].
  - destruct (delete_leaf t r xs dn n L Hs Hroot) as (t' & r' & E1 & E2 & L'). exists t', r'. split_and!; [done..|].
    replace (filter (.∈ ptrs r') xs) with (filter (.≠ dn) xs); [done|]. apply filter_iff_in. intros x Hx.
    pose proof (prune_leaf dn r (lo_nodup _ _ _ L) Hs) as E. rewrite E2, fptrs_cons, app_nil_r in E. rewrite E.
    rewrite list_elem_of_filter. rewrite (lo_perm _ _ _ L) in Hx. tauto.
  - pose proof (lo_nodup _ _ _ L) as Hd. pose proof (sub_child dn r _ c vs Hd Hs ltac:(left)) as Hc.
    destruct (sub_nodup dn r _ Hd Hs) as [Hdu Hdn]. rewrite fptrs_cons, ptrs_eq in Hn.
    cbn [app length] in Hn. rewrite length_app in Hn.
    assert (Hcin : c ∈ fptrs (Rose c vs :: us)) by (rewrite fptrs_cons, ptrs_eq; left).
    destruct (sub_prune dn c r _ Hd Hs Hcin) as (r1 & Ep1 & Err & Es1 & Epp).
    assert (Hcr : c <> rroot r).
    { intros ->. destruct r as [q ts]. rewrite prune_eq, decide_True in Ep1 by done. done. }
    destruct (IH t r xs c vs L Hc Hcr ltac:(lia)) as (t1 & r1' & E1 & Ep1' & L1).
    rewrite Ep1 in Ep1'. injection Ep1' as <-.
    assert (Esub : sub dn r1 = Some us).
    { rewrite Es1. rewrite fprune_cons, prune_eq, decide_True by done. cbn [app]. f_equal. apply fprune_absent.
      rewrite fptrs_cons in Hdu. apply list.NoDup_app in Hdu as (_ & N2 & _). apply N2. rewrite ptrs_eq. left. }
    destruct (IH t1 r1 _ dn us L1 Esub ltac:(congruence) ltac:(lia)) as (t2 & r2 & E2 & Ep2 & L2).
    exists t2, r2. cbn [prom_delete_node].
    destruct (rep_sub _ _ _ _ _ _ (lo_rep _ _ _ L) Hs) as (nd & Hnd & Hch & _).
    destruct (in_child r dn Hd (proj1 (sub_some _ _ _ Hs))) as [|(par & ws & Hpar & Hu)]; [done|].
    destruct (rep_sub _ _ _ _ _ _ (lo_rep _ _ _ L) Hpar) as (pn & Hpn & _ & Hpf).
    destruct (forest_parent _ _ _ _ Hpf Hu) as (nd' & Hnd' & Hp). replace nd' with nd in * by congruence.
    rewrite Hnd. cbn [mbind option_bind]. rewrite Hp. cbn [mbind option_bind]. rewrite Hch. cbn [first roots map head rroot].
    rewrite E1. cbn [mbind option_bind]. rewrite Epp in Ep2. split_and!; [done..|].
    rewrite filter_filter_in in L2; [done|]. intros x _ Hx.
    assert (Hx' : x ∈ fptrs (prune dn r1)) by (rewrite Epp, Ep2, fptrs_cons, app_nil_r; done).
    by apply prune_ptrs in Hx' as [Hx' _].
Qed.

(** C36: Deleting a node of a well-formed device tree other than the root
    removes exactly the node and everything below it: the links between the
    remaining nodes again form a tree, with their order kept, and the list
    of all nodes holds exactly these in their old order.  The recursion ends
    within as many steps as the tree has nodes. *)
Theorem delete_node_correct t r xs dn us :
  laid_out t r xs -> sub dn r = Some us -> dn <> rroot r ->
  exists t' r', prom_delete_node (length (ptrs r)) dn t = Some t' /\
    prune dn r = [r'] /\ laid_out t' r' (filter (.∈ ptrs r') xs) /\
    (forall x, x ∈ ptrs r' <-> x ∈ ptrs r /\ x <> dn /\ x ∉ fptrs us).
Proof.
  intros L Hs Hroot. pose proof (lo_nodup _ _ _ L) as Hd.
  destruct (sub_some _ _ _ Hs) as [Hin Hu]. destruct (sub_nodup _ _ _ Hd Hs) as [Hdu Hdn].
  assert (Hlen : (length (fptrs us) < length (ptrs r))%nat).
  { assert (Hsub : NoDup (dn :: fptrs us)) by by apply list.NoDup_cons.
    change (length (dn :: fptrs us) <= length (ptrs r))%nat. apply submseteq_length, NoDup_submseteq; [done|].
    intros x [->|Hx]%elem_of_cons; [done|by apply Hu]. }
  destruct (delete_sub _ t r xs dn us L Hs Hroot Hlen) as (t' & r' & E & Ep & L').
  exists t', r'. split_and!; [done..|]. intros x.
  replace (x ∈ ptrs r') with (x ∈ fptrs (prune dn r)) by (rewrite Ep, fptrs_cons, app_nil_r; done).
  apply prune_mem; done.
Qed.

(** ** Adding a node *)

(** [d] as the first child of [p] *)
Fixpoint graft (p d : Z) (t : rose) : rose :=
  match t with Rose q ts => if decide (q = p) then Rose q (Rose d [] :: ts) else Rose q (map (graft p d) ts) end.

Fixpoint insert_after (p d : Z) (xs : list Z) : list Z :=
  match xs with [] => [] | x :: xs' => if decide (x = p) then x :: d :: xs' else x :: insert_after p d xs' end.

Lemma graft_absent1 p d t : p ∉ ptrs t -> graft p d t = t.
Proof.
  induction t as [q ts IH] using rose_ind'. rewrite ptrs_eq. intros [H1 H2]%not_elem_of_cons. cbn [graft].
  rewrite decide_False by congruence. f_equal. induction IH as [|t ts Ht _ IHts]; [done|].
  rewrite fptrs_cons, not_elem_of_app in H2. cbn. rewrite Ht, IHts by apply H2. done.
Qed.

Lemma graft_absent p d ts : p ∉ fptrs ts -> map (graft p d) ts = ts.
Proof.
  induction ts as [|t ts IH]; [done|]. rewrite fptrs_cons, not_elem_of_app. intros [H1 H2]. cbn.
  by rewrite graft_absent1, IH.
Qed.

Lemma links_insert h h' p d pn nx0 xs :
  (forall a n, a ∈ xs -> a <> p -> h !! a = Some n -> h' !! a = Some n) -> p ∈ xs -> NoDup xs ->
  h !! p = Some pn -> (exists n, h' !! p = Some n /\ allnext n = Some d) ->
  (exists n, h' !! d = Some n /\ allnext n = allnext pn) ->
  links h allnext nx0 xs -> links h' allnext nx0 (insert_after p d xs).
Proof.
  intros Hk Hp Hd Hpn (n1 & H1 & E1) (n2 & H2 & E2). revert nx0. induction xs as [|x xs IH]; [by apply elem_of_nil in Hp|].
  intros nx0. cbn [links insert_after]. intros (-> & n & Hn & Hl). apply list.NoDup_cons in Hd as [Hx Hd].
  assert (Hk' : forall a n, a ∈ xs -> a <> p -> h !! a = Some n -> h' !! a = Some n) by (intros; apply Hk; [by right|done..]).
  destruct (decide (x = p)) as [->|Hxp].
  - replace n with pn in * by congruence. cbn [links]. split; [done|]. exists n1. split; [done|]. split; [done|].
    exists n2. split; [done|]. rewrite E2. apply (links_ext h); [|done]. intros a m Ha Hm. exists m. split; [|done].
    apply Hk'; [done|by intros ->|done].
  - apply elem_of_cons in Hp as [|Hp]; [congruence|]. cbn [links]. split; [done|]. exists n.
    split; [apply Hk; [left|done..]|]. by apply IH.
Qed.

Lemma graft_root p d t : rroot (graft p d t) = rroot t.
Proof. destruct t as [q ts]. cbn. by destruct (decide (q = p)). Qed.

Lemma graft_roots p d ts : roots (map (graft p d) ts) = roots ts.
Proof. unfold roots. rewrite map_map. apply map_ext. apply graft_root. Qed.

Lemma graft_ptrs p d t : p ∈ ptrs t -> NoDup (ptrs t) -> ptrs (graft p d t) ≡ₚ d :: ptrs t.
Proof.
  induction t as [q ts IH] using rose_ind'. rewrite ptrs_eq. cbn [graft]. intros Hp [H1 H2]%list.NoDup_cons.
  destruct (decide (q = p)) as [|Hq].
  - rewrite ptrs_eq, fptrs_cons, ptrs_eq. cbn. apply perm_swap.
  - apply elem_of_cons in Hp as [|Hp]; [done|]. rewrite ptrs_eq. rewrite perm_swap. apply perm_skip. clear H1.
    induction IH as [|t ts Ht _ IHts]; [by apply elem_of_nil in Hp|]. rewrite fptrs_cons in *. cbn [map].
    rewrite fptrs_cons. apply list.NoDup_app in H2 as (N1 & N2 & N3). apply elem_of_app in Hp as [Hp|Hp].
    + rewrite Ht by done. cbn. do 2 f_equiv. rewrite graft_absent; [done|by apply N2].
    + rewrite (IHts Hp N3). rewrite graft_absent1 by (intros ?; by apply (N2 p)). apply Permutation_sym, Permutation_middle.
Qed.

Lemma insert_after_perm p d xs : p ∈ xs -> insert_after p d xs ≡ₚ d :: xs.
Proof.
  induction xs as [|x xs IH]; [by intros ?%elem_of_nil|]. cbn. destruct (decide (x = p)) as [|Hx]; [by rewrite perm_swap|].
  intros [|H]%elem_of_cons; [done|]. rewrite (IH H). apply perm_swap.
Qed.

(** Changing what neither the tree nor the list of all nodes uses *)
Lemma laid_out_upd t r xs p f :
  (forall n, same_links n (f n) /\ allnext (f n) = allnext n) -> laid_out t r xs -> laid_out (upd p f t) r xs.
Proof.
  intros Hf [Lr Lrep Ld La Lp Lf].
  assert (Hx : forall a n, nodes t !! a = Some n ->
            exists n', nodes (upd p f t) !! a = Some n' /\ same_links n n' /\ allnext n' = allnext n).
  { intros a n Hn. cbn. destruct (decide (a = p)) as [->|Ha].
    - rewrite lookup_alter_eq, Hn. exists (f n). by split; [|apply Hf].
    - rewrite lookup_alter_ne by done. exists n. by split. }
  constructor; try done.
  - apply (rep_ext (nodes t)); [|done]. intros a n _ Hn. destruct (Hx a n Hn) as (n' & H1 & H2 & _). by exists n'.
  - apply (links_ext (nodes t)); [|done]. intros a n _ Hn. destruct (Hx a n Hn) as (n' & H1 & _ & H2). by exists n'.
  - intros a n. cbn. destruct (decide (a = p)) as [->|Ha].
    + rewrite lookup_alter_eq. intros (m & Hm & _)%fmap_Some. by apply (Lf p m).
    + rewrite lookup_alter_ne by done. apply Lf.
Qed.

(** The layout after [d] has become the first child of [p] *)
Lemma rep_graft h h' p d pn t : forall par nxt,
  h !! p = Some pn ->
  (exists n, h' !! p = Some n /\ parent n = parent pn /\ child n = Some d /\ sibling n = sibling pn) ->
  (exists n, h' !! d = Some n /\ parent n = Some p /\ child n = None /\ sibling n = child pn) ->
  (forall a n, a ∈ ptrs t -> a <> p -> h !! a = Some n -> exists n', h' !! a = Some n' /\ same_links n n') ->
  NoDup (ptrs t) -> rep h par t nxt -> rep h' par (graft p d t) nxt.
Proof.
  intros par nxt Hpn (n1 & H1 & P1 & C1 & S1) (n2 & H2 & P2 & C2 & S2). revert par nxt.
  induction t as [q ts IH] using rose_ind'. intros par nxt Hx. rewrite ptrs_eq. intros [N1 N2]%list.NoDup_cons.
  rewrite rep_eq. intros [(n & Hn & Hpa & Hc & Hs) Hf]. cbn [graft]. destruct (decide (q = p)) as [->|Hq].
  - replace n with pn in * by congruence. rewrite rep_eq. split; [exists n1; split_and!; done || congruence|].
    cbn [forest]. split; [rewrite rep_eq; split; [exists n2; split_and!; done || congruence|done]|].
    clear - Hf Hx N1 N2. assert (Hx' : forall a n, a ∈ fptrs ts -> h !! a = Some n -> exists n', h' !! a = Some n' /\ same_links n n').
    { intros a n Ha. apply Hx; [rewrite ptrs_eq; by right|]. by intros ->. }
    clear N1 Hx. induction ts as [|t ts IHts]; [done|]. rewrite fptrs_cons in *. destruct Hf as [Hr Hf].
    apply list.NoDup_app in N2 as (N1 & N2 & N3). split.
    + apply (rep_ext h); [|done]. intros a n Ha. apply Hx'. apply elem_of_app. by left.
    + apply IHts; [done..|]. intros a n Ha. apply Hx'. apply elem_of_app. by right.
  - destruct (Hx q n ltac:(left) Hq Hn) as (n' & Hn' & Ep & Ec & Es). rewrite rep_eq. split.
    { exists n'. unfold first. rewrite graft_roots. fold (first ts). split_and!; congruence. }
    assert (Hx' : forall a n, a ∈ fptrs ts -> a <> p -> h !! a = Some n -> exists n', h' !! a = Some n' /\ same_links n n').
    { intros a m Ha. apply Hx. rewrite ptrs_eq. by right. }
    clear - IH Hf Hx' N2. induction IH as [|t ts Ht _ IHts]; [done|]. rewrite fptrs_cons in *. destruct Hf as [Hr Hf].
    apply list.NoDup_app in N2 as (N1 & N2 & N3). cbn [map forest]. split.
    + unfold first. rewrite graft_roots. fold (first ts). apply Ht; try done. intros a n Ha. apply Hx'. apply elem_of_app. by left.
    + apply IHts; try done. intros a n Ha. apply Hx'. apply elem_of_app. by right.
Qed.

(** Adding a node to a well-formed tree gives one with the node as the first
    child, placed after its parent in the list of all nodes. *)
Lemma add_node_laid_out t r xs par nm : laid_out t r xs -> par ∈ ptrs r ->
  exists t', prom_add_node par nm t = Some (fresh t, t') /\
    laid_out t' (graft par (fresh t) r) (insert_after par (fresh t) xs).
Proof.
  intros [Lr Lrep Ld La Lp Lf] Hin. destruct (rep_some _ _ _ Lrep Hin) as [pn Hpn].
  pose proof (Lf par pn Hpn) as Hfr. unfold prom_add_node. rewrite Hpn. cbn [mbind option_bind].
  destruct (strsep 64 nm) as [name u]. eexists. split; [done|]. unfold prom_add_property.
  apply laid_out_upd; [done|].
  set (nd := Node _ _ _ _ _ _ _ _). set (h' := alter (fun n => set_allnext (Some (fresh t)) (set_child (Some (fresh t)) n)) par (<[fresh t := nd]> (nodes t))).
  assert (Hd : forall a, a ∈ ptrs r -> a <> fresh t).
  { intros a Ha ->. destruct (rep_some _ _ _ Lrep Ha) as [n Hn]. specialize (Lf _ _ Hn). lia. }
  assert (Hp' : h' !! par = Some (set_allnext (Some (fresh t)) (set_child (Some (fresh t)) pn))).
  { unfold h'. rewrite lookup_alter_eq, lookup_insert_ne by lia. by rewrite Hpn. }
  assert (Hf' : h' !! fresh t = Some nd).
  { unfold h'. rewrite lookup_alter_ne by lia. apply lookup_insert_eq. }
  assert (Ho : forall a n, a <> par -> h' !! a = Some n -> a <> fresh t -> nodes t !! a = Some n).
  { intros a n H1 H2 H3. unfold h' in H2. by rewrite lookup_alter_ne, lookup_insert_ne in H2 by done. }
  assert (Hk : forall a n, a ∈ ptrs r -> a <> par -> nodes t !! a = Some n -> h' !! a = Some n).
  { intros a n Ha Hap Hn. unfold h'. by rewrite lookup_alter_ne, lookup_insert_ne by (done || by apply not_eq_sym, Hd). }
  constructor; cbn.
  - by rewrite graft_root.
  - apply (rep_graft (nodes t) _ par (fresh t) pn); try done.
    + by eexists.
    + by exists nd.
    + intros a n Ha Hap Hn. exists n. split; [by apply Hk|done].
  - rewrite graft_ptrs by done. apply list.NoDup_cons. split; [|done]. intros H. by apply (Hd _ H).
  - apply (links_insert (nodes t) h' par (fresh t) pn); try done.
    + intros a n Ha. apply Hk. by rewrite <- Lp.
    + by rewrite Lp.
    + by rewrite Lp.
    + by eexists.
    + by exists nd.
  - rewrite graft_ptrs, insert_after_perm by (done || by rewrite Lp). by rewrite Lp.
  - intros a n Hn. destruct (decide (a = fresh t)) as [->|Ha]; [lia|].
    destruct (decide (a = par)) as [->|Hap]; [lia|]. specialize (Lf a n (Ho a n Hap Hn Ha)). lia.
Qed.

End OftreeInv.
