(* ===== verification/OftreePath.v ===== *)
(** * Paths in the device tree

    The full name of a node, looked up as a path, leads back to the node,
    unless an earlier sibling captures one of the components. *)

From Stdlib Require Import String Ascii.
From S2P Require Import Prelude Oftree OftreeInv.

Module OftreePath.
Export OftreeInv.

#[global] Close Scope string_scope.
Abbreviation length := Datatypes.length.

Lemma strsep_none c l : c ∉ l -> strsep c l = (l, None).
Proof.
  induction l as [|d l IH]; [done|]. intros [H1 H2]%not_elem_of_cons. cbn.
  destruct (Z.eqb_spec d c); [congruence|]. by rewrite IH.
Qed.

Lemma strsep_app c a b : c ∉ a -> strsep c (a ++ c :: b) = (a, Some b).
Proof.
  induction a as [|d a IH]; cbn; [by rewrite Z.eqb_refl|]. intros [H1 H2]%not_elem_of_cons.
  destruct (Z.eqb_spec d c); [congruence|]. by rewrite IH.
Qed.

(** The component that names a node *)
Definition unit_of (a : Z) (t : oftree) : option (list Z) := nodes t !! a ≫= unit_string.
Definition component (a : Z) (t : oftree) : list Z :=
  node_name a t ++ match unit_of a t with Some u => 64 :: u | None => [] end.

(** A sibling [b] that is found instead of [a] if it comes first *)
Definition captures (b a : Z) (t : oftree) : Prop :=
  match unit_of a t with
  | None => strcaseeq (node_name b t) (node_name a t) = true
  | Some u => exists ub, unit_of b t = Some ub /\
      (node_name a t = [] \/ strcaseeq (node_name b t) (node_name a t) = true) /\
      (head ub = Some 42 \/ strtoul16 u = strtoul16 ub)
  end.

(** [a] can be named among the children [l] of its parent. *)
Record addressable (l : list Z) (a : Z) (t : oftree) : Prop := Addressable {
  ad_comp : component a t <> [];
  ad_name : (47 ∉ node_name a t) /\ (58 ∉ node_name a t);
  ad_names : forall b, b ∈ l -> 64 ∉ node_name b t;
  ad_unit : forall u, unit_of a t = Some u -> (47 ∉ u) /\ (58 ∉ u);
  ad_first : exists l1 l2, l = l1 ++ a :: l2 /\ forall b, b ∈ l1 -> ~ captures b a t
}.

Lemma lower_at c : lower c = 64 <-> c = 64.
Proof. unfold lower. destruct (Z.leb_spec 65 c), (Z.leb_spec c 90); cbn [andb]; lia. Qed.

Lemma strcase_at a b : 64 ∉ a -> 64 ∈ b -> strcaseeq a b = false.
Proof.
  intros Ha Hb. unfold strcaseeq. apply bool_decide_eq_false. intros E.
  assert (H : 64 ∈ map lower b) by (apply list_elem_of_fmap; exists 64; split; [done|exact Hb]).
  rewrite <- E in H. apply list_elem_of_fmap in H as (c & Hc & H). symmetry in Hc. apply lower_at in Hc as ->. done.
Qed.

Lemma strcase_refl a : strcaseeq a a = true.
Proof. unfold strcaseeq. by apply bool_decide_eq_true. Qed.

Lemma list_find_first (P : Z -> Prop) `{!forall x, Decision (P x)} l1 a l2 :
  (forall b, b ∈ l1 -> ~ P b) -> P a -> list_find P (l1 ++ a :: l2) = Some (length l1, a).
Proof.
  intros H1 H2. apply list_find_Some. split_and!; [by apply list_lookup_middle|done|].
  intros j y Hj Hlt. rewrite lookup_app_l in Hj by done. by apply H1, (list_elem_of_lookup_2 _ j).
Qed.

Lemma list_find_none (P : Z -> Prop) `{!forall x, Decision (P x)} l :
  (forall b, b ∈ l -> ~ P b) -> list_find P l = None.
Proof. intros Hl. apply list_find_None, list.Forall_forall. done. Qed.

(** The search by unit string *)
Lemma match_unit_first t a u l2 : unit_of a t = Some u -> forall l1,
  (forall b, b ∈ l1 -> ~ captures b a t) ->
  match_unit (l1 ++ a :: l2) (node_name a t) (Some u) t = Some (Some a).
Proof.
  intros Hu. induction l1 as [|b l1 IH]; intros Hc; cbn [app match_unit].
  - fold (unit_of a t). rewrite Hu, strcase_refl, andb_false_r, Z.eqb_refl. by destruct (bool_decide _).
  - specialize (IH ltac:(intros; apply Hc; by right)). pose proof (Hc b ltac:(left)) as Hb. unfold captures in Hb. rewrite Hu in Hb.
    fold (unit_of b t). destruct (unit_of b t) as [ub|] eqn:Eb; [|done].
    destruct (bool_decide (node_name a t <> []) && negb (strcaseeq (node_name b t) (node_name a t))) eqn:En; [done|].
    apply andb_false_iff in En.
    assert (Hn : node_name a t = [] \/ strcaseeq (node_name b t) (node_name a t) = true).
    { destruct En as [En|En]; [left|right; by apply negb_false_iff in En].
      apply bool_decide_eq_false in En. destruct (decide (node_name a t = [])); tauto. }
    rewrite bool_decide_false.
    2: { intros E. apply Hb. exists ub. tauto. }
    destruct (Z.eqb_spec (strtoul16 u) (strtoul16 ub)) as [E|E]; [|done]. destruct Hb. exists ub. tauto.
Qed.

(** One component leads to the node. *)
Lemma step_component p a l t : children p t = Some l -> addressable l a t ->
  step_path (component a t) p t = Some (Some a).
Proof.
  intros Hl [Hc [Hn1 Hn2] Hnames Hu (l1 & l2 & El & Hf)]. unfold step_path. rewrite bool_decide_false by done.
  assert (H58 : 58 ∉ component a t).
  { unfold component. rewrite elem_of_app. intros [H|H]; [done|]. destruct (unit_of a t) as [u|]; [|by apply elem_of_nil in H].
    apply elem_of_cons in H as [H|H]; [lia|]. by apply (Hu u). }
  rewrite strsep_none by done. cbn [fst]. rewrite Hl. cbn [mbind option_bind]. subst l.
  assert (Hin : a ∈ l1 ++ a :: l2) by (apply elem_of_app; right; left).
  unfold component in *. destruct (unit_of a t) as [u|] eqn:Eu.
  - rewrite list_find_none.
    2: { intros b Hb. rewrite strcase_at; [done|by apply Hnames|apply elem_of_app; right; left]. }
    rewrite strsep_app by by apply Hnames. by apply match_unit_first.
  - rewrite app_nil_r in *. rewrite list_find_first; [done| |apply strcase_refl].
    intros b Hb Hcap. apply (Hf b Hb). unfold captures. by rewrite Eu.
Qed.

(** ** Whole paths *)

(** From [p] the nodes [cs] lead downwards, each addressable. *)
Fixpoint steps (p : Z) (cs : list Z) (t : oftree) : Prop :=
  match cs with
  | [] => True
  | c :: cs' => (exists l, children p t = Some l /\ addressable l c t) /\
                (exists n, nodes t !! c = Some n /\ parent n = Some p) /\ steps c cs' t
  end.
Definition dest (p : Z) (cs : list Z) : Z := default p (list.last cs).

(** The components, separated by slashes *)
Fixpoint joined (cs : list Z) (t : oftree) : list Z :=
  match cs with
  | [] => []
  | [c] => component c t
  | c :: cs' => component c t ++ 47 :: joined cs' t
  end.

Lemma joined_cons c d cs t : joined (c :: d :: cs) t = component c t ++ 47 :: joined (d :: cs) t.
Proof. done. Qed.

Lemma dest_cons p c cs : dest p (c :: cs) = dest c cs.
Proof. unfold dest. rewrite last_cons. by destruct (list.last cs). Qed.

Lemma component_slash l a t : addressable l a t -> 47 ∉ component a t.
Proof.
  intros [_ [Hn _] _ Hu _]. unfold component. rewrite elem_of_app. intros [H|H]; [done|].
  destruct (unit_of a t) as [u|] eqn:Eu; [|by apply elem_of_nil in H]. apply elem_of_cons in H as [H|H]; [lia|].
  by destruct (Hu u eq_refl).
Qed.

Lemma find_joined cs t : forall p n, steps p cs t -> (length (joined cs t) < n)%nat ->
  find_path n (joined cs t) (Some p) t = Some (Some (dest p cs)).
Proof.
  induction cs as [|c cs IH]; intros p n Hs Hn; (destruct n as [|n]; [lia|]).
  - done.
  - destruct Hs as ((l & Hl & Ha) & _ & Hs). pose proof (component_slash _ _ _ Ha) as Hc. rewrite dest_cons.
    destruct cs as [|d cs].
    + cbn [joined find_path]. rewrite strsep_none by done. by rewrite (step_component p c l t Hl Ha).
    + rewrite joined_cons in *. cbn [find_path]. rewrite strsep_app by done.
      rewrite (step_component p c l t Hl Ha). cbn [mbind option_bind]. apply IH; [done|].
      rewrite length_app in Hn. cbn [length] in Hn. lia.
Qed.

(** ** Full names *)

Lemma steps_snoc a t : forall cs p, steps p (cs ++ [a]) t -> steps p cs t /\
  (exists l, children (dest p cs) t = Some l /\ addressable l a t) /\
  (exists n, nodes t !! a = Some n /\ parent n = Some (dest p cs)).
Proof.
  induction cs as [|c cs IH]; intros p; cbn [app steps].
  - intros (H1 & H2 & _). done.
  - intros (H1 & H2 & H). rewrite dest_cons. apply IH in H as (H3 & H4 & H5). done.
Qed.

Lemma joined_snoc a t : forall cs, joined (cs ++ [a]) t =
  match cs with [] => component a t | _ => joined cs t ++ 47 :: component a t end.
Proof.
  induction cs as [|c [|d cs] IH]; [done|done|]. cbn [app] in *. rewrite !joined_cons, IH. by rewrite <- app_assoc.
Qed.

Lemma strncat0_take len x y : strncat0 len (take (len - 1) x) y = take (len - 1) (x ++ y).
Proof.
  unfold strncat0. destruct (decide (length x <= len - 1)%nat).
  - by rewrite (take_ge x) by done.
  - rewrite (take_app_le x) by lia. rewrite take_app_le by (rewrite length_take; lia). rewrite take_take. f_equal. lia.
Qed.

Lemma take_short (k : nat) (l : list Z) : (length l <= k)%nat -> take k l = l.
Proof. apply take_ge. Qed.

Lemma full_name_path len t rt rn : nodes t !! rt = Some rn -> parent rn = None -> unit_string rn = None -> (1 < len)%nat ->
  forall cs n, steps rt cs t -> (length cs < n)%nat ->
  full_name n (dest rt cs) [] len t = Some (take (len - 1) (47 :: joined cs t)).
Proof.
  intros Hr Hp Hu Hlen. induction cs as [|a cs IH] using rev_ind; intros n Hs Hn; (destruct n as [|n]; [lia|]).
  - change (dest rt []) with rt. cbn [full_name]. rewrite Hr. cbn [mbind option_bind]. rewrite Hp. cbn [mbind option_bind].
    rewrite bool_decide_false by (by intros [? ?]). rewrite Hu. done.
  - apply steps_snoc in Hs as (Hs & (l & Hl & Ha) & (nd & Hnd & Hpar)). rewrite length_app in Hn. cbn [length] in Hn.
    assert (Hd : dest rt (cs ++ [a]) = a) by (unfold dest; by rewrite last_snoc). rewrite Hd.
    cbn [full_name]. rewrite Hnd. cbn [mbind option_bind]. rewrite Hpar. cbn [mbind option_bind].
    rewrite IH by (done || lia). cbn [mbind option_bind].
    assert (Htop : exists pn, nodes t !! dest rt cs = Some pn /\ bool_decide (parent pn = None) = bool_decide (cs = [])).
    { destruct cs as [|c cs _] using rev_ind.
      - exists rn. split; [done|]. by rewrite Hp.
      - apply steps_snoc in Hs as (_ & _ & (pn & Hpn & Hpp)). unfold dest at 1. rewrite last_snoc. exists pn. split; [done|].
        rewrite Hpp. rewrite !bool_decide_false; [done| |done]. by destruct cs. }
    destruct Htop as (pn & -> & Htop). cbn [mbind option_bind]. rewrite Htop, joined_snoc.
    rewrite bool_decide_true by by eexists.
    assert (Ec : component a t = node_name a t ++ match unit_string nd with Some u => 64 :: u | None => [] end).
    { unfold component, unit_of. by rewrite Hnd. }
    rewrite Ec. destruct cs as [|c cs]; [rewrite bool_decide_true by done|rewrite bool_decide_false by done].
    + change (joined [] t) with (@nil Z).
      destruct (unit_string nd) as [u|]; rewrite !strncat0_take; do 2 f_equal; by rewrite ?app_nil_r, <- ?app_assoc.
    + destruct (unit_string nd) as [u|]; rewrite !strncat0_take; do 2 f_equal;
        cbn [app]; rewrite ?app_nil_r, <- ?app_assoc; cbn [app]; rewrite <- ?app_assoc; done.
Qed.

(** Walking a list of links *)
Lemma links_walk t nx xs : forall p n, links (nodes t) nx p xs -> (length xs <= n)%nat -> walk n nx p t = Some xs.
Proof.
  induction xs as [|x xs IH]; intros p n.
  - intros -> _. by destruct n.
  - intros (-> & nd & Hnd & Hl) Hn. destruct n as [|n]; [cbn in Hn; lia|]. cbn [walk]. rewrite Hnd. cbn [mbind option_bind].
    by rewrite (IH _ n Hl) by (cbn in Hn; lia).
Qed.

(** The children of a node of the tree *)
Lemma sub_children t r xs p us : laid_out t r xs -> sub p r = Some us -> children p t = Some (roots us).
Proof.
  intros L Hs. destruct (rep_sub _ _ _ _ _ _ (lo_rep _ _ _ L) Hs) as (n & Hn & Hc & Hf).
  unfold children. rewrite Hn. cbn [mbind option_bind]. apply links_walk; [rewrite Hc; by apply (forest_links _ (Some p))|].
  apply nodup_size.
  - apply roots_nodup. by apply (sub_nodup p r us (lo_nodup _ _ _ L) Hs).
  - intros x Hx. destruct (forest_parent _ _ _ _ Hf Hx) as (m & Hm & _). by exists m.
Qed.

(** Every node lies at the end of steps from the root of a subtree. *)
Lemma tree_steps t R xs : laid_out t R xs ->
  (forall p us a, sub p R = Some us -> a ∈ roots us -> addressable (roots us) a t) ->
  forall r us, sub (rroot r) R = Some us -> r = Rose (rroot r) us -> forall a, a ∈ ptrs r ->
  exists cs, steps (rroot r) cs t /\ dest (rroot r) cs = a /\ (length cs < length (ptrs r))%nat.
Proof.
  intros L Hadd r. induction r as [p ts IH] using rose_ind'. intros us. cbn [rroot]. intros Hs [= <-] a.
  rewrite ptrs_eq. intros [->|Ha]%elem_of_cons; [exists []; cbn; split_and!; [done..|lia]|].
  assert (Hk : exists u, u ∈ ts /\ a ∈ ptrs u).
  { unfold fptrs in Ha. apply list_elem_of_In, in_flat_map in Ha as (u & H1 & H2). exists u. by split; apply list_elem_of_In. }
  destruct Hk as (u & Hu & Hau). rewrite list.Forall_forall in IH.
  destruct u as [q vs] eqn:Eu. assert (Hq : sub q R = Some vs) by (by apply (sub_child p R ts); [apply L| |]).
  destruct (IH _ Hu vs Hq eq_refl a Hau) as (cs & Hcs & Hd & Hlen). cbn [rroot] in *.
  assert (Hqr : q ∈ roots ts) by (apply list_elem_of_fmap; by exists (Rose q vs)).
  destruct (rep_sub _ _ _ _ _ _ (lo_rep _ _ _ L) Hs) as (n & Hn & Hc & Hf).
  exists (q :: cs). split_and!.
  - split; [|split; [by apply (forest_parent _ _ ts)|done]]. exists (roots ts). split; [by apply (sub_children t R xs)|by apply (Hadd p)].
  - by rewrite dest_cons.
  - cbn [length]. assert (length (ptrs (Rose q vs)) <= length (fptrs ts))%nat; [|lia].
    clear - Hu. induction ts as [|u ts IHt]; [by apply elem_of_nil in Hu|]. rewrite fptrs_cons, length_app.
    apply elem_of_cons in Hu as [->|Hu]; [lia|]. specialize (IHt Hu). lia.
Qed.

(** C37: The full name of a node leads back to the node: in a well-formed
    tree whose root has no unit string, and in which every node can be named
    among its siblings (its name and unit hold no separators and no earlier
    sibling captures them), looking up the name that [get_full_name] gives
    for a node finds that node, whenever the name fits the buffer. *)
Theorem full_name_found t r xs a len :
  laid_out t r xs -> unit_of (rroot r) t = None ->
  (forall p us b, sub p r = Some us -> b ∈ roots us -> addressable (roots us) b t) ->
  a ∈ ptrs r -> (1 < len)%nat ->
  exists full, get_full_name a len t = Some (take (len - 1) full) /\
    ((length full < len)%nat -> prom_find_dev_by_path (take (len - 1) full) t = Some (Some a)).
Proof.
  intros L Hu Hadd Ha Hlen. destruct r as [rt ts]. pose proof (lo_root _ _ _ L) as Hroot. cbn [rroot] in *.
  assert (Hs : sub rt (Rose rt ts) = Some ts) by (by rewrite sub_eq, decide_True).
  destruct (tree_steps t _ xs L Hadd (Rose rt ts) ts Hs eq_refl a Ha) as (cs & Hcs & Hd & Hn). cbn [rroot] in *.
  destruct (rep_root _ _ _ _ (lo_rep _ _ _ L)) as (rn & Hrn & Hp & _). cbn [rroot] in Hrn.
  unfold unit_of in Hu. rewrite Hrn in Hu. cbn in Hu.
  exists (47 :: joined cs t). split.
  - unfold get_full_name. rewrite <- Hd. apply (full_name_path len t rt rn); try done.
    pose proof (nodup_size (nodes t) (ptrs (Rose rt ts)) (lo_nodup _ _ _ L) (fun x => rep_some _ _ x (lo_rep _ _ _ L))) as Hz.
    unfold nsize. lia.
  - intros Hfit. rewrite take_short by lia. unfold prom_find_dev_by_path. rewrite Hroot.
    change (length (47 :: joined cs t)) with (S (length (joined cs t))).
    assert (Hk : (length (joined cs t) < S (length (joined cs t)))%nat) by lia.
    generalize dependent (S (length (joined cs t))). intros k Hk. cbn [find_path strsep Z.eqb Pos.eqb].
    change (step_path [] rt t) with (Some (Some rt)). cbn [mbind option_bind]. rewrite (find_joined cs t rt); [by rewrite Hd|done..].
Qed.

(** ** A tree with a bus and two devices of the same name *)

Definition add (par : Z) (nm : list Z) (t : oftree) : oftree := default t (snd <$> prom_add_node par nm t).

Lemma add_laid t r xs par nm : laid_out t r xs -> par ∈ ptrs r ->
  laid_out (add par nm t) (graft par (fresh t) r) (insert_after par (fresh t) xs).
Proof. intros L H. destruct (add_node_laid_out t r xs par nm L H) as (t' & E & L'). unfold add. by rewrite E. Qed.

Definition seed : oftree :=
  Tree {[1 := Node 1 [Prop_ (str "name") (str "device-tree" ++ [0])] None None None None None None]} (Some 1) (Some 1) 2 2.
Definition sample : oftree := add 2 (str "usb@e") (add 2 (str "usb@d") (add 1 (str "pci@80000000") seed)).
Definition shape : rose := Rose 1 [Rose 2 [Rose 4 []; Rose 3 []]].

Lemma seed_laid : laid_out seed (Rose 1 []) [1].
Proof.
  constructor; try reflexivity.
  - rewrite rep_eq. split; [|exact I]. eexists. split_and!; reflexivity.
  - apply list.NoDup_singleton.
  - split; [reflexivity|]. eexists. split; [reflexivity|]. reflexivity.
  - intros p n H. cbn [nodes seed] in H. apply lookup_singleton_Some in H as [<- _]. reflexivity.
Qed.

Lemma sample_laid : laid_out sample shape [1; 2; 4; 3].
Proof.
  pose proof (add_laid _ _ _ 1 (str "pci@80000000") seed_laid ltac:(left)) as L1.
  pose proof (add_laid _ _ _ 2 (str "usb@d") L1 ltac:(right; left)) as L2.
  pose proof (add_laid _ _ _ 2 (str "usb@e") L2 ltac:(right; left)) as L3. exact L3.
Qed.

Lemma sample_subs p us : sub p shape = Some us ->
  (p = 1 /\ us = [Rose 2 [Rose 4 []; Rose 3 []]]) \/ (p = 2 /\ us = [Rose 4 []; Rose 3 []]) \/ us = [].
Proof.
  intros H. destruct (sub_some _ _ _ H) as [Hp _]. unfold shape in Hp. cbn in Hp.
  repeat (apply elem_of_cons in Hp as [->|Hp]; [vm_compute in H; injection H as <-; tauto|]). by apply elem_of_nil in Hp.
Qed.

Lemma not_in_dec (x : Z) (l : list Z) : bool_decide (x ∈ l) = false -> x ∉ l.
Proof. apply bool_decide_eq_false. Qed.

(** Decide a fact about the sample by evaluation. *)
Ltac notin := apply not_in_dec; vm_compute; reflexivity.
Ltac unit_eval H := vm_compute in H; injection H as <-; split; notin.

Lemma sample_addressable p us b : sub p shape = Some us -> b ∈ roots us -> addressable (roots us) b sample.
Proof.
  intros H Hb. destruct (sample_subs p us H) as [[-> ->]|[[-> ->]| ->]]; cbn in Hb.
  - apply list_elem_of_singleton in Hb as ->. constructor.
    + vm_compute. discriminate.
    + split; notin.
    + intros b Hb. cbn in Hb. apply list_elem_of_singleton in Hb as ->. notin.
    + intros u Hu. unit_eval Hu.
    + exists [], []. split; [reflexivity|]. intros c Hc. destruct (proj1 (elem_of_nil c) Hc).
  - assert (Hn : forall c, c ∈ [4; 3] -> (component c sample <> [] /\ (47 ∉ node_name c sample) /\ (58 ∉ node_name c sample)) /\
      (64 ∉ node_name c sample) /\ forall u, unit_of c sample = Some u -> (47 ∉ u) /\ (58 ∉ u)).
    { intros c [->|[->|[]%elem_of_nil]%elem_of_cons]%elem_of_cons;
        (split_and!; [vm_compute; discriminate|notin|notin|notin|intros u Hu; unit_eval Hu]). }
    destruct (Hn b Hb) as ((H1 & H2 & H3) & _ & H4).
    constructor; [exact H1|split; assumption|intros c Hc; exact (proj1 (proj2 (Hn c Hc)))|exact H4|].
    + apply elem_of_cons in Hb as [->|[->|[]%elem_of_nil]%elem_of_cons].
      * exists [], [3]. split; [reflexivity|]. intros c Hc. destruct (proj1 (elem_of_nil c) Hc).
      * exists [4], []. split; [reflexivity|]. intros c ->%list_elem_of_singleton Hc. unfold captures in Hc.
        assert (E3 : unit_of 3 sample = Some (str "d")) by (vm_compute; reflexivity).
        assert (E4 : unit_of 4 sample = Some (str "e")) by (vm_compute; reflexivity).
        rewrite E3 in Hc. destruct Hc as (ub & Hub & _ & E). rewrite E4 in Hub. injection Hub as <-.
        destruct E as [E|E]; vm_compute in E; discriminate E.
  - by apply elem_of_nil in Hb.
Qed.

Lemma full_name_found_witness :
  get_full_name 3 256 sample = Some (str "/pci@80000000/usb@d") /\
  prom_find_dev_by_path (str "/pci@80000000/usb@d") sample = Some (Some 3).
Proof.
  destruct (full_name_found sample shape [1; 2; 4; 3] 3 256 sample_laid eq_refl sample_addressable
    ltac:(right; right; right; left) ltac:(lia)) as (full & E1 & E2).
  assert (E : get_full_name 3 256 sample = Some (str "/pci@80000000/usb@d")) by (vm_compute; reflexivity).
  split; [exact E|]. rewrite E1 in E.
  assert (E' : take (256 - 1) full = str "/pci@80000000/usb@d") by congruence. clear E.
  assert (Hlen : (Datatypes.length full < 256)%nat).
  { destruct (decide (Datatypes.length full < 256)%nat) as [H|H]; [exact H|]. exfalso.
    apply (f_equal Datatypes.length) in E'. rewrite length_take_le in E' by lia. vm_compute in E'. discriminate E'. }
  specialize (E2 Hlen). transitivity (prom_find_dev_by_path (take (256 - 1) full) sample); [|exact E2].
  f_equal. symmetry. exact E'.
Defined.

Lemma delete_node_correct_witness : exists t',
  prom_delete_node 4 2 sample = Some t' /\ laid_out t' (Rose 1 []) [1].
Proof.
  destruct (delete_node_correct sample shape [1; 2; 4; 3] 2 [Rose 4 []; Rose 3 []] sample_laid eq_refl ltac:(discriminate))
    as (t' & r' & E & Ep & L & _).
  exists t'. split; [exact E|]. injection Ep as <-. exact L.
Defined.

End OftreePath.
