(* ===== verification/Promif.v ===== *)
(** * Interrupt lookup and the guest interface of the device tree
      ([src/main/promif.c])

    The interrupt of a node is found by following interrupt parents and
    interrupt maps; the guest reads and changes the tree through two
    operating system calls that take buffers in guest memory. *)

From Stdlib Require Import String Ascii.
From S2P Require Import Prelude FileIO Memory Oftree.

Module Promif.
Export Oftree.

#[global] Close Scope string_scope.
Abbreviation length := Datatypes.length.

(** A computation returns, does something undefined, or needs more steps. *)
Inductive run (A : Type) := Done (a : A) | Crash | More.
Arguments Done {A}. Arguments Crash {A}. Arguments More {A}.

Definition bind {A B} (x : run A) (f : A -> run B) : run B :=
  match x with Done a => f a | Crash => Crash | More => More end.
Definition lift {A} (x : option A) : run A := match x with Some a => Done a | None => Crash end.
Notation "x <~ e ; f" := (bind e (fun x => f))
  (at level 20, e at level 100, f at level 200, right associativity) : mol_scope.

(** ** Integer arrays in properties *)

(** A pointer to an [int] inside the value of a property *)
Record iptr := IPtr { ip_words : list Z; ip_pos : Z }.
Fixpoint words_of (n : nat) (l : list Z) : list Z :=
  match n with O => [] | S n' => be_value (take 4 l) :: words_of n' (drop 4 l) end.
Definition int_array (v : list Z) : iptr := IPtr (words_of (length v / 4) v) 0.
Definition iadd (p : iptr) (n : Z) : iptr := IPtr (ip_words p) (ip_pos p + n).
Definition ideref (p : iptr) (i : Z) : run Z :=
  let k := ip_pos p + i in
  if 0 <=? k then lift (ip_words p !! Z.to_nat k) else Crash.

Definition has_prop (dn : option Z) (name : list Z) (t : oftree) : bool :=
  bool_decide (is_Some (prom_get_property dn name t)).

(** ** Interrupt tree lookup *)

Definition irq_parent (dn : Z) (t : oftree) : run (option Z) :=
  match prom_get_int_property (Some dn) (str "interrupt-parent") t with
  | Some par => lift (prom_phandle_to_dn (u32 par) t)
  | None => lift (parent <$> nodes t !! dn)
  end.

(** The loop of [get_icells] from [dn], at most [n] steps *)
Fixpoint icells_from (n : nat) (dn : option Z) (t : oftree) : run Z :=
  match dn with
  | None => Done 1
  | Some a =>
      match prom_get_int_property dn (str "#interrupt-cells") t with
      | Some v => Done v
      | None => match n with O => More | S n' => p <~ irq_parent a t; icells_from n' p t end
      end
  end.
Definition get_icells (n : nat) (dn : Z) (t : oftree) : run Z :=
  p <~ irq_parent dn t; icells_from n p t.

Fixpoint get_acells (n : nat) (dn : option Z) (t : oftree) : run Z :=
  match dn with
  | None => Done 1
  | Some a =>
      match n with
      | O => More
      | S n' => p <~ lift (parent <$> nodes t !! a);
                match prom_get_int_property p (str "#address-cells") t with
                | Some v => Done v
                | None => get_acells n' p t
                end
      end
  end.

(** The variables of the outer loop of [map_irq] *)
Record irq_loop := IrqLoop {
  lp : Z; l_icells : Z; l_acells : Z; l_rlen : Z; l_intr : iptr; l_reg : iptr
}.

(** The scan of an interrupt map: a match, or none *)
Fixpoint scan_map (n : nat) (m : iptr) (maplen i : Z) (mtch : bool) (mask : iptr) (l : irq_loop) (t : oftree)
    : run (option irq_loop) :=
  match n with
  | O => More
  | S n' =>
      if maplen <=? 0 then Done None
      else if i <? l_acells l then
        mv <~ ideref m 0; kv <~ ideref mask i; rv <~ ideref (l_reg l) i;
        scan_map n' (iadd m 1) (maplen - 1) (i + 1) (mtch && (mv .& kv =? rv .& kv)) mask l t
      else if i - l_acells l <? l_icells l then
        mv <~ ideref m 0; kv <~ ideref mask i; rv <~ ideref (l_reg l) i; iv <~ ideref (l_intr l) (i - l_acells l);
        scan_map n' (iadd m 1) (maplen - 1) (i + 1) (mtch && (mv .& kv =? rv .& iv)) mask l t
      else
        ph <~ ideref m 0; ic <~ lift (prom_phandle_to_dn ph t);
        let m := iadd m 1 in
        let maplen := maplen - 1 in
        match ic with
        | None => Done None
        | Some ic =>
            if maplen =? 0 then Done None else
            match prom_get_int_property (Some ic) (str "#interrupt-cells") t with
            | None => Done None
            | Some xa =>
                let xb := default 0 (prom_get_int_property (Some ic) (str "#address-cells") t) in
                if mtch && (xa + xb <=? maplen) then Done (Some (IrqLoop ic xa xb xb m (iadd m (- xb))))
                else scan_map n' (iadd m (xa + xb)) (maplen - (xa + xb)) 0 true mask l t
            end
        end
  end.

(** The outer loop: the controller and the interrupt, or failure.  [dn] is
    the node looked up. *)
Fixpoint irq_walk (n : nat) (dn : Z) (p : option Z) (l : irq_loop) (t : oftree)
    : run (option (Z * iptr * Z)) :=
  match p with
  | None => Done None
  | Some a =>
      match n with
      | O => More
      | S n' =>
          if has_prop p (str "interrupt-controller") t then Done (Some (a, l_intr l, l_icells l))
          else match prom_get_property p (str "interrupt-map") t with
               | None => p <~ irq_parent dn t; irq_walk n' dn p l t
               | Some mv =>
                   match prom_get_property p (str "interrupt-map-mask") t with
                   | None => Done None
                   | Some kv =>
                       if l_rlen l <? l_acells l then Done None else
                       r <~ scan_map n' (int_array mv) (Z.of_nat (length mv / 4)) 0 true (int_array kv) l t;
                       match r with
                       | None => Done None
                       | Some l' => irq_walk n' dn (Some (lp l')) l' t
                       end
                   end
               end
      end
  end.

Definition map_irq (n : nat) (dn : Z) (irq_ind : Z) (t : oftree) : run (option (Z * iptr * Z)) :=
  acells <~ get_acells n (Some dn) t;
  icells <~ get_icells n dn t;
  let reg := default [] (prom_get_property (Some dn) (str "reg") t) in
  let rlen := Z.of_nat (length reg / 4) in
  if icells =? 0 then Crash else
  match prom_get_property (Some dn) (str "interrupts") t with
  | None => Done None
  | Some iv =>
      if Z.quot (Z.of_nat (length iv / 4)) icells <=? irq_ind then Done None else
      p <~ irq_parent dn t;
      irq_walk n dn p (IrqLoop dn icells acells rlen (iadd (int_array iv) (irq_ind * icells)) (int_array reg)) t
  end.

Definition has_irq_map (t : oftree) : run bool :=
  l <~ lift (all_nodes t);
  Done (existsb (fun a => has_prop (Some a) (str "interrupt-controller") t) l).

(** [irq_info_t] *)
Record irq_info := IrqInfo { nirq : Z; irq : list Z; controller : list Z }.

(** The interrupt tree traversal for the indices [idx] *)
Fixpoint lookup_irqs (n : nat) (dn : Z) (idx : list Z) (found : bool) (info : irq_info) (t : oftree) : run irq_info :=
  match idx with
  | [] => Done info
  | i :: idx' =>
      r <~ (if found then map_irq n dn i t else Done None);
      match r with
      | None => lookup_irqs n dn idx' found (IrqInfo (nirq info) (irq info ++ [-1]) (controller info ++ [0])) t
      | Some (ic, ip, _) =>
          v <~ ideref ip 0;
          lookup_irqs n dn idx' found
            (IrqInfo (i + 1) (irq info ++ [s32 v]) (controller info ++ [prom_dn_to_phandle (Some ic) t])) t
      end
  end.

(** More than five interrupts of the old kind overrun the array. *)
Definition prom_irq_lookup (n : nat) (dn : Z) (t : oftree) : run irq_info :=
  mapped <~ has_irq_map t;
  let found := mapped && has_prop (Some dn) (str "interrupts") t in
  info <~ lookup_irqs n dn [0; 1; 2; 3; 4] found (IrqInfo 0 [] []) t;
  if negb found && (nirq info =? 0) then
    nd <~ lift (nodes t !! dn);
    let ip := match prom_get_property (Some dn) (str "AAPL,interrupts") t with
              | Some v => v
              | None => default [] (prom_get_property (parent nd) (str "AAPL,interrupts") t)
              end in
    let ws := words_of (length ip / 4) ip in
    if (5 <? length ws)%nat then Crash
    else Done (IrqInfo (Z.of_nat (length ws)) (map s32 ws ++ drop (length ws) (irq info)) (controller info))
  else Done info.

Fixpoint check_irqs (n : nat) (l : list Z) (t : oftree) : run (list irq_info) :=
  match l with
  | [] => Done []
  | a :: l' => i <~ prom_irq_lookup n a t; ir <~ check_irqs n l' t; Done (i :: ir)
  end.
Definition check_irq_tree (n : nat) (t : oftree) : run (list irq_info) :=
  l <~ lift (all_nodes t); check_irqs n l t.

(** ** The guest interface *)

Definition kPromClose : Z := 0.
Definition kPromPeer : Z := 1.
Definition kPromChild : Z := 2.
Definition kPromParent : Z := 3.
Definition kPromPackageToPath : Z := 4.
Definition kPromGetPropLen : Z := 5.
Definition kPromGetProp : Z := 6.
Definition kPromNextProp : Z := 7.
Definition kPromSetProp : Z := 8.
Definition kPromChangePHandle : Z := 9.
Definition kPromCreateNode : Z := 16.
Definition kPromFindDevice : Z := 17.

(** A C string in guest memory, of at most [n] characters *)
Fixpoint ld_str (n : nat) (p : Memory.lvptr) (m : Memory.memory) : option (list Z) :=
  match n with
  | O => None
  | S n' => l ← Memory.load p 1 m;
            match l with
            | [c] => if c =? 0 then Some [] else s ← ld_str n' (Memory.plus p 1) m; Some (c :: s)
            | _ => None
            end
  end.
Definition guest_str (p : Memory.lvptr) (m : Memory.memory) : run (list Z) :=
  lift (ld_str (Z.to_nat (Memory.size (Memory.ram m))) p m).
Definition guest_store (p : Memory.lvptr) (l : list Z) (m : Memory.memory) : run Memory.memory :=
  lift (Memory.store p l m).

(** [promif_cleanup] *)
Definition no_tree : oftree := Tree ∅ None None 0 0.

Definition to_ph : option Z -> oftree -> Z := prom_dn_to_phandle.

Section Osi.
Context (debugger_enabled : bool).

(** The calls on the node [dn]; [a2], [a3] and [a4] are the further
    arguments, signed words. *)
Definition prom_call (sel : Z) (dn : Z) (a2 a3 a4 : Z) (t : oftree) (m : Memory.memory)
    : run (Z * oftree * Memory.memory) :=
  let tr a := Memory.transl_mphys (u32 a) m in
  nd <~ lift (nodes t !! dn);
  if sel =? kPromPeer then Done (to_ph (sibling nd) t, t, m)
  else if sel =? kPromChild then Done (to_ph (child nd) t, t, m)
  else if sel =? kPromParent then Done (to_ph (parent nd) t, t, m)
  else if sel =? kPromPackageToPath then
    match tr a2 with
    | None => Done (-1, t, m)
    | Some p =>
        s <~ lift (get_full_name dn 256 t);
        if a3 <? 0 then Crash else
        let n := Z.to_nat a3 in
        m <~ guest_store p (take n s ++ replicate (n - length s) 0) m;
        Done (Z.of_nat (length s), t, m)
    end
  else if sel =? kPromGetPropLen then
    match tr a2 with
    | None => Done (-1, t, m)
    | Some p => name <~ guest_str p m;
                Done (match prom_get_property (Some dn) name t with
                      | Some v => Z.of_nat (length v) | None => -1 end, t, m)
    end
  else if sel =? kPromGetProp then
    match tr a2, tr a3 with
    | Some p, Some buf =>
        name <~ guest_str p m;
        match prom_get_property (Some dn) name t with
        | None => Done (-1, t, m)
        | Some v => if a4 <? 0 then Done (-1, t, m)
                    else m <~ guest_store buf (take (Z.to_nat a4) v) m; Done (Z.of_nat (length v), t, m)
        end
    | _, _ => Done (-1, t, m)
    end
  else if sel =? kPromNextProp then
    match tr a2, tr a3 with
    | Some p, Some buf =>
        name <~ guest_str p m;
        match prom_next_property dn name t with
        | None => Done (0, t, m)
        | Some s => m <~ guest_store buf (s ++ [0]) m; Done (1, t, m)
        end
    | _, _ => Done (-1, t, m)
    end
  else if sel =? kPromSetProp then
    match tr a2, tr a3 with
    | Some p, Some buf =>
        if (a4 <? 0) || (0x1000 <? a4) then Done (-1, t, m) else
        name <~ guest_str p m;
        data <~ lift (Memory.load buf (Z.to_nat a4) m);
        Done (a4, prom_add_property dn name data t, m)
    | _, _ => Done (-1, t, m)
    end
  else if sel =? kPromChangePHandle then
    other <~ lift (prom_phandle_to_dn (u32 a2) t);
    match other with
    | None => Done (0, upd dn (set_node (u32 a2)) t, m)
    | Some _ => Done (if node nd =? u32 a2 then 0 else -1, t, m)
    end
  else Done (-1, t, m).

Definition osip_prom_iface (sel ph a2 a3 a4 : Z) (t : oftree) (m : Memory.memory)
    : run (Z * oftree * Memory.memory) :=
  if sel =? kPromClose then Done (0, if debugger_enabled then t else no_tree, m) else
  dn <~ lift (prom_phandle_to_dn (u32 ph) t);
  match dn with
  | None => if (sel =? kPromPeer) && (ph =? 0) then Done (to_ph (root t) t, t, m) else Done (-1, t, m)
  | Some a =>
      if (sel =? kPromPeer) && (ph =? 0) then Done (to_ph (root t) t, t, m)
      else prom_call sel a a2 a3 a4 t m
  end.

Definition osip_prom_path_iface (sel a1 : Z) (t : oftree) (m : Memory.memory)
    : run (Z * oftree * Memory.memory) :=
  match Memory.transl_mphys (u32 a1) m with
  | None => Done (-1, t, m)
  | Some p =>
      if a1 =? 0 then Done (-1, t, m) else
      path <~ guest_str p m;
      if sel =? kPromCreateNode then
        r <~ lift (prom_create_node path t);
        let '(dn, t) := r in
        let ret := to_ph dn t in Done (if ret =? 0 then -1 else ret, t, m)
      else if sel =? kPromFindDevice then
        dn <~ lift (prom_find_dev_by_path path t);
        let ret := to_ph dn t in Done (if ret =? 0 then -1 else ret, t, m)
      else Done (-1, t, m)
  end.

End Osi.

End Promif.
