(* ===== verification/PromifInv.v ===== *)
(** * Properties of the interrupt lookup and of the guest interface *)

From Stdlib Require Import String Ascii.
From S2P Require Import Prelude FileIO Memory Oftree OftreeInv Promif.

Module PromifInv.
Export Promif OftreeInv.

#[global] Close Scope string_scope.
Abbreviation length := Datatypes.length.

(** ** The interrupt lookup that never ends *)

(** More fuel does not change a result. *)
Lemma icells_mono t k : forall n dn v, icells_from k dn t = Done v ->
  icells_from n dn t = More \/ icells_from n dn t = Done v.
Proof.
  induction k as [|k IH]; intros n [a|] v; cbn [icells_from]; try (intros [= <-]; destruct n; by right).
  - destruct (prom_get_int_property (Some a) (str "#interrupt-cells") t) as [w|] eqn:E; [|done].
    intros [= ->]. destruct n; cbn [icells_from]; rewrite E; by right.
  - destruct n as [|n]; cbn [icells_from];
      destruct (prom_get_int_property (Some a) (str "#interrupt-cells") t) as [w|] eqn:E; try (by right); [by left|].
    destruct (irq_parent a t) as [p| |]; try done. cbn [bind]. apply IH.
Qed.

Lemma acells_mono t k : forall n dn v, get_acells k dn t = Done v ->
  get_acells n dn t = More \/ get_acells n dn t = Done v.
Proof.
  induction k as [|k IH]; intros n [a|] v; cbn [get_acells]; try (intros [= <-]; destruct n; by right).
  destruct n as [|n]; cbn [get_acells]; [by left|].
  destruct (lift (parent <$> nodes t !! a)) as [p| |]; try done. cbn [bind].
  destruct (prom_get_int_property p (str "#address-cells") t); [by right|apply IH].
Qed.

(** The interrupt lookup loops for ever on a node whose interrupt parent
    neither is a controller nor has an interrupt map: the loop of [map_irq]
    steps from the node itself again instead of from its parent.  When the
    tree has an interrupt controller anywhere, the look-up of such a node
    never returns, and neither does the check of all nodes at start-up. *)
Theorem irq_lookup_hangs t dn p v k icells acells l :
  has_irq_map t = Done true ->
  prom_get_property (Some dn) (str "interrupts") t = Some v ->
  get_acells k (Some dn) t = Done acells -> get_icells k dn t = Done icells ->
  0 < icells <= Z.of_nat (length v / 4) ->
  irq_parent dn t = Done (Some p) ->
  prom_get_property (Some p) (str "interrupt-controller") t = None ->
  prom_get_property (Some p) (str "interrupt-map") t = None ->
  all_nodes t = Some l -> dn ∈ l ->
  (forall n, prom_irq_lookup n dn t = More) /\ (forall n r, check_irq_tree n t <> Done r).
Proof.
  intros Hmap Hint Ha Hi Hic Hp Hctl Hm Hl Hin.
  assert (Hwalk : forall n lo, irq_walk n dn (Some p) lo t = More).
  { induction n as [|n IH]; intros lo; cbn [irq_walk]; [done|].
    unfold has_prop. rewrite Hctl, Hm, Hp. cbn [bind]. apply IH. }
  assert (Hmi : forall n, map_irq n dn 0 t = More).
  { intros n. unfold map_irq. destruct (acells_mono t k n _ _ Ha) as [->| ->]; [done|]. cbn [bind].
    unfold get_icells in *. rewrite Hp in *. cbn [bind] in *.
    destruct (icells_mono t k n _ _ Hi) as [->| ->]; [done|]. cbn [bind].
    destruct (Z.eqb_spec icells 0); [lia|]. rewrite Hint.
    destruct (Z.leb_spec (Z.of_nat (length v / 4) ÷ icells) 0) as [Hq|_]; [|apply Hwalk].
    exfalso. pose proof (Z.quot_le_mono (icells) (Z.of_nat (length v / 4)) icells ltac:(lia) ltac:(lia)) as Hle.
    rewrite Z.quot_same in Hle by lia. lia. }
  assert (Hlook : forall n, prom_irq_lookup n dn t = More).
  { intros n. unfold prom_irq_lookup, has_prop. rewrite Hmap, Hint. cbn. by rewrite Hmi. }
  split; [done|]. intros n r. unfold check_irq_tree. rewrite Hl. cbn [lift bind]. clear - Hin Hlook. revert r.
  induction l as [|a l IH]; intros r; [by apply elem_of_nil in Hin|]. cbn [check_irqs].
  apply elem_of_cons in Hin as [<-|Hin]; [by rewrite Hlook|].
  destruct (prom_irq_lookup n a t); try done. cbn [bind].
  destruct (check_irqs n l t) as [ir| |]; try done. by destruct (IH Hin ir).
Qed.

(** A controller at the root, a bus without an interrupt map, and a device *)
Definition hang_tree : oftree :=
  let cells := Prop_ (str "#interrupt-cells") [0; 0; 0; 1] in
  Tree (<[1 := Node 1 [cells] None (Some 2) None None (Some 4) None]>
       (<[2 := Node 2 [] (Some 1) (Some 3) (Some 4) None None None]>
       (<[3 := Node 3 [Prop_ (str "interrupts") [0; 0; 0; 5]] (Some 2) None None None (Some 2) None]>
       (<[4 := Node 4 [Prop_ (str "interrupt-controller") []] (Some 1) None None None (Some 3) None]> ∅))))
    (Some 1) (Some 1) 5 5.

Lemma irq_lookup_hangs_witness : irq_parent 3 hang_tree = Done (Some 2) /\
  (forall n, prom_irq_lookup n 3 hang_tree = More) /\ (forall n r, check_irq_tree n hang_tree <> Done r).
Proof.
  split; [reflexivity|].
  apply (irq_lookup_hangs hang_tree 3 2 [0; 0; 0; 5] 4 1 1 [1; 4; 3; 2]); try reflexivity.
  - vm_compute. split; [reflexivity|discriminate].
  - right. right. left.
Defined.

(** ** Properties set and read by the guest *)

Lemma put_find name data l q : find_prop q (put_prop name data l) =
  if decide (q = name) then (match find_prop name l with Some _ => Some (Prop_ name data) | None => None end)
  else find_prop q l.
Proof.
  induction l as [|pp l IH]; cbn; [by destruct (decide _)|].
  destruct (decide (p_name pp = name)) as [E|E]; cbn.
  - destruct (decide (q = name)) as [->|Hq].
    + by rewrite decide_True.
    + rewrite decide_False by congruence. rewrite decide_False by congruence. done.
  - rewrite IH. destruct (decide (q = name)) as [->|Hq]; [by rewrite decide_False|done].
Qed.

(** Reading any property of any node after one has been set *)
Lemma get_add_property dn name data t a q : is_Some (nodes t !! dn) ->
  prom_get_property (Some a) q (prom_add_property dn name data t) =
  if decide (a = dn /\ q = name) then Some data else prom_get_property (Some a) q t.
Proof.
  intros [nd Hnd]. unfold prom_get_property, find_property, prom_add_property. cbn.
  destruct (decide (a = dn)) as [->|Ha].
  2: { rewrite lookup_alter_ne by done. by rewrite decide_False by tauto. }
  rewrite lookup_alter_eq, Hnd. cbn. destruct (find_prop name (properties nd)) eqn:E.
  - rewrite put_find, E. destruct (decide (q = name)) as [->|]; [by rewrite decide_True|by rewrite decide_False by tauto].
  - cbn. destruct (decide (name = q)) as [->|]; [by rewrite decide_True|by rewrite decide_False by naive_solver].
Qed.

(** Changing a field that a list does not follow *)
Lemma walk_upd n nx p dn f t : (forall nd, nx (f nd) = nx nd) -> walk n nx p (upd dn f t) = walk n nx p t.
Proof.
  intros Hf. revert p. induction n as [|n IH]; intros [a|]; cbn; try done.
  destruct (decide (a = dn)) as [->|Ha].
  - rewrite lookup_alter_eq. destruct (nodes t !! dn); cbn; [|done]. by rewrite Hf, IH.
  - rewrite lookup_alter_ne by done. destruct (nodes t !! a); cbn; [|done]. by rewrite IH.
Qed.

Lemma nsize_upd dn f t : nsize (upd dn f t) = nsize t.
Proof. unfold nsize, upd. cbn. by rewrite <- !size_dom, dom_alter_L. Qed.

Lemma phandle_upd ph dn f t : (forall nd, allnext (f nd) = allnext nd /\ node (f nd) = node nd) ->
  prom_phandle_to_dn ph (upd dn f t) = prom_phandle_to_dn ph t.
Proof.
  intros Hf. unfold prom_phandle_to_dn, all_nodes. rewrite nsize_upd, walk_upd by apply Hf. cbn.
  destruct (walk _ _ _ _) as [l|]; [|done]. cbn. do 2 f_equal.
  assert (E : forall a, (node <$> alter f dn (nodes t) !! a) = (node <$> nodes t !! a)).
  { intros a. destruct (decide (a = dn)) as [->|Ha].
    - rewrite lookup_alter_eq. destruct (nodes t !! dn); cbn; [|done]. f_equal. apply Hf.
    - by rewrite lookup_alter_ne by done. }
  assert (Hfind : list_find (λ a, node <$> alter f dn (nodes t) !! a = Some ph) l =
                  list_find (λ a, node <$> nodes t !! a = Some ph) l).
  { induction l as [|a l IH]; [done|]. cbn. destruct (decide (node <$> nodes t !! a = Some ph)) as [H|H].
    - by rewrite decide_True by (by rewrite E).
    - rewrite decide_False by (by rewrite E). by rewrite IH. }
  by rewrite Hfind.
Qed.

Lemma guest_store_ram o l m : 0 <= o -> o + Z.of_nat (length l) <= Memory.size (Memory.ram m) ->
  exists m', guest_store (Memory.LRam o) l m = Done m' /\ Memory.load (Memory.LRam o) (length l) m' = Some l /\
    Memory.frame (fun x => o <= x < o + Z.of_nat (length l)) m m'.
Proof.
  intros H1 H2. destruct (Memory.store_ram o l m H1 H2) as (m' & E & Hb & Hf). exists m'. unfold guest_store. rewrite E.
  split; [done|]. split; [|done]. unfold Memory.load, Memory.inside. cbn [Memory.offs_of Memory.bank_of].
  rewrite (Memory.fr_size _ _ _ Hf), Hb. rewrite (proj2 (Z.leb_le _ _) H1), (proj2 (Z.leb_le _ _) H2). done.
Qed.

(** What a guest sets it reads back: a call that sets a property of at
    most 4096 bytes from a guest buffer, under the name found in guest
    memory, returns the length; then asking for the length returns it, and
    reading the property into a buffer of any size stores the data cut to
    that size there, changes no other byte of guest memory and returns the
    full length.  All other properties, of this node and of the others, keep
    their values. *)
Theorem osi_set_get dbg t m ph dn na name ba buf data len gb o sz :
  prom_phandle_to_dn (u32 ph) t = Some (Some dn) -> is_Some (nodes t !! dn) ->
  (exists p, Memory.transl_mphys (u32 na) m = Some p /\ guest_str p m = Done name) ->
  Memory.transl_mphys (u32 ba) m = Some buf -> Memory.load buf (Z.to_nat len) m = Some data ->
  0 <= len <= 0x1000 -> 0 <= sz ->
  Memory.transl_mphys (u32 gb) m = Some (Memory.LRam o) -> 0 <= o ->
  o + Z.of_nat (length (take (Z.to_nat sz) data)) <= Memory.size (Memory.ram m) ->
  exists t' m',
    osip_prom_iface dbg kPromSetProp ph na ba len t m = Done (len, t', m) /\
    osip_prom_iface dbg kPromGetPropLen ph na 0 0 t' m = Done (Z.of_nat (length data), t', m) /\
    osip_prom_iface dbg kPromGetProp ph na gb sz t' m = Done (Z.of_nat (length data), t', m') /\
    Memory.load (Memory.LRam o) (length (take (Z.to_nat sz) data)) m' = Some (take (Z.to_nat sz) data) /\
    Memory.frame (fun x => o <= x < o + Z.of_nat (length (take (Z.to_nat sz) data))) m m' /\
    (forall a q, ~ (a = dn /\ q = name) -> prom_get_property (Some a) q t' = prom_get_property (Some a) q t).
Proof.
  intros Hph Hdn (p & Hp & Hname) Hba Hdata Hlen Hsz Hgb Ho Hfit.
  set (t' := prom_add_property dn name data t).
  destruct (guest_store_ram o (take (Z.to_nat sz) data) m Ho Hfit) as (m' & Est & Eld & Hf).
  assert (Hph' : prom_phandle_to_dn (u32 ph) t' = Some (Some dn)).
  { unfold t', prom_add_property. rewrite phandle_upd; done. }
  destruct Hdn as [nd Hnd].
  assert (Hnd' : exists nd', nodes t' !! dn = Some nd').
  { unfold t'. cbn. rewrite lookup_alter_eq, Hnd. by eexists. }
  destruct Hnd' as [nd' Hnd'].
  assert (Hget : prom_get_property (Some dn) name t' = Some data).
  { unfold t'. rewrite get_add_property by by exists nd. by rewrite decide_True. }
  exists t', m'. unfold osip_prom_iface. rewrite Hph, Hph'. cbn [lift bind].
  unfold prom_call. rewrite Hnd, Hnd', Hp, Hba, Hgb, Hname, Hdata. cbn [lift bind].
  cbv [kPromClose kPromPeer kPromChild kPromParent kPromPackageToPath kPromGetPropLen kPromGetProp kPromNextProp kPromSetProp].
  cbn [Z.eqb Pos.eqb andb].
  destruct (Z.ltb_spec len 0), (Z.ltb_spec 4096 len); try lia. cbn [orb].
  rewrite Hget. destruct (Z.ltb_spec sz 0); [lia|]. rewrite Est. cbn [bind].
  split_and!; try done. intros a q Hq. unfold t'. rewrite get_add_property by by exists nd. by rewrite decide_False.
Qed.

(** Guest memory with a name at 8 and three bytes at 16 *)
Definition guest_ram : Memory.memory :=
  Memory.Mem (Memory.Bank 0 64 (FileIO.put_bytes (FileIO.put_bytes ∅ 8 (str "reg" ++ [0])) 16 [1; 2; 3]))
    (Memory.Bank 0 0 ∅).

Lemma osi_set_get_witness : exists t' m',
  osip_prom_iface false kPromSetProp 3 8 16 3 hang_tree guest_ram = Done (3, t', guest_ram) /\
  osip_prom_iface false kPromGetProp 3 8 32 2 t' guest_ram = Done (3, t', m') /\
  Memory.load (Memory.LRam 32) 2 m' = Some [1; 2].
Proof.
  destruct (osi_set_get false hang_tree guest_ram 3 3 8 (str "reg") 16 (Memory.LRam 16) [1; 2; 3] 3 32 32 2)
    as (t' & m' & H1 & _ & H3 & H4 & _); try reflexivity; try lia.
  - eexists. reflexivity.
  - exists (Memory.LRam 8). split; reflexivity.
  - vm_compute. discriminate.
  - exists t', m'. split; [exact H1|]. split; [exact H3|exact H4].
Defined.

End PromifInv.
