(* ===== verification/OfText.v ===== *)
(** * The text form of the device tree ([src/main/promif.c])

    The tree is read from a text file at start-up, and a debugger command
    writes it to one.  A node is a pair of braces around its unit string, its
    phandle, its properties and its children; an expression is a pair of
    parentheses.  Pointers into the text are the text from there on; where
    the code looks back, the text before is kept reversed. *)

From Stdlib Require Import String Ascii.
From S2P Require Import Prelude Memory Oftree Promif.

Module OfText.
Export Oftree.

#[global] Close Scope string_scope.
Abbreviation length := Datatypes.length.
Abbreviation bytes := (list Z) (only parsing).

Definition PHANDLE_BASE : Z := 0x1000.
Definition INDENT_VALUE : Z := 4.

Definition drop_properties : list bytes :=
  [str "nvramrc"; str "driver-ist"; str "driver-pointer"; str "driver-ref"; str "driver-descriptor";
   str "driver-ptr"; str "did"; str "driver,AAPL,MacOS,PowerPC"].
Definition drop_nodes : list bytes := [].

(** ** Export *)

Definition indprint (ind : Z) (l : bytes) : bytes := replicate (Z.to_nat ind) 32 ++ l.

(** The [n] low hexadecimal digits of a number *)
Definition hexchar (d : Z) : Z := if d <? 10 then 48 + d else 87 + d.
Fixpoint hexdigits (n : nat) (v : Z) : bytes :=
  match n with O => [] | S n' => hexdigits n' (v .>> 4) ++ [hexchar (v .& 0xf)] end.

(** [%-18s] *)
Definition pad (n : nat) (l : bytes) : bytes := l ++ replicate (n - length l) 32.

Definition isgraph (c : Z) : bool := (33 <=? c) && (c <=? 126).

(** The loop that looks for characters no text has; [prev] is the byte
    before. *)
Fixpoint likely_text (prev : option Z) (l : bytes) : bool :=
  match l with
  | [] => true
  | ch :: l' =>
      if (ch =? 0) && bool_decide (prev = Some 0) && negb (bool_decide (l' = [])) then false
      else if negb (ch =? 0) && negb (isgraph ch) && negb (isspace ch) then false
      else likely_text (Some ch) l'
  end.
Definition is_text (v : bytes) : bool := likely_text None v && bool_decide (list.last v = Some 0).

(** The zero-terminated strings of a value *)
Fixpoint cstrings (l : bytes) : list bytes :=
  match l with
  | [] => []
  | c :: l' => if c =? 0 then [] :: cstrings l'
               else match cstrings l' with s :: r => (c :: s) :: r | [] => [[c]] end
  end.

Fixpoint print_strings (len ind : Z) (first : bool) (l : list bytes) : bytes :=
  match l with
  | [] => []
  | s :: l' => (if first then [] else str ", ")
               ++ (if 50 <? len then 10 :: indprint ind [] else [])
               ++ 34 :: s ++ 34 :: print_strings len ind false l'
  end.

Definition words_per_line (len : Z) : Z :=
  if len mod 20 =? 0 then 5 else if len mod 24 =? 0 then 6 else if negb (len mod 16 =? 0) then 2 else 4.

(** The words from position [i] on, [n] of them *)
Fixpoint print_words (n : nat) (len ind i : Z) (v : bytes) : bytes :=
  match n with
  | O => []
  | S n' => (if (8 <? len) && ((i / 4) mod words_per_line len =? 0) then 10 :: indprint ind [] else [])
            ++ str "0x" ++ hexdigits 8 (be_value (take 4 v)) ++ 32 :: print_words n' len ind (i + 4) (drop 4 v)
  end.

Fixpoint print_bytes (len ind i : Z) (v : bytes) : bytes :=
  match v with
  | [] => []
  | b :: v' => (if (i mod 12 =? 0) && (8 <? len) then 10 :: indprint ind [] else [])
               ++ str "0x" ++ hexdigits 2 b ++ 32 :: print_bytes len ind (i + 1) v'
  end.

Definition print_value (ind : Z) (v : bytes) : bytes :=
  let len := Z.of_nat (length v) in
  let ind := ind + INDENT_VALUE in
  if bool_decide (v = []) then str ")" ++ [10]
  else if is_text v then str "<str>  " ++ 9 :: print_strings len ind true (cstrings v) ++ str " )" ++ [10]
  else if len mod 4 =? 0 then str "<word> " ++ 9 :: print_words (length v / 4) len ind 0 v ++ str " )" ++ [10]
  else str "<byte> " ++ 9 :: print_bytes len ind 0 v ++ str " )" ++ [10].

Definition dropped (pr : property) : bool := existsb (fun d => bool_decide (p_name pr = d)) drop_properties.

Definition export_property (ind : Z) (pr : property) : bytes :=
  if dropped pr then [] else
  indprint ind (str "(property " ++ pad 18 (p_name pr) ++ [32]) ++ print_value ind (p_value pr).

(** What is printed of a node before its children, with the lines of
    comment in front *)
Definition export_head (ind : Z) (full : bytes) (dn : Z) (t : oftree) : bytes :=
  indprint ind (str "#" ++ [10])
  ++ indprint ind (str "# **************** NODE " ++ node_name dn t ++ str " ***************" ++ [10])
  ++ indprint ind (str "# " ++ full ++ [10])
  ++ indprint ind (str "#" ++ [10])
  ++ indprint ind (str "{" ++ [10]).

Definition export_body (ind : Z) (nd : dnode) : bytes :=
  (match unit_string nd with
   | Some (c :: u) => indprint ind (str "(unit_string " ++ c :: u ++ str " )" ++ [10])
   | _ => []
   end)
  ++ (if PHANDLE_BASE <? node nd
      then indprint ind (str "(mol_phandle 0x" ++ hexdigits 8 (node nd) ++ str " )" ++ [10]) else [])
  ++ flat_map (export_property ind) (properties nd).

Fixpoint export_node (n : nat) (dn : option Z) (ind : Z) (t : oftree) : option bytes :=
  match dn with
  | None => Some []
  | Some a =>
      match n with
      | O => None
      | S n' =>
          nd ← nodes t !! a;
          if existsb (fun d => bool_decide (node_name a t = d)) drop_nodes then export_node n' (sibling nd) ind t else
          full ← get_full_name a 256 t;
          below ← match child nd with
                  | Some c => l ← export_node n' (Some c) (ind + INDENT_VALUE) t;
                              Some (indprint (ind + INDENT_VALUE) [10] ++ l)
                  | None => Some []
                  end;
          rest ← export_node n' (sibling nd) ind t;
          Some (export_head ind full a t ++ export_body (ind + INDENT_VALUE) nd ++ below
                ++ indprint ind (str "}" ++ [10]) ++ rest)
      end
  end.

(** The text [cmd_ofexport] writes *)
Definition cmd_ofexport (t : oftree) : option bytes :=
  l ← export_node (nsize t) (prom_get_root t) 0 t;
  Some (indprint 0 (str "# *************************" ++ [10]) ++ indprint 0 (str "#  Exported OF Device Tree " ++ [10])
        ++ indprint 0 (str "# *************************" ++ [10; 10]) ++ l).

(** ** Scanning ([sscanf]) *)

Definition scan_sign (l : bytes) : bool * bytes :=
  match l with
  | c :: l' => if c =? 45 then (true, l') else if c =? 43 then (false, l') else (false, l)
  | [] => (false, l)
  end.

(** The longest prefix of digits, and the rest *)
Fixpoint span_digits (digit : Z -> option Z) (l : bytes) : list Z * bytes :=
  match l with
  | c :: l' => match digit c with Some d => let '(ds, r) := span_digits digit l' in (d :: ds, r) | None => ([], l) end
  | [] => ([], [])
  end.
Definition digits_value (b : Z) (ds : list Z) : Z := foldl (fun v d => v * b + d) 0 ds.

(** [%x]: the number and the text after it *)
Definition scan_x (l : bytes) : option (Z * bytes) :=
  let '(neg, l) := scan_sign (skip_spaces l) in
  let l := match l with z :: x :: l' => if (z =? 48) && (lower x =? 120) then l' else l | _ => l end in
  match span_digits hexdigit l with
  | ([], _) => None
  | (ds, r) => let v := Z.min (digits_value 16 ds) 0xffffffff in
               Some (if neg : bool then u32 (- v) else v, r)
  end.

Definition decdigit (c : Z) : option Z := if (48 <=? c) && (c <=? 57) then Some (c - 48) else None.

(** [%d], as a 32-bit pattern *)
Definition scan_d (l : bytes) : option (Z * bytes) :=
  let '(neg, l) := scan_sign (skip_spaces l) in
  match span_digits decdigit l with
  | ([], _) => None
  | (ds, r) => let v := digits_value 10 ds in
               Some (u32 (if neg : bool then Z.max (- v) (- 2 ^ 31) else Z.min v (2 ^ 31 - 1)), r)
  end.

(** [" 0x%x"] *)
Definition scan_0x (l : bytes) : option (Z * bytes) :=
  match skip_spaces l with
  | z :: x :: l' => if (z =? 48) && (x =? 120) then scan_x l' else None
  | _ => None
  end.

(** [%<n>s]: at most [n] characters that are not space *)
Fixpoint word_of (n : nat) (l : bytes) : bytes * bytes :=
  match n, l with
  | S n', c :: l' => if isspace c then ([], l) else let '(w, r) := word_of n' l' in (c :: w, r)
  | _, _ => ([], l)
  end.
Definition scan_s (n : nat) (l : bytes) : bytes * bytes := word_of n (skip_spaces l).

(** ** Values *)

(** The loop of [hex_format]: the bytes of the numbers read *)
Fixpoint hex_numbers (n : nat) (refcon : Z) (l : bytes) : bytes :=
  match n with
  | O => []
  | S n' => match (match scan_0x l with Some p => Some p | None => scan_d l end) with
            | Some (v, l') => (if refcon =? 1 then [v .& 0xff] else be_bytes 4 v) ++ hex_numbers n' refcon l'
            | None => []
            end
  end.
Definition hex_format (l : bytes) (refcon : Z) : bytes :=
  let l := match strsep 40 l with (_, Some l') => l' | (_, None) => l end in
  hex_numbers (S (length l)) refcon l.

Fixpoint string_chars (on : bool) (l : bytes) : bytes :=
  match l with
  | [] => []
  | ch :: l' => if ch =? 34 then string_chars (negb on) l'
                else if on then ch :: string_chars on l'
                else if ch =? 44 then 0 :: string_chars on l' else string_chars on l'
  end.
Definition string_format (l : bytes) (refcon : Z) : bytes := string_chars false l ++ [0].

Definition empty_format (l : bytes) (refcon : Z) : bytes := [].

Definition format_table : list (bytes * (bytes -> Z -> bytes) * Z) :=
  [(str "<byte>", hex_format, 1); (str "<word>", hex_format, 4); (str "<str>", string_format, 0);
   (str ")", empty_format, 0)].

(** ** Expressions *)

(** From behind an opening parenthesis: the text inside and from the closing
    one on; [count] parentheses are open. *)
Fixpoint balance (count : nat) (l : bytes) : option (bytes * bytes) :=
  match l with
  | [] => None
  | c :: l' =>
      let go k := '(a, r) ← balance k l'; Some (c :: a, r) in
      if c =? 40 then go (S count)
      else if c =? 41 then (match count with S (S k) => go (S k) | _ => Some ([], l) end)
      else go count
  end.

(** Whether the line before a position, read backwards, makes it a comment *)
Definition isblank (c : Z) : bool := (c =? 32) || (c =? 9).
Fixpoint commented (back : bytes) : bool :=
  match back with
  | [] => false
  | c :: b => if isblank c then commented b else negb ((c =? 10) || (c =? 13))
  end.

Definition starts_with (key l : bytes) : bool := bool_decide (take (length key) l = key).

(** The data of the first expression with the key, and the text from its
    closing parenthesis on.  [back] is the text before, back to the start of
    the search. *)
Fixpoint find_key (n : nat) (back l key : bytes) : option (bytes * bytes) :=
  match n with
  | O => None
  | S n' =>
      match strsep 40 l with
      | (_, None) => None
      | (pre, Some inside) =>
          let back := rev pre ++ back in
          let data := skip_spaces inside in
          if negb (commented back) && starts_with key data
          then '(_, close) ← balance 1 inside; Some (drop (length key) data, close)
          else '(a, close) ← balance 1 inside; find_key n' (rev a ++ 40 :: back) close key
      end
  end.
Definition findkey (l key : bytes) : option (bytes * bytes) := find_key (S (length l)) [] l key.

(** ** Import *)

(** The value of a property, given its format, its data and the text from
    the end of the expression on *)
Definition read_value (fmt start close : bytes) : bytes :=
  match list_find (fun e => e.1.1 = fmt) format_table with
  | None => []
  | Some (_, (_, proc, refcon)) =>
      let start := match strsep 62 start with (_, Some s) => s | (_, None) => [] end in
      proc (if (length close <=? length start)%nat then take (length start - length close) start else start) refcon
  end.

Fixpoint build_properties (n : nat) (buf : bytes) : list property :=
  match n with
  | O => []
  | S n' =>
      match findkey buf (str "property") with
      | None => []
      | Some (start, close) =>
          let '(name, r) := scan_s 99 start in
          let fmt := if bool_decide (name = []) then [] else (scan_s 39 r).1 in
          Prop_ name (read_value fmt start close) :: build_properties n' close
      end
  end.

Definition build_node (buf : bytes) (t : oftree) : Z * oftree :=
  let dn := fresh t in
  let u := match findkey buf (str "unit_string") with
           | Some (start, _) => Some (scan_s 99 start).1
           | None => None
           end in
  let ph := match findkey buf (str "mol_phandle") with
            | Some (start, _) => let v := match scan_x start with Some (v, _) => v | None => 0 end in
                                 if v <? PHANDLE_BASE then 0 else v
            | None => 0
            end in
  let generated := ph =? 0 in
  let nd := Node (if generated then next_phandle t else ph) (build_properties (S (length buf)) buf)
              None None None None None u in
  (dn, Tree (<[dn := nd]> (nodes t)) (root t) (all t)
         (if generated then next_phandle t + 1 else next_phandle t) (fresh t + 1)).

(** The nodes of one level: the first one, and the text behind the level *)
Fixpoint read_node (n : nat) (buf : bytes) (par : option Z) (t : oftree) : option (option Z * bytes * oftree) :=
  match n with
  | O => None
  | S n' =>
      match strsep 123 buf, strsep 125 buf with
      | (pre, Some text), (pre', Some after) =>
          if (length pre' <? length pre)%nat then Some (None, after, t) else
          let '(own, kid) := strsep 123 (strsep 125 text).1 in
          let '(dn, t) := build_node own t in
          let t := upd dn (set_parent par) t in
          '(rest, t) ← match kid with
                       | None => Some (after, t)
                       | Some _ => '(c, rest, t) ← read_node n' (drop (length own) text) (Some dn) t;
                                   Some (rest, upd dn (set_child c) t)
                       end;
          let t := set_all (Some dn) (upd dn (set_allnext (all t)) t) in
          '(sib, rest, t) ← read_node n' rest par t;
          Some (Some dn, rest, upd dn (set_sibling sib) t)
      | _, _ => Some (None, buf, t)
      end
  end.

(** Only the first of the nodes gets its parent. *)
Definition import_node (file : option bytes) (par : option Z) (t : oftree) : option (option Z * oftree) :=
  match file with
  | None => Some (None, t)
  | Some l =>
      let buf := cstr l in
      '(nd, _, t) ← read_node (S (length buf)) buf None t;
      match par, nd with
      | Some p, Some a =>
          pn ← nodes t !! p;
          sibs ← walk (nsize t) sibling (Some a) t;
          last_sib ← list.last sibs;
          let t := upd last_sib (set_sibling (child pn)) t in
          let t := upd p (set_child (Some a)) t in
          Some (Some a, upd a (set_parent (Some p)) t)
      | _, _ => Some (nd, t)
      end
  end.

Definition import_oftree (file : option bytes) (t : oftree) : option (bool * oftree) :=
  '(r, t) ← import_node file None (set_all None t);
  Some (bool_decide (r = None), Tree (nodes t) r (all t) (next_phandle t) (fresh t)).

Definition prom_import_node (par : option Z) (file : option bytes) (t : oftree) : option (option Z * oftree) :=
  match par with
  | None => Some (None, t)
  | Some _ => import_node file par t
  end.

(** [promif_init]: the process ends when the tree cannot be read. *)
Definition initial_tree : oftree := Tree ∅ None None 1 1.
Definition promif_init (n : nat) (file : option bytes) : Promif.run (option oftree) :=
  Promif.bind (Promif.lift (import_oftree file initial_tree)) (fun r =>
    if r.1 then Promif.Done None
    else Promif.bind (Promif.check_irq_tree n r.2) (fun _ => Promif.Done (Some r.2))).

End OfText.
