(* ===== verification/OfTextInv.v ===== *)
(** * The values and expressions of the text form, read back

    What the printer writes for a number, a value or a property, the scanner
    reads back; the search for a key finds the expressions of a node. *)

From Stdlib Require Import String Ascii.
From S2P Require Import Prelude FileIO Memory Oftree OftreePath OfText.

Module OfTextInv.
Export OftreePath OfText.

#[global] Close Scope string_scope.
Abbreviation length := Datatypes.length.
Abbreviation bytes := (list Z) (only parsing).

(** ** Characters *)

(** Neither parentheses nor braces nor zero *)
Definition plain_char (c : Z) : bool := negb (c =? 0) && negb (c =? 40) && negb (c =? 41) && negb (c =? 123) && negb (c =? 125).
Definition plain (l : bytes) : bool := forallb plain_char l.
(** Strings of such characters *)
Definition plain_text (v : bytes) : bool := forallb (fun c => (c =? 0) || plain_char c) v.
Definition spaces (l : bytes) : bool := forallb isspace l.
(** A nonempty word *)
Definition word (l : bytes) : bool := negb (bool_decide (l = [])) && forallb (fun c => isgraph c && plain_char c) l.

Lemma plain_app a b : plain (a ++ b) = plain a && plain b.
Proof. apply forallb_app. Qed.

Lemma plain_cons c l : plain (c :: l) = plain_char c && plain l.
Proof. done. Qed.

Lemma plain_not c l : plain_char c = false -> plain l = true -> c ∉ l.
Proof.
  intros Hc Hl Hin. apply forallb_forall with (x := c) in Hl; [congruence|by apply list_elem_of_In].
Qed.

Lemma plain_replicate n c : plain_char c = true -> plain (replicate n c) = true.
Proof. intros Hc. induction n; [done|]. cbn [replicate]. by rewrite plain_cons, Hc. Qed.

Lemma plain_indprint ind l : plain (indprint ind l) = plain l.
Proof. unfold indprint. by rewrite plain_app, plain_replicate. Qed.

Lemma spaces_plain l : spaces l = true -> plain l = true.
Proof.
  unfold spaces, plain. rewrite !forallb_forall. intros H c Hc. specialize (H c Hc). unfold isspace, plain_char in *.
  lia.
Qed.

Lemma spaces_app a b : spaces (a ++ b) = spaces a && spaces b.
Proof. apply forallb_app. Qed.

Lemma spaces_replicate n : spaces (replicate n 32) = true.
Proof. by induction n. Qed.

Lemma skip_spaces_app ws l : spaces ws = true -> skip_spaces (ws ++ l) = skip_spaces l.
Proof. induction ws as [|c ws IH]; [done|]. cbn. intros [-> H]%andb_true_iff. by apply IH. Qed.

Lemma skip_spaces_stop c l : isspace c = false -> skip_spaces (c :: l) = c :: l.
Proof. cbn. by intros ->. Qed.

Lemma isgraph_space c : isgraph c = true -> isspace c = false.
Proof. unfold isgraph, isspace. lia. Qed.

(** Reading a word followed by a space *)
Lemma word_of_app n w c r : forallb isgraph w = true -> (length w <= n)%nat -> isspace c = true ->
  word_of n (w ++ c :: r) = (w, c :: r).
Proof.
  intros Hw Hn Hc. revert n Hn. induction w as [|d w IH]; intros n Hn; cbn [app length] in *.
  - destruct n; [done|]. cbn. by rewrite Hc.
  - destruct n; [lia|]. cbn in Hw. apply andb_true_iff in Hw as [Hd Hw]. cbn [word_of].
    rewrite (isgraph_space d Hd), IH by (done || lia). done.
Qed.

Lemma word_split w : word w = true -> w <> [] /\ forallb isgraph w = true /\ plain w = true.
Proof.
  unfold word, plain. rewrite andb_true_iff, negb_true_iff, bool_decide_eq_false. intros [H1 H2]. split; [done|].
  rewrite !forallb_forall in *. split; intros c Hc; specialize (H2 c Hc); apply andb_true_iff in H2; tauto.
Qed.

Lemma scan_s_word n ws w c r : spaces ws = true -> w <> [] -> forallb isgraph w = true -> (length w <= n)%nat -> isspace c = true ->
  scan_s n (ws ++ w ++ c :: r) = (w, c :: r).
Proof.
  intros Hs Hw Hg Hn Hc. unfold scan_s. rewrite skip_spaces_app by done. destruct w as [|d w]; [done|].
  assert (Hd : isspace d = false) by (cbn in Hg; apply andb_true_iff in Hg as [Hd _]; by apply isgraph_space).
  cbn [app]. rewrite skip_spaces_stop by done. change (d :: w ++ c :: r) with ((d :: w) ++ c :: r). by apply word_of_app.
Qed.

(** ** Numbers *)

Fixpoint nibbles (n : nat) (v : Z) : list Z :=
  match n with O => [] | S n' => nibbles n' (v .>> 4) ++ [v .& 0xf] end.
Definition nibble (d : Z) : Prop := 0 <= d < 16.

Lemma hexdigits_map n : forall v, hexdigits n v = map hexchar (nibbles n v).
Proof. induction n as [|n IH]; intros v; [done|]. cbn. by rewrite map_app, IH. Qed.

Lemma nibbles_ok n : forall v, Forall nibble (nibbles n v).
Proof.
  induction n as [|n IH]; intros v; [done|]. cbn. apply Forall_app. split; [apply IH|]. constructor; [|done].
  change 0xf with (2 ^ 4 - 1). unfold nibble. apply land_ones_range. lia.
Qed.

Lemma nibbles_length n v : length (nibbles n v) = n.
Proof. revert v. induction n as [|n IH]; intros v; [done|]. cbn. rewrite length_app, IH. cbn. lia. Qed.

Lemma nibbles_value n : forall v, 0 <= v < 16 ^ Z.of_nat n -> digits_value 16 (nibbles n v) = v.
Proof.
  unfold digits_value. induction n as [|n IH]; intros v Hv; [cbn in *; lia|]. cbn [nibbles].
  rewrite foldl_app. cbn [foldl]. rewrite Nat2Z.inj_succ, Z.pow_succ_r in Hv by lia.
  change 0xf with (2 ^ 4 - 1). rewrite land_ones_mod, Z.shiftr_div_pow2 by lia. change (2 ^ 4) with 16.
  rewrite IH; [pose proof (Z.div_mod v 16); lia|].
  split; [apply Z.div_pos; lia|apply Z.div_lt_upper_bound; lia].
Qed.

Lemma hexchar_facts d : nibble d -> hexdigit (hexchar d) = Some d /\ isgraph (hexchar d) = true /\
  plain_char (hexchar d) = true /\ lower (hexchar d) <> 120 /\ hexchar d <> 45 /\ hexchar d <> 43 /\ isspace (hexchar d) = false.
Proof.
  unfold nibble. intros Hd.
  assert (H : d ∈ seqZ 0 16) by (apply elem_of_seqZ; lia). clear Hd. revert d H. apply list.Forall_forall.
  repeat constructor; (vm_compute; discriminate) || done.
Qed.

Lemma hexchars_plain ds : Forall nibble ds -> plain (map hexchar ds) = true.
Proof.
  induction 1 as [|d ds Hd _ IH]; [done|]. cbn [map]. rewrite plain_cons, IH.
  destruct (hexchar_facts d Hd) as (_ & _ & -> & _). done.
Qed.

Lemma span_hexchars ds r : Forall nibble ds -> head r ≫= hexdigit = None ->
  span_digits hexdigit (map hexchar ds ++ r) = (ds, r).
Proof.
  intros Hds Hr. induction Hds as [|d ds Hd _ IH]; cbn [map app span_digits].
  - destruct r as [|c r]; [done|]. cbn in *. by rewrite Hr.
  - destruct (hexchar_facts d Hd) as (-> & _). by rewrite IH.
Qed.

(** [%x] reads back the digits of a number. *)
Lemma scan_x_digits ds r : Forall nibble ds -> ds <> [] -> digits_value 16 ds <= 0xffffffff ->
  scan_x (map hexchar ds ++ 32 :: r) = Some (digits_value 16 ds, 32 :: r).
Proof.
  intros Hds Hne Hv. pose proof (span_hexchars ds (32 :: r) Hds eq_refl) as Hsp. unfold scan_x.
  destruct ds as [|d ds]; [done|]. apply list.Forall_cons in Hds as [Hd Hds].
  destruct (hexchar_facts d Hd) as (Hh & _ & _ & _ & H1 & H2 & H3). cbn [map app] in *.
  rewrite skip_spaces_stop by done. cbn [scan_sign].
  destruct (Z.eqb_spec (hexchar d) 45), (Z.eqb_spec (hexchar d) 43); try done.
  assert (E : match map hexchar ds ++ 32 :: r with
              | x :: l' => if (hexchar d =? 48) && (lower x =? 120) then l' else hexchar d :: map hexchar ds ++ 32 :: r
              | [] => hexchar d :: map hexchar ds ++ 32 :: r
              end = hexchar d :: map hexchar ds ++ 32 :: r).
  { destruct ds as [|e ds]; cbn [map app].
    - change (lower 32 =? 120) with false. by rewrite andb_false_r.
    - apply list.Forall_cons in Hds as [He _]. destruct (hexchar_facts e He) as (_ & _ & _ & Hx & _).
      destruct (Z.eqb_spec (lower (hexchar e)) 120); [done|]. by rewrite andb_false_r. }
  rewrite E, Hsp. by rewrite Z.min_l.
Qed.

Lemma scan_0x_digits ws n v r : spaces ws = true -> n <> O -> Z.of_nat n <= 8 -> 0 <= v < 16 ^ Z.of_nat n ->
  scan_0x (ws ++ 48 :: 120 :: hexdigits n v ++ 32 :: r) = Some (v, 32 :: r).
Proof.
  intros Hws Hn Hn8 Hv. unfold scan_0x. rewrite skip_spaces_app, skip_spaces_stop by done. cbn [Z.eqb Pos.eqb andb].
  rewrite hexdigits_map. rewrite scan_x_digits.
  - by rewrite nibbles_value.
  - apply nibbles_ok.
  - destruct n; [done|]. cbn. by destruct (nibbles n _).
  - rewrite nibbles_value by done.
    pose proof (Z.pow_le_mono_r 16 (Z.of_nat n) 8 ltac:(lia) Hn8). change (16 ^ 8) with (2 ^ 32) in *. lia.
Qed.


(** ** Values in hexadecimal *)

Lemma spaces_scan l : spaces l = true -> skip_spaces l = [].
Proof. induction l as [|c l IH]; [done|]. cbn. by intros [-> H]%andb_true_iff; auto. Qed.

Lemma hex_numbers_end n refcon l : spaces l = true -> hex_numbers n refcon l = [].
Proof. intros H. destruct n; [done|]. cbn [hex_numbers]. unfold scan_0x, scan_d. by rewrite spaces_scan. Qed.

Lemma hex_numbers_step k refcon ws n v r : spaces ws = true -> n <> O -> Z.of_nat n <= 8 -> 0 <= v < 16 ^ Z.of_nat n ->
  hex_numbers (S k) refcon (ws ++ str "0x" ++ hexdigits n v ++ 32 :: r) =
  (if refcon =? 1 then [v .& 0xff] else be_bytes 4 v) ++ hex_numbers k refcon (32 :: r).
Proof.
  intros. cbn [hex_numbers]. change (str "0x" ++ hexdigits n v ++ 32 :: r) with (48 :: 120 :: hexdigits n v ++ 32 :: r).
  by rewrite scan_0x_digits.
Qed.

(** The line breaks between numbers *)
Lemma break_spaces (b : bool) ind : spaces (if b then 10 :: indprint ind [] else []) = true.
Proof. destruct b; [|done]. cbn. unfold indprint. rewrite spaces_app, spaces_replicate. done. Qed.

Lemma bytes_value4 l : FileIO.bytes_ok l -> length l = 4%nat -> 0 <= be_value l < 16 ^ 8.
Proof.
  intros Hl Hn. destruct l as [|a [|b [|c [|d [|]]]]]; try done. repeat apply list.Forall_cons in Hl as [? Hl].
  unfold be_value. cbn [fold_left]. change (16 ^ 8) with 4294967296. lia.
Qed.

Lemma print_words_read n : forall k ws len ind i v, FileIO.bytes_ok v -> length v = (4 * n)%nat -> (n < k)%nat -> spaces ws = true ->
  hex_numbers k 4 (ws ++ print_words n len ind i v ++ [32]) = v.
Proof.
  induction n as [|n IH]; intros k ws len ind i v Hv Hl Hk Hws.
  - destruct v; [|done]. cbn [print_words app]. apply hex_numbers_end. by rewrite spaces_app, Hws.
  - destruct k as [|k]; [lia|]. cbn [print_words].
    assert (Hv4 : FileIO.bytes_ok (take 4 v)) by by apply Forall_take.
    assert (Hl4 : length (take 4 v) = 4%nat) by (rewrite length_take; lia).
    rewrite <- !app_assoc. cbn [app]. rewrite app_assoc.
    rewrite hex_numbers_step; [|by rewrite spaces_app, Hws, break_spaces|done|lia|by apply bytes_value4].
    change (4 =? 1) with false. cbn iota. rewrite <- Hl4 at 1. rewrite Memory.be_bytes_of_value by done.
    change (32 :: print_words n len ind (i + 4) (drop 4 v) ++ [32])
      with ([32] ++ print_words n len ind (i + 4) (drop 4 v) ++ [32]).
    rewrite IH; [apply take_drop|by apply Forall_drop|rewrite length_drop; lia|lia|done].
Qed.

Lemma print_bytes_read v : forall k ws len ind i, FileIO.bytes_ok v -> (length v < k)%nat -> spaces ws = true ->
  hex_numbers k 1 (ws ++ print_bytes len ind i v ++ [32]) = v.
Proof.
  induction v as [|b v IH]; intros k ws len ind i Hv Hk Hws.
  - cbn [print_bytes app]. apply hex_numbers_end. by rewrite spaces_app, Hws.
  - destruct k as [|k]; [lia|]. cbn [print_bytes]. apply list.Forall_cons in Hv as [Hb Hv].
    rewrite <- !app_assoc. cbn [app]. rewrite app_assoc.
    rewrite hex_numbers_step; [|by rewrite spaces_app, Hws, break_spaces|done|lia|cbn; lia].
    change (1 =? 1) with true. cbn iota.
    change (32 :: print_bytes len ind (i + 1) v ++ [32]) with ([32] ++ print_bytes len ind (i + 1) v ++ [32]).
    cbn [length] in Hk. rewrite IH by (done || lia). cbn. f_equal. change 0xff with (2 ^ 8 - 1).
    rewrite land_ones_mod by lia. by apply Z.mod_small.
Qed.

Lemma hexdigits_plain n v : plain (hexdigits n v) = true.
Proof. rewrite hexdigits_map. apply hexchars_plain, nibbles_ok. Qed.

Lemma print_words_plain n : forall len ind i v, plain (print_words n len ind i v) = true.
Proof.
  induction n as [|n IH]; intros len ind i v; [done|]. cbn [print_words].
  rewrite !plain_app, plain_cons, IH, hexdigits_plain, (spaces_plain _ (break_spaces _ ind)). done.
Qed.

Lemma print_bytes_plain v : forall len ind i, plain (print_bytes len ind i v) = true.
Proof.
  induction v as [|b v IH]; intros len ind i; [done|]. cbn [print_bytes].
  rewrite !plain_app, plain_cons, IH, hexdigits_plain, (spaces_plain _ (break_spaces _ ind)). done.
Qed.

Lemma print_words_length n : forall len ind i v, (n <= length (print_words n len ind i v))%nat.
Proof.
  induction n as [|n IH]; intros len ind i v; [cbn; lia|]. cbn [print_words]. rewrite !length_app. cbn [length].
  specialize (IH len ind (i + 4) (drop 4 v)). lia.
Qed.

Lemma print_bytes_length v : forall len ind i, (length v <= length (print_bytes len ind i v))%nat.
Proof.
  induction v as [|b v IH]; intros len ind i; [cbn; lia|]. cbn [print_bytes]. rewrite !length_app. cbn [length].
  specialize (IH len ind (i + 1)). lia.
Qed.

Lemma hex_format_plain l refcon : plain l = true -> hex_format l refcon = hex_numbers (S (length l)) refcon l.
Proof. intros H. unfold hex_format. by rewrite strsep_none by by apply plain_not. Qed.

(** ** Strings *)

Lemma string_chars_spaces ws l : spaces ws = true -> string_chars false (ws ++ l) = string_chars false l.
Proof.
  induction ws as [|c ws IH]; [done|]. cbn. intros [Hc H]%andb_true_iff. unfold isspace in Hc.
  destruct (Z.eqb_spec c 34), (Z.eqb_spec c 44); try lia. by apply IH.
Qed.

Lemma string_chars_on s l : 34 ∉ s -> string_chars true (s ++ 34 :: l) = s ++ string_chars false l.
Proof.
  induction s as [|c s IH]; [done|]. intros [H1 H2]%not_elem_of_cons. cbn.
  destruct (Z.eqb_spec c 34); [congruence|]. by rewrite IH.
Qed.

Lemma print_strings_read len ind ss : Forall (fun s => 34 ∉ s) ss ->
  string_chars false (print_strings len ind false ss ++ [32]) = flat_map (cons 0) ss.
Proof.
  induction 1 as [|s ss Hs _ IH]; [done|]. cbn [print_strings flat_map].
  rewrite <- app_assoc. change (str ", ") with [44; 32]. cbn [app string_chars Z.eqb Pos.eqb]. cbn iota. f_equal.
  rewrite <- app_assoc, string_chars_spaces by apply break_spaces. cbn [app string_chars Z.eqb Pos.eqb negb]. cbn iota.
  rewrite <- app_assoc. cbn [app]. by rewrite string_chars_on, IH.
Qed.

Lemma print_first_read len ind s ss : 34 ∉ s -> Forall (fun s => 34 ∉ s) ss ->
  string_chars false (print_strings len ind true (s :: ss) ++ [32]) ++ [0] = flat_map (fun s => s ++ [0]) (s :: ss).
Proof.
  intros Hs Hss. cbn [print_strings flat_map app].
  rewrite <- app_assoc, string_chars_spaces by apply break_spaces. cbn [app string_chars Z.eqb Pos.eqb negb]. cbn iota.
  rewrite <- app_assoc. cbn [app]. rewrite string_chars_on, print_strings_read by done.
  rewrite <- !app_assoc. f_equal. clear. induction ss as [|s ss IH]; [done|]. cbn [flat_map app].
  rewrite <- !app_assoc in *. cbn in *. by rewrite <- IH.
Qed.

Lemma cstrings_join v : list.last v = Some 0 -> flat_map (fun s => s ++ [0]) (cstrings v) = v.
Proof.
  induction v as [|c v IH]; [done|]. intros Hl. cbn [cstrings]. destruct (Z.eqb_spec c 0) as [->|Hc].
  - cbn [flat_map app]. f_equal. destruct v; [done|]. by apply IH.
  - destruct v as [|d v]; [cbn in Hl; congruence|]. specialize (IH Hl). destruct (cstrings (d :: v)) as [|s r]; [done|].
    cbn [flat_map app] in *. by f_equal.
Qed.

Lemma cstrings_chars (P : Z -> Prop) v : Forall (fun c => c <> 0 -> P c) v -> Forall (Forall P) (cstrings v).
Proof.
  induction 1 as [|c v Hc _ IH]; [constructor|]. cbn [cstrings]. destruct (Z.eqb_spec c 0) as [|H0]; [by constructor|].
  specialize (Hc H0). destruct (cstrings v) as [|s r]; [by repeat constructor|]. apply list.Forall_cons in IH as [Hs Hr].
  by repeat constructor.
Qed.

Lemma cstrings_nonempty v : v <> [] -> cstrings v <> [].
Proof. destruct v as [|c v]; [done|]. intros _. cbn. destruct (c =? 0); [done|]. by destruct (cstrings v). Qed.

Lemma print_strings_plain len ind b ss : Forall (fun s => plain s = true) ss -> plain (print_strings len ind b ss) = true.
Proof.
  intros H. revert b. induction H as [|s ss Hs _ IH]; intros b; [done|]. cbn [print_strings].
  rewrite !plain_app, plain_cons, plain_app, plain_cons, Hs, IH, (spaces_plain _ (break_spaces _ ind)). by destruct b.
Qed.


(** ** Expressions of a node *)

Inductive item := IUnit (u : bytes) | IPhandle (v : Z) | IProp (pr : property).

(** A value as printed, without the closing parenthesis *)
Definition value_text (ind : Z) (v : bytes) : bytes :=
  let len := Z.of_nat (length v) in
  let ind := ind + INDENT_VALUE in
  if bool_decide (v = []) then []
  else if is_text v then str "<str>  " ++ 9 :: print_strings len ind true (cstrings v) ++ [32]
  else if len mod 4 =? 0 then str "<word> " ++ 9 :: print_words (length v / 4) len ind 0 v ++ [32]
  else str "<byte> " ++ 9 :: print_bytes len ind 0 v ++ [32].

Definition item_key (i : item) : bytes :=
  match i with IUnit _ => str "unit_string" | IPhandle _ => str "mol_phandle" | IProp _ => str "property" end.
Definition item_data (ind : Z) (i : item) : bytes :=
  match i with
  | IUnit u => 32 :: u ++ [32]
  | IPhandle v => 32 :: 48 :: 120 :: hexdigits 8 v ++ [32]
  | IProp pr => 32 :: p_name pr ++ replicate (18 - length (p_name pr)) 32 ++ 32 :: value_text ind (p_value pr)
  end.
Definition expr (ind : Z) (i : item) : bytes := indprint ind (40 :: item_key i ++ item_data ind i ++ [41; 10]).

Definition items (nd : dnode) : list item :=
  (match unit_string nd with Some (c :: u) => [IUnit (c :: u)] | _ => [] end)
  ++ (if PHANDLE_BASE <? node nd then [IPhandle (node nd)] else [])
  ++ map IProp (filter (fun pr => dropped pr = false) (properties nd)).

Lemma print_value_text ind v : print_value ind v = value_text ind v ++ [41; 10].
Proof.
  unfold print_value, value_text. destruct (bool_decide (v = [])); [done|].
  destruct (is_text v); [|destruct (_ =? 0)]; rewrite <- app_assoc; f_equal; cbn [app]; f_equal; by rewrite <- app_assoc.
Qed.

Lemma export_body_items ind nd : export_body ind nd = flat_map (expr ind) (items nd).
Proof.
  unfold export_body, items. rewrite !flat_map_app. f_equal; [|f_equal].
  - destruct (unit_string nd) as [[|c u]|]; try done. cbn [flat_map]. rewrite app_nil_r. unfold expr. cbn.
    by rewrite <- app_assoc.
  - destruct (PHANDLE_BASE <? node nd); [|done]. cbn [flat_map]. rewrite app_nil_r. reflexivity.
  - induction (properties nd) as [|pr ps IH]; [done|]. cbn [flat_map]. rewrite IH. unfold export_property at 1.
    destruct (dropped pr) eqn:E.
    + by rewrite filter_cons_False by congruence.
    + rewrite filter_cons_True by done. cbn [map flat_map]. f_equal. rewrite print_value_text. unfold expr, pad, indprint.
      rewrite <- !app_assoc. f_equal. cbn [item_key item_data].
      change (str "(property ") with (40 :: str "property" ++ [32]). cbn [app]. f_equal. by rewrite <- !app_assoc.
Qed.

(** What the text form can carry *)
Definition item_ok (i : item) : Prop :=
  match i with
  | IUnit u => word u = true /\ (length u <= 99)%nat
  | IPhandle v => PHANDLE_BASE < v < 2 ^ 32
  | IProp pr => word (p_name pr) = true /\ (length (p_name pr) <= 99)%nat /\ (62 ∉ p_name pr) /\
      FileIO.bytes_ok (p_value pr) /\ (is_text (p_value pr) = true -> plain_text (p_value pr) = true /\ (34 ∉ p_value pr))
  end.

(** The data of a value behind the name of its format *)
Lemma value_forms ind v : FileIO.bytes_ok v -> (is_text v = true -> plain_text v = true /\ (34 ∉ v)) ->
  (v = [] /\ value_text ind v = []) \/
  exists fmt proc refcon data i, value_text ind v = (60 :: fmt ++ [62]) ++ 32 :: data /\ plain data = true /\
    word (60 :: fmt ++ [62]) = true /\ (62 ∉ 60 :: fmt) /\ (length fmt <= 4)%nat /\
    list_find (fun e => e.1.1 = 60 :: fmt ++ [62]) format_table = Some (i, (60 :: fmt ++ [62], proc, refcon)) /\
    proc (32 :: data) refcon = v.
Proof.
  intros Hv Ht. unfold value_text. destruct (bool_decide_reflect (v = [])) as [|Hne]; [by left|]. right.
  destruct (is_text v) eqn:Et; [|destruct (_ mod 4 =? 0) eqn:E4].
  - destruct (Ht eq_refl) as [Hp Hq]. apply andb_true_iff in Et as [_ Hl%bool_decide_eq_true].
    assert (Hpl : Forall (fun c => c <> 0 -> plain_char c = true) v).
    { apply list.Forall_forall. intros c Hc H0. apply list_elem_of_In in Hc. unfold plain_text in Hp.
      rewrite forallb_forall in Hp. specialize (Hp c Hc). destruct (Z.eqb_spec c 0); done. }
    assert (Hql : Forall (fun c => c <> 0 -> c <> 34) v) by (apply list.Forall_forall; intros c Hc _ ->; done).
    apply cstrings_chars in Hpl, Hql.
    exists (str "str"), string_format, 0, (32 :: 9 :: print_strings (Z.of_nat (length v)) (ind + INDENT_VALUE) true (cstrings v) ++ [32]), 2%nat.
    split_and!; [reflexivity| |reflexivity|by apply not_in_dec|by vm_compute; lia|reflexivity|].
    + rewrite !plain_cons, plain_app. cbn. rewrite andb_true_r. apply print_strings_plain.
      eapply list.Forall_impl; [exact Hpl|]. intros s Hs. apply forallb_forall. intros c Hc. rewrite list.Forall_forall in Hs.
      apply Hs. by apply list_elem_of_In.
    + unfold string_format. pose proof (cstrings_join v Hl) as Hj. destruct (cstrings v) as [|s ss] eqn:Es; [by destruct (cstrings_nonempty v)|].
      assert (Hqs : Forall (fun s => 34 ∉ s) (s :: ss)).
      { eapply list.Forall_impl; [exact Hql|]. intros x Hx Hin. rewrite list.Forall_forall in Hx. by apply (Hx 34). }
      apply list.Forall_cons in Hqs as [Hs Hss].
      change (string_chars false (32 :: 32 :: 9 :: print_strings (Z.of_nat (length v)) (ind + INDENT_VALUE) true (s :: ss) ++ [32]))
        with (string_chars false (print_strings (Z.of_nat (length v)) (ind + INDENT_VALUE) true (s :: ss) ++ [32])).
      by rewrite print_first_read.
  - apply Z.eqb_eq in E4. set (n := (length v / 4)%nat).
    assert (Hn : length v = (4 * n)%nat).
    { subst n. pose proof (Nat.div_mod_eq (length v) 4).
      assert ((length v mod 4 = 0)%nat) by (apply Nat2Z.inj; rewrite Nat2Z.inj_mod; exact E4). lia. }
    exists (str "word"), hex_format, 4, (9 :: print_words n (Z.of_nat (length v)) (ind + INDENT_VALUE) 0 v ++ [32]), 1%nat.
    assert (Hpl : plain (9 :: print_words n (Z.of_nat (length v)) (ind + INDENT_VALUE) 0 v ++ [32]) = true)
      by (rewrite plain_cons, plain_app, print_words_plain; done).
    split_and!; [reflexivity|exact Hpl|reflexivity|by apply not_in_dec|by vm_compute; lia|reflexivity|].
    rewrite hex_format_plain by (rewrite plain_cons, Hpl; done).
    apply (print_words_read n _ [32; 9]); [done..| |done]. cbn [length app]. rewrite length_app.
    pose proof (print_words_length n (Z.of_nat (length v)) (ind + INDENT_VALUE) 0 v). lia.
  - exists (str "byte"), hex_format, 1, (9 :: print_bytes (Z.of_nat (length v)) (ind + INDENT_VALUE) 0 v ++ [32]), 0%nat.
    assert (Hpl : plain (9 :: print_bytes (Z.of_nat (length v)) (ind + INDENT_VALUE) 0 v ++ [32]) = true)
      by (rewrite plain_cons, plain_app, print_bytes_plain; done).
    split_and!; [reflexivity|exact Hpl|reflexivity|by apply not_in_dec|by vm_compute; lia|reflexivity|].
    rewrite hex_format_plain by (rewrite plain_cons, Hpl; done).
    apply (print_bytes_read v _ [32; 9]); [done| |done]. cbn [length app]. rewrite length_app.
    pose proof (print_bytes_length v (Z.of_nat (length v)) (ind + INDENT_VALUE) 0). lia.
Qed.


Lemma word_plain w : word w = true -> plain w = true.
Proof. by intros (_ & _ & H)%word_split. Qed.

Lemma item_plain ind i : item_ok i -> plain (item_key i ++ item_data ind i) = true.
Proof.
  destruct i as [u|v|pr]; cbn [item_ok item_key item_data]; intros Hok.
  - destruct Hok as [Hw _]. rewrite plain_app, plain_cons, plain_app, (word_plain u Hw). done.
  - rewrite plain_app, !plain_cons, plain_app, hexdigits_plain. done.
  - destruct Hok as (Hw & _ & _ & Hv & Ht).
    rewrite plain_app, plain_cons, !plain_app, plain_cons, (word_plain _ Hw), plain_replicate by done.
    destruct (value_forms ind _ Hv Ht) as [[_ ->]|(fmt & proc & refcon & data & k & -> & Hp & Hf & _)]; [done|].
    rewrite (plain_app (60 :: fmt ++ [62])), (plain_cons 32 data), Hp, (word_plain _ Hf). done.
Qed.

Lemma take_app_sub {A} (a b : list A) : take (length (a ++ b) - length b) (a ++ b) = a.
Proof. rewrite length_app, Nat.add_sub. apply take_app_length. Qed.

(** The property that the scanner finds in an expression *)
Definition scan_property (start close : bytes) : property :=
  let '(name, r) := scan_s 99 start in
  Prop_ name (read_value (if bool_decide (name = []) then [] else (scan_s 39 r).1) start close).

Lemma scan_property_item ind pr rest : item_ok (IProp pr) ->
  scan_property (item_data ind (IProp pr) ++ 41 :: 10 :: rest) (41 :: 10 :: rest) = pr.
Proof.
  intros (Hw & Hl & Hgt & Hv & Ht). destruct (word_split _ Hw) as (Hne & Hg & _). cbn [item_data].
  set (sp := replicate (18 - length (p_name pr)) 32). assert (Hsp : spaces sp = true) by apply spaces_replicate.
  assert (Hs62 : 62 ∉ sp) by (intros H%elem_of_replicate; lia).
  set (start := _ ++ 41 :: 10 :: rest).
  assert (Es : start = [32] ++ p_name pr ++ (sp ++ 32 :: value_text ind (p_value pr) ++ 41 :: 10 :: rest)).
  { subst start. cbn [app]. by rewrite <- !app_assoc. }
  assert (Hsp1 : exists sp', sp ++ 32 :: value_text ind (p_value pr) ++ 41 :: 10 :: rest = 32 :: sp' ++ value_text ind (p_value pr) ++ 41 :: 10 :: rest
                 /\ spaces sp' = true /\ (62 ∉ sp')).
  { destruct sp as [|c sp'] eqn:E; [by exists []; split_and!; [..|apply not_elem_of_nil]|].
    assert (c = 32) as -> by (destruct (18 - length (p_name pr))%nat; [done|by injection E]).
    exists (sp' ++ [32]). cbn in Hsp. apply not_elem_of_cons in Hs62 as [_ Hs62]. split_and!.
    - cbn [app]. by rewrite <- app_assoc.
    - rewrite spaces_app. unfold spaces. by rewrite Hsp.
    - rewrite not_elem_of_app. split; [done|by apply not_in_dec]. }
  destruct Hsp1 as (sp' & E' & Hsp' & Hs62'). rewrite E' in Es.
  unfold scan_property. rewrite Es at 1. rewrite (scan_s_word 99 [32]) by done. rewrite bool_decide_false by done.
  destruct (value_forms ind _ Hv Ht) as [[Ev Et]|(fmt & proc & refcon & data & k & Et & Hp & Hf & H62 & Hlen & Hfind & Hproc)].
  - rewrite Et. cbn [app]. change (32 :: sp' ++ 41 :: 10 :: rest) with ((32 :: sp') ++ [41] ++ 10 :: rest).
    rewrite (scan_s_word 39) by (done || (cbn; lia)). destruct pr as [nm v]. cbn [p_value] in Ev. by subst v.
  - rewrite Et in *. destruct (word_split _ Hf) as (Hfne & Hfg & _).
    change (32 :: sp' ++ ((60 :: fmt ++ [62]) ++ 32 :: data) ++ 41 :: 10 :: rest)
      with ((32 :: sp') ++ ((60 :: fmt ++ [62]) ++ 32 :: data) ++ 41 :: 10 :: rest) in *.
    rewrite <- (app_assoc _ (32 :: data)) in *. cbn [app] in Es |- *.
    change (32 :: sp' ++ 60 :: (fmt ++ [62]) ++ 32 :: data ++ 41 :: 10 :: rest)
      with ((32 :: sp') ++ (60 :: fmt ++ [62]) ++ 32 :: (data ++ 41 :: 10 :: rest)) in *.
    rewrite (scan_s_word 39); [|done..|cbn [length]; rewrite length_app; cbn [length]; lia|done].
    cbn [fst]. unfold read_value. rewrite Hfind.
    assert (Esep : strsep 62 start = (32 :: p_name pr ++ 32 :: sp' ++ 60 :: fmt, Some (32 :: data ++ 41 :: 10 :: rest))).
    { rewrite Es. replace (32 :: p_name pr ++ (32 :: sp') ++ (60 :: fmt ++ [62]) ++ 32 :: data ++ 41 :: 10 :: rest)
        with ((32 :: p_name pr ++ 32 :: sp' ++ 60 :: fmt) ++ 62 :: 32 :: data ++ 41 :: 10 :: rest)
        by (repeat (cbn [app]; rewrite <- app_assoc || f_equal); done).
      apply strsep_app. rewrite !not_elem_of_cons, not_elem_of_app, !not_elem_of_cons, not_elem_of_app. auto. }
    rewrite Esep. change (32 :: data ++ 41 :: 10 :: rest) with ((32 :: data) ++ 41 :: 10 :: rest).
    replace (length (41%Z :: 10%Z :: rest) <=? length ((32%Z :: data) ++ 41%Z :: 10%Z :: rest))%nat with true
      by (symmetry; apply Nat.leb_le; rewrite length_app; lia).
    rewrite take_app_sub, Hproc. by destruct pr.
Qed.


(** ** Searching for a key *)

Lemma balance_plain a r : plain a = true -> balance 1 (a ++ 41 :: r) = Some (a, 41 :: r).
Proof.
  induction a as [|c a IH]; [done|]. rewrite plain_cons. intros [Hc Ha]%andb_true_iff. cbn [app balance].
  unfold plain_char in Hc. destruct (Z.eqb_spec c 40), (Z.eqb_spec c 41); try lia. rewrite IH by done. done.
Qed.

(** A line that starts with blanks is no comment. *)
Lemma line_start junk n back : commented (rev (junk ++ 10 :: replicate n 32) ++ back) = false.
Proof.
  rewrite rev_app_distr. cbn [rev]. rewrite <- !app_assoc. cbn [app].
  assert (E : rev (replicate n 32) = replicate n 32).
  { induction n as [|n IH]; [done|]. cbn [replicate rev]. rewrite IH, <- replicate_cons_app. done. }
  rewrite E. induction n as [|n IH]; [done|]. cbn [replicate app commented]. apply IH.
  clear - n. induction n as [|n IH]; [done|]. cbn [replicate rev]. rewrite IH, <- replicate_cons_app. done.
Qed.

Definition keys : list bytes := [str "unit_string"; str "mol_phandle"; str "property"].

Lemma starts_with_key key i x : key ∈ keys -> starts_with key (item_key i ++ x) = bool_decide (item_key i = key).
Proof.
  unfold keys. intros [->|[->|[->|[]%elem_of_nil]%elem_of_cons]%elem_of_cons]%elem_of_cons; by destruct i.
Qed.

Lemma item_first i x : skip_spaces (item_key i ++ x) = item_key i ++ x.
Proof. by destruct i. Qed.

(** The first item with a key, and those after it *)
Fixpoint find_item (key : bytes) (l : list item) : option (item * list item) :=
  match l with
  | [] => None
  | i :: l' => if bool_decide (item_key i = key) then Some (i, l') else find_item key l'
  end.

(** The text of expressions, from the end of a line on *)
Definition exprs (ind : Z) (l : list item) (tail : bytes) : bytes := 10 :: flat_map (expr ind) l ++ tail.

Lemma exprs_cons ind i l tail :
  exprs ind (i :: l) tail = (10 :: replicate (Z.to_nat ind) 32) ++ 40 :: (item_key i ++ item_data ind i) ++ 41 :: exprs ind l tail.
Proof.
  unfold exprs. cbn [flat_map]. unfold expr at 1, indprint. cbn [app]. f_equal. rewrite <- !app_assoc. cbn [app].
  do 2 f_equal. by rewrite <- !app_assoc.
Qed.

Lemma find_key_items ind key tail : key ∈ keys -> plain tail = true -> forall l n back junk,
  Forall item_ok l -> (40 ∉ junk) -> (length l < n)%nat ->
  find_key n back (junk ++ exprs ind l tail) key =
    '(i, l') ← find_item key l; Some (item_data ind i ++ 41 :: exprs ind l' tail, 41 :: exprs ind l' tail).
Proof.
  intros Hk Ht. induction l as [|i l IH]; intros n back junk Hok Hj Hn; (destruct n as [|n]; [cbn in Hn; lia|]).
  - cbn [find_key]. rewrite strsep_none; [done|]. unfold exprs. cbn [flat_map app].
    rewrite not_elem_of_app, not_elem_of_cons. split_and!; [done|done|by apply plain_not].
  - apply list.Forall_cons in Hok as [Hi Hok]. rewrite exprs_cons. cbn [find_key]. rewrite app_assoc.
    rewrite strsep_app.
    2: { rewrite not_elem_of_app, not_elem_of_cons. split_and!; [done|done|]. intros H%elem_of_replicate. lia. }
    rewrite line_start. cbn [negb andb]. rewrite <- app_assoc, item_first, starts_with_key by done.
    rewrite app_assoc, balance_plain by by apply item_plain. cbn [mbind option_bind find_item].
    case_bool_decide as E.
    + subst key. cbn [mbind option_bind]. do 2 f_equal. rewrite <- app_assoc. apply drop_app_length.
    + cbn [length] in Hn. apply (IH n _ [41]); [done|by apply not_in_dec|lia].
Qed.

Lemma exprs_length ind l tail : (length l < length (exprs ind l tail))%nat.
Proof.
  unfold exprs. cbn [length]. rewrite length_app. induction l as [|i l IH]; [cbn; lia|]. cbn [flat_map].
  rewrite length_app. unfold expr at 1, indprint. rewrite length_app. cbn [length]. rewrite !length_app. cbn [length]. lia.
Qed.

Lemma findkey_items ind key tail l junk : key ∈ keys -> plain tail = true -> Forall item_ok l -> (40 ∉ junk) ->
  findkey (junk ++ exprs ind l tail) key =
    '(i, l') ← find_item key l; Some (item_data ind i ++ 41 :: exprs ind l' tail, 41 :: exprs ind l' tail).
Proof.
  intros. unfold findkey. apply find_key_items; try done. rewrite length_app. pose proof (exprs_length ind l tail). lia.
Qed.

(** ** Building a node *)

Lemma build_step n buf : build_properties (S n) buf =
  match findkey buf (str "property") with
  | None => []
  | Some (start, close) => scan_property start close :: build_properties n close
  end.
Proof.
  cbn [build_properties]. destruct (findkey buf _) as [[start close]|]; [|done]. unfold scan_property.
  destruct (scan_s 99 start) as [nm r]. done.
Qed.

Definition item_props (l : list item) : list property :=
  flat_map (fun i => match i with IProp pr => [pr] | _ => [] end) l.

Lemma build_items ind tail : plain tail = true -> forall l n junk,
  Forall item_ok l -> (40 ∉ junk) -> (length l < n)%nat ->
  build_properties n (junk ++ exprs ind l tail) = item_props l.
Proof.
  intros Ht. induction l as [|i l IH]; intros n junk Hok Hj Hn; (destruct n as [|n]; [cbn in Hn; lia|]).
  - rewrite build_step, (findkey_items ind) by (done || by right; right; left). done.
  - apply list.Forall_cons in Hok as [Hi Hok]. cbn [length] in Hn.
    assert (Hlast : str "property" ∈ keys) by (right; right; left).
    destruct i as [u|v|pr].
    + change (item_props (IUnit u :: l)) with (item_props l). rewrite <- (IH (S n) junk Hok Hj ltac:(lia)).
      rewrite !build_step, !(findkey_items ind) by (done || by constructor). done.
    + change (item_props (IPhandle v :: l)) with (item_props l). rewrite <- (IH (S n) junk Hok Hj ltac:(lia)).
      rewrite !build_step, !(findkey_items ind) by (done || by constructor). done.
    + rewrite build_step, (findkey_items ind) by (done || by constructor).
      cbn [find_item item_key]. rewrite bool_decide_true by done. cbn [mbind option_bind].
      change (item_props (IProp pr :: l)) with (pr :: item_props l). f_equal.
      * unfold exprs at 1 2. by apply scan_property_item.
      * apply (IH n [41]); [done|by apply not_in_dec|lia].
Qed.


(** What a node shows in the text *)
Definition shown_unit (nd : dnode) : option bytes :=
  match unit_string nd with Some (c :: u) => Some (c :: u) | _ => None end.
Definition shown_phandle (nd : dnode) : option Z := if PHANDLE_BASE <? node nd then Some (node nd) else None.
Definition shown_props (nd : dnode) : list property := filter (fun pr => dropped pr = false) (properties nd).

Lemma find_item_props key ps : key <> str "property" -> find_item key (map IProp ps) = None.
Proof. intros H. induction ps as [|pr ps IH]; [done|]. cbn [map find_item item_key]. by rewrite bool_decide_false. Qed.

Lemma items_unit nd : match find_item (str "unit_string") (items nd) with
                      | Some (IUnit u, _) => shown_unit nd = Some u
                      | Some _ => False
                      | None => shown_unit nd = None
                      end.
Proof.
  unfold items, shown_unit. destruct (unit_string nd) as [[|c u]|]; cbn [app find_item]; [|done|];
    (destruct (PHANDLE_BASE <? node nd); cbn [app find_item item_key]; [rewrite bool_decide_false by done|];
     by rewrite find_item_props).
Qed.

Lemma items_phandle nd : match find_item (str "mol_phandle") (items nd) with
                         | Some (IPhandle v, _) => shown_phandle nd = Some v
                         | Some _ => False
                         | None => shown_phandle nd = None
                         end.
Proof.
  assert (H : match find_item (str "mol_phandle") ((if PHANDLE_BASE <? node nd then [IPhandle (node nd)] else []) ++
                map IProp (shown_props nd)) with
              | Some (IPhandle v, _) => shown_phandle nd = Some v
              | Some _ => False
              | None => shown_phandle nd = None
              end).
  { unfold shown_phandle. destruct (PHANDLE_BASE <? node nd); [done|]. cbn [app]. by rewrite find_item_props. }
  unfold items. destruct (unit_string nd) as [[|c u]|]; exact H.
Qed.

Lemma items_props nd : item_props (items nd) = shown_props nd.
Proof.
  unfold items, item_props. rewrite !flat_map_app.
  replace (flat_map _ (match unit_string nd with Some (c :: u) => [IUnit (c :: u)] | _ => [] end)) with (@nil property)
    by by destruct (unit_string nd) as [[|c u]|].
  replace (flat_map _ (if PHANDLE_BASE <? node nd then [IPhandle (node nd)] else [])) with (@nil property)
    by by destruct (PHANDLE_BASE <? node nd).
  cbn [app]. fold (shown_props nd). induction (shown_props nd) as [|pr ps IH]; [done|]. cbn. by rewrite IH.
Qed.

Lemma find_item_ok key l i l' : Forall item_ok l -> find_item key l = Some (i, l') -> item_ok i.
Proof.
  induction 1 as [|j l Hj _ IH]; [done|]. cbn [find_item]. case_bool_decide; [by intros [= <- _]|done].
Qed.

Lemma scan_phandle v r : 0 <= v < 2 ^ 32 -> scan_x (32 :: 48 :: 120 :: hexdigits 8 v ++ 32 :: r) = Some (v, 32 :: r).
Proof.
  intros Hv. rewrite hexdigits_map. unfold scan_x. change (32 :: 48 :: 120 :: map hexchar (nibbles 8 v) ++ 32 :: r)
    with ([32] ++ 48 :: 120 :: map hexchar (nibbles 8 v) ++ 32 :: r).
  rewrite skip_spaces_app, skip_spaces_stop by done. cbn [scan_sign Z.eqb Pos.eqb andb]. change (lower 120) with 120.
  cbn [Z.eqb Pos.eqb]. cbn iota. rewrite span_hexchars by (done || apply nibbles_ok).
  destruct (nibbles 8 v) as [|d ds] eqn:E; [by apply (f_equal length) in E; rewrite nibbles_length in E|].
  rewrite <- E, nibbles_value by done. by rewrite Z.min_l by lia.
Qed.

Lemma findkey_exprs ind key tail l : key ∈ keys -> plain tail = true -> Forall item_ok l ->
  findkey (exprs ind l tail) key =
    '(i, l') ← find_item key l; Some (item_data ind i ++ 41 :: exprs ind l' tail, 41 :: exprs ind l' tail).
Proof. intros. apply (findkey_items ind key tail l []); try done. apply not_elem_of_nil. Qed.

(** What is read back of the unit string and of the phandle *)
Lemma read_unit ind nd tail : Forall item_ok (items nd) -> plain tail = true ->
  match findkey (exprs ind (items nd) tail) (str "unit_string") with
  | Some (start, _) => Some (scan_s 99 start).1
  | None => None
  end = shown_unit nd.
Proof.
  intros Hok Ht. rewrite findkey_exprs by (done || by left).
  pose proof (items_unit nd) as Hu. destruct (find_item _ (items nd)) as [[i l]|] eqn:E; [|done].
  apply (find_item_ok _ _ _ _ Hok) in E as Hi. destruct i as [u|v|pr]; try done. destruct Hi as [Hw Hl].
  destruct (word_split _ Hw) as (Hne & Hg & _). cbn [mbind option_bind item_data]. rewrite Hu.
  change (32 :: u ++ [32]) with ([32] ++ u ++ [32]). rewrite <- (app_assoc [32]), <- (app_assoc u).
  change ([32] ++ 41 :: exprs ind l tail) with (32 :: 41 :: exprs ind l tail). by rewrite scan_s_word.
Qed.

Lemma read_phandle ind nd tail : Forall item_ok (items nd) -> plain tail = true ->
  match findkey (exprs ind (items nd) tail) (str "mol_phandle") with
  | Some (start, _) => let v := match scan_x start with Some (v, _) => v | None => 0 end in
                       if v <? PHANDLE_BASE then 0 else v
  | None => 0
  end = default 0 (shown_phandle nd).
Proof.
  intros Hok Ht. rewrite findkey_exprs by (done || by (right; left)).
  pose proof (items_phandle nd) as Hp. destruct (find_item _ (items nd)) as [[i l]|] eqn:E; [|by rewrite Hp].
  apply (find_item_ok _ _ _ _ Hok) in E as Hi. destruct i as [u|v|pr]; try done. cbn [item_ok] in Hi.
  cbn [mbind option_bind item_data]. rewrite Hp.
  change ((32 :: 48 :: 120 :: hexdigits 8 v ++ [32]) ++ 41 :: exprs ind l tail)
    with (32 :: 48 :: 120 :: (hexdigits 8 v ++ [32]) ++ 41 :: exprs ind l tail).
  rewrite <- app_assoc. cbn [app]. rewrite scan_phandle by (unfold PHANDLE_BASE in *; lia).
  cbv zeta. destruct (Z.ltb_spec v PHANDLE_BASE); [lia|done].
Qed.

(** The node built from what has been printed of another *)
Lemma build_node_items ind nd tail t : Forall item_ok (items nd) -> plain tail = true ->
  build_node (exprs ind (items nd) tail) t =
  (fresh t, Tree (<[fresh t := Node (default (next_phandle t) (shown_phandle nd)) (shown_props nd)
                     None None None None None (shown_unit nd)]> (nodes t)) (root t) (all t)
              (match shown_phandle nd with Some _ => next_phandle t | None => next_phandle t + 1 end) (fresh t + 1)).
Proof.
  intros Hok Ht. unfold build_node. rewrite read_unit, read_phandle by done.
  pose proof (build_items ind tail Ht (items nd) (S (length (exprs ind (items nd) tail))) []) as Eb. cbn [app] in Eb.
  rewrite Eb; [|done|apply not_elem_of_nil|pose proof (exprs_length ind (items nd) tail); lia]. rewrite items_props.
  assert (Hv : match shown_phandle nd with Some v => v <> 0 | None => True end).
  { unfold shown_phandle. destruct (Z.ltb_spec PHANDLE_BASE (node nd)); [|done]. unfold PHANDLE_BASE in *. lia. }
  destruct (shown_phandle nd) as [v|]; [|reflexivity]. change (default 0 (Some v)) with v. by destruct (Z.eqb_spec v 0).
Qed.

End OfTextInv.
