(* ===== verification/OfTextRound.v ===== *)
(** * The device tree written and read back

    A tree exported to text and imported again has the same nodes, unit
    strings, visible phandles and properties, in the same places. *)

From Stdlib Require Import String Ascii.
From S2P Require Import Prelude FileIO Memory Oftree OftreeInv OftreePath OfText OfTextInv.

Module OfTextRound.
Export OfTextInv.

#[global] Close Scope string_scope.
Abbreviation length := Datatypes.length.
Abbreviation bytes := (list Z) (only parsing).

(** ** Documents

    What the text shows of a tree *)
#[warnings="-register-all"]
Inductive doc := Doc (d_phandle : option Z) (d_unit : option bytes) (d_props : list property) (d_children : list doc).

Definition node0 : dnode := Node 0 [] None None None None None None.
Definition get (h : gmap Z dnode) (a : Z) : dnode := default node0 (h !! a).

Fixpoint doc_of (h : gmap Z dnode) (r : rose) : doc :=
  match r with
  | Rose p ts => Doc (shown_phandle (get h p)) (shown_unit (get h p)) (shown_props (get h p)) (map (doc_of h) ts)
  end.

Lemma docs_ext h h' ts : (forall p, p ∈ fptrs ts -> h !! p = h' !! p) -> map (doc_of h) ts = map (doc_of h') ts.
Proof.
  assert (Ht : forall r, (forall p, p ∈ ptrs r -> h !! p = h' !! p) -> doc_of h r = doc_of h' r).
  { induction r as [p us IH] using rose_ind'. intros Hx. cbn [doc_of]. unfold get. rewrite (Hx p) by left. f_equal.
    assert (Hu : forall q, q ∈ fptrs us -> h !! q = h' !! q) by (intros q Hq; apply Hx; rewrite ptrs_eq; by right). clear Hx.
    induction IH as [|u us Hu1 _ IHu]; [done|]. cbn [map]. rewrite fptrs_cons in Hu. f_equal.
    - apply Hu1. intros q Hq. apply Hu, elem_of_app. by left.
    - apply IHu. intros q Hq. apply Hu, elem_of_app. by right. }
  induction ts as [|u ts IH]; intros Hx; [done|]. cbn [map]. rewrite fptrs_cons in Hx. f_equal.
  - apply Ht. intros q Hq. apply Hx, elem_of_app. by left.
  - apply IH. intros q Hq. apply Hx, elem_of_app. by right.
Qed.

Lemma forest_ext h h' par ts : (forall p, p ∈ fptrs ts -> h !! p = h' !! p) -> forest h par ts -> forest h' par ts.
Proof.
  induction ts as [|u ts IH]; intros Hx; [done|]. rewrite fptrs_cons in Hx. cbn [forest]. intros [Hr Hf]. split.
  - apply (rep_ext h); [|done]. intros p n Hp Hn. exists n. split; [|done]. rewrite <- Hx; [done|]. apply elem_of_app. by left.
  - apply IH; [|done]. intros p Hp. apply Hx, elem_of_app. by right.
Qed.

(** ** What can be exported *)

(** The names and values of a node hold no parentheses, braces or quotes
    that the scanner would take for its own. *)
Record exportable (t : oftree) (a : Z) : Prop := Exportable {
  ex_name : plain (node_name a t) = true;
  ex_items : forall nd, nodes t !! a = Some nd -> Forall item_ok (items nd)
}.

Lemma ex_unit t a nd u : exportable t a -> nodes t !! a = Some nd -> unit_string nd = Some u -> plain u = true.
Proof.
  intros E Hn Hu. apply (ex_items _ _ E) in Hn. unfold items in Hn. rewrite Hu in Hn.
  destruct u as [|c u]; [done|]. apply list.Forall_cons in Hn as [[Hw _] _]. by apply word_plain.
Qed.

(** ** Full names *)

Lemma full_name_mono len t n m : (n <= m)%nat -> forall a buf b, full_name n a buf len t = Some b -> full_name m a buf len t = Some b.
Proof.
  intros Hnm. revert m Hnm. induction n as [|n IH]; intros m Hnm a buf b; [done|]. destruct m as [|m]; [lia|]. cbn [full_name].
  destruct (nodes t !! a) as [nd|]; [|done]. cbn [mbind option_bind]. destruct (parent nd) as [p|]; [|done].
  destruct (full_name n p buf len t) as [b'|] eqn:E; [|done]. by rewrite (IH m ltac:(lia) _ _ _ E).
Qed.

Lemma plain_take n l : plain l = true -> plain (take n l) = true.
Proof. intros H. rewrite <- (take_drop n l), plain_app in H. by apply andb_true_iff in H as [H _]. Qed.

Lemma plain_strncat len a b : plain a = true -> plain b = true -> plain (strncat0 len a b) = true.
Proof. intros Ha Hb. apply plain_take. by rewrite plain_app, Ha, Hb. Qed.

(** The name of a node below one whose name is known *)
Lemma full_name_step t d a nd b : nodes t !! a = Some nd -> exportable t a ->
  match parent nd with
  | None => b = []
  | Some p => full_name d p [] 256 t = Some b /\ is_Some (nodes t !! p)
  end -> plain b = true -> exists b', full_name (S d) a [] 256 t = Some b' /\ plain b' = true.
Proof.
  intros Hn E Hp Hb. cbn [full_name]. rewrite Hn. cbn [mbind option_bind].
  assert (Hu : forall x, plain x = true -> plain (match unit_string nd with
              | Some u => strncat0 256 (strncat0 256 x (str "@")) u | None => x end) = true).
  { intros x Hx. destruct (unit_string nd) as [u|] eqn:Eu; [|done].
    pose proof (ex_unit _ _ _ _ E Hn Eu). by repeat apply plain_strncat. }
  destruct (parent nd) as [p|].
  - destruct Hp as [-> [pn ->]]. cbn [mbind option_bind]. rewrite bool_decide_true by by eexists.
    eexists. split; [reflexivity|]. apply Hu. apply plain_strncat; [|apply E].
    case_bool_decide; [done|by apply plain_strncat].
  - subst b. cbn [mbind option_bind]. rewrite bool_decide_false by (by intros [? ?]). eexists. split; [reflexivity|]. by apply Hu.
Qed.

Lemma full_name_tree t r : forall par nxt d, rep (nodes t) par r nxt -> (forall a, a ∈ ptrs r -> exportable t a) ->
  match par with
  | None => d = O
  | Some p => exists b, full_name d p [] 256 t = Some b /\ plain b = true /\ is_Some (nodes t !! p)
  end ->
  forall a, a ∈ ptrs r -> exists b, full_name (d + length (ptrs r)) a [] 256 t = Some b /\ plain b = true.
Proof.
  induction r as [p ts IH] using rose_ind'. intros par nxt d. rewrite rep_eq. intros [(nd & Hn & Hp & _) Hf] He Hd.
  assert (Hb : exists b, full_name (S d) p [] 256 t = Some b /\ plain b = true).
  { destruct par as [q|].
    - destruct Hd as (b & Hb & Hpl & Hs). apply (full_name_step t d p nd b); [done|apply He; left|by rewrite Hp|done].
    - apply (full_name_step t d p nd []); [done|apply He; left|by rewrite Hp|done]. }
  intros a. rewrite ptrs_eq. destruct Hb as (b & Hb & Hpl). intros [->|Ha]%elem_of_cons.
  - exists b. split; [|done]. apply (full_name_mono _ _ (S d)); [cbn [length]; lia|done].
  - assert (He' : forall a, a ∈ fptrs ts -> exportable t a) by (intros x Hx; apply He; rewrite ptrs_eq; by right).
    cut (exists b', full_name (S d + length (fptrs ts)) a [] 256 t = Some b' /\ plain b' = true).
    { intros (b' & H1 & H2). exists b'. split; [|done]. cbn [length]. by rewrite Nat.add_succ_r. }
    clear He Hp. induction IH as [|u ts Hu _ IHts]; [by apply elem_of_nil in Ha|]. cbn [forest] in Hf. destruct Hf as [Hr Hf].
    rewrite fptrs_cons, length_app in *. apply elem_of_app in Ha as [Ha|Ha].
    + destruct (Hu (Some p) (first ts) (S d) Hr) with (a := a) as (b' & H1 & H2); [|by exists b|done|].
      { intros x Hx. apply He', elem_of_app. by left. }
      exists b'. split; [|done]. apply (full_name_mono _ _ (S d + length (ptrs u))); [lia|done].
    + destruct IHts as (b' & H1 & H2); [done|done|intros x Hx; apply He', elem_of_app; by right|].
      exists b'. split; [|done]. apply (full_name_mono _ _ (S d + length (fptrs ts))); [lia|done].
Qed.

(** ** The text of a tree *)

Section Text.
Context (t : oftree).

Definition name_text (a : Z) : bytes := default [] (get_full_name a 256 t).

Fixpoint tree_text (ind : Z) (r : rose) : bytes :=
  match r with
  | Rose p ts =>
      export_head ind (name_text p) p t ++ export_body (ind + INDENT_VALUE) (get (nodes t) p)
      ++ (match ts with [] => [] | _ => indprint (ind + INDENT_VALUE) [10] ++ flat_map (tree_text (ind + INDENT_VALUE)) ts end)
      ++ indprint ind (str "}" ++ [10])
  end.
Definition forest_text (ind : Z) (ts : list rose) : bytes := flat_map (tree_text ind) ts.

(** The export prints the text of the tree. *)
Lemma export_forest k : forall ts n par ind, (length (fptrs ts) <= k)%nat -> (length (fptrs ts) <= n)%nat ->
  forest (nodes t) par ts -> (forall a, a ∈ fptrs ts -> is_Some (get_full_name a 256 t)) ->
  export_node n (first ts) ind t = Some (forest_text ind ts).
Proof.
  induction k as [|k IH]; intros ts n par ind Hk Hn Hf Hnames.
  { destruct ts as [|[p us] ts]; [by destruct n|]. rewrite fptrs_cons, ptrs_eq in Hk. cbn in Hk. lia. }
  destruct ts as [|[p us] ts]; [by destruct n|]. rewrite fptrs_cons, ptrs_eq in *. cbn [app length] in *. rewrite length_app in *.
  destruct n as [|n]; [lia|]. cbn [forest] in Hf. destruct Hf as [[(nd & Hnd & _ & Hc & Hs) Hus]%rep_eq Hts].
  rewrite first_cons. cbn [rroot export_node]. rewrite Hnd. cbn [mbind option_bind existsb drop_nodes].
  destruct (Hnames p ltac:(left)) as [full Hfull]. rewrite Hfull. cbn [mbind option_bind].
  assert (Eb : match child nd with
               | Some c => l ← export_node n (Some c) (ind + INDENT_VALUE) t; Some (indprint (ind + INDENT_VALUE) [10] ++ l)
               | None => Some []
               end = Some (match us with [] => [] | _ => indprint (ind + INDENT_VALUE) [10] ++ forest_text (ind + INDENT_VALUE) us end)).
  { rewrite Hc. pose proof (IH us n (Some p) (ind + INDENT_VALUE) ltac:(lia) ltac:(lia) Hus) as E.
    destruct us as [|u us]; [done|]. rewrite first_cons in *. rewrite E; [done|].
    intros a Ha. apply Hnames. right. apply elem_of_app. by left. }
  rewrite Eb. cbn [mbind option_bind]. rewrite Hs, (IH ts n par ind) by
    (lia || done || (intros a Ha; apply Hnames; right; apply elem_of_app; by right)).
  cbn [mbind option_bind forest_text flat_map tree_text]. unfold name_text, get. rewrite Hfull, Hnd. cbn [default].
  rewrite <- !app_assoc. reflexivity.
Qed.

End Text.

(** ** Reading a forest *)

(** What reading the nodes [us] below [par] makes of a state *)
Record grown (t0 t1 : oftree) (us : list rose) (par : option Z) : Prop := Grown {
  gr_fresh : fresh t0 <= fresh t1;
  gr_bound : forall p n, nodes t1 !! p = Some n -> p < fresh t1;
  gr_old : forall p, p < fresh t0 -> nodes t1 !! p = nodes t0 !! p;
  gr_new : forall p, p ∈ fptrs us -> fresh t0 <= p < fresh t1;
  gr_nodup : NoDup (fptrs us);
  gr_forest : forest (nodes t1) par us;
  gr_links : exists xs, xs ≡ₚ fptrs us /\ forall ys, (forall y, y ∈ ys -> y < fresh t0) ->
    links (nodes t0) allnext (all t0) ys -> links (nodes t1) allnext (all t1) (xs ++ ys);
  gr_next : next_phandle t0 <= next_phandle t1 <= next_phandle t0 + Z.of_nat (length (fptrs us));
  gr_root : root t1 = root t0
}.

Lemma grown_nil t par : (forall p n, nodes t !! p = Some n -> p < fresh t) -> grown t t [] par.
Proof.
  intros Hb. constructor; try done; [by intros p ?%elem_of_nil|constructor| |cbn; lia].
  exists []. split; [done|]. by intros ys.
Qed.

(** The state after a node has been built, before its siblings are read *)
Definition push (dn : Z) (t : oftree) : oftree := set_all (Some dn) (upd dn (set_allnext (all t)) t).

Lemma upd_ne p f q (t : oftree) : p <> q -> nodes (upd p f t) !! q = nodes t !! q.
Proof. intros H. by apply lookup_alter_ne. Qed.
Lemma upd_eq p f (t : oftree) : nodes (upd p f t) !! p = f <$> nodes t !! p.
Proof. apply lookup_alter_eq. Qed.

(** A node, its children and its siblings *)
Section Cons.
Context (t0 t1 t2 t4 : oftree) (dn : Z) (nd : dnode) (par : option Z) (cs us : list rose).
Hypothesis bound0 : forall p n, nodes t0 !! p = Some n -> p < fresh t0.
Hypothesis dn_fresh : dn = fresh t0.
Hypothesis t1_nodes : nodes t1 = <[dn := nd]> (nodes t0).
Hypothesis t1_rest : root t1 = root t0 /\ all t1 = all t0 /\ fresh t1 = fresh t0 + 1 /\
  next_phandle t0 <= next_phandle t1 <= next_phandle t0 + 1.
Hypothesis read_kids : grown (upd dn (set_parent par) t1) t2 cs (Some dn).
Let t3 := push dn (upd dn (set_child (first cs)) t2).
Hypothesis read_sibs : grown t3 t4 us par.
Let t5 := upd dn (set_sibling (first us)) t4.

Lemma node_after : nodes t5 !! dn =
  Some (set_sibling (first us) (set_allnext (all t2) (set_child (first cs) (set_parent par nd)))).
Proof.
  destruct t1_rest as (_ & _ & Hf & _). unfold t5. rewrite upd_eq, (gr_old _ _ _ _ read_sibs).
  2: { change (fresh t3) with (fresh t2). pose proof (gr_fresh _ _ _ _ read_kids) as H. cbn in H. lia. }
  unfold t3, push. cbn [nodes set_all]. rewrite !upd_eq, (gr_old _ _ _ _ read_kids) by (cbn; lia).
  by rewrite upd_eq, t1_nodes, lookup_insert_eq.
Qed.

Lemma others_after p : p <> dn -> p < fresh t2 -> nodes t5 !! p = nodes t2 !! p.
Proof.
  intros Hp Hlt. unfold t5. rewrite upd_ne by done. rewrite (gr_old _ _ _ _ read_sibs) by done.
  unfold t3, push. cbn [nodes set_all]. by rewrite !upd_ne.
Qed.

Lemma old_after p : p < fresh t0 -> nodes t5 !! p = nodes t0 !! p.
Proof.
  intros Hp. destruct t1_rest as (_ & _ & Hf & _). pose proof (gr_fresh _ _ _ _ read_kids) as H. cbn in H.
  rewrite others_after by lia. rewrite (gr_old _ _ _ _ read_kids) by (cbn; lia).
  rewrite upd_ne, t1_nodes, lookup_insert_ne by lia. done.
Qed.

Lemma links_after xs1 xs2 ys :
  (forall ys, (forall y, y ∈ ys -> y < fresh t1) -> links (nodes (upd dn (set_parent par) t1)) allnext (all t1) ys ->
     links (nodes t2) allnext (all t2) (xs1 ++ ys)) ->
  (forall ys, (forall y, y ∈ ys -> y < fresh t2) -> links (nodes t3) allnext (Some dn) ys ->
     links (nodes t4) allnext (all t4) (xs2 ++ ys)) ->
  xs1 ≡ₚ fptrs cs -> (forall y, y ∈ ys -> y < fresh t0) -> links (nodes t0) allnext (all t0) ys ->
  links (nodes t5) allnext (all t5) (xs2 ++ dn :: xs1 ++ ys).
Proof.
  intros L1 L2 P1 Hys Hl. destruct t1_rest as (_ & Ha & Hf & _). pose proof (gr_fresh _ _ _ _ read_kids) as Hf2. cbn in Hf2.
  assert (E1 : links (nodes t2) allnext (all t2) (xs1 ++ ys)).
  { apply L1; [intros y Hy; specialize (Hys y Hy); lia|]. rewrite Ha. apply (links_ext (nodes t0)); [|done].
    intros a n Hin Hn. exists n. split; [|done]. specialize (Hys a Hin).
    by rewrite upd_ne, t1_nodes, lookup_insert_ne by lia. }
  assert (Hnew : forall y, y ∈ xs1 ++ ys -> y <> dn /\ y < fresh t2).
  { intros y [Hy|Hy]%elem_of_app.
    - rewrite P1 in Hy. pose proof (gr_new _ _ _ _ read_kids y Hy) as H. cbn in H. lia.
    - specialize (Hys y Hy). lia. }
  apply (links_ext (nodes t4)).
  { intros a n _ Hn. destruct (decide (a = dn)) as [->|Hne].
    - exists (set_sibling (first us) n). split; [|done]. unfold t5. by rewrite upd_eq, Hn.
    - exists n. split; [|done]. unfold t5. by rewrite upd_ne. }
  apply L2; [intros y [->|Hy]%elem_of_cons; [lia|by apply Hnew]|]. cbn [links]. split; [done|].
  exists (set_allnext (all t2) (set_child (first cs) (set_parent par nd))). split.
  { unfold t3, push. cbn [nodes set_all]. rewrite !upd_eq, (gr_old _ _ _ _ read_kids) by (cbn; lia).
    by rewrite upd_eq, t1_nodes, lookup_insert_eq. }
  cbn [allnext set_allnext]. apply (links_ext (nodes t2)); [|done]. intros a n Hin Hn. exists n. split; [|done].
  destruct (Hnew a Hin). unfold t3, push. cbn [nodes set_all]. by rewrite !upd_ne.
Qed.

Lemma grown_cons : grown t0 t5 (Rose dn cs :: us) par.
Proof.
  destruct t1_rest as (Hr & Ha & Hf & Hnp). pose proof (gr_fresh _ _ _ _ read_kids) as Hf2. cbn in Hf2.
  pose proof (gr_fresh _ _ _ _ read_sibs) as Hf4. change (fresh t3) with (fresh t2) in Hf4.
  pose proof (gr_new _ _ _ _ read_kids) as N1. pose proof (gr_new _ _ _ _ read_sibs) as N2.
  change (fresh t3) with (fresh t2) in N2. change (fresh (upd dn (set_parent par) t1)) with (fresh t1) in N1.
  constructor.
  - change (fresh t5) with (fresh t4). lia.
  - intros p n Hn. change (fresh t5) with (fresh t4). destruct (decide (p = dn)) as [->|Hp]; [lia|].
    unfold t5 in Hn. rewrite upd_ne in Hn by done. by apply (gr_bound _ _ _ _ read_sibs p n).
  - apply old_after.
  - intros p. change (fresh t5) with (fresh t4). rewrite fptrs_cons, ptrs_eq. cbn [app].
    intros [->|[Hp|Hp]%elem_of_app]%elem_of_cons; [lia|specialize (N1 p Hp); lia|specialize (N2 p Hp); lia].
  - rewrite fptrs_cons, ptrs_eq. cbn [app]. apply list.NoDup_cons. split.
    + intros [Hp|Hp]%elem_of_app; [specialize (N1 dn Hp)|specialize (N2 dn Hp)]; lia.
    + apply list.NoDup_app. split_and!; [apply read_kids| |apply read_sibs].
      intros p Hp Hp'. specialize (N1 p Hp). specialize (N2 p Hp'). lia.
  - cbn [forest]. split; [rewrite rep_eq; split|].
    + rewrite node_after. by eexists.
    + apply (forest_ext (nodes t2)); [|apply read_kids]. intros p Hp. specialize (N1 p Hp).
      symmetry. apply others_after; lia.
    + apply (forest_ext (nodes t4)); [|apply read_sibs]. intros p Hp. specialize (N2 p Hp).
      unfold t5. rewrite upd_ne by lia. done.
  - destruct (gr_links _ _ _ _ read_kids) as (xs1 & P1 & L1). destruct (gr_links _ _ _ _ read_sibs) as (xs2 & P2 & L2).
    exists (xs2 ++ dn :: xs1). split.
    + rewrite fptrs_cons, ptrs_eq, P1, P2. cbn [app]. rewrite Permutation_app_comm. cbn [app]. done.
    + intros ys Hys Hl. rewrite <- app_assoc. by apply links_after.
  - change (next_phandle t5) with (next_phandle t4). rewrite fptrs_cons, ptrs_eq. cbn [app length]. rewrite length_app.
    pose proof (gr_next _ _ _ _ read_kids) as G1. pose proof (gr_next _ _ _ _ read_sibs) as G2. cbn in G1.
    change (next_phandle t3) with (next_phandle t2) in G2. lia.
  - change (root t5) with (root t4). rewrite (gr_root _ _ _ _ read_sibs). change (root t3) with (root t2).
    rewrite (gr_root _ _ _ _ read_kids). done.
Qed.

(** The documents of the nodes read *)
Lemma docs_cons : map (doc_of (nodes t5)) (Rose dn cs :: us) =
  Doc (shown_phandle nd) (shown_unit nd) (shown_props nd) (map (doc_of (nodes t2)) cs) :: map (doc_of (nodes t4)) us.
Proof.
  destruct t1_rest as (Hr & Ha & Hf & Hnp). pose proof (gr_fresh _ _ _ _ read_kids) as Hf2. cbn in Hf2.
  cbn [map doc_of]. unfold get. rewrite node_after. cbn [default]. f_equal; [f_equal|].
  - apply docs_ext. intros p Hp. pose proof (gr_new _ _ _ _ read_kids p Hp) as N. cbn in N. apply others_after; lia.
  - apply docs_ext. intros p Hp. pose proof (gr_new _ _ _ _ read_sibs p Hp) as N. change (fresh t3) with (fresh t2) in N.
    unfold t5. by rewrite upd_ne by lia.
Qed.

End Cons.

(** ** The reader on one node *)

Definition nobrace (l : bytes) : Prop := (123 ∉ l) /\ (125 ∉ l).

Lemma plain_nobrace l : plain l = true -> nobrace l.
Proof. intros H. split; by apply plain_not. Qed.

Lemma nobrace_app a b : nobrace a -> nobrace b -> nobrace (a ++ b).
Proof. intros [] []. split; rewrite not_elem_of_app; done. Qed.

Lemma strsep_pre c a l : c ∉ a -> strsep c (a ++ l) = (a ++ (strsep c l).1, (strsep c l).2).
Proof.
  induction a as [|d a IH]; cbn [app]; [by destruct (strsep c l)|]. intros [H1 H2]%not_elem_of_cons. cbn [strsep].
  destruct (Z.eqb_spec d c); [congruence|]. by rewrite IH.
Qed.

Lemma strsep_in c l : c ∈ l -> exists x z, strsep c l = (x, Some z).
Proof.
  induction l as [|d l IH]; [by intros ?%elem_of_nil|]. cbn [strsep]. destruct (Z.eqb_spec d c) as [|Hd]; [by eauto|].
  intros [|H]%elem_of_cons; [congruence|]. destruct (IH H) as (x & z & ->). by eauto.
Qed.

(** The state after a node has been built and linked to its parent *)
Definition built (own : bytes) (par : option Z) (t : oftree) : oftree :=
  let '(dn, t) := build_node own t in upd dn (set_parent par) t.

(** What remains after a node and its children *)
Definition finish (n : nat) (rest : bytes) (par : option Z) (dn : Z) (t : oftree) : option (option Z * bytes * oftree) :=
  '(sib, rest, t) ← read_node n rest par (push dn t); Some (Some dn, rest, upd dn (set_sibling sib) t).

Lemma build_node_addr own t : (build_node own t).1 = fresh t.
Proof. done. Qed.

Lemma strsep_fst c d a l : c ∉ a -> d ∉ a -> c <> d -> strsep c (strsep d (a ++ c :: l)).1 = (a, Some (strsep d l).1).
Proof.
  intros Hc Hd Hne. rewrite strsep_pre by done. cbn [fst strsep]. destruct (Z.eqb_spec c d); [done|].
  destruct (strsep d l) as [x y]. cbn [fst]. by apply strsep_app.
Qed.

(** A node without children *)
Lemma read_leaf n junk own after par t : nobrace junk -> nobrace own ->
  read_node (S n) (junk ++ 123 :: own ++ 125 :: after) par t = finish n after par (fresh t) (built own par t).
Proof.
  intros [J1 J2] [O1 O2]. cbn [read_node]. rewrite (strsep_app 123) by done.
  replace (junk ++ 123 :: own ++ 125 :: after) with ((junk ++ 123 :: own) ++ 125 :: after) by (rewrite <- app_assoc; done).
  rewrite (strsep_app 125 (junk ++ 123 :: own)) by (rewrite not_elem_of_app, not_elem_of_cons; done).
  replace (length (junk ++ 123%Z :: own) <? length junk)%nat with false
    by (symmetry; apply Nat.ltb_ge; rewrite length_app; lia).
  rewrite (strsep_app 125 own) by done. cbn [fst]. rewrite (strsep_none 123 own) by done.
  unfold built, finish, push. destruct (build_node own t) as [dn t'] eqn:E.
  assert (dn = fresh t) as -> by (by rewrite <- (build_node_addr own t), E). done.
Qed.

(** A node with children *)
Lemma read_inner n junk own more par t : nobrace junk -> nobrace own -> 125 ∈ more ->
  read_node (S n) (junk ++ 123 :: own ++ 123 :: more) par t =
  '(c, rest, t') ← read_node n (123 :: more) (Some (fresh t)) (built own par t);
  finish n rest par (fresh t) (upd (fresh t) (set_child c) t').
Proof.
  intros [J1 J2] [O1 O2] Hm. cbn [read_node]. rewrite (strsep_app 123) by done.
  destruct (strsep_in _ _ Hm) as (x & z & Ex).
  assert (E : strsep 125 (junk ++ 123 :: own ++ 123 :: more) = (junk ++ 123 :: own ++ 123 :: x, Some z)).
  { rewrite strsep_pre by done. cbn [strsep Z.eqb Pos.eqb]. rewrite strsep_pre by done. cbn [strsep Z.eqb Pos.eqb]. by rewrite Ex. }
  rewrite E. replace (length (junk ++ 123%Z :: own ++ 123%Z :: x) <? length junk)%nat with false
    by (symmetry; apply Nat.ltb_ge; rewrite length_app; lia).
  rewrite strsep_fst by done. rewrite drop_app_length.
  unfold built, finish, push. destruct (build_node own t) as [dn t'] eqn:Eb.
  assert (dn = fresh t) as -> by (by rewrite <- (build_node_addr own t), Eb).
  destruct (read_node n (123 :: more) _ _) as [[[c rest] t'']|]; done.
Qed.

(** Text before the first brace does not matter. *)
Lemma read_skip n junk l par t : nobrace junk -> 125 ∈ l ->
  read_node n (junk ++ 123 :: l) par t = read_node n (123 :: l) par t.
Proof.
  intros [J1 J2] Hl. destruct n as [|n]; [done|]. cbn [read_node]. rewrite strsep_app, strsep_pre by done.
  cbn [strsep Z.eqb Pos.eqb]. destruct (strsep_in _ _ Hl) as (x & z & Ex). rewrite Ex. cbn [fst snd].
  replace (length (junk ++ 123%Z :: x) <? length junk)%nat with false by (symmetry; apply Nat.ltb_ge; rewrite length_app; lia).
  done.
Qed.

(** The end of a level: a closing brace, or no further node *)
Definition level_end (l : bytes) : Prop := 123 ∉ l \/ exists pre l', l = pre ++ 125 :: l' /\ nobrace pre.
Definition behind (l l' : bytes) : Prop := ((123 ∉ l) /\ (123 ∉ l')) \/ exists pre, l = pre ++ 125 :: l' /\ nobrace pre.

Lemma read_end n junk l par t : nobrace junk -> level_end l ->
  exists l', read_node (S n) (junk ++ l) par t = Some (None, l', t) /\ behind l l'.
Proof.
  intros [J1 J2] He. cbn [read_node]. destruct (decide (123 ∈ l)) as [H1|H1].
  - destruct He as [|(pre & l' & -> & P1 & P2)]; [done|]. exists l'. rewrite !strsep_pre by done.
    cbn [strsep Z.eqb Pos.eqb fst snd].
    assert (Hl' : 123 ∈ l') by (apply elem_of_app in H1 as [|[|]%elem_of_cons]; done).
    destruct (strsep_in _ _ Hl') as (x & y & Ex).
    rewrite Ex. cbn [fst snd]. replace (length (junk ++ pre ++ []) <? length (junk ++ pre ++ 125%Z :: x))%nat with true
      by (symmetry; apply Nat.ltb_lt; rewrite !length_app; cbn [length]; lia).
    split; [done|]. right. by exists pre.
  - exists (junk ++ l). rewrite (strsep_none 123 (junk ++ l)) by (rewrite not_elem_of_app; done).
    split; [by destruct (strsep 125 (junk ++ l)) as [? [?|]]|]. left. split; [done|]. rewrite not_elem_of_app. done.
Qed.


(** ** The text of a node, cut at the braces *)

Fixpoint doc_size (d : doc) : nat := match d with Doc _ _ _ ds => S (list_sum (map doc_size ds)) end.

Lemma docs_size h ts : list_sum (map doc_size (map (doc_of h) ts)) = length (fptrs ts).
Proof.
  assert (Ht : forall r, doc_size (doc_of h r) = length (ptrs r)).
  { induction r as [p us IH] using rose_ind'. cbn [doc_of doc_size]. rewrite ptrs_eq. cbn [length]. f_equal.
    induction IH as [|u us Hu _ IHu]; [done|]. rewrite fptrs_cons, length_app. cbn [map].
    change (doc_size (doc_of h u) + list_sum (map doc_size (map (doc_of h) us)) = length (ptrs u) + length (fptrs us))%nat.
    by rewrite Hu, IHu. }
  induction ts as [|u ts IH]; [done|]. rewrite fptrs_cons, length_app. cbn [map].
  change (doc_size (doc_of h u) + list_sum (map doc_size (map (doc_of h) ts)) = length (ptrs u) + length (fptrs ts))%nat.
  by rewrite Ht, IH.
Qed.

Lemma same_docs_length h h' us ts : map (doc_of h) us = map (doc_of h') ts -> length (fptrs us) = length (fptrs ts).
Proof. intros H. by rewrite <- (docs_size h us), <- (docs_size h' ts), H. Qed.

Lemma exprs_app ind l a b : exprs ind l (a ++ b) = exprs ind l a ++ b.
Proof. unfold exprs. cbn [app]. f_equal. by rewrite app_assoc. Qed.

(** Only parentheses are special in the expressions. *)
Lemma exprs_not c ind l tail : plain_char c = false -> c <> 40 -> c <> 41 -> Forall item_ok l -> c ∉ tail -> c ∉ exprs ind l tail.
Proof.
  intros Hc H1 H2 Hl Ht. assert (Hp : forall x, plain x = true -> c ∉ x) by (intros; by apply plain_not).
  unfold exprs. rewrite not_elem_of_cons, not_elem_of_app. split_and!; [by intros ->| |done].
  induction Hl as [|i l Hi _ IH]; [apply not_elem_of_nil|]. cbn [flat_map]. rewrite not_elem_of_app. split; [|done].
  unfold expr, indprint. rewrite (app_assoc (item_key i)), not_elem_of_app, not_elem_of_cons, not_elem_of_app.
  split_and!; [by apply Hp, plain_replicate|done|by apply Hp, item_plain|].
  rewrite !not_elem_of_cons. split_and!; [done|by intros ->|apply not_elem_of_nil].
Qed.

Lemma exprs_nobrace ind l tail : Forall item_ok l -> plain tail = true -> nobrace (exprs ind l tail).
Proof. intros Hl Ht. split; (apply exprs_not; [done..|by apply plain_not]). Qed.

Definition indent (ind : Z) : bytes := indprint ind [].

Lemma indprint_app ind l : indprint ind l = indent ind ++ l.
Proof. unfold indent, indprint. by rewrite app_nil_r. Qed.

Lemma head_split ind full a t : plain full = true -> plain (node_name a t) = true ->
  exists hd, plain hd = true /\ export_head ind full a t = hd ++ [123; 10].
Proof.
  intros Hf Hn. unfold export_head. change (str "{" ++ [10]) with [123; 10]. rewrite (indprint_app ind [123; 10]).
  eexists. rewrite !app_assoc. split; [|reflexivity].
  rewrite !plain_app, !plain_indprint, !plain_app, Hf, Hn. unfold indent. by rewrite plain_indprint.
Qed.

(** What follows the expressions of a node *)
Definition below (t : oftree) (ind : Z) (ts : list rose) : bytes :=
  (match ts with [] => [] | _ => indprint (ind + INDENT_VALUE) [10] ++ forest_text t (ind + INDENT_VALUE) ts end) ++ indent ind.

Lemma tree_split t ind p ts : exportable t p -> plain (name_text t p) = true ->
  exists hd, plain hd = true /\
    tree_text t ind (Rose p ts) = hd ++ 123 :: exprs (ind + INDENT_VALUE) (items (get (nodes t) p)) (below t ind ts) ++ [125; 10].
Proof.
  intros E Hp. destruct (head_split ind _ _ _ Hp (ex_name _ _ E)) as (hd & Hh & Eh). exists hd. split; [done|].
  cbn [tree_text]. rewrite Eh, export_body_items, (indprint_app ind). unfold exprs, below.
  rewrite <- !app_assoc. cbn [app]. do 3 f_equal. rewrite <- !app_assoc. reflexivity.
Qed.

Lemma forest_brace t ind p cs ts : exportable t p -> plain (name_text t p) = true -> 123 ∈ forest_text t ind (Rose p cs :: ts).
Proof.
  intros E Hp. destruct (tree_split t ind p cs E Hp) as (hd & _ & Et). unfold forest_text. cbn [flat_map]. rewrite Et.
  apply elem_of_app. left. apply elem_of_app. right. left.
Qed.

Lemma behind_here pre l l' : nobrace pre -> behind (pre ++ 125 :: l) l' -> ((123 ∉ l) /\ (123 ∉ l')) \/ l' = l.
Proof.
  intros [P1 P2] [[H1 H2]|(pre' & E & Q1 & Q2)].
  - left. split; [|done]. rewrite not_elem_of_app, not_elem_of_cons in H1. tauto.
  - right. apply (f_equal (strsep 125)) in E. rewrite !strsep_app in E by done. by injection E.
Qed.

(** Rebuilding a node gives what it showed. *)
Lemma shown_again nd v par c s n a :
  v <= PHANDLE_BASE ->
  let nd' := Node (default v (shown_phandle nd)) (shown_props nd) par c s n a (shown_unit nd) in
  shown_phandle nd' = shown_phandle nd /\ shown_unit nd' = shown_unit nd /\ shown_props nd' = shown_props nd.
Proof.
  intros Hv nd'. subst nd'. split_and!.
  - unfold shown_phandle. cbn [node]. destruct (Z.ltb_spec PHANDLE_BASE (node nd)) as [H|H].
    + change (default v (Some (node nd))) with (node nd). by rewrite (proj2 (Z.ltb_lt _ _) H).
    + change (default v None) with v. by rewrite (proj2 (Z.ltb_ge _ _) Hv).
  - unfold shown_unit. cbn [unit_string]. by destruct (unit_string nd) as [[|c' u]|].
  - unfold shown_props. cbn [properties]. apply filter_keep. intros pr Hpr. by apply list_elem_of_filter in Hpr as [H _].
Qed.


(** ** Reading what was printed *)

Section Read.
Context (t : oftree).

Definition fine (a : Z) : Prop := exportable t a /\ plain (name_text t a) = true.
Definition bounded (t0 : oftree) : Prop := forall p n, nodes t0 !! p = Some n -> p < fresh t0.
(** Enough small phandles are left for [k] nodes. *)
Definition room (k : nat) (t0 : oftree) : Prop := next_phandle t0 + Z.of_nat k <= PHANDLE_BASE + 1.

Definition reads (ind : Z) (ts : list rose) : Prop :=
  forall n junk rest par t0, (length (fptrs ts) < n)%nat -> nobrace junk -> level_end rest -> bounded t0 ->
    room (length (fptrs ts)) t0 ->
    exists us l' t1, read_node n (junk ++ forest_text t ind ts ++ rest) par t0 = Some (first us, l', t1) /\
      behind rest l' /\ grown t0 t1 us par /\ map (doc_of (nodes t1)) us = map (doc_of (nodes t)) ts.

Lemma reads_nil ind : reads ind [].
Proof.
  intros n junk rest par t0 Hn Hj Hr Hb _. destruct n as [|n]; [lia|].
  destruct (read_end n junk rest par t0 Hj Hr) as (l' & E & Hl). exists [], l', t0.
  split_and!; [exact E|done|by apply grown_nil|done].
Qed.

(** The siblings, after a node and its children have been read *)
Lemma finish_sibs ind ts n par dn t3 rest lc :
  reads ind ts -> (length (fptrs ts) < n)%nat -> level_end rest -> bounded (push dn t3) -> room (length (fptrs ts)) t3 ->
  (lc = 10 :: forest_text t ind ts ++ rest \/ (ts = [] /\ (123 ∉ rest) /\ (123 ∉ lc))) ->
  exists us l' t4, finish n lc par dn t3 = Some (Some dn, l', upd dn (set_sibling (first us)) t4) /\ behind rest l' /\
    grown (push dn t3) t4 us par /\ map (doc_of (nodes t4)) us = map (doc_of (nodes t)) ts.
Proof.
  intros Hts Hn Hr Hb Hroom [->|(-> & H1 & H2)]; unfold finish.
  - destruct (Hts n [10] rest par (push dn t3) Hn ltac:(by apply plain_nobrace) Hr Hb Hroom) as (us & l' & t4 & E & H).
    cbn [app] in E. rewrite E. by exists us, l', t4.
  - destruct n as [|n]; [lia|]. destruct (read_end n [] lc par (push dn t3) ltac:(by apply plain_nobrace) (or_introl H2)) as (l' & E & Hl).
    cbn [app] in E. rewrite E. exists [], l', (push dn t3). split_and!; [done| |by apply grown_nil|done].
    left. split; [done|]. destruct Hl as [[_ Hl]|(pre & -> & _)]; [done|].
    rewrite not_elem_of_app, not_elem_of_cons in H2. tauto.
Qed.

Lemma upd_same dn f (t0 : oftree) : (forall n, nodes t0 !! dn = Some n -> f n = n) -> upd dn f t0 = t0.
Proof. intros H. unfold upd. rewrite alter_id by done. by destruct t0. Qed.

(** The text of a node, cut where its own expressions end: at the closing
    brace, or at the brace of its first child. *)
Definition cut (ind : Z) (cs : list rose) (text own rest after : bytes) : Prop :=
  match cs with
  | [] => text = own ++ 125 :: after
  | _ => exists hd more, nobrace hd /\ forest_text t ind cs ++ rest = hd ++ 123 :: more /\ 125 ∈ more /\
           text = own ++ 123 :: more
  end.

Lemma node_cut ind cs after l : (forall a, a ∈ fptrs cs -> fine a) -> exists tail, plain tail = true /\
  cut (ind + INDENT_VALUE) cs (exprs (ind + INDENT_VALUE) l (below t ind cs) ++ 125 :: after)
    (exprs (ind + INDENT_VALUE) l tail) (indent ind ++ 125 :: after) after.
Proof.
  intros Hf. destruct cs as [|[q us] cs].
  - exists (indent ind). split; [unfold indent; by rewrite plain_indprint|done].
  - destruct (Hf q) as [E Hq]; [rewrite fptrs_cons, ptrs_eq; left|].
    destruct (tree_split t (ind + INDENT_VALUE) q us E Hq) as (hd & Hh & Et).
    exists (indprint (ind + INDENT_VALUE) [10] ++ hd). split; [by rewrite plain_app, plain_indprint, Hh|].
    unfold cut, below, forest_text. cbn [flat_map]. rewrite Et.
    set (x := exprs (ind + INDENT_VALUE + INDENT_VALUE) _ _). set (y := flat_map _ cs).
    exists hd, ((x ++ [125; 10]) ++ y ++ indent ind ++ 125 :: after). split_and!.
    + by apply plain_nobrace.
    + rewrite <- !app_assoc. cbn [app]. by rewrite <- !app_assoc.
    + apply elem_of_app. left. apply elem_of_app. right. left.
    + rewrite !exprs_app. rewrite <- !app_assoc. cbn [app]. by rewrite <- !app_assoc.
Qed.

(** The children of a node *)
Lemma read_kids ind cs n par t0 own rest dn junk after text :
  dn = fresh t0 -> reads ind cs -> (length (fptrs cs) < n)%nat -> nobrace own -> nobrace junk ->
  bounded (built own par t0) -> room (length (fptrs cs)) (built own par t0) ->
  (forall nd, nodes (built own par t0) !! dn = Some nd -> child nd = None) ->
  (exists pre, rest = pre ++ 125 :: after /\ nobrace pre) -> cut ind cs text own rest after ->
  exists us lc t2, read_node (S n) (junk ++ 123 :: text) par t0 = finish n lc par dn (upd dn (set_child (first us)) t2) /\
    (lc = after \/ ((123 ∉ after) /\ (123 ∉ lc))) /\ grown (built own par t0) t2 us (Some dn) /\
    map (doc_of (nodes t2)) us = map (doc_of (nodes t)) cs.
Proof.
  intros -> Hcs Hn Ho Hj Hb Hroom Hch (pre & Er & Hpre) Hcut.
  assert (Hr : level_end rest) by (right; eauto). destruct cs as [|c cs']; cbn [cut] in Hcut.
  - exists [], after, (built own par t0). rewrite Hcut, read_leaf by done. split_and!; [|by left|by apply grown_nil|done].
    rewrite upd_same; [done|]. intros nd Hnd. specialize (Hch nd Hnd). destruct nd. cbn in Hch. by subst.
  - destruct Hcut as (hd & more & Hhd & E & Hm & ->). rewrite read_inner by done.
    destruct (Hcs n [] rest (Some (fresh t0)) (built own par t0) Hn ltac:(by apply plain_nobrace) Hr Hb Hroom) as (us & lc & t2 & E2 & Hl & Hg & Hd).
    cbn [app] in E2. rewrite E, read_skip in E2 by done. rewrite E2. cbn [mbind option_bind].
    exists us, lc, t2. split_and!; [done| |done|done]. rewrite Er in Hl. apply behind_here in Hl as [[]| ->]; auto.
Qed.

Lemma get_items a : exportable t a -> Forall item_ok (items (get (nodes t) a)).
Proof.
  intros E. unfold get. destruct (nodes t !! a) as [nd|] eqn:En; [by apply (ex_items _ _ E)|]. constructor.
Qed.

(** The new node in the state *)
Lemma built_new ind nd tail par t0 : Forall item_ok (items nd) -> plain tail = true -> bounded t0 ->
  exists t1, built (exprs ind (items nd) tail) par t0 = upd (fresh t0) (set_parent par) t1 /\
    nodes t1 = <[fresh t0 := Node (default (next_phandle t0) (shown_phandle nd)) (shown_props nd)
                   None None None None None (shown_unit nd)]> (nodes t0) /\
    (root t1 = root t0 /\ all t1 = all t0 /\ fresh t1 = fresh t0 + 1 /\ next_phandle t0 <= next_phandle t1 <= next_phandle t0 + 1) /\
    bounded (upd (fresh t0) (set_parent par) t1).
Proof.
  intros Hok Htail Hb. unfold built. rewrite build_node_items by done. eexists. split; [reflexivity|].
  cbn [nodes root all fresh next_phandle]. split_and!; try done; try (destruct (shown_phandle nd); lia).
  intros q m. destruct (decide (q = fresh t0)) as [->|Hq].
  - intros _. unfold upd. cbn [fresh]. lia.
  - rewrite upd_ne by done. cbn [nodes]. rewrite lookup_insert_ne by done. intros Hq0. specialize (Hb _ _ Hq0).
    unfold upd. cbn [fresh]. lia.
Qed.

Lemma reads_cons ind p cs ts : fine p -> (forall a, a ∈ fptrs cs -> fine a) -> (forall a, a ∈ fptrs ts -> fine a) ->
  reads (ind + INDENT_VALUE) cs -> reads ind ts -> reads ind (Rose p cs :: ts).
Proof.
  intros [Ep Hp] Hcf Htf Hcs Hts n junk rest par t0 Hn Hj Hr Hb Hroom.
  rewrite fptrs_cons, ptrs_eq in Hn, Hroom. cbn [app length] in Hn, Hroom. rewrite length_app in Hn, Hroom. unfold room in Hroom.
  destruct n as [|n]; [lia|]. set (nd := get (nodes t) p). set (after := 10 :: forest_text t ind ts ++ rest).
  destruct (node_cut ind cs after (items nd) Hcf) as (tail & Htail & Hcut). set (own := exprs _ _ tail) in Hcut.
  destruct (tree_split t ind p cs Ep Hp) as (hd & Hhd & Et).
  destruct (built_new (ind + INDENT_VALUE) nd tail par t0 (get_items p Ep) Htail Hb) as (t1 & Eb1 & E1 & Hrest & Hb1).
  fold own in Eb1. pose proof Hrest as (_ & _ & Hf1 & Hn1).
  destruct (read_kids (ind + INDENT_VALUE) cs n par t0 own (indent ind ++ 125 :: after) (fresh t0) (junk ++ hd) after
              (exprs (ind + INDENT_VALUE) (items nd) (below t ind cs) ++ 125 :: after)) as (cs' & lc & t2 & E2 & Hlc & Hg & Hd);
    [done|done|lia|by apply exprs_nobrace, Htail; apply get_items|by apply nobrace_app, plain_nobrace|by rewrite Eb1| | | |done|].
  { rewrite Eb1. unfold room, upd. cbn [next_phandle]. lia. }
  { intros m. rewrite Eb1, upd_eq, E1, lookup_insert_eq. by intros [= <-]. }
  { exists (indent ind). split; [done|]. apply plain_nobrace. unfold indent. by rewrite plain_indprint. }
  rewrite Eb1 in Hg. pose proof (same_docs_length _ _ _ _ Hd) as Hlen.
  set (t3 := upd (fresh t0) (set_child (first cs')) t2) in E2.
  destruct (finish_sibs ind ts n par (fresh t0) t3 rest lc) as (us & l' & t4 & E4 & Hl' & Hg4 & Hd4); [done|lia|done| | | |].
  { intros q m. change (fresh (push _ t3)) with (fresh t2). unfold push, t3. cbn [nodes set_all].
    destruct (decide (q = fresh t0)) as [->|Hq]; [pose proof (gr_fresh _ _ _ _ Hg) as H; change (fresh (upd _ _ t1)) with (fresh t1) in H; lia|].
    rewrite !upd_ne by done. apply (gr_bound _ _ _ _ Hg). }
  { unfold room. change (next_phandle t3) with (next_phandle t2). pose proof (gr_next _ _ _ _ Hg) as H.
    change (next_phandle (upd _ _ t1)) with (next_phandle t1) in H. lia. }
  { destruct Hlc as [->|[H1 H2]]; [by left|]. right. unfold after in H1. rewrite not_elem_of_cons, not_elem_of_app in H1.
    destruct H1 as (_ & H1 & H3). split_and!; [|done|done]. destruct ts as [|[q us] ts]; [done|]. destruct H1.
    destruct (Htf q) as [Eq Hq]; [rewrite fptrs_cons, ptrs_eq; left|]. by apply forest_brace. }
  exists (Rose (fresh t0) cs' :: us), l', (upd (fresh t0) (set_sibling (first us)) t4).
  assert (Etext : junk ++ forest_text t ind (Rose p cs :: ts) ++ rest =
    (junk ++ hd) ++ 123 :: exprs (ind + INDENT_VALUE) (items nd) (below t ind cs) ++ 125 :: after).
  { unfold forest_text. cbn [flat_map]. rewrite Et. fold nd. rewrite <- !app_assoc. cbn [app]. rewrite <- !app_assoc. done. }
  rewrite Etext, E2, E4. split_and!; [done|done| |].
  - by eapply grown_cons.
  - erewrite docs_cons by done. cbn [map doc_of]. rewrite Hd, Hd4. f_equal.
    destruct (shown_again nd (next_phandle t0) None None None None None) as (-> & -> & ->); [lia|done].
Qed.

(** Every forest that can be exported is read back. *)
Lemma reads_forest k : forall ts ind, (length (fptrs ts) <= k)%nat -> (forall a, a ∈ fptrs ts -> fine a) -> reads ind ts.
Proof.
  induction k as [|k IH]; intros [|[p cs] ts] ind Hk Hf; [apply reads_nil|rewrite fptrs_cons, ptrs_eq in Hk; cbn in Hk; lia|apply reads_nil|].
  rewrite fptrs_cons, ptrs_eq in Hk, Hf. cbn [app length] in Hk, Hf. rewrite length_app in Hk.
  assert (H1 : forall a, a ∈ fptrs cs -> fine a) by (intros a Ha; apply Hf; right; apply elem_of_app; by left).
  assert (H2 : forall a, a ∈ fptrs ts -> fine a) by (intros a Ha; apply Hf; right; apply elem_of_app; by right).
  apply reads_cons; [apply Hf; left|done|done|apply IH; [lia|done]|apply IH; [lia|done]].
Qed.
End Read.


(** ** The round trip *)

Lemma forest_nozero t ts : forall ind, (forall a, a ∈ fptrs ts -> fine t a) -> 0 ∉ forest_text t ind ts.
Proof.
  assert (Ht : forall r ind, (forall a, a ∈ ptrs r -> fine t a) -> 0 ∉ tree_text t ind r).
  { induction r as [p cs IH] using rose_ind'. intros ind Hf. destruct (Hf p ltac:(left)) as [Ep Hp].
    destruct (tree_split t ind p cs Ep Hp) as (hd & Hhd & ->). rewrite not_elem_of_app, not_elem_of_cons, not_elem_of_app.
    split_and!; [by apply plain_not|done| |by apply not_in_dec]. apply exprs_not; [done..|by apply get_items|].
    unfold below, indent. rewrite not_elem_of_app. split; [|apply plain_not; [done|by rewrite plain_indprint]].
    assert (Hf' : forall a, a ∈ fptrs cs -> fine t a) by (intros a Ha; apply Hf; rewrite ptrs_eq; by right). clear Hf.
    assert (Hc : 0 ∉ forest_text t (ind + INDENT_VALUE) cs).
    { induction IH as [|u cs Hu _ IHc]; [apply not_elem_of_nil|]. unfold forest_text. cbn [flat_map]. rewrite fptrs_cons in Hf'.
      rewrite not_elem_of_app. split; [apply Hu|apply IHc]; intros a Ha; apply Hf', elem_of_app; [by left|by right]. }
    destruct cs; [apply not_elem_of_nil|]. rewrite not_elem_of_app. split; [apply plain_not; [done|by rewrite plain_indprint]|done]. }
  induction ts as [|u ts IH]; intros ind Hf; [apply not_elem_of_nil|]. unfold forest_text. cbn [flat_map].
  rewrite fptrs_cons in Hf. rewrite not_elem_of_app. split; [apply Ht|apply IH]; intros a Ha; apply Hf, elem_of_app; [by left|by right].
Qed.

Lemma forest_text_length t ts : forall ind, (length (fptrs ts) <= length (forest_text t ind ts))%nat.
Proof.
  assert (Ht : forall r ind, (length (ptrs r) <= length (tree_text t ind r))%nat).
  { induction r as [p cs IH] using rose_ind'. intros ind. rewrite ptrs_eq. cbn [tree_text length]. rewrite !length_app.
    assert (Hc : (length (fptrs cs) <= length (flat_map (tree_text t (ind + INDENT_VALUE)) cs))%nat).
    { induction IH as [|u cs Hu _ IHc]; [cbn; lia|]. rewrite fptrs_cons. cbn [flat_map]. rewrite !length_app.
      specialize (Hu (ind + INDENT_VALUE)). lia. }
    assert (He : (1 <= length (indprint ind (str "}" ++ [10%Z])))%nat) by (unfold indprint; rewrite length_app; cbn; lia).
    destruct cs; [change (fptrs []) with (@nil Z); cbn [length]; lia|]. rewrite length_app. lia. }
  induction ts as [|u ts IH]; intros ind; [cbn; lia|]. rewrite fptrs_cons. unfold forest_text. cbn [flat_map].
  rewrite !length_app. specialize (Ht u ind). specialize (IH ind). unfold forest_text in IH. lia.
Qed.

Lemma cstr_nozero l : 0 ∉ l -> cstr l = l.
Proof.
  induction l as [|c l IH]; [done|]. intros [H1 H2]%not_elem_of_cons. cbn. destruct (Z.eqb_spec c 0); [congruence|]. by rewrite IH.
Qed.

(** All nodes of a tree have full names without special characters. *)
Lemma laid_fine t r xs : laid_out t r xs -> (forall a, a ∈ ptrs r -> exportable t a) -> forall a, a ∈ ptrs r ->
  is_Some (get_full_name a 256 t) /\ fine t a.
Proof.
  intros L He a Ha. destruct (full_name_tree t r None None O (lo_rep _ _ _ L) He eq_refl a Ha) as (b & Hb & Hp).
  pose proof (nodup_size (nodes t) (ptrs r) (lo_nodup _ _ _ L) (fun x => rep_some _ _ x (lo_rep _ _ _ L))) as Hz.
  assert (E : get_full_name a 256 t = Some b) by (apply (full_name_mono 256 t (0 + length (ptrs r))); [done|exact Hb]).
  split; [by rewrite E|]. split; [by apply He|]. unfold name_text. by rewrite E.
Qed.

(** C30: A device tree exported to text and imported again is the same tree.
    For every well-formed tree of at most 4096 nodes whose names and unit
    strings hold no parentheses, braces or zeros, whose text properties hold
    no quotation marks either, and whose property names and unit strings are
    words of at most 99 characters, the export is defined, the import of its
    text succeeds, and the imported nodes form a well-formed tree of the
    same shape with the same unit strings, the same properties in the same
    order with the same bytes, and the same phandles above 0x1000.  (What the
    export drops is lost: a few named properties, empty unit strings, and
    the smaller phandles, for which the import makes up new ones.) *)
Theorem export_import t r xs :
  laid_out t r xs -> (forall a, a ∈ ptrs r -> exportable t a) -> (length (ptrs r) <= Z.to_nat PHANDLE_BASE)%nat ->
  exists text t' r' xs', cmd_ofexport t = Some text /\
    import_oftree (Some text) initial_tree = Some (false, t') /\ laid_out t' r' xs' /\
    doc_of (nodes t') r' = doc_of (nodes t) r.
Proof.
  intros L He Hlen. pose proof (laid_fine t r xs L He) as Hf.
  pose proof (nodup_size (nodes t) (ptrs r) (lo_nodup _ _ _ L) (fun x => rep_some _ _ x (lo_rep _ _ _ L))) as Hz.
  assert (Hone : fptrs [r] = ptrs r) by (rewrite fptrs_cons; apply app_nil_r).
  unfold cmd_ofexport, prom_get_root. rewrite (lo_root _ _ _ L).
  change (Some (rroot r)) with (first [r]).
  rewrite (export_forest t (length (ptrs r)) [r] (nsize t) None 0) by
    (rewrite ?Hone; (done || (split; [apply L|done]) || (intros a Ha; by apply Hf))).
  cbn [mbind option_bind]. eexists. rewrite !app_assoc.
  match goal with |- context [Some (?h ++ forest_text t 0 [r])] => set (head := h) end.
  assert (Hh : plain head = true) by reflexivity.
  assert (Hz0 : 0 ∉ head ++ forest_text t 0 [r]).
  { rewrite not_elem_of_app. split; [by apply plain_not|]. apply forest_nozero. rewrite Hone. intros a Ha. by apply Hf. }
  assert (Hread : reads t 0 [r]) by (apply (reads_forest t (length (ptrs r))); rewrite Hone; [done|intros a Ha; by apply Hf]).
  destruct (Hread (S (length (head ++ forest_text t 0 [r]))) head [] None initial_tree) as (us & l' & t1 & E & _ & G & D).
  - rewrite length_app. pose proof (forest_text_length t [r] 0). lia.
  - by apply plain_nobrace.
  - left. apply not_elem_of_nil.
  - by intros p n.
  - unfold room. rewrite Hone. change (next_phandle initial_tree) with 1. unfold PHANDLE_BASE in *. lia.
  - rewrite app_nil_r in E. destruct us as [|r' [|]]; try done. injection D as D.
    destruct (gr_links _ _ _ _ G) as (ys & P & Hl). exists (Tree (nodes t1) (Some (rroot r')) (all t1) (next_phandle t1) (fresh t1)), r', ys.
    split; [reflexivity|]. split; [|split; [|exact D]].
    + unfold import_oftree, import_node. rewrite cstr_nozero by done. change (set_all None initial_tree) with initial_tree.
      fold head. by rewrite E.
    + rewrite fptrs_cons, app_nil_r in P. constructor; cbn [nodes root all fresh].
      * done.
      * apply (gr_forest _ _ _ _ G).
      * pose proof (gr_nodup _ _ _ _ G) as H. by rewrite fptrs_cons, app_nil_r in H.
      * specialize (Hl [] ltac:(by intros y ?%elem_of_nil) eq_refl). by rewrite app_nil_r in Hl.
      * done.
      * apply (gr_bound _ _ _ _ G).
Qed.

(** ** A tree with properties of all kinds *)

#[export] Instance item_ok_dec i : Decision (item_ok i).
Proof. destruct i; unfold item_ok, FileIO.bytes_ok; apply _. Defined.

(** Two strings, words, bytes, an empty property and a visible phandle *)
Definition rich : oftree :=
  upd 4 (set_node 0x1234abcd)
    (prom_add_property 3 (str "compatible") (str "usb,ohci" ++ [0] ++ str "mol usb" ++ [0])
    (prom_add_property 3 (str "reg") [0; 0; 1; 2; 0xff; 0; 0; 1]
    (prom_add_property 2 (str "local-mac-address") [0; 0x50; 0xe4; 2; 0xff; 0xfe]
    (prom_add_property 2 (str "AAPL,a-long-property-name") [] sample)))).

Lemma rich_laid : laid_out rich shape [1; 2; 4; 3].
Proof. unfold rich, prom_add_property. do 5 (apply laid_out_upd; [done|]). exact sample_laid. Qed.

Lemma rich_exportable a : a ∈ ptrs shape -> exportable rich a.
Proof.
  intros Ha. assert (H : forall b, b ∈ ptrs shape -> plain (node_name b rich) = true /\
      bool_decide (Forall item_ok (items (get (nodes rich) b))) = true).
  { apply list.Forall_forall. repeat constructor; vm_compute; reflexivity. }
  destruct (H a Ha) as [H1 H2%bool_decide_eq_true]. constructor; [done|]. intros nd Hnd. unfold get in H2.
  by rewrite Hnd in H2.
Qed.

Lemma export_import_witness : exists text t' r' xs',
  cmd_ofexport rich = Some text /\ import_oftree (Some text) initial_tree = Some (false, t') /\
  laid_out t' r' xs' /\ doc_of (nodes t') r' = doc_of (nodes rich) shape /\
  ptrs shape = [1; 2; 4; 3].
Proof.
  destruct (export_import rich shape [1; 2; 4; 3] rich_laid rich_exportable ltac:(vm_compute; lia)) as (text & t' & r' & xs' & H1 & H2 & H3 & H4).
  exists text, t', r', xs'. split; [exact H1|]. split; [exact H2|]. split; [exact H3|]. split; [exact H4|reflexivity].
Defined.

End OfTextRound.
