(* ===== verification/PciInit.v ===== *)
(** * PCI devices in the device tree

    The parts of [pci.c], [pci-bridges.c] and [gc.c] that read the device
    tree: where a device is, its identity, the addresses assigned to it, the
    bridges and the mac-io chip. *)

From Stdlib Require Import String Ascii.
From S2P Require Import Prelude Ioports Memory Pci PciInv Gc PciBridge Oftree Promif.

Module PciInit.
Export PciBridge Promif.

#[global] Close Scope string_scope.
Abbreviation length := Datatypes.length.

(** The words of a property, with its length in bytes *)
Definition prop_words (dn : Z) (name : list Z) (t : oftree) : option (list Z * Z) :=
  v ← prom_get_property (Some dn) name t; Some (words_of (length v / 4) v, Z.of_nat (length v)).
Definition word (l : list Z) (i : nat) : Z := default 0 (l !! i).

(** ** Where a device is *)

(** The bridges are tried in turn, each against all ancestors. *)
Fixpoint get_pci_domain (bs : list bridge) (ups : list Z) (t : oftree) : Z :=
  match bs with
  | [] => -1
  | b :: bs' => if existsb (fun a => prom_dn_to_phandle (Some a) t =? b_phandle b) ups then b_domain b
                else get_pci_domain bs' ups t
  end.

Definition pci_device_loc (bs : list bridge) (dn : Z) (t : oftree) : option Z :=
  match prop_words dn (str "reg") t with
  | None => Some (-1)
  | Some (reg, len) =>
      if len <? 20 then Some (-1) else
      ups ← ancestors (nsize t) (Some dn) t;
      Some (s32 (((word reg 0 .>> 8) .& 0xffff) .| (get_pci_domain bs ups t .<< 16)))
  end.

Section PciInit.
Context {W : Type}.
Context (map_call : Z -> Z -> Z -> bool -> Z -> io_state W -> io_state W).
Context (cfg_hook : Z -> Z -> Z -> Z -> io_state W -> Z * io_state W).
Context (junk : Z -> Z).
Context (malloc_ok : Z -> bool) (rom_image : Z -> Z -> list Z).

Abbreviation write_config := (write_pci_config map_call cfg_hook malloc_ok rom_image).
Abbreviation read_config := (read_pci_config cfg_hook junk).

Definition add_pci_device_from_dn (bs : list bridge) (dn u : Z) (t : oftree) (s : pci W) : option (Z * pci W) :=
  a ← pci_device_loc bs dn t;
  if a <? 0 then Some (-1, s) else
  let int name := prom_get_int_property (Some dn) name t in
  match int (str "vendor-id"), int (str "device-id"), int (str "revision-id"), int (str "class-code") with
  | Some vendor, Some dev_id, Some rev, Some class =>
      let info := DevInfo (vendor .& 0xffff) (dev_id .& 0xffff) (rev .& 0xff) (class .& 0xff) ((class .>> 8) .& 0xffff) in
      let '(err, s) := add_pci_device a info u s in
      Some (if err =? 0 then a else -1, s)
  | _, _, _, _ => Some (-1, s)
  end.

(** ** The assigned addresses *)

Definition bswap16 (v : Z) : Z := ((v .& 0xff) .<< 8) .| ((v .>> 8) .& 0xff).

(** Whether an entry is in memory space *)
Definition entry_mem (reg0 : Z) : bool := (reg0 .>> 24) .& 3 =? 2.

(** One entry of five words *)
Definition assign_entry (a : Z) (e : list Z) (s : pci W) : pci W :=
  let reg0 := word e 0 in
  let r := reg0 .& 0xff in
  let breg := word e 2 in
  let breg := if entry_mem reg0 then
                if negb (r =? PCI_ROM_ADDRESS) then breg .& PCI_BASE_ADDRESS_MEM_MASK
                else (breg .& PCI_ROM_ADDRESS_MASK) .| PCI_ROM_ADDRESS_ENABLE
              else breg .| 1 in
  let s := if r =? 0 then s else write_config a r (bswap32 breg) 4 s in
  let '(c, s) := read_config a PCI_COMMAND 2 s in
  let c := bswap16 c .| (if entry_mem reg0 then PCI_COMMAND_MEMORY else PCI_COMMAND_IO) in
  write_config a PCI_COMMAND (bswap16 c) 2 s.

Fixpoint entries (n : nat) (l : list Z) : list (list Z) :=
  match n with O => [] | S n' => take 5 l :: entries n' (drop 5 l) end.

Definition assign_node (bs : list bridge) (t : oftree) (s : pci W) (dn : Z) : option (pci W) :=
  match prop_words dn (str "assigned-addresses") t with
  | None => Some s
  | Some (ws, len) =>
      if (len =? 0) || negb (len mod 20 =? 0) then Some s else
      a ← pci_device_loc bs dn t;
      if a <? 0 then Some s
      else Some (foldl (fun s e => assign_entry a e s) s (entries (length ws / 5) ws))
  end.

Fixpoint assign_nodes (bs : list bridge) (t : oftree) (l : list Z) (s : pci W) : option (pci W) :=
  match l with [] => Some s | dn :: l' => s ← assign_node bs t s dn; assign_nodes bs t l' s end.

Definition pci_assign_addresses (bs : list bridge) (t : oftree) (s : pci W) : option (pci W) :=
  l ← all_nodes t; assign_nodes bs t l s.

(** ** Bridges *)

Definition bandit_pci_config : pci_dev_info := DevInfo 0x106b 0x0001 0x03 0 0x0600.
Definition grackle_pci_config : pci_dev_info := DevInfo 0x1057 0x0002 0x03 0 0x0600.
Definition uninorth_pci_config (ind : Z) : pci_dev_info := DevInfo 0x106b (0x0034 + ind) 0 0 0x0600.
Definition MACRISC_DEV_FN : Z := 11 * 8.
Definition GRACKLE_DEV_FN : Z := 0.

(** The bridge as it enters the list, and its own device *)
Definition init_bridge_device (b : bridge) (s : pci W) : bridge * pci W :=
  let at_fn fn b := PCIADDR_FROM_BUS_DEVFN (b_domain b) (b_first_bus b) fn in
  match b_kind b with
  | chaos_bridge => (b, s)
  | bandit_bridge => (b, snd (add_pci_device (at_fn MACRISC_DEV_FN b) bandit_pci_config 0 s))
  | uninorth_bridge =>
      let ind := u32 (b_addr_mbase b - 0xf0000000) / 0x2000000 in
      if 3 <=? ind then (b, s)
      else let b := set_b_domain ind b in
           (b, snd (add_pci_device (at_fn MACRISC_DEV_FN b) (uninorth_pci_config ind) 0 s))
  | grackle_bridge => (b, snd (add_pci_device (at_fn GRACKLE_DEV_FN b) grackle_pci_config 0 s))
  end.

(** The number of the access functions of the bridges *)
Definition BRIDGE_OPS : Z := 0x627267.

Definition make_bridge (device_name : list Z) (dn : Z) (t : oftree) : option bridge :=
  '(busr, rl) ← prop_words dn (str "bus-range") t;
  if negb (rl =? 8) then None else
  '(regp, rl) ← prop_words dn (str "reg") t;
  if negb (rl =? 8) then None else
  let mbase := word regp 0 in
  let pci := bool_decide (device_name = str "pci") in
  let uni := match prom_get_property (Some dn) (str "compatible") t with
             | Some v => bool_decide (cstr v = str "uni-north") | None => false end in
  let grackle := pci && negb uni in
  Some (Bridge (prom_dn_to_phandle (Some dn) t) mbase 0 (word busr 0 .& 0xff) (word busr 1 .& 0xff)
    (if grackle then 0xFEC00000 else u32 (mbase + 0x800000))
    (if grackle then 0xFEE00000 else u32 (mbase + 0xc00000))
    (if grackle then grackle_bridge else if pci && uni then uninorth_bridge
     else if bool_decide (device_name = str "chaos") then chaos_bridge else bandit_bridge) 0).

(** The I/O ranges of a bridge are registered under its phandle. *)
Definition init_bridge (device_name : list Z) (t : oftree) (st : list bridge * pci W) (dn : Z) : list bridge * pci W :=
  match make_bridge device_name dn t with
  | None => st
  | Some b =>
      let '(bs, s) := st in
      let reg base i := snd (add_io_range base 0x10 device_name 0 (Some (Some BRIDGE_OPS, Some BRIDGE_OPS)) (b_phandle b) i) in
      let s := Pci (first_dev s) (reg (b_data_mbase b) (reg (b_addr_mbase b) (io s))) in
      let '(b, s) := init_bridge_device b s in
      (b :: bs, s)
  end.

(** [prom_find_devices] as the list it links *)
Definition devices_named (name : list Z) (t : oftree) : option (list Z) :=
  l ← all_nodes t; Some (filter (fun a => strcaseeq (node_name a t) name = true) l).

Definition init_bridges (device_name : list Z) (t : oftree) (st : list bridge * pci W) : option (list bridge * pci W) :=
  l ← devices_named device_name t; Some (foldl (init_bridge device_name t) st l).

Definition pci_bridges_init (t : oftree) (s : pci W) : option (list bridge * pci W) :=
  st ← init_bridges (str "bandit") t ([], s);
  st ← init_bridges (str "chaos") t st;
  init_bridges (str "pci") t st.

(** ** The mac-io chip *)

(** [gc_bars_t]: how many ranges, and the first five *)
Fixpoint pairs (n : nat) (l : list Z) : list (Z * Z) :=
  match n with O => [] | S n' => (word l 0, word l 1) :: pairs n' (drop 2 l) end.
Definition is_gc_child (gc_node : option Z) (dn : Z) (t : oftree) : option (option (Z * list (Z * Z))) :=
  match gc_node with
  | None => Some None
  | Some g =>
      anc ← is_ancestor g (Some dn) t;
      if anc : bool then
        let '(ws, len) := default ([], 0) (prop_words dn (str "reg") t) in
        Some (Some (len / 8, pairs (Z.to_nat (Z.min (len / 8) 5)) ws))
      else Some None
  end.

(** ** What the assignment leaves in the command register *)

Definition assign_entries (a : Z) (es : list (list Z)) (s : pci W) : pci W :=
  foldl (fun s e => assign_entry a e s) s es.

(** A device without hooks, the command bytes of its static data zero *)
Record bare (a : Z) (s : pci W) (d : device) : Prop := Bare {
  bare_found : find_device a (first_dev s) = Some d;
  bare_cmd : cfg_byte d PCI_COMMAND = 0 /\ cfg_byte d (PCI_COMMAND + 1) = 0;
  bare_hooks : read_config_hook d = None /\ write_config_hook d = None
}.

Lemma bare_write a o v len s d : bare a s d -> exists d', bare a (write_config a o v len s) d'.
Proof.
  intros [Hf [H4 H5] [Hr Hw]].
  destruct (write_config_cfg map_call cfg_hook malloc_ok rom_image a o v len d s Hf) as (d' & Hf' & C & R & Wh).
  exists d'. constructor; [done|unfold cfg_byte in *; by rewrite C|by rewrite R, Wh].
Qed.

(** An entry is one or two writes: the register it names, and the command
    register with nothing but its own enable bit. *)
Lemma assign_entry_writes a e s d : bare a s d ->
  exists ws s1, s1 = config_writes map_call cfg_hook malloc_ok rom_image a ws s /\ (exists d1, bare a s1 d1) /\
    assign_entry a e s =
      write_config a PCI_COMMAND (bswap16 (if entry_mem (word e 0) then PCI_COMMAND_MEMORY else PCI_COMMAND_IO)) 2 s1.
Proof.
  intros B. unfold assign_entry.
  set (v := bswap32 _). set (r := word e 0 .& 0xff).
  assert (H : exists ws s1, s1 = config_writes map_call cfg_hook malloc_ok rom_image a ws s /\ (exists d1, bare a s1 d1) /\
                (if r =? 0 then s else write_config a r v 4 s) = s1).
  { destruct (r =? 0); [by exists [], s; eauto|].
    exists [(r, v, 4)], (write_config a r v 4 s). split; [done|]. split; [|done]. by apply (bare_write a r v 4 s d). }
  destruct H as (ws & s1 & Es & (d1 & B1) & ->). exists ws, s1. split; [done|]. split; [by exists d1|].
  rewrite (read_command cfg_hook junk a d1) by apply B1.
  change (bswap16 0) with 0. by rewrite Z.lor_0_l.
Qed.

Lemma bare_entry a e s d : bare a s d -> exists d', bare a (assign_entry a e s) d'.
Proof.
  intros B. destruct (assign_entry_writes a e s d B) as (ws & s1 & _ & (d1 & B1) & ->).
  by apply (bare_write a _ _ _ s1 d1).
Qed.

Lemma bare_entries a es : forall s d, bare a s d -> exists d', bare a (assign_entries a es s) d'.
Proof.
  induction es as [|e es IH]; intros s d B; [by exists d|].
  destruct (bare_entry a e s d B) as (d1 & B1). by apply (IH _ d1).
Qed.

(** The last entry decides *)
Lemma last_entry_cmd a e s d : bare a s d ->
  exists d', find_device a (first_dev (assign_entry a e s)) = Some d' /\
    cmd d' .& 0xff = if entry_mem (word e 0) then PCI_COMMAND_MEMORY else PCI_COMMAND_IO.
Proof.
  intros B. destruct (assign_entry_writes a e s d B) as (ws & s1 & _ & (d1 & B1) & ->).
  destruct (write_command map_call cfg_hook malloc_ok rom_image a d1
    (bswap16 (if entry_mem (word e 0) then PCI_COMMAND_MEMORY else PCI_COMMAND_IO)) s1
    (bare_found _ _ _ B1) (proj2 (bare_hooks _ _ _ B1))) as (d2 & Hf & Hl & _).
  exists d2. split; [done|]. rewrite Hl. by destruct (entry_mem _).
Qed.

(** Writes and assignments keep the window of a driver right. *)
Section Client.
Context (f : Z) (reg : nat) (u : Z) `{!BarClient map_call f reg u}.
Abbreviation synced := (PciInv.synced map_call f reg u).
Abbreviation window := (PciInv.window (f:=f) (reg:=reg) (u:=u) map_call).

Lemma writes_synced a ws : forall d s, find_device a (first_dev s) = Some d -> synced d (io s) ->
  let s' := config_writes map_call cfg_hook malloc_ok rom_image a ws s in
  exists d', find_device a (first_dev s') = Some d' /\ synced d' (io s').
Proof.
  induction ws as [|[[o v] len] ws IH]; intros d s Hf Hs; [by exists d|].
  destruct (write_config_synced map_call cfg_hook malloc_ok rom_image f reg u a o v len d s Hf (proj1 Hs)) as (d1 & Hf1 & Hs1).
  by apply (IH d1).
Qed.

Lemma entry_synced a e s d : bare a s d -> synced d (io s) ->
  exists d', bare a (assign_entry a e s) d' /\ synced d' (io (assign_entry a e s)).
Proof.
  intros B Hs. destruct (bare_entry a e s d B) as (d' & B'). exists d'. split; [done|].
  destruct (assign_entry_writes a e s d B) as (ws & s1 & E1 & _ & E). rewrite E in B' |- *.
  destruct (writes_synced a ws d s (bare_found _ _ _ B) Hs) as (d1 & Hf1 & S1). rewrite <- E1 in Hf1, S1.
  edestruct (write_config_synced map_call cfg_hook malloc_ok rom_image f reg u a PCI_COMMAND) as (d2 & Hf2 & S2);
    [exact Hf1|exact (proj1 S1)|].
  pose proof (bare_found _ _ _ B') as Hf'. rewrite Hf2 in Hf'. injection Hf' as <-. exact S2.
Qed.

Lemma entries_synced a es : forall s d, bare a s d -> synced d (io s) ->
  exists d', bare a (assign_entries a es s) d' /\ synced d' (io (assign_entries a es s)).
Proof.
  induction es as [|e es IH]; intros s d B Hs; [by exists d|].
  destruct (entry_synced a e s d B Hs) as (d1 & B1 & S1). by apply (IH _ d1).
Qed.

(** Assigning the addresses of a device forgets all enable bits but that
    of the last entry: [pci_assign_addresses] means to add a bit to the
    command register with each entry, but the register reads back as zero.
    So a device whose last entry is I/O space is left with memory decoding
    off, and the window of its memory base register closed, whatever was
    assigned to that register before. *)
Theorem assign_forgets a es e s d : bare a s d -> synced d (io s) ->
  let s' := assign_entries a (es ++ [e]) s in
  exists d', find_device a (first_dev s') = Some d' /\
    cmd d' .& 0xff = (if entry_mem (word e 0) then PCI_COMMAND_MEMORY else PCI_COMMAND_IO) /\
    (entry_mem (word e 0) = false -> window (io s') = None).
Proof.
  intros B Hs. unfold assign_entries. rewrite foldl_app. cbn [foldl].
  change (foldl _ s es) with (assign_entries a es s).
  destruct (entries_synced a es s d B Hs) as (d1 & B1 & S1).
  destruct (last_entry_cmd a e _ d1 B1) as (d2 & Hf2 & Hc). exists d2. split_and!; [done..|].
  intros Hm. rewrite Hm in Hc. destruct (entry_synced a e _ d1 B1 S1) as (d3 & B3 & S3).
  pose proof (bare_found _ _ _ B3) as Hf3. rewrite Hf2 in Hf3. injection Hf3 as <-.
  destruct S3 as [T W3]. rewrite W3. unfold wanted.
  rewrite (bar_target_mem _ _ (tr_r _ _ _ _ _ _ T)).
  replace (tst (cmd d2) PCI_COMMAND_MEMORY) with false; [done|].
  unfold tst. replace (cmd d2 .& PCI_COMMAND_MEMORY) with 0; [done|].
  change PCI_COMMAND_MEMORY with (0xff .& 2). by rewrite Z.land_assoc, Hc.
Qed.
End Client.

End PciInit.

(** The number of the access functions of the chip ([macio_ops]) *)
Definition MACIO_OPS : Z := 0x6d6163.
Definition gc_pci_config : pci_dev_info := DevInfo 0x106b 0x0002 0x02 0 0xff00.
Definition heathrow_pci_config : pci_dev_info := DevInfo 0x106b 0x0010 0x02 0 0xff00.
Definition ohare_pci_config : pci_dev_info := DevInfo 0x106b 0x0001 0x03 0 0x0600.

Section GcInit.
Context (malloc_ok : Z -> bool) (rom_image : Z -> Z -> list Z).

Definition set_gc (f : Gc.gc -> Gc.gc) (s : pci Gc.gc) : pci Gc.gc :=
  Pci (first_dev s) (set_devices (f (devices (io s))) (io s)).

(** The device of the chip, with registers and a range for them unless it is
    the Grand Central *)
Definition gc_device (a : Z) (info : pci_dev_info) (regs : option (list Z * list Z)) (s : pci Gc.gc) : pci Gc.gc :=
  let s := snd (add_pci_device a info 0 s) in
  let s := match regs with
           | None => s
           | Some (ws, name) =>
               set_gc (fun g => Gc.add_gc_range Gc.REG_OFFSET (Gc.REG_COUNT * 4) name 0 (Some (Some MACIO_OPS, Some MACIO_OPS)) 0
                                  (Gc.GC (Gc.first_range g) ws)) s
           end in
  snd (set_pci_base Gc.map_call malloc_ok rom_image a 0 0xfff80000 (Some Gc.DO_MAP) s).

(** [gc_init]: the node of the chip and the state; a chip is looked for only
    while none has been seen. *)
Definition gc_init (bs : list bridge) (t : oftree) (s : pci Gc.gc) : option (option Z * pci Gc.gc) :=
  let try_chip (name : list Z) info regs (st : option Z * option Z * pci Gc.gc) :=
    let '(dn, gc_node, s) := st in
    match dn with
    | Some _ => Some st
    | None =>
        l ← devices_named name t;
        match head l with
        | None => Some (None, gc_node, s)
        | Some dn => a ← pci_device_loc bs dn t;
                     if a <? 0 then Some (Some dn, gc_node, s)
                     else Some (Some dn, Some dn, gc_device a info regs s)
        end
    end in
  st ← try_chip (str "gc") gc_pci_config None (None, None, s);
  st ← try_chip (str "ohare") ohare_pci_config (Some ([0x0000ff00; 0x10000000; 0x00beff7a; 0], str "ohare regs")) st;
  st ← try_chip (str "mac-io") heathrow_pci_config (Some ([0x0000FF00; 0x391070F0; 0x61befffb; 0], str "mac-io regs")) st;
  Some (st.1.2, st.2).

End GcInit.
(** ** A chip with a memory register and an I/O register *)

Definition mem_entry : list Z := [0x82008010; 0; 0x80800000; 0; 0x80000].
Definition io_entry : list Z := [0x81008014; 0; 0x1000; 0; 0x100].

Lemma start_bare : bare 0x80 Gc.start Gc.start_dev.
Proof. constructor; [exact Gc.start_found|by vm_compute..]. Qed.

Lemma assign_forgets_witness :
  let assign es := assign_entries Gc.map_call Gc.no_hook (fun _ => 0) (fun _ => true) Gc.rom_zeros 0x80 es Gc.start in
  Gc.gc_window (io (assign [mem_entry])) = Some 0x80800000 /\
  Gc.gc_window (io (assign [mem_entry; io_entry])) = None.
Proof.
  intros assign. split; [vm_compute; reflexivity|].
  destruct (assign_forgets Gc.map_call Gc.no_hook (fun _ => 0) (fun _ => true) Gc.rom_zeros Gc.DO_MAP 0%nat 0
              0x80 [mem_entry] io_entry Gc.start Gc.start_dev start_bare Gc.start_synced) as (d' & _ & _ & H).
  apply H. vm_compute. reflexivity.
Defined.

End PciInit.
