(* ===== verification/BlockDev.v ===== *)
(** * Block devices ([bdev_desc_t], [src/drivers/disk/blk_raw.c], [src/include/llseek.h])

    The disk drivers reach an image through the function pointers [seek],
    [read] and [write] of its [bdev_desc_t].  The interface, its instances
    (plain files; copy-on-write images behind [src/drivers/disk/vec_wrap.c])
    and the laws of a device that holds bytes. *)

From S2P Require Import Prelude FileIO Qcow.

Module BlockDev.
Import FileIO.

(** The flags of a [bdev_desc_t] ([disk.h]) *)
Definition BF_ENABLE_WRITE : Z := 1.
Definition BF_FORCE : Z := 2.
Definition BF_CD_ROM : Z := 4.
Definition BF_BOOT : Z := 8.
Definition BF_BOOT1 : Z := 16.
Definition BF_SUBDEVICE : Z := 32.
Definition BF_IGNORE : Z := 64.
Definition BF_WHOLE_DISK : Z := 256.
Definition BF_REMOVABLE : Z := 512.
Definition BF_DRV_DISK : Z := 1024.

Definition EINTR : Z := 4.
Definition EBADF : Z := 9.

(** ** Results

    [Crash]: an access outside of an array or through [NULL]; [Fuel]: the
    loop is still running. *)
Inductive run (A : Type) := Ok (a : A) | Crash | Fuel.
#[global] Arguments Ok {A} a.
#[global] Arguments Crash {A}.
#[global] Arguments Fuel {A}.

#[global] Instance run_bind : MBind run := fun A B f x =>
  match x with Ok a => f a | Crash => Crash | Fuel => Fuel end.

Definition of_option {A} (o : option A) : run A := match o with Some a => Ok a | None => Crash end.

(** - [bd_seek block offset]: negative when it fails;
    - [bd_read lens]: the result, [errno], the bytes stored into the buffers
      from the first one on;
    - [bd_write bufs]: the result and [errno]. *)
Class BlockDev (D : Type) := {
  bd_seek : Z -> Z -> D -> Z * D;
  bd_read : list Z -> D -> run (Z * Z * list Z * D);
  bd_write : list (list Z) -> D -> run (Z * Z * D)
}.

Definition sum_z (l : list Z) : Z := fold_right Z.add 0 l.

(** ** Plain files

    The open file of the descriptor, [None] when the descriptor is -1.  A
    fault of the file is a write of fewer bytes, or minus an [errno]. *)
Definition raw := option file.

Definition blk_lseek (block offs : Z) (d : raw) : Z * raw :=
  if tst (u32 offs) (not32 0x1ff) then (-2, d) else
  match d with
  | None => (-1, d)
  | Some f => let '(r, f) := lseek_set ((block .<< 9) .| offs) f in (if r =? -1 then -1 else 0, Some f)
  end.

Definition raw_seek := blk_lseek.

(** [readv] *)
Definition raw_read (lens : list Z) (d : raw) : run (Z * Z * list Z * raw) :=
  Ok match d with
  | None => (-1, EBADF, [], d)
  | Some f => let '(l, f) := fread (sum_z lens) f in (Z.of_nat (length l), 0, l, Some f)
  end.

(** [writev] *)
Definition raw_write (bufs : list (list Z)) (d : raw) : run (Z * Z * raw) :=
  Ok match d with
  | None => (-1, EBADF, d)
  | Some f => let '(c, f) := fwrite (concat bufs) f in if c <? 0 then (-1, - c, Some f) else (c, 0, Some f)
  end.

#[export] Instance raw_blockdev : BlockDev raw := {
  bd_seek := raw_seek; bd_read := raw_read; bd_write := raw_write
}.

(** ** Copy-on-write images

    [mem] is what [malloc] returns, [errno] the value the last system call of
    the thread left behind: the functions of the image do not set it. *)
Section Image.
Context (inflate : list Z -> nat -> option (bool * list Z)) (aes : bool -> list Z -> list Z -> list Z).
Context (fds : Z -> option (list Z)) (mem : Z -> option (list Z)) (errno : Z).

Definition qcow_bread (lens : list Z) (s : Qcow.qstate) : run (Z * Z * list Z * Qcow.qstate) :=
  '(r, bufs, s) ← of_option (Qcow.wrap_read inflate aes fds mem (map (fun l => replicate (Z.to_nat l) 0) lens) s);
  Ok (r, errno, if r <? 0 then [] else concat bufs, s).

Definition qcow_bwrite (bufs : list (list Z)) (s : Qcow.qstate) : run (Z * Z * Qcow.qstate) :=
  '(r, s) ← of_option (Qcow.wrap_write inflate aes bufs s);
  Ok (r, errno, s).

Definition qcow_blockdev : BlockDev Qcow.qstate := {|
  bd_seek block offset s := (0, Qcow.qcow_seek block offset s);
  bd_read := qcow_bread;
  bd_write := qcow_bwrite
|}.
End Image.

(** ** Devices that hold bytes

    [bd_ok d p]: the device works and is at byte [p]; [bd_byte] its contents
    and [bd_len] its length.  A transfer inside the device moves at least one
    byte, perhaps fewer than asked for. *)
Class ByteDisk (D : Type) `{BlockDev D} := {
  bd_ok : D -> Z -> Prop;
  bd_byte : D -> Z -> Z;
  bd_len : D -> Z
}.

Class ByteDiskLaws (D : Type) `{ByteDisk D} := {
  seek_law : forall d p block, bd_ok d p -> 0 <= block -> block * 512 <= bd_len d ->
    exists r d', bd_seek block 0 d = (r, d') /\ 0 <= r /\ bd_ok d' (block * 512) /\
      bd_len d' = bd_len d /\ (forall x, bd_byte d' x = bd_byte d x);
  read_law : forall d p lens, bd_ok d p -> Forall (fun l => 0 <= l) lens -> 0 < sum_z lens -> p + sum_z lens <= bd_len d ->
    exists e l d', bd_read lens d = Ok (Z.of_nat (length l), e, l, d') /\ 0 < Z.of_nat (length l) <= sum_z lens /\
      (forall i b, l !! i = Some b -> b = bd_byte d (p + Z.of_nat i)) /\ bd_ok d' (p + Z.of_nat (length l)) /\
      bd_len d' = bd_len d /\ (forall x, bd_byte d' x = bd_byte d x);
  write_law : forall d p bufs, bd_ok d p -> concat bufs <> [] ->
    p + Z.of_nat (length (concat bufs)) <= bd_len d ->
    exists r e d', bd_write bufs d = Ok (r, e, d') /\ 0 < r <= Z.of_nat (length (concat bufs)) /\
      bd_ok d' (p + r) /\ bd_len d' = bd_len d /\
      (forall i b, (Z.of_nat i < r) -> concat bufs !! i = Some b -> bd_byte d' (p + Z.of_nat i) = b) /\
      (forall x, ~ (p <= x < p + r) -> bd_byte d' x = bd_byte d x)
}.

(** A plain file whose writes may be short *)
Definition raw_ok (d : raw) (p : Z) : Prop :=
  exists f, d = Some f /\ fpos f = p /\ 0 <= p <= flen f /\ Forall (fun c => 0 < c) (faults f).

#[export] Instance raw_bytes : ByteDisk raw := {
  bd_ok := raw_ok;
  bd_byte d x := match d with Some f => fbyte f x | None => 0 end;
  bd_len d := match d with Some f => flen f | None => 0 end
}.

(** ** The laws of plain files *)

Lemma blk_lseek_eq block f : 0 <= block ->
  blk_lseek block 0 (Some f) = (0, Some (set_fpos (block * 512) f)).
Proof.
  intros H. unfold blk_lseek. change (tst (u32 0) (not32 0x1ff)) with false. cbv iota.
  rewrite Z.lor_0_r, Z.shiftl_mul_pow2 by lia. change (2 ^ 9) with 512.
  rewrite lseek_set_eq by lia. by rewrite (proj2 (Z.eqb_neq _ _)) by lia.
Qed.

Lemma sum_z_nonneg l : Forall (fun x => 0 <= x) l -> 0 <= sum_z l.
Proof. induction 1; cbn; [lia|]. unfold sum_z in IHForall. lia. Qed.

(** The next write moves at least one byte, and not more than asked for. *)
Lemma next_fault_spec f n : Forall (fun c => 0 < c) (faults f) -> 0 < n ->
  exists c q, next_fault n f = (c, q) /\ 0 < c <= n /\ Forall (fun c => 0 < c) q.
Proof.
  intros Hf Hn. unfold next_fault. destruct (faults f) as [|c q] eqn:E.
  - exists n, []. split; [done|]. split; [lia|done].
  - apply list.Forall_cons in Hf as [Hc Hq]. exists (Z.min c n), q. split; [done|]. split; [lia|done].
Qed.

#[export] Instance raw_laws : ByteDiskLaws raw.
Proof.
  split; cbn [bd_ok bd_byte bd_len bd_seek bd_read bd_write raw_bytes raw_blockdev].
  - intros d p block (f & -> & _ & Hp & Hq) Hb Hl. unfold raw_seek. rewrite blk_lseek_eq by done.
    eexists _, _. split; [reflexivity|]. split_and!; try done.
    exists (set_fpos (block * 512) f). split_and!; try done; cbn; lia.
  - intros d p lens (f & -> & <- & Hp & Hq) Hl Hs Hlen. unfold raw_read. rewrite fread_eq by lia.
    exists 0, (seg f (fpos f) (Z.to_nat (sum_z lens))), (Some (set_fpos (fpos f + sum_z lens) f)).
    rewrite seg_length, Z2Nat.id by lia. split_and!; [done|done|lia| | |done|done].
    + intros i b Hb. apply lookup_lt_Some in Hb as Hi. rewrite seg_length in Hi.
      rewrite seg_lookup in Hb by done. by injection Hb.
    + exists (set_fpos (fpos f + sum_z lens) f). split_and!; try done; cbn; lia.
  - intros d p bufs (f & -> & <- & Hp & Hq) Hn Hlen. unfold raw_write, fwrite.
    set (l := concat bufs) in *. assert (0 < length l)%nat by (destruct l; [done|cbn; lia]).
    destruct (next_fault_spec f (Z.of_nat (length l)) Hq) as (c & q & -> & Hc & Hq'); [lia|].
    rewrite (proj2 (Z.leb_gt c 0)), (proj2 (Z.ltb_ge c 0)) by lia.
    eexists c, 0, _. split; [reflexivity|]. split; [done|]. cbn [flen].
    assert (Ht : length (take (Z.to_nat c) l) = Z.to_nat c) by (rewrite length_take; lia).
    split_and!; [|lia| |].
    + eexists. split; [reflexivity|]. cbn [flen fpos faults]. split_and!; [done|lia|lia|done].
    + intros i b Hi Hib. unfold fbyte. cbn [fdat]. rewrite put_bytes_lookup, Ht, decide_True by lia.
      replace (Z.to_nat (fpos f + Z.of_nat i - fpos f)) with i by lia.
      rewrite lookup_take_lt by lia. by rewrite Hib.
    + intros x Hx. unfold fbyte. cbn [fdat]. by rewrite put_bytes_lookup, Ht, decide_False by lia.
Qed.

End BlockDev.
