(* ===== verification/Ablk.v ===== *)
(** * The asynchronous block driver ([src/drivers/disk/ablk.c], [src/drivers/disk/ablk-cd.c])

    The guest puts requests into a ring in its memory; a thread of the
    emulator (the engine) executes them with the vectored functions of the
    block devices.  The world is the guest memory, the interrupt controller
    and the static [ablk].  This file models each function as it runs without
    interference; the interleaving of the engine with the guest is the
    subject of AblkThread. *)

From S2P Require Import Prelude FileIO Memory Pic BlockDev.

Module Ablk.
Import BlockDev.

(** ** Constants ([ablk_sh.h]) *)

Definition kABlkReset : Z := 1.
Definition kABlkStop : Z := 2.
Definition kABlkStart : Z := 3.
Definition kABlkRouteIRQ : Z := 4.
Definition kABlkGetEvents : Z := 5.

Definition ABLK_READ_REQ : Z := 1.
Definition ABLK_WRITE_REQ : Z := 2.
Definition ABLK_RAISE_IRQ : Z := 4.
Definition ABLK_SG_BUF : Z := 8.
Definition ABLK_FIRST_CNTRL_REQ : Z := 256.
Definition ABLK_CNTRL_REQ_MASK : Z := Z.lnot (ABLK_FIRST_CNTRL_REQ - 1).
Definition ABLK_NOP_REQ : Z := 1 .<< 8.
Definition ABLK_EJECT_REQ : Z := 2 .<< 8.
Definition ABLK_LOCKDOOR_REQ : Z := 3 .<< 8.

Definition ABLK_INFO_READ_ONLY : Z := 1.
Definition ABLK_INFO_REMOVABLE : Z := 2.
Definition ABLK_INFO_MEDIA_PRESENT : Z := 4.
Definition ABLK_BOOT_HINT : Z := 8.
Definition ABLK_INFO_CDROM : Z := 16.
Definition ABLK_INFO_DRV_DISK : Z := 128.
Definition ABLK_EVENT_DISK_INSERTED : Z := 1.

Definition MAX_IOVEC : nat := 32.

(** ** State *)

(** The function pointer [iofunc] *)
Inductive iofunc_t := dummy_io | bdev_read | bdev_write.

(** The polls of a CD drive, [usec_timer( usec, poll, d )] *)
Inductive cd_poll := poll_for_cd | poll_for_nocd.

Section Ablk.
Context {D : Type} `{BlockDev D} {P : Type} `{Pic.IrqController P}.

(** [bdev_desc_t] and [ablk_device_t]; [cntrl_func] is [NULL] or
    [ablk_cd_request]. *)
Record ablk_device := Dev {
  fd : Z; flags : Z; size : Z; bdev : D;
  ablk_flags : Z; events : Z; cntrl_func : bool; ioctl_fd : Z
}.

(** [ablk_t]; [pipe] is the number of bytes in [ctrl_pipe], [ring] [NULL] or
    the pointer into the guest memory. *)
Record ablk_t := Ablk {
  irq : Z; devs : list ablk_device; running : bool; active : bool; event : Z; pipe : nat; exiting : bool;
  req_head : Z; ring_mask : Z; ring : option Memory.lvptr;
  n_requests : Z; cur_dev : Z; iofunc : iofunc_t
}.

(** The last component: the timers set up by the CD module. *)
Record world := W { mem : Memory.memory; pic : P; st : ablk_t; timers : list (Z * cd_poll * nat) }.

Definition upd (f : ablk_t -> ablk_t) (w : world) : world := W (mem w) (pic w) (f (st w)) (timers w).
Definition set_mem (m : Memory.memory) (w : world) : world := W m (pic w) (st w) (timers w).
Definition add_timer (t : Z * cd_poll * nat) (w : world) : world := W (mem w) (pic w) (st w) (timers w ++ [t]).

Definition set_devs v a := Ablk (irq a) v (running a) (active a) (event a) (pipe a) (exiting a) (req_head a)
  (ring_mask a) (ring a) (n_requests a) (cur_dev a) (iofunc a).
Definition set_irq v a := Ablk v (devs a) (running a) (active a) (event a) (pipe a) (exiting a) (req_head a)
  (ring_mask a) (ring a) (n_requests a) (cur_dev a) (iofunc a).
Definition set_running v a := Ablk (irq a) (devs a) v (active a) (event a) (pipe a) (exiting a) (req_head a)
  (ring_mask a) (ring a) (n_requests a) (cur_dev a) (iofunc a).
Definition set_active v a := Ablk (irq a) (devs a) (running a) v (event a) (pipe a) (exiting a) (req_head a)
  (ring_mask a) (ring a) (n_requests a) (cur_dev a) (iofunc a).
Definition set_event v a := Ablk (irq a) (devs a) (running a) (active a) v (pipe a) (exiting a) (req_head a)
  (ring_mask a) (ring a) (n_requests a) (cur_dev a) (iofunc a).
Definition set_pipe v a := Ablk (irq a) (devs a) (running a) (active a) (event a) v (exiting a) (req_head a)
  (ring_mask a) (ring a) (n_requests a) (cur_dev a) (iofunc a).
Definition set_exiting v a := Ablk (irq a) (devs a) (running a) (active a) (event a) (pipe a) v (req_head a)
  (ring_mask a) (ring a) (n_requests a) (cur_dev a) (iofunc a).
Definition set_req_head v a := Ablk (irq a) (devs a) (running a) (active a) (event a) (pipe a) (exiting a) v
  (ring_mask a) (ring a) (n_requests a) (cur_dev a) (iofunc a).
Definition set_ring mask r a := Ablk (irq a) (devs a) (running a) (active a) (event a) (pipe a) (exiting a) (req_head a)
  mask r (n_requests a) (cur_dev a) (iofunc a).
Definition set_n_requests v a := Ablk (irq a) (devs a) (running a) (active a) (event a) (pipe a) (exiting a) (req_head a)
  (ring_mask a) (ring a) v (cur_dev a) (iofunc a).
Definition set_cur_dev v a := Ablk (irq a) (devs a) (running a) (active a) (event a) (pipe a) (exiting a) (req_head a)
  (ring_mask a) (ring a) (n_requests a) v (iofunc a).
Definition set_iofunc v a := Ablk (irq a) (devs a) (running a) (active a) (event a) (pipe a) (exiting a) (req_head a)
  (ring_mask a) (ring a) (n_requests a) (cur_dev a) v.

Definition set_bdev v d := Dev (fd d) (flags d) (size d) v (ablk_flags d) (events d) (cntrl_func d) (ioctl_fd d).
Definition set_media f s v d := Dev f (flags d) s v (ablk_flags d) (events d) (cntrl_func d) (ioctl_fd d).
Definition set_ablk_flags v d := Dev (fd d) (flags d) (size d) (bdev d) v (events d) (cntrl_func d) (ioctl_fd d).
Definition set_events v d := Dev (fd d) (flags d) (size d) (bdev d) (ablk_flags d) v (cntrl_func d) (ioctl_fd d).
Definition set_ioctl_fd v d := Dev (fd d) (flags d) (size d) (bdev d) (ablk_flags d) (events d) (cntrl_func d) v.

(** [ablk.devs[i]] *)
Definition dev_at (i : Z) (w : world) : run ablk_device :=
  if i <? 0 then Crash else of_option (devs (st w) !! Z.to_nat i).
Definition upd_dev (u : nat) (f : ablk_device -> ablk_device) (w : world) : world :=
  upd (fun a => set_devs (alter f u (devs a)) a) w.

Definition irq_line_hi (w : world) : world :=
  W (mem w) (Pic.irq_hi (irq (st w)) (pic w)) (st w) (timers w).
Definition irq_line_low (w : world) : Z * world :=
  let '(r, p) := Pic.irq_low (irq (st w)) (pic w) in (r, W (mem w) p (st w) (timers w)).

Definition ablk_post_event (u : nat) (ev : Z) (w : world) : world :=
  irq_line_hi (upd (set_event 1) (upd_dev u (fun d => set_events (events d .| ev) d) w)).

(** ** CD drives ([ablk-cd.c])

    What the [ioctl]s and [open] return in a call: the status of the drive,
    of the disc, the new descriptor (negative: error), the number of blocks
    and the device behind the descriptor; [no_media] is the descriptor -1. *)
Record drive := Drive { drive_status : Z; disc_status : Z; open_fd : Z; disc_blks : Z; media : D; no_media : D }.

Definition CDS_DISC_OK : Z := 4.
Definition CDS_AUDIO : Z := 100.
Definition CDS_XA_2_1 : Z := 103.
Definition CDS_XA_2_2 : Z := 104.

Definition poll_nocd (c : drive) (u : nat) (w : world) : world :=
  if drive_status c <? 0 then w
  else add_timer (700000, if drive_status c =? CDS_DISC_OK then poll_for_nocd else poll_for_cd, u) w.

Definition cd_detection (c : drive) (u : nat) (at_boot : bool) (w : world) : world :=
  if drive_status c <? 0 then w else
  if negb (drive_status c =? CDS_DISC_OK) then
    add_timer (700000, poll_for_cd, u)
      (upd_dev u (fun d => set_ablk_flags (ablk_flags d .& Z.lnot ABLK_INFO_MEDIA_PRESENT) d) w)
  else if disc_status c <? 0 then add_timer (10000000, poll_for_cd, u) w
  else if (disc_status c =? CDS_AUDIO) || (disc_status c =? CDS_XA_2_1) || (disc_status c =? CDS_XA_2_2)
  then add_timer (700000, poll_for_nocd, u) w
  else if open_fd c <? 0 then upd_dev u (fun d => set_media (open_fd c) (size d) (no_media c) d) w
  else
    let w := upd_dev u (fun d => set_ablk_flags (ablk_flags d .| ABLK_INFO_MEDIA_PRESENT)
                                   (set_media (open_fd c) (512 * disc_blks c) (media c) d)) w in
    if at_boot then w else ablk_post_event u ABLK_EVENT_DISK_INSERTED w.

Definition poll_cd (c : drive) (u : nat) (w : world) : world := cd_detection c u false w.

(** [NULL] is returned in all cases. *)
Definition ablk_cd_request (c : drive) (u : nat) (cmd : Z) (w : world) : run (option iofunc_t * world) :=
  d ← dev_at (Z.of_nat u) w;
  if cmd =? ABLK_EJECT_REQ then
    if negb (fd d =? -1)
    then Ok (None, cd_detection c u false (upd_dev u (fun d => set_media (-1) (size d) (no_media c) d) w))
    else Ok (None, w)
  else Ok (None, w).

Definition ablk_cd_registered (c : drive) (u : nat) (w : world) : world :=
  cd_detection c u true (upd_dev u (fun d => set_media (-1) (size d) (no_media c) (set_ioctl_fd (fd d) d)) w).

(** ** The engine *)

(** The field at offset [o] of the ring element [i], an [int] or [unsigned]
    of the big-endian guest *)
Definition slot (i o : Z) (w : world) : run Memory.lvptr :=
  match ring (st w) with
  | None => Crash
  | Some p => Ok (Memory.plus p (16 * i + o))
  end.
Definition get_field (i o : Z) (w : world) : run Z :=
  p ← slot i o w; l ← of_option (Memory.load p 4 (mem w)); Ok (be_value l).
Definition set_field (i o v : Z) (w : world) : run world :=
  p ← slot i o w; m ← of_option (Memory.store p (be_bytes 4 (u32 v)) (mem w)); Ok (set_mem m w).

Definition get_flags (i : Z) (w : world) : run Z := get_field i 0 w.
Definition get_proceed (i : Z) (w : world) : run Z := get_field i 4 w.

(** [struct iovec]: the buffer in the guest memory and its length *)
Definition iovec : Type := Memory.lvptr * Z.

(** The contents of the buffers *)
Fixpoint gather (vec : list iovec) (m : Memory.memory) : run (list (list Z)) :=
  match vec with
  | [] => Ok []
  | (p, n) :: vec => l ← of_option (Memory.load p (Z.to_nat n) m); ls ← gather vec m; Ok (l :: ls)
  end.

(** The bytes [l] are stored into the buffers, from the first one on. *)
Fixpoint scatter (vec : list iovec) (l : list Z) (m : Memory.memory) : run Memory.memory :=
  match vec with
  | [] => Ok m
  | (p, n) :: vec =>
      m ← of_option (Memory.store p (take (Z.to_nat n) l) m); scatter vec (drop (Z.to_nat n) l) m
  end.

(** The call of [ablk.iofunc] with [ablk.devs[ablk.cur_dev].bdev]: the result
    and [errno] *)
Definition call_iofunc (vec : list iovec) (w : world) : run (Z * Z * world) :=
  d ← dev_at (cur_dev (st w)) w;
  let u := Z.to_nat (cur_dev (st w)) in
  match iofunc (st w) with
  | dummy_io => Ok (s32 (sum_z (map snd vec)), 0, w)
  | bdev_read =>
      '(r, e, l, b) ← bd_read (map snd vec) (bdev d);
      m ← scatter vec l (mem w);
      Ok (r, e, upd_dev u (set_bdev b) (set_mem m w))
  | bdev_write =>
      bufs ← gather vec (mem w);
      '(r, e, b) ← bd_write bufs (bdev d);
      Ok (r, e, upd_dev u (set_bdev b) w)
  end.

(** [for( i=0; ret > 0; i++, ret -= s, count -= s )]: the part transferred is
    removed from the vector. *)
Fixpoint consume (ret count : Z) (vec : list iovec) : run (Z * list iovec) :=
  if ret <=? 0 then Ok (count, vec) else
  match vec with
  | [] => Crash
  | (p, n) :: vec =>
      let s := Z.min n ret in
      '(count, vec) ← consume (ret - s) (s32 (count - s)) vec;
      Ok (count, (Memory.plus p s, n - s) :: vec)
  end.

(** The call is repeated while the result is not [count]: false is [goto
    error]. *)
Fixpoint transfer (fuel : nat) (vec : list iovec) (count : Z) (w : world) : run (bool * world) :=
  match fuel with
  | O => Fuel
  | S fuel =>
      '(ret, errno, w) ← call_iofunc vec w;
      if ret =? count then Ok (true, w) else
      '(count, vec) ← consume ret count vec;
      if (ret <? 0) && negb (errno =? EINTR) then Ok (false, w) else transfer fuel vec count w
  end.

Section Engine.
(** What the CD drives answer during the call *)
Context (drives : nat -> drive).

Definition control_request (bdev_fd cmd : Z) (w : world) : run (iofunc_t * world) :=
  let unit := bdev_fd in
  d ← dev_at unit w;
  if cmd =? ABLK_NOP_REQ then Ok (dummy_io, w) else
  if negb (cntrl_func d) then Ok (dummy_io, w) else
  '(ret, w) ← ablk_cd_request (drives (Z.to_nat unit)) (Z.to_nat unit) cmd w;
  Ok (default dummy_io ret, w).

Definition NEXT (ind : Z) (w : world) : Z := s32 (ind + 1) .& ring_mask (st w).

Definition engine_error (w : world) : world := irq_line_hi (upd (set_active false) (upd (set_running false) w)).
Definition engine_stall (w : world) : world := irq_line_hi (upd (set_active false) w).

(** The request is executed when all its buffers have been collected. *)
Definition must_execute (vec : list iovec) (proceed next : Z) (w : world) : run bool :=
  if (length vec =? 0)%nat then Ok false else
  if (proceed =? 0) || (length vec =? MAX_IOVEC)%nat then Ok true else
  f ← get_flags next w; Ok (negb (tst f ABLK_SG_BUF)).

(** [if( n && (..) ) { .. }]: false is [goto error]. *)
Definition execute (fuel : nat) (vec : list iovec) (count cur proceed : Z) (w : world) : run (bool * world) :=
  '(ok, w) ← transfer fuel vec count w;
  if negb ok then Ok (false, w) else
  let w := upd (fun a => set_n_requests (s32 (n_requests a + Z.of_nat (length vec))) a) w in
  f ← get_flags cur w;
  Ok (true, if tst f ABLK_RAISE_IRQ && negb (proceed =? 0) then irq_line_hi w else w).

(** A scatter and gather buffer: [None] is [goto error]. *)
Definition sg_buf (r : Z) (w : world) : run (option iovec) :=
  buf ← get_field r 8 w;
  count ← get_field r 12 w;
  match Memory.mphys_to_lvptr buf (mem w) with
  | (0, Some p) => Ok (Some (p, count))
  | _ => Ok None
  end.

(** A request: false is [goto error]. *)
Definition request (r f : Z) (w : world) : run (bool * world) :=
  unit ← get_field r 8 w;
  if Z.of_nat (length (devs (st w))) <=? unit then Ok (false, w) else
  param ← get_field r 12 w;
  let w := upd (set_cur_dev unit) w in
  d ← dev_at unit w;
  '(ok, w) ←
    (if tst f (ABLK_READ_REQ .| ABLK_WRITE_REQ) then
       let w := upd (set_iofunc (if tst f ABLK_WRITE_REQ then bdev_write else bdev_read)) w in
       let '(r, b) := bd_seek (s32 param) 0 (bdev d) in
       Ok (negb (r <? 0), upd_dev (Z.to_nat unit) (set_bdev b) w)
     else if tst f ABLK_CNTRL_REQ_MASK then
       '(io, w) ← control_request (fd d) (f .& ABLK_CNTRL_REQ_MASK) w;
       let w := upd (set_iofunc io) w in
       Ok (true, if tst f ABLK_RAISE_IRQ then irq_line_hi w else w)
     else Ok (false, w));
  if (ok : bool) then Ok (true, upd (fun a => set_n_requests (s32 (n_requests a + 1)) a) w) else Ok (false, w).

(** The loop of [do_work] *)
Fixpoint engine (fuel : nat) (vec : list iovec) (count : Z) (w : world) : run world :=
  match fuel with
  | O => Fuel
  | S fuel =>
      let cur := req_head (st w) in
      proceed ← get_proceed cur w;
      let next := NEXT cur w in
      must ← must_execute vec proceed next w;
      '(ok, w) ← (if (must : bool) then execute fuel vec count cur proceed w else Ok (true, w));
      if negb ok then Ok (engine_error w) else
      let '(vec, count) := if (must : bool) then ([], 0) else (vec, count) in
      if proceed =? 0 then Ok (engine_stall w) else
      w ← set_field cur 0 0 w;
      w ← set_field cur 4 0 w;
      f ← get_flags next w;
      let w := upd (set_req_head next) w in
      if tst f ABLK_SG_BUF then
        v ← sg_buf next w;
        match v with
        | None => Ok (engine_error w)
        | Some (p, n) => engine fuel (vec ++ [(p, n)]) (s32 (count + n)) w
        end
      else
        '(ok, w) ← request next f w;
        if (ok : bool) then engine fuel vec count w else Ok (engine_error w)
  end.

Definition do_work (fuel : nat) (w : world) : run world := engine fuel [] 0 w.

(** One turn of the loop of [io_thread]; [None] while the pipe is empty. *)
Definition io_thread (fuel : nat) (w : world) : run (option world) :=
  match pipe (st w) with
  | O => Ok None
  | S n =>
      let w := upd (set_pipe n) w in
      if exiting (st w) then Ok (Some w) else w ← do_work fuel w; Ok (Some w)
  end.

End Engine.

(** ** OSI calls of the guest

    The result goes to register r3; [osip_ablk_irq_ack] also sets r4-r6. *)

Definition osip_ablk_kick (channel : Z) (w : world) : Z * world :=
  if negb (channel =? 0) then (-1, w) else
  if active (st w) then (0, w) else
  (0, upd (fun a => set_pipe (S (pipe a)) a) (upd (set_active true) w)).

Definition osip_ablk_irq_ack (channel : Z) (w : world) : run (Z * option (Z * bool * Z) * world) :=
  if negb (channel =? 0) then Ok (-1, None, w) else
  let '(was, w) := irq_line_low w in
  if was =? 0 then Ok (0, None, w) else
  w ← (if negb (active (st w)) && running (st w)
       then proceed ← get_proceed (req_head (st w)) w;
            Ok (if negb (proceed =? 0) then (osip_ablk_kick channel w).2 else w)
       else Ok w);
  Ok (1, Some (n_requests (st w), active (st w), event (st w)), upd (set_event 0) w).

Definition osip_ablk_ring_setup (channel mphys n_el : Z) (w : world) : Z * world :=
  let mask := s32 (n_el - 1) in
  if negb (channel =? 0) then (-1, w) else
  if running (st w) || tst (s32 (mask + 1)) mask then (-1, w) else
  match Memory.mphys_to_lvptr mphys (mem w) with
  | (0, Some p) => (0, upd (set_ring mask (Some p)) w)
  | _ => (-1, w)
  end.

(** The first interrupt routed to the driver is kept ([osi_driver.c]). *)
Definition oldworld_route_irq (is_oldworld_boot : bool) (new_irq irq : Z) : Z :=
  if negb is_oldworld_boot || (0 <? irq) then irq else new_irq.

Definition osip_ablk_cntrl (is_oldworld_boot : bool) (channel cmd param : Z) (w : world) : run (Z * world) :=
  if negb (channel =? 0) then Ok (-1, w) else
  let done := fun '(ret, w) =>
    Ok (ret, if negb (running (st w)) then (irq_line_low w).2 else w) in
  let stop := fun ret w => done (ret, upd (set_running false) w) in
  if cmd =? kABlkStart then
    if running (st w) then done (0, w) else
    let w := upd (set_iofunc dummy_io) (upd (set_cur_dev (-1)) w) in
    match ring (st w) with
    | None => done (-1, w)
    | Some _ =>
        w ← set_field 0 0 ABLK_NOP_REQ (upd (set_req_head 0) w);
        done (0, upd (set_running true) (upd (set_n_requests 0) w))
    end
  else if cmd =? kABlkReset then stop 0 (upd (set_n_requests 0) w)
  else if cmd =? kABlkStop then stop 0 w
  else if cmd =? kABlkRouteIRQ then
    done (0, upd (fun a => set_irq (oldworld_route_irq is_oldworld_boot param (irq a)) a) w)
  else if cmd =? kABlkGetEvents then
    if Z.of_nat (length (devs (st w))) <=? u32 param then Ok (-1, w) else
    d ← dev_at (u32 param) w;
    done (events d, upd_dev (Z.to_nat (u32 param)) (set_events 0) w)
  else stop (-1) (upd (set_n_requests 0) w).

(** [ablk_disk_info_t] in r4-r7 *)
Definition osip_ablk_disk_info (channel index : Z) (w : world) : Z * option (list Z) :=
  if negb (channel =? 0) then (-1, None) else
  match devs (st w) !! Z.to_nat (u32 index) with
  | None => (-1, None)
  | Some d => (0, Some [u32 (size d / 512); ablk_flags d; 0; 0])
  end.

Definition osip_ablk_bless_disk (channel index : Z) (w : world) : Z * world :=
  if negb (channel =? 0) || (Z.of_nat (length (devs (st w))) <=? u32 index) then (-1, w) else
  (0, upd_dev (Z.to_nat (u32 index)) (fun d => set_ablk_flags (ablk_flags d .| ABLK_BOOT_HINT) d)
        (upd (fun a => set_devs (map (fun d => set_ablk_flags (ablk_flags d .& Z.lnot ABLK_BOOT_HINT) d) (devs a)) a) w)).

(** [wr]: the selector is [OSI_ABLK_SYNC_WRITE]. *)
Definition osip_ablk_sync_io (wr : bool) (channel ind blk mphys size : Z) (w : world) : run (Z * world) :=
  if negb (channel =? 0) || (Z.of_nat (length (devs (st w))) <=? u32 ind) then Ok (-1, w) else
  let u := Z.to_nat (u32 ind) in
  match Memory.mphys_to_lvptr mphys (mem w) with
  | (0, Some buf) =>
      d ← of_option (devs (st w) !! u);
      if fd d <? 0 then Ok (-1, w) else
      let '(r, b) := bd_seek blk 0 (bdev d) in
      let w := upd_dev u (set_bdev b) w in
      if r <? 0 then Ok (-1, w) else
      let vec := [(buf, u32 size)] in
      '(cnt, w) ←
        (if wr then
           bufs ← gather vec (mem w);
           '(cnt, _, b) ← bd_write bufs b;
           Ok (cnt, upd_dev u (set_bdev b) w)
         else
           '(cnt, _, l, b) ← bd_read [u32 size] b;
           m ← scatter vec l (mem w);
           Ok (cnt, upd_dev u (set_bdev b) (set_mem m w)));
      Ok (if cnt =? size then 0 else -1, w)
  | _ => Ok (-1, w)
  end.

(** ** Set-up *)

Definition driver_disk (d : ablk_device) : bool := tst (ablk_flags d) ABLK_INFO_DRV_DISK.

Definition mount_one (u : nat) (w : world) : world :=
  match devs (st w) !! u with
  | Some d =>
      if driver_disk d then
        ablk_post_event u ABLK_EVENT_DISK_INSERTED
          (upd_dev u (fun d => set_ablk_flags ((ablk_flags d .& Z.lnot ABLK_INFO_DRV_DISK) .| ABLK_INFO_MEDIA_PRESENT) d) w)
      else w
  | None => w
  end.
Definition mount_driver_volume (w : world) : world :=
  fold_left (fun w u => mount_one u w) (seq 0 (length (devs (st w)))) w.

(** A volume of [blkdev.c]: descriptor, flags, size, device *)
Definition volume : Type := Z * Z * Z * D.

Definition drive_flags (is_osx_boot : bool) (flags : Z) : Z :=
  let opt bf info := if tst flags bf then info else 0 in
  (if tst flags BF_ENABLE_WRITE then 0 else ABLK_INFO_READ_ONLY)
  .| opt BF_REMOVABLE ABLK_INFO_REMOVABLE .| opt BF_CD_ROM ABLK_INFO_CDROM .| opt BF_BOOT ABLK_BOOT_HINT
  .| (if is_osx_boot && tst flags BF_DRV_DISK then ABLK_INFO_DRV_DISK else ABLK_INFO_MEDIA_PRESENT).

Definition add_drive (is_osx_boot : bool) (c : drive) (v : volume) (w : world) : world :=
  let '(f, flags, size, b) := v in
  let unit := length (devs (st w)) in
  let d := Dev f flags size b (drive_flags is_osx_boot flags) 0 (tst flags BF_CD_ROM) 0 in
  let w := upd (fun a => set_devs (devs a ++ [d]) a) w in
  if tst flags BF_CD_ROM then ablk_cd_registered c unit w else w.

(** After [register_osi_driver] has given an interrupt: a drive for each
    volume not claimed yet *)
Definition ablk_init (is_osx_boot : bool) (cs : nat -> drive) (irq : Z) (vols : list volume) (m : Memory.memory) (p : P)
  : world :=
  fold_left (fun w v => add_drive is_osx_boot (cs (length (devs (st w)))) v w) vols
    (W m p (Ablk irq [] false false 0 0 false 0 0 None 0 0 dummy_io) []).

(** The descriptors closed by [ablk_cleanup], after a byte for the thread *)
Definition ablk_cd_cleanup (d : ablk_device) : ablk_device := set_media (ioctl_fd d) (size d) (bdev d) d.
Definition ablk_cleanup (w : world) : world * list ablk_device :=
  (upd (fun a => set_devs [] (set_pipe (S (pipe a)) (set_exiting true a))) w,
   map (fun d => if tst (flags d) BF_CD_ROM then ablk_cd_cleanup d else d) (devs (st w))).

End Ablk.
End Ablk.
