(* ===== verification/AblkInv.v ===== *)
(** * The block driver: a transfer through a vector of buffers

    What the retry loop of the engine does with a device that may transfer
    less than asked for, and the step lemmas of the engine. *)

From S2P Require Import Prelude FileIO Memory Pic BlockDev Ablk.

Module AblkInv.
Import BlockDev Ablk.

(** ** Memory as a function, buffers as lists of addresses *)

Definition ramf (m : Memory.memory) (x : Z) : Z := Memory.cell (Memory.ram m) x.

(** The same areas: only the contents of the RAM may differ. *)
Record same_areas (m m' : Memory.memory) : Prop := {
  sa_base : Memory.mbase (Memory.ram m') = Memory.mbase (Memory.ram m);
  sa_size : Memory.size (Memory.ram m') = Memory.size (Memory.ram m);
  sa_rom : Memory.rom m' = Memory.rom m
}.

#[export] Instance same_areas_equiv : Equivalence same_areas.
Proof.
  split.
  - by split.
  - intros m m' []. by split.
  - intros m1 m2 m3 [] []. split; congruence.
Qed.

Definition range (o : Z) (n : Z) : list Z := map (fun i => o + Z.of_nat i) (seq 0 (Z.to_nat n)).
Definition addrs_of (v : iovec) : list Z := range (Memory.offs_of v.1) v.2.
Definition addrs (vec : list iovec) : list Z := concat (map addrs_of vec).

(** The buffers are parts of the RAM. *)
Definition buf_ok (m : Memory.memory) (v : iovec) : Prop :=
  exists o, v.1 = Memory.LRam o /\ 0 <= o /\ 0 <= v.2 /\ o + v.2 <= Memory.size (Memory.ram m).
Definition vec_ok (m : Memory.memory) (vec : list iovec) : Prop := Forall (buf_ok m) vec.

(** Stores of [l] at the addresses [A], in order *)
Fixpoint blit (A l : list Z) (M : Z -> Z) : Z -> Z :=
  match A, l with
  | a :: A, v :: l => blit A l (fun x => if x =? a then v else M x)
  | _, _ => M
  end.

(** The bytes [l] at [p] of a disk *)
Definition dput (p : Z) (l : list Z) (M : Z -> Z) (x : Z) : Z :=
  if decide (p <= x < p + Z.of_nat (length l)) then default 0 (l !! Z.to_nat (x - p)) else M x.

Lemma range_length o n : length (range o n) = Z.to_nat n.
Proof. unfold range. by rewrite length_map, length_seq. Qed.

Lemma range_lookup o n i : (i < Z.to_nat n)%nat -> range o n !! i = Some (o + Z.of_nat i).
Proof. intros H. unfold range. by rewrite list_lookup_fmap, lookup_seq_lt. Qed.

Lemma elem_of_range o n x : x ∈ range o n <-> o <= x < o + n.
Proof.
  unfold range. rewrite list_elem_of_In, in_map_iff. split.
  - intros (i & <- & Hi%in_seq). lia.
  - intros H. exists (Z.to_nat (x - o)). split; [lia|]. apply in_seq. lia.
Qed.

Lemma range_split o n s : 0 <= s <= n -> range o n = range o s ++ range (o + s) (n - s).
Proof.
  intros H. apply list_eq. intros i. destruct (decide (i < Z.to_nat s)%nat) as [Hi|Hi].
  - rewrite lookup_app_l by (by rewrite range_length). by rewrite !range_lookup by lia.
  - rewrite lookup_app_r by (rewrite range_length; lia). rewrite range_length.
    destruct (decide (i < Z.to_nat n)%nat) as [Hn|Hn].
    + rewrite !range_lookup by lia. f_equal. lia.
    + by rewrite !lookup_ge_None_2 by (rewrite range_length; lia).
Qed.

Lemma blit_ext A : forall l M M', (forall x, M x = M' x) -> forall x, blit A l M x = blit A l M' x.
Proof.
  induction A as [|a A IH]; intros [|v l] M M' H x; cbn; try apply H.
  apply IH. intros y. by destruct (y =? a).
Qed.

Lemma blit_nil A M : blit A [] M = M.
Proof. by destruct A. Qed.

Lemma blit_out A : forall l M x, x ∉ A -> blit A l M x = M x.
Proof.
  induction A as [|a A IH]; intros [|v l] M x Hx; cbn; try done. apply not_elem_of_cons in Hx as [Hne Hx].
  rewrite IH by done. by rewrite (proj2 (Z.eqb_neq _ _)).
Qed.

(** All addresses receive a byte: what was there does not matter. *)
Lemma blit_in A : forall l M M' x, (length A <= length l)%nat -> x ∈ A -> blit A l M x = blit A l M' x.
Proof.
  induction A as [|a A IH]; intros l M M' x Hl Hx; [by apply elem_of_nil in Hx|].
  destruct l as [|v l]; cbn in Hl; [lia|]. cbn [blit].
  destruct (decide (x ∈ A)) as [Hin|Hin]; [apply IH; [lia|done]|].
  apply elem_of_cons in Hx as [-> |Hx]; [|done]. rewrite !blit_out by done. by rewrite Z.eqb_refl.
Qed.

Lemma blit_app A B l k M : length A = length l -> blit (A ++ B) (l ++ k) M = blit B k (blit A l M).
Proof.
  revert l M. induction A as [|a A IH]; intros [|v l] M H; cbn in *; try done. apply IH. lia.
Qed.

(** Fewer bytes than addresses *)
Lemma blit_take A l M : (length l <= length A)%nat -> blit A l M = blit (take (length l) A) l M.
Proof.
  revert l M. induction A as [|a A IH]; intros [|v l] M H; cbn in *; try done; try lia.
  - apply IH. lia.
Qed.

Lemma range_cons o n : range o (Z.of_nat (S n)) = o :: range (o + 1) (Z.of_nat n).
Proof.
  unfold range. rewrite !Nat2Z.id. cbn [seq map]. f_equal; [lia|]. rewrite <- seq_shift, map_map.
  apply map_ext. intros i. lia.
Qed.

(** Consecutive addresses *)
Lemma blit_range n : forall o l M x, length l = n ->
  blit (range o (Z.of_nat n)) l M x = dput o l M x.
Proof.
  induction n as [|n IH]; intros o l M x Hl.
  - destruct l; [|done]. unfold dput. cbn. by rewrite decide_False by lia.
  - destruct l as [|v l]; [done|]. rewrite range_cons. cbn [blit]. rewrite IH by (cbn in Hl; lia). unfold dput. cbn [length].
    destruct (Z.eq_dec x o) as [->|Hne].
    + rewrite decide_False, decide_True by lia. by rewrite Z.sub_diag, Z.eqb_refl.
    + destruct (decide (o + 1 <= x < o + 1 + Z.of_nat (length l))) as [H|H].
      * rewrite decide_True by lia. by replace (Z.to_nat (x - o)) with (S (Z.to_nat (x - (o + 1)))) by lia.
      * rewrite decide_False by lia. by rewrite (proj2 (Z.eqb_neq _ _)) by lia.
Qed.

Lemma dput_app p l k M x : dput (p + Z.of_nat (length l)) k (dput p l M) x = dput p (l ++ k) M x.
Proof.
  unfold dput. rewrite length_app.
  destruct (decide (p + Z.of_nat (length l) <= x < _)) as [H|H].
  - rewrite decide_True by lia. rewrite lookup_app_r by lia. do 2 f_equal. lia.
  - destruct (decide (p <= x < p + Z.of_nat (length l))) as [H'|H'].
    + rewrite decide_True by lia. by rewrite lookup_app_l by lia.
    + by rewrite decide_False by lia.
Qed.

Lemma dput_ext p l M M' : (forall x, M x = M' x) -> forall x, dput p l M x = dput p l M' x.
Proof. intros H x. unfold dput. by case_decide. Qed.

(** ** Gathering and scattering *)

Lemma store_dput o l m : 0 <= o -> o + Z.of_nat (length l) <= Memory.size (Memory.ram m) ->
  exists m', Memory.store (Memory.LRam o) l m = Some m' /\ same_areas m m' /\
    forall x, ramf m' x = dput o l (ramf m) x.
Proof.
  intros H1 H2. unfold Memory.store, Memory.inside. cbn [Memory.offs_of Memory.bank_of].
  rewrite (proj2 (Z.leb_le _ _) H1), (proj2 (Z.leb_le _ _) H2). cbn [andb]. eexists. split; [reflexivity|].
  split; [by split|]. intros x. unfold ramf, dput, Memory.cell. cbn [Memory.set_bank Memory.ram Memory.dat].
  rewrite FileIO.put_bytes_lookup. by case_decide.
Qed.

Lemma load_ram o n m : 0 <= o -> 0 <= n -> o + n <= Memory.size (Memory.ram m) ->
  Memory.load (Memory.LRam o) (Z.to_nat n) m = Some (map (ramf m) (range o n)).
Proof.
  intros H1 H2 H3. unfold Memory.load, Memory.inside. cbn [Memory.offs_of Memory.bank_of].
  rewrite Z2Nat.id, (proj2 (Z.leb_le _ _) H1), (proj2 (Z.leb_le _ _) H3) by done. cbn [andb].
  unfold Memory.bytes, range. by rewrite map_map.
Qed.

Lemma same_areas_vec m m' vec : same_areas m m' -> vec_ok m vec -> vec_ok m' vec.
Proof.
  intros S H. eapply list.Forall_impl; [exact H|]. intros [p n] (o & E & H1 & H2 & H3). exists o. by rewrite (sa_size _ _ S).
Qed.

Lemma gather_eq m vec : vec_ok m vec ->
  exists bufs, gather vec m = Ok bufs /\ concat bufs = map (ramf m) (addrs vec).
Proof.
  induction 1 as [|[p n] vec (o & E & H1 & H2 & H3) _ (bufs & Eb & Hb)]; [by exists []|]. cbn in *. subst p.
  rewrite load_ram by done. cbn. rewrite Eb. cbn. eexists. split; [reflexivity|]. cbn.
  unfold addrs in *. cbn [map concat]. by rewrite Hb, map_app.
Qed.

Lemma addrs_cons p n vec : addrs ((p, n) :: vec) = range (Memory.offs_of p) n ++ addrs vec.
Proof. done. Qed.

Lemma scatter_eq vec : forall l m, vec_ok m vec -> (length l <= length (addrs vec))%nat ->
  exists m', scatter vec l m = Ok m' /\ same_areas m m' /\ forall x, ramf m' x = blit (addrs vec) l (ramf m) x.
Proof.
  induction vec as [|[p n] vec IH]; intros l m Hv Hl; cbn [scatter].
  - exists m. split; [done|]. split; [done|]. intros x. destruct l; [done|cbn in Hl; lia].
  - apply list.Forall_cons in Hv as [(o & E & H1 & H2 & H3) Hv]. cbn in E, H2, H3. subst p.
    rewrite addrs_cons, length_app, range_length in Hl. cbn [Memory.offs_of] in *.
    destruct (store_dput o (take (Z.to_nat n) l) m H1) as (m1 & -> & S1 & C1); [rewrite length_take; lia|]. cbn [mbind run_bind of_option].
    destruct (IH (drop (Z.to_nat n) l) m1) as (m' & -> & S2 & C2); [by eapply same_areas_vec|rewrite length_drop; lia|].
    exists m'. split; [done|]. split; [by etransitivity|]. intros x. rewrite C2, addrs_cons. cbn [Memory.offs_of].
    destruct (decide (length l <= Z.to_nat n)%nat) as [Hs|Hs].
    + rewrite drop_ge, blit_nil, C1, take_ge by lia. rewrite blit_take by (rewrite length_app, range_length; lia).
      rewrite take_app_le by (rewrite range_length; lia). rewrite (range_split o n (Z.of_nat (length l))) by lia.
      rewrite take_app_le by (rewrite range_length; lia). rewrite take_ge by (rewrite range_length; lia).
      by rewrite blit_range.
    + rewrite <- (take_drop (Z.to_nat n) l) at 2.
      rewrite blit_app by (rewrite range_length, length_take; lia).
      apply blit_ext. intros y. rewrite C1. rewrite <- (Z2Nat.id n) at 2 by done.
      symmetry. apply blit_range. rewrite length_take. lia.
Qed.

(** ** The part already transferred is removed *)

Lemma addrs_length m vec : vec_ok m vec -> Z.of_nat (length (addrs vec)) = sum_z (map snd vec).
Proof.
  induction 1 as [|[p n] vec (o & _ & _ & H & _) _ IH]; [done|]. rewrite addrs_cons, length_app, range_length.
  cbn in *. unfold sum_z in IH. lia.
Qed.

Lemma consume_eq m vec : forall r count, vec_ok m vec -> 0 <= r <= sum_z (map snd vec) -> sum_z (map snd vec) <= count < 2 ^ 31 ->
  exists vec', consume r count vec = Ok (count - r, vec') /\ vec_ok m vec' /\
    addrs vec' = drop (Z.to_nat r) (addrs vec) /\ sum_z (map snd vec') = sum_z (map snd vec) - r /\
    length vec' = length vec.
Proof.
  induction vec as [|[p n] vec IH]; intros r count Hv Hr Hc; cbn [consume].
  - cbn in Hr. rewrite (proj2 (Z.leb_le _ _)) by lia. exists []. cbn in *. split_and!; [|done|by destruct (Z.to_nat r)|lia|done].
    do 2 f_equal. lia.
  - destruct (Z.leb_spec r 0) as [H0|H0].
    + assert (r = 0) as -> by lia. exists ((p, n) :: vec). rewrite !Z.sub_0_r. by split_and!.
    + apply list.Forall_cons in Hv as [(o & E & H1 & H2 & H3) Hv]. cbn in E, H2, H3. subst p.
      cbn [map snd sum_z fold_right] in *. fold (sum_z (map snd vec)) in *.
      assert (Hs : 0 <= sum_z (map snd vec)) by (rewrite <- (addrs_length m vec Hv); lia).
      rewrite s32_small by lia.
      destruct (IH (r - Z.min n r) (count - Z.min n r)) as (vec' & -> & V & A & S & L); [done|lia|lia|].
      cbn [mbind run_bind]. eexists. split; [do 2 f_equal; lia|]. split; [|split; [|split]].
      * apply list.Forall_cons. split; [|done]. exists (o + Z.min n r). cbn. split_and!; [done|lia..].
      * rewrite !addrs_cons, A. cbn [Memory.plus Memory.offs_of].
        rewrite (range_split o n (Z.min n r)) by lia. destruct (decide (r <= n)) as [Hrn|Hrn].
        -- rewrite Z.min_r, Z.sub_diag by lia. rewrite drop_0, <- app_assoc.
           by rewrite drop_app_length' by (rewrite range_length; lia).
        -- rewrite Z.min_l, Z.sub_diag by lia. change (range (o + n) 0) with (@nil Z). cbn [app].
           rewrite app_nil_r, drop_app_ge by (rewrite range_length; lia). rewrite range_length. f_equal. lia.
      * cbn. unfold sum_z in S |- *. lia.
      * cbn. lia.
Qed.

(** ** The retry loop *)

Section Transfer.
Context {D : Type} `{DL : ByteDiskLaws D} {P : Type} `{IC : Pic.IrqController P}.
Abbreviation world := (Ablk.world (D := D) (P := P)).

Lemma upd_dev_twice u b b1 (w : world) :
  upd_dev u (set_bdev b) (upd_dev u (set_bdev b1) w) = upd_dev u (set_bdev b) w.
Proof.
  unfold upd_dev, upd. cbn [mem pic st timers]. f_equal. unfold set_devs. cbn. f_equal.
  apply list_eq. intros j. destruct (decide (u = j)) as [<-|Hj].
  - rewrite !list_lookup_alter_eq. by destruct (devs (st w) !! u).
  - by rewrite !list_lookup_alter_ne by done.
Qed.

Lemma upd_dev_mem u f m (w : world) : upd_dev u f (set_mem m w) = set_mem m (upd_dev u f w).
Proof. done. Qed.

Lemma dev_at_eq u (w : world) d : devs (st w) !! u = Some d -> dev_at (Z.of_nat u) w = Ok d.
Proof. intros E. unfold dev_at. rewrite (proj2 (Z.ltb_ge _ _)) by lia. by rewrite Nat2Z.id, E. Qed.

Lemma upd_dev_at u f (w : world) d : devs (st w) !! u = Some d -> devs (st (upd_dev u f w)) !! u = Some (f d).
Proof. intros E. cbn. by rewrite list_lookup_alter_eq, E. Qed.

(** The current device, its position and the function the engine will call *)
Record doing (io : iofunc_t) (u : nat) (d : ablk_device) (p : Z) (w : world) : Prop := {
  do_io : iofunc (st w) = io;
  do_cur : cur_dev (st w) = Z.of_nat u;
  do_dev : devs (st w) !! u = Some d;
  do_ok : bd_ok (bdev d) p
}.

Lemma doing_upd io u d p q b m (w : world) : doing io u d p w -> bd_ok b q ->
  doing io u (set_bdev b d) q (upd_dev u (set_bdev b) (set_mem m w)).
Proof. intros [H1 H2 H3 H4] Hb. split; try done. by apply upd_dev_at. Qed.

(** A vector of [n > 0] bytes inside the device *)
Record fits (d : ablk_device (D := D)) (p : Z) (vec : list iovec) (w : world) : Prop := {
  ft_vec : vec_ok (mem w) vec;
  ft_pos : 0 < Z.of_nat (length (addrs vec)) < 2 ^ 31;
  ft_len : p + Z.of_nat (length (addrs vec)) <= bd_len (bdev d)
}.

(** What remains after [r] bytes *)
Lemma fits_rest d d' p vec vec' r m (w : world) f : fits d p vec w -> 0 < r -> 0 <= Z.of_nat (length (addrs vec)) - r ->
  bd_len (bdev d') = bd_len (bdev d) -> same_areas (mem w) m -> vec_ok (mem w) vec' ->
  addrs vec' = drop (Z.to_nat r) (addrs vec) -> r <> Z.of_nat (length (addrs vec)) ->
  fits d' (p + r) vec' (upd_dev f (set_bdev (bdev d')) (set_mem m w)).
Proof.
  intros [H1 H2 H3] Hr Hl Hd Hm Hv Ha Hne. split; cbn [mem set_mem upd_dev upd].
  - by eapply same_areas_vec.
  - rewrite Ha, length_drop. lia.
  - rewrite Ha, length_drop, Hd. lia.
Qed.

Lemma transfer_write fuel : forall vec (w : world) u d p,
  doing bdev_write u d p w -> fits d p vec w -> (length (addrs vec) <= fuel)%nat ->
  exists b, transfer fuel vec (sum_z (map snd vec)) w = Ok (true, upd_dev u (set_bdev b) w) /\
    bd_ok b (p + Z.of_nat (length (addrs vec))) /\ bd_len b = bd_len (bdev d) /\
    forall x, bd_byte b x = dput p (map (ramf (mem w)) (addrs vec)) (bd_byte (bdev d)) x.
Proof.
  induction fuel as [|fuel IH]; intros vec w u d p Hd Hf Hfuel; [destruct Hf; lia|].
  destruct (Hd) as [E1 E2 E3 E4], (Hf) as [V Hn Hl]. pose proof (addrs_length _ _ V) as HL.
  cbn [transfer]. unfold call_iofunc. rewrite E2, (dev_at_eq u w d E3), E1. cbn [mbind run_bind].
  destruct (gather_eq _ _ V) as (bufs & -> & Hb). cbn [mbind run_bind].
  assert (Hlb : length (concat bufs) = length (addrs vec)) by (by rewrite Hb, length_map).
  destruct (write_law (bdev d) p bufs E4) as (r & e & b & -> & Hr & Ok1 & L1 & In1 & Out1);
    [intros Hz; rewrite Hz in Hlb; cbn in Hlb; lia|lia|]. cbn [mbind run_bind of_option].
  rewrite Nat2Z.id. assert (Hpart : forall x, bd_byte b x =
    dput p (take (Z.to_nat r) (map (ramf (mem w)) (addrs vec))) (bd_byte (bdev d)) x).
  { intros x. unfold dput. rewrite length_take, length_map. case_decide as Hx; [|apply Out1; lia].
    rewrite lookup_take_lt by lia. destruct (lookup_lt_is_Some_2 (concat bufs) (Z.to_nat (x - p))) as [v Hv]; [lia|].
    rewrite <- Hb, Hv. cbn. rewrite <- (In1 (Z.to_nat (x - p)) v) by (done || lia). f_equal. lia. }
  destruct (Z.eqb_spec r (sum_z (map snd vec))) as [->|Hne].
  - exists b. split; [done|]. rewrite <- HL in Ok1. split; [done|]. split; [done|]. intros x. rewrite Hpart, take_ge; [done|].
    rewrite length_map. lia.
  - destruct (consume_eq (mem w) vec r (sum_z (map snd vec)) V) as (vec' & -> & V' & A' & S' & _); [lia|lia|].
    cbn [mbind run_bind]. rewrite (proj2 (Z.ltb_ge r 0)) by lia. cbn [andb]. rewrite <- S'.
    assert (Hf' := fits_rest d (set_bdev b d) p vec vec' r (mem w) w u Hf ltac:(lia) ltac:(lia) L1 ltac:(reflexivity) V' A' ltac:(lia)).
    destruct (IH vec' _ u (set_bdev b d) (p + r) (doing_upd _ u d p (p + r) b (mem w) w Hd Ok1) Hf') as (b' & Et & O' & L' & C').
    { rewrite A', length_drop. lia. }
    change (upd_dev u (set_bdev b) (set_mem (mem w) w)) with (upd_dev u (set_bdev b) w) in Et.
    rewrite upd_dev_twice in Et. exists b'. split; [exact Et|]. rewrite A', length_drop in O'. split_and!.
    + by replace (p + Z.of_nat (length (addrs vec))) with (p + r + Z.of_nat (length (addrs vec) - Z.to_nat r)) by lia.
    + cbn in L'. congruence.
    + intros x. rewrite C', A'. cbn [mem upd_dev upd set_mem]. rewrite <- (take_drop (Z.to_nat r) (map _ (addrs vec))), <- dput_app.
      rewrite skipn_map, length_take, length_map. replace (Z.of_nat (Z.to_nat r `min` length (addrs vec))) with r by lia.
      apply dput_ext, Hpart.
Qed.

Lemma transfer_read fuel : forall vec (w : world) u d p,
  doing bdev_read u d p w -> fits d p vec w -> (length (addrs vec) <= fuel)%nat ->
  exists b m, transfer fuel vec (sum_z (map snd vec)) w = Ok (true, upd_dev u (set_bdev b) (set_mem m w)) /\
    bd_ok b (p + Z.of_nat (length (addrs vec))) /\ bd_len b = bd_len (bdev d) /\
    (forall x, bd_byte b x = bd_byte (bdev d) x) /\ same_areas (mem w) m /\
    forall x, ramf m x =
      blit (addrs vec) (map (bd_byte (bdev d)) (range p (Z.of_nat (length (addrs vec))))) (ramf (mem w)) x.
Proof.
  induction fuel as [|fuel IH]; intros vec w u d p Hd Hf Hfuel; [destruct Hf; lia|].
  destruct (Hd) as [E1 E2 E3 E4], (Hf) as [V Hn Hl]. pose proof (addrs_length _ _ V) as HL.
  cbn [transfer]. unfold call_iofunc. rewrite E2, (dev_at_eq u w d E3), E1. cbn [mbind run_bind].
  destruct (read_law (bdev d) p (map snd vec) E4) as (e & l & b & -> & Hr & Hbytes & Ok1 & L1 & C1);
    [apply Forall_map; eapply list.Forall_impl; [exact V|]; by intros v (o & _ & _ & Hv & _)|lia|lia|].
  cbn [mbind run_bind of_option]. rewrite Nat2Z.id.
  assert (Hll : l = map (bd_byte (bdev d)) (range p (Z.of_nat (length l)))).
  { apply list_eq. intros i. destruct (decide (i < length l)%nat) as [Hi|Hi].
    - rewrite list_lookup_fmap, range_lookup by lia. cbn. destruct (lookup_lt_is_Some_2 l i Hi) as [v Hv].
      rewrite Hv. f_equal. by apply Hbytes.
    - rewrite !lookup_ge_None_2; [done|rewrite length_map, range_length; lia|lia]. }
  destruct (scatter_eq vec l (mem w) V) as (m & -> & Sm & Cm); [lia|]. cbn [mbind run_bind].
  destruct (Z.eqb_spec (Z.of_nat (length l)) (sum_z (map snd vec))) as [Heq|Hne].
  - exists b, m. split; [done|]. rewrite HL, <- Heq. split_and!; try done. intros x. by rewrite Cm, <- Hll.
  - destruct (consume_eq (mem w) vec (Z.of_nat (length l)) (sum_z (map snd vec)) V) as (vec' & -> & V' & A' & S' & _); [lia|lia|].
    cbn [mbind run_bind]. rewrite (proj2 (Z.ltb_ge _ 0)) by lia. cbn [andb]. rewrite <- S'.
    assert (Hf' := fits_rest d (set_bdev b d) p vec vec' _ m w u Hf ltac:(exact (proj1 Hr)) ltac:(lia) L1 Sm V' A' ltac:(lia)).
    destruct (IH vec' _ u (set_bdev b d) _ (doing_upd _ u d p _ b m w Hd Ok1) Hf') as (b' & m' & Et & O' & L' & B' & Sm' & C').
    { rewrite A', length_drop. lia. }
    rewrite <- upd_dev_mem, upd_dev_twice in Et. exists b', m'. split; [exact Et|]. rewrite A', length_drop, Nat2Z.id in *.
    split; [by replace (p + Z.of_nat (length (addrs vec))) with
      (p + Z.of_nat (length l) + Z.of_nat (length (addrs vec) - length l)) by lia|].
    split; [cbn in L'; congruence|]. split; [intros x; rewrite B'; cbn; apply C1|].
    split; [by etransitivity|]. intros x. rewrite C'. cbn [mem upd_dev upd set_mem bdev set_bdev].
    rewrite (range_split p _ (Z.of_nat (length l))), map_app, <- Hll by lia.
    rewrite <- (take_drop (length l) (addrs vec)) at 3. rewrite blit_app by (rewrite length_take; lia).
    replace (Z.of_nat (length (addrs vec)) - Z.of_nat (length l)) with (Z.of_nat (length (addrs vec) - length l)) by lia.
    rewrite (map_ext (bd_byte b) (bd_byte (bdev d))) by exact C1.
    apply blit_ext. intros y. by rewrite Cm, <- blit_take by lia.
Qed.

End Transfer.

End AblkInv.
