(* ===== verification/AblkRing.v ===== *)
(** * The block driver: a batch of requests in the ring

    [do_work] on a ring that holds a batch of read and write requests has the
    effect of the transfers of the requests, one after the other, on the
    disks and the memory; it ends in the idle state with the interrupt line
    raised, and has freed the ring elements. *)

From S2P Require Import Prelude FileIO Memory Pic BlockDev Ablk AblkInv.

Module AblkRing.
Import BlockDev Ablk AblkInv.

(** ** The specification

    The guest memory outside of the ring, and the disks *)
Definition contents : Type := (Z -> Z) * (nat -> Z -> Z).

#[export] Instance contents_equiv : Equiv contents := fun a b =>
  (forall x, a.1 x = b.1 x) /\ (forall u x, a.2 u x = b.2 u x).
#[export] Instance contents_equivalence : Equivalence (≡@{contents}).
Proof.
  split.
  - by intros [].
  - intros a b [H1 H2]. by split.
  - intros a b c [H1 H2] [H3 H4]. split; intros; [by rewrite H1|by rewrite H2].
Qed.

(** The bytes at the addresses [A] and those at [p] of the disk [u] *)
Definition move (wr : bool) (u : nat) (p : Z) (A : list Z) (c : contents) : contents :=
  if wr then (c.1, fun v => if decide (v = u) then dput p (map c.1 A) (c.2 u) else c.2 v)
  else (blit A (map (c.2 u) (range p (Z.of_nat (length A)))) c.1, c.2).

#[export] Instance move_proper wr u p A : Proper ((≡) ==> (≡)) (move wr u p A).
Proof.
  intros [M K] [M' K'] [H1 H2]. cbn in H1, H2. unfold move. destruct wr; split; cbn; try done.
  - intros v x. case_decide; [|apply H2]. rewrite (map_ext M M') by done. by apply dput_ext.
  - intros x. rewrite (map_ext (K u) (K' u)) by done. by apply blit_ext.
Qed.

(** Transfers of consecutive parts *)
Lemma move_app wr u p A B c : move wr u (p + Z.of_nat (length A)) B (move wr u p A c) ≡ move wr u p (A ++ B) c.
Proof.
  destruct c as [M K]. unfold move. destruct wr; split; cbn; try done.
  - intros v x. case_decide as Hv; [|done]. rewrite decide_True by done.
    replace (length A) with (length (map M A)) by apply length_map. by rewrite dput_app, map_app.
  - intros x. rewrite length_app, (range_split p (Z.of_nat (length A + length B)) (Z.of_nat (length A))), map_app by lia.
    rewrite blit_app by (rewrite length_map, range_length; lia). do 4 f_equal. lia.
Qed.

Lemma move_nil wr u p c : move wr u p [] c ≡ c.
Proof.
  destruct c as [M K]. unfold move. destruct wr; split; cbn; try done. intros v x. case_decide as E; [|done].
  subst v. unfold dput. cbn. by rewrite decide_False by lia.
Qed.

(** A ring element: the fields at offsets 0, 8 and 12 *)
Definition desc : Type := Z * Z * Z.

(** A read or write request: flags, unit, first sector, and the elements of
    its buffers *)
Record req := Req { rq_flags : Z; rq_unit : nat; rq_sector : Z; rq_bufs : list desc }.
Definition rq_descs (r : req) : list desc := (rq_flags r, Z.of_nat (rq_unit r), rq_sector r) :: rq_bufs r.
Definition rq_write (r : req) : bool := tst (rq_flags r) ABLK_WRITE_REQ.

(** The buffer of an element, in the RAM of [m] *)
Definition iovec_of (m : Memory.memory) (b : desc) : iovec :=
  (Memory.LRam (default 0 (Memory.transl (Memory.ram m) b.1.2)), b.2).
Definition rq_addrs (m : Memory.memory) (r : req) : list Z := addrs (map (iovec_of m) (rq_bufs r)).

Definition do_req (m : Memory.memory) (c : contents) (r : req) : contents :=
  move (rq_write r) (rq_unit r) (512 * rq_sector r) (rq_addrs m r) c.

(** ** The ring *)

Definition fld (m : Memory.memory) (base i o : Z) : Z := be_value (map (ramf m) (range (base + 16 * i + o) 4)).

(** The element [n] places behind the element [cur] *)
Definition place (k cur n : Z) : Z := (cur + n) mod 2 ^ k.

(** The elements [n+1], .. behind [cur] are [ds], and no more. *)
Fixpoint queued (m : Memory.memory) (base k cur n : Z) (ds : list desc) : Prop :=
  match ds with
  | [] => fld m base (place k cur n) 4 = 0
  | (f, a, b) :: ds =>
      fld m base (place k cur n) 4 <> 0 /\
      (let j := place k cur (n + 1) in fld m base j 0 = f /\ fld m base j 8 = a /\ fld m base j 12 = b) /\
      queued m base k cur (n + 1) ds
  end.

Section Ring.
Context {D : Type} `{DL : ByteDiskLaws D} {P : Type} `{IC : Pic.IrqController P}.
Abbreviation world := (Ablk.world (D := D) (P := P)).

(** The ring of [2^k] elements at [base] of the RAM *)
Record ring_at (base k : Z) (w : world) : Prop := {
  ra_ring : ring (st w) = Some (Memory.LRam base);
  ra_mask : ring_mask (st w) = 2 ^ k - 1;
  ra_k : 0 <= k <= 26;
  ra_base : 0 <= base;
  ra_size : base + 16 * 2 ^ k <= Memory.size (Memory.ram (mem w))
}.

Definition outside (base k x : Z) : Prop := x < base \/ base + 16 * 2 ^ k <= x.

Lemma get_field_eq base k i o w : ring_at base k w -> 0 <= i < 2 ^ k -> 0 <= o <= 12 ->
  get_field i o w = Ok (fld (mem w) base i o).
Proof.
  intros [R1 R2 R3 R4 R5] Hi Ho. unfold get_field, slot. rewrite R1. cbn [mbind run_bind Memory.plus].
  change 4%nat with (Z.to_nat 4). rewrite load_ram by lia. cbn [of_option]. unfold fld. by rewrite Z.add_assoc.
Qed.

(** [cur->flags = 0; cur->proceed = 0]: the rest of the memory is kept. *)
Lemma clear_eq base k i w : ring_at base k w -> 0 <= i < 2 ^ k ->
  exists w1 m, set_field i 0 0 w = Ok w1 /\ set_field i 4 0 w1 = Ok (set_mem m w) /\ same_areas (mem w) m /\
    forall x, ramf m x = dput (base + 16 * i) (replicate 8 0) (ramf (mem w)) x.
Proof.
  intros [R1 R2 R3 R4 R5] Hi. unfold set_field, slot. rewrite R1. cbn [mbind run_bind Memory.plus].
  change (be_bytes 4 (u32 0)) with [0; 0; 0; 0].
  destruct (store_dput (base + (16 * i + 0)) [0; 0; 0; 0] (mem w)) as (m1 & -> & S1 & C1); [lia|cbn; lia|].
  destruct (store_dput (base + (16 * i + 4)) [0; 0; 0; 0] m1) as (m2 & E2 & S2 & C2);
    [lia|rewrite (sa_size _ _ S1); cbn; lia|].
  exists (set_mem m1 w), m2. split; [done|]. split.
  { cbn [set_mem st mem]. rewrite R1. cbn [mbind run_bind Memory.plus]. by rewrite E2. }
  split; [by etransitivity|].
  intros x. rewrite C2, (dput_ext _ _ _ _ C1).
  change (replicate 8 0) with ([0; 0; 0; 0] ++ [0; 0; 0; 0]). rewrite <- dput_app.
  rewrite Z.add_0_r. cbn [length]. by replace (base + (16 * i + 4)) with (base + 16 * i + Z.of_nat 4) by lia.
Qed.

Lemma fld_ext m m' base i o : (forall x, base + 16 * i + o <= x < base + 16 * i + o + 4 -> ramf m' x = ramf m x) ->
  fld m' base i o = fld m base i o.
Proof.
  intros H1. unfold fld. f_equal. apply map_ext_in. intros x Hx%list_elem_of_In%elem_of_range. by apply H1.
Qed.

Lemma fld_cleared m m' base i o : (forall x, ramf m' x = dput (base + 16 * i) (replicate 8 0) (ramf m) x) ->
  o = 0 \/ o = 4 -> fld m' base i o = 0.
Proof.
  intros H1 Ho. unfold fld. replace (map (ramf m') _) with (replicate 4 0); [done|].
  apply list_eq. intros j. rewrite list_lookup_fmap. destruct (decide (j < 4)%nat) as [Hj|Hj].
  - rewrite range_lookup, lookup_replicate_2 by (cbn; lia). cbn [fmap option_fmap option_map]. f_equal. rewrite H1. unfold dput.
    rewrite decide_True by (rewrite length_replicate; lia). rewrite lookup_replicate_2 by lia. done.
  - rewrite !lookup_ge_None_2; [done|rewrite range_length; cbn; lia|rewrite length_replicate; lia].
Qed.

Lemma fld_kept m m' base i j o : (forall x, ramf m' x = dput (base + 16 * i) (replicate 8 0) (ramf m) x) ->
  0 <= o <= 12 -> j <> i -> fld m' base j o = fld m base j o.
Proof.
  intros H1 Ho Hj. apply fld_ext. intros x Hx. rewrite H1. unfold dput. rewrite length_replicate. 
  rewrite decide_False by lia. done.
Qed.

(** ** The loop invariant *)

Section Batch.
(** The ring and the memory when the engine starts; the lengths of the disks;
    the interrupt and the count of requests. *)
Context (base k cur0 : Z) (m0 : Memory.memory) (L : nat -> Z) (nd : nat) (iq n0 : Z).

(** [done] elements have been taken, [cnt] of them counted; the memory and
    the disks are [c]. *)
Record inv (done cnt : Z) (c : contents) (w : world) : Prop := {
  iv_ring : ring_at base k w;
  iv_head : req_head (st w) = place k cur0 done;
  iv_areas : same_areas m0 (mem w);
  iv_done n : 0 <= n < done -> fld (mem w) base (place k cur0 n) 0 = 0 /\ fld (mem w) base (place k cur0 n) 4 = 0;
  iv_rest n o : done <= n < 2 ^ k -> 0 <= o <= 12 ->
    fld (mem w) base (place k cur0 n) o = fld m0 base (place k cur0 n) o;
  iv_mem x : outside base k x -> ramf (mem w) x = c.1 x;
  iv_ndevs : length (devs (st w)) = nd;
  iv_devs u d : devs (st w) !! u = Some d ->
    (exists p, bd_ok (bdev d) p) /\ bd_len (bdev d) = L u /\ forall x, bd_byte (bdev d) x = c.2 u x;
  iv_running : running (st w) = true;
  iv_irq : irq (st w) = iq;
  iv_count : n_requests (st w) = s32 (n0 + cnt)
}.

(** The engine is about to call [io] of the device [u] at the byte [p]. *)
Definition at_pos (io : iofunc_t) (u : nat) (p : Z) (w : world) : Prop := exists d, doing io u d p w.

Lemma place_range n : 0 <= k -> 0 <= place k cur0 n < 2 ^ k.
Proof. intros H1. apply Z.mod_pos_bound. lia. Qed.

Lemma place_inj n n' : 0 <= n < 2 ^ k -> 0 <= n' < 2 ^ k -> place k cur0 n = place k cur0 n' -> n = n'.
Proof. 
  unfold place. intros H1 H2 E. rewrite !Z.mod_eq in E by lia.
  set (q := (cur0 + n) / 2 ^ k) in *. set (q' := (cur0 + n') / 2 ^ k) in *.
  assert (n - n' = 2 ^ k * (q - q')) as E' by lia. assert (q - q' = 0) by nia. lia.
Qed.

Lemma NEXT_eq w n : ring_at base k w -> NEXT (place k cur0 n) w = place k cur0 (n + 1).
Proof.
  intros [R1 R2 R3 R4 R5]. pose proof (place_range n ltac:(lia)) as Hr. unfold NEXT.
  assert (2 ^ k <= 2 ^ 26) by (apply Z.pow_le_mono_r; lia).
  rewrite R2, s32_small, land_ones_mod by lia. unfold place. rewrite Zplus_mod_idemp_l. f_equal. lia.
Qed.

Lemma inv_hi done cnt c w : inv done cnt c w -> inv done cnt c (irq_line_hi w).
Proof. intros [H1 H2 H3 H4 H5 H6 H7 H8 H9 H10 H11]. destruct H1. by split. Qed.

Lemma ring_at_mem m w : ring_at base k w -> same_areas (mem w) m -> ring_at base k (set_mem m w).
Proof. intros [H1 H2 H3 H4 H5] S. split; try done. cbn. by rewrite (sa_size _ _ S). Qed.

(** The engine takes the next element. *)
Lemma take_next done cnt c w : inv done cnt c w -> 0 <= done < 2 ^ k ->
  exists w1 m, set_field (req_head (st w)) 0 0 w = Ok w1 /\ set_field (req_head (st w)) 4 0 w1 = Ok (set_mem m w) /\
    inv (done + 1) cnt c (upd (set_req_head (place k cur0 (done + 1))) (set_mem m w)).
Proof.
  intros [H1 H2 H3 H4 H5 H6 H7 H8 H9 H10 H11] Hd. rewrite H2.
  pose proof (place_range done ltac:(destruct H1; lia)) as Hp.
  destruct (clear_eq base k (place k cur0 done) w H1 Hp) as (w1 & m & E1 & E2 & S & C).
  exists w1, m. split; [done|]. split; [done|].
  assert (Hk : forall n o, 0 <= n < 2 ^ k -> n <> done -> 0 <= o <= 12 ->
    fld m base (place k cur0 n) o = fld (mem w) base (place k cur0 n) o).
  { intros n o Hn Hne Ho. eapply fld_kept; [exact C|done|]. intros E. by apply Hne, place_inj. }
  split; cbn [mem st upd set_mem set_req_head req_head devs running irq n_requests ring ring_mask]; try done.
  - destruct (ring_at_mem m w H1 S). by split.
  - by etransitivity.
  - intros n Hn. destruct (Z.eq_dec n done) as [->|Hne].
    + split; (eapply fld_cleared; [exact C|lia]).
    + rewrite !Hk by lia. apply H4. lia.
  - intros n o Hn Ho. rewrite Hk by lia. apply H5; lia.
  - intros x Hx. rewrite C. unfold dput. rewrite length_replicate, decide_False; [by apply H6|].
    destruct Hx, H1; lia.
Qed.

(** ** Steps of the engine *)

Context (drives : nat -> drive (D := D)).

Lemma proceed_eq done cnt c w : inv done cnt c w -> 0 <= done < 2 ^ k ->
  get_proceed (req_head (st w)) w = Ok (fld m0 base (place k cur0 done) 4).
Proof.
  intros I Hd. rewrite (iv_head _ _ _ _ I). unfold get_proceed.
  rewrite (get_field_eq base k), (iv_rest _ _ _ _ I) by (try exact (iv_ring _ _ _ _ I); try apply place_range; try lia;
    destruct (iv_ring _ _ _ _ I); lia). done.
Qed.

Lemma next_field done cnt c w n o : inv done cnt c w -> done <= n < 2 ^ k -> 0 <= o <= 12 ->
  get_field (place k cur0 n) o w = Ok (fld m0 base (place k cur0 n) o).
Proof.
  intros I Hn Ho. rewrite (get_field_eq base k), (iv_rest _ _ _ _ I); try done; [exact (iv_ring _ _ _ _ I)|].
  apply place_range. destruct (iv_ring _ _ _ _ I); lia.
Qed.

(** A turn of the loop without a transfer, while there are elements *)
Lemma engine_turn fuel vec count done cnt c w : inv done cnt c w -> 0 <= done -> done + 1 < 2 ^ k ->
  fld m0 base (place k cur0 done) 4 <> 0 ->
  (vec = [] \/ (length vec < MAX_IOVEC)%nat /\ tst (fld m0 base (place k cur0 (done + 1)) 0) ABLK_SG_BUF = true) ->
  exists m, let w' := upd (set_req_head (place k cur0 (done + 1))) (set_mem m w) in inv (done + 1) cnt c w' /\
    engine drives (S fuel) vec count w =
      (if tst (fld m0 base (place k cur0 (done + 1)) 0) ABLK_SG_BUF then
         v ← sg_buf (place k cur0 (done + 1)) w';
         match v with
         | None => Ok (engine_error w')
         | Some (p, n) => engine drives fuel (vec ++ [(p, n)]) (s32 (count + n)) w'
         end
       else
         '(ok, w'') ← request drives (place k cur0 (done + 1)) (fld m0 base (place k cur0 (done + 1)) 0) w';
         if (ok : bool) then engine drives fuel vec count w'' else Ok (engine_error w'')).
Proof.
  intros I H1 H2 Hp Hv. destruct (take_next done cnt c w I) as (w1 & m & E1 & E2 & I'); [lia|].
  exists m. split; [exact I'|]. cbn [engine]. rewrite (proceed_eq done cnt c w I) by lia. cbn [mbind run_bind].
  rewrite (iv_head _ _ _ _ I), NEXT_eq by exact (iv_ring _ _ _ _ I).
  assert (must_execute vec (fld m0 base (place k cur0 done) 4) (place k cur0 (done + 1)) w = Ok false) as ->.
  { unfold must_execute. destruct Hv as [-> | [Hl Hf]]; [done|]. destruct (length vec =? 0)%nat; [done|].
    rewrite (proj2 (Z.eqb_neq _ _) Hp), (proj2 (Nat.eqb_neq _ _)) by lia. cbn [orb]. unfold get_flags.
    rewrite (next_field done cnt c w _ _ I) by lia. cbn [mbind run_bind]. by rewrite Hf. }
  cbn [mbind run_bind negb]. rewrite (proj2 (Z.eqb_neq _ _) Hp). rewrite <- (iv_head _ _ _ _ I), E1. cbn [mbind run_bind].
  rewrite E2. cbn [mbind run_bind]. unfold get_flags.
  assert (get_field (place k cur0 (done + 1)) 0 (set_mem m w) = Ok (fld m0 base (place k cur0 (done + 1)) 0)) as ->.
  { rewrite <- (next_field (done + 1) cnt c _ (done + 1) 0 I') by lia. done. }
  done.
Qed.

Lemma sg_buf_eq done cnt c w o : inv done cnt c w -> 0 <= done < 2 ^ k ->
  Memory.transl (Memory.ram m0) (fld m0 base (place k cur0 done) 8) = Some o ->
  sg_buf (place k cur0 done) w = Ok (Some (Memory.LRam o, fld m0 base (place k cur0 done) 12)).
Proof.
  intros I Hd Ht. unfold sg_buf. rewrite !(next_field done cnt c w _ _ I) by lia. cbn [mbind run_bind].
  unfold Memory.mphys_to_lvptr. assert (Memory.transl (Memory.ram (mem w)) (fld m0 base (place k cur0 done) 8) = Some o) as ->; [|done].
  rewrite <- Ht. unfold Memory.transl. by destruct (iv_areas _ _ _ _ I) as [-> -> _].
Qed.

(** The engine has collected a buffer. *)
Lemma step_sg fuel vec count done cnt c w o io u p : inv done cnt c w -> at_pos io u p w -> 0 <= done -> done + 1 < 2 ^ k ->
  fld m0 base (place k cur0 done) 4 <> 0 -> (length vec < MAX_IOVEC)%nat ->
  let j := place k cur0 (done + 1) in
  tst (fld m0 base j 0) ABLK_SG_BUF = true -> Memory.transl (Memory.ram m0) (fld m0 base j 8) = Some o ->
  exists w', engine drives (S fuel) vec count w =
      engine drives fuel (vec ++ [(Memory.LRam o, fld m0 base j 12)]) (s32 (count + fld m0 base j 12)) w' /\
    inv (done + 1) cnt c w' /\ at_pos io u p w'.
Proof.
  intros I (d & [A1 A2 A3 A4]) H1 H2 Hp Hl j Hf Ht.
  destruct (engine_turn fuel vec count done cnt c w I H1 H2 Hp) as (m & I' & ->); [by right|].
  subst j. rewrite Hf. eexists. split; [|split; [exact I'|]].
  - rewrite (sg_buf_eq (done + 1) cnt c _ o I') by (done || lia). done.
  - exists d. by split.
Qed.

Lemma ring_outside x : outside base k x -> forall i o, 0 <= i < 2 ^ k -> 0 <= o <= 12 ->
  ~ (base + 16 * i + o <= x < base + 16 * i + o + 4).
Proof. intros [Hx|Hx] i o Hi Ho; lia. Qed.

(** A transfer from or to buffers outside of the ring *)
Lemma inv_transfer (wr : bool) u d p b m A done cnt c w : inv done cnt c w -> devs (st w) !! u = Some d ->
  0 <= done -> Forall (outside base k) A ->
  bd_ok b (p + Z.of_nat (length A)) -> bd_len b = bd_len (bdev d) -> same_areas (mem w) m ->
  (forall x, bd_byte b x = if wr then dput p (map (ramf (mem w)) A) (bd_byte (bdev d)) x else bd_byte (bdev d) x) ->
  (forall x, ramf m x = if wr then ramf (mem w) x
    else blit A (map (bd_byte (bdev d)) (range p (Z.of_nat (length A)))) (ramf (mem w)) x) ->
  inv done cnt (move wr u p A c) (upd_dev u (set_bdev b) (set_mem m w)).
Proof.
  intros [H1 H2 H3 H4 H5 H6 H7 H8 H9 H10 H11] Ed Hd HA Hok Hlen S Hb Hm.
  assert (Hmem : forall x, x ∉ A -> ramf m x = ramf (mem w) x).
  { intros x Hx. rewrite Hm. destruct wr; [done|]. by apply blit_out. }
  assert (Hf : forall n o, 0 <= n < 2 ^ k -> 0 <= o <= 12 ->
    fld m base (place k cur0 n) o = fld (mem w) base (place k cur0 n) o).
  { intros n o Hn Ho. apply fld_ext. intros x Hx. apply Hmem. intros Hin.
    apply (proj1 (list.Forall_forall _ _) HA) in Hin. eapply ring_outside; [exact Hin| |exact Ho|exact Hx].
    apply place_range. destruct H1; lia. }
  destruct (H8 u d Ed) as (_ & HL & HK).
  split; cbn [mem st upd upd_dev set_mem set_devs req_head devs running irq n_requests ring ring_mask]; try done.
  - destruct (ring_at_mem m w H1 S). by split.
  - by etransitivity.
  - intros n Hn. destruct (decide (n < 2 ^ k)) as [Hk|Hk]; [rewrite !Hf by lia; by apply H4|].
    rewrite !(fld_ext (mem w) m) by (intros x Hx; apply Hmem; intros Hin;
      apply (proj1 (list.Forall_forall _ _) HA) in Hin;
      eapply ring_outside; [exact Hin|apply (place_range n); destruct H1; lia| |exact Hx]; lia). by apply H4.
  - intros n o Hn Ho. rewrite Hf by lia. by apply H5.
  - intros x Hx. rewrite Hm. destruct wr; cbn [move fst]; [by apply H6|].
    rewrite (map_ext (bd_byte (bdev d)) (c.2 u)) by exact HK.
    destruct (decide (x ∈ A)) as [Hin|Hin]; [|by rewrite !blit_out by done; apply H6].
    apply blit_in; [|done]. rewrite length_map, range_length. lia.
  - rewrite length_alter. exact H7.
  - intros v e. destruct (decide (u = v)) as [<-|Hv].
    + rewrite list_lookup_alter_eq, Ed. intros [= <-]. cbn [bdev set_bdev]. split; [eauto|]. split; [congruence|].
      intros x. rewrite Hb. unfold move. destruct wr; cbn [snd]; [|by apply HK]. rewrite decide_True by done.
      rewrite (map_ext_in (ramf (mem w)) c.1) by (intros y Hy%list_elem_of_In; apply H6; by apply (proj1 (list.Forall_forall _ _) HA)).
      by apply dput_ext.
    + rewrite list_lookup_alter_ne by done. intros E. destruct (H8 v e E) as (Hp & HL' & HK'). split_and!; try done.
      intros x. rewrite HK'. unfold move. destruct wr; cbn; [|done]. by rewrite decide_False by done.
Qed.

Definition io_of (wr : bool) : iofunc_t := if wr then bdev_write else bdev_read.

(** The transfer itself, in either direction *)
Lemma transfer_io (wr : bool) fuel vec done cnt c w u d p : inv done cnt c w -> 0 <= done ->
  doing (io_of wr) u d p w -> fits d p vec w -> Forall (outside base k) (addrs vec) -> (length (addrs vec) <= fuel)%nat ->
  exists w1, transfer fuel vec (sum_z (map snd vec)) w = Ok (true, w1) /\
    inv done cnt (move wr u p (addrs vec) c) w1 /\ at_pos (io_of wr) u (p + Z.of_nat (length (addrs vec))) w1.
Proof.
  intros I Hd0 Hd Hf Ho Hl. destruct wr; cbn [io_of] in *.
  - destruct (transfer_write fuel vec w u d p Hd Hf Hl) as (b & E & Hok & HL & Hb). eexists. split; [exact E|].
    change (upd_dev u (set_bdev b) w) with (upd_dev u (set_bdev b) (set_mem (mem w) w)). split.
    + apply (inv_transfer true u d p b (mem w) (addrs vec)); try done. exact (do_dev _ _ _ _ _ Hd).
    + exists (set_bdev b d). by eapply doing_upd.
  - destruct (transfer_read fuel vec w u d p Hd Hf Hl) as (b & m & E & Hok & HL & Hb & S & Hm). eexists. split; [exact E|]. split.
    + apply (inv_transfer false u d p b m (addrs vec)); try done. exact (do_dev _ _ _ _ _ Hd).
    + exists (set_bdev b d). by eapply doing_upd.
Qed.

(** The buffers collected are transferred. *)
Lemma flush (wr : bool) fuel vec done cnt c w u d p : inv done cnt c w -> 0 <= done < 2 ^ k ->
  doing (io_of wr) u d p w -> fits d p vec w -> Forall (outside base k) (addrs vec) -> (length (addrs vec) <= fuel)%nat ->
  (fld m0 base (place k cur0 done) 4 = 0 \/ length vec = MAX_IOVEC \/
   done + 1 < 2 ^ k /\ tst (fld m0 base (place k cur0 (done + 1)) 0) ABLK_SG_BUF = false) ->
  exists w', engine drives (S fuel) vec (sum_z (map snd vec)) w = engine drives (S fuel) [] 0 w' /\
    inv done (cnt + Z.of_nat (length vec)) (move wr u p (addrs vec) c) w' /\
    at_pos (io_of wr) u (p + Z.of_nat (length (addrs vec))) w'.
Proof.
  intros I Hd Hdo Hf Ho Hfuel Hm. destruct (transfer_io wr fuel vec done cnt c w u d p I) as (w1 & E & I1 & A1); try done; [lia|].
  assert (Hn : (length vec =? 0)%nat = false).
  { apply Nat.eqb_neq. destruct vec; [|done]. destruct Hf as [_ Hp _]. cbn in Hp. lia. }
  set (w2 := upd (fun a => set_n_requests (s32 (n_requests a + Z.of_nat (length vec))) a) w1).
  assert (I2 : inv done (cnt + Z.of_nat (length vec)) (move wr u p (addrs vec) c) w2).
  { destruct I1 as [H1' H2 H3 H4 H5 H6 H7 H8 H9 H10 H11]. split; try done; [by destruct H1'|].
    cbn. by rewrite H11, s32_add, Z.add_assoc. }
  assert (A2 : at_pos (io_of wr) u (p + Z.of_nat (length (addrs vec))) w2) by (destruct A1 as (d' & []); by exists d').
  set (pr := fld m0 base (place k cur0 done) 4) in *.
  assert (Hk : 0 <= k) by (destruct (iv_ring _ _ _ _ I); lia).
  exists (if tst (fld (mem w2) base (place k cur0 done) 0) ABLK_RAISE_IRQ && negb (pr =? 0) then irq_line_hi w2 else w2).
  split; [|split; [destruct (_ && _); [by apply inv_hi|done]|destruct (_ && _); [|done]; destruct A2 as (d' & []); by exists d']].
  assert (I3 : inv done (cnt + Z.of_nat (length vec)) (move wr u p (addrs vec) c)
    (if tst (fld (mem w2) base (place k cur0 done) 0) ABLK_RAISE_IRQ && negb (pr =? 0) then irq_line_hi w2 else w2)).
  { destruct (_ && _); [by apply inv_hi|done]. }
  remember (if _ && _ then irq_line_hi w2 else w2) as w' eqn:Ew. cbn [engine].
  rewrite (proceed_eq _ _ _ _ I), (proceed_eq _ _ _ _ I3), (iv_head _ _ _ _ I), (iv_head _ _ _ _ I3) by done. fold pr. cbn [mbind run_bind].
  rewrite (NEXT_eq w), (NEXT_eq w') by (exact (iv_ring _ _ _ _ I) || exact (iv_ring _ _ _ _ I3)).
  assert (must_execute vec pr (place k cur0 (done + 1)) w = Ok true) as ->.
  { unfold must_execute. rewrite Hn. destruct Hm as [-> | [-> | [Hk1 Hm]]]; [done|by rewrite orb_true_r|].
    destruct (_ || _); [done|]. unfold get_flags. rewrite (next_field _ _ _ _ (done + 1) 0 I) by lia. cbn. by rewrite Hm. }
  cbn [mbind run_bind]. unfold execute. rewrite E. cbn [mbind run_bind negb]. fold w2.
  assert (get_flags (place k cur0 done) w2 = Ok (fld (mem w2) base (place k cur0 done) 0)) as ->.
  { apply (get_field_eq base k); [exact (iv_ring _ _ _ _ I2)|by apply place_range|lia]. }
  cbn [mbind run_bind negb].
  rewrite <- Ew. done.
Qed.

(** A buffer in the RAM and outside of the ring *)
Definition buf_valid (b : desc) : Prop :=
  tst b.1.1 ABLK_SG_BUF = true /\ 0 < b.2 /\ exists o, Memory.transl (Memory.ram m0) b.1.2 = Some o /\
    o + b.2 <= Memory.size (Memory.ram m0) /\ Forall (outside base k) (range o b.2).

(** What follows the buffers of a request *)
Definition stops (rest : list desc) : Prop :=
  match rest with [] => True | b :: _ => tst b.1.1 ABLK_SG_BUF = false end.

#[local] Instance inv_proper : Proper ((=) ==> (=) ==> (≡) ==> (=) ==> impl) inv.
Proof.
  intros done _ <- cnt _ <- c c' [E1 E2] w _ <- [H1 H2 H3 H4 H5 H6 H7 H8 H9 H10 H11]. split; try done.
  - intros x Hx. by rewrite H6.
  - intros u d E. destruct (H8 u d E) as (Hp & HL & HK). split_and!; try done. intros x. by rewrite HK.
Qed.

Lemma buf_valid_ok b : buf_valid b -> buf_ok m0 (iovec_of m0 b) /\ Forall (outside base k) (addrs_of (iovec_of m0 b)) /\
  0 < b.2 /\ (iovec_of m0 b).2 = b.2.
Proof.
  intros (_ & Hn & o & Ho & Hs & Hf). unfold iovec_of. rewrite Ho. split; [|done]. exists o. cbn. split_and!; try lia; try done.
  revert Ho. unfold Memory.transl. destruct (_ <? _); [|done]. intros [= <-]. apply u32_range.
Qed.

Lemma addrs_snoc (vec : list iovec) v : addrs (vec ++ [v]) = addrs vec ++ addrs_of v.
Proof. unfold addrs. rewrite map_app, concat_app. cbn. by rewrite app_nil_r. Qed.

Lemma addrs_one (v : iovec) : addrs [v] = addrs_of v.
Proof. apply app_nil_r. Qed.

Lemma sum_snoc (vec : list iovec) v : sum_z (map snd (vec ++ [v])) = sum_z (map snd vec) + v.2.
Proof. unfold sum_z. induction vec as [|w vec IH]; cbn; [lia|]. rewrite IH. lia. Qed.

(** The pending vector: its buffers, and the space left for [n] more bytes *)
Record pending (vec : list iovec) (p n : Z) (u : nat) : Prop := {
  pd_vec : vec_ok m0 vec;
  pd_out : Forall (outside base k) (addrs vec);
  pd_pos : vec = [] \/ addrs vec <> [];
  pd_len : (length vec <= MAX_IOVEC)%nat;
  pd_n : 0 <= n;
  pd_small : Z.of_nat (length (addrs vec)) + n < 2 ^ 31;
  pd_room : p + Z.of_nat (length (addrs vec)) + n <= L u
}.

Lemma pending_snoc vec p b n u : pending vec p (b.2 + n) u -> 0 <= n -> buf_valid b -> (length vec < MAX_IOVEC)%nat ->
  pending (vec ++ [iovec_of m0 b]) p n u /\ s32 (sum_z (map snd vec) + b.2) = sum_z (map snd (vec ++ [iovec_of m0 b])).
Proof.
  intros [P1 P2 P3 P4 P0 P5 P6] Hn Hb Hl. destruct (buf_valid_ok b Hb) as (B1 & B2 & B3 & B4).
  assert (Hlen : Z.of_nat (length (addrs (vec ++ [iovec_of m0 b]))) = Z.of_nat (length (addrs vec)) + b.2).
  { rewrite addrs_snoc, length_app. unfold addrs_of. rewrite range_length, B4. lia. }
  pose proof (addrs_length m0 vec P1) as Hs. split.
  - split; try lia.
    + apply Forall_app. by split; [|apply list.Forall_cons].
    + rewrite addrs_snoc. by apply Forall_app.
    + right. intros E. rewrite E in Hlen. cbn in Hlen. lia.
    + rewrite length_app. cbn. lia.
  - rewrite sum_snoc, B4. apply s32_small. lia.
Qed.

Lemma pending_fits vec p n u d done cnt c w : pending vec p n u -> inv done cnt c w -> devs (st w) !! u = Some d ->
  vec <> [] -> fits d p vec w.
Proof.
  intros [P1 P2 P3 P4 P0 P5 P6] I Ed Hv. destruct (iv_devs _ _ _ _ I u d Ed) as (_ & HL & _). split.
  - eapply same_areas_vec; [exact (iv_areas _ _ _ _ I)|done].
  - destruct P3 as [->|Ha]; [done|]. destruct (addrs vec); [done|cbn in *; lia].
  - rewrite HL. lia.
Qed.

Lemma pending_nil p n u : 0 <= n -> n < 2 ^ 31 -> p + n <= L u -> pending [] p n u.
Proof. intros H1 H2 H3. split; try done; cbn; try lia; try (by constructor); by left. Qed.

(** A full vector is transferred before the next buffer. *)
Lemma flush_pending (wr : bool) fuel vec done cnt c w u p n : inv done cnt c w -> 0 <= done < 2 ^ k ->
  at_pos (io_of wr) u p w -> pending vec p n u -> (length (addrs vec) <= fuel)%nat ->
  (vec = [] \/ fld m0 base (place k cur0 done) 4 = 0 \/ length vec = MAX_IOVEC \/
   done + 1 < 2 ^ k /\ tst (fld m0 base (place k cur0 (done + 1)) 0) ABLK_SG_BUF = false) ->
  exists w', engine drives (S fuel) vec (sum_z (map snd vec)) w = engine drives (S fuel) [] 0 w' /\
    inv done (cnt + Z.of_nat (length vec)) (move wr u p (addrs vec) c) w' /\
    at_pos (io_of wr) u (p + Z.of_nat (length (addrs vec))) w'.
Proof.
  intros I Hd (d & Hdo) Hpd Hfuel Hm. destruct (decide (vec = [])) as [->|Hne].
  - exists w. cbn. rewrite !Z.add_0_r. split_and!; [done| |by exists d].
    eapply inv_proper; [done|done|symmetry; apply move_nil|done|exact I].
  - destruct Hm as [Hm|Hm]; [done|]. eapply flush; try done; [|by destruct Hpd].
    eapply pending_fits; try done. by destruct Hdo.
Qed.

(** A buffer is collected; a full vector has been transferred before. *)
Lemma take_buf (wr : bool) fuel vec done cnt c w u p n b : inv done cnt c w -> 0 <= done -> done + 1 < 2 ^ k ->
  at_pos (io_of wr) u p w -> pending vec p (b.2 + n) u -> 0 <= n -> buf_valid b -> (length (addrs vec) <= fuel)%nat ->
  fld m0 base (place k cur0 done) 4 <> 0 ->
  (let j := place k cur0 (done + 1) in fld m0 base j 0 = b.1.1 /\ fld m0 base j 8 = b.1.2 /\ fld m0 base j 12 = b.2) ->
  exists vec' p' c' w', engine drives (S fuel) vec (sum_z (map snd vec)) w = engine drives fuel vec' (sum_z (map snd vec')) w' /\
    inv (done + 1) (cnt + Z.of_nat (length vec) + 1 - Z.of_nat (length vec')) c' w' /\
    at_pos (io_of wr) u p' w' /\ pending vec' p' n u /\ (length (addrs vec') <= length (addrs vec) + Z.to_nat b.2)%nat /\
    forall A, move wr u p' (addrs vec' ++ A) c' ≡ move wr u p (addrs vec ++ addrs_of (iovec_of m0 b) ++ A) c.
Proof.
  intros I H1 H2 Hat Hpd Hn Hb Hfuel Hp (F0 & F8 & F12). destruct (buf_valid_ok b Hb) as (_ & _ & B3 & B4).
  assert (Hiv : forall o, Memory.transl (Memory.ram m0) b.1.2 = Some o -> (Memory.LRam o, b.2) = iovec_of m0 b).
  { intros o E. unfold iovec_of. by rewrite E. }
  destruct Hb as (Hf & Hpos & o & Ht & Hb). assert (Hb' : buf_valid b) by (split; [done|split; [done|by exists o]]).
  assert (Hlen : (length (addrs_of (iovec_of m0 b)) = Z.to_nat b.2)%nat) by (unfold addrs_of; by rewrite range_length, B4).
  destruct (decide (length vec = MAX_IOVEC)) as [Hmax|Hmax].
  - destruct (flush_pending wr fuel vec done cnt c w u p (b.2 + n) I) as (w1 & E1 & I1 & A1); try done; [lia|by right; right; left|].
    destruct (step_sg fuel [] 0 done _ _ w1 o _ u _ I1 A1 H1 H2 Hp) as (w2 & E2 & I2 & A2);
      [cbn; unfold MAX_IOVEC; lia|by rewrite F0|by rewrite F8|].
    rewrite F12, Hiv in E2 by done. cbn [app] in E2.
    assert (Hp0 : pending [] (p + Z.of_nat (length (addrs vec))) (b.2 + n) u).
    { destruct Hpd. apply pending_nil; lia. }
    destruct (pending_snoc [] _ b n u Hp0 Hn Hb') as [P' S']; [cbn; unfold MAX_IOVEC; lia|]. cbn [app map sum_z fold_right] in P', S'.
    eexists [iovec_of m0 b], _, _, w2. rewrite E1, E2. change (sum_z (map snd [])) with 0 in S'. cbn in S'. rewrite S'. split; [done|]. split.
    { cbn [length]. by replace (cnt + Z.of_nat (length vec) + 1 - Z.of_nat 1) with (cnt + Z.of_nat (length vec)) by lia. }
    split; [exact A2|]. split; [exact P'|]. rewrite addrs_one, Hlen. split; [lia|].
    intros A. apply move_app.
  - assert (Hlt : (length vec < MAX_IOVEC)%nat) by (destruct Hpd; lia).
    destruct (step_sg fuel vec (sum_z (map snd vec)) done cnt c w o _ u p I Hat H1 H2 Hp) as (w2 & E2 & I2 & A2);
      [done|by rewrite F0|by rewrite F8|]. rewrite F12, Hiv in E2 by done.
    destruct (pending_snoc vec p b n u Hpd Hn Hb' Hlt) as [P' S']. rewrite S' in E2.
    exists (vec ++ [iovec_of m0 b]), p, c, w2. split; [exact E2|]. split.
    { rewrite length_app. cbn [length]. by replace (cnt + _ + 1 - _) with cnt by lia. }
    rewrite addrs_snoc, length_app, Hlen. split_and!; try done; try lia. intros A. by rewrite <- app_assoc.
Qed.

Lemma bufs_loop (wr : bool) u rest bufs : forall vec fuel done cnt c w p,
  inv done cnt c w -> 0 <= done -> done + Z.of_nat (length (bufs ++ rest)) < 2 ^ k ->
  at_pos (io_of wr) u p w -> queued m0 base k cur0 done (bufs ++ rest) -> Forall buf_valid bufs -> stops rest ->
  pending vec p (sum_z (map snd bufs)) u -> (length (addrs vec) + Z.to_nat (sum_z (map snd bufs)) <= fuel)%nat ->
  exists w', engine drives (length bufs + S fuel) vec (sum_z (map snd vec)) w = engine drives (S fuel) [] 0 w' /\
    inv (done + Z.of_nat (length bufs)) (cnt + Z.of_nat (length vec) + Z.of_nat (length bufs))
      (move wr u p (addrs vec ++ addrs (map (iovec_of m0) bufs)) c) w'.
Proof.
  induction bufs as [|b bufs IH]; intros vec fuel done cnt c w p I H1 H2 Hat Hq Hb Hs Hpd Hfuel.
  - destruct (flush_pending wr fuel vec done cnt c w u p 0 I) as (w' & E & I' & _); try exact Hat; try exact Hpd;
      [cbn in *; lia|lia| |].
    { right. destruct rest as [|[[f a] n] rest]; [by left|right; right]. cbn in H2, Hq, Hs. split; [lia|].
      destruct Hq as (_ & (-> & _) & _). exact Hs. }
    exists w'. split; [exact E|]. cbn [length map]. change (addrs []) with (@nil Z). by rewrite app_nil_r, !Z.add_0_r.
  - apply list.Forall_cons in Hb as [Hb Hbs]. destruct b as [[f a] n]. cbn [app queued] in Hq. destruct Hq as (Hp & HF & Hq).
    assert (Hn : 0 <= sum_z (map snd bufs)).
    { apply sum_z_nonneg, Forall_map. eapply list.Forall_impl; [exact Hbs|]. intros b (_ & H' & _). cbn. lia. }
    change (sum_z (map snd ((f, a, n) :: bufs))) with (n + sum_z (map snd bufs)) in *.
    assert (Hn0 : 0 < n) by (by destruct Hb as (_ & ? & _)). cbn [length app] in *.
    destruct (take_buf wr (length bufs + S fuel) vec done cnt c w u p (sum_z (map snd bufs)) (f, a, n) I H1) as
      (vec' & p' & c' & w1 & E1 & I1 & A1 & P1 & L1 & M1); try exact Hat; try exact Hpd; try done; try lia.
    destruct (IH vec' fuel (done + 1) (cnt + Z.of_nat (length vec) + 1 - Z.of_nat (length vec')) c' w1 p' I1) as (w' & E' & I'); try done; try lia; [cbn in L1; lia|].
    exists w'. cbn [Nat.add]. split; [by rewrite E1, E'|].
    replace (done + Z.of_nat (S (length bufs))) with (done + 1 + Z.of_nat (length bufs)) by lia.
    replace (cnt + _ + Z.of_nat (S (length bufs))) with
      (cnt + Z.of_nat (length vec) + 1 - Z.of_nat (length vec') + Z.of_nat (length vec') + Z.of_nat (length bufs)) by lia.
    eapply inv_proper; [done|done|apply M1|done|exact I'].
Qed.

(** A request for a part of a disk *)
Record req_valid (r : req) : Prop := {
  rv_sg : tst (rq_flags r) ABLK_SG_BUF = false;
  rv_rw : tst (rq_flags r) (ABLK_READ_REQ .| ABLK_WRITE_REQ) = true;
  rv_unit : (rq_unit r < nd)%nat;
  rv_sector : 0 <= rq_sector r < 2 ^ 31;
  rv_bufs : Forall buf_valid (rq_bufs r);
  rv_small : sum_z (map snd (rq_bufs r)) < 2 ^ 31;
  rv_room : 512 * rq_sector r + sum_z (map snd (rq_bufs r)) <= L (rq_unit r)
}.

Lemma req_total r : req_valid r -> 0 <= sum_z (map snd (rq_bufs r)).
Proof.
  intros [_ _ _ _ Hb _ _]. apply sum_z_nonneg, Forall_map. eapply list.Forall_impl; [exact Hb|].
  intros b (_ & H' & _). cbn. lia.
Qed.

(** The state after the seek *)
Lemma inv_seek io done cnt c w u d b : inv done cnt c w -> devs (st w) !! u = Some d ->
  (exists p, bd_ok b p) -> bd_len b = bd_len (bdev d) -> (forall x, bd_byte b x = bd_byte (bdev d) x) ->
  inv done (cnt + 1) c (upd (fun a => set_n_requests (s32 (n_requests a + 1)) a)
    (upd_dev u (set_bdev b) (upd (set_iofunc io) (upd (set_cur_dev (Z.of_nat u)) w)))).
Proof.
  intros [H1 H2 H3 H4 H5 H6 H7 H8 H9 H10 H11] Ed Hp HL Hb. split; try done.
  - by destruct H1.
  - cbn. by rewrite length_alter.
  - cbn. intros v e. destruct (decide (u = v)) as [<-|Hv].
    + rewrite list_lookup_alter_eq, Ed. intros [= <-]. destruct (H8 u d Ed) as (_ & HL' & HK). cbn.
      split_and!; [done|congruence|]. intros x. by rewrite Hb.
    + rewrite list_lookup_alter_ne by done. apply H8.
  - cbn. by rewrite H11, s32_add, Z.add_assoc.
Qed.

Lemma step_req fuel done cnt c w r : inv done cnt c w -> 0 <= done -> done + 1 < 2 ^ k -> req_valid r ->
  fld m0 base (place k cur0 done) 4 <> 0 ->
  (let j := place k cur0 (done + 1) in
   fld m0 base j 0 = rq_flags r /\ fld m0 base j 8 = Z.of_nat (rq_unit r) /\ fld m0 base j 12 = rq_sector r) ->
  exists w', engine drives (S fuel) [] 0 w = engine drives fuel [] 0 w' /\ inv (done + 1) (cnt + 1) c w' /\
    at_pos (io_of (rq_write r)) (rq_unit r) (512 * rq_sector r) w'.
Proof.
  intros I H1 H2 Hv Hp (F0 & F8 & F12). pose proof (req_total r Hv) as Ht. destruct Hv as [V1 V2 V3 V4 V5 V6 V7].
  destruct (engine_turn fuel [] 0 done cnt c w I H1 H2 Hp) as (m & I' & ->); [by left|]. rewrite F0, V1.
  remember (upd _ (set_mem m w)) as w1 eqn:Ew. clear Ew. unfold request.
  rewrite !(next_field (done + 1) cnt c w1 (done + 1)), F8, F12 by (exact I' || lia). cbn [mbind run_bind].
  rewrite (iv_ndevs _ _ _ _ I'). rewrite (proj2 (Z.leb_gt _ _)) by lia.
  destruct (lookup_lt_is_Some_2 (devs (st w1)) (rq_unit r)) as [d Ed]; [rewrite (iv_ndevs _ _ _ _ I'); lia|].
  rewrite (dev_at_eq (rq_unit r) (upd (set_cur_dev (Z.of_nat (rq_unit r))) w1) d Ed). cbn [mbind run_bind]. rewrite V2, s32_small, Nat2Z.id by lia.
  destruct (iv_devs _ _ _ _ I' (rq_unit r) d Ed) as ((p & Hok) & HL & HK).
  destruct (seek_law (bdev d) p (rq_sector r) Hok) as (q & b & -> & Hq & Hokb & HLb & HKb); [lia|lia|].
  rewrite (proj2 (Z.ltb_ge q 0)) by lia. cbn [negb mbind run_bind]. fold (rq_write r).
  change (if rq_write r then bdev_write else bdev_read) with (io_of (rq_write r)).
  eexists. split; [reflexivity|]. split; [by eapply inv_seek; eauto|].
  exists (set_bdev b d). replace (512 * rq_sector r) with (rq_sector r * 512) by lia.
  split; [done|done| |done]. cbn. by rewrite list_lookup_alter_eq, Ed.
Qed.

(** ** Batches *)

Lemma stops_batch rs : Forall req_valid rs -> stops (concat (map rq_descs rs)).
Proof. intros Hv. destruct Hv as [|r rs [V _ _ _ _ _ _] _]; [done|exact V]. Qed.

Lemma rq_addrs_length r : req_valid r -> Z.of_nat (length (rq_addrs m0 r)) = sum_z (map snd (rq_bufs r)).
Proof.
  intros [_ _ _ _ Hb _ _]. unfold rq_addrs. rewrite (addrs_length m0).
  - f_equal. rewrite map_map. apply map_ext_in. intros b Hin%list_elem_of_In.
    apply (proj1 (list.Forall_forall _ _) Hb) in Hin. by apply buf_valid_ok.
  - apply Forall_map. eapply list.Forall_impl; [exact Hb|]. intros b Hv. by apply buf_valid_ok.
Qed.

Lemma queued_app ds1 : forall n ds2, queued m0 base k cur0 n (ds1 ++ ds2) ->
  queued m0 base k cur0 (n + Z.of_nat (length ds1)) ds2.
Proof.
  induction ds1 as [|[[f a] b] ds1 IH]; intros n ds2 Hq; [cbn; by rewrite Z.add_0_r|].
  cbn [app queued] in Hq. destruct Hq as (_ & _ & Hq%IH). cbn [length].
  by replace (n + Z.of_nat (S (length ds1))) with (n + 1 + Z.of_nat (length ds1)) by lia.
Qed.

Lemma batch fuel rs : forall done cnt c w, inv done cnt c w -> 0 <= done ->
  done + Z.of_nat (length (concat (map rq_descs rs))) < 2 ^ k -> Forall req_valid rs ->
  queued m0 base k cur0 done (concat (map rq_descs rs)) ->
  Forall (fun r => sum_z (map snd (rq_bufs r)) <= Z.of_nat fuel) rs ->
  exists w', engine drives (length (concat (map rq_descs rs)) + S fuel) [] 0 w = engine drives (S fuel) [] 0 w' /\
    let n := Z.of_nat (length (concat (map rq_descs rs))) in
    inv (done + n) (cnt + n) (fold_left (do_req m0) rs c) w' /\ fld m0 base (place k cur0 (done + n)) 4 = 0.
Proof.
  induction rs as [|r rs IH]; intros done cnt c w I H1 H2 Hv Hq Hfuel.
  - exists w. cbn. by rewrite !Z.add_0_r.
  - apply list.Forall_cons in Hv as [Hr Hv], Hfuel as [Hf Hfuel]. pose proof (req_total r Hr) as Ht.
    cbn [map concat rq_descs app queued length] in *. rewrite length_app in *. destruct Hq as (Hp & HF & Hq).
    set (rest := concat (map rq_descs rs)) in *.
    destruct (step_req (length (rq_bufs r) + (length rest + S fuel)) done cnt c w r I H1)
      as (w1 & E1 & I1 & A1); try done; [lia|].
    destruct (bufs_loop (rq_write r) (rq_unit r) rest (rq_bufs r) []
      (length rest + fuel) (done + 1) (cnt + 1) c w1 (512 * rq_sector r) I1) as (w2 & E2 & I2); try exact A1; try done;
      [lia|rewrite length_app; lia|by destruct Hr|by apply stops_batch|destruct Hr; apply pending_nil; lia|cbn; lia|].
    apply queued_app in Hq. cbn [addrs map concat app length] in I2. fold (rq_addrs m0 r) in I2.
    replace (cnt + 1 + Z.of_nat 0 + Z.of_nat (length (rq_bufs r))) with (cnt + 1 + Z.of_nat (length (rq_bufs r))) in I2 by lia.
    destruct (IH _ _ _ w2 I2) as (w3 & E3 & I3 & F3); try done; [lia|lia|].
    exists w3. replace (Z.of_nat (S (length (rq_bufs r) + length rest))) with
      (1 + Z.of_nat (length (rq_bufs r)) + Z.of_nat (length rest)) by lia. rewrite !Z.add_assoc. split; [|by split].
    rewrite <- E3. replace (S (length (rq_bufs r) + length rest) + S fuel)%nat with
      (S (length (rq_bufs r) + (length rest + S fuel))) by lia.
    rewrite E1. replace (length rest + S fuel)%nat with (S (length rest + fuel)) by lia. exact E2.
Qed.

End Batch.

(** The engine may start: the memory outside of the ring and the disks, of
    the lengths [L], are [c]. *)
Record engine_ready (base k : Z) (L : nat -> Z) (c : contents) (w : world) : Prop := {
  er_ring : ring_at base k w;
  er_head : 0 <= req_head (st w) < 2 ^ k;
  er_mem x : outside base k x -> ramf (mem w) x = c.1 x;
  er_devs u d : devs (st w) !! u = Some d ->
    (exists p, bd_ok (bdev d) p) /\ bd_len (bdev d) = L u /\ forall x, bd_byte (bdev d) x = c.2 u x;
  er_running : running (st w) = true;
  er_count : n_requests (st w) = s32 (n_requests (st w))
}.

Lemma ready_inv base k L c w : engine_ready base k L c w ->
  inv base k (req_head (st w)) (mem w) L (length (devs (st w))) (irq (st w)) (n_requests (st w)) 0 0 c w.
Proof.
  intros [H1 H2 H3 H4 H5 H6]. split; try done.
  - unfold place. by rewrite Z.add_0_r, Z.mod_small.
  - intros n Hn. lia.
  - by rewrite Z.add_0_r.
Qed.

(** C2: A batch of read and write requests in the ring, with buffers in the
    RAM outside of the ring: [do_work] ends, with fuel for the elements and
    the bytes, and the guest memory and the disks are then those of the
    requests carried out one after the other, although vectors are split
    after 32 buffers and the devices may transfer less than asked for.  The
    engine is idle with its interrupt line raised, the head has moved behind
    the last element, all elements have been counted and the ones taken are
    free again. *)
Theorem do_work_batch `{IL : !Pic.IrqLaws P} base k L c w rs drives fuel :
  engine_ready base k L c w ->
  let ds := concat (map rq_descs rs) in
  let n := Z.of_nat (length ds) in
  n < 2 ^ k -> Forall (req_valid base k (mem w) L (length (devs (st w)))) rs ->
  queued (mem w) base k (req_head (st w)) 0 ds ->
  Forall (fun r => sum_z (map snd (rq_bufs r)) <= Z.of_nat fuel) rs ->
  exists w', do_work drives (length ds + S fuel) w = Ok w' /\
    let c' := fold_left (do_req (mem w)) rs c in
    (forall x, outside base k x -> ramf (mem w') x = c'.1 x) /\
    (forall u d, devs (st w') !! u = Some d -> forall x, bd_byte (bdev d) x = c'.2 u x) /\
    active (st w') = false /\ running (st w') = true /\
    (Pic.valid_irq (irq (st w)) -> Pic.line (pic w') (irq (st w)) = true) /\
    req_head (st w') = (req_head (st w) + n) mod 2 ^ k /\ n_requests (st w') = s32 (n_requests (st w) + n) /\
    forall i, 0 <= i < n -> let j := (req_head (st w) + i) mod 2 ^ k in get_flags j w' = Ok 0 /\ get_proceed j w' = Ok 0.
Proof.
  intros Hr ds n Hn Hv Hq Hf. pose proof (ready_inv _ _ _ _ _ Hr) as I.
  assert (Hk : 0 <= k) by (destruct (er_ring _ _ _ _ _ Hr); lia).
  destruct (batch base k (req_head (st w)) (mem w) L _ _ _ drives fuel rs 0 0 c w I) as (w1 & E & I1 & F); try done.
  rewrite !Z.add_0_l in I1, F. fold ds n in E, I1, F. exists (engine_stall w1). split.
  { unfold do_work. rewrite E. cbn [engine].
    rewrite (proceed_eq base k _ _ _ _ _ _ n n _ w1 I1), F by lia. done. }
  pose proof (iv_ring _ _ _ _ _ _ _ _ _ _ _ _ I1) as R. cbn zeta. split_and!.
  - intros x Hx. by apply (iv_mem _ _ _ _ _ _ _ _ _ _ _ _ I1).
  - intros u d E' x. by apply (iv_devs _ _ _ _ _ _ _ _ _ _ _ _ I1 u d E').
  - done.
  - exact (iv_running _ _ _ _ _ _ _ _ _ _ _ _ I1).
  - intros Hirq. cbn. rewrite (iv_irq _ _ _ _ _ _ _ _ _ _ _ _ I1), Pic.hi_line by done. by rewrite Z.eqb_refl.
  - exact (iv_head _ _ _ _ _ _ _ _ _ _ _ _ I1).
  - exact (iv_count _ _ _ _ _ _ _ _ _ _ _ _ I1).
  - intros i Hi. destruct (iv_done _ _ _ _ _ _ _ _ _ _ _ _ I1 i Hi) as [D0 D4].
    assert (R' : ring_at base k (engine_stall w1)) by (by destruct R).
    unfold get_flags, get_proceed. split.
    + rewrite (get_field_eq base k); [f_equal; exact D0|exact R'|by apply (place_range k _ i)|lia].
    + rewrite (get_field_eq base k); [f_equal; exact D4|exact R'|by apply (place_range k _ i)|lia].
Qed.

End Ring.

(** ** A batch on a file with short writes

    A ring of eight elements at the start of a RAM of 1 KB; 24 bytes in two
    buffers are written to sector 1 of a file, and read back elsewhere. *)
Module Example_.

Definition ex_slot (f pr a b : Z) : list Z := concat (map (be_bytes 4) [f; pr; a; b]).
Definition ex_ring : list Z :=
  ex_slot 0 1 0 0 ++ ex_slot ABLK_WRITE_REQ 1 0 1 ++ ex_slot ABLK_SG_BUF 1 0x100 8 ++ ex_slot ABLK_SG_BUF 1 0x180 16 ++
  ex_slot (ABLK_READ_REQ .| ABLK_RAISE_IRQ) 1 0 1 ++ ex_slot ABLK_SG_BUF 0 0x200 24.
Definition ex_mem : Memory.memory :=
  Memory.Mem (Memory.Bank 0 0x400 (FileIO.put_bytes (FileIO.put_bytes (FileIO.put_bytes ∅ 0 ex_ring) 0x100 (map Z.of_nat (seq 1 8)))
    0x180 (map Z.of_nat (seq 9 16)))) (Memory.Bank 0xfff00000 0 ∅).
Definition ex_file : FileIO.file := FileIO.File ∅ 2048 0 [3; 10].
Definition ex_dev : ablk_device (D := raw) := Dev 5 BF_ENABLE_WRITE 2048 (Some ex_file) ABLK_INFO_MEDIA_PRESENT 0 false 0.
#[global] Instance ex_controller : Pic.IrqController Pic.pic_state := Pic.pic_controller false.
#[global] Instance ex_laws : @Pic.IrqLaws Pic.pic_state ex_controller := Pic.pic_laws false.
Definition ex_pic : Pic.pic_state :=
  let r := Pic.PicRegs 0 0 0 0 (0, 0) (0, 0) in Pic.PicState r r false.
Definition ex_world : world (D := raw) (P := Pic.pic_state) :=
  W ex_mem ex_pic (Ablk 7 [ex_dev] true true 0 0 false 0 7 (Some (Memory.LRam 0)) 0 (-1) dummy_io) [].
Definition ex_reqs : list req :=
  [Req ABLK_WRITE_REQ 0 1 [(ABLK_SG_BUF, 0x100, 8); (ABLK_SG_BUF, 0x180, 16)];
   Req (ABLK_READ_REQ .| ABLK_RAISE_IRQ) 0 1 [(ABLK_SG_BUF, 0x200, 24)]].
Definition ex_contents : contents := (ramf ex_mem, fun u x => 0).

Lemma ex_ready : engine_ready 0 3 (fun _ => 2048) ex_contents ex_world.
Proof.
  split; try done. intros [|u] d; [|by destruct u]. intros [= <-]. split; [|done].
  exists 0, ex_file. split_and!; try done; cbn; try lia. repeat constructor.
Qed.

Lemma ex_buf (b : desc) : tst b.1.1 ABLK_SG_BUF = true -> 0 < b.2 -> Memory.transl (Memory.ram ex_mem) b.1.2 = Some b.1.2 ->
  b.1.2 + b.2 <= 0x400 -> 128 <= b.1.2 -> buf_valid 0 3 ex_mem b.
Proof.
  intros H1 H2 H3 H4 H5. split; [done|]. split; [done|]. exists b.1.2. split_and!; try done.
  apply list.Forall_forall. intros x Hx%elem_of_range. right. cbn. lia.
Qed.

Lemma ex_valid : Forall (req_valid 0 3 ex_mem (fun _ => 2048) 1) ex_reqs.
Proof.
  repeat (apply list.Forall_cons; split); try done.
  all: split; cbn; try done; try lia; repeat (apply list.Forall_cons; split); try done.
  all: apply ex_buf; done.
Qed.

End Example_.

Lemma do_work_batch_witness :
  exists w', do_work (fun _ => Drive 0 0 0 0 None None) (5 + 25) Example_.ex_world = Ok w' /\ active (st w') = false /\
    map (ramf (mem w')) (range 0x200 24) = map Z.of_nat (seq 1 24) /\
    (forall d, devs (st w') !! 0%nat = Some d -> map (bd_byte (bdev d)) (range 512 24) = map Z.of_nat (seq 1 24)) /\
    n_requests (st w') = 5.
Proof.
  destruct (do_work_batch 0 3 (fun _ => 2048) Example_.ex_contents Example_.ex_world Example_.ex_reqs
    (fun _ => Drive 0 0 0 0 None None) 24 Example_.ex_ready) as (w' & E & HM & HK & Ha & _ & _ & _ & Hn & _);
    [done|exact Example_.ex_valid|cbn; by vm_compute|repeat constructor; cbn; lia|].
  exists w'. split; [exact E|]. split; [exact Ha|]. split_and!.
  - erewrite map_ext_in; [|intros x Hx%list_elem_of_In%elem_of_range; apply HM; right; cbn; lia]. by vm_compute.
  - intros d Hd. erewrite map_ext; [|intros x; by apply (HK 0%nat)]. by vm_compute.
  - etransitivity; [exact Hn|by vm_compute].
Defined.

End AblkRing.
