(* ===== verification/AblkThread.v ===== *)
(** * The block driver: the engine and the guest side by side

    The thread of the engine ([io_thread], [do_work]) and the OSI calls of
    the guest ([osip_ablk_kick], [osip_ablk_irq_ack]) of
    [src/drivers/disk/ablk.c] share [active], [running], [event], the
    [proceed] fields of the ring, the pipe and the interrupt line without a
    lock.  Each access to one of them is a step here; what the engine does
    with a request is Ablk's.  The channel has been started and is not
    stopped meanwhile.

    The client follows the rule of the comment in [osip_ablk_irq_ack]: it
    only calls [kick] for a new request if the last acknowledge returned 0 in
    [active]. *)

From stdpp Require Import finite.
From S2P Require Import Prelude.

Module AblkThread.

(** Where the thread of the engine is *)
Inductive engine_pc :=
  | EBlocked     (** in [read( ablk.ctrl_pipe[0], .. )] *)
  | ELoop        (** before [proceed = cur->proceed] *)
  | EWork        (** [proceed] was set: before [cur->proceed = 0] *)
  | ETaken       (** with the request at hand *)
  | EPost        (** in [ablk_post_event], [ablk.event] set, line not raised *)
  | EStall       (** [proceed] was 0: before [ablk.active = 0] *)
  | EError       (** before [ablk.running = 0] *)
  | EError2      (** before [ablk.active = 0] of the error path *)
  | ERaise.      (** before the last [irq_line_hi] *)

(** Inside of [osip_ablk_kick] *)
Inductive kick_pc :=
  | KTest        (** before [if( ablk.active )] *)
  | KSet         (** before [ablk.active = 1] *)
  | KWrite.      (** before [write( ablk.ctrl_pipe[1], .. )] *)

(** Where the processor of the guest is *)
Inductive guest_pc :=
  | GIdle
  | GKick (k : kick_pc)
  | GAckLow      (** before [irq_line_low( ablk.irq )] *)
  | GAckActive   (** before [!ablk.active] *)
  | GAckRunning  (** before [ablk.running] *)
  | GAckProceed  (** before [ablk.ring[ablk.req_head].proceed] *)
  | GAckKick (k : kick_pc)
  | GAckResult   (** before [mregs->gpr[5] = ablk.active] *)
  | GAckEvent    (** before [mregs->gpr[6] = ablk.event] *)
  | GAckClear (e : bool).  (** [e] in r6, before [ablk.event = 0] *)

(** [queued]: elements not taken yet; [posted]: a device has an event the
    client has not been told of; [known]: what the client believes of
    [active]; [owed]: it is going to kick for a request it has queued. *)
Record state := St {
  epc : engine_pc; gpc : guest_pc;
  active : bool; running : bool; event : bool; pipe : nat; line : bool; queued : nat; posted : bool;
  known : bool; owed : bool
}.

Definition set_epc v s := St v (gpc s) (active s) (running s) (event s) (pipe s) (line s) (queued s) (posted s) (known s) (owed s).
Definition set_gpc v s := St (epc s) v (active s) (running s) (event s) (pipe s) (line s) (queued s) (posted s) (known s) (owed s).
Definition set_active v s := St (epc s) (gpc s) v (running s) (event s) (pipe s) (line s) (queued s) (posted s) (known s) (owed s).
Definition set_running v s := St (epc s) (gpc s) (active s) v (event s) (pipe s) (line s) (queued s) (posted s) (known s) (owed s).
Definition set_event v s := St (epc s) (gpc s) (active s) (running s) v (pipe s) (line s) (queued s) (posted s) (known s) (owed s).
Definition set_pipe v s := St (epc s) (gpc s) (active s) (running s) (event s) v (line s) (queued s) (posted s) (known s) (owed s).
Definition set_line v s := St (epc s) (gpc s) (active s) (running s) (event s) (pipe s) v (queued s) (posted s) (known s) (owed s).
Definition set_queued v s := St (epc s) (gpc s) (active s) (running s) (event s) (pipe s) (line s) v (posted s) (known s) (owed s).
Definition set_posted v s := St (epc s) (gpc s) (active s) (running s) (event s) (pipe s) (line s) (queued s) v (known s) (owed s).
Definition set_known v s := St (epc s) (gpc s) (active s) (running s) (event s) (pipe s) (line s) (queued s) (posted s) v (owed s).
Definition set_owed v s := St (epc s) (gpc s) (active s) (running s) (event s) (pipe s) (line s) (queued s) (posted s) (known s) v.

(** ** Steps *)

(** The engine: [io_thread] and [do_work] *)
Inductive engine_step : state -> state -> Prop :=
  | e_read s n : epc s = EBlocked -> pipe s = S n -> engine_step s (set_epc ELoop (set_pipe n s))
  | e_proceed s n : epc s = ELoop -> queued s = S n -> engine_step s (set_epc EWork s)
  | e_no_proceed s : epc s = ELoop -> queued s = O -> engine_step s (set_epc EStall s)
  | e_take s n : epc s = EWork -> queued s = S n -> engine_step s (set_epc ETaken (set_queued n s))
  | e_done s : epc s = ETaken -> engine_step s (set_epc ELoop s)
  | e_done_irq s : epc s = ETaken -> engine_step s (set_epc ELoop (set_line true s))
  | e_failed s : epc s = ETaken -> engine_step s (set_epc EError s)
  | e_post s : epc s = ETaken -> engine_step s (set_epc EPost (set_event true (set_posted true s)))
  | e_post_irq s : epc s = EPost -> engine_step s (set_epc ELoop (set_line true s))
  | e_error s : epc s = EError -> engine_step s (set_epc EError2 (set_running false s))
  | e_error2 s : epc s = EError2 -> engine_step s (set_epc ERaise (set_active false s))
  | e_stall s : epc s = EStall -> engine_step s (set_epc ERaise (set_active false s))
  | e_raise s : epc s = ERaise -> engine_step s (set_epc EBlocked (set_line true s)).

(** The body of [osip_ablk_kick], returning to [ret] *)
Inductive kick_step (at_k : kick_pc -> guest_pc) (ret : state -> state) : state -> state -> Prop :=
  | k_active s : gpc s = at_k KTest -> active s = true -> kick_step at_k ret s (ret s)
  | k_idle s : gpc s = at_k KTest -> active s = false -> kick_step at_k ret s (set_gpc (at_k KSet) s)
  | k_set s : gpc s = at_k KSet -> kick_step at_k ret s (set_gpc (at_k KWrite) (set_active true s))
  | k_write s : gpc s = at_k KWrite -> kick_step at_k ret s (ret (set_pipe (S (pipe s)) s)).

(** The client returns from a kick. *)
Definition kick_return (s : state) : state := set_gpc GIdle (set_known true (set_owed false s)).

(** The guest inside of an OSI call *)
Inductive call_step : state -> state -> Prop :=
  | g_kick s s' : kick_step GKick kick_return s s' -> call_step s s'
  | g_not_ours s : gpc s = GAckLow -> line s = false -> call_step s (set_gpc GIdle s)
  | g_low s : gpc s = GAckLow -> line s = true -> call_step s (set_gpc GAckActive (set_line false s))
  | g_active s : gpc s = GAckActive -> call_step s (set_gpc (if active s then GAckResult else GAckRunning) s)
  | g_running s : gpc s = GAckRunning -> call_step s (set_gpc (if running s then GAckProceed else GAckResult) s)
  | g_proceed s : gpc s = GAckProceed ->
      call_step s (set_gpc (match queued s with O => GAckResult | _ => GAckKick KTest end) s)
  | g_ack_kick s s' : kick_step GAckKick (set_gpc GAckResult) s s' -> call_step s s'
  | g_result s : gpc s = GAckResult -> call_step s (set_gpc GAckEvent (set_known (active s) s))
  | g_event s : gpc s = GAckEvent -> call_step s (set_gpc (GAckClear (event s)) s)
  | g_clear s e : gpc s = GAckClear e ->
      call_step s (set_gpc GIdle (set_event false (set_posted (posted s && negb e) s))).

(** What the client does between the calls: a kick it owes, and the handler
    of the interrupt *)
Inductive client_step : state -> state -> Prop :=
  | c_kick s : gpc s = GIdle -> owed s = true -> client_step s (set_gpc (GKick KTest) s)
  | c_irq s : gpc s = GIdle -> line s = true -> client_step s (set_gpc GAckLow s).

(** What comes from outside: a new request, an event of a device posted by
    the main thread, an interrupt of another device on the same line *)
Inductive outer_step : state -> state -> Prop :=
  | o_request s : gpc s = GIdle -> owed s = false ->
      outer_step s (set_queued (S (queued s)) (set_owed (negb (known s)) s))
  | o_event s : gpc s = GIdle -> outer_step s (set_line true (set_event true (set_posted true s)))
  | o_shared s : gpc s = GIdle -> outer_step s (set_gpc GAckLow s).

(** Steps that need nothing new from outside *)
Definition inner_step (s s' : state) : Prop := engine_step s s' \/ call_step s s' \/ client_step s s'.
Definition step (s s' : state) : Prop := inner_step s s' \/ outer_step s s'.

(** After [kABlkStart] *)
Definition started : state := St EBlocked GIdle false true false 0 false 0 false false false.
Definition reachable (s : state) : Prop := rtc step started s.


(** ** Finite types *)

#[global] Instance engine_pc_eq_dec : EqDecision engine_pc.
Proof. solve_decision. Defined.
#[global] Instance kick_pc_eq_dec : EqDecision kick_pc.
Proof. solve_decision. Defined.
#[global] Instance guest_pc_eq_dec : EqDecision guest_pc.
Proof. solve_decision. Defined.

#[global] Program Instance engine_pc_finite : Finite engine_pc :=
  {| enum := [EBlocked; ELoop; EWork; ETaken; EPost; EStall; EError; EError2; ERaise] |}.
Next Obligation. apply (bool_decide_unpack _). by vm_compute. Qed.
Next Obligation. intros []; apply (bool_decide_unpack _); by vm_compute. Qed.

#[global] Program Instance guest_pc_finite : Finite guest_pc :=
  {| enum := [GIdle; GKick KTest; GKick KSet; GKick KWrite; GAckLow; GAckActive; GAckRunning; GAckProceed;
              GAckKick KTest; GAckKick KSet; GAckKick KWrite; GAckResult; GAckEvent; GAckClear true; GAckClear false] |}.
Next Obligation. apply (bool_decide_unpack _). by vm_compute. Qed.
Next Obligation. intros [|[]| | | | |[]| | |[]]; apply (bool_decide_unpack _); by vm_compute. Qed.

(** ** The invariant *)

Definition in_loop (e : engine_pc) : bool := match e with EBlocked | ERaise => false | _ => true end.
Definition writing (g : guest_pc) : bool := match g with GKick KWrite | GAckKick KWrite => true | _ => false end.
Definition b2n (b : bool) : nat := if b then 1 else 0.

(** The guest has seen [active] clear and will kick, or look for work. *)
Definition seen_idle (g : guest_pc) : bool :=
  match g with GKick KSet | GAckKick KSet | GAckKick KTest | GAckRunning | GAckProceed => true | _ => false end.

(** An acknowledge that has lowered the line and will still look *)
Definition looking (g : guest_pc) : bool :=
  match g with GAckActive | GAckRunning | GAckProceed | GAckKick _ => true | _ => false end.

Definition raising (e : engine_pc) : bool := match e with ERaise => true | _ => false end.
Definition in_ack_kick (g : guest_pc) : bool := match g with GAckKick _ => true | _ => false end.
Definition calling (g : guest_pc) : bool := match g with GKick _ => true | _ => false end.

(** The facts about the program counters, [active], [running], the line,
    what the client knows and owes, and whether the pipe ([p]) and the queue
    ([q]) hold something *)
Definition ok (e : engine_pc) (g : guest_pc) (a r l kn ow p q : bool) : Prop :=
  (b2n p + b2n (in_loop e) + b2n (writing g) = b2n a)%nat /\
  (seen_idle g = true -> a = false) /\
  (in_ack_kick g = true -> q = true) /\
  (e = EWork -> q = true) /\
  (q = true -> r = true -> a || l || raising e || ow || looking g = true) /\
  (kn = true -> a || l || raising e || looking g || bool_decide (g = GAckResult) = true) /\
  (calling g = true -> ow = true).

Definition inv (s : state) : Prop :=
  (pipe s <= 1)%nat /\
  ok (epc s) (gpc s) (active s) (running s) (line s) (known s) (owed s)
    (negb (pipe s =? 0)%nat) (negb (queued s =? 0)%nat).

Lemma inv_started : inv started.
Proof. by split; [cbn; lia|]. Qed.

#[global] Instance ok_dec e g a r l kn ow p q : Decision (ok e g a r l kn ow p q).
Proof. apply _. Defined.

Ltac fields := cbn [epc gpc active running event pipe line queued posted known owed set_epc set_gpc set_active
  set_running set_event set_pipe set_line set_queued set_posted set_known set_owed] in *.
(** What is left is a statement about finitely many states: all of them are
    examined. *)
Ltac finite_states :=
  repeat match goal with
  | H : ok _ _ _ _ _ _ _ _ _ |- _ => revert H
  | x : guest_pc |- _ => revert x
  | x : engine_pc |- _ => revert x
  | x : kick_pc |- _ => revert x
  | x : bool |- _ => revert x
  end;
  apply (bool_decide_unpack _); vm_compute; exact I.

(** The pipe is empty or holds one byte, the queue is empty or not; the facts
    about the old state are used. *)
Ltac step_facts Hi :=
  let s := lazymatch type of Hi with inv ?s => s end in
  destruct s; destruct Hi as [? ?]; fields;
  match goal with H : (?p <= 1)%nat |- _ => destruct p as [|[|]]; [| |exfalso; lia]; clear H end;
  match goal with H : ok _ _ _ _ _ _ _ _ (negb (?q =? 0)%nat) |- _ => destruct q end;
  simplify_eq; unfold inv; fields; simplify_eq;
  repeat match goal with |- context [(?n =? 0)%nat] => is_var n; destruct n end;
  cbn [Nat.eqb negb] in *.
Ltac step_ok := split; [lia|finite_states].
Ltac step_bad := exfalso; finite_states.

Lemma inv_engine s s' : engine_step s s' -> inv s -> inv s'.
Proof. intros Hst Hi. destruct Hst; step_facts Hi; step_ok. Qed.


Lemma inv_call s s' : call_step s s' -> inv s -> inv s'.
Proof.
  intros Hst Hi. destruct Hst as [s s' Hk| | | | | |s s' Hk| | |]; [destruct Hk| | | | | |destruct Hk| | |];
    unfold kick_return; step_facts Hi; first [step_ok|step_bad].
Qed.

Lemma inv_client s s' : client_step s s' -> inv s -> inv s'.
Proof. intros Hst Hi. destruct Hst; step_facts Hi; step_ok. Qed.

Lemma inv_outer s s' : outer_step s s' -> inv s -> inv s'.
Proof. intros Hst Hi. destruct Hst; step_facts Hi; step_ok. Qed.

Lemma inv_step s s' : step s s' -> inv s -> inv s'.
Proof. intros [[H|[H|H]]|H]; [by apply inv_engine|by apply inv_call|by apply inv_client|by apply inv_outer]. Qed.

Lemma inv_reachable s : reachable s -> inv s.
Proof.
  unfold reachable. generalize inv_started. generalize started. intros s0 H0 Hr.
  induction Hr as [s|s1 s2 s3 Hs _ IH]; [done|]. by apply IH, (inv_step s1).
Qed.


(** ** Progress

    A measure that every step but those from outside decreases: a request
    taken outweighs the work it can cause, a kick owed outweighs a turn of
    the engine, a raised line an acknowledge. *)
Definition guest_weight (g : guest_pc) : Z :=
  match g with
  | GIdle => 0 | GKick KTest => 199 | GKick KSet => 198 | GKick KWrite => 50
  | GAckLow => 1 | GAckActive => 10 | GAckRunning => 9 | GAckProceed => 8
  | GAckKick KTest => 7 | GAckKick KSet => 6 | GAckKick KWrite => 5
  | GAckResult => 4 | GAckEvent => 3 | GAckClear _ => 2
  end.
Definition engine_weight (e : engine_pc) : Z :=
  match e with
  | EBlocked | ELoop | EWork => 0 | ERaise => 30 | EStall => 60 | EError2 => 70 | EError => 80 | EPost => 150 | ETaken => 200
  end.

(** The work ahead of the engine: a turn without a request, or the way to
    the next request *)
Definition token_weight (e : engine_pc) (g : guest_pc) (p q : bool) : Z :=
  match e with
  | ELoop => if q then 8 else 90
  | EWork => 5
  | ETaken | EPost => 20
  | _ => if p then (if q then 10 else 100) else if writing g then (if q then 15 else 105) else if q then 20 else 0
  end.

Definition stage (e : engine_pc) (g : guest_pc) (l ow p q : bool) : Z :=
  (if ow && negb (calling g) then 200 else 0) + guest_weight g
  + (if l then if bool_decide (g = GAckLow) then 18 else 20 else 0) + engine_weight e + token_weight e g p q.

Definition measure (s : state) : Z :=
  1000 * Z.of_nat (queued s)
  + stage (epc s) (gpc s) (line s) (owed s) (negb (pipe s =? 0)%nat) (negb (queued s =? 0)%nat).

Lemma stage_range e g l ow p q : 0 <= stage e g l ow p q < 1000.
Proof. finite_states. Qed.

Lemma measure_nonneg s : 0 <= measure s.
Proof. unfold measure. 
  pose proof (stage_range (epc s) (gpc s) (line s) (owed s) (negb (pipe s =? 0)%nat) (negb (queued s =? 0)%nat)). lia.
 Qed.

(** The queue is kept and the stage decreases, or an element is taken. *)
Ltac less :=
  unfold measure; fields; cbn [Nat.eqb negb];
  first [apply Z.add_lt_mono_l; finite_states
        |match goal with |- ?a + stage ?e ?g ?l ?o ?p ?q < ?b + stage ?e' ?g' ?l' ?o' ?p' ?q' =>
           pose proof (stage_range e g l o p q); pose proof (stage_range e' g' l' o' p' q'); lia end].

Lemma measure_step s s' : inner_step s s' -> inv s -> measure s' < measure s.
Proof.
  intros [Hst|[Hst|Hst]] Hi.
  - destruct Hst; step_facts Hi; less.
  - destruct Hst as [s s' Hk| | | | | |s s' Hk| | |]; [destruct Hk| | | | | |destruct Hk| | |];
      unfold kick_return; step_facts Hi; less.
  - destruct Hst; step_facts Hi; less.
Qed.


Lemma acc_inner s : inv s -> Acc (flip inner_step) s.
Proof.
  intros Hi. remember (Z.to_nat (measure s)) as n eqn:E. revert s Hi E.
  induction n as [n IH] using lt_wf_ind. intros s Hi ->. constructor. intros s' Hst.
  pose proof (measure_step s s' Hst Hi). pose proof (measure_nonneg s').
  eapply IH; [|eapply inv_step; [by left; apply Hst|exact Hi]|reflexivity]. lia.
Qed.

(** ** Progress of the parts *)

Lemma call_progress s : gpc s <> GIdle -> exists s', call_step s s'.
Proof.
  destruct (gpc s) as [|[]| | | | |[]| | |e] eqn:E; intros H; try done; try (destruct (active s) eqn:Ea);
    try (destruct (line s) eqn:El); eexists; eauto using call_step, kick_step.
Qed.

Lemma engine_progress s : inv s -> epc s <> EBlocked -> exists s', engine_step s s'.
Proof.
  intros [_ (_ & _ & _ & Hw & _)] H. destruct (epc s) eqn:E; try done;
    destruct (queued s) as [|n] eqn:Eq; try (eexists; by eauto using engine_step). by specialize (Hw eq_refl).
Qed.

(** Where nothing happens any more, all requests have been taken. *)
Lemma quiet_done s : inv s -> (forall s', ~ inner_step s s') -> running s = true -> queued s = 0%nat.
Proof.
  intros Hi Hq Hr. destruct (decide (epc s = EBlocked)) as [He|He].
  2: { destruct (engine_progress s Hi He) as [s' H]. by destruct (Hq s'); left. }
  destruct (decide (gpc s = GIdle)) as [Hg|Hg].
  2: { destruct (call_progress s Hg) as [s' H]. by destruct (Hq s'); right; left. }
  destruct (pipe s) as [|n] eqn:Ep; [|by edestruct Hq; left; eapply e_read].
  destruct (line s) eqn:El; [by edestruct Hq; right; right; apply c_irq|].
  destruct (owed s) eqn:Eo; [by edestruct Hq; right; right; apply c_kick|].
  destruct (queued s) as [|m] eqn:Eq; [done|exfalso]. destruct Hi as [_ Ho].
  rewrite He, Hg, Ep, El, Eo, Eq, Hr in Ho. cbn [Nat.eqb negb] in Ho.
  revert Ho. generalize (active s) (known s). clear. intros a kn. finite_states.
Qed.

Lemma inv_inner s s' : rtc inner_step s s' -> inv s -> inv s'.
Proof. induction 1 as [s|s1 s2 s3 Hs _ IH]; [done|]. intros Hi. apply IH. eapply inv_step; [by left; apply Hs|done]. Qed.

(** C3: However the accesses of the engine and of the guest interleave, there
    is one order to work at most, in the pipe, with the engine or about to be
    written, exactly while [active] is set (so the write to the pipe never
    blocks); and when the client is outside of the calls and owes no kick,
    requests left in the ring of a running engine are attended: the engine is
    active, or the interrupt line is raised or about to be. *)
Theorem engine_attended s : reachable s ->
  (pipe s + b2n (in_loop (epc s)) + b2n (writing (gpc s)) = b2n (active s))%nat /\
  (gpc s = GIdle -> owed s = false -> queued s <> 0%nat -> running s = true ->
   active s || line s || raising (epc s) = true).
Proof.
  intros Hr. destruct (inv_reachable s Hr) as [Hp (H1 & _ & _ & _ & H5 & _)]. split.
  - rewrite <- H1. by destruct (pipe s) as [|[|n]]; [..|lia].
  - intros Hg Ho Hq Hrun. rewrite Hg, Ho, Hrun in H5. destruct (queued s); [done|]. specialize (H5 eq_refl eq_refl).
    by rewrite !orb_false_r in H5.
Qed.

(** C1: No request is lost: from every reachable state the engine, the calls
    in progress, the kicks owed and the handling of interrupts come to an end
    in whatever order they run, and when nothing of this is left to do, a
    running engine has taken every request of the ring. *)
Theorem requests_served s : reachable s ->
  Acc (flip inner_step) s /\
  forall s', rtc inner_step s s' -> (forall s'', ~ inner_step s' s'') -> running s' = true -> queued s' = 0%nat.
Proof.
  intros Hr%inv_reachable. split; [by apply acc_inner|]. intros s' Hst Hq Hrun.
  apply quiet_done; [by eapply inv_inner|done|done].
Qed.


(** ** Runs *)

Lemma then_to s s1 s2 s3 : step s s1 -> s1 = s2 -> rtc step s2 s3 -> rtc step s s3.
Proof. intros H <-. by apply rtc_l. Qed.

Ltac engine c := eapply then_to; [left; left; eapply c; reflexivity|vm_compute; reflexivity|].
Ltac guest c := eapply then_to; [left; right; left; eapply c; reflexivity|vm_compute; reflexivity|].
Ltac kick c := eapply then_to; [left; right; left; eapply g_kick, c; reflexivity|vm_compute; reflexivity|].
Ltac client c := eapply then_to; [left; right; right; apply c; reflexivity|vm_compute; reflexivity|].
Ltac outer c := eapply then_to; [right; apply c; reflexivity|vm_compute; reflexivity|].
Ltac finished := apply rtc_refl.

(** A first request, and the kick it needs *)
Ltac first_kick := outer o_request; client c_kick; kick k_idle; kick k_set; kick k_write.
(** An acknowledge that finds nothing to do *)
Ltac ack_rest := guest g_result; guest g_event; guest g_clear.

(** An event of a device can get lost: [osip_ablk_irq_ack] reads [event]
    and then clears it, and the engine can post an event in between (a CD
    drive that still holds its disc after an eject request).  The guest is
    never told: nothing is left to do, the line is low and [event] is clear. *)
Theorem event_lost : exists s, reachable s /\ posted s = true /\ event s = false /\ line s = false /\
  running s = true /\ forall s', ~ inner_step s s'.
Proof.
  eexists. split.
  { unfold reachable. first_kick. outer o_request. engine e_read.
    engine e_proceed. engine e_take. engine e_done_irq. engine e_proceed. engine e_take.
    client c_irq. guest g_low. guest g_active. guest g_result. guest g_event.
    engine e_post. guest g_clear. engine e_post_irq. engine e_no_proceed. engine e_stall. engine e_raise.
    client c_irq. guest g_low. guest g_active. guest g_running. guest g_proceed. ack_rest. finished. }
  split_and!; [reflexivity..|]. cbn. intros s' [H|[H|H]].
  - inversion H; done.
  - inversion H as [? ? Hk| | | | | |? ? Hk| | |]; try done; inversion Hk; done.
  - inversion H; done.
Qed.

(** Two requests are queued and the engine works on the first. *)
Definition ex_busy : state := St ETaken GIdle true true false 0 false 1 false true false.
Lemma ex_busy_reachable : reachable ex_busy.
Proof. unfold reachable. first_kick. outer o_request. engine e_read. engine e_proceed. engine e_take. finished. Qed.

Lemma engine_attended_witness : active ex_busy || line ex_busy || raising (epc ex_busy) = true.
Proof. apply (engine_attended ex_busy ex_busy_reachable); done. Defined.

Lemma requests_served_witness : Acc (flip inner_step) ex_busy.
Proof. apply (requests_served ex_busy ex_busy_reachable). Defined.

End AblkThread.
