(* ===== verification/AblkLink.v ===== *)
(** * The block driver: the calls of the guest as runs of steps

    Executed without interference, the steps of AblkThread do what the
    functions of Ablk do. *)

From S2P Require Import Prelude FileIO Memory Pic BlockDev Ablk AblkRing AblkThread.

Module AblkLink.
Import AblkThread.

Section Link.
Context {D : Type} `{BlockDev.BlockDev D} {P : Type} `{IL : Pic.IrqLaws P}.
Abbreviation world := (Ablk.world (D := D) (P := P)).

(** The shared variables of the world *)
Record agrees (w : world) (s : state) : Prop := {
  ag_active : active s = Ablk.active (Ablk.st w);
  ag_running : running s = Ablk.running (Ablk.st w);
  ag_event : event s = negb (Ablk.event (Ablk.st w) =? 0);
  ag_pipe : pipe s = Ablk.pipe (Ablk.st w);
  ag_line : line s = Pic.line (Ablk.pic w) (Ablk.irq (Ablk.st w));
  ag_queue : exists v, Ablk.get_proceed (Ablk.req_head (Ablk.st w)) w = BlockDev.Ok v /\ (queued s = 0%nat <-> v = 0)
}.

Lemma kick_run (at_k : kick_pc -> guest_pc) (ret : state -> state) (w : world) s :
  agrees w s -> gpc s = at_k KTest ->
  exists s1, rtc (kick_step at_k ret) s (ret s1) /\ agrees (Ablk.osip_ablk_kick 0 w).2 s1.
Proof.
  intros A Hg. destruct (A) as [A1 A2 A3 A4 A5 A6]. unfold Ablk.osip_ablk_kick. cbn [Z.eqb negb].
  destruct (Ablk.active (Ablk.st w)) eqn:Ea.
  - exists s. split; [by apply rtc_once, k_active|done].
  - exists (set_pipe (S (pipe s)) (set_active true (set_gpc (at_k KWrite) s))). split.
    + eapply rtc_l; [by apply k_idle|]. eapply rtc_l; [by apply k_set|]. eapply rtc_l; [by apply k_write|]. apply rtc_refl.
    + split; try done. cbn. by rewrite A4.
Qed.

Lemma call_kick s s' : rtc (kick_step GKick kick_return) s s' -> rtc call_step s s'.
Proof. induction 1; [done|]. eapply rtc_l; [by apply g_kick|done]. Qed.
Lemma call_ack_kick s s' : rtc (kick_step GAckKick (set_gpc GAckResult)) s s' -> rtc call_step s s'.
Proof. induction 1; [done|]. eapply rtc_l; [by apply g_ack_kick|done]. Qed.

(** The facts agreed on do not depend on the guest and its client. *)
Lemma agrees_guest w s s' : agrees w s -> active s' = active s -> running s' = running s -> event s' = event s ->
  pipe s' = pipe s -> line s' = line s -> queued s' = queued s -> agrees w s'.
Proof. intros [A1 A2 A3 A4 A5 A6] E1 E2 E3 E4 E5 E6. split; try congruence. by rewrite E6. Qed.

(** After the line is lowered: [osip_ablk_irq_ack] up to the result *)
Lemma look_run w s : agrees w s -> gpc s = GAckActive ->
  exists w1 s1,
    (if negb (Ablk.active (Ablk.st w)) && Ablk.running (Ablk.st w)
     then proceed ← Ablk.get_proceed (Ablk.req_head (Ablk.st w)) w;
          BlockDev.Ok (if negb (proceed =? 0) then (Ablk.osip_ablk_kick 0 w).2 else w)
     else BlockDev.Ok w) = BlockDev.Ok w1 /\
    rtc call_step s s1 /\ gpc s1 = GAckResult /\ agrees w1 s1.
Proof.
  intros A Hg. destruct (A) as [A1 A2 A3 A4 A5 (v & Ev & Hv)]. rewrite <- A1, <- A2.
  pose proof (g_active s Hg) as S1. destruct (active s) eqn:Ea; cbn [negb andb].
  { exists w, (set_gpc GAckResult s). split_and!; try done; [by apply rtc_once|]. apply (agrees_guest w s); done. }
  pose proof (g_running (set_gpc GAckRunning s) eq_refl) as S2. cbn [running set_gpc] in S2.
  destruct (running s) eqn:Er.
  2: { exists w, (set_gpc GAckResult s). split_and!; try done; [eapply rtc_l; [exact S1|apply rtc_once; exact S2]|]. apply (agrees_guest w s); done. }
  rewrite Ev. cbn [mbind BlockDev.run_bind].
  pose proof (g_proceed (set_gpc GAckProceed s) eq_refl) as S3. cbn [queued set_gpc] in S3.
  destruct (queued s) as [|n] eqn:Eq.
  - rewrite (proj1 Hv eq_refl). cbn [Z.eqb negb]. exists w, (set_gpc GAckResult s).
    split_and!; try done; [eapply rtc_l; [exact S1|]; eapply rtc_l; [exact S2|apply rtc_once; exact S3]|]. apply (agrees_guest w s); done.
  - rewrite (proj2 (Z.eqb_neq v 0)) by (intros Hz; by apply Hv in Hz). cbn [negb].
    destruct (kick_run GAckKick (set_gpc GAckResult) w (set_gpc (GAckKick KTest) s)) as (s1 & R & A'); [apply (agrees_guest w s); done|done|].
    exists (Ablk.osip_ablk_kick 0 w).2, (set_gpc GAckResult s1). split; [done|]. split.
    { eapply rtc_l; [exact S1|]. eapply rtc_l; [exact S2|]. eapply rtc_l; [exact S3|]. by apply call_ack_kick. }
    split; [done|]. by eapply agrees_guest.
Qed.

(** Without interference a call of the guest does what its function does:
    a run of steps leads from its entry to its end, in which the shared
    variables are those the function leaves, and the client knows of
    [active] what the call has returned. *)
Theorem calls_simulated w s : agrees w s -> Pic.valid_irq (Ablk.irq (Ablk.st w)) ->
  (gpc s = GKick KTest -> exists s', rtc call_step s s' /\ gpc s' = GIdle /\ known s' = true /\
     agrees (Ablk.osip_ablk_kick 0 w).2 s') /\
  (gpc s = GAckLow -> exists r res w' s', Ablk.osip_ablk_irq_ack 0 w = BlockDev.Ok (r, res, w') /\
     rtc call_step s s' /\ gpc s' = GIdle /\ agrees w' s' /\
     known s' = match res with Some (_, act, _) => act | None => known s end).
Proof.
  intros A Hirq. split; intros Hg.
  { destruct (kick_run GKick kick_return w s A Hg) as (s1 & R & A'). exists (kick_return s1).
    split; [by apply call_kick|]. split_and!; try done. by eapply agrees_guest. }
  unfold Ablk.osip_ablk_irq_ack, Ablk.irq_line_low. cbn [Z.eqb negb].
  pose proof (Pic.low_old _ (Ablk.pic w) Hirq) as Hold. pose proof (Pic.low_line _ _ (Ablk.pic w) Hirq Hirq) as Hlow.
  destruct (Pic.irq_low _ (Ablk.pic w)) as [was p]. cbn [fst snd] in Hold, Hlow. rewrite Z.eqb_refl in Hlow. cbn [negb andb] in Hlow.
  rewrite <- (ag_line _ _ A) in Hold.
  set (w0 := Ablk.W _ p _ _). assert (A0 : agrees w0 (set_line false s)).
  { destruct A as [A1 A2 A3 A4 A5 A6]. by split. }
  destruct (Z.eqb_spec was 0) as [->|Hw]; cbn [negb] in Hold.
  - exists 0, None, w0, (set_gpc GIdle s). split; [done|]. split; [by apply rtc_once, g_not_ours|]. split_and!; try done.
    eapply agrees_guest; [exact A0|done..].
  - destruct (look_run w0 (set_gpc GAckActive (set_line false s))) as (w1 & s1 & E & R & G1 & A1); [by apply (agrees_guest w0 (set_line false s))|done|].
    rewrite E. cbn [mbind BlockDev.run_bind]. eexists 1, _, _, (set_gpc GIdle (set_event false
      (set_posted (posted s1 && negb (event s1)) (set_gpc (GAckClear (event s1)) (set_gpc GAckEvent (set_known (active s1) s1)))))).
    split; [reflexivity|]. split.
    { eapply rtc_l; [apply g_low; done|]. etransitivity; [exact R|].
      eapply rtc_l; [by apply g_result|]. eapply rtc_l; [by apply g_event|]. apply rtc_once.
      exact (g_clear (set_gpc (GAckClear (event s1)) (set_gpc GAckEvent (set_known (active s1) s1))) (event s1) eq_refl). }
    split; [done|]. split; [|cbn; apply (ag_active _ _ A1)]. destruct A1 as [B1 B2 B3 B4 B5 B6]. by split.
Qed.

End Link.

(** The engine idle, an element in the ring, the line low *)
Definition ex_idle : Ablk.world (D := BlockDev.raw) (P := Pic.pic_state) :=
  Ablk.upd (Ablk.set_active false) AblkRing.Example_.ex_world.
Definition ex_start : state := St EBlocked (GKick KTest) false true false 0 false 5 false false true.

Lemma ex_agrees : agrees ex_idle ex_start.
Proof. split; try done. exists 1. split; [by vm_compute|done]. Qed.

Lemma calls_simulated_witness :
  exists s', rtc call_step ex_start s' /\ gpc s' = GIdle /\ known s' = true /\ agrees (Ablk.osip_ablk_kick 0 ex_idle).2 s'.
Proof. apply (calls_simulated ex_idle ex_start ex_agrees); [split; by vm_compute|done]. Defined.
End AblkLink.
