(* ===== verification/Dmg.v ===== *)
(** * Compressed disk images ([src/drivers/disk/blk_dmg.c])

    A read-only image: tables at the end of the file describe chunks of
    sectors, each stored compressed, as it is, or not at all (zeros).  [Crash]
    is an access outside of an array, [Fuel] a loop that is still running. *)

From S2P Require Import Prelude FileIO Qcow BlockDev.

Module Dmg.
Import FileIO BlockDev.

(** One entry of the parallel arrays [types], [offsets], [lengths],
    [sectors], [sectorcounts] *)
Record chunk := Chunk { type : Z; offset : Z; clength : Z; sector : Z; sectorcount : Z }.

(** [BDRVDMGState]: [n_chunks] is the number of the chunks *)
Record dmg := Dmg {
  dfile : file; chunks : list chunk; current_chunk : Z;
  compressed_size : Z; uncompressed_chunk : list Z; seek_sector : Z
}.

Definition n_chunks (s : dmg) : Z := Z.of_nat (length (chunks s)).
Definition set_dfile v s := Dmg v (chunks s) (current_chunk s) (compressed_size s) (uncompressed_chunk s) (seek_sector s).
Definition set_current v s := Dmg (dfile s) (chunks s) v (compressed_size s) (uncompressed_chunk s) (seek_sector s).
Definition set_uncompressed v s := Dmg (dfile s) (chunks s) (current_chunk s) (compressed_size s) v (seek_sector s).
Definition set_seek_sector v s := Dmg (dfile s) (chunks s) (current_chunk s) (compressed_size s) (uncompressed_chunk s) v.

Definition ZLIB_CHUNK : Z := 0x80000005.
Definition COPY_CHUNK : Z := 1.
Definition ZERO_CHUNK : Z := 2.
Definition END_CHUNK : Z := 0xffffffff.
Definition MISH : Z := 0x6d697368.

(** ** Opening *)

(** A big-endian number of [n] bytes at the position of the file, 0 at the
    end *)
Definition read_be (n : nat) (f : file) : Z * file :=
  let '(l, f) := fread (Z.of_nat n) f in (if (length l <? n)%nat then 0 else be_value l, f).
Definition read_off (f : file) : Z * file := let '(v, f) := read_be 8 f in (Qcow.s64 v, f).
Definition read_uint32 (f : file) : Z * file := read_be 4 f.

(** [lseek( fd, off, SEEK_CUR )] *)
Definition lseek_cur (off : Z) (f : file) : Z * file := lseek_set (fpos f + off) f.

(** The entries of a table: [cs] the chunks stored before, [in_], [out_] the
    offsets the last table has ended at; [None] is [goto fail]. *)
Fixpoint read_entries (n : nat) (cs : list chunk) (in_ out_ : Z) (f : file) : run (option (list chunk * Z * Z) * file) :=
  match n with
  | O => Ok (Some (cs, in_, out_), f)
  | S n =>
      let '(ty, f) := read_uint32 f in
      if negb (ty =? ZLIB_CHUNK) && negb (ty =? COPY_CHUNK) && negb (ty =? ZERO_CHUNK) then
        '(in_, out_) ←
          (if ty =? END_CHUNK
           then match list.last cs with
                | None => Crash
                | Some c => Ok (Qcow.s64 (offset c + clength c), Qcow.s64 (sector c + sectorcount c))
                end
           else Ok (in_, out_));
        let '(r, f) := lseek_cur 36 f in
        if r <? 0 then Ok (None, f) else read_entries n cs in_ out_ f
      else
        let '(_, f) := read_uint32 f in
        let '(sec, f) := read_off f in
        let '(cnt, f) := read_off f in
        let '(off, f) := read_off f in
        let '(len, f) := read_off f in
        read_entries n (cs ++ [Chunk ty (Qcow.u64 (in_ + off)) (Qcow.u64 len) (Qcow.u64 (out_ + sec)) (Qcow.u64 cnt)])
          in_ out_ f
  end.

(** [while( lseek(s->fd,0,SEEK_CUR) < info_end )] *)
Fixpoint read_tables (fuel : nat) (info_end : Z) (cs : list chunk) (in_ out_ : Z) (f : file)
  : run (option (list chunk) * file) :=
  match fuel with
  | O => Fuel
  | S fuel =>
      if info_end <=? fpos f then Ok (Some cs, f) else
      let '(count, f) := read_uint32 f in
      if count =? 0 then Ok (None, f) else
      let '(ty, f) := read_uint32 f in
      if negb (ty =? MISH) || (count <? 244) then
        read_tables fuel info_end cs in_ out_ (lseek_cur (u32 (count - 4)) f).2
      else
        let '(r, f) := lseek_cur 200 f in
        if r <? 0 then Ok (None, f) else
        '(t, f) ← read_entries (Z.to_nat ((count - 204) / 40)) cs in_ out_ f;
        match t with
        | None => Ok (None, f)
        | Some (cs, in_, out_) => read_tables fuel info_end cs in_ out_ f
        end
  end.

Definition max_compressed (cs : list chunk) : Z := fold_left (fun m c => if m <? clength c then u32 (clength c) else m) cs 1.
Definition max_sectors (cs : list chunk) : Z := fold_left (fun m c => if m <? sectorcount c then u32 (sectorcount c) else m) cs 1.

(** The state, or [None] for -1; the allocations succeed. *)
Definition dmg_open (fuel : nat) (f : file) : run (option dmg) :=
  let '(r, f) := (let off := flen f - 0x1d8 in if off <? 0 then (-1, f) else (off, set_fpos off f)) in
  if r <? 0 then Ok None else
  let '(info_begin, f) := read_off f in
  if info_begin =? 0 then Ok None else
  let '(r, f) := lseek_set info_begin f in
  if r <? 0 then Ok None else
  let '(m, f) := read_uint32 f in
  if negb (m =? 0x100) then Ok None else
  let '(count, f) := read_uint32 f in
  if count =? 0 then Ok None else
  let info_end := info_begin + count in
  let '(r, f) := lseek_cur 0xf8 f in
  if r <? 0 then Ok None else
  '(t, f) ← read_tables fuel info_end [] 0 0 f;
  match t with
  | None => Ok None
  | Some cs =>
      Ok (Some (Dmg f cs (Z.of_nat (length cs)) (u32 (max_compressed cs + 1))
                  (replicate (Z.to_nat (u32 (512 * max_sectors cs))) 0) 0))
  end.

(** [bdev->size] *)
Definition dmg_size (s : dmg) : Z := u32 (n_chunks s * 512).

(** ** Reading *)

Section Read.
(** [inflate] of a stream into so much space: whether it ends with
    [Z_STREAM_END], and its output *)
Context (inflate : list Z -> Z -> bool * list Z).

(** [sector_num] is an [int], compared as [u64] *)
Definition is_sector_in_chunk (s : dmg) (chunk_num sector_num : Z) : bool :=
  if n_chunks s <=? chunk_num then false else
  match chunks s !! Z.to_nat chunk_num with
  | None => false
  | Some c =>
      negb ((Qcow.u64 sector_num <? sector c) || (Qcow.u64 (sector c + sectorcount c) <=? Qcow.u64 sector_num))
  end.

(** The loop of [search_chunk] *)
Fixpoint search_loop (fuel : nat) (chunk1 chunk2 sector_num : Z) (cs : list chunk) : run Z :=
  match fuel with
  | O => Fuel
  | S fuel =>
      if chunk1 =? chunk2 then Ok (Z.of_nat (length cs)) else
      let chunk3 := u32 (chunk1 + chunk2) / 2 in
      match cs !! Z.to_nat chunk3 with
      | None => Crash
      | Some c =>
          if Qcow.u64 sector_num <? sector c then search_loop fuel chunk1 chunk3 sector_num cs
          else if Qcow.u64 sector_num <? Qcow.u64 (sector c + sectorcount c) then Ok chunk3
          else search_loop fuel chunk3 chunk2 sector_num cs
      end
  end.

Definition search_chunk (fuel : nat) (s : dmg) (sector_num : Z) : run Z :=
  search_loop fuel 0 (n_chunks s) sector_num (chunks s).

(** The loop that reads a compressed chunk: [i] bytes have been read; the
    result is [ret] and the bytes. *)
Fixpoint read_loop (fuel : nat) (i len : Z) (got : list Z) (f : file) : run (Z * list Z * file) :=
  match fuel with
  | O => Fuel
  | S fuel =>
      let '(l, f) := fread (len - i) f in
      let ret := Z.of_nat (length l) in
      let i := i + ret in
      if ret + i <? len then read_loop fuel i len (got ++ l) f else Ok (ret, got ++ l, f)
  end.

(** Bytes stored at the start of the buffer for a chunk *)
Definition store_chunk (l : list Z) (s : dmg) : run dmg :=
  if (length (uncompressed_chunk s) <? length l)%nat then Crash
  else Ok (set_uncompressed (Qcow.splice 0 l (uncompressed_chunk s)) s).

(** The contents of a chunk into the buffer: false is -1. *)
Definition load_chunk (fuel : nat) (c : chunk) (s : dmg) : run (bool * dmg) :=
  let size := 512 * sectorcount c in
  if type c =? ZLIB_CHUNK then
    let '(r, f) := lseek_set (Qcow.s64 (offset c)) (dfile s) in
    if s32 r <? 0 then Ok (false, set_dfile f s) else
    if compressed_size s <? clength c then Crash else
    '(ret, l, f) ← read_loop fuel 0 (clength c) [] f;
    let s := set_dfile f s in
    if negb (ret =? clength c) then Ok (false, s) else
    let '(done, out) := inflate l (u32 size) in
    s ← store_chunk out s;
    Ok (done && (Z.of_nat (length out) =? size), s)
  else if type c =? COPY_CHUNK then
    let '(l, f) := fread (clength c) (dfile s) in
    s ← store_chunk l (set_dfile f s);
    Ok (Z.of_nat (length l) =? clength c, s)
  else
    s ← store_chunk (replicate (Z.to_nat size) 0) s; Ok (true, s).

Definition dmg_read_chunk (fuel : nat) (s : dmg) (sector_num : Z) : run (Z * dmg) :=
  if is_sector_in_chunk s (current_chunk s) sector_num then Ok (0, s) else
  chunk ← search_chunk fuel s sector_num;
  if n_chunks s <=? chunk then Ok (-1, s) else
  let s := set_current (n_chunks s) s in
  c ← of_option (chunks s !! Z.to_nat chunk);
  '(ok, s) ← load_chunk fuel c s;
  Ok (if (ok : bool) then (0, set_current chunk s) else (-1, s)).

(** The sectors from the [i]th on into the buffer; false is -1. *)
Fixpoint dmg_read_sectors (fuel n : nat) (i : Z) (s : dmg) : run (bool * list Z * dmg) :=
  match n with
  | O => Ok (true, [], s)
  | S n =>
      '(r, s) ← dmg_read_chunk fuel s (s32 (seek_sector s + i));
      if negb (r =? 0) then Ok (false, [], s) else
      c ← of_option (chunks s !! Z.to_nat (current_chunk s));
      let pos := u32 (seek_sector s + i - sector c) in
      if Z.of_nat (length (uncompressed_chunk s)) <? u32 (pos * 512) + 512 then Crash else
      '(ok, l, s') ← dmg_read_sectors fuel n (i + 1) s;
      Ok (ok, take 512 (drop (Z.to_nat (u32 (pos * 512))) (uncompressed_chunk s)) ++ l, s')
  end.

Definition dmg_read (fuel : nat) (nb_bytes : Z) (s : dmg) : run (Z * list Z * dmg) :=
  '(ok, l, s) ← dmg_read_sectors fuel (Z.to_nat (nb_bytes / 512)) 0 s;
  Ok (if (ok : bool) then nb_bytes else -1, l, s).

Definition dmg_seek (seek_block offset : Z) (s : dmg) : Z * dmg :=
  (0, set_seek_sector (s32 (Qcow.u64 (seek_block + offset) / 512)) s).

(** [wrap_read] around it, with the memory [malloc] returns; [write] is
    [NULL]. *)
Definition dmg_bread (mem : Z -> option (list Z)) (fuel : nat) (errno : Z) (lens : list Z) (s : dmg) : run (Z * Z * list Z * dmg) :=
  match Qcow.total_bytes lens 0 with
  | None => Ok (- Qcow.EINVAL, errno, [], s)
  | Some total =>
      match mem total with
      | None => Ok (- Qcow.EINVAL, errno, [], s)
      | Some buf =>
          '(r, l, s) ← dmg_read fuel total s;
          if negb (r =? total) then Ok (- Qcow.EINVAL, errno, [], s) else Ok (total, errno, Qcow.splice 0 l buf, s)
      end
  end.

Definition dmg_blockdev (mem : Z -> option (list Z)) (fuel : nat) (errno : Z) : BlockDev dmg := {|
  bd_seek := dmg_seek;
  bd_read := dmg_bread mem fuel errno;
  bd_write _ _ := Crash
|}.
End Read.

End Dmg.
