(* ===== verification/DmgInv.v ===== *)
(** * Compressed disk images: the search of a chunk, and what is read *)

From S2P Require Import Prelude FileIO Qcow QcowInv BlockDev Dmg.

Module DmgInv.
Import FileIO BlockDev Dmg.

(** ** The table of the chunks *)

(** The chunks are in the order of their sectors and do not overlap. *)
Record table_ok (cs : list chunk) : Prop := {
  tb_chunk i c : cs !! i = Some c -> 0 <= sector c /\ 0 < sectorcount c /\ sector c + sectorcount c < 2 ^ 31;
  tb_sorted i j c d : cs !! i = Some c -> cs !! j = Some d -> (i < j)%nat -> sector c + sectorcount c <= sector d;
  tb_size : Z.of_nat (length cs) < 2 ^ 31
}.

(** The chunk [i] holds the sector [x]. *)
Definition covers (cs : list chunk) (i : nat) (x : Z) : Prop :=
  exists c, cs !! i = Some c /\ sector c <= x < sector c + sectorcount c.

Section Search.
Context (cs : list chunk) (T : table_ok cs).

(** One turn of the loop between [lo] and [hi] *)
Lemma search_turn fuel lo hi x : 0 <= x < 2 ^ 31 -> (lo < hi <= length cs)%nat ->
  exists c, let mid := ((lo + hi) / 2)%nat in cs !! mid = Some c /\ (lo <= mid < hi /\ (lo + 2 <= hi -> lo < mid))%nat /\
    search_loop (S fuel) (Z.of_nat lo) (Z.of_nat hi) x cs =
      if x <? sector c then search_loop fuel (Z.of_nat lo) (Z.of_nat mid) x cs
      else if x <? sector c + sectorcount c then Ok (Z.of_nat mid)
      else search_loop fuel (Z.of_nat mid) (Z.of_nat hi) x cs.
Proof.
  intros Hx Hh. set (mid := ((lo + hi) / 2)%nat).
  assert (Hmid : (lo <= mid < hi /\ (lo + 2 <= hi -> lo < mid))%nat) by (unfold mid; pose proof (Nat.div_mod_eq (lo + hi) 2);
    pose proof (Nat.mod_upper_bound (lo + hi) 2); lia).
  destruct (lookup_lt_is_Some_2 cs mid) as [c Hc]; [lia|]. exists c. split; [done|]. split; [done|].
  cbn [search_loop]. rewrite (proj2 (Z.eqb_neq _ _)) by lia. pose proof (tb_size cs T).
  assert (u32 (Z.of_nat lo + Z.of_nat hi) / 2 = Z.of_nat mid) as ->.
  { rewrite u32_small by lia. unfold mid. rewrite Nat2Z.inj_div, Nat2Z.inj_add. done. }
  rewrite Nat2Z.id, Hc. destruct Hmid as [Hmid _]. destruct (tb_chunk cs T mid c Hc) as (H1 & H2 & H3).
  assert (Hu : forall z, 0 <= z < 2 ^ 31 -> Qcow.u64 z = z) by (intros z Hz; unfold Qcow.u64; apply Z.mod_small; lia).
  by rewrite !Hu by lia.
Qed.

(** A sector inside of a chunk is found. *)
Lemma search_finds fuel : forall lo hi x i, (lo <= i < hi)%nat -> (hi <= length cs)%nat -> 0 <= x < 2 ^ 31 -> covers cs i x ->
  (hi - lo <= fuel)%nat -> search_loop fuel (Z.of_nat lo) (Z.of_nat hi) x cs = Ok (Z.of_nat i).
Proof.
  induction fuel as [|fuel IH]; intros lo hi x i Hi Hh Hx (d & Ed & Hd) Hf; [lia|].
  destruct (search_turn fuel lo hi x Hx) as (c & Ec & Hm & ->); [lia|]. set (mid := ((lo + hi) / 2)%nat) in *.
  assert (Hb : covers cs i x) by by exists d. destruct (Z.ltb_spec x (sector c)) as [H1|H1].
  - assert (i < mid)%nat.
    { destruct (decide (i < mid)%nat) as [|Hn]; [done|exfalso]. destruct (decide (i = mid)) as [->|Hne].
      - rewrite Ec in Ed. injection Ed as ->. lia.
      - pose proof (tb_sorted cs T mid i c d Ec Ed ltac:(lia)). pose proof (tb_chunk cs T mid c Ec). lia. }
    apply IH; lia || done.
  - destruct (Z.ltb_spec x (sector c + sectorcount c)) as [H2|H2].
    + do 2 f_equal. destruct (Nat.lt_total i mid) as [Hl|[->|Hl]]; [exfalso|done|exfalso].
      * pose proof (tb_sorted cs T i mid d c Ed Ec Hl). lia.
      * pose proof (tb_sorted cs T mid i c d Ec Ed Hl). lia.
    + assert (mid < i)%nat.
      { destruct (decide (mid < i)%nat) as [|Hn]; [done|exfalso]. destruct (decide (i = mid)) as [->|Hne].
        - rewrite Ec in Ed. injection Ed as ->. lia.
        - pose proof (tb_sorted cs T i mid d c Ed Ec ltac:(lia)). pose proof (tb_chunk cs T mid c Ec). lia. }
      apply IH; lia || done.
Qed.

(** A sector before the first chunk is reported as missing. *)
Lemma search_before fuel : forall hi x, (hi <= length cs)%nat -> 0 <= x < 2 ^ 31 ->
  (forall i c, cs !! i = Some c -> x < sector c) -> (hi < fuel)%nat ->
  search_loop fuel 0 (Z.of_nat hi) x cs = Ok (Z.of_nat (length cs)).
Proof.
  induction fuel as [|fuel IH]; intros hi x Hh Hx Hb Hf; [lia|]. destruct (decide (hi = 0%nat)) as [->|H0]; [done|].
  destruct (search_turn fuel 0 hi x Hx) as (c & Ec & Hm & E); [lia|]. change (Z.of_nat 0) with 0 in E. rewrite E.
  rewrite (proj2 (Z.ltb_lt _ _)) by (by eapply Hb). apply IH; lia || done.
Qed.

(** A sector behind a chunk that is in no chunk is searched for ever: with
    [chunk2 = chunk1 + 1] the middle is [chunk1] again. *)
Lemma search_gap fuel : forall lo hi x, (lo < hi <= length cs)%nat -> 0 <= x < 2 ^ 31 -> (forall i, ~ covers cs i x) ->
  (exists c, cs !! lo = Some c /\ sector c + sectorcount c <= x) ->
  search_loop fuel (Z.of_nat lo) (Z.of_nat hi) x cs = Fuel.
Proof.
  induction fuel as [|fuel IH]; intros lo hi x Hh Hx Hu (b & Eb & Hb); [done|].
  destruct (search_turn fuel lo hi x Hx Hh) as (c & Ec & Hm & ->). set (mid := ((lo + hi) / 2)%nat) in *.
  destruct (Z.ltb_spec x (sector c)) as [H1|H1].
  - apply IH; try done; [|by exists b]. destruct (decide (mid = lo)) as [E|E]; [|lia].
    rewrite E, Eb in Ec. injection Ec as ->. pose proof (tb_chunk cs T lo c Eb). lia.
  - destruct (Z.ltb_spec x (sector c + sectorcount c)) as [H2|H2]; [by destruct (Hu mid); exists c|].
    apply IH; try done; [lia|]. exists c. split; [done|lia].
Qed.

End Search.

(** C27: [search_chunk] on an ordered table: with as many turns as there are
    chunks it finds the chunk of a sector that is in one; a sector before
    the first chunk is reported missing; but for a sector behind the first
    chunk that no chunk holds - any sector behind the end of the disk - the
    loop never ends. *)
Theorem search_chunk_correct s x : table_ok (chunks s) -> 0 <= x < 2 ^ 31 ->
  (forall i fuel, covers (chunks s) i x -> (length (chunks s) <= fuel)%nat -> search_chunk fuel s x = Ok (Z.of_nat i)) /\
  (forall fuel, (forall i c, chunks s !! i = Some c -> x < sector c) -> (length (chunks s) < fuel)%nat ->
     search_chunk fuel s x = Ok (n_chunks s)) /\
  (forall c fuel, chunks s !! 0%nat = Some c -> sector c + sectorcount c <= x -> (forall i, ~ covers (chunks s) i x) ->
     search_chunk fuel s x = Fuel).
Proof.
  intros T Hx. unfold search_chunk, n_chunks. split_and!.
  - intros i fuel Hc Hf. apply (search_finds _ T fuel 0 (length (chunks s))); try done; [|lia]. destruct Hc as (c & Ec%lookup_lt_Some & _). lia.
  - intros fuel Hb Hf. by apply (search_before _ T).
  - intros c fuel Ec Hc Hu. apply (search_gap _ T fuel 0 (length (chunks s))); try done; [|by exists c]. apply lookup_lt_Some in Ec. lia.
Qed.

(** ** What the sectors of the disk hold *)

Section Reading.
Context (inflate : list Z -> Z -> bool * list Z).

(** The contents of a chunk of the file [f] *)
Definition data_of (f : file) (c : chunk) : list Z :=
  if type c =? ZLIB_CHUNK then (inflate (seg f (offset c) (Z.to_nat (clength c))) (512 * sectorcount c)).2
  else replicate (Z.to_nat (512 * sectorcount c)) 0.

(** The sector [x], empty where no chunk holds it *)
Definition disk_sector (f : file) (cs : list chunk) (x : Z) : list Z :=
  match list_find (fun c => sector c <= x < sector c + sectorcount c) cs with
  | Some (_, c) => take 512 (drop (Z.to_nat (512 * (x - sector c))) (data_of f c))
  | None => []
  end.

(** A chunk of zeros, or a compressed one that is inside of the file and ends
    with its last sector; the buffers are large enough. *)
Record chunk_ok (f : file) (csize usize : Z) (c : chunk) : Prop := {
  co_type : type c = ZLIB_CHUNK \/ type c = ZERO_CHUNK;
  co_file : 0 <= offset c < 2 ^ 31 /\ 0 <= clength c <= csize /\ offset c + clength c <= flen f;
  co_size : 0 < sectorcount c /\ 512 * sectorcount c <= usize < 2 ^ 31;
  co_inflate : type c = ZLIB_CHUNK ->
    inflate (seg f (offset c) (Z.to_nat (clength c))) (512 * sectorcount c) = (true, data_of f c) /\
    Z.of_nat (length (data_of f c)) = 512 * sectorcount c
}.

(** The image, and the chunk in the buffer if there is one *)
Record image_ok (s : dmg) : Prop := {
  im_table : table_ok (chunks s);
  im_chunks : Forall (chunk_ok (dfile s) (compressed_size s) (Z.of_nat (length (uncompressed_chunk s)))) (chunks s);
  im_cached i c : current_chunk s = Z.of_nat i -> chunks s !! i = Some c ->
    take (Z.to_nat (512 * sectorcount c)) (uncompressed_chunk s) = data_of (dfile s) c
}.

(** The same disk *)
Record same_disk (s s' : dmg) : Prop := {
  sd_chunks : chunks s' = chunks s;
  sd_seek : seek_sector s' = seek_sector s;
  sd_data : fdat (dfile s') = fdat (dfile s);
  sd_len : flen (dfile s') = flen (dfile s);
  sd_csize : compressed_size s' = compressed_size s;
  sd_usize : length (uncompressed_chunk s') = length (uncompressed_chunk s)
}.

#[local] Instance same_disk_preorder : PreOrder same_disk.
Proof. split; [by split|]. intros s1 s2 s3 [] []. split; congruence. Qed.

Lemma data_of_ext f g c : fdat g = fdat f -> data_of g c = data_of f c.
Proof.
  intros E. unfold data_of. destruct (_ =? _); [|done]. do 2 f_equal. apply seg_ext. intros i _. unfold fbyte. by rewrite E.
Qed.

Lemma seg_file f g a n : fdat g = fdat f -> seg g a n = seg f a n.
Proof. intros E. apply seg_ext. intros i _. unfold fbyte. by rewrite E. Qed.

Lemma chunk_ok_ext f g a b c : fdat g = fdat f -> flen g = flen f -> chunk_ok f a b c -> chunk_ok g a b c.
Proof.
  intros E1 E2 [H1 H2 H3 H4]. split; try done; [by rewrite E2|]. intros Ht.
  by rewrite (data_of_ext f g c E1), (seg_file f g _ _ E1); auto.
Qed.

Lemma data_of_length f a b c : chunk_ok f a b c -> Z.of_nat (length (data_of f c)) = 512 * sectorcount c.
Proof.
  intros [[Ht|Ht] _ Hs H4]; [by apply H4|]. unfold data_of. rewrite Ht. change (ZERO_CHUNK =? ZLIB_CHUNK) with false.
  cbv iota. rewrite length_replicate. lia.
Qed.

(** The buffer after a store *)
Lemma store_chunk_eq l s : (length l <= length (uncompressed_chunk s))%nat ->
  exists s', store_chunk l s = Ok s' /\ same_disk s s' /\ current_chunk s' = current_chunk s /\ dfile s' = dfile s /\
    take (length l) (uncompressed_chunk s') = l.
Proof.
  intros H. unfold store_chunk. rewrite (proj2 (Nat.ltb_ge _ _)) by lia. eexists. split; [done|]. split; [|split; [done|split; [done|]]].
  - split; try done. cbn. rewrite QcowInv.splice_length; [done|lia].
  - cbn. unfold Qcow.splice. rewrite take_0. cbn [app]. by rewrite take_app_length.
Qed.

(** A chunk is brought into the buffer. *)
Lemma load_chunk_eq fuel c s : (0 < fuel)%nat ->
  chunk_ok (dfile s) (compressed_size s) (Z.of_nat (length (uncompressed_chunk s))) c ->
  exists s', load_chunk inflate fuel c s = Ok (true, s') /\ same_disk s s' /\ current_chunk s' = current_chunk s /\
    take (Z.to_nat (512 * sectorcount c)) (uncompressed_chunk s') = data_of (dfile s) c.
Proof.
  intros Hf Hc. pose proof (data_of_length _ _ _ _ Hc) as HL. destruct (Hc) as [Ht (F1 & F2 & F3) (S1 & S2) Hi].
  unfold load_chunk. destruct Ht as [Ht|Ht]; rewrite Ht.
  - destruct (Hi Ht) as [Ei El]. change (ZLIB_CHUNK =? ZLIB_CHUNK) with true. cbv iota.
    rewrite QcowInv.s64_id, lseek_set_eq, s32_small by lia. rewrite (proj2 (Z.ltb_ge _ 0)), (proj2 (Z.ltb_ge _ (clength c))) by lia.
    destruct fuel as [|fuel]; [lia|]. cbn [read_loop]. rewrite fread_eq by (cbn; lia). rewrite Z.sub_0_r, seg_length, Z2Nat.id by lia.
    rewrite (proj2 (Z.ltb_ge _ (clength c))) by lia. cbn [mbind run_bind app]. rewrite Z.eqb_refl. cbn [negb].
    cbn [fpos set_fpos]. rewrite (seg_file (dfile s)), u32_small by (done || lia). rewrite Ei.
    destruct (store_chunk_eq (data_of (dfile s) c)
      (set_dfile (set_fpos (offset c + clength c) (set_fpos (offset c) (dfile s))) s)) as (s' & -> & Sd & Cc & _ & Hb); [cbn; lia|].
    cbn [mbind run_bind]. rewrite (proj2 (Z.eqb_eq _ _) El). exists s'. split; [done|]. split; [by destruct Sd|]. split; [done|].
    rewrite <- El, Nat2Z.id. exact Hb.
  - change (ZERO_CHUNK =? ZLIB_CHUNK) with false. change (ZERO_CHUNK =? COPY_CHUNK) with false. cbv iota.
    destruct (store_chunk_eq (replicate (Z.to_nat (512 * sectorcount c)) 0) s) as (s' & -> & Sd & Cc & _ & Hb);
      [rewrite length_replicate; lia|]. cbn [mbind run_bind]. exists s'. split; [done|]. split; [done|]. split; [done|].
    rewrite length_replicate in Hb. rewrite Hb. unfold data_of. by rewrite Ht.
Qed.

Lemma image_ok_same s s' : same_disk s s' ->
  (forall i c, current_chunk s' = Z.of_nat i -> chunks s !! i = Some c ->
    take (Z.to_nat (512 * sectorcount c)) (uncompressed_chunk s') = data_of (dfile s) c) ->
  image_ok s -> image_ok s'.
Proof.
  intros [E1 E2 E3 E4 E5 E6] Hc [H1 H2 _]. split.
  - by rewrite E1.
  - rewrite E1, E5, E6. eapply list.Forall_impl; [exact H2|]. intros c. by apply chunk_ok_ext.
  - intros i c Hi. rewrite E1. intros Ec. rewrite (data_of_ext (dfile s)) by done. by apply (Hc i).
Qed.

Lemma in_chunk_eq s i c x : table_ok (chunks s) -> 0 <= x < 2 ^ 31 -> chunks s !! i = Some c ->
  is_sector_in_chunk s (Z.of_nat i) x = bool_decide (sector c <= x < sector c + sectorcount c).
Proof.
  intros T Hx Ec. unfold is_sector_in_chunk, n_chunks. apply lookup_lt_Some in Ec as Hi.
  rewrite (proj2 (Z.leb_gt _ _)), Nat2Z.id, Ec by lia. destruct (tb_chunk _ T i c Ec) as (H1 & H2 & H3).
  assert (Hu : forall z, 0 <= z < 2 ^ 31 -> Qcow.u64 z = z) by (intros z Hz; unfold Qcow.u64; apply Z.mod_small; lia).
  rewrite !Hu by lia. case_bool_decide; destruct (Z.ltb_spec x (sector c)), (Z.leb_spec (sector c + sectorcount c) x); cbn; lia || done.
Qed.

(** After [dmg_read_chunk] the buffer holds the chunk of the sector. *)
Lemma read_chunk_eq fuel s x i : image_ok s -> 0 <= current_chunk s -> 0 <= x < 2 ^ 31 -> covers (chunks s) i x ->
  (length (chunks s) <= fuel)%nat ->
  exists s' j c, dmg_read_chunk inflate fuel s x = Ok (0, s') /\ same_disk s s' /\ image_ok s' /\
    current_chunk s' = Z.of_nat j /\ chunks s !! j = Some c /\ sector c <= x < sector c + sectorcount c /\
    take (Z.to_nat (512 * sectorcount c)) (uncompressed_chunk s') = data_of (dfile s) c.
Proof.
  intros I Hcur Hx (c & Ec & Hc) Hf. pose proof (im_table s I) as T. apply lookup_lt_Some in Ec as Hi.
  unfold dmg_read_chunk. destruct (is_sector_in_chunk s (current_chunk s) x) eqn:E.
  - destruct (chunks s !! Z.to_nat (current_chunk s)) as [d|] eqn:Ed.
    + rewrite <- (Z2Nat.id (current_chunk s)) in E by done. rewrite (in_chunk_eq s _ d x T Hx Ed) in E.
      apply bool_decide_eq_true_1 in E. exists s, (Z.to_nat (current_chunk s)), d.
      split_and!; try done; try lia. apply (im_cached s I (Z.to_nat (current_chunk s))); [lia|done].
    + unfold is_sector_in_chunk in E. rewrite Ed in E. by destruct (_ <=? _).
  - assert (search_chunk fuel s x = Ok (Z.of_nat i)) as ->.
    { apply (search_finds _ T fuel 0 (length (chunks s)) x i); try lia. by exists c. }
    cbn [mbind run_bind].
    unfold n_chunks at 1. rewrite (proj2 (Z.leb_gt _ _)), Nat2Z.id by lia. cbn [set_current chunks]. rewrite Ec. cbn [of_option mbind run_bind].
    pose proof (proj1 (Forall_lookup _ _) (im_chunks s I) i c Ec) as Hok.
    destruct (load_chunk_eq fuel c (set_current (n_chunks s) s)) as (s' & -> & Sd & _ & Hb); [lia|done|]. cbn [mbind run_bind].
    assert (Sd' : same_disk s (set_current (Z.of_nat i) s')) by (by destruct Sd).
    exists (set_current (Z.of_nat i) s'), i, c. split_and!; try done; try lia.
    eapply image_ok_same; [exact Sd'| |exact I]. intros k d [= ->%Nat2Z.inj] Ed. rewrite Ec in Ed. by injection Ed as ->.
Qed.

Lemma disk_sector_eq f cs x i c : table_ok cs -> cs !! i = Some c -> sector c <= x < sector c + sectorcount c ->
  disk_sector f cs x = take 512 (drop (Z.to_nat (512 * (x - sector c))) (data_of f c)).
Proof.
  intros T Ec Hx. unfold disk_sector. destruct (list_find _ cs) as [[j d]|] eqn:E.
  - apply list_find_Some in E as (Ed & Hd & _). destruct (Nat.lt_total i j) as [Hl|[->|Hl]].
    + pose proof (tb_sorted cs T i j c d Ec Ed Hl). lia.
    + rewrite Ec in Ed. by injection Ed as ->.
    + pose proof (tb_sorted cs T j i d c Ed Ec Hl). lia.
  - apply list_find_None in E. apply (proj1 (Forall_lookup _ _) E i c) in Ec. done.
Qed.


Lemma disk_sector_ext f g cs x : fdat g = fdat f -> disk_sector g cs x = disk_sector f cs x.
Proof. intros E. unfold disk_sector. destruct (list_find _ cs) as [[i c]|]; [|done]. by rewrite (data_of_ext f). Qed.

(** A sector taken out of the buffer *)
Lemma sector_of_buffer f (buf : list Z) c x : sector c <= x < sector c + sectorcount c -> 512 * sectorcount c <= Z.of_nat (length buf) ->
  take (Z.to_nat (512 * sectorcount c)) buf = data_of f c ->
  take 512 (drop (Z.to_nat (512 * (x - sector c))) buf) = take 512 (drop (Z.to_nat (512 * (x - sector c))) (data_of f c)).
Proof.
  intros Hx Hl <-. rewrite skipn_firstn_comm, take_take. f_equal. lia.
Qed.

Definition sectors_from (n : Z) (k : nat) : list Z := map (fun i => n + Z.of_nat i) (seq 0 k).

Lemma sectors_from_S n k : sectors_from n (S k) = n :: sectors_from (n + 1) k.
Proof.
  unfold sectors_from. cbn [seq map]. f_equal; [lia|]. rewrite <- seq_shift, map_map. apply map_ext. intros i. lia.
Qed.

Lemma read_sectors_eq fuel k : forall i s, image_ok s -> 0 <= current_chunk s -> 0 <= seek_sector s + i ->
  seek_sector s + i + Z.of_nat k < 2 ^ 31 ->
  (forall m, seek_sector s + i <= m < seek_sector s + i + Z.of_nat k -> exists j, covers (chunks s) j m) ->
  (length (chunks s) <= fuel)%nat ->
  exists s', dmg_read_sectors inflate fuel k i s =
      Ok (true, concat (map (disk_sector (dfile s) (chunks s)) (sectors_from (seek_sector s + i) k)), s') /\
    same_disk s s' /\ image_ok s'.
Proof.
  induction k as [|k IH]; intros i s I Hcur H0 Hk Hcov Hf; [by exists s|].
  cbn [dmg_read_sectors]. rewrite s32_small by lia. destruct (Hcov (seek_sector s + i)) as [n Hn]; [lia|].
  destruct (read_chunk_eq fuel s (seek_sector s + i) n I Hcur) as (s1 & j & c & -> & Sd & I1 & Hj & Ec & Hx & Hb); [lia|done..|].
  cbn [mbind run_bind]. change (negb (0 =? 0)) with false. cbv iota.
  rewrite (sd_chunks _ _ Sd), (sd_seek _ _ Sd), Hj, Nat2Z.id, Ec. cbn [of_option mbind run_bind].
  pose proof (proj1 (Forall_lookup _ _) (im_chunks s I) j c Ec) as [_ _ (_ & Hs1 & Hs2) _].
  rewrite <- (sd_usize _ _ Sd) in Hs1, Hs2. pose proof (tb_chunk _ (im_table s I) j c Ec).
  rewrite (u32_small (seek_sector s + i - sector c)), u32_small by lia. rewrite (proj2 (Z.ltb_ge _ _)) by lia.
  destruct (IH (i + 1) s1) as (s2 & E2 & Sd2 & I2); try done; rewrite ?(sd_seek _ _ Sd), ?(sd_chunks _ _ Sd); try lia; try done.
  { intros m Hm. apply Hcov. lia. }
  rewrite E2. cbn [mbind run_bind]. exists s2. split; [|split; [by etransitivity|done]].
  rewrite sectors_from_S. cbn [map concat]. rewrite (disk_sector_eq (dfile s) _ _ j c (im_table s I) Ec Hx).
  rewrite (sd_chunks _ _ Sd), (sd_seek _ _ Sd), Z.add_assoc.
  rewrite (Z.mul_comm _ 512), (sector_of_buffer (dfile s) _ c _ Hx Hs1 Hb).
  rewrite (map_ext (disk_sector (dfile s1) (chunks s)) (disk_sector (dfile s) (chunks s))); [done|].
  intros x. apply disk_sector_ext, Sd.
Qed.

(** C28: Reading [k] sectors of an image of compressed and zero chunks after a
    seek to block [b]: the bytes are those of the sectors of the disk, found
    through the table and the one-chunk buffer, and the image is kept; but
    they are the sectors from [b / 512] on and not from [b] on, since
    [dmg_seek] takes the block number for a byte offset. *)
Theorem dmg_read_correct fuel s b k : image_ok s -> 0 <= current_chunk s -> 0 <= b < 2 ^ 31 -> b / 512 + Z.of_nat k < 2 ^ 31 ->
  (forall m, b / 512 <= m < b / 512 + Z.of_nat k -> exists i, covers (chunks s) i m) -> (length (chunks s) <= fuel)%nat ->
  exists s', dmg_read inflate fuel (Z.of_nat k * 512) (dmg_seek b 0 s).2 =
      Ok (Z.of_nat k * 512, concat (map (disk_sector (dfile s) (chunks s)) (sectors_from (b / 512) k)), s') /\
    image_ok s' /\ forall m, disk_sector (dfile s') (chunks s') m = disk_sector (dfile s) (chunks s) m.
Proof.
  intros I Hcur Hb Hk Hcov Hf. unfold dmg_seek, dmg_read. cbn [snd]. rewrite Z.add_0_r, Z.div_mul, Nat2Z.id by lia.
  assert (Hu : Qcow.u64 b = b) by (unfold Qcow.u64; apply Z.mod_small; lia).
  assert (0 <= b / 512 < 2 ^ 31) by (Z.to_euclidean_division_equations; lia). rewrite Hu, s32_small by lia.
  set (s0 := set_seek_sector (b / 512) s). assert (I0 : image_ok s0) by (by destruct I).
  destruct (read_sectors_eq fuel k 0 s0 I0) as (s' & E & Sd & I'); try done; cbn [seek_sector s0 set_seek_sector]; rewrite ?Z.add_0_r; try done; [lia|].
  rewrite E. cbn [mbind run_bind seek_sector s0 set_seek_sector]. rewrite Z.add_0_r. exists s'. split; [done|]. split; [done|].
  intros m. rewrite (sd_chunks _ _ Sd). apply disk_sector_ext, Sd.
Qed.

End Reading.

(** ** Opening ends *)

(** [f'] is further on in the same file. *)
Definition later (f f' : file) : Prop := flen f' = flen f /\ fpos f <= fpos f'.

#[local] Instance later_preorder : PreOrder later.
Proof. split; [intros f; split; [done|lia]|]. intros f g h [] []. split; [congruence|lia]. Qed.

Lemma read_be_later n f v f' : (0 < n)%nat -> read_be n f = (v, f') ->
  later f f' /\ (v <> 0 -> fpos f' = fpos f + Z.of_nat n /\ fpos f' <= flen f).
Proof.
  unfold read_be, fread. intros Hn [= <- <-]. split; [split; cbn; lia|]. rewrite seg_length. intros Hv.
  destruct (Nat.ltb_spec (Z.to_nat (Z.max 0 (Z.min (Z.of_nat n) (flen f - fpos f)))) n) as [H|H]; [done|]. cbn. lia.
Qed.

Lemma read_off_later f v f' : read_off f = (v, f') -> later f f'.
Proof. unfold read_off. destruct (read_be 8 f) as [w g] eqn:E. intros [= _ <-]. by apply read_be_later in E as [H _]; [|lia]. Qed.

Lemma lseek_cur_later off f r f' : 0 <= off -> lseek_cur off f = (r, f') -> later f f'.
Proof. unfold lseek_cur, lseek_set. intros Ho. destruct (_ <? 0); intros [= <- <-]; split; cbn; lia || done. Qed.

Lemma read_entries_later n : forall cs in_ out_ f, match read_entries n cs in_ out_ f with
  | Ok (_, f') => later f f' | Crash => True | Fuel => False end.
Proof.
  induction n as [|n IH]; intros cs in_ out_ f; [done|]. cbn [read_entries].
  destruct (read_uint32 f) as [ty f1] eqn:E1. apply read_be_later in E1 as [L1 _]; [|lia].
  destruct (_ && _ && _).
  - destruct (if ty =? END_CHUNK then _ else _) as [[i o]| |] eqn:E; [|done|by repeat case_match]. cbn [mbind run_bind].
    destruct (lseek_cur 36 f1) as [r f2] eqn:E2. apply lseek_cur_later in E2; [|lia].
    destruct (r <? 0); [by etransitivity|]. specialize (IH cs i o f2). destruct (read_entries _ _ _ _ _) as [[? ?]| |]; try done.
    by do 2 (etransitivity; [eassumption|]).
  - destruct (read_uint32 f1) as [v2 f2] eqn:E2. apply read_be_later in E2 as [L2 _]; [|lia].
    destruct (read_off f2) as [v3 f3] eqn:E3. destruct (read_off f3) as [v4 f4] eqn:E4.
    destruct (read_off f4) as [v5 f5] eqn:E5. destruct (read_off f5) as [v6 f6] eqn:E6.
    apply read_off_later in E3, E4, E5, E6.
    match goal with |- context [read_entries n ?cs _ _ _] => specialize (IH cs in_ out_ f6) end.
    destruct (read_entries _ _ _ _ _) as [[? ?]| |]; try done. by do 6 (etransitivity; [eassumption|]).
Qed.

Lemma read_tables_ends fuel : forall info_end cs in_ out_ f, 0 <= fpos f -> flen f - fpos f < Z.of_nat fuel -> 0 < Z.of_nat fuel ->
  read_tables fuel info_end cs in_ out_ f <> Fuel.
Proof.
  induction fuel as [|fuel IH]; intros info_end cs in_ out_ f H0 H1 H2; [lia|]. cbn [read_tables].
  destruct (info_end <=? fpos f); [done|]. destruct (read_uint32 f) as [count f1] eqn:E1.
  apply read_be_later in E1 as [[La Lb] Hc]; [|lia]. destruct (Z.eqb_spec count 0) as [|Hne]; [done|]. destruct (Hc Hne) as [Hp Hl].
  destruct (read_uint32 f1) as [ty f2] eqn:E2. apply read_be_later in E2 as [[Lc Ld] _]; [|lia]. destruct (_ || _).
  - destruct (lseek_cur (u32 (count - 4)) f2) as [r f3] eqn:E3. pose proof (u32_range (count - 4)).
    apply lseek_cur_later in E3 as [Le Lf]; [|lia]. cbn [snd]. apply IH; lia.
  - destruct (lseek_cur 200 f2) as [r f3] eqn:E3. apply lseek_cur_later in E3 as [Le Lf]; [|lia]. destruct (r <? 0); [done|].
    pose proof (read_entries_later (Z.to_nat ((count - 204) / 40)) cs in_ out_ f3) as HE.
    destruct (read_entries _ _ _ _ _) as [[t f4]| |]; try done. destruct HE as [Lg Lh]. cbn [mbind run_bind].
    destruct t as [[[cs' i'] o']|]; [|done]. apply IH; lia.
Qed.

(** Opening any file ends: the loop over the tables takes at most a turn
    for each byte of the file. *)
Theorem dmg_open_ends fuel f : 0 <= flen f < Z.of_nat fuel -> dmg_open fuel f <> Fuel.
Proof.
  intros Hf. unfold dmg_open. cbv zeta. destruct (flen f - 0x1d8 <? 0); [done|]. destruct (_ <? 0); [done|].
  destruct (read_off _) as [ib f1] eqn:E1. apply read_off_later in E1 as [La _]. destruct (ib =? 0); [done|].
  unfold lseek_set. destruct (ib <? 0) eqn:Eib; [done|]. rewrite Eib. apply Z.ltb_ge in Eib.
  destruct (read_uint32 (set_fpos ib f1)) as [m f2] eqn:E2. apply read_be_later in E2 as [[Lb Lc] _]; [|lia]. destruct (negb _); [done|].
  destruct (read_uint32 f2) as [cnt f3] eqn:E3. apply read_be_later in E3 as [[Ld Le] _]; [|lia]. destruct (cnt =? 0); [done|].
  destruct (lseek_cur 0xf8 f3) as [r f4] eqn:E4. apply lseek_cur_later in E4 as [Lf Lg]; [|lia]. destruct (r <? 0); [done|].
  cbn in La, Lb, Lc, Ld, Le, Lf, Lg. pose proof (read_tables_ends fuel (ib + cnt) [] 0 0 f4) as HT.
  destruct (read_tables _ _ _ _ _ _) as [[t f5]| |]; [by destruct t|done|]. exfalso. apply HT; lia || done.
Qed.

Lemma dmg_open_ends_witness : dmg_open 20 (File (put_bytes ∅ 0 [1; 2; 3]) 3 0 []) <> Fuel.
Proof. apply dmg_open_ends. cbn. lia. Defined.

(** ** An image of a compressed and a zero chunk

    The stream is its output without a first byte. *)

Definition ex_inflate (l : list Z) (n : Z) : bool * list Z := (true, drop 1 l).
Definition ex_chunk : chunk := Chunk ZLIB_CHUNK 0 1025 0 2.
Definition ex_zero : chunk := Chunk ZERO_CHUNK 0 0 2 3.
Definition ex_bytes : list Z := 99 :: replicate 512 1 ++ replicate 512 2.
Definition ex_dmg : dmg := Dmg (File (put_bytes ∅ 0 ex_bytes) 1025 0 []) [ex_chunk; ex_zero] 2 1026 (replicate 1536 0) 0.

Lemma ex_table : table_ok [ex_chunk; ex_zero].
Proof.
  split; [| |done].
  - intros [|[|i]] c; [intros [= <-]|intros [= <-]|done]; cbn; lia.
  - intros [|[|i]] [|[|j]] c d; try done; try lia. intros [= <-] [= <-] _. cbn. lia.
Qed.

Lemma ex_dmg_ok : image_ok ex_inflate ex_dmg.
Proof.
  split; [exact ex_table| |].
  - apply list.Forall_cons. split; [|apply list.Forall_cons; split; [|done]].
    + split; [by left|by vm_compute|by vm_compute|]. intros _. split; by vm_compute.
    + split; [by right|by vm_compute|by vm_compute|done].
  - intros [|[|[|i]]] c; cbn; try lia. done.
Qed.

Lemma search_chunk_correct_witness : search_chunk 2 ex_dmg 4 = Ok 1 /\ forall fuel, search_chunk fuel ex_dmg 5 = Fuel.
Proof.
  split.
  - destruct (search_chunk_correct ex_dmg 4 ex_table) as (H & _ & _); [lia|].
    apply (H 1%nat); [by exists ex_zero|cbn; lia].
  - intros fuel. destruct (search_chunk_correct ex_dmg 5 ex_table) as (_ & _ & H); [lia|].
    apply (H ex_chunk); [done|cbn; lia|].
    intros [|[|i]] (c & Ec & Hc); cbn in Ec; simplify_eq; cbn in Hc; lia.
Defined.

(** The request for block 600 gets the second sector, for block 1 the first. *)
Lemma dmg_read_correct_witness :
  (exists s', dmg_read ex_inflate 2 512 (dmg_seek 600 0 ex_dmg).2 = Ok (512, replicate 512 2, s')) /\
  (exists s', dmg_read ex_inflate 2 512 (dmg_seek 1 0 ex_dmg).2 = Ok (512, replicate 512 1, s')).
Proof.
  assert (Hc : forall m, 0 <= m < 2 -> exists i, covers (chunks ex_dmg) i m) by (intros m Hm; exists 0%nat, ex_chunk; by split).
  split.
  - destruct (dmg_read_correct ex_inflate 2 ex_dmg 600 1 ex_dmg_ok) as (s' & E & _); [done|done|done|intros m Hm; apply Hc; change (600 / 512) with 1 in Hm; lia|done|].
    exists s'. exact E.
  - destruct (dmg_read_correct ex_inflate 2 ex_dmg 1 1 ex_dmg_ok) as (s' & E & _); [done|done|done|intros m Hm; apply Hc; change (1 / 512) with 0 in Hm; lia|done|].
    exists s'. exact E.
Defined.

End DmgInv.
