(* ===== verification/Usb.v ===== *)
(** * The OHCI USB host controller ([src/drivers/usb.c])

    The guest's driver links endpoint descriptors (ED) with queues of transfer
    descriptors (TD) in its memory.  The controller turns the first TD of each
    endpoint into a request ("urb") for the client of the device, and retires
    the TD when the client completes the urb.  Control transfers are collected
    into one request of their own.  Clients complete requests at once, from
    inside [submit], [abort] or [reset], or later.

    [Crash]: [fatal], a pointer to a freed object, an uninitialised
    descriptor, an access beyond a buffer; [Fuel]: still running. *)

From S2P Require Import Prelude Memory Pic BlockDev.

Module Usb.
Import BlockDev.

(** ** Constants ([ohci_hw.h], [usb-client.h]) *)

Definition HC_REV : Z := 0.
Definition HC_CONTROL : Z := 1.
Definition CTRL_PLE : Z := 0x4.
Definition CTRL_CLE : Z := 0x10.
Definition CTRL_BLE : Z := 0x20.
Definition HCFS_MASK : Z := 0xc0.
Definition HCFS_RESET : Z := 0x00.
Definition HCFS_RESUME : Z := 0x40.
Definition HCFS_OPERATIONAL : Z := 0x80.
Definition HCFS_SUSPEND : Z := 0xc0.
Definition CTRL_IR : Z := 0x100.
Definition CTRL_RWC : Z := 0x200.
Definition HC_CMD_STATUS : Z := 2.
Definition CMD_HCR : Z := 0x1.
Definition CMD_CLF : Z := 0x2.
Definition CMD_BLF : Z := 0x4.
Definition HC_INT_STATUS : Z := 3.
Definition HC_INT_ENABLE : Z := 4.
Definition HC_INT_DISABLE : Z := 5.
Definition INT_WDH : Z := 0x2.
Definition INT_SF : Z := 0x4.
Definition INT_RD : Z := 0x8.
Definition INT_FNO : Z := 0x20.
Definition INT_RHSC : Z := 0x40.
Definition INT_MIE : Z := 0x80000000.
Definition HC_HCCA : Z := 6.
Definition HC_PERIOD_CUR_ED : Z := 7.
Definition HC_CNTRL_HEAD_ED : Z := 8.
Definition HC_CUR_CNTRL_ED : Z := 9.
Definition HC_BULK_HEAD_ED : Z := 10.
Definition HC_CUR_BULK_ED : Z := 11.
Definition HC_DONE_HEAD : Z := 12.
Definition HC_FM_INTERVAL : Z := 13.
Definition HC_FM_REMAINING : Z := 14.
Definition HC_FM_NUMBER : Z := 15.
Definition HC_LS_THRESHOLD : Z := 17.
Definition HC_RH_DESC_A : Z := 18.
Definition POTPGT_2MS : Z := 0x1000000.
Definition DESC_A_NDP_MASK : Z := 0xff.
Definition DESC_A_DT : Z := 0x400.
Definition HC_RH_STATUS : Z := 20.
Definition RH_STATUS_LPS : Z := 0x1.
Definition RH_STATUS_OCI : Z := 0x2.
Definition RH_STATUS_DRWE : Z := 0x8000.
Definition RH_STATUS_LPSC : Z := 0x10000.
Definition RH_STATUS_OCIC : Z := 0x20000.
Definition RH_STATUS_CRWE : Z := 0x80000000.
Definition HC_RH_PORTBASE : Z := 21.
Definition PORT_CCS : Z := 0x1.
Definition PORT_PES : Z := 0x2.
Definition PORT_PSS : Z := 0x4.
Definition PORT_POCI : Z := 0x8.
Definition PORT_PRS : Z := 0x10.
Definition PORT_PPS : Z := 0x100.
Definition PORT_LSDA : Z := 0x200.
Definition PORT_CSC : Z := 0x10000.
Definition PORT_PESC : Z := 0x20000.
Definition PORT_PSSC : Z := 0x40000.
Definition PORT_OCIC : Z := 0x80000.
Definition PORT_PRSC : Z := 0x100000.
Definition NUM_HC_REGS : Z := 21.
Definition NDP : Z := 8.
Definition SOF_PERIOD_MS : Z := 37.

Definition HEADP_H : Z := 0x1.
Definition kDirSETUP : Z := 0.
Definition kDirOUT : Z := 1.
Definition kDirIN : Z := 2.
Definition kBulkType : Z := 0.
Definition kCtrlType : Z := 1.
Definition kInterruptType : Z := 2.

Definition CC_NOERROR : Z := 0.
Definition CC_CRC : Z := 1.
Definition CC_BIT_STUFFING : Z := 2.
Definition CC_STALL : Z := 4.
Definition CC_DEV_NOT_RESPONDING : Z := 5.
Definition CC_PID_CHECK_FAILURE : Z := 6.
Definition CC_DATA_UNDERRUN : Z := 9.

(** The field [submitted], list types *)
Definition SUBMITTED : Z := 1.
Definition SUBMITTED_DONE : Z := 2.
Definition SUBMITTED_DISCARD : Z := 3.
Definition CONTROL_LIST : Z := 0x100.
Definition BULK_LIST : Z := 0x200.
Definition INTERRUPT_LIST : Z := 0x400.
Definition INTERRUPT_IND_MASK : Z := 0x1f.

(** Offsets in [hcca_t] and [ohci_ed_t] *)
Definition hcca_frame_num : Z := 128.
Definition hcca_done_head : Z := 132.
Definition ofs_headp : Z := 8.
Definition ofs_nexted : Z := 12.

(** ** Data *)

(** [urb_t] *)
Record urb_t := Urb {
  en : Z; utype : Z; is_read : bool; usize : Z; actcount : Z; buf : list Z
}.
Definition set_actcount v s := Urb (en s) (utype s) (is_read s) (usize s) v (buf s).
Definition set_buf v s := Urb (en s) (utype s) (is_read s) (usize s) (actcount s) v.

(** [ohci_ed_t] and [ohci_td_t] as the words of the host; the bit fields are functions of the first one. *)
Record ed_t := Ed {
  ed0 : Z; tailp : Z; headp : Z; nexted : Z
}.
Definition set_headp v s := Ed (ed0 s) (tailp s) v (nexted s).

Record td_t := Td {
  td0 : Z; cbp : Z; tnext : Z; be : Z
}.
Definition set_td0 v s := Td v (cbp s) (tnext s) (be s).
Definition set_cbp v s := Td (td0 s) v (tnext s) (be s).
Definition set_tnext v s := Td (td0 s) (cbp s) v (be s).

Record priv_urb_t := PUrb {
  u_dev : option Z; list_type : Z; ed_mphys : Z; td_mphys : Z; u_ed : ed_t; u_td : td_t; uurb : urb_t
}.
Definition set_uurb v s := PUrb (u_dev s) (list_type s) (ed_mphys s) (td_mphys s) (u_ed s) (u_td s) v.

Record priv_ctrl_urb_t := CUrb {
  c_dev : Z; submitted : Z; xcnt : Z; status : Z; ucurb : urb_t
}.
Definition set_submitted v s := CUrb (c_dev s) v (xcnt s) (status s) (ucurb s).
Definition set_xcnt v s := CUrb (c_dev s) (submitted s) v (status s) (ucurb s).
Definition set_status v s := CUrb (c_dev s) (submitted s) (xcnt s) v (ucurb s).
Definition set_ucurb v s := CUrb (c_dev s) (submitted s) (xcnt s) (status s) v.

Record usb_device := UDev {
  fa : Z; port : Z; refcon : Z; has_abort : bool; has_reset : bool; curbs : list Z
}.
Definition set_fa v s := UDev v (port s) (refcon s) (has_abort s) (has_reset s) (curbs s).
Definition set_curbs v s := UDev (fa s) (port s) (refcon s) (has_abort s) (has_reset s) v.

(** [ohci_t] *)
Record ohci_t := Ohci {
  irq : Z; bar : Z; r : list Z; hcca : option Memory.lvptr; irq_enable : Z; irq_status : Z; irq_line : bool;
  devs : list (Z * usb_device); urbs : list (Z * priv_urb_t); cus : list (Z * priv_ctrl_urb_t);
  next_periodic_ind : Z; opti_workaround : bool; sof_cnt : Z; timer : option Z; fresh : Z
}.
Definition set_bar v s := Ohci (irq s) v (r s) (hcca s) (irq_enable s) (irq_status s) (irq_line s) (devs s)
  (urbs s) (cus s) (next_periodic_ind s) (opti_workaround s) (sof_cnt s) (timer s) (fresh s).
Definition set_r v s := Ohci (irq s) (bar s) v (hcca s) (irq_enable s) (irq_status s) (irq_line s) (devs s)
  (urbs s) (cus s) (next_periodic_ind s) (opti_workaround s) (sof_cnt s) (timer s) (fresh s).
Definition set_hcca v s := Ohci (irq s) (bar s) (r s) v (irq_enable s) (irq_status s) (irq_line s) (devs s)
  (urbs s) (cus s) (next_periodic_ind s) (opti_workaround s) (sof_cnt s) (timer s) (fresh s).
Definition set_irq_enable v s := Ohci (irq s) (bar s) (r s) (hcca s) v (irq_status s) (irq_line s) (devs s)
  (urbs s) (cus s) (next_periodic_ind s) (opti_workaround s) (sof_cnt s) (timer s) (fresh s).
Definition set_irq_status v s := Ohci (irq s) (bar s) (r s) (hcca s) (irq_enable s) v (irq_line s) (devs s)
  (urbs s) (cus s) (next_periodic_ind s) (opti_workaround s) (sof_cnt s) (timer s) (fresh s).
Definition set_irq_line v s := Ohci (irq s) (bar s) (r s) (hcca s) (irq_enable s) (irq_status s) v (devs s)
  (urbs s) (cus s) (next_periodic_ind s) (opti_workaround s) (sof_cnt s) (timer s) (fresh s).
Definition set_devs v s := Ohci (irq s) (bar s) (r s) (hcca s) (irq_enable s) (irq_status s) (irq_line s) v
  (urbs s) (cus s) (next_periodic_ind s) (opti_workaround s) (sof_cnt s) (timer s) (fresh s).
Definition set_urbs v s := Ohci (irq s) (bar s) (r s) (hcca s) (irq_enable s) (irq_status s) (irq_line s)
  (devs s) v (cus s) (next_periodic_ind s) (opti_workaround s) (sof_cnt s) (timer s) (fresh s).
Definition set_cus v s := Ohci (irq s) (bar s) (r s) (hcca s) (irq_enable s) (irq_status s) (irq_line s)
  (devs s) (urbs s) v (next_periodic_ind s) (opti_workaround s) (sof_cnt s) (timer s) (fresh s).
Definition set_next_periodic_ind v s := Ohci (irq s) (bar s) (r s) (hcca s) (irq_enable s) (irq_status s)
  (irq_line s) (devs s) (urbs s) (cus s) v (opti_workaround s) (sof_cnt s) (timer s) (fresh s).
Definition set_sof_cnt v s := Ohci (irq s) (bar s) (r s) (hcca s) (irq_enable s) (irq_status s) (irq_line s)
  (devs s) (urbs s) (cus s) (next_periodic_ind s) (opti_workaround s) v (timer s) (fresh s).
Definition set_timer v s := Ohci (irq s) (bar s) (r s) (hcca s) (irq_enable s) (irq_status s) (irq_line s)
  (devs s) (urbs s) (cus s) (next_periodic_ind s) (opti_workaround s) (sof_cnt s) v (fresh s).
Definition set_fresh v s := Ohci (irq s) (bar s) (r s) (hcca s) (irq_enable s) (irq_status s) (irq_line s)
  (devs s) (urbs s) (cus s) (next_periodic_ind s) (opti_workaround s) (sof_cnt s) (timer s) v.

(** The bit fields, from the most significant bit on *)
Definition ed_f (e : ed_t) : bool := Z.testbit (ed0 e) 15.
Definition ed_k (e : ed_t) : bool := Z.testbit (ed0 e) 14.
Definition ed_d (e : ed_t) : Z := (ed0 e .>> 11) .& 3.
Definition ed_en (e : ed_t) : Z := (ed0 e .>> 7) .& 0xf.
Definition ed_fa (e : ed_t) : Z := ed0 e .& 0x7f.
Definition td_dp (t : td_t) : Z := (td0 t .>> 19) .& 3.
Definition td_r (t : td_t) : bool := Z.testbit (td0 t) 18.
Definition set_td_cc (v : Z) (t : td_t) : td_t := set_td0 ((td0 t .& 0x0fffffff) .| ((v .& 0xf) .<< 28)) t.
Definition set_td_ec (v : Z) (t : td_t) : td_t := set_td0 ((td0 t .& not32 0x0c000000) .| ((v .& 3) .<< 26)) t.

(** The casts between the two descriptors *)
Definition td_of (e : ed_t) : td_t := Td (ed0 e) (tailp e) (headp e) (nexted e).
Definition ed_of (t : td_t) : ed_t := Ed (td0 t) (cbp t) (tnext t) (be t).

(** A [urb_t *] inside of a [priv_urb_t] or of a [priv_ctrl_urb_t] *)
Inductive uref := UData (u : Z) | UCtrl (cu : Z).

(** A call of [complete_urb], with what the client has stored in [actcount]
    and at the start of [buf] *)
Record completion := Done { c_urb : uref; c_status : Z; c_actcount : Z; c_data : list Z }.

(** The functions [submit], [abort] and [reset] of the clients, by their
    [refcon]: what they do to the clients and the completions they call. *)
Class UsbClient (C : Type) := {
  cl_submit : Z -> uref -> urb_t -> C -> list completion * C;
  cl_abort : Z -> uref -> C -> list completion * C;
  cl_reset : Z -> C -> list completion * C
}.

(** What a completion leads to: the public and the internal function *)
Inductive call := Complete (c : completion) | CompleteUrb (u st : Z).

(** ** Lists of objects by their address *)
Section Keys.
Context {A : Type}.
Implicit Types (l : list (Z * A)) (k : Z).
Definition find_key k l : option A := snd <$> find (fun p => p.1 =? k) l.
Definition upd_key k (f : A -> A) l : list (Z * A) := map (fun p => if p.1 =? k then (p.1, f p.2) else p) l.
Definition del_key k l : list (Z * A) := List.filter (fun p => negb (p.1 =? k)) l.
End Keys.

(** ** The world *)

Record world (P C : Type) := World { hc : ohci_t; mem : Memory.memory; pic : P; cl : C }.
#[global] Arguments World {P C} hc mem pic cl.
#[global] Arguments hc {P C} w : rename.
#[global] Arguments mem {P C} w : rename.
#[global] Arguments pic {P C} w : rename.
#[global] Arguments cl {P C} w : rename.

Section Ohci.
Context {P C : Type} `{Pic.IrqController P} `{UsbClient C}.
(** The byte of fresh memory at an index *)
Context (junk : Z -> Z -> Z).

Definition M (A : Type) : Type := world P C -> run (A * world P C).
#[global] Instance M_ret : MRet M := fun A a w => Ok (a, w).
#[global] Instance M_bind : MBind M := fun A B f m w => '(a, w) ← m w; f a w.

Definition crash {A} : M A := fun _ => Crash.
Definition out_of_fuel {A} : M A := fun _ => Fuel.
Definition lift {A} (o : option A) : M A := fun w => a ← of_option o; Ok (a, w).
Definition gets {A} (f : ohci_t -> A) : M A := fun w => Ok (f (hc w), w).
Definition hmod (f : ohci_t -> ohci_t) : M unit := fun w => Ok (tt, World (f (hc w)) (mem w) (pic w) (cl w)).

Definition getr (i : Z) (h : ohci_t) : Z := default 0 (r h !! Z.to_nat i).
Definition putr (i v : Z) (h : ohci_t) : ohci_t := set_r (<[Z.to_nat i := v]> (r h)) h.
Definition reg (i : Z) : M Z := gets (getr i).
Definition set_reg (i v : Z) : M unit := hmod (putr i v).
Definition or_status (b : Z) : M unit := hmod (fun h => set_irq_status (irq_status h .| b) h).

Definition transl (a : Z) : M (option Memory.lvptr) := fun w => Ok (Memory.transl_mphys a (mem w), w).
Definition ld32 (p : Memory.lvptr) : M Z := fun w => v ← of_option (Memory.ld_le 4 p (mem w)); Ok (v, w).
Definition store (p : Memory.lvptr) (l : list Z) : M unit := fun w =>
  m ← of_option (Memory.store p l (mem w)); Ok (tt, World (hc w) m (pic w) (cl w)).
Definition st32 (p : Memory.lvptr) (v : Z) : M unit := store p (Memory.le_bytes 4 v).
Definition memcpy (p : Memory.lvptr) (n : Z) : M (list Z) := fun w =>
  if n <? 0 then Crash else l ← of_option (Memory.load p (Z.to_nat n) (mem w)); Ok (l, w).

Definition get_urb (u : Z) : M priv_urb_t := h ← gets urbs; lift (find_key u h).
Definition get_cu (c : Z) : M priv_ctrl_urb_t := h ← gets cus; lift (find_key c h).
Definition get_dev (d : Z) : M usb_device := h ← gets devs; lift (find_key d h).
Definition mod_urb u f : M unit := hmod (fun h => set_urbs (upd_key u f (urbs h)) h).
Definition mod_cu c f : M unit := hmod (fun h => set_cus (upd_key c f (cus h)) h).
Definition mod_dev d f : M unit := hmod (fun h => set_devs (upd_key d f (devs h)) h).
Definition malloc : M Z := i ← gets fresh; hmod (fun h => set_fresh (fresh h + 1) h);; mret i.
Definition fresh_bytes (id n : Z) : list Z := map (fun i => junk id (Z.of_nat i)) (seq 0 (Z.to_nat n)).

Definition GET_HCFS : M Z := c ← reg HC_CONTROL; mret (c .& HCFS_MASK).
Definition SET_HCFS (x : Z) : M unit := c ← reg HC_CONTROL; set_reg HC_CONTROL (c .| (x .& HCFS_MASK)).
Definition is_operational (h : ohci_t) : bool := getr HC_CONTROL h .& HCFS_MASK =? HCFS_OPERATIONAL.

(** [b] of [fix_irq] *)
Definition pending (h : ohci_t) : bool := tst (irq_enable h) INT_MIE && tst (irq_enable h) (irq_status h).

Definition fix_irq : M unit := fun w =>
  let h := hc w in let b := pending h in
  if eqb b (irq_line h) then Ok (tt, w) else
  Ok (tt, World (set_irq_line b h) (mem w) (if b then Pic.irq_hi (irq h) (pic w) else (Pic.irq_low (irq h) (pic w)).2) (cl w)).

(** ** Ports *)

Definition dev_from_port (p : Z) (h : ohci_t) : option Z := fst <$> find (fun d => port d.2 =? p) (devs h).
Definition dev_from_fa (a : Z) (h : ohci_t) : option Z := fst <$> find (fun d => fa d.2 =? a) (devs h).

(** One turn of the loop of [update_port_status] *)
Definition update_port (i : Z) : M unit :=
  old ← reg (HC_RH_PORTBASE + i);
  d ← gets (dev_from_port i);
  let new := match d with Some _ => old .| PORT_CCS | None => old .& PORT_PPS end in
  let ev := (if tst (old .^ new) PORT_CCS then PORT_CSC else 0) .| (if tst (old .^ new) PORT_PES then PORT_PESC else 0) in
  rh ← reg HC_RH_STATUS;
  fs ← GET_HCFS;
  (if tst rh RH_STATUS_DRWE && (tst ev PORT_CSC && (fs =? HCFS_SUSPEND))
   then or_status INT_RD;; SET_HCFS HCFS_RESUME else mret tt);;
  (if negb (ev =? 0) then or_status INT_RHSC;; fix_irq else mret tt);;
  set_reg (HC_RH_PORTBASE + i) (if negb (ev =? 0) then new .| ev else new).

Fixpoint mapM_ {A} (f : A -> M unit) (l : list A) : M unit :=
  match l with [] => mret tt | a :: l => f a;; mapM_ f l end.

Definition update_port_status : M unit := mapM_ (fun i => update_port (Z.of_nat i)) (seq 0 (Z.to_nat NDP)).

Definition hc_reset (soft : bool) : M unit :=
  c ← reg HC_CONTROL;
  let save_ctrl := if soft then c else 0 in
  hmod (fun h => set_r (replicate (Z.to_nat (NUM_HC_REGS + NDP)) 0) h);;
  set_reg HC_CONTROL ((save_ctrl .& not32 (CTRL_IR .| CTRL_RWC)) .| (if soft then HCFS_SUSPEND else HCFS_RESET));;
  set_reg HC_FM_INTERVAL 0x2edf;;
  set_reg HC_LS_THRESHOLD 0x628;;
  set_reg HC_RH_DESC_A (NDP .| (POTPGT_2MS * 10));;
  hmod (set_hcca None);;
  update_port_status.

Definition update_done_head : M unit :=
  h ← gets id;
  let dh := getr HC_DONE_HEAD h in
  match hcca h with
  | None => mret tt
  | Some p =>
      if (dh =? 0) || tst (irq_status h) INT_WDH then mret tt else
      st32 (Memory.plus p hcca_done_head)
        (dh .| (if negb ((not32 INT_WDH .& irq_status h) .& irq_enable h =? 0) then 1 else 0));;
      set_reg HC_DONE_HEAD 0;;
      or_status INT_WDH;;
      fix_irq
  end.

(** ** Descriptors and their data *)

(** [get_ed( dest, mphys )]; [None] is an uninitialised [*dest]. *)
Definition get_ed (dest : option ed_t) (mphys : Z) : M (option ed_t) :=
  s ← transl mphys;
  match s with
  | None => mret dest
  | Some s =>
      a ← ld32 s; b ← ld32 (Memory.plus s 4); c ← ld32 (Memory.plus s 8); d ← ld32 (Memory.plus s 12);
      mret (Some (Ed a b c d))
  end.

Definition put_ed (mphys : Z) (e : ed_t) : M unit :=
  d ← transl mphys;
  match d with
  | None => mret tt
  | Some d =>
      st32 d (ed0 e);; st32 (Memory.plus d 4) (tailp e);; st32 (Memory.plus d 8) (headp e);;
      st32 (Memory.plus d 12) (nexted e)
  end.

(** [get_td], of a [td] that is not initialised, and [put_td] *)
Definition get_td (mphys : Z) : M td_t := e ← get_ed None mphys; e ← lift e; mret (td_of e).
Definition put_td (mphys : Z) (t : td_t) : M unit := put_ed mphys (ed_of t).

Definition get_td_size (t : td_t) : Z :=
  if cbp t =? 0 then 0
  else if be t .& not32 0xfff =? cbp t .& not32 0xfff then s32 (be t - cbp t + 1)
  else (0x1001 - (cbp t .& 0xfff)) + (be t .& 0xfff).

(** [0x1000 - ((int)p & 0xfff)]; RAM is mapped at a page boundary. *)
Definition page_rest (p : Memory.lvptr) : Z := 0x1000 - (Memory.offs_of p .& 0xfff).

(** The bytes copied: the contents of the first page, then of the second *)
Definition get_td_data (t : td_t) (count : Z) : M (list Z) :=
  if cbp t =? 0 then mret [] else
  p ← transl (cbp t);
  match p with
  | None => mret []
  | Some p =>
      let s := page_rest p in
      a ← memcpy p (Z.min count s);
      if count <=? s then mret a else
      q ← transl (be t .& not32 0xfff);
      match q with
      | None => mret a
      | Some q => b ← memcpy q (count - s); mret (a ++ b)
      end
  end.

(** The first [count] bytes of a buffer; one that is too short, or a negative
    [count], is not copied. *)
Definition prefix (count : Z) (l : list Z) : option (list Z) :=
  if (0 <=? count) && (count <=? Z.of_nat (length l)) then Some (take (Z.to_nat count) l) else None.

Definition put_td_data (t : td_t) (src : list Z) (count : Z) : M unit :=
  if cbp t =? 0 then mret tt else
  p ← transl (cbp t);
  match p with
  | None => mret tt
  | Some p =>
      let s := page_rest p in
      l ← lift (prefix count src);
      store p (take (Z.to_nat s) l);;
      if count <=? s then mret tt else
      q ← transl (be t .& not32 0xfff);
      match q with
      | None => mret tt
      | Some q => store q (drop (Z.to_nat s) l)
      end
  end.

(** ** Urbs *)

Definition unlink_urb (u : Z) : M unit :=
  l ← gets urbs; _ ← lift (find_key u l); hmod (set_urbs (del_key u l)).

Definition discard_urb := unlink_urb.

Definition get_list_head (lt : Z) : M Z :=
  if lt =? BULK_LIST then reg HC_BULK_HEAD_ED
  else if lt =? CONTROL_LIST then reg HC_CNTRL_HEAD_ED
  else
    p ← gets hcca;
    match p with
    | Some p => if tst lt INTERRUPT_LIST then ld32 (Memory.plus p (4 * (lt .& INTERRUPT_IND_MASK))) else mret 0
    | None => mret 0
    end.

(** The walk of [complete_urb_] and [clean_stale_interrupt_urbs] along a list
    of EDs: [mphys] at its end *)
Fixpoint walk (fuel : nat) (mphys target : Z) : M Z :=
  match fuel with
  | O => out_of_fuel
  | S fuel =>
      if (mphys =? 0) || (mphys =? target) then mret mphys else
      p ← transl mphys;
      match p with
      | None => mret mphys
      | Some p => m ← ld32 (Memory.plus p ofs_nexted); walk fuel m target
      end
  end.

(** ** The entry points of the completions, which call each other *)
Section Again.
Context (fuel : nat) (again : call -> M unit).

Definition complete_urb_again (u st : Z) : M unit := again (CompleteUrb u st).
Definition call_back (l : list completion) : M unit := mapM_ (fun c => again (Complete c)) l.

(** The functions of [dev->ops] on the [refcon] of the device *)
Definition client (f : C -> list completion * C) : M unit := fun w =>
  let '(l, c) := f (cl w) in call_back l (World (hc w) (mem w) (pic w) c).
Definition ops_submit (d : Z) (ref : uref) (u : urb_t) : M unit := v ← get_dev d; client (cl_submit (refcon v) ref u).
Definition ops_abort (d : Z) (ref : uref) : M unit :=
  v ← get_dev d; if has_abort v then client (cl_abort (refcon v) ref) else mret tt.
Definition ops_reset (d : Z) : M unit :=
  v ← get_dev d; if has_reset v then client (cl_reset (refcon v)) else mret tt.

Definition free_cu (c : Z) : M unit := hmod (fun h => set_cus (del_key c (cus h)) h).

Definition free_ctrl_urb (c : Z) : M unit :=
  cu ← get_cu c;
  v ← get_dev (c_dev cu);
  if bool_decide (c ∈ curbs v) then
    mod_dev (c_dev cu) (set_curbs (List.filter (fun i => negb (i =? c)) (curbs v)));;
    if negb (submitted cu =? SUBMITTED) then free_cu c
    else mod_cu c (set_submitted SUBMITTED_DISCARD);; ops_abort (c_dev cu) (UCtrl c)
  else mret tt.

Definition finish_ctrl_urb (c u : Z) : M unit :=
  cu ← get_cu c;
  pu ← get_urb u;
  b ← lift (buf (ucurb cu) !! 0%nat);
  let x := uurb pu in
  if negb (tst b 0x80) then
    free_ctrl_urb c;;
    complete_urb_again u (if negb (usize x =? 0) || negb (is_read x) then CC_STALL else status cu)
  else if is_read x then
    let s := Z.min (usize x) (actcount (ucurb cu) + 8 - xcnt cu) in
    l ← lift (prefix s (drop (Z.to_nat (xcnt cu)) (buf (ucurb cu))));
    mod_urb u (set_uurb (set_actcount s (set_buf (l ++ drop (length l) (buf x)) x)));;
    mod_cu c (set_xcnt (xcnt cu + s));;
    complete_urb_again u CC_NOERROR
  else
    free_ctrl_urb c;;
    complete_urb_again u (if negb (usize x =? 0) then CC_STALL else status cu).

Definition hook_ctrl_urb_write (c u : Z) : M bool :=
  cu ← get_cu c;
  let x := ucurb cu in
  b ← lift (prefix 4 (buf x));
  match b with
  | [b0; b1; b2; b3] =>
      if (en x =? 0) && (b0 =? 0) && (b1 =? 5) then
        mod_cu c (set_status CC_NOERROR);;
        finish_ctrl_urb c u;;
        _ ← get_dev (c_dev cu);
        mod_dev (c_dev cu) (set_fa ((b3 .<< 8) .| b2));;
        mret true
      else mret false
  | _ => mret false
  end.

(** The first in-flight control urb for an endpoint *)
Fixpoint find_curb (l : list Z) (e : Z) : M (option Z) :=
  match l with
  | [] => mret None
  | c :: l => cu ← get_cu c; if en (ucurb cu) =? e then mret (Some c) else find_curb l e
  end.

(** A SETUP transaction *)
Definition submit_setup (d u : Z) (dir : Z) : M unit :=
  pu ← get_urb u;
  let x := uurb pu in
  if negb (dir =? kDirSETUP) || negb (usize x =? 8) then complete_urb_again u CC_STALL else
  p ← lift (prefix 8 (buf x));
  p0 ← lift (p !! 0%nat); p6 ← lift (p !! 6%nat); p7 ← lift (p !! 7%nat);
  let size := ((p7 .<< 8) .| p6) + 8 in
  let rd := tst p0 0x80 in
  c ← malloc;
  let x' := Urb (ed_en (u_ed pu)) kCtrlType rd size 0 (p ++ fresh_bytes c (size - 8)) in
  hmod (fun h => set_cus ((c, CUrb d (if rd then SUBMITTED else 0) 8 (-1) x') :: cus h) h);;
  mod_dev d (fun v => set_curbs (c :: curbs v) v);;
  mod_urb u (fun pu => set_uurb (set_actcount 8 (uurb pu)) pu);;
  complete_urb_again u CC_NOERROR;;
  if rd then cu ← get_cu c; ops_submit d (UCtrl c) (ucurb cu) else mret tt.

(** The other transactions of a host-to-device transfer; the result is
    [abort]. *)
Definition submit_write (d c u : Z) : M Z :=
  cu ← get_cu c;
  pu ← get_urb u;
  let x := uurb pu in
  if negb (submitted cu =? 0) then mret CC_STALL
  else if negb (is_read x) && (xcnt cu =? 0) then complete_urb_again u CC_NOERROR;; mret 0
  else if xcnt cu =? usize (ucurb cu) then
    if negb (is_read x) || negb (usize x =? 0) then mret CC_STALL else
    mod_cu c (set_submitted SUBMITTED_DONE);;
    done ← hook_ctrl_urb_write c u;
    (if (done : bool) then mret tt else
     mod_cu c (set_submitted SUBMITTED);; cu ← get_cu c; ops_submit d (UCtrl c) (ucurb cu));;
    mret 0
  else if usize (ucurb cu) <? xcnt cu + usize x then mret CC_STALL
  else
    l ← lift (prefix (usize x) (buf x));
    mod_cu c (fun cu => set_xcnt (xcnt cu + usize x)
      (set_ucurb (set_buf (take (Z.to_nat (xcnt cu)) (buf (ucurb cu)) ++ l ++
                           drop (Z.to_nat (xcnt cu + usize x)) (buf (ucurb cu))) (ucurb cu)) cu));;
    mod_urb u (set_uurb (set_actcount (usize x) x));;
    complete_urb_again u CC_NOERROR;;
    mret 0.

Definition do_submit_ctrl (u dir : Z) : M unit :=
  pu ← get_urb u;
  d ← lift (u_dev pu);
  v ← get_dev d;
  c ← find_curb (curbs v) (ed_en (u_ed pu));
  c ← match c with
      | Some c => if dir =? kDirSETUP then free_ctrl_urb c;; mret None else mret (Some c)
      | None => mret None
      end;
  match c with
  | None => submit_setup d u dir
  | Some c =>
      cu ← get_cu c;
      b ← lift (buf (ucurb cu) !! 0%nat);
      if negb (tst b 0x80) then
        abort ← submit_write d c u;
        if negb (abort =? 0) then complete_urb_again u abort;; free_ctrl_urb c else mret tt
      else if 0 <=? status cu then finish_ctrl_urb c u else mret tt
  end.

(** ** Lists *)

(** The first TD of the endpoint has not been issued. *)
Definition process_endpoint (e : ed_t) (mphys lt : Z) : M unit :=
  let td_mp := headp e .& not32 0xf in
  if td_mp =? tailp e then mret tt else
  t ← get_td td_mp;
  let dir := if (ed_d e =? 0) || (ed_d e =? 3) then td_dp t else ed_d e in
  opti ← gets opti_workaround;
  let type :=
    if opti && (lt =? CONTROL_LIST) && negb (ed_en e =? 0) then kBulkType
    else if ed_en e =? 0 then kCtrlType
    else if tst lt INTERRUPT_LIST then kInterruptType
    else if lt =? BULK_LIST then kBulkType else kCtrlType in
  let size := get_td_size t in
  if size <? 0 then crash else
  u ← malloc;
  dev ← gets (dev_from_fa (ed_fa e));
  let rd := dir =? kDirIN in
  l ← (if negb rd && negb (size =? 0) then get_td_data t size else mret []);
  let x := Urb (ed_en e) type rd size 0 (l ++ drop (length l) (fresh_bytes u size)) in
  hmod (fun h => set_urbs ((u, PUrb dev lt mphys td_mp e t x) :: urbs h) h);;
  match dev with
  | None => complete_urb_again u CC_DEV_NOT_RESPONDING
  | Some d => if type =? kCtrlType then do_submit_ctrl u dir else ops_submit d (UData u) x
  end.

(** The loop of [process_list]: [ed] the descriptor of the turn before *)
Fixpoint process_eds (n : nat) (ed : option ed_t) (mphys lt : Z) (ret : bool) : M bool :=
  match n with
  | O => out_of_fuel
  | S n =>
      if mphys =? 0 then mret ret else
      ed ← get_ed ed mphys;
      e ← lift ed;
      let td_mp := headp e .& not32 0xf in
      if ed_k e || tst (headp e) HEADP_H || (tailp e =? td_mp) then process_eds n (Some e) (nexted e) lt ret
      else if ed_f e then mret ret
      else
        l ← gets urbs;
        (if existsb (fun u => (ed_mphys u.2 =? mphys) && (td_mphys u.2 =? td_mp)) l then mret tt
         else process_endpoint e mphys lt);;
        process_eds n (Some e) (nexted e) lt true
  end.

Definition process_list (mphys lt : Z) : M bool := process_eds fuel None mphys lt false.

Definition poll_lists : M unit :=
  h ← gets id;
  if negb (is_operational h) then mret tt else
  let ctrl := getr HC_CONTROL h in
  let stat := getr HC_CMD_STATUS h in
  (if tst ctrl CTRL_CLE then
     (if tst stat CMD_CLF then v ← reg HC_CNTRL_HEAD_ED; set_reg HC_CUR_CNTRL_ED v else mret tt);;
     v ← reg HC_CNTRL_HEAD_ED;
     busy ← process_list v CONTROL_LIST;
     if (busy : bool) then mret tt else
     set_reg HC_CUR_CNTRL_ED 0;; v ← reg HC_CMD_STATUS; set_reg HC_CMD_STATUS (v .& not32 CMD_CLF)
   else mret tt);;
  (if tst ctrl CTRL_BLE then
     (if tst stat CMD_CLF then v ← reg HC_BULK_HEAD_ED; set_reg HC_CUR_BULK_ED v else mret tt);;
     v ← reg HC_BULK_HEAD_ED;
     busy ← process_list v BULK_LIST;
     if (busy : bool) then mret tt else
     set_reg HC_CUR_BULK_ED 0;; v ← reg HC_CMD_STATUS; set_reg HC_CMD_STATUS (v .& not32 CMD_BLF)
   else mret tt).

(** ** Completion *)

(** The part of [complete_urb_] for [CC_NOERROR]: the TD and the status after
    the data has been copied *)
Definition retire_td (x : urb_t) (t : td_t) : td_t * Z :=
  let '(t, st) :=
    (if actcount x =? usize x then (set_cbp 0 t, CC_NOERROR)
     else
       let c := u32 (cbp t + actcount x) in
       (set_cbp (if cbp t .& not32 0xfff =? c .& not32 0xfff then c else (c .& 0xfff) .| (be t .& not32 0xfff)) t,
        if negb (td_r t) && is_read x then CC_DATA_UNDERRUN else CC_NOERROR)) in
  (set_td_ec 0 t, st).

Definition retries_exhausted (st : Z) : bool :=
  (st =? CC_DEV_NOT_RESPONDING) || (st =? CC_CRC) || (st =? CC_BIT_STUFFING) || (st =? CC_PID_CHECK_FAILURE).

(** From the label [bad] on *)
Definition complete_bad : M unit := poll_lists.

Definition complete_urb_ (u st : Z) : M unit :=
  pu ← get_urb u;
  mphys ← get_list_head (list_type pu);
  unlink_urb u;;
  mphys ← walk fuel mphys (ed_mphys pu);
  ed ← (if mphys =? 0 then mret None else transl mphys);
  match ed with
  | None => complete_bad
  | Some p =>
      e ← get_ed None mphys; e ← lift e;
      if ed_k e || tst (headp e) HEADP_H then complete_bad else
      if negb (headp e .& not32 0xf =? td_mphys pu) then complete_bad else
      t ← get_td (td_mphys pu);
      if negb (cbp t =? cbp (u_td pu)) || negb (be t =? be (u_td pu)) then complete_bad else
      let x := uurb pu in
      q ← (if st =? CC_NOERROR then
             (if is_read x && negb (actcount x =? 0) then put_td_data t (buf x) (actcount x) else mret tt);;
             mret (retire_td x t)
           else mret (if retries_exhausted st then set_td_ec 3 t else t, st));
      let '(t, st) := (q : td_t * Z) in
      let e := set_headp (tnext t .| (if st =? CC_NOERROR then 0 else HEADP_H)) e in
      st32 (Memory.plus p ofs_headp) (headp e);;
      done ← reg HC_DONE_HEAD;
      set_reg HC_DONE_HEAD (td_mphys pu);;
      put_td (td_mphys pu) (set_td_cc st (set_tnext done t));;
      update_done_head;;
      if st =? CC_NOERROR then process_endpoint e (ed_mphys pu) (list_type pu) else mret tt
  end.

Definition complete_ctrl_urb (c st : Z) : M unit :=
  cu ← get_cu c;
  mod_cu c (set_status st);;
  if submitted cu =? SUBMITTED_DISCARD then free_cu c else
  mod_cu c (set_submitted SUBMITTED_DONE);;
  h ← gets id;
  if negb (is_operational h) then free_ctrl_urb c
  else if negb (tst (getr HC_CONTROL h) CTRL_CLE) then free_ctrl_urb c
  else
    match find (fun u => en (uurb u.2) =? en (ucurb cu)) (urbs h) with
    | Some u => finish_ctrl_urb c u.1
    | None => mret tt
    end.

Definition complete_data_urb (u st : Z) : M unit :=
  pu ← get_urb u;
  h ← gets id;
  let ctrl := getr HC_CONTROL h in
  if negb (is_operational h)
     || ((list_type pu =? BULK_LIST) && negb (tst ctrl CTRL_BLE))
     || (tst (list_type pu) INTERRUPT_LIST && negb (tst ctrl CTRL_PLE))
  then discard_urb u else complete_urb_ u st.

(** What the client has stored in its urb before it calls *)
Definition fill (c : completion) (x : urb_t) : option urb_t :=
  if (length (c_data c) <=? length (buf x))%nat
  then Some (set_actcount (c_actcount c) (set_buf (c_data c ++ drop (length (c_data c)) (buf x)) x)) else None.

Definition complete_urb (c : completion) : M unit :=
  match c_urb c with
  | UData u =>
      pu ← get_urb u; x ← lift (fill c (uurb pu)); mod_urb u (set_uurb x);;
      complete_data_urb u (c_status c)
  | UCtrl i =>
      cu ← get_cu i; x ← lift (fill c (ucurb cu)); mod_cu i (set_ucurb x);;
      complete_ctrl_urb i (c_status c)
  end.

Definition run_call (c : call) : M unit :=
  match c with Complete c => complete_urb c | CompleteUrb u st => complete_urb_ u st end.
End Again.

Fixpoint again (fuel : nat) (c : call) : M unit :=
  match fuel with
  | O => out_of_fuel
  | S fuel => run_call fuel (again fuel) c
  end.

(** ** Start of frame *)

Definition rescan_periodic_list (fuel : nat) : M unit :=
  h ← gets id;
  match hcca h with
  | None => mret tt
  | Some p =>
      if tst (getr HC_CONTROL h) CTRL_PLE then
        hmod (set_next_periodic_ind (u32 (next_periodic_ind h + 1)));;
        let ind := next_periodic_ind h .& INTERRUPT_IND_MASK in
        m ← ld32 (Memory.plus p (4 * ind));
        _ ← process_list fuel (again fuel) m (INTERRUPT_LIST .| ind);
        mret tt
      else mret tt
  end.

Fixpoint clean_stale_loop (fuel : nat) (l : list (Z * priv_urb_t)) : M unit :=
  match l with
  | [] => mret tt
  | (u, pu) :: l =>
      if negb (tst (list_type pu) INTERRUPT_LIST) then clean_stale_loop fuel l else
      m ← get_list_head (list_type pu);
      m ← walk fuel m (ed_mphys pu);
      if m =? ed_mphys pu then clean_stale_loop fuel l
      else d ← lift (u_dev pu); ops_abort (again fuel) d (UData u)
  end.

Definition clean_stale_interrupt_urbs (fuel : nat) : M unit :=
  h ← gets id;
  if tst (getr HC_CONTROL h) CTRL_PLE then clean_stale_loop fuel (urbs h) else mret tt.

Definition sof_timer (fuel : nat) (lost : Z) : M unit :=
  or_status INT_SF;;
  fix_irq;;
  old ← reg HC_FM_NUMBER;
  let new := (old + (lost + 1) * SOF_PERIOD_MS) .& 0xffff in
  (if tst (old .^ new) 0x8000 then or_status INT_FNO else mret tt);;
  set_reg HC_FM_NUMBER new;;
  h ← gets id;
  match hcca h with Some p => st32 (Memory.plus p hcca_frame_num) new | None => mret tt end;;
  hmod (set_sof_cnt (u32 (sof_cnt h + 1)));;
  (if sof_cnt h .& 0x7 =? 0 then rescan_periodic_list fuel else mret tt);;
  n ← gets sof_cnt;
  if n .& 0x3f =? 0 then clean_stale_interrupt_urbs fuel else mret tt.

(** ** Registers *)

(** [cpu_to_le32] and [le32_to_cpu] of the host *)
Definition le32 (v : Z) : Z := Memory.le_value (be_bytes 4 v).

Definition reg_io_read (addr len : Z) : M Z :=
  h ← gets id;
  let i := u32 (addr - bar h) .>> 2 in
  if (NUM_HC_REGS + NDP <=? i) || negb (len =? 4) then mret 0 else
  mret (le32 (if i =? HC_REV then 0x11
              else if (i =? HC_INT_ENABLE) || (i =? HC_INT_DISABLE) then irq_enable h
              else if i =? HC_INT_STATUS then irq_status h
              else getr i h)).

Definition PORT_CHANGES : Z := PORT_CSC .| PORT_PESC .| PORT_PSSC .| PORT_OCIC .| PORT_PRSC.

(** The value [port_write] stores, without the effects of a port reset *)
Definition port_value (val reg : Z) : Z :=
  let reg := if tst val PORT_CCS then reg .& not32 PORT_PES else reg in
  let reg :=
    if tst reg PORT_CCS then
      let reg := reg .| (val .& (PORT_PES .| PORT_PSS)) in
      if tst val PORT_PRS
      then (((reg .& not32 PORT_PRS) .| PORT_PRSC) .& not32 PORT_PSS) .| PORT_PES else reg
    else if tst val (PORT_PSS .| PORT_PES .| PORT_PRS) then reg .| PORT_CSC else reg in
  let reg :=
    if tst val PORT_LSDA then reg .& not32 PORT_PPS
    else if tst val PORT_PPS then reg .| PORT_PPS else reg in
  let reg :=
    if tst reg PORT_PSS && tst val PORT_POCI then (reg .& not32 PORT_PSS) .| PORT_PSSC else reg in
  reg .& not32 (val .& PORT_CHANGES).

Definition port_write (fuel : nat) (p val : Z) : M unit :=
  old ← reg (p + HC_RH_PORTBASE);
  (if tst old PORT_CCS && tst val PORT_PRS then
     d ← gets (dev_from_port p);
     match d with Some d => mod_dev d (set_fa 0);; ops_reset (again fuel) d | None => mret tt end
   else mret tt);;
  let new := port_value val old in
  (if tst (new .& not32 old) PORT_CHANGES then or_status INT_RHSC else mret tt);;
  set_reg (p + HC_RH_PORTBASE) new.

(** [HC_CONTROL]: the functional state changes *)
Definition write_control (fuel : nat) (old val : Z) : M unit :=
  set_reg HC_CONTROL val;;
  if val .& HCFS_MASK =? old .& HCFS_MASK then mret tt else
  (if old .& HCFS_MASK =? HCFS_OPERATIONAL then hmod (set_timer None) else mret tt);;
  (if val .& HCFS_MASK =? HCFS_OPERATIONAL
   then update_done_head;; poll_lists fuel (again fuel) else mret tt);;
  h ← gets id;
  if is_operational h then hmod (set_timer (Some (SOF_PERIOD_MS * 1000))) else mret tt.

Definition write_cmd_status (fuel : nat) (val : Z) : M unit :=
  if tst val CMD_HCR then hc_reset true else
  v ← reg HC_CMD_STATUS;
  set_reg HC_CMD_STATUS (v .| (val .& (CMD_CLF .| CMD_BLF)));;
  if tst val (CMD_CLF .| CMD_BLF) then poll_lists fuel (again fuel) else mret tt.

(** [HC_RH_STATUS]: the value stored *)
Definition rh_status_value (old val : Z) : Z :=
  let val := val .& not32 (RH_STATUS_LPS .| RH_STATUS_LPSC) in
  let old := if tst val RH_STATUS_OCIC then old .& RH_STATUS_OCIC else old in
  let old := if tst val RH_STATUS_CRWE then old .& RH_STATUS_DRWE else old in
  (val .& not32 (RH_STATUS_OCI .| RH_STATUS_OCIC .| RH_STATUS_CRWE))
  .| (old .& (RH_STATUS_OCI .| RH_STATUS_OCIC .| RH_STATUS_DRWE)).

(** The [switch] of [reg_io_write]: what is stored in [hc.r[r]] at the end *)
Definition write_reg (fuel : nat) (i val : Z) : M Z :=
  old ← reg i;
  if (i =? HC_REV) || (i =? HC_FM_REMAINING) || (i =? HC_FM_NUMBER) || (i =? HC_DONE_HEAD) || (i =? HC_PERIOD_CUR_ED)
  then mret old
  else if i =? HC_CONTROL then write_control fuel old val;; reg HC_CONTROL
  else if i =? HC_CMD_STATUS then write_cmd_status fuel val;; reg HC_CMD_STATUS
  else if i =? HC_INT_STATUS then
    hmod (fun h => set_irq_status (irq_status h .& not32 val) h);;
    (if tst val INT_WDH then update_done_head else mret tt);;
    mret val
  else if i =? HC_INT_ENABLE then hmod (fun h => set_irq_enable (irq_enable h .| val) h);; mret val
  else if i =? HC_INT_DISABLE then hmod (fun h => set_irq_enable (irq_enable h .& not32 val) h);; mret val
  else if i =? HC_HCCA then
    let val := val .& not32 0xff in
    p ← (if val =? 0 then mret None else transl val);
    hmod (set_hcca p);; mret val
  else if (i =? HC_CNTRL_HEAD_ED) || (i =? HC_BULK_HEAD_ED) || (i =? HC_CUR_CNTRL_ED) || (i =? HC_CUR_BULK_ED)
  then mret (val .& not32 0xf)
  else if i =? HC_RH_DESC_A then
    let m := DESC_A_NDP_MASK .| DESC_A_DT in mret ((val .& not32 m) .| (old .& m))
  else if i =? HC_RH_STATUS then mret (rh_status_value old val)
  else if HC_RH_PORTBASE <=? i then port_write fuel (i - HC_RH_PORTBASE) val;; reg i
  else mret val.

Definition reg_io_write (fuel : nat) (addr data len : Z) : M unit :=
  b ← gets bar;
  let i := u32 (addr - b) .>> 2 in
  if (NUM_HC_REGS + NDP <=? i) || negb (len =? 4) then mret tt else
  v ← write_reg fuel i (le32 data);
  set_reg i v;;
  fix_irq.

(** ** Devices *)

Definition register_usb_device (ref : Z) (abort reset : bool) : M (option Z) :=
  h ← gets id;
  match find (fun p => bool_decide (dev_from_port p h = None)) (map Z.of_nat (seq 0 (Z.to_nat NDP))) with
  | None => mret None
  | Some p =>
      d ← malloc;
      hmod (fun h => set_devs ((d, UDev (-1) p ref abort reset []) :: devs h) h);;
      update_port_status;;
      mret (Some d)
  end.

Definition unregister_usb_device (d : Z) : M unit :=
  v ← get_dev d;
  hmod (fun h => set_cus (List.filter (fun c => negb (existsb (Z.eqb c.1) (curbs v))) (cus h)) h);;
  hmod (fun h => set_urbs (List.filter (fun u => negb (bool_decide (u_dev u.2 = Some d))) (urbs h)) h);;
  hmod (fun h => set_devs (del_key d (devs h)) h);;
  update_port_status.
End Ohci.

End Usb.
