(* ===== verification/UsbInv.v ===== *)
(** * The USB host controller: invariants

    What every event keeps: the registers of the ports follow the devices,
    devices have ports and addresses of their own, and the interrupt line is
    the one the registers ask for. *)

From S2P Require Import Prelude Memory Pic BlockDev Usb.

Module UsbInv.
Import BlockDev Usb.

Create HintDb usb.

Section Inv.
Context {P C : Type} `{Pic.IrqLaws P} `{UsbClient C} (junk : Z -> Z -> Z).
#[local] Abbreviation world := (world P C).
#[local] Abbreviation M := (@M P C).

(** ** What most operations do not touch *)

Definition view (h : ohci_t) :=
  (drop 21 (r h), length (r h), (irq h, irq_enable h, irq_status h, irq_line h), map (fun d => (d.1, port d.2)) (devs h)).

Definition keeps (w w' : world) : Prop :=
  view (hc w') = view (hc w) /\ pic w' = pic w /\ fresh (hc w) <= fresh (hc w').

(** [m] keeps [I] when it ends. *)
Definition pres (I : world -> Prop) {A} (m : M A) : Prop :=
  forall w, I w -> match m w with Ok (_, w') => I w' | Crash | Fuel => True end.

Section Pres.
Context (I : world -> Prop) (I_keeps : forall w w', keeps w w' -> I w -> I w').
#[local] Abbreviation pres := (pres I).

Lemma pres_ret {A} (a : A) : pres (mret a).
Proof. by intros w. Qed.

Lemma pres_bind {A B} (m : M A) (f : A -> M B) : pres m -> (forall a, pres (f a)) -> pres (m ≫= f).
Proof.
  intros Hm Hf w Hw. unfold mbind, M_bind. specialize (Hm w Hw). destruct (m w) as [[a w']| |]; try done. by apply Hf.
Qed.

Lemma pres_crash {A} : pres (@crash P C A).
Proof. by intros w Hw. Qed.
Lemma pres_fuel {A} : pres (@out_of_fuel P C A).
Proof. by intros w Hw. Qed.
Lemma pres_lift {A} (o : option A) : pres (lift o).
Proof. intros w Hw. by destruct o. Qed.
Lemma pres_gets {A} (f : ohci_t -> A) : pres (gets f).
Proof. by intros w Hw. Qed.
Lemma pres_transl a : pres (transl a).
Proof. by intros w Hw. Qed.
Lemma pres_ld32 p : pres (ld32 p).
Proof. intros w Hw. unfold ld32. by destruct (Memory.ld_le _ _ _). Qed.
Lemma pres_memcpy p n : pres (memcpy p n).
Proof. intros w Hw. unfold memcpy. destruct (n <? 0); [done|]. by destruct (Memory.load _ _ _). Qed.

Lemma pres_store p l : pres (store p l).
Proof.
  intros w Hw. unfold store. destruct (Memory.store _ _ _); [|done]. cbn. eapply I_keeps; [|done]. split_and!; done || cbn; lia.
Qed.

Lemma pres_hmod f : (forall h, view (f h) = view h /\ fresh h <= fresh (f h)) -> pres (hmod f).
Proof. intros Hf w Hw. cbn. eapply I_keeps; [|done]. destruct (Hf (hc w)). by split_and!. Qed.

Lemma pres_set_reg i v : i < HC_RH_PORTBASE -> 0 <= i -> pres (set_reg i v).
Proof.
  unfold HC_RH_PORTBASE. intros Hi Hj. apply pres_hmod. intros h. split; [|cbn; lia]. unfold view, putr. cbn.
  rewrite length_insert. by rewrite drop_insert_lt by lia.
Qed.

Lemma pres_mod_dev d f : (forall v, port (f v) = port v) -> pres (mod_dev d f).
Proof.
  intros Hf. apply pres_hmod. intros h. split; [|cbn; lia]. unfold view. cbn. f_equal. unfold upd_key.
  induction (devs h) as [|v l IH]; cbn; [done|]. f_equal; [|exact IH]. destruct (v.1 =? d); cbn; by rewrite ?Hf.
Qed.

Lemma pres_if {A} (b : bool) (m n : M A) : pres m -> pres n -> pres (if b then m else n).
Proof. by destruct b. Qed.

(** ** Everything that leaves the ports and the interrupt alone *)

#[local] Hint Resolve pres_ret pres_crash pres_fuel pres_lift pres_gets pres_transl pres_ld32 pres_memcpy pres_store : usb.

Lemma pres_st32 p v : pres (st32 p v).
Proof. apply pres_store. Qed.
Lemma pres_reg i : pres (reg i).
Proof. apply pres_gets. Qed.
Lemma pres_get_urb u : pres (get_urb u).
Proof. apply pres_bind; auto with usb. Qed.
Lemma pres_get_cu u : pres (get_cu u).
Proof. apply pres_bind; auto with usb. Qed.
Lemma pres_get_dev u : pres (get_dev u).
Proof. apply pres_bind; auto with usb. Qed.
Lemma pres_mod_urb u f : pres (mod_urb u f).
Proof. apply pres_hmod. intros h. split; [done|cbn; lia]. Qed.
Lemma pres_mod_cu u f : pres (mod_cu u f).
Proof. apply pres_hmod. intros h. split; [done|cbn; lia]. Qed.
Lemma pres_malloc : pres malloc.
Proof. apply pres_bind; [auto with usb|]. intros i. apply pres_bind; [|auto with usb]. apply pres_hmod. intros h. split; [done|cbn; lia]. Qed.

#[local] Hint Resolve pres_st32 pres_reg pres_get_urb pres_get_cu pres_get_dev pres_mod_urb pres_mod_cu pres_malloc : usb.
#[local] Hint Extern 1 (pres (set_reg _ _)) => apply pres_set_reg; [reflexivity|done] : usb.
#[local] Hint Extern 1 (pres (mod_dev _ _)) => apply pres_mod_dev; done : usb.
#[local] Hint Extern 2 (pres (hmod _)) => apply pres_hmod; intros; split; [reflexivity|cbn; lia] : usb.

(** Along the structure of a computation *)
Ltac pres_step := first
  [ solve [auto with usb]
  | apply pres_if
  | apply pres_bind; [|intros]
  | match goal with |- context [match ?x with _ => _ end] => destruct x end ].
Ltac pres := repeat pres_step.

Section Again.
Context (I_done : pres update_done_head) (fuel : nat) (again : call -> M unit) (I_again : forall c, pres (again c)).
#[local] Hint Resolve I_done I_again : usb.

Lemma pres_get_ed d a : pres (get_ed d a).
Proof. unfold get_ed. pres. Qed.
Lemma pres_put_ed a e : pres (put_ed a e).
Proof. unfold put_ed. pres. Qed.
#[local] Hint Resolve pres_get_ed pres_put_ed : usb.
Lemma pres_get_td a : pres (get_td a).
Proof. unfold get_td. pres. Qed.
Lemma pres_get_td_data t n : pres (get_td_data t n).
Proof. unfold get_td_data. pres. Qed.
Lemma pres_put_td_data t l n : pres (put_td_data t l n).
Proof. unfold put_td_data. pres. Qed.
Lemma pres_unlink_urb u : pres (unlink_urb u).
Proof. unfold unlink_urb. pres. Qed.
Lemma pres_get_list_head u : pres (get_list_head u).
Proof. unfold get_list_head. pres. Qed.
Lemma pres_walk n : forall m t, pres (walk n m t).
Proof. induction n; intros m t; cbn [walk]; pres. Qed.
#[local] Hint Resolve pres_get_td pres_get_td_data pres_put_td_data pres_unlink_urb pres_get_list_head pres_walk : usb.

Lemma pres_mapM_ {A} (f : A -> M unit) l : (forall a, pres (f a)) -> pres (mapM_ f l).
Proof. intros Hf. induction l; cbn [mapM_]; [auto with usb|]. apply pres_bind; auto. Qed.

Lemma pres_client f : pres (client again f).
Proof.
  intros w Hw. unfold client. destruct (f (cl w)) as [l c]. apply (pres_mapM_ (fun c => again (Complete c))); [auto with usb|].
  eapply I_keeps; [|exact Hw]. split_and!; done || cbn; lia.
Qed.
#[local] Hint Resolve pres_client : usb.
Lemma pres_ops_submit d r u : pres (ops_submit again d r u).
Proof. unfold ops_submit. pres. Qed.
Lemma pres_ops_abort d r : pres (ops_abort again d r).
Proof. unfold ops_abort. pres. Qed.
Lemma pres_ops_reset d : pres (ops_reset again d).
Proof. unfold ops_reset. pres. Qed.
#[local] Hint Resolve pres_ops_submit pres_ops_abort pres_ops_reset : usb.
Lemma pres_free_cu c : pres (free_cu c).
Proof. unfold free_cu. pres. Qed.
#[local] Hint Resolve pres_free_cu : usb.
Lemma pres_free_ctrl_urb c : pres (free_ctrl_urb again c).
Proof. unfold free_ctrl_urb. pres. Qed.
#[local] Hint Resolve pres_free_ctrl_urb : usb.
Lemma pres_finish_ctrl_urb c u : pres (finish_ctrl_urb again c u).
Proof. unfold finish_ctrl_urb, complete_urb_again. pres. Qed.
#[local] Hint Resolve pres_finish_ctrl_urb : usb.
Lemma pres_hook c u : pres (hook_ctrl_urb_write again c u).
Proof. unfold hook_ctrl_urb_write. pres. Qed.
Lemma pres_find_curb e l : pres (find_curb l e).
Proof. induction l; cbn [find_curb]; pres. Qed.
#[local] Hint Resolve pres_hook pres_find_curb : usb.
Lemma pres_submit_setup d u i : pres (submit_setup junk again d u i).
Proof. unfold submit_setup, complete_urb_again. pres. Qed.
Lemma pres_submit_write d c u : pres (submit_write again d c u).
Proof. unfold submit_write, complete_urb_again. pres. Qed.
#[local] Hint Resolve pres_submit_setup pres_submit_write : usb.
Lemma pres_do_submit_ctrl u d : pres (do_submit_ctrl junk again u d).
Proof. unfold do_submit_ctrl, complete_urb_again. pres. Qed.
#[local] Hint Resolve pres_do_submit_ctrl : usb.
Lemma pres_process_endpoint e m lt : pres (process_endpoint junk again e m lt).
Proof. unfold process_endpoint, complete_urb_again. cbv zeta. pres. Qed.
#[local] Hint Resolve pres_process_endpoint : usb.
Lemma pres_process_eds n : forall e m lt b, pres (process_eds junk again n e m lt b).
Proof. induction n; intros e m lt b; cbn [process_eds]; cbv zeta; pres. Qed.
Lemma pres_process_list m lt : pres (process_list junk fuel again m lt).
Proof. apply pres_process_eds. Qed.
#[local] Hint Resolve pres_process_list : usb.
Lemma pres_poll_lists : pres (poll_lists junk fuel again).
Proof. unfold poll_lists. cbv zeta. pres. Qed.
#[local] Hint Resolve pres_poll_lists : usb.
Lemma pres_complete_urb_ u st : pres (complete_urb_ junk fuel again u st).
Proof. unfold complete_urb_, complete_bad, put_td. cbv zeta. pres. Qed.
#[local] Hint Resolve pres_complete_urb_ : usb.
Lemma pres_run_call c : pres (run_call junk fuel again c).
Proof.
  destruct c; cbn [run_call]; [|auto with usb].
  unfold complete_urb, complete_ctrl_urb, complete_data_urb, discard_urb. cbv zeta. pres.
Qed.
End Again.

Lemma pres_again (I_done : pres update_done_head) n : forall c, pres (again junk n c).
Proof. induction n; intros c; cbn [again]; [auto with usb|]. by apply pres_run_call. Qed.
End Pres.

(** ** The invariant *)

Definition pview (h : ohci_t) := (drop 21 (r h), map (fun d => (d.1, port d.2)) (devs h)).

(** The register of a port says whether a device is connected; an empty port
    is neither enabled nor suspended. *)
Definition port_ok (v : Z) (device : bool) : Prop :=
  Z.testbit v 0 = device /\ (device = false -> Z.testbit v 1 = false /\ Z.testbit v 2 = false).

Definition ports_ok (v : list Z * list (Z * Z)) : Prop :=
  forall i, (i < 8)%nat -> port_ok (default 0 (v.1 !! i)) (existsb (fun d => d.2 =? Z.of_nat i) v.2).

Record core (w : world) : Prop := {
  co_len : length (r (hc w)) = 29%nat;
  co_devs : Forall (fun d => d.1 < fresh (hc w) /\ 0 <= port d.2 < 8) (devs (hc w));
  co_ids : NoDup (map fst (devs (hc w)));
  co_ports : NoDup (map (fun d => port d.2) (devs (hc w)));
  co_irq : Pic.valid_irq (irq (hc w));
  co_wf : Pic.irq_wf (pic w);
  co_line : Pic.line (pic w) (irq (hc w)) = irq_line (hc w)
}.

(** The line is the one asked for, perhaps but for a frame number overflow
    that has not been noticed. *)
Definition line_ok (h : ohci_t) : Prop :=
  irq_line h = pending h \/
  tst (irq_status h) INT_FNO = true /\ irq_line h = pending (set_irq_status (Z.ldiff (irq_status h) INT_FNO) h).

Definition usb_ok (w : world) : Prop := core w /\ ports_ok (pview (hc w)) /\ line_ok (hc w).

(** [core] and the ports; the line as well *)
Definition I2 v (w : world) : Prop := core w /\ pview (hc w) = v.
Definition I3 v (w : world) : Prop := I2 v w /\ line_ok (hc w).

Lemma core_keeps (w w' : world) : keeps w w' -> core w -> core w'.
Proof.
  intros (Hv & Hp & Hf) []. unfold view in Hv. injection Hv as _ Hl Hi He Hs Hn Hd.
  assert (Ei : map fst (devs (hc w')) = map fst (devs (hc w))).
  { apply (f_equal (map fst)) in Hd. by rewrite !map_map in Hd. }
  assert (Ep : map (fun d => port d.2) (devs (hc w')) = map (fun d => port d.2) (devs (hc w))).
  { apply (f_equal (map snd)) in Hd. by rewrite !map_map in Hd. }
  split; rewrite ?Hl, ?Hi, ?Hn, ?Hp, ?Ei, ?Ep; try done.
  apply List.Forall_forall. intros d Hd'. apply (in_map (fun d => (d.1, port d.2))) in Hd'.
  rewrite Hd in Hd'. apply in_map_iff in Hd' as ([k v] & E & Hin). cbn in E. injection E as -> <-.
  rewrite List.Forall_forall in co_devs0. specialize (co_devs0 _ Hin). cbn in *. lia.
Qed.

Lemma pview_keeps (w w' : world) : keeps w w' -> pview (hc w') = pview (hc w).
Proof. intros (Hv & _). unfold view in Hv. unfold pview. congruence. Qed.

Lemma I2_keeps v (w w' : world) : keeps w w' -> I2 v w -> I2 v w'.
Proof. intros K [Hc Hv]. split; [by eapply core_keeps|]. by rewrite (pview_keeps _ _ K). Qed.

Lemma line_keeps (w w' : world) : keeps w w' -> line_ok (hc w) -> line_ok (hc w').
Proof.
  intros (Hv & _) Hl. unfold view in Hv. injection Hv as _ _ _ He Hs Hn _. unfold line_ok, pending in *. cbn in *.
  by rewrite He, Hs, Hn.
Qed.

Lemma I3_keeps v (w w' : world) : keeps w w' -> I3 v w -> I3 v w'.
Proof. intros K [Hc Hv]. split; [by eapply I2_keeps|by eapply line_keeps]. Qed.

(** ** The interrupt line *)

Lemma set_irq_line_same h : set_irq_line (irq_line h) h = h.
Proof. by destruct h. Qed.

Lemma fix_irq_spec v (w : world) : I2 v w ->
  exists w', fix_irq w = Ok (tt, w') /\ I2 v w' /\ hc w' = set_irq_line (pending (hc w)) (hc w).
Proof.
  intros [[] Hv]. unfold fix_irq. destruct (eqb (pending (hc w)) (irq_line (hc w))) eqn:E.
  - apply eqb_prop in E. exists w. rewrite E, set_irq_line_same. done.
  - eexists. split; [reflexivity|]. split; [|done]. split; [|done]. split; cbn; try done; destruct (pending (hc w)).
    + by apply Pic.hi_wf.
    + by apply Pic.low_wf.
    + rewrite Pic.hi_line by done. by rewrite Z.eqb_refl.
    + rewrite Pic.low_line by done. by rewrite Z.eqb_refl.
Qed.

Lemma pres_fix_irq v : pres (I2 v) fix_irq.
Proof. intros w Hw. by destruct (fix_irq_spec v w Hw) as (w' & -> & ? & _). Qed.

Lemma fix_irq_line v (w : world) : I2 v w -> match fix_irq w with Ok (_, w') => I3 v w' | _ => True end.
Proof. intros Hw. destruct (fix_irq_spec v w Hw) as (w' & -> & Hw' & E). split; [done|]. left. by rewrite E. Qed.

Lemma or_status_I2 b v (w : world) : I2 v w -> match or_status b w with Ok (_, w') => I2 v w' | _ => True end.
Proof. intros [[] Hv]. by split. Qed.

Lemma bind_ok {A B} (I J : world -> Prop) (m : M A) (f : A -> M B) w :
  match m w with Ok (_, w') => I w' | _ => True end ->
  (forall a w', I w' -> match f a w' with Ok (_, w'') => J w'' | _ => True end) ->
  match (m ≫= f) w with Ok (_, w') => J w' | _ => True end.
Proof. unfold mbind, M_bind. intros Hm Hf. destruct (m w) as [[a w']| |]; try done. by apply Hf. Qed.

Lemma pres_done_I3 v : pres (I3 v) update_done_head.
Proof.
  intros w [Hw Hl]. unfold update_done_head. change ((gets id ≫= ?f) w) with (f (hc w) w). cbv beta.
  destruct (hcca (hc w)) as [p|]; [|done]. destruct (_ || _); [done|].
  apply (bind_ok (I2 v)); [by apply (pres_store _ (I2_keeps v))|]. intros [] w1 Hw1.
  apply (bind_ok (I2 v)); [by apply (pres_set_reg _ (I2_keeps v))|]. intros [] w2 Hw2.
  apply (bind_ok (I2 v)); [by apply or_status_I2|]. intros [] w3 Hw3. by apply fix_irq_line.
Qed.

Lemma pres_done_I2 v : pres (I2 v) update_done_head.
Proof.
  unfold update_done_head. apply pres_bind; [apply pres_gets|]. intros h. destruct (hcca h); [|apply pres_ret].
  apply pres_if; [apply pres_ret|]. apply pres_bind; [apply pres_store, I2_keeps|]. intros _.
  apply pres_bind; [by apply pres_set_reg; [apply I2_keeps|..]|]. intros _.
  apply pres_bind; [intros w; apply or_status_I2|]. intros _. apply pres_fix_irq.
Qed.

(** ** Ports *)

(** Evaluate the bits of closed words. *)
Ltac closed_bits :=
  repeat match goal with |- context [Z.testbit ?c ?i] =>
    let b := eval vm_compute in (Z.testbit c i) in
    lazymatch b with true => change (Z.testbit c i) with true | false => change (Z.testbit c i) with false end end.
Ltac bits := repeat (rewrite Z.lor_spec || rewrite Z.land_spec || rewrite not32_spec by lia); closed_bits;
  rewrite ?andb_true_r, ?andb_false_r, ?orb_false_r, ?orb_true_r; cbn [negb]; rewrite ?andb_true_r, ?andb_false_r.

Lemma tst_ccs x : tst x PORT_CCS = Z.testbit x 0.
Proof. apply (tst_bit x 0). lia. Qed.

Lemma port_value_ok val old dev : port_ok old dev -> port_ok (port_value val old) dev.
Proof.
  intros [Hz Hd]. unfold port_value. set (a := if tst val PORT_CCS then _ else _).
  assert (Ha : port_ok a dev).
  { unfold a. destruct (tst val PORT_CCS); [|done]. split; [by bits|]. intros E. destruct (Hd E) as [E1 E2]. bits. by rewrite ?E1, ?E2. }
  clearbody a. rewrite tst_ccs. set (b := if Z.testbit a 0 then _ else _).
  assert (Hb : port_ok b dev).
  { destruct Ha as [Ha0 Had]. unfold b. rewrite Ha0. destruct dev; cbv iota.
    - split; [|done]. destruct (tst val PORT_PRS); bits; rewrite ?Ha0; done.
    - destruct (Had eq_refl). destruct (tst val (_ .| _)); [|by split]. split; [by bits|]. intros _. by bits. }
  clearbody b. set (c := if tst val PORT_LSDA then _ else _).
  assert (Hc : port_ok c dev).
  { unfold c. destruct (tst val PORT_LSDA); [|destruct (tst val PORT_PPS); [|done]]; (split; [by bits; apply Hb|]);
      intros E; destruct Hb as [_ Hb]; destruct (Hb E) as [E1 E2]; bits; done. }
  clearbody c. set (d := if tst c PORT_PSS && _ then _ else _).
  assert (Hdd : port_ok d dev).
  { unfold d. destruct (_ && _); [|done]. split; [by bits; apply Hc|].
    intros E; destruct Hc as [_ Hc]; destruct (Hc E) as [E1 E2]; bits; done. }
  clearbody d. split; [bits; apply Hdd|]. intros E. destruct Hdd as [_ Hdd]. destruct (Hdd E) as [E1 E2]. bits. done.
Qed.

Lemma getr_port h i : (i < 8)%nat -> getr (HC_RH_PORTBASE + Z.of_nat i) h = default 0 ((pview h).1 !! i).
Proof.
  intros Hi. unfold getr, pview, HC_RH_PORTBASE. cbn [fst]. rewrite lookup_drop.
  by replace (Z.to_nat (21 + Z.of_nat i)) with (21 + i)%nat by lia.
Qed.

Lemma dev_from_port_view h i : is_Some (dev_from_port i h) <-> existsb (fun d => d.2 =? i) (pview h).2 = true.
Proof.
  unfold dev_from_port, pview. cbn [snd]. rewrite existsb_exists. split.
  - intros [d E]. destruct (find _ (devs h)) as [v|] eqn:Ef; [|done]. apply find_some in Ef as [Hin Hp].
    exists (v.1, port v.2). split; [|done]. by apply (in_map (fun d => (d.1, port d.2))).
  - intros (x & Hx & Hp). apply in_map_iff in Hx as (v & <- & Hin). destruct (find _ (devs h)) as [w|] eqn:Ef; [done|].
    apply (find_none _ _ Ef) in Hin. cbn in *. congruence.
Qed.

(** Writing the register of a port *)
Lemma set_port v (w : world) i x : (i < 8)%nat -> I2 v w ->
  exists w', set_reg (HC_RH_PORTBASE + Z.of_nat i) x w = Ok (tt, w') /\ I2 (<[i := x]> v.1, v.2) w' /\
    (line_ok (hc w) -> line_ok (hc w')).
Proof.
  intros Hi [[] <-]. eexists. split; [reflexivity|]. unfold HC_RH_PORTBASE. split; [|done]. split.
  - split; cbn; try done. by rewrite length_insert.
  - unfold pview, putr. cbn. f_equal. rewrite drop_insert_ge by lia. by replace (Z.to_nat (21 + Z.of_nat i) - 21)%nat with i by lia.
Qed.

Lemma bind_gets {A B} (g : ohci_t -> A) (f : A -> M B) w : (gets g ≫= f) w = f (g (hc w)) w.
Proof. reflexivity. Qed.

Lemma bind_reg {B} i (f : Z -> M B) w : (reg i ≫= f) w = f (getr i (hc w)) w.
Proof. reflexivity. Qed.

Lemma bind_hcfs {B} (f : Z -> M B) w : (GET_HCFS ≫= f) w = f (getr HC_CONTROL (hc w) .& HCFS_MASK) w.
Proof. reflexivity. Qed.

Lemma update_port_spec v i (w : world) : (i < 8)%nat -> I3 v w ->
  match update_port (Z.of_nat i) w with
  | Ok (_, w') => exists x, I3 (<[i := x]> v.1, v.2) w' /\ port_ok x (existsb (fun d => d.2 =? Z.of_nat i) v.2)
  | _ => True
  end.
Proof.
  intros Hi [[Hc Hv] Hl]. unfold update_port, reg. rewrite bind_gets, bind_gets. cbv beta zeta.
  rewrite bind_gets, bind_hcfs. cbv beta. set (old := getr (HC_RH_PORTBASE + _) _).
  set (new := match dev_from_port _ _ with Some _ => _ | None => _ end).
  set (ev := _ .| (if tst _ PORT_PES then _ else _)).
  assert (Hp : port_ok (if negb (ev =? 0) then new .| ev else new) (existsb (fun d => d.2 =? Z.of_nat i) v.2)).
  { assert (Hn : port_ok new (existsb (fun d => d.2 =? Z.of_nat i) v.2)).
    { rewrite <- Hv. unfold new. destruct (existsb _ _) eqn:E.
      - apply dev_from_port_view in E as [d ->]. split; [by bits|done].
      - destruct (dev_from_port _ _) eqn:Ed; [|split; [by bits|intros _; by bits]].
        apply mk_is_Some, dev_from_port_view in Ed. congruence. }
    destruct (negb (ev =? 0)); [|done]. unfold ev. destruct Hn as [Hn0 Hn].
    destruct (tst (old .^ new) PORT_CCS), (tst (old .^ new) PORT_PES);
      (split; [by bits|]); intros E; destruct (Hn E); by bits. }
  clearbody new. apply (bind_ok (fun w => I2 v w /\ (ev = 0 -> line_ok (hc w)))).
  - destruct (_ && _) eqn:E; [|done].
    assert (Hev : ev <> 0). { intros E0. rewrite E0 in E. by rewrite andb_false_r in E. }
    apply (bind_ok (I2 v)); [by apply or_status_I2|]. intros _ w1 Hw1. unfold SET_HCFS, reg. rewrite bind_gets.
    pose proof (pres_set_reg _ (I2_keeps v) HC_CONTROL (getr HC_CONTROL (hc w1) .| (HCFS_RESUME .& HCFS_MASK))) as Hs.
    specialize (Hs ltac:(reflexivity) ltac:(done) w1 Hw1). destruct (set_reg _ _ w1) as [[[] w2]| |]; [|done..]. done.
  - intros _ w1 [Hw1 Hl1]. apply (bind_ok (I3 v)).
    + destruct (Z.eqb_spec ev 0) as [E|E]; cbn [negb]; [by split; [|apply Hl1]|].
      apply (bind_ok (I2 v)); [by apply or_status_I2|]. intros _ w2 Hw2. by apply fix_irq_line.
    + intros _ w2 [Hw2 Hl2]. destruct (set_port v w2 i (if negb (ev =? 0) then new .| ev else new) Hi Hw2) as (w3 & -> & Hw3 & Hl3).
      eexists. split; [split; [exact Hw3|by apply Hl3]|done].
Qed.

Lemma pview_len v (w : world) : I2 v w -> length v.1 = 8%nat.
Proof. intros [[] <-]. cbn. by rewrite length_drop, co_len0. Qed.

(** The loop over the ports *)
Lemma update_ports_spec (w0 : world) l : forall v w, I3 v w -> (forall i, i ∈ l -> (i < 8)%nat) -> NoDup l ->
  match mapM_ (fun i => update_port (Z.of_nat i)) l w with
  | Ok (_, w') => exists v', I3 v' w' /\ v'.2 = v.2 /\ (forall i, i ∉ l -> v'.1 !! i = v.1 !! i) /\
      forall i, i ∈ l -> port_ok (default 0 (v'.1 !! i)) (existsb (fun d => d.2 =? Z.of_nat i) v.2)
  | _ => True
  end.
Proof.
  induction l as [|i l IH]; intros v w Hw Hl Hn; cbn [mapM_].
  { exists v. split_and!; try done. intros i Hi. by apply elem_of_nil in Hi. }
  apply list.NoDup_cons in Hn as [Hi Hn]. assert (Hi8 : (i < 8)%nat) by (apply Hl; left).
  assert (Hlen : length v.1 = 8%nat) by (eapply pview_len, Hw).
  unfold mbind at 1, M_bind. pose proof (update_port_spec v i w Hi8 Hw) as Hu.
  destruct (update_port _ w) as [[[] w1]| |]; try done. destruct Hu as (x & Hw1 & Hx). cbn [mbind run_bind].
  specialize (IH _ _ Hw1 ltac:(intros; apply Hl; by right) Hn). destruct (mapM_ _ l w1) as [[[] w2]| |]; try done.
  destruct IH as (v' & Hw2 & E2 & Ek & Hp). exists v'. cbn [fst snd] in *. split_and!; try done.
  - intros j Hj. rewrite not_elem_of_cons in Hj. destruct Hj. rewrite Ek, list_lookup_insert_ne by done. done.
  - intros j Hj. apply elem_of_cons in Hj as [-> |Hj]; [|by apply Hp].
    rewrite Ek by done. by rewrite list_lookup_insert_eq by (rewrite Hlen; done).
Qed.

Definition settled (w : world) : Prop := core w /\ line_ok (hc w).

Lemma settled_keeps (w w' : world) : keeps w w' -> settled w -> settled w'.
Proof. intros K []. split; [by eapply core_keeps|by eapply line_keeps]. Qed.

Lemma update_port_status_spec w : settled w -> match update_port_status w with Ok (_, w') => usb_ok w' | _ => True end.
Proof.
  intros [Hc Hl]. unfold update_port_status, NDP. change (Z.to_nat 8) with 8%nat.
  pose proof (update_ports_spec w (seq 0 8) (pview (hc w)) w) as Hs.
  specialize (Hs ltac:(done) ltac:(intros i Hi; apply elem_of_seq in Hi; lia) (NoDup_seq _ _)).
  destruct (mapM_ _ _ w) as [[[] w']| |]; try done. destruct Hs as (v & [[Hc' Hv] Hl'] & Ed & _ & Hp).
  split; [done|]. split; [|done]. rewrite Hv. intros i Hi. rewrite Ed. apply Hp, elem_of_seq. lia.
Qed.

Lemma hc_reset_spec s (w : world) : settled w -> match hc_reset s w with Ok (_, w') => usb_ok w' | _ => True end.
Proof.
  intros [Hc Hl]. unfold hc_reset, reg. rewrite bind_gets. cbv beta zeta.
  apply (bind_ok settled); [cbn; split; [by destruct Hc|done]|]. intros _ ? ?.
  do 4 (apply (bind_ok settled); [by apply (pres_set_reg _ settled_keeps)|]; intros _ ? ?).
  apply (bind_ok settled); [|intros _ ? ?; by apply update_port_status_spec].
  apply (pres_hmod _ settled_keeps); [|done]. intros h. split; [done|cbn; lia].
Qed.

(** ** Registers *)

Definition stable (w : world) : Prop := core w /\ ports_ok (pview (hc w)).

Lemma usb_ok_stable (w : world) : usb_ok w -> stable w.
Proof. by intros (? & ? & _). Qed.

Lemma stable_keeps (w w' : world) : keeps w w' -> stable w -> stable w'.
Proof. intros K []. split; [by eapply core_keeps|]. by rewrite (pview_keeps _ _ K). Qed.

Lemma usb_keeps (w w' : world) : keeps w w' -> usb_ok w -> usb_ok w'.
Proof. intros K (? & ? & ?). split_and!; [by eapply core_keeps| |by eapply line_keeps]. by rewrite (pview_keeps _ _ K). Qed.

Lemma pres_done_stable : pres stable update_done_head.
Proof.
  intros w [Hc Hp]. pose proof (pres_done_I2 (pview (hc w)) w) as Hd. specialize (Hd ltac:(done)).
  destruct (update_done_head w) as [[[] w']| |]; try done. destruct Hd as [Hc' Hv]. split; [done|by rewrite Hv].
Qed.

Lemma pres_done_usb : pres usb_ok update_done_head.
Proof.
  intros w (Hc & Hp & Hl). pose proof (pres_done_I3 (pview (hc w)) w) as Hd. specialize (Hd ltac:(done)).
  destruct (update_done_head w) as [[[] w']| |]; try done. destruct Hd as [[Hc' Hv] Hl']. split_and!; [done|by rewrite Hv|done].
Qed.

Lemma pres_again_stable n c : pres stable (again junk n c).
Proof. apply pres_again; [apply stable_keeps|apply pres_done_stable]. Qed.
Lemma pres_again_usb n c : pres usb_ok (again junk n c).
Proof. apply pres_again; [apply usb_keeps|apply pres_done_usb]. Qed.
Lemma pres_again_I2 v n c : pres (I2 v) (again junk n c).
Proof. apply pres_again; [apply I2_keeps|apply pres_done_I2]. Qed.

(** The interrupt registers of [stable] states may change. *)
Lemma pres_irq_regs f : (forall h, exists e s, f h = set_irq_enable e (set_irq_status s h)) -> pres stable (hmod f).
Proof. intros Hf [h m p c] [[] Hp]. cbn in *. destruct (Hf h) as (e & s & ->). by split; [split|]. Qed.

Lemma port_write_spec n p val (w : world) : (p < 8)%nat -> stable w ->
  match port_write junk n (Z.of_nat p) val w with Ok (_, w') => stable w' | _ => True end.
Proof.
  intros Hp [Hc Hv]. set (v := pview (hc w)) in *. unfold port_write. rewrite (Z.add_comm _ HC_RH_PORTBASE).
  unfold reg. rewrite bind_gets. cbv beta. rewrite getr_port by done. fold v. set (old := default 0 (v.1 !! p)).
  apply (bind_ok (I2 v)).
  - apply pres_if; [|apply pres_ret|done]. apply pres_bind; [apply pres_gets|]. intros [d|]; [|apply pres_ret].
    apply pres_bind; [by apply pres_mod_dev; [apply I2_keeps|]|]. intros _.
    apply pres_ops_reset; [apply I2_keeps|]. intros c. apply pres_again_I2.
  - intros _ w1 Hw1. cbv zeta. apply (bind_ok (I2 v)); [destruct (tst _ PORT_CHANGES); [by apply or_status_I2|done]|].
    intros _ w2 Hw2. destruct (set_port v w2 p (port_value val old) Hp Hw2) as (w3 & -> & [Hc3 Hv3] & _).
    split; [done|]. rewrite Hv3. intros i Hi. cbn [fst snd]. pose proof (pview_len _ _ Hw2) as Hlen.
    destruct (decide (i = p)) as [-> |Hne].
    + rewrite list_lookup_insert_eq by (rewrite Hlen; done). apply port_value_ok, Hv, Hi.
    + rewrite list_lookup_insert_ne by done. by apply Hv.
Qed.

Lemma write_cmd_status_spec n val (w : world) : usb_ok w ->
  match write_cmd_status junk n val w with Ok (_, w') => stable w' | _ => True end.
Proof.
  intros Hw. unfold write_cmd_status. destruct (tst val CMD_HCR).
  - destruct Hw as (Hc & _ & Hl). pose proof (hc_reset_spec true w ltac:(done)) as Hr.
    destruct (hc_reset true w) as [[[] w']| |]; try done. by apply usb_ok_stable.
  - apply usb_ok_stable in Hw. revert w Hw. refine (_ : pres stable (A := unit) (_ ≫= _)). apply pres_bind; [apply pres_gets|]. intros v.
    apply pres_bind; [by apply (pres_set_reg _ stable_keeps)|]. intros _. apply pres_if; [|apply pres_ret].
    apply pres_poll_lists; [apply stable_keeps|]. intros c. apply pres_again_stable.
Qed.

Lemma write_control_pres n old val : pres stable (write_control junk n old val).
Proof.
  unfold write_control. apply pres_bind; [by apply (pres_set_reg _ stable_keeps)|]. intros _.
  apply pres_if; [apply pres_ret|].
  assert (Ht : forall t, pres stable (hmod (set_timer t))).
  { intros t. apply (pres_hmod _ stable_keeps). intros h. split; [done|cbn; lia]. }
  apply pres_bind; [apply pres_if; [apply Ht|apply pres_ret]|]. intros _.
  apply pres_bind; [apply pres_if; [|apply pres_ret]|].
  - apply pres_bind; [apply pres_done_stable|]. intros _. apply pres_poll_lists; [apply stable_keeps|]. intros c. apply pres_again_stable.
  - intros _. apply pres_bind; [apply pres_gets|]. intros h. apply pres_if; [apply Ht|apply pres_ret].
Qed.

(** The registers before those of the ports *)
Lemma low_reg i (m : M Z) (w : world) : i < HC_RH_PORTBASE -> pres stable m -> stable w ->
  match m w with Ok (x, w') => stable w' /\ (i < HC_RH_PORTBASE \/ x = getr i (hc w')) | _ => True end.
Proof. intros Hi Hm Hw. specialize (Hm w Hw). destruct (m w) as [[x w']| |]; auto. Qed.

Lemma write_reg_spec n i val (w : world) : 0 <= i < NUM_HC_REGS + NDP -> usb_ok w ->
  match write_reg junk n i val w with Ok (x, w') => stable w' /\ (i < HC_RH_PORTBASE \/ x = getr i (hc w')) | _ => True end.
Proof.
  unfold NUM_HC_REGS, NDP. intros Hi Hw. pose proof (usb_ok_stable _ Hw) as Hs. unfold write_reg. rewrite bind_reg. cbv beta.
  set (ret_ := fun v => pres_ret stable (A := Z) v).
  assert (Hirq : forall f v, (forall h, exists e s, f h = set_irq_enable e (set_irq_status s h)) ->
    forall m : M unit, pres stable m -> pres stable (A := Z) (hmod f;; m;; mret v)).
  { intros f v Hf m Hm. apply pres_bind; [by apply pres_irq_regs|]. intros _. apply pres_bind; [done|]. intros _. apply ret_. }
  destruct (_ || _) eqn:Er; [apply low_reg; [|apply ret_|done]; unfold HC_RH_PORTBASE; repeat (apply orb_true_iff in Er as [Er|Er]);
    apply Z.eqb_eq in Er; subst; done|clear Er].
  destruct (Z.eqb_spec i HC_CONTROL) as [-> |_].
  { apply low_reg; [done| |done]. apply pres_bind; [apply write_control_pres|]. intros _. apply pres_gets. }
  destruct (Z.eqb_spec i HC_CMD_STATUS) as [-> |_].
  { unfold mbind at 1, M_bind. pose proof (write_cmd_status_spec n val w Hw) as Hc.
    destruct (write_cmd_status junk n val w) as [[[] w1]| |]; try done. cbn. split; [done|by left]. }
  destruct (Z.eqb_spec i HC_INT_STATUS) as [-> |_].
  { apply low_reg; [done| |done]. apply Hirq.
    - intros h. exists (irq_enable h), (irq_status h .& not32 val). by destruct h.
    - apply pres_if; [apply pres_done_stable|apply pres_ret]. }
  destruct (Z.eqb_spec i HC_INT_ENABLE) as [-> |_].
  { apply low_reg; [done| |done]. apply pres_bind; [|intros; apply ret_]. apply pres_irq_regs. intros h. exists (irq_enable h .| val), (irq_status h). by destruct h. }
  destruct (Z.eqb_spec i HC_INT_DISABLE) as [-> |_].
  { apply low_reg; [done| |done]. apply pres_bind; [|intros; apply ret_]. apply pres_irq_regs. intros h. exists (irq_enable h .& not32 val), (irq_status h). by destruct h. }
  destruct (Z.eqb_spec i HC_HCCA) as [-> |_].
  { apply low_reg; [done| |done]. cbv zeta. apply pres_bind; [apply pres_if; [apply pres_ret|apply pres_transl]|]. intros p.
    apply pres_bind; [|intros; apply ret_]. apply (pres_hmod _ stable_keeps). intros h. split; [done|cbn; lia]. }
  destruct (_ || _) eqn:Er; [apply low_reg; [|apply ret_|done]; unfold HC_RH_PORTBASE; repeat (apply orb_true_iff in Er as [Er|Er]);
    apply Z.eqb_eq in Er; subst; done|clear Er].
  destruct (Z.eqb_spec i HC_RH_DESC_A) as [-> |_]; [by apply low_reg; [|apply ret_|]|].
  destruct (Z.eqb_spec i HC_RH_STATUS) as [-> |_]; [by apply low_reg; [|apply ret_|]|].
  destruct (Z.leb_spec HC_RH_PORTBASE i) as [Hp|Hp]; [|by apply low_reg; [|apply ret_|]]. unfold HC_RH_PORTBASE in *.
  replace (i - 21) with (Z.of_nat (Z.to_nat (i - 21))) by lia.
  pose proof (port_write_spec n (Z.to_nat (i - 21)) val w ltac:(lia) Hs) as Hw'.
  unfold mbind at 1, M_bind. destruct (port_write _ _ _ _ w) as [[[] w1]| |]; try done. cbn. split; [done|by right].
Qed.

Lemma set_reg_same i (w : world) : stable w -> match set_reg i (getr i (hc w)) w with Ok (_, w') => stable w' | _ => True end.
Proof.
  intros Hw. cbn. assert (E : putr i (getr i (hc w)) (hc w) = hc w); [|by rewrite E; destruct w].
  unfold putr, getr. destruct (r (hc w) !! Z.to_nat i) eqn:E; cbn.
  - rewrite list_insert_id by done. by destruct (hc w).
  - rewrite list_insert_ge by (by apply lookup_ge_None). by destruct (hc w).
Qed.

Lemma reg_io_write_spec n addr data len : pres usb_ok (reg_io_write junk n addr data len).
Proof.
  intros w Hw. unfold reg_io_write. rewrite bind_gets. cbv beta zeta. set (i := u32 _ .>> 2).
  destruct (_ || _) eqn:Eb; [done|]. apply orb_false_iff in Eb as [Ei _]. apply Z.leb_gt in Ei.
  assert (0 <= i) by (apply Z.shiftr_nonneg, u32_range).
  unfold mbind at 1, M_bind. pose proof (write_reg_spec n i (le32 data) w ltac:(done) Hw) as Hr.
  destruct (write_reg _ _ _ _ w) as [[x w1]| |]; try done. cbn [mbind run_bind]. destruct Hr as [Hw1 Hx].
  apply (bind_ok stable).
  - destruct Hx as [Hx| ->]; [by apply (pres_set_reg _ stable_keeps)|by apply set_reg_same].
  - intros _ w2 [Hc Hp]. pose proof (fix_irq_line (pview (hc w2)) w2 ltac:(done)) as Hf.
    destruct (fix_irq w2) as [[[] w3]| |]; try done. destruct Hf as [[Hc' Hv] Hl]. split_and!; [done|by rewrite Hv|done].
Qed.

(** ** Events *)

Inductive event := Write (addr data len : Z) | Sof (lost : Z) | Register (ref : Z) (ab re : bool) | Unregister (d : Z)
  | Completed (c : completion).

Definition step (n : nat) (e : event) : M unit :=
  match e with
  | Write a v l => reg_io_write junk n a v l
  | Sof l => sof_timer junk n l
  | Register ref ab re => _ ← register_usb_device ref ab re; mret tt
  | Unregister d => unregister_usb_device d
  | Completed c => again junk n (Complete c)
  end.

(** [usb_init]: the static state is zero. *)
Definition usb_start (irq : Z) (opti : bool) : ohci_t :=
  Ohci irq 0 (replicate 29 0) None 0 0 false [] [] [] 0 opti 0 None 1.

Lemma pres_rescan n : pres usb_ok (rescan_periodic_list junk n).
Proof.
  unfold rescan_periodic_list. apply pres_bind; [apply pres_gets|]. intros h. destruct (hcca h); [|apply pres_ret].
  apply pres_if; [|apply pres_ret]. apply pres_bind; [apply (pres_hmod _ usb_keeps); intros g; split; [done|cbn; lia]|]. intros _.
  apply pres_bind; [apply pres_ld32|]. intros m. apply pres_bind; [|intros; apply pres_ret].
  apply pres_process_list; [apply usb_keeps|]. intros c. apply pres_again_usb.
Qed.

Lemma pres_clean n : pres usb_ok (clean_stale_interrupt_urbs junk n).
Proof.
  unfold clean_stale_interrupt_urbs. apply pres_bind; [apply pres_gets|]. intros h. apply pres_if; [|apply pres_ret].
  induction (urbs h) as [|[u pu] l IH]; cbn [clean_stale_loop]; [apply pres_ret|]. apply pres_if; [done|].
  apply pres_bind; [apply pres_get_list_head|]. intros m. apply pres_bind; [apply pres_walk|]. intros m'.
  apply pres_if; [done|]. apply pres_bind; [apply pres_lift|]. intros d. apply pres_ops_abort; [apply usb_keeps|].
  intros c. apply pres_again_usb.
Qed.

(** A frame number overflow is noted after the line has been set. *)
Lemma fno_line h : irq_line h = pending h -> line_ok (set_irq_status (irq_status h .| INT_FNO) h).
Proof.
  intros E. unfold line_ok. cbn [irq_line irq_status set_irq_status]. destruct (tst (irq_status h) INT_FNO) eqn:Ef.
  - left. rewrite E. replace (irq_status h .| INT_FNO) with (irq_status h); [by destruct h|].
    change INT_FNO with (1 .<< 5) in *. rewrite tst_bit in Ef by lia. symmetry. apply Z.bits_inj'. intros k Hk.
    rewrite Z.lor_spec, one_bit_spec by lia. destruct (Z.eqb_spec 5 k) as [<-|]; [by rewrite Ef|apply orb_false_r].
  - right. split.
    + change (tst (irq_status h .| INT_FNO) (1 .<< 5) = true). rewrite tst_bit, Z.lor_spec by lia. change (Z.testbit INT_FNO 5) with true. apply orb_true_r.
    + rewrite E. apply tst_false in Ef. replace (Z.ldiff (irq_status h .| INT_FNO) INT_FNO) with (irq_status h); [by destruct h|].
      symmetry. apply Z.bits_inj'. intros k Hk.
      rewrite Z.ldiff_spec, Z.lor_spec. apply (f_equal (fun z => Z.testbit z k)) in Ef. rewrite Z.land_spec, Z.bits_0 in Ef.
      by destruct (Z.testbit (irq_status h) k), (Z.testbit INT_FNO k).
Qed.

Lemma pres_sof n lost : pres usb_ok (sof_timer junk n lost).
Proof.
  intros w (Hc & Hp & _). set (v := pview (hc w)) in *. unfold sof_timer.
  apply (bind_ok (I2 v)); [by apply or_status_I2|]. intros _ w1 Hw1.
  apply (bind_ok (fun w => I2 v w /\ irq_line (hc w) = pending (hc w))).
  { destruct (fix_irq_spec v w1 Hw1) as (w2 & -> & Hw2 & E). split; [done|]. by rewrite E. }
  intros _ w2 [Hw2 E2]. rewrite bind_reg. cbv beta zeta. apply (bind_ok usb_ok).
  - destruct Hw2 as [Hc2 Hv2]. destruct (tst _ 0x8000).
    + cbn. split; [by destruct Hc2|]. split; [by rewrite <- Hv2 in Hp|]. by apply fno_line.
    + split; [done|]. split; [by rewrite Hv2|by left].
  - intros _ w3 Hw3. revert w3 Hw3. refine (_ : pres usb_ok (A := unit) (_ ≫= _)).
    apply pres_bind; [by apply (pres_set_reg _ usb_keeps)|]. intros _. apply pres_bind; [apply pres_gets|]. intros h.
    apply pres_bind; [destruct (hcca h); [apply pres_st32, usb_keeps|apply pres_ret]|]. intros _.
    apply pres_bind; [apply (pres_hmod _ usb_keeps); intros g; split; [done|cbn; lia]|]. intros _.
    apply pres_bind; [apply pres_if; [apply pres_rescan|apply pres_ret]|]. intros _.
    apply pres_bind; [apply pres_gets|]. intros k. apply pres_if; [apply pres_clean|apply pres_ret].
Qed.

(** ** Devices come and go *)

Lemma NoDup_map_filter {A B} (f : A -> B) (g : A -> bool) l : NoDup (map f l) -> NoDup (map f (List.filter g l)).
Proof.
  induction l as [|a l IH]; cbn; [done|]. rewrite list.NoDup_cons. intros [Ha Hl]. destruct (g a); cbn; [|by apply IH].
  apply list.NoDup_cons. split; [|by apply IH]. intros Hi. apply Ha. rewrite list_elem_of_In in *.
  apply in_map_iff in Hi as (x & E & Hx). apply filter_In in Hx as [Hx _]. rewrite <- E. by apply in_map.
Qed.

Lemma bind_malloc {B} (f : Z -> M B) w :
  (malloc ≫= f) w = f (fresh (hc w)) (World (set_fresh (fresh (hc w) + 1) (hc w)) (mem w) (pic w) (cl w)).
Proof. reflexivity. Qed.

Lemma bind_hmod {B} g (f : unit -> M B) w : (hmod g ≫= f) w = f tt (World (g (hc w)) (mem w) (pic w) (cl w)).
Proof. reflexivity. Qed.

Lemma find_none_port h p : dev_from_port p h = None -> p ∉ map (fun d => port d.2) (devs h).
Proof.
  unfold dev_from_port. intros E Hi. apply list_elem_of_In, in_map_iff in Hi as (d & <- & Hd).
  destruct (find _ (devs h)) as [x|] eqn:Ef; [done|]. apply (find_none _ _ Ef) in Hd. by rewrite Z.eqb_refl in Hd.
Qed.

Lemma pres_register ref ab re : pres usb_ok (register_usb_device ref ab re).
Proof.
  intros w Hw. unfold register_usb_device. rewrite bind_gets. cbv beta. destruct (find _ _) as [p|] eqn:Ef; [|done].
  destruct Hw as (Hc & _ & Hl). apply find_some in Ef as [Hin Hfree]. apply bool_decide_eq_true in Hfree. cbn [id] in Hfree.
  apply in_map_iff in Hin as (i & <- & Hin). apply in_seq in Hin. change (Z.to_nat NDP) with 8%nat in Hin.
  rewrite bind_malloc. cbv beta. rewrite bind_hmod. apply (bind_ok usb_ok); [|by intros].
  apply update_port_status_spec. split; [|done]. apply find_none_port in Hfree. destruct Hc. split; cbn; try done.
  - apply list.Forall_cons. split; [cbn; lia|]. eapply list.Forall_impl; [exact co_devs0|]. intros d Hd. cbn in *. lia.
  - apply list.NoDup_cons. split; [|done]. intros Hi. apply list_elem_of_In, in_map_iff in Hi as (d & E & Hd).
    rewrite List.Forall_forall in co_devs0. specialize (co_devs0 d Hd). lia.
  - by apply list.NoDup_cons.
Qed.

Lemma pres_unregister d : pres usb_ok (unregister_usb_device d).
Proof.
  unfold unregister_usb_device. apply pres_bind; [apply pres_get_dev|]. intros v.
  apply pres_bind; [apply (pres_hmod _ usb_keeps); intros g; split; [done|cbn; lia]|]. intros _.
  apply pres_bind; [apply (pres_hmod _ usb_keeps); intros g; split; [done|cbn; lia]|]. intros _.
  intros w (Hc & _ & Hl). rewrite bind_hmod. apply update_port_status_spec. split; [|done]. destruct Hc. split; cbn; try done.
  - eapply incl_Forall; [|exact co_devs0]. apply List.incl_filter.
  - by apply NoDup_map_filter.
  - by apply NoDup_map_filter.
Qed.

Lemma pres_step n e : pres usb_ok (step n e).
Proof.
  destruct e; cbn [step].
  - apply reg_io_write_spec.
  - apply pres_sof.
  - apply pres_bind; [apply pres_register|]. intros; apply pres_ret.
  - apply pres_unregister.
  - apply pres_again_usb.
Qed.

(** C11: From the initialisation on, whatever the guest writes, whichever
    devices come and go, whenever a frame starts and whatever the clients
    complete, at once or later: a port register says exactly whether a device
    is connected, an empty port is neither enabled nor suspended, no two
    devices share a port or an identity, and the line at the interrupt
    controller is raised exactly when an enabled event is pending, except that
    an overflow of the frame number is only seen with the next event. *)
Theorem usb_reachable_ok i opti m p c n evs (w : world) :
  Pic.valid_irq i -> Pic.irq_wf p -> Pic.line p i = false ->
  (hc_reset false;; mapM_ (step n) evs) (World (usb_start i opti) m p c) = Ok (tt, w) -> usb_ok w.
Proof.
  intros Hi Hp Hl E.
  cut (match (hc_reset false;; mapM_ (step n) evs) (World (usb_start i opti) m p c) with
       | Ok (_, w) => usb_ok w | Crash | Fuel => True end); [by rewrite E|].
  apply (bind_ok usb_ok).
  - apply hc_reset_spec. split; [|by left]. split; [reflexivity|constructor|constructor|constructor|exact Hi|exact Hp|exact Hl].
  - intros _. apply (pres_mapM_ usb_ok). intros e. apply pres_step.
Qed.

End Inv.
End UsbInv.
