(* ===== verification/UsbBulk.v ===== *)
(** * The USB host controller: a bulk endpoint

    A queue of IN transfer descriptors, served by a client that completes
    each request later: the buffers receive the data, the descriptors are
    retired and the next one is submitted. *)

From S2P Require Import Prelude FileIO Memory Pic BlockDev Usb UsbInv.

Module UsbBulk.
Import BlockDev Usb UsbInv Memory.

(** ** Guest memory *)

(** RAM starts at address 0. *)
Definition ram_ok (m : memory) : Prop := mbase (ram m) = 0 /\ size (ram m) <= 2 ^ 32.

(** The word at an address; an ED (or TD) at an address *)
Definition word (m : memory) (a v : Z) : Prop := ld_le 4 (LRam a) m = Some v.

Record ed_at (m : memory) (a : Z) (e : ed_t) : Prop := {
  at_0 : word m a (ed0 e); at_4 : word m (a + 4) (tailp e);
  at_8 : word m (a + 8) (headp e); at_12 : word m (a + 12) (nexted e)
}.
Definition td_at (m : memory) (a : Z) (t : td_t) : Prop := ed_at m a (ed_of t).

(** The [n] bytes from [a] on; byte [k] of the buffer of a TD *)
Definition span (n : nat) (a : Z) : list Z := map (fun i => a + Z.of_nat i) (seq 0 n).
Definition td_addr (t : td_t) (k : Z) : Z :=
  let s := page_rest (LRam (cbp t)) in if k <? s then cbp t + k else (be t .& not32 0xfff) + (k - s).
Definition td_buf (t : td_t) : list Z := map (fun i => td_addr t (Z.of_nat i)) (seq 0 (Z.to_nat (get_td_size t))).

Lemma elem_of_span n a x : x ∈ span n a <-> a <= x < a + Z.of_nat n.
Proof.
  unfold span. rewrite list_elem_of_In, in_map_iff. split.
  - intros (i & <- & Hi). apply in_seq in Hi. lia.
  - intros Hx. exists (Z.to_nat (x - a)). split; [lia|]. apply in_seq. lia.
Qed.

Lemma word_inside m a v : word m a v -> 0 <= a /\ a + 4 <= size (ram m).
Proof.
  unfold word, ld_le, load, inside. cbn [offs_of bank_of]. destruct (_ && _) eqn:E; [|done]. intros _.
  apply andb_true_iff in E as [E1%Z.leb_le E2%Z.leb_le]. lia.
Qed.

Lemma transl_ram m a : ram_ok m -> 0 <= a < size (ram m) -> transl_mphys a m = Some (LRam a).
Proof.
  intros [Hb Hs] Ha. unfold transl_mphys, Memory.transl. rewrite Hb, Z.sub_0_r, u32_small by lia.
  by rewrite (proj2 (Z.ltb_lt _ _)) by lia.
Qed.

Lemma word_frame Q m m' a v : frame Q m m' -> (forall x, x ∈ span 4 a -> ~ Q x) -> word m a v -> word m' a v.
Proof. intros Hf Hd Hw. unfold word. rewrite (ld_frame Q m m' 4 a Hf); [done|]. intros x Hx. by apply Hd, elem_of_span. Qed.

Lemma ed_frame Q m m' a e : frame Q m m' -> (forall x, x ∈ span 16 a -> ~ Q x) -> ed_at m a e -> ed_at m' a e.
Proof.
  intros Hf Hd []. split; (eapply word_frame; [exact Hf| |done]); intros x Hx; apply Hd; rewrite elem_of_span in *; lia.
Qed.

Lemma ram_frame Q m m' : frame Q m m' -> ram_ok m -> ram_ok m'.
Proof. intros [Hb Hs _ _] []. split; congruence. Qed.

Section Bulk.
Context {P C : Type} `{Pic.IrqController P} `{UsbClient C} (junk : Z -> Z -> Z).
#[local] Abbreviation world := (world P C).
#[local] Abbreviation M := (@M P C).

Definition set_mem (m : memory) (w : world) : world := World (hc w) m (pic w) (cl w).

Lemma bind_eq {A B} (m : M A) (f : A -> M B) w a w' : m w = Ok (a, w') -> (m ≫= f) w = f a w'.
Proof. intros E. unfold mbind, M_bind. by rewrite E. Qed.

Lemma bind_transl {A} (w : world) a (f : _ -> M A) : ram_ok (mem w) -> 0 <= a < size (ram (mem w)) ->
  (Usb.transl a ≫= f) w = f (Some (LRam a)) w.
Proof. intros Hr Ha. apply bind_eq. unfold Usb.transl. by rewrite transl_ram. Qed.

(** ** Reading descriptors *)

Lemma ld32_word (w : world) a v : word (mem w) a v -> ld32 (LRam a) w = Ok (v, w).
Proof. unfold word, ld32. by intros ->. Qed.

Lemma get_ed_at (w : world) d a e : ram_ok (mem w) -> ed_at (mem w) a e -> get_ed d a w = Ok (Some e, w).
Proof.
  intros Hr He. destruct e as [e0 t h x], He as [H0' H4 H8 H12]. cbn in *. pose proof (word_inside _ _ _ H0').
  unfold get_ed. rewrite bind_transl by (done || lia). cbn [plus].
  by rewrite (bind_eq _ _ _ _ _ (ld32_word _ _ _ H0')), (bind_eq _ _ _ _ _ (ld32_word _ _ _ H4)),
    (bind_eq _ _ _ _ _ (ld32_word _ _ _ H8)), (bind_eq _ _ _ _ _ (ld32_word _ _ _ H12)).
Qed.

Lemma get_td_at (w : world) a t : ram_ok (mem w) -> td_at (mem w) a t -> get_td a w = Ok (t, w).
Proof. intros Hr Ht. unfold get_td. rewrite (bind_eq _ _ _ _ _ (get_ed_at w None a _ Hr Ht)). by destruct t. Qed.

(** The EDs before [to], from [from] on *)
Fixpoint chain (m : memory) (from to : Z) (l : list Z) : Prop :=
  match l with
  | [] => from = to
  | b :: l => from = b /\ b <> 0 /\ b <> to /\ exists c, word m (b + 12) c /\ 0 <= b /\ chain m c to l
  end.

Lemma walk_chain (w : world) to l : ram_ok (mem w) -> forall from n, chain (mem w) from to l -> (length l < n)%nat ->
  walk n from to w = Ok (to, w).
Proof.
  intros Hr. induction l as [|b l IH]; intros from [|n] Hc Hn; cbn in Hc, Hn; try lia; cbn [walk].
  - subst from. by rewrite Z.eqb_refl, orb_true_r.
  - destruct Hc as (-> & H0' & Ht & c & Hw & Hb & Hc). rewrite (proj2 (Z.eqb_neq _ _) H0'), (proj2 (Z.eqb_neq _ _) Ht). cbn [orb].
    pose proof (word_inside _ _ _ Hw). rewrite bind_transl by (done || lia). cbn [plus]. change (b + ofs_nexted) with (b + 12).
    rewrite (bind_eq _ _ _ _ _ (ld32_word _ _ _ Hw)). apply IH; [done|lia].
Qed.

Lemma chain_frame Q m m' to l : frame Q m m' -> (forall b, b ∈ l -> forall x, x ∈ span 4 (b + 12) -> ~ Q x) ->
  forall from, chain m from to l -> chain m' from to l.
Proof.
  intros Hf. induction l as [|b l IH]; intros Hd from Hc; cbn in *; [done|].
  destruct Hc as (-> & Hz & Ht & c & Hw & Hb & Hc). split_and!; try done. exists c. split_and!; [|done|].
  - eapply word_frame; [exact Hf| |done]. apply Hd. left.
  - apply IH; [|done]. intros b' Hb'. apply Hd. by right.
Qed.

(** ** Writing *)

Lemma store_spec (w : world) a l : 0 <= a -> a + Z.of_nat (length l) <= size (ram (mem w)) ->
  exists m, Usb.store (LRam a) l w = Ok (tt, set_mem m w) /\ bytes (ram m) a (length l) = l /\
    frame (fun x => x ∈ span (length l) a) (mem w) m.
Proof.
  intros H1' H2. destruct (store_ram a l (mem w) H1' H2) as (m & E & Hb & Hf). exists m. split_and!; [|done|].
  - unfold Usb.store. by rewrite E.
  - eapply frame_weaken; [exact Hf|]. intros x Hx. by apply elem_of_span.
Qed.

Lemma st32_spec (w : world) a v : 0 <= a -> a + 4 <= size (ram (mem w)) -> 0 <= v < 2 ^ 32 ->
  exists m, st32 (LRam a) v w = Ok (tt, set_mem m w) /\ word m a v /\ frame (fun x => x ∈ span 4 a) (mem w) m.
Proof.
  intros Ha Hs Hv. destruct (st_le_ram 4 a v (mem w)) as (m & E & Hf & Hw); [done|cbn; lia|]. exists m. split_and!.
  - unfold st32, Usb.store. unfold st_le in E. by rewrite E.
  - unfold word. by rewrite Hw, le_value_bytes.
  - eapply frame_weaken; [exact Hf|]. intros x Hx. apply elem_of_span. cbn in Hx |- *. lia.
Qed.

Definition ed_range (e : ed_t) : Prop :=
  0 <= ed0 e < 2 ^ 32 /\ 0 <= tailp e < 2 ^ 32 /\ 0 <= headp e < 2 ^ 32 /\ 0 <= nexted e < 2 ^ 32.

Lemma put_ed_spec (w : world) a e : ram_ok (mem w) -> 0 <= a -> a + 16 <= size (ram (mem w)) -> ed_range e ->
  exists m, put_ed a e w = Ok (tt, set_mem m w) /\ ed_at m a e /\ frame (fun x => x ∈ span 16 a) (mem w) m.
Proof.
  intros Hr Ha Hs (R0 & R4 & R8 & R12). unfold put_ed. rewrite bind_transl by (done || lia). cbn [plus].
  destruct (st32_spec w a (ed0 e)) as (m1 & E1 & W1 & F1); [lia..|]. rewrite (bind_eq _ _ _ _ _ E1).
  destruct (st32_spec (set_mem m1 w) (a + 4) (tailp e)) as (m2 & E2 & W2 & F2); cbn [mem set_mem] in *; rewrite ?(fr_size _ _ _ F1); [lia..|].
  rewrite (bind_eq _ _ _ _ _ E2).
  destruct (st32_spec (set_mem m2 w) (a + 8) (headp e)) as (m3 & E3 & W3 & F3); cbn [mem set_mem] in *; rewrite ?(fr_size _ _ _ F2), ?(fr_size _ _ _ F1); [lia..|].
  rewrite (bind_eq _ _ _ _ _ E3).
  destruct (st32_spec (set_mem m3 w) (a + 12) (nexted e)) as (m4 & E4 & W4 & F4); cbn [mem set_mem] in *; rewrite ?(fr_size _ _ _ F3), ?(fr_size _ _ _ F2), ?(fr_size _ _ _ F1); [lia..|].
  exists m4. split; [exact E4|].
  assert (Hd : forall (i j : Z) x, x ∈ span 4 (a + i) -> i + 4 <= j \/ j + 4 <= i -> ~ x ∈ span 4 (a + j)).
  { intros i j x Hx Hij. rewrite elem_of_span in *. lia. }
  split.
  - split; [| | |done].
    + eapply word_frame; [exact F4| |]. { intros x Hx. apply (Hd 0 12); [by rewrite Z.add_0_r|lia]. }
      eapply word_frame; [exact F3| |]. { intros x Hx. apply (Hd 0 8); [by rewrite Z.add_0_r|lia]. }
      eapply word_frame; [exact F2| |done]. intros x Hx. apply (Hd 0 4); [by rewrite Z.add_0_r|lia].
    + eapply word_frame; [exact F4| |]. { intros x Hx. apply (Hd 4 12); [done|lia]. }
      eapply word_frame; [exact F3| |done]. intros x Hx. apply (Hd 4 8); [done|lia].
    + eapply word_frame; [exact F4| |done]. intros x Hx. apply (Hd 8 12); [done|lia].
  - assert (Hw : forall i m m', frame (fun x => x ∈ span 4 (a + i)) m m' -> 0 <= i <= 12 -> frame (fun x => x ∈ span 16 a) m m').
    { intros i m m' Hf Hi. eapply frame_weaken; [exact Hf|]. intros x Hx. rewrite elem_of_span in *. lia. }
    eapply frame_trans; [eapply frame_weaken; [exact F1|]; intros x Hx; rewrite elem_of_span in *; lia|].
    eapply frame_trans; [apply (Hw 4); [exact F2|lia]|]. eapply frame_trans; [apply (Hw 8); [exact F3|lia]|].
    apply (Hw 12); [exact F4|lia].
Qed.

(** ** The buffer of a TD *)

Lemma td_buf_lookup t k : (Z.of_nat k < get_td_size t) -> td_buf t !! k = Some (td_addr t (Z.of_nat k)).
Proof. intros Hk. unfold td_buf. rewrite list_lookup_fmap, lookup_seq_lt by lia. done. Qed.

Lemma td_addr_in t k : 0 <= k < get_td_size t -> td_addr t k ∈ td_buf t.
Proof. intros Hk. apply (list_elem_of_lookup_2 _ (Z.to_nat k)). rewrite td_buf_lookup by lia. by rewrite Z2Nat.id by lia. Qed.

Lemma td_addr_inj t i j : NoDup (td_buf t) -> 0 <= i < get_td_size t -> 0 <= j < get_td_size t -> td_addr t i = td_addr t j -> i = j.
Proof.
  intros Hn Hi Hj E. assert (Z.to_nat i = Z.to_nat j); [|lia]. eapply NoDup_lookup; [exact Hn|rewrite td_buf_lookup by lia; reflexivity|].
  rewrite td_buf_lookup by lia. by rewrite !Z2Nat.id, E by lia.
Qed.

Lemma page_rest_range a : 1 <= page_rest (LRam a) <= 4096.
Proof. unfold page_rest. cbn [offs_of]. pose proof (land_ones_range a 12 ltac:(lia)). change (2 ^ 12) with 4096 in *. change (4096 - 1) with 0xfff in *. lia. Qed.

Lemma cell_bytes b a n i : (i < n)%nat -> cell b (a + Z.of_nat i) = default 0 (bytes b a n !! i).
Proof. intros Hi. by rewrite bytes_lookup. Qed.

Lemma prefix_all l : prefix (Z.of_nat (length l)) l = Some l.
Proof.
  unfold prefix. rewrite (proj2 (Z.leb_le 0 _)), (proj2 (Z.leb_le (Z.of_nat (length l)) _)) by lia. cbn [andb].
  by rewrite Nat2Z.id, take_ge by lia.
Qed.

(** The data goes to the bytes of the buffer, over at most two pages. *)
Lemma put_td_data_spec (w : world) t l : ram_ok (mem w) -> Z.of_nat (length l) = get_td_size t -> l <> [] ->
  (forall x, x ∈ td_buf t -> 0 <= x < size (ram (mem w))) -> NoDup (td_buf t) ->
  exists m, put_td_data t l (Z.of_nat (length l)) w = Ok (tt, set_mem m w) /\
    map (cell (ram m)) (td_buf t) = l /\ frame (fun x => x ∈ td_buf t) (mem w) m.
Proof.
  intros Hr Hl Hne Hin Hnd. assert (Hpos : (0 < length l)%nat) by (destruct l; [done|cbn; lia]).
  pose proof (page_rest_range (cbp t)) as Hs. set (s := page_rest (LRam (cbp t))) in *.
  assert (Hlow : forall k, 0 <= k < get_td_size t -> k < s -> td_addr t k = cbp t + k).
  { intros k Hk Hks. unfold td_addr. fold s. by rewrite (proj2 (Z.ltb_lt _ _) Hks). }
  assert (Hhigh : forall k, 0 <= k < get_td_size t -> s <= k -> td_addr t k = (be t .& not32 0xfff) + (k - s)).
  { intros k Hk Hks. unfold td_addr. fold s. by rewrite (proj2 (Z.ltb_ge _ _) Hks). }
  assert (Hr0 : 0 <= cbp t < size (ram (mem w))).
  { rewrite <- (Z.add_0_r (cbp t)). rewrite <- (Hlow 0) by lia. apply Hin, td_addr_in. lia. }
  unfold put_td_data. destruct (Z.eqb_spec (cbp t) 0) as [E0|E0].
  { unfold get_td_size in Hl. rewrite E0 in Hl. cbn in Hl. lia. }
  rewrite bind_transl by done. cbv beta iota. fold s. rewrite prefix_all.
  unfold lift at 1. cbn [of_option]. rewrite (bind_eq _ _ w l w) by reflexivity.
  set (l1 := take (Z.to_nat s) l). assert (Hl1 : Z.of_nat (length l1) = Z.min s (get_td_size t)) by (unfold l1; rewrite length_take; lia).
  destruct (store_spec w (cbp t) l1) as (m1 & E1 & B1 & F1); [lia| |].
  { assert (Hi : td_addr t (Z.of_nat (length l1) - 1) ∈ td_buf t) by (apply td_addr_in; lia).
    apply Hin in Hi. rewrite Hlow in Hi by lia. lia. }
  rewrite (bind_eq _ _ _ _ _ E1).
  assert (Hsub1 : forall x, x ∈ span (length l1) (cbp t) -> x ∈ td_buf t).
  { intros x Hx. rewrite elem_of_span in Hx. replace x with (cbp t + (x - cbp t)) by lia. rewrite <- Hlow by lia. apply td_addr_in. lia. }
  assert (C1 : forall k, (k < length l1)%nat -> cell (ram m1) (td_addr t (Z.of_nat k)) = default 0 (l !! k)).
  { intros k Hk. rewrite Hlow by lia. rewrite (cell_bytes _ _ (length l1)), B1 by done. unfold l1. by rewrite lookup_take_lt by lia. }
  assert (Hfin : forall m, (forall k, (k < length l)%nat -> cell (ram m) (td_addr t (Z.of_nat k)) = default 0 (l !! k)) ->
    map (cell (ram m)) (td_buf t) = l).
  { intros m Hc. apply list_eq. intros k. rewrite list_lookup_fmap. destruct (decide (k < length l)%nat) as [Hk|Hk].
    - rewrite td_buf_lookup by lia. cbn. rewrite Hc by done. destruct (lookup_lt_is_Some_2 l k Hk) as [b ->]. done.
    - rewrite !lookup_ge_None_2; [done|lia|]. unfold td_buf. rewrite length_map, length_seq. lia. }
  destruct (Z.leb_spec (Z.of_nat (length l)) s) as [Hc|Hc].
  { exists m1. split; [done|]. split; [apply Hfin; intros k Hk; apply C1; lia|]. eapply frame_weaken; [exact F1|exact Hsub1]. }
  set (q := be t .& not32 0xfff) in *. set (l2 := drop (Z.to_nat s) l).
  assert (Hl2 : Z.of_nat (length l2) = get_td_size t - s) by (unfold l2; rewrite length_drop; lia).
  assert (Hq : 0 <= q < size (ram (mem w))).
  { assert (Hi : td_addr t s ∈ td_buf t) by (apply td_addr_in; lia). apply Hin in Hi. rewrite Hhigh in Hi by lia. lia. }
  rewrite bind_transl by (cbn [mem set_mem]; rewrite ?(fr_size _ _ _ F1); done || by eapply ram_frame). cbv beta iota.
  destruct (store_spec (set_mem m1 w) q l2) as (m2 & E2 & B2 & F2); cbn [mem set_mem] in *; [lia| |].
  { rewrite (fr_size _ _ _ F1). assert (Hi : td_addr t (get_td_size t - 1) ∈ td_buf t) by (apply td_addr_in; lia).
    apply Hin in Hi. rewrite Hhigh in Hi by lia. lia. }
  exists m2. split; [exact E2|]. split.
  - apply Hfin. intros k Hk. destruct (decide (k < length l1)%nat) as [Hk1|Hk1].
    + rewrite (fr_cell _ _ _ F2); [by apply C1|]. rewrite elem_of_span. intros Hx.
      rewrite Hlow in Hx by lia. assert (Z.of_nat k = s + (cbp t + Z.of_nat k - q)); [|lia].
      apply (td_addr_inj t); [done|lia..|]. rewrite Hlow, Hhigh by lia. unfold q. lia.
    + rewrite Hhigh by lia. replace (q + (Z.of_nat k - s)) with (q + Z.of_nat (k - Z.to_nat s)) by lia.
      rewrite (cell_bytes _ _ (length l2)), B2 by lia. unfold l2. rewrite lookup_drop. by replace (Z.to_nat s + (k - Z.to_nat s))%nat with k by lia.
  - eapply frame_trans; [eapply frame_weaken; [exact F1|exact Hsub1]|]. eapply frame_weaken; [exact F2|].
    intros x Hx. rewrite elem_of_span in Hx. replace x with (q + ((s + (x - q)) - s)) by lia. unfold q. rewrite <- Hhigh by (unfold q in *; lia).
    apply td_addr_in. unfold q in *. lia.
Qed.

(** ** An endpoint and its queue *)

Definition td_bytes (q : Z * td_t) : list Z := span 16 q.1 ++ td_buf q.2.
Definition hcca_bytes (h : ohci_t) : list Z :=
  match hcca h with Some p => span 4 (offs_of p + hcca_done_head) | None => [] end.

(** Everything the transfer reads or writes, byte by byte *)
Definition footprint (h : ohci_t) (eds : list Z) (a : Z) (tds : list (Z * td_t)) : list Z :=
  concat (map (fun b => span 4 (b + 12)) eds) ++ span 16 a ++ hcca_bytes h ++ concat (map td_bytes tds).

Fixpoint queue (m : memory) (head tail : Z) (tds : list (Z * td_t)) : Prop :=
  match tds with
  | [] => head = tail
  | (t, td) :: tds =>
      head = t /\ t <> tail /\ t .& not32 0xf = t /\ td_at m t td /\ ed_range (ed_of td) /\ 0 <= get_td_size td /\
      (forall x, x ∈ td_buf td -> 0 <= x < size (ram m)) /\ queue m (tnext td) tail tds
  end.

(** A bulk IN endpoint at [a], behind the EDs [eds] on the list, of device [d]
    with the TDs [tds] *)
Record bulk_ok (eds : list Z) (a : Z) (e : ed_t) (d : Z) (tds : list (Z * td_t)) (w : world) : Prop := {
  bo_ram : ram_ok (mem w);
  bo_op : is_operational (hc w) = true;
  bo_ble : tst (getr HC_CONTROL (hc w)) CTRL_BLE = true;
  bo_chain : chain (mem w) (getr HC_BULK_HEAD_ED (hc w)) a eds;
  bo_a : a <> 0;
  bo_ed : ed_at (mem w) a e;
  bo_range : ed_range e;
  bo_en : ed_en e <> 0;
  bo_k : ed_k e = false;
  bo_d : ed_d e = kDirIN;
  bo_tail : tailp e .& not32 0xf = tailp e;
  bo_queue : queue (mem w) (headp e) (tailp e) tds;
  bo_dev : dev_from_fa (ed_fa e) (hc w) = Some d /\ is_Some (find_key d (devs (hc w)));
  bo_done : 0 <= getr HC_DONE_HEAD (hc w) < 2 ^ 32;
  bo_hcca : match hcca (hc w) with Some p => exists h, p = LRam h /\ 0 <= h /\ h + 136 <= size (ram (mem w)) | None => True end;
  bo_disjoint : NoDup (footprint (hc w) eds a tds)
}.

(** The first TD has been submitted as urb [u]. *)
Definition issued (u a d : Z) (tds : list (Z * td_t)) (w : world) : Prop :=
  match tds with
  | [] => True
  | (t, td) :: _ => exists e0 k buf0, find_key u (urbs (hc w)) =
      Some (PUrb (Some d) BULK_LIST a t e0 td (Urb k kBulkType true (get_td_size td) 0 buf0)) /\
      Z.of_nat (length buf0) = get_td_size td
  end.

(** Controllers that only differ in the interrupt state and the done queue *)
Record quiet (w w' : world) : Prop := {
  qu_reg i : i <> HC_DONE_HEAD -> 0 <= i -> getr i (hc w') = getr i (hc w);
  qu_done : 0 <= getr HC_DONE_HEAD (hc w) < 2 ^ 32 -> 0 <= getr HC_DONE_HEAD (hc w') < 2 ^ 32;
  qu_devs : devs (hc w') = devs (hc w);
  qu_hcca : hcca (hc w') = hcca (hc w); qu_fresh : fresh (hc w') = fresh (hc w)
}.

Lemma quiet_refl w : quiet w w.
Proof. by split. Qed.

Lemma getr_putr i j v h : 0 <= i -> 0 <= j -> i <> j -> getr i (putr j v h) = getr i h.
Proof. intros Hi Hj Hne. unfold getr, putr. cbn. by rewrite list_lookup_insert_ne by lia. Qed.

Lemma getr_putr_range j v h : 0 <= j -> 0 <= v < 2 ^ 32 -> 0 <= getr j h < 2 ^ 32 -> 0 <= getr j (putr j v h) < 2 ^ 32.
Proof.
  intros Hj Hv Hg. unfold getr, putr in *. cbn. destruct (decide (Z.to_nat j < length (r h))%nat) as [Hl|Hl].
  - by rewrite list_lookup_insert_eq by done.
  - by rewrite list_insert_ge by lia.
Qed.

Lemma fix_irq_quiet w : exists w', fix_irq w = Ok (tt, w') /\ quiet w w' /\ mem w' = mem w.
Proof. unfold fix_irq. destruct (eqb _ _); eexists; (split; [reflexivity|]); by split. Qed.

Lemma lor_1_range z : 0 <= z < 2 ^ 32 -> 0 <= z .| 1 < 2 ^ 32.
Proof.
  intros Hz. split; [apply Z.lor_nonneg; lia|]. destruct (decide (z = 0)) as [-> |]; [done|].
  apply Z.log2_lt_pow2; [|rewrite Z.log2_lor by lia; apply Z.max_lub_lt; [apply Z.log2_lt_pow2; lia|done]].
  assert (Z.lor z 1 <> 0); [|pose proof (proj2 (Z.lor_nonneg z 1)); lia]. intros E%Z.lor_eq_0_iff. lia.
Qed.

Lemma update_done_quiet (w : world) : ram_ok (mem w) -> 0 <= getr HC_DONE_HEAD (hc w) < 2 ^ 32 ->
  match hcca (hc w) with Some p => exists h, p = LRam h /\ 0 <= h /\ h + 136 <= size (ram (mem w)) | None => True end ->
  exists w', update_done_head w = Ok (tt, w') /\ quiet w w' /\ frame (fun x => x ∈ hcca_bytes (hc w)) (mem w) (mem w').
Proof.
  intros Hr Hd Hh. unfold update_done_head. rewrite bind_gets. cbn [id]. cbv zeta. unfold hcca_bytes.
  destruct (hcca (hc w)) as [p|]; [|exists w; split; [done|split; [apply quiet_refl|apply frame_refl]]].
  destruct (_ || _); [exists w; split; [done|split; [apply quiet_refl|apply frame_refl]]|].
  destruct Hh as (h & -> & Hh0 & Hh1). cbn [plus offs_of]. unfold hcca_done_head. set (v := _ .| _).
  assert (Hv : 0 <= v < 2 ^ 32). { unfold v. destruct (negb _); [by apply lor_1_range|]. by rewrite Z.lor_0_r. }
  destruct (st32_spec w (h + 132) v) as (m & E & _ & Hf); [lia|lia|done|]. rewrite (bind_eq _ _ _ _ _ E).
  unfold set_reg, or_status. rewrite bind_hmod, bind_hmod. cbn [hc mem pic cl set_mem].
  destruct (fix_irq_quiet (World (set_irq_status (irq_status (putr HC_DONE_HEAD 0 (hc w)) .| INT_WDH) (putr HC_DONE_HEAD 0 (hc w))) m (pic w) (cl w)))
    as (w' & E' & Q & Em). exists w'. split; [exact E'|]. rewrite Em. split; [|exact Hf].
  destruct Q. split; cbn in *; try done.
  - intros i Hne Hi. rewrite qu_reg0 by done. by apply getr_putr.
  - intros _. apply qu_done0. by apply getr_putr_range.
Qed.

(** ** Retiring the first TD *)

Lemma footprint_split {A S' H' B R : list Z} : NoDup (A ++ S' ++ H' ++ B ++ R) ->
  NoDup (A ++ S' ++ H' ++ R) /\ NoDup B /\
  (forall x, x ∈ B -> (x ∉ A) /\ (x ∉ S') /\ (x ∉ H') /\ (x ∉ R)) /\
  (forall x, x ∈ S' -> (x ∉ A) /\ (x ∉ H') /\ (x ∉ R)) /\
  (forall x, x ∈ H' -> (x ∉ A) /\ (x ∉ S') /\ (x ∉ R)).
Proof.
  rewrite !list.NoDup_app. intros (NA & DA & NS & DS & NH & DH & NB & DB & NR).
  assert (EA : forall x, x ∈ A -> (x ∉ S') /\ (x ∉ H') /\ (x ∉ B) /\ (x ∉ R)) by (intros x Hx; apply DA in Hx; rewrite !elem_of_app in Hx; tauto).
  assert (ES : forall x, x ∈ S' -> (x ∉ H') /\ (x ∉ B) /\ (x ∉ R)) by (intros x Hx; apply DS in Hx; rewrite !elem_of_app in Hx; tauto).
  assert (EH : forall x, x ∈ H' -> (x ∉ B) /\ (x ∉ R)) by (intros x Hx; apply DH in Hx; rewrite !elem_of_app in Hx; tauto).
  split_and!; try done.
  - intros x Hx. rewrite !elem_of_app. apply EA in Hx. tauto.
  - intros x Hx. rewrite !elem_of_app. apply ES in Hx. tauto.
  - intros x Hx. apply EH in Hx. tauto.
  - intros x Hx. split_and!; intros Hy; [apply EA in Hy|apply ES in Hy|apply EH in Hy|apply DB in Hx]; tauto.
  - intros x Hx. split_and!; intros Hy; [apply EA in Hy|apply ES in Hx|apply ES in Hx]; tauto.
  - intros x Hx. split_and!; intros Hy; [apply EA in Hy|apply ES in Hy|apply EH in Hx]; tauto.
Qed.

Lemma find_upd_key {A} k (f : A -> A) l : find_key k (upd_key k f l) = f <$> find_key k l.
Proof.
  unfold find_key, upd_key. induction l as [|[i x] l IH]; [done|]. cbn. destruct (Z.eqb_spec i k) as [-> |Hne]; cbn.
  - by rewrite Z.eqb_refl.
  - by rewrite (proj2 (Z.eqb_neq _ _) Hne).
Qed.

Lemma del_upd_key {A} k (f : A -> A) l : del_key k (upd_key k f l) = del_key k l.
Proof.
  unfold del_key, upd_key. induction l as [|[i x] l IH]; [done|]. cbn. destruct (Z.eqb_spec i k) as [-> |Hne]; cbn.
  - by rewrite Z.eqb_refl.
  - rewrite (proj2 (Z.eqb_neq _ _) Hne). cbn. by f_equal.
Qed.

Lemma queue_frame Q m m' head tail tds : frame Q m m' -> (forall q x, q ∈ tds -> x ∈ span 16 q.1 -> ~ Q x) ->
  queue m head tail tds -> queue m' head tail tds.
Proof.
  intros Hf. revert head. induction tds as [|[t td] tds IH]; intros head Hd Hq; cbn in *; [done|].
  destruct Hq as (E1 & E2 & E3 & E4 & E5 & E6 & E7 & E8). rewrite (fr_size _ _ _ Hf). split_and!; try done.
  - eapply ed_frame; [exact Hf| |exact E4]. intros x. apply (Hd (t, td)). left.
  - apply IH; [|done]. intros q x Hq. apply Hd. by right.
Qed.

Lemma aligned_bit t : t .& not32 0xf = t -> tst t HEADP_H = false.
Proof.
  intros E. change HEADP_H with (1 .<< 0). rewrite tst_bit by lia. rewrite <- E, Z.land_spec.
  change (Z.testbit (not32 0xf) 0) with false. apply andb_false_r.
Qed.

(** The TD as it is handed back, and its buffer *)
Definition done_td (nx : Z) (td : td_t) : td_t := set_td_cc CC_NOERROR (set_tnext nx (set_td_ec 0 (set_cbp 0 td))).
Definition retired (m : memory) (q : Z * td_t) (l : list Z) : Prop :=
  map (cell (ram m)) (td_buf q.2) = l /\ exists nx, td_at m q.1 (done_td nx q.2).

Lemma done_td_range nx td : ed_range (ed_of td) -> 0 <= nx < 2 ^ 32 -> ed_range (ed_of (done_td nx td)).
Proof.
  intros (R0 & R4 & R8 & R12) Hn. unfold ed_range, done_td, set_td_cc, set_td_ec. cbn in *. split_and!; try lia.
  - rewrite !Z.lor_0_r. apply Z.land_nonneg. lia.
  - rewrite !Z.lor_0_r. pose proof (land_ones_range (td0 td .& not32 0x0c000000) 28 ltac:(lia)) as Hl.
    change (2 ^ 28 - 1) with 0xfffffff in Hl. lia.
Qed.

(** What [complete_urb_] writes before the done head *)
Lemma put_data_opt (w : world) td l : ram_ok (mem w) -> Z.of_nat (length l) = get_td_size td ->
  (forall x, x ∈ td_buf td -> 0 <= x < size (ram (mem w))) -> NoDup (td_buf td) ->
  exists m, (if true && negb (get_td_size td =? 0) then put_td_data td l (get_td_size td) else mret tt) w = Ok (tt, set_mem m w) /\
    map (cell (ram m)) (td_buf td) = l /\ frame (fun x => x ∈ td_buf td) (mem w) m.
Proof.
  intros Hr Hl Hin Hn. cbn [andb]. destruct (Z.eqb_spec (get_td_size td) 0) as [E|E]; cbn [negb].
  - exists (mem w). split; [by destruct w|]. split; [|apply frame_refl]. unfold td_buf. rewrite E. cbn. destruct l; [done|cbn in Hl; lia].
  - rewrite <- Hl. apply put_td_data_spec; try done. intros ->. cbn in Hl. lia.
Qed.

(** A step of the endpoint: the first TD is retired. *)
Definition advanced (eds : list Z) (a : Z) (e : ed_t) (d : Z) (q : Z * td_t) tds (l : list Z) (w w1 : world) : Prop :=
  bulk_ok eds a (set_headp (tnext q.2) e) d tds w1 /\ retired (mem w1) q l /\
  frame (fun x => x ∈ span 16 a ++ hcca_bytes (hc w) ++ td_bytes q) (mem w) (mem w1) /\
  hcca (hc w1) = hcca (hc w) /\ fresh (hc w1) = fresh (hc w).

(** The memory after the data, the head pointer, the TD and the done head
    have been written, in this order *)
Lemma advance_mem eds a e d t td tds l (w : world) m1 m2 m3 w4 nx :
  bulk_ok eds a e d ((t, td) :: tds) w ->
  map (cell (ram m1)) (td_buf td) = l -> frame (fun x => x ∈ td_buf td) (mem w) m1 ->
  word m2 (a + 8) (tnext td) -> frame (fun x => x ∈ span 4 (a + 8)) m1 m2 ->
  td_at m3 t (done_td nx td) -> frame (fun x => x ∈ span 16 t) m2 m3 ->
  frame (fun x => x ∈ hcca_bytes (hc w)) m3 (mem w4) -> quiet w w4 ->
  advanced eds a e d (t, td) tds l w w4.
Proof.
  intros B Hbuf F1 W2 F2 T3 F3 F4 Q. destruct B. cbn [td_bytes fst snd].
  unfold footprint in bo_disjoint0. cbn [map concat] in bo_disjoint0.
  destruct (footprint_split bo_disjoint0) as (Hnd & HB & DB & DS & DH).
  unfold td_bytes in HB. cbn [fst snd] in HB. apply list.NoDup_app in HB as (_ & Dt & _).
  assert (Iat : forall x, x ∈ span 16 t -> x ∈ td_bytes (t, td)) by (intros x Hx; apply elem_of_app; by left).
  assert (Ibuf : forall x, x ∈ td_buf td -> x ∈ td_bytes (t, td)) by (intros x Hx; apply elem_of_app; by right).
  assert (I8 : forall x, x ∈ span 4 (a + 8) -> x ∈ span 16 a) by (intros x Hx; rewrite elem_of_span in *; lia).
  assert (FF : frame (fun x => x ∈ span 4 (a + 8) \/ x ∈ hcca_bytes (hc w) \/ x ∈ td_bytes (t, td)) (mem w) (mem w4)).
  { eapply frame_trans; [eapply frame_weaken; [exact F1|]; intros x Hx; right; right; by apply Ibuf|].
    eapply frame_trans; [eapply frame_weaken; [exact F2|]; intros x Hx; by left|].
    eapply frame_trans; [eapply frame_weaken; [exact F3|]; intros x Hx; right; right; by apply Iat|].
    eapply frame_weaken; [exact F4|]. intros x Hx. by right; left. }
  destruct bo_queue0 as (Ehead & Ht & Hal & Htd & Hrg & Hsz & Hin & Hq).
  split_and!; [|split| | |]; [| | | |apply Q|apply Q].
  - split; try done.
    + by eapply ram_frame.
    + unfold is_operational. by rewrite (qu_reg _ _ Q).
    + by rewrite (qu_reg _ _ Q).
    + rewrite (qu_reg _ _ Q) by done. eapply chain_frame; [exact FF| |done].
      intros b Hb x Hx. assert (Hx' : x ∈ concat (map (fun b => span 4 (b + 12)) eds)).
      { apply list_elem_of_In, in_concat. exists (span 4 (b + 12)).
        split; [apply (in_map (fun b => span 4 (b + 12)))|]; by apply list_elem_of_In. }
      intros [Hy|[Hy|Hy]]; [apply I8, DS in Hy|apply DH in Hy|apply DB in Hy]; tauto.
    + assert (Hn8 : forall i x, x ∈ span 4 (a + i) -> i + 4 <= 8 \/ 12 <= i -> 0 <= i <= 12 ->
        ~ (x ∈ span 4 (a + 8) \/ x ∈ hcca_bytes (hc w) \/ x ∈ td_bytes (t, td))).
      { intros i x Hx Hi Hi2. assert (Hs : x ∈ span 16 a) by (rewrite elem_of_span in *; lia).
        intros [Hy|[Hy|Hy]]; [rewrite elem_of_span in *; lia|apply DH in Hy; tauto|apply DB in Hy; tauto]. }
      destruct bo_ed0. cbn. split; cbn [ed0 tailp headp nexted set_headp].
      * eapply word_frame; [exact FF| |done]. intros x Hx. apply (Hn8 0); [by rewrite Z.add_0_r|lia|lia].
      * eapply word_frame; [exact FF| |done]. intros x Hx. apply (Hn8 4); [done|lia|lia].
      * eapply word_frame; [exact F4| |]. { intros x Hx Hy. apply I8, DS in Hx. tauto. }
        eapply word_frame; [exact F3| |done]. intros x Hx Hy. apply I8 in Hx. apply Iat, DB in Hy. tauto.
      * eapply word_frame; [exact FF| |done]. intros x Hx. apply (Hn8 12); [done|lia|lia].
    + destruct bo_range0 as (? & ? & ? & ?), Hrg as (? & ? & ? & ?). unfold ed_range. cbn in *. lia.
    + cbn. eapply queue_frame; [exact FF| |exact Hq]. intros q x Hqi Hx.
      assert (Hx' : x ∈ concat (map td_bytes tds)).
      { apply list_elem_of_In, in_concat. exists (td_bytes q).
        split; [apply in_map|]; apply list_elem_of_In; [done|]. apply elem_of_app. by left. }
      intros [Hy|[Hy|Hy]]; [apply I8, DS in Hy|apply DH in Hy|apply DB in Hy]; tauto.
    + destruct bo_dev0 as [? ?]. unfold dev_from_fa. by rewrite (qu_devs _ _ Q).
    + by apply (qu_done _ _ Q).
    + rewrite (qu_hcca _ _ Q), (fr_size _ _ _ FF). done.
    + unfold footprint, hcca_bytes in *. by rewrite (qu_hcca _ _ Q).
  - rewrite <- Hbuf. apply map_ext_in. intros x Hx. rewrite <- list_elem_of_In in Hx. apply Ibuf in Hx as Hx'. destruct (DB x Hx') as (_ & D1 & D2 & _).
    rewrite (fr_cell _ _ _ F4) by done. rewrite (fr_cell _ _ _ F3) by (intros Hy; by apply (Dt x Hy)).
    apply (fr_cell _ _ _ F2). intros Hy. by apply D1, I8.
  - exists nx. cbn [fst snd]. eapply ed_frame; [exact F4| |exact T3]. intros x Hx. apply Iat, DB in Hx. tauto.
  - eapply frame_weaken; [exact FF|]. intros x Hx. rewrite !elem_of_app. destruct Hx as [Hx|[Hx|Hx]]; [left; by apply I8|tauto|tauto].
Qed.

Lemma bind_get_urb {A} u pu (f : _ -> M A) (w : world) : find_key u (urbs (hc w)) = Some pu -> (get_urb u ≫= f) w = f pu w.
Proof. intros E. apply bind_eq. unfold get_urb. rewrite bind_gets. unfold lift. by rewrite E. Qed.

(** [complete_urb_] on an urb that is still hot, all of whose buffer has been
    filled *)
Lemma complete_hot rec eds a e d t td tds u l n (w : world) e0 k : bulk_ok eds a e d ((t, td) :: tds) w ->
  find_key u (urbs (hc w)) = Some (PUrb (Some d) BULK_LIST a t e0 td (Urb k kBulkType true (get_td_size td) (get_td_size td) l)) ->
  Z.of_nat (length l) = get_td_size td -> (length eds < n)%nat ->
  exists w1, complete_urb_ junk n rec u CC_NOERROR w = process_endpoint junk rec (set_headp (tnext td) e) a BULK_LIST w1 /\
    advanced eds a e d (t, td) tds l w w1.
Proof.
  intros B Eu Hl Hn. pose proof B as B'. destruct B'.
  assert (Hq := bo_queue0). destruct Hq as (Eh & Ht & Hal & Htd & Hrg & Hsz & Hin & Hq).
  unfold footprint in bo_disjoint0. cbn [map concat] in bo_disjoint0. destruct (footprint_split bo_disjoint0) as (_ & HB & DB & _).
  apply list.NoDup_app in HB as (_ & Dt & Hnd).
  pose proof (word_inside _ _ _ (at_0 _ _ _ bo_ed0)) as Ia. pose proof (word_inside _ _ _ (at_12 _ _ _ bo_ed0)) as Ia12.
  pose proof (word_inside _ _ _ (at_0 _ _ _ Htd)) as It. pose proof (word_inside _ _ _ (at_12 _ _ _ Htd)) as It12.
  unfold complete_urb_. rewrite (bind_get_urb _ _ _ _ Eu). cbn [list_type ed_mphys td_mphys u_td uurb].
  unfold get_list_head. change (BULK_LIST =? BULK_LIST) with true. cbv iota. rewrite bind_reg. unfold unlink_urb.
  set (wb := World (set_urbs (del_key u (urbs (hc w))) (hc w)) (mem w) (pic w) (cl w)).
  rewrite (bind_eq _ _ w tt wb) by (rewrite bind_gets; unfold lift, mbind, M_bind; rewrite Eu; reflexivity).
  rewrite (bind_eq _ _ _ _ _ (walk_chain wb a eds bo_ram0 _ n bo_chain0 Hn)).
  rewrite (proj2 (Z.eqb_neq a 0)) by done. rewrite bind_transl by (done || cbn; lia).
  rewrite (bind_eq _ _ _ _ _ (get_ed_at wb None a e bo_ram0 bo_ed0)). unfold lift at 1. rewrite (bind_eq _ _ wb e wb) by reflexivity.
  rewrite bo_k0, Eh, (aligned_bit t Hal). cbn [orb]. rewrite Hal, Z.eqb_refl. cbn [negb].
  rewrite (bind_eq _ _ _ _ _ (get_td_at wb t td bo_ram0 Htd)). rewrite !Z.eqb_refl. cbn [negb orb is_read actcount buf].
  destruct (put_data_opt wb td l bo_ram0 Hl Hin Hnd) as (m1 & E1 & Hbuf & F1). change (mem wb) with (mem w) in F1.
  cbv zeta. rewrite (bind_eq _ _ wb (retire_td (Urb k kBulkType true (get_td_size td) (get_td_size td) l) td) (set_mem m1 wb)).
  2: { rewrite (bind_eq _ _ _ _ _ E1). reflexivity. }
  unfold retire_td. cbn [actcount usize]. rewrite Z.eqb_refl. cbv beta iota. rewrite Z.eqb_refl, Z.lor_0_r. cbn [plus]. unfold ofs_headp.
  change (headp (set_headp (tnext (set_td_ec 0 (set_cbp 0 td))) e)) with (tnext td).
  assert (R1 : ram_ok m1) by (by eapply ram_frame). destruct Hrg as (Hg0 & Hg4 & Hg8 & Hg12). cbn in Hg8.
  destruct (st32_spec (set_mem m1 wb) (a + 8) (tnext td)) as (m2 & E2 & W2 & F2); [cbn; lia|cbn; rewrite (fr_size _ _ _ F1); lia|done|].
  rewrite (bind_eq _ _ _ _ _ E2), bind_reg. unfold set_reg. rewrite bind_hmod. cbn [hc mem pic cl set_mem].
  set (wc := World (putr HC_DONE_HEAD t (hc wb)) m2 (pic w) (cl w)). set (nx := getr HC_DONE_HEAD (hc wb)).
  assert (Hnx : 0 <= nx < 2 ^ 32) by exact bo_done0. cbn [mem set_mem] in F2.
  destruct (put_ed_spec wc t (ed_of (done_td nx td))) as (m3 & E3 & T3 & F3); cbn [mem wc].
  { by eapply ram_frame. } { lia. } { rewrite (fr_size _ _ _ F2), (fr_size _ _ _ F1). cbn. lia. } { by apply done_td_range. }
  unfold put_td. change (set_td_cc _ _) with (done_td nx td). rewrite (bind_eq _ _ _ _ _ E3).
  destruct (update_done_quiet (set_mem m3 wc)) as (w4 & E4 & Q4 & F4); cbn [mem hc set_mem wc].
  { eapply ram_frame; [exact F3|]. by eapply ram_frame. }
  { apply getr_putr_range; [done| |exact bo_done0]. destruct bo_range0 as (_ & _ & Hr & _). by rewrite Eh in Hr. }
  { rewrite (fr_size _ _ _ F3). cbn [mem wc]. rewrite (fr_size _ _ _ F2), (fr_size _ _ _ F1). exact bo_hcca0. }
  rewrite (bind_eq _ _ _ _ _ E4). exists w4. split; [reflexivity|].
  eapply (advance_mem eds a e d t td tds l w m1 m2 m3 w4 nx B Hbuf F1 W2 F2 T3 F3 F4).
  destruct Q4. split; try done.
  - intros i Hne Hi. rewrite qu_reg0 by done. change (getr i (hc w)) with (getr i (hc wb)). by apply getr_putr.
  - intros _. apply qu_done0. cbn. apply getr_putr_range; [done| |exact bo_done0]. destruct bo_range0 as (_ & _ & Hr & _). by rewrite Eh in Hr.
Qed.

(** ** The client completes the urb *)

Lemma retire eds a e d q tds u l n (w : world) : bulk_ok eds a e d (q :: tds) w -> issued u a d (q :: tds) w ->
  Z.of_nat (length l) = get_td_size q.2 -> (length eds < n)%nat ->
  exists w1, again junk (S n) (Complete (Done (UData u) CC_NOERROR (Z.of_nat (length l)) l)) w =
      process_endpoint junk (again junk n) (set_headp (tnext q.2) e) a BULK_LIST w1 /\
    advanced eds a e d q tds l w w1.
Proof.
  destruct q as [t td]. intros B (e0 & k & buf0 & Eu & Hb) Hl Hn. cbn [snd] in *.
  assert (Ef : fill (Done (UData u) CC_NOERROR (Z.of_nat (length l)) l) (Urb k kBulkType true (get_td_size td) 0 buf0) =
    Some (Urb k kBulkType true (get_td_size td) (get_td_size td) l)).
  { unfold fill. cbn [c_data buf]. rewrite (proj2 (Nat.leb_le _ _)) by lia. unfold set_actcount, set_buf. cbn.
    rewrite Hl, drop_ge, app_nil_r by lia. done. }
  cbn [again run_call]. unfold complete_urb. cbn [c_urb c_status]. rewrite (bind_get_urb _ _ _ _ Eu). cbn [uurb]. rewrite Ef.
  unfold lift at 1. cbn [of_option]. rewrite (bind_eq _ _ w _ w) by reflexivity. unfold mod_urb. rewrite bind_hmod.
  set (w0 := World _ (mem w) _ _). set (pu := PUrb (Some d) BULK_LIST a t e0 td (Urb k kBulkType true (get_td_size td) (get_td_size td) l)).
  assert (Eu' : find_key u (urbs (hc w0)) = Some pu) by (unfold w0; cbn [hc urbs set_urbs]; by rewrite find_upd_key, Eu).
  assert (B0 : bulk_ok eds a e d ((t, td) :: tds) w0) by (destruct B; by split).
  unfold complete_data_urb. rewrite (bind_get_urb _ _ _ _ Eu'), bind_gets. cbn [id]. cbv zeta.
  rewrite (bo_op _ _ _ _ _ _ B0), (bo_ble _ _ _ _ _ _ B0). cbn [list_type pu]. change (tst BULK_LIST INTERRUPT_LIST) with false.
  rewrite Z.eqb_refl. cbn [negb orb andb].
  destruct (complete_hot (again junk n) eds a e d t td tds u l n w0 e0 k B0 Eu' Hl Hn) as (w1 & -> & Ha).
  exists w1. split; [done|]. exact Ha.
Qed.

(** ** The walk along the EDs

    An idle ED (skipped, halted or without TDs) is passed over; what follows
    it is where its link says. *)
Definition idle (e : ed_t) : bool := ed_k e || tst (headp e) HEADP_H || (tailp e =? headp e .& not32 0xf).

Fixpoint idle_chain (m : memory) (from to : Z) (l : list Z) : Prop :=
  match l with
  | [] => from = to
  | a :: l => from = a /\ a <> 0 /\ exists e, ed_at m a e /\ idle e = true /\ idle_chain m (nexted e) to l
  end.

Lemma process_idle rec lt ret n : forall ed a e (w : world), a <> 0 -> get_ed ed a w = Ok (Some e, w) -> idle e = true ->
  process_eds junk rec (S n) ed a lt ret w = process_eds junk rec n (Some e) (nexted e) lt ret w.
Proof.
  intros ed a e w Ha Hg Hi. cbn [process_eds]. rewrite (proj2 (Z.eqb_neq a 0) Ha), (bind_eq _ _ _ _ _ Hg).
  unfold lift. rewrite (bind_eq _ _ w e w) by reflexivity. cbv zeta. unfold idle in Hi. by rewrite Hi.
Qed.

Lemma process_stuck rec lt ret e b (w : world) : ram_ok (mem w) -> idle e = true -> nexted e = b -> 0 < b ->
  size (ram (mem w)) <= b < 2 ^ 32 -> forall n, process_eds junk rec n (Some e) b lt ret w = Fuel.
Proof.
  intros [Hb Hs] Hi En Hne Hr. induction n as [|n IH]; [done|]. rewrite (process_idle _ _ _ n (Some e) b e); try done; [|lia|].
  - by rewrite En.
  - unfold get_ed, Usb.transl, mbind, M_bind. cbn [mbind run_bind]. unfold transl_mphys, Memory.transl.
    rewrite Hb, Z.sub_0_r, u32_small by lia. by rewrite (proj2 (Z.ltb_ge _ _)) by lia.
Qed.

(** C12: [process_list] on a list of idle endpoints that ends in 0 ends and
    reports an empty list, having changed nothing; if the last link leads out
    of RAM the descriptor cannot be fetched, the one before is taken for it,
    and the walk goes on for ever. *)
Theorem ed_list_walk rec lt l from (w : world) : ram_ok (mem w) ->
  (idle_chain (mem w) from 0 l -> forall n, (length l < n)%nat -> process_list junk n rec from lt w = Ok (false, w)) /\
  (forall b, idle_chain (mem w) from b l -> l <> [] -> size (ram (mem w)) <= b < 2 ^ 32 -> 0 < b ->
   forall n, process_list junk n rec from lt w = Fuel).
Proof.
  intros Hr. unfold process_list. split.
  - generalize (@None ed_t). revert from. induction l as [|a l IH]; intros from o Hc [|n] Hn; cbn in Hc, Hn; try lia.
    + by subst from.
    + destruct Hc as (-> & Ha & e & He & Hi & Hc). rewrite (process_idle _ _ _ n o a e) by (done || by apply get_ed_at).
      apply IH; [done|lia].
  - intros b Hc Hne Hb Hb0 n. revert Hc Hne. generalize (@None ed_t). revert from n.
    induction l as [|a l IH]; intros from [|n] o Hc Hne; try done.
    destruct Hc as (-> & Ha & e & He & Hi & Hc). rewrite (process_idle _ _ _ n o a e) by (done || by apply get_ed_at).
    destruct l as [|a' l]; [|by apply IH]. cbn in Hc. rewrite Hc. by apply process_stuck.
Qed.

(** A client that only takes note of a request *)
Context (client_async : forall ref x u c, (cl_submit ref x u c).1 = []).

(** The next TD is submitted. *)
Lemma submit_next rec eds a e d tds (w : world) : bulk_ok eds a e d tds w ->
  exists w1, process_endpoint junk rec e a BULK_LIST w = Ok (tt, w1) /\ bulk_ok eds a e d tds w1 /\
    issued (fresh (hc w)) a d tds w1 /\ mem w1 = mem w /\ hcca (hc w1) = hcca (hc w) /\
    (tds <> [] -> fresh (hc w1) = fresh (hc w) + 1).
Proof.
  intros B. pose proof B as B'. destruct B'. unfold process_endpoint. cbv zeta. destruct tds as [|[t td] tds].
  { cbn in bo_queue0. rewrite bo_queue0, bo_tail0, Z.eqb_refl. by exists w. }
  assert (Hq := bo_queue0). destruct Hq as (Eh & Ht & Hal & Htd & Hrg & Hsz & Hin & Hq).
  rewrite Eh, Hal, (proj2 (Z.eqb_neq _ _) Ht), (bind_eq _ _ _ _ _ (get_td_at w t td bo_ram0 Htd)), bind_gets. cbv zeta.
  rewrite bo_d0. change (kDirIN =? 0) with false. change (kDirIN =? 3) with false. change (kDirIN =? kDirIN) with true.
  change (BULK_LIST =? CONTROL_LIST) with false. change (tst BULK_LIST INTERRUPT_LIST) with false.
  rewrite (proj2 (Z.eqb_neq _ _) bo_en0), (proj2 (Z.ltb_ge _ _) Hsz), andb_false_r. cbn [andb orb negb].
  change (BULK_LIST =? BULK_LIST) with true. cbv iota. rewrite bind_malloc. rewrite bind_gets.
  destruct bo_dev0 as [Ed [v Ev]]. unfold dev_from_fa in Ed |- *. cbn [hc devs set_fresh]. rewrite Ed.
  set (w0 := World (set_fresh _ _) _ _ _). rewrite (bind_eq _ _ w0 [] w0) by reflexivity. rewrite bind_hmod.
  change (kBulkType =? kCtrlType) with false. cbv iota. cbn [length app].
  set (w1 := World (set_urbs _ _) _ _ _). unfold ops_submit.
  rewrite (bind_eq _ _ w1 v w1) by (unfold get_dev; rewrite bind_gets; change (devs (hc w1)) with (devs (hc w)); unfold lift; by rewrite Ev).
  unfold client. pose proof (client_async (refcon v) (UData (fresh (hc w)))
    (Urb (ed_en e) kBulkType true (get_td_size td) 0 (drop 0 (fresh_bytes junk (fresh (hc w)) (get_td_size td)))) (cl w1)) as Ha.
  destruct (cl_submit _ _ _ _) as [cs c]. cbn in Ha. subst cs. eexists. split; [reflexivity|].
  split; [|split; [|done]].
  - by split.
  - cbn. unfold find_key. cbn. rewrite Z.eqb_refl. cbn. eexists _, _, _. split; [reflexivity|].
    unfold fresh_bytes. rewrite drop_0, length_map, length_seq. lia.
Qed.

(** ** The whole queue *)

(** The client completes the urbs one after the other, each as soon as the
    one before has been retired: [u] is the first, the next ones are what the
    controller allocates. *)
Fixpoint deliver (n : nat) (u : Z) (datas : list (list Z)) : M unit :=
  match datas with
  | [] => mret tt
  | l :: datas =>
      f ← gets fresh;
      again junk n (Complete (Done (UData u) CC_NOERROR (Z.of_nat (length l)) l));;
      deliver n f datas
  end.

Lemma retired_frame Q m m' q l : frame Q m m' -> (forall x, x ∈ td_bytes q -> ~ Q x) -> retired m q l -> retired m' q l.
Proof.
  intros Hf Hd [Hb [nx Ht]]. split.
  - rewrite <- Hb. apply map_ext_in. intros x Hx. apply (fr_cell _ _ _ Hf), Hd, elem_of_app. right. by apply list_elem_of_In.
  - exists nx. eapply ed_frame; [exact Hf| |exact Ht]. intros x Hx. apply Hd, elem_of_app. by left.
Qed.

(** C4: A queue of IN transfer descriptors of a bulk endpoint anywhere on the
    bulk list, whose first one has been submitted to a client that answers
    later: when the client fills one request after the other, the controller
    writes the bytes to the buffers of the descriptors in order (over two
    pages where a buffer crosses one), hands each descriptor back with the
    condition code NOERROR and an empty buffer pointer, submits the next one,
    and ends with an empty queue; memory outside the endpoint, its
    descriptors and buffers and the done word of the HCCA is as before. *)
Theorem bulk_in_stream eds a e d : forall tds datas u n (w : world),
  bulk_ok eds a e d tds w -> issued u a d tds w ->
  Forall2 (fun q l => Z.of_nat (length l) = get_td_size q.2) tds datas -> (length eds < n)%nat ->
  exists w', deliver (S n) u datas w = Ok (tt, w') /\
    Forall2 (retired (mem w')) tds datas /\
    word (mem w') (a + 8) (tailp e) /\
    frame (fun x => x ∈ span 16 a ++ hcca_bytes (hc w) ++ concat (map td_bytes tds)) (mem w) (mem w').
Proof.
  intros tds. revert e. induction tds as [|q tds IH]; intros e datas u n w B I HF Hn; inversion HF as [|? l ? datas' Hl HF']; subst; cbn [deliver].
  { exists w. split_and!; [done|constructor| |apply frame_refl]. destruct B as [? ? ? ? ? He ? ? ? ? ? Hq]. cbn in Hq. rewrite <- Hq. apply He. }
  destruct (retire eds a e d q tds u l n w B I Hl Hn) as (w1 & E1 & B1 & R1 & F1 & Eh1 & Ef1).
  destruct (submit_next (again junk n) eds a _ d tds w1 B1) as (w2 & E2 & B2 & I2 & Em2 & Eh2 & _).
  rewrite bind_gets, (bind_eq _ _ _ _ _ (eq_trans E1 E2)). rewrite Ef1 in I2.
  destruct (IH _ datas' (fresh (hc w)) n w2 B2 I2 HF' Hn) as (w' & E' & R' & W' & F'). exists w'. split; [exact E'|].
  unfold hcca_bytes in F'. rewrite Eh2, Eh1, Em2 in F'. fold (hcca_bytes (hc w)) in F'.
  assert (Hd := bo_disjoint _ _ _ _ _ _ B). unfold footprint in Hd. cbn [map concat] in Hd.
  destruct (footprint_split Hd) as (_ & _ & DB & _). cbn [map concat].
  split; [constructor; [|done]|split; [exact W'|]].
  - eapply retired_frame; [exact F'| |exact R1]. intros x Hx. apply DB in Hx. rewrite !elem_of_app. tauto.
  - eapply frame_trans; (eapply frame_weaken; [eassumption|]); intros x Hx; rewrite !elem_of_app in *; tauto.
Qed.

End Bulk.

(** ** An endpoint with two descriptors, the first buffer across a page *)

#[local] Instance ex_client : UsbClient (list uref) := {
  cl_submit _ x _ c := ([], c ++ [x]); cl_abort _ _ c := ([], c); cl_reset _ c := ([], c)
}.
Definition ex_junk (_ _ : Z) : Z := 0xaa.
Definition put_words (a : Z) (l : list Z) (m : gmap Z Z) : gmap Z Z := FileIO.put_bytes m a (concat (map (le_bytes 4) l)).
(** A skipped ED at 0x140 in front of the endpoint at 0x100 *)
Definition ex_e : ed_t := Ed ((1 .<< 7) .| (kDirIN .<< 11)) 0x240 0x200 0.
Definition ex_t1 : td_t := Td 0 0x1ff0 0x220 0x2007.
Definition ex_t2 : td_t := Td 0 0x3000 0x240 0x3007.
Definition ex_ram : gmap Z Z :=
  put_words 0x140 [1 .<< 14; 0; 0; 0x100] (put_words 0x100 [ed0 ex_e; 0x240; 0x200; 0]
    (put_words 0x200 [0; 0x1ff0; 0x220; 0x2007] (put_words 0x220 [0; 0x3000; 0x240; 0x3007] ∅))).
Definition ex_mem : memory := Mem (Bank 0 0x10000 ex_ram) (Bank 0 0 ∅).
Definition ex_pic : Pic.Osi.osi_state := Pic.Osi.OsiState 0 0xffffffff false.
#[local] Abbreviation ex_start := (World (usb_start 5 false) ex_mem ex_pic []).
#[local] Existing Instance Pic.osi_controller.

Definition wr (o v : Z) : event := Write (4 * o) (le32 v) 4.
(** The driver resets the port, sets the lists up and starts the controller. *)
Definition ex_events : list event :=
  [Register 77 true true; wr HC_HCCA 0x1000; wr HC_INT_ENABLE (INT_MIE .| INT_WDH); wr HC_RH_PORTBASE PORT_PRS;
   wr HC_BULK_HEAD_ED 0x140; wr HC_CONTROL (HCFS_OPERATIONAL .| CTRL_BLE); wr HC_CMD_STATUS CMD_BLF].
#[local] Abbreviation ex_run evs :=
  ((hc_reset false;; mapM_ (step ex_junk 10) evs) ex_start : run (unit * world Pic.Osi.osi_state (list uref))).

Definition ex_w : world Pic.Osi.osi_state (list uref) := Eval vm_compute in match ex_run ex_events with Ok (_, w) => w | _ => ex_start end.
Definition ex_d1 : list Z := map Z.of_nat (seq 1 24).
Definition ex_d2 : list Z := map Z.of_nat (seq 1 8).

Definition ex_completed : list event :=
  ex_events ++ [Completed (Done (UData 2) CC_NOERROR 24 ex_d1); Completed (Done (UData 3) CC_NOERROR 8 ex_d2)].

Lemma run_ok {A} (Q : A -> Prop) (o : run A) : match o with Ok a => Q a | _ => False end -> exists a, o = Ok a /\ Q a.
Proof. destruct o as [a| |]; [|done..]. by exists a. Qed.

(** Both urbs completed, the interrupt of the done queue is pending. *)
Lemma usb_reachable_ok_witness :
  exists w, ex_run ex_completed = Ok (tt, w) /\ irq_line (hc w) = true /\ usb_ok w.
Proof.
  destruct (run_ok (fun q => irq_line (hc q.2) = true) (ex_run ex_completed)) as ([[] w] & Er & E); [vm_compute; reflexivity|].
  exists w. split; [exact Er|]. split; [exact E|].
  assert (V : Pic.valid_irq 5) by (cbn; lia).
  exact (usb_reachable_ok ex_junk 5 false ex_mem ex_pic [] 10 ex_completed w V eq_refl eq_refl Er).
Defined.

Lemma ex_bulk_ok : bulk_ok [0x140] 0x100 ex_e 1 [(0x200, ex_t1); (0x220, ex_t2)] ex_w.
Proof.
  split; try (vm_compute; reflexivity); try (vm_compute; discriminate).
  - by split; vm_compute.
  - split; [reflexivity|]. split; [done|]. split; [done|]. exists 0x100. split; [vm_compute; reflexivity|]. by split.
  - split; vm_compute; reflexivity.
  - split_and!; by vm_compute.
  - assert (Hin : forall td, forallb (fun x => (0 <=? x) && (x <? 0x10000)) (td_buf td) = true ->
      forall x, x ∈ td_buf td -> 0 <= x < size (ram (mem ex_w))).
    { intros td Hf x Hx. rewrite forallb_forall in Hf. apply list_elem_of_In, Hf in Hx. change (size _) with 0x10000. lia. }
    assert (H1 := Hin ex_t1 ltac:(vm_compute; reflexivity)). assert (H2 := Hin ex_t2 ltac:(vm_compute; reflexivity)). clear Hin.
    assert (T1 : td_at (mem ex_w) 0x200 ex_t1) by (split; vm_compute; reflexivity).
    assert (T2 : td_at (mem ex_w) 0x220 ex_t2) by (split; vm_compute; reflexivity).
    assert (R1 : ed_range (ed_of ex_t1)) by (split_and!; by vm_compute).
    assert (R2 : ed_range (ed_of ex_t2)) by (split_and!; by vm_compute).
    split; [reflexivity|]. split; [by vm_compute|]. split; [reflexivity|]. split; [exact T1|]. split; [exact R1|].
    split; [by vm_compute|]. split; [exact H1|].
    split; [reflexivity|]. split; [by vm_compute|]. split; [reflexivity|]. split; [exact T2|]. split; [exact R2|].
    split; [by vm_compute|]. split; [exact H2|]. reflexivity.
  - split; [vm_compute; reflexivity|]. eexists. vm_compute. reflexivity.
  - by vm_compute.
  - exists 0x1000. by split_and!.
  - apply (bool_decide_unpack _). vm_compute. exact I.
Qed.

Lemma bulk_in_stream_witness : exists w', deliver ex_junk 3 2 [ex_d1; ex_d2] ex_w = Ok (tt, w') /\
  Forall2 (retired (mem w')) [(0x200, ex_t1); (0x220, ex_t2)] [ex_d1; ex_d2].
Proof.
  assert (Ha : forall ref x u (c : list uref), (cl_submit ref x u c).1 = []) by done.
  destruct (bulk_in_stream ex_junk Ha [0x140] 0x100 ex_e 1 [(0x200, ex_t1); (0x220, ex_t2)] [ex_d1; ex_d2] 2 2 ex_w)
    as (w' & E & F & _).
  - exact ex_bulk_ok.
  - eexists _, _, _. split; vm_compute; reflexivity.
  - repeat constructor.
  - cbn. lia.
  - exists w'. split; [exact E|exact F].
Defined.

(** The skipped ED alone, and with a link out of RAM *)
Definition ex_list (link : Z) : world Pic.Osi.osi_state (list uref) :=
  World (usb_start 5 false) (Mem (Bank 0 0x10000 (put_words 0x140 [1 .<< 14; 0; 0; link] ∅)) (Bank 0 0 ∅)) ex_pic [].

Lemma ed_list_walk_witness :
  (forall rec, process_list ex_junk 2 rec 0x140 BULK_LIST (ex_list 0) = Ok (false, ex_list 0)) /\
  (forall rec n, process_list ex_junk n rec 0x140 BULK_LIST (ex_list 0x20000) = Fuel).
Proof.
  assert (Hc : forall link, 0 <= link < 2 ^ 32 -> ed_at (mem (ex_list link)) 0x140 (Ed (1 .<< 14) 0 0 link) ->
    idle_chain (mem (ex_list link)) 0x140 link [0x140]).
  { intros link Hl He. split; [done|]. split; [done|]. exists (Ed (1 .<< 14) 0 0 link). by split. }
  split.
  - intros rec. apply (ed_list_walk ex_junk rec BULK_LIST [0x140] 0x140 (ex_list 0)); [by split| |cbn; lia].
    apply Hc; [lia|]. split; vm_compute; reflexivity.
  - intros rec n. apply (ed_list_walk ex_junk rec BULK_LIST [0x140] 0x140 (ex_list 0x20000)) with (b := 0x20000); [by split| |done|cbn; lia|lia].
    apply Hc; [lia|]. split; vm_compute; reflexivity.
Defined.

End UsbBulk.
