(* ===== verification/CString.v ===== *)
(** * Strings of C ([src/lib/extralib.c] and the C library)

    A string is the list of its bytes before the terminating zero; an array
    of characters is a list that an access must stay inside ([None]
    otherwise), and a pointer into it is an index.  The bounded copies of
    [extralib.c] work on arrays; their closed forms are [strncpy0_spec] and
    [strncat0_spec]. *)

From Stdlib Require Import String Ascii.
From S2P Require Import Prelude.

Module CString.

Definition str := list Z.
Definition lit (s : string) : str := map (fun c => Z.of_N (N_of_ascii c)) (list_ascii_of_string s).

(** ** Strings as lists *)

(** [!strncmp( a, b, n )] and [!strcmp( a, b )] *)
Definition strncmp_eq (a b : str) (n : nat) : bool := bool_decide (take n a = take n b).
Definition strcmp_eq (a b : str) : bool := bool_decide (a = b).

(** [strstr( s, t ) != NULL] *)
Fixpoint strstr (s t : str) : bool :=
  strncmp_eq s t (length t) || match s with [] => false | _ :: s => strstr s t end.

(** [strsep] at a character: the string before it, the rest or [NULL] *)
Fixpoint strsep (s : str) (c : Z) : str * option str :=
  match s with
  | [] => ([], None)
  | x :: s => if x =? c then ([], Some s) else let '(a, r) := strsep s c in (x :: a, r)
  end.

(** [fgets( buf, n + 1, file )]: up to [n] characters, up to a newline *)
Fixpoint fgets (n : nat) (t : str) : str * str :=
  match n, t with
  | O, _ | _, [] => ([], t)
  | S n, c :: t => if c =? 10 then ([c], t) else let '(l, t) := fgets n t in (c :: l, t)
  end.

(** The string that starts an array *)
Fixpoint cstr (l : list Z) : str :=
  match l with [] => [] | c :: l => if c =? 0 then [] else c :: cstr l end.

(** ** Arrays *)

Definition setc (buf : list Z) (i : nat) (c : Z) : option (list Z) :=
  if (i <? length buf)%nat then Some (<[i := c]> buf) else None.

Fixpoint strlen_loop (l : list Z) : option nat :=
  match l with [] => None | c :: l => if c =? 0 then Some O else S <$> strlen_loop l end.

(** [strlen( buf + i )] *)
Definition strlen (buf : list Z) (i : nat) : option nat := strlen_loop (drop i buf).

(** [strncpy0( buf + i, src, n )] *)
Fixpoint strncpy0 (buf : list Z) (i : nat) (src : str) (n : nat) {struct n} : option (list Z) :=
  match n with
  | O => Some buf
  | 1%nat => setc buf i 0
  | S n => match src with
           | [] => setc buf i 0
           | c :: src => buf ← setc buf i c; strncpy0 buf (S i) src n
           end
  end.

(** The loop of [strncat0]: where [dest] stops, and [n + 1] *)
Fixpoint strncat0_scan (buf : list Z) (i n : nat) : option (nat * nat) :=
  match n with
  | O => None
  | 1%nat => Some (i, 1%nat)
  | S n' => c ← buf !! i; if c =? 0 then Some (i, n) else strncat0_scan buf (S i) n'
  end.

(** [strncat0( buf + i, src, n )] *)
Definition strncat0 (buf : list Z) (i : nat) (src : str) (n : nat) : option (list Z) :=
  match n with
  | O => Some buf
  | _ => '(i, n) ← strncat0_scan buf i n; strncpy0 buf i src n
  end.

Definition strncat3 (buf : list Z) (i : nat) (s1 s2 : str) (n : nat) : option (list Z) :=
  buf ← strncat0 buf i s1 n; strncat0 buf i s2 n.

(** ** Comparisons *)

Lemma strncmp_prefix a b : strncmp_eq a b (length a) = true <-> a `prefix_of` b.
Proof.
  unfold strncmp_eq. rewrite bool_decide_eq_true, take_ge by lia. split.
  - intros E. exists (drop (length a) b). by rewrite E at 1; rewrite take_drop.
  - intros [k ->]. by rewrite take_app_length.
Qed.

Lemma strcmp_true a b : strcmp_eq a b = true <-> a = b.
Proof. apply bool_decide_eq_true. Qed.

Lemma strcmp_refl a : strcmp_eq a a = true.
Proof. by apply strcmp_true. Qed.

Lemma strcmp_false a b : strcmp_eq a b = false <-> a <> b.
Proof. apply bool_decide_eq_false. Qed.

Lemma fgets_split n t : (fgets n t).1 ++ (fgets n t).2 = t.
Proof.
  revert t. induction n as [|n IH]; intros [|c t]; try done. cbn [fgets]. destruct (c =? 10); [done|].
  specialize (IH t). destruct (fgets n t). cbn in *. by rewrite IH.
Qed.

Lemma fgets_progress n c t : (length (fgets (S n) (c :: t)).2 <= length t)%nat.
Proof.
  cbn [fgets]. destruct (c =? 10); [done|]. pose proof (fgets_split n t) as E. destruct (fgets n t) as [a b]. cbn in *.
  rewrite <- E, length_app. lia.
Qed.

Lemma fgets_line n l t : ~ In 10 l -> (length l < n)%nat -> fgets n (l ++ 10 :: t) = (l ++ [10], t).
Proof.
  revert n. induction l as [|c l IH]; intros [|n] Hn Hl; cbn in *; try lia; [done|].
  destruct (Z.eqb_spec c 10) as [->|_]; [by destruct Hn; left|]. rewrite IH by (tauto || lia). done.
Qed.

Lemma strsep_first a c r : ~ In c a -> strsep (a ++ c :: r) c = (a, Some r).
Proof.
  induction a as [|x a IH]; intros Hn; cbn in *; [by rewrite Z.eqb_refl|].
  destruct (Z.eqb_spec x c) as [->|_]; [by destruct Hn; left|]. rewrite IH by tauto. done.
Qed.

(** ** Strings in arrays *)

Definition nonul (s : str) : Prop := Forall (fun c => c <> 0) s.

(** The bytes [l] at index [i] *)
Definition put (buf : list Z) (i : nat) (l : list Z) : list Z := take i buf ++ l ++ drop (i + length l) buf.

(** The string [s] with its zero at index [i] *)
Definition holds (buf : list Z) (i : nat) (s : str) : Prop := nonul s /\ exists r, drop i buf = s ++ 0 :: r.

Lemma nonul_take n s : nonul s -> nonul (take n s).
Proof. apply Forall_take. Qed.

Lemma cstr_nonul l : nonul (cstr l).
Proof. induction l as [|c l IH]; cbn; [constructor|]. destruct (Z.eqb_spec c 0); [constructor|]. by constructor. Qed.

Lemma cstr_app s r : nonul s -> cstr (s ++ 0 :: r) = s.
Proof. induction 1 as [|c s Hc _ IH]; cbn; [done|]. destruct (Z.eqb_spec c 0); [done|]. by rewrite IH. Qed.

Lemma cstr_id s : nonul s -> cstr s = s.
Proof. induction 1 as [|c s Hc _ IH]; cbn; [done|]. destruct (Z.eqb_spec c 0); [done|]. by rewrite IH. Qed.

Lemma holds_cstr buf i s : holds buf i s -> cstr (drop i buf) = s.
Proof. intros [Hs [r ->]]. by apply cstr_app. Qed.

Lemma strlen_holds buf i s : holds buf i s -> strlen buf i = Some (length s).
Proof.
  intros [Hs [r E]]. unfold strlen. rewrite E. clear E. induction Hs as [|c s Hc _ IH]; cbn; [done|].
  destruct (Z.eqb_spec c 0); [done|]. by rewrite IH.
Qed.

Lemma setc_put buf i c : (i < length buf)%nat -> setc buf i c = Some (put buf i [c]).
Proof.
  intros Hi. unfold setc. rewrite (proj2 (Nat.ltb_lt _ _) Hi). f_equal. unfold put. cbn [app length].
  rewrite insert_take_drop by done. by rewrite Nat.add_1_r.
Qed.

Lemma put_length buf i l : (i + length l <= length buf)%nat -> length (put buf i l) = length buf.
Proof. intros H. unfold put. rewrite !length_app, length_take, length_drop. lia. Qed.

Lemma put_take buf i l j : (j <= i <= length buf)%nat -> take j (put buf i l) = take j buf.
Proof. intros H. unfold put. rewrite take_app_le by (rewrite length_take; lia). rewrite take_take. by rewrite Nat.min_l by lia. Qed.

Lemma put_drop buf i l j : (i + length l <= j)%nat -> (i + length l <= length buf)%nat -> drop j (put buf i l) = drop j buf.
Proof.
  intros H H2. unfold put. rewrite drop_app_ge by (rewrite length_take; lia). rewrite length_take.
  rewrite drop_app_ge by lia. rewrite drop_drop. f_equal. lia.
Qed.

Lemma put_at buf i l : (i <= length buf)%nat -> drop i (put buf i l) = l ++ drop (i + length l) buf.
Proof. intros H. unfold put. rewrite drop_app_ge by (rewrite length_take; lia). rewrite length_take. by replace (i - i `min` length buf)%nat with O by lia. Qed.

Lemma put_cons buf i c l : (i < length buf)%nat -> put (put buf i [c]) (S i) l = put buf i (c :: l).
Proof.
  intros H. unfold put at 1 3. cbn [app length]. rewrite put_drop by (cbn; lia).
  replace (i + S (length l))%nat with (S i + length l)%nat by lia.
  unfold put. cbn [app length]. rewrite take_app_ge by (rewrite length_take; lia). rewrite length_take.
  replace (S i - i `min` length buf)%nat with 1%nat by lia. cbn [take]. rewrite <- app_assoc. done.
Qed.

Lemma strncpy0_cons buf i c src n :
  strncpy0 buf i (c :: src) (S (S n)) = (buf ← setc buf i c; strncpy0 buf (S i) src (S n)).
Proof. done. Qed.

Lemma strncat0_scan_cons buf i n :
  strncat0_scan buf i (S (S n)) = (c ← buf !! i; if c =? 0 then Some (i, S (S n)) else strncat0_scan buf (S i) (S n)).
Proof. done. Qed.

(** The first [n - 1] bytes and a zero are stored, and nothing else. *)
Lemma strncpy0_spec n : forall buf i src, (0 < n)%nat -> (i + n <= length buf)%nat ->
  strncpy0 buf i src n = Some (put buf i (take (n - 1) src ++ [0])).
Proof.
  induction n as [|[|n] IH]; intros buf i src Hn Hi; [lia| |].
  - cbn [strncpy0]. rewrite setc_put by lia. by cbn.
  - destruct src as [|c src]; [cbn [strncpy0]; rewrite setc_put by lia; by cbn|].
    rewrite strncpy0_cons, setc_put by lia. cbn [mbind option_bind]. rewrite IH by (rewrite ?put_length; cbn; lia).
    rewrite put_cons by lia. cbn. by rewrite Nat.sub_0_r.
Qed.

Lemma strncat0_scan_spec s : forall n buf i r, nonul s -> drop i buf = s ++ 0 :: r -> (length s < n)%nat ->
  strncat0_scan buf i n = Some (i + length s, n - length s)%nat.
Proof.
  induction s as [|c s IH]; intros n buf i r Hs E Hn.
  - destruct n as [|[|n]]; cbn [length] in *; [lia| |]; cbn [strncat0_scan]; [by rewrite Nat.add_0_r|].
    rewrite <- (Nat.add_0_r i) at 1. rewrite <- lookup_drop, E. cbn. by rewrite Nat.add_0_r.
  - destruct n as [|[|n]]; cbn [length] in *; [lia|lia|]. rewrite strncat0_scan_cons.
    apply list.Forall_cons in Hs as [Hc Hs]. assert (El : buf !! i = Some c) by (rewrite <- (Nat.add_0_r i), <- lookup_drop, E; done).
    rewrite El. cbn [mbind option_bind]. destruct (Z.eqb_spec c 0); [done|].
    rewrite (IH _ _ _ r Hs) by (try lia; by rewrite <- Nat.add_1_r, <- drop_drop, E).
    do 2 f_equal; lia.
Qed.

(** What fits below [n - 1] bytes is appended, and nothing else changes. *)
Lemma strncat0_spec buf i s src n : holds buf i s -> (length s < n)%nat -> (i + n <= length buf)%nat ->
  strncat0 buf i src n = Some (put buf (i + length s) (take (n - 1 - length s) src ++ [0])).
Proof.
  intros [Hs [r E]] Hn Hi. unfold strncat0. destruct n as [|n]; [lia|].
  rewrite (strncat0_scan_spec s _ _ _ r) by done. cbn [mbind option_bind]. rewrite strncpy0_spec by lia.
  do 4 f_equal. lia.
Qed.

(** The effect of an append: the string, its place, the rest of the array *)
Definition appended (buf buf' : list Z) (i n : nat) (t : str) : Prop :=
  holds buf' i (take (n - 1) t) /\ length buf' = length buf /\ take i buf' = take i buf /\ drop (i + n) buf' = drop (i + n) buf.

Lemma strncat0_holds buf i s src n : holds buf i s -> (length s < n)%nat -> (i + n <= length buf)%nat -> nonul src ->
  exists buf', strncat0 buf i src n = Some buf' /\ appended buf buf' i n (s ++ src).
Proof.
  intros H Hn Hi Hsrc. eexists. split; [by apply strncat0_spec|]. destruct H as [Hs [r E]].
  set (t := take (n - 1 - length s) src ++ [0]).
  assert (Ht : (length t <= n - length s)%nat) by (unfold t; rewrite length_app, length_take; cbn; lia).
  split; [|split; [apply put_length; lia|split; [apply put_take; lia|apply put_drop; lia]]].
  assert (Es : take (n - 1) (s ++ src) = s ++ take (n - 1 - length s) src) by (rewrite take_app; f_equal; by apply take_ge; lia).
  rewrite Es. split; [apply Forall_app; split; [done|by apply nonul_take]|].
  exists (drop (i + length s + length t) buf). unfold put. rewrite drop_app_le by (rewrite length_take; lia).
  rewrite <- app_assoc. rewrite <- take_drop_commute || rewrite skipn_firstn_comm.
  replace (i + length s - i)%nat with (length s) by lia. rewrite E, take_app_length. unfold t. by rewrite <- app_assoc.
Qed.

Lemma strncat3_holds buf i s s1 s2 n : holds buf i s -> (length s < n)%nat -> (i + n <= length buf)%nat -> nonul s1 -> nonul s2 ->
  exists buf', strncat3 buf i s1 s2 n = Some buf' /\ appended buf buf' i n (s ++ s1 ++ s2).
Proof.
  intros H Hn Hi H1 H2. destruct (strncat0_holds buf i s s1 n) as (b1 & E1 & Hh & Hl & Ht & Hd); try done.
  unfold strncat3. rewrite E1. cbn [mbind option_bind].
  destruct (strncat0_holds b1 i (take (n - 1) (s ++ s1)) s2 n) as (b2 & E2 & Hh2 & Hl2 & Ht2 & Hd2); try done.
  { rewrite length_take. lia. } { lia. }
  exists b2. split; [done|]. split; [|split; [congruence|split; congruence]].
  replace (take (n - 1) (s ++ s1 ++ s2)) with (take (n - 1) (take (n - 1) (s ++ s1) ++ s2)); [done|].
  rewrite (app_assoc s). rewrite (take_app (s ++ s1)), take_app, take_take, length_take, Nat.min_id.
  f_equal. destruct (decide (length (s ++ s1) <= n - 1)%nat).
  - by rewrite Nat.min_r by lia.
  - rewrite Nat.min_l by lia. by rewrite Nat.sub_diag, (proj2 (Nat.sub_0_le (n - 1) (length (s ++ s1)))) by lia.
Qed.

End CString.
