(* ===== verification/DiskOpen.v ===== *)
(** * Opening disks ([src/drivers/disk/disk_open.c])

    Before a disk is opened for writing, the devices opened so far and the
    mounts of the host are searched for a conflict.  [None] is a null pointer
    followed. *)

From Stdlib Require Import String.
From S2P Require Import Prelude BlockDev CString.

Module DiskOpen.
Import BlockDev CString.

(** ** Reserved devices *)

Record dev_entry_t := DevEntry { is_subdevice : bool; dev_name : str }.

Definition conflicts (name : str) (dp : dev_entry_t) : bool :=
  if is_subdevice dp then strcmp_eq (dev_name dp) name else strncmp_eq (dev_name dp) name (length (dev_name dp)).

(** The result is whether there is a conflict, and the list [devs]. *)
Definition reserve_dev (name : str) (devs : list dev_entry_t) : bool * list dev_entry_t :=
  if existsb (conflicts name) devs then (true, devs)
  else if strncmp_eq name (lit "/dev/") 5 then
    (false, DevEntry (negb (length name =? 8)%nat) (if (8 <? length name)%nat then take 8 name else name) :: devs)
  else (false, devs).

(** ** Mounts of the host *)

(** A line: whether it shows a conflict *)
Definition mount_line (name : str) (rwall : bool) (buf : str) : option bool :=
  let '(s1, s2) := strsep buf 32 in
  if negb (strncmp_eq s1 (lit "/dev/") 5) then Some false
  else if strcmp_eq s1 name then (s2 ← s2; Some (strstr s2 (lit " rw")))
  else if strncmp_eq s1 name 8 && (length name <=? 8)%nat then
    s2 ← s2; Some (strstr s2 (lit " rw") && (strstr s2 (lit " hfs ") || rwall))
  else Some false.

Fixpoint mount_lines (fuel : nat) (name : str) (rwall : bool) (t : str) : option bool :=
  match fuel, t with
  | O, _ | _, [] => Some false
  | S fuel, _ =>
      let '(buf, t) := fgets 79 t in
      rw ← mount_line name rwall buf;
      if (rw : bool) then Some true else mount_lines fuel name rwall t
  end.

(** The contents of [/proc/mounts], if it can be opened *)
Definition linux_mount_check (mounts : option str) (name : str) (rwall : bool) : option bool :=
  match mounts with None => Some false | Some t => mount_lines (length t) name rwall t end.

(** ** Opening *)

Definition EROFS : Z := 30.
Definition EWOULDBLOCK : Z := 11.

(** The answers of the system: the [k]th [open64] with write access or not
    (descriptor or -1, [errno]), whether 16 bytes can be read at the start,
    and [flock]'s result and [errno] *)
Record host := Host {
  mounts : option str;
  open64 : nat -> bool -> Z * Z;
  readable : Z -> bool;
  flock : Z -> Z * Z
}.

(** The loop: the descriptor, and [!rw] unless it has failed; [ro] is
    [*ro_fallback]. *)
Fixpoint open_loop (fuel k : nat) (h : host) (cd silent ro rw : bool) : option (Z * option bool) :=
  match fuel with
  | O => None
  | S fuel =>
      let '(fd, errno) := open64 h k rw in
      let '(k, fd, rw) :=
        if (fd <? 0) && ((errno =? EROFS) && ro) then (S (S k), (open64 h (S k) false).1, false) else (S k, fd, rw) in
      if (fd <? 0) && negb silent then Some (-1, None)
      else if cd then Some (fd, Some (negb rw))
      else if (fd <? 0) || negb (readable h fd) then Some (-1, None)
      else if rw && (((flock h fd).1 <? 0) && ((flock h fd).2 =? EWOULDBLOCK)) then
        if ro then open_loop fuel k h cd silent ro false else Some (-1, None)
      else Some (fd, Some (negb rw))
  end.

(** The result, [*ro_fallback] if it is set, the reserved devices *)
Definition disk_open (h : host) (name : str) (flags : Z) (ro silent : bool) (devs : list dev_entry_t)
  : option (Z * option bool * list dev_entry_t) :=
  let rw := tst flags BF_ENABLE_WRITE in
  let rwall := tst flags BF_FORCE && rw in
  let cd := tst flags BF_CD_ROM in
  '(busy, devs) ←
    (if rw then
       let '(b, devs) := reserve_dev name devs in
       if (b : bool) then Some (true, devs) else m ← linux_mount_check (mounts h) name rwall; Some (m, devs)
     else Some (false, devs));
  if busy && negb ro then Some (-1, None, devs) else
  '(fd, r) ← open_loop 2 0 h cd silent ro (rw && negb busy);
  Some (fd, r, devs).

(** ** Reservations *)

Lemma strncmp_dev name : strncmp_eq name (lit "/dev/") 5 = true <-> lit "/dev/" `prefix_of` name.
Proof. rewrite <- (strncmp_prefix (lit "/dev/") name). unfold strncmp_eq. rewrite !bool_decide_eq_true. done. Qed.

(** Names reserved one after the other: those accepted, newest first *)
Fixpoint accepted (names : list str) : list str * list dev_entry_t :=
  match names with
  | [] => ([], [])
  | name :: names =>
      let '(acc, devs) := accepted names in
      let '(b, devs) := reserve_dev name devs in
      (if (b : bool) then acc else name :: acc, devs)
  end.

Definition entry (name : str) : dev_entry_t :=
  DevEntry (negb (length name =? 8)%nat) (if (8 <? length name)%nat then take 8 name else name).

Lemma accepted_devs names : (accepted names).2 = map entry (List.filter (fun n => strncmp_eq n (lit "/dev/") 5) (accepted names).1).
Proof.
  induction names as [|name names IH]; [done|]. cbn [accepted]. destruct (accepted names) as [acc devs]. cbn in IH. subst devs.
  unfold reserve_dev. destruct (existsb _ _); [done|].
  destruct (strncmp_eq name (lit "/dev/") 5) eqn:E; cbn [List.filter snd fst]; by rewrite ?E.
Qed.

(** [b] cannot be written as well as [a]: [a] is a whole device (five
    characters and three) and [b] on it, or [b] is the whole device of [a]. *)
Definition overlap (a b : str) : Prop :=
  lit "/dev/" `prefix_of` a /\ (length a = 8%nat /\ a `prefix_of` b \/ (8 < length a)%nat /\ take 8 a = b).

(** C18: However many volumes are opened for writing one after the other, no
    two accepted ones are a whole device and something on it, or the same
    whole device twice, in either order.  But a device with a longer name is
    remembered by its first eight characters only, so the same partition is
    accepted any number of times. *)
Theorem reserve_exclusive :
  (forall names, StronglySorted (fun b a => ~ overlap a b) (accepted names).1) /\
  (forall a n, lit "/dev/" `prefix_of` a -> (8 < length a)%nat -> (accepted (replicate n a)).1 = replicate n a).
Proof.
  split.
  - intros names. induction names as [|name names IH]; [constructor|]. cbn [accepted].
    pose proof (accepted_devs names) as Hd. destruct (accepted names) as [acc devs]. cbn [fst snd] in *. subst devs.
    unfold reserve_dev. destruct (existsb _ _) eqn:E; [exact IH|]. cut (StronglySorted (fun b a => ~ overlap a b) (name :: acc)); [by destruct (strncmp_eq name _ _)|].
    constructor; [exact IH|]. apply List.Forall_forall. intros a Ha (Hp & Ho).
    apply not_true_iff_false in E. apply E. apply existsb_exists. exists (entry a). split.
    + apply in_map, filter_In. split; [done|]. by apply strncmp_dev.
    + unfold entry, conflicts. cbn [is_subdevice dev_name]. destruct Ho as [[Hl Hpre]|[Hl Hb]].
      * rewrite Hl. cbn [Nat.eqb negb Nat.ltb Nat.leb]. by apply strncmp_prefix.
      * rewrite (proj2 (Nat.eqb_neq (length a) 8)), (proj2 (Nat.ltb_lt 8 (length a))) by lia. cbn [negb].
        rewrite Hb. unfold strcmp_eq. by apply bool_decide_eq_true.
  - intros a n Hp Hl. assert (Ha : accepted (replicate n a) = (replicate n a, replicate n (entry a))).
    { induction n as [|n IH]; [done|]. cbn [replicate accepted]. rewrite IH. unfold reserve_dev.
      destruct (existsb _ _) eqn:E.
      - apply existsb_exists in E as (d & Hd & Hc). apply list_elem_of_In, elem_of_replicate in Hd as [-> _].
        unfold entry, conflicts in Hc. cbn [is_subdevice dev_name] in Hc.
        rewrite (proj2 (Nat.eqb_neq (length a) 8)), (proj2 (Nat.ltb_lt 8 (length a))) in Hc by lia. cbn [negb] in Hc.
        unfold strcmp_eq in Hc. apply bool_decide_eq_true in Hc. apply (f_equal length) in Hc. rewrite length_take in Hc. lia.
      - apply strncmp_dev in Hp. by rewrite Hp. }
    by rewrite Ha.
Qed.

Lemma reserve_exclusive_witness :
  (accepted [lit "/dev/hda"; lit "/dev/hda3"; lit "/dev/hda3"; lit "/dev/hdb1"; lit "/dev/hdb"]).1 =
    [lit "/dev/hda3"; lit "/dev/hda3"; lit "/dev/hdb"] /\
  (accepted (replicate 2 (lit "/dev/hda3"))).1 = [lit "/dev/hda3"; lit "/dev/hda3"].
Proof.
  split; [vm_compute; reflexivity|]. apply (proj2 reserve_exclusive); [|cbn; lia]. by exists (lit "hda3").
Defined.

(** ** Mounts *)

(** A line of [/proc/mounts]: a device, and what follows the space *)
Definition mount_text (l : str * str) : str := l.1 ++ 32 :: l.2 ++ [10].

(** It fits the buffer. *)
Definition short_line (l : str * str) : Prop :=
  ~ In 32 l.1 /\ ~ In 10 l.1 /\ ~ In 10 l.2 /\ (length l.1 + length l.2 + 2 <= 79)%nat.

(** The device is [name] and writable, or a part of the disk [name] that is
    writable and holds HFS (anything, with [rwall]). *)
Definition mounted_rw (name : str) (rwall : bool) (l : str * str) : bool :=
  strncmp_eq l.1 (lit "/dev/") 5 &&
  (if strcmp_eq l.1 name then strstr (l.2 ++ [10]) (lit " rw")
   else (strncmp_eq l.1 name 8 && (length name <=? 8)%nat) &&
        (strstr (l.2 ++ [10]) (lit " rw") && (strstr (l.2 ++ [10]) (lit " hfs ") || rwall))).

Lemma mount_lines_spec name rwall ls : Forall short_line ls -> forall fuel, (length ls <= fuel)%nat ->
  mount_lines fuel name rwall (concat (map mount_text ls)) = Some (existsb (mounted_rw name rwall) ls).
Proof.
  induction 1 as [|[a r] ls (Ha & Hb & Hr & Hl) Hls IH]; intros [|fuel] Hf; cbn [length] in Hf; try lia; try done.
  cbn [map concat existsb]. unfold mount_text at 1. cbn [fst snd] in *.
  replace ((a ++ 32 :: r ++ [10]) ++ concat (map mount_text ls)) with ((a ++ 32 :: r) ++ 10 :: concat (map mount_text ls))
    by (rewrite <- !app_assoc; cbn; by rewrite <- !app_assoc).
  cbn [mount_lines]. destruct ((a ++ 32 :: r) ++ 10 :: _) as [|c t] eqn:E; [by destruct a|]. rewrite <- E.
  rewrite fgets_line; [|rewrite in_app_iff; cbn; intros [?|[?|?]]; [done|lia|done]|rewrite length_app; cbn; lia].
  assert (Em : mount_line name rwall ((a ++ 32 :: r) ++ [10]) = Some (mounted_rw name rwall (a, r))).
  { unfold mount_line. rewrite <- app_assoc. cbn [app]. rewrite (strsep_first a 32 (r ++ [10])) by done. unfold mounted_rw. cbn [fst snd].
    destruct (strncmp_eq a (lit "/dev/") 5); cbn [negb andb]; [|done]. destruct (strcmp_eq a name); [done|].
    destruct (strncmp_eq a name 8 && _); done. }
  rewrite Em. cbn [mbind option_bind]. destruct (mounted_rw name rwall (a, r)); cbn [orb]; [done|]. apply IH. lia.
Qed.

Lemma mount_text_length l : (0 < length (mount_text l))%nat.
Proof. unfold mount_text. rewrite length_app. cbn. lia. Qed.

Lemma mount_lines_fuel ls : (length ls <= length (concat (map mount_text ls)))%nat.
Proof.
  induction ls as [|l ls IH]; [done|]. cbn [map concat length]. rewrite length_app. pose proof (mount_text_length l). lia.
Qed.

(** ** The mount table as the host prints it *)

(** One mount: the device, the directory, the type of the file system, and
    the options, the first of which is [rw] or [ro].  [/proc/mounts] has a line
    for each, with blanks between the fields, commas between the options and
    two zeros at the end. *)
Record mount := Mount { m_dev : str; m_dir : str; m_type : str; m_opts : list str }.

Fixpoint comma_list (l : list str) : str :=
  match l with [] => [] | [o] => o | o :: l => o ++ 44 :: comma_list l end.

Definition mount_fields (m : mount) : str :=
  m_dir m ++ 32 :: m_type m ++ 32 :: comma_list (m_opts m) ++ lit " 0 0".
Definition mounts_text (ms : list mount) : str :=
  concat (map (fun m => m_dev m ++ 32 :: mount_fields m ++ [10]) ms).

(** The line fits the buffer; the host writes blanks and newlines inside a
    field in octal. *)
Definition short_mount (m : mount) : Prop := short_line (m_dev m, mount_fields m).

Definition writable (m : mount) : Prop := head (m_opts m) = Some (lit "rw").

(** The mount writes to what is opened as [name]: it is a writable mount of
    a device under [/dev/] that is [name] itself, or a part of the disk [name]
    (a name of eight characters, as [/dev/hda]) holding an [hfs] file system,
    or any file system if all of the disk is to be written. *)
Definition writes_to (name : str) (all : bool) (m : mount) : Prop :=
  writable m /\ lit "/dev/" `prefix_of` m_dev m /\
  (m_dev m = name \/
   length name = 8%nat /\ name `prefix_of` m_dev m /\ (m_type m = lit "hfs" \/ all = true)).

Lemma strstr_app a t b : strstr (a ++ t ++ b) t = true.
Proof.
  induction a as [|c a IH]; cbn [app strstr].
  - assert (H : strncmp_eq (t ++ b) t (length t) = true).
    { unfold strncmp_eq. by rewrite bool_decide_eq_true, take_app_length, take_ge. }
    destruct (t ++ b); cbn [strstr]; by rewrite H.
  - by rewrite IH, orb_true_r.
Qed.

Lemma rw_first l : head l = Some (lit "rw") -> exists o, comma_list l = lit "rw" ++ o.
Proof. destruct l as [|o [|o' l]]; [done| |]; intros [= ->]; [by exists []|by eexists]. Qed.

(** Concatenations and constructors associated to the right *)
Ltac app_normal := repeat (rewrite <- app_assoc || rewrite <- app_comm_cons); reflexivity.

(** The test of the code sees such a mount. *)
Lemma writes_to_seen name all m : writes_to name all m -> mounted_rw name all (m_dev m, mount_fields m) = true.
Proof.
  intros (Hw & Hd & Hn). destruct (rw_first _ Hw) as [o Ho]. unfold mounted_rw. cbn [fst snd].
  apply strncmp_dev in Hd. rewrite Hd. cbn [andb].
  assert (Hrw : strstr (mount_fields m ++ [10]) (lit " rw") = true).
  { unfold mount_fields. rewrite Ho.
    replace (_ ++ [10]) with ((m_dir m ++ 32 :: m_type m) ++ lit " rw" ++ (o ++ lit " 0 0" ++ [10]))
      by (change (lit " rw") with (32 :: lit "rw"); app_normal). apply strstr_app. }
  rewrite Hrw. destruct (strcmp_eq (m_dev m) name) eqn:E; [done|]. apply strcmp_false in E.
  destruct Hn as [?|(Hl & Hp & Ht)]; [done|]. apply (proj2 (strncmp_prefix name (m_dev m))) in Hp.
  assert (Hp8 : strncmp_eq (m_dev m) name 8 = true).
  { revert Hp. unfold strncmp_eq. rewrite Hl, !bool_decide_eq_true. done. }
  rewrite Hp8, Hl. cbn [Nat.leb andb]. destruct Ht as [Ht| ->]; [|by rewrite orb_true_r].
  unfold mount_fields. rewrite Ht.
  replace (_ ++ [10]) with (m_dir m ++ lit " hfs " ++ (comma_list (m_opts m) ++ lit " 0 0" ++ [10]))
    by (rewrite <- !app_assoc; cbn; by rewrite <- !app_assoc). by rewrite strstr_app.
Qed.

(** It sees no mount of another disk. *)
Lemma other_not_seen name all m :
  m_dev m <> name -> ~ name `prefix_of` m_dev m -> mounted_rw name all (m_dev m, mount_fields m) = false.
Proof.
  intros Hn Hp. unfold mounted_rw. cbn [fst snd]. rewrite (proj2 (strcmp_false _ _) Hn).
  assert (H : strncmp_eq (m_dev m) name 8 && (length name <=? 8)%nat = false); [|by rewrite H, andb_false_r].
  apply not_true_iff_false. intros [H1 H2%Nat.leb_le]%andb_prop. apply Hp.
  unfold strncmp_eq in H1. apply bool_decide_eq_true in H1. rewrite (take_ge name) in H1 by done.
  exists (drop 8 (m_dev m)). by rewrite <- H1, take_drop.
Qed.

(** The answer of the mount table *)
Lemma mount_check_mounts h name all ms :
  mounts h = Some (mounts_text ms) -> Forall short_mount ms ->
  exists b, linux_mount_check (mounts h) name all = Some b /\
    (b = false -> Forall (fun m => ~ writes_to name all m) ms) /\
    (Forall (fun m => m_dev m <> name /\ ~ name `prefix_of` m_dev m) ms -> b = false).
Proof.
  intros Em Hms. set (ls := map (fun m => (m_dev m, mount_fields m)) ms).
  assert (Et : mounts_text ms = concat (map mount_text ls)) by (unfold mounts_text, ls; by rewrite map_map).
  exists (existsb (mounted_rw name all) ls). split; [|split].
  - rewrite Em, Et. apply (mount_lines_spec name all ls); [|apply mount_lines_fuel].
    unfold ls. clear -Hms. induction Hms; by constructor.
  - intros Hb. apply list.Forall_forall. intros m Hm Hw%writes_to_seen. apply not_true_iff_false in Hb.
    apply Hb, existsb_exists. eexists. split; [|exact Hw]. unfold ls.
    apply (in_map (fun m => (m_dev m, mount_fields m))). by apply list_elem_of_In.
  - intros Hf. apply not_true_iff_false. intros (l & Hl & Hb)%existsb_exists.
    apply in_map_iff in Hl as (m & <- & Hm%list_elem_of_In). rewrite list.Forall_forall in Hf.
    destruct (Hf m Hm) as [H1 H2]. by rewrite other_not_seen in Hb.
Qed.

(** ** What is opened for writing *)

Lemma open_loop_rw fuel : forall k h cd silent ro rw fd, open_loop fuel k h cd silent ro rw = Some (fd, Some false) -> 0 <= fd ->
  rw = true /\ exists k', (open64 h k' true).1 = fd /\
    (cd = false -> readable h fd = true /\ ~ ((flock h fd).1 < 0 /\ (flock h fd).2 = EWOULDBLOCK)).
Proof.
  induction fuel as [|fuel IH]; intros k h cd silent ro rw fd E Hfd; [done|]. cbn [open_loop] in E.
  destruct (open64 h k rw) as [f e] eqn:Eo.
  destruct (if (f <? 0) && _ then _ else _) as [[k1 fd1] rw1] eqn:E1.
  assert (Hrw : rw1 = true -> rw = true /\ fd1 = f) by (destruct (_ && _) in E1; injection E1; intros; subst; [done|by split]).
  destruct ((fd1 <? 0) && _); [injection E; intros; lia|]. destruct cd.
  { injection E as -> Er. destruct rw1; [|done]. destruct (Hrw eq_refl) as [-> ->]. split; [done|]. exists k. rewrite Eo. by split. }
  destruct (_ || _) eqn:Er; [injection E; intros; lia|]. apply orb_false_iff in Er as [_ Er%negb_false_iff].
  destruct (rw1 && _) eqn:El.
  - destruct ro; [|injection E; intros; lia]. apply IH in E as [? _]; done.
  - injection E as -> Er1. destruct rw1; [|done]. destruct (Hrw eq_refl) as [-> ->]. split; [done|]. exists k. rewrite Eo. split; [done|].
    intros _. split; [done|]. intros [Hf He]. cbn [andb] in El. rewrite He, Z.eqb_refl in El. by rewrite (proj2 (Z.ltb_lt _ _) Hf) in El.
Qed.

(** Without write access the loop is left in the first turn. *)
Lemma open_loop_ends k h cd silent ro rw : is_Some (open_loop 2 k h cd silent ro rw).
Proof.
  assert (H : forall k, is_Some (open_loop 1 k h cd silent ro false)).
  { clear. intros k. cbn [open_loop]. destruct (open64 h k false) as [f e]. destruct (if _ && _ then _ else _) as [[k1 fd1] rw1] eqn:E.
    assert (rw1 = false) as -> by (destruct (_ && _) in E; congruence). cbn [andb]. by repeat case_match. }
  cbn [open_loop]. destruct (open64 h k rw) as [f e]. destruct (if _ && _ then _ else _) as [[k1 fd1] rw1].
  destruct (_ && negb silent); [done|]. destruct cd; [done|]. destruct (_ || _); [done|]. destruct (rw1 && _); [|done].
  destruct ro; [apply H|done].
Qed.

(** C19: On a host whose [/proc/mounts] can be read and has lines that fit the
    buffer, opening a disk always comes to a result.  When it ends with a
    descriptor that is not marked as read-only, writing was asked for, the
    device has been reserved now and was in conflict with none before, no
    mount of the host writes to it ([writes_to]: a writable mount of the
    device itself, or of an HFS part of the disk, or of any part if all of the
    disk is forced writable), and the descriptor was opened for writing; if it is
    not a CD, sixteen bytes could be read and it was not locked by another
    process (a CD is opened for [ioctl]s and neither is tried).  Conversely
    write access is given when it is asked for, the device is not reserved,
    no mount is of the device or of a part of it, and the host opens it for
    writing and, unless it is a CD, lets it be read and locked. *)
Theorem disk_open_spec h name flags ro silent devs ms :
  mounts h = Some (mounts_text ms) -> Forall short_mount ms ->
  (exists fd r devs', disk_open h name flags ro silent devs = Some (fd, r, devs') /\
    (0 <= fd -> r = Some false ->
     tst flags BF_ENABLE_WRITE = true /\ reserve_dev name devs = (false, devs') /\
     Forall (fun m => ~ writes_to name (tst flags BF_FORCE) m) ms /\
     exists k, (open64 h k true).1 = fd /\
       (tst flags BF_CD_ROM = false -> readable h fd = true /\ ~ ((flock h fd).1 < 0 /\ (flock h fd).2 = EWOULDBLOCK)))) /\
  (forall devs', let fd := (open64 h 0 true).1 in
     tst flags BF_ENABLE_WRITE = true -> reserve_dev name devs = (false, devs') ->
     Forall (fun m => m_dev m <> name /\ ~ name `prefix_of` m_dev m) ms ->
     0 <= fd -> tst flags BF_CD_ROM = true \/ readable h fd = true /\ 0 <= (flock h fd).1 ->
     disk_open h name flags ro silent devs = Some (fd, Some false, devs')).
Proof.
  intros Em Hms. destruct (mount_check_mounts h name (tst flags BF_FORCE) ms Em Hms) as (b & Eb & Hb1 & Hb2).
  unfold disk_open. cbv zeta. split.
  - destruct (tst flags BF_ENABLE_WRITE) eqn:Ew.
    2: { cbn [mbind option_bind]. cbn [andb].
         destruct (open_loop_ends 0 h (tst flags BF_CD_ROM) silent ro false) as [[fd r] El]. rewrite El. exists fd, r, devs. split; [done|].
         intros Hfd ->. by apply open_loop_rw in El as [? _]. }
    rewrite andb_true_r. destruct (reserve_dev name devs) as [c devs1] eqn:Er. rewrite Eb. cbn [mbind option_bind].
    assert (E : (if c then Some (true, devs1) else Some (b, devs1)) = Some (c || b, devs1)) by by destruct c.
    rewrite E. cbn [mbind option_bind]. set (busy := c || b). destruct (busy && negb ro); [by exists (-1), None, devs1|].
    destruct (open_loop_ends 0 h (tst flags BF_CD_ROM) silent ro (true && negb busy)) as [[fd r] El]. rewrite El.
    exists fd, r, devs1. split; [done|]. intros Hfd ->. apply open_loop_rw in El as [Hb Hk]; [|done].
    apply negb_true_iff, orb_false_iff in Hb as [-> ->]. split; [done|]. split; [done|]. split; [by apply Hb1|exact Hk].
  - intros devs' Ew Er Hf Hfd Hrd. rewrite Ew, Er, andb_true_r, Eb, (Hb2 Hf). cbn [mbind option_bind andb negb open_loop].
    destruct (open64 h 0 true) as [fd e]. cbn [fst] in *.
    assert (Hge : (fd <? 0) = false) by (by apply Z.ltb_ge). rewrite !Hge. cbn [andb]. rewrite !Hge. cbn [andb orb].
    destruct (tst flags BF_CD_ROM); [done|]. destruct Hrd as [?|[-> Hl]]; [done|]. cbn [negb].
    by rewrite (proj2 (Z.ltb_ge _ 0) Hl).
Qed.

(** ** A host with three mounts *)

Definition ex_mounts : list mount :=
  [Mount (lit "/dev/sda1") (lit "/") (lit "ext3") [lit "rw"; lit "noatime"];
   Mount (lit "proc") (lit "/proc") (lit "proc") [lit "rw"];
   Mount (lit "/dev/hda9") (lit "/mnt") (lit "hfs") [lit "ro"]].
Definition ex_host : host := Host (Some (mounts_text ex_mounts)) (fun _ _ => (5, 0)) (fun _ => true) (fun _ => (0, 0)).

Lemma disk_open_spec_witness :
  (exists devs, disk_open ex_host (lit "/dev/hda") BF_ENABLE_WRITE true false [] = Some (5, Some false, devs) /\
     reserve_dev (lit "/dev/hda") [] = (false, devs) /\
     Forall (fun m => ~ writes_to (lit "/dev/hda") false m) ex_mounts) /\
  disk_open ex_host (lit "/dev/sdb") BF_ENABLE_WRITE false false [] =
    Some (5, Some false, [DevEntry false (lit "/dev/sdb")]) /\
  disk_open ex_host (lit "/dev/sda1") BF_ENABLE_WRITE true false [] =
    Some (5, Some true, [DevEntry true (lit "/dev/sda")]).
Proof.
  assert (Hs : Forall short_mount ex_mounts).
  { repeat constructor; cbn; lia. }
  split; [|split; [|vm_compute; reflexivity]].
  - destruct (disk_open_spec ex_host (lit "/dev/hda") BF_ENABLE_WRITE true false [] ex_mounts eq_refl Hs) as [(fd & r & devs & E & H) _].
    assert (E2 : disk_open ex_host (lit "/dev/hda") BF_ENABLE_WRITE true false [] = Some (5, Some false, [DevEntry false (lit "/dev/hda")]))
      by (vm_compute; reflexivity).
    rewrite E in E2. injection E2 as -> -> ->. exists [DevEntry false (lit "/dev/hda")]. split; [exact E|].
    destruct (H ltac:(lia) eq_refl) as (_ & H1 & H2 & _). split; [exact H1|exact H2].
  - apply (disk_open_spec ex_host (lit "/dev/sdb") BF_ENABLE_WRITE false false [] ex_mounts eq_refl Hs).
    + reflexivity.
    + reflexivity.
    + repeat constructor; (discriminate || (intros [k Hk]; discriminate Hk)).
    + cbn. lia.
    + right. split; [reflexivity|cbn; lia].
Defined.

End DiskOpen.
