(* ===== verification/ResMgr.v ===== *)
(** * Resource manager ([src/main/res_manager.c], [src/main/cmdline_opts.h])

    The configuration: keys with arguments, from files with variables,
    conditionals and includes, and from the command line.  Printing is left
    out; [fatal] and [exit] end the program. *)

From Stdlib Require Import String.
From S2P Require Import Prelude CString.

Module ResMgr.
Import CString.

(** ** Results

    [Exit]: the program ends with a code; [Crash]: an access through [NULL]
    or outside of an array; [Fuel]: a loop is still running. *)
Inductive outcome (A : Type) := Done (a : A) | Exit (code : Z) | Crash | Fuel.
#[global] Arguments Done {A} a.
#[global] Arguments Exit {A} code.
#[global] Arguments Crash {A}.
#[global] Arguments Fuel {A}.

#[global] Instance outcome_bind : MBind outcome := fun A B f x =>
  match x with Done a => f a | Exit c => Exit c | Crash => Crash | Fuel => Fuel end.

Definition of_opt {A} (o : option A) : outcome A := match o with Some a => Done a | None => Crash end.

Definition fatal {A} : outcome A := Exit 1.

(** ** Resources *)

Record res_t := Res { key : str; dargs : list str }.

(** [head.first_res] *)
Definition table := list res_t.

Fixpoint find_res (k : str) (index : nat) (t : table) : option res_t :=
  match t with
  | [] => None
  | r :: t => if strcmp_eq (key r) k then match index with O => Some r | S i => find_res k i t end else find_res k index t
  end.

Definition res_present (k : str) (t : table) : bool := bool_decide (is_Some (find_res k 0 t)).

Definition get_str_res_ind (k : str) (index argnum : nat) (t : table) : option str :=
  res ← find_res k index t; dargs res !! argnum.

Definition get_str_res (k : str) (t : table) : option str := get_str_res_ind k 0 0 t.

(** ** Expansion of variables

    [strstr( src, "${" )]: the text before it, and after it *)
Fixpoint find_dollar (s : str) : option (str * str) :=
  if strncmp_eq (lit "${") s 2 then Some ([], drop 2 s) else
  match s with
  | [] => None
  | c :: r => '(a, b) ← find_dollar r; Some (c :: a, b)
  end.

(** The text before the variable, its name, the text behind the brace *)
Definition find_var (s : str) : option (str * str * str) :=
  '(a, b) ← find_dollar s;
  match strsep b 125 with (name, Some r) => Some (a, name, r) | (_, None) => None end.

Section Expand.
Context (t : table).

(** The loop over the arguments from [i] on; [rec] is [expand] one level
    deeper. *)
Fixpoint expand_args (rec : list Z -> nat -> str -> nat -> option (list Z)) (args : list str) (i : nat)
    (buf : list Z) (dest size : nat) : option (list Z) :=
  match args with
  | [] => Some buf
  | e :: args =>
      buf ← (if (i =? 0)%nat then Some buf else strncat0 buf dest (lit " ") size);
      l ← strlen buf dest;
      buf ← rec buf (dest + l)%nat e (size - l)%nat;
      expand_args rec args (S i) buf dest size
  end.

(** The loop over the variables of [src] *)
Fixpoint expand_loop (rec : list Z -> nat -> str -> nat -> option (list Z)) (fuel : nat)
    (buf : list Z) (dest : nat) (src : str) (size : nat) : option (list Z) :=
  match fuel with
  | O => None
  | S fuel =>
      match find_var src with
      | None => strncat0 buf dest src size
      | Some (pre, s, src) =>
          buf ← strncat0 buf dest pre size;
          match find_res s 0 t with
          | Some (Res _ (e :: es)) =>
              buf ← expand_args rec (e :: es) 0 buf dest size;
              expand_loop rec fuel buf dest src size
          | _ =>
              buf ← strncat0 buf dest (lit "${") size;
              buf ← strncat3 buf dest s (lit "}") size;
              expand_loop rec fuel buf dest src size
          end
      end
  end.

(** [expand( buf + dest, src, size )] with [nesting] at [10 - n] *)
Fixpoint expand (n : nat) (buf : list Z) (dest : nat) (src : str) (size : nat) : option (list Z) :=
  buf ← setc buf dest 0;
  match n with
  | O => strncat0 buf dest src size
  | S n => expand_loop (expand n) (S (length src)) buf dest src size
  end.

(** Expansion into a local array; what it holds before does not matter. *)
Definition expand_buf (size : nat) (src : str) : option str :=
  buf ← expand 10 (replicate size 0) 0 src size; Some (cstr buf).
End Expand.

(** ** Fields

    The state of the quotes ends or begins with each quote; quotes, white
    space and commas outside of quotes become zeros, and so does everything
    from a hash on. *)
Definition is_sep (c : Z) : bool := bool_decide (c ∈ [9; 10; 13; 44; 32]).

Fixpoint zero_out (cflag1 cflag2 : bool) (s : str) : str :=
  match s with
  | [] => []
  | c :: s =>
      let '(cflag1, c) := if negb cflag2 && (c =? 34) then (negb cflag1, 0) else (cflag1, c) in
      let '(cflag2, c) := if negb cflag1 && (c =? 39) then (negb cflag2, 0) else (cflag2, c) in
      if cflag1 || cflag2 then c :: zero_out cflag1 cflag2 s
      else if c =? 35 then 0 :: replicate (length s) 0
      else (if is_sep c then 0 else c) :: zero_out cflag1 cflag2 s
  end.

(** The field and what is behind it *)
Fixpoint next_field (s : str) : option (str * str) :=
  match s with
  | [] => None
  | c :: r => if c =? 0 then next_field r else Some (cstr s, drop (length (cstr s)) s)
  end.

Fixpoint fields_loop (fuel : nat) (s : str) : list str :=
  match fuel with
  | O => []
  | S fuel => match next_field s with None => [] | Some (f, s) => f :: fields_loop fuel s end
  end.

(** All fields that [next_field] gives one after the other *)
Definition fields (s : str) : list str := fields_loop (length s) s.

(** ** Keywords *)

Record parser_state_t := PState { in_if : Z; dummy_if : Z; skipping : Z }.

Definition st0 : parser_state_t := PState 0 0 0.

Definition keyw_do_if (st : parser_state_t) (flag : bool) : parser_state_t :=
  if skipping st =? 0 then PState (in_if st + 1) (dummy_if st) (if flag then 0 else 1)
  else PState (in_if st) (dummy_if st + 1) (skipping st + 1).

(** [next_field_] for each field, until one has [p] *)
Fixpoint any_field (t : table) (size : nat) (p : str -> bool) (fs : list str) : option bool :=
  match fs with
  | [] => Some false
  | f :: fs => s ← expand_buf t size f; if p s then Some true else any_field t size p fs
  end.

Definition ifeq_flag (t : table) (fs : list str) : option bool :=
  match fs with
  | [] => Some false
  | f :: fs => s1 ← expand_buf t 256 f; any_field t 256 (strcmp_eq s1) fs
  end.

(** [s && s\[0\] && s\[0\] != '$'] *)
Definition ifdef_flag (t : table) (fs : list str) : option bool :=
  match fs with
  | [] => Some false
  | f :: _ => s ← expand_buf t 256 f; Some match s with [] => false | c :: _ => negb (c =? 36) end
  end.

Definition endif (st : parser_state_t) : parser_state_t :=
  if dummy_if st =? 0 then PState (in_if st - 1) (dummy_if st) 0
  else PState (in_if st) (dummy_if st - 1) (skipping st - 1).

Definition keyw_endif (t : table) (fs : list str) (st : parser_state_t) : option parser_state_t :=
  e ← any_field t 256 (fun s => strncmp_eq s (lit "else") 4) fs;
  Some (if (e : bool) then
          if dummy_if st =? 0 then PState (in_if st) (dummy_if st) (if skipping st =? 0 then 1 else 0) else st
        else endif st).

Inductive keyword := Kinclude | Kecho | Kfail | Kifeq | Kifempty | Kifdef | Kendif.

(** [keywords]: [skip_interp], the word, the action *)
Definition keywords : list (bool * str * keyword) :=
  [(false, lit "include", Kinclude); (false, lit "echo", Kecho); (false, lit "fail", Kfail); (true, lit "ifeq", Kifeq);
   (true, lit "ifempty", Kifempty); (true, lit "ifndef", Kifempty); (true, lit "ifdef", Kifdef); (true, lit "}", Kendif)].

Fixpoint find_keyword (ks : list (bool * str * keyword)) (skip : bool) (field : str) : option keyword :=
  match ks with
  | [] => None
  | (si, w, k) :: ks => if (negb skip || si) && strcmp_eq field w then Some k else find_keyword ks skip field
  end.

Definition kAddHead : Z := 1.
Definition kAddTail : Z := 2.
Definition kAddSecure : Z := 4.

Definition multi_res : list str :=
  map lit ["netdev"; "blkdev"; "symfile"; "pseudofile"; "pseudofile_"; "@pseudofile"; "remap_key"; "remap_xkey"; "remap_vnckey";
           "macos_rompath"; "macos_rompath_"; "allow"; "deny"; "drivers"; "scsi_dev"; "pci_proxy_device"]%string.

(** [keyw_include], given what it does with a file *)
Definition keyw_include (include : str -> table -> outcome table) (t : table) (fs : list str) : outcome table :=
  match fs with [] => Done t | f :: _ => s ← of_opt (expand_buf t 128 f); include s t end.

Definition run_keyword (include : option (str -> table -> outcome table)) (k : keyword) (fs : list str)
    (st : parser_state_t) (t : table) : outcome (table * parser_state_t) :=
  match k with
  | Kinclude =>
      match include with
      | None => fatal
      | Some include => t ← keyw_include include t fs; Done (t, st)
      end
  | Kecho => Done (t, st)
  | Kfail => Exit 1
  | Kifeq => b ← of_opt (ifeq_flag t fs); Done (t, keyw_do_if st b)
  | Kifempty => b ← of_opt (ifdef_flag t fs); Done (t, keyw_do_if st (negb b))
  | Kifdef => b ← of_opt (ifdef_flag t fs); Done (t, keyw_do_if st b)
  | Kendif => st ← of_opt (keyw_endif t fs st); Done (t, st)
  end.

(** ** Lines *)

Definition expand_arg (t : table) (f : str) : option str := expand_buf t 256 f.

(** A resource line: the result of [do_add_res], the table *)
Definition add_line (field : str) (fs : list str) (how : Z) (t : table) : outcome (Z * table) :=
  if negb (strcmp_eq (drop (length field - 1) field) (lit ":")) || (length field =? 1)%nat then Done (1, t) else
  field ← of_opt (expand_buf t 256 (take (length field - 1) field));
  if res_present field t && negb (tst how kAddHead) && negb (bool_decide (field ∈ multi_res)) then Done (0, t) else
  args ← of_opt (mapM (expand_arg t) fs);
  Done (0, if tst how kAddTail then t ++ [Res field args] else Res field args :: t).

(** [do_add_res]: what it returns, the table, the state *)
Definition do_add_res (include : option (str -> table -> outcome table)) (s : str) (how : Z) (st : parser_state_t) (t : table)
  : outcome (Z * table * parser_state_t) :=
  match fields (zero_out false false s) with
  | [] => Done (0, t, st)
  | field :: fs =>
      match (if tst how kAddSecure then None else find_keyword keywords (negb (skipping st =? 0)) field) with
      | Some k => '(t, st) ← run_keyword include k fs st t; Done (0, t, st)
      | None =>
          if negb (skipping st =? 0) then Done (0, t, st)
          else '(r, t) ← add_line field fs how t; Done (r, t, st)
      end
  end.

(** ** Files *)

(** A backslash in front of the end of the line joins the next line. *)
Fixpoint join (fuel : nat) (buf t : str) : outcome (str * str) :=
  match fuel with
  | O => Fuel
  | S fuel =>
      let n := length buf in
      if (4095 <=? n)%nat || (n <? 2)%nat || negb (bool_decide (buf !! (n - 2)%nat = Some 92)) then Done (buf, t) else
      let buf := <[(n - 2)%nat := 32]> buf in
      match t with
      | [] => Done (buf, [])
      | _ => let '(l, t) := fgets (4096 - n) t in join fuel (take (n - 1) buf ++ cstr l) t
      end
  end.

Fixpoint parse_lines (include : option (str -> table -> outcome table)) (fuel : nat) (text : str) (how : Z)
    (st : parser_state_t) (t : table) : outcome (table * parser_state_t) :=
  match fuel with
  | O => Fuel
  | S fuel =>
      let '(l, text') := fgets 4095 text in
      let buf := cstr l in
      if bool_decide (buf = []) then Done (t, st) else
      '(buf, text') ← join (S (length text')) buf text';
      '(r, t, st) ← do_add_res include buf how st t;
      if (r =? 0 : bool) then parse_lines include fuel text' how st t else fatal
  end.

Section Files.
(** The files that can be opened *)
Context (file : str -> option str).

(** [parse_res_file], with [depth] at [7 - d] *)
Fixpoint parse_res_file (d : nat) (fname : str) (how : Z) (t : table) : outcome table :=
  match file fname with
  | None => fatal
  | Some text =>
      '(t, st) ←
        parse_lines (match d with O => None | S d => Some (fun fname t => parse_res_file d fname kAddTail t) end)
          (S (length text)) text how st0 t;
      if negb (in_if st =? 0) || negb (dummy_if st =? 0) then fatal else Done t
  end.

(** [do_add_res] outside of a file *)
Definition add_str (s : str) (how : Z) (t : table) : outcome table :=
  '(_, t, _) ← do_add_res (Some (fun fname t => parse_res_file 6 fname kAddTail t)) s how st0 t; Done t.

(** [strcspn( s, "\n;" )]: the text up to there, the rest *)
Fixpoint split_res (s : str) : str * str :=
  match s with
  | [] => ([], [])
  | c :: r => if (c =? 10) || (c =? 59) then ([], s) else let '(a, b) := split_res r in (c :: a, b)
  end.

Fixpoint add_multiple_res (fuel : nat) (res_buf : str) (how : Z) (t : table) : outcome table :=
  match fuel with
  | O => Fuel
  | S fuel =>
      match res_buf with
      | [] => Done t
      | _ :: r =>
          match split_res res_buf with
          | ([], _) => add_multiple_res fuel r how t
          | (copy, rest) => t ← add_str copy how t; add_multiple_res fuel rest how t
          end
      end
  end.

Definition res_line (k v : str) : str := k ++ lit ": " ++ v.

(** The table, and [get_str_res( key )] *)
Definition add_res (k v : str) (t : table) : outcome (table * option str) :=
  t ← add_str (res_line k v) (kAddHead .| kAddSecure) t; Done (t, get_str_res k t).

Definition default_res (k v : str) (t : table) : outcome table := add_str (res_line k v) kAddTail t.
End Files.

(** ** Values *)

Definition strpbrk (s : str) (cs : str) : bool := existsb (fun c => bool_decide (c ∈ cs)) s.

Definition get_bool_res (k : str) (t : table) : Z :=
  match get_str_res k t with
  | None => -1
  | Some s => if strpbrk s (lit "yY1tT") then 1 else if strpbrk s (lit "nN0fF") then 0 else -1
  end.

(** The value of a digit in base 16 *)
Definition digit (c : Z) : option Z :=
  if (48 <=? c) && (c <=? 57) then Some (c - 48)
  else if (97 <=? c) && (c <=? 102) then Some (c - 87)
  else if (65 <=? c) && (c <=? 70) then Some (c - 55)
  else None.

Fixpoint digits (base v : Z) (s : str) : Z :=
  match s with
  | [] => v
  | c :: s => match digit c with Some d => if d <? base then digits base (v * base + d) s else v | None => v end
  end.

Definition is_space (c : Z) : bool := (c =? 32) || ((9 <=? c) && (c <=? 13)).

Fixpoint skip_space (s : str) : str := match s with c :: r => if is_space c then skip_space r else s | [] => [] end.

Definition LONG_MAX : Z := 2 ^ 31 - 1.
Definition LONG_MIN : Z := - 2 ^ 31.

(** [strtol]: white space, a sign, [0x] in front of a hexadecimal digit in
    base 16, and the digits, clamped to [long] *)
Definition strtol (s : str) (base : Z) : Z :=
  let s := skip_space s in
  let '(neg, s) := match s with c :: r => if c =? 45 then (true, r) else if c =? 43 then (false, r) else (false, s) | [] => (false, s) end in
  let s := match s with
           | 48 :: x :: d :: r => if (base =? 16) && ((x =? 120) || (x =? 88)) && bool_decide (is_Some (digit d)) then d :: r else s
           | _ => s
           end in
  let v := digits base 0 s in
  Z.max LONG_MIN (Z.min LONG_MAX (if neg : bool then - v else v)).

Definition get_numeric_res (k : str) (t : table) : Z :=
  match get_str_res k t with None => -1 | Some s => strtol s (if strncmp_eq (lit "0x") s 2 then 16 else 10) end.

(** ** Options of a resource *)

(** [opt_entry_t] *)
Definition opt_entry_t : Type := str * Z.

(** The length of an option: up to a space or a tab *)
Fixpoint opt_len (s : str) : nat :=
  match s with [] => O | c :: s => if (c =? 32) || (c =? 9) then O else S (opt_len s) end.

Fixpoint find_opt (s : str) (n : nat) (opts : list opt_entry_t) : option Z :=
  match opts with
  | [] => None
  | (name, flag) :: opts => if strncmp_eq s name n then Some flag else find_opt s n opts
  end.

(** [strchr( s, '-' )] *)
Fixpoint next_dash (s : str) : option str :=
  match s with [] => None | c :: r => if c =? 45 then Some s else next_dash r end.

Fixpoint parse_opt (fuel : nat) (s : str) (opts : list opt_entry_t) (flags : Z) : outcome Z :=
  match fuel with
  | O => Fuel
  | S fuel =>
      match s with
      | [] => Done flags
      | _ :: r =>
          let flags := match find_opt s (opt_len s) opts with Some f => flags .| f | None => flags end in
          match next_dash r with None => Done flags | Some s => parse_opt fuel s opts flags end
      end
  end.

Fixpoint parse_opt_args (args : list str) (opts : list opt_entry_t) (flags : Z) : outcome Z :=
  match args with
  | [] => Done flags
  | opt :: args =>
      if strncmp_eq opt (lit "${") 2 then parse_opt_args args opts flags
      else flags ← parse_opt (S (length opt)) opt opts flags; parse_opt_args args opts flags
  end.

Definition parse_res_options (k : str) (index first_arg : nat) (opts : list opt_entry_t) (t : table) : outcome Z :=
  match find_res k index t with None => Done 0 | Some r => parse_opt_args (drop first_arg (dargs r)) opts 0 end.
(** ** The command line

    The results of [getopt_long]: a character or one of the codes below *)
Definition optRamSize : Z := 1000.
Definition optVTNum : Z := 1001.
Definition optSessNum : Z := 1002.
Definition optTest : Z := 1003.
Definition optKeyConfig : Z := 1004.
Definition optElfImage : Z := 1005.
Definition optDataDir : Z := 1006.
Definition optLibDir : Z := 1007.
Definition optAddRes : Z := 1008.
Definition optKernel : Z := 1009.
Definition optLinux : Z := 1010.
Definition optOldworld : Z := 1011.
Definition optNewworld : Z := 1012.
Definition optConfig : Z := 1013.
Definition optLoadOnly : Z := 1014.
Definition optDetachTTY : Z := 1015.
Definition optCDBoot : Z := 1016.
Definition optAltConfig : Z := 1017.
Definition optZapNVRAM : Z := 1018.
Definition optNoAutoBoot : Z := 1019.

(** [opt]: name, [has_arg], code *)
Definition opt : list (str * bool * Z) :=
  [(lit "session", true, optSessNum); (lit "alt", false, optAltConfig); (lit "config", true, optConfig);
   (lit "loadonly", false, optLoadOnly); (lit "exact", false, 101);
   (lit "help", false, 104); (lit "ram", true, optRamSize); (lit "debug", false, 100); (lit "vt", true, optVTNum);
   (lit "detach", false, optDetachTTY); (lit "cdboot", false, optCDBoot);
   (lit "zapnvram", false, optZapNVRAM); (lit "noautoboot", false, optNoAutoBoot);
   (lit "datadir", true, optDataDir); (lit "libdir", true, optLibDir);
   (lit "test", false, optTest); (lit "keyconfig", false, optKeyConfig);
   (lit "linux", false, optLinux); (lit "oldworld", false, optOldworld); (lit "newworld", false, optNewworld);
   (lit "classic", false, optNewworld); (lit "macos", false, optNewworld); (lit "osx", false, 88);
   (lit "elfimage", true, optElfImage); (lit "kernel", true, optKernel); (lit "res", true, optAddRes)].

Inductive res_type := kResLine | kNumericRes | kParseRes | kStringRes.

Record opt_res_entry := OrEntry { opt_code : Z; root_only : bool; or_type : res_type; or_str : str }.

Definition or_table : list opt_res_entry :=
  [OrEntry optAddRes true kResLine [];
   OrEntry optLoadOnly false kParseRes (lit "load_only: 1");
   OrEntry optRamSize false kNumericRes (lit "ram_size");
   OrEntry optVTNum false kNumericRes (lit "vt");
   OrEntry optSessNum false kNumericRes (lit "session");
   OrEntry optAltConfig false kParseRes (lit "altconfig: 1");
   OrEntry optConfig false kStringRes (lit "config");
   OrEntry optTest false kParseRes (lit "boot_method: elf; elf_image: ${lib}/bin/selftest; no_video: 1");
   OrEntry optKeyConfig false kParseRes (lit "boot_method: elf; elf_image: ${lib}/bin/keyremap");
   OrEntry optLinux false kParseRes (lit "boot_type: linux");
   OrEntry optOldworld false kParseRes (lit "boot_type: oldworld");
   OrEntry optNewworld false kParseRes (lit "boot_type: newworld");
   OrEntry 88 false kParseRes (lit "boot_type: osx");
   OrEntry optDataDir true kStringRes (lit "data");
   OrEntry optLibDir true kStringRes (lit "lib");
   OrEntry optElfImage true kParseRes (lit "boot_type: elf");
   OrEntry optElfImage true kStringRes (lit "elf_image");
   OrEntry optKernel true kStringRes (lit "kernel");
   OrEntry 120 true kParseRes (lit "no_moldeb: 1; debug: 1; debug_stop: 1");
   OrEntry 100 true kParseRes (lit "debug: 1; debug_stop: 1");
   OrEntry 97 true kParseRes (lit "allow_kver_mismatch: 1");
   OrEntry 101 false kParseRes (lit "allow_kver_mismatch: 0");
   OrEntry optDetachTTY false kParseRes (lit "detach_tty: 1");
   OrEntry optCDBoot false kParseRes (lit "cdboot: -cdboot");
   OrEntry optZapNVRAM false kParseRes (lit "zap_nvram: true");
   OrEntry optNoAutoBoot false kParseRes (lit "autoboot: false")].

(** [strchr( s, '=' ) + 1] *)
Fixpoint after_eq (s : str) : option str :=
  match s with [] => None | c :: s => if c =? 61 then Some s else after_eq s end.

Fixpoint find_long (s : str) (os : list (str * bool * Z)) : option (bool * Z) :=
  match os with
  | [] => None
  | (name, has_arg, val) :: os => if strncmp_eq name s (length name) then Some (has_arg, val) else find_long s os
  end.

(** The [getopt_long] for systems without one; [getopt] is that of the
    system.  The result (-1 at the end), [optarg] and [optind]. *)
Definition getopt_long (getopt : list str -> nat -> Z * option str * nat) (argv : list str) (optind : nat) : Z * option str * nat :=
  match argv !! optind with
  | None => getopt argv optind
  | Some s =>
      if strcmp_eq (lit "--") s then (-1, None, S optind)
      else if negb (strncmp_eq (lit "--") s 2) then getopt argv optind
      else match find_long (drop 2 s) opt with
           | None => (63, None, S optind)
           | Some (has_arg, val) =>
               if negb has_arg then (val, None, S optind)
               else match after_eq (drop 2 s) with
                    | Some a => (val, Some a, S optind)
                    | None => (val, argv !! S (S optind), S (S optind))
                    end
           end
  end.

(** [sprintf( buf, "%d", val )] *)
Fixpoint dec_digits (fuel : nat) (v : Z) : str :=
  match fuel with
  | O => []
  | S fuel => (if v <? 10 then [] else dec_digits fuel (v / 10)) ++ [48 + v mod 10]
  end.
Definition dec (v : Z) : str := if v <? 0 then 45 :: dec_digits 10 (- v) else dec_digits 10 v.

Section Options.
Context (file : str -> option str) (in_security_mode : bool).

Definition add_numeric_res (k : str) (v : Z) (t : table) : outcome table := '(t, _) ← add_res file k (dec v) t; Done t.

(** One entry of [or_table] whose code matches *)
Definition use_option (e : opt_res_entry) (optarg : option str) (t : table) : outcome table :=
  match or_type e, optarg with
  | kResLine, None => Crash
  | kResLine, Some a => add_multiple_res file (S (length a)) a kAddHead t
  | kNumericRes, Some a => add_numeric_res (or_str e) (strtol a 10) t
  | kStringRes, Some a => '(t, _) ← add_res file (or_str e) a t; Done t
  | kParseRes, _ => add_multiple_res file (S (length (or_str e))) (or_str e) kAddHead t
  | _, None => Done t
  end.

(** The entries with the code [c], up to one only for root *)
Fixpoint use_options (es : list opt_res_entry) (c : Z) (optarg : option str) (t : table) : outcome table :=
  match es with
  | [] => Done t
  | e :: es =>
      if negb (opt_code e =? c) then use_options es c optarg t
      else if root_only e && in_security_mode then Done t
      else t ← use_option e optarg t; use_options es c optarg t
  end.

(** The results of [getopt_long] before -1 *)
Fixpoint parse_options (is_mol : bool) (codes : list (Z * option str)) (t : table) : outcome table :=
  match codes with
  | [] => Done t
  | (c, optarg) :: codes =>
      t ← use_options or_table c optarg t;
      let is_digit := (48 <=? c) && (c <=? 57) in
      t ← (if is_digit then add_numeric_res (lit "session") (c - 48) t else Done t);
      if negb is_digit && (((c =? 86) || (c =? 104)) && is_mol) then Exit 0
      else if c =? 63 then Exit 1
      else parse_options is_mol codes t
  end.
End Options.

(** ** Start

    The directories set when the program is built; [chdir]: whether a
    directory can be entered; [file]: what can be opened from there *)
Record build := Build { LIB_DIR : str; VAR_DIR : str; ETC_DIR : str; ARCH : str; DATA_DIR : str }.

(** The table and [g_session_id] *)
Definition res_manager_init (b : build) (chdir : str -> bool) (file0 : str -> option str) (file : str -> str -> option str)
    (in_security_mode is_mol : bool) (codes : list (Z * option str)) : outcome (table * Z) :=
  '(t, _) ← add_res file0 (lit "lib") (LIB_DIR b) [];
  '(t, _) ← add_res file0 (lit "var") (VAR_DIR b) t;
  '(t, _) ← add_res file0 (lit "etc") (ETC_DIR b) t;
  '(t, _) ← add_res file0 (lit "bin") (lit "${lib}/bin") t;
  '(t, _) ← add_res file0 (lit "arch") (ARCH b) t;
  t ← parse_options file0 in_security_mode is_mol codes t;
  '(t, s) ← (match get_str_res (lit "data") t with Some s => Done (t, Some s) | None => add_res file0 (lit "data") (DATA_DIR b) t end);
  match s with
  | None => fatal
  | Some s =>
  if negb (chdir s) then fatal else
  let file := file s in
  t ← parse_res_file file 7 (lit "config/molrc.sys") kAddTail t;
  etc ← of_opt (get_str_res (lit "etc") t);
  '(t, _) ← add_res file (lit "molrc") (take 255 etc) t;
  t ← parse_res_file file 7 (take 255 (take 255 etc ++ lit "/session.map")) kAddTail t;
  t ← parse_res_file file 7 (lit "config/molrc.post") kAddTail t;
  let id := get_numeric_res (lit "session") t in
  if id <? 0 then fatal else Done (t, id)
  end.

End ResMgr.
