(* ===== verification/ResMgrExp.v ===== *)
(** * Expansion of variables is safe and right

    [expand] works in arrays of fixed size and calls itself with pointers into
    them; it is the expansion without bounds, [expand_ref], cut off. *)

From Stdlib Require Import String.
From S2P Require Import Prelude CString ResMgr.

Module ResMgrExp.
Import CString ResMgr.

(** ** The reference *)

Fixpoint spaced (l : list str) : str :=
  match l with [] => [] | [s] => s | s :: l => s ++ lit " " ++ spaced l end.

Section Ref.
Context (t : table).

Fixpoint ref_loop (rec : str -> str) (fuel : nat) (src : str) : str :=
  match fuel with
  | O => src
  | S fuel =>
      match find_var src with
      | None => src
      | Some (pre, s, src) =>
          pre ++ match find_res s 0 t with
                 | Some (Res _ (e :: es)) => spaced (map rec (e :: es))
                 | _ => lit "${" ++ s ++ lit "}"
                 end ++ ref_loop rec fuel src
      end
  end.

(** Every variable is replaced by the expansions of its arguments, up to [n]
    levels deep. *)
Fixpoint expand_ref (n : nat) (src : str) : str :=
  match n with O => src | S n => ref_loop (expand_ref n) (S (length src)) src end.
End Ref.

Definition table_ok (t : table) : Prop := Forall (fun r => nonul (key r) /\ Forall nonul (dargs r)) t.

(** ** Variables in a text *)

Lemma find_dollar_app s a b : find_dollar s = Some (a, b) -> s = a ++ lit "${" ++ b.
Proof.
  revert a b. induction s as [|c s IH]; intros a b E; [done|].
  cbn [find_dollar] in E. destruct (strncmp_eq (lit "${") (c :: s) 2) eqn:Ec.
  - apply (strncmp_prefix (lit "${")) in Ec as [k Ek]. injection Ek as -> ->. by injection E as <- <-.
  - destruct (find_dollar s) as [[a' b']|]; [|done]. cbn in E. injection E as <- <-. by rewrite (IH _ _ eq_refl).
Qed.

Lemma strsep_split_at s c a r : strsep s c = (a, Some r) -> s = a ++ c :: r.
Proof.
  revert a r. induction s as [|x s IH]; intros a r E; cbn in E; [done|]. destruct (Z.eqb_spec x c) as [->|_]; [by injection E as <- <-|].
  destruct (strsep s c) as [a' r']. injection E as <- ->. by rewrite (IH _ _ eq_refl).
Qed.

Lemma find_var_app s pre name r : find_var s = Some (pre, name, r) -> s = pre ++ lit "${" ++ name ++ lit "}" ++ r.
Proof.
  unfold find_var. destruct (find_dollar s) as [[a b]|] eqn:E; [|done]. cbn [mbind option_bind].
  destruct (strsep b 125) as [n [r'|]] eqn:Es; [|done]. intros [= -> -> ->].
  apply find_dollar_app in E. apply strsep_split_at in Es. by rewrite E, Es.
Qed.

Lemma find_var_parts s pre name r : nonul s -> find_var s = Some (pre, name, r) ->
  nonul pre /\ nonul name /\ nonul r /\ (length r < length s)%nat.
Proof.
  intros Hs ->%find_var_app. unfold nonul in Hs. rewrite !Forall_app in Hs. destruct Hs as (? & ? & ? & ? & ?).
  rewrite !length_app. cbn. split_and!; try done; lia.
Qed.

Lemma find_res_in k i t r : find_res k i t = Some r -> r ∈ t.
Proof.
  revert i. induction t as [|x t IH]; intros i E; cbn in E; [done|].
  destruct (strcmp_eq _ _); [destruct i; [injection E as ->; by left|]|]; right; by eapply IH.
Qed.

Lemma find_res_nonul t k i ky args : table_ok t -> find_res k i t = Some (Res ky args) -> Forall nonul args.
Proof. intros Ht E%find_res_in. by apply (list.Forall_forall _ t) with (x := Res ky args) in Ht as [_ ?]. Qed.

Lemma ref_loop_nonul t rec fuel : table_ok t -> (forall s, nonul s -> nonul (rec s)) -> forall src, nonul src -> nonul (ref_loop t rec fuel src).
Proof.
  intros Ht Hr. induction fuel as [|fuel IH]; intros src Hs; [done|]. cbn [ref_loop].
  destruct (find_var src) as [[[pre name] r]|] eqn:E; [|done]. apply find_var_parts in E as (Hp & Hn & Hr' & _); [|done].
  apply Forall_app. split; [done|]. apply Forall_app. split; [|by apply IH].
  assert (Hlit : nonul (lit "${" ++ name ++ lit "}")) by (unfold nonul; rewrite !Forall_app; repeat split; [|done|]; by repeat constructor).
  destruct (find_res name 0 t) as [[ky [|e es]]|] eqn:Ef; try done. apply find_res_nonul in Ef; [|done].
  clear - Ef Hr. revert e Ef. induction es as [|e' es IH]; intros e He; apply list.Forall_cons in He as [He Hes]; [by apply Hr|].
  cbn [map spaced]. apply Forall_app. split; [by apply Hr|]. apply Forall_app. split; [by repeat constructor|]. by apply IH.
Qed.

Lemma expand_ref_nonul t n src : table_ok t -> nonul src -> nonul (expand_ref t n src).
Proof. intros Ht. revert src. induction n as [|n IH]; intros src Hs; [done|]. by apply ref_loop_nonul. Qed.

(** ** Appending *)

Lemma appended_holds buf buf' i n t : appended buf buf' i n t -> holds buf' i (take (n - 1) t).
Proof. by intros [? _]. Qed.

Lemma take_take_app {A} n (a b : list A) : take n (take n a ++ b) = take n (a ++ b).
Proof.
  rewrite !take_app, take_take, length_take, Nat.min_id. f_equal.
  destruct (decide (length a <= n)%nat); [by rewrite Nat.min_r by lia|].
  rewrite Nat.min_l by lia. by rewrite Nat.sub_diag, (proj2 (Nat.sub_0_le n (length a))) by lia.
Qed.

Lemma appended_trans b0 b1 b2 i n t u : appended b0 b1 i n t -> appended b1 b2 i n (take (n - 1) t ++ u) -> appended b0 b2 i n (t ++ u).
Proof.
  intros (_ & Hl & Ht & Hd) (Hh & Hl2 & Ht2 & Hd2). rewrite take_take_app in Hh. split; [done|]. split; [congruence|]. split; congruence.
Qed.

(** The text [t] has been written; [u] is appended. *)
Lemma appended_strncat0 b0 b i n t u : appended b0 b i n t -> (0 < n)%nat -> (i + n <= length b0)%nat -> nonul u ->
  exists b', strncat0 b i u n = Some b' /\ appended b0 b' i n (t ++ u).
Proof.
  intros H Hn Hi Hu. pose proof H as (Hh & Hl & _). destruct (strncat0_holds b i (take (n - 1) t) u n) as (b' & E & H'); try done.
  { rewrite length_take. lia. } { lia. }
  exists b'. split; [done|]. by eapply appended_trans.
Qed.

(** An append at the end of the text *)
Lemma appended_end b0 b b' i n t u : appended b0 b i n t -> (0 < n)%nat -> (i + n <= length b0)%nat ->
  appended b b' (i + length (take (n - 1) t)) (n - length (take (n - 1) t)) u -> appended b0 b' i n (t ++ u).
Proof.
  intros H Hn Hi (Hh & Hl & Ht & Hd). set (s := take (n - 1) t) in *. pose proof H as ((Hs & r & Er) & Hlb & Htb & Hdb). fold s in Hs, Er.
  assert (Hls : (length s <= n - 1)%nat) by (unfold s; rewrite length_take; lia).
  apply (appended_trans b0 b b' i n t u H). fold s. split; [|split; [done|split]].
  - rewrite take_app, (take_ge s) by lia. destruct Hh as [Hu [r' Er']]. split; [apply Forall_app; split; [done|]; by replace (n - 1 - length s)%nat with (n - length s - 1)%nat by lia|].
    exists r'. replace (n - 1 - length s)%nat with (n - length s - 1)%nat by lia. rewrite <- app_assoc, <- Er'.
    rewrite <- (take_drop (length s) (drop i b')). rewrite drop_drop. f_equal.
    rewrite take_drop_commute, Ht, <- take_drop_commute, Er. by rewrite take_app_length.
  - assert (E : take i (take (i + length s) b') = take i (take (i + length s) b)) by by rewrite Ht.
    rewrite !take_take, !Nat.min_l in E by lia. done.
  - by replace (i + n)%nat with (i + length s + (n - length s))%nat by lia.
Qed.

(** ** The theorem *)

(** What [rec] has to do at every place of every array *)
Definition expands (rec : list Z -> nat -> str -> nat -> option (list Z)) (ref : str -> str) : Prop :=
  forall buf i src n, nonul src -> (0 < n)%nat -> (i + n <= length buf)%nat ->
  exists buf', rec buf i src n = Some buf' /\ appended buf buf' i n (ref src).

Lemma expand_args_spec rec ref args : expands rec ref -> Forall nonul args -> forall k b0 b i n u,
  appended b0 b i n u -> (0 < n)%nat -> (i + n <= length b0)%nat ->
  exists b', expand_args rec args k b i n = Some b' /\
    appended b0 b' i n (u ++ match args with [] => [] | _ => (if (k =? 0)%nat then [] else lit " ") ++ spaced (map ref args) end).
Proof.
  intros Hrec. induction 1 as [|e args He Hargs IH]; intros k b0 b i n u H Hn Hi; cbn [expand_args]; [exists b; by rewrite app_nil_r|].
  assert (H1 : exists b1, (if (k =? 0)%nat then Some b else strncat0 b i (lit " ") n) = Some b1 /\
    appended b0 b1 i n (u ++ if (k =? 0)%nat then [] else lit " ")).
  { destruct (k =? 0)%nat; [exists b; by rewrite app_nil_r|]. apply appended_strncat0; try done. by repeat constructor. }
  destruct H1 as (b1 & -> & H1). cbn [mbind option_bind]. rewrite (strlen_holds _ _ _ (appended_holds _ _ _ _ _ H1)). cbn [mbind option_bind].
  set (s := take (n - 1) (u ++ if (k =? 0)%nat then [] else lit " ")) in *.
  assert (Hs : (length s <= n - 1)%nat) by (unfold s; rewrite length_take; lia). pose proof H1 as (_ & Hl1 & _).
  destruct (Hrec b1 (i + length s)%nat e (n - length s)%nat He) as (b2 & -> & H2); [lia|lia|]. cbn [mbind option_bind].
  apply (appended_end b0 b1 b2 i n _ _ H1 Hn Hi) in H2.
  destruct (IH (S k) b0 b2 i n _ H2 Hn Hi) as (b3 & -> & H3). exists b3. split; [done|].
  rewrite <- !app_assoc in H3. cbn [Nat.eqb] in H3. destruct args as [|e' args]; [by rewrite app_nil_r in H3|exact H3].
Qed.

Lemma expand_loop_spec t rec ref : table_ok t -> expands rec ref -> forall fuel b0 b i src n u,
  nonul src -> (length src < fuel)%nat -> appended b0 b i n u -> (0 < n)%nat -> (i + n <= length b0)%nat ->
  exists b', expand_loop t rec fuel b i src n = Some b' /\ appended b0 b' i n (u ++ ref_loop t ref fuel src).
Proof.
  intros Ht Hrec. induction fuel as [|fuel IH]; intros b0 b i src n u Hs Hf H Hn Hi; [lia|]. cbn [expand_loop ref_loop].
  destruct (find_var src) as [[[pre name] r]|] eqn:E; [|by apply appended_strncat0].
  apply find_var_parts in E as (Hp & Hnm & Hr & Hlt); [|done].
  destruct (appended_strncat0 b0 b i n u pre H Hn Hi Hp) as (b1 & -> & H1). cbn [mbind option_bind].
  assert (Hlit : exists b2, (b2 ← strncat0 b1 i (lit "${") n; strncat3 b2 i name (lit "}") n) = Some b2 /\
    appended b0 b2 i n ((u ++ pre) ++ lit "${" ++ name ++ lit "}")).
  { unfold strncat3. destruct (appended_strncat0 b0 b1 i n _ (lit "${") H1 Hn Hi) as (b2 & -> & H2); [by repeat constructor|]. cbn [mbind option_bind].
    destruct (appended_strncat0 b0 b2 i n _ name H2 Hn Hi Hnm) as (b3 & -> & H3). cbn [mbind option_bind].
    destruct (appended_strncat0 b0 b3 i n _ (lit "}") H3 Hn Hi) as (b4 & -> & H4); [by repeat constructor|].
    exists b4. split; [done|]. by rewrite <- !app_assoc in *. }
  assert (Hrest : forall (w : str) b2, appended b0 b2 i n ((u ++ pre) ++ w) ->
    exists b', expand_loop t rec fuel b2 i r n = Some b' /\ appended b0 b' i n (u ++ pre ++ w ++ ref_loop t ref fuel r)).
  { intros w b2 H2. destruct (IH b0 b2 i r n _ Hr ltac:(lia) H2 Hn Hi) as (b3 & E3 & H3). exists b3. split; [done|]. by rewrite <- !app_assoc in H3. }
  assert (Hdef : exists b', (b2 ← strncat0 b1 i (lit "${") n; b3 ← strncat3 b2 i name (lit "}") n; expand_loop t rec fuel b3 i r n) = Some b' /\
    appended b0 b' i n (u ++ pre ++ (lit "${" ++ name ++ lit "}") ++ ref_loop t ref fuel r)).
  { destruct Hlit as (b2 & E2 & H2). destruct (strncat0 b1 i (lit "${") n) as [b2'|]; [|done]. cbn [mbind option_bind] in *. rewrite E2. by apply Hrest. }
  destruct (find_res name 0 t) as [[ky [|e es]]|] eqn:Ef; [exact Hdef| |exact Hdef].
  apply find_res_nonul in Ef; [|done].
  destruct (expand_args_spec rec ref (e :: es) Hrec Ef 0 b0 b1 i n _ H1 Hn Hi) as (b2 & -> & H2). cbn [mbind option_bind]. by apply Hrest.
Qed.

Lemma expand_expands t n : table_ok t -> expands (expand t n) (expand_ref t n).
Proof.
  intros Ht. induction n as [|n IH]; intros buf i src sz Hs Hn Hi.
  all: assert (H0 : appended buf (put buf i [0]) i sz []) by
    (split; [rewrite take_nil; split; [constructor|exists (drop (i + 1) buf); apply put_at; lia]|
     split; [apply put_length; cbn; lia|split; [apply put_take; lia|apply put_drop; cbn; lia]]]).
  all: cbn [expand expand_ref]; rewrite setc_put by lia; cbn [mbind option_bind].
  - by apply (appended_strncat0 buf (put buf i [0]) i sz [] src).
  - apply (expand_loop_spec t (expand t n) (expand_ref t n) Ht IH (S (length src)) buf _ i src sz [] Hs); try done; lia.
Qed.

(** C15: Whatever the variables hold, also when they refer to each other or to
    themselves, [expand] ends, writes nothing outside of the [size] bytes it
    is given, and leaves there the expansion without bounds, cut off after
    [size - 1] characters. *)
Theorem expand_spec t n buf dest src size :
  table_ok t -> nonul src -> (0 < size)%nat -> (dest + size <= length buf)%nat ->
  exists buf', expand t n buf dest src size = Some buf' /\ length buf' = length buf /\
    take dest buf' = take dest buf /\ drop (dest + size) buf' = drop (dest + size) buf /\
    cstr (drop dest buf') = take (size - 1) (expand_ref t n src).
Proof.
  intros Ht Hs Hn Hi. destruct (expand_expands t n Ht buf dest src size Hs Hn Hi) as (b & E & Hh & Hl & Htk & Hd).
  exists b. split_and!; try done. by apply holds_cstr.
Qed.

(** What the callers use *)
Lemma expand_buf_eq t size src : table_ok t -> nonul src -> (0 < size)%nat ->
  expand_buf t size src = Some (take (size - 1) (expand_ref t 10 src)).
Proof.
  intros Ht Hs Hn. destruct (expand_expands t 10 Ht (replicate size 0) O src size Hs Hn) as (b & E & Hh & _); [by rewrite length_replicate|].
  unfold expand_buf. rewrite E. cbn [mbind option_bind]. f_equal. apply (holds_cstr _ O). exact Hh.
Qed.

(** Without a variable the text is copied. *)
Lemma expand_plain t n src : find_var src = None -> expand_ref t n src = src.
Proof. intros E. destruct n; [done|]. cbn [expand_ref ref_loop]. by rewrite E. Qed.

Definition ex_table : table := [Res (lit "lib") [lit "/usr/lib"]; Res (lit "a") [lit "${a}x"; lit "y"]].

Lemma expand_spec_witness :
  exists buf', expand ex_table 10 (replicate 40 7) 4 (lit "${lib}/mol/${none}") 16 = Some buf' /\
    cstr (drop 4 buf') = lit "/usr/lib/mol/${" /\ drop 20 buf' = replicate 20 7 /\ take 4 buf' = replicate 4 7.
Proof.
  destruct (expand_spec ex_table 10 (replicate 40 7) 4 (lit "${lib}/mol/${none}") 16) as (b & E & Hl & Ht & Hd & Hc).
  - repeat (constructor || split); cbn; discriminate.
  - by repeat constructor.
  - lia.
  - rewrite length_replicate. lia.
  - exists b. split; [exact E|]. split; [rewrite Hc; vm_compute; reflexivity|]. split; [exact Hd|exact Ht].
Defined.

End ResMgrExp.
