(* ===== verification/ResMgrInv.v ===== *)
(** * What files and the command line can do to the resources

    Parsing a file always ends; it only appends, so that what is set before
    stays in force.  Without root, the command line sets only some keys. *)

From Stdlib Require Import String.
From S2P Require Import Prelude CString ResMgr ResMgrExp.

Module ResMgrInv.
Import CString ResMgr ResMgrExp.

(** ** Outcomes

    The computation ends; [P] holds for its result unless the program has
    ended. *)
Definition ends {A} (P : A -> Prop) (o : outcome A) : Prop :=
  match o with Done a => P a | Exit _ => True | _ => False end.

Lemma ends_bind {A B} (Q : A -> Prop) (P : B -> Prop) (o : outcome A) f :
  ends Q o -> (forall a, Q a -> ends P (f a)) -> ends P (o ≫= f).
Proof. destruct o; cbn; auto. Qed.

Lemma ends_imp {A} (Q P : A -> Prop) o : ends Q o -> (forall a, Q a -> P a) -> ends P o.
Proof. destruct o; cbn; auto. Qed.

(** ** Fields *)

Lemma next_field_length s f r : next_field s = Some (f, r) -> (length r < length s)%nat /\ nonul f /\ f <> [].
Proof.
  induction s as [|c s IH]; cbn [next_field]; [done|]. destruct (Z.eqb_spec c 0) as [->|Hc].
  - intros E. apply IH in E as [? ?]. cbn. split; [lia|done].
  - clear IH. intros E. assert (Ec : cstr (c :: s) = c :: cstr s) by (cbn; by destruct (Z.eqb_spec c 0)).
    rewrite Ec in E. injection E as <- <-. rewrite length_drop. cbn [length]. split; [lia|]. split; [|done]. rewrite <- Ec. apply cstr_nonul.
Qed.

Lemma fields_loop_ok fuel s : Forall (fun f => nonul f /\ f <> []) (fields_loop fuel s).
Proof.
  revert s. induction fuel as [|fuel IH]; intros s; cbn; [constructor|]. destruct (next_field s) as [[f r]|] eqn:E; [|constructor].
  apply next_field_length in E as (_ & ?). by constructor.
Qed.

Lemma fields_ok s : Forall (fun f => nonul f /\ f <> []) (fields s).
Proof. apply fields_loop_ok. Qed.

Lemma fields_loop_fuel fuel s : (length s <= fuel)%nat -> fields_loop fuel s = fields s.
Proof.
  unfold fields. remember (length s) as n eqn:En. assert (H : (length s <= n)%nat) by lia. clear En. revert fuel s H.
  induction n as [|n IH]; intros fuel s Hn Hf.
  - destruct s; [by destruct fuel|cbn in Hn; lia].
  - destruct fuel as [|fuel]; [lia|]. cbn [fields_loop]. destruct (next_field s) as [[f r]|] eqn:E; [|done]. f_equal.
    apply next_field_length in E as [Hr _]. apply IH; lia.
Qed.

Lemma next_field_word w r : nonul w -> w <> [] -> next_field (w ++ 0 :: r) = Some (w, 0 :: r).
Proof.
  intros Hw Hn. destruct w as [|c w]; [done|]. pose proof Hw as Hw'. apply list.Forall_cons in Hw as [Hc _].
  change ((c :: w) ++ 0 :: r) with (c :: w ++ 0 :: r). cbn [next_field]. destruct (Z.eqb_spec c 0); [done|].
  change (c :: w ++ 0 :: r) with ((c :: w) ++ 0 :: r). by rewrite cstr_app, drop_app_length.
Qed.

Lemma fields_word w r : nonul w -> w <> [] -> fields (w ++ 0 :: r) = w :: fields r.
Proof.
  intros Hw Hn. rewrite <- (fields_loop_fuel (S (length (w ++ 0 :: r)))) by lia. cbn [fields_loop]. rewrite next_field_word by done.
  f_equal. rewrite fields_loop_fuel by (rewrite length_app; cbn; lia).
  rewrite <- (fields_loop_fuel (S (length r))) by (cbn; lia). rewrite <- (fields_loop_fuel (S (length r)) r) by lia. done.
Qed.

Lemma fields_zero r : fields (0 :: r) = fields r.
Proof. rewrite <- (fields_loop_fuel (S (length r)) r), <- (fields_loop_fuel (S (length r)) (0 :: r)) by (cbn; lia). done. Qed.

Lemma fields_end w : nonul w -> w <> [] -> fields w = [w].
Proof.
  intros Hw Hn. assert (E : next_field w = Some (w, [])).
  { destruct w as [|c w]; [done|]. pose proof Hw as Hw'. apply list.Forall_cons in Hw as [Hc _]. cbn [next_field].
    destruct (Z.eqb_spec c 0); [done|]. rewrite cstr_id by exact Hw'. by rewrite drop_all. }
  rewrite <- (fields_loop_fuel (S (length w))) by lia. cbn [fields_loop]. rewrite E. by destruct w.
Qed.

#[local] Opaque expand_ref expand_buf.

(** ** Keys that occur once *)

Definition single (t : table) : Prop := forall k, ~ k ∈ multi_res -> find_res k 1 t = None.

Lemma find_res_app k i t r : find_res k i t = Some r -> forall u, find_res k i (t ++ u) = Some r.
Proof.
  revert i. induction t as [|x t IH]; intros i E u; cbn in *; [done|]. destruct (strcmp_eq _ _); [destruct i|]; auto.
Qed.

Lemma find_res_snoc k t x : find_res k 1 t = None -> (key x = k -> find_res k 0 t = None) -> find_res k 1 (t ++ [x]) = None.
Proof.
  induction t as [|y t IH]; cbn [app find_res].
  - intros _ _. by destruct (strcmp_eq _ _).
  - destruct (strcmp_eq (key y) k) eqn:Ey.
    + intros E Hx. assert (Hk : key x <> k) by (intros H; by specialize (Hx H)). clear - E Hk.
      induction t as [|z t IH]; cbn [app find_res] in *; [by rewrite (proj2 (strcmp_false _ _) Hk)|]. destruct (strcmp_eq (key z) k); [done|by apply IH].
    + exact IH.
Qed.

(** ** Parsing only appends *)

Definition grows (t t' : table) : Prop := table_ok t' /\ single t' /\ exists new, t' = t ++ new.

Lemma grows_refl t : table_ok t -> single t -> grows t t.
Proof. intros. split_and!; try done. exists []. by rewrite app_nil_r. Qed.

Lemma grows_trans t u v : grows t u -> grows u v -> grows t v.
Proof. intros (_ & _ & a & ->) (? & ? & b & ->). split_and!; try done. exists (a ++ b). by rewrite app_assoc. Qed.

Definition good_include (inc : option (str -> table -> outcome table)) : Prop :=
  match inc with None => True | Some f => forall fname t, table_ok t -> single t -> ends (grows t) (f fname t) end.

Lemma any_field_total t size p fs : table_ok t -> (0 < size)%nat -> Forall (fun f => nonul f /\ f <> []) fs -> is_Some (any_field t size p fs).
Proof.
  intros Ht Hn. induction 1 as [|f fs [Hf _] _ IH]; cbn [any_field]; [done|]. rewrite expand_buf_eq by done. cbn [mbind option_bind]. by destruct (p _).
Qed.

Lemma expand_args_total t fs : table_ok t -> Forall (fun f => nonul f /\ f <> []) fs ->
  mapM (expand_arg t) fs = Some (map (fun f => take 255 (expand_ref t 10 f)) fs).
Proof.
  intros Ht. induction 1 as [|f fs [Hf _] _ IH]; [reflexivity|]. 
  change (mapM (expand_arg t) (f :: fs)) with (y ← expand_buf t 256 f; k ← mapM (expand_arg t) fs; Some (y :: k)).
  rewrite expand_buf_eq by (assumption || lia). rewrite IH. reflexivity.
Qed.

Lemma args_nonul t fs : table_ok t -> Forall (fun f => nonul f /\ f <> []) fs -> Forall nonul (map (fun f => take 255 (expand_ref t 10 f)) fs).
Proof. intros Ht. induction 1 as [|f fs [Hf _] _ IH]; constructor; [|done]. by apply nonul_take, expand_ref_nonul. Qed.

Lemma add_line_ends field fs t : table_ok t -> single t -> nonul field -> Forall (fun f => nonul f /\ f <> []) fs ->
  ends (fun x => grows t x.2) (add_line field fs kAddTail t).
Proof.
  intros Ht Hs Hf Hfs. unfold add_line. destruct (_ || _); [cbn; by apply grows_refl|].
  rewrite expand_buf_eq by (assumption || lia || by apply nonul_take). cbn [of_opt]. set (k := take _ (expand_ref _ _ _)).
  assert (Hk : nonul k) by (by apply nonul_take, expand_ref_nonul, nonul_take).
  change (Done k ≫= ?f) with (f k). cbv beta. destruct (_ && _) eqn:Ec; [cbn; by apply grows_refl|].
  rewrite expand_args_total by done. cbn [of_opt]. set (args := map _ fs). change (tst kAddTail kAddTail) with true.
  change (Done args ≫= ?f) with (f args). cbv beta. cbn [ends snd]. split; [|split; [|by exists [Res k args]]].
  - apply Forall_app. split; [done|]. constructor; [|constructor]. split; [done|]. by apply args_nonul.
  - intros k' Hk'. apply find_res_snoc; [by apply Hs|]. cbn [key]. intros <-.
    change (tst kAddTail kAddHead) with false in Ec. cbn [negb andb] in Ec. rewrite andb_true_r in Ec.
    rewrite (bool_decide_eq_false_2 _ Hk') in Ec. cbn in Ec. rewrite andb_true_r in Ec. unfold res_present in Ec.
    apply bool_decide_eq_false in Ec. by apply eq_None_not_Some.
Qed.

Lemma run_keyword_ends inc k fs st t : good_include inc -> table_ok t -> single t -> Forall (fun f => nonul f /\ f <> []) fs ->
  ends (fun x => grows t x.1) (run_keyword inc k fs st t).
Proof.
  intros Hi Ht Hs Hfs. pose proof (grows_refl t Ht Hs) as Hg.
  assert (Hdef : exists b, ifdef_flag t fs = Some b).
  { unfold ifdef_flag. destruct Hfs as [|f fs [Hf _] _]; [by eexists|]. rewrite expand_buf_eq by (assumption || lia). by eexists. }
  destruct k; cbn [run_keyword].
  - destruct inc as [f|]; [|done]. destruct Hfs as [|w fs [Hw _] _]; [exact Hg|]. cbn [keyw_include].
    rewrite expand_buf_eq by (assumption || lia). cbn [of_opt]. eapply ends_bind; [apply Hi; [exact Ht|exact Hs]|]. intros a Ha. exact Ha.
  - exact Hg.
  - exact I.
  - assert (Heq : exists b, ifeq_flag t fs = Some b).
    { unfold ifeq_flag. destruct Hfs as [|f fs [Hf _] Hfs]; [by eexists|]. rewrite expand_buf_eq by (assumption || lia). cbn [mbind option_bind].
      apply any_field_total; [done|lia|done]. }
    destruct Heq as [b ->]. exact Hg.
  - destruct Hdef as [b ->]. exact Hg.
  - destruct Hdef as [b ->]. exact Hg.
  - unfold keyw_endif. destruct (any_field_total t 256 (fun s => strncmp_eq s (lit "else") 4) fs Ht ltac:(lia) Hfs) as [b ->]. exact Hg.
Qed.

Lemma do_add_res_ends inc s st t : good_include inc -> table_ok t -> single t -> ends (fun x => grows t x.1.2) (do_add_res inc s kAddTail st t).
Proof.
  intros Hi Ht Hs. unfold do_add_res. pose proof (fields_ok (zero_out false false s)) as Hf.
  destruct Hf as [|f fs [Hf _] Hfs]; [by apply grows_refl|]. change (tst kAddTail kAddSecure) with false. cbn [negb].
  destruct (find_keyword _ _ _) as [k|].
  - eapply ends_bind; [by apply run_keyword_ends|]. by intros [t' st'] Hg.
  - destruct (negb _); [by apply grows_refl|]. eapply ends_bind; [by apply add_line_ends|]. by intros [r t'] Hg.
Qed.

(** ** Files *)

Lemma join_ends fuel : forall buf t, (length t < fuel)%nat -> nonul buf ->
  ends (fun x => (length x.2 <= length t)%nat) (join fuel buf t).
Proof.
  induction fuel as [|fuel IH]; intros buf t Hf Hb; [lia|]. cbn [join].
  destruct ((4095 <=? length buf)%nat || _ || _) eqn:Ec; [cbn; lia|]. rewrite !orb_false_iff in Ec. destruct Ec as ((Hn%Nat.leb_gt & _) & _).
  destruct t as [|c t]; [cbn; lia|]. destruct (4096 - length buf)%nat as [|m] eqn:Em; [lia|].
  pose proof (fgets_progress m c t) as Hp. destruct (fgets (S m) (c :: t)) as [l t2]. cbn [snd] in Hp.
  eapply ends_imp; [apply IH; [cbn in Hf; lia|]|].
  - apply Forall_app. split; [|apply cstr_nonul]. apply nonul_take. by apply Forall_insert.
  - cbn. intros a Ha. lia.
Qed.

Lemma parse_lines_ends inc : good_include inc -> forall fuel text st t, (length text < fuel)%nat -> table_ok t -> single t ->
  ends (fun x => grows t x.1) (parse_lines inc fuel text kAddTail st t).
Proof.
  intros Hi. induction fuel as [|fuel IH]; intros text st t Hf Ht Hs; [lia|]. cbn [parse_lines].
  destruct text as [|c text]; [by apply grows_refl|]. pose proof (fgets_progress 4094 c text) as Hp.
  change (S 4094) with 4095%nat in Hp. destruct (fgets 4095 (c :: text)) as [l text']. cbn [snd length] in *.
  case_bool_decide; [by apply grows_refl|]. eapply ends_bind; [apply join_ends; [lia|apply cstr_nonul]|].
  intros [buf text2] Hl. cbn [snd] in Hl. eapply ends_bind; [by apply do_add_res_ends|]. intros [[r t2] st2] Hg. cbn [fst snd] in *.
  destruct (r =? 0); [|done]. pose proof Hg as (Ht2 & Hs2 & _). eapply ends_imp; [apply IH; [lia|done|done]|]. cbn. intros a Ha. by eapply grows_trans.
Qed.

Lemma parse_res_file_ends file d : forall fname t, table_ok t -> single t -> ends (grows t) (parse_res_file file d fname kAddTail t).
Proof.
  induction d as [|d IH]; intros fname t Ht Hs; cbn [parse_res_file]; (destruct (file fname) as [text|]; [|done]).
  all: eapply ends_bind; [apply parse_lines_ends; [|lia|exact Ht|exact Hs]|intros [t' st'] Hg; by destruct (_ || _)].
  - done.
  - exact IH.
Qed.

(** C16: Whatever the files contain, however they include each other (or
    themselves), with any quotes, variables and conditionals, parsing one
    ends: with an error that ends the program, or with a table that extends
    the one before.  So every setting that was there, in particular from the
    command line, keeps its place, and a key that may occur only once still
    does. *)
Theorem parse_res_file_extends file d fname t :
  table_ok t -> single t ->
  match parse_res_file file d fname kAddTail t with
  | Done t' => table_ok t' /\ single t' /\ (exists new, t' = t ++ new) /\
      forall k i r, find_res k i t = Some r -> find_res k i t' = Some r
  | Exit _ => True
  | _ => False
  end.
Proof.
  intros Ht Hs. pose proof (parse_res_file_ends file d fname t Ht Hs) as H.
  destruct (parse_res_file _ _ _ _ _); [|done|done|done]. destruct H as (? & ? & new & ->). split_and!; eauto using find_res_app.
Qed.
(** A file that includes another one and itself if a variable is set *)
Definition ex_files (name : str) : option str :=
  if strcmp_eq name (lit "a") then
    Some (lit "ifdef ${again} {" ++ [10] ++ lit "include a" ++ [10] ++ lit "} else {" ++ [10] ++ lit "again: no" ++ [10] ++ lit "include b" ++ [10] ++ lit "}" ++ [10])
  else if strcmp_eq name (lit "b") then Some (lit "again: yes, 'no # yes'" ++ [10] ++ lit "blkdev: ${again}/x" ++ [10]) else None.

Lemma parse_res_file_extends_witness :
  parse_res_file ex_files 7 (lit "a") kAddTail [] = Done [Res (lit "again") [lit "no"]; Res (lit "blkdev") [lit "no/x"]] /\
  parse_res_file ex_files 7 (lit "a") kAddTail [Res (lit "again") [lit "y"]] = Exit 1 /\
  (exists new, [Res (lit "again") [lit "no"]; Res (lit "blkdev") [lit "no/x"]] = [] ++ new).
Proof.
  assert (E : parse_res_file ex_files 7 (lit "a") kAddTail [] = Done [Res (lit "again") [lit "no"]; Res (lit "blkdev") [lit "no/x"]])
    by (vm_compute; reflexivity).
  split; [exact E|]. split; [vm_compute; reflexivity|].
  pose proof (parse_res_file_extends ex_files 7 (lit "a") [] (list.Forall_nil_2 _) (fun _ _ => eq_refl)) as H. rewrite E in H.
  exact (proj1 (proj2 (proj2 H))).
Defined.

(** ** The command line

    Options add resources in front. *)

(** Characters that [zero_out] leaves alone *)
Definition plain (w : str) : bool := forallb (fun c => negb (bool_decide (c ∈ [0; 34; 39; 35]) || is_sep c)) w.

Lemma zero_out_plain w r : plain w = true -> zero_out false false (w ++ r) = w ++ zero_out false false r.
Proof.
  induction w as [|c w IH]; [done|]. cbn [plain forallb]. rewrite andb_true_iff, negb_true_iff, orb_false_iff, bool_decide_eq_false.
  intros ((Hc & Hs) & Hw). rewrite !not_elem_of_cons in Hc. destruct Hc as (H0 & H1 & H2 & H3 & _).
  cbn [app zero_out negb andb]. rewrite (proj2 (Z.eqb_neq c 34) H1). cbn [negb andb]. rewrite (proj2 (Z.eqb_neq c 39) H2). cbn [orb].
  rewrite (proj2 (Z.eqb_neq c 35) H3), Hs. by rewrite IH.
Qed.

Lemma plain_nonul w : plain w = true -> nonul w.
Proof.
  induction w as [|c w IH]; [constructor|]. cbn [plain forallb]. rewrite andb_true_iff, negb_true_iff, orb_false_iff, bool_decide_eq_false.
  intros ((Hc & _) & Hw). rewrite not_elem_of_cons in Hc. constructor; [tauto|by apply IH].
Qed.

(** A key that stands for itself *)
Definition good_key (k : str) : bool :=
  plain k && bool_decide (k <> []) && bool_decide (find_var k = None) && (length k <=? 255)%nat.

Lemma good_key_spec k : good_key k = true -> plain k = true /\ k <> [] /\ find_var k = None /\ (length k <= 255)%nat.
Proof. unfold good_key. rewrite !andb_true_iff, !bool_decide_eq_true, Nat.leb_le. tauto. Qed.

Lemma keyword_no_colon skip f : find_keyword keywords skip (f ++ lit ":") = None.
Proof.
  assert (H : forall w, In w (map (fun x => x.1.2) keywords) -> list.last w <> Some 58).
  { intros w Hw. cbn in Hw. repeat destruct Hw as [<-|Hw]; try done. }
  induction keywords as [|[[si w] k] ks IH]; [done|]. cbn [find_keyword].
  assert (E : strcmp_eq (f ++ lit ":") w = false).
  { apply strcmp_false. intros <-. apply (H (f ++ lit ":")); [by left|]. change (lit ":") with [58]; by rewrite list.last_snoc. }
  rewrite E, andb_false_r. apply IH. intros w' Hw'. apply H. by right.
Qed.

(** A resource line whose key is good *)
Lemma add_line_good k fs how t : good_key k = true -> table_ok t -> Forall (fun f => nonul f /\ f <> []) fs ->
  add_line (k ++ lit ":") fs how t =
    (if res_present k t && negb (tst how kAddHead) && negb (bool_decide (k ∈ multi_res)) then Done (0, t)
     else let r := Res k (map (fun f => take 255 (expand_ref t 10 f)) fs) in Done (0, if tst how kAddTail then t ++ [r] else r :: t)).
Proof.
  intros (Hp & Hn & Hv & Hl)%good_key_spec Ht Hfs. unfold add_line. rewrite length_app. cbn [length lit map list_ascii_of_string].
  rewrite Nat.add_sub, drop_app_length, take_app_length, strcmp_refl. cbn [negb orb].
  destruct (Nat.eqb_spec (length k + 1) 1) as [E|_]; [destruct k; [done|cbn in E; lia]|].
  rewrite expand_buf_eq by (assumption || lia || by apply plain_nonul). cbn [of_opt].
  rewrite expand_plain, take_ge by (assumption || lia).
  match goal with |- Done k ≫= ?f = _ => change (Done k ≫= f) with (f k) end. cbv beta. destruct (_ && _); [reflexivity|].
  rewrite expand_args_total by assumption. reflexivity.
Qed.

(** A line that begins with a good key sets just this key. *)
Definition sets (ks : list str) (t t' : table) : Prop :=
  table_ok t' /\ exists new, t' = new ++ t /\ Forall (fun r => key r ∈ ks) new.

Lemma sets_refl ks t : table_ok t -> sets ks t t.
Proof. intros Ht. split; [done|]. by exists []. Qed.

Lemma sets_trans ks t u v : sets ks t u -> sets ks u v -> sets ks t v.
Proof.
  intros (_ & a & -> & Ha) (? & b & -> & Hb). split; [done|]. exists (b ++ a). rewrite app_assoc. split; [done|]. by apply Forall_app.
Qed.

Lemma add_str_head file s how k fs ks t :
  fields (zero_out false false s) = (k ++ lit ":") :: fs -> good_key k = true -> k ∈ ks ->
  tst how kAddHead = true -> tst how kAddTail = false -> table_ok t -> ends (sets ks t) (add_str file s how t).
Proof.
  intros Ef Hk Hks Hh Htl Ht. pose proof (fields_ok (zero_out false false s)) as Hf. rewrite Ef in Hf. apply list.Forall_cons in Hf as [_ Hf].
  unfold add_str, do_add_res. rewrite Ef. cbn [skipping st0 Z.eqb negb].
  assert (E : (if tst how kAddSecure then None else find_keyword keywords false (k ++ lit ":")) = None)
    by (destruct (tst how kAddSecure); [reflexivity|apply keyword_no_colon]).
  rewrite E, add_line_good by assumption. rewrite Hh, Htl, andb_false_r. cbn. split; [|exists [Res k (map (fun f => take 255 (expand_ref t 10 f)) fs)]; split; [reflexivity|apply list.Forall_cons; split; [exact Hks|apply list.Forall_nil_2]]].
  constructor; [|done]. split; [|by apply args_nonul]. apply good_key_spec in Hk as [Hk _]. by apply plain_nonul.
Qed.

(** The text of a [kParseRes] entry: all lines have a key of [ks]. *)
Definition sets_key (ks : list str) (s : str) : bool :=
  match fields (zero_out false false s) with
  | f :: _ =>
      let k := take (length f - 1) f in
      strcmp_eq f (k ++ lit ":") && good_key k && bool_decide (k ∈ ks)
  | [] => false
  end.

Lemma sets_key_spec file ks s t : sets_key ks s = true -> table_ok t -> ends (sets ks t) (add_str file s kAddHead t).
Proof.
  unfold sets_key. destruct (fields _) as [|f fs] eqn:Ef; [done|]. rewrite !andb_true_iff, bool_decide_eq_true, strcmp_true.
  intros ((E & Hk) & Hks) Ht. rewrite E in Ef. by eapply add_str_head.
Qed.

Fixpoint sets_keys (ks : list str) (fuel : nat) (s : str) : bool :=
  match fuel with
  | O => false
  | S fuel =>
      match s with
      | [] => true
      | _ :: r => match split_res s with
                  | ([], _) => sets_keys ks fuel r
                  | (copy, rest) => sets_key ks copy && sets_keys ks fuel rest
                  end
      end
  end.

Lemma add_multiple_res_sets file ks fuel : forall s t, sets_keys ks fuel s = true -> table_ok t ->
  ends (sets ks t) (add_multiple_res file fuel s kAddHead t).
Proof.
  induction fuel as [|fuel IH]; intros s t H Ht; [done|]. cbn [sets_keys add_multiple_res] in *.
  destruct s as [|c s]; [by apply sets_refl|]. destruct (split_res (c :: s)) as [[|x copy] rest]; [by apply IH|].
  apply andb_true_iff in H as [H1 H2]. eapply ends_bind; [by eapply sets_key_spec|]. intros u Hu.
  eapply ends_imp; [apply IH; [done|apply Hu]|]. intros v Hv. by eapply sets_trans.
Qed.

(** A value of any kind is only an argument. *)
Lemma res_line_fields k v : good_key k = true -> fields (zero_out false false (res_line k v)) = (k ++ lit ":") :: fields (zero_out false false v).
Proof.
  intros (Hp & Hn & _)%good_key_spec. unfold res_line. rewrite zero_out_plain by done.
  change (zero_out false false (lit ": " ++ v)) with (lit ":" ++ 0 :: zero_out false false v). rewrite app_assoc. apply fields_word.
  - apply Forall_app. split; [by apply plain_nonul|by repeat constructor].
  - by destruct k.
Qed.

Lemma add_res_sets file ks k v t : good_key k = true -> k ∈ ks -> table_ok t -> ends (fun x => sets ks t x.1) (add_res file k v t).
Proof.
  intros Hk Hks Ht. unfold add_res. eapply ends_bind; [eapply add_str_head; [by apply res_line_fields|done|exact Hks|done|done|done]|].
  intros u Hu. exact Hu.
Qed.

(** What a user who is not root can set *)
Definition user_keys : list str :=
  map lit ["load_only"; "ram_size"; "vt"; "session"; "altconfig"; "config"; "boot_method"; "elf_image"; "no_video"; "boot_type";
           "allow_kver_mismatch"; "detach_tty"; "cdboot"; "zap_nvram"; "autoboot"]%string.

Definition entry_ok (ks : list str) (e : opt_res_entry) : bool :=
  root_only e ||
  match or_type e with
  | kResLine => false
  | kNumericRes | kStringRes => good_key (or_str e) && bool_decide (or_str e ∈ ks)
  | kParseRes => sets_keys ks (S (length (or_str e))) (or_str e)
  end.

Lemma or_table_ok : forallb (entry_ok user_keys) or_table = true.
Proof. vm_compute. reflexivity. Qed.

Lemma use_option_sets file ks e optarg t : entry_ok ks e = true -> root_only e = false -> table_ok t ->
  ends (sets ks t) (use_option file e optarg t).
Proof.
  unfold entry_ok. intros H Hr Ht. rewrite Hr in H. cbn [orb] in H. unfold use_option.
  destruct (or_type e); [done| |by apply add_multiple_res_sets|]; apply andb_true_iff in H as [Hk Hin%bool_decide_eq_true].
  all: destruct optarg as [a|]; [|by apply sets_refl].
  all: unfold add_numeric_res; eapply ends_bind; [by eapply add_res_sets|]; intros [u x] Hu; exact Hu.
Qed.

Lemma use_options_sets file ks es : forallb (entry_ok ks) es = true -> forall c optarg t, table_ok t ->
  ends (sets ks t) (use_options file true es c optarg t).
Proof.
  induction es as [|e es IH]; intros H c optarg t Ht; [by apply sets_refl|]. cbn [forallb use_options] in *. apply andb_true_iff in H as [He Hes].
  destruct (negb _); [by apply IH|]. rewrite andb_true_r. destruct (root_only e) eqn:Er; [by apply sets_refl|].
  eapply ends_bind; [by apply use_option_sets|]. intros u Hu. eapply ends_imp; [apply IH; [done|apply Hu]|]. intros v Hv. by eapply sets_trans.
Qed.

(** C14: A user who is not root can set nothing but [user_keys] from the
    command line, whatever the arguments of the options are: line ends,
    semicolons, quotes or keywords in them start no line of their own.  No
    file is read, all other resources are as before, and the options are
    worked through to the end or to an [exit]. *)
Theorem options_without_root file is_mol codes t :
  table_ok t ->
  match parse_options file true is_mol codes t with
  | Done t' => (exists new, t' = new ++ t /\ Forall (fun r => key r ∈ user_keys) new) /\
      forall k i, ~ k ∈ user_keys -> find_res k i t' = find_res k i t
  | Exit _ => True
  | _ => False
  end.
Proof.
  intros Ht. assert (H : ends (sets user_keys t) (parse_options file true is_mol codes t)).
  { revert t Ht. induction codes as [|[c optarg] codes IH]; intros t Ht; [by apply sets_refl|]. cbn [parse_options].
    eapply ends_bind; [apply use_options_sets; [apply or_table_ok|exact Ht]|]. intros u Hu. pose proof Hu as (Htu & _).
    eapply ends_bind; [instantiate (1 := sets user_keys t)|].
    - destruct (_ && _); [|exact Hu]. unfold add_numeric_res. eapply ends_bind; [apply (add_res_sets _ user_keys); [done| |exact Htu]|].
      + compute_done.
      + intros [v x] Hv. by eapply sets_trans.
    - intros v Hv. destruct (_ && _); [done|]. destruct (c =? 63); [done|]. eapply ends_imp; [apply IH, Hv|].
      intros w Hw. by eapply sets_trans. }
  destruct (parse_options _ _ _ _ _); [|done..]. destruct H as (_ & new & -> & Hn). split; [by exists new|].
  intros k i Hk. induction Hn as [|r new Hr _ IH]; [done|]. cbn [app find_res].
  rewrite (proj2 (strcmp_false (key r) k)) by (intros <-; done). exact IH.
Qed.

Lemma options_without_root_witness :
  parse_options (fun _ => None) true true
    [(optConfig, Some (lit "x; lib: /tmp" ++ [10] ++ lit "include y")); (optLibDir, Some (lit "/tmp")); (optTest, None); (51, None)]
    [Res (lit "lib") [lit "/usr"]] =
  Done [Res (lit "session") [lit "3"]; Res (lit "no_video") [lit "1"]; Res (lit "elf_image") [lit "/usr/bin/selftest"];
        Res (lit "boot_method") [lit "elf"]; Res (lit "config") [lit "x;"; lit "lib:"; lit "/tmp"; lit "include"; lit "y"];
        Res (lit "lib") [lit "/usr"]] /\
  forall t', parse_options (fun _ => None) true true [(optConfig, Some (lit "x; lib: /tmp"))] [Res (lit "lib") [lit "/usr"]] = Done t' ->
    find_res (lit "lib") 0 t' = Some (Res (lit "lib") [lit "/usr"]).
Proof.
  split; [vm_compute; reflexivity|]. intros t' E.
  assert (Hok : table_ok [Res (lit "lib") [lit "/usr"]]) by (repeat (constructor || split); cbn; discriminate).
  pose proof (options_without_root (fun _ => None) true [(optConfig, Some (lit "x; lib: /tmp"))] [Res (lit "lib") [lit "/usr"]] Hok) as H.
  rewrite E in H. apply (proj2 H (lit "lib") 0%nat).
  compute_done.
Defined.

End ResMgrInv.
