(* ===== verification/ResMgrFile.v ===== *)
(** * What a configuration file means

    The lines of a file and its conditionals as a tree: parsing the file is
    the evaluation of the tree.  A table written as a file is read back. *)

From Stdlib Require Import String.
From S2P Require Import Prelude CString ResMgr ResMgrExp ResMgrInv.

Module ResMgrFile.
Import CString ResMgr ResMgrExp ResMgrInv.

#[local] Opaque expand_ref expand_buf.

Lemma of_opt_some {A B} (a : A) (f : A -> outcome B) : of_opt (Some a) ≫= f = f a.
Proof. done. Qed.

Lemma outcome_assoc {A B C} (o : outcome A) (f : A -> outcome B) (g : B -> outcome C) : (o ≫= f) ≫= g = o ≫= (fun a => f a ≫= g).
Proof. by destruct o. Qed.

Lemma outcome_ext {A B} (o : outcome A) (f g : A -> outcome B) : (forall a, o = Done a -> f a = g a) -> o ≫= f = o ≫= g.
Proof. destruct o; cbn; auto. Qed.

(** ** Blocks *)

Inductive block :=
  | Nil
  | Line (s : str) (p : block)
  | If (c : str) (a : block) (p : block)
  | IfElse (c : str) (a b : block) (p : block).

(** Lines have their line end. *)
Definition close_line : str := lit "}" ++ [10].
Definition else_line : str := lit "} else {" ++ [10].

Fixpoint lines_of (p : block) : list str :=
  match p with
  | Nil => []
  | Line s p => s :: lines_of p
  | If c a p => c :: lines_of a ++ close_line :: lines_of p
  | IfElse c a b p => c :: lines_of a ++ else_line :: lines_of b ++ close_line :: lines_of p
  end.

(** The keyword of a line that is also looked at in skipped code *)
Definition line_keyword (s : str) : option keyword :=
  match fields (zero_out false false s) with f :: _ => find_keyword keywords true f | [] => None end.

(** The condition of a line *)
Definition condition (t : table) (c : str) : option bool :=
  match fields (zero_out false false c), line_keyword c with
  | _ :: fs, Some Kifeq => ifeq_flag t fs
  | _ :: fs, Some Kifdef => ifdef_flag t fs
  | _ :: fs, Some Kifempty => b ← ifdef_flag t fs; Some (negb b)
  | _, _ => None
  end.

Definition cond_line (c : str) : bool :=
  match line_keyword c with Some Kifeq | Some Kifdef | Some Kifempty => true | _ => false end.

Fixpoint well_formed (p : block) : bool :=
  match p with
  | Nil => true
  | Line s p => bool_decide (line_keyword s = None) && well_formed p
  | If c a p => cond_line c && well_formed a && well_formed p
  | IfElse c a b p => cond_line c && well_formed a && well_formed b && well_formed p
  end.

Section Eval.
Context (include : option (str -> table -> outcome table)).

(** The evaluation of a block *)
Fixpoint eval (p : block) (t : table) : outcome table :=
  match p with
  | Nil => Done t
  | Line s p => '(r, t, _) ← do_add_res include s kAddTail st0 t; if (r =? 0 : bool) then eval p t else fatal
  | If c a p => b ← of_opt (condition t c); t ← (if (b : bool) then eval a t else Done t); eval p t
  | IfElse c a b p => v ← of_opt (condition t c); t ← (if (v : bool) then eval a t else eval b t); eval p t
  end.

(** The lines one after the other *)
Fixpoint run_lines (ls : list str) (st : parser_state_t) (t : table) : outcome (table * parser_state_t) :=
  match ls with
  | [] => Done (t, st)
  | l :: ls => '(r, t, st) ← do_add_res include l kAddTail st t; if (r =? 0 : bool) then run_lines ls st t else fatal
  end.

Lemma run_lines_app ls ls' st t : run_lines (ls ++ ls') st t = ('(t, st) ← run_lines ls st t; run_lines ls' st t).
Proof.
  revert st t. induction ls as [|l ls IH]; intros st t; [done|]. cbn [app run_lines]. rewrite outcome_assoc. apply outcome_ext.
  intros [[r t'] st'] _. destruct (r =? 0); [apply IH|done].
Qed.

(** ** Lines *)

Lemma find_keyword_skip f k : find_keyword keywords true f = Some k -> find_keyword keywords false f = Some k.
Proof.
  assert (H : forall ks, NoDup (map (fun x => x.1.2) ks) -> find_keyword ks true f = Some k -> find_keyword ks false f = Some k).
  { induction ks as [|[[si w] k'] ks IH]; intros Hnd E; [done|]. cbn [map fst snd] in Hnd. apply list.NoDup_cons in Hnd as [Hw Hnd].
    cbn [find_keyword negb orb andb] in *. destruct (strcmp_eq f w) eqn:Ew; [|rewrite andb_false_r in E; by apply IH].
    destruct si; [done|]. apply strcmp_true in Ew as ->. exfalso. apply Hw. cbn in E. clear - E. induction ks as [|[[si w'] k'] ks IH]; [done|].
    cbn [find_keyword map fst snd] in *. destruct (_ && strcmp_eq w w') eqn:Ew; [|right; by apply IH].
    apply andb_true_iff in Ew as [_ ->%strcmp_true]. left. }
  apply H. compute_done.
Qed.

Lemma line_inactive s st t : line_keyword s = None -> skipping st <> 0 -> do_add_res include s kAddTail st t = Done (0, t, st).
Proof.
  unfold line_keyword, do_add_res. intros E Hs. destruct (fields _) as [|f fs]; [done|]. change (tst kAddTail kAddSecure) with false.
  rewrite (proj2 (Z.eqb_neq _ _) Hs). cbn [negb]. by rewrite E.
Qed.

Lemma line_active s i t : line_keyword s = None ->
  do_add_res include s kAddTail (PState i 0 0) t = ('(r, t, _) ← do_add_res include s kAddTail st0 t; Done (r, t, PState i 0 0)).
Proof.
  unfold line_keyword, do_add_res. intros E. destruct (fields _) as [|f fs]; [done|]. change (tst kAddTail kAddSecure) with false.
  cbn [skipping st0 Z.eqb negb]. destruct (find_keyword keywords false f) as [k|] eqn:Ek.
  - assert (Hk : k = Kinclude \/ k = Kecho \/ k = Kfail).
    { clear - E Ek. cbn [find_keyword keywords negb orb andb] in E, Ek.
      repeat (match goal with H : (if ?b then _ else _) = _ |- _ => destruct b; [injection H as <-; tauto || done|] end). done. }
    destruct Hk as [-> | [-> | ->]]; cbn [run_keyword]; [|done..]. destruct include as [g|]; [|done]. by destruct (keyw_include g t fs).
  - by destruct (add_line f fs kAddTail t) as [[r t']| | |].
Qed.

Lemma cond_fields c : cond_line c = true -> exists f fs k, fields (zero_out false false c) = f :: fs /\ line_keyword c = Some k /\
  find_keyword keywords true f = Some k /\ (k = Kifeq \/ k = Kifdef \/ k = Kifempty).
Proof.
  unfold cond_line, line_keyword. destruct (fields _) as [|f fs]; [done|]. destruct (find_keyword keywords true f) as [k|] eqn:E; [|done].
  intros Hk. exists f, fs, k. split_and!; try done. destruct k; tauto || done.
Qed.

Lemma cond_step c st t : cond_line c = true ->
  do_add_res include c kAddTail st t = (b ← of_opt (condition t c); Done (0, t, keyw_do_if st b)).
Proof.
  intros (f & fs & k & Ef & El & Ek & Hk)%cond_fields. unfold do_add_res, condition. rewrite Ef, El. change (tst kAddTail kAddSecure) with false.
  assert (E : find_keyword keywords (negb (skipping st =? 0)) f = Some k) by (destruct (skipping st =? 0); [by apply find_keyword_skip|done]).
  rewrite E. destruct Hk as [-> | [-> | ->]]; cbn [run_keyword].
  - by destruct (ifeq_flag t fs).
  - by destruct (ifdef_flag t fs).
  - by destruct (ifdef_flag t fs).
Qed.

Lemma condition_total t c : table_ok t -> cond_line c = true -> is_Some (condition t c).
Proof.
  intros Ht (f & fs & k & Ef & El & Ek & Hk)%cond_fields. unfold condition. rewrite Ef, El.
  pose proof (fields_ok (zero_out false false c)) as Hf. rewrite Ef in Hf. apply list.Forall_cons in Hf as [_ Hf].
  assert (Hd : is_Some (ifdef_flag t fs)) by (destruct Hf as [|x l [Hx _] _]; [done|]; cbn [ifdef_flag]; by rewrite expand_buf_eq by (assumption || lia)).
  destruct Hk as [-> | [-> | ->]]; [|done|by destruct Hd as [b ->]].
  destruct Hf as [|x l [Hx _] Hl]; [done|]. cbn [ifeq_flag]. rewrite expand_buf_eq by (assumption || lia). cbn [mbind option_bind].
  apply any_field_total; [done|lia|done].
Qed.

Lemma close_step st t : do_add_res include close_line kAddTail st t = Done (0, t, endif st).
Proof.
  unfold do_add_res. replace (fields (zero_out false false close_line)) with [lit "}"] by (vm_compute; reflexivity).
  change (tst kAddTail kAddSecure) with false.
  replace (find_keyword keywords (negb (skipping st =? 0)) (lit "}")) with (Some Kendif) by (destruct (skipping st =? 0); vm_compute; reflexivity).
  done.
Qed.

Lemma else_step st t : table_ok t -> do_add_res include else_line kAddTail st t =
  Done (0, t, if dummy_if st =? 0 then PState (in_if st) (dummy_if st) (if skipping st =? 0 then 1 else 0) else st).
Proof.
  intros Ht. unfold do_add_res. replace (fields (zero_out false false else_line)) with [lit "}"; lit "else"; lit "{"] by (vm_compute; reflexivity).
  change (tst kAddTail kAddSecure) with false.
  replace (find_keyword keywords (negb (skipping st =? 0)) (lit "}")) with (Some Kendif) by (destruct (skipping st =? 0); vm_compute; reflexivity).
  cbn [run_keyword]. unfold keyw_endif. cbn [any_field]. rewrite expand_buf_eq by (assumption || lia || by repeat constructor).
  rewrite expand_plain by (vm_compute; reflexivity). done.
Qed.

(** ** Blocks *)

(** Skipped code has no effect. *)
Lemma run_skipped p : well_formed p = true -> forall i j k t, table_ok t -> 0 <= j -> 0 < k ->
  run_lines (lines_of p) (PState i j k) t = Done (t, PState i j k).
Proof.
  induction p as [|s p IH|c a IHa p IH|c a IHa b IHb p IH]; intros Hw i j k t Ht Hj Hk; [done| | |]; cbn [lines_of run_lines well_formed] in *;
    rewrite ?andb_true_iff, ?bool_decide_eq_true in Hw.
  - destruct Hw as [Hs Hw]. rewrite line_inactive by (done || cbn; lia). cbn. by apply IH.
  - destruct Hw as [[Hc Ha] Hw]. rewrite cond_step by done. destruct (condition_total t c Ht Hc) as [b ->]. cbn [of_opt mbind outcome_bind].
    unfold keyw_do_if. cbn [skipping in_if dummy_if]. rewrite (proj2 (Z.eqb_neq k 0)) by lia. cbn [Z.eqb].
    rewrite run_lines_app, IHa by (done || lia). cbn [mbind outcome_bind run_lines]. rewrite close_step. cbn [mbind outcome_bind Z.eqb].
    unfold endif. cbn [skipping in_if dummy_if]. rewrite (proj2 (Z.eqb_neq (j + 1) 0)) by lia. rewrite !Z.add_simpl_r. by apply IH.
  - destruct Hw as [[[Hc Ha] Hb] Hw]. rewrite cond_step by done. destruct (condition_total t c Ht Hc) as [v ->]. cbn [of_opt mbind outcome_bind].
    unfold keyw_do_if. cbn [skipping in_if dummy_if]. rewrite (proj2 (Z.eqb_neq k 0)) by lia. cbn [Z.eqb].
    rewrite run_lines_app, IHa by (done || lia). cbn [mbind outcome_bind run_lines]. rewrite else_step by done. cbn [mbind outcome_bind Z.eqb dummy_if].
    rewrite (proj2 (Z.eqb_neq (j + 1) 0)) by lia. rewrite run_lines_app, IHb by (done || lia). cbn [mbind outcome_bind run_lines].
    rewrite close_step. cbn [mbind outcome_bind Z.eqb]. unfold endif. cbn [skipping in_if dummy_if].
    rewrite (proj2 (Z.eqb_neq (j + 1) 0)) by lia. rewrite !Z.add_simpl_r. by apply IH.
Qed.

Context (Hinc : good_include include).

Lemma eval_grows p : forall t, table_ok t -> single t -> well_formed p = true -> ends (grows t) (eval p t).
Proof.
  induction p as [|s p IH|c a IHa p IH|c a IHa b IHb p IH]; intros t Ht Hs Hw; cbn [eval well_formed] in *; rewrite ?andb_true_iff in Hw.
  - by apply grows_refl.
  - eapply ends_bind; [by apply do_add_res_ends|]. intros [[r u] st] Hg. cbn [fst snd] in Hg. destruct (r =? 0); [|done].
    eapply ends_imp; [apply IH; try apply Hg; tauto|]. intros v Hv. by eapply grows_trans.
  - destruct Hw as [[Hc Ha] Hw]. destruct (condition_total t c Ht Hc) as [v ->]. rewrite of_opt_some.
    eapply (ends_bind (grows t)); [destruct v; [by apply IHa|by apply grows_refl]|]. intros u Hu.
    eapply ends_imp; [apply IH; try apply Hu; done|]. intros w Hv. by eapply grows_trans.
  - destruct Hw as [[[Hc Ha] Hb] Hw]. destruct (condition_total t c Ht Hc) as [v ->]. rewrite of_opt_some.
    eapply (ends_bind (grows t)); [destruct v; [by apply IHa|by apply IHb]|]. intros u Hu.
    eapply ends_imp; [apply IH; try apply Hu; done|]. intros w Hv. by eapply grows_trans.
Qed.

(** Reading the lines is evaluating the block. *)
Lemma run_active p : forall t i, table_ok t -> single t -> well_formed p = true ->
  run_lines (lines_of p) (PState i 0 0) t = (t ← eval p t; Done (t, PState i 0 0)).
Proof.
  induction p as [|s p IH|c a IHa p IH|c a IHa b IHb p IH]; intros t i Ht Hs Hw; [done| | |]; cbn [lines_of run_lines eval well_formed] in *;
    rewrite ?andb_true_iff, ?bool_decide_eq_true in Hw.
  - destruct Hw as [Hl Hw]. rewrite line_active by done. rewrite !outcome_assoc. apply outcome_ext. intros [[r u] st] E.
    pose proof (do_add_res_ends include s st0 t Hinc Ht Hs) as Hg. rewrite E in Hg. cbn [ends fst snd] in Hg. cbn [mbind outcome_bind].
    destruct (r =? 0); [|done]. by apply IH; try apply Hg.
  - destruct Hw as [[Hc Ha] Hw]. rewrite cond_step by done. destruct (condition_total t c Ht Hc) as [v ->]. rewrite !of_opt_some.
    unfold keyw_do_if. cbn [mbind outcome_bind skipping in_if dummy_if Z.eqb]. rewrite run_lines_app. destruct v.
    + rewrite IHa by done. rewrite !outcome_assoc. apply outcome_ext. intros u E. pose proof (eval_grows a t Ht Hs Ha) as Hg. rewrite E in Hg.
      cbn [mbind outcome_bind run_lines]. rewrite close_step. cbn [mbind outcome_bind Z.eqb]. unfold endif. cbn [skipping in_if dummy_if Z.eqb].
      rewrite Z.add_simpl_r. by apply IH; try apply Hg.
    + rewrite run_skipped by (done || lia). cbn [mbind outcome_bind run_lines]. rewrite close_step. cbn [mbind outcome_bind Z.eqb].
      unfold endif. cbn [skipping in_if dummy_if Z.eqb]. rewrite Z.add_simpl_r. by apply IH.
  - destruct Hw as [[[Hc Ha] Hb] Hw]. rewrite cond_step by done. destruct (condition_total t c Ht Hc) as [v ->]. rewrite !of_opt_some.
    unfold keyw_do_if. cbn [mbind outcome_bind skipping in_if dummy_if Z.eqb]. rewrite run_lines_app. destruct v.
    + rewrite IHa by done. rewrite !outcome_assoc. apply outcome_ext. intros u E. pose proof (eval_grows a t Ht Hs Ha) as Hg. rewrite E in Hg.
      cbn [mbind outcome_bind run_lines]. rewrite else_step by apply Hg. cbn [mbind outcome_bind Z.eqb skipping in_if dummy_if].
      rewrite run_lines_app, run_skipped by (done || lia || apply Hg). cbn [mbind outcome_bind run_lines]. rewrite close_step.
      cbn [mbind outcome_bind Z.eqb]. unfold endif. cbn [skipping in_if dummy_if Z.eqb]. rewrite Z.add_simpl_r. by apply IH; try apply Hg.
    + rewrite run_skipped by (done || lia). cbn [mbind outcome_bind run_lines]. rewrite else_step by done.
      cbn [mbind outcome_bind Z.eqb skipping in_if dummy_if]. rewrite run_lines_app, IHb by done. rewrite !outcome_assoc. apply outcome_ext.
      intros u E. pose proof (eval_grows b t Ht Hs Hb) as Hg. rewrite E in Hg.
      cbn [mbind outcome_bind run_lines]. rewrite close_step. cbn [mbind outcome_bind Z.eqb]. unfold endif. cbn [skipping in_if dummy_if Z.eqb].
      rewrite Z.add_simpl_r. by apply IH; try apply Hg.
Qed.
End Eval.
(** ** Files *)

(** A line with its end, as [fgets] gives it; it is not joined with the next. *)
Definition whole_line (l : str) : Prop :=
  exists body, l = body ++ [10] /\ nonul body /\ ~ In 10 body /\ (length body < 4095)%nat /\ list.last body <> Some 92.

Lemma last_lookup_le (body : list Z) c : body !! (length body - 1)%nat = Some c -> list.last body = Some c.
Proof. intros E. rewrite last_lookup. by replace (Nat.pred (length body)) with (length body - 1)%nat by lia. Qed.

Lemma join_whole body fuel t : list.last body <> Some 92 -> join (S fuel) (body ++ [10]) t = Done (body ++ [10], t).
Proof.
  intros Hl. cbn [join]. destruct (_ || _) eqn:E; [done|]. rewrite !orb_false_iff, negb_false_iff, bool_decide_eq_true in E.
  destruct E as ((_ & Hn%Nat.ltb_ge) & E). assert (E' : (body ++ [10] : list Z) !! (length body - 1)%nat = Some 92).
  { rewrite length_app in E. cbn [length] in E. by replace (length body - 1)%nat with (length body + 1 - 2)%nat by lia. }
  rewrite length_app in Hn. cbn [length] in Hn. rewrite lookup_app_l in E' by lia. by apply last_lookup_le in E'.
Qed.

Lemma parse_lines_run inc ls : Forall whole_line ls -> forall fuel st t, (length (concat ls) < fuel)%nat ->
  parse_lines inc fuel (concat ls) kAddTail st t = run_lines inc ls st t.
Proof.
  induction 1 as [|l ls (body & -> & Hn & H10 & Hlen & Hlast) _ IH]; intros fuel st t Hf; (destruct fuel as [|fuel]; [lia|]); [done|].
  cbn [concat] in *. rewrite <- app_assoc in *. cbn [app] in *. cbn [parse_lines run_lines]. rewrite fgets_line by done.
  rewrite cstr_id by (apply Forall_app; split; [done|by repeat constructor]).
  rewrite bool_decide_eq_false_2 by (by destruct body). rewrite join_whole by done.
  cbn [mbind outcome_bind]. apply outcome_ext. intros [[r u] st2] _. destruct (r =? 0); [|done]. apply IH.
  rewrite length_app in Hf. cbn in Hf. lia.
Qed.

(** What [keyw_include] does at a depth *)
Definition include_at (file : str -> option str) (d : nat) : option (str -> table -> outcome table) :=
  match d with O => None | S d => Some (fun fname t => parse_res_file file d fname kAddTail t) end.

Lemma include_at_good file d : good_include (include_at file d).
Proof. destruct d; [done|]. intros fname t. apply parse_res_file_ends. Qed.

(** C13: A file made of lines and properly nested conditionals means what it
    looks like: parsing it evaluates the conditions in order, executes the
    lines of the branches taken, and has no effect for the others, whatever
    these contain; includes are done where they stand. *)
Theorem parse_res_file_eval file d fname p t :
  file fname = Some (concat (lines_of p)) -> Forall whole_line (lines_of p) -> well_formed p = true -> table_ok t -> single t ->
  parse_res_file file d fname kAddTail t = eval (include_at file d) p t.
Proof.
  intros Ef Hl Hw Ht Hs.
  assert (E : parse_res_file file d fname kAddTail t =
    ('(t, st) ← parse_lines (include_at file d) (S (length (concat (lines_of p)))) (concat (lines_of p)) kAddTail st0 t;
     if negb (in_if st =? 0) || negb (dummy_if st =? 0) then fatal else Done t)) by (destruct d; cbn [parse_res_file]; rewrite Ef; reflexivity).
  rewrite E, parse_lines_run by (done || lia). change st0 with (PState 0 0 0).
  rewrite run_active by (done || apply include_at_good). by destruct (eval _ p t).
Qed.

Definition ln (s : string) : str := lit s ++ [10].

Definition ex_block : block :=
  Line (ln "boot_type: osx")
    (IfElse (ln "ifeq ${boot_type} osx linux {")
       (IfElse (ln "ifdef ${none} {") (Line (ln "x: 1") Nil) (If (ln "ifempty {") (Line (ln "fail") Nil) (Line (ln "x: 2") Nil)) Nil)
       (IfElse (ln "ifndef ${boot_type} {") (Line (ln "include nowhere") Nil) (Line (ln "bad") Nil) Nil)
       (Line (ln "y: '${x}-${boot_type}'") Nil)).

Lemma whole_line_ln s : nonul (lit s) -> ~ In 10 (lit s) -> (length (lit s) < 4095)%nat -> list.last (lit s) <> Some 92 -> whole_line (ln s).
Proof. intros. by exists (lit s). Qed.

Lemma parse_res_file_eval_witness :
  parse_res_file (fun _ => Some (concat (lines_of ex_block))) 0 (lit "molrc") kAddTail [] = eval None ex_block [] /\
  eval None ex_block [] = Done [Res (lit "boot_type") [lit "osx"]; Res (lit "x") [lit "2"]; Res (lit "y") [lit "2-osx"]].
Proof.
  split; [|vm_compute; reflexivity].
  apply (parse_res_file_eval (fun _ => Some (concat (lines_of ex_block))) 0 (lit "molrc") ex_block []).
  - reflexivity.
  - cbn [lines_of ex_block app]. repeat (apply list.Forall_cons; split);
      try (apply whole_line_ln; [repeat constructor; discriminate|cbn; intros H; repeat destruct H as [H|H]; discriminate || exact H|cbn; lia|cbn; discriminate]).
    apply list.Forall_nil_2.
  - vm_compute. reflexivity.
  - constructor.
  - intros k _. reflexivity.
Defined.

(** ** Written tables *)

Definition print_arg (a : str) : str := 32 :: 34 :: a ++ [34].
Definition print_res (r : res_t) : str := key r ++ 58 :: concat (map print_arg (dargs r)) ++ [10].

Definition good_arg (a : str) : Prop :=
  nonul a /\ a <> [] /\ ~ In 34 a /\ ~ In 10 a /\ find_var a = None /\ (length a <= 255)%nat.

Definition good_res (r : res_t) : Prop :=
  good_key (key r) = true /\ Forall good_arg (dargs r) /\ (length (print_res r) <= 4095)%nat.

Lemma zero_out_quoted a r : ~ In 34 a -> zero_out true false (a ++ 34 :: r) = a ++ 0 :: zero_out false false r.
Proof.
  induction a as [|c a IH]; intros Hn; [done|]. cbn [app zero_out negb andb].
  destruct (Z.eqb_spec c 34) as [->|_]; [by destruct Hn; left|]. cbn [negb andb orb]. rewrite IH; [done|]. intros H. apply Hn. by right.
Qed.

Lemma print_fields args : Forall good_arg args -> fields (zero_out false false (concat (map print_arg args) ++ [10])) = args.
Proof.
  induction 1 as [|a args (Ha & Hne & H34 & _) _ IH]; [done|]. cbn [map concat]. unfold print_arg at 1. rewrite <- app_assoc.
  change (zero_out false false ((32 :: 34 :: a ++ [34]) ++ ?r)) with (0 :: 0 :: zero_out true false ((a ++ [34]) ++ r)).
  rewrite !fields_zero, <- app_assoc. cbn [app]. rewrite zero_out_quoted, fields_word by done. by rewrite <- app_assoc, IH || rewrite IH.
Qed.

Lemma print_res_fields r : good_res r -> fields (zero_out false false (print_res r)) = (key r ++ lit ":") :: dargs r.
Proof.
  intros (Hk & Ha & _). pose proof Hk as (Hp & Hn & _)%good_key_spec. unfold print_res. rewrite zero_out_plain by done.
  rewrite <- (print_fields (dargs r)) at 2 by done.
  assert (E : exists l, zero_out false false (concat (map print_arg (dargs r)) ++ [10]) = 0 :: l)
    by (destruct (dargs r) as [|a l]; [by eexists|]; cbn [map concat]; unfold print_arg at 1; by eexists).
  destruct E as [l E]. change (zero_out false false (58 :: ?x)) with (58 :: zero_out false false x). rewrite E, fields_zero.
  replace (key r ++ 58 :: 0 :: l) with ((key r ++ lit ":") ++ 0 :: l) by by rewrite <- app_assoc.
  apply fields_word; [apply Forall_app; split; [by apply plain_nonul|by repeat constructor]|by destruct (key r)].
Qed.

Lemma print_res_line r : good_res r -> whole_line (print_res r).
Proof.
  intros (Hk & Ha & Hl). pose proof Hk as (Hp & Hn & _)%good_key_spec. exists (key r ++ 58 :: concat (map print_arg (dargs r))).
  assert (Hb : Forall (fun c => c <> 0 /\ c <> 10) (concat (map print_arg (dargs r)))).
  { clear - Ha. induction Ha as [|a l (Ha & _ & _ & H10 & _) _ IH]; cbn [map concat]; [constructor|]. apply Forall_app. split; [|done].
    unfold print_arg. apply list.Forall_cons; split; [done|]. apply list.Forall_cons; split; [done|]. apply Forall_app. split; [|by repeat constructor].
    apply list.Forall_forall. intros c Hc. split; [by apply (proj1 (list.Forall_forall _ _) Ha)|]. intros ->. apply H10. by apply list_elem_of_In. }
  assert (Hk2 : Forall (fun c => c <> 0 /\ c <> 10) (key r)).
  { clear - Hp. revert Hp. induction (key r) as [|c w IH]; [constructor|]. cbn [plain forallb].
    rewrite andb_true_iff, negb_true_iff, orb_false_iff, bool_decide_eq_false. intros ((Hc & Hs) & Hw).
    apply list.Forall_cons. split; [|by apply IH]. rewrite not_elem_of_cons in Hc. split; [tauto|]. by intros ->. }
  split_and!.
  - unfold print_res. by rewrite <- app_assoc.
  - apply Forall_app. split; [by eapply list.Forall_impl; [exact Hk2|]; intros ? []|]. apply list.Forall_cons. split; [done|].
    eapply list.Forall_impl; [exact Hb|]. by intros ? [].
  - rewrite in_app_iff. intros [H|[H|H]]; [|done|]; apply list_elem_of_In in H;
      [apply (proj1 (list.Forall_forall _ _) Hk2) in H|apply (proj1 (list.Forall_forall _ _) Hb) in H]; by destruct H.
  - unfold print_res in Hl. rewrite !length_app in Hl. cbn [length] in Hl. rewrite length_app in Hl. rewrite length_app. cbn in *. lia.
  - destruct (dargs r) as [|a0 l0] using rev_ind; [change (key r ++ 58 :: concat (map print_arg [])) with (key r ++ [58]); by rewrite list.last_snoc|].
    rewrite map_app, concat_app. cbn [map concat]. rewrite app_nil_r. unfold print_arg at 2.
    replace (key r ++ 58 :: concat (map print_arg l0) ++ 32 :: 34 :: a0 ++ [34]) with ((key r ++ 58 :: concat (map print_arg l0) ++ 32 :: 34 :: a0) ++ [34])
      by (by rewrite <- !app_assoc; cbn; rewrite <- !app_assoc). by rewrite list.last_snoc.
Qed.

Lemma find_res_second k t x r rs : find_res k 0 t = Some x -> key r = k -> is_Some (find_res k 1 (t ++ r :: rs)).
Proof.
  intros E Hk. induction t as [|y t IH]; [done|]. cbn [find_res app] in *. destruct (strcmp_eq (key y) k); [|by apply IH].
  clear - Hk. induction t as [|z t IH]; cbn [app find_res]; [by rewrite Hk, strcmp_refl|]. by destruct (strcmp_eq _ _).
Qed.

Lemma run_print inc rs : Forall good_res rs -> forall t, table_ok t -> single (t ++ rs) -> run_lines inc (map print_res rs) st0 t = Done (t ++ rs, st0).
Proof.
  induction 1 as [|r rs Hr _ IH]; intros t Ht Hs; [by rewrite app_nil_r|]. cbn [map run_lines].
  pose proof (print_res_fields r Hr) as Ef. pose proof Hr as (Hk & Ha & _).
  assert (Hok : Forall (fun f => nonul f /\ f <> []) (dargs r)) by (eapply list.Forall_impl; [exact Ha|]; intros a (? & ? & _); done).
  assert (E : do_add_res inc (print_res r) kAddTail st0 t = Done (0, t ++ [r], st0)).
  { unfold do_add_res. rewrite Ef. change (tst kAddTail kAddSecure) with false. cbn [skipping st0 Z.eqb negb].
    rewrite keyword_no_colon, add_line_good by assumption.
    assert (Ec : res_present (key r) t && negb (tst kAddTail kAddHead) && negb (bool_decide (key r ∈ multi_res)) = false).
    { destruct (res_present (key r) t) eqn:Ep; [|done]. cbn. apply negb_false_iff, bool_decide_eq_true. apply bool_decide_eq_true in Ep as [x Ex].
      destruct (decide (key r ∈ multi_res)) as [|Hn]; [done|]. destruct (find_res_second _ _ _ r rs Ex eq_refl) as [y Ey]. by rewrite (Hs _ Hn) in Ey. }
    rewrite Ec. change (tst kAddTail kAddTail) with true. cbn [mbind outcome_bind].
    assert (Em : map (fun f => take 255 (expand_ref t 10 f)) (dargs r) = dargs r).
    { clear - Ha. induction Ha as [|a l (_ & _ & _ & _ & Hv & Hl) _ IH]; [done|]. cbn [map]. by rewrite expand_plain, take_ge, IH by (assumption || lia). }
    rewrite Em. by destruct r. }
  rewrite E. cbn [mbind outcome_bind Z.eqb]. rewrite IH; [by rewrite <- app_assoc| |by rewrite <- app_assoc].
  apply Forall_app. split; [done|]. constructor; [|constructor]. split; [apply plain_nonul; by apply good_key_spec in Hk as [? _]|].
  eapply list.Forall_impl; [exact Hok|]. by intros ? [].
Qed.

(** C17: A table is read back from the file that lists its resources with
    quoted arguments, whatever characters these contain (hashes, commas,
    spaces, single quotes, semicolons), as long as they are not empty, hold no
    double quote, line end or variable, and fit the buffers. *)
Theorem print_parse file d fname t :
  file fname = Some (concat (map print_res t)) -> Forall good_res t -> single t ->
  parse_res_file file d fname kAddTail [] = Done t.
Proof.
  intros Ef Hg Hs.
  assert (E : parse_res_file file d fname kAddTail [] =
    ('(t, st) ← parse_lines (include_at file d) (S (length (concat (map print_res t)))) (concat (map print_res t)) kAddTail st0 [];
     if negb (in_if st =? 0) || negb (dummy_if st =? 0) then fatal else Done t)) by (destruct d; cbn [parse_res_file]; rewrite Ef; reflexivity).
  rewrite E, parse_lines_run; [rewrite run_print; [reflexivity|exact Hg|constructor|exact Hs]| |lia]. apply Forall_map. eapply list.Forall_impl; [exact Hg|]. apply print_res_line.
Qed.

Definition ex_print : table :=
  [Res (lit "blkdev") [lit "/dev/hda, 'x' # y"; lit "-rw"]; Res (lit "disable_osx") []; Res (lit "blkdev") [lit "a;b"]].

Lemma print_parse_witness : parse_res_file (fun _ => Some (concat (map print_res ex_print))) 3 (lit "f") kAddTail [] = Done ex_print.
Proof.
  apply (print_parse (fun _ => Some (concat (map print_res ex_print))) 3 (lit "f") ex_print eq_refl).
  - assert (Ha : forall s, nonul (lit s) -> lit s <> [] -> forallb (fun c => negb ((c =? 34) || (c =? 10))) (lit s) = true ->
      find_var (lit s) = None -> (length (lit s) <= 255)%nat -> good_arg (lit s)).
    { intros s H1 H2 H3 H4 H5. rewrite forallb_forall in H3. split_and!; try done; intros H; by specialize (H3 _ H). }
    repeat (apply list.Forall_cons; split); try apply list.Forall_nil_2; (split; [vm_compute; reflexivity|split; [|cbn; lia]]);
      repeat (apply list.Forall_cons; split); try apply list.Forall_nil_2;
      (apply Ha; [repeat constructor; discriminate|discriminate|vm_compute; reflexivity|vm_compute; reflexivity|cbn; lia]).
  - intros k Hk. cbn [find_res ex_print key]. destruct (strcmp_eq (lit "blkdev") k) eqn:E; [|by destruct (strcmp_eq (lit "disable_osx") k)].
    apply strcmp_true in E as <-. destruct Hk. compute_done.
Defined.

End ResMgrFile.
