(* ===== verification/Blkdev.v ===== *)
(** * Disks to export ([src/drivers/disk/blkdev.c])

    The disks of the configuration are opened, inspected and kept in a list
    from which the drivers claim them.  A pointer to a [bdev_desc_t] is the
    number of its allocation; the descriptors that are open are part of the
    state. *)

From Stdlib Require Import String.
From S2P Require Import Prelude Qcow BlockDev CString DiskOpen ResMgr.

Module Blkdev.
Import BlockDev CString ResMgr.

Definition kDiskTypeUnknown : Z := 1.
Definition kDiskTypeHFSPlus : Z := 2.
Definition kDiskTypeHFS : Z := 4.
Definition kDiskTypeHFSX : Z := 8.
Definition kDiskTypeUFS : Z := 16.
Definition kDiskTypePartitioned : Z := 32.
Definition kDiskTypeRaw : Z := 64.
Definition kDiskTypeQCow : Z := 128.
Definition kDiskTypeDMG : Z := 256.

Definition BOOTSTRAP_SIZE_KB : Z := 20 * 1024.
Definition DESC_MAP_SIGNATURE : Z := 0x4552.
Definition HFS_PLUS_SIGNATURE : Z := 0x482b.
Definition HFS_SIGNATURE : Z := 0x4244.
Definition HFSX_SIGNATURE : Z := 0x4858.

Definition blk_opts : list opt_entry_t :=
  [(lit "-ro", 0); (lit "-rw", BF_ENABLE_WRITE); (lit "-force", BF_FORCE);
   (lit "-cdrom", BF_CD_ROM .| BF_WHOLE_DISK .| BF_REMOVABLE); (lit "-cd", BF_CD_ROM .| BF_WHOLE_DISK .| BF_REMOVABLE);
   (lit "-cdboot", BF_BOOT1 .| BF_BOOT); (lit "-boot", BF_BOOT); (lit "-boot1", BF_BOOT1 .| BF_BOOT);
   (lit "-whole", BF_WHOLE_DISK); (lit "-removable", BF_REMOVABLE);
   (lit "-drvdisk", BF_DRV_DISK .| BF_REMOVABLE); (lit "-ignore", BF_IGNORE)].

Inductive setup_type := kMacVolumes | kLinuxDisks.

(** ** The formats

    What [raw_open], [qcow_open] and [dmg_open] leave in the [bdev_desc_t] of
    an open descriptor: the device, its size in bytes, its flags.
    [qcow_backing] is the name of the backing file which [qcow_open] opens with
    [disk_open], if it comes to that; the descriptor it gets (-1 for none, or
    when it cannot be opened) is its second argument. *)
Class DiskFormats (D : Type) := {
  raw_open : Z -> D * Z;
  qcow_backing : Z -> option str;
  qcow_open : Z -> Z -> D * Z * Z;
  dmg_open : Z -> D * Z * Z
}.

Section Disks.
Context {D : Type} `{BlockDev D} `{DiskFormats D}.

(** The answers of the system to the [k]th [disk_open], the first bytes of an
    open file, the value of the uninitialised [ro_fallback] *)
Context (hosts : nat -> str -> DiskOpen.host) (head : Z -> list Z) (junk : nat -> bool).

(** [backing_hd] is that of the private state of a copy-on-write image, -1
    for the other formats. *)
Record bdev_desc_t := Bdev {
  bid : nat; fd : Z; flags : Z; bsize : Z; dev_name : str; vol_name : option str; priv_claimed : bool;
  backing_hd : Z; dev : D
}.
Definition set_flags v b :=
  Bdev (bid b) (fd b) v (bsize b) (dev_name b) (vol_name b) (priv_claimed b) (backing_hd b) (dev b).
Definition set_claimed v b :=
  Bdev (bid b) (fd b) (flags b) (bsize b) (dev_name b) (vol_name b) v (backing_hd b) (dev b).

Record blk := Blk {
  s_all_disks : list bdev_desc_t; next_id : nat; reserved : list DiskOpen.dev_entry_t; open_fds : list Z; nopen : nat
}.
Definition set_all v s := Blk v (next_id s) (reserved s) (open_fds s) (nopen s).
Definition set_fds v s := Blk (s_all_disks s) (next_id s) (reserved s) v (nopen s).

Fixpoint remove_fd (x : Z) (l : list Z) : list Z :=
  match l with [] => [] | y :: l => if y =? x then l else y :: remove_fd x l end.

Definition close (x : Z) (s : blk) : blk := set_fds (remove_fd x (open_fds s)) s.

Definition disk_open (name : str) (fl : Z) (ro silent : bool) (s : blk) : run (Z * option bool * blk) :=
  '(r, ro, rs) ← of_option (DiskOpen.disk_open (hosts (nopen s) name) name fl ro silent (reserved s));
  Ok (r, ro, Blk (s_all_disks s) (next_id s) rs (if r <? 0 then open_fds s else r :: open_fds s) (S (nopen s))).

(** ** Inspection *)

Definition ends_with (s t : str) : bool := strcmp_eq (drop (length s - length t) s) t.

(** [qcow_open] opens the backing file, always read-only. *)
Definition open_backing (x : Z) (s : blk) : run (Z * blk) :=
  match qcow_backing x with
  | None => Ok (-1, s)
  | Some name => '(y, _, s) ← disk_open name 0 (junk (nopen s)) false s; Ok (y, s)
  end.

(** The type, device, size and flags of the [bdev_desc_t], the descriptor of
    the backing file *)
Definition find_disk_type (x : Z) (name : str) (s : blk) : run (Z * (D * Z * Z) * Z * blk) :=
  let raw := (raw_open x, 0) in
  if negb (length (head x) =? 512)%nat then Ok (kDiskTypeUnknown, raw, -1, s)
  else if strncmp_eq name (lit "images/moldisk.dmg") 18 || strncmp_eq name (lit "images/moldiskX.dmg") 19 then
    Ok (kDiskTypeRaw, raw, -1, s)
  else if be_value (take 4 (head x)) =? Qcow.QCOW_MAGIC then
    '(y, s) ← open_backing x s; Ok (kDiskTypeQCow, qcow_open x y, y, s)
  else if (4 <? length name)%nat && ends_with name (lit ".dmg") then Ok (kDiskTypeDMG, dmg_open x, -1, s)
  else Ok (kDiskTypeRaw, raw, -1, s).

Definition be16 (i : nat) (l : list Z) : Z := be_value (take 2 (drop i l)).

(** The block at [block], if it can be read *)
Definition read_block (block : Z) (d : D) : run (option (list Z) * D) :=
  let '(_, d) := bd_seek block 0 d in
  '(r, _, l, d) ← bd_read [512] d;
  Ok (if r =? 512 then Some l else None, d).

(** The type, the name of the volume *)
Definition inspect_disk (type : Z) (d : D) : run (Z * option str * D) :=
  if type =? kDiskTypeUnknown then Ok (kDiskTypeUnknown, Some (lit "- Unknown -"), d) else
  '(b, d) ← read_block 0 d;
  match b with
  | None => Ok (kDiskTypeUnknown, None, d)
  | Some buf =>
      if be16 0 buf =? DESC_MAP_SIGNATURE then Ok (kDiskTypePartitioned, Some (lit "- Partioned -"), d) else
      '(b, d) ← read_block 2 d;
      match b with
      | None => Ok (kDiskTypeUnknown, None, d)
      | Some mdb =>
          let signature := be16 0 mdb in
          if signature =? HFS_PLUS_SIGNATURE then Ok (kDiskTypeHFSPlus, None, d)
          else if signature =? HFSX_SIGNATURE then Ok (kDiskTypeHFSX, None, d)
          else if signature =? HFS_SIGNATURE then
            let vname := cstr (take (Z.to_nat (be_value (take 1 (drop 36 mdb)))) (drop 37 mdb)) in
            Ok (if be16 124 mdb =? HFS_PLUS_SIGNATURE then kDiskTypeHFSPlus else kDiskTypeHFS, Some vname, d)
          else Ok (kDiskTypeUnknown, None, d)
      end
  end.

(** ** Registering *)

Definition register_disk (d : D) (hd bf : Z) (name : str) (vol : option str) (x fl blocks : Z) (s : blk) : blk :=
  Blk (Bdev (next_id s) x (bf .| fl) (512 * u32 blocks) name vol false hd d :: s_all_disks s) (S (next_id s))
    (reserved s) (open_fds s) (nopen s).

Definition no_write (fl : Z) : Z := fl .& not32 BF_ENABLE_WRITE.

(** Whether the disk is refused *)
Definition refused (type fl size : Z) (constructed : bool) : bool :=
  (if tst type (kDiskTypeHFSPlus .| kDiskTypeHFSX .| kDiskTypeHFS .| kDiskTypeUFS) then false
   else if tst type kDiskTypePartitioned then constructed
   else negb (tst fl BF_FORCE)) ||
  (tst fl BF_ENABLE_WRITE && tst type (kDiskTypeHFSPlus .| kDiskTypeHFS) &&
   (size / 1024 <? BOOTSTRAP_SIZE_KB) && negb (tst fl BF_FORCE)).

(** The allocation succeeds.  A refused disk is freed after [close] of its
    descriptor, without [dev->close]. *)
Definition open_mac_disk (name : str) (fl : Z) (constructed : bool) (s : blk) : run (Z * blk) :=
  let ro_fallback := junk (nopen s) in
  '(x, ro, s) ← disk_open name fl ro_fallback constructed s;
  if x <? 0 then Ok (-1, s) else
  '(type, (d, size, bf), hd, s) ← find_disk_type x name s;
  '(type2, vol, d) ← inspect_disk type d;
  let fl := if default ro_fallback ro then no_write fl else fl in
  if refused (type .| type2) fl size constructed then Ok (-1, close x s)
  else Ok (0, register_disk d hd bf name vol x fl (size / 512) s).

(** The partitions [i] and up, [n] of them *)
Fixpoint open_parts (n : nat) (i : Z) (name : str) (fl : Z) (s : blk) : run blk :=
  match n with
  | O => Ok s
  | S n => '(_, s) ← open_mac_disk (name ++ dec i) fl true s; open_parts n (i + 1) name fl s
  end.

(** A whole disk of [dev_list] *)
Definition whole_dev (name : str) : bool :=
  existsb (fun p => strncmp_eq p name (length p) && (length name =? length p + 1)%nat) [lit "/dev/sd"; lit "/dev/hd"].

Definition setup_mac_disk (name : str) (fl : Z) (s : blk) : run blk :=
  if negb (tst fl BF_WHOLE_DISK) && whole_dev name then
    open_parts 31 1 name ((fl .| BF_SUBDEVICE) .& not32 BF_FORCE) s
  else '(_, s) ← open_mac_disk name fl false s; Ok s.

Definition setup_linux_disk (name : str) (fl : Z) (s : blk) : run blk :=
  '(x, ro, s) ← disk_open name fl false false s;
  if x <? 0 then Ok s else
  let fl := if default false ro then no_write fl else fl in
  let '(d, size) := raw_open x in
  Ok (register_disk d (-1) 0 name None x fl (size / 512) s).

(** ** Setting up *)

(** The loop over the resources from index [i] on; [ro] is [ro_fallback]. *)
Fixpoint setup_loop (fuel i : nat) (res_name : str) (type : setup_type) (ro : bool) (t : table) (s : blk) : run blk :=
  match fuel with
  | O => BlockDev.Fuel
  | S fuel =>
      match get_str_res_ind res_name i 0 t with
      | None => Ok s
      | Some name =>
          fl ← (match parse_res_options res_name i 1 blk_opts t with Done fl => Ok fl | _ => BlockDev.Fuel end);
          if tst fl BF_IGNORE then setup_loop fuel (S i) res_name type ro t s
          else if tst fl BF_CD_ROM then
            let fl := no_write fl in
            '(x, ro2, s) ← disk_open name fl ro false s;
            let ro := default ro ro2 in
            if x <? 0 then setup_loop fuel (S i) res_name type ro t s
            else let '(d, _) := raw_open x in
                 setup_loop fuel (S i) res_name type ro t (register_disk d (-1) 0 name (Some (lit "CD/DVD")) x fl 0 s)
          else
            s ← match type with kMacVolumes => setup_mac_disk name fl s | kLinuxDisks => setup_linux_disk name fl s end;
            setup_loop fuel (S i) res_name type ro t s
      end
  end.

(** With a disk to boot from first, the others are not booted from. *)
Definition boot_override (l : list bdev_desc_t) : list bdev_desc_t :=
  if existsb (fun b => tst (flags b) BF_BOOT1) l
  then map (fun b => if tst (flags b) BF_BOOT1 then b else set_flags (flags b .& not32 BF_BOOT) b) l
  else l.

Definition setup_disks (res_name : str) (type : setup_type) (t : table) (s : blk) : run blk :=
  s ← setup_loop (S (length t)) 0 res_name type false t s;
  Ok (set_all (boot_override (s_all_disks s)) s).

Definition blkdev_init (mac linux : bool) (t : table) (s : blk) : run blk :=
  s ← (if mac then s ← setup_disks (lit "blkdev_mol") kMacVolumes t s; setup_disks (lit "blkdev") kMacVolumes t s else Ok s);
  if linux then setup_disks (lit "blkdev") kLinuxDisks t s else Ok s.

(** ** The interface for the drivers *)

(** The disks behind a pointer, with [NULL] all of them *)
Fixpoint behind (p : nat) (l : list bdev_desc_t) : list bdev_desc_t :=
  match l with [] => [] | b :: l => if (bid b =? p)%nat then l else behind p l end.

Definition bdev_get_next_volume (last : option nat) (s : blk) : option nat :=
  bid <$> list_find (fun b => priv_claimed b = false) (match last with Some p => behind p (s_all_disks s) | None => s_all_disks s end)
    ≫= (fun x => Some x.2).

(** [None] when the disk is not in the list: a write through [NULL] *)
Fixpoint claim (p : nat) (l : list bdev_desc_t) : option (list bdev_desc_t) :=
  match l with [] => None | b :: l => if (bid b =? p)%nat then Some (set_claimed true b :: l) else cons b <$> claim p l end.

Definition bdev_claim_volume (p : nat) (s : blk) : run blk := l ← of_option (claim p (s_all_disks s)); Ok (set_all l s).

Fixpoint unlink (p : nat) (l : list bdev_desc_t) : option (bdev_desc_t * list bdev_desc_t) :=
  match l with
  | [] => None
  | b :: l => if (bid b =? p)%nat then Some (b, l) else '(x, l) ← unlink p l; Some (x, b :: l)
  end.

(** [dev->close]: [qcow_close] closes the backing file; [dmg_close] frees
    memory only, a raw disk has none. *)
Definition dev_close (b : bdev_desc_t) (s : blk) : blk := if backing_hd b =? -1 then s else close (backing_hd b) s.

Definition bdev_close_volume (p : nat) (s : blk) : blk :=
  match unlink p (s_all_disks s) with
  | None => s
  | Some (b, l) =>
      let s := dev_close b (set_all l s) in
      if fd b =? -1 then s else close (fd b) s
  end.

Fixpoint blkdev_cleanup (fuel : nat) (s : blk) : run blk :=
  match fuel with
  | O => BlockDev.Fuel
  | S fuel =>
      match list_find (fun b => priv_claimed b = false) (s_all_disks s) with
      | None => Ok s
      | Some (_, b) => blkdev_cleanup fuel (bdev_close_volume (bid b) s)
      end
  end.

End Disks.
End Blkdev.
