(* ===== verification/BlkdevInv.v ===== *)
(** * Disks and their descriptors

    Whatever the configuration, the answers of the system and the contents of
    the disks: every open descriptor belongs to one registered disk or is that
    of the backing file of a refused image, and a disk is writable only if
    [disk_open] has granted it. *)

From Stdlib Require Import String.
From S2P Require Import Prelude FileIO BlockDev CString DiskOpen ResMgr Blkdev.

Module BlkdevInv.
Import BlockDev CString Blkdev.

(** The computation does not go on for ever; [P] holds unless it has followed
    a null pointer. *)
Definition safe {A} (P : A -> Prop) (r : run A) : Prop :=
  match r with Ok a => P a | Crash => True | BlockDev.Fuel => False end.

Lemma safe_bind {A B} (Q : A -> Prop) (P : B -> Prop) (r : run A) f :
  safe Q r -> (forall a, Q a -> safe P (f a)) -> safe P (r ≫= f).
Proof. destruct r; cbn; auto. Qed.

Lemma safe_imp {A} (Q P : A -> Prop) r : safe Q r -> (forall a, Q a -> P a) -> safe P r.
Proof. destruct r; cbn; auto. Qed.

(** ** Options end *)

Lemma next_dash_length s r : ResMgr.next_dash s = Some r -> (length r <= length s)%nat.
Proof. induction s as [|c s IH]; cbn; [done|]. destruct (c =? 45); [by intros [= <-]|]. intros E%IH. lia. Qed.

Lemma parse_opt_done fuel opts : forall s fl, (length s < fuel)%nat -> exists fl', ResMgr.parse_opt fuel s opts fl = ResMgr.Done fl'.
Proof.
  induction fuel as [|fuel IH]; intros s fl Hf; [lia|]. cbn [ResMgr.parse_opt]. destruct s as [|c s]; [by eexists|].
  destruct (ResMgr.next_dash s) as [r|] eqn:E; [|by eexists]. apply next_dash_length in E. apply IH. cbn in Hf. lia.
Qed.

Lemma parse_opt_args_done args opts : forall fl, exists fl', ResMgr.parse_opt_args args opts fl = ResMgr.Done fl'.
Proof.
  induction args as [|a args IH]; intros fl; cbn [ResMgr.parse_opt_args]; [by eexists|]. destruct (strncmp_eq _ _ _); [apply IH|].
  destruct (parse_opt_done (S (length a)) opts a fl) as [fl' E]; [lia|]. rewrite E. apply IH.
Qed.

Lemma parse_res_options_done k i n opts t : exists fl, ResMgr.parse_res_options k i n opts t = ResMgr.Done fl.
Proof. unfold ResMgr.parse_res_options. destruct (ResMgr.find_res k i t); [apply parse_opt_args_done|by eexists]. Qed.

Lemma find_res_bound k t : forall i r, ResMgr.find_res k i t = Some r -> (i < length t)%nat.
Proof.
  induction t as [|x t IH]; intros i r E; cbn in *; [done|]. destruct (strcmp_eq _ _); [destruct i; [lia|]|]; apply IH in E; lia.
Qed.

(** ** A descriptor comes with an answer for [ro_fallback] *)

Lemma open_loop_some fuel : forall k h cd silent ro rw fd, DiskOpen.open_loop fuel k h cd silent ro rw = Some (fd, None) -> fd = -1.
Proof.
  induction fuel as [|fuel IH]; intros k h cd silent ro rw fd E; [done|]. cbn [DiskOpen.open_loop] in E.
  destruct (DiskOpen.open64 h k rw) as [f e]. destruct (if _ && _ then _ else _) as [[k1 fd1] rw1].
  destruct (_ && negb silent); [congruence|]. destruct cd; [congruence|]. destruct (_ || _); [congruence|].
  destruct (rw1 && _); [|congruence]. destruct ro; [by eapply IH|congruence].
Qed.

Lemma disk_open_some h name fl ro silent rs fd rs' : DiskOpen.disk_open h name fl ro silent rs = Some (fd, None, rs') -> fd = -1.
Proof.
  unfold DiskOpen.disk_open. cbv zeta. intros E. destruct (if tst fl BF_ENABLE_WRITE then _ else _) as [[busy rs1]|]; [|done].
  cbn [mbind option_bind] in E. destruct (busy && negb ro); [congruence|].
  destruct (DiskOpen.open_loop _ _ _ _ _ _ _) as [[x r]|] eqn:El; [|done]. cbn [mbind option_bind] in E. injection E as -> -> <-. by apply open_loop_some in El.
Qed.

(** An open that is not silent fails with -1. *)
Lemma open_loop_neg fuel : forall k h cd ro rw fd r, DiskOpen.open_loop fuel k h cd false ro rw = Some (fd, r) -> fd < 0 -> fd = -1.
Proof.
  induction fuel as [|fuel IH]; intros k h cd ro rw fd r E Hfd; [done|]. cbn [DiskOpen.open_loop] in E.
  destruct (DiskOpen.open64 h k rw) as [f e]. destruct (if _ && _ then _ else _) as [[k1 fd1] rw1].
  cbn [negb] in E. rewrite andb_true_r in E. destruct (Z.ltb_spec fd1 0); [congruence|]. cbn [orb] in E.
  assert (Hpos : forall q, Some (fd1, Some q) = Some (fd, r) -> fd = -1) by (intros q [= -> _]; lia).
  destruct cd; [by eapply Hpos|]. destruct (negb _); [congruence|].
  destruct (rw1 && _); [|by eapply Hpos]. destruct ro; [by eapply IH|congruence].
Qed.

Lemma disk_open_neg h name fl ro rs fd r rs' :
  DiskOpen.disk_open h name fl ro false rs = Some (fd, r, rs') -> fd < 0 -> fd = -1.
Proof.
  unfold DiskOpen.disk_open. cbv zeta. intros E. destruct (if tst fl BF_ENABLE_WRITE then _ else _) as [[busy rs1]|]; [|done].
  cbn [mbind option_bind] in E. destruct (busy && negb ro); [congruence|].
  destruct (DiskOpen.open_loop _ _ _ _ _ _ _) as [[x q]|] eqn:El; [|done]. cbn [mbind option_bind] in E. injection E as -> -> <-.
  by eapply open_loop_neg.
Qed.

Lemma tst_lor a b m : tst (a .| b) m = tst a m || tst b m.
Proof.
  unfold tst. rewrite Z.land_lor_distr_l. destruct (Z.eqb_spec (a .& m) 0) as [->|Ha]; [by rewrite Z.lor_0_l|].
  cbn [negb orb]. apply negb_true_iff, Z.eqb_neq. intros E. by apply Z.lor_eq_0_iff in E as [? _].
Qed.

Lemma no_write_tst fl : tst (no_write fl) BF_ENABLE_WRITE = false.
Proof.
  apply tst_false. unfold no_write. rewrite <- Z.land_assoc. change (not32 BF_ENABLE_WRITE .& BF_ENABLE_WRITE) with 0. apply Z.land_0_r.
Qed.

(** ** Lists of descriptors *)

Lemma remove_fd_perm x l : x ∈ l -> l ≡ₚ x :: remove_fd x l.
Proof.
  induction l as [|y l IH]; intros Hx; [by apply elem_of_nil in Hx|]. cbn [remove_fd]. destruct (Z.eqb_spec y x) as [->|Hn]; [done|].
  apply elem_of_cons in Hx as [->|Hx]; [done|]. rewrite (IH Hx) at 1. apply Permutation_swap.
Qed.

Section Disks.
Context {D : Type} `{BlockDev D} `{DiskFormats D}.
Context (hosts : nat -> str -> DiskOpen.host) (head : Z -> list Z) (junk : nat -> bool).

(** Reading ends, and no format sets the flag for writing. *)
Context (Hread : forall l d, bd_read l d <> BlockDev.Fuel).
Context (Hqcow : forall x y, tst (qcow_open x y).2 BF_ENABLE_WRITE = false) (Hdmg : forall x, tst (dmg_open x).2 BF_ENABLE_WRITE = false).

(** A writable disk was granted. *)
Definition granted (b : bdev_desc_t (D := D)) : Prop :=
  tst (flags b) BF_ENABLE_WRITE = true ->
  exists k fl ro silent rs rs', DiskOpen.disk_open (hosts k (dev_name b)) (dev_name b) fl ro silent rs = Some (fd b, Some false, rs').

(** The descriptor of a backing file, if there is one; those of a disk *)
Definition hds (y : Z) : list Z := if y =? -1 then [] else [y].
Definition fds_of (b : bdev_desc_t (D := D)) : list Z := fd b :: hds (backing_hd b).
Definition all_fds (l : list (bdev_desc_t (D := D))) : list Z := concat (map fds_of l).

(** [y] was opened for the backing file of an image. *)
Definition backing_fd (y : Z) : Prop :=
  exists x name k ro rs r rs', qcow_backing x = Some name /\
    DiskOpen.disk_open (hosts k name) name 0 ro false rs = Some (y, r, rs').

(** [x]: descriptors of disks that are not registered yet; [lost]: those of
    the backing files of refused disks *)
Record disks_ok (x lost : list Z) (s : blk (D := D)) : Prop := {
  do_fds : open_fds s ≡ₚ x ++ all_fds (s_all_disks s) ++ lost;
  do_lost : Forall backing_fd lost;
  do_pos : Forall (fun b => 0 <= fd b) (s_all_disks s);
  do_ids : NoDup (map bid (s_all_disks s));
  do_next : Forall (fun b => (bid b < next_id s)%nat) (s_all_disks s);
  do_write : Forall granted (s_all_disks s)
}.

Definition sound (s : blk (D := D)) : Prop := exists lost, disks_ok [] lost s.

Lemma disk_open_safe q lost name fl ro silent s : disks_ok q lost s ->
  safe (fun r => let '(x, ro2, s') := r in
    (silent = false -> x < 0 -> x = -1) /\
    (exists k rs rs', DiskOpen.disk_open (hosts k name) name fl ro silent rs = Some (x, ro2, rs')) /\
    if x <? 0 then disks_ok q lost s' else disks_ok (x :: q) lost s' /\ is_Some ro2)
  (disk_open hosts name fl ro silent s).
Proof.
  intros [H1 Hl H2 H3 H4 H5]. unfold disk_open. destruct (DiskOpen.disk_open _ _ _ _ _ _) as [[[x ro2] rs]|] eqn:E; [|done].
  cbn [of_option mbind run_bind safe]. split; [intros ->; by eapply disk_open_neg|]. split; [eauto|].
  destruct (Z.ltb_spec x 0) as [Hx|Hx]; [by constructor|]. split.
  - constructor; cbn [open_fds s_all_disks next_id]; try done. cbn [app]. by rewrite H1.
  - destruct ro2 as [b|]; [by eexists|]. apply disk_open_some in E. lia.
Qed.

Lemma close_fd x l s : open_fds s ≡ₚ x :: l -> open_fds (D := D) (close x s) ≡ₚ l.
Proof.
  intros E. cbn [close set_fds open_fds]. apply (Permutation_cons_inv (a := x)). rewrite <- E. symmetry.
  apply remove_fd_perm. rewrite E. by left.
Qed.

(** A refused disk: its descriptor is closed, that of its backing file not. *)
Lemma close_ok x hd lost s : disks_ok (hds hd ++ [x]) lost s -> Forall backing_fd (hds hd) ->
  disks_ok [] (hds hd ++ lost) (close x s).
Proof.
  intros [H1 Hl H2 H3 H4 H5] Hb. constructor; try done; [|by apply Forall_app].
  cbn [app]. apply close_fd. rewrite H1, <- app_assoc. cbn [app close set_fds s_all_disks].
  rewrite <- Permutation_middle. f_equiv. rewrite !app_assoc. f_equiv. apply Permutation_app_comm.
Qed.

Lemma register_ok d hd bf name vol x fl blocks lost s : disks_ok (hds hd ++ [x]) lost s -> 0 <= x ->
  (tst (bf .| fl) BF_ENABLE_WRITE = true ->
   exists k fl ro silent rs rs', DiskOpen.disk_open (hosts k name) name fl ro silent rs = Some (x, Some false, rs')) ->
  disks_ok [] lost (register_disk d hd bf name vol x fl blocks s).
Proof.
  intros [H1 Hl H2 H3 H4 H5] Hx Hw. constructor; cbn [register_disk s_all_disks open_fds next_id map fd bid app] in *.
  - rewrite H1. unfold all_fds. cbn [map concat]. unfold fds_of at 2. cbn [fd backing_hd].
    rewrite <- !app_assoc. cbn [app]. symmetry. apply Permutation_middle.
  - exact Hl.
  - by constructor.
  - apply list.NoDup_cons. split; [|done]. intros (b & Eb & Hb)%list_elem_of_fmap.
    apply (proj1 (list.Forall_forall _ _) H4) in Hb. lia.
  - constructor; [cbn; lia|]. eapply list.Forall_impl; [exact H4|]. cbn. lia.
  - by constructor.
Qed.

Lemma read_block_safe b d : safe (fun _ => True) (read_block b d).
Proof.
  unfold read_block. destruct (bd_seek b 0 d) as [r d1]. pose proof (Hread [512] d1) as Hr. by destruct (bd_read [512] d1) as [[[[? ?] ?] ?]| |].
Qed.

Lemma inspect_safe type d : safe (fun _ => True) (inspect_disk type d).
Proof.
  unfold inspect_disk. destruct (type =? _); [done|]. eapply safe_bind; [apply read_block_safe|]. intros [[buf|] d1] _; [|done].
  destruct (_ =? _); [done|]. eapply safe_bind; [apply read_block_safe|]. intros [[mdb|] d2] _; [|done].
  destruct (_ =? _); [done|]. destruct (_ =? _); [done|]. by destruct (_ =? _).
Qed.

Lemma open_backing_safe x lost s : disks_ok [x] lost s ->
  safe (fun r => disks_ok (hds r.1 ++ [x]) lost r.2 /\ Forall backing_fd (hds r.1)) (open_backing hosts junk x s).
Proof.
  intros Hs. unfold open_backing. destruct (qcow_backing x) as [name|] eqn:Eb; [|done].
  eapply safe_bind; [by apply disk_open_safe|]. intros [[y ro2] s1] (Hneg & (k & rs & rs' & E) & Hx). cbn [safe fst snd].
  unfold hds. destruct (Z.ltb_spec y 0) as [Hy|Hy].
  - rewrite (Hneg eq_refl Hy). done.
  - rewrite (proj2 (Z.eqb_neq y (-1))) by lia. split; [apply Hx|]. constructor; [|done].
    exists x, name, k, (junk (nopen s)), rs, ro2, rs'. done.
Qed.

Lemma find_type_safe x name lost s : disks_ok [x] lost s ->
  safe (fun r => let '(_, (_, bf), hd, s') := r in
    tst bf BF_ENABLE_WRITE = false /\ disks_ok (hds hd ++ [x]) lost s' /\ Forall backing_fd (hds hd))
  (find_disk_type hosts head junk x name s).
Proof.
  intros Hs. unfold find_disk_type. destruct (negb _); [done|]. destruct (_ || _); [done|]. destruct (_ =? _).
  - eapply safe_bind; [by apply open_backing_safe|]. intros [y s1] (H1 & H2). cbn [safe].
    pose proof (Hqcow x y) as Hf. destruct (qcow_open x y) as [[d size] bf]. done.
  - destruct (_ && _); [|done]. cbn [safe]. pose proof (Hdmg x) as Hf. destruct (dmg_open x) as [[d size] bf]. done.
Qed.

Lemma open_mac_safe name fl constructed s : sound s -> safe (fun r => sound r.2) (open_mac_disk hosts head junk name fl constructed s).
Proof.
  intros [lost Hs]. unfold open_mac_disk. cbv zeta. eapply safe_bind; [by apply disk_open_safe|]. intros [[x ro2] s1] (_ & Hop & Hx).
  destruct (Z.ltb_spec x 0) as [Hn|Hn]; [by exists lost|]. destruct Hx as (Hs1 & b & ->).
  eapply safe_bind; [by apply find_type_safe|]. intros [[[type [[d size] bf]] hd] s2] (Hf & Hs2 & Hb).
  eapply safe_bind; [apply inspect_safe|]. intros [[type2 vol] d2] _. cbn [default from_option].
  destruct (refused _ _ _ _); [eexists; by apply close_ok|]. cbn [safe snd]. exists lost. apply register_ok; [done|done|].
  rewrite tst_lor, Hf. cbn [orb]. destruct b; cbn [id]; [by rewrite no_write_tst|]. intros _.
  destruct Hop as (k & rs & rs' & E). by exists k, fl, (junk (nopen s)), constructed, rs, rs'.
Qed.

(** What one disk adds to the open descriptors: its own and that of its
    backing file if it is registered, otherwise the one of its backing file *)
Definition one_more (name : str) (s : blk (D := D)) (q : Z * blk (D := D)) : Prop :=
  if q.1 =? 0
  then exists b, s_all_disks q.2 = b :: s_all_disks s /\ dev_name b = name /\ open_fds q.2 ≡ₚ fds_of b ++ open_fds s
  else s_all_disks q.2 = s_all_disks s /\
       exists y, Forall backing_fd (hds y) /\ open_fds q.2 ≡ₚ hds y ++ open_fds s.

Lemma disk_open_adds name fl ro silent (s : blk (D := D)) :
  safe (fun r => let '(x, ro2, s') := r in
    s_all_disks s' = s_all_disks s /\ open_fds s' = (if x <? 0 then open_fds s else x :: open_fds s) /\
    (silent = false -> x < 0 -> x = -1) /\
    exists k rs rs', DiskOpen.disk_open (hosts k name) name fl ro silent rs = Some (x, ro2, rs'))
  (disk_open hosts name fl ro silent s).
Proof.
  unfold disk_open. destruct (DiskOpen.disk_open _ _ _ _ _ _) as [[[x ro2] rs]|] eqn:E; [|done].
  cbn [of_option mbind run_bind safe]. split; [done|]. split; [done|]. split; [intros ->; by eapply disk_open_neg|eauto].
Qed.

Lemma find_type_adds x name (s : blk (D := D)) :
  safe (fun r => let '(_, _, hd, s') := r in
    s_all_disks s' = s_all_disks s /\ open_fds s' = hds hd ++ open_fds s /\ Forall backing_fd (hds hd))
  (find_disk_type hosts head junk x name s).
Proof.
  unfold find_disk_type. destruct (negb _); [done|]. destruct (_ || _); [done|]. destruct (_ =? _); [|by destruct (_ && _)].
  unfold open_backing. destruct (qcow_backing x) as [bname|] eqn:Eb; [|done].
  eapply (safe_bind (fun r => s_all_disks r.2 = s_all_disks s /\ open_fds r.2 = hds r.1 ++ open_fds s /\ Forall backing_fd (hds r.1)));
    [|by intros [y s1]]. eapply safe_bind; [apply disk_open_adds|].
  intros [[y ro2] s1] (E1 & E2 & Hneg & k & rs & rs' & Hk). cbn [safe fst snd]. split; [done|].
  unfold hds. destruct (Z.ltb_spec y 0) as [Hy|Hy].
  - by rewrite (Hneg eq_refl Hy).
  - rewrite (proj2 (Z.eqb_neq y (-1))) by lia. split; [done|]. constructor; [|done]. by exists x, bname, k, (junk (nopen s)), rs, ro2, rs'.
Qed.

Lemma open_mac_adds name fl constructed s : safe (one_more name s) (open_mac_disk hosts head junk name fl constructed s).
Proof.
  unfold open_mac_disk. cbv zeta. eapply safe_bind; [apply disk_open_adds|]. intros [[x ro2] s1] (E1 & E2 & _).
  destruct (x <? 0); [cbn [safe]; unfold one_more; cbn [fst snd Z.eqb]; split; [done|]; exists (-1); by rewrite E2|].
  eapply safe_bind; [apply find_type_adds|]. intros [[[type [[d size] bf]] hd] s2] (F1 & F2 & Hb).
  eapply safe_bind; [apply inspect_safe|]. intros [[type2 vol] d2] _.
  assert (Hfd : open_fds s2 ≡ₚ x :: hds hd ++ open_fds s) by (rewrite F2, E2; symmetry; apply Permutation_middle).
  destruct (refused _ _ _ _); cbn [safe]; unfold one_more; cbn [fst snd Z.eqb].
  - split; [by rewrite <- E1, <- F1|]. exists hd. split; [done|]. by apply close_fd.
  - eexists. cbn [register_disk s_all_disks]. rewrite F1, E1. split; [done|]. split; [done|]. exact Hfd.
Qed.

Lemma open_parts_safe n name fl : forall i s, sound s -> safe sound (open_parts hosts head junk n i name fl s).
Proof.
  induction n as [|n IH]; intros i s Hs; [done|]. cbn [open_parts]. eapply safe_bind; [by apply open_mac_safe|]. intros [r s1] Hs1. by apply IH.
Qed.

Lemma setup_mac_safe name fl s : sound s -> safe sound (setup_mac_disk hosts head junk name fl s).
Proof.
  intros Hs. unfold setup_mac_disk. destruct (_ && _); [by apply open_parts_safe|]. eapply safe_bind; [by apply open_mac_safe|]. by intros [r s1] Hs1.
Qed.

Lemma setup_linux_safe name fl s : sound s -> safe sound (setup_linux_disk hosts name fl s).
Proof.
  intros [lost Hs]. unfold setup_linux_disk. eapply safe_bind; [by apply disk_open_safe|]. intros [[x ro2] s1] (_ & Hop & Hx).
  destruct (Z.ltb_spec x 0) as [Hn|Hn]; [by exists lost|]. destruct Hx as (Hs1 & b & ->). cbn [default from_option].
  destruct (raw_open x) as [d size]. cbn [safe]. exists lost. apply register_ok; [done|done|]. rewrite Z.lor_0_l.
  destruct b; cbn [id]; [by rewrite no_write_tst|]. intros _. destruct Hop as (k & rs & rs' & E). by exists k, fl, false, false, rs, rs'.
Qed.

Lemma setup_loop_safe res_name type t : forall fuel i ro s, (i <= length t < fuel + i)%nat -> sound s ->
  safe sound (setup_loop hosts head junk fuel i res_name type ro t s).
Proof.
  induction fuel as [|fuel IH]; intros i ro s Hf Hs; [lia|]. cbn [setup_loop].
  destruct (ResMgr.get_str_res_ind res_name i 0 t) as [name|] eqn:En; [|done].
  assert (Hi : (i < length t)%nat).
  { unfold ResMgr.get_str_res_ind in En. destruct (ResMgr.find_res res_name i t) eqn:Ef; [by eapply find_res_bound|done]. }
  destruct (parse_res_options_done res_name i 1 blk_opts t) as [fl ->].
  match goal with |- safe _ (Ok fl ≫= ?f) => change (Ok fl ≫= f) with (f fl) end. cbv beta.
  destruct (tst fl BF_IGNORE); [apply IH; [lia|done]|]. destruct (tst fl BF_CD_ROM).
  - destruct Hs as [lost Hs]. eapply safe_bind; [by apply disk_open_safe|]. intros [[x ro2] s1] (_ & _ & Hx). cbv beta iota zeta in *.
    destruct (Z.ltb_spec x 0) as [Hn|Hn]; [apply IH; [lia|by exists lost]|].
    destruct Hx as (Hs1 & _). destruct (raw_open x) as [d size]. apply IH; [lia|]. exists lost.
    apply register_ok; [done|done|]. by rewrite Z.lor_0_l, no_write_tst.
  - eapply (safe_bind sound); [destruct type; [by apply setup_mac_safe|by apply setup_linux_safe]|]. intros s1 Hs1. apply IH; [lia|done].
Qed.

(** Flags change, but writing is not switched on. *)
Definition keeps (f : bdev_desc_t (D := D) -> bdev_desc_t (D := D)) : Prop :=
  forall b, fds_of (f b) = fds_of b /\ fd (f b) = fd b /\ bid (f b) = bid b /\ dev_name (f b) = dev_name b /\
    (tst (flags (f b)) BF_ENABLE_WRITE = true -> tst (flags b) BF_ENABLE_WRITE = true).

Lemma keeps_ok s f : sound s -> keeps f -> sound (set_all (map f (s_all_disks s)) s).
Proof.
  intros [lost [H1 Hl H2 H3 H4 H5]] Hf. exists lost. constructor; cbn [set_all s_all_disks open_fds next_id app] in *.
  - rewrite H1. unfold all_fds. rewrite map_map. f_equiv. apply reflexive_eq. f_equal. apply map_ext. intros b. by destruct (Hf b) as (-> & _).
  - exact Hl.
  - apply Forall_map. eapply list.Forall_impl; [exact H2|]. intros b Hb. cbn. by destruct (Hf b) as (_ & -> & _).
  - rewrite map_map, (map_ext _ bid); [done|]. intros b. by destruct (Hf b) as (_ & _ & -> & _).
  - apply Forall_map. eapply list.Forall_impl; [exact H4|]. intros b Hb. cbn. by destruct (Hf b) as (_ & _ & -> & _).
  - apply Forall_map. eapply list.Forall_impl; [exact H5|]. intros b Hb Hw. destruct (Hf b) as (_ & -> & _ & -> & Hw'). by apply Hb, Hw'.
Qed.

Lemma boot_override_map (l : list (bdev_desc_t (D := D))) : exists f, boot_override l = map f l /\ keeps f /\
  (existsb (fun b => tst (flags b) BF_BOOT1) l = true -> forall b, tst (flags b) BF_BOOT1 = false -> tst (flags (f b)) BF_BOOT = false).
Proof.
  unfold boot_override. destruct (existsb _ l).
  - exists (fun b => if tst (flags b) BF_BOOT1 then b else set_flags (flags b .& not32 BF_BOOT) b). split; [done|]. split.
    + intros b. destruct (tst (flags b) BF_BOOT1); [done|]. split_and!; try done. cbn [flags set_flags]. rewrite !tst_true. intros Hw E. apply Hw.
      by rewrite <- Z.land_assoc, (Z.land_comm (not32 _)), Z.land_assoc, E.
    + intros _ b Hb. rewrite Hb. cbn [flags set_flags]. apply tst_false. rewrite <- Z.land_assoc.
      change (not32 BF_BOOT .& BF_BOOT) with 0. apply Z.land_0_r.
  - exists id. split; [symmetry; apply map_id|]. split; [done|]. done.
Qed.

Lemma setup_disks_safe res_name type t s : sound s -> safe sound (setup_disks hosts head junk res_name type t s).
Proof.
  intros Hs. unfold setup_disks. eapply safe_bind; [apply setup_loop_safe; [lia|exact Hs]|]. intros s1 Hs1. cbn [safe].
  destruct (boot_override_map (s_all_disks s1)) as (f & -> & Hf & _). by apply keeps_ok.
Qed.

Lemma init_safe mac linux t s : sound s -> safe sound (blkdev_init hosts head junk mac linux t s).
Proof.
  intros Hs. unfold blkdev_init. eapply (safe_bind sound).
  - destruct mac; [|exact Hs]. eapply safe_bind; [by apply setup_disks_safe|]. intros s1 Hs1. by apply setup_disks_safe.
  - intros s1 Hs1. destruct linux; [by apply setup_disks_safe|exact Hs1].
Qed.

(** ** Claiming and closing *)

Lemma claim_map p (l : list (bdev_desc_t (D := D))) l' : claim p l = Some l' -> NoDup (map bid l) -> l' = map (fun b => if (bid b =? p)%nat then set_claimed true b else b) l.
Proof.
  revert l'. induction l as [|b l IH]; intros l' E Hn; cbn [claim map] in *; [done|]. apply list.NoDup_cons in Hn as [Hb Hn].
  destruct (Nat.eqb_spec (bid b) p) as [<-|Hp].
  - injection E as <-. f_equal. rewrite <- (map_id l) at 1. apply map_ext_in. intros x Hx. destruct (Nat.eqb_spec (bid x) (bid b)) as [Ex|]; [|done].
    exfalso. apply Hb. rewrite <- Ex. apply list_elem_of_fmap. exists x. split; [done|]. by apply list_elem_of_In.
  - destruct (claim p l) as [u|]; [|done]. injection E as <-. f_equal. by apply IH.
Qed.

Lemma claim_safe p s : sound s -> safe sound (bdev_claim_volume p s).
Proof.
  intros Hs. unfold bdev_claim_volume. destruct (claim p (s_all_disks s)) as [l|] eqn:E; [|done]. cbn [of_option mbind run_bind safe].
  apply claim_map in E as ->; [|by destruct Hs as [lost Hs]; apply Hs]. apply keeps_ok; [done|]. intros b. by destruct (_ =? _)%nat.
Qed.

Lemma unlink_split p l b l' : unlink (D := D) p l = Some (b, l') -> exists l1 l2, l = l1 ++ b :: l2 /\ l' = l1 ++ l2 /\ bid b = p.
Proof.
  revert l'. induction l as [|x l IH]; intros l' E; cbn [unlink] in E; [done|]. destruct (Nat.eqb_spec (bid x) p) as [Hp|_].
  - injection E as -> ->. by exists [], l'.
  - destruct (unlink p l) as [[y u]|]; [|done]. injection E as -> <-. destruct (IH _ eq_refl) as (l1 & l2 & -> & -> & ?). by exists (x :: l1), l2.
Qed.

Lemma all_fds_app l1 l2 : all_fds (l1 ++ l2) = all_fds l1 ++ all_fds l2.
Proof. unfold all_fds. by rewrite map_app, concat_app. Qed.

Lemma dev_close_fds b l s : open_fds s ≡ₚ hds (backing_hd b) ++ l -> open_fds (D := D) (dev_close b s) ≡ₚ l.
Proof. unfold dev_close, hds. destruct (_ =? _); [done|]. apply close_fd. Qed.

Lemma close_volume_ok p lost s : disks_ok [] lost s -> disks_ok [] lost (bdev_close_volume p s).
Proof.
  intros Hs. unfold bdev_close_volume. destruct (unlink p (s_all_disks s)) as [[b l]|] eqn:E; [|done].
  apply unlink_split in E as (l1 & l2 & El & -> & _). destruct Hs as [H1 Hl H2 H3 H4 H5]. rewrite El in *.
  apply Forall_app in H2 as [H2 [Hb H2']%list.Forall_cons]. apply Forall_app in H4 as [H4 [_ H4']%list.Forall_cons].
  apply Forall_app in H5 as [H5 [_ H5']%list.Forall_cons].
  rewrite (proj2 (Z.eqb_neq (fd b) (-1))) by lia.
  assert (Ed : forall x, s_all_disks (close x (dev_close b (set_all (l1 ++ l2) s))) = l1 ++ l2 /\
    next_id (close x (dev_close b (set_all (l1 ++ l2) s))) = next_id s) by (intros x; unfold dev_close; by destruct (_ =? _)).
  destruct (Ed (fd b)) as [E1 E2]. constructor; rewrite ?E1, ?E2.
  - cbn [app]. apply close_fd, dev_close_fds. cbn [set_all open_fds]. rewrite H1. cbn [app]. rewrite !all_fds_app.
    change (all_fds (b :: l2)) with ((fd b :: hds (backing_hd b)) ++ all_fds l2).
    rewrite <- !app_assoc, (Permutation_app_comm (all_fds l1)), <- !app_assoc. cbn [app].
    rewrite Permutation_middle. f_equiv. f_equiv. rewrite (Permutation_app_comm (all_fds l1)), <- app_assoc. done.
  - exact Hl.
  - by apply Forall_app.
  - rewrite map_app in H3 |- *. cbn [map] in H3. apply list.NoDup_app in H3 as (Ha & Hd & Hb2). apply list.NoDup_cons in Hb2 as [_ Hb2].
    apply list.NoDup_app. split_and!; [done| |done]. intros y Hy Hy2. apply (Hd y Hy). by right.
  - by apply Forall_app.
  - by apply Forall_app.
Qed.

(** ** Operations *)

Inductive op := OpInit (mac linux : bool) (t : ResMgr.table) | OpClaim (p : nat) | OpClose (p : nat).

Definition run_op (o : op) (s : blk (D := D)) : run blk :=
  match o with
  | OpInit mac linux t => blkdev_init hosts head junk mac linux t s
  | OpClaim p => bdev_claim_volume p s
  | OpClose p => Ok (bdev_close_volume p s)
  end.

Fixpoint run_ops (os : list op) (s : blk (D := D)) : run blk :=
  match os with [] => Ok s | o :: os => s ← run_op o s; run_ops os s end.

Definition start : blk (D := D) := Blk [] 0 [] [] 0.

Lemma blk_start_ok : sound start.
Proof. exists []. constructor; constructor. Qed.

Lemma run_ops_safe os : forall s, sound s -> safe sound (run_ops os s).
Proof.
  induction os as [|o os IH]; intros s Hs; [done|]. cbn [run_ops]. eapply (safe_bind sound); [|exact IH].
  destruct o; cbn [run_op]; [by apply init_safe|by apply claim_safe|]. destruct Hs as [lost Hs]. exists lost. by apply close_volume_ok.
Qed.

Lemma unlink_in (l : list (bdev_desc_t (D := D))) b : b ∈ l -> is_Some (unlink (D := D) (bid b) l).
Proof.
  induction l as [|x l IH]; intros Hb; [by apply elem_of_nil in Hb|]. cbn [unlink]. destruct (Nat.eqb_spec (bid x) (bid b)); [done|].
  apply elem_of_cons in Hb as [->|Hb]; [done|]. destruct (IH Hb) as [[y u] ->]. done.
Qed.

Lemma cleanup_claimed lost fuel : forall s, disks_ok [] lost s -> (length (s_all_disks s) < fuel)%nat ->
  exists s', blkdev_cleanup fuel s = Ok s' /\ disks_ok [] lost s' /\ s_all_disks s' = List.filter priv_claimed (s_all_disks s).
Proof.
  induction fuel as [|fuel IH]; intros s Hs Hf; [lia|]. cbn [blkdev_cleanup].
  destruct (list_find _ (s_all_disks s)) as [[i b]|] eqn:E.
  - apply list_find_Some in E as (Ei & Hc & _). apply list_elem_of_lookup_2 in Ei as Hin.
    pose proof (close_volume_ok (bid b) lost s Hs) as Hs'.
    assert (Hl : exists l1 l2, s_all_disks s = l1 ++ b :: l2 /\ s_all_disks (bdev_close_volume (bid b) s) = l1 ++ l2).
    { unfold bdev_close_volume. destruct (unlink_in _ _ Hin) as [[b' l] Eu]. rewrite Eu.
      destruct (unlink_split _ _ _ _ Eu) as (l1 & l2 & El & -> & Hb'). exists l1, l2.
      assert (b' = b) as ->; [|split; [done|]; unfold dev_close; by destruct (fd b =? -1), (backing_hd b =? -1)].
      pose proof (do_ids _ _ _ Hs) as Hn. rewrite El in Hin, Hn. rewrite map_app in Hn. cbn [map] in Hn.
      apply list.NoDup_app in Hn as (_ & Hn1 & Hn2). apply list.NoDup_cons in Hn2 as [Hn2 _].
      apply elem_of_app in Hin as [Hi|Hi].
      + exfalso. apply (Hn1 (bid b)); [apply list_elem_of_fmap; by exists b|]. rewrite Hb'. by left.
      + apply elem_of_cons in Hi as [->|Hi]; [done|]. exfalso. apply Hn2. rewrite Hb'. apply list_elem_of_fmap. by exists b. }
    destruct Hl as (l1 & l2 & El & El'). destruct (IH _ Hs') as (s' & E & Hok & Ea); [rewrite El'; rewrite El in Hf; rewrite length_app in *; cbn in Hf; lia|].
    exists s'. split; [done|]. split; [done|]. rewrite Ea, El', El, !List.filter_app. cbn [List.filter]. by rewrite Hc.
  - exists s. split; [done|]. split; [done|]. apply list_find_None in E. clear - E. induction E as [|b l Hb _ IH]; [done|]. cbn [List.filter].
    destruct (priv_claimed b); [by rewrite <- IH|done].
Qed.

(** C20: Whatever the configuration, the answers of the system and the contents
    of the disks: after any setting up, claiming and closing, the open
    descriptors are those of the registered disks, each once (for a
    copy-on-write image with a backing file the descriptor of that too), and
    [lost] ones.  A lost descriptor is one that was opened for the backing
    file of an image; nothing is lost if no image has a backing file.  Opening
    one more disk either registers it, with exactly its descriptors added to
    the open ones, or refuses it, and then only the descriptor of its backing
    file, if it has one, stays open: [open_mac_disk] closes the descriptor of a
    disk it refuses, but does not call its close function.  A disk has the flag for writing only if
    [disk_open] has returned its descriptor for reading and writing.
    Cleaning up always ends; what stays are the claimed disks, their
    descriptors, and the lost ones.  The computation ends or follows a null
    pointer. *)
Theorem disks_accounted os :
  match run_ops os start with
  | Ok s =>
      exists lost, Forall backing_fd lost /\ ((forall x, qcow_backing x = None) -> lost = []) /\
      open_fds s ≡ₚ all_fds (s_all_disks s) ++ lost /\
      NoDup (map bid (s_all_disks s)) /\ Forall granted (s_all_disks s) /\
      (forall name fl constructed, safe (one_more name s) (open_mac_disk hosts head junk name fl constructed s)) /\
      exists s', blkdev_cleanup (S (length (s_all_disks s))) s = Ok s' /\
        s_all_disks s' = List.filter priv_claimed (s_all_disks s) /\
        open_fds s' ≡ₚ all_fds (s_all_disks s') ++ lost
  | Crash => True
  | BlockDev.Fuel => False
  end.
Proof using Hread Hqcow Hdmg.
  pose proof (run_ops_safe os start blk_start_ok) as H1. destruct (run_ops os start) as [s| |]; [|done|done].
  destruct H1 as [lost H1]. destruct (cleanup_claimed lost (S (length (s_all_disks s))) s H1) as (s' & E & Hok & Ea); [lia|].
  exists lost. split; [apply H1|]. split.
  { intros Hnone. pose proof (do_lost _ _ _ H1) as [|y l (x & name & k & ro & rs & q & rs' & Ex & _) _]; [done|]. congruence. }
  do 3 (split; [apply H1|]). split; [intros name fl constructed; apply open_mac_adds|].
  exists s'. split; [done|]. split; [done|]. apply Hok.
Qed.

End Disks.

(** ** An example

    The partitions of one disk, a compressed image, a CD and two copy-on-write
    images with a backing file: all devices are plain files, with an HFS+
    volume, a partition map (the compressed image) or nothing (the first
    copy-on-write image, which is refused). *)
Module Example.
Import FileIO.

Definition hfs_file : file := File (list_to_map [(1024, 0x48); (1025, 0x2b)]) (2 ^ 26) 0 [].
Definition map_file : file := File (list_to_map [(0, 0x45); (1, 0x52)]) (2 ^ 26) 0 [].
Definition empty_file : file := File ∅ (2 ^ 26) 0 [].

#[local] Instance plain_formats : DiskFormats raw := {|
  raw_open _ := (Some hfs_file, 2 ^ 26);
  qcow_backing _ := Some (lit "/base.img");
  qcow_open x _ := (Some (if x =? 36 then empty_file else hfs_file), 2 ^ 26, 0);
  dmg_open _ := (Some map_file, 512, 0)
|}.

(** [/dev/hda3] and all other names exist; the other partitions do not. *)
Definition exists_file (name : str) : bool := negb (strncmp_eq name (lit "/dev/hda") 8) || strcmp_eq name (lit "/dev/hda3").

Definition hosts (k : nat) (name : str) : DiskOpen.host :=
  DiskOpen.Host None (fun _ _ => if exists_file name then (Z.of_nat k + 3, 0) else (-1, 2)) (fun _ => true) (fun _ => (0, 0)).

Definition config : ResMgr.table :=
  [ResMgr.Res (lit "blkdev") [lit "/dev/hda"; lit "-rw"]; ResMgr.Res (lit "blkdev") [lit "/x.dmg"; lit "-rw"];
   ResMgr.Res (lit "blkdev") [lit "/dev/cdrom"; lit "-cd"; lit "-boot1"];
   ResMgr.Res (lit "blkdev") [lit "/q.img"]; ResMgr.Res (lit "blkdev") [lit "/r.img"]].

(** Behind the descriptors 36 and 38 is an image. *)
Definition heads (x : Z) : list Z :=
  if (x =? 36) || (x =? 38) then [0x51; 0x46; 0x49; 0xfb] ++ replicate 508 0 else replicate 512 0.

Definition ops : list op := [OpInit true false config; OpClaim 2; OpClose 0].

Definition final : run (blk (D := raw)) := run_ops (D := raw) hosts heads (fun _ => true) ops start.

(** The compressed image is exported as writable ([BF_ENABLE_WRITE] is 1)
    although it has no function for writing; 37, the backing file of the
    refused image, stays open. *)
Lemma disks_accounted_witness :
  exists s lost, final = Ok s /\
    map (fun b => (dev_name b, flags b, fd b, backing_hd b)) (s_all_disks s) =
      [(lit "/r.img", 0, 38, 39); (lit "/dev/cdrom", 796, 35, -1); (lit "/x.dmg", 1, 34, -1)] /\
    open_fds s ≡ₚ [38; 39; 35; 34] ++ lost /\ lost = [37] /\
    exists s', blkdev_cleanup 4 s = Ok s' /\ open_fds s' ≡ₚ 35 :: lost.
Proof.
  assert (Hread : forall l (d : raw), bd_read l d <> BlockDev.Fuel) by (intros l [f|]; discriminate).
  pose proof (disks_accounted (D := raw) hosts heads (fun _ => true) Hread (fun _ _ => eq_refl) (fun _ => eq_refl) ops) as H.
  fold final in H. destruct final as [s| |] eqn:E; [|exfalso; vm_compute in E; discriminate E..].
  assert (Ea : map (fun b => (dev_name b, flags b, fd b, backing_hd b, priv_claimed b)) (s_all_disks s) =
    [(lit "/r.img", 0, 38, 39, false); (lit "/dev/cdrom", 796, 35, -1, true); (lit "/x.dmg", 1, 34, -1, false)] /\
    open_fds s ≡ₚ [38; 39; 35; 34; 37]).
  { clear H. vm_compute in E. injection E as <-. split; [vm_compute; reflexivity|cbn; solve_Permutation]. }
  destruct Ea as [Ea Eo]. destruct H as (lost & _ & _ & Hf & _ & _ & _ & s' & Es & Hs' & Hf'). exists s, lost. split; [reflexivity|].
  destruct (s_all_disks s) as [|b1 [|b2 [|b3 [|b4 l]]]]; [discriminate Ea|discriminate Ea|discriminate Ea| |discriminate Ea].
  cbn [map] in Ea |- *. injection Ea as A1 A2 A3 A4 A5 B1 B2 B3 B4 B5 C1 C2 C3 C4 C5.
  rewrite Hs' in Hf'. cbn [List.filter] in Hf'. rewrite A5, B5, C5 in Hf'.
  unfold all_fds, fds_of in Hf, Hf'. cbn [map concat app] in Hf, Hf'. rewrite A3, A4, B3, B4, C3, C4 in Hf. rewrite B3, B4 in Hf'.
  change (open_fds s ≡ₚ [38; 39; 35; 34] ++ lost) in Hf. change (open_fds s' ≡ₚ 35 :: lost) in Hf'.
  split; [by rewrite A1, A2, A3, A4, B1, B2, B3, B4, C1, C2, C3, C4|]. split; [exact Hf|]. split.
  - rewrite Hf in Eo. change [38; 39; 35; 34; 37] with ([38; 39; 35; 34] ++ [37]) in Eo.
    apply Permutation_app_inv_l in Eo. by apply Permutation_singleton_r in Eo.
  - exists s'. split; [exact Es|exact Hf'].
Defined.

End Example.

End BlkdevInv.
