(* ===== verification/Pseudofs.v ===== *)
(** * Published files ([src/drivers/disk/pseudofs.c])

    Files of the host that the guest reads by name through OSI calls: the
    list of published files, the call, and the start, which takes the names
    from the resources. *)

From Stdlib Require Import String.
From S2P Require Import Prelude FileIO Memory BlockDev CString ResMgr.

Module Pseudofs.
Import BlockDev CString Memory.

Record pfile_t := Pfile { linux_name : str; pseudo_name : str }.

Definition kPseudoFSOpen : Z := 1.
Definition kPseudoFSClose : Z := 2.
Definition kPseudoFSGetSize : Z := 3.
Definition kPseudoFSRead : Z := 4.
Definition kPseudoFSIndex2Name : Z := 5.

Section Pseudofs.
(** The bytes of the files that can be opened, and the sizes [lstat] gives *)
Context (file : str -> option (list Z)) (lstat : str -> option Z).

(** ** The list, [proot] *)

Fixpoint find_pseudofile (name : str) (l : list pfile_t) : option pfile_t :=
  match l with [] => None | p :: l => if strcmp_eq (pseudo_name p) name then Some p else find_pseudofile name l end.

(** The allocation succeeds. *)
Definition publish_pseudofile (linux_fname pseudofile : option str) (l : list pfile_t) : Z * list pfile_t :=
  match linux_fname, pseudofile with
  | Some f, Some n =>
      if bool_decide (is_Some (find_pseudofile n l)) then (1, l)
      else match file f with None => (1, l) | Some _ => (0, Pfile f n :: l) end
  | _, _ => (1, l)
  end.

(** ** The call *)

(** [!strcmp( name, s )] with [s] in guest memory *)
Fixpoint guest_strcmp (name : str) (s : lvptr) (m : memory) : option bool :=
  match name with
  | [] => c ← load s 1 m; Some (bool_decide (c = [0]))
  | x :: name => c ← load s 1 m; if bool_decide (c = [x]) then guest_strcmp name (plus s 1) m else Some false
  end.

(** The number of the first file with the name *)
Fixpoint find_name (s : lvptr) (m : memory) (ind : Z) (l : list pfile_t) : run Z :=
  match l with
  | [] => Ok (-1)
  | p :: l => b ← of_option (guest_strcmp (pseudo_name p) s m); if (b : bool) then Ok ind else find_name s m (ind + 1) l
  end.

(** The loop that counts [n] down: the file, and what is left in [n] *)
Fixpoint count_down (n : Z) (l : list pfile_t) : option pfile_t * Z :=
  match l with
  | [] => (None, n)
  | p :: l => if n =? 0 then (Some p, s32 (n - 1)) else count_down (s32 (n - 1)) l
  end.

(** [lseek] and [read] of [count] bytes into memory: the result *)
Definition read_file (name : str) (offs : Z) (s : lvptr) (count : Z) (m : memory) : run (Z * memory) :=
  match file name with
  | None => Ok (-1, m)
  | Some d =>
      if count <? 0 then Ok (-1, m) else
      let data := take (Z.to_nat count) (drop (Z.to_nat offs) d) in
      m ← of_option (store s data m); Ok (Z.of_nat (length data), m)
  end.

(** [strncpy0( s, name, n )] into guest memory *)
Definition copy_name (s : lvptr) (name : str) (n : Z) (m : memory) : option memory :=
  if u32 n =? 0 then Some m
  else store s (take (Z.to_nat (Z.min (u32 n - 1) (Z.of_nat (length name)))) name ++ [0]) m.

(** [mphys_to_lvptr], 0 only in RAM *)
Definition ram_ptr (a : Z) (m : memory) : option lvptr :=
  match mphys_to_lvptr a m with (0, p) => p | _ => None end.

(** The result, [params\[1\]] and the memory; the parameters are registers of
    the guest. *)
Definition osip_pseudo_fs (p0 p1 p2 p3 p4 : Z) (l : list pfile_t) (m : memory) : run (Z * Z * memory) :=
  if p0 =? kPseudoFSOpen then
    match ram_ptr p1 m with
    | None => Ok (-1, p1, m)
    | Some s => r ← find_name s m 0 l; Ok (r, p1, m)
    end
  else if p0 =? kPseudoFSClose then Ok (0, p1, m)
  else if p0 =? kPseudoFSRead then
    let '(p, p1) := count_down p1 l in
    match p, ram_ptr p3 m with
    | Some p, Some s => '(r, m) ← read_file (linux_name p) p2 s p4 m; Ok (r, p1, m)
    | _, _ => Ok (-1, p1, m)
    end
  else if p0 =? kPseudoFSGetSize then
    let '(p, p1) := count_down p1 l in
    match p with
    | None => Ok (-1, p1, m)
    | Some p => Ok (match lstat (linux_name p) with None => -1 | Some n => s32 n end, p1, m)
    end
  else if p0 =? kPseudoFSIndex2Name then
    let '(p, p1) := count_down p1 l in
    match p, ram_ptr p2 m with
    | Some p, Some s => m ← of_option (copy_name s (linux_name p) p3 m); Ok (0, p1, m)
    | _, _ => Ok (-1, p1, m)
    end
  else Ok (-1, p1, m).

(** ** The start *)

Definition indexed_name (s : str) (index : Z) : str :=
  take 127 (take 127 s ++ if index =? 0 then [] else lit "-" ++ ResMgr.dec index).

(** The loop over the numbers for one name; the last list of resources
    ([once]) has no numbers. *)
Fixpoint index_loop (fuel : nat) (index : Z) (once : bool) (lname s : str) (l : list pfile_t) : run (list pfile_t) :=
  if once && negb (index =? 0) then Ok l else
  match fuel with
  | O => BlockDev.Fuel
  | S fuel =>
      let buf2 := indexed_name s index in
      if bool_decide (is_Some (find_pseudofile buf2 l)) then index_loop fuel (index + 1) once lname s l
      else Ok (publish_pseudofile (Some lname) (Some buf2) l).2
  end.

Fixpoint res_loop (n fuel i : nat) (key : str) (once : bool) (t : ResMgr.table) (l : list pfile_t) : run (list pfile_t) :=
  match n with
  | O => Ok l
  | S n =>
      match ResMgr.get_str_res_ind key i 0 t with
      | None => Ok l
      | Some s =>
          l ← (match ResMgr.get_str_res_ind key i 1 t with None => Ok l | Some lname => index_loop fuel 0 once lname s l end);
          res_loop n fuel (S i) key once t l
      end
  end.

Definition pseudofs_init (fuel : nat) (t : ResMgr.table) (l : list pfile_t) : run (list pfile_t) :=
  l ← res_loop (S (length t)) fuel 0 (lit "pseudofile") false t l;
  l ← res_loop (S (length t)) fuel 0 (lit "pseudofile_") false t l;
  res_loop (S (length t)) fuel 0 (lit "@pseudofile") true t l.

(** ** Names *)

Lemma find_pseudofile_in name l p : find_pseudofile name l = Some p -> p ∈ l /\ pseudo_name p = name.
Proof.
  induction l as [|x l IH]; cbn; [done|]. destruct (strcmp_eq _ _) eqn:E; [intros [= <-]; split; [by left|by apply strcmp_true in E]|].
  intros H%IH. destruct H as [H1 H2]. split; [by right|done].
Qed.

Lemma find_pseudofile_none name l : find_pseudofile name l = None <-> name ∉ map pseudo_name l.
Proof.
  induction l as [|x l IH]; cbn [find_pseudofile map]; [split; [intros _; apply not_elem_of_nil|done]|].
  rewrite not_elem_of_cons. destruct (strcmp_eq (pseudo_name x) name) eqn:E.
  - apply strcmp_true in E. split; [done|]. intros [? _]. congruence.
  - apply strcmp_false in E. rewrite IH. split; [intros ?; split; congruence|tauto].
Qed.

(** Names stay distinct. *)
Lemma publish_nodup f n l : NoDup (map pseudo_name l) -> NoDup (map pseudo_name (publish_pseudofile f n l).2).
Proof.
  intros Hl. unfold publish_pseudofile. destruct f as [f|], n as [n|]; try done. case_bool_decide as Hd; [done|].
  destruct (file f); [|done]. cbn [snd map]. apply list.NoDup_cons. split; [|done]. by apply find_pseudofile_none, eq_None_not_Some.
Qed.

(** ** Reading a file *)

Lemma load_one o m : 0 <= o < size (ram m) -> load (LRam o) 1 m = Some [cell (ram m) o].
Proof.
  intros Ho. unfold load, inside. cbn [offs_of bank_of]. rewrite (proj2 (Z.leb_le 0 o)), (proj2 (Z.leb_le (o + Z.of_nat 1) _)) by lia.
  cbn. by rewrite Z.add_0_r.
Qed.

Lemma guest_strcmp_spec m s name : nonul name -> nonul s -> forall o, 0 <= o -> o + Z.of_nat (length s) < size (ram m) ->
  bytes (ram m) o (length s + 1) = s ++ [0] -> guest_strcmp name (LRam o) m = Some (strcmp_eq name s).
Proof.
  intros Hn. revert s. induction Hn as [|x name Hx _ IH]; intros s Hs o Ho Hl Hb; cbn [guest_strcmp]; rewrite load_one by lia; cbn [mbind option_bind].
  - assert (Hc : cell (ram m) o = default 0 (head (s ++ [0]))).
    { rewrite <- Hb. replace (length s + 1)%nat with (1 + length s)%nat by lia. rewrite bytes_app. cbn. by rewrite Z.add_0_r. }
    destruct s as [|c s]; cbn in Hc; rewrite Hc.
    + by rewrite bool_decide_eq_true_2 by done; rewrite strcmp_refl.
    + apply list.Forall_cons in Hs as [Hc0 _]. rewrite bool_decide_eq_false_2 by congruence. by rewrite (proj2 (strcmp_false _ _)) by congruence.
  - destruct s as [|c s]; cbn [length Nat.add app] in Hb.
    + cbn in Hb. injection Hb as Hc. rewrite Z.add_0_r in Hc. rewrite Hc, bool_decide_eq_false_2 by congruence. by rewrite (proj2 (strcmp_false _ _)) by congruence.
    + apply list.Forall_cons in Hs as [Hc0 Hs]. cbn [length] in Hl.
      replace (S (length s + 1))%nat with (1 + (length s + 1))%nat in Hb by lia. rewrite bytes_app in Hb. cbn [bytes seq map app] in Hb.
      injection Hb as Hc Hb. rewrite Z.add_0_r in Hc. rewrite Hc. case_bool_decide as E.
      * injection E as ->. cbn [plus]. change (Z.of_nat 1) with 1 in Hb. rewrite (IH s) by (done || lia).
        f_equal. apply bool_decide_ext. split; congruence.
      * by rewrite (proj2 (strcmp_false _ _)) by congruence.
Qed.

Lemma find_name_spec m s o : nonul s -> 0 <= o -> o + Z.of_nat (length s) < size (ram m) -> bytes (ram m) o (length s + 1) = s ++ [0] ->
  forall l ind, Forall (fun p => nonul (pseudo_name p)) l ->
  exists r, find_name (LRam o) m ind l = Ok r /\
    match find_pseudofile s l with Some p => exists i, r = ind + Z.of_nat i /\ l !! i = Some p | None => r = -1 end.
Proof.
  intros Hs Ho Hl Hb l. induction l as [|p l IH]; intros ind Hp; cbn [find_name find_pseudofile]; [by eexists|].
  apply list.Forall_cons in Hp as [Hp Hps]. rewrite (guest_strcmp_spec m s) by done. cbn [of_option mbind run_bind].
  destruct (strcmp_eq (pseudo_name p) s).
  - exists ind. split; [done|]. exists O. split; [lia|done].
  - destruct (IH (ind + 1) Hps) as (r & E & Hr). exists r. split; [done|]. destruct (find_pseudofile s l); [|done].
    destruct Hr as (i & -> & Hi). exists (S i). split; [lia|done].
Qed.

Lemma count_down_nth l : forall i p, l !! i = Some p -> Z.of_nat i < 2 ^ 31 -> (count_down (Z.of_nat i) l).1 = Some p.
Proof.
  induction l as [|x l IH]; intros [|i] p E Hi; [done|done|by injection E as ->|]. cbn [count_down].
  rewrite (proj2 (Z.eqb_neq (Z.of_nat (S i)) 0)) by lia. rewrite s32_small by lia. replace (Z.of_nat (S i) - 1) with (Z.of_nat i) by lia. apply IH; [done|lia].
Qed.

(** The guest opens a published file by its name and reads a piece of it: it
    gets the bytes of the file of the host, nothing else in its memory
    changes, and a missing name gives -1. *)
Theorem pseudofs_open_read l m a s o :
  Forall (fun p => nonul (pseudo_name p)) l -> Z.of_nat (length l) < 2 ^ 31 -> nonul s ->
  transl (ram m) a = Some o -> 0 <= o -> o + Z.of_nat (length s) < size (ram m) -> bytes (ram m) o (length s + 1) = s ++ [0] ->
  exists fd, osip_pseudo_fs kPseudoFSOpen a 0 0 0 l m = Ok (fd, a, m) /\
    match find_pseudofile s l with
    | None => fd = -1
    | Some p =>
        forall d offs b ob count, file (linux_name p) = Some d -> 0 <= offs -> 0 <= count ->
        transl (ram m) b = Some ob -> 0 <= ob -> ob + count <= size (ram m) ->
        let data := take (Z.to_nat count) (drop (Z.to_nat offs) d) in
        exists p1 m', osip_pseudo_fs kPseudoFSRead fd offs b count l m = Ok (Z.of_nat (length data), p1, m') /\
          bytes (ram m') ob (length data) = data /\ frame (fun x => ob <= x < ob + Z.of_nat (length data)) m m'
    end.
Proof.
  intros Hp Hlen Hs Ht Ho Hl Hb. destruct (find_name_spec m s o Hs Ho Hl Hb l 0 Hp) as (r & E & Hr). exists r. split.
  - unfold osip_pseudo_fs. change (kPseudoFSOpen =? kPseudoFSOpen) with true. cbv iota.
    assert (Hr1 : ram_ptr a m = Some (LRam o)) by (unfold ram_ptr, mphys_to_lvptr; by rewrite Ht). rewrite Hr1, E. done.
  - destruct (find_pseudofile s l) as [p|]; [|done]. destruct Hr as (i & -> & Hi). rewrite Z.add_0_l.
    intros d offs b ob count Ef Hoff Hc Htb Hob Hend data. apply lookup_lt_Some in Hi as Hlt.
    pose proof (count_down_nth l i p Hi ltac:(lia)) as Hcd. unfold osip_pseudo_fs.
    change (kPseudoFSRead =? kPseudoFSOpen) with false. change (kPseudoFSRead =? kPseudoFSClose) with false.
    change (kPseudoFSRead =? kPseudoFSRead) with true. cbv iota. destruct (count_down (Z.of_nat i) l) as [q p1]. cbn [fst] in Hcd. subst q.
    assert (Hr1 : ram_ptr b m = Some (LRam ob)) by (unfold ram_ptr, mphys_to_lvptr; by rewrite Htb). rewrite Hr1.
    unfold read_file. rewrite Ef. rewrite (proj2 (Z.ltb_ge count 0)) by lia. fold data.
    assert (Hd : Z.of_nat (length data) <= count) by (unfold data; rewrite length_take; lia).
    destruct (store_ram ob data m) as (m' & Em & Hm); [lia|lia|]. exists p1, m'. rewrite Em. done.
Qed.

(** ** The start *)

(** A name that fills the buffer leaves no room for the number: if it is
    taken, the start never ends. *)
Lemma long_name_hangs s l lname fuel index : (127 <= length s)%nat -> is_Some (find_pseudofile (take 127 s) l) ->
  index_loop fuel index false lname s l = BlockDev.Fuel.
Proof.
  intros Hs Hf. revert index. induction fuel as [|fuel IH]; intros index; [done|]. cbn [index_loop andb].
  assert (E : indexed_name s index = take 127 s).
  { unfold indexed_name. rewrite take_app_le by (rewrite length_take; lia). rewrite take_take. by rewrite Nat.min_id. }
  rewrite E, bool_decide_eq_true_2 by done. apply IH.
Qed.

End Pseudofs.
End Pseudofs.
